(* ===== verification/_CoqProject ===== *)
-Q . S2P
Prelude.v
Codec.v
Canonical.v
Wire.v
Task.v
Agent.v
Resource.v
Artifact.v
ProviderInput.v
Browser.v
Operation.v
Snapshot.v
Event.v
NativeBrowser.v
Command.v
Sample.v
Invariant.v
WellFormed.v
Sessions.v
Outbox.v
Kernel.v
Decision.v
Reachable.v
Effects.v
Agreement.v
Frame.v
Chunk.v
Stream.v
Order.v
OperationQueue.v
Generation.v
Pages.v
ProjectionIndex.v
Client.v
Assembly.v
Replica.v
Inbox.v
Cockpit.v
Query.v
UnsolicitedInbox.v
HostClient.v
Subscription.v
Synchronized.v
Ledger.v
TerminalProtocol.v
Terminal.v
TerminalService.v
TerminalRuns.v
TerminalStamps.v
TerminalSlots.v
TerminalReplica.v
ConnectLimits.v
Presence.v
ConnectSession.v
Permission.v
SecureFrame.v
SecureChannel.v
SecureDelivery.v
Relay.v
RelayRuns.v
Invite.v
WriterLease.v
Float32.v
Layout.v
LayoutTree.v
Allocation.v
Minimise.v
Workspaces.v
