(* ===== verification/Prelude.v ===== *)
(** * DevManager: the durable task domain, its kernel decisions, and its clients

    DevManager is a desktop host for coding agents.  A host process owns the durable truth about
    each task (its agents, terminals, artifacts, provider conversation and browser) as a log of
    domain events; clients hold a read model built from a snapshot and kept current by replay.
    This library models the part of the program that decides and folds that truth, the protocol
    documents that carry it, the client's copy of it, and the panes a client shows it in.  Names are those of the source: a type
    or function of the Rust code keeps its name, record fields carry a short prefix, and enum
    constructors carry one where two enums share a name.

    ** How the parts interact

    A command arrives in an envelope.  [Command.command_decide] reads the task's current snapshot
    and answers events or a rejection; [Reachable.commit_decision] stamps the events with revisions;
    [Outbox.plan_effects] derives the one effect the host must carry out; [Event.apply] folds each
    event into the next snapshot.  The host appends the facts it observes (a terminal exited, a
    resource released, an operation settled), which go through the same [apply].  Snapshot pages
    and replay pages ([Pages]) go to clients, where [Assembly] builds a [ClientModel] and [Client]
    applies later events with the same domain [apply]; [ProjectionIndex] orders the tasks for
    display.  The client's [Subscription] asks its [HostClient] for those pages and follows the
    live tail through the [UnsolicitedInbox] of its connection.  Large payloads travel as [Frame]s
    and [Chunk]ed transfers, live output as [Stream] frames, and orchestration documents pass the bounded scanner of [Codec].  Browser workflows
    are minted by the [Generation] authority over the task's browser book and queue per tab in
    [OperationQueue].

    ** Files and the source they follow (paths under src/src/)

    - [Prelude]: results and the [?] operator, guards, machine integers, folds, tactics
      ([ok_inv], [peel], [facts], [bool_inv], [succeeds]) and rewrite databases.  [Order]: the
      comparison functions of the standard library as a class with laws, and BTreeSet as a
      strictly increasing list.  [Wire]: reading a named-map document field by field.
    - [Canonical] (domain/canonical.rs, domain/id.rs), [Task] (domain/task.rs), [Agent]
      (domain/agent.rs, providers/capabilities.rs), [Resource] (domain/resource.rs,
      domain/terminal_facts.rs, domain/agent_resource.rs), [Artifact] (domain/artifact.rs),
      [ProviderInput] (domain/provider_input.rs), [Browser] (domain/browser.rs), [Operation]
      (domain/operation.rs, domain/host.rs), [Snapshot] (domain/snapshot.rs): the data of a task,
      its validation and its own operations.
    - [Event] (domain/event.rs): [apply] and [apply_all], one definition per event arm.
      [Command] and [NativeBrowser] (domain/command.rs, domain/native_browser.rs): [decide], one
      definition per command arm and the guards they share.
    - [Outbox] (kernel/outbox.rs and the pure part of kernel/command_bus.rs): effect planning and
      the stamping of an accepted decision.
    - [Kernel], [Reachable]: the kernel as a transition system whose state is a task's snapshot;
      a step executes a decided command or records a host fact.
    - [Frame], [Chunk], [Stream] (protocol/frame.rs, protocol/chunk.rs, protocol/stream.rs),
      [Codec] (domain/codec.rs), [OperationQueue] and [Generation] (browser/operation_queue.rs,
      browser/generation.rs).
    - [Pages] (domain/operation.rs, domain/snapshot.rs), [ProjectionIndex], [Client], [Assembly]
      (client/model.rs): what is shipped to a client and what it makes of it.
    - [Query] (protocol/capabilities.rs, the documents of domain/query.rs, host/ipc.rs),
      [UnsolicitedInbox] (the inbox of client/connection.rs), [HostClient] (client/host_client.rs)
      and [Subscription] (client/subscription.rs): how a client asks its host and follows it.
      Asynchronous methods are programs in the monad [Subscription.io] over the pair of the
      subscription and the client; the transport is the class [HostClient.ClientConnection].
    - [Cockpit] (domain/cockpit.rs, git/desktop.rs): the read-side queries of a task's cockpit, the
      paths and labels that cross it, and two of its projections.
    - [TerminalProtocol] (terminal/protocol.rs), [Terminal] and [TerminalService]
      (terminal/service.rs), [TerminalReplica] (terminal/replica.rs): the terminals a host keeps,
      their inputs, and the copies clients hold.  A method of [HostedTerminal] is a program of the
      monad [Terminal.method]; [TerminalRuns.terminal_do] composes the service's calls with the
      events of the readers.
    - [Presence], [ConnectSession] (connect/epoch.rs, connect/presence.rs, connect/session.rs): the
      session several devices share on one task.  [Permission] (connect/permission.rs,
      connect/permissions.rs): who may do what over Connect.  [ConnectLimits]
      (connect/envelope.rs): the limits of a channel.
    - [SecureFrame] (protocol/crypto.rs), [SecureChannel] (protocol/crypto.rs, connect/crypto.rs):
      sealed frames, the replay window, the Noise handshake and the channel of bytes between two
      ends; [SecureDelivery] is what arrives between two production ends.  [Relay] (connect/relay.rs) passes sealed frames between the sockets of a route;
      [RelayRuns] is any sequence of its calls.  [Invite] (connect/invites.rs): the invites that
      let a guest into one task.  [WriterLease] (remote/web/lease.rs): the lease that lets one web
      client write at a time, and the controller who waits for a mutation in flight.
    - [Layout] (ui/task_workspace/layout.rs, the selection of ui/task_workspace/surfaces.rs): the
      panes of a task workspace as a tree of splits, with focus and zoom, and every gesture that
      changes it.  [Float32] is the arithmetic of [f32], [LayoutTree] the lemmas on trees.
      [Allocation] (ui/task_workspace/allocation.rs): which panes shrink to a strip and the
      rectangle each is painted in.  [Minimise] and [Workspaces] hold their theorems;
      [Workspaces.gesture] is any one gesture and [Workspaces.workspace_reached] any sequence.
    - [Sample]: concrete parameters and runs on which the theorems are applied.
    - [Invariant], [WellFormed], [Sessions], [Decision], [Effects], [Agreement], [Replica],
      [Inbox], [Synchronized], [Ledger], [TerminalRuns], [TerminalStamps], [TerminalSlots]:
      properties that concern several of the files above.
      [Synchronized] has the rules for programs of the monad [io]; [Ledger] runs them over a
      connection that writes down its exchanges.

    ** State and operations

    State is passed explicitly.  [&mut self] methods return the new state with their result; where
    an early return leaves a partial effect behind, the pair of state and error says so
    ([Browser.apply_facts], [Chunk.accept], [Generation.recover_generation],
    [Assembly.ingest_page]), and where the code works on a clone the old state is returned on an
    error ([Client.apply_replay_page]).  Identifiers are [N]; [u64], [u32] and [usize] are [N] with
    their checked, saturating or wrapping operation written out; times are [Z].  Text is a list of
    code points, bytes a list of [N].  Maps and sets are stdpp's [gmap] and [gset]; loops over a
    BTreeMap run over [sorted_entries].

    ** What the theorems show

    - Decision and projection agree: on a reachable task the events of an accepted decision apply,
      outside the places [Agreement.room_for] names, where the code checks different things
      ([Agreement.decided_events_apply]); accepted decisions can be planned and the effect repeats
      the identities decided on ([Effects.accepted_decision_planned]).
    - Concurrency of writers: a decision needs the current revision, and of two writers on the
      same revision the second is rejected ([Reachable.decide_requires_current_revision],
      [Reachable.second_writer_rejected], [Reachable.receipt_reports_final_revision]).
    - Invariants of reachable snapshots: well-formedness of every part, the crew (one primary, its
      specialists), archived tasks at rest, the terminal strip, the lifecycle machine and the
      counters ([WellFormed], [Reachable], [Invariant]).
    - Provider sessions: the first answer stands, a conversation is never swapped for another, a
      pending wait is never evicted ([Sessions], [ProviderInput]).
    - The browser: batches of facts apply wholly or not at all, replaying the journal rebuilds the
      book, admission and settlement do what they decided, work once cancelled or recovered from
      never resumes, a queue keeps its order and drains ([Browser], [Generation], [OperationQueue]).
    - Clients: an assembled model holds exactly the shipped items
      ([Assembly.assembled_model_complete]); replay keeps it equal to the host's fold, less
      artifact bodies ([Replica.client_tracks_host]); the outcome of an operation never regresses
      ([Replica.operation_states_monotone]); the inbox is always the one of the tasks held
      ([Inbox.client_index_current]).
    - Synchronisation: a call that succeeds installs the model of one snapshot followed by its
      replay, and one that fails keeps the old model ([Synchronized.synchronize_installs_model]);
      it ends whatever the host answers ([Synchronized.synchronization_ends]); the live tail
      changes the model only by new events of its own subscription
      ([Synchronized.live_tail_safe]); no snapshot or replay of the host is lost
      ([Ledger.no_handle_lost]); the inbox keeps the order of durable messages, hides retired
      subscriptions and serves every lane in turn ([UnsolicitedInbox.inbox_keeps_order],
      [UnsolicitedInbox.no_lane_starves]); tracked outcomes stand
      ([HostClient.tracked_outcomes_stand]).
    - Shared sessions: every command is accepted once and the inputs to a resource in order, the
      first answer to a request stands, a disconnection strands what was queued, and every
      collection stays in its bound, full ones refusing ([ConnectSession]); guests act only under a
      live grant for that act, a watcher changes nothing but what the code files as reading, and
      admission fails closed ([Permission]); limits are agreed by both ends
      ([ConnectLimits]); no path or name sent to the cockpit leaves its directory ([Cockpit]).
    - Terminals: inputs are taken once and in order, against exact fences; collections stay
      bounded; a task never has two terminals one query could mean; a closed terminal stays closed;
      and a replica that follows a terminal keeps following it, or asks for a snapshot
      ([TerminalRuns], [TerminalSlots], [TerminalReplica]).
    - Channels: the replay window of 64 bits decides like the full list of numbers accepted
      ([SecureFrame.replay_window_exact]); over a library that numbers its messages as documented
      (the class [SecureDelivery.OrderedNoise]), whatever is done to the order and the clear fields
      of the frames, what opens are the messages as sent, each once and in order
      ([SecureDelivery.production_messages_in_order]), and over the source-level sealer each
      arrives at most once ([SecureChannel.messages_arrive_once]); a finished
      handshake is with the pinned peer ([SecureChannel.finished_handshake_pins_peer]).  The relay
      forwards only between two sockets with signed, live and never revoked tickets of one route,
      keeps the order of each socket's frames and its own limits ([RelayRuns]); a ticket has one
      byte form ([Relay.route_ticket_canonical]).  Guests stay within the invite they redeemed
      ([Invite]).
    - Web control: mutations never overlap, a generation names one owner, a client that writes is
      not interrupted and one that lost the lease is fenced off, and a controller who was told to
      wait gets control when the mutation in flight is finished ([WriterLease]).
    - Panes: no sequence of gestures breaks the tree, loses a task or shows it twice; closing undoes
      opening; panes opened one by one tile like a rebuilt grid; a selected task is shown and
      focused ([Workspaces]).  Shrinking panes to fit ends and leaves no pane whose strip would
      still help, and every open pane gets one rectangle ([Minimise]).
    - Wire: frames, chunks, stream frames, task facts and image digests round-trip; the MessagePack
      scanner accepts exactly the documents of a bounded grammar ([Frame], [Chunk], [Stream],
      [Task], [Codec]).

    Each file's examples also record where the program does not do what it means to; they are
    named in the comments beside them.

    ** Fuel and termination

    Recursion is structural except in the MessagePack scanner and the request loops of
    [Subscription].  Those take fuel and answer [None] without: 1,025 turns
    ([Synchronized.SYNC_TURNS]) are proved enough for preview and synchronisation, whose pages are
    bounded by 1,024; [Subscription.load_task_detail] has no bound in the code and none here.  [Codec.scan_fuel] is 17, one more
    than the sixteen levels of nesting a document may have, so the depth guard refuses before the
    fuel ends; a skip loop has one turn per block of 256 bytes of input and one more.  Both are
    proved sufficient by the equivalence with the grammar.  [Allocation.minimise_to_fit] loops on
    (panes + 1)² turns of fuel, proved enough whatever the sizes are by [Minimise.minimise_ends]:
    a round tries each pane at most once, and each round but the last makes one pane a strip.

    ** Parameters

    Code outside the repository is an argument: the SHA-256 function, the URL parser, the
    MessagePack library (the hash input of a browser request, the size of a page of rows, the
    marker of a byte), the JSON parser of a specialist's result, the payloads a host passes
    through unread, the allocator, UTF-8 decoding, the Unicode tables used to normalise a
    title, the iteration order of a HashMap, the check of a device credential by the identity store and its
    vault, the PTY session and the emulator behind a terminal ([Terminal.AttachedTerminalRuntime],
    [Terminal.FixtureEmulator]), and the transport to the host with the documents it
    carries for other components, HMAC-SHA256 (seals and tickets) and the Noise library of
    a channel.  Identifiers and times the code draws are arguments of the operations.  [f32] is the
    standard library's [SpecFloat] with 24 bits of precision, rounding to nearest even.

    ** What is not modelled

    - The SQL of the kernel (store, projector, snapshot and replay queries, purge, outbox claiming
      and receipts): its pure counterpart is [apply] and [plan_effects].
    - The durable codec of event documents (EventBody, EventDocument) and the payload validators
      run on encoding; portable snapshot sections; the serde forms of FrameLimits and
      OperationState.
    - Connecting, reconnecting and detaching, the correlation of pending replies on a connection
      and their deadlines, the wire codecs of queries, and the typed wrappers of other queries.
      A call of the subscription is modelled as run to its end, not cancelled between two awaits.
    - Title search: the postings and scalar totals beside the client's task orders.
    - Sockets, processes, PTYs and the terminal emulator, WebView2, git, SSH, HTTP and the
      file system: they call the parts above and keep no task truth.
    - The codec of a Connect envelope, device enrollment and the host vault.
    - The user interface, but for the workspace of panes: GPUI rendering and event handlers, the
      conversation caches and composers of a pane, and the files layouts are kept in. *)
From Stdlib Require Export NArith Lia List Ascii String.
From stdpp Require Export base option list gmap sets strings sorting finite pretty.
From Hammer Require Import Tactics.

Declare Scope devm_scope.
Delimit Scope devm_scope with devm.
Global Open Scope devm_scope.
Global Open Scope N_scope.

(** ** Results: [Result<T, E>] and the [?] operator *)

Inductive result (T E : Type) : Type :=
| Ok (t : T)
| Err (e : E).
Arguments Ok {T E} t.
Arguments Err {T E} e.

Definition rbind {T U E} (r : result T E) (f : T -> result U E) : result U E :=
  match r with
  | Ok t => f t
  | Err e => Err e
  end.

Definition rmap {T U E} (f : T -> U) (r : result T E) : result U E :=
  match r with
  | Ok t => Ok (f t)
  | Err e => Err e
  end.

Definition map_err {T E F} (f : E -> F) (r : result T E) : result T F :=
  match r with
  | Ok t => Ok t
  | Err e => Err (f e)
  end.

Definition ok_or {T E} (o : option T) (e : E) : result T E :=
  match o with
  | Some t => Ok t
  | None => Err e
  end.

Definition is_ok {T E} (r : result T E) : bool :=
  match r with
  | Ok _ => true
  | Err _ => false
  end.

(** [if c { return Err(e) }] *)
Definition guard {E} (c : bool) (e : E) : result unit E :=
  if c then Ok tt else Err e.

Notation "'let?' x := r 'in' k" := (rbind r (fun x => k))
  (at level 10, x pattern, r at level 99, k at level 200) : devm_scope.
Notation "'try?' r ;; k" := (rbind r (fun _ => k))
  (at level 10, r at level 99, k at level 200) : devm_scope.
Notation "'ensure' c 'else' e ;; k" := (rbind (guard c e) (fun _ => k))
  (at level 10, c at level 99, e at level 99, k at level 200) : devm_scope.

#[export] Instance result_eq_dec {T E} `{EqDecision T} `{EqDecision E} :
  EqDecision (result T E).
Proof. solve_decision. Defined.

Lemma rbind_Ok {T U E} (r : result T E) (f : T -> result U E) (u : U) :
  rbind r f = Ok u <-> exists t, r = Ok t /\ f t = Ok u.
Proof. destruct r; simpl; split; naive_solver. Qed.

Lemma guard_Ok {E} (c : bool) (e : E) (u : unit) :
  guard c e = Ok u <-> c = true.
Proof. destruct c, u; simpl; split; naive_solver. Qed.

Lemma ok_or_Ok {T E} (o : option T) (e : E) (t : T) :
  ok_or o e = Ok t <-> o = Some t.
Proof. destruct o; simpl; split; naive_solver. Qed.

Lemma map_err_Ok {T E F} (f : E -> F) (r : result T E) (t : T) :
  map_err f r = Ok t <-> r = Ok t.
Proof. destruct r; simpl; split; naive_solver. Qed.

Lemma rmap_Ok {T U E} (f : T -> U) (r : result T E) (u : U) :
  rmap f r = Ok u <-> exists t, r = Ok t /\ u = f t.
Proof. destruct r; simpl; split; naive_solver. Qed.

Create Rewrite HintDb result.
Create Rewrite HintDb bools.
Create Rewrite HintDb counts.
Create Rewrite HintDb text.
#[export] Hint Rewrite @rbind_Ok @guard_Ok @ok_or_Ok @map_err_Ok @rmap_Ok : result.

(** Peels one layer of [?], a guard or a match off a successful run. *)
Ltac ok_step :=
  match goal with
  | H : rbind _ _ = Ok _ |- _ => apply rbind_Ok in H as (? & ? & H)
  | H : guard _ _ = Ok _ |- _ => apply guard_Ok in H
  | H : ok_or _ _ = Ok _ |- _ => apply ok_or_Ok in H
  | H : map_err _ _ = Ok _ |- _ => apply map_err_Ok in H
  | H : rmap _ _ = Ok _ |- _ => apply rmap_Ok in H as (? & ? & ?)
  | H : Err _ = Ok _ |- _ => discriminate H
  | H : Ok _ = Err _ |- _ => discriminate H
  | H : Ok _ = Ok _ |- _ => injection H as H; try subst
  | H : Some _ = Some _ |- _ => injection H as H; try subst
  | H : None = Some _ |- _ => discriminate H
  | H : Some _ = None |- _ => discriminate H
  | H : (if ?b then _ else _) = Ok _ |- _ => let E := fresh "E" in destruct b eqn:E
  | H : (match ?o with Some _ => _ | None => _ end) = Ok _ |- _ =>
      let E := fresh "E" in destruct o eqn:E
  end.
Ltac ok_inv := repeat (ok_step; simpl in * ).

(** ** Booleans *)

(** [==] of a type that derives [PartialEq]. *)
Definition eqb {A} `{EqDecision A} (x y : A) : bool := bool_decide (x = y).

Lemma eqb_true {A} `{EqDecision A} (x y : A) : eqb x y = true <-> x = y.
Proof. unfold eqb. apply bool_decide_eq_true. Qed.

Lemma eqb_false {A} `{EqDecision A} (x y : A) : eqb x y = false <-> x <> y.
Proof. unfold eqb. apply bool_decide_eq_false. Qed.

Lemma eqb_refl {A} `{EqDecision A} (x : A) : eqb x x = true.
Proof. by apply eqb_true. Qed.

Lemma eqb_true_1 {A} `{EqDecision A} (x y : A) : eqb x y = true -> x = y.
Proof. apply eqb_true. Qed.

Lemma guard_eqb {A E} `{EqDecision A} (x y : A) (e : E) u :
  guard (eqb x y) e = Ok u -> x = y.
Proof. intros H. apply guard_Ok in H. by apply eqb_true. Qed.

Lemma guard_negb {E} (c : bool) (e : E) u : guard (negb c) e = Ok u -> c = false.
Proof. intros H. apply guard_Ok in H. by apply negb_true_iff. Qed.

Infix "=?=" := eqb (at level 70, no associativity) : devm_scope.

Definition is_some {A} (o : option A) : bool :=
  match o with Some _ => true | None => false end.
Definition is_none {A} (o : option A) : bool := negb (is_some o).

(** [Option::is_none_or] / [Option::is_some_and] *)
Definition is_none_or {A} (o : option A) (p : A -> bool) : bool :=
  match o with Some a => p a | None => true end.
Definition is_some_and {A} (o : option A) (p : A -> bool) : bool :=
  match o with Some a => p a | None => false end.

Lemma is_some_true {A} (o : option A) : is_some o = true <-> exists a, o = Some a.
Proof. destruct o; simpl; split; naive_solver. Qed.
Lemma is_some_false {A} (o : option A) : is_some o = false <-> o = None.
Proof. destruct o; simpl; split; naive_solver. Qed.
Lemma is_none_true {A} (o : option A) : is_none o = true <-> o = None.
Proof. destruct o; simpl; split; naive_solver. Qed.

#[export] Hint Rewrite @eqb_true @eqb_false andb_true_iff orb_true_iff
  andb_false_iff orb_false_iff negb_true_iff negb_false_iff
  N.ltb_lt N.ltb_ge N.leb_le N.leb_gt N.eqb_eq N.eqb_neq
  @is_some_true @is_some_false @is_none_true : bools.

Ltac bool_inv := autorewrite with bools in *; destruct_and?.
Ltac bool_solve := autorewrite with bools; try done; try lia.

(** ** Machine-width integers: [u64] as [N], checked and saturating addition *)

Definition u64_max : N := 18446744073709551615.

Definition checked_add (a b : N) : option N :=
  if a + b <=? u64_max then Some (a + b) else None.

Definition saturating_add (a b : N) : N := N.min (a + b) u64_max.

Definition saturating_sub (a b : N) : N := a - b.

Lemma checked_add_Some a b c :
  checked_add a b = Some c <-> c = a + b /\ a + b <= u64_max.
Proof.
  unfold checked_add. destruct (N.leb_spec (a + b) u64_max); split; intros Hc.
  - by simplify_eq.
  - destruct Hc as [-> _]. done.
  - done.
  - lia.
Qed.

Lemma checked_add_None a b : checked_add a b = None <-> u64_max < a + b.
Proof. unfold checked_add. destruct (N.leb_spec (a + b) u64_max); split; naive_solver lia. Qed.

Lemma saturating_add_bound a b : saturating_add a b <= u64_max.
Proof. unfold saturating_add. lia. Qed.

Lemma saturating_succ a : a < u64_max -> saturating_add a 1 = a + 1.
Proof. unfold saturating_add. lia. Qed.

Lemma saturating_add_le a b c : saturating_add a b <= c -> c < u64_max -> a + b <= c.
Proof. unfold saturating_add. intros H Hc. apply N.min_le in H. lia. Qed.

(** Number of elements of a list, as the [usize] the code compares. *)
Definition count {A} (l : list A) : N := N.of_nat (length l).

Lemma count_nil {A} : count (@nil A) = 0.
Proof. done. Qed.
Lemma count_cons {A} (x : A) l : count (x :: l) = 1 + count l.
Proof. unfold count. simpl. lia. Qed.
Lemma count_app {A} (l k : list A) : count (l ++ k) = count l + count k.
Proof. unfold count. rewrite length_app. lia. Qed.

Lemma list_filter_nil {A} (p : A -> bool) (l : list A) :
  (forall x, x ∈ l -> p x = false) -> List.filter p l = [].
Proof.
  induction l as [|x l IH]; intros Hp; simpl; [done|].
  rewrite (Hp x) by (by left). apply IH. intros y Hy. apply Hp. by right.
Qed.

(** Number of entries of a map. *)
Definition msize {A} (m : gmap N A) : N := N.of_nat (size m).

Lemma msize_empty {A} : msize (∅ : gmap N A) = 0.
Proof. unfold msize. by rewrite map_size_empty. Qed.

Lemma msize_insert_None {A} (m : gmap N A) k v :
  m !! k = None -> msize (<[k := v]> m) = msize m + 1.
Proof. intros Hk. unfold msize. rewrite map_size_insert_None by done. lia. Qed.

Lemma msize_insert_Some {A} (m : gmap N A) k v w :
  m !! k = Some w -> msize (<[k := v]> m) = msize m.
Proof. intros Hk. unfold msize. by rewrite map_size_insert, Hk. Qed.

Lemma msize_insert_le {A} (m : gmap N A) k v : msize (<[k := v]> m) <= msize m + 1.
Proof.
  destruct (m !! k) eqn:Hk.
  - rewrite (msize_insert_Some _ _ _ _ Hk). lia.
  - by rewrite (msize_insert_None _ _ _ Hk).
Qed.

Lemma msize_delete_Some {A} (m : gmap N A) k v : m !! k = Some v -> msize (delete k m) + 1 = msize m.
Proof.
  intros Hk. rewrite <- (insert_delete_id m k v Hk) at 2.
  rewrite msize_insert_None by apply lookup_delete_eq. done.
Qed.

Lemma msize_delete_le {A} (m : gmap N A) k : msize (delete k m) <= msize m.
Proof.
  destruct (m !! k) as [v|] eqn:E; [pose proof (msize_delete_Some m k v E); lia|].
  by rewrite delete_id.
Qed.

Lemma lookup_insert_dec {V} (m : gmap N V) k v j :
  <[k := v]> m !! j = if decide (j = k) then Some v else m !! j.
Proof.
  destruct (decide (j = k)) as [->|Hne]; [apply lookup_insert_eq|by rewrite lookup_insert_ne].
Qed.

#[export] Hint Rewrite @count_nil @count_cons @count_app : counts.

(** ** Text: a Rust [String] as its sequence of Unicode scalar values *)

Notation char := N (only parsing).
Notation text := (list N) (only parsing).

(** UTF-8 encoding of one scalar value. *)
Definition utf8_char (c : char) : list N :=
  if c <? 0x80 then [c]
  else if c <? 0x800 then [0xC0 + c / 64; 0x80 + c mod 64]
  else if c <? 0x10000 then
    [0xE0 + c / 4096; 0x80 + (c / 64) mod 64; 0x80 + c mod 64]
  else
    [0xF0 + c / 262144; 0x80 + (c / 4096) mod 64; 0x80 + (c / 64) mod 64; 0x80 + c mod 64].

(** [str::as_bytes] and [str::len] *)
Definition bytes (s : text) : list N := concat (map utf8_char s).
Definition len (s : text) : N := count (bytes s).

Definition is_empty {A} (s : list A) : bool := match s with [] => true | _ => false end.

(** [char::is_whitespace]: the Unicode [White_Space] property. *)
Definition is_whitespace (c : char) : bool :=
  ((9 <=? c) && (c <=? 13)) || (c =? 32) || (c =? 0x85) || (c =? 0xA0) || (c =? 0x1680)
  || ((0x2000 <=? c) && (c <=? 0x200A)) || (c =? 0x2028) || (c =? 0x2029)
  || (c =? 0x202F) || (c =? 0x205F) || (c =? 0x3000).

(** [char::is_control]: the general category [Cc]. *)
Definition is_control (c : char) : bool := (c <? 32) || ((0x7F <=? c) && (c <=? 0x9F)).

Definition is_ascii_digit (c : char) : bool := (48 <=? c) && (c <=? 57).
Definition is_ascii_lower (c : char) : bool := (97 <=? c) && (c <=? 122).
Definition is_ascii_upper (c : char) : bool := (65 <=? c) && (c <=? 90).
Definition is_ascii_alphanumeric (c : char) : bool :=
  is_ascii_digit c || is_ascii_lower c || is_ascii_upper c.

Fixpoint trim_start (s : text) : text :=
  match s with
  | [] => []
  | c :: r => if is_whitespace c then trim_start r else s
  end.

Definition trim_end (s : text) : text := rev (trim_start (rev s)).

Definition trim (s : text) : text := trim_end (trim_start s).

(** [str::strip_prefix] *)
Fixpoint strip_prefix (p s : text) : option text :=
  match p, s with
  | [], _ => Some s
  | a :: p', b :: s' => if a =? b then strip_prefix p' s' else None
  | _ :: _, [] => None
  end.

Definition starts_with (p s : text) : bool := is_some (strip_prefix p s).

Definition contains_char (c : char) (s : text) : bool := existsb (N.eqb c) s.

(** A string literal of the source (ASCII). *)
Fixpoint lit (s : string) : text :=
  match s with
  | EmptyString => []
  | String.String a r => N_of_ascii a :: lit r
  end.

Lemma len_nil : len [] = 0.
Proof. done. Qed.

Lemma len_cons c s : len (c :: s) = count (utf8_char c) + len s.
Proof. unfold len, bytes. simpl. apply count_app. Qed.

Lemma utf8_char_pos c : 0 < count (utf8_char c) <= 4.
Proof. unfold utf8_char. repeat case_match; unfold count; simpl; lia. Qed.

Lemma len_app s t : len (s ++ t) = len s + len t.
Proof. unfold len, bytes. by rewrite map_app, concat_app, count_app. Qed.

Lemma len_zero s : len s = 0 <-> s = [].
Proof.
  destruct s as [|c s]; [done|]. rewrite len_cons. pose proof (utf8_char_pos c).
  split; [lia | done].
Qed.

Lemma count_le_len s : count s <= len s.
Proof.
  induction s as [|c s IH]; [done|].
  rewrite len_cons, count_cons. pose proof (utf8_char_pos c). lia.
Qed.

(** *** Trimming *)

Lemma trim_start_suffix s : exists p, s = p ++ trim_start s.
Proof.
  induction s as [|c s [p IH]]; simpl; [by exists []|].
  destruct (is_whitespace c).
  - exists (c :: p). simpl. by f_equal.
  - by exists [].
Qed.

Lemma trim_start_head s : match trim_start s with
                          | [] => True
                          | c :: _ => is_whitespace c = false
                          end.
Proof.
  induction s as [|c s IH]; simpl; [done|].
  destruct (is_whitespace c) eqn:E; done.
Qed.

Lemma trim_start_fix s :
  match s with [] => True | c :: _ => is_whitespace c = false end -> trim_start s = s.
Proof. destruct s as [|c s]; simpl; [done | by intros ->]. Qed.

Lemma trim_start_idem s : trim_start (trim_start s) = trim_start s.
Proof. apply trim_start_fix, trim_start_head. Qed.

Lemma trim_end_prefix s : exists p, s = trim_end s ++ p.
Proof.
  unfold trim_end. destruct (trim_start_suffix (rev s)) as [p Hp].
  exists (rev p). rewrite <- rev_app_distr, <- Hp. by rewrite rev_involutive.
Qed.

Lemma trim_end_idem s : trim_end (trim_end s) = trim_end s.
Proof. unfold trim_end. by rewrite rev_involutive, trim_start_idem. Qed.

Lemma trim_start_trim_end s : trim_start s = s -> trim_start (trim_end s) = trim_end s.
Proof.
  intros Hs. apply trim_start_fix.
  destruct (trim_end_prefix s) as [p Hp].
  pose proof (trim_start_head s) as Hh. rewrite Hs in Hh.
  destruct (trim_end s) as [|c r]; [done|]. by rewrite Hp in Hh.
Qed.

Lemma trim_idem s : trim (trim s) = trim s.
Proof.
  unfold trim. rewrite trim_start_trim_end by apply trim_start_idem.
  apply trim_end_idem.
Qed.

Lemma len_trim s : len (trim s) <= len s.
Proof.
  unfold trim.
  destruct (trim_start_suffix s) as [p Hp].
  destruct (trim_end_prefix (trim_start s)) as [q Hq].
  rewrite Hp at 2. rewrite Hq at 2. rewrite !len_app. lia.
Qed.

#[export] Hint Rewrite trim_idem : text.

Lemma strip_prefix_Some p s r : strip_prefix p s = Some r <-> s = p ++ r.
Proof.
  revert s; induction p as [|a p IH]; intros s; simpl; [split; naive_solver|].
  destruct s as [|b s]; [split; done|].
  destruct (N.eqb_spec a b) as [->|Hne].
  - rewrite IH. split; naive_solver.
  - split; naive_solver.
Qed.

(** ** [BTreeMap] iteration: entries in ascending key order *)

#[export] Instance key_le_dec {A} (x y : N * A) : Decision (fst x <= fst y) := N.le_dec _ _.

Definition sorted_entries {A} (m : gmap N A) : list (N * A) :=
  merge_sort (fun x y => fst x <= fst y) (map_to_list m).

Definition sorted_elements (s : gset N) : list N := merge_sort N.le (elements s).

Lemma sorted_entries_perm {A} (m : gmap N A) : sorted_entries m ≡ₚ map_to_list m.
Proof. apply merge_sort_Permutation. Qed.

Lemma elem_of_sorted_entries {A} (m : gmap N A) k v :
  (k, v) ∈ sorted_entries m <-> m !! k = Some v.
Proof. rewrite sorted_entries_perm. apply elem_of_map_to_list. Qed.

Lemma sorted_entries_sorted {A} (m : gmap N A) :
  StronglySorted (fun x y => fst x <= fst y) (sorted_entries m).
Proof.
  apply StronglySorted_merge_sort.
  - intros x y z. apply N.le_trans.
  - intros x y. destruct (N.le_ge_cases (fst x) (fst y)); [by left | right; lia].
Qed.

Lemma sorted_entries_nodup {A} (m : gmap N A) : NoDup (sorted_entries m).*1.
Proof. rewrite sorted_entries_perm. apply NoDup_fst_map_to_list. Qed.

Lemma count_sorted_entries {A} (m : gmap N A) : count (sorted_entries m) = msize m.
Proof. unfold count, msize. by rewrite sorted_entries_perm, length_map_to_list. Qed.

(** ** Loops that stop at the first error: [for x in l { s = f(s, x)?; }] *)

Fixpoint try_fold {S E A} (f : S -> A -> result S E) (s : S) (l : list A) : result S E :=
  match l with
  | [] => Ok s
  | a :: l => rbind (f s a) (fun s => try_fold f s l)
  end.

Lemma try_fold_app {S E A} (f : S -> A -> result S E) (l k : list A) : forall s s',
  try_fold f s (l ++ k) = Ok s' <-> exists s1, try_fold f s l = Ok s1 /\ try_fold f s1 k = Ok s'.
Proof.
  induction l as [|a l IH]; intros s s'; simpl; [naive_solver|].
  destruct (f s a); simpl; [apply IH|naive_solver].
Qed.

(** What holds of the elements processed so far holds of them all at the end. *)
Lemma try_fold_ind {S E A} (f : S -> A -> result S E) (P : list A -> S -> Prop) s l s' :
  P [] s ->
  (forall done_ a s1 s2, P done_ s1 -> f s1 a = Ok s2 -> P (done_ ++ [a]) s2) ->
  try_fold f s l = Ok s' -> P l s'.
Proof.
  intros H0 Hs. revert s'. induction l as [|a l IH] using rev_ind; intros s' Hl.
  - by injection Hl as <-.
  - apply try_fold_app in Hl as (s1 & Hl & Ha). simpl in Ha.
    destruct (f s1 a) as [s2|] eqn:Hf; [|done]. injection Ha as <-. eauto.
Qed.

(** ** Peeling a successful run layer by layer *)

(** One layer of [?] off [H : ... = Ok _], the layer's own success recorded
    as a fact about what it guards. *)
Ltac peel1 H :=
  lazymatch type of H with
  | rbind (guard _ _) _ = Ok _ =>
      let G := fresh "G" in apply rbind_Ok in H as (? & G%guard_Ok & H)
  | rbind (ok_or _ _) _ = Ok _ =>
      let G := fresh "G" in apply rbind_Ok in H as (? & G%ok_or_Ok & H)
  | rbind (map_err _ _) _ = Ok _ =>
      let G := fresh "G" in apply rbind_Ok in H as (? & G%map_err_Ok & H)
  | rbind _ _ = Ok _ =>
      let G := fresh "G" in apply rbind_Ok in H as (? & G & H)
  | map_err _ _ = Ok _ => apply map_err_Ok in H
  | ok_or _ _ = Ok _ => apply ok_or_Ok in H
  | rmap _ _ = Ok _ => apply rmap_Ok in H as (? & ? & ?)
  | Ok _ = Ok _ => injection H as H
  | Err _ = Ok _ => discriminate H
  | match ?x with _ => _ end = Ok _ => let G := fresh "G" in destruct x eqn:G
  end.
Ltac peel H := repeat peel1 H.

(** Guards as written in the code, [!(a != b || c)], as plain facts. *)
Ltac facts :=
  repeat match goal with u : unit |- _ => destruct u end;
  repeat match goal with
  | G : _ = true |- _ => progress autorewrite with bools in G
  | G : _ = false |- _ => progress autorewrite with bools in G
  end; destruct_and?.

(** ** Runs that succeed, built layer by layer *)

Definition succeeds {T E} (r : result T E) : Prop := exists x, r = Ok x.

Lemma succeeds_Ok {T E} (x : T) : succeeds (@Ok T E x).
Proof. by exists x. Qed.

Lemma succeeds_guard {T E} c (e : E) (k : unit -> result T E) :
  c = true -> succeeds (k tt) -> succeeds (rbind (guard c e) k).
Proof. by intros ->. Qed.

Lemma succeeds_bind {S T E} (r : result S E) (k : S -> result T E) x :
  r = Ok x -> succeeds (k x) -> succeeds (rbind r k).
Proof. by intros ->. Qed.

Lemma succeeds_ok_or {S T E} (o : option S) (e : E) (k : S -> result T E) x :
  o = Some x -> succeeds (k x) -> succeeds (rbind (ok_or o e) k).
Proof. by intros ->. Qed.

Lemma succeeds_map_err {T E F} (f : E -> F) (r : result T E) :
  succeeds r -> succeeds (map_err f r).
Proof. by intros [x ->]; exists x. Qed.

Lemma succeeds_map_err_bind {S T E F} (f : E -> F) (r : result S E) (k : S -> result T F) x :
  r = Ok x -> succeeds (k x) -> succeeds (rbind (map_err f r) k).
Proof. by intros ->. Qed.

(** A boolean guard from the plain facts at hand. *)
Ltac by_guard := autorewrite with bools; split_and?; solve [done | congruence | lia | eauto].

Ltac build1 :=
  lazymatch goal with
  | |- succeeds (Ok _) => apply succeeds_Ok
  | |- succeeds (rbind (guard _ _) _) => apply succeeds_guard; [by_guard|]
  | |- succeeds (rbind (ok_or _ _) _) => eapply succeeds_ok_or; [first [eassumption | reflexivity]|]
  | |- succeeds (rbind (map_err _ _) _) => eapply succeeds_map_err_bind; [first [eassumption | reflexivity]|]
  | |- succeeds (rbind _ _) => eapply succeeds_bind; [first [eassumption | reflexivity]|]
  | |- succeeds (map_err _ _) => apply succeeds_map_err
  end.
Ltac build := repeat build1.
