(* ===== verification/Codec.v ===== *)
(** The orchestration codec ([domain/codec.rs]): the MessagePack preflight that
    bounds a document before the deserialiser allocates for it.  The scanner is
    proved equivalent to a grammar of bounded documents. *)
From S2P Require Import Prelude.
#[local] Set Warnings "-register-all".

Definition MAX_ORCHESTRATION_MSGPACK_BYTES : N := 64 * 1024.
Definition MAX_ORCHESTRATION_MSGPACK_NODES : N := 512.
Definition MAX_ORCHESTRATION_MSGPACK_DEPTH : N := 16.
Definition MAX_ORCHESTRATION_MSGPACK_STRING_BYTES : N := 64 * 1024.
Definition MAX_ORCHESTRATION_MSGPACK_COLLECTION_ITEMS : N := 64.

Inductive MsgPackPreflightError :=
| TooManyBytes
| TooManyNodes
| TooDeep
| StringTooLong
| CollectionTooLong
| Truncated
| InvalidMarker
| ReservedMarker
| TrailingBytes.

(** The marker type of the [rmp] crate, whose byte values it documents. *)
Inductive Marker :=
| FixPos (value : N) | FixNeg (value : Z) | MNull | MTrue | MFalse | MReserved
| FixMap (size : N) | FixArray (size : N) | FixStr (size : N)
| Bin8 | Bin16 | Bin32 | Ext8 | Ext16 | Ext32
| F32 | F64 | U8 | U16 | U32 | U64 | I8 | I16 | I32 | I64
| FixExt1 | FixExt2 | FixExt4 | FixExt8 | FixExt16
| Str8 | Str16 | Str32 | Array16 | Array32 | Map16 | Map32.

(** [rmp::Marker::from_u8] *)
Class Rmp := marker_from_u8 : N -> Marker.

(** ** The scanner

    A [Cursor] is the list of bytes it has left; the scan state, the node
    counter, is threaded. *)

Definition scanned : Type := result (N * list N) MsgPackPreflightError.

(** [Read::read_exact]: the bytes read and the ones left. *)
Definition read_exact (n : N) (reader : list N) : option (list N * list N) :=
  if n <=? count reader then Some (take (N.to_nat n) reader, drop (N.to_nat n) reader)
  else None.

(** [uN::from_be_bytes] *)
Definition from_be (bs : list N) : N := fold_left (fun acc b => acc * 256 + b) bs 0.

(** [rmp]'s [read_marker] reads one byte; the only way it fails on a cursor is
    at its end. *)
Definition read_marker `{Rmp} (reader : list N) : result (Marker * list N) MsgPackPreflightError :=
  match reader with
  | [] => Err Truncated
  | b :: reader => Ok (marker_from_u8 b, reader)
  end.

Definition read_length (reader : list N) (width : N)
    : result (N * list N) MsgPackPreflightError :=
  let? (bs, reader) := ok_or (read_exact width reader) Truncated in
  Ok (from_be bs, reader).

(** The loop of [skip_sized], 256 bytes at a time: what is left to skip and to
    read when it stops. *)
Fixpoint skip_loop (fuel : nat) (remaining : N) (reader : list N)
    : result (N * list N) MsgPackPreflightError :=
  match fuel with
  | O => Ok (remaining, reader)
  | S fuel =>
      if remaining =? 0 then Ok (remaining, reader)
      else
        let n := N.min remaining 256 in
        let? (_, reader) := ok_or (read_exact n reader) Truncated in
        skip_loop fuel (remaining - n) reader
  end.

Definition skip_sized (reader : list N) (length : N) (bounded_string : bool)
    : result (list N) MsgPackPreflightError :=
  ensure negb (bounded_string && (MAX_ORCHESTRATION_MSGPACK_STRING_BYTES <? length))
    else StringTooLong ;;
  let? (_, reader) := skip_loop (S (N.to_nat (length / 256))) length reader in
  Ok reader.

Definition skip_length_prefixed (reader : list N) (width : N) (string : bool)
    : result (list N) MsgPackPreflightError :=
  let? (length, reader) := read_length reader width in
  skip_sized reader length string.

Definition skip_extension (reader : list N) (width : N)
    : result (list N) MsgPackPreflightError :=
  let? (length, reader) := read_length reader width in
  let? reader := skip_sized reader 1 false in
  skip_sized reader length true.

Definition check_collection (length : N) : result unit MsgPackPreflightError :=
  guard (negb (MAX_ORCHESTRATION_MSGPACK_COLLECTION_ITEMS <? length)) CollectionTooLong.

(** [for _ in 0..n { step }] *)
Fixpoint times {S E} (n : nat) (step : S -> result S E) (s : S) : result S E :=
  match n with
  | O => Ok s
  | S n => let? s := step s in times n step s
  end.

Definition scan_array (scan : N -> N -> list N -> scanned) (reader : list N)
    (length depth nodes : N) : scanned :=
  try? check_collection length ;;
  let? child_depth := ok_or (checked_add depth 1) TooDeep in
  ensure negb (MAX_ORCHESTRATION_MSGPACK_DEPTH <? child_depth) else TooDeep ;;
  times (N.to_nat length) (fun '(nodes, reader) => scan child_depth nodes reader) (nodes, reader).

Definition scan_map (scan : N -> N -> list N -> scanned) (reader : list N)
    (length depth nodes : N) : scanned :=
  try? check_collection length ;;
  let? child_depth := ok_or (checked_add depth 1) TooDeep in
  ensure negb (MAX_ORCHESTRATION_MSGPACK_DEPTH <? child_depth) else TooDeep ;;
  times (N.to_nat length)
    (fun '(nodes, reader) =>
       let? (nodes, reader) := scan child_depth nodes reader in
       scan child_depth nodes reader) (nodes, reader).

(** Recursion is bounded by the depth the code checks; [fuel] is one more than
    the levels left ([scan_value_spec] needs no more). *)
Fixpoint scan_value `{Rmp} (fuel : nat) (depth nodes : N) (reader : list N) : scanned :=
  match fuel with
  | O => Err TooDeep
  | S fuel =>
      let? nodes := ok_or (checked_add nodes 1) TooManyNodes in
      ensure negb (MAX_ORCHESTRATION_MSGPACK_NODES <? nodes) else TooManyNodes ;;
      let? (marker, reader) := read_marker reader in
      let skip r := rmap (fun reader => (nodes, reader)) r in
      match marker with
      | FixPos _ | FixNeg _ | MNull | MFalse | MTrue => Ok (nodes, reader)
      | MReserved => Err ReservedMarker
      | FixStr length => skip (skip_sized reader length true)
      | Str8 | Bin8 => skip (skip_length_prefixed reader 1 true)
      | Str16 | Bin16 => skip (skip_length_prefixed reader 2 true)
      | Str32 | Bin32 => skip (skip_length_prefixed reader 4 true)
      | F32 | U32 | I32 => skip (skip_sized reader 4 false)
      | F64 | U64 | I64 => skip (skip_sized reader 8 false)
      | U8 | I8 => skip (skip_sized reader 1 false)
      | U16 | I16 => skip (skip_sized reader 2 false)
      | FixExt1 => skip (skip_sized reader 2 false)
      | FixExt2 => skip (skip_sized reader 3 false)
      | FixExt4 => skip (skip_sized reader 5 false)
      | FixExt8 => skip (skip_sized reader 9 false)
      | FixExt16 => skip (skip_sized reader 17 false)
      | Ext8 => skip (skip_extension reader 1)
      | Ext16 => skip (skip_extension reader 2)
      | Ext32 => skip (skip_extension reader 4)
      | FixArray length => scan_array (scan_value fuel) reader length depth nodes
      | Array16 =>
          let? (length, reader) := read_length reader 2 in
          scan_array (scan_value fuel) reader length depth nodes
      | Array32 =>
          let? (length, reader) := read_length reader 4 in
          scan_array (scan_value fuel) reader length depth nodes
      | FixMap length => scan_map (scan_value fuel) reader length depth nodes
      | Map16 =>
          let? (length, reader) := read_length reader 2 in
          scan_map (scan_value fuel) reader length depth nodes
      | Map32 =>
          let? (length, reader) := read_length reader 4 in
          scan_map (scan_value fuel) reader length depth nodes
      end
  end.

Definition scan_fuel : nat := 17.

Definition preflight_msgpack `{Rmp} (document : list N) : result unit MsgPackPreflightError :=
  ensure negb (MAX_ORCHESTRATION_MSGPACK_BYTES <? count document) else TooManyBytes ;;
  let? (_, reader) := scan_value scan_fuel 0 0 document in
  guard (is_empty reader) TrailingBytes.

(** [rmp_serde::to_vec] and [rmp_serde::from_slice] of one document type. *)
Class MsgPack (T : Type) := {
  to_vec : T -> option (list N);
  from_slice : list N -> option T;
}.

Inductive OrchestrationCodecError := CodecEncode | CodecDecode | Preflight (e : MsgPackPreflightError).

Definition encode_orchestration_msgpack `{Rmp} {T} `{MsgPack T} (value : T)
    : result (list N) OrchestrationCodecError :=
  let? document := ok_or (to_vec value) CodecEncode in
  try? map_err Preflight (preflight_msgpack document) ;;
  Ok document.

Definition decode_orchestration_msgpack `{Rmp} {T} `{MsgPack T} (document : list N)
    : result T OrchestrationCodecError :=
  try? map_err Preflight (preflight_msgpack document) ;;
  ok_or (from_slice document) CodecDecode.

#[export] Instance MsgPackPreflightError_eq_dec : EqDecision MsgPackPreflightError.
Proof. solve_decision. Defined.

(** ** The grammar

    A document is a tree of marker bytes: a leaf with the bytes that follow it,
    or a collection with its length header and its members. *)

Inductive doc :=
| Leaf (marker : N) (body : list N)
| Node (marker : N) (header : list N) (members : list doc).

Fixpoint doc_bytes (d : doc) : list N :=
  match d with
  | Leaf b body => b :: body
  | Node b header members => b :: header ++ concat (map doc_bytes members)
  end.

Fixpoint doc_nodes (d : doc) : N :=
  match d with
  | Leaf _ _ => 1
  | Node _ _ members => 1 + fold_right (fun m acc => doc_nodes m + acc) 0 members
  end.

Fixpoint doc_depth (d : doc) : N :=
  match d with
  | Leaf _ _ => 0
  | Node _ _ members => 1 + fold_right (fun m acc => N.max (doc_depth m) acc) 0 members
  end.

Definition bounded_string (n : N) : Prop := n <= MAX_ORCHESTRATION_MSGPACK_STRING_BYTES.

Definition prefixed (width : N) (body : list N) : Prop :=
  exists header payload, body = header ++ payload /\ count header = width
    /\ count payload = from_be header /\ bounded_string (count payload).

Definition extension (width : N) (body : list N) : Prop :=
  exists header kind payload, body = header ++ kind :: payload /\ count header = width
    /\ count payload = from_be header /\ bounded_string (count payload).

(** What follows the marker of a scalar, string, binary or extension. *)
Definition leaf_body (m : Marker) (body : list N) : Prop :=
  match m with
  | FixPos _ | FixNeg _ | MNull | MFalse | MTrue => body = []
  | FixStr n => count body = n /\ bounded_string n
  | Str8 | Bin8 => prefixed 1 body
  | Str16 | Bin16 => prefixed 2 body
  | Str32 | Bin32 => prefixed 4 body
  | F32 | U32 | I32 => count body = 4
  | F64 | U64 | I64 => count body = 8
  | U8 | I8 => count body = 1
  | U16 | I16 => count body = 2
  | FixExt1 => count body = 2
  | FixExt2 => count body = 3
  | FixExt4 => count body = 5
  | FixExt8 => count body = 9
  | FixExt16 => count body = 17
  | Ext8 => extension 1 body
  | Ext16 => extension 2 body
  | Ext32 => extension 4 body
  | _ => False
  end.

(** The number of members a collection marker and its header announce. *)
Definition members_of (m : Marker) (header : list N) : option N :=
  match m with
  | FixArray n => if is_empty header then Some n else None
  | FixMap n => if is_empty header then Some (2 * n) else None
  | Array16 => if count header =? 2 then Some (from_be header) else None
  | Array32 => if count header =? 4 then Some (from_be header) else None
  | Map16 => if count header =? 2 then Some (2 * from_be header) else None
  | Map32 => if count header =? 4 then Some (2 * from_be header) else None
  | _ => None
  end.

Definition is_map (m : Marker) : bool :=
  match m with FixMap _ | Map16 | Map32 => true | _ => false end.

Definition members_max (m : Marker) : N :=
  if is_map m then 2 * MAX_ORCHESTRATION_MSGPACK_COLLECTION_ITEMS
  else MAX_ORCHESTRATION_MSGPACK_COLLECTION_ITEMS.

Inductive doc_ok `{Rmp} : doc -> Prop :=
| ok_leaf b body : leaf_body (marker_from_u8 b) body -> doc_ok (Leaf b body)
| ok_node b header members :
    members_of (marker_from_u8 b) header = Some (count members) ->
    count members <= members_max (marker_from_u8 b) ->
    Forall doc_ok members ->
    doc_ok (Node b header members).

(** ** Reading *)

Lemma read_exact_Some n r a b : read_exact n r = Some (a, b) <-> r = a ++ b /\ count a = n.
Proof.
  unfold read_exact, count. destruct (N.leb_spec n (N.of_nat (length r))) as [Hle|Hlt].
  - split.
    + intros E. simplify_eq. split; [by rewrite take_drop|]. rewrite length_take. lia.
    + intros [-> <-]. rewrite Nat2N.id, take_app_length, drop_app_length. done.
  - split; [done|]. intros [-> <-]. rewrite length_app in Hlt. lia.
Qed.

Lemma skip_loop_Ok fuel : forall remaining r k r',
  remaining <= 256 * N.of_nat fuel ->
  skip_loop fuel remaining r = Ok (k, r')
  <-> k = 0 /\ exists body, r = body ++ r' /\ count body = remaining.
Proof.
  induction fuel as [|fuel IH]; intros remaining r k r' Hfuel.
  { simpl. assert (remaining = 0) as -> by lia. split.
    - intros E. simplify_eq. split; [done|]. by exists [].
    - intros (-> & [|] & -> & Hc); [done|]. rewrite count_cons in Hc. lia. }
  simpl.
  destruct (N.eqb_spec remaining 0) as [->|Hne].
  - split.
    + intros E. simplify_eq. split; [done|]. by exists [].
    + intros (-> & [|] & -> & Hc); [done|]. rewrite count_cons in Hc. lia.
  - destruct (read_exact (N.min remaining 256) r) as [[a b]|] eqn:Ha; simpl.
    + apply read_exact_Some in Ha as [-> Ha]. rewrite IH by lia. split.
      * intros (-> & body & -> & Hb). split; [done|]. exists (a ++ body).
        rewrite <- app_assoc, count_app. split; [done | lia].
      * intros (-> & body & Hab & Hb). split; [done|].
        apply app_eq_inv in Hab as [(k & -> & ->)|(k & -> & ->)].
        -- rewrite count_app in *. assert (count k = 0) as Hk by lia.
           destruct k; [|rewrite count_cons in Hk; lia]. exists []. rewrite count_nil. split; [done|lia].
        -- exists k. rewrite count_app in Hb. split; [done | lia].
    + split; [done|]. intros (-> & body & -> & Hb). exfalso.
      assert (exists p q, body = p ++ q /\ count p = N.min remaining 256) as (p & q & -> & Hp).
      { exists (take (N.to_nat (N.min remaining 256)) body), (drop (N.to_nat (N.min remaining 256)) body).
        rewrite take_drop. split; [done|]. unfold count in *. rewrite length_take. lia. }
      rewrite <- app_assoc in Ha.
      by rewrite (proj2 (read_exact_Some _ _ p (q ++ r')) (conj eq_refl Hp)) in Ha.
Qed.

Lemma skip_sized_Ok r n (s : bool) r' :
  skip_sized r n s = Ok r'
  <-> (s = true -> bounded_string n) /\ exists body, r = body ++ r' /\ count body = n.
Proof.
  assert (n <= 256 * N.of_nat (S (N.to_nat (n / 256)))) as Hfuel.
  { pose proof (N.mul_succ_div_gt n 256). lia. }
  unfold skip_sized. set (fuel := S _) in *. clearbody fuel. split.
  - intros E. peel E. facts. apply skip_loop_Ok in G0 as (_ & body & -> & Hb); [|done]. subst.
    split; [|by exists body]. intros ->. unfold bounded_string.
    destruct G as [G|G]; [done | lia].
  - intros [Hs (body & -> & Hb)].
    replace (negb _) with true; simpl.
    + by rewrite (proj2 (skip_loop_Ok fuel n (body ++ r') 0 r' Hfuel)) by eauto.
    + symmetry. destruct s; [|done]. simpl. specialize (Hs eq_refl). unfold bounded_string in Hs.
      by apply negb_true_iff, N.ltb_ge.
Qed.

Lemma read_length_Ok r w n r' :
  read_length r w = Ok (n, r')
  <-> exists header, r = header ++ r' /\ count header = w /\ from_be header = n.
Proof.
  unfold read_length. split.
  - intros E. peel E. apply read_exact_Some in G as [-> ?]. simplify_eq. eauto.
  - intros (h & -> & Hh & <-).
    by rewrite (proj2 (read_exact_Some w (h ++ r') h r') (conj eq_refl Hh)).
Qed.

Lemma skip_length_prefixed_Ok r w r' :
  skip_length_prefixed r w true = Ok r' <-> exists body, prefixed w body /\ r = body ++ r'.
Proof.
  unfold skip_length_prefixed. split.
  - intros E. apply rbind_Ok in E as ([n r1] & (h & -> & Hh & <-)%read_length_Ok & E).
    apply skip_sized_Ok in E as (Hb & p & -> & Hp). exists (h ++ p).
    rewrite <- app_assoc. split; [|done]. exists h, p. rewrite Hp. split_and!; auto.
  - intros (? & (h & p & -> & Hh & Hp & Hb) & ->). rewrite <- app_assoc.
    rewrite (proj2 (read_length_Ok (h ++ p ++ r') w (from_be h) (p ++ r'))) by eauto. simpl.
    apply skip_sized_Ok. rewrite <- Hp. eauto.
Qed.

Lemma skip_extension_Ok r w r' :
  skip_extension r w = Ok r' <-> exists body, extension w body /\ r = body ++ r'.
Proof.
  unfold skip_extension. split.
  - intros E. apply rbind_Ok in E as ([n r1] & (h & -> & Hh & <-)%read_length_Ok & E).
    apply rbind_Ok in E as (r2 & (_ & k & -> & Hk)%skip_sized_Ok & E).
    apply skip_sized_Ok in E as (Hb & p & -> & Hp).
    destruct k as [|k [|]]; unfold count in Hk; simpl in Hk; try lia.
    exists (h ++ k :: p). rewrite <- app_assoc. split; [|done].
    exists h, k, p. rewrite Hp. split_and!; auto.
  - intros (? & (h & k & p & -> & Hh & Hp & Hb) & ->). rewrite <- app_assoc.
    rewrite (proj2 (read_length_Ok (h ++ (k :: p) ++ r') w (from_be h) ((k :: p) ++ r'))) by eauto.
    simpl. rewrite (proj2 (skip_sized_Ok (k :: p ++ r') 1 false (p ++ r'))).
    + simpl. apply skip_sized_Ok. rewrite <- Hp. eauto.
    + split; [done|]. by exists [k].
Qed.

(** ** The scanner follows the grammar *)

Definition is_collection (m : Marker) : bool :=
  match m with
  | FixArray _ | Array16 | Array32 | FixMap _ | Map16 | Map32 => true
  | _ => false
  end.

Definition skip_body (m : Marker) (reader : list N) : result (list N) MsgPackPreflightError :=
  match m with
  | FixPos _ | FixNeg _ | MNull | MFalse | MTrue => Ok reader
  | FixStr length => skip_sized reader length true
  | Str8 | Bin8 => skip_length_prefixed reader 1 true
  | Str16 | Bin16 => skip_length_prefixed reader 2 true
  | Str32 | Bin32 => skip_length_prefixed reader 4 true
  | F32 | U32 | I32 => skip_sized reader 4 false
  | F64 | U64 | I64 => skip_sized reader 8 false
  | U8 | I8 => skip_sized reader 1 false
  | U16 | I16 | FixExt1 => skip_sized reader 2 false
  | FixExt2 => skip_sized reader 3 false
  | FixExt4 => skip_sized reader 5 false
  | FixExt8 => skip_sized reader 9 false
  | FixExt16 => skip_sized reader 17 false
  | Ext8 => skip_extension reader 1
  | Ext16 => skip_extension reader 2
  | Ext32 => skip_extension reader 4
  | _ => Err ReservedMarker
  end.

Definition collection_length (m : Marker) (reader : list N)
    : result (N * list N) MsgPackPreflightError :=
  match m with
  | FixArray length | FixMap length => Ok (length, reader)
  | Array16 | Map16 => read_length reader 2
  | Array32 | Map32 => read_length reader 4
  | _ => Err ReservedMarker
  end.

Lemma skip_body_Ok m r r' :
  skip_body m r = Ok r' <-> exists body, leaf_body m body /\ r = body ++ r'.
Proof.
  assert (forall n, skip_sized r n false = Ok r' <-> exists body, count body = n /\ r = body ++ r')
    as Hsized.
  { intros n. rewrite skip_sized_Ok. naive_solver. }
  assert (r = r' <-> exists body : list N, body = [] /\ r = body ++ r') as Hnil by naive_solver.
  destruct m; simpl;
    rewrite ?Hsized, ?skip_length_prefixed_Ok, ?skip_extension_Ok, ?skip_sized_Ok;
    try done; try (rewrite <- Hnil; split; [by injection 1 | by intros ->]);
    try (split; [done | by intros (? & [] & _)]); naive_solver.
Qed.

Lemma collection_length_Ok m r n r' :
  collection_length m r = Ok (n, r')
  <-> exists header, members_of m header = Some (if is_map m then 2 * n else n)
        /\ r = header ++ r'.
Proof.
  assert (forall w, read_length r w = Ok (n, r') <->
            exists h, (if count h =? w then Some (from_be h) else None) = Some n /\ r = h ++ r') as Ha.
  { intros w. rewrite read_length_Ok. split.
    - intros (h & -> & <- & <-). exists h. by rewrite N.eqb_refl.
    - intros (h & Hh & ->). destruct (N.eqb_spec (count h) w); naive_solver. }
  assert (forall w, read_length r w = Ok (n, r') <->
            exists h, (if count h =? w then Some (2 * from_be h) else None) = Some (2 * n)
                      /\ r = h ++ r') as Hm.
  { intros w. rewrite Ha. split; intros (h & Hh & ->); exists h;
      (destruct (count h =? w); simplify_eq; split; [f_equal; lia | done]). }
  destruct m; simpl;
    try (by rewrite Ha); try (by rewrite Hm);
    try (split; [done | by intros (h & Hh & _)]).
  all: split; [intros [= -> ->]; by exists []|].
  all: intros ([|] & [= Hk] & ->); f_equal; f_equal; lia.
Qed.

Section Scan.
Context `{Rmp}.

Definition forest_nodes (ds : list doc) : N := fold_right (fun d acc => doc_nodes d + acc) 0 ds.
Definition forest_depth (ds : list doc) : N :=
  fold_right (fun d acc => N.max (doc_depth d) acc) 0 ds.

(** From [nodes] counted and [reader] left, one document is read at [level]. *)
Definition parses (level nodes : N) (reader : list N) (nodes' : N) (reader' : list N) : Prop :=
  exists d, doc_ok d /\ reader = doc_bytes d ++ reader' /\ nodes' = nodes + doc_nodes d
    /\ nodes' <= MAX_ORCHESTRATION_MSGPACK_NODES
    /\ level + doc_depth d <= MAX_ORCHESTRATION_MSGPACK_DEPTH.

Definition parses_all (level nodes : N) (reader : list N) (ds : list doc) (nodes' : N)
    (reader' : list N) : Prop :=
  Forall doc_ok ds /\ reader = concat (map doc_bytes ds) ++ reader'
  /\ nodes' = nodes + forest_nodes ds /\ nodes' <= MAX_ORCHESTRATION_MSGPACK_NODES
  /\ Forall (fun d => level + doc_depth d <= MAX_ORCHESTRATION_MSGPACK_DEPTH) ds.

Definition scans (step : N * list N -> scanned) (level : N) : Prop :=
  forall n r n' r', n <= MAX_ORCHESTRATION_MSGPACK_NODES ->
    step (n, r) = Ok (n', r') <-> parses level n r n' r'.

Lemma forest_depth_le level ds : level <= MAX_ORCHESTRATION_MSGPACK_DEPTH ->
  Forall (fun d => level + doc_depth d <= MAX_ORCHESTRATION_MSGPACK_DEPTH) ds
  <-> level + forest_depth ds <= MAX_ORCHESTRATION_MSGPACK_DEPTH.
Proof.
  intros Hl. induction ds as [|d ds IH]; simpl.
  - rewrite Forall_nil. lia.
  - rewrite Forall_cons, IH. lia.
Qed.

Lemma times_scan step level (Hstep : scans step level) k : forall n r n' r',
  n <= MAX_ORCHESTRATION_MSGPACK_NODES ->
  times k step (n, r) = Ok (n', r')
  <-> exists ds, length ds = k /\ parses_all level n r ds n' r'.
Proof.
  induction k as [|k IH]; intros n r n' r' Hn; simpl.
  - split.
    + intros [= <- <-]. exists []. unfold parses_all. simpl. rewrite !Forall_nil. split_and!; try done; lia.
    + intros ([|] & Hl & _ & -> & -> & _); [|done]. simpl. f_equal. f_equal. lia.
  - rewrite rbind_Ok. split.
    + intros ([n1 r1] & (d & Hd & -> & -> & Hle & Hdep)%Hstep & Ht); [|done].
      apply IH in Ht as (ds & <- & Hds & -> & -> & ? & ?); [|done].
      exists (d :: ds). split; [done|]. unfold parses_all. simpl. rewrite <- app_assoc, !Forall_cons.
      split_and!; auto. lia.
    + intros ([|d ds] & Hl & Hok & -> & -> & Hle & Hdep); [done|]. simpl in *.
      apply Forall_cons in Hok as [Hd Hok]. apply Forall_cons in Hdep as [Hd' Hdep].
      rewrite <- app_assoc. exists (n + doc_nodes d, concat (map doc_bytes ds) ++ r'). split.
      * apply Hstep; [done|]. exists d. split_and!; try done. lia.
      * apply IH; [lia|]. exists ds. split; [lia|]. split_and!; try done. lia.
Qed.

Lemma times_twice {S E} (f : S -> result S E) k : forall s,
  times k (fun s => rbind (f s) f) s = times (k + k) f s.
Proof.
  induction k as [|k IH]; intros s; [done|]. rewrite <- plus_n_Sm. simpl.
  destruct (f s) as [s1|]; simpl; [|done]. destruct (f s1); simpl; [apply IH | done].
Qed.

(** The body of [scan_array] and [scan_map], for [k] members. *)
Lemma scan_members step level k n r n' r' :
  scans step (level + 1) -> n <= MAX_ORCHESTRATION_MSGPACK_NODES ->
  level + 1 <= MAX_ORCHESTRATION_MSGPACK_DEPTH ->
  times (N.to_nat k) step (n, r) = Ok (n', r')
  <-> exists ds, count ds = k /\ Forall doc_ok ds /\ r = concat (map doc_bytes ds) ++ r'
        /\ n' = n + forest_nodes ds /\ n' <= MAX_ORCHESTRATION_MSGPACK_NODES
        /\ level + 1 + forest_depth ds <= MAX_ORCHESTRATION_MSGPACK_DEPTH.
Proof.
  intros Hstep Hn Hl. rewrite (times_scan _ _ Hstep) by done.
  unfold parses_all, count. setoid_rewrite forest_depth_le; [|done].
  split; intros (ds & Hk & ?); exists ds; (split; [lia|]); naive_solver.
Qed.

Lemma scan_array_Ok scan r k level n n' r' :
  (level + 1 <= MAX_ORCHESTRATION_MSGPACK_DEPTH ->
     scans (fun '(n, r) => scan (level + 1) n r) (level + 1)) ->
  level <= MAX_ORCHESTRATION_MSGPACK_DEPTH -> n <= MAX_ORCHESTRATION_MSGPACK_NODES ->
  scan_array scan r k level n = Ok (n', r')
  <-> k <= MAX_ORCHESTRATION_MSGPACK_COLLECTION_ITEMS
      /\ exists ds, count ds = k /\ Forall doc_ok ds /\ r = concat (map doc_bytes ds) ++ r'
        /\ n' = n + forest_nodes ds /\ n' <= MAX_ORCHESTRATION_MSGPACK_NODES
        /\ level + 1 + forest_depth ds <= MAX_ORCHESTRATION_MSGPACK_DEPTH.
Proof.
  intros Hstep Hl Hn. unfold scan_array, check_collection. split.
  - intros E. peel E. apply checked_add_Some in G0 as [-> _]. facts. split; [done|].
    by eapply scan_members; [apply Hstep| | |].
  - intros [Hk Hds].
    assert (level + 1 <= MAX_ORCHESTRATION_MSGPACK_DEPTH) as Hl1.
    { destruct Hds as (ds & ?). destruct_and?. lia. }
    rewrite (proj2 (N.ltb_ge _ _) Hk). cbn [negb guard rbind].
    rewrite (proj2 (checked_add_Some level 1 (level + 1))).
    2: { split; [done|]. unfold MAX_ORCHESTRATION_MSGPACK_DEPTH, u64_max in *. lia. }
    cbn [ok_or rbind]. rewrite (proj2 (N.ltb_ge _ _) Hl1). cbn [negb guard rbind].
    eapply scan_members; [by apply Hstep|done|done|done].
Qed.

Lemma scan_map_Ok scan r k level n n' r' :
  (level + 1 <= MAX_ORCHESTRATION_MSGPACK_DEPTH ->
     scans (fun '(n, r) => scan (level + 1) n r) (level + 1)) ->
  level <= MAX_ORCHESTRATION_MSGPACK_DEPTH -> n <= MAX_ORCHESTRATION_MSGPACK_NODES ->
  scan_map scan r k level n = Ok (n', r')
  <-> k <= MAX_ORCHESTRATION_MSGPACK_COLLECTION_ITEMS
      /\ exists ds, count ds = 2 * k /\ Forall doc_ok ds /\ r = concat (map doc_bytes ds) ++ r'
        /\ n' = n + forest_nodes ds /\ n' <= MAX_ORCHESTRATION_MSGPACK_NODES
        /\ level + 1 + forest_depth ds <= MAX_ORCHESTRATION_MSGPACK_DEPTH.
Proof.
  intros Hstep Hl Hn.
  set (step := fun '(n, r) => scan (level + 1) n r).
  assert (forall k s, times k (fun '(n, r) => let? (n, r) := scan (level + 1) n r in
                                 scan (level + 1) n r) s = times (k + k) step s) as Ht.
  { intros j s. rewrite <- times_twice. revert s. induction j as [|j IH]; intros s; [done|].
    simpl. destruct s as [m q]. simpl. destruct (scan (level + 1) m q) as [[m1 q1]|]; simpl; [|done].
    destruct (scan (level + 1) m1 q1); simpl; [apply IH | done]. }
  assert (forall j, (N.to_nat j + N.to_nat j)%nat = N.to_nat (2 * j)) as H2 by lia.
  unfold scan_map, check_collection. split.
  - intros E. peel E. apply checked_add_Some in G0 as [-> _]. facts. split; [done|].
    rewrite Ht, H2 in E. by eapply scan_members in E; [|apply Hstep| |].
  - intros [Hk Hds].
    assert (level + 1 <= MAX_ORCHESTRATION_MSGPACK_DEPTH) as Hl1.
    { destruct Hds as (ds & ?). destruct_and?. lia. }
    rewrite (proj2 (N.ltb_ge _ _) Hk). cbn [negb guard rbind].
    rewrite (proj2 (checked_add_Some level 1 (level + 1))).
    2: { split; [done|]. unfold MAX_ORCHESTRATION_MSGPACK_DEPTH, u64_max in *. lia. }
    cbn [ok_or rbind]. rewrite (proj2 (N.ltb_ge _ _) Hl1). cbn [negb guard rbind].
    rewrite Ht, H2. eapply scan_members; [by apply Hstep|done|done|done].
Qed.

Lemma scan_value_step fuel level n r :
  scan_value (S fuel) level n r =
  (let? n := ok_or (checked_add n 1) TooManyNodes in
   ensure negb (MAX_ORCHESTRATION_MSGPACK_NODES <? n) else TooManyNodes ;;
   let? (m, r) := read_marker r in
   if is_collection m then
     let? (k, r) := collection_length m r in
     (if is_map m then scan_map else scan_array) (scan_value fuel) r k level n
   else rmap (fun r => (n, r)) (skip_body m r)).
Proof.
  simpl. destruct (checked_add n 1) as [n1|]; [|done]. simpl.
  destruct (negb _); [|done]. simpl. destruct r as [|b r]; [done|]. simpl.
  by destruct (marker_from_u8 b).
Qed.

(** The members a collection announces and the ones read are the same bound. *)
Lemma members_bound m k : (if is_map m then 2 * k else k) <= members_max m
  <-> k <= MAX_ORCHESTRATION_MSGPACK_COLLECTION_ITEMS.
Proof. unfold members_max. destruct (is_map m); lia. Qed.

Lemma scan_collection_Ok scan m r k level n n' r' :
  (level + 1 <= MAX_ORCHESTRATION_MSGPACK_DEPTH ->
     scans (fun '(n, r) => scan (level + 1) n r) (level + 1)) ->
  level <= MAX_ORCHESTRATION_MSGPACK_DEPTH -> n <= MAX_ORCHESTRATION_MSGPACK_NODES ->
  (if is_map m then scan_map else scan_array) scan r k level n = Ok (n', r')
  <-> exists ds, count ds = (if is_map m then 2 * k else k) /\ count ds <= members_max m
        /\ Forall doc_ok ds /\ r = concat (map doc_bytes ds) ++ r'
        /\ n' = n + forest_nodes ds /\ n' <= MAX_ORCHESTRATION_MSGPACK_NODES
        /\ level + 1 + forest_depth ds <= MAX_ORCHESTRATION_MSGPACK_DEPTH.
Proof.
  intros Hstep Hl Hn. pose proof (members_bound m k) as Hm.
  destruct (is_map m); [rewrite scan_map_Ok by done | rewrite scan_array_Ok by done];
    (split; [intros (Hk & ds & Hc & ?); exists ds; rewrite Hc; tauto
            | intros (ds & Hc & Hb & ?); rewrite Hc in Hb; split; [tauto | by exists ds]]).
Qed.

Lemma is_collection_leaf m body : leaf_body m body -> is_collection m = false.
Proof. by destruct m. Qed.

Lemma members_of_collection m header k : members_of m header = Some k -> is_collection m = true.
Proof. by destruct m. Qed.

Lemma scan_value_spec fuel : forall level n r n' r',
  MAX_ORCHESTRATION_MSGPACK_DEPTH < level + N.of_nat fuel ->
  level <= MAX_ORCHESTRATION_MSGPACK_DEPTH -> n <= MAX_ORCHESTRATION_MSGPACK_NODES ->
  scan_value fuel level n r = Ok (n', r') <-> parses level n r n' r'.
Proof.
  induction fuel as [|fuel IH]; intros level n r n' r' Hfuel Hl Hn; [lia|].
  assert (level + 1 <= MAX_ORCHESTRATION_MSGPACK_DEPTH ->
          scans (fun '(n, r) => scan_value fuel (level + 1) n r) (level + 1)) as Hscan.
  { intros ? m q m' q' Hm. apply IH; [lia|done|done]. }
  clear IH. rewrite scan_value_step. split.
  - intros E. do 3 peel1 E. apply checked_add_Some in G as [-> _]. facts. destruct r as [|b r]; [done|].
    injection G1 as <-. destruct (is_collection _) eqn:Hc.
    + apply rbind_Ok in E as ([k q] & (h & Hh & ->)%collection_length_Ok & E).
      apply scan_collection_Ok in E as (ds & Hk & Hb & Hok & -> & -> & Hle & Hd); [|done..].
      exists (Node b h ds). split; [econstructor; [congruence|done|done]|]. simpl.
      fold (forest_nodes ds) (forest_depth ds). rewrite <- app_assoc. split_and!; [done|lia..].
    + apply rmap_Ok in E as (q & (body & Hb & ->)%skip_body_Ok & E). injection E as -> ->.
      exists (Leaf b body). split; [by constructor|]. simpl. split_and!; [done|lia..].
  - intros (d & Hok & -> & -> & Hle & Hd).
    assert (n + 1 <= MAX_ORCHESTRATION_MSGPACK_NODES) as Hn1 by (destruct d; simpl in Hle; lia).
    rewrite (proj2 (checked_add_Some n 1 (n + 1))).
    2: { split; [done|]. unfold MAX_ORCHESTRATION_MSGPACK_NODES, u64_max in *. lia. }
    cbn [ok_or rbind]. rewrite (proj2 (N.ltb_ge _ _) Hn1). cbn [negb guard rbind].
    destruct Hok as [b body Hb|b h ds Hm Hb Hok]; cbn [doc_bytes app read_marker rbind doc_nodes doc_depth].
    + rewrite (is_collection_leaf _ _ Hb). apply rmap_Ok. exists r'. split; [|done].
      apply skip_body_Ok. by exists body.
    + rewrite (members_of_collection _ _ _ Hm), <- app_assoc. apply rbind_Ok.
      assert (exists k, (if is_map (marker_from_u8 b) then 2 * k else k) = count ds) as [k Hk].
      { destruct (is_map _) eqn:Hi; [|by exists (count ds)].
        destruct (marker_from_u8 b); try done; cbn [members_of] in Hm;
          case_match; simplify_eq; eauto. }
      exists (k, concat (map doc_bytes ds) ++ r'). split.
      * apply collection_length_Ok. exists h. by rewrite Hk.
      * simpl in Hle, Hd. fold (forest_nodes ds) (forest_depth ds) in *.
        apply scan_collection_Ok; [done..|]. exists ds. split_and!; try done; lia.
Qed.

(** Documents of the grammar within the bounds of the orchestration boundary. *)
Definition bounded_doc (d : doc) : Prop :=
  doc_ok d /\ count (doc_bytes d) <= MAX_ORCHESTRATION_MSGPACK_BYTES
  /\ doc_nodes d <= MAX_ORCHESTRATION_MSGPACK_NODES
  /\ doc_depth d <= MAX_ORCHESTRATION_MSGPACK_DEPTH.

Lemma preflight_document document :
  preflight_msgpack document = Ok tt <-> exists d, document = doc_bytes d /\ bounded_doc d.
Proof.
  unfold preflight_msgpack. split.
  - intros E. peel E. facts. apply scan_value_spec in G0 as (d & Hok & -> & -> & Hle & Hd); [|done..].
    destruct l as [|]; [|done]. rewrite app_nil_r in *. exists d. split; [done|].
    split_and!; try done; lia.
  - intros (d & -> & Hok & Hb & Hn & Hd). rewrite (proj2 (N.ltb_ge _ _) Hb). cbn [negb guard rbind].
    rewrite (proj2 (scan_value_spec scan_fuel 0 0 (doc_bytes d) (doc_nodes d) [] ltac:(done)
                      ltac:(done) ltac:(done))); [done|].
    exists d. rewrite app_nil_r. split_and!; [done..|lia|done|lia].
Qed.

End Scan.

(** C15: the preflight passes exactly the byte strings that are one MessagePack
    document within the byte, node, depth, string and collection bounds, and
    nothing after it: no document it passes is a proper prefix of another. *)
Theorem preflight_passes_bounded_documents `{Rmp} (document : list N) :
  (preflight_msgpack document = Ok tt <-> exists d, document = doc_bytes d /\ bounded_doc d)
  /\ (preflight_msgpack document = Ok tt ->
      forall extra, extra <> [] -> preflight_msgpack (document ++ extra) <> Ok tt).
Proof.
  split; [apply preflight_document|]. intros (d & -> & Hok & _ & Hn & Hd)%preflight_document extra He.
  intros (d' & Hd' & Hok' & _ & Hn' & Hdd')%preflight_document. apply He.
  assert (scan_value scan_fuel 0 0 (doc_bytes d ++ extra) = Ok (doc_nodes d, extra)) as H1.
  { apply scan_value_spec; [done..|]. exists d. split_and!; [done..|lia|done|lia]. }
  assert (scan_value scan_fuel 0 0 (doc_bytes d ++ extra) = Ok (doc_nodes d', [])) as H2.
  { apply scan_value_spec; [done..|]. exists d'. rewrite app_nil_r. split_and!; [done..|lia|done|lia]. }
  rewrite H1 in H2. by injection H2.
Qed.

(** The marker bytes of the format, for the examples. *)
Definition sample_marker (b : N) : Marker :=
  if b <? 0x80 then FixPos b
  else if b <? 0x90 then FixMap (b - 0x80)
  else if b <? 0xa0 then FixArray (b - 0x90)
  else if b <? 0xc0 then FixStr (b - 0xa0)
  else if b =? 0xc4 then Bin8
  else if b =? 0xdc then Array16
  else MReserved.

Example preflight_nested :
  @preflight_msgpack sample_marker (repeat 0x91 16 ++ [0x90]) = Err TooDeep
  /\ @preflight_msgpack sample_marker (repeat 0x91 15 ++ [0x90]) = Ok tt
  /\ @preflight_msgpack sample_marker [0x82; 0xa1; 97; 5; 0xa1; 98; 0xc4; 2; 9; 9] = Ok tt
  /\ @preflight_msgpack sample_marker [0xdc; 0; 65] = Err CollectionTooLong
  /\ @preflight_msgpack sample_marker [0x91; 0xa2; 97] = Err Truncated.
Proof. by vm_compute. Qed.
