(* ===== verification/Canonical.v ===== *)
(** Canonical text helpers and durable identities ([canonical.rs], [id.rs]). *)
From S2P Require Import Prelude.

Definition MAX_SPECIALIST_TEXT_BYTES : N := 256.
Definition MAX_SPECIALIST_ID_REFS : N := 16.

Definition canonicalize (value : text) : option text :=
  let trimmed := trim value in
  if is_empty trimmed then None else Some trimmed.

Definition is_canonical (value : text) : bool :=
  negb (is_empty value) && (value =?= trim value).

Definition bounded_canonical (value : text) : option text :=
  let trimmed := trim value in
  if is_empty trimmed || (MAX_SPECIALIST_TEXT_BYTES <? len trimmed) then None
  else Some trimmed.

Definition is_bounded_canonical (value : text) : bool :=
  is_canonical value && (len value <=? MAX_SPECIALIST_TEXT_BYTES).

Definition optional_bounded_canonical (value : option text) : bool :=
  match value with
  | None => true
  | Some t => is_bounded_canonical t
  end.

Definition specialist_id_refs_ok (n : N) : bool := n <=? MAX_SPECIALIST_ID_REFS.

(** ** Identities *)

Inductive IdError :=
| InvalidFormat
| InvalidVersion
| InvalidVariant.

(** A 16-byte UUID; [get_version_num] is the high nibble of byte 6 and
    [get_variant] is RFC 4122 when the two high bits of byte 8 are [10]. *)
Definition validate_uuid_v7 (uuid : list N) : result (list N) IdError :=
  ensure (N.shiftr (nth 6 uuid 0) 4 =? 7) else InvalidVersion ;;
  ensure (N.land (nth 8 uuid 0) 0xC0 =? 0x80) else InvalidVariant ;;
  Ok uuid.

Definition id_from_bytes (bs : list N) : result (list N) IdError := validate_uuid_v7 bs.

(** [visit_bytes]: the binary wire form must hold exactly 16 bytes. *)
Definition id_visit_bytes (bs : list N) : result (list N) IdError :=
  if Nat.eqb (length bs) 16 then id_from_bytes bs else Err InvalidFormat.

Definition id_nil : list N := [0; 0; 0; 0; 0; 0; 0x70; 0; 0x80; 0; 0; 0; 0; 0; 0; 0].
Definition id_is_nil (bs : list N) : bool := bs =?= id_nil.

Definition MAX_CONFIGURED_SERVICE_ID_BYTES : N := 64.

Inductive ConfiguredServiceIdError :=
| ServiceIdEmpty
| ServiceIdTooLong
| ServiceIdInvalidIdentifier.

Notation ConfiguredServiceId := (list N) (only parsing).

Definition configured_service_char (c : char) : bool :=
  is_ascii_alphanumeric c || (c =? 45) || (c =? 95) || (c =? 46).

Definition configured_service_id_new (value : text)
    : result ConfiguredServiceId ConfiguredServiceIdError :=
  ensure negb (is_empty value) else ServiceIdEmpty ;;
  ensure len value <=? MAX_CONFIGURED_SERVICE_ID_BYTES else ServiceIdTooLong ;;
  ensure negb (starts_with [46] value || contains_char 0 value
               || negb (forallb configured_service_char value))
    else ServiceIdInvalidIdentifier ;;
  Ok value.

(** ** Lemmas *)

Lemma is_empty_true {A} (l : list A) : is_empty l = true <-> l = [].
Proof. destruct l; simpl; split; naive_solver. Qed.
Lemma is_empty_false {A} (l : list A) : is_empty l = false <-> l <> [].
Proof. destruct l; simpl; split; naive_solver. Qed.
#[export] Hint Rewrite @is_empty_true @is_empty_false : bools.

Lemma is_canonical_spec value :
  is_canonical value = true <-> value <> [] /\ trim value = value.
Proof. unfold is_canonical. autorewrite with bools. split; naive_solver. Qed.

Lemma canonicalize_Some value t :
  canonicalize value = Some t <-> t = trim value /\ t <> [].
Proof.
  unfold canonicalize. destruct (is_empty (trim value)) eqn:E; bool_inv; split; naive_solver.
Qed.

Lemma canonicalize_is_canonical value t :
  canonicalize value = Some t -> is_canonical t = true.
Proof.
  rewrite canonicalize_Some, is_canonical_spec. intros [-> ?].
  by rewrite trim_idem.
Qed.

Lemma canonicalize_canonical value :
  is_canonical value = true -> canonicalize value = Some value.
Proof. rewrite is_canonical_spec, canonicalize_Some. naive_solver. Qed.

Lemma bounded_canonical_Some value t :
  bounded_canonical value = Some t <->
  t = trim value /\ t <> [] /\ len t <= MAX_SPECIALIST_TEXT_BYTES.
Proof.
  unfold bounded_canonical. case_match eqn:E; autorewrite with bools in E; split; naive_solver lia.
Qed.

Create HintDb canonical discriminated.
#[export] Hint Resolve canonicalize_is_canonical canonicalize_canonical : canonical.

(** ** The identity types of [define_id!]

    Each is a newtype over a UUID; the model keeps the 128-bit value. *)
Notation EnvironmentId := N (only parsing).
Notation ProjectId := N (only parsing).
Notation TaskId := N (only parsing).
Notation AgentSessionId := N (only parsing).
Notation ArtifactId := N (only parsing).
Notation ResourceId := N (only parsing).
Notation BrowserContextId := N (only parsing).
Notation BrowserTabId := N (only parsing).
Notation BrowserRequestId := N (only parsing).
Notation BrowserSessionId := N (only parsing).
Notation ServiceId := N (only parsing).
Notation ClientId := N (only parsing).
Notation CommandId := N (only parsing).
Notation OperationId := N (only parsing).
Notation EventId := N (only parsing).
Notation TurnId := N (only parsing).
Notation QuestionId := N (only parsing).
Notation ApprovalId := N (only parsing).
Notation PromptId := N (only parsing).

(** [EventId::nil] and its siblings, as the 128-bit value of [id_nil]. *)
Definition nil_uuid : N := fold_left (fun acc b => acc * 256 + b) id_nil 0.
