(* ===== verification/Wire.v ===== *)
(** Named-map documents: how the protocol types written by hand as maps
    (chunks, chunk limits, stream frames) read their fields back. *)
From S2P Require Import Prelude Canonical.

(** The values those maps hold. *)
Inductive wire :=
| WUint (n : N)
| WBool (b : bool)
| WBin (bs : list N)
| WNil.

Inductive SerdeError :=
  DuplicateField | MissingField | UnknownField | InvalidType | InvalidLength | CustomError.

Definition u16_max : N := 65535.
Definition u32_max : N := 4294967295.

Definition get_uint (max : N) (w : wire) : result N SerdeError :=
  match w with
  | WUint n => ensure n <=? max else InvalidType ;; Ok n
  | _ => Err InvalidType
  end.

Definition get_bool (w : wire) : result bool SerdeError :=
  match w with WBool b => Ok b | _ => Err InvalidType end.

(** [BinaryBuf]: MessagePack binary, never an array of bytes. *)
Definition get_bin (w : wire) : result (list N) SerdeError :=
  match w with WBin bs => Ok bs | _ => Err InvalidType end.

Definition get_optional_bin (w : wire) : result (option (list N)) SerdeError :=
  match w with WNil => Ok None | _ => rmap Some (get_bin w) end.

(** A [uuid] identity in its binary form. *)
Definition get_id (w : wire) : result (list N) SerdeError :=
  match w with WBin bs => map_err (fun _ => CustomError) (id_visit_bytes bs) | _ => Err InvalidType end.

(** [if slot.is_some() { duplicate_field } slot = Some(next_value()?)] *)
Definition fill {T} (slot : option T) (value : result T SerdeError)
    : result (option T) SerdeError :=
  ensure is_none slot else DuplicateField ;;
  rmap Some value.

(** [slot.ok_or_else(missing_field)] *)
Definition field {T} (slot : option T) : result T SerdeError := ok_or slot MissingField.

(** An identity that its own decoder accepts. *)
Definition id_ok (bs : list N) : bool := is_ok (id_visit_bytes bs).

Lemma get_id_ok bs : id_ok bs = true -> get_id (WBin bs) = Ok bs.
Proof.
  unfold id_ok, get_id, id_visit_bytes, id_from_bytes, validate_uuid_v7. simpl.
  destruct (Nat.eqb _ _); [|done]. destruct (_ =? 7); [|done]. simpl. by destruct (_ =? 0x80).
Qed.

Lemma get_uint_ok max n : n <= max -> get_uint max (WUint n) = Ok n.
Proof. intros Hn. simpl. by rewrite (proj2 (N.leb_le _ _) Hn). Qed.
