(* ===== verification/Task.v ===== *)
(** Task facts, workspace references and their durable wire form ([task.rs]). *)
From S2P Require Import Prelude Canonical.

(** ** Code outside the crate: SHA-256 *)

Class Sha256 := sha256 : list N -> list N.

(** What the crate documents of the digest: 32 bytes. *)
Class Sha256Spec `{Sha256} : Prop := {
  sha256_length : forall m, length (sha256 m) = 32%nat;
  sha256_byte : forall m b, b ∈ sha256 m -> b < 256;
}.

(** [format!("{byte:02x}")] over a byte sequence *)
Definition hex_digit_char (d : N) : char := if d <? 10 then 48 + d else 87 + d.
Definition hex_byte (b : N) : text := [hex_digit_char (b / 16); hex_digit_char (b mod 16)].
Definition hex_string (bs : list N) : text := concat (map hex_byte bs).

(** [u64::to_le_bytes] *)
Fixpoint le_bytes (n : nat) (v : N) : list N :=
  match n with
  | O => []
  | S k => v mod 256 :: le_bytes k (v / 256)
  end.

(** ** Errors *)

Inductive TaskValidationError :=
| EmptyTitle
| EmptyDescription
| EmptyPath
| EmptyBranch
| EmptyRepositoryFingerprint
| InvalidRepositoryFingerprint
| EmptyPrincipalAuthority
| EmptyPrincipalSubject
| InvalidCreateState.

#[export] Instance TaskValidationError_eq_dec : EqDecision TaskValidationError.
Proof. solve_decision. Defined.

(** ** Repository fingerprints *)

Notation RepositoryFingerprint := (list N) (only parsing).

Definition lower_hex_byte (b : N) : bool :=
  ((48 <=? b) && (b <=? 57)) || ((97 <=? b) && (b <=? 102)).

Definition from_host_token (token : text) : result RepositoryFingerprint TaskValidationError :=
  ensure negb (is_empty (trim token)) else EmptyRepositoryFingerprint ;;
  match strip_prefix (lit "sha256:") token with
  | None => Err InvalidRepositoryFingerprint
  | Some digest =>
      if negb (len digest =? 64) || negb (forallb lower_hex_byte (bytes digest))
      then Err InvalidRepositoryFingerprint
      else Ok token
  end.

Definition MAX_DURABLE_PATH_BYTES : N := 32 * 1024.
Definition MAX_DURABLE_IDENTITY_BYTES : N := 256.
Definition MAX_DURABLE_BRANCH_BYTES : N := 512.

(** ** Paths

    A [PathBuf] is its sequence of code points; a lone surrogate stands for a
    unit [to_str] cannot decode.  Components follow the Unix rules. *)

Notation path := (list N) (only parsing).

Definition is_surrogate (c : char) : bool := (0xD800 <=? c) && (c <=? 0xDFFF).

Definition path_to_str (p : path) : option text :=
  if existsb is_surrogate p then None else Some p.

Definition path_to_string_lossy (p : path) : text :=
  map (fun c => if is_surrogate c then 0xFFFD else c) p.

Definition path_has_nul (p : path) : bool := contains_char 0 (path_to_string_lossy p).

Definition check_path (p : path) : result unit TaskValidationError :=
  if is_empty p || path_has_nul p then Err EmptyPath else Ok tt.

Definition validate_path (p : path) : result path TaskValidationError :=
  try? check_path p ;; Ok p.

Fixpoint split_slash (p : path) : list text :=
  match p with
  | [] => [[]]
  | c :: r =>
      if c =? 47 then [] :: split_slash r
      else match split_slash r with
           | seg :: rest => (c :: seg) :: rest
           | [] => [[c]]
           end
  end.

(** [Path::components]: the root flag, a leading [.], then the segments that
    are neither empty nor [.]. *)
Definition path_components (p : path) : bool * bool * list text :=
  let has_root := starts_with [47] p in
  let segs := split_slash p in
  let cur_dir := negb has_root && match segs with s :: _ => s =?= [46] | [] => false end in
  (has_root, cur_dir, List.filter (fun s => negb (is_empty s) && negb (s =?= [46])) segs).

(** [Path]'s [PartialEq] *)
Definition path_eqb (p q : path) : bool := path_components p =?= path_components q.

(** [Path::is_absolute] on Unix *)
Definition path_is_absolute (p : path) : bool := starts_with [47] p.

(** ** Workspace path facts *)

Inductive WorkspaceBindingKind := BindMain | BindWorktree | BindExternal.

#[export] Instance WorkspaceBindingKind_eq_dec : EqDecision WorkspaceBindingKind.
Proof. solve_decision. Defined.

Record WorkspacePathFact := {
  wpf_path : path;
  wpf_identity : text;
  wpf_opaque_id : text;
  wpf_content_length : option N;
  wpf_content_fingerprint : option RepositoryFingerprint;
}.

#[export] Instance WorkspacePathFact_eq_dec : EqDecision WorkspacePathFact.
Proof. solve_decision. Defined.

Definition opaque_id_byte (b : N) : bool := is_ascii_alphanumeric b || (b =? 45) || (b =? 95).

Definition path_fact_validate (f : WorkspacePathFact) : result unit TaskValidationError :=
  try? (if is_empty (wpf_path f) then
          ensure is_empty (wpf_identity f) else InvalidRepositoryFingerprint ;; Ok tt
        else
          try? check_path (wpf_path f) ;;
          ensure negb (is_none (path_to_str (wpf_path f))
                       || (MAX_DURABLE_PATH_BYTES <? len (path_to_string_lossy (wpf_path f))))
            else InvalidRepositoryFingerprint ;;
          ensure negb (is_empty (wpf_identity f)
                       || (MAX_DURABLE_IDENTITY_BYTES <? len (wpf_identity f)))
            else InvalidRepositoryFingerprint ;;
          Ok tt) ;;
  ensure negb (is_empty (wpf_opaque_id f)
               || (MAX_DURABLE_IDENTITY_BYTES <? len (wpf_opaque_id f))
               || negb (forallb opaque_id_byte (bytes (wpf_opaque_id f))))
    else InvalidRepositoryFingerprint ;;
  ensure Bool.eqb (is_some (wpf_content_length f)) (is_some (wpf_content_fingerprint f))
    else InvalidRepositoryFingerprint ;;
  Ok tt.

(** The bytes [WorkspacePathFact::new] hashes before the identity (the literal
    of the source ends in a NUL byte). *)
Definition opaque_id_domain : list N := lit "devmanager-workspace-fact-id-v1" ++ [0].

Definition path_fact_new `{Sha256} (p : path) (identity : text)
    (content_length : option N) (content_fingerprint : option RepositoryFingerprint)
    : result WorkspacePathFact TaskValidationError :=
  let opaque_id := hex_string (take 16 (sha256 (opaque_id_domain ++ bytes identity))) in
  let fact := {| wpf_path := p; wpf_identity := identity; wpf_opaque_id := opaque_id;
                 wpf_content_length := content_length;
                 wpf_content_fingerprint := content_fingerprint |} in
  try? path_fact_validate fact ;;
  Ok fact.

Record WorkspacePathFactWire := {
  wpw_workspace_id : text;
  wpw_content_length : option N;
  wpw_content_fingerprint : option text;
}.

Definition path_fact_serialize (f : WorkspacePathFact) : WorkspacePathFactWire :=
  {| wpw_workspace_id := wpf_opaque_id f;
     wpw_content_length := wpf_content_length f;
     wpw_content_fingerprint := wpf_content_fingerprint f |}.

Definition option_traverse {A B E} (f : A -> result B E) (o : option A) : result (option B) E :=
  match o with
  | None => Ok None
  | Some a => let? b := f a in Ok (Some b)
  end.

Definition path_fact_deserialize (w : WorkspacePathFactWire)
    : result WorkspacePathFact TaskValidationError :=
  let? fp := option_traverse from_host_token (wpw_content_fingerprint w) in
  let fact := {| wpf_path := []; wpf_identity := []; wpf_opaque_id := wpw_workspace_id w;
                 wpf_content_length := wpw_content_length w;
                 wpf_content_fingerprint := fp |} in
  try? path_fact_validate fact ;;
  Ok fact.

(** ** Workspace bindings *)

Record WorkspaceBindingFact := {
  wb_kind : WorkspaceBindingKind;
  wb_project_root : WorkspacePathFact;
  wb_workspace_root : WorkspacePathFact;
  wb_repository_root : option WorkspacePathFact;
  wb_common_git_dir : option WorkspacePathFact;
  wb_admin_dir : option WorkspacePathFact;
  wb_marker : option WorkspacePathFact;
  wb_commondir : option WorkspacePathFact;
  wb_gitdir : option WorkspacePathFact;
  wb_head : option WorkspacePathFact;
  wb_branch : option text;
  wb_binding_fingerprint : RepositoryFingerprint;
}.

#[export] Instance WorkspaceBindingFact_eq_dec : EqDecision WorkspaceBindingFact.
Proof. solve_decision. Defined.

Definition same_fact (l r : WorkspacePathFact) : bool :=
  (wpf_opaque_id l =?= wpf_opaque_id r)
  && (wpf_content_length l =?= wpf_content_length r)
  && (wpf_content_fingerprint l =?= wpf_content_fingerprint r).

Definition same_optional (l r : option WorkspacePathFact) : bool :=
  match l, r with
  | Some l, Some r => same_fact l r
  | None, None => true
  | _, _ => false
  end.

Definition same_head (l r : option WorkspacePathFact) : bool :=
  match l, r with
  | Some _, Some _ => true
  | None, None => true
  | _, _ => false
  end.

Definition same_runtime_identity (a b : WorkspaceBindingFact) : bool :=
  (wb_kind a =?= wb_kind b)
  && same_fact (wb_project_root a) (wb_project_root b)
  && same_fact (wb_workspace_root a) (wb_workspace_root b)
  && same_optional (wb_repository_root a) (wb_repository_root b)
  && same_optional (wb_common_git_dir a) (wb_common_git_dir b)
  && same_optional (wb_admin_dir a) (wb_admin_dir b)
  && same_optional (wb_marker a) (wb_marker b)
  && same_optional (wb_commondir a) (wb_commondir b)
  && same_optional (wb_gitdir a) (wb_gitdir b)
  && same_head (wb_head a) (wb_head b).

Definition kind_bytes (k : WorkspaceBindingKind) : list N :=
  match k with
  | BindMain => lit "main"
  | BindWorktree => lit "worktree"
  | BindExternal => lit "external"
  end.

(** The bytes hashed for one labelled fact; [None] where the [expect] on the
    content fingerprint panics, which a validated fact excludes
    ([fact_preimage_total]). *)
Definition fact_preimage (label : text) (fact : option WorkspacePathFact) : option (list N) :=
  match fact with
  | None => Some (label ++ [0] ++ [0xff] ++ [0xff])
  | Some f =>
      match wpf_content_length f with
      | Some n =>
          match wpf_content_fingerprint f with
          | Some fp =>
              Some (label ++ [0] ++ bytes (wpf_opaque_id f) ++ [0]
                    ++ le_bytes 8 n ++ [1] ++ bytes fp ++ [0xff])
          | None => None
          end
      | None => Some (label ++ [0] ++ bytes (wpf_opaque_id f) ++ [0] ++ [0] ++ [0xff])
      end
  end.

Definition labelled_facts (f : WorkspaceBindingFact) : list (text * option WorkspacePathFact) :=
  [ (lit "project", Some (wb_project_root f));
    (lit "workspace", Some (wb_workspace_root f));
    (lit "repository", wb_repository_root f);
    (lit "common_git", wb_common_git_dir f);
    (lit "admin", wb_admin_dir f);
    (lit "marker", wb_marker f);
    (lit "commondir", wb_commondir f);
    (lit "gitdir", wb_gitdir f);
    (lit "head", wb_head f) ].

Fixpoint facts_preimage (l : list (text * option WorkspacePathFact)) : option (list N) :=
  match l with
  | [] => Some []
  | (label, fact) :: rest =>
      match fact_preimage label fact, facts_preimage rest with
      | Some a, Some b => Some (a ++ b)
      | _, _ => None
      end
  end.

Definition binding_preimage (f : WorkspaceBindingFact) : option (list N) :=
  match facts_preimage (labelled_facts f) with
  | Some facts =>
      Some ((lit "devmanager-workspace-binding-v1" ++ [0]) ++ kind_bytes (wb_kind f) ++ [0]
            ++ facts ++ match wb_branch f with Some b => bytes b | None => [] end)
  | None => None
  end.

Definition compute_fingerprint `{Sha256} (f : WorkspaceBindingFact)
    : result RepositoryFingerprint TaskValidationError :=
  match binding_preimage f with
  | Some preimage => from_host_token (lit "sha256:" ++ hex_string (sha256 preimage))
  | None => Err InvalidRepositoryFingerprint (* the [expect] of the source *)
  end.

Definition optional_facts (f : WorkspaceBindingFact) : list (option WorkspacePathFact) :=
  [ wb_repository_root f; wb_common_git_dir f; wb_admin_dir f; wb_marker f;
    wb_commondir f; wb_gitdir f; wb_head f ].

Fixpoint validate_flattened (l : list (option WorkspacePathFact)) : result unit TaskValidationError :=
  match l with
  | [] => Ok tt
  | Some f :: rest => try? path_fact_validate f ;; validate_flattened rest
  | None :: rest => validate_flattened rest
  end.

Definition binding_shape_main (f : WorkspaceBindingFact) : bool :=
  let has_repository :=
    is_some (wb_repository_root f) || is_some (wb_common_git_dir f)
    || is_some (wb_marker f) || is_some (wb_head f) in
  negb (is_some (wb_admin_dir f) || is_some (wb_commondir f) || is_some (wb_gitdir f)
        || is_some (wb_branch f)
        || (has_repository
            && (is_none (wb_repository_root f) || is_none (wb_common_git_dir f)
                || is_none (wb_marker f) || is_none (wb_head f)))).

Definition binding_shape_worktree (f : WorkspaceBindingFact) : bool :=
  negb (is_none (wb_repository_root f) || is_none (wb_common_git_dir f)
        || is_none (wb_admin_dir f) || is_none (wb_marker f) || is_none (wb_commondir f)
        || is_none (wb_gitdir f) || is_none (wb_head f) || is_none (wb_branch f)).

(** The [External] arm repeats the checks of [Main]. *)
Definition binding_shape (f : WorkspaceBindingFact) : bool :=
  match wb_kind f with
  | BindMain => binding_shape_main f
  | BindWorktree => binding_shape_worktree f
  | BindExternal => binding_shape_main f
  end.

Definition branch_validate (b : option text) : result unit TaskValidationError :=
  match b with
  | None => Ok tt
  | Some branch =>
      ensure negb (is_empty branch || (MAX_DURABLE_BRANCH_BYTES <? len branch)) else EmptyBranch ;;
      ensure is_canonical branch else EmptyBranch ;;
      Ok tt
  end.

Definition binding_validate `{Sha256} (f : WorkspaceBindingFact) : result unit TaskValidationError :=
  try? path_fact_validate (wb_project_root f) ;;
  try? path_fact_validate (wb_workspace_root f) ;;
  try? validate_flattened (optional_facts f) ;;
  try? branch_validate (wb_branch f) ;;
  ensure binding_shape f else InvalidRepositoryFingerprint ;;
  let? fp := compute_fingerprint f in
  ensure fp =?= wb_binding_fingerprint f else InvalidRepositoryFingerprint ;;
  Ok tt.

Definition with_binding_fingerprint (f : WorkspaceBindingFact) (fp : RepositoryFingerprint)
    : WorkspaceBindingFact :=
  {| wb_kind := wb_kind f; wb_project_root := wb_project_root f;
     wb_workspace_root := wb_workspace_root f; wb_repository_root := wb_repository_root f;
     wb_common_git_dir := wb_common_git_dir f; wb_admin_dir := wb_admin_dir f;
     wb_marker := wb_marker f; wb_commondir := wb_commondir f; wb_gitdir := wb_gitdir f;
     wb_head := wb_head f; wb_branch := wb_branch f; wb_binding_fingerprint := fp |}.

Definition zero_token : text := lit "sha256:" ++ repeat 48 64.

(** [issue]: the argument is the fact before its fingerprint is known. *)
Definition binding_issue `{Sha256} (draft : WorkspaceBindingFact)
    : result WorkspaceBindingFact TaskValidationError :=
  let? placeholder := from_host_token zero_token in
  let fact := with_binding_fingerprint draft placeholder in
  let? fp := compute_fingerprint fact in
  let fact := with_binding_fingerprint fact fp in
  try? binding_validate fact ;;
  Ok fact.

Record WorkspaceBindingFactWire := {
  wbw_kind : WorkspaceBindingKind;
  wbw_project_root : WorkspacePathFactWire;
  wbw_workspace_root : WorkspacePathFactWire;
  wbw_repository_root : option WorkspacePathFactWire;
  wbw_common_git_dir : option WorkspacePathFactWire;
  wbw_admin_dir : option WorkspacePathFactWire;
  wbw_marker : option WorkspacePathFactWire;
  wbw_commondir : option WorkspacePathFactWire;
  wbw_gitdir : option WorkspacePathFactWire;
  wbw_head : option WorkspacePathFactWire;
  wbw_branch : option text;
  wbw_binding_fingerprint : text;
}.

Definition binding_serialize (f : WorkspaceBindingFact) : WorkspaceBindingFactWire :=
  {| wbw_kind := wb_kind f;
     wbw_project_root := path_fact_serialize (wb_project_root f);
     wbw_workspace_root := path_fact_serialize (wb_workspace_root f);
     wbw_repository_root := path_fact_serialize <$> wb_repository_root f;
     wbw_common_git_dir := path_fact_serialize <$> wb_common_git_dir f;
     wbw_admin_dir := path_fact_serialize <$> wb_admin_dir f;
     wbw_marker := path_fact_serialize <$> wb_marker f;
     wbw_commondir := path_fact_serialize <$> wb_commondir f;
     wbw_gitdir := path_fact_serialize <$> wb_gitdir f;
     wbw_head := path_fact_serialize <$> wb_head f;
     wbw_branch := wb_branch f;
     wbw_binding_fingerprint := wb_binding_fingerprint f |}.

(** The derived [Deserialize]: every member through its own decoder. *)
Definition binding_deserialize (w : WorkspaceBindingFactWire)
    : result WorkspaceBindingFact TaskValidationError :=
  let? project_root := path_fact_deserialize (wbw_project_root w) in
  let? workspace_root := path_fact_deserialize (wbw_workspace_root w) in
  let? repository_root := option_traverse path_fact_deserialize (wbw_repository_root w) in
  let? common_git_dir := option_traverse path_fact_deserialize (wbw_common_git_dir w) in
  let? admin_dir := option_traverse path_fact_deserialize (wbw_admin_dir w) in
  let? marker := option_traverse path_fact_deserialize (wbw_marker w) in
  let? commondir := option_traverse path_fact_deserialize (wbw_commondir w) in
  let? gitdir := option_traverse path_fact_deserialize (wbw_gitdir w) in
  let? head := option_traverse path_fact_deserialize (wbw_head w) in
  let? fp := from_host_token (wbw_binding_fingerprint w) in
  Ok {| wb_kind := wbw_kind w; wb_project_root := project_root;
        wb_workspace_root := workspace_root; wb_repository_root := repository_root;
        wb_common_git_dir := common_git_dir; wb_admin_dir := admin_dir; wb_marker := marker;
        wb_commondir := commondir; wb_gitdir := gitdir; wb_head := head;
        wb_branch := wbw_branch w; wb_binding_fingerprint := fp |}.

(** ** Workspace references *)

Inductive WorkspaceRef :=
| WsMain
| WsWorktree (p : path) (branch : text)
| WsExternal (p : path)
| WsMainWithFingerprint (repository_fingerprint : RepositoryFingerprint)
| WsWorktreeWithFingerprint (p : path) (branch : text)
    (repository_fingerprint : RepositoryFingerprint)
| WsHostBound (binding : WorkspaceBindingFact)
| WsExternalWithFingerprint (p : path) (binding : WorkspaceBindingFact).

#[export] Instance WorkspaceRef_eq_dec : EqDecision WorkspaceRef.
Proof. solve_decision. Defined.

(** The derived [PartialEq]s: a path compares by its components. *)
Definition path_fact_eqb (a b : WorkspacePathFact) : bool :=
  path_eqb (wpf_path a) (wpf_path b) && (wpf_identity a =?= wpf_identity b) && same_fact a b.

Definition option_eqb {A} (f : A -> A -> bool) (a b : option A) : bool :=
  match a, b with
  | Some a, Some b => f a b
  | None, None => true
  | _, _ => false
  end.

Definition binding_eqb (a b : WorkspaceBindingFact) : bool :=
  let same := option_eqb path_fact_eqb in
  (wb_kind a =?= wb_kind b) && path_fact_eqb (wb_project_root a) (wb_project_root b)
  && path_fact_eqb (wb_workspace_root a) (wb_workspace_root b)
  && same (wb_repository_root a) (wb_repository_root b)
  && same (wb_common_git_dir a) (wb_common_git_dir b) && same (wb_admin_dir a) (wb_admin_dir b)
  && same (wb_marker a) (wb_marker b) && same (wb_commondir a) (wb_commondir b)
  && same (wb_gitdir a) (wb_gitdir b) && same (wb_head a) (wb_head b)
  && (wb_branch a =?= wb_branch b) && (wb_binding_fingerprint a =?= wb_binding_fingerprint b).

Definition ws_eqb (a b : WorkspaceRef) : bool :=
  match a, b with
  | WsMain, WsMain => true
  | WsWorktree p x, WsWorktree q y => path_eqb p q && (x =?= y)
  | WsExternal p, WsExternal q => path_eqb p q
  | WsMainWithFingerprint x, WsMainWithFingerprint y => x =?= y
  | WsWorktreeWithFingerprint p x f, WsWorktreeWithFingerprint q y g =>
      path_eqb p q && (x =?= y) && (f =?= g)
  | WsHostBound x, WsHostBound y => binding_eqb x y
  | WsExternalWithFingerprint p x, WsExternalWithFingerprint q y => path_eqb p q && binding_eqb x y
  | _, _ => false
  end.

Inductive WorkspaceRefWire :=
| WireMain
| WireWorktree (p : path) (branch : text)
| WireExternal (p : path)
| WireExternalBound (binding : WorkspaceBindingFactWire)
| WireMainWithFingerprint (repository_fingerprint : text)
| WireWorktreeWithFingerprint (p : path) (branch : text) (repository_fingerprint : text)
| WireHostBound (binding : WorkspaceBindingFactWire).

Definition canonicalize_branch (value : text) : result text TaskValidationError :=
  ok_or (canonicalize value) EmptyBranch.

Definition ws_worktree (p : path) (branch : text) : result WorkspaceRef TaskValidationError :=
  let? p := validate_path p in
  let? branch := canonicalize_branch branch in
  Ok (WsWorktree p branch).

Definition ws_external (p : path) : result WorkspaceRef TaskValidationError :=
  let? p := validate_path p in
  Ok (WsExternal p).

Definition ws_worktree_with_fingerprint (p : path) (branch : text) (fp : RepositoryFingerprint)
    : result WorkspaceRef TaskValidationError :=
  ensure negb (is_empty (trim fp)) else EmptyRepositoryFingerprint ;;
  let? p := validate_path p in
  let? branch := canonicalize_branch branch in
  Ok (WsWorktreeWithFingerprint p branch fp).

Definition ws_repository_fingerprint (w : WorkspaceRef) : option RepositoryFingerprint :=
  match w with
  | WsMainWithFingerprint fp | WsWorktreeWithFingerprint _ _ fp => Some fp
  | WsHostBound b => Some (wb_binding_fingerprint b)
  | WsExternalWithFingerprint _ b => Some (wb_binding_fingerprint b)
  | WsMain | WsWorktree _ _ | WsExternal _ => None
  end.

Definition ws_host_binding (w : WorkspaceRef) : option WorkspaceBindingFact :=
  match w with
  | WsHostBound b | WsExternalWithFingerprint _ b => Some b
  | _ => None
  end.

Definition ws_validate `{Sha256} (w : WorkspaceRef) : result unit TaskValidationError :=
  match w with
  | WsMain => Ok tt
  | WsWorktree p branch =>
      try? check_path p ;;
      ensure is_canonical branch else EmptyBranch ;;
      Ok tt
  | WsExternal p => check_path p
  | WsMainWithFingerprint fp =>
      ensure negb (is_empty (trim fp)) else EmptyRepositoryFingerprint ;;
      Ok tt
  | WsWorktreeWithFingerprint p branch fp =>
      try? check_path p ;;
      ensure is_canonical branch else EmptyBranch ;;
      ensure negb (is_empty (trim fp)) else EmptyRepositoryFingerprint ;;
      Ok tt
  | WsHostBound b => binding_validate b
  | WsExternalWithFingerprint p b =>
      try? binding_validate b ;;
      ensure wb_kind b =?= BindExternal else InvalidRepositoryFingerprint ;;
      if is_empty p then
        ensure is_empty (wpf_path (wb_workspace_root b)) else InvalidRepositoryFingerprint ;;
        Ok tt
      else
        ensure path_eqb (wpf_path (wb_workspace_root b)) p else InvalidRepositoryFingerprint ;;
        Ok tt
  end.

(** Wire failures: a refused boundary crossing, or a validation error. *)
Inductive WorkspaceWireError :=
| UnresolvedWorkspacePath
| WorkspacePathOnWire
| NotAnOpaqueBinding
| InvalidExternalKind
| WireInvalid (e : TaskValidationError).

Definition ws_serialize (w : WorkspaceRef) : result WorkspaceRefWire WorkspaceWireError :=
  match w with
  | WsMain => Ok WireMain
  | WsWorktree _ _ | WsExternal _ => Err UnresolvedWorkspacePath
  | WsMainWithFingerprint fp => Ok (WireMainWithFingerprint fp)
  | WsWorktreeWithFingerprint _ _ _ => Err WorkspacePathOnWire
  | WsHostBound b => Ok (WireHostBound (binding_serialize b))
  | WsExternalWithFingerprint _ b => Ok (WireExternalBound (binding_serialize b))
  end.

Definition ws_deserialize `{Sha256} (w : WorkspaceRefWire)
    : result WorkspaceRef WorkspaceWireError :=
  match w with
  | WireMain => Ok WsMain
  | WireWorktree _ _ | WireExternal _ | WireWorktreeWithFingerprint _ _ _ =>
      Err NotAnOpaqueBinding
  | WireExternalBound bw =>
      let? b := map_err WireInvalid (binding_deserialize bw) in
      ensure wb_kind b =?= BindExternal else InvalidExternalKind ;;
      try? map_err WireInvalid (binding_validate b) ;;
      Ok (WsExternalWithFingerprint [] b)
  | WireMainWithFingerprint fpw =>
      let? fp := map_err WireInvalid (from_host_token fpw) in
      try? map_err WireInvalid (ws_validate (WsMainWithFingerprint fp)) ;;
      Ok (WsMainWithFingerprint fp)
  | WireHostBound bw =>
      let? b := map_err WireInvalid (binding_deserialize bw) in
      try? map_err WireInvalid (binding_validate b) ;;
      Ok (WsHostBound b)
  end.

(** ** Task state *)

Inductive TaskLifecycle := TaskOpen | TaskSettledL | TaskClosing | TaskArchivedL | TaskDeletedL.
Inductive TaskConnectivity := Connected | Disconnected.
Inductive TaskAttention :=
| AttentionNone | NeedsAnswer | NeedsApproval | UncertainOutcome | AttentionFailed.
Inductive TaskActivity := ActivityIdle | ActivityWorking | ActivitySettling.
Inductive ReviewReadiness := NotReady | Ready.

Inductive VisibleTaskStatus :=
| VisDisconnected
| VisFailed
| VisUncertainOutcome
| VisNeedsApproval
| VisNeedsAnswer
| VisWorking
| VisSettling
| VisReadyForReview
| VisIdle.

#[export] Instance TaskLifecycle_eq_dec : EqDecision TaskLifecycle.
Proof. solve_decision. Defined.
#[export] Instance TaskConnectivity_eq_dec : EqDecision TaskConnectivity.
Proof. solve_decision. Defined.
#[export] Instance TaskAttention_eq_dec : EqDecision TaskAttention.
Proof. solve_decision. Defined.
#[export] Instance TaskActivity_eq_dec : EqDecision TaskActivity.
Proof. solve_decision. Defined.
#[export] Instance ReviewReadiness_eq_dec : EqDecision ReviewReadiness.
Proof. solve_decision. Defined.
#[export] Instance VisibleTaskStatus_eq_dec : EqDecision VisibleTaskStatus.
Proof. solve_decision. Defined.

Definition visible_derive (connectivity : TaskConnectivity) (attention : TaskAttention)
    (activity : TaskActivity) (review : ReviewReadiness) : VisibleTaskStatus :=
  if connectivity =?= Disconnected then VisDisconnected
  else
    match attention with
    | AttentionFailed => VisFailed
    | UncertainOutcome => VisUncertainOutcome
    | NeedsApproval => VisNeedsApproval
    | NeedsAnswer => VisNeedsAnswer
    | AttentionNone =>
        match activity with
        | ActivityWorking => VisWorking
        | ActivitySettling => VisSettling
        | ActivityIdle =>
            match review with
            | Ready => VisReadyForReview
            | NotReady => VisIdle
            end
        end
    end.

Inductive TaskAssignment :=
| LocalOwner
| ExternalPrincipal (authority subject : text).

#[export] Instance TaskAssignment_eq_dec : EqDecision TaskAssignment.
Proof. solve_decision. Defined.

Definition canonicalize_principal (value : text) (empty_error : TaskValidationError)
    : result text TaskValidationError := ok_or (canonicalize value) empty_error.

Definition external_principal (authority subject : text)
    : result TaskAssignment TaskValidationError :=
  let? authority := canonicalize_principal authority EmptyPrincipalAuthority in
  let? subject := canonicalize_principal subject EmptyPrincipalSubject in
  Ok (ExternalPrincipal authority subject).

Definition assignment_validate (a : TaskAssignment) : result unit TaskValidationError :=
  match a with
  | LocalOwner => Ok tt
  | ExternalPrincipal authority subject =>
      ensure is_canonical authority else EmptyPrincipalAuthority ;;
      ensure is_canonical subject else EmptyPrincipalSubject ;;
      Ok tt
  end.

(** The assignment has the same members on the wire. *)
Definition assignment_deserialize (w : TaskAssignment) : result TaskAssignment TaskValidationError :=
  match w with
  | LocalOwner => Ok LocalOwner
  | ExternalPrincipal authority subject => external_principal authority subject
  end.

Record TaskFacts := {
  tf_id : TaskId;
  tf_environment_id : EnvironmentId;
  tf_title : text;
  tf_description : option text;
  tf_project_id : ProjectId;
  tf_workspace : WorkspaceRef;
  tf_assignment : TaskAssignment;
  tf_lifecycle : TaskLifecycle;
  tf_action_epoch : N;
  tf_revision : N;
  tf_created_at_ms : Z;
}.

#[export] Instance TaskFacts_eq_dec : EqDecision TaskFacts.
Proof. solve_decision. Defined.

Definition canonicalize_title (title : text) : result text TaskValidationError :=
  ok_or (canonicalize title) EmptyTitle.

Definition canonicalize_description (d : option text)
    : result (option text) TaskValidationError :=
  match d with
  | Some value => let? v := ok_or (canonicalize value) EmptyDescription in Ok (Some v)
  | None => Ok None
  end.

(** [TaskFacts::new]; [fresh] is the id [TaskId::new] draws. *)
Definition task_facts_new `{Sha256} (fresh : TaskId) (environment_id : EnvironmentId) (title : text)
    (description : option text) (project_id : ProjectId) (workspace : WorkspaceRef)
    (assignment : TaskAssignment) (created_at_ms : Z) : result TaskFacts TaskValidationError :=
  let? title := canonicalize_title title in
  let? description := canonicalize_description description in
  try? ws_validate workspace ;;
  try? assignment_validate assignment ;;
  Ok {| tf_id := fresh; tf_environment_id := environment_id; tf_title := title;
        tf_description := description; tf_project_id := project_id; tf_workspace := workspace;
        tf_assignment := assignment; tf_lifecycle := TaskOpen; tf_action_epoch := 0;
        tf_revision := 0; tf_created_at_ms := created_at_ms |}.

Definition validate_content `{Sha256} (t : TaskFacts) : result unit TaskValidationError :=
  ensure is_canonical (tf_title t) else EmptyTitle ;;
  ensure is_none_or (tf_description t) is_canonical else EmptyDescription ;;
  try? ws_validate (tf_workspace t) ;;
  try? assignment_validate (tf_assignment t) ;;
  Ok tt.

Definition validate_for_create `{Sha256} (t : TaskFacts) : result unit TaskValidationError :=
  try? validate_content t ;;
  ensure negb (negb (tf_lifecycle t =?= TaskOpen) || negb (tf_action_epoch t =? 0)
               || negb (tf_revision t =? 1)) else InvalidCreateState ;;
  Ok tt.

(** The wire record of a task: its members as they travel. *)
Record TaskFactsWire := {
  tfw_id : TaskId;
  tfw_environment_id : EnvironmentId;
  tfw_title : text;
  tfw_description : option text;
  tfw_project_id : ProjectId;
  tfw_workspace : WorkspaceRefWire;
  tfw_assignment : TaskAssignment;
  tfw_lifecycle : TaskLifecycle;
  tfw_action_epoch : N;
  tfw_revision : N;
  tfw_created_at_ms : Z;
}.

Definition task_facts_serialize (t : TaskFacts) : result TaskFactsWire WorkspaceWireError :=
  let? workspace := ws_serialize (tf_workspace t) in
  Ok {| tfw_id := tf_id t; tfw_environment_id := tf_environment_id t; tfw_title := tf_title t;
        tfw_description := tf_description t; tfw_project_id := tf_project_id t;
        tfw_workspace := workspace; tfw_assignment := tf_assignment t;
        tfw_lifecycle := tf_lifecycle t; tfw_action_epoch := tf_action_epoch t;
        tfw_revision := tf_revision t; tfw_created_at_ms := tf_created_at_ms t |}.

Definition task_facts_deserialize `{Sha256} (w : TaskFactsWire)
    : result TaskFacts WorkspaceWireError :=
  let? workspace := ws_deserialize (tfw_workspace w) in
  let? assignment := map_err WireInvalid (assignment_deserialize (tfw_assignment w)) in
  let? title := map_err WireInvalid (canonicalize_title (tfw_title w)) in
  let? description := map_err WireInvalid (canonicalize_description (tfw_description w)) in
  try? map_err WireInvalid (ws_validate workspace) ;;
  try? map_err WireInvalid (assignment_validate assignment) ;;
  Ok {| tf_id := tfw_id w; tf_environment_id := tfw_environment_id w; tf_title := title;
        tf_description := description; tf_project_id := tfw_project_id w;
        tf_workspace := workspace; tf_assignment := assignment;
        tf_lifecycle := tfw_lifecycle w; tf_action_epoch := tfw_action_epoch w;
        tf_revision := tfw_revision w; tf_created_at_ms := tfw_created_at_ms w |}.

(** ** Lemmas *)

Lemma check_path_Ok p u : check_path p = Ok u <-> p <> [] /\ path_has_nul p = false.
Proof.
  unfold check_path. destruct u, p as [|c p]; simpl; [split; [done | by intros [? ?]]|].
  destruct (path_has_nul (c :: p)); split; try done; by intros [? ?].
Qed.

Lemma hex_digit_lower d : d < 16 -> lower_hex_byte (hex_digit_char d) = true.
Proof.
  intros Hd. unfold lower_hex_byte, hex_digit_char.
  destruct (N.ltb_spec d 10); bool_solve.
Qed.

Lemma utf8_ascii c : c < 0x80 -> utf8_char c = [c].
Proof. intros Hc. unfold utf8_char. destruct (N.ltb_spec c 0x80); [done|lia]. Qed.

Lemma bytes_ascii s : Forall (fun c => c < 0x80) s -> bytes s = s.
Proof.
  induction 1 as [|c s Hc _ IH]; [done|].
  change (bytes (c :: s)) with (utf8_char c ++ bytes s).
  by rewrite utf8_ascii, IH.
Qed.

Lemma bytes_app s t : bytes (s ++ t) = bytes s ++ bytes t.
Proof. unfold bytes. by rewrite map_app, concat_app. Qed.

Lemma hex_digit_ascii d : d < 16 -> hex_digit_char d < 0x80.
Proof. intros Hd. unfold hex_digit_char. destruct (N.ltb_spec d 10); lia. Qed.

Lemma hex_string_ok bs :
  (forall b, b ∈ bs -> b < 256) ->
  Forall (fun c => c < 0x80) (hex_string bs)
  /\ forallb lower_hex_byte (hex_string bs) = true
  /\ count (hex_string bs) = 2 * count bs.
Proof.
  induction bs as [|b bs IH]; intros Hb; [done|].
  destruct IH as (Ha & Hh & Hc); [intros; apply Hb; set_solver|].
  assert (b < 256) by (apply Hb; set_solver).
  assert (b / 16 < 16) by (apply N.Div0.div_lt_upper_bound; lia).
  assert (b mod 16 < 16) by (apply N.mod_lt; lia).
  unfold hex_string in *. simpl. split_and!.
  - repeat constructor; auto using hex_digit_ascii.
  - by rewrite !hex_digit_lower.
  - autorewrite with counts. lia.
Qed.

Lemma trim_nonspace_nonempty c s : is_whitespace c = false -> trim (c :: s) <> [].
Proof.
  intros Hc. unfold trim. simpl. rewrite Hc. unfold trim_end.
  intros Hn. destruct (trim_start_suffix (rev (c :: s))) as [p Hp].
  apply (f_equal (@rev N)) in Hn. rewrite rev_involutive in Hn. simpl in Hn.
  pose proof (trim_start_head (rev s ++ [c])) as Hh.
  assert (trim_start (rev s ++ [c]) <> []) as Hne; [|done].
  clear -Hc. induction (rev s) as [|d r IH]; simpl; [by rewrite Hc|].
  destruct (is_whitespace d); [done|]. done.
Qed.

Lemma from_host_token_hex bs :
  length bs = 32%nat -> (forall b, b ∈ bs -> b < 256) ->
  from_host_token (lit "sha256:" ++ hex_string bs) = Ok (lit "sha256:" ++ hex_string bs).
Proof.
  intros Hl Hb. destruct (hex_string_ok bs Hb) as (Ha & Hh & Hc).
  unfold from_host_token.
  assert (is_empty (trim (lit "sha256:" ++ hex_string bs)) = false) as ->.
  { apply is_empty_false. by apply trim_nonspace_nonempty. }
  cbn [negb guard rbind].
  assert (strip_prefix (lit "sha256:") (lit "sha256:" ++ hex_string bs) = Some (hex_string bs))
    as -> by (by apply strip_prefix_Some).
  assert ((len (hex_string bs) =? 64) = true) as ->.
  { apply N.eqb_eq. unfold len. rewrite (bytes_ascii _ Ha), Hc. unfold count. by rewrite Hl. }
  by rewrite (bytes_ascii _ Ha), Hh.
Qed.

(** *** The durable form of a binding *)

Definition strip_path_fact (f : WorkspacePathFact) : WorkspacePathFact :=
  {| wpf_path := []; wpf_identity := []; wpf_opaque_id := wpf_opaque_id f;
     wpf_content_length := wpf_content_length f;
     wpf_content_fingerprint := wpf_content_fingerprint f |}.

Definition strip_binding (b : WorkspaceBindingFact) : WorkspaceBindingFact :=
  {| wb_kind := wb_kind b; wb_project_root := strip_path_fact (wb_project_root b);
     wb_workspace_root := strip_path_fact (wb_workspace_root b);
     wb_repository_root := strip_path_fact <$> wb_repository_root b;
     wb_common_git_dir := strip_path_fact <$> wb_common_git_dir b;
     wb_admin_dir := strip_path_fact <$> wb_admin_dir b;
     wb_marker := strip_path_fact <$> wb_marker b;
     wb_commondir := strip_path_fact <$> wb_commondir b;
     wb_gitdir := strip_path_fact <$> wb_gitdir b;
     wb_head := strip_path_fact <$> wb_head b;
     wb_branch := wb_branch b; wb_binding_fingerprint := wb_binding_fingerprint b |}.

Definition strip_workspace (w : WorkspaceRef) : WorkspaceRef :=
  match w with
  | WsHostBound b => WsHostBound (strip_binding b)
  | WsExternalWithFingerprint _ b => WsExternalWithFingerprint [] (strip_binding b)
  | w => w
  end.

Definition strip_task (t : TaskFacts) : TaskFacts :=
  {| tf_id := tf_id t; tf_environment_id := tf_environment_id t; tf_title := tf_title t;
     tf_description := tf_description t; tf_project_id := tf_project_id t;
     tf_workspace := strip_workspace (tf_workspace t); tf_assignment := tf_assignment t;
     tf_lifecycle := tf_lifecycle t; tf_action_epoch := tf_action_epoch t;
     tf_revision := tf_revision t; tf_created_at_ms := tf_created_at_ms t |}.

(** A fingerprint value only exists through [from_host_token]. *)
Definition fingerprint_wf (fp : RepositoryFingerprint) : Prop := from_host_token fp = Ok fp.

Definition path_fact_wf (f : WorkspacePathFact) : Prop :=
  match wpf_content_fingerprint f with Some fp => fingerprint_wf fp | None => True end.

Definition binding_wf (b : WorkspaceBindingFact) : Prop :=
  path_fact_wf (wb_project_root b) /\ path_fact_wf (wb_workspace_root b)
  /\ Forall (from_option path_fact_wf True) (optional_facts b)
  /\ fingerprint_wf (wb_binding_fingerprint b).

Definition workspace_wf (w : WorkspaceRef) : Prop :=
  match w with
  | WsMainWithFingerprint fp | WsWorktreeWithFingerprint _ _ fp => fingerprint_wf fp
  | WsHostBound b | WsExternalWithFingerprint _ b => binding_wf b
  | _ => True
  end.

(** The references [ws_serialize] lets across the durable boundary. *)
Definition workspace_durable (w : WorkspaceRef) : bool :=
  match w with
  | WsMain | WsMainWithFingerprint _ | WsHostBound _ | WsExternalWithFingerprint _ _ => true
  | _ => false
  end.

Lemma path_fact_validate_strip f :
  path_fact_validate f = Ok tt -> path_fact_validate (strip_path_fact f) = Ok tt.
Proof.
  unfold path_fact_validate. intros H.
  apply rbind_Ok in H as (? & _ & H). exact H.
Qed.

Lemma path_fact_roundtrip f :
  path_fact_validate f = Ok tt -> path_fact_wf f ->
  path_fact_deserialize (path_fact_serialize f) = Ok (strip_path_fact f).
Proof.
  intros Hv Hw. unfold path_fact_deserialize, path_fact_serialize; cbn -[path_fact_validate].
  assert (option_traverse from_host_token (wpf_content_fingerprint f)
          = Ok (wpf_content_fingerprint f)) as ->.
  { unfold path_fact_wf in Hw. destruct (wpf_content_fingerprint f) as [fp|]; simpl; [|done].
    by rewrite Hw. }
  cbn -[path_fact_validate]. apply path_fact_validate_strip in Hv.
  unfold strip_path_fact in *. by rewrite Hv.
Qed.

Lemma option_fact_roundtrip o :
  match o with Some f => path_fact_validate f = Ok tt /\ path_fact_wf f | None => True end ->
  option_traverse path_fact_deserialize (path_fact_serialize <$> o) = Ok (strip_path_fact <$> o).
Proof.
  destruct o as [f|]; [|done]. intros [Hv Hw]. simpl. by rewrite path_fact_roundtrip.
Qed.

Lemma validate_flattened_Ok l :
  validate_flattened l = Ok tt <->
  Forall (fun o => match o with Some f => path_fact_validate f = Ok tt | None => True end) l.
Proof.
  induction l as [|[f|] l IH]; simpl; [split; by constructor| |].
  - rewrite rbind_Ok, Forall_cons, <- IH. split.
    + intros ([] & ? & ?). done.
    + intros [? ?]. by exists tt.
  - rewrite Forall_cons, <- IH. tauto.
Qed.

Lemma binding_validate_parts `{Sha256} b :
  binding_validate b = Ok tt <->
  path_fact_validate (wb_project_root b) = Ok tt
  /\ path_fact_validate (wb_workspace_root b) = Ok tt
  /\ validate_flattened (optional_facts b) = Ok tt
  /\ branch_validate (wb_branch b) = Ok tt
  /\ binding_shape b = true
  /\ compute_fingerprint b = Ok (wb_binding_fingerprint b).
Proof.
  unfold binding_validate. split.
  - intros Hv. do 5 (apply rbind_Ok in Hv as ([] & ? & Hv)).
    apply rbind_Ok in Hv as (fp & Hfp & Hv).
    apply rbind_Ok in Hv as (? & Hg & _).
    apply guard_Ok in Hg. apply eqb_true_1 in Hg as ->.
    split_and!; try done.
    match goal with Hs : guard _ _ = Ok _ |- _ => by apply guard_Ok in Hs end.
  - intros (-> & -> & -> & -> & -> & ->). simpl. by rewrite eqb_refl.
Qed.

Lemma fact_preimage_strip label o :
  fact_preimage label (strip_path_fact <$> o) = fact_preimage label o.
Proof. by destruct o. Qed.

Lemma binding_preimage_strip b : binding_preimage (strip_binding b) = binding_preimage b.
Proof.
  unfold binding_preimage, labelled_facts. cbn -[fact_preimage lit].
  change (Some (strip_path_fact (wb_project_root b)))
    with (strip_path_fact <$> Some (wb_project_root b)).
  change (Some (strip_path_fact (wb_workspace_root b)))
    with (strip_path_fact <$> Some (wb_workspace_root b)).
  by rewrite !fact_preimage_strip.
Qed.

Lemma compute_fingerprint_strip `{Sha256} b :
  compute_fingerprint (strip_binding b) = compute_fingerprint b.
Proof. unfold compute_fingerprint. by rewrite binding_preimage_strip. Qed.

Lemma binding_shape_strip b : binding_shape (strip_binding b) = binding_shape b.
Proof.
  unfold binding_shape, binding_shape_main, binding_shape_worktree. simpl.
  destruct (wb_repository_root b), (wb_common_git_dir b), (wb_admin_dir b), (wb_marker b),
    (wb_commondir b), (wb_gitdir b), (wb_head b); done.
Qed.

Lemma binding_validate_strip `{Sha256} b :
  binding_validate b = Ok tt -> binding_validate (strip_binding b) = Ok tt.
Proof.
  rewrite !binding_validate_parts, binding_shape_strip, compute_fingerprint_strip, !validate_flattened_Ok.
  intros (Hp & Hw & Hf & Hb & Hs & Hc). split_and!; try done; simpl.
  - by apply path_fact_validate_strip.
  - by apply path_fact_validate_strip.
  - change (optional_facts (strip_binding b))
      with (map (fun o => strip_path_fact <$> o) (optional_facts b)).
    apply Forall_map. eapply Forall_impl; [exact Hf|]. intros [f|] Ho; simpl; [|done].
    by apply path_fact_validate_strip.
Qed.

Lemma binding_roundtrip `{Sha256} b :
  binding_validate b = Ok tt -> binding_wf b ->
  binding_deserialize (binding_serialize b) = Ok (strip_binding b).
Proof.
  rewrite binding_validate_parts, validate_flattened_Ok.
  intros (Hp & Hw & Hf & _) (Hp' & Hw' & Hwf & Hfp).
  assert (forall o, o ∈ optional_facts b ->
            option_traverse path_fact_deserialize (path_fact_serialize <$> o)
            = Ok (strip_path_fact <$> o)) as Hopt.
  { intros o Ho. apply option_fact_roundtrip.
    pose proof (proj1 (Forall_forall _ _) Hf o Ho).
    pose proof (proj1 (Forall_forall _ _) Hwf o Ho). by destruct o. }
  unfold binding_deserialize, binding_serialize.
  cbn [wbw_kind wbw_project_root wbw_workspace_root wbw_repository_root wbw_common_git_dir
       wbw_admin_dir wbw_marker wbw_commondir wbw_gitdir wbw_head wbw_branch
       wbw_binding_fingerprint].
  rewrite !path_fact_roundtrip by done. cbn [rbind].
  rewrite !Hopt by (unfold optional_facts; set_solver). cbn [rbind].
  by rewrite Hfp.
Qed.

Lemma same_fact_strip f : same_fact f (strip_path_fact f) = true.
Proof. unfold same_fact. simpl. by rewrite !eqb_refl. Qed.

Lemma same_optional_strip o : same_optional o (strip_path_fact <$> o) = true.
Proof. destruct o; [apply same_fact_strip | done]. Qed.

Lemma same_runtime_identity_strip b : same_runtime_identity b (strip_binding b) = true.
Proof.
  unfold same_runtime_identity. simpl.
  rewrite eqb_refl, !same_fact_strip, !same_optional_strip. by destruct (wb_head b).
Qed.

Lemma ws_validate_strip `{Sha256} w :
  workspace_durable w = true -> ws_validate w = Ok tt -> ws_validate (strip_workspace w) = Ok tt.
Proof.
  destruct w as [| | | | |b|p b]; simpl; try done; intros _.
  - apply binding_validate_strip.
  - intros Hv. apply rbind_Ok in Hv as ([] & Hb & Hv). apply rbind_Ok in Hv as ([] & Hk & _).
    apply binding_validate_strip in Hb. rewrite Hb. simpl. by rewrite Hk.
Qed.

Lemma ws_roundtrip `{Sha256} w :
  workspace_durable w = true -> ws_validate w = Ok tt -> workspace_wf w ->
  rbind (ws_serialize w) ws_deserialize = Ok (strip_workspace w).
Proof.
  destruct w as [| | |fp| |b|p b]; simpl; try done; intros _ Hv Hwf.
  - rewrite Hwf. simpl. by rewrite Hv.
  - rewrite binding_roundtrip by done. simpl.
    by rewrite (binding_validate_strip b Hv).
  - apply rbind_Ok in Hv as ([] & Hb & Hv). apply rbind_Ok in Hv as ([] & Hk & _).
    rewrite binding_roundtrip by done. apply guard_Ok in Hk. simpl. rewrite Hk. simpl.
    by rewrite (binding_validate_strip b Hb).
Qed.

Lemma assignment_roundtrip a :
  assignment_validate a = Ok tt -> assignment_deserialize a = Ok a.
Proof.
  destruct a as [|x y]; [done|]. simpl. intros Hv.
  apply rbind_Ok in Hv as (? & Hx & Hv). apply rbind_Ok in Hv as (? & Hy & _).
  apply guard_Ok in Hx, Hy. unfold external_principal, canonicalize_principal.
  by rewrite (canonicalize_canonical _ Hx), (canonicalize_canonical _ Hy).
Qed.

Lemma validate_content_parts `{Sha256} t :
  validate_content t = Ok tt <->
  is_canonical (tf_title t) = true
  /\ is_none_or (tf_description t) is_canonical = true
  /\ ws_validate (tf_workspace t) = Ok tt
  /\ assignment_validate (tf_assignment t) = Ok tt.
Proof.
  unfold validate_content. split.
  - intros Hv. do 4 (apply rbind_Ok in Hv as ([] & ? & Hv)).
    repeat match goal with Hs : guard _ _ = Ok _ |- _ => apply guard_Ok in Hs end. done.
  - by intros (-> & -> & -> & ->).
Qed.

Lemma canonicalize_description_fix d :
  is_none_or d is_canonical = true -> canonicalize_description d = Ok d.
Proof. destruct d as [v|]; simpl; [|done]. intros Hv. by rewrite (canonicalize_canonical _ Hv). Qed.

Lemma fact_preimage_total f label :
  path_fact_validate f = Ok tt -> exists bs, fact_preimage label (Some f) = Some bs.
Proof.
  unfold path_fact_validate. intros Hv.
  do 3 (apply rbind_Ok in Hv as ([] & ? & Hv)).
  repeat match goal with Hs : guard _ _ = Ok _ |- _ => apply guard_Ok in Hs end.
  simpl. destruct (wpf_content_length f), (wpf_content_fingerprint f); simpl in *; try done; eauto.
Qed.

Lemma facts_preimage_total l :
  Forall (fun lf => match snd lf with Some f => path_fact_validate f = Ok tt | None => True end) l ->
  exists bs, facts_preimage l = Some bs.
Proof.
  induction 1 as [|[label [f|]] l Hf _ [bs IH]]; cbn [facts_preimage]; [by eexists| |].
  - destruct (fact_preimage_total f label Hf) as [a ->]. rewrite IH. by eexists.
  - rewrite IH. by eexists.
Qed.

Lemma binding_preimage_total b :
  path_fact_validate (wb_project_root b) = Ok tt ->
  path_fact_validate (wb_workspace_root b) = Ok tt ->
  validate_flattened (optional_facts b) = Ok tt ->
  exists bs, binding_preimage b = Some bs.
Proof.
  rewrite validate_flattened_Ok. intros Hp Hw Hf.
  unfold binding_preimage.
  destruct (facts_preimage_total (labelled_facts b)) as [bs ->]; [|by eexists].
  unfold labelled_facts, optional_facts in *.
  repeat match goal with Hs : Forall _ (_ :: _) |- _ => inversion_clear Hs end.
  repeat constructor; done.
Qed.

(** ** Properties *)

(** a host binding that is well formed is always issued, the issued fact
    differs from the draft only in its fingerprint, and it validates: the
    fingerprint computation never panics and never refuses a validated fact. *)
Theorem binding_issue_complete `{Sha256Spec} (b : WorkspaceBindingFact)
    (Hp : path_fact_validate (wb_project_root b) = Ok tt)
    (Hw : path_fact_validate (wb_workspace_root b) = Ok tt)
    (Hf : validate_flattened (optional_facts b) = Ok tt)
    (Hb : branch_validate (wb_branch b) = Ok tt)
    (Hs : binding_shape b = true) :
  exists preimage fp,
    binding_preimage b = Some preimage
    /\ fp = lit "sha256:" ++ hex_string (sha256 preimage)
    /\ binding_issue b = Ok (with_binding_fingerprint b fp)
    /\ binding_validate (with_binding_fingerprint b fp) = Ok tt
    /\ fingerprint_wf fp.
Proof.
  destruct (binding_preimage_total b Hp Hw Hf) as [pre Hpre].
  set (fp := lit "sha256:" ++ hex_string (sha256 pre)).
  assert (fingerprint_wf fp) as Hfp.
  { apply from_host_token_hex; [apply sha256_length | apply sha256_byte]. }
  assert (forall x, compute_fingerprint (with_binding_fingerprint b x) = Ok fp) as Hc.
  { intros x. unfold compute_fingerprint.
    change (binding_preimage (with_binding_fingerprint b x)) with (binding_preimage b).
    by rewrite Hpre. }
  assert (binding_validate (with_binding_fingerprint b fp) = Ok tt) as Hv.
  { apply binding_validate_parts. split_and!; try done; apply Hc. }
  exists pre, fp. split_and!; try done.
  unfold binding_issue.
  change (from_host_token zero_token) with (@Ok _ TaskValidationError zero_token).
  cbn [rbind]. rewrite Hc. cbn [rbind].
  change (with_binding_fingerprint (with_binding_fingerprint b zero_token) fp)
    with (with_binding_fingerprint b fp).
  by rewrite Hv.
Qed.

(** A task whose workspace may cross the durable boundary decodes from its
    own encoding; only the host-private locators are gone, the decoded task
    still validates and a bound workspace still names the same repository. *)
Theorem task_facts_roundtrip `{Sha256} (t : TaskFacts)
    (Hv : validate_content t = Ok tt)
    (Hd : workspace_durable (tf_workspace t) = true)
    (Hwf : workspace_wf (tf_workspace t)) :
  rbind (task_facts_serialize t) task_facts_deserialize = Ok (strip_task t)
  /\ validate_content (strip_task t) = Ok tt
  /\ ws_repository_fingerprint (strip_workspace (tf_workspace t))
     = ws_repository_fingerprint (tf_workspace t)
  /\ (forall b, ws_host_binding (tf_workspace t) = Some b ->
        exists b', ws_host_binding (strip_workspace (tf_workspace t)) = Some b'
                   /\ same_runtime_identity b b' = true).
Proof.
  apply validate_content_parts in Hv as (Ht & Hdesc & Hw & Ha).
  pose proof (ws_roundtrip _ Hd Hw Hwf) as Hrt.
  pose proof (ws_validate_strip _ Hd Hw) as Hws.
  split_and!.
  - unfold task_facts_serialize. destruct (ws_serialize (tf_workspace t)) as [w|]; [|done].
    simpl in Hrt |- *. unfold task_facts_deserialize, canonicalize_title. simpl.
    rewrite Hrt, (assignment_roundtrip _ Ha), (canonicalize_canonical _ Ht),
      (canonicalize_description_fix _ Hdesc). simpl. by rewrite Hws, Ha.
  - by apply validate_content_parts.
  - by destruct (tf_workspace t).
  - intros b. destruct (tf_workspace t) as [| | | | |b0|p b0]; simpl; intros Hbb;
      simplify_eq; eexists; (split; [done|apply same_runtime_identity_strip]).
Qed.

(** ** Witnesses *)

(** A concrete digest that meets [Sha256Spec]: the byte sum, 32 times. *)
#[local] Instance toy_sha256 : Sha256 :=
  fun m => repeat (fold_left (fun a b => (a + b) mod 256) m 0) 32.

#[local] Instance toy_sha256_spec : @Sha256Spec toy_sha256.
Proof.
  split.
  - intros m. apply repeat_length.
  - intros m b Hb. apply list_elem_of_In, repeat_spec in Hb as ->.
    unfold sha256. assert (forall a, a < 256 -> fold_left (fun a b => (a + b) mod 256) m a < 256)
      as Hm; [|by apply Hm].
    induction m as [|x m IH]; intros a Ha; simpl; [done|]. apply IH. apply N.mod_lt. lia.
Defined.

Definition sample_path_fact (p identity : string) : WorkspacePathFact :=
  {| wpf_path := lit p; wpf_identity := lit identity; wpf_opaque_id := lit "id-1";
     wpf_content_length := None; wpf_content_fingerprint := None |}.

Definition sample_binding : WorkspaceBindingFact :=
  {| wb_kind := BindMain; wb_project_root := sample_path_fact "/p" "dev:1";
     wb_workspace_root := sample_path_fact "/p" "dev:1"; wb_repository_root := None;
     wb_common_git_dir := None; wb_admin_dir := None; wb_marker := None; wb_commondir := None;
     wb_gitdir := None; wb_head := None; wb_branch := None;
     wb_binding_fingerprint := zero_token |}.

Definition sample_issued : WorkspaceBindingFact := Eval vm_compute in
  match binding_issue sample_binding with Ok b => b | Err _ => sample_binding end.

Definition sample_task (w : WorkspaceRef) : TaskFacts :=
  {| tf_id := 1; tf_environment_id := 2; tf_title := lit "Fix it"; tf_description := None;
     tf_project_id := 3; tf_workspace := w; tf_assignment := LocalOwner;
     tf_lifecycle := TaskOpen; tf_action_epoch := 0; tf_revision := 1; tf_created_at_ms := 0%Z |}.

Lemma binding_issue_complete_witness :
  exists fp, binding_issue sample_binding = Ok (with_binding_fingerprint sample_binding fp).
Proof.
  destruct (binding_issue_complete sample_binding) as (pre & fp & _ & _ & Hok & _);
    [reflexivity..|].
  by exists fp.
Defined.

Lemma task_facts_roundtrip_witness :
  rbind (task_facts_serialize (sample_task (WsHostBound sample_issued))) task_facts_deserialize
  = Ok (strip_task (sample_task (WsHostBound sample_issued))).
Proof.
  apply (task_facts_roundtrip (sample_task (WsHostBound sample_issued))).
  - by vm_compute.
  - reflexivity.
  - cbn [workspace_wf sample_task tf_workspace]. unfold binding_wf, path_fact_wf, fingerprint_wf.
    split_and!; [exact I | exact I | repeat constructor | by vm_compute].
Defined.
