(* ===== verification/Agent.v ===== *)
(** Agent sessions and opaque provider session identities ([agent.rs], and the
    provider kinds of [providers/capabilities.rs]). *)
From S2P Require Import Prelude Canonical.

(** ** Provider kinds *)

Inductive ProviderKind := ClaudeCode | Codex | Cursor.

#[export] Instance ProviderKind_eq_dec : EqDecision ProviderKind.
Proof. solve_decision. Defined.

Definition wire_name (k : ProviderKind) : text :=
  match k with
  | ClaudeCode => lit "claude"
  | Codex => lit "codex"
  | Cursor => lit "cursor"
  end.

Definition parse_wire (value : text) : option ProviderKind :=
  if value =?= lit "claude" then Some ClaudeCode
  else if value =?= lit "codex" then Some Codex
  else if value =?= lit "cursor" then Some Cursor
  else None.

(** ** Provider session identities *)

Definition MAX_PROVIDER_SESSION_ID_BYTES : N := 256.

Inductive ProviderSessionIdError :=
| SessionIdEmpty
| SessionIdContainsControlCharacter
| SessionIdTooLong
| SessionIdNonCanonical.

Notation ProviderSessionId := (list N) (only parsing).

Definition is_unsafe_provider_session_character (c : char) : bool :=
  is_control c
  || (c =? 0x200b) || (c =? 0x200c) || (c =? 0x200d) || (c =? 0x200e) || (c =? 0x200f)
  || ((0x202a <=? c) && (c <=? 0x202e))
  || (c =? 0x2060)
  || ((0x2061 <=? c) && (c <=? 0x2064))
  || ((0x2066 <=? c) && (c <=? 0x2069))
  || (c =? 0xfeff).

Definition provider_session_id_new (value : text)
    : result ProviderSessionId ProviderSessionIdError :=
  ensure negb (is_empty value) else SessionIdEmpty ;;
  ensure trim value =?= value else SessionIdNonCanonical ;;
  ensure negb (MAX_PROVIDER_SESSION_ID_BYTES <? len value) else SessionIdTooLong ;;
  ensure negb (existsb is_unsafe_provider_session_character value)
    else SessionIdContainsControlCharacter ;;
  Ok value.

(** ** Agents *)

Inductive AgentValidationError :=
| EmptyProviderKind
| UnsupportedProviderKind
| NonCanonicalProviderKind
| EmptyProviderSessionId
| EmptySpecialistName
| InvalidRegistrationState.

#[export] Instance AgentValidationError_eq_dec : EqDecision AgentValidationError.
Proof. solve_decision. Defined.

Inductive SpecialistPermission :=
| ReadOnly
| IsolatedWrite
| SharedWrite (explicit_approval : bool).

#[export] Instance SpecialistPermission_eq_dec : EqDecision SpecialistPermission.
Proof. solve_decision. Defined.

Inductive AgentRole :=
| RolePrimary
| RoleSpecialist (name : text).

#[export] Instance AgentRole_eq_dec : EqDecision AgentRole.
Proof. solve_decision. Defined.

Definition role_specialist (name : text) : result AgentRole AgentValidationError :=
  let? name := ok_or (bounded_canonical name) EmptySpecialistName in
  Ok (RoleSpecialist name).

Definition role_validate (r : AgentRole) : result unit AgentValidationError :=
  match r with
  | RolePrimary => Ok tt
  | RoleSpecialist name => if is_bounded_canonical name then Ok tt else Err EmptySpecialistName
  end.

(** [matches!(role, AgentRole::Specialist { .. })] *)
Definition is_specialist (r : AgentRole) : bool :=
  match r with RoleSpecialist _ => true | RolePrimary => false end.

Inductive AgentSessionLifecycle := AgentOpen | AgentClosing | AgentClosed.

#[export] Instance AgentSessionLifecycle_eq_dec : EqDecision AgentSessionLifecycle.
Proof. solve_decision. Defined.

Record AgentSessionFacts := {
  ag_id : AgentSessionId;
  ag_task_id : TaskId;
  ag_role : AgentRole;
  ag_provider_kind : ProviderKind;
  ag_provider_session_id : option ProviderSessionId;
  ag_lifecycle : AgentSessionLifecycle;
  ag_runtime_generation : N;
  ag_revision : N;
}.

#[export] Instance AgentSessionFacts_eq_dec : EqDecision AgentSessionFacts.
Proof. solve_decision. Defined.

Definition validate_provider_session_id (s : option ProviderSessionId)
    : result (option ProviderSessionId) AgentValidationError :=
  match s with
  | Some session =>
      try? map_err (fun _ => EmptyProviderSessionId) (provider_session_id_new session) ;;
      ensure is_canonical session else EmptyProviderSessionId ;;
      Ok (Some session)
  | None => Ok None
  end.

Definition agent_validate (a : AgentSessionFacts) : result unit AgentValidationError :=
  try? role_validate (ag_role a) ;;
  ensure is_none_or (ag_provider_session_id a) is_canonical else EmptyProviderSessionId ;;
  Ok tt.

Definition agent_validate_for_registration (a : AgentSessionFacts)
    : result unit AgentValidationError :=
  try? agent_validate a ;;
  ensure negb (negb (ag_lifecycle a =?= AgentOpen) || negb (ag_revision a =? 0))
    else InvalidRegistrationState ;;
  Ok tt.

(** [AgentSessionFacts::new]; [fresh] is the id the constructor draws. *)
Definition agent_new (fresh : AgentSessionId) (task_id : TaskId) (role : AgentRole)
    (provider_kind : ProviderKind) (session : option ProviderSessionId)
    : result AgentSessionFacts AgentValidationError :=
  let? session := validate_provider_session_id session in
  try? role_validate role ;;
  let facts := {| ag_id := fresh; ag_task_id := task_id; ag_role := role;
                  ag_provider_kind := provider_kind; ag_provider_session_id := session;
                  ag_lifecycle := AgentOpen; ag_runtime_generation := 0; ag_revision := 0 |} in
  try? agent_validate facts ;;
  Ok facts.

Definition canonicalize_provider_kind (value : text)
    : result ProviderKind AgentValidationError :=
  ensure negb (is_empty value) else EmptyProviderKind ;;
  match parse_wire value with
  | Some k => Ok k
  | None =>
      if value =?= lit "claude_code" then Err NonCanonicalProviderKind
      else Err UnsupportedProviderKind
  end.

Definition canonicalize_provider_session_id (value : option text)
    : result (option ProviderSessionId) AgentValidationError :=
  match value with
  | Some session =>
      let? id := map_err (fun _ => EmptyProviderSessionId) (provider_session_id_new session) in
      Ok (Some id)
  | None => Ok None
  end.

Definition with_provider_session (a : AgentSessionFacts) (s : option ProviderSessionId)
    : AgentSessionFacts :=
  {| ag_id := ag_id a; ag_task_id := ag_task_id a; ag_role := ag_role a;
     ag_provider_kind := ag_provider_kind a; ag_provider_session_id := s;
     ag_lifecycle := ag_lifecycle a; ag_runtime_generation := ag_runtime_generation a;
     ag_revision := ag_revision a |}.

Definition with_role (a : AgentSessionFacts) (r : AgentRole) : AgentSessionFacts :=
  {| ag_id := ag_id a; ag_task_id := ag_task_id a; ag_role := r;
     ag_provider_kind := ag_provider_kind a; ag_provider_session_id := ag_provider_session_id a;
     ag_lifecycle := ag_lifecycle a; ag_runtime_generation := ag_runtime_generation a;
     ag_revision := ag_revision a |}.

Definition with_lifecycle (a : AgentSessionFacts) (l : AgentSessionLifecycle)
    : AgentSessionFacts :=
  {| ag_id := ag_id a; ag_task_id := ag_task_id a; ag_role := ag_role a;
     ag_provider_kind := ag_provider_kind a; ag_provider_session_id := ag_provider_session_id a;
     ag_lifecycle := l; ag_runtime_generation := ag_runtime_generation a;
     ag_revision := ag_revision a |}.

Definition with_generation (a : AgentSessionFacts) (g : N) : AgentSessionFacts :=
  {| ag_id := ag_id a; ag_task_id := ag_task_id a; ag_role := ag_role a;
     ag_provider_kind := ag_provider_kind a; ag_provider_session_id := ag_provider_session_id a;
     ag_lifecycle := ag_lifecycle a; ag_runtime_generation := g;
     ag_revision := ag_revision a |}.

(** ** Lemmas *)

Lemma provider_session_id_new_Ok value id :
  provider_session_id_new value = Ok id <->
  id = value /\ is_canonical value = true /\ len value <= MAX_PROVIDER_SESSION_ID_BYTES
  /\ existsb is_unsafe_provider_session_character value = false.
Proof.
  unfold provider_session_id_new. rewrite is_canonical_spec. split.
  - intros H. do 4 (apply rbind_Ok in H as (? & ?%guard_Ok & H)).
    injection H as <-. bool_inv. done.
  - intros (-> & (Hne & Ht) & Hl & Hu).
    assert (is_empty value = false) as -> by (by apply is_empty_false).
    assert ((MAX_PROVIDER_SESSION_ID_BYTES <? len value) = false) as ->
      by (by apply N.ltb_ge).
    by rewrite Ht, eqb_refl, Hu.
Qed.

Lemma parse_wire_wire_name k : parse_wire (wire_name k) = Some k.
Proof. by destruct k. Qed.

Lemma parse_wire_Some value k : parse_wire value = Some k <-> value = wire_name k.
Proof.
  split; [|by intros ->; apply parse_wire_wire_name].
  unfold parse_wire.
  destruct (value =?= lit "claude") eqn:E1; [intros [= <-]; exact (proj1 (eqb_true _ _) E1)|].
  destruct (value =?= lit "codex") eqn:E2; [intros [= <-]; exact (proj1 (eqb_true _ _) E2)|].
  destruct (value =?= lit "cursor") eqn:E3; [intros [= <-]; exact (proj1 (eqb_true _ _) E3)|done].
Qed.

(** A validated identity is the exact string that was offered: nothing is
    trimmed, folded or rewritten on any path into the facts. *)
Lemma validate_provider_session_id_Ok s r :
  validate_provider_session_id s = Ok r <->
  r = s /\ match s with
           | Some v => is_canonical v = true /\ len v <= MAX_PROVIDER_SESSION_ID_BYTES
                       /\ existsb is_unsafe_provider_session_character v = false
           | None => True
           end.
Proof.
  destruct s as [v|]; simpl; [|split; [by intros [= <-] | by intros [-> _]]].
  split.
  - intros H. apply rbind_Ok in H as (? & Hn%map_err_Ok & H).
    apply provider_session_id_new_Ok in Hn as (-> & ? & ? & ?).
    apply rbind_Ok in H as (? & _ & H). injection H as <-. done.
  - intros (-> & Hc & Hl & Hu).
    assert (provider_session_id_new v = Ok v) as -> by (by apply provider_session_id_new_Ok).
    simpl. by rewrite Hc.
Qed.
