(* ===== verification/Resource.v ===== *)
(** Task resources, their recipes, durable terminal facts and the terminal strip
    ([resource.rs], [terminal_facts.rs]), and the binding of an agent to the
    one terminal its provider runs in ([agent_resource.rs]). *)
From S2P Require Import Prelude Canonical Task Agent.

(** ** Recipes *)

Inductive ResourceValidationError :=
| InvalidTerminalGeometry
| InvalidTerminalLaunch
| InvalidTerminalTitle
| EmptyRecipe
| OwnerBinding
| KindRecipeMismatch
| InvalidRegistrationLifecycle.

Inductive OwnerKind := OwnerTask | OwnerHost.
Inductive ResourceKind := KindTerminal | KindBrowserContext | KindService.
Inductive ResourceLifecycle := ResActive | ResReleasing | ResReleased.

#[export] Instance ResourceValidationError_eq_dec : EqDecision ResourceValidationError.
Proof. solve_decision. Defined.
#[export] Instance OwnerKind_eq_dec : EqDecision OwnerKind.
Proof. solve_decision. Defined.
#[export] Instance ResourceKind_eq_dec : EqDecision ResourceKind.
Proof. solve_decision. Defined.
#[export] Instance ResourceLifecycle_eq_dec : EqDecision ResourceLifecycle.
Proof. solve_decision. Defined.

Definition MAX_TERMINAL_TITLE_CHARS : N := 64.

(** [title.chars().count()] counts scalar values, not bytes. *)
Definition validate_terminal_title (title : text) : result unit ResourceValidationError :=
  if negb (trim title =?= title) || is_empty title || (MAX_TERMINAL_TITLE_CHARS <? count title)
  then Err InvalidTerminalTitle
  else Ok tt.

Record TerminalLaunch := {
  tl_cwd : path;
  tl_program : path;
  tl_args : list text;
}.

#[export] Instance TerminalLaunch_eq_dec : EqDecision TerminalLaunch.
Proof. solve_decision. Defined.

Definition launch_validate (l : TerminalLaunch) : result unit ResourceValidationError :=
  if negb (path_is_absolute (tl_cwd l)) || is_empty (tl_program l)
  then Err InvalidTerminalLaunch
  else Ok tt.

Inductive ResourceRecipe :=
| RecipeTerminal (cols rows : N) (launch : option TerminalLaunch) (title : option text)
| RecipeBrowser (start_url : text) (context_id : option BrowserContextId)
| RecipeService (command : text).

#[export] Instance ResourceRecipe_eq_dec : EqDecision ResourceRecipe.
Proof. solve_decision. Defined.

Definition recipe_terminal (cols rows : N) : ResourceRecipe := RecipeTerminal cols rows None None.

Definition is_plain_shell (r : ResourceRecipe) : bool :=
  match r with
  | RecipeTerminal _ _ (Some _) _ => true
  | _ => false
  end.

Definition canonical_title (title : option text)
    : result (option text) ResourceValidationError :=
  match title with
  | None => Ok None
  | Some raw =>
      let trimmed := trim raw in
      if is_empty trimmed || (MAX_TERMINAL_TITLE_CHARS <? count trimmed)
      then Err InvalidTerminalTitle
      else Ok (Some trimmed)
  end.

Definition recipe_browser (start_url : text) : result ResourceRecipe ResourceValidationError :=
  let? start_url := ok_or (canonicalize start_url) EmptyRecipe in
  Ok (RecipeBrowser start_url None).

Definition recipe_service (command : text) : result ResourceRecipe ResourceValidationError :=
  let? command := ok_or (canonicalize command) EmptyRecipe in
  Ok (RecipeService command).

(** [if let Some(launch) { launch.validate()? }] *)
Definition option_launch_validate (l : option TerminalLaunch)
    : result unit ResourceValidationError :=
  match l with
  | Some l => launch_validate l
  | None => Ok tt
  end.

Definition recipe_canonicalize (r : ResourceRecipe)
    : result ResourceRecipe ResourceValidationError :=
  match r with
  | RecipeTerminal cols rows launch title =>
      ensure negb ((cols =? 0) || (rows =? 0)) else InvalidTerminalGeometry ;;
      try? option_launch_validate launch ;;
      let? title := canonical_title title in
      ensure negb (is_none launch && is_some title) else InvalidTerminalTitle ;;
      Ok (RecipeTerminal cols rows launch title)
  | RecipeBrowser start_url context_id =>
      let? start_url := ok_or (canonicalize start_url) EmptyRecipe in
      Ok (RecipeBrowser start_url context_id)
  | RecipeService command => recipe_service command
  end.

Definition recipe_validate (r : ResourceRecipe) : result unit ResourceValidationError :=
  match r with
  | RecipeTerminal cols rows launch title =>
      ensure negb ((cols =? 0) || (rows =? 0)) else InvalidTerminalGeometry ;;
      try? option_launch_validate launch ;;
      match title with
      | Some t =>
          ensure negb (is_none launch) else InvalidTerminalTitle ;;
          validate_terminal_title t
      | None => Ok tt
      end
  | RecipeBrowser start_url _ => if is_canonical start_url then Ok tt else Err EmptyRecipe
  | RecipeService command => if is_canonical command then Ok tt else Err EmptyRecipe
  end.

(** ** Resource facts *)

Record ResourceFacts := {
  rf_id : ResourceId;
  rf_task_id : option TaskId;
  rf_owner_kind : OwnerKind;
  rf_resource_kind : ResourceKind;
  rf_recipe : ResourceRecipe;
  rf_lifecycle : ResourceLifecycle;
  rf_runtime_generation : N;
  rf_updated_at_ms : Z;
}.

#[export] Instance ResourceFacts_eq_dec : EqDecision ResourceFacts.
Proof. solve_decision. Defined.

Definition owner_binding_ok (owner : OwnerKind) (task : option TaskId) : bool :=
  match owner, task with
  | OwnerTask, Some _ | OwnerHost, None => true
  | _, _ => false
  end.

Definition kind_matches_recipe (k : ResourceKind) (r : ResourceRecipe) : bool :=
  match k, r with
  | KindTerminal, RecipeTerminal _ _ _ _
  | KindBrowserContext, RecipeBrowser _ _
  | KindService, RecipeService _ => true
  | _, _ => false
  end.

Definition resource_validate (f : ResourceFacts) : result unit ResourceValidationError :=
  ensure owner_binding_ok (rf_owner_kind f) (rf_task_id f) else OwnerBinding ;;
  if kind_matches_recipe (rf_resource_kind f) (rf_recipe f)
  then recipe_validate (rf_recipe f)
  else Err KindRecipeMismatch.

Definition resource_validate_for_registration (f : ResourceFacts)
    : result unit ResourceValidationError :=
  try? resource_validate f ;;
  ensure rf_owner_kind f =?= OwnerTask else OwnerBinding ;;
  ensure rf_lifecycle f =?= ResActive else InvalidRegistrationLifecycle ;;
  Ok tt.

(** [ResourceFacts::new]; [fresh] is the id the constructor draws. *)
Definition resource_new (fresh : ResourceId) (task_id : option TaskId) (owner : OwnerKind)
    (kind : ResourceKind) (recipe : ResourceRecipe) (updated_at_ms : Z)
    : result ResourceFacts ResourceValidationError :=
  let? recipe := recipe_canonicalize recipe in
  let facts := {| rf_id := fresh; rf_task_id := task_id; rf_owner_kind := owner;
                  rf_resource_kind := kind; rf_recipe := recipe; rf_lifecycle := ResActive;
                  rf_runtime_generation := 0; rf_updated_at_ms := updated_at_ms |} in
  try? resource_validate facts ;;
  Ok facts.

Definition with_res_lifecycle (f : ResourceFacts) (l : ResourceLifecycle) : ResourceFacts :=
  {| rf_id := rf_id f; rf_task_id := rf_task_id f; rf_owner_kind := rf_owner_kind f;
     rf_resource_kind := rf_resource_kind f; rf_recipe := rf_recipe f; rf_lifecycle := l;
     rf_runtime_generation := rf_runtime_generation f;
     rf_updated_at_ms := rf_updated_at_ms f |}.

(** ** Terminal facts *)

Definition MAX_PLAIN_SHELLS_PER_TASK : N := 8.
Definition TERMINAL_ACTIVITY_COALESCE_MS : Z := 30000%Z.

Record TerminalExit := {
  tx_code : option Z;
  tx_summary : text;
  tx_at_ms : Z;
}.

#[export] Instance TerminalExit_eq_dec : EqDecision TerminalExit.
Proof. solve_decision. Defined.

Record TerminalFacts := {
  tm_resource_id : ResourceId;
  tm_title : option text;
  tm_live_cwd : option path;
  tm_exit : option TerminalExit;
  tm_created_at_ms : Z;
  tm_last_activity_at_ms : Z;
}.

#[export] Instance TerminalFacts_eq_dec : EqDecision TerminalFacts.
Proof. solve_decision. Defined.

Inductive HostTerminalFact :=
| HostCwd (cwd : path)
| HostExit (code : option Z) (summary : text)
| HostActivity.

Definition terminal_registered (id : ResourceId) (title : option text) (created_at_ms : Z)
    : TerminalFacts :=
  {| tm_resource_id := id; tm_title := title; tm_live_cwd := None; tm_exit := None;
     tm_created_at_ms := created_at_ms; tm_last_activity_at_ms := created_at_ms |}.

(** [i64::saturating_sub] *)
Definition i64_max : Z := 9223372036854775807%Z.
Definition i64_min : Z := (-9223372036854775808)%Z.
Definition i64_saturating_sub (a b : Z) : Z := Z.max i64_min (Z.min i64_max (a - b)%Z).

(** The facts [decide_host_fact] may record, as [Event] constructors. *)
Inductive TerminalEvent :=
| TeCwdReported (resource_id : ResourceId) (cwd : path)
| TeExited (resource_id : ResourceId) (code : option Z) (summary : text)
| TeActivity (resource_id : ResourceId).

Definition decide_host_fact (t : TerminalFacts) (fact : HostTerminalFact) (observed_at_ms : Z)
    : option TerminalEvent :=
  match fact with
  | HostCwd cwd =>
      if negb (path_is_absolute cwd) || is_some_and (tm_live_cwd t) (fun c => path_eqb c cwd)
      then None
      else Some (TeCwdReported (tm_resource_id t) cwd)
  | HostExit code summary =>
      if is_some (tm_exit t) then None
      else Some (TeExited (tm_resource_id t) code summary)
  | HostActivity =>
      if (i64_saturating_sub observed_at_ms (tm_last_activity_at_ms t)
            <? TERMINAL_ACTIVITY_COALESCE_MS)%Z
      then None
      else Some (TeActivity (tm_resource_id t))
  end.

(** ** The terminal strip *)

Record TaskTerminalStrip := {
  st_order : list ResourceId;
  st_focused : option ResourceId;
}.

#[export] Instance TaskTerminalStrip_eq_dec : EqDecision TaskTerminalStrip.
Proof. solve_decision. Defined.

Definition strip_default : TaskTerminalStrip := {| st_order := []; st_focused := None |}.

Inductive TerminalStripError :=
| StripDuplicate (id : ResourceId)
| StripFocusedNotInOrder (id : ResourceId)
| StripNotATerminal (id : ResourceId)
| StripForeignTask (id : ResourceId)
| StripTooManyTerminals (n : N).

Fixpoint strip_scan (task_id : TaskId) (resources : gmap N ResourceFacts)
    (seen : gset N) (order : list ResourceId) : result (gset N) TerminalStripError :=
  match order with
  | [] => Ok seen
  | id :: rest =>
      ensure bool_decide (id ∉ seen) else StripDuplicate id ;;
      let seen := {[id]} ∪ seen in
      let? facts := ok_or (resources !! id) (StripForeignTask id) in
      ensure rf_task_id facts =?= Some task_id else StripForeignTask id ;;
      ensure negb (negb (rf_resource_kind facts =?= KindTerminal)
                   || negb (is_plain_shell (rf_recipe facts))) else StripNotATerminal id ;;
      strip_scan task_id resources seen rest
  end.

Definition strip_validate (s : TaskTerminalStrip) (task_id : TaskId)
    (resources : gmap N ResourceFacts) : result unit TerminalStripError :=
  ensure negb (MAX_PLAIN_SHELLS_PER_TASK <? count (st_order s))
    else StripTooManyTerminals (count (st_order s)) ;;
  let? seen := strip_scan task_id resources ∅ (st_order s) in
  match st_focused s with
  | Some focused =>
      ensure bool_decide (focused ∈ seen) else StripFocusedNotInOrder focused ;;
      Ok tt
  | None => Ok tt
  end.

Definition strip_remove (s : TaskTerminalStrip) (id : ResourceId) : TaskTerminalStrip :=
  {| st_order := List.filter (fun x => negb (x =? id)) (st_order s);
     st_focused := if st_focused s =?= Some id then None else st_focused s |}.

(** ** The provider's terminal *)

Record AgentResourceBinding := {
  arb_task_id : TaskId;
  arb_agent_session_id : AgentSessionId;
  arb_resource_id : ResourceId;
  arb_provider_kind : ProviderKind;
  arb_runtime_generation : N;
}.

#[export] Instance AgentResourceBinding_eq_dec : EqDecision AgentResourceBinding.
Proof. solve_decision. Defined.

Inductive AgentResourceBindingError :=
| ResourceTaskMismatch
| ResourceMustBeTaskOwned
| ResourceMustBeTerminal
| ResourceMustNotBePlainShell
| AgentMustBeOpen
| ResourceMustBeActive
| RuntimeGenerationMismatch.

Definition from_facts (agent : AgentSessionFacts) (resource : ResourceFacts)
    : result AgentResourceBinding AgentResourceBindingError :=
  try? (if negb (rf_task_id resource =?= Some (ag_task_id agent)) then
          if is_some (rf_task_id resource) then Err ResourceTaskMismatch
          else Err ResourceMustBeTaskOwned
        else Ok tt) ;;
  ensure rf_owner_kind resource =?= OwnerTask else ResourceMustBeTaskOwned ;;
  ensure rf_resource_kind resource =?= KindTerminal else ResourceMustBeTerminal ;;
  ensure negb (is_plain_shell (rf_recipe resource)) else ResourceMustNotBePlainShell ;;
  ensure ag_lifecycle agent =?= AgentOpen else AgentMustBeOpen ;;
  ensure rf_lifecycle resource =?= ResActive else ResourceMustBeActive ;;
  ensure ag_runtime_generation agent =? rf_runtime_generation resource
    else RuntimeGenerationMismatch ;;
  Ok {| arb_task_id := ag_task_id agent; arb_agent_session_id := ag_id agent;
        arb_resource_id := rf_id resource; arb_provider_kind := ag_provider_kind agent;
        arb_runtime_generation := ag_runtime_generation agent |}.

Definition binding_matches (a b : AgentResourceBinding) : bool :=
  (arb_task_id a =? arb_task_id b)
  && (arb_agent_session_id a =? arb_agent_session_id b)
  && (arb_resource_id a =? arb_resource_id b)
  && (arb_provider_kind a =?= arb_provider_kind b)
  && (arb_runtime_generation a =? arb_runtime_generation b).

(** The filter of [provider_terminal_resource]. *)
Definition provider_terminal_filter (agent : AgentSessionFacts) (resource : ResourceFacts)
    : bool :=
  (rf_task_id resource =?= Some (ag_task_id agent))
  && (rf_owner_kind resource =?= OwnerTask)
  && (rf_resource_kind resource =?= KindTerminal)
  && negb (is_plain_shell (rf_recipe resource))
  && (rf_lifecycle resource =?= ResActive)
  && (rf_runtime_generation resource =? ag_runtime_generation agent).

(** [values()] of the resource map; [Err n] is [ProviderResourceAmbiguity] with
    its candidate count.  Only an ambiguity-free answer is used, so the order
    of the values is immaterial. *)
Definition provider_terminal_resource (resources : gmap N ResourceFacts)
    (agent : AgentSessionFacts) : result (option ResourceFacts) N :=
  match List.filter (provider_terminal_filter agent) (map snd (map_to_list resources)) with
  | [] => Ok None
  | [one] => Ok (Some one)
  | many => Err (count many)
  end.

(** ** Lemmas *)

Lemma validate_terminal_title_Ok title :
  validate_terminal_title title = Ok tt <->
  trim title = title /\ title <> [] /\ count title <= MAX_TERMINAL_TITLE_CHARS.
Proof.
  unfold validate_terminal_title.
  destruct (trim title =?= title) eqn:E1; destruct (is_empty title) eqn:E2;
    destruct (MAX_TERMINAL_TITLE_CHARS <? count title) eqn:E3; simpl; bool_inv;
    split; intros H; try done; try (destruct H as (? & ? & ?); done || lia).
Qed.

Lemma canonical_title_Ok title t :
  canonical_title title = Ok t ->
  match t with
  | Some v => validate_terminal_title v = Ok tt
  | None => title = None
  end.
Proof.
  destruct title as [raw|]; simpl; [|by intros [= <-]].
  destruct (is_empty (trim raw)) eqn:E1; [done|].
  destruct (MAX_TERMINAL_TITLE_CHARS <? count (trim raw)) eqn:E2; [done|].
  intros [= <-]. apply validate_terminal_title_Ok. bool_inv.
  split_and!; [apply trim_idem|done|done].
Qed.

Lemma canonical_title_fix title :
  match title with Some v => validate_terminal_title v = Ok tt | None => True end ->
  canonical_title title = Ok title.
Proof.
  destruct title as [v|]; simpl; [|done]. intros (Ht & Hne & Hc)%validate_terminal_title_Ok.
  rewrite Ht. apply is_empty_false in Hne. apply N.ltb_ge in Hc. by rewrite Hne, Hc.
Qed.

Lemma recipe_validate_canonicalize r :
  recipe_validate r = Ok tt -> recipe_canonicalize r = Ok r.
Proof.
  destruct r as [cols rows launch title|url ctx|cmd]; simpl.
  - intros H. apply rbind_Ok in H as ([] & Hg & H). apply rbind_Ok in H as ([] & Hl & H).
    rewrite Hg, Hl. simpl. rewrite canonical_title_fix.
    + simpl. destruct title as [t|]; [|by rewrite andb_false_r].
      apply rbind_Ok in H as ([] & Hn & _). apply guard_Ok in Hn.
      by rewrite andb_true_r, Hn.
    + destruct title as [t|]; [|done]. by apply rbind_Ok in H as (? & _ & H).
  - destruct (is_canonical url) eqn:E; [|done]. intros _.
    by rewrite (canonicalize_canonical _ E).
  - unfold recipe_service. destruct (is_canonical cmd) eqn:E; [|done]. intros _.
    by rewrite (canonicalize_canonical _ E).
Qed.

Lemma recipe_canonicalize_validate r r' :
  recipe_canonicalize r = Ok r' -> recipe_validate r' = Ok tt.
Proof.
  destruct r as [cols rows launch title|url ctx|cmd]; simpl.
  - intros H. apply rbind_Ok in H as ([] & Hg & H). apply rbind_Ok in H as ([] & Hl & H).
    apply rbind_Ok in H as (t & Ht & H). apply rbind_Ok in H as ([] & Hn & H).
    injection H as <-. simpl. rewrite Hg, Hl. simpl.
    apply canonical_title_Ok in Ht. destruct t as [v|]; [|done].
    apply guard_Ok in Hn. rewrite andb_true_r in Hn. by rewrite Hn.
  - intros H. apply rbind_Ok in H as (u & Hu%ok_or_Ok & H). injection H as <-. simpl.
    by rewrite (canonicalize_is_canonical _ _ Hu).
  - intros H. apply rbind_Ok in H as (u & Hu%ok_or_Ok & H). injection H as <-. simpl.
    by rewrite (canonicalize_is_canonical _ _ Hu).
Qed.

(** *** The strip *)

Definition strip_entry_ok (task_id : TaskId) (resources : gmap N ResourceFacts)
    (id : ResourceId) : Prop :=
  exists f, resources !! id = Some f /\ rf_task_id f = Some task_id
            /\ rf_resource_kind f = KindTerminal /\ is_plain_shell (rf_recipe f) = true.

(** What [strip_validate] promises of a strip. *)
Definition strip_ok (s : TaskTerminalStrip) (task_id : TaskId)
    (resources : gmap N ResourceFacts) : Prop :=
  count (st_order s) <= MAX_PLAIN_SHELLS_PER_TASK
  /\ NoDup (st_order s)
  /\ Forall (strip_entry_ok task_id resources) (st_order s)
  /\ (forall id, st_focused s = Some id -> id ∈ st_order s).

Lemma strip_scan_Ok task_id resources order : forall seen seen',
  strip_scan task_id resources seen order = Ok seen' <->
  seen' = seen ∪ list_to_set order
  /\ NoDup order /\ (forall id, id ∈ order -> id ∉ seen)
  /\ Forall (strip_entry_ok task_id resources) order.
Proof.
  induction order as [|id rest IH]; intros seen seen'; simpl.
  - split.
    + intros [= <-]. split_and!; [set_solver|constructor|set_solver|constructor].
    + intros (-> & _). f_equal. set_solver.
  - split.
    + intros H. apply rbind_Ok in H as (? & Hs%guard_Ok%bool_decide_eq_true & H).
      apply rbind_Ok in H as (f & Hf%ok_or_Ok & H).
      apply rbind_Ok in H as (? & Ht%guard_eqb & H).
      apply rbind_Ok in H as (? & Hk%guard_Ok & H). apply IH in H as (-> & Hnd & Hnot & Hall).
      rewrite negb_true_iff, orb_false_iff, !negb_false_iff, eqb_true in Hk.
      destruct Hk as [Hk Hp].
      split_and!.
      * set_solver.
      * constructor; [|done]. intros Hin. specialize (Hnot _ Hin). set_solver.
      * intros y [->|Hx]%elem_of_cons; [done|]. specialize (Hnot _ Hx). set_solver.
      * constructor; [|done]. by exists f.
    + intros (-> & Hnd & Hnot & Hall).
      apply NoDup_cons in Hnd as [Hnin Hnd]. apply Forall_cons in Hall as [(f & Hf & Ht & Hk & Hp) Hall].
      rewrite bool_decide_true by set_solver. simpl. rewrite Hf. simpl.
      rewrite Ht, eqb_refl. simpl. rewrite Hk, Hp, eqb_refl. simpl.
      apply IH. split_and!; [set_solver|done|set_solver|done].
Qed.

Lemma strip_validate_Ok s task_id resources :
  strip_validate s task_id resources = Ok tt <-> strip_ok s task_id resources.
Proof.
  unfold strip_validate, strip_ok. split.
  - intros H. apply rbind_Ok in H as (? & Hc%guard_Ok & H).
    apply rbind_Ok in H as (seen & Hs & H). apply strip_scan_Ok in Hs as (-> & Hnd & _ & Hall).
    apply negb_true_iff, N.ltb_ge in Hc. split_and!; try done.
    intros id Hid. rewrite Hid in H. apply rbind_Ok in H as (? & Hb%guard_Ok & _).
    apply bool_decide_eq_true in Hb. set_solver.
  - intros (Hc & Hnd & Hall & Hf). apply N.ltb_ge in Hc. rewrite Hc. simpl.
    assert (strip_scan task_id resources ∅ (st_order s) = Ok (∅ ∪ list_to_set (st_order s))) as ->.
    { apply strip_scan_Ok. split_and!; [done|done|set_solver|done]. }
    simpl. destruct (st_focused s) as [id|]; [|done].
    rewrite bool_decide_true; [done|]. specialize (Hf id eq_refl). set_solver.
Qed.

Lemma elem_of_list_filter {A} (p : A -> bool) (l : list A) x :
  x ∈ List.filter p l <-> x ∈ l /\ p x = true.
Proof. by rewrite !list_elem_of_In, List.filter_In. Qed.

Lemma NoDup_list_filter {A} (p : A -> bool) (l : list A) : NoDup l -> NoDup (List.filter p l).
Proof. rewrite !NoDup_ListNoDup. apply List.NoDup_filter. Qed.

Lemma count_list_filter {A} (p : A -> bool) (l : list A) : count (List.filter p l) <= count l.
Proof. unfold count. pose proof (List.filter_length_le p l). lia. Qed.

Lemma Forall_list_filter {A} (P : A -> Prop) (p : A -> bool) (l : list A) :
  Forall P l -> Forall P (List.filter p l).
Proof.
  rewrite !Forall_forall. intros H x [Hx _]%elem_of_list_filter. auto.
Qed.

Lemma strip_remove_order s id x : x ∈ st_order (strip_remove s id) <-> x ∈ st_order s /\ x <> id.
Proof. simpl. rewrite elem_of_list_filter, negb_true_iff, N.eqb_neq. done. Qed.

(** Removing a terminal keeps a valid strip valid over any resource map that
    still holds the others. *)
Lemma strip_remove_ok s task_id resources resources' id :
  strip_ok s task_id resources ->
  (forall x, x <> id -> strip_entry_ok task_id resources x -> strip_entry_ok task_id resources' x) ->
  strip_ok (strip_remove s id) task_id resources'.
Proof.
  intros (Hc & Hnd & Hall & Hf) Hkeep. split_and!.
  - etrans; [apply count_list_filter | done].
  - by apply NoDup_list_filter.
  - apply Forall_forall. intros x Hx. apply strip_remove_order in Hx as [Hx Hne].
    apply Hkeep; [done|]. by apply (proj1 (Forall_forall _ _) Hall).
  - intros x. simpl. destruct (st_focused s =?= Some id) eqn:E; [done|].
    intros Hx. apply eqb_false in E. apply (strip_remove_order s id). split; [by apply Hf|].
    intros ->. done.
Qed.

(** *** The provider's terminal *)

Lemma provider_terminal_filter_true agent r :
  provider_terminal_filter agent r = true <->
  rf_task_id r = Some (ag_task_id agent) /\ rf_owner_kind r = OwnerTask
  /\ rf_resource_kind r = KindTerminal /\ is_plain_shell (rf_recipe r) = false
  /\ rf_lifecycle r = ResActive /\ rf_runtime_generation r = ag_runtime_generation agent.
Proof.
  unfold provider_terminal_filter.
  rewrite !andb_true_iff, !eqb_true, negb_true_iff, N.eqb_eq. tauto.
Qed.

Lemma from_facts_Ok agent r b :
  from_facts agent r = Ok b <->
  provider_terminal_filter agent r = true /\ ag_lifecycle agent = AgentOpen
  /\ b = {| arb_task_id := ag_task_id agent; arb_agent_session_id := ag_id agent;
            arb_resource_id := rf_id r; arb_provider_kind := ag_provider_kind agent;
            arb_runtime_generation := ag_runtime_generation agent |}.
Proof.
  rewrite provider_terminal_filter_true. unfold from_facts. split.
  - intros H. apply rbind_Ok in H as (? & Ht & H).
    do 6 (apply rbind_Ok in H as (? & ?%guard_Ok & H)). injection H as <-.
    destruct (rf_task_id r =?= Some (ag_task_id agent)) eqn:E;
      [|simpl in Ht; by destruct (is_some _)].
    bool_inv. done.
  - intros ((Ht & Ho & Hk & Hp & Hl & Hg) & Ha & ->).
    rewrite Ht, Ho, Hk, Hp, Hl, Hg, Ha, !eqb_refl, N.eqb_refl. done.
Qed.

Lemma elem_of_resources (resources : gmap N ResourceFacts) r :
  r ∈ map snd (map_to_list resources) <-> exists k, resources !! k = Some r.
Proof.
  change (map snd (map_to_list resources)) with ((map_to_list resources).*2).
  rewrite list_elem_of_fmap. split.
  - intros ([k r'] & -> & Hk%elem_of_map_to_list). by exists k.
  - intros [k Hk%elem_of_map_to_list]. by exists (k, r).
Qed.

(** ** Properties *)

(** canonicalisation is the normaliser of the recipe validator: what it
    returns is valid, canonicalising again changes nothing, and every valid
    recipe is already canonical.  In particular a title never appears without
    a launch, which the positional durable encoding depends on. *)
Theorem recipe_canonical_form (r r' : ResourceRecipe) (H : recipe_canonicalize r = Ok r') :
  recipe_validate r' = Ok tt
  /\ recipe_canonicalize r' = Ok r'
  /\ (recipe_validate r = Ok tt <-> r = r')
  /\ is_plain_shell r' = is_plain_shell r
  /\ (forall cols rows title, r' = RecipeTerminal cols rows None title -> title = None).
Proof.
  pose proof (recipe_canonicalize_validate _ _ H) as Hv. split_and!.
  - done.
  - by apply recipe_validate_canonicalize.
  - split; [|by intros ->]. intros Hr%recipe_validate_canonicalize. congruence.
  - destruct r as [cols rows launch title|url ctx|cmd]; simpl in H.
    + do 2 (apply rbind_Ok in H as (? & _ & H)).
      apply rbind_Ok in H as (t & _ & H). apply rbind_Ok in H as (? & _ & H). by injection H as <-.
    + apply rbind_Ok in H as (? & _ & H). by injection H as <-.
    + apply rbind_Ok in H as (? & _ & H). by injection H as <-.
  - intros cols rows title ->. simpl in Hv. apply rbind_Ok in Hv as (? & _ & Hv). by destruct title.
Qed.

Lemma recipe_canonical_form_witness :
  recipe_validate (RecipeTerminal 80 24 (Some {| tl_cwd := lit "/p"; tl_program := lit "sh";
                                                 tl_args := [] |}) (Some (lit "x"))) = Ok tt.
Proof.
  apply (recipe_canonical_form
    (RecipeTerminal 80 24 (Some {| tl_cwd := lit "/p"; tl_program := lit "sh";
                                   tl_args := [] |}) (Some (lit " x ")))).
  by vm_compute.
Defined.

(** the resource an agent's provider runs in is exactly the one resource
    [from_facts] would bind: found means unique, bindable and never a plain
    shell; absent means nothing binds; more than one is refused with its count. *)
Theorem provider_terminal_resource_spec (resources : gmap N ResourceFacts)
    (agent : AgentSessionFacts) (Ha : ag_lifecycle agent = AgentOpen) :
  match provider_terminal_resource resources agent with
  | Ok (Some r) =>
      (exists k, resources !! k = Some r) /\ is_ok (from_facts agent r) = true
      /\ is_plain_shell (rf_recipe r) = false
      /\ (forall k r', resources !! k = Some r' -> is_ok (from_facts agent r') = true -> r' = r)
  | Ok None => forall k r', resources !! k = Some r' -> is_ok (from_facts agent r') = false
  | Err n => 2 <= n
  end.
Proof.
  assert (forall r, is_ok (from_facts agent r) = provider_terminal_filter agent r) as Hff.
  { intros r. destruct (provider_terminal_filter agent r) eqn:E.
    - assert (exists b, from_facts agent r = Ok b) as [b ->]; [|done].
      eexists. by apply from_facts_Ok.
    - destruct (from_facts agent r) as [b|] eqn:Eb; [|done].
      apply from_facts_Ok in Eb as [Eb _]. congruence. }
  assert (forall k r, resources !! k = Some r -> is_ok (from_facts agent r) = true ->
            r ∈ List.filter (provider_terminal_filter agent) (map snd (map_to_list resources))) as Hin.
  { intros k r Hk Hr. apply elem_of_list_filter. rewrite <- Hff. split; [|done].
    apply elem_of_resources. by exists k. }
  assert (forall r, r ∈ List.filter (provider_terminal_filter agent) (map snd (map_to_list resources)) ->
            (exists k, resources !! k = Some r) /\ provider_terminal_filter agent r = true) as Hout.
  { intros r [Hr ?]%elem_of_list_filter. apply elem_of_resources in Hr. done. }
  unfold provider_terminal_resource.
  destruct (List.filter _ _) as [|one [|two rest]].
  - intros k r Hk. destruct (is_ok (from_facts agent r)) eqn:E; [|done].
    specialize (Hin k r Hk E). set_solver.
  - destruct (Hout one) as [Hk Hf]; [set_solver|]. split_and!; try done.
    + by rewrite Hff.
    + by apply provider_terminal_filter_true in Hf as (_ & _ & _ & ? & _).
    + intros k r Hr Hb. specialize (Hin k r Hr Hb). set_solver.
  - rewrite !count_cons. lia.
Qed.

Definition sample_agent : AgentSessionFacts :=
  {| ag_id := 10; ag_task_id := 1; ag_role := RolePrimary; ag_provider_kind := ClaudeCode;
     ag_provider_session_id := None; ag_lifecycle := AgentOpen; ag_runtime_generation := 0;
     ag_revision := 0 |}.

Definition sample_provider_terminal : ResourceFacts :=
  {| rf_id := 20; rf_task_id := Some 1; rf_owner_kind := OwnerTask;
     rf_resource_kind := KindTerminal; rf_recipe := recipe_terminal 80 24;
     rf_lifecycle := ResActive; rf_runtime_generation := 0; rf_updated_at_ms := 0%Z |}.

Lemma provider_terminal_resource_spec_witness :
  is_ok (from_facts sample_agent sample_provider_terminal) = true.
Proof.
  pose proof (provider_terminal_resource_spec {[20 := sample_provider_terminal]} sample_agent
                eq_refl) as H.
  destruct H as (_ & Hok & _). exact Hok.
Defined.
