(* ===== verification/Artifact.v ===== *)
(** Artifacts, their content references and structured specialist results
    ([artifact.rs]). *)
From S2P Require Import Prelude Canonical Task.

Definition MAX_SPECIALIST_RAW_ARTIFACT_BYTES : N := 64 * 1024.

Inductive ArtifactValidationError :=
| EmptyLabel
| EmptyContent
| ContentDigestMismatch
| InvalidSpecialistResult.

Inductive ArtifactKind := Specification | Finding | Decision | Evidence | ReviewReport.
Inductive PrivacyClass := LocalOnly | Shareable.
Inductive SpecialistStatus := SpecialistCompleted | SpecialistFailed | SpecialistCancelled.

#[export] Instance ArtifactValidationError_eq_dec : EqDecision ArtifactValidationError.
Proof. solve_decision. Defined.
#[export] Instance ArtifactKind_eq_dec : EqDecision ArtifactKind.
Proof. solve_decision. Defined.
#[export] Instance PrivacyClass_eq_dec : EqDecision PrivacyClass.
Proof. solve_decision. Defined.
#[export] Instance SpecialistStatus_eq_dec : EqDecision SpecialistStatus.
Proof. solve_decision. Defined.

Record SpecialistResult := {
  sr_role : text;
  sr_status : SpecialistStatus;
  sr_summary : text;
  sr_evidence : list ArtifactId;
  sr_artifacts : list ArtifactId;
  sr_workspace : option WorkspaceRef;
  sr_commit : option text;
  sr_requested_follow_up : option text;
}.

#[export] Instance SpecialistResult_eq_dec : EqDecision SpecialistResult.
Proof. solve_decision. Defined.

(** [u8::is_ascii_hexdigit] *)
Definition is_ascii_hexdigit (b : N) : bool :=
  is_ascii_digit b || ((97 <=? b) && (b <=? 102)) || ((65 <=? b) && (b <=? 70)).

Definition specialist_commit_ok (commit : text) : bool :=
  ((len commit =? 40) || (len commit =? 64)) && forallb is_ascii_hexdigit (bytes commit).

Definition specialist_result_validate `{Sha256} (r : SpecialistResult)
    : result unit ArtifactValidationError :=
  ensure negb (is_none (bounded_canonical (sr_role r))
               || is_none (bounded_canonical (sr_summary r))) else InvalidSpecialistResult ;;
  ensure negb (negb (specialist_id_refs_ok (count (sr_evidence r)))
               || negb (specialist_id_refs_ok (count (sr_artifacts r))))
    else InvalidSpecialistResult ;;
  ensure is_none_or (sr_commit r) specialist_commit_ok else InvalidSpecialistResult ;;
  ensure is_none_or (sr_requested_follow_up r) (fun t => is_some (bounded_canonical t))
    else InvalidSpecialistResult ;;
  match sr_workspace r with
  | Some w => map_err (fun _ => InvalidSpecialistResult) (ws_validate w)
  | None => Ok tt
  end.

(** The wire struct of a specialist result, before its members are checked. *)
Record SpecialistResultWire := {
  srw_role : text;
  srw_status : SpecialistStatus;
  srw_summary : text;
  srw_evidence : list ArtifactId;
  srw_artifacts : list ArtifactId;
  srw_workspace : option WorkspaceRefWire;
  srw_commit : option text;
  srw_requested_follow_up : option text;
}.

Definition specialist_result_deserialize `{Sha256} (w : SpecialistResultWire)
    : result SpecialistResult ArtifactValidationError :=
  let? workspace :=
    map_err (fun _ => InvalidSpecialistResult)
      (option_traverse ws_deserialize (srw_workspace w)) in
  let r := {| sr_role := srw_role w; sr_status := srw_status w; sr_summary := srw_summary w;
              sr_evidence := srw_evidence w; sr_artifacts := srw_artifacts w;
              sr_workspace := workspace; sr_commit := srw_commit w;
              sr_requested_follow_up := srw_requested_follow_up w |} in
  try? specialist_result_validate r ;;
  Ok r.

(** [serde_json]: the JSON grammar and the derived wire decoder. *)
Class SpecialistJson := specialist_json : text -> option SpecialistResultWire.

Inductive ArtifactContentRef :=
| InlineUtf8 (body : text)
| ContentAddressed (digest_hex : text).

#[export] Instance ArtifactContentRef_eq_dec : EqDecision ArtifactContentRef.
Proof. solve_decision. Defined.

Definition inline_utf8 (body : text) : result ArtifactContentRef ArtifactValidationError :=
  if is_empty body then Err EmptyContent else Ok (InlineUtf8 body).

Definition content_addressed (digest_hex : text)
    : result ArtifactContentRef ArtifactValidationError :=
  let? digest_hex := ok_or (canonicalize digest_hex) EmptyContent in
  Ok (ContentAddressed digest_hex).

Definition content_canonicalize (c : ArtifactContentRef)
    : result ArtifactContentRef ArtifactValidationError :=
  match c with
  | InlineUtf8 body => inline_utf8 body
  | ContentAddressed digest_hex => content_addressed digest_hex
  end.

Definition content_validate (c : ArtifactContentRef) : result unit ArtifactValidationError :=
  match c with
  | InlineUtf8 body => if is_empty body then Err EmptyContent else Ok tt
  | ContentAddressed digest_hex => if is_canonical digest_hex then Ok tt else Err EmptyContent
  end.

Record ArtifactFacts := {
  af_id : ArtifactId;
  af_task_id : TaskId;
  af_kind : ArtifactKind;
  af_label : text;
  af_content_ref : ArtifactContentRef;
  af_sha256 : list N;
  af_privacy_class : PrivacyClass;
  af_created_at_ms : Z;
}.

#[export] Instance ArtifactFacts_eq_dec : EqDecision ArtifactFacts.
Proof. solve_decision. Defined.

Definition canonicalize_label (label : text) : result text ArtifactValidationError :=
  ok_or (canonicalize label) EmptyLabel.

Definition artifact_validate (a : ArtifactFacts) : result unit ArtifactValidationError :=
  ensure is_canonical (af_label a) else EmptyLabel ;;
  content_validate (af_content_ref a).

(** [ArtifactFacts::new]; [fresh] is the id the constructor draws. *)
Definition artifact_new (fresh : ArtifactId) (task_id : TaskId) (kind : ArtifactKind)
    (label : text) (content_ref : ArtifactContentRef) (sha : list N) (privacy : PrivacyClass)
    (created_at_ms : Z) : result ArtifactFacts ArtifactValidationError :=
  let? label := canonicalize_label label in
  let? content_ref := content_canonicalize content_ref in
  let facts := {| af_id := fresh; af_task_id := task_id; af_kind := kind; af_label := label;
                  af_content_ref := content_ref; af_sha256 := sha; af_privacy_class := privacy;
                  af_created_at_ms := created_at_ms |} in
  try? artifact_validate facts ;;
  Ok facts.

Definition structured_specialist_result `{Sha256} `{SpecialistJson} (a : ArtifactFacts)
    : result SpecialistResult ArtifactValidationError :=
  match af_content_ref a with
  | InlineUtf8 body =>
      ensure negb (MAX_SPECIALIST_RAW_ARTIFACT_BYTES <? len body) else InvalidSpecialistResult ;;
      let? wire := ok_or (specialist_json body) InvalidSpecialistResult in
      specialist_result_deserialize wire
  | ContentAddressed _ => Err InvalidSpecialistResult
  end.

Record ArtifactSummary := {
  as_id : ArtifactId;
  as_task_id : TaskId;
  as_kind : ArtifactKind;
  as_label : text;
  as_sha256 : list N;
  as_privacy_class : PrivacyClass;
  as_created_at_ms : Z;
}.

Definition verify_inline_content_digest `{Sha256} (a : ArtifactFacts)
    : result unit ArtifactValidationError :=
  match af_content_ref a with
  | InlineUtf8 body =>
      if sha256 (bytes body) =?= af_sha256 a then Ok tt else Err ContentDigestMismatch
  | ContentAddressed _ => Ok tt
  end.

Definition artifact_summary `{Sha256} (a : ArtifactFacts)
    : result ArtifactSummary ArtifactValidationError :=
  try? artifact_validate a ;;
  try? verify_inline_content_digest a ;;
  Ok {| as_id := af_id a; as_task_id := af_task_id a; as_kind := af_kind a;
        as_label := af_label a; as_sha256 := af_sha256 a;
        as_privacy_class := af_privacy_class a; as_created_at_ms := af_created_at_ms a |}.

(** ** Lemmas *)

Lemma content_canonicalize_validate c c' :
  content_canonicalize c = Ok c' -> content_validate c' = Ok tt.
Proof.
  destruct c as [body|d]; simpl.
  - unfold inline_utf8. destruct (is_empty body) eqn:E; [done|]. intros [= <-]. simpl. by rewrite E.
  - intros H. apply rbind_Ok in H as (x & Hx%ok_or_Ok & H). injection H as <-. simpl.
    by rewrite (canonicalize_is_canonical _ _ Hx).
Qed.

Lemma content_validate_canonicalize c :
  content_validate c = Ok tt -> content_canonicalize c = Ok c.
Proof.
  destruct c as [body|d]; simpl.
  - unfold inline_utf8. by destruct (is_empty body).
  - unfold content_addressed. destruct (is_canonical d) eqn:E; [|done]. intros _.
    by rewrite (canonicalize_canonical _ E).
Qed.

Lemma structured_specialist_result_valid `{Sha256} `{SpecialistJson} a r :
  structured_specialist_result a = Ok r -> specialist_result_validate r = Ok tt.
Proof.
  unfold structured_specialist_result. destruct (af_content_ref a) as [body|]; [|done].
  intros Hr. apply rbind_Ok in Hr as (? & _ & Hr). apply rbind_Ok in Hr as (w & _ & Hr).
  unfold specialist_result_deserialize in Hr.
  apply rbind_Ok in Hr as (ws & _ & Hr). apply rbind_Ok in Hr as ([] & Hv & Hr).
  by injection Hr as <-.
Qed.
