(* ===== verification/ProviderInput.v ===== *)
(** The durable provider-input projection: intents, wait fences, first-answer
    winners and their bounds ([provider_input.rs]). *)
From S2P Require Import Prelude Canonical Task Agent.

Definition MAX_PROVIDER_INPUT_TEXT_BYTES : N := 64 * 1024.
Definition MAX_PROVIDER_KIND_BYTES : N := 64.
Definition MAX_PROVIDER_QUESTION_WINS : N := 256.
Definition MAX_PROVIDER_APPROVAL_WINS : N := 256.
Definition MAX_PROVIDER_WAITS : N := 64.
Definition MAX_PROVIDER_IMAGE_ATTACHMENTS : N := 8.
Definition MAX_PROVIDER_IMAGE_BYTES : N := 5 * 1024 * 1024.
Definition MAX_PROVIDER_IMAGE_PATH_BYTES : N := 4096.
Definition u32_max : N := 4294967295.

Inductive ProviderInputIntentError :=
| PieEmptyText
| PieTextTooLarge
| PieInconsistentNestedIds
| PieUnsupportedProviderKind
| PieQuestionWinnerLimit
| PieApprovalWinnerLimit
| PieWaitLimit
| PieMissingOperationId
| PieInvalidFence
| PieImageAttachmentInvalid
| PieImagesUnsupported
| PieTooManyImages.

#[export] Instance ProviderInputIntentError_eq_dec : EqDecision ProviderInputIntentError.
Proof. solve_decision. Defined.

(** ** Images *)

Record ProviderImageAttachment := {
  img_path : text;
  img_sha256 : list N;
  img_byte_len : N;
}.

#[export] Instance ProviderImageAttachment_eq_dec : EqDecision ProviderImageAttachment.
Proof. solve_decision. Defined.

Definition validate_provider_image_path (p : text) : result unit ProviderInputIntentError :=
  ensure negb (is_empty p || (MAX_PROVIDER_IMAGE_PATH_BYTES <? len p))
    else PieImageAttachmentInvalid ;;
  ensure negb (existsb (fun ch => is_control ch || (ch =? 0)) p)
    else PieImageAttachmentInvalid ;;
  ensure path_is_absolute p else PieImageAttachmentInvalid ;;
  Ok tt.

Definition image_try_new (p : text) (digest : list N) (byte_len : N)
    : result ProviderImageAttachment ProviderInputIntentError :=
  try? validate_provider_image_path p ;;
  ensure negb ((byte_len =? 0) || (MAX_PROVIDER_IMAGE_BYTES <? byte_len))
    else PieImageAttachmentInvalid ;;
  ensure byte_len <=? u32_max else PieImageAttachmentInvalid ;;
  Ok {| img_path := p; img_sha256 := digest; img_byte_len := byte_len |}.

Fixpoint validate_image_list (images : list ProviderImageAttachment)
    : result unit ProviderInputIntentError :=
  match images with
  | [] => Ok tt
  | image :: rest =>
      try? validate_provider_image_path (img_path image) ;;
      ensure negb ((img_byte_len image =? 0) || (MAX_PROVIDER_IMAGE_BYTES <? img_byte_len image))
        else PieImageAttachmentInvalid ;;
      validate_image_list rest
  end.

Definition validate_provider_images (images : list ProviderImageAttachment)
    : result unit ProviderInputIntentError :=
  ensure negb (MAX_PROVIDER_IMAGE_ATTACHMENTS <? count images) else PieTooManyImages ;;
  validate_image_list images.

(** ** Digest text: [hex_digit], [encode_sha256_hex], [decode_sha256_hex] *)

Definition hex_digit (value : N) : char :=
  if value <=? 9 then 48 + value else if value <=? 15 then 97 + (value - 10) else 63.

Definition encode_sha256_hex (digest : list N) : text :=
  concat (map (fun b => [hex_digit (N.shiftr b 4); hex_digit (N.land b 0x0f)]) digest).

Definition hex_value (byte : N) : result N ProviderInputIntentError :=
  if (48 <=? byte) && (byte <=? 57) then Ok (byte - 48)
  else if (97 <=? byte) && (byte <=? 102) then Ok (byte - 97 + 10)
  else if (65 <=? byte) && (byte <=? 70) then Ok (byte - 65 + 10)
  else Err PieImageAttachmentInvalid.

Definition hexdigit_byte (b : N) : bool :=
  is_ascii_digit b || ((97 <=? b) && (b <=? 102)) || ((65 <=? b) && (b <=? 70)).

(** [value.as_bytes().chunks(2)]; a last odd byte cannot occur at length 64. *)
Fixpoint decode_chunks (bs : list N) : result (list N) ProviderInputIntentError :=
  match bs with
  | hi :: lo :: rest =>
      let? hi := hex_value hi in
      let? lo := hex_value lo in
      let? tail := decode_chunks rest in
      Ok (N.lor (N.shiftl hi 4) lo :: tail)
  | _ => Ok []
  end.

Definition decode_sha256_hex (value : text) : result (list N) ProviderInputIntentError :=
  ensure negb (negb (len value =? 64) || negb (forallb hexdigit_byte (bytes value)))
    else PieImageAttachmentInvalid ;;
  decode_chunks (bytes value).

(** ** Actions *)

Inductive ProviderInputAction :=
| SendNow (content : text) (wait : bool) (images : list ProviderImageAttachment)
| SteerCurrentTurn (content : text)
| QueueFollowUp (content : text)
| AnswerQuestion (question_id : QuestionId) (answer : text)
| ResolveApproval (approval_id : ApprovalId) (allow : bool)
| TerminalInput (content : text)
| StopTurn.

#[export] Instance ProviderInputAction_eq_dec : EqDecision ProviderInputAction.
Proof. solve_decision. Defined.

Definition waits_for_turn (a : ProviderInputAction) : bool :=
  match a with SendNow _ true _ => true | _ => false end.

Definition provider_kind_from_wire (value : text)
    : result ProviderKind ProviderInputIntentError :=
  ensure negb (is_empty value) else PieEmptyText ;;
  ensure negb (MAX_PROVIDER_KIND_BYTES <? len value) else PieTextTooLarge ;;
  ensure is_canonical value else PieUnsupportedProviderKind ;;
  ok_or (parse_wire value) PieUnsupportedProviderKind.

Definition validate_provider_text (t : text) : result unit ProviderInputIntentError :=
  ensure negb (is_empty t) else PieEmptyText ;;
  ensure negb (MAX_PROVIDER_INPUT_TEXT_BYTES <? len t) else PieTextTooLarge ;;
  Ok tt.

Definition validate_send_now_payload (t : text) (images : list ProviderImageAttachment)
    : result unit ProviderInputIntentError :=
  ensure negb (MAX_PROVIDER_IMAGE_ATTACHMENTS <? count images) else PieTooManyImages ;;
  try? validate_image_list images ;;
  if is_empty t then
    if is_empty images then Err PieEmptyText else Ok tt
  else
    ensure negb (MAX_PROVIDER_INPUT_TEXT_BYTES <? len t) else PieTextTooLarge ;;
    Ok tt.

(** The wire action: [serde] checks each text as it is visited, then the
    [SendNow] payload as a whole. *)
Definition action_deserialize (w : ProviderInputAction)
    : result ProviderInputAction ProviderInputIntentError :=
  match w with
  | SendNow t _ images =>
      ensure negb (MAX_PROVIDER_INPUT_TEXT_BYTES <? len t) else PieTextTooLarge ;;
      try? validate_provider_images images ;;
      try? validate_send_now_payload t images ;;
      Ok w
  | SteerCurrentTurn t | QueueFollowUp t | AnswerQuestion _ t | TerminalInput t =>
      try? validate_provider_text t ;;
      Ok w
  | ResolveApproval _ _ | StopTurn => Ok w
  end.

Definition validate_action_nested_ids (action : ProviderInputAction)
    (question_id : option QuestionId) (approval_id : option ApprovalId)
    : result unit ProviderInputIntentError :=
  match action with
  | SendNow t _ images =>
      try? validate_send_now_payload t images ;;
      ensure negb (is_some question_id || is_some approval_id) else PieInconsistentNestedIds ;;
      Ok tt
  | SteerCurrentTurn t | QueueFollowUp t =>
      try? validate_provider_text t ;;
      ensure negb (is_some question_id || is_some approval_id) else PieInconsistentNestedIds ;;
      Ok tt
  | AnswerQuestion nested answer =>
      try? validate_provider_text answer ;;
      ensure negb (negb (question_id =?= Some nested) || is_some approval_id)
        else PieInconsistentNestedIds ;;
      Ok tt
  | ResolveApproval nested _ =>
      ensure negb (negb (approval_id =?= Some nested) || is_some question_id)
        else PieInconsistentNestedIds ;;
      Ok tt
  | TerminalInput t =>
      try? validate_provider_text t ;;
      ensure negb (is_some question_id || is_some approval_id) else PieInconsistentNestedIds ;;
      Ok tt
  | StopTurn =>
      ensure negb (is_some question_id || is_some approval_id) else PieInconsistentNestedIds ;;
      Ok tt
  end.

(** ** Settlements, winners and wait records *)

Inductive ProviderIntentPhase := IntentAccepted.
Inductive ProviderDeliveryHoldReason := DestinationAdapterNotWired.
Inductive ProviderDeliveryVisibility :=
| DeliveryHold (reason : ProviderDeliveryHoldReason)
| Delivered.

#[export] Instance ProviderIntentPhase_eq_dec : EqDecision ProviderIntentPhase.
Proof. solve_decision. Defined.
#[export] Instance ProviderDeliveryHoldReason_eq_dec : EqDecision ProviderDeliveryHoldReason.
Proof. solve_decision. Defined.
#[export] Instance ProviderDeliveryVisibility_eq_dec : EqDecision ProviderDeliveryVisibility.
Proof. solve_decision. Defined.

Definition hold_until_destination_adapter : ProviderDeliveryVisibility :=
  DeliveryHold DestinationAdapterNotWired.

Definition is_delivered_visibility (v : ProviderDeliveryVisibility) : bool :=
  match v with Delivered => true | DeliveryHold _ => false end.

Record ProviderInputSettlement := {
  se_command_id : CommandId;
  se_operation_id : option OperationId;
  se_intent : ProviderIntentPhase;
  se_delivery : ProviderDeliveryVisibility;
}.

#[export] Instance ProviderInputSettlement_eq_dec : EqDecision ProviderInputSettlement.
Proof. solve_decision. Defined.

Definition intent_accepted_delivery_hold (command_id : CommandId) : ProviderInputSettlement :=
  {| se_command_id := command_id; se_operation_id := None; se_intent := IntentAccepted;
     se_delivery := hold_until_destination_adapter |}.

Definition is_delivered (s : ProviderInputSettlement) : bool :=
  is_delivered_visibility (se_delivery s).

Record ProviderResolutionWinner := {
  win_command_id : CommandId;
  win_client_id : ClientId;
  win_accepted_at_ms : Z;
}.

#[export] Instance ProviderResolutionWinner_eq_dec : EqDecision ProviderResolutionWinner.
Proof. solve_decision. Defined.

Record ProviderWaitFence := {
  wf_command_id : CommandId;
  wf_task_id : TaskId;
  wf_operation_id : option OperationId;
  wf_action_epoch : N;
  wf_agent_session_id : AgentSessionId;
  wf_provider_kind : option ProviderKind;
  wf_provider_session_id : option ProviderSessionId;
  wf_runtime_generation : N;
  wf_turn_id : TurnId;
  wf_question_id : option QuestionId;
  wf_approval_id : option ApprovalId;
}.

#[export] Instance ProviderWaitFence_eq_dec : EqDecision ProviderWaitFence.
Proof. solve_decision. Defined.

Record ProviderWaitRecord := {
  wr_fence : ProviderWaitFence;
  wr_pending : bool;
}.

#[export] Instance ProviderWaitRecord_eq_dec : EqDecision ProviderWaitRecord.
Proof. solve_decision. Defined.

Definition wait_fence_new (command_id : CommandId) (task_id : TaskId) (action_epoch : N)
    (agent_session_id : AgentSessionId) (runtime_generation : N) (turn_id : TurnId)
    (question_id : option QuestionId) (approval_id : option ApprovalId) : ProviderWaitFence :=
  {| wf_command_id := command_id; wf_task_id := task_id; wf_operation_id := None;
     wf_action_epoch := action_epoch; wf_agent_session_id := agent_session_id;
     wf_provider_kind := None; wf_provider_session_id := None;
     wf_runtime_generation := runtime_generation; wf_turn_id := turn_id;
     wf_question_id := question_id; wf_approval_id := approval_id |}.

Definition wait_fence_with_identity (command_id : CommandId) (task_id : TaskId)
    (operation_id : OperationId) (action_epoch : N) (agent_session_id : AgentSessionId)
    (provider_kind : ProviderKind) (provider_session_id : option ProviderSessionId)
    (runtime_generation : N) (turn_id : TurnId) (question_id : option QuestionId)
    (approval_id : option ApprovalId) : ProviderWaitFence :=
  {| wf_command_id := command_id; wf_task_id := task_id; wf_operation_id := Some operation_id;
     wf_action_epoch := action_epoch; wf_agent_session_id := agent_session_id;
     wf_provider_kind := Some provider_kind; wf_provider_session_id := provider_session_id;
     wf_runtime_generation := runtime_generation; wf_turn_id := turn_id;
     wf_question_id := question_id; wf_approval_id := approval_id |}.

Definition fence_matches (a b : ProviderWaitFence) : bool := a =?= b.

(** ** Fences *)

Record ProviderFenceIdentity := {
  fi_command_id : option CommandId;
  fi_task_id : option TaskId;
  fi_agent_session_id : AgentSessionId;
  fi_provider_kind : option ProviderKind;
  fi_provider_session_id : option ProviderSessionId;
  fi_operation_id : option OperationId;
  fi_runtime_generation : N;
  fi_action_epoch : N;
  fi_turn_id : TurnId;
  fi_question_id : option QuestionId;
  fi_approval_id : option ApprovalId;
}.

Definition fence_with_identity (command_id : option CommandId) (task_id : option TaskId)
    (agent_session_id : AgentSessionId) (provider_kind : ProviderKind)
    (provider_session_id : option ProviderSessionId) (operation_id : option OperationId)
    (runtime_generation action_epoch : N) (turn_id : TurnId) (question_id : option QuestionId)
    (approval_id : option ApprovalId) : ProviderFenceIdentity :=
  {| fi_command_id := command_id; fi_task_id := task_id;
     fi_agent_session_id := agent_session_id; fi_provider_kind := Some provider_kind;
     fi_provider_session_id := provider_session_id; fi_operation_id := operation_id;
     fi_runtime_generation := runtime_generation; fi_action_epoch := action_epoch;
     fi_turn_id := turn_id; fi_question_id := question_id; fi_approval_id := approval_id |}.

Definition fence_identity (f : ProviderWaitFence) : ProviderFenceIdentity :=
  {| fi_command_id := Some (wf_command_id f); fi_task_id := Some (wf_task_id f);
     fi_agent_session_id := wf_agent_session_id f; fi_provider_kind := wf_provider_kind f;
     fi_provider_session_id := wf_provider_session_id f; fi_operation_id := wf_operation_id f;
     fi_runtime_generation := wf_runtime_generation f; fi_action_epoch := wf_action_epoch f;
     fi_turn_id := wf_turn_id f; fi_question_id := wf_question_id f;
     fi_approval_id := wf_approval_id f |}.

Record ProviderFenceContext := {
  fc_task_id : TaskId;
  fc_agent_session_id : AgentSessionId;
  fc_agent_task_id : TaskId;
  fc_provider_kind : ProviderKind;
  fc_provider_session_id : option ProviderSessionId;
  fc_runtime_generation : N;
  fc_action_epoch : N;
  fc_lifecycle : AgentSessionLifecycle;
  fc_current_turn : option TurnId;
  fc_allow_closing : bool;
}.

Inductive ProviderFenceError :=
| FenceTaskMismatch
| FenceAgentSessionMismatch
| FenceAgentOwnershipMismatch
| FenceRuntimeGenerationMismatch
| FenceActionEpochMismatch
| FenceTurnMismatch
| FenceAgentNotLive
| FenceInvalidNestedIds
| FenceWaitFlagMismatch
| FenceMissingProviderIdentity
| FenceProviderKindMismatch
| FenceProviderSessionMismatch
| FenceMissingOperationId.

#[export] Instance ProviderFenceError_eq_dec : EqDecision ProviderFenceError.
Proof. solve_decision. Defined.

Definition agent_live (l : AgentSessionLifecycle) (allow_closing : bool) : bool :=
  (l =?= AgentOpen) || (allow_closing && (l =?= AgentClosing)).

Definition validate_fence_context (fence : ProviderFenceIdentity) (kind : ProviderKind)
    (context : ProviderFenceContext) : result unit ProviderFenceError :=
  ensure fi_task_id fence =?= Some (fc_task_id context) else FenceTaskMismatch ;;
  ensure fi_agent_session_id fence =? fc_agent_session_id context
    else FenceAgentSessionMismatch ;;
  ensure kind =?= fc_provider_kind context else FenceProviderKindMismatch ;;
  ensure fi_provider_session_id fence =?= fc_provider_session_id context
    else FenceProviderSessionMismatch ;;
  ensure fc_agent_task_id context =? fc_task_id context else FenceAgentOwnershipMismatch ;;
  ensure fi_runtime_generation fence =? fc_runtime_generation context
    else FenceRuntimeGenerationMismatch ;;
  ensure fi_action_epoch fence =? fc_action_epoch context else FenceActionEpochMismatch ;;
  ensure agent_live (fc_lifecycle context) (fc_allow_closing context) else FenceAgentNotLive ;;
  ensure is_none_or (fc_current_turn context) (fun t => fi_turn_id fence =? t)
    else FenceTurnMismatch ;;
  Ok tt.

Definition validate_provider_fence (fence : ProviderFenceIdentity)
    (action : option ProviderInputAction) (wait : option bool)
    (context : option ProviderFenceContext) : result unit ProviderFenceError :=
  let? kind := ok_or (fi_provider_kind fence) FenceMissingProviderIdentity in
  ensure negb (is_none (fi_provider_session_id fence) && negb (kind =?= Codex))
    else FenceMissingProviderIdentity ;;
  ensure negb (is_some (fi_operation_id fence) && is_none (fi_command_id fence))
    else FenceMissingOperationId ;;
  ensure negb (is_some (fi_question_id fence) && is_some (fi_approval_id fence))
    else FenceInvalidNestedIds ;;
  try? match action with
       | Some a =>
           try? map_err (fun _ => FenceInvalidNestedIds)
                  (validate_action_nested_ids a (fi_question_id fence) (fi_approval_id fence)) ;;
           ensure wait =?= Some (waits_for_turn a) else FenceWaitFlagMismatch ;;
           Ok tt
       | None =>
           ensure is_none wait else FenceWaitFlagMismatch ;;
           Ok tt
       end ;;
  try? match context with
       | Some c => validate_fence_context fence kind c
       | None => Ok tt
       end ;;
  ensure negb (is_some action && is_none (fi_operation_id fence)) else FenceMissingOperationId ;;
  Ok tt.

(** ** The session projection *)

Record ProviderSessionProjection := {
  ps_current_turn : option TurnId;
  ps_open_question : option QuestionId;
  ps_open_approval : option ApprovalId;
  ps_question_winners : gmap N ProviderResolutionWinner;
  ps_approval_winners : gmap N ProviderResolutionWinner;
  ps_waits : gmap N ProviderWaitRecord;
  ps_last_settlement : option ProviderInputSettlement;
}.

#[export] Instance ProviderSessionProjection_eq_dec : EqDecision ProviderSessionProjection.
Proof. solve_decision. Defined.

Definition session_default : ProviderSessionProjection :=
  {| ps_current_turn := None; ps_open_question := None; ps_open_approval := None;
     ps_question_winners := ∅; ps_approval_winners := ∅; ps_waits := ∅;
     ps_last_settlement := None |}.

Definition pending_waits (waits : gmap N ProviderWaitRecord) : list (N * ProviderWaitRecord) :=
  List.filter (fun kr => wr_pending (snd kr)) (map_to_list waits).

Definition can_begin_send_now_turn (s : ProviderSessionProjection) (turn_id : TurnId) : bool :=
  is_none_or (ps_current_turn s) (fun current => current =? turn_id)
  || (is_none (ps_open_question s) && is_none (ps_open_approval s)
      && forallb (fun kr => negb (wr_pending (snd kr))) (map_to_list (ps_waits s))
      && is_some_and (ps_last_settlement s) is_delivered).

Fixpoint validate_waits (entries : list (N * ProviderWaitRecord))
    : result unit ProviderInputIntentError :=
  match entries with
  | [] => Ok tt
  | (command_id, record) :: rest =>
      ensure negb (negb (wf_command_id (wr_fence record) =? command_id)
                   || is_none (wf_operation_id (wr_fence record))) else PieInvalidFence ;;
      try? map_err (fun _ => PieInvalidFence)
             (validate_provider_fence (fence_identity (wr_fence record)) None None None) ;;
      validate_waits rest
  end.

Definition validate_bounds (s : ProviderSessionProjection)
    : result unit ProviderInputIntentError :=
  ensure negb (MAX_PROVIDER_QUESTION_WINS <? msize (ps_question_winners s))
    else PieQuestionWinnerLimit ;;
  ensure negb (MAX_PROVIDER_APPROVAL_WINS <? msize (ps_approval_winners s))
    else PieApprovalWinnerLimit ;;
  ensure negb (MAX_PROVIDER_WAITS <? msize (ps_waits s)) else PieWaitLimit ;;
  ensure negb (is_some_and (ps_last_settlement s) (fun x => is_none (se_operation_id x)))
    else PieMissingOperationId ;;
  validate_waits (map_to_list (ps_waits s)).

Definition with_question_winners (s : ProviderSessionProjection)
    (m : gmap N ProviderResolutionWinner) (open : option QuestionId) : ProviderSessionProjection :=
  {| ps_current_turn := ps_current_turn s; ps_open_question := open;
     ps_open_approval := ps_open_approval s; ps_question_winners := m;
     ps_approval_winners := ps_approval_winners s; ps_waits := ps_waits s;
     ps_last_settlement := ps_last_settlement s |}.

Definition with_approval_winners (s : ProviderSessionProjection)
    (m : gmap N ProviderResolutionWinner) (open : option ApprovalId) : ProviderSessionProjection :=
  {| ps_current_turn := ps_current_turn s; ps_open_question := ps_open_question s;
     ps_open_approval := open; ps_question_winners := ps_question_winners s;
     ps_approval_winners := m; ps_waits := ps_waits s;
     ps_last_settlement := ps_last_settlement s |}.

Definition with_waits (s : ProviderSessionProjection) (w : gmap N ProviderWaitRecord)
    : ProviderSessionProjection :=
  {| ps_current_turn := ps_current_turn s; ps_open_question := ps_open_question s;
     ps_open_approval := ps_open_approval s; ps_question_winners := ps_question_winners s;
     ps_approval_winners := ps_approval_winners s; ps_waits := w;
     ps_last_settlement := ps_last_settlement s |}.

Definition with_turn (s : ProviderSessionProjection) (t : option TurnId)
    : ProviderSessionProjection :=
  {| ps_current_turn := t; ps_open_question := ps_open_question s;
     ps_open_approval := ps_open_approval s; ps_question_winners := ps_question_winners s;
     ps_approval_winners := ps_approval_winners s; ps_waits := ps_waits s;
     ps_last_settlement := ps_last_settlement s |}.

Definition with_settlement (s : ProviderSessionProjection) (x : option ProviderInputSettlement)
    : ProviderSessionProjection :=
  {| ps_current_turn := ps_current_turn s; ps_open_question := ps_open_question s;
     ps_open_approval := ps_open_approval s; ps_question_winners := ps_question_winners s;
     ps_approval_winners := ps_approval_winners s; ps_waits := ps_waits s;
     ps_last_settlement := x |}.

Definition bounded_insert_question_winner (s : ProviderSessionProjection)
    (question_id : QuestionId) (winner : ProviderResolutionWinner)
    : result ProviderSessionProjection ProviderInputIntentError :=
  if is_none (ps_question_winners s !! question_id)
     && (MAX_PROVIDER_QUESTION_WINS <=? msize (ps_question_winners s))
  then Err PieQuestionWinnerLimit
  else Ok (with_question_winners s (<[question_id := winner]> (ps_question_winners s)) None).

Definition bounded_insert_approval_winner (s : ProviderSessionProjection)
    (approval_id : ApprovalId) (winner : ProviderResolutionWinner)
    : result ProviderSessionProjection ProviderInputIntentError :=
  if is_none (ps_approval_winners s !! approval_id)
     && (MAX_PROVIDER_APPROVAL_WINS <=? msize (ps_approval_winners s))
  then Err PieApprovalWinnerLimit
  else Ok (with_approval_winners s (<[approval_id := winner]> (ps_approval_winners s)) None).

(** The first key of a [BTreeMap] iteration that satisfies a predicate: the
    least such key. *)
Definition min_option (acc : option N) (k : N) : option N :=
  match acc with Some a => Some (N.min a k) | None => Some k end.

Definition first_settled (waits : gmap N ProviderWaitRecord) : option N :=
  fold_left min_option
    (map fst (List.filter (fun kr => negb (wr_pending (snd kr))) (map_to_list waits))) None.

Definition bounded_insert_wait (s : ProviderSessionProjection) (command_id : CommandId)
    (record : ProviderWaitRecord) : result ProviderSessionProjection ProviderInputIntentError :=
  let? waits :=
    (if is_none (ps_waits s !! command_id) && wr_pending record then
       ensure negb (MAX_PROVIDER_WAITS <=? count (pending_waits (ps_waits s)))
         else PieWaitLimit ;;
       if MAX_PROVIDER_WAITS <=? msize (ps_waits s) then
         match first_settled (ps_waits s) with
         | Some reclaim => Ok (delete reclaim (ps_waits s))
         | None => Err PieWaitLimit
         end
       else Ok (ps_waits s)
     else Ok (ps_waits s)) in
  Ok (with_waits s (<[command_id := record]> waits)).

(** ** Presentation and settlement intents *)

Record PresentProviderQuestionIntent := {
  pq_agent_session_id : AgentSessionId;
  pq_runtime_generation : N;
  pq_turn_id : TurnId;
  pq_action_epoch : N;
  pq_question_id : QuestionId;
}.

Record PresentProviderApprovalIntent := {
  pa_agent_session_id : AgentSessionId;
  pa_runtime_generation : N;
  pa_turn_id : TurnId;
  pa_action_epoch : N;
  pa_approval_id : ApprovalId;
}.

Record SettleProviderWaitIntent := { sw_fence : ProviderWaitFence }.

(** [BoundedProjectionMap]'s visitor: a size hint over the limit is refused
    before anything is decoded, and no more than the limit is ever inserted. *)
Fixpoint bounded_visit {V} (limit seen : N) (entries : list (N * V)) (values : gmap N V)
    : option (gmap N V) :=
  match entries with
  | [] => Some values
  | (k, v) :: rest =>
      if limit <=? seen then None
      else bounded_visit limit (seen + 1) rest (<[k := v]> values)
  end.

Definition bounded_map_deserialize {V} (limit : N) (hint : option N) (entries : list (N * V))
    : option (gmap N V) :=
  if is_some_and hint (fun h => limit <? h) then None
  else bounded_visit limit 0 entries ∅.

(** ** Lemmas *)

Lemma fold_min_option l acc :
  match fold_left min_option l acc with
  | Some m => (acc = Some m \/ m ∈ l)
              /\ (forall k, k ∈ l -> m <= k) /\ (forall a, acc = Some a -> m <= a)
  | None => l = [] /\ acc = None
  end.
Proof.
  revert acc; induction l as [|x l IH]; intros acc; simpl.
  - destruct acc; [|done]. split_and!; [by left | set_solver | intros a [= ->]; lia].
  - specialize (IH (min_option acc x)).
    destruct (fold_left min_option l (min_option acc x)) as [m|].
    + destruct IH as ([He|Hm] & Hall & Hacc).
      * split_and!.
        -- destruct acc as [a|]; simpl in He; injection He as <-.
           ++ destruct (N.min_spec a x) as [[_ ->]|[_ ->]]; [by left | right; set_solver].
           ++ right; set_solver.
        -- intros k [->|Hk]%elem_of_cons; [|by apply Hall].
           specialize (Hacc _ He). destruct acc; simpl in He; injection He as <-; lia.
        -- intros a ->. simpl in He. injection He as <-. lia.
      * split_and!.
        -- right; set_solver.
        -- intros k [->|Hk]%elem_of_cons; [|by apply Hall].
           destruct acc as [a|]; simpl in Hacc; specialize (Hacc _ eq_refl); lia.
        -- intros a ->. simpl in Hacc. specialize (Hacc _ eq_refl). lia.
    + destruct IH as [_ H]. destruct acc; done.
Qed.

Lemma elem_of_settled_keys waits k :
  k ∈ map fst (List.filter (fun kr : N * ProviderWaitRecord => negb (wr_pending (snd kr)))
                 (map_to_list waits)) <->
  exists r, waits !! k = Some r /\ wr_pending r = false.
Proof.
  rewrite list_elem_of_In, in_map_iff. split.
  - intros ([k' r] & <- & Hin). apply filter_In in Hin as [Hin Hp].
    apply list_elem_of_In, elem_of_map_to_list in Hin. apply negb_true_iff in Hp. by exists r.
  - intros (r & Hk & Hp). exists (k, r). split; [done|]. apply filter_In.
    rewrite <- list_elem_of_In, elem_of_map_to_list. simpl. by rewrite Hp.
Qed.

Lemma first_settled_Some waits k :
  first_settled waits = Some k ->
  (exists r, waits !! k = Some r /\ wr_pending r = false)
  /\ (forall k' r, waits !! k' = Some r -> wr_pending r = false -> k <= k').
Proof.
  unfold first_settled. intros H.
  pose proof (fold_min_option (map fst (List.filter
    (fun kr : N * ProviderWaitRecord => negb (wr_pending (snd kr))) (map_to_list waits))) None) as Hm.
  rewrite H in Hm. destruct Hm as ([?|Hin] & Hall & _); [done|]. split.
  - by apply elem_of_settled_keys.
  - intros k' r Hk Hp. apply Hall, elem_of_settled_keys. by exists r.
Qed.

Lemma first_settled_None waits :
  first_settled waits = None -> count (pending_waits waits) = msize waits.
Proof.
  unfold first_settled. intros H.
  pose proof (fold_min_option (map fst (List.filter
    (fun kr : N * ProviderWaitRecord => negb (wr_pending (snd kr))) (map_to_list waits))) None) as Hm.
  rewrite H in Hm. destruct Hm as [Hnil _]. apply map_eq_nil in Hnil.
  unfold pending_waits, count, msize. f_equal.
  rewrite <- length_map_to_list. f_equal.
  apply forallb_filter_id. apply forallb_forall. intros kr Hkr.
  destruct (wr_pending (snd kr)) eqn:E; [done|].
  assert (kr ∈ List.filter (fun kr : N * ProviderWaitRecord => negb (wr_pending (snd kr)))
                 (map_to_list waits)) as Hin.
  { apply list_elem_of_In, filter_In. by rewrite E. }
  rewrite Hnil in Hin. set_solver.
Qed.

Lemma msize_delete {A} (m : gmap N A) k v :
  m !! k = Some v -> msize (delete k m) + 1 = msize m.
Proof.
  intros Hk. rewrite <- (insert_id m k v Hk) at 2. rewrite <- insert_delete_eq.
  rewrite msize_insert_None; [done | apply lookup_delete_eq].
Qed.

Lemma bounded_insert_wait_Ok s c r s' :
  bounded_insert_wait s c r = Ok s' ->
  msize (ps_waits s) <= MAX_PROVIDER_WAITS ->
  (is_some (ps_waits s !! c) = true \/ wr_pending r = true) ->
  s' = with_waits s (ps_waits s')
  /\ msize (ps_waits s') <= MAX_PROVIDER_WAITS
  /\ ps_waits s' !! c = Some r
  /\ (forall k w, k <> c -> ps_waits s !! k = Some w -> wr_pending w = true ->
        ps_waits s' !! k = Some w)
  /\ (forall k w, k <> c -> ps_waits s' !! k = Some w -> ps_waits s !! k = Some w).
Proof.
  unfold bounded_insert_wait. intros H Hsz Hor.
  apply rbind_Ok in H as (waits & Hw & H). injection H as <-. simpl.
  destruct (ps_waits s !! c) as [old|] eqn:Hc; simpl in Hw.
  - injection Hw as <-. split_and!; try done.
    + by rewrite (msize_insert_Some _ _ _ _ Hc).
    + apply lookup_insert_eq.
    + intros k w Hne Hk _. by rewrite lookup_insert_ne.
    + intros k w Hne. by rewrite lookup_insert_ne.
  - destruct Hor as [?|Hp]; [done|]. rewrite Hp in Hw. simpl in Hw.
    apply rbind_Ok in Hw as (? & _ & Hw).
    destruct (N.leb_spec MAX_PROVIDER_WAITS (msize (ps_waits s))) as [Hfull|Hroom].
    + destruct (first_settled (ps_waits s)) as [k0|] eqn:Ef; [|done]. injection Hw as <-.
      apply first_settled_Some in Ef as [(r0 & Hk0 & Hp0) _].
      split_and!; try done.
      * rewrite msize_insert_None.
        -- pose proof (msize_delete _ _ _ Hk0). lia.
        -- rewrite lookup_delete_ne; [done|]. intros ->. congruence.
      * apply lookup_insert_eq.
      * intros k w Hne Hk Hwp. rewrite lookup_insert_ne by done.
        rewrite lookup_delete_ne; [done|]. intros ->. congruence.
      * intros k w Hne. rewrite lookup_insert_ne by done.
        intros [_ Hk]%lookup_delete_Some. done.
    + injection Hw as <-. split_and!; try done.
      * rewrite msize_insert_None by done. lia.
      * apply lookup_insert_eq.
      * intros k w Hne Hk _. by rewrite lookup_insert_ne.
      * intros k w Hne. by rewrite lookup_insert_ne.
Qed.

Lemma bounded_insert_wait_progress s c r :
  count (pending_waits (ps_waits s)) < MAX_PROVIDER_WAITS ->
  exists s', bounded_insert_wait s c r = Ok s'.
Proof.
  intros Hp. unfold bounded_insert_wait.
  destruct (is_none (ps_waits s !! c) && wr_pending r); [|by eexists].
  apply N.leb_gt in Hp. rewrite Hp. simpl.
  destruct (N.leb_spec MAX_PROVIDER_WAITS (msize (ps_waits s))) as [Hfull|]; [|by eexists].
  destruct (first_settled (ps_waits s)) eqn:E; [by eexists|].
  apply first_settled_None in E. apply N.leb_gt in Hp. lia.
Qed.

Lemma validate_waits_Ok entries :
  validate_waits entries = Ok tt <->
  Forall (fun kr => wf_command_id (wr_fence (snd kr)) = fst kr
                    /\ is_some (wf_operation_id (wr_fence (snd kr))) = true
                    /\ validate_provider_fence (fence_identity (wr_fence (snd kr))) None None None
                       = Ok tt) entries.
Proof.
  induction entries as [|[k r] rest IH]; simpl; [split; by constructor|].
  rewrite Forall_cons, <- IH. simpl. split.
  - intros H. apply rbind_Ok in H as (? & Hg%guard_Ok & H).
    apply rbind_Ok in H as ([] & Hf%map_err_Ok & H).
    unfold is_none in Hg. rewrite negb_true_iff, orb_false_iff, !negb_false_iff, N.eqb_eq in Hg.
    destruct Hg as [Hk Ho]. done.
  - intros ((Hk & Ho & Hf) & Hr). rewrite Hk, N.eqb_refl. unfold is_none. rewrite Ho. simpl.
    by rewrite Hf.
Qed.

(** What [validate_bounds] promises of a projection. *)
Definition session_ok (s : ProviderSessionProjection) : Prop :=
  msize (ps_question_winners s) <= MAX_PROVIDER_QUESTION_WINS
  /\ msize (ps_approval_winners s) <= MAX_PROVIDER_APPROVAL_WINS
  /\ msize (ps_waits s) <= MAX_PROVIDER_WAITS
  /\ (forall x, ps_last_settlement s = Some x -> is_some (se_operation_id x) = true)
  /\ (forall c r, ps_waits s !! c = Some r ->
        wf_command_id (wr_fence r) = c /\ is_some (wf_operation_id (wr_fence r)) = true
        /\ validate_provider_fence (fence_identity (wr_fence r)) None None None = Ok tt).

Lemma validate_bounds_Ok s : validate_bounds s = Ok tt <-> session_ok s.
Proof.
  unfold validate_bounds, session_ok. split.
  - intros H. apply rbind_Ok in H as (? & H1%guard_negb%N.ltb_ge & H).
    apply rbind_Ok in H as (? & H2%guard_negb%N.ltb_ge & H).
    apply rbind_Ok in H as (? & H3%guard_negb%N.ltb_ge & H).
    apply rbind_Ok in H as (? & H4%guard_negb & H). split_and!; try done.
    + intros y Hy. rewrite Hy in H4. simpl in H4. by apply negb_false_iff in H4.
    + intros c r Hc. apply validate_waits_Ok in H.
      apply (proj1 (Forall_forall _ _) H (c, r)). by apply elem_of_map_to_list.
  - intros (H1 & H2 & H3 & H4 & H5). apply N.ltb_ge in H1, H2, H3. rewrite H1, H2, H3. simpl.
    assert (is_some_and (ps_last_settlement s) (fun x => is_none (se_operation_id x)) = false) as ->.
    { destruct (ps_last_settlement s) as [x|]; simpl; [|done].
      unfold is_none. by rewrite (H4 x eq_refl). }
    simpl. apply validate_waits_Ok, Forall_forall. intros [c r] Hc%elem_of_map_to_list.
    by apply H5.
Qed.

Lemma session_default_ok : session_ok session_default.
Proof.
  unfold session_ok, session_default. simpl. rewrite !msize_empty.
  split_and!; [done|done|done|done|]. intros c r. by rewrite lookup_empty.
Qed.

Lemma bounded_visit_size {V} limit seen (entries : list (N * V)) values m :
  bounded_visit limit seen entries values = Some m ->
  msize values <= seen -> seen <= limit -> msize m <= limit.
Proof.
  revert seen values; induction entries as [|[k v] rest IH]; intros seen values; simpl.
  - intros [= <-]. lia.
  - destruct (N.leb_spec limit seen); [done|]. intros Hv Hs Hl.
    apply IH in Hv; [done| |lia]. pose proof (msize_insert_le values k v). lia.
Qed.

(** *** Hex digests *)

Lemma hex_value_digit v : v < 16 -> hex_value (hex_digit v) = Ok v.
Proof.
  intros Hv. unfold hex_digit.
  assert (v <= 9 \/ 10 <= v <= 15) as [H|H] by lia.
  - apply N.leb_le in H as E. rewrite E. unfold hex_value.
    replace (48 <=? 48 + v) with true by (symmetry; apply N.leb_le; lia).
    replace (48 + v <=? 57) with true by (symmetry; apply N.leb_le; lia).
    simpl. f_equal. lia.
  - replace (v <=? 9) with false by (symmetry; apply N.leb_gt; lia).
    replace (v <=? 15) with true by (symmetry; apply N.leb_le; lia).
    unfold hex_value.
    replace (97 + (v - 10) <=? 57) with false by (symmetry; apply N.leb_gt; lia).
    rewrite andb_false_r.
    replace (97 <=? 97 + (v - 10)) with true by (symmetry; apply N.leb_le; lia).
    replace (97 + (v - 10) <=? 102) with true by (symmetry; apply N.leb_le; lia).
    simpl. f_equal. lia.
Qed.

Lemma hex_digit_hexdigit v : v < 16 -> hexdigit_byte (hex_digit v) = true /\ hex_digit v < 0x80.
Proof.
  intros Hv. unfold hex_digit, hexdigit_byte, is_ascii_digit.
  assert (v <= 9 \/ 10 <= v <= 15) as [H|H] by lia.
  - apply N.leb_le in H as E. rewrite E. split; [|lia].
    replace (48 <=? 48 + v) with true by (symmetry; apply N.leb_le; lia).
    by replace (48 + v <=? 57) with true by (symmetry; apply N.leb_le; lia).
  - replace (v <=? 9) with false by (symmetry; apply N.leb_gt; lia).
    replace (v <=? 15) with true by (symmetry; apply N.leb_le; lia). split; [|lia].
    replace (97 <=? 97 + (v - 10)) with true by (symmetry; apply N.leb_le; lia).
    replace (97 + (v - 10) <=? 102) with true by (symmetry; apply N.leb_le; lia).
    by rewrite orb_true_r.
Qed.

Lemma byte_nibbles b : b < 256 ->
  N.shiftr b 4 < 16 /\ N.land b 0x0f < 16
  /\ N.lor (N.shiftl (N.shiftr b 4) 4) (N.land b 0x0f) = b.
Proof.
  intros Hb. split_and!.
  - rewrite N.shiftr_div_pow2. apply N.Div0.div_lt_upper_bound. change (2 ^ 4) with 16. lia.
  - change 0x0f with (N.ones 4). rewrite N.land_ones. apply N.mod_lt. done.
  - change 0x0f with (N.ones 4). rewrite <- N.ldiff_ones_r. apply N.lor_ldiff_and.
Qed.

Lemma encode_sha256_hex_ok bs :
  Forall (fun b => b < 256) bs ->
  Forall (fun c => c < 0x80) (encode_sha256_hex bs)
  /\ forallb hexdigit_byte (encode_sha256_hex bs) = true
  /\ count (encode_sha256_hex bs) = 2 * count bs
  /\ decode_chunks (encode_sha256_hex bs) = Ok bs.
Proof.
  induction 1 as [|b bs Hb _ (Ha & Hh & Hc & Hd)]; [done|].
  destruct (byte_nibbles b Hb) as (Hhi & Hlo & Hor).
  destruct (hex_digit_hexdigit _ Hhi) as [Hh1 Ha1].
  destruct (hex_digit_hexdigit _ Hlo) as [Hh2 Ha2].
  change (encode_sha256_hex (b :: bs)) with
    (hex_digit (N.shiftr b 4) :: hex_digit (N.land b 0x0f) :: encode_sha256_hex bs).
  split_and!.
  - by repeat constructor.
  - cbn [forallb]. by rewrite Hh1, Hh2.
  - rewrite !count_cons. lia.
  - cbn [decode_chunks]. rewrite !hex_value_digit by done. cbn [rbind]. rewrite Hd. cbn [rbind].
    by rewrite Hor.
Qed.

(** ** Properties *)

(** a 32-byte image digest survives its wire form: the hex text it is
    serialised to decodes to the same 32 bytes. *)
Theorem image_digest_roundtrip (digest : list N)
    (Hlen : length digest = 32%nat) (Hb : Forall (fun b => b < 256) digest) :
  decode_sha256_hex (encode_sha256_hex digest) = Ok digest
  /\ len (encode_sha256_hex digest) = 64.
Proof.
  destruct (encode_sha256_hex_ok digest Hb) as (Ha & Hh & Hc & Hd).
  assert (len (encode_sha256_hex digest) = 64) as Hl.
  { unfold len. rewrite bytes_ascii by done. rewrite Hc. unfold count. by rewrite Hlen. }
  split; [|done]. unfold decode_sha256_hex. rewrite Hl, bytes_ascii by done. by rewrite Hh.
Qed.

Lemma image_digest_roundtrip_witness :
  decode_sha256_hex (encode_sha256_hex (repeat 171 32)) = Ok (repeat 171 32).
Proof.
  apply (image_digest_roundtrip (repeat 171 32)); [reflexivity|].
  repeat constructor.
Defined.

(** The bounded wait map: as long as fewer than 64 waits are pending a new
    pending wait is always admitted, the map never grows past 64 entries, no
    pending wait is ever evicted and nothing but the new record appears. *)
Theorem bounded_insert_wait_capacity (s : ProviderSessionProjection) (c : CommandId)
    (r : ProviderWaitRecord)
    (Hsz : msize (ps_waits s) <= MAX_PROVIDER_WAITS)
    (Hroom : count (pending_waits (ps_waits s)) < MAX_PROVIDER_WAITS)
    (Hp : wr_pending r = true) :
  exists s', bounded_insert_wait s c r = Ok s'
    /\ msize (ps_waits s') <= MAX_PROVIDER_WAITS
    /\ ps_waits s' !! c = Some r
    /\ (forall k w, k <> c -> ps_waits s !! k = Some w -> wr_pending w = true ->
          ps_waits s' !! k = Some w)
    /\ (forall k w, k <> c -> ps_waits s' !! k = Some w -> ps_waits s !! k = Some w).
Proof.
  destruct (bounded_insert_wait_progress s c r Hroom) as [s' Hs']. exists s'.
  split; [done|]. apply bounded_insert_wait_Ok in Hs' as (_ & ? & ? & ? & ?); [done|done|by right].
Qed.

Definition sample_fence (c : CommandId) (op : OperationId) : ProviderWaitFence :=
  wait_fence_with_identity c 1 op 0 10 ClaudeCode (Some (lit "sess")) 0 7 None None.

Lemma bounded_insert_wait_capacity_witness :
  exists s', bounded_insert_wait session_default 5
               {| wr_fence := sample_fence 5 6; wr_pending := true |} = Ok s'.
Proof.
  destruct (bounded_insert_wait_capacity session_default 5
              {| wr_fence := sample_fence 5 6; wr_pending := true |}) as (s' & Hs & _);
    [by vm_compute..|].
  by exists s'.
Defined.
