(* ===== verification/Browser.v ===== *)
(** The task-owned browser book: identities, the durable fact journal, bounded
    admission, host settlement and its authority chain ([browser.rs]). *)
From S2P Require Import Prelude Canonical Task Artifact.

(** ** Code outside the crate: the URL parser *)

Record Url := {
  url_scheme : text;
  url_username : text;
  url_password : option text;
  url_host_str : option text;
  url_port : option N;
  url_query : option text;
  url_fragment : option text;
}.

(** [Url::parse] *)
Class UrlParser := url_parse : text -> option Url.

Definition MAX_BROWSER_JOURNAL_FACTS : N := 1000.
Definition MAX_BROWSER_OPEN_TASKS : N := 32.
Definition MAX_BROWSER_CONTEXTS : N := 32.
Definition MAX_BROWSER_TABS : N := 32.
Definition MAX_BROWSER_RECEIPTS : N := 256.
Definition MAX_BROWSER_FACT_URL_BYTES : N := 2048.
Definition MAX_BROWSER_IDENTITY_BYTES : N := 256.
Definition MAX_BROWSER_DIMENSION : N := 32768.

Inductive BrowserContractError :=
| BrCrossTask
| BrGenerationMismatch
| BrClosedTask
| BrIdempotencyConflict
| BrBoundExceeded
| BrInvalidRequest
| BrHostEffectUnavailable.

#[export] Instance BrowserContractError_eq_dec : EqDecision BrowserContractError.
Proof. solve_decision. Defined.

Inductive BrowserIntegrationHold :=
| WebViewSurfaceAbsent
| BrowserServiceAbsent
| HostCapabilityUngranted.

(** ** Permissions, health, tabs, actions *)

Inductive BrowserPermission :=
| PermCreateContext | PermCloseContext | PermOpenTab | PermCloseTab | PermSelectTab
| PermNavigate | PermHistory | PermSetBounds | PermSetVisibility | PermSetFocus | PermCapture
| PermAutomate | PermDownload | PermClipboard | PermFileChooser | PermSecretFill
| PermPermissionDecide | PermRecord | PermReplay | PermCancel | PermRecover | PermLinkArtifact.

#[export] Instance BrowserPermission_eq_dec : EqDecision BrowserPermission.
Proof. solve_decision. Defined.

Definition all_permissions : list BrowserPermission :=
  [ PermCreateContext; PermCloseContext; PermOpenTab; PermCloseTab; PermSelectTab;
    PermNavigate; PermHistory; PermSetBounds; PermSetVisibility; PermSetFocus; PermCapture;
    PermAutomate; PermDownload; PermClipboard; PermFileChooser; PermSecretFill;
    PermPermissionDecide; PermRecord; PermReplay; PermCancel; PermRecover; PermLinkArtifact ].

Lemma all_permissions_complete p : p ∈ all_permissions.
Proof. destruct p; unfold all_permissions; repeat (left || right). Qed.

#[export] Instance BrowserPermission_finite : finite.Finite BrowserPermission.
Proof.
  refine {| finite.enum := all_permissions |}.
  - by apply (bool_decide_unpack _); vm_compute.
  - apply all_permissions_complete.
Defined.

Inductive BrowserHealth := Healthy | Recovering | Interrupted.
Inductive BrowserTabKind := TabPage | TabPopup (opener : BrowserTabId).

#[export] Instance BrowserHealth_eq_dec : EqDecision BrowserHealth.
Proof. solve_decision. Defined.
#[export] Instance BrowserTabKind_eq_dec : EqDecision BrowserTabKind.
Proof. solve_decision. Defined.

Inductive BrowserAction :=
| ActCreateContext
| ActCloseContext
| ActOpenTab (url : text) (kind : BrowserTabKind)
| ActCloseTab
| ActSelectTab
| ActNavigate (url : text)
| ActBack
| ActForward
| ActReload
| ActStop
| ActSetBounds (width height : N)
| ActSetVisibility (visible : bool)
| ActSetFocus (focused : bool)
| ActCapture
| ActAutomate
| ActDecideDownload (allow : bool)
| ActReadClipboard
| ActWriteClipboard
| ActChooseFile (artifact_id : ArtifactId)
| ActFillSecret (vault_ref field_selector : text)
| ActDecidePermission (permission : BrowserPermission) (allowed : bool)
| ActRecord
| ActReplay
| ActCancel
| ActRecover
| ActLinkArtifact (artifact_id : ArtifactId).

#[export] Instance BrowserAction_eq_dec : EqDecision BrowserAction.
Proof. solve_decision. Defined.

Definition privacy_class (a : BrowserAction) : PrivacyClass :=
  match a with
  | ActOpenTab _ _ | ActNavigate _ | ActBack | ActForward | ActReload | ActStop | ActCapture
  | ActAutomate | ActDecideDownload _ | ActReadClipboard | ActWriteClipboard
  | ActFillSecret _ _ | ActRecord | ActReplay => LocalOnly
  | _ => Shareable
  end.

Definition required_permission (a : BrowserAction) : BrowserPermission :=
  match a with
  | ActCreateContext => PermCreateContext
  | ActCloseContext => PermCloseContext
  | ActOpenTab _ _ => PermOpenTab
  | ActCloseTab => PermCloseTab
  | ActSelectTab => PermSelectTab
  | ActNavigate _ => PermNavigate
  | ActBack | ActForward | ActReload | ActStop => PermHistory
  | ActSetBounds _ _ => PermSetBounds
  | ActSetVisibility _ => PermSetVisibility
  | ActSetFocus _ => PermSetFocus
  | ActCapture => PermCapture
  | ActAutomate => PermAutomate
  | ActDecideDownload _ => PermDownload
  | ActReadClipboard | ActWriteClipboard => PermClipboard
  | ActChooseFile _ => PermFileChooser
  | ActFillSecret _ _ => PermSecretFill
  | ActDecidePermission _ _ => PermPermissionDecide
  | ActRecord => PermRecord
  | ActReplay => PermReplay
  | ActCancel => PermCancel
  | ActRecover => PermRecover
  | ActLinkArtifact _ => PermLinkArtifact
  end.

Definition action_url (a : BrowserAction) : option text :=
  match a with
  | ActOpenTab url _ | ActNavigate url => Some url
  | _ => None
  end.

Definition requires_host_settlement (a : BrowserAction) : bool :=
  match a with
  | ActNavigate _ | ActBack | ActForward | ActReload | ActStop | ActSetBounds _ _
  | ActSetVisibility _ | ActSetFocus _ | ActCapture | ActAutomate | ActDecideDownload _
  | ActReadClipboard | ActWriteClipboard | ActChooseFile _ | ActFillSecret _ _
  | ActDecidePermission _ _ | ActRecord | ActReplay | ActCancel | ActRecover => true
  | _ => false
  end.

(** ** Durable facts *)

Inductive BrowserDurableFact :=
| FactRequestAccepted (request_id : BrowserRequestId) (task_id : TaskId)
    (context_id : BrowserContextId) (tab_id : option BrowserTabId) (generation : N)
    (action : BrowserAction) (privacy : PrivacyClass) (permission : BrowserPermission)
    (payload_hash : list N) (action_epoch : N) (command_id : option CommandId)
| FactContextCreated (context_id : BrowserContextId) (task_id : TaskId) (generation : N)
| FactContextClosed (context_id : BrowserContextId) (task_id : TaskId) (generation : N)
| FactTabOpened (tab_id : BrowserTabId) (context_id : BrowserContextId) (task_id : TaskId)
    (kind : BrowserTabKind) (url : text)
| FactTabClosed (tab_id : BrowserTabId) (context_id : BrowserContextId) (task_id : TaskId)
| FactTabSelected (tab_id : BrowserTabId) (context_id : BrowserContextId) (task_id : TaskId)
| FactNavigationCommitted (tab_id : BrowserTabId) (context_id : BrowserContextId)
    (task_id : TaskId) (url document_id : text)
| FactPermissionDecided (context_id : BrowserContextId) (task_id : TaskId)
    (permission : BrowserPermission) (allowed : bool)
| FactArtifactLinked (context_id : BrowserContextId) (task_id : TaskId) (artifact_id : ArtifactId)
| FactRecipeIdentified (context_id : BrowserContextId) (task_id : TaskId) (recipe_id : text)
| FactRecordingIdentified (context_id : BrowserContextId) (task_id : TaskId) (recording_id : text)
| FactDownloadSettled (context_id : BrowserContextId) (task_id : TaskId) (allowed : bool)
    (file_name : text) (sha256_hex : option text) (artifact_id : option ArtifactId)
| FactHealthTransitioned (context_id : BrowserContextId) (task_id : TaskId)
    (from to : BrowserHealth) (generation : N).

#[export] Instance BrowserDurableFact_eq_dec : EqDecision BrowserDurableFact.
Proof. solve_decision. Defined.

Definition fact_task_id (f : BrowserDurableFact) : TaskId :=
  match f with
  | FactRequestAccepted _ t _ _ _ _ _ _ _ _ _
  | FactContextCreated _ t _ | FactContextClosed _ t _ | FactTabOpened _ _ t _ _
  | FactTabClosed _ _ t | FactTabSelected _ _ t | FactNavigationCommitted _ _ t _ _
  | FactPermissionDecided _ t _ _ | FactArtifactLinked _ t _ | FactRecipeIdentified _ t _
  | FactRecordingIdentified _ t _ | FactDownloadSettled _ t _ _ _ _
  | FactHealthTransitioned _ t _ _ _ => t
  end.

Definition is_request_accepted (f : BrowserDurableFact) : bool :=
  match f with FactRequestAccepted _ _ _ _ _ _ _ _ _ _ _ => true | _ => false end.

(** ** Requests, receipts, outcomes *)

Record BrowserRequest := {
  br_request_id : BrowserRequestId;
  br_task_id : TaskId;
  br_context_id : BrowserContextId;
  br_tab_id : option BrowserTabId;
  br_generation : N;
  br_action : BrowserAction;
}.

#[export] Instance BrowserRequest_eq_dec : EqDecision BrowserRequest.
Proof. solve_decision. Defined.

Record BrowserAcceptedReceipt := {
  ba_request_id : BrowserRequestId;
  ba_command_id : option CommandId;
  ba_task_id : TaskId;
  ba_context_id : BrowserContextId;
  ba_tab_id : option BrowserTabId;
  ba_generation : N;
  ba_action : BrowserAction;
  ba_facts : list BrowserDurableFact;
  ba_privacy_class : PrivacyClass;
  ba_permission : BrowserPermission;
  ba_payload_hash : list N;
  ba_action_epoch : N;
}.

#[export] Instance BrowserAcceptedReceipt_eq_dec : EqDecision BrowserAcceptedReceipt.
Proof. solve_decision. Defined.

Definition with_receipt_facts (r : BrowserAcceptedReceipt) (facts : list BrowserDurableFact)
    : BrowserAcceptedReceipt :=
  {| ba_request_id := ba_request_id r; ba_command_id := ba_command_id r;
     ba_task_id := ba_task_id r; ba_context_id := ba_context_id r; ba_tab_id := ba_tab_id r;
     ba_generation := ba_generation r; ba_action := ba_action r; ba_facts := facts;
     ba_privacy_class := ba_privacy_class r; ba_permission := ba_permission r;
     ba_payload_hash := ba_payload_hash r; ba_action_epoch := ba_action_epoch r |}.

Definition bind_fact (command_id : CommandId) (epoch : N) (f : BrowserDurableFact)
    : BrowserDurableFact :=
  match f with
  | FactRequestAccepted r t c tab g a p perm h _ _ =>
      FactRequestAccepted r t c tab g a p perm h epoch (Some command_id)
  | f => f
  end.

Definition bind_command (r : BrowserAcceptedReceipt) (command_id : CommandId) (action_epoch : N)
    : BrowserAcceptedReceipt :=
  {| ba_request_id := ba_request_id r; ba_command_id := Some command_id;
     ba_task_id := ba_task_id r; ba_context_id := ba_context_id r; ba_tab_id := ba_tab_id r;
     ba_generation := ba_generation r; ba_action := ba_action r;
     ba_facts := map (bind_fact command_id action_epoch) (ba_facts r);
     ba_privacy_class := ba_privacy_class r; ba_permission := ba_permission r;
     ba_payload_hash := ba_payload_hash r; ba_action_epoch := action_epoch |}.

Inductive BrowserSettlement :=
| SetNavigationCommitted (url document_id : text)
| SetPermissionDecided (permission : BrowserPermission) (allowed : bool)
| SetRecovered (generation : N)
| SetRecipeIdentified (recipe_id : text)
| SetRecordingIdentified (recording_id : text).

#[export] Instance BrowserSettlement_eq_dec : EqDecision BrowserSettlement.
Proof. solve_decision. Defined.

Record BrowserHostOutcome := {
  bo_request_id : BrowserRequestId;
  bo_task_id : TaskId;
  bo_context_id : BrowserContextId;
  bo_tab_id : option BrowserTabId;
  bo_generation : N;
  bo_settlement : BrowserSettlement;
}.

(** ** Views and pages *)

Record BrowserContextView := {
  cv_context_id : BrowserContextId;
  cv_task_id : TaskId;
  cv_generation : N;
  cv_selected_tab_id : option BrowserTabId;
  cv_health : BrowserHealth;
  cv_closed : bool;
  cv_permissions : gmap BrowserPermission bool;
  cv_linked_artifacts : gset N;
  cv_recipe_id : option text;
  cv_recording_id : option text;
}.

Record BrowserTabView := {
  tv_tab_id : BrowserTabId;
  tv_context_id : BrowserContextId;
  tv_task_id : TaskId;
  tv_kind : BrowserTabKind;
  tv_committed_url : option text;
  tv_closed : bool;
}.

Record BrowserIdentitySnapshot := {
  is_contexts : list BrowserContextView;
  is_tabs : list BrowserTabView;
}.

Inductive BrowserSnapshotSection := SectionContexts | SectionTabs.
Inductive BrowserPageKey := KeyContext (id : BrowserContextId) | KeyTab (id : BrowserTabId).
Inductive BrowserSnapshotRow := RowContext (v : BrowserContextView) | RowTab (v : BrowserTabView).

Record BrowserSnapshotPage := {
  pg_section : BrowserSnapshotSection;
  pg_after_item : option BrowserPageKey;
  pg_items : list BrowserSnapshotRow;
  pg_next_after : option BrowserPageKey;
  pg_next_cursor : option (list N);
  pg_examined : N;
  pg_encoded_bytes : N;
}.

(** [rmp_serde::to_vec_named] on the two values this module encodes. *)
Class BrowserWire := {
  rmp_request : BrowserRequest -> option (list N);
  rmp_rows : list BrowserSnapshotRow -> option (list N);
}.

(** ** The book *)

Record ContextState := {
  cs_task_id : TaskId;
  cs_generation : N;
  cs_selected_tab_id : option BrowserTabId;
  cs_health : BrowserHealth;
  cs_closed : bool;
  cs_permissions : gmap BrowserPermission bool;
  cs_linked_artifacts : gset N;
  cs_recipe_id : option text;
  cs_recording_id : option text;
}.

#[export] Instance ContextState_eq_dec : EqDecision ContextState.
Proof. solve_decision. Defined.

Record TabState := {
  ts_context_id : BrowserContextId;
  ts_task_id : TaskId;
  ts_kind : BrowserTabKind;
  ts_committed_url : option text;
  ts_closed : bool;
}.

#[export] Instance TabState_eq_dec : EqDecision TabState.
Proof. solve_decision. Defined.

Definition context_state_view (c : ContextState) (id : BrowserContextId) : BrowserContextView :=
  {| cv_context_id := id; cv_task_id := cs_task_id c; cv_generation := cs_generation c;
     cv_selected_tab_id := cs_selected_tab_id c; cv_health := cs_health c;
     cv_closed := cs_closed c; cv_permissions := cs_permissions c;
     cv_linked_artifacts := cs_linked_artifacts c; cv_recipe_id := cs_recipe_id c;
     cv_recording_id := cs_recording_id c |}.

Definition tab_state_view (t : TabState) (id : BrowserTabId) : BrowserTabView :=
  {| tv_tab_id := id; tv_context_id := ts_context_id t; tv_task_id := ts_task_id t;
     tv_kind := ts_kind t; tv_committed_url := ts_committed_url t; tv_closed := ts_closed t |}.

Record StoredReceipt := {
  rc_request : BrowserRequest;
  rc_accepted : BrowserAcceptedReceipt;
  rc_settled : bool;
  rc_settlement : option BrowserSettlement;
}.

#[export] Instance StoredReceipt_eq_dec : EqDecision StoredReceipt.
Proof. solve_decision. Defined.

Record BrowserBook := {
  bk_ready : bool;
  bk_open_tasks : gset N;
  bk_contexts : gmap N ContextState;
  bk_tabs : gmap N TabState;
  bk_facts : list BrowserDurableFact;
  bk_receipts : gmap N StoredReceipt;
}.

#[export] Instance BrowserBook_eq_dec : EqDecision BrowserBook.
Proof. solve_decision. Defined.

Definition book_default : BrowserBook :=
  {| bk_ready := false; bk_open_tasks := ∅; bk_contexts := ∅; bk_tabs := ∅; bk_facts := [];
     bk_receipts := ∅ |}.

Definition book_new : BrowserBook :=
  {| bk_ready := true; bk_open_tasks := ∅; bk_contexts := ∅; bk_tabs := ∅; bk_facts := [];
     bk_receipts := ∅ |}.

Definition with_contexts (b : BrowserBook) (c : gmap N ContextState) : BrowserBook :=
  {| bk_ready := bk_ready b; bk_open_tasks := bk_open_tasks b; bk_contexts := c;
     bk_tabs := bk_tabs b; bk_facts := bk_facts b; bk_receipts := bk_receipts b |}.
Definition with_tabs (b : BrowserBook) (t : gmap N TabState) : BrowserBook :=
  {| bk_ready := bk_ready b; bk_open_tasks := bk_open_tasks b; bk_contexts := bk_contexts b;
     bk_tabs := t; bk_facts := bk_facts b; bk_receipts := bk_receipts b |}.
Definition with_facts (b : BrowserBook) (f : list BrowserDurableFact) : BrowserBook :=
  {| bk_ready := bk_ready b; bk_open_tasks := bk_open_tasks b; bk_contexts := bk_contexts b;
     bk_tabs := bk_tabs b; bk_facts := f; bk_receipts := bk_receipts b |}.
Definition with_receipts (b : BrowserBook) (r : gmap N StoredReceipt) : BrowserBook :=
  {| bk_ready := bk_ready b; bk_open_tasks := bk_open_tasks b; bk_contexts := bk_contexts b;
     bk_tabs := bk_tabs b; bk_facts := bk_facts b; bk_receipts := r |}.
Definition with_open_tasks (b : BrowserBook) (o : gset N) : BrowserBook :=
  {| bk_ready := bk_ready b; bk_open_tasks := o; bk_contexts := bk_contexts b;
     bk_tabs := bk_tabs b; bk_facts := bk_facts b; bk_receipts := bk_receipts b |}.

(** ** Validation *)

Definition validate_url `{UrlParser} (raw : text) : result unit BrowserContractError :=
  if raw =?= lit "about:blank" then Ok tt
  else
    ensure negb (MAX_BROWSER_FACT_URL_BYTES <? len raw) else BrBoundExceeded ;;
    let? parsed := ok_or (url_parse raw) BrInvalidRequest in
    ensure negb (negb (is_empty (url_username parsed)) || is_some (url_password parsed))
      else BrInvalidRequest ;;
    ensure negb (is_some (url_query parsed) || is_some (url_fragment parsed))
      else BrInvalidRequest ;;
    ensure ((url_scheme parsed =?= lit "http") || (url_scheme parsed =?= lit "https"))
           && is_some (url_host_str parsed) else BrInvalidRequest ;;
    Ok tt.

Definition validate_identity (value : text) : result unit BrowserContractError :=
  ensure negb (is_empty value) else BrInvalidRequest ;;
  ensure negb (MAX_BROWSER_IDENTITY_BYTES <? len value) else BrBoundExceeded ;;
  Ok tt.

(** [format!] of scheme, host and port *)
Definition shareable_origin `{UrlParser} (raw : text) : option text :=
  match url_parse raw with
  | None => None
  | Some parsed =>
      match url_host_str parsed with
      | None => None
      | Some host =>
          Some (match url_port parsed with
                | Some port =>
                    url_scheme parsed ++ lit "://" ++ host ++ lit ":" ++ lit (pretty port) ++ lit "/"
                | None => url_scheme parsed ++ lit "://" ++ host ++ lit "/"
                end)
      end
  end.

Definition browser_wire_committed_url `{UrlParser} (raw : text)
    : result text BrowserContractError :=
  try? validate_url raw ;;
  ok_or (shareable_origin raw) BrInvalidRequest.

(** ** Views, tasks and pages *)

Definition identity_snapshot (b : BrowserBook) : BrowserIdentitySnapshot :=
  {| is_contexts := map (fun kc => context_state_view (snd kc) (fst kc))
                      (sorted_entries (bk_contexts b));
     is_tabs := map (fun kt => tab_state_view (snd kt) (fst kt)) (sorted_entries (bk_tabs b)) |}.

Definition open_task (b : BrowserBook) (task_id : TaskId)
    : result BrowserBook BrowserContractError :=
  if bool_decide (task_id ∈ bk_open_tasks b) then Ok b
  else if MAX_BROWSER_OPEN_TASKS <=? N.of_nat (size (bk_open_tasks b)) then Err BrBoundExceeded
  else Ok (with_open_tasks b ({[task_id]} ∪ bk_open_tasks b)).

Definition project_context_view (b : BrowserBook) (v : BrowserContextView)
    : result BrowserBook BrowserContractError :=
  let? b := open_task b (cv_task_id v) in
  ensure is_none (bk_contexts b !! cv_context_id v) else BrInvalidRequest ;;
  ensure negb (MAX_BROWSER_CONTEXTS <=? msize (bk_contexts b)) else BrBoundExceeded ;;
  Ok (with_contexts b (<[cv_context_id v :=
        {| cs_task_id := cv_task_id v; cs_generation := cv_generation v;
           cs_selected_tab_id := cv_selected_tab_id v; cs_health := cv_health v;
           cs_closed := cv_closed v; cs_permissions := cv_permissions v;
           cs_linked_artifacts := cv_linked_artifacts v; cs_recipe_id := cv_recipe_id v;
           cs_recording_id := cv_recording_id v |}]> (bk_contexts b))).

Definition project_tab_view (b : BrowserBook) (v : BrowserTabView)
    : result BrowserBook BrowserContractError :=
  let? b := open_task b (tv_task_id v) in
  let? context := ok_or (bk_contexts b !! tv_context_id v) BrInvalidRequest in
  ensure negb (negb (cs_task_id context =? tv_task_id v) || is_some (bk_tabs b !! tv_tab_id v))
    else BrInvalidRequest ;;
  ensure negb (MAX_BROWSER_TABS <=? msize (bk_tabs b)) else BrBoundExceeded ;;
  Ok (with_tabs b (<[tv_tab_id v :=
        {| ts_context_id := tv_context_id v; ts_task_id := tv_task_id v; ts_kind := tv_kind v;
           ts_committed_url := tv_committed_url v; ts_closed := tv_closed v |}]> (bk_tabs b))).

(** [page_encoded_bytes]: the page with one more row *)
Definition page_encoded_bytes `{BrowserWire} (items : list BrowserSnapshotRow)
    (extra : BrowserSnapshotRow) : result N BrowserContractError :=
  let? bytes := ok_or (rmp_rows (items ++ [extra])) BrBoundExceeded in
  ensure count bytes <=? 4294967295 else BrBoundExceeded ;;
  Ok (count bytes).

(** The row loop shared by the two sections: [rows] are the keyed rows after
    the cursor, in key order. *)
Fixpoint page_rows `{BrowserWire} (take max_encoded_bytes : N)
    (rows : list (BrowserPageKey * BrowserSnapshotRow))
    (items : list BrowserSnapshotRow) (examined : N)
    : result (list BrowserSnapshotRow * option BrowserPageKey * N) BrowserContractError :=
  match rows with
  | [] => Ok (items, None, examined)
  | (key, row) :: rest =>
      let examined := examined + 1 in
      if count items =? take then Ok (items, Some key, examined)
      else
        let? encoded := page_encoded_bytes items row in
        if max_encoded_bytes <? encoded then
          if is_empty items then Err BrBoundExceeded
          else Ok (items, Some key, examined)
        else page_rows take max_encoded_bytes rest (items ++ [row]) examined
  end.

(** [range((start, Unbounded))] with an excluded or absent start *)
Definition entries_after {A} (m : gmap N A) (start : option N) : list (N * A) :=
  List.filter (fun kv => match start with Some s => s <? fst kv | None => true end)
    (sorted_entries m).

Definition page_start (section : BrowserSnapshotSection) (after : option BrowserPageKey)
    : result (option N) BrowserContractError :=
  match section, after with
  | SectionContexts, Some (KeyContext id) => Ok (Some id)
  | SectionTabs, Some (KeyTab id) => Ok (Some id)
  | _, None => Ok None
  | _, Some _ => Err BrInvalidRequest
  end.

Definition keyed_rows (b : BrowserBook) (section : BrowserSnapshotSection) (start : option N)
    : list (BrowserPageKey * BrowserSnapshotRow) :=
  match section with
  | SectionContexts =>
      map (fun kc => (KeyContext (fst kc), RowContext (context_state_view (snd kc) (fst kc))))
        (entries_after (bk_contexts b) start)
  | SectionTabs =>
      map (fun kt => (KeyTab (fst kt), RowTab (tab_state_view (snd kt) (fst kt))))
        (entries_after (bk_tabs b) start)
  end.

(** [id.as_bytes()]: the 16 big-endian bytes of the UUID *)
Definition key_bytes (k : BrowserPageKey) : list N :=
  match k with KeyContext id | KeyTab id => rev (le_bytes 16 id) end.

Definition snapshot_page `{BrowserWire} (b : BrowserBook) (section : BrowserSnapshotSection)
    (after : option BrowserPageKey) (max_items max_encoded_bytes : N)
    : result BrowserSnapshotPage BrowserContractError :=
  ensure negb ((max_items =? 0) || (max_encoded_bytes =? 0)) else BrBoundExceeded ;;
  let? start := page_start section after in
  let? page := page_rows max_items max_encoded_bytes (keyed_rows b section start) [] 0 in
  let '(items, next_after, examined) := page in
  let? encoded := ok_or (rmp_rows items) BrBoundExceeded in
  Ok {| pg_section := section; pg_after_item := after; pg_items := items;
        pg_next_after := next_after; pg_next_cursor := key_bytes <$> next_after;
        pg_examined := examined;
        pg_encoded_bytes := N.min (count encoded) 4294967295 |}.

(** ** Admission *)

Definition require_context_ids (b : BrowserBook) (task_id : TaskId)
    (context_id : BrowserContextId) (generation : N)
    : result ContextState BrowserContractError :=
  let? context := ok_or (bk_contexts b !! context_id) BrInvalidRequest in
  ensure cs_task_id context =? task_id else BrCrossTask ;;
  ensure negb (cs_closed context) else BrInvalidRequest ;;
  ensure cs_generation context =? generation else BrGenerationMismatch ;;
  Ok context.

Definition require_context (b : BrowserBook) (r : BrowserRequest)
    : result ContextState BrowserContractError :=
  require_context_ids b (br_task_id r) (br_context_id r) (br_generation r).

Definition tab_id_of (r : BrowserRequest) : result BrowserTabId BrowserContractError :=
  ok_or (br_tab_id r) BrInvalidRequest.

Definition require_tab (b : BrowserBook) (r : BrowserRequest)
    : result TabState BrowserContractError :=
  try? require_context b r ;;
  let? tab_id := tab_id_of r in
  let? tab := ok_or (bk_tabs b !! tab_id) BrInvalidRequest in
  ensure ts_task_id tab =? br_task_id r else BrCrossTask ;;
  ensure negb (negb (ts_context_id tab =? br_context_id r) || ts_closed tab)
    else BrInvalidRequest ;;
  Ok tab.

Definition open_tab_count (b : BrowserBook) : N :=
  count (List.filter (fun kt => negb (ts_closed (snd kt))) (map_to_list (bk_tabs b))).

Definition plan_create_context (b : BrowserBook) (r : BrowserRequest)
    : result (list BrowserDurableFact) BrowserContractError :=
  ensure br_generation r =? 1 else BrGenerationMismatch ;;
  try? match bk_contexts b !! br_context_id r with
       | Some existing =>
           Err (if cs_task_id existing =? br_task_id r then BrInvalidRequest else BrCrossTask)
       | None => Ok tt
       end ;;
  ensure negb (MAX_BROWSER_CONTEXTS <=? msize (bk_contexts b)) else BrBoundExceeded ;;
  Ok [FactContextCreated (br_context_id r) (br_task_id r) 1].

Definition plan_close_context (b : BrowserBook) (r : BrowserRequest)
    : result (list BrowserDurableFact) BrowserContractError :=
  let close :=
    let? context := require_context b r in
    Ok (map (fun kt => FactTabClosed (fst kt) (br_context_id r) (br_task_id r))
          (List.filter (fun kt => (ts_context_id (snd kt) =? br_context_id r)
                                  && negb (ts_closed (snd kt)))
             (sorted_entries (bk_tabs b)))
        ++ [FactContextClosed (br_context_id r) (br_task_id r) (cs_generation context)]) in
  match bk_contexts b !! br_context_id r with
  | Some existing =>
      if negb (cs_task_id existing =? br_task_id r) then Err BrCrossTask
      else if cs_closed existing then Ok []
      else close
  | None => close
  end.

Definition popup_opener_ok (b : BrowserBook) (r : BrowserRequest) (kind : BrowserTabKind)
    : result unit BrowserContractError :=
  match kind with
  | TabPage => Ok tt
  | TabPopup opener =>
      let? parent := ok_or (bk_tabs b !! opener) BrInvalidRequest in
      ensure negb (ts_closed parent || negb (ts_context_id parent =? br_context_id r)
                   || negb (ts_task_id parent =? br_task_id r)) else BrInvalidRequest ;;
      Ok tt
  end.

Definition plan_open_tab (b : BrowserBook) (r : BrowserRequest) (url : text)
    (kind : BrowserTabKind) : result (list BrowserDurableFact) BrowserContractError :=
  let? context := require_context b r in
  let? tab_id := ok_or (br_tab_id r) BrInvalidRequest in
  ensure is_none (bk_tabs b !! tab_id) else BrInvalidRequest ;;
  ensure negb (MAX_BROWSER_TABS <=? open_tab_count b) else BrBoundExceeded ;;
  try? popup_opener_ok b r kind ;;
  Ok (FactTabOpened tab_id (br_context_id r) (br_task_id r) kind url
      :: if is_none (cs_selected_tab_id context)
         then [FactTabSelected tab_id (br_context_id r) (br_task_id r)]
         else []).

Definition plan_identity_facts (b : BrowserBook) (r : BrowserRequest)
    : result (list BrowserDurableFact) BrowserContractError :=
  match br_action r with
  | ActCreateContext => plan_create_context b r
  | ActCloseContext => plan_close_context b r
  | ActOpenTab url kind => plan_open_tab b r url kind
  | ActCloseTab =>
      let? tab := require_tab b r in
      let? tab_id := tab_id_of r in
      Ok [FactTabClosed tab_id (ts_context_id tab) (br_task_id r)]
  | ActSelectTab =>
      let? tab := require_tab b r in
      let? tab_id := tab_id_of r in
      Ok [FactTabSelected tab_id (ts_context_id tab) (br_task_id r)]
  | ActLinkArtifact artifact_id =>
      try? require_context b r ;;
      Ok [FactArtifactLinked (br_context_id r) (br_task_id r) artifact_id]
  | _ =>
      try? (if is_some (br_tab_id r) then rmap (fun _ => tt) (require_tab b r)
            else rmap (fun _ => tt) (require_context b r)) ;;
      Ok []
  end.

Definition request_payload_hash `{Sha256} `{BrowserWire} (r : BrowserRequest) : list N :=
  sha256 (match rmp_request r with Some bytes => bytes | None => [] end).

(** The receipt returned for a request id the book has already accepted. *)
Definition replayed_receipt (prior : StoredReceipt) : BrowserAcceptedReceipt :=
  let replay := rc_accepted prior in
  let facts := List.filter is_request_accepted (ba_facts replay) in
  with_receipt_facts replay
    (if is_empty facts then
       [FactRequestAccepted (ba_request_id replay) (ba_task_id replay) (ba_context_id replay)
          (ba_tab_id replay) (ba_generation replay) (ba_action replay)
          (ba_privacy_class replay) (ba_permission replay) (ba_payload_hash replay)
          (ba_action_epoch replay) (ba_command_id replay)]
     else facts).

Definition accepted_fact `{Sha256} `{BrowserWire} (r : BrowserRequest) : BrowserDurableFact :=
  FactRequestAccepted (br_request_id r) (br_task_id r) (br_context_id r) (br_tab_id r)
    (br_generation r) (br_action r) (privacy_class (br_action r))
    (required_permission (br_action r)) (request_payload_hash r) 0 None.

(** The checks on the payload of a request: URL, secret references, bounds. *)
Definition request_payload_ok `{UrlParser} (a : BrowserAction) : result unit BrowserContractError :=
  try? match action_url a with Some url => validate_url url | None => Ok tt end ;;
  try? match a with
       | ActFillSecret vault_ref field_selector =>
           try? validate_identity vault_ref ;;
           validate_identity field_selector
       | _ => Ok tt
       end ;;
  match a with
  | ActSetBounds width height =>
      ensure negb ((width =? 0) || (height =? 0) || (MAX_BROWSER_DIMENSION <? width)
                   || (MAX_BROWSER_DIMENSION <? height)) else BrInvalidRequest ;;
      Ok tt
  | _ => Ok tt
  end.

Definition plan_admit `{Sha256} `{UrlParser} `{BrowserWire} (b : BrowserBook) (r : BrowserRequest)
    : result BrowserAcceptedReceipt BrowserContractError :=
  ensure bk_ready b else BrHostEffectUnavailable ;;
  match bk_receipts b !! br_request_id r with
  | Some prior =>
      if rc_request prior =?= r then Ok (replayed_receipt prior) else Err BrIdempotencyConflict
  | None =>
      ensure bool_decide (br_task_id r ∈ bk_open_tasks b) else BrClosedTask ;;
      ensure negb (MAX_BROWSER_RECEIPTS <=? msize (bk_receipts b)) else BrBoundExceeded ;;
      ensure negb (br_generation r =? 0) else BrGenerationMismatch ;;
      try? request_payload_ok (br_action r) ;;
      let? identity := plan_identity_facts b r in
      ensure negb (MAX_BROWSER_JOURNAL_FACTS <?
                   saturating_add (count (bk_facts b)) (saturating_add (count identity) 1))
        else BrBoundExceeded ;;
      Ok {| ba_request_id := br_request_id r; ba_command_id := None;
            ba_task_id := br_task_id r; ba_context_id := br_context_id r;
            ba_tab_id := br_tab_id r; ba_generation := br_generation r;
            ba_action := br_action r; ba_facts := accepted_fact r :: identity;
            ba_privacy_class := privacy_class (br_action r);
            ba_permission := required_permission (br_action r);
            ba_payload_hash := request_payload_hash r; ba_action_epoch := 0 |}
  end.

(** ** Applying facts *)

Definition set_context (b : BrowserBook) (id : BrowserContextId) (c : ContextState) : BrowserBook :=
  with_contexts b (<[id := c]> (bk_contexts b)).

Definition context_upd (c : ContextState) (selected : option BrowserTabId) (closed : bool)
    (perms : gmap BrowserPermission bool) (linked : gset N) (recipe recording : option text)
    : ContextState :=
  {| cs_task_id := cs_task_id c; cs_generation := cs_generation c;
     cs_selected_tab_id := selected; cs_health := cs_health c; cs_closed := closed;
     cs_permissions := perms; cs_linked_artifacts := linked; cs_recipe_id := recipe;
     cs_recording_id := recording |}.

Definition context_select (c : ContextState) (t : option BrowserTabId) : ContextState :=
  context_upd c t (cs_closed c) (cs_permissions c) (cs_linked_artifacts c) (cs_recipe_id c)
    (cs_recording_id c).
Definition context_close (c : ContextState) : ContextState :=
  context_upd c (cs_selected_tab_id c) true (cs_permissions c) (cs_linked_artifacts c)
    (cs_recipe_id c) (cs_recording_id c).
Definition context_permit (c : ContextState) (p : BrowserPermission) (allowed : bool)
    : ContextState :=
  context_upd c (cs_selected_tab_id c) (cs_closed c) (<[p := allowed]> (cs_permissions c))
    (cs_linked_artifacts c) (cs_recipe_id c) (cs_recording_id c).
Definition context_link (c : ContextState) (a : ArtifactId) : ContextState :=
  context_upd c (cs_selected_tab_id c) (cs_closed c) (cs_permissions c)
    ({[a]} ∪ cs_linked_artifacts c) (cs_recipe_id c) (cs_recording_id c).
Definition context_recipe (c : ContextState) (r : text) : ContextState :=
  context_upd c (cs_selected_tab_id c) (cs_closed c) (cs_permissions c)
    (cs_linked_artifacts c) (Some r) (cs_recording_id c).
Definition context_recording (c : ContextState) (r : text) : ContextState :=
  context_upd c (cs_selected_tab_id c) (cs_closed c) (cs_permissions c)
    (cs_linked_artifacts c) (cs_recipe_id c) (Some r).
Definition context_health (c : ContextState) (h : BrowserHealth) (generation : N) : ContextState :=
  {| cs_task_id := cs_task_id c; cs_generation := generation;
     cs_selected_tab_id := cs_selected_tab_id c; cs_health := h; cs_closed := cs_closed c;
     cs_permissions := cs_permissions c; cs_linked_artifacts := cs_linked_artifacts c;
     cs_recipe_id := cs_recipe_id c; cs_recording_id := cs_recording_id c |}.

Definition tab_close (t : TabState) : TabState :=
  {| ts_context_id := ts_context_id t; ts_task_id := ts_task_id t; ts_kind := ts_kind t;
     ts_committed_url := ts_committed_url t; ts_closed := true |}.
Definition tab_navigate (t : TabState) (url : text) : TabState :=
  {| ts_context_id := ts_context_id t; ts_task_id := ts_task_id t; ts_kind := ts_kind t;
     ts_committed_url := Some url; ts_closed := ts_closed t |}.

(** [get_mut(context_id)] followed by the ownership test of most fact arms. *)
Definition owned_context (b : BrowserBook) (context_id : BrowserContextId) (task_id : TaskId)
    : result ContextState BrowserContractError :=
  let? context := ok_or (bk_contexts b !! context_id) BrInvalidRequest in
  ensure cs_task_id context =? task_id else BrCrossTask ;;
  Ok context.

Definition apply_request_accepted (b : BrowserBook) (request_id : BrowserRequestId)
    (task_id : TaskId) (context_id : BrowserContextId) (tab_id : option BrowserTabId)
    (generation : N) (action : BrowserAction) (privacy : PrivacyClass)
    (permission : BrowserPermission) (payload_hash : list N) (action_epoch : N)
    (command_id : option CommandId) : result BrowserBook BrowserContractError :=
  let owner :=
    match bk_contexts b !! context_id with
    | Some context => Some (cs_task_id context)
    | None => if bool_decide (task_id ∈ bk_open_tasks b) then Some task_id else None
    end in
  let? owner := ok_or owner BrClosedTask in
  ensure owner =? task_id else BrCrossTask ;;
  try? match bk_contexts b !! context_id with
       | Some context =>
           ensure cs_task_id context =? task_id else BrCrossTask ;;
           ensure cs_generation context =? generation else BrGenerationMismatch ;;
           Ok tt
       | None => Ok tt
       end ;;
  match bk_receipts b !! request_id with
  | Some _ => Ok b
  | None =>
      Ok (with_receipts b (<[request_id :=
            {| rc_request :=
                 {| br_request_id := request_id; br_task_id := task_id;
                    br_context_id := context_id; br_tab_id := tab_id;
                    br_generation := generation; br_action := action |};
               rc_accepted :=
                 {| ba_request_id := request_id; ba_command_id := command_id;
                    ba_task_id := task_id; ba_context_id := context_id; ba_tab_id := tab_id;
                    ba_generation := generation; ba_action := action; ba_facts := [];
                    ba_privacy_class := privacy; ba_permission := permission;
                    ba_payload_hash := payload_hash; ba_action_epoch := action_epoch |};
               rc_settled := negb (requires_host_settlement action);
               rc_settlement := None |}]> (bk_receipts b)))
  end.

Definition lower_hex_digest (digest : text) : bool :=
  (len digest =? 64)
  && forallb (fun b => is_ascii_hexdigit b && negb ((65 <=? b) && (b <=? 90))) (bytes digest).

Definition apply_context_created (b : BrowserBook) (context_id : BrowserContextId)
    (task_id : TaskId) (generation : N) : result BrowserBook BrowserContractError :=
  ensure bool_decide (task_id ∈ bk_open_tasks b) else BrClosedTask ;;
  ensure is_none (bk_contexts b !! context_id) else BrInvalidRequest ;;
  ensure negb (MAX_BROWSER_CONTEXTS <=? msize (bk_contexts b)) else BrBoundExceeded ;;
  Ok (set_context b context_id
        {| cs_task_id := task_id; cs_generation := generation; cs_selected_tab_id := None;
           cs_health := Healthy; cs_closed := false; cs_permissions := ∅;
           cs_linked_artifacts := ∅; cs_recipe_id := None; cs_recording_id := None |}).

Definition apply_tab_opened `{UrlParser} (b : BrowserBook) (tab_id : BrowserTabId)
    (context_id : BrowserContextId) (task_id : TaskId) (kind : BrowserTabKind) (url : text)
    : result BrowserBook BrowserContractError :=
  try? validate_url url ;;
  try? owned_context b context_id task_id ;;
  ensure is_none (bk_tabs b !! tab_id) else BrInvalidRequest ;;
  Ok (with_tabs b (<[tab_id := {| ts_context_id := context_id; ts_task_id := task_id;
                                  ts_kind := kind; ts_committed_url := Some url;
                                  ts_closed := false |}]> (bk_tabs b))).

Definition apply_tab_closed (b : BrowserBook) (tab_id : BrowserTabId)
    (context_id : BrowserContextId) : result BrowserBook BrowserContractError :=
  let? tab := ok_or (bk_tabs b !! tab_id) BrInvalidRequest in
  let b := with_tabs b (<[tab_id := tab_close tab]> (bk_tabs b)) in
  Ok (match bk_contexts b !! context_id with
      | Some context =>
          if cs_selected_tab_id context =?= Some tab_id
          then set_context b context_id (context_select context None)
          else b
      | None => b
      end).

Definition apply_download_settled (b : BrowserBook) (context_id : BrowserContextId)
    (task_id : TaskId) (file_name : text) (sha256_hex : option text)
    (artifact_id : option ArtifactId) : result BrowserBook BrowserContractError :=
  try? validate_identity file_name ;;
  ensure is_none_or sha256_hex lower_hex_digest else BrInvalidRequest ;;
  let? context := owned_context b context_id task_id in
  Ok (match artifact_id with
      | Some a => set_context b context_id (context_link context a)
      | None => b
      end).

(** One arm of [apply_fact], before the fact is pushed.  In every arm the
    checks precede the writes, so an error leaves the book as it was. *)
Definition apply_fact_state `{UrlParser} (b : BrowserBook) (fact : BrowserDurableFact)
    : result BrowserBook BrowserContractError :=
  match fact with
  | FactRequestAccepted rid task ctx tab g action privacy perm hash epoch command =>
      apply_request_accepted b rid task ctx tab g action privacy perm hash epoch command
  | FactPermissionDecided ctx task perm allowed =>
      let? c := owned_context b ctx task in Ok (set_context b ctx (context_permit c perm allowed))
  | FactArtifactLinked ctx task artifact =>
      let? c := owned_context b ctx task in Ok (set_context b ctx (context_link c artifact))
  | FactRecipeIdentified ctx task recipe =>
      let? c := owned_context b ctx task in Ok (set_context b ctx (context_recipe c recipe))
  | FactRecordingIdentified ctx task recording =>
      let? c := owned_context b ctx task in Ok (set_context b ctx (context_recording c recording))
  | FactDownloadSettled ctx task _ file digest artifact =>
      apply_download_settled b ctx task file digest artifact
  | FactContextCreated ctx task g => apply_context_created b ctx task g
  | FactContextClosed ctx task _ =>
      let? c := owned_context b ctx task in
      Ok (with_tabs (set_context b ctx (context_close c))
            ((fun t => if ts_context_id t =? ctx then tab_close t else t) <$> bk_tabs b))
  | FactTabOpened tab ctx task kind url => apply_tab_opened b tab ctx task kind url
  | FactTabClosed tab ctx _ => apply_tab_closed b tab ctx
  | FactTabSelected tab ctx _ =>
      ensure is_some (bk_tabs b !! tab) else BrInvalidRequest ;;
      let? c := ok_or (bk_contexts b !! ctx) BrInvalidRequest in
      Ok (set_context b ctx (context_select c (Some tab)))
  | FactNavigationCommitted tab _ _ url _ =>
      try? validate_url url ;;
      let? t := ok_or (bk_tabs b !! tab) BrInvalidRequest in
      Ok (with_tabs b (<[tab := tab_navigate t url]> (bk_tabs b)))
  | FactHealthTransitioned ctx _ _ to g =>
      let? c := ok_or (bk_contexts b !! ctx) BrInvalidRequest in
      Ok (set_context b ctx (context_health c to g))
  end.

Definition apply_fact `{UrlParser} (b : BrowserBook) (fact : BrowserDurableFact)
    : result BrowserBook BrowserContractError :=
  let? b := apply_fact_state b fact in
  Ok (with_facts b (bk_facts b ++ [fact])).

(** The loop of [apply_facts]: the book when it stops, and why. *)
Fixpoint apply_facts_loop `{UrlParser} (b : BrowserBook) (facts : list BrowserDurableFact)
    : BrowserBook * result unit BrowserContractError :=
  match facts with
  | [] => (b, Ok tt)
  | fact :: rest =>
      match apply_fact b fact with
      | Ok b' => apply_facts_loop b' rest
      | Err e => (b, Err e)
      end
  end.

(** [&mut self]: the book after the call, with the backup restored on error. *)
Definition apply_facts `{UrlParser} (b : BrowserBook) (facts : list BrowserDurableFact)
    : BrowserBook * result unit BrowserContractError :=
  if is_empty facts then (b, Ok tt)
  else if MAX_BROWSER_JOURNAL_FACTS <? saturating_add (count (bk_facts b)) (count facts)
  then (b, Err BrBoundExceeded)
  else
    match apply_facts_loop b facts with
    | (b', Ok u) => (b', Ok u)
    | (b', Err e) =>
        (with_receipts (with_facts (with_tabs (with_contexts b' (bk_contexts b)) (bk_tabs b))
                          (bk_facts b)) (bk_receipts b), Err e)
    end.

(** [self.apply_facts(..)?] of a caller that returns early on error. *)
Definition try_apply_facts `{UrlParser} (b : BrowserBook) (facts : list BrowserDurableFact)
    : result BrowserBook BrowserContractError :=
  match apply_facts b facts with
  | (b', Ok _) => Ok b'
  | (_, Err e) => Err e
  end.

(** ** Admission and settlement on the book itself *)

Definition without_request_accepted (r : BrowserAcceptedReceipt) : BrowserAcceptedReceipt :=
  with_receipt_facts r (List.filter (fun f => negb (is_request_accepted f)) (ba_facts r)).

Definition admit_request `{Sha256} `{UrlParser} `{BrowserWire} (b : BrowserBook) (r : BrowserRequest)
    : result (BrowserBook * BrowserAcceptedReceipt) BrowserContractError :=
  let? accepted := plan_admit b r in
  match bk_receipts b !! br_request_id r with
  | Some prior => Ok (b, without_request_accepted (rc_accepted prior))
  | None =>
      let? b' := try_apply_facts b (ba_facts accepted) in
      Ok (with_receipts b' (<[br_request_id r :=
            {| rc_request := r; rc_accepted := accepted;
               rc_settled := negb (requires_host_settlement (br_action r));
               rc_settlement := None |}]> (bk_receipts b')),
          without_request_accepted accepted)
  end.

(** The facts a host outcome settles into. *)
Definition settlement_facts `{UrlParser} (b : BrowserBook) (action : BrowserAction)
    (o : BrowserHostOutcome) : result (list BrowserDurableFact) BrowserContractError :=
  match action, bo_settlement o with
  | (ActNavigate _ | ActReload), SetNavigationCommitted url document_id =>
      try? validate_url url ;;
      try? validate_identity document_id ;;
      let? tab := ok_or (bo_tab_id o) BrInvalidRequest in
      Ok [FactNavigationCommitted tab (bo_context_id o) (bo_task_id o) url document_id]
  | (ActDecidePermission _ _ | ActDecideDownload _), SetPermissionDecided permission allowed =>
      Ok [FactPermissionDecided (bo_context_id o) (bo_task_id o) permission allowed]
  | ActRecover, SetRecovered generation =>
      let? context := require_context_ids b (bo_task_id o) (bo_context_id o) (bo_generation o) in
      Ok [FactHealthTransitioned (bo_context_id o) (bo_task_id o) (cs_health context) Recovering
            generation]
  | ActReplay, SetRecipeIdentified recipe_id =>
      try? validate_identity recipe_id ;;
      Ok [FactRecipeIdentified (bo_context_id o) (bo_task_id o) recipe_id]
  | ActRecord, SetRecordingIdentified recording_id =>
      try? validate_identity recording_id ;;
      Ok [FactRecordingIdentified (bo_context_id o) (bo_task_id o) recording_id]
  | _, _ => Err BrInvalidRequest
  end.

Definition settle `{UrlParser} (b : BrowserBook) (o : BrowserHostOutcome)
    : result (BrowserBook * BrowserAcceptedReceipt) BrowserContractError :=
  let? receipt := ok_or (bk_receipts b !! bo_request_id o) BrInvalidRequest in
  ensure negb (negb (br_task_id (rc_request receipt) =? bo_task_id o)
               || negb (br_context_id (rc_request receipt) =? bo_context_id o)
               || negb (br_tab_id (rc_request receipt) =?= bo_tab_id o)
               || negb (br_generation (rc_request receipt) =? bo_generation o))
    else BrInvalidRequest ;;
  if rc_settled receipt then
    if rc_settlement receipt =?= Some (bo_settlement o) then Ok (b, rc_accepted receipt)
    else Err BrIdempotencyConflict
  else
    let? facts := settlement_facts b (br_action (rc_request receipt)) o in
    let? b' := try_apply_facts b facts in
    (* [expect("receipt exists")]: no settlement fact removes a receipt. *)
    let? stored := ok_or (bk_receipts b' !! bo_request_id o) BrInvalidRequest in
    Ok (with_receipts b' (<[bo_request_id o :=
          {| rc_request := rc_request stored; rc_accepted := rc_accepted stored;
             rc_settled := true; rc_settlement := Some (bo_settlement o) |}]> (bk_receipts b')),
        with_receipt_facts (rc_accepted stored) facts).

Definition plan_close_task (b : BrowserBook) (task_id : TaskId) : list BrowserDurableFact :=
  map (fun kt => FactTabClosed (fst kt) (ts_context_id (snd kt)) task_id)
    (List.filter (fun kt => (ts_task_id (snd kt) =? task_id) && negb (ts_closed (snd kt)))
       (sorted_entries (bk_tabs b)))
  ++ map (fun kc => FactContextClosed (fst kc) task_id (cs_generation (snd kc)))
       (List.filter (fun kc => (cs_task_id (snd kc) =? task_id) && negb (cs_closed (snd kc)))
          (sorted_entries (bk_contexts b))).

(** [close_task] builds the facts of [plan_close_task] in the same two loops. *)
Definition close_task `{UrlParser} (b : BrowserBook) (task_id : TaskId)
    : result BrowserBook BrowserContractError :=
  ensure bool_decide (task_id ∈ bk_open_tasks b) else BrClosedTask ;;
  let? b' := try_apply_facts b (plan_close_task b task_id) in
  Ok (with_open_tasks b' (bk_open_tasks b' ∖ {[task_id]})).

Fixpoint open_all (b : BrowserBook) (facts : list BrowserDurableFact)
    : result BrowserBook BrowserContractError :=
  match facts with
  | [] => Ok b
  | f :: rest => let? b := open_task b (fact_task_id f) in open_all b rest
  end.

Definition replay_browser_snapshot `{UrlParser} (facts : list BrowserDurableFact)
    : result BrowserIdentitySnapshot BrowserContractError :=
  ensure negb (MAX_BROWSER_JOURNAL_FACTS <? count facts) else BrBoundExceeded ;;
  let? b := open_all book_new facts in
  let? b := try_apply_facts b facts in
  Ok (identity_snapshot b).

(** ** The settler chain: intent, authority, token *)

Record BrowserHostSettleIntent := {
  hi_command_id : CommandId;
  hi_operation_id : OperationId;
  hi_request_id : BrowserRequestId;
  hi_task_id : TaskId;
  hi_context_id : BrowserContextId;
  hi_resource_id : option ResourceId;
  hi_generation : N;
  hi_action_epoch : N;
}.

Definition settle_intent_bind (command_id : CommandId) (operation_id : OperationId)
    (request_id : BrowserRequestId) (task_id : TaskId) (context_id : BrowserContextId)
    (generation action_epoch : N) : result BrowserHostSettleIntent BrowserContractError :=
  ensure negb (generation =? 0) else BrGenerationMismatch ;;
  Ok {| hi_command_id := command_id; hi_operation_id := operation_id;
        hi_request_id := request_id; hi_task_id := task_id; hi_context_id := context_id;
        hi_resource_id := None; hi_generation := generation; hi_action_epoch := action_epoch |}.

Definition bind_host_surface (command_id : CommandId) (operation_id : OperationId)
    (request_id : BrowserRequestId) (task_id : TaskId) (context_id : BrowserContextId)
    (resource_id : ResourceId) (generation action_epoch : N)
    : result BrowserHostSettleIntent BrowserContractError :=
  let? i := settle_intent_bind command_id operation_id request_id task_id context_id generation
              action_epoch in
  Ok {| hi_command_id := hi_command_id i; hi_operation_id := hi_operation_id i;
        hi_request_id := hi_request_id i; hi_task_id := hi_task_id i;
        hi_context_id := hi_context_id i; hi_resource_id := Some resource_id;
        hi_generation := hi_generation i; hi_action_epoch := hi_action_epoch i |}.

Definition matches_accepted_hold (i : BrowserHostSettleIntent) (task_id : TaskId)
    (action_epoch : N) (request_id : BrowserRequestId) (context_id : BrowserContextId)
    (generation : N) : result unit BrowserContractError :=
  ensure hi_task_id i =? task_id else BrCrossTask ;;
  ensure negb ((generation =? 0) || negb (hi_generation i =? generation))
    else BrGenerationMismatch ;;
  ensure negb (negb (hi_context_id i =? context_id) || negb (hi_request_id i =? request_id)
               || negb (hi_action_epoch i =? action_epoch)) else BrInvalidRequest ;;
  Ok tt.

Definition matches_host_surface (i : BrowserHostSettleIntent) (task_id : TaskId)
    (context_id : BrowserContextId) (resource_id : ResourceId) (generation : N)
    : result unit BrowserContractError :=
  ensure hi_task_id i =? task_id else BrCrossTask ;;
  ensure negb ((generation =? 0) || negb (hi_generation i =? generation))
    else BrGenerationMismatch ;;
  ensure hi_context_id i =? context_id else BrInvalidRequest ;;
  match hi_resource_id i with
  | Some expected => if expected =? resource_id then Ok tt else Err BrInvalidRequest
  | None => Err BrInvalidRequest
  end.

Record BrowserServiceAuthority := {
  au_task_id : TaskId;
  au_context_id : BrowserContextId;
  au_resource_id : ResourceId;
  au_generation : N;
}.

Definition authority_issue (task_id : TaskId) (context_id : BrowserContextId)
    (resource_id : ResourceId) (generation : N)
    : result BrowserServiceAuthority BrowserIntegrationHold :=
  ensure negb (generation =? 0) else WebViewSurfaceAbsent ;;
  Ok {| au_task_id := task_id; au_context_id := context_id; au_resource_id := resource_id;
        au_generation := generation |}.

Record BrowserServiceSettlerToken := {
  tk_task_id : TaskId;
  tk_context_id : BrowserContextId;
  tk_resource_id : ResourceId;
  tk_generation : N;
  tk_request_id : BrowserRequestId;
  tk_action_epoch : N;
}.

Definition from_host_owned_surface (a : BrowserServiceAuthority) (i : BrowserHostSettleIntent)
    : result BrowserServiceSettlerToken BrowserIntegrationHold :=
  let? resource_id := ok_or (hi_resource_id i) WebViewSurfaceAbsent in
  try? map_err (fun _ => WebViewSurfaceAbsent)
         (matches_host_surface i (au_task_id a) (au_context_id a) (au_resource_id a)
            (au_generation a)) ;;
  ensure resource_id =? au_resource_id a else WebViewSurfaceAbsent ;;
  Ok {| tk_task_id := au_task_id a; tk_context_id := au_context_id a;
        tk_resource_id := resource_id; tk_generation := au_generation a;
        tk_request_id := hi_request_id i; tk_action_epoch := hi_action_epoch i |}.

Definition settle_accepted_hold (t : BrowserServiceSettlerToken) (i : BrowserHostSettleIntent)
    : result BrowserHostOutcome BrowserIntegrationHold :=
  try? map_err (fun _ => WebViewSurfaceAbsent)
         (matches_accepted_hold i (tk_task_id t) (tk_action_epoch t) (tk_request_id t)
            (tk_context_id t) (tk_generation t)) ;;
  try? map_err (fun _ => WebViewSurfaceAbsent)
         (matches_host_surface i (tk_task_id t) (tk_context_id t) (tk_resource_id t)
            (tk_generation t)) ;;
  Ok {| bo_request_id := hi_request_id i; bo_task_id := tk_task_id t;
        bo_context_id := tk_context_id t; bo_tab_id := None; bo_generation := hi_generation i;
        bo_settlement := SetRecovered (hi_generation i) |}.

(** ** Lemmas *)

Section BrowserLemmas.
Context `{UrlParser}.

Ltac fact_cases Hx :=
  unfold apply_fact_state, apply_request_accepted, apply_context_created, apply_tab_opened,
    apply_tab_closed, apply_download_settled, owned_context in Hx; ok_inv.

Lemma apply_fact_state_frame b f b' :
  apply_fact_state b f = Ok b' ->
  bk_ready b' = bk_ready b /\ bk_open_tasks b' = bk_open_tasks b /\ bk_facts b' = bk_facts b.
Proof.
  intros Hx. destruct f; fact_cases Hx; repeat case_match; done.
Qed.

Lemma apply_fact_frame b f b' :
  apply_fact b f = Ok b' ->
  bk_ready b' = bk_ready b /\ bk_open_tasks b' = bk_open_tasks b
  /\ bk_facts b' = bk_facts b ++ [f].
Proof.
  unfold apply_fact. intros Hx. apply rbind_Ok in Hx as (b1 & H1 & Hx). injection Hx as <-.
  apply apply_fact_state_frame in H1 as (? & ? & ?). simpl. split_and!; congruence.
Qed.

Lemma apply_facts_loop_frame facts : forall b b' r,
  apply_facts_loop b facts = (b', r) ->
  bk_ready b' = bk_ready b /\ bk_open_tasks b' = bk_open_tasks b
  /\ match r with Ok _ => bk_facts b' = bk_facts b ++ facts | Err _ => True end.
Proof.
  induction facts as [|f facts IH]; intros b b' r; simpl.
  - intros [= <- <-]. by rewrite app_nil_r.
  - destruct (apply_fact b f) as [b1|e] eqn:E; [|by intros [= <- <-]].
    intros Hl. apply IH in Hl as (Hr & Ho & Hf). apply apply_fact_frame in E as (Er & Eo & Ef).
    split_and!; [congruence|congruence|]. destruct r; [|done].
    by rewrite Hf, Ef, <- app_assoc.
Qed.

(** Running the facts one by one as a fallible fold. *)
Fixpoint run_facts (b : BrowserBook) (facts : list BrowserDurableFact)
    : result BrowserBook BrowserContractError :=
  match facts with
  | [] => Ok b
  | f :: rest => let? b := apply_fact b f in run_facts b rest
  end.

Lemma apply_facts_loop_run facts : forall b,
  match run_facts b facts with
  | Ok b' => apply_facts_loop b facts = (b', Ok tt)
  | Err e => exists b', apply_facts_loop b facts = (b', Err e)
  end.
Proof.
  induction facts as [|f facts IH]; intros b; simpl; [done|].
  destruct (apply_fact b f); simpl; [apply IH | by eexists].
Qed.

Lemma run_facts_app b l k :
  run_facts b (l ++ k) = rbind (run_facts b l) (fun b => run_facts b k).
Proof.
  revert b; induction l as [|f l IH]; intros b; simpl; [done|].
  destruct (apply_fact b f); simpl; [apply IH | done].
Qed.

Lemma run_facts_frame facts b b' :
  run_facts b facts = Ok b' ->
  bk_ready b' = bk_ready b /\ bk_open_tasks b' = bk_open_tasks b
  /\ bk_facts b' = bk_facts b ++ facts.
Proof.
  intros Hr. pose proof (apply_facts_loop_run facts b) as Hl. rewrite Hr in Hl.
  by apply apply_facts_loop_frame in Hl.
Qed.

Lemma try_apply_facts_Ok b facts b' :
  try_apply_facts b facts = Ok b' <->
  run_facts b facts = Ok b'
  /\ (facts = [] \/ saturating_add (count (bk_facts b)) (count facts) <= MAX_BROWSER_JOURNAL_FACTS).
Proof.
  unfold try_apply_facts, apply_facts.
  destruct facts as [|f facts]; [simpl; split; [intros [= <-]; auto | by intros [? _]]|].
  cbn [is_empty].
  destruct (N.ltb_spec MAX_BROWSER_JOURNAL_FACTS
              (saturating_add (count (bk_facts b)) (count (f :: facts)))) as [Hlt|Hle].
  - split; [done|]. intros [_ [?|?]]; [done|lia].
  - pose proof (apply_facts_loop_run (f :: facts) b) as Hl.
    destruct (run_facts b (f :: facts)) as [b1|e].
    + rewrite Hl. split; [intros [= <-]; auto | by intros [[= <-] _]].
    + destruct Hl as [b1 ->]. split; [done | by intros [? _]].
Qed.

Lemma journal_room (b : BrowserBook) (facts : list BrowserDurableFact) :
  count (bk_facts b) + count facts <= MAX_BROWSER_JOURNAL_FACTS ->
  saturating_add (count (bk_facts b)) (count facts) <= MAX_BROWSER_JOURNAL_FACTS.
Proof. unfold saturating_add. lia. Qed.

Lemma journal_room_inv (b : BrowserBook) (facts : list BrowserDurableFact) :
  saturating_add (count (bk_facts b)) (count facts) <= MAX_BROWSER_JOURNAL_FACTS ->
  count (bk_facts b) + count facts <= MAX_BROWSER_JOURNAL_FACTS.
Proof. unfold saturating_add, MAX_BROWSER_JOURNAL_FACTS, u64_max. lia. Qed.

Lemma try_apply_facts_journal b facts b' :
  try_apply_facts b facts = Ok b' ->
  bk_facts b' = bk_facts b ++ facts
  /\ (count (bk_facts b) <= MAX_BROWSER_JOURNAL_FACTS ->
      count (bk_facts b') <= MAX_BROWSER_JOURNAL_FACTS).
Proof.
  intros [Hr Hb]%try_apply_facts_Ok. apply run_facts_frame in Hr as (_ & _ & Hf).
  split; [done|]. intros Hc. rewrite Hf, count_app.
  destruct Hb as [->|Hb]; [rewrite count_nil; lia|]. by apply journal_room_inv.
Qed.

Lemma apply_fact_receipts b f b' :
  apply_fact b f = Ok b' -> is_request_accepted f = false -> bk_receipts b' = bk_receipts b.
Proof.
  unfold apply_fact. intros Hx Hf. apply rbind_Ok in Hx as (b1 & Hx & Hb). injection Hb as <-.
  simpl. destruct f; try done; fact_cases Hx; repeat case_match; done.
Qed.

Lemma run_facts_receipts facts : forall b b',
  run_facts b facts = Ok b' -> Forall (fun f => is_request_accepted f = false) facts ->
  bk_receipts b' = bk_receipts b.
Proof.
  induction facts as [|f facts IH]; intros b b'; simpl; [by intros [= <-]|].
  intros Hx [Hf Hall]%Forall_cons. apply rbind_Ok in Hx as (b1 & H1 & Hx).
  rewrite (IH _ _ Hx Hall). by eapply apply_fact_receipts.
Qed.

Lemma settlement_facts_plain b action o facts :
  settlement_facts b action o = Ok facts ->
  Forall (fun f => is_request_accepted f = false) facts.
Proof.
  unfold settlement_facts. intros Hx. repeat case_match; ok_inv; by repeat constructor.
Qed.

(** *** Closing facts *)

(** Nothing appears, nothing changes hands, nothing re-opens. *)
Definition close_rel (b b' : BrowserBook) : Prop :=
  (forall k, bk_tabs b !! k = None -> bk_tabs b' !! k = None)
  /\ (forall k, bk_contexts b !! k = None -> bk_contexts b' !! k = None)
  /\ (forall k t, bk_tabs b !! k = Some t ->
        exists t', bk_tabs b' !! k = Some t' /\ ts_task_id t' = ts_task_id t
                   /\ ts_context_id t' = ts_context_id t
                   /\ (ts_closed t = true -> ts_closed t' = true))
  /\ (forall k c, bk_contexts b !! k = Some c ->
        exists c', bk_contexts b' !! k = Some c' /\ cs_task_id c' = cs_task_id c
                   /\ cs_generation c' = cs_generation c
                   /\ (cs_closed c = true -> cs_closed c' = true)).

Lemma close_rel_refl b : close_rel b b.
Proof. split_and!; eauto. Qed.

Lemma close_rel_trans a b c : close_rel a b -> close_rel b c -> close_rel a c.
Proof.
  intros (A1 & A2 & A3 & A4) (B1 & B2 & B3 & B4). split_and!; [eauto|eauto| |].
  - intros k t (t1 & H1 & E1 & E2 & E3)%A3. destruct (B3 _ _ H1) as (t2 & H2 & F1 & F2 & F3).
    exists t2. split_and!; [done|congruence|congruence|auto].
  - intros k t (t1 & H1 & E1 & E2 & E3)%A4. destruct (B4 _ _ H1) as (t2 & H2 & F1 & F2 & F3).
    exists t2. split_and!; [done|congruence|congruence|auto].
Qed.

Definition closes_in (b : BrowserBook) (f : BrowserDurableFact) : Prop :=
  match f with
  | FactTabClosed k _ _ => exists t, bk_tabs b !! k = Some t
  | FactContextClosed k task _ => exists c, bk_contexts b !! k = Some c /\ cs_task_id c = task
  | _ => False
  end.

Definition closed_by (b : BrowserBook) (f : BrowserDurableFact) : Prop :=
  match f with
  | FactTabClosed k _ _ => exists t, bk_tabs b !! k = Some t /\ ts_closed t = true
  | FactContextClosed k _ _ => exists c, bk_contexts b !! k = Some c /\ cs_closed c = true
  | _ => False
  end.

Lemma closes_in_mono b b' f : close_rel b b' -> closes_in b f -> closes_in b' f.
Proof.
  intros (_ & _ & H3 & H4). destruct f; simpl; try done.
  - intros (c & Hc & <-). apply H4 in Hc as (c' & ? & ? & ? & ?). eauto.
  - intros (t & (t' & ? & _)%H3). eauto.
Qed.

Lemma closed_by_mono b b' f : close_rel b b' -> closed_by b f -> closed_by b' f.
Proof.
  intros (_ & _ & H3 & H4). destruct f; simpl; try done.
  - intros (c & (c' & ? & _ & _ & Hc)%H4 & Hcl). eauto.
  - intros (t & (t' & ? & _ & _ & Ht)%H3 & Hcl). eauto.
Qed.

Lemma apply_tab_closed_rel b k ctx task t :
  bk_tabs b !! k = Some t ->
  exists b', apply_fact b (FactTabClosed k ctx task) = Ok b' /\ close_rel b b'
             /\ closed_by b' (FactTabClosed k ctx task).
Proof.
  intros Ht. unfold apply_fact. simpl. unfold apply_tab_closed. rewrite Ht. simpl.
  eexists; split; [reflexivity|].
  assert (close_rel b (with_tabs b (<[k:=tab_close t]> (bk_tabs b)))) as Hrel.
  { split_and!; simpl; [|done| |eauto].
    - intros k' Hk'. rewrite lookup_insert_ne; [done|]. intros ->. congruence.
    - intros k' t' Hk'. destruct (decide (k = k')) as [<-|Hne].
      + rewrite lookup_insert_eq. exists (tab_close t). rewrite Ht in Hk'. by injection Hk' as <-.
      + rewrite lookup_insert_ne by done. eauto. }
  split.
  - destruct (bk_contexts b !! ctx) as [c|] eqn:Hc; [|exact Hrel].
    destruct (cs_selected_tab_id c =?= Some k); [|exact Hrel].
    destruct Hrel as (R1 & R2 & R3 & R4). split_and!; simpl; [exact R1| |exact R3|].
    + intros k' Hk'. rewrite lookup_insert_ne; [done|]. intros ->. congruence.
    + intros k' c' Hk'. destruct (decide (ctx = k')) as [<-|Hne].
      * rewrite lookup_insert_eq. rewrite Hc in Hk'. injection Hk' as <-.
        eexists; split_and!; [reflexivity|done..].
      * rewrite lookup_insert_ne by done. eauto.
  - exists (tab_close t). split; [|done].
    destruct (bk_contexts b !! ctx) as [c|]; [destruct (cs_selected_tab_id c =?= Some k)|];
      simpl; apply lookup_insert_eq.
Qed.

Lemma apply_context_closed_rel b k task g c :
  bk_contexts b !! k = Some c -> cs_task_id c = task ->
  exists b', apply_fact b (FactContextClosed k task g) = Ok b' /\ close_rel b b'
             /\ closed_by b' (FactContextClosed k task g).
Proof.
  intros Hc Ht. unfold apply_fact. simpl. unfold owned_context. rewrite Hc. simpl.
  rewrite Ht, N.eqb_refl. simpl. eexists; split; [reflexivity|]. split.
  - split_and!; simpl.
    + intros k' Hk'. by rewrite lookup_fmap, Hk'.
    + intros k' Hk'. rewrite lookup_insert_ne; [done|]. intros ->. congruence.
    + intros k' t Hk'. rewrite lookup_fmap, Hk'. simpl.
      destruct (ts_context_id t =? k); eexists; split_and!; [reflexivity|done..].
    + intros k' c' Hk'. destruct (decide (k = k')) as [<-|Hne].
      * rewrite lookup_insert_eq. rewrite Hc in Hk'. injection Hk' as <-.
        eexists; split_and!; [reflexivity|done..].
      * rewrite lookup_insert_ne by done. eauto.
  - exists (context_close c). split; [apply lookup_insert_eq | done].
Qed.

Lemma run_closing facts : forall b,
  Forall (closes_in b) facts ->
  exists b', run_facts b facts = Ok b' /\ close_rel b b' /\ Forall (closed_by b') facts.
Proof.
  induction facts as [|f facts IH]; intros b Hall.
  - exists b. split_and!; [done | apply close_rel_refl | constructor].
  - apply Forall_cons in Hall as [Hf Hall].
    assert (exists b1, apply_fact b f = Ok b1 /\ close_rel b b1 /\ closed_by b1 f)
      as (b1 & E1 & R1 & C1).
    { destruct f; simpl in Hf; try done.
      - destruct Hf as (c & Hc & Ht). by eapply apply_context_closed_rel.
      - destruct Hf as (t & Ht). by eapply apply_tab_closed_rel. }
    destruct (IH b1) as (b2 & E2 & R2 & C2).
    { eapply Forall_impl; [exact Hall|]. intros g. by apply closes_in_mono. }
    exists b2. split_and!.
    + simpl. by rewrite E1.
    + by eapply close_rel_trans.
    + constructor; [by eapply closed_by_mono | done].
Qed.

Lemma plan_close_task_closes b task : Forall (closes_in b) (plan_close_task b task).
Proof.
  unfold plan_close_task. apply Forall_app. split.
  - apply Forall_map, Forall_forall. intros [k t] Hin%list_elem_of_In. apply filter_In in Hin as [Hin _].
    apply list_elem_of_In, elem_of_sorted_entries in Hin. simpl. eauto.
  - apply Forall_map, Forall_forall. intros [k c] Hin%list_elem_of_In. apply filter_In in Hin as [Hin Hp].
    apply list_elem_of_In, elem_of_sorted_entries in Hin. simpl in *.
    apply andb_true_iff in Hp as [Hp _]. apply N.eqb_eq in Hp. eauto.
Qed.

Lemma plan_close_task_tab b task k t :
  bk_tabs b !! k = Some t -> ts_task_id t = task -> ts_closed t = false ->
  FactTabClosed k (ts_context_id t) task ∈ plan_close_task b task.
Proof.
  intros Hk Ht Hc. unfold plan_close_task. apply elem_of_app. left.
  apply list_elem_of_In, in_map_iff. exists (k, t). split; [done|].
  apply filter_In. rewrite <- list_elem_of_In, elem_of_sorted_entries. simpl.
  by rewrite Ht, N.eqb_refl, Hc.
Qed.

Lemma plan_close_task_context b task k c :
  bk_contexts b !! k = Some c -> cs_task_id c = task -> cs_closed c = false ->
  FactContextClosed k task (cs_generation c) ∈ plan_close_task b task.
Proof.
  intros Hk Ht Hc. unfold plan_close_task. apply elem_of_app. right.
  apply list_elem_of_In, in_map_iff. exists (k, c). split; [done|].
  apply filter_In. rewrite <- list_elem_of_In, elem_of_sorted_entries. simpl.
  by rewrite Ht, N.eqb_refl, Hc.
Qed.
End BrowserLemmas.

(** *** Admission *)

Section AdmissionLemmas.
Context `{Sha256} `{UrlParser} `{BrowserWire}.

(** What an accepted plan says about the context it names. *)
Lemma plan_identity_context b r fs :
  plan_identity_facts b r = Ok fs ->
  match bk_contexts b !! br_context_id r with
  | Some c => cs_task_id c = br_task_id r
              /\ (cs_generation c = br_generation r
                  \/ (br_action r = ActCloseContext /\ cs_closed c = true))
  | None => br_action r = ActCreateContext
  end.
Proof.
  assert (forall c, require_context b r = Ok c ->
            bk_contexts b !! br_context_id r = Some c /\ cs_task_id c = br_task_id r
            /\ cs_generation c = br_generation r) as Hreq.
  { intros c Hx. unfold require_context, require_context_ids in Hx. ok_inv.
    repeat match goal with Hb : (_ =? _) = true |- _ => apply N.eqb_eq in Hb end. done. }
  assert (forall t, require_tab b r = Ok t -> exists c, require_context b r = Ok c) as Htab.
  { intros t Hx. unfold require_tab in Hx. apply rbind_Ok in Hx as (c & Hc & _). eauto. }
  assert (forall c, require_context b r = Ok c ->
            match bk_contexts b !! br_context_id r with
            | Some c => cs_task_id c = br_task_id r
                        /\ (cs_generation c = br_generation r
                            \/ (br_action r = ActCloseContext /\ cs_closed c = true))
            | None => br_action r = ActCreateContext
            end) as Hgo.
  { intros c (-> & ? & ?)%Hreq. auto. }
  unfold plan_identity_facts.
  destruct (br_action r) eqn:Ea; intros Hx;
    try (apply rbind_Ok in Hx as (u & Hx & _);
         destruct (is_some (br_tab_id r)); apply rmap_Ok in Hx as (? & Hx & _);
         [apply Htab in Hx as [? Hx]|]; by eapply Hgo).
  - unfold plan_create_context in Hx. apply rbind_Ok in Hx as (? & _ & Hx).
    apply rbind_Ok in Hx as (? & Hm & _).
    destruct (bk_contexts b !! br_context_id r); [by destruct (_ =? _)|done].
  - unfold plan_close_context in Hx.
    destruct (bk_contexts b !! br_context_id r) as [c|] eqn:Hc.
    + destruct (N.eqb_spec (cs_task_id c) (br_task_id r)) as [Ht|]; [|done]. simpl in Hx.
      split; [done|]. destruct (cs_closed c) eqn:Hcl; [by right|].
      apply rbind_Ok in Hx as (c' & (? & ? & ?)%Hreq & _). left. congruence.
    + apply rbind_Ok in Hx as (c' & (? & ? & ?)%Hreq & _). congruence.
  - unfold plan_open_tab in Hx. apply rbind_Ok in Hx as (c & Hx & _). by eapply Hgo.
  - apply rbind_Ok in Hx as (t & [c Hc]%Htab & _). by eapply Hgo.
  - apply rbind_Ok in Hx as (t & [c Hc]%Htab & _). by eapply Hgo.
  - apply rbind_Ok in Hx as (c & Hx & _). by eapply Hgo.
Qed.

Lemma require_context_lookup b r c :
  require_context b r = Ok c ->
  bk_contexts b !! br_context_id r = Some c /\ cs_task_id c = br_task_id r.
Proof.
  unfold require_context, require_context_ids. intros Hx. ok_inv.
  repeat match goal with Hb : (_ =? _) = true |- _ => apply N.eqb_eq in Hb end. done.
Qed.

Lemma require_tab_lookup b r t tab :
  require_tab b r = Ok t -> tab_id_of r = Ok tab ->
  bk_tabs b !! tab = Some t /\ ts_context_id t = br_context_id r
  /\ exists c, bk_contexts b !! br_context_id r = Some c.
Proof.
  unfold require_tab. intros Hx Htab. apply rbind_Ok in Hx as (c & Hc%require_context_lookup & Hx).
  rewrite Htab in Hx. simpl in Hx. ok_inv.
  repeat match goal with Hb : negb _ = true |- _ => apply negb_true_iff in Hb end.
  match goal with Hb : _ || _ = false |- _ => apply orb_false_iff in Hb as [Hb _] end.
  match goal with Hb : negb _ = false |- _ => apply negb_false_iff, N.eqb_eq in Hb end.
  naive_solver.
Qed.

(** Facts planned for a request run on any book with the same contexts and
    tabs. *)
Lemma plan_identity_runs b r fs :
  plan_identity_facts b r = Ok fs ->
  bool_decide (br_task_id r ∈ bk_open_tasks b) = true ->
  request_payload_ok (br_action r) = Ok tt ->
  exists b', run_facts b fs = Ok b'.
Proof.
  intros Hx Hopen Hpay. unfold plan_identity_facts in Hx.
  destruct (br_action r) eqn:Ea;
    try (apply rbind_Ok in Hx as (u & _ & Hx); injection Hx as <-; by eexists).
  - unfold plan_create_context in Hx. apply rbind_Ok in Hx as (? & _ & Hx).
    apply rbind_Ok in Hx as (? & Hm & Hx). apply rbind_Ok in Hx as (? & Hs & Hx).
    injection Hx as <-. simpl. unfold apply_fact, apply_fact_state, apply_context_created.
    rewrite Hopen. simpl.
    destruct (bk_contexts b !! br_context_id r) eqn:Hc; [by destruct (_ =? _)|]. simpl.
    apply guard_Ok in Hs. rewrite Hs. simpl. by eexists.
  - unfold plan_close_context in Hx.
    assert (forall c, require_context b r = Ok c ->
      exists b', run_facts b (map (fun kt => FactTabClosed (fst kt) (br_context_id r) (br_task_id r))
        (List.filter (fun kt => (ts_context_id (snd kt) =? br_context_id r)
                                && negb (ts_closed (snd kt))) (sorted_entries (bk_tabs b)))
        ++ [FactContextClosed (br_context_id r) (br_task_id r) (cs_generation c)]) = Ok b') as Hrun.
    { intros c Hc. apply require_context_lookup in Hc as [Hc Ht].
      match goal with |- exists b', run_facts b ?l = Ok b' =>
        destruct (run_closing l b) as (b' & Hb' & _); [|by exists b'] end.
      apply Forall_app. split; [|by repeat constructor; exists c].
      apply Forall_map, Forall_forall. intros [k t] Hin%list_elem_of_In.
      apply filter_In in Hin as [Hin _].
      apply list_elem_of_In, elem_of_sorted_entries in Hin. simpl. eauto. }
    destruct (bk_contexts b !! br_context_id r) as [c|] eqn:Hc.
    + destruct (negb _); [done|]. destruct (cs_closed c); [injection Hx as <-; by eexists|].
      apply rbind_Ok in Hx as (c' & Hc' & Hx). injection Hx as <-. by apply Hrun.
    + apply rbind_Ok in Hx as (c' & Hc' & Hx). injection Hx as <-. by apply Hrun.
  - unfold plan_open_tab in Hx. apply rbind_Ok in Hx as (c & Hc%require_context_lookup & Hx).
    destruct Hc as [Hc Ht].
    apply rbind_Ok in Hx as (tab & _ & Hx). apply rbind_Ok in Hx as (? & Hn%guard_Ok & Hx).
    apply rbind_Ok in Hx as (? & _ & Hx). apply rbind_Ok in Hx as (? & _ & Hx).
    injection Hx as <-.
    assert (validate_url url = Ok tt) as Hu.
    { unfold request_payload_ok in Hpay. simpl in Hpay.
      apply rbind_Ok in Hpay as ([] & Hu & _). done. }
    unfold run_facts, apply_fact, apply_fact_state, apply_tab_opened, owned_context.
    rewrite Hu. simpl. rewrite Hc. simpl. rewrite Ht, N.eqb_refl. simpl. rewrite Hn. simpl.
    destruct (is_none (cs_selected_tab_id c)); simpl; [|by eexists].
    rewrite lookup_insert_eq. simpl. rewrite Hc. simpl. by eexists.
  - apply rbind_Ok in Hx as (t & Ht & Hx). apply rbind_Ok in Hx as (tab & Htab & Hx).
    injection Hx as <-. destruct (require_tab_lookup _ _ _ _ Ht Htab) as (Hk & _ & _).
    destruct (apply_tab_closed_rel b tab (ts_context_id t) (br_task_id r) t Hk) as (b' & Hb' & _).
    exists b'. cbn [run_facts]. by rewrite Hb'.
  - apply rbind_Ok in Hx as (t & Ht & Hx). apply rbind_Ok in Hx as (tab & Htab & Hx).
    injection Hx as <-. destruct (require_tab_lookup _ _ _ _ Ht Htab) as (Hk & Hctx & c & Hc).
    unfold run_facts, apply_fact, apply_fact_state. rewrite Hk. simpl. rewrite Hctx, Hc. simpl.
    by eexists.
  - apply rbind_Ok in Hx as (c & Hc%require_context_lookup & Hx). injection Hx as <-.
    destruct Hc as [Hc Ht].
    unfold run_facts, apply_fact, apply_fact_state, owned_context. rewrite Hc. simpl.
    rewrite Ht, N.eqb_refl. simpl. by eexists.
Qed.

(** A request whose context, if closed, is named at its own generation. *)
Definition generation_current (b : BrowserBook) (r : BrowserRequest) : Prop :=
  forall c, br_action r = ActCloseContext -> bk_contexts b !! br_context_id r = Some c ->
            cs_closed c = true -> cs_generation c = br_generation r.

Lemma plan_admit_fresh b r acc :
  plan_admit b r = Ok acc -> bk_receipts b !! br_request_id r = None ->
  exists identity, ba_facts acc = accepted_fact r :: identity
    /\ plan_identity_facts b r = Ok identity
    /\ bool_decide (br_task_id r ∈ bk_open_tasks b) = true
    /\ request_payload_ok (br_action r) = Ok tt
    /\ count (bk_facts b) + (count identity + 1) <= MAX_BROWSER_JOURNAL_FACTS.
Proof.
  unfold plan_admit. intros Hx Hn. rewrite Hn in Hx.
  apply rbind_Ok in Hx as (? & _ & Hx). apply rbind_Ok in Hx as (? & Ho%guard_Ok & Hx).
  apply rbind_Ok in Hx as (? & _ & Hx). apply rbind_Ok in Hx as (? & _ & Hx).
  apply rbind_Ok in Hx as ([] & Hp & Hx). apply rbind_Ok in Hx as (identity & Hi & Hx).
  apply rbind_Ok in Hx as (? & Hc%guard_negb & Hx). injection Hx as <-.
  apply N.ltb_ge in Hc. exists identity.
  split; [reflexivity|]. split; [exact Hi|]. split; [exact Ho|]. split; [exact Hp|].
  apply saturating_add_le in Hc; [|reflexivity].
  assert (count identity + 1 <= MAX_BROWSER_JOURNAL_FACTS) as Hci.
  { apply saturating_add_le; [|reflexivity]. lia. }
  unfold saturating_add in Hc.
  assert (count identity + 1 <= u64_max) as Hu by (etrans; [exact Hci | by vm_compute]).
  by rewrite N.min_l in Hc.
Qed.

Lemma plan_admit_fresh_applies b r acc epoch command :
  plan_admit b r = Ok acc -> bk_receipts b !! br_request_id r = None ->
  generation_current b r ->
  exists b' identity,
    ba_facts acc = accepted_fact r :: identity
    /\ try_apply_facts b
         (FactRequestAccepted (br_request_id r) (br_task_id r) (br_context_id r) (br_tab_id r)
            (br_generation r) (br_action r) (privacy_class (br_action r))
            (required_permission (br_action r)) (request_payload_hash r) epoch command
          :: identity) = Ok b'.
Proof.
  intros Hx Hn Hg. destruct (plan_admit_fresh _ _ _ Hx Hn) as (identity & Hf & Hi & Ho & Hp & Hc).
  assert (exists b1, apply_request_accepted b (br_request_id r) (br_task_id r) (br_context_id r)
            (br_tab_id r) (br_generation r) (br_action r) (privacy_class (br_action r))
            (required_permission (br_action r)) (request_payload_hash r) epoch command = Ok b1
            /\ bk_contexts b1 = bk_contexts b /\ bk_tabs b1 = bk_tabs b
            /\ bk_open_tasks b1 = bk_open_tasks b) as (b1 & E1 & C1 & T1 & O1).
  { unfold apply_request_accepted. pose proof (plan_identity_context _ _ _ Hi) as Hctx.
    rewrite Hn. destruct (bk_contexts b !! br_context_id r) as [c|] eqn:Hcc.
    - destruct Hctx as [Ht Hgen]. simpl. rewrite Ht, N.eqb_refl. simpl.
      assert (cs_generation c = br_generation r) as ->.
      { destruct Hgen as [?|[Ha Hcl]]; [done|]. by eapply Hg. }
      rewrite N.eqb_refl. simpl. by eexists.
    - rewrite Ho. simpl. rewrite N.eqb_refl. simpl. by eexists. }
  set (b2 := with_facts b1 (bk_facts b1 ++
     [FactRequestAccepted (br_request_id r) (br_task_id r) (br_context_id r) (br_tab_id r)
        (br_generation r) (br_action r) (privacy_class (br_action r))
        (required_permission (br_action r)) (request_payload_hash r) epoch command])).
  assert (plan_identity_facts b2 r = Ok identity) as Hi2.
  { rewrite <- Hi. unfold plan_identity_facts, plan_create_context, plan_close_context,
      plan_open_tab, popup_opener_ok, require_tab, require_context, require_context_ids,
      open_tab_count, b2. simpl. by rewrite C1, T1. }
  destruct (plan_identity_runs b2 r identity Hi2) as [b' Hb']; [simpl; by rewrite O1 | done |].
  exists b', identity. split; [done|]. apply try_apply_facts_Ok. split.
  - cbn [run_facts]. unfold apply_fact at 1. cbn [apply_fact_state]. rewrite E1. exact Hb'.
  - right. apply journal_room. rewrite count_cons. lia.
Qed.
(** The planned identity facts name the request's task and are no requests
    themselves; an action the host settles plans none. *)
Lemma plan_identity_shape b r fs :
  plan_identity_facts b r = Ok fs ->
  Forall (fun f => is_request_accepted f = false /\ fact_task_id f = br_task_id r) fs
  /\ (requires_host_settlement (br_action r) = true -> fs = []).
Proof.
  unfold plan_identity_facts, plan_create_context, plan_close_context, plan_open_tab.
  intros Hp. destruct (br_action r); peel Hp; subst fs; (split; [|done]);
    try by repeat constructor.
  3: by constructor; [done|case_match; repeat constructor].
  all: apply Forall_app; split; [|by repeat constructor]; apply Forall_map; by apply Forall_true.
Qed.

Lemma bind_identity command epoch fs :
  Forall (fun f => is_request_accepted f = false) fs -> map (bind_fact command epoch) fs = fs.
Proof. induction 1 as [|f fs Hf _ IH]; [done|]. cbn. rewrite IH. by destruct f. Qed.

Lemma plan_bound_applies b r acc command epoch :
  plan_admit b r = Ok acc -> bk_receipts b !! br_request_id r = None ->
  generation_current b r ->
  exists b', try_apply_facts b (ba_facts (bind_command acc command epoch)) = Ok b'.
Proof.
  intros Hp Hn Hg.
  destruct (plan_admit_fresh_applies b r acc epoch (Some command) Hp Hn Hg)
    as (b' & identity & Hf & Hx).
  destruct (plan_admit_fresh _ _ _ Hp Hn) as (id' & Hf' & Hi & _).
  assert (id' = identity) as -> by congruence. exists b'.
  unfold bind_command. cbn [ba_facts]. rewrite Hf. cbn [map].
  unfold accepted_fact. cbn [bind_fact]. rewrite bind_identity; [exact Hx|].
  apply plan_identity_shape in Hi as [Hi _]. eapply Forall_impl; [exact Hi|]. by intros f [? _].
Qed.

Lemma apply_fact_keeps_receipt b f b' id :
  apply_fact b f = Ok b' -> is_some (bk_receipts b !! id) = true ->
  is_some (bk_receipts b' !! id) = true.
Proof.
  intros Hd Hs. unfold apply_fact in Hd. apply rbind_Ok in Hd as (d1 & Hd & Hd').
  injection Hd' as <-. simpl. destruct f; unfold apply_fact_state, apply_request_accepted,
    apply_tab_closed, apply_tab_opened, apply_context_created, apply_download_settled,
    owned_context in Hd; ok_inv; repeat case_match; simpl; try done;
    (destruct (decide (request_id = id)) as [->|]; [by rewrite lookup_insert_eq|];
     by rewrite lookup_insert_ne).
Qed.

Lemma run_facts_keeps_receipt facts id : forall b b',
  run_facts b facts = Ok b' -> is_some (bk_receipts b !! id) = true ->
  is_some (bk_receipts b' !! id) = true.
Proof.
  induction facts as [|f l IH]; intros b b' Hx Hs; simpl in Hx; [by injection Hx as <-|].
  apply rbind_Ok in Hx as (b2 & Hf & Hx). eapply IH; [exact Hx|].
  by eapply apply_fact_keeps_receipt.
Qed.

Lemma apply_accepted_receipt b id t c tab g a p perm h epoch command b' :
  apply_fact b (FactRequestAccepted id t c tab g a p perm h epoch command) = Ok b' ->
  is_some (bk_receipts b' !! id) = true.
Proof.
  unfold apply_fact. intros Hd. apply rbind_Ok in Hd as (d1 & Hd & Hd'). injection Hd' as <-.
  simpl. unfold apply_fact_state, apply_request_accepted in Hd.
  ok_inv; try (by rewrite lookup_insert_eq);
    match goal with Hs : bk_receipts _ !! id = Some _ |- _ => by rewrite Hs end.
Qed.
End AdmissionLemmas.

(** Closing succeeds once its facts run and fit the journal. *)
Lemma close_task_run `{UrlParser} b task b1 :
  task ∈ bk_open_tasks b ->
  count (bk_facts b) + count (plan_close_task b task) <= MAX_BROWSER_JOURNAL_FACTS ->
  run_facts b (plan_close_task b task) = Ok b1 ->
  close_task b task = Ok (with_open_tasks b1 (bk_open_tasks b1 ∖ {[task]})).
Proof.
  intros Ho Hr Hrun. assert (try_apply_facts b (plan_close_task b task) = Ok b1) as Et.
  { apply try_apply_facts_Ok. split; [done|]. right. by apply journal_room. }
  unfold close_task. rewrite bool_decide_true by done. simpl. by rewrite Et.
Qed.

(** *** Replay *)

Section ReplayLemmas.
Context `{UrlParser}.

(** Same identities; the second book may have more open tasks. *)
Definition book_sim (a b : BrowserBook) : Prop :=
  bk_contexts a = bk_contexts b /\ bk_tabs a = bk_tabs b
  /\ bk_open_tasks a ⊆ bk_open_tasks b.

Lemma apply_fact_sim a b f a' :
  apply_fact a f = Ok a' -> book_sim a b ->
  exists b', apply_fact b f = Ok b' /\ book_sim a' b'.
Proof.
  intros Hx (Hc & Ht & Ho). unfold apply_fact in *.
  apply rbind_Ok in Hx as (a1 & Hx & Ha). injection Ha as <-.
  assert (exists b1, apply_fact_state b f = Ok b1 /\ book_sim a1 b1) as (b1 & -> & Hs).
  2:{ simpl. eexists; split; [reflexivity|]. exact Hs. }
  unfold book_sim. destruct f; unfold apply_fact_state, apply_tab_closed, apply_tab_opened,
    apply_context_created, apply_download_settled, owned_context in *; rewrite <- ?Hc, <- ?Ht;
    try (ok_inv; repeat match goal with
      | Hx : ?x = Ok _ |- context [?x] => rewrite Hx; simpl
      | Hx : ?x = Some _ |- context [?x] => rewrite Hx; simpl
      | Hx : ?x = true |- context [?x] => rewrite Hx; simpl
      end; simpl; eexists; split; [reflexivity|]; simpl; rewrite <- ?Hc, <- ?Ht;
      repeat case_match; simpl; rewrite <- ?Hc, <- ?Ht; done).
  - unfold apply_request_accepted in *.
    assert (exists o, match bk_contexts a !! context_id with
              | Some context => Some (cs_task_id context)
              | None => if bool_decide (task_id ∈ bk_open_tasks a) then Some task_id else None
              end = Some o
            /\ match bk_contexts b !! context_id with
              | Some context => Some (cs_task_id context)
              | None => if bool_decide (task_id ∈ bk_open_tasks b) then Some task_id else None
              end = Some o) as (o & Ea & Eb).
    { apply rbind_Ok in Hx as (o & Ea%ok_or_Ok & _). exists o. split; [done|].
      rewrite <- Hc. destruct (bk_contexts a !! context_id); [done|].
      destruct (bool_decide_reflect (task_id ∈ bk_open_tasks a)); [|done].
      rewrite bool_decide_true; [done|]. by apply Ho. }
    rewrite Ea in Hx. rewrite Eb. simpl in *.
    destruct (guard (o =? task_id) BrCrossTask); [|done]. simpl in *.
    rewrite <- Hc. destruct (match bk_contexts a !! context_id with Some _ => _ | None => _ end);
      [|done]. simpl in *.
    destruct (bk_receipts a !! request_id), (bk_receipts b !! request_id); injection Hx as <-;
      eexists; split; try reflexivity; done.
  - ok_inv. repeat match goal with Hb : bool_decide _ = true |- _ => apply bool_decide_eq_true in Hb end.
    rewrite bool_decide_true by (by apply Ho). simpl.
    repeat match goal with Hx : _ = true |- _ => rewrite Hx end. simpl.
    eexists; split; [reflexivity|]. simpl. by rewrite <- Hc.
Qed.

Lemma run_facts_sim facts : forall a b a',
  run_facts a facts = Ok a' -> book_sim a b ->
  exists b', run_facts b facts = Ok b' /\ book_sim a' b'.
Proof.
  induction facts as [|f facts IH]; intros a b a'; simpl.
  - intros [= <-]. eauto.
  - intros Hx Hs. apply rbind_Ok in Hx as (a1 & H1 & Hx).
    destruct (apply_fact_sim _ _ _ _ H1 Hs) as (b1 & -> & Hs1). simpl. by eapply IH.
Qed.

(** The books one task's journal can produce: fact batches, receipt
    bookkeeping ([admit_request], [settle]) and closing the task. *)
Inductive task_book (t : TaskId) : BrowserBook -> Prop :=
| tb_open b : open_task book_new t = Ok b -> task_book t b
| tb_facts b facts b' :
    task_book t b -> Forall (fun f => fact_task_id f = t) facts ->
    try_apply_facts b facts = Ok b' -> task_book t b'
| tb_receipts b m : task_book t b -> task_book t (with_receipts b m)
| tb_close b : task_book t b -> task_book t (with_open_tasks b (bk_open_tasks b ∖ {[t]})).

Lemma open_task_new t : open_task book_new t = Ok (with_open_tasks book_new ({[t]} ∪ ∅)).
Proof. unfold open_task. rewrite bool_decide_false; [done|]. set_solver. Qed.

Lemma task_book_inv t b :
  task_book t b ->
  Forall (fun f => fact_task_id f = t) (bk_facts b)
  /\ count (bk_facts b) <= MAX_BROWSER_JOURNAL_FACTS
  /\ exists r, run_facts (with_open_tasks book_new ({[t]} ∪ ∅)) (bk_facts b) = Ok r
               /\ book_sim b r.
Proof.
  induction 1 as [b Ho|b facts b' _ (Hall & Hcnt & r & Hr & Hs) Hf Hx|b m _ IH|b _ IH].
  - rewrite open_task_new in Ho. injection Ho as <-. split_and!; [constructor|done|].
    eexists; split; [reflexivity|]. done.
  - pose proof (try_apply_facts_journal _ _ _ Hx) as [Hj Hb].
    apply try_apply_facts_Ok in Hx as [Hx _].
    destruct (run_facts_sim _ _ _ _ Hx Hs) as (r' & Hr' & Hs').
    rewrite Hj. split_and!.
    + by apply Forall_app.
    + rewrite <- Hj. by apply Hb.
    + exists r'. split; [|done]. rewrite run_facts_app, Hr. exact Hr'.
  - destruct IH as (? & ? & r & ? & Hs). split_and!; [done|done|]. exists r. done.
  - destruct IH as (? & ? & r & ? & ? & ? & Ho). split_and!; [done|done|].
    exists r. split; [done|]. split_and!; [done|done|]. simpl. set_solver.
Qed.

Lemma open_all_same t facts b :
  Forall (fun f => fact_task_id f = t) facts -> t ∈ bk_open_tasks b -> open_all b facts = Ok b.
Proof.
  intros Hall Hin. induction Hall as [|f facts Hf _ IH]; [done|]. simpl. rewrite Hf.
  unfold open_task. rewrite bool_decide_true by done. simpl. exact IH.
Qed.
End ReplayLemmas.

(** ** Properties *)

(** C14: a batch of browser facts is all or nothing: when any fact is refused,
    or the journal has no room, the whole book is exactly what it was; when
    the batch is accepted the journal is extended by it, in order, within its
    bound, and readiness and the set of open tasks are untouched. *)
Theorem apply_facts_atomic `{UrlParser} (b b' : BrowserBook) (facts : list BrowserDurableFact)
    (r : result unit BrowserContractError) (Hrun : apply_facts b facts = (b', r)) :
  match r with
  | Err _ => b' = b
  | Ok _ =>
      bk_facts b' = bk_facts b ++ facts
      /\ (count (bk_facts b) <= MAX_BROWSER_JOURNAL_FACTS ->
          count (bk_facts b') <= MAX_BROWSER_JOURNAL_FACTS)
      /\ bk_ready b' = bk_ready b /\ bk_open_tasks b' = bk_open_tasks b
  end.
Proof.
  destruct r as [u|e].
  - assert (try_apply_facts b facts = Ok b') as Ht by (unfold try_apply_facts; by rewrite Hrun).
    pose proof (try_apply_facts_journal _ _ _ Ht) as [Hj Hb].
    apply try_apply_facts_Ok in Ht as [Hr _]. apply run_facts_frame in Hr as (? & ? & _). done.
  - unfold apply_facts in Hrun. destruct (is_empty facts); [done|].
    destruct (_ <? _); [by injection Hrun as <- <-|].
    destruct (apply_facts_loop b facts) as [b1 [u|e1]] eqn:E; [done|].
    apply apply_facts_loop_frame in E as (Er & Eo & _). injection Hrun as <- <-.
    destruct b, b1; simpl in *; by subst.
Qed.

(** A browser request planned for the first time is applicable: the facts
    of its receipt, bound to the accepting command, run on the book it was
    planned against without any refusal. *)
Theorem fresh_admission_applies `{Sha256} `{UrlParser} `{BrowserWire}
    (b : BrowserBook) (r : BrowserRequest) (acc : BrowserAcceptedReceipt)
    (command : CommandId) (epoch : N)
    (Hplan : plan_admit b r = Ok acc)
    (Hfresh : bk_receipts b !! br_request_id r = None)
    (Hgen : generation_current b r) :
  exists b', try_apply_facts b (ba_facts (bind_command acc command epoch)) = Ok b'
    /\ is_some (bk_receipts b' !! br_request_id r) = true.
Proof.
  destruct (plan_bound_applies b r acc command epoch Hplan Hfresh Hgen) as [b' Hx].
  exists b'. split; [done|]. apply try_apply_facts_Ok in Hx as [Hx _].
  destruct (plan_admit_fresh _ _ _ Hplan Hfresh) as (identity & Hf & _).
  unfold bind_command in Hx. cbn [ba_facts] in Hx. rewrite Hf in Hx. cbn [map] in Hx.
  unfold accepted_fact in Hx. cbn [bind_fact run_facts] in Hx.
  apply rbind_Ok in Hx as (b1 & Hb1 & Hx). eapply run_facts_keeps_receipt; [exact Hx|].
  by eapply apply_accepted_receipt.
Qed.

(** Closing a task in the browser book succeeds whenever the journal has
    room for the closing facts, leaves no open tab or context of the task,
    closes the task to further work and re-opens nothing. *)
Theorem close_task_closes `{UrlParser} (b : BrowserBook) (task : TaskId)
    (Hopen : task ∈ bk_open_tasks b)
    (Hroom : count (bk_facts b) + count (plan_close_task b task) <= MAX_BROWSER_JOURNAL_FACTS) :
  exists b', close_task b task = Ok b'
    /\ plan_close_task b' task = []
    /\ (task ∉ bk_open_tasks b')
    /\ close_rel b b'.
Proof.
  destruct (run_closing (plan_close_task b task) b (plan_close_task_closes b task))
    as (b1 & E1 & R1 & C1).
  exists (with_open_tasks b1 (bk_open_tasks b1 ∖ {[task]})). split_and!.
  - by apply close_task_run.
  - destruct R1 as (N1 & N2 & T1 & X1).
    unfold plan_close_task. simpl.
    rewrite !list_filter_nil; [done| |].
    + intros [k c'] Hin%elem_of_sorted_entries. simpl.
      destruct (N.eqb_spec (cs_task_id c') task) as [Ht|]; [|done]. simpl.
      apply negb_false_iff. destruct (bk_contexts b !! k) as [c|] eqn:Hk;
        [|apply N2 in Hk; congruence].
      destruct (X1 _ _ Hk) as (c1 & H1 & E2 & _ & Hcl). rewrite Hin in H1. injection H1 as <-.
      destruct (cs_closed c) eqn:Hcc; [by apply Hcl|].
      pose proof (plan_close_task_context b task k c Hk ltac:(congruence) Hcc) as Hp.
      pose proof (proj1 (Forall_forall _ _) C1 _ Hp) as (c2 & H2 & H3).
      rewrite Hin in H2. by injection H2 as <-.
    + intros [k t'] Hin%elem_of_sorted_entries. simpl.
      destruct (N.eqb_spec (ts_task_id t') task) as [Ht|]; [|done]. simpl.
      apply negb_false_iff. destruct (bk_tabs b !! k) as [t|] eqn:Hk;
        [|apply N1 in Hk; congruence].
      destruct (T1 _ _ Hk) as (t1 & H1 & E2 & _ & Hcl). rewrite Hin in H1. injection H1 as <-.
      destruct (ts_closed t) eqn:Hcc; [by apply Hcl|].
      pose proof (plan_close_task_tab b task k t Hk ltac:(congruence) Hcc) as Hp.
      pose proof (proj1 (Forall_forall _ _) C1 _ Hp) as (t2 & H2 & H3).
      rewrite Hin in H2. by injection H2 as <-.
  - simpl. set_solver.
  - exact R1.
Qed.

(** The durable journal is enough: replaying the facts a task's book has
    recorded yields the same contexts and tabs, whatever mix of batches,
    receipts, settlements and closing produced them. *)
Theorem replay_reproduces_identities `{UrlParser} (t : TaskId) (b : BrowserBook)
    (Hb : task_book t b) :
  replay_browser_snapshot (bk_facts b) = Ok (identity_snapshot b).
Proof.
  destruct (task_book_inv t b Hb) as (Hall & Hcnt & r & Hr & Hc & Ht & _).
  unfold replay_browser_snapshot. apply N.ltb_ge in Hcnt. rewrite Hcnt. cbn [negb guard rbind].
  destruct (bk_facts b) as [|f facts] eqn:Hf.
  - simpl in Hr. injection Hr as <-. simpl in *. unfold identity_snapshot. by rewrite Hc, Ht.
  - assert (open_all book_new (f :: facts) = Ok (with_open_tasks book_new ({[t]} ∪ ∅))) as ->.
    { inversion Hall as [|? ? Hft Hall']; subst. simpl. rewrite open_task_new. simpl.
      apply (open_all_same (fact_task_id f)); [done|simpl; set_solver]. }
    cbn [rbind].
    assert (try_apply_facts (with_open_tasks book_new ({[t]} ∪ ∅)) (f :: facts) = Ok r) as ->.
    { apply try_apply_facts_Ok. split; [done|]. right. apply journal_room.
      apply N.ltb_ge in Hcnt. simpl. rewrite count_nil. lia. }
    simpl. unfold identity_snapshot. by rewrite Hc, Ht.
Qed.

(** settling a host outcome is idempotent and exclusive: the same outcome
    presented again changes nothing and returns a receipt, and any different
    outcome for a settled request is refused. *)
Theorem settle_idempotent `{UrlParser} (b b' : BrowserBook) (o : BrowserHostOutcome)
    (acc : BrowserAcceptedReceipt)
    (Hrun : settle b o = Ok (b', acc)) :
  exists acc', settle b' o = Ok (b', acc')
  /\ (forall s, s <> bo_settlement o ->
        settle b' {| bo_request_id := bo_request_id o; bo_task_id := bo_task_id o;
                     bo_context_id := bo_context_id o; bo_tab_id := bo_tab_id o;
                     bo_generation := bo_generation o; bo_settlement := s |}
        = Err BrIdempotencyConflict).
Proof.
  assert (exists rc, bk_receipts b' !! bo_request_id o = Some rc
            /\ rc_settled rc = true /\ rc_settlement rc = Some (bo_settlement o)
            /\ guard (negb (negb (br_task_id (rc_request rc) =? bo_task_id o)
               || negb (br_context_id (rc_request rc) =? bo_context_id o)
               || negb (br_tab_id (rc_request rc) =?= bo_tab_id o)
               || negb (br_generation (rc_request rc) =? bo_generation o))) BrInvalidRequest = Ok tt)
    as (rc & Hrc & Hs & Hset & Hg).
  { unfold settle in Hrun. apply rbind_Ok in Hrun as (rc & Hrc%ok_or_Ok & Hrun).
    apply rbind_Ok in Hrun as ([] & Hg & Hrun). destruct (rc_settled rc) eqn:Hs.
    - destruct (rc_settlement rc =?= Some (bo_settlement o)) eqn:He; [|done].
      injection Hrun as <- <-. exists rc. apply eqb_true_1 in He. done.
    - apply rbind_Ok in Hrun as (facts & Hf & Hrun). apply rbind_Ok in Hrun as (b1 & Hb1 & Hrun).
      apply rbind_Ok in Hrun as (stored & Hst%ok_or_Ok & Hrun). injection Hrun as <- _. simpl.
      rewrite lookup_insert_eq. eexists; split; [reflexivity|]. simpl. split_and!; try done.
      assert (stored = rc) as ->; [|done].
      assert (bk_receipts b1 = bk_receipts b) as Hsame; [|congruence].
      apply try_apply_facts_Ok in Hb1 as [Hb1 _].
      eapply run_facts_receipts; [exact Hb1 | by eapply settlement_facts_plain]. }
  exists (rc_accepted rc). split.
  - unfold settle. rewrite Hrc. cbn [ok_or rbind]. rewrite Hg. cbn [rbind].
    by rewrite Hs, Hset, eqb_refl.
  - intros s Hne. unfold settle. simpl. rewrite Hrc. cbn [ok_or rbind]. rewrite Hg. cbn [rbind].
    rewrite Hs, Hset. destruct (Some (bo_settlement o) =?= Some s) eqn:E; [|done].
    apply eqb_true_1 in E. congruence.
Qed.

(** only the host-owned surface settles a held request: an outcome exists
    exactly when authority and intent name the same task, context, resource
    and nonzero generation, and the outcome carries that identity. *)
Theorem settler_chain_identity (a : BrowserServiceAuthority) (i : BrowserHostSettleIntent)
    (o : BrowserHostOutcome) :
  rbind (from_host_owned_surface a i) (fun token => settle_accepted_hold token i) = Ok o <->
  au_task_id a = hi_task_id i /\ au_context_id a = hi_context_id i
  /\ hi_resource_id i = Some (au_resource_id a) /\ au_generation a = hi_generation i
  /\ au_generation a <> 0
  /\ o = {| bo_request_id := hi_request_id i; bo_task_id := au_task_id a;
            bo_context_id := au_context_id a; bo_tab_id := None;
            bo_generation := hi_generation i;
            bo_settlement := SetRecovered (hi_generation i) |}.
Proof.
  split.
  - intros H. unfold from_host_owned_surface, settle_accepted_hold, matches_host_surface,
      matches_accepted_hold in H. ok_inv.
    repeat match goal with
    | Hx : negb _ = true |- _ => apply negb_true_iff in Hx
    | Hx : _ || _ = false |- _ => apply orb_false_iff in Hx as [? ?]
    | Hx : negb _ = false |- _ => apply negb_false_iff in Hx
    | Hx : (_ =? _) = true |- _ => apply N.eqb_eq in Hx
    | Hx : (_ =? _) = false |- _ => apply N.eqb_neq in Hx
    end. subst. split_and!; congruence.
  - intros (Ht & Hc & Hr & Hg & Hnz & ->).
    apply N.eqb_neq in Hnz.
    unfold from_host_owned_surface, settle_accepted_hold, matches_host_surface,
      matches_accepted_hold. rewrite Hr. simpl.
    rewrite <- Ht, <- Hc, <- Hg. do 3 (rewrite ?N.eqb_refl, ?Hnz; simpl). done.
Qed.

(** ** Witnesses *)

#[local] Instance sample_sha : Sha256 := fun m => repeat (count m mod 256) 32.
#[local] Instance sample_urls : UrlParser :=
  fun raw => Some {| url_scheme := lit "https"; url_username := []; url_password := None;
                     url_host_str := Some raw; url_port := None; url_query := None;
                     url_fragment := None |}.
#[local] Instance sample_wire : BrowserWire :=
  {| rmp_request := fun r => Some [br_request_id r];
     rmp_rows := fun rows => Some (repeat 1 (length rows)) |}.

Definition sample_request (id ctx : N) (tab : option N) (g : N) (a : BrowserAction)
    : BrowserRequest :=
  {| br_request_id := id; br_task_id := 1; br_context_id := ctx; br_tab_id := tab;
     br_generation := g; br_action := a |}.

Definition sample_book : BrowserBook := with_open_tasks book_new {[1]}.

Definition sample_context_facts : list BrowserDurableFact :=
  [ FactContextCreated 40 1 1; FactTabOpened 41 40 1 TabPage (lit "about:blank");
    FactTabSelected 41 40 1 ].

Definition sample_book_with_tab : BrowserBook :=
  match try_apply_facts sample_book sample_context_facts with Ok b => b | Err _ => sample_book end.

Lemma apply_facts_atomic_witness :
  fst (apply_facts sample_book [FactContextCreated 40 1 1; FactContextCreated 40 1 1])
  = sample_book.
Proof.
  pose proof (apply_facts_atomic sample_book
    (fst (apply_facts sample_book [FactContextCreated 40 1 1; FactContextCreated 40 1 1]))
    [FactContextCreated 40 1 1; FactContextCreated 40 1 1] (Err BrInvalidRequest)) as H.
  apply H. by vm_compute.
Defined.

Lemma fresh_admission_applies_witness :
  exists acc b', plan_admit sample_book (sample_request 7 40 None 1 ActCreateContext) = Ok acc
    /\ try_apply_facts sample_book (ba_facts (bind_command acc 99 3)) = Ok b'.
Proof.
  destruct (plan_admit sample_book (sample_request 7 40 None 1 ActCreateContext)) as [acc|] eqn:E;
    [|vm_compute in E; discriminate].
  destruct (fresh_admission_applies _ _ _ 99 3 E) as (b' & Hb' & _);
    [reflexivity | by intros c Hc|].
  by exists acc, b'.
Defined.

Lemma close_task_closes_witness :
  exists b', close_task sample_book_with_tab 1 = Ok b' /\ plan_close_task b' 1 = [].
Proof.
  destruct (close_task_closes sample_book_with_tab 1) as (b' & H1 & H2 & _);
    [apply (bool_decide_unpack _); by vm_compute | by vm_compute|].
  by exists b'.
Defined.

Lemma replay_reproduces_identities_witness :
  replay_browser_snapshot (bk_facts sample_book_with_tab)
  = Ok (identity_snapshot sample_book_with_tab).
Proof.
  apply (replay_reproduces_identities 1).
  apply (tb_facts 1 (with_open_tasks book_new ({[1]} ∪ ∅)) sample_context_facts).
  - constructor. by vm_compute.
  - by repeat constructor.
  - by vm_compute.
Defined.

Definition sample_settled_book : BrowserBook :=
  with_receipts sample_book_with_tab
    {[8 := {| rc_request := sample_request 8 40 (Some 41) 1 ActRecord;
              rc_accepted :=
                {| ba_request_id := 8; ba_command_id := None; ba_task_id := 1;
                   ba_context_id := 40; ba_tab_id := Some 41; ba_generation := 1;
                   ba_action := ActRecord; ba_facts := []; ba_privacy_class := LocalOnly;
                   ba_permission := PermRecord; ba_payload_hash := []; ba_action_epoch := 0 |};
              rc_settled := false; rc_settlement := None |} ]}.

Definition sample_outcome : BrowserHostOutcome :=
  {| bo_request_id := 8; bo_task_id := 1; bo_context_id := 40; bo_tab_id := Some 41;
     bo_generation := 1; bo_settlement := SetRecordingIdentified (lit "rec") |}.

Lemma settle_idempotent_witness :
  exists b' acc', settle sample_settled_book sample_outcome = Ok (b', acc')
    /\ exists acc'', settle b' sample_outcome = Ok (b', acc'').
Proof.
  destruct (settle sample_settled_book sample_outcome) as [[b' acc]|] eqn:E;
    [|vm_compute in E; discriminate].
  destruct (settle_idempotent sample_settled_book b' sample_outcome acc E) as (acc' & Hacc & _).
  exists b', acc. split; [done|]. by exists acc'.
Defined.

(** The cursor a page returns names the first row it left out, and the next
    page starts strictly after its cursor: with two contexts and pages of one
    item, walking the pages never shows the second context. *)
Definition two_context_book : BrowserBook :=
  match try_apply_facts sample_book [FactContextCreated 50 1 1; FactContextCreated 60 1 1] with
  | Ok b => b
  | Err _ => sample_book
  end.

Example snapshot_page_skips_row :
  (let? p := snapshot_page two_context_book SectionContexts None 1 1000 in
   let? q := snapshot_page two_context_book SectionContexts (pg_next_after p) 1 1000 in
   Ok (count (pg_items p), pg_next_after p, pg_items q, pg_next_after q))
  = Ok (1, Some (KeyContext 60), [], None).
Proof. by vm_compute. Qed.

(** A prior request is answered from its receipt before any bound is looked
    at: with a full journal the replay is planned but its fact has no room. *)
Definition full_book : BrowserBook :=
  with_facts sample_settled_book (repeat (FactContextCreated 40 1 1) 1000).

Example replayed_request_overflows_journal :
  (let? acc := plan_admit full_book (sample_request 8 40 (Some 41) 1 ActRecord) in
   Ok (try_apply_facts full_book (ba_facts acc))) = Ok (Err BrBoundExceeded).
Proof. by vm_compute. Qed.

(** With the same full journal an open context cannot be closed, so the task
    cannot be closed either. *)
Example full_journal_blocks_close :
  close_task full_book 1 = Err BrBoundExceeded.
Proof. by vm_compute. Qed.
