(* ===== verification/Operation.v ===== *)
(** Operations: outcome provenance, resource fences, the durable operation facts
    and the host clean-up branches ([operation.rs], [host.rs], the operation
    facts of [event.rs]). *)
From S2P Require Import Prelude Canonical.

Definition MAX_EXTERNAL_IDENTITY_BYTES : N := 256.

Inductive OperationErrorCode := SideEffectFailed | CleanupFailed.
Inductive CancellationReason := Superseded.
Inductive OperationUncertaintyCode := AmbiguousDispatch.

Inductive OutcomeFenceError :=
| PartialResourceFence
| InvalidSourceForKind
| EmptyExternalIdentity
| ExternalIdentityTooLong.

#[export] Instance OperationErrorCode_eq_dec : EqDecision OperationErrorCode.
Proof. solve_decision. Defined.
#[export] Instance CancellationReason_eq_dec : EqDecision CancellationReason.
Proof. solve_decision. Defined.
#[export] Instance OperationUncertaintyCode_eq_dec : EqDecision OperationUncertaintyCode.
Proof. solve_decision. Defined.
#[export] Instance OutcomeFenceError_eq_dec : EqDecision OutcomeFenceError.
Proof. solve_decision. Defined.

Definition validate_outcome_fence (resource_id : option ResourceId) (generation : option N)
    : result unit OutcomeFenceError :=
  match resource_id, generation with
  | None, None | Some _, Some _ => Ok tt
  | _, _ => Err PartialResourceFence
  end.

Definition canonicalize_external_identity (value : text) : result text OutcomeFenceError :=
  let? canonical := ok_or (canonicalize value) EmptyExternalIdentity in
  ensure negb (MAX_EXTERNAL_IDENTITY_BYTES <? len canonical) else ExternalIdentityTooLong ;;
  Ok canonical.

Definition require_canonical_external_identity (value : text) : result unit OutcomeFenceError :=
  ensure negb (is_empty value || negb (is_canonical value)) else EmptyExternalIdentity ;;
  ensure negb (MAX_EXTERNAL_IDENTITY_BYTES <? len value) else ExternalIdentityTooLong ;;
  Ok tt.

Record ResourceFence := {
  rfe_resource_id : ResourceId;
  rfe_runtime_generation : N;
}.

Definition fence_from_parts (resource_id : option ResourceId) (generation : option N)
    : result (option ResourceFence) OutcomeFenceError :=
  match resource_id, generation with
  | Some r, Some g => Ok (Some {| rfe_resource_id := r; rfe_runtime_generation := g |})
  | None, None => Ok None
  | _, _ => Err PartialResourceFence
  end.

Definition fence_into_parts (f : option ResourceFence) : option ResourceId * option N :=
  match f with
  | Some f => (Some (rfe_resource_id f), Some (rfe_runtime_generation f))
  | None => (None, None)
  end.

Inductive OutcomeSource :=
| SourceDispatch
| SourceVerifiedReconciliation (effect_index : N) (external_identity : text).

#[export] Instance OutcomeSource_eq_dec : EqDecision OutcomeSource.
Proof. solve_decision. Defined.

Definition verified_reconciliation (effect_index : N) (external_identity : text)
    : result OutcomeSource OutcomeFenceError :=
  let? id := canonicalize_external_identity external_identity in
  Ok (SourceVerifiedReconciliation effect_index id).

Definition source_validate (s : OutcomeSource) : result unit OutcomeFenceError :=
  match s with
  | SourceDispatch => Ok tt
  | SourceVerifiedReconciliation _ id => require_canonical_external_identity id
  end.

Inductive OperationOutcomeKind :=
| OutcomeSettled (result_event_ids : list EventId)
| OutcomeFailed (code : OperationErrorCode)
| OutcomeCancelled (reason : CancellationReason)
| OutcomeUncertain (code : OperationUncertaintyCode).

Definition allows_verified_reconciliation (k : OperationOutcomeKind) : bool :=
  match k with OutcomeSettled _ | OutcomeFailed _ => true | _ => false end.

Definition validate_source_for_kind (s : OutcomeSource) (k : OperationOutcomeKind)
    : result unit OutcomeFenceError :=
  match s, allows_verified_reconciliation k with
  | SourceDispatch, _ => Ok tt
  | SourceVerifiedReconciliation _ _, true => Ok tt
  | SourceVerifiedReconciliation _ _, false => Err InvalidSourceForKind
  end.

Record OperationOutcome := {
  oo_operation_id : OperationId;
  oo_occurred_at_ms : Z;
  oo_action_epoch : option N;
  oo_resource_fence : option ResourceFence;
  oo_source : OutcomeSource;
  oo_kind : OperationOutcomeKind;
}.

Definition outcome_validate (o : OperationOutcome) : result unit OutcomeFenceError :=
  try? source_validate (oo_source o) ;;
  validate_source_for_kind (oo_source o) (oo_kind o).

Definition outcome_new (operation_id : OperationId) (occurred_at_ms : Z)
    (action_epoch : option N) (fence : option ResourceFence) (source : OutcomeSource)
    (kind : OperationOutcomeKind) : result OperationOutcome OutcomeFenceError :=
  try? source_validate source ;;
  try? validate_source_for_kind source kind ;;
  Ok {| oo_operation_id := operation_id; oo_occurred_at_ms := occurred_at_ms;
        oo_action_epoch := action_epoch; oo_resource_fence := fence; oo_source := source;
        oo_kind := kind |}.

(** ** Durable operation facts *)

Record OperationAcceptedFact := {
  oa_command_id : CommandId;
  oa_operation_id : OperationId;
  oa_accepted_at_ms : Z;
  oa_action_epoch : option N;
  oa_resource_id : option ResourceId;
  oa_runtime_generation : option N;
}.

Record OperationSettledFact := {
  os_command_id : CommandId;
  os_operation_id : OperationId;
  os_settled_at_ms : Z;
  os_result_event_ids : list EventId;
  os_action_epoch : option N;
  os_resource_id : option ResourceId;
  os_runtime_generation : option N;
  os_source : OutcomeSource;
}.

Record OperationFailedFact := {
  of_command_id : CommandId;
  of_operation_id : OperationId;
  of_settled_at_ms : Z;
  of_code : OperationErrorCode;
  of_action_epoch : option N;
  of_resource_id : option ResourceId;
  of_runtime_generation : option N;
  of_source : OutcomeSource;
}.

Record OperationCancelledFact := {
  oc_command_id : CommandId;
  oc_operation_id : OperationId;
  oc_settled_at_ms : Z;
  oc_reason : CancellationReason;
  oc_action_epoch : option N;
  oc_resource_id : option ResourceId;
  oc_runtime_generation : option N;
}.

Record OperationUncertainFact := {
  ou_command_id : CommandId;
  ou_operation_id : OperationId;
  ou_observed_at_ms : Z;
  ou_code : OperationUncertaintyCode;
  ou_action_epoch : option N;
  ou_resource_id : option ResourceId;
  ou_runtime_generation : option N;
}.

#[export] Instance OperationAcceptedFact_eq_dec : EqDecision OperationAcceptedFact.
Proof. solve_decision. Defined.
#[export] Instance OperationSettledFact_eq_dec : EqDecision OperationSettledFact.
Proof. solve_decision. Defined.
#[export] Instance OperationFailedFact_eq_dec : EqDecision OperationFailedFact.
Proof. solve_decision. Defined.
#[export] Instance OperationCancelledFact_eq_dec : EqDecision OperationCancelledFact.
Proof. solve_decision. Defined.
#[export] Instance OperationUncertainFact_eq_dec : EqDecision OperationUncertainFact.
Proof. solve_decision. Defined.

Definition operation_accepted_validate (f : OperationAcceptedFact) : result unit OutcomeFenceError :=
  validate_outcome_fence (oa_resource_id f) (oa_runtime_generation f).

Definition operation_settled_validate (f : OperationSettledFact) : result unit OutcomeFenceError :=
  try? validate_outcome_fence (os_resource_id f) (os_runtime_generation f) ;;
  source_validate (os_source f).

Definition operation_failed_validate (f : OperationFailedFact) : result unit OutcomeFenceError :=
  try? validate_outcome_fence (of_resource_id f) (of_runtime_generation f) ;;
  source_validate (of_source f).

Definition operation_cancelled_validate (f : OperationCancelledFact)
    : result unit OutcomeFenceError :=
  validate_outcome_fence (oc_resource_id f) (oc_runtime_generation f).

Definition operation_uncertain_validate (f : OperationUncertainFact)
    : result unit OutcomeFenceError :=
  validate_outcome_fence (ou_resource_id f) (ou_runtime_generation f).

(** ** Host clean-up branches *)

Inductive HostCleanupBranch := AgentSessions | Resources | OutstandingEffects | TaskTeardowns.

#[export] Instance HostCleanupBranch_eq_dec : EqDecision HostCleanupBranch.
Proof. solve_decision. Defined.

Definition cleanup_order : list HostCleanupBranch :=
  [AgentSessions; Resources; OutstandingEffects; TaskTeardowns].

Definition branch_as_str (b : HostCleanupBranch) : text :=
  match b with
  | AgentSessions => lit "agent_sessions"
  | Resources => lit "resources"
  | OutstandingEffects => lit "outstanding_effects"
  | TaskTeardowns => lit "task_teardowns"
  end.

Definition branch_parse (value : text) : option HostCleanupBranch :=
  if value =?= lit "agent_sessions" then Some AgentSessions
  else if value =?= lit "resources" then Some Resources
  else if value =?= lit "outstanding_effects" then Some OutstandingEffects
  else if value =?= lit "task_teardowns" then Some TaskTeardowns
  else None.

(** [Failed] carries a [NonZeroU64]: its only constructor is [failed]. *)
Inductive HostCleanupBranchOutcome :=
| BranchSucceeded
| BranchFailed (remaining_count : N).

#[export] Instance HostCleanupBranchOutcome_eq_dec : EqDecision HostCleanupBranchOutcome.
Proof. solve_decision. Defined.

Definition branch_failed (remaining_count : N) : option HostCleanupBranchOutcome :=
  if remaining_count =? 0 then None else Some (BranchFailed remaining_count).

Definition branch_remaining (o : HostCleanupBranchOutcome) : N :=
  match o with BranchSucceeded => 0 | BranchFailed n => n end.

(** ** Lemmas *)

Lemma fence_parts_roundtrip f :
  let '(r, g) := fence_into_parts f in fence_from_parts r g = Ok f.
Proof. by destruct f as [[r g]|]. Qed.

Lemma branch_parse_as_str b : branch_parse (branch_as_str b) = Some b.
Proof. by destruct b. Qed.

Lemma canonicalize_external_identity_Ok value id :
  canonicalize_external_identity value = Ok id ->
  require_canonical_external_identity id = Ok tt.
Proof.
  unfold canonicalize_external_identity, require_canonical_external_identity. intros H.
  apply rbind_Ok in H as (c & Hc%ok_or_Ok & H). apply rbind_Ok in H as (? & Hl%guard_negb & H).
  injection H as <-. rewrite (canonicalize_is_canonical _ _ Hc).
  apply canonicalize_Some in Hc as [_ Hne]. apply is_empty_false in Hne.
  by rewrite Hne, Hl.
Qed.
