(* ===== verification/Snapshot.v ===== *)
(** The task snapshot: the state one task's events fold into, its derived
    visible status, and the bounds of snapshot pages ([snapshot.rs]). *)
From S2P Require Import Prelude Canonical Task Agent Resource Artifact ProviderInput Browser.

Record TaskSnapshot := {
  sn_task : TaskFacts;
  sn_connectivity : TaskConnectivity;
  sn_attention : TaskAttention;
  sn_activity : TaskActivity;
  sn_review_readiness : ReviewReadiness;
  sn_agents : gmap N AgentSessionFacts;
  sn_primary_agent_id : option AgentSessionId;
  sn_artifacts : gmap N ArtifactFacts;
  sn_resources : gmap N ResourceFacts;
  sn_provider_sessions : gmap N ProviderSessionProjection;
  sn_browser : BrowserBook;
  sn_terminal_facts : gmap N TerminalFacts;
  sn_terminal_strip : TaskTerminalStrip;
}.

#[export] Instance TaskSnapshot_eq_dec : EqDecision TaskSnapshot.
Proof. solve_decision. Defined.

(** ** Field updates *)

Definition set_task (s : TaskSnapshot) (t : TaskFacts) : TaskSnapshot :=
  {| sn_task := t; sn_connectivity := sn_connectivity s; sn_attention := sn_attention s;
     sn_activity := sn_activity s; sn_review_readiness := sn_review_readiness s;
     sn_agents := sn_agents s; sn_primary_agent_id := sn_primary_agent_id s;
     sn_artifacts := sn_artifacts s; sn_resources := sn_resources s;
     sn_provider_sessions := sn_provider_sessions s; sn_browser := sn_browser s;
     sn_terminal_facts := sn_terminal_facts s; sn_terminal_strip := sn_terminal_strip s |}.

Definition set_attention (s : TaskSnapshot) (a : TaskAttention) : TaskSnapshot :=
  {| sn_task := sn_task s; sn_connectivity := sn_connectivity s; sn_attention := a;
     sn_activity := sn_activity s; sn_review_readiness := sn_review_readiness s;
     sn_agents := sn_agents s; sn_primary_agent_id := sn_primary_agent_id s;
     sn_artifacts := sn_artifacts s; sn_resources := sn_resources s;
     sn_provider_sessions := sn_provider_sessions s; sn_browser := sn_browser s;
     sn_terminal_facts := sn_terminal_facts s; sn_terminal_strip := sn_terminal_strip s |}.

Definition set_agents (s : TaskSnapshot) (m : gmap N AgentSessionFacts) : TaskSnapshot :=
  {| sn_task := sn_task s; sn_connectivity := sn_connectivity s; sn_attention := sn_attention s;
     sn_activity := sn_activity s; sn_review_readiness := sn_review_readiness s;
     sn_agents := m; sn_primary_agent_id := sn_primary_agent_id s;
     sn_artifacts := sn_artifacts s; sn_resources := sn_resources s;
     sn_provider_sessions := sn_provider_sessions s; sn_browser := sn_browser s;
     sn_terminal_facts := sn_terminal_facts s; sn_terminal_strip := sn_terminal_strip s |}.

Definition set_primary (s : TaskSnapshot) (p : option AgentSessionId) : TaskSnapshot :=
  {| sn_task := sn_task s; sn_connectivity := sn_connectivity s; sn_attention := sn_attention s;
     sn_activity := sn_activity s; sn_review_readiness := sn_review_readiness s;
     sn_agents := sn_agents s; sn_primary_agent_id := p;
     sn_artifacts := sn_artifacts s; sn_resources := sn_resources s;
     sn_provider_sessions := sn_provider_sessions s; sn_browser := sn_browser s;
     sn_terminal_facts := sn_terminal_facts s; sn_terminal_strip := sn_terminal_strip s |}.

Definition set_artifacts (s : TaskSnapshot) (m : gmap N ArtifactFacts) : TaskSnapshot :=
  {| sn_task := sn_task s; sn_connectivity := sn_connectivity s; sn_attention := sn_attention s;
     sn_activity := sn_activity s; sn_review_readiness := sn_review_readiness s;
     sn_agents := sn_agents s; sn_primary_agent_id := sn_primary_agent_id s;
     sn_artifacts := m; sn_resources := sn_resources s;
     sn_provider_sessions := sn_provider_sessions s; sn_browser := sn_browser s;
     sn_terminal_facts := sn_terminal_facts s; sn_terminal_strip := sn_terminal_strip s |}.

Definition set_resources (s : TaskSnapshot) (m : gmap N ResourceFacts) : TaskSnapshot :=
  {| sn_task := sn_task s; sn_connectivity := sn_connectivity s; sn_attention := sn_attention s;
     sn_activity := sn_activity s; sn_review_readiness := sn_review_readiness s;
     sn_agents := sn_agents s; sn_primary_agent_id := sn_primary_agent_id s;
     sn_artifacts := sn_artifacts s; sn_resources := m;
     sn_provider_sessions := sn_provider_sessions s; sn_browser := sn_browser s;
     sn_terminal_facts := sn_terminal_facts s; sn_terminal_strip := sn_terminal_strip s |}.

Definition set_sessions (s : TaskSnapshot) (m : gmap N ProviderSessionProjection)
    : TaskSnapshot :=
  {| sn_task := sn_task s; sn_connectivity := sn_connectivity s; sn_attention := sn_attention s;
     sn_activity := sn_activity s; sn_review_readiness := sn_review_readiness s;
     sn_agents := sn_agents s; sn_primary_agent_id := sn_primary_agent_id s;
     sn_artifacts := sn_artifacts s; sn_resources := sn_resources s;
     sn_provider_sessions := m; sn_browser := sn_browser s;
     sn_terminal_facts := sn_terminal_facts s; sn_terminal_strip := sn_terminal_strip s |}.

Definition set_browser (s : TaskSnapshot) (b : BrowserBook) : TaskSnapshot :=
  {| sn_task := sn_task s; sn_connectivity := sn_connectivity s; sn_attention := sn_attention s;
     sn_activity := sn_activity s; sn_review_readiness := sn_review_readiness s;
     sn_agents := sn_agents s; sn_primary_agent_id := sn_primary_agent_id s;
     sn_artifacts := sn_artifacts s; sn_resources := sn_resources s;
     sn_provider_sessions := sn_provider_sessions s; sn_browser := b;
     sn_terminal_facts := sn_terminal_facts s; sn_terminal_strip := sn_terminal_strip s |}.

Definition set_terminals (s : TaskSnapshot) (m : gmap N TerminalFacts) (strip : TaskTerminalStrip)
    : TaskSnapshot :=
  {| sn_task := sn_task s; sn_connectivity := sn_connectivity s; sn_attention := sn_attention s;
     sn_activity := sn_activity s; sn_review_readiness := sn_review_readiness s;
     sn_agents := sn_agents s; sn_primary_agent_id := sn_primary_agent_id s;
     sn_artifacts := sn_artifacts s; sn_resources := sn_resources s;
     sn_provider_sessions := sn_provider_sessions s; sn_browser := sn_browser s;
     sn_terminal_facts := m; sn_terminal_strip := strip |}.

Definition task_with (t : TaskFacts) (title : text) (l : TaskLifecycle) (epoch revision : N)
    : TaskFacts :=
  {| tf_id := tf_id t; tf_environment_id := tf_environment_id t; tf_title := title;
     tf_description := tf_description t; tf_project_id := tf_project_id t;
     tf_workspace := tf_workspace t; tf_assignment := tf_assignment t; tf_lifecycle := l;
     tf_action_epoch := epoch; tf_revision := revision; tf_created_at_ms := tf_created_at_ms t |}.

Definition set_title (s : TaskSnapshot) (title : text) : TaskSnapshot :=
  let t := sn_task s in
  set_task s (task_with t title (tf_lifecycle t) (tf_action_epoch t) (tf_revision t)).

Definition set_lifecycle (s : TaskSnapshot) (l : TaskLifecycle) : TaskSnapshot :=
  let t := sn_task s in
  set_task s (task_with t (tf_title t) l (tf_action_epoch t) (tf_revision t)).

Definition set_epoch (s : TaskSnapshot) (epoch : N) : TaskSnapshot :=
  let t := sn_task s in
  set_task s (task_with t (tf_title t) (tf_lifecycle t) epoch (tf_revision t)).

Definition set_revision (s : TaskSnapshot) (revision : N) : TaskSnapshot :=
  let t := sn_task s in
  set_task s (task_with t (tf_title t) (tf_lifecycle t) (tf_action_epoch t) revision).

(** ** Derived views *)

Definition values {A} (m : gmap N A) : list A := map snd (map_to_list m).

Definition session_touched (s : ProviderSessionProjection) : bool :=
  is_some (ps_current_turn s) || is_some (ps_open_question s) || is_some (ps_open_approval s)
  || negb (bool_decide (ps_waits s = ∅)) || is_some (ps_last_settlement s).

Definition is_unstarted_draft (s : TaskSnapshot) : bool :=
  if negb (tf_lifecycle (sn_task s) =?= TaskOpen) then false
  else if existsb (fun a => is_some (ag_provider_session_id a)) (values (sn_agents s)) then false
  else if existsb session_touched (values (sn_provider_sessions s)) then false
  else
    match sn_primary_agent_id s with
    | None => false
    | Some primary => is_some (sn_agents s !! primary)
    end.

Definition visible_status (s : TaskSnapshot) : VisibleTaskStatus :=
  if sn_connectivity s =?= Disconnected then VisDisconnected
  else
    match sn_attention s with
    | AttentionFailed => VisFailed
    | UncertainOutcome => VisUncertainOutcome
    | NeedsApproval => VisNeedsApproval
    | NeedsAnswer => VisNeedsAnswer
    | AttentionNone =>
        if tf_lifecycle (sn_task s) =?= TaskSettledL then VisIdle
        else
          let derived := visible_derive (sn_connectivity s) (sn_attention s) (sn_activity s)
                           (sn_review_readiness s) in
          match sn_primary_agent_id s ≫= (fun id => sn_provider_sessions s !! id) with
          | Some session =>
              if is_some (ps_open_approval session) then VisNeedsApproval
              else if is_some (ps_open_question session) then VisNeedsAnswer
              else if is_some (ps_current_turn session) then VisWorking
              else derived
          | None => derived
          end
    end.

Definition QUOTA_DISPLAY_TTL_MS : N := 60 * 60 * 1000.

Definition omit_stale_quota_display {T} (observed_at now_ms : N) (display : T) : option T :=
  if (now_ms <? observed_at) || (QUOTA_DISPLAY_TTL_MS <=? saturating_sub now_ms observed_at)
  then None
  else Some display.

(** ** Plan steps *)

Inductive PlanStepKind := PlanTask | PlanSubagent.
Inductive PlanStepStatus := PlanPending | PlanActive | PlanCompleted | PlanFailed.

#[export] Instance PlanStepStatus_eq_dec : EqDecision PlanStepStatus.
Proof. solve_decision. Defined.
#[export] Instance PlanStepKind_eq_dec : EqDecision PlanStepKind.
Proof. solve_decision. Defined.

Definition plan_status_as_str (s : PlanStepStatus) : text :=
  match s with
  | PlanPending => lit "pending"
  | PlanActive => lit "active"
  | PlanCompleted => lit "completed"
  | PlanFailed => lit "failed"
  end.

Definition one_of (value : text) (l : list string) : bool :=
  existsb (fun s => value =?= lit s) l.

Definition plan_status_from_wire (status : text) : option PlanStepStatus :=
  if one_of status ["pending"; "taskCreated"]%string then Some PlanPending
  else if one_of status ["active"; "running"; "in_progress"; "inProgress"; "taskInProgress";
                         "subagentStarted"]%string then Some PlanActive
  else if one_of status ["completed"; "succeeded"; "taskCompleted"; "subagentStopped";
                         "subagentCompleted"]%string then Some PlanCompleted
  else if one_of status ["failed"]%string then Some PlanFailed
  else None.

Definition provider_plan_step_lifecycle (state : text) : option (PlanStepKind * PlanStepStatus) :=
  if state =?= lit "taskCreated" then Some (PlanTask, PlanPending)
  else if state =?= lit "taskInProgress" then Some (PlanTask, PlanActive)
  else if state =?= lit "taskCompleted" then Some (PlanTask, PlanCompleted)
  else if state =?= lit "subagentStarted" then Some (PlanSubagent, PlanActive)
  else if state =?= lit "subagentStopped" then Some (PlanSubagent, PlanCompleted)
  else None.

(** ** Page limits *)

Definition MAX_SNAPSHOT_PAGE_ITEMS : N := 1000.
Definition MAX_SNAPSHOT_PAGE_ENCODED_BYTES : N := 512 * 1024.

Inductive PageLimitsError := ZeroItems | TooManyItems | ZeroEncodedBytes | TooManyEncodedBytes.

Record PageLimits := {
  pl_max_items : N;
  pl_max_encoded_bytes : N;
}.

Definition page_limits_validate (l : PageLimits) : result unit PageLimitsError :=
  ensure negb (pl_max_items l =? 0) else ZeroItems ;;
  ensure negb (MAX_SNAPSHOT_PAGE_ITEMS <? pl_max_items l) else TooManyItems ;;
  ensure negb (pl_max_encoded_bytes l =? 0) else ZeroEncodedBytes ;;
  ensure negb (MAX_SNAPSHOT_PAGE_ENCODED_BYTES <? pl_max_encoded_bytes l)
    else TooManyEncodedBytes ;;
  Ok tt.

Definition page_limits_new (max_items max_encoded_bytes : N) : result PageLimits PageLimitsError :=
  let limits := {| pl_max_items := max_items; pl_max_encoded_bytes := max_encoded_bytes |} in
  try? page_limits_validate limits ;;
  Ok limits.
