(* ===== verification/Event.v ===== *)
(** Domain events and the fold that applies them to a task snapshot ([event.rs]). *)
From S2P Require Import Prelude Canonical Task Agent Resource Artifact ProviderInput Browser Operation Snapshot.

(** [DEFAULT_MAX_TOP_LEVEL_RUNTIMES] of [command.rs], which [apply] also reads. *)
Definition DEFAULT_MAX_TOP_LEVEL_RUNTIMES : N := 2.

Inductive Event :=
| EvTaskCreated (task : TaskFacts) (connectivity : TaskConnectivity) (attention : TaskAttention)
    (activity : TaskActivity) (review_readiness : ReviewReadiness)
| EvTaskRenamed (title : text)
| EvTaskAttentionSet (attention : TaskAttention)
| EvTaskCloseBegun (action_epoch : N)
| EvTaskSettled
| EvTaskReopened
| EvTaskArchived
| EvTaskDeleted
| EvAgentSessionRegistered (agent : AgentSessionFacts)
| EvAgentProviderSessionBound (agent_session_id : AgentSessionId) (resource_id : ResourceId)
    (provider_session_id : ProviderSessionId) (runtime_generation : N)
| EvAgentProviderSessionAbandoned (agent_session_id : AgentSessionId)
    (abandoned_provider_session_id : ProviderSessionId) (runtime_generation : N)
| EvPrimaryAgentSet (agent_session_id : AgentSessionId)
| EvUnstartedPrimaryProviderRebound (agent_session_id : AgentSessionId)
    (provider_kind : ProviderKind)
| EvSpecialistRequested (specialist_id requested_by : AgentSessionId) (purpose : text)
    (agent : AgentSessionFacts) (permission : SpecialistPermission) (workspace : WorkspaceRef)
    (action_epoch runtime_generation : N) (resource_id : option ResourceId)
| EvPrimaryPromoted (previous promoted : AgentSessionId) (action_epoch runtime_generation : N)
| EvSpecialistHandoffRecorded (specialist_id : AgentSessionId) (artifact : ArtifactFacts)
    (structured : bool) (action_epoch runtime_generation : N)
| EvSpecialistClosed (specialist_id : AgentSessionId) (action_epoch runtime_generation : N)
| EvArtifactRegistered (artifact : ArtifactFacts)
| EvResourceRegistered (resource : ResourceFacts)
| EvResourceReleaseBegun (resource_id : ResourceId) (runtime_generation : N)
| EvResourceReleased (resource_id : ResourceId) (runtime_generation : N)
| EvTerminalRenamed (resource_id : ResourceId) (title : text)
| EvTerminalCwdReported (resource_id : ResourceId) (cwd : path)
| EvTerminalExited (resource_id : ResourceId) (code : option Z) (summary : text)
| EvTerminalActivity (resource_id : ResourceId)
| EvTaskTerminalStripSet (strip : TaskTerminalStrip)
| EvHostCloseBegun (operation_id : OperationId) (action_epoch inspection_id : N)
| EvHostCleanupBranchCompleted (operation_id : OperationId) (action_epoch : N)
    (branch : HostCleanupBranch) (outcome : HostCleanupBranchOutcome)
| EvOperationAccepted (f : OperationAcceptedFact)
| EvOperationSettled (f : OperationSettledFact)
| EvOperationFailed (f : OperationFailedFact)
| EvOperationCancelled (f : OperationCancelledFact)
| EvOperationUncertain (f : OperationUncertainFact)
| EvProviderInputAccepted (command_id : CommandId) (client_id : ClientId)
    (operation_id : OperationId) (agent_session_id : AgentSessionId)
    (provider_kind : ProviderKind) (provider_session_id : option ProviderSessionId)
    (runtime_generation : N) (turn_id : TurnId) (action_epoch : N)
    (question_id : option QuestionId) (approval_id : option ApprovalId)
    (action : ProviderInputAction) (wait : bool) (delivery : ProviderDeliveryVisibility)
| EvProviderQuestionPresented (agent_session_id : AgentSessionId) (provider_kind : ProviderKind)
    (provider_session_id : ProviderSessionId) (runtime_generation : N) (turn_id : TurnId)
    (action_epoch : N) (question_id : QuestionId)
| EvProviderApprovalPresented (agent_session_id : AgentSessionId) (provider_kind : ProviderKind)
    (provider_session_id : ProviderSessionId) (runtime_generation : N) (turn_id : TurnId)
    (action_epoch : N) (approval_id : ApprovalId)
| EvProviderWaitSettled (fence : ProviderWaitFence)
| EvProviderInputDelivered (command_id : CommandId) (client_id : ClientId)
    (operation_id : OperationId) (agent_session_id : AgentSessionId)
    (provider_kind : ProviderKind) (provider_session_id : option ProviderSessionId)
    (runtime_generation : N) (turn_id : TurnId) (action_epoch : N)
    (question_id : option QuestionId) (approval_id : option ApprovalId)
| EvBrowser (fact : BrowserDurableFact)
| EvPurged.

#[export] Instance Event_eq_dec : EqDecision Event.
Proof. solve_decision. Defined.

Record DomainEvent := {
  de_id : EventId;
  de_task_id : option TaskId;
  de_sequence : N;
  de_task_revision : option N;
  de_occurred_at_ms : Z;
  de_payload : Event;
}.

Definition event_type (e : Event) : text :=
  match e with
  | EvTaskCreated _ _ _ _ _ => lit "task.created"
  | EvTaskRenamed _ => lit "task.renamed"
  | EvTaskAttentionSet _ => lit "task.attention_set"
  | EvTaskCloseBegun _ => lit "task.close_begun"
  | EvTaskSettled => lit "task.settled"
  | EvTaskReopened => lit "task.reopened"
  | EvTaskArchived => lit "task.archived"
  | EvTaskDeleted => lit "task.deleted"
  | EvAgentSessionRegistered _ => lit "agent_session.registered"
  | EvAgentProviderSessionBound _ _ _ _ => lit "agent_session.provider_bound"
  | EvAgentProviderSessionAbandoned _ _ _ => lit "agent_session.provider_abandoned"
  | EvPrimaryAgentSet _ => lit "primary_agent.set"
  | EvUnstartedPrimaryProviderRebound _ _ => lit "agent_session.unstarted_provider_rebound"
  | EvSpecialistRequested _ _ _ _ _ _ _ _ _ => lit "specialist.requested"
  | EvPrimaryPromoted _ _ _ _ => lit "primary_agent.promoted"
  | EvSpecialistHandoffRecorded _ _ _ _ _ => lit "specialist.handoff_recorded"
  | EvSpecialistClosed _ _ _ => lit "specialist.closed"
  | EvArtifactRegistered _ => lit "artifact.registered"
  | EvResourceRegistered _ => lit "resource.registered"
  | EvResourceReleaseBegun _ _ => lit "resource.release_begun"
  | EvResourceReleased _ _ => lit "resource.released"
  | EvTerminalRenamed _ _ => lit "terminal.renamed"
  | EvTerminalCwdReported _ _ => lit "terminal.cwd_reported"
  | EvTerminalExited _ _ _ => lit "terminal.exited"
  | EvTerminalActivity _ => lit "terminal.activity"
  | EvTaskTerminalStripSet _ => lit "task.terminal_strip_set"
  | EvHostCloseBegun _ _ _ => lit "host.close_begun"
  | EvHostCleanupBranchCompleted _ _ _ _ => lit "host.cleanup_branch_completed"
  | EvOperationAccepted _ => lit "operation.accepted"
  | EvOperationSettled _ => lit "operation.settled"
  | EvOperationFailed _ => lit "operation.failed"
  | EvOperationCancelled _ => lit "operation.cancelled"
  | EvOperationUncertain _ => lit "operation.uncertain"
  | EvProviderInputAccepted _ _ _ _ _ _ _ _ _ _ _ _ _ _ => lit "provider_input.accepted"
  | EvProviderQuestionPresented _ _ _ _ _ _ _ => lit "provider_input.question_presented"
  | EvProviderApprovalPresented _ _ _ _ _ _ _ => lit "provider_input.approval_presented"
  | EvProviderWaitSettled _ => lit "provider_input.wait_settled"
  | EvProviderInputDelivered _ _ _ _ _ _ _ _ _ _ _ => lit "provider_input.delivered"
  | EvBrowser _ => lit "browser.fact"
  | EvPurged => lit "event.purged"
  end.

Definition is_task_mutation (e : Event) : bool :=
  match e with
  | EvPurged | EvHostCloseBegun _ _ _ | EvHostCleanupBranchCompleted _ _ _ _
  | EvOperationAccepted _ | EvOperationSettled _ | EvOperationFailed _
  | EvOperationCancelled _ | EvOperationUncertain _
  | EvProviderInputDelivered _ _ _ _ _ _ _ _ _ _ _
  | EvTerminalCwdReported _ _ | EvTerminalExited _ _ _ | EvTerminalActivity _ => false
  | _ => true
  end.

Inductive ApplyError :=
| MissingSnapshot
| SnapshotAlreadyExists
| TaskMismatch
| NotFound
| InvalidTransition
| RevisionConflict
| OwnershipConflict
| AlreadyExists.

#[export] Instance ApplyError_eq_dec : EqDecision ApplyError.
Proof. solve_decision. Defined.

(** How an application fails: a refusal, or the [unreachable!] of [apply_into]. *)
Inductive ApplyFailure :=
| Refused (e : ApplyError)
| Unreachable.

#[export] Instance ApplyFailure_eq_dec : EqDecision ApplyFailure.
Proof. solve_decision. Defined.

Definition apply_browser_error (e : BrowserContractError) : ApplyError :=
  match e with
  | BrCrossTask => OwnershipConflict
  | BrGenerationMismatch | BrClosedTask | BrIdempotencyConflict | BrBoundExceeded
  | BrInvalidRequest | BrHostEffectUnavailable => InvalidTransition
  end.

Definition require_matching_task_id (s : TaskSnapshot) (e : DomainEvent)
    : result unit ApplyError :=
  match de_task_id e with
  | Some id => if id =? tf_id (sn_task s) then Ok tt else Err TaskMismatch
  | None => Err TaskMismatch
  end.

Definition require_next_revision (s : TaskSnapshot) (e : DomainEvent) : result N ApplyError :=
  let? observed := ok_or (de_task_revision e) RevisionConflict in
  let? expected := ok_or (checked_add (tf_revision (sn_task s)) 1) InvalidTransition in
  ensure observed =? expected else RevisionConflict ;;
  Ok expected.

(** [map_err(|_| ApplyError::InvalidTransition)] *)
Definition or_invalid {T E} (r : result T E) : result T ApplyError :=
  map_err (fun _ => InvalidTransition) r.

Section Apply.
Context `{Sha256} `{UrlParser} `{SpecialistJson}.

(** ** Lifecycle arms *)

Definition apply_task_renamed (s : TaskSnapshot) (title : text) : result TaskSnapshot ApplyError :=
  let? title := or_invalid (canonicalize_title title) in
  Ok (set_title s title).

Definition apply_close_begun (s : TaskSnapshot) (action_epoch : N)
    : result TaskSnapshot ApplyError :=
  let l := tf_lifecycle (sn_task s) in
  ensure (l =?= TaskOpen) || (l =?= TaskSettledL) else InvalidTransition ;;
  let? expected := ok_or (checked_add (tf_action_epoch (sn_task s)) 1) InvalidTransition in
  ensure action_epoch =? expected else InvalidTransition ;;
  let s := set_epoch (set_lifecycle s TaskClosing) action_epoch in
  let? b := map_err apply_browser_error (close_task (sn_browser s) (tf_id (sn_task s))) in
  Ok (set_browser s b).

Definition apply_settled (s : TaskSnapshot) : result TaskSnapshot ApplyError :=
  ensure tf_lifecycle (sn_task s) =?= TaskOpen else InvalidTransition ;;
  Ok (set_lifecycle s TaskSettledL).

Definition apply_reopened (s : TaskSnapshot) : result TaskSnapshot ApplyError :=
  try? match tf_lifecycle (sn_task s) with
       | TaskSettledL | TaskClosing | TaskArchivedL => Ok tt
       | TaskOpen | TaskDeletedL => Err InvalidTransition
       end ;;
  let? b := map_err apply_browser_error (open_task (sn_browser s) (tf_id (sn_task s))) in
  Ok (set_lifecycle (set_browser s b) TaskOpen).

Definition resource_unreleased (r : ResourceFacts) : bool :=
  (rf_lifecycle r =?= ResActive) || (rf_lifecycle r =?= ResReleasing).

Definition open_specialist (a : AgentSessionFacts) : bool :=
  (ag_lifecycle a =?= AgentOpen) && is_specialist (ag_role a).

Definition apply_archived (s : TaskSnapshot) : result TaskSnapshot ApplyError :=
  ensure tf_lifecycle (sn_task s) =?= TaskClosing else InvalidTransition ;;
  ensure negb (existsb resource_unreleased (values (sn_resources s))) else InvalidTransition ;;
  ensure negb (existsb open_specialist (values (sn_agents s))) else InvalidTransition ;;
  Ok (set_lifecycle s TaskArchivedL).

Definition apply_deleted (s : TaskSnapshot) : result TaskSnapshot ApplyError :=
  ensure tf_lifecycle (sn_task s) =?= TaskArchivedL else InvalidTransition ;;
  Ok (set_lifecycle s TaskDeletedL).

(** ** Agent arms *)

(** [provider_sessions.entry(id).or_default()] *)
Definition session_or_default (s : TaskSnapshot) (id : AgentSessionId)
    : ProviderSessionProjection :=
  match sn_provider_sessions s !! id with Some p => p | None => session_default end.

Definition put_session (s : TaskSnapshot) (id : AgentSessionId) (p : ProviderSessionProjection)
    : TaskSnapshot := set_sessions s (<[id := p]> (sn_provider_sessions s)).

Definition put_agent (s : TaskSnapshot) (a : AgentSessionFacts) (id : AgentSessionId)
    : TaskSnapshot := set_agents s (<[id := a]> (sn_agents s)).

Definition apply_agent_registered (s : TaskSnapshot) (agent : AgentSessionFacts)
    : result TaskSnapshot ApplyError :=
  ensure ag_task_id agent =? tf_id (sn_task s) else OwnershipConflict ;;
  ensure negb (is_specialist (ag_role agent)) else InvalidTransition ;;
  try? or_invalid (agent_validate_for_registration agent) ;;
  ensure is_none (sn_agents s !! ag_id agent) else AlreadyExists ;;
  let s := put_agent s agent (ag_id agent) in
  Ok (put_session s (ag_id agent) (session_or_default s (ag_id agent))).

(** The agent with its provider session replaced and its revision advanced. *)
Definition rebind_session (a : AgentSessionFacts) (session : option ProviderSessionId)
    : AgentSessionFacts :=
  {| ag_id := ag_id a; ag_task_id := ag_task_id a; ag_role := ag_role a;
     ag_provider_kind := ag_provider_kind a; ag_provider_session_id := session;
     ag_lifecycle := ag_lifecycle a; ag_runtime_generation := ag_runtime_generation a;
     ag_revision := saturating_add (ag_revision a) 1 |}.

Definition apply_provider_bound (s : TaskSnapshot) (agent_session_id : AgentSessionId)
    (resource_id : ResourceId) (provider_session_id : ProviderSessionId)
    (runtime_generation : N) : result TaskSnapshot ApplyError :=
  let? agent := ok_or (sn_agents s !! agent_session_id) NotFound in
  ensure negb (negb (ag_lifecycle agent =?= AgentOpen)
               || negb (ag_runtime_generation agent =? runtime_generation))
    else InvalidTransition ;;
  let? resource := ok_or (sn_resources s !! resource_id) NotFound in
  try? or_invalid (from_facts agent resource) ;;
  match ag_provider_session_id agent with
  | Some bound => if bound =?= provider_session_id then Ok s else Err OwnershipConflict
  | None => Ok (put_agent s (rebind_session agent (Some provider_session_id)) agent_session_id)
  end.

Definition apply_provider_abandoned (s : TaskSnapshot) (agent_session_id : AgentSessionId)
    (abandoned : ProviderSessionId) (runtime_generation : N) : result TaskSnapshot ApplyError :=
  let? agent := ok_or (sn_agents s !! agent_session_id) NotFound in
  ensure negb (negb (ag_lifecycle agent =?= AgentOpen)
               || negb (ag_runtime_generation agent =? runtime_generation))
    else InvalidTransition ;;
  match ag_provider_session_id agent with
  | Some bound =>
      if bound =?= abandoned then Ok (put_agent s (rebind_session agent None) agent_session_id)
      else Err OwnershipConflict
  | None => Ok s
  end.

Definition apply_primary_set (s : TaskSnapshot) (agent_session_id : AgentSessionId)
    : result TaskSnapshot ApplyError :=
  let? agent := ok_or (sn_agents s !! agent_session_id) NotFound in
  ensure negb (is_specialist (ag_role agent)) else InvalidTransition ;;
  Ok (set_primary s (Some agent_session_id)).

Definition rebound_agent (a : AgentSessionFacts) (kind : ProviderKind) : AgentSessionFacts :=
  {| ag_id := ag_id a; ag_task_id := ag_task_id a; ag_role := ag_role a;
     ag_provider_kind := kind; ag_provider_session_id := ag_provider_session_id a;
     ag_lifecycle := ag_lifecycle a; ag_runtime_generation := ag_runtime_generation a;
     ag_revision := saturating_add (ag_revision a) 1 |}.

Definition apply_unstarted_rebound (s : TaskSnapshot) (agent_session_id : AgentSessionId)
    (kind : ProviderKind) : result TaskSnapshot ApplyError :=
  ensure is_unstarted_draft s else InvalidTransition ;;
  ensure sn_primary_agent_id s =?= Some agent_session_id else OwnershipConflict ;;
  let? agent := ok_or (sn_agents s !! agent_session_id) NotFound in
  ensure negb (is_specialist (ag_role agent) || negb (ag_lifecycle agent =?= AgentOpen)
               || is_some (ag_provider_session_id agent)) else InvalidTransition ;;
  Ok (put_agent s (rebound_agent agent kind) agent_session_id).

(** ** Specialist arms *)

(** Open agents: both roles count as top-level runtimes. *)
Definition top_level_runtime_count (s : TaskSnapshot) : N :=
  count (List.filter (fun a => ag_lifecycle a =?= AgentOpen) (values (sn_agents s))).

Definition specialist_requester_ok (s : TaskSnapshot) (requested_by : AgentSessionId)
    (runtime_generation : N) : result unit ApplyError :=
  let? requester := ok_or (sn_agents s !! requested_by) NotFound in
  ensure negb (negb (ag_lifecycle requester =?= AgentOpen) || is_specialist (ag_role requester)
               || negb (sn_primary_agent_id s =?= Some requested_by)
               || negb (ag_runtime_generation requester =? runtime_generation))
    else InvalidTransition ;;
  Ok tt.

Definition specialist_resource_ok (s : TaskSnapshot) (resource_id : option ResourceId)
    (runtime_generation : N) : result unit ApplyError :=
  match resource_id with
  | None => Ok tt
  | Some id =>
      let? resource := ok_or (sn_resources s !! id) NotFound in
      ensure negb (negb (rf_task_id resource =?= Some (tf_id (sn_task s)))
                   || negb (rf_runtime_generation resource =? runtime_generation))
        else InvalidTransition ;;
      Ok tt
  end.

Definition apply_specialist_requested (s : TaskSnapshot)
    (specialist_id requested_by : AgentSessionId) (purpose : text) (agent : AgentSessionFacts)
    (permission : SpecialistPermission) (workspace : WorkspaceRef)
    (action_epoch runtime_generation : N) (resource_id : option ResourceId)
    : result TaskSnapshot ApplyError :=
  ensure negb (negb (ag_id agent =? specialist_id)
               || negb (ag_task_id agent =? tf_id (sn_task s))) else OwnershipConflict ;;
  ensure negb (negb (is_bounded_canonical purpose) || negb (is_specialist (ag_role agent))
               || negb (permission =?= ReadOnly)
               || negb (action_epoch =? tf_action_epoch (sn_task s))
               || negb (ag_runtime_generation agent =? runtime_generation)
               || (ag_id agent =? requested_by)) else InvalidTransition ;;
  try? or_invalid (ws_validate workspace) ;;
  try? specialist_requester_ok s requested_by runtime_generation ;;
  ensure negb (DEFAULT_MAX_TOP_LEVEL_RUNTIMES <=? top_level_runtime_count s)
    else InvalidTransition ;;
  try? specialist_resource_ok s resource_id runtime_generation ;;
  try? or_invalid (agent_validate_for_registration agent) ;;
  ensure is_none (sn_agents s !! ag_id agent) else AlreadyExists ;;
  Ok (put_agent s agent (ag_id agent)).

Definition apply_primary_promoted (s : TaskSnapshot) (previous promoted : AgentSessionId)
    (action_epoch runtime_generation : N) : result TaskSnapshot ApplyError :=
  ensure negb ((previous =? promoted) || negb (action_epoch =? tf_action_epoch (sn_task s)))
    else InvalidTransition ;;
  ensure sn_primary_agent_id s =?= Some previous else InvalidTransition ;;
  let? previous_agent := ok_or (sn_agents s !! previous) NotFound in
  ensure negb (is_specialist (ag_role previous_agent)
               || negb (ag_lifecycle previous_agent =?= AgentOpen)
               || negb (ag_runtime_generation previous_agent =? runtime_generation))
    else InvalidTransition ;;
  let? demoted := or_invalid (role_specialist (lit "primary")) in
  let s := put_agent s (with_role previous_agent demoted) previous in
  let? promoted_agent := ok_or (sn_agents s !! promoted) NotFound in
  ensure negb (negb (is_specialist (ag_role promoted_agent))
               || negb (ag_lifecycle promoted_agent =?= AgentOpen)
               || negb (ag_runtime_generation promoted_agent =? runtime_generation))
    else InvalidTransition ;;
  let s := put_agent s (with_role promoted_agent RolePrimary) promoted in
  Ok (set_primary s (Some promoted)).

Fixpoint cited_artifacts_ok (s : TaskSnapshot) (ids : list ArtifactId) : result unit ApplyError :=
  match ids with
  | [] => Ok tt
  | id :: rest =>
      let? existing := ok_or (sn_artifacts s !! id) NotFound in
      ensure af_task_id existing =? tf_id (sn_task s) else OwnershipConflict ;;
      cited_artifacts_ok s rest
  end.

Definition handoff_artifact_ok (s : TaskSnapshot) (artifact : ArtifactFacts) (structured : bool)
    (action_epoch : N) : result unit ApplyError :=
  ensure af_task_id artifact =? tf_id (sn_task s) else OwnershipConflict ;;
  ensure negb (negb (af_kind artifact =?= ReviewReport)
               || negb (action_epoch =? tf_action_epoch (sn_task s))) else InvalidTransition ;;
  try? match af_content_ref artifact with
       | InlineUtf8 body =>
           ensure negb (MAX_SPECIALIST_RAW_ARTIFACT_BYTES <? len body) else InvalidTransition ;;
           Ok tt
       | ContentAddressed _ => Err InvalidTransition
       end ;;
  try? or_invalid (artifact_validate artifact) ;;
  try? or_invalid (verify_inline_content_digest artifact) ;;
  if structured then
    let? r := or_invalid (structured_specialist_result artifact) in
    cited_artifacts_ok s (sr_evidence r ++ sr_artifacts r)
  else Ok tt.

(** The specialist an event ends: [get_mut] and the three tests on it. *)
Definition live_specialist (s : TaskSnapshot) (specialist_id : AgentSessionId)
    (runtime_generation : N) : result AgentSessionFacts ApplyError :=
  let? specialist := ok_or (sn_agents s !! specialist_id) NotFound in
  ensure negb (negb (is_specialist (ag_role specialist))
               || negb (ag_lifecycle specialist =?= AgentOpen)
               || negb (ag_runtime_generation specialist =? runtime_generation))
    else InvalidTransition ;;
  Ok specialist.

Definition apply_handoff_recorded (s : TaskSnapshot) (specialist_id : AgentSessionId)
    (artifact : ArtifactFacts) (structured : bool) (action_epoch runtime_generation : N)
    : result TaskSnapshot ApplyError :=
  try? handoff_artifact_ok s artifact structured action_epoch ;;
  ensure is_none (sn_artifacts s !! af_id artifact) else AlreadyExists ;;
  let? specialist := live_specialist s specialist_id runtime_generation in
  let s := put_agent s (with_lifecycle specialist AgentClosed) specialist_id in
  Ok (set_artifacts s (<[af_id artifact := artifact]> (sn_artifacts s))).

Definition apply_specialist_closed (s : TaskSnapshot) (specialist_id : AgentSessionId)
    (action_epoch runtime_generation : N) : result TaskSnapshot ApplyError :=
  let? specialist := live_specialist s specialist_id runtime_generation in
  ensure action_epoch =? tf_action_epoch (sn_task s) else InvalidTransition ;;
  Ok (put_agent s (with_lifecycle specialist AgentClosed) specialist_id).

(** ** Artifact and resource arms *)

Definition apply_artifact_registered (s : TaskSnapshot) (artifact : ArtifactFacts)
    : result TaskSnapshot ApplyError :=
  ensure af_task_id artifact =? tf_id (sn_task s) else OwnershipConflict ;;
  try? or_invalid (artifact_validate artifact) ;;
  ensure is_none (sn_artifacts s !! af_id artifact) else AlreadyExists ;;
  Ok (set_artifacts s (<[af_id artifact := artifact]> (sn_artifacts s))).

Definition recipe_title (r : ResourceRecipe) : option text :=
  match r with RecipeTerminal _ _ _ title => title | _ => None end.

Definition strip_push (st : TaskTerminalStrip) (id : ResourceId) : TaskTerminalStrip :=
  {| st_order := st_order st ++ [id];
     st_focused := match st_focused st with None => Some id | f => f end |}.

Definition register_terminal (s : TaskSnapshot) (r : ResourceFacts) (occurred_at_ms : Z)
    : TaskSnapshot :=
  set_terminals s
    (<[rf_id r := terminal_registered (rf_id r) (recipe_title (rf_recipe r)) occurred_at_ms]>
       (sn_terminal_facts s))
    (if is_plain_shell (rf_recipe r) then strip_push (sn_terminal_strip s) (rf_id r)
     else sn_terminal_strip s).

Definition apply_resource_registered (s : TaskSnapshot) (r : ResourceFacts) (occurred_at_ms : Z)
    : result TaskSnapshot ApplyError :=
  ensure rf_owner_kind r =?= OwnerTask else OwnershipConflict ;;
  ensure rf_task_id r =?= Some (tf_id (sn_task s)) else OwnershipConflict ;;
  try? or_invalid (resource_validate r) ;;
  ensure rf_lifecycle r =?= ResActive else InvalidTransition ;;
  ensure is_none (sn_resources s !! rf_id r) else AlreadyExists ;;
  ensure negb (is_plain_shell (rf_recipe r)
               && (MAX_PLAIN_SHELLS_PER_TASK <=? count (st_order (sn_terminal_strip s))))
    else InvalidTransition ;;
  let s := set_resources s (<[rf_id r := r]> (sn_resources s)) in
  Ok (if rf_resource_kind r =?= KindTerminal then register_terminal s r occurred_at_ms else s).

Definition with_res_state (f : ResourceFacts) (l : ResourceLifecycle) (at_ms : Z) : ResourceFacts :=
  {| rf_id := rf_id f; rf_task_id := rf_task_id f; rf_owner_kind := rf_owner_kind f;
     rf_resource_kind := rf_resource_kind f; rf_recipe := rf_recipe f; rf_lifecycle := l;
     rf_runtime_generation := rf_runtime_generation f; rf_updated_at_ms := at_ms |}.

Definition with_recipe (f : ResourceFacts) (r : ResourceRecipe) : ResourceFacts :=
  {| rf_id := rf_id f; rf_task_id := rf_task_id f; rf_owner_kind := rf_owner_kind f;
     rf_resource_kind := rf_resource_kind f; rf_recipe := r; rf_lifecycle := rf_lifecycle f;
     rf_runtime_generation := rf_runtime_generation f; rf_updated_at_ms := rf_updated_at_ms f |}.

(** The tests both release arms make on the resource they move. *)
Definition releasable (s : TaskSnapshot) (id : ResourceId) (runtime_generation : N)
    (from : ResourceLifecycle) : result ResourceFacts ApplyError :=
  let? r := ok_or (sn_resources s !! id) NotFound in
  ensure negb (negb (rf_owner_kind r =?= OwnerTask)
               || negb (rf_task_id r =?= Some (tf_id (sn_task s)))) else OwnershipConflict ;;
  ensure rf_lifecycle r =?= from else InvalidTransition ;;
  ensure rf_runtime_generation r =? runtime_generation else InvalidTransition ;;
  Ok r.

Definition apply_release_begun (s : TaskSnapshot) (id : ResourceId) (runtime_generation : N)
    (occurred_at_ms : Z) : result TaskSnapshot ApplyError :=
  let? r := releasable s id runtime_generation ResActive in
  Ok (set_resources s (<[id := with_res_state r ResReleasing occurred_at_ms]> (sn_resources s))).

Definition apply_released (s : TaskSnapshot) (id : ResourceId) (runtime_generation : N)
    (occurred_at_ms : Z) : result TaskSnapshot ApplyError :=
  let? r := releasable s id runtime_generation ResReleasing in
  let s := set_resources s (<[id := with_res_state r ResReleased occurred_at_ms]> (sn_resources s)) in
  Ok (set_terminals s (delete id (sn_terminal_facts s)) (strip_remove (sn_terminal_strip s) id)).

(** ** Terminal arms *)

Definition put_terminal (s : TaskSnapshot) (id : ResourceId) (t : TerminalFacts) : TaskSnapshot :=
  set_terminals s (<[id := t]> (sn_terminal_facts s)) (sn_terminal_strip s).

Definition terminal_with (t : TerminalFacts) (title : option text) (cwd : option path)
    (exit : option TerminalExit) (activity : Z) : TerminalFacts :=
  {| tm_resource_id := tm_resource_id t; tm_title := title; tm_live_cwd := cwd; tm_exit := exit;
     tm_created_at_ms := tm_created_at_ms t; tm_last_activity_at_ms := activity |}.

Definition apply_terminal_renamed (s : TaskSnapshot) (id : ResourceId) (title : text)
    : result TaskSnapshot ApplyError :=
  let? r := ok_or (sn_resources s !! id) NotFound in
  ensure is_plain_shell (rf_recipe r) else InvalidTransition ;;
  try? or_invalid (validate_terminal_title title) ;;
  let? t := ok_or (sn_terminal_facts s !! id) NotFound in
  let s := put_terminal s id
             (terminal_with t (Some title) (tm_live_cwd t) (tm_exit t)
                (tm_last_activity_at_ms t)) in
  Ok (match rf_recipe r with
      | RecipeTerminal cols rows launch _ =>
          set_resources s (<[id := with_recipe r (RecipeTerminal cols rows launch (Some title))]>
                             (sn_resources s))
      | _ => s
      end).

Definition apply_terminal_cwd (s : TaskSnapshot) (id : ResourceId) (cwd : path)
    (occurred_at_ms : Z) : result TaskSnapshot ApplyError :=
  let? t := ok_or (sn_terminal_facts s !! id) NotFound in
  Ok (put_terminal s id (terminal_with t (tm_title t) (Some cwd) (tm_exit t) occurred_at_ms)).

Definition apply_terminal_exited (s : TaskSnapshot) (id : ResourceId) (code : option Z)
    (summary : text) (occurred_at_ms : Z) : result TaskSnapshot ApplyError :=
  let? t := ok_or (sn_terminal_facts s !! id) NotFound in
  Ok (put_terminal s id
        (terminal_with t (tm_title t) (tm_live_cwd t)
           (Some {| tx_code := code; tx_summary := summary; tx_at_ms := occurred_at_ms |})
           (tm_last_activity_at_ms t))).

Definition apply_terminal_activity (s : TaskSnapshot) (id : ResourceId) (occurred_at_ms : Z)
    : result TaskSnapshot ApplyError :=
  let? t := ok_or (sn_terminal_facts s !! id) NotFound in
  Ok (put_terminal s id (terminal_with t (tm_title t) (tm_live_cwd t) (tm_exit t) occurred_at_ms)).

Definition strip_apply_error (e : TerminalStripError) : ApplyError :=
  match e with
  | StripForeignTask _ => NotFound
  | StripDuplicate _ | StripFocusedNotInOrder _ | StripNotATerminal _
  | StripTooManyTerminals _ => InvalidTransition
  end.

Definition apply_strip_set (s : TaskSnapshot) (strip : TaskTerminalStrip)
    : result TaskSnapshot ApplyError :=
  try? map_err strip_apply_error (strip_validate strip (tf_id (sn_task s)) (sn_resources s)) ;;
  Ok (set_terminals s (sn_terminal_facts s) strip).

(** ** Provider-input arms *)

Definition session_turn (s : TaskSnapshot) (id : AgentSessionId) : option TurnId :=
  sn_provider_sessions s !! id ≫= ps_current_turn.

Definition validate_snapshot_provider_fence (s : TaskSnapshot) (agent_session_id : AgentSessionId)
    (fence : ProviderFenceIdentity) (action : option ProviderInputAction) (wait : option bool)
    (current_turn : option TurnId) (allow_closing : bool) : result unit ApplyError :=
  let? agent := ok_or (sn_agents s !! agent_session_id) NotFound in
  let context :=
    {| fc_task_id := tf_id (sn_task s); fc_agent_session_id := agent_session_id;
       fc_agent_task_id := ag_task_id agent; fc_provider_kind := ag_provider_kind agent;
       fc_provider_session_id := ag_provider_session_id agent;
       fc_runtime_generation := ag_runtime_generation agent;
       fc_action_epoch := tf_action_epoch (sn_task s); fc_lifecycle := ag_lifecycle agent;
       fc_current_turn := current_turn; fc_allow_closing := allow_closing |} in
  or_invalid (validate_provider_fence fence action wait (Some context)).

(** What an accepted or delivered input carries besides its action. *)
Record InputIdentity := {
  ii_command_id : CommandId;
  ii_client_id : ClientId;
  ii_operation_id : OperationId;
  ii_agent_session_id : AgentSessionId;
  ii_provider_kind : ProviderKind;
  ii_provider_session_id : option ProviderSessionId;
  ii_runtime_generation : N;
  ii_turn_id : TurnId;
  ii_action_epoch : N;
  ii_question_id : option QuestionId;
  ii_approval_id : option ApprovalId;
}.

Definition input_fence (s : TaskSnapshot) (i : InputIdentity) : ProviderFenceIdentity :=
  fence_with_identity (Some (ii_command_id i)) (Some (tf_id (sn_task s))) (ii_agent_session_id i)
    (ii_provider_kind i) (ii_provider_session_id i) (Some (ii_operation_id i))
    (ii_runtime_generation i) (ii_action_epoch i) (ii_turn_id i) (ii_question_id i)
    (ii_approval_id i).

Definition is_send_now (a : ProviderInputAction) : bool :=
  match a with SendNow _ _ _ => true | _ => false end.

(** The turn an accepted input is fenced on: none when the input may begin one. *)
Definition accepted_turn (s : TaskSnapshot) (i : InputIdentity) (action : ProviderInputAction)
    : option TurnId :=
  match sn_provider_sessions s !! ii_agent_session_id i with
  | Some session =>
      if is_send_now action && can_begin_send_now_turn session (ii_turn_id i) then None
      else ps_current_turn session
  | None => None
  end.

Definition check_unresolved (p : ProviderSessionProjection) (action : ProviderInputAction)
    : result unit ApplyError :=
  match action with
  | AnswerQuestion id _ =>
      ensure negb (is_some (ps_question_winners p !! id)) else AlreadyExists ;;
      ensure ps_open_question p =?= Some id else InvalidTransition ;;
      Ok tt
  | ResolveApproval id _ =>
      ensure negb (is_some (ps_approval_winners p !! id)) else AlreadyExists ;;
      ensure ps_open_approval p =?= Some id else InvalidTransition ;;
      Ok tt
  | _ => Ok tt
  end.

Definition record_winner (p : ProviderSessionProjection) (action : ProviderInputAction)
    (winner : ProviderResolutionWinner) : result ProviderSessionProjection ApplyError :=
  match action with
  | AnswerQuestion id _ => or_invalid (bounded_insert_question_winner p id winner)
  | ResolveApproval id _ => or_invalid (bounded_insert_approval_winner p id winner)
  | _ => Ok p
  end.

Definition settlement_of (i : InputIdentity) (delivery : ProviderDeliveryVisibility)
    : ProviderInputSettlement :=
  {| se_command_id := ii_command_id i; se_operation_id := Some (ii_operation_id i);
     se_intent := IntentAccepted; se_delivery := delivery |}.

Definition wait_record_of (s : TaskSnapshot) (i : InputIdentity) : ProviderWaitRecord :=
  {| wr_fence :=
       wait_fence_with_identity (ii_command_id i) (tf_id (sn_task s)) (ii_operation_id i)
         (ii_action_epoch i) (ii_agent_session_id i) (ii_provider_kind i)
         (ii_provider_session_id i) (ii_runtime_generation i) (ii_turn_id i) (ii_question_id i)
         (ii_approval_id i);
     wr_pending := true |}.

Definition apply_input_accepted (s : TaskSnapshot) (i : InputIdentity)
    (action : ProviderInputAction) (wait : bool) (delivery : ProviderDeliveryVisibility)
    (occurred_at_ms : Z) : result TaskSnapshot ApplyError :=
  ensure negb (is_delivered_visibility delivery) else InvalidTransition ;;
  try? validate_snapshot_provider_fence s (ii_agent_session_id i) (input_fence s i) (Some action)
         (Some wait) (accepted_turn s i action) false ;;
  let s := if (tf_lifecycle (sn_task s) =?= TaskSettledL) && is_send_now action
           then set_lifecycle s TaskOpen else s in
  let p := session_or_default s (ii_agent_session_id i) in
  try? check_unresolved p action ;;
  let p := with_settlement (with_turn p (Some (ii_turn_id i)))
             (Some (settlement_of i delivery)) in
  let? p := record_winner p action
              {| win_command_id := ii_command_id i; win_client_id := ii_client_id i;
                 win_accepted_at_ms := occurred_at_ms |} in
  let? p := (if wait
             then or_invalid (bounded_insert_wait p (ii_command_id i) (wait_record_of s i))
             else Ok p) in
  Ok (put_session s (ii_agent_session_id i) p).

Definition with_open_question (p : ProviderSessionProjection) (q : option QuestionId)
    : ProviderSessionProjection := with_question_winners p (ps_question_winners p) q.

Definition with_open_approval (p : ProviderSessionProjection) (q : option ApprovalId)
    : ProviderSessionProjection := with_approval_winners p (ps_approval_winners p) q.

(** The fence a presented question or approval is checked against. *)
Definition presentation_fence (s : TaskSnapshot) (id : AgentSessionId) (kind : ProviderKind)
    (session : ProviderSessionId) (generation : N) (turn : TurnId) (epoch : N)
    (question_id : option QuestionId) (approval_id : option ApprovalId)
    : ProviderFenceIdentity :=
  fence_with_identity None (Some (tf_id (sn_task s))) id kind (Some session) None generation
    epoch turn question_id approval_id.

Definition apply_question_presented (s : TaskSnapshot) (id : AgentSessionId)
    (kind : ProviderKind) (session : ProviderSessionId) (generation : N) (turn : TurnId)
    (epoch : N) (question_id : QuestionId) : result TaskSnapshot ApplyError :=
  try? validate_snapshot_provider_fence s id
         (presentation_fence s id kind session generation turn epoch (Some question_id) None)
         None None (session_turn s id) false ;;
  let p := session_or_default s id in
  ensure negb (is_some (ps_question_winners p !! question_id)) else AlreadyExists ;;
  ensure negb (is_some (ps_open_question p)) else AlreadyExists ;;
  Ok (put_session s id (with_open_question (with_turn p (Some turn)) (Some question_id))).

Definition apply_approval_presented (s : TaskSnapshot) (id : AgentSessionId)
    (kind : ProviderKind) (session : ProviderSessionId) (generation : N) (turn : TurnId)
    (epoch : N) (approval_id : ApprovalId) : result TaskSnapshot ApplyError :=
  try? validate_snapshot_provider_fence s id
         (presentation_fence s id kind session generation turn epoch None (Some approval_id))
         None None (session_turn s id) false ;;
  let p := session_or_default s id in
  ensure negb (is_some (ps_approval_winners p !! approval_id)) else AlreadyExists ;;
  ensure negb (is_some (ps_open_approval p)) else AlreadyExists ;;
  Ok (put_session s id (with_open_approval (with_turn p (Some turn)) (Some approval_id))).

Definition apply_wait_settled (s : TaskSnapshot) (fence : ProviderWaitFence)
    : result TaskSnapshot ApplyError :=
  let id := wf_agent_session_id fence in
  try? validate_snapshot_provider_fence s id (fence_identity fence) None None
         (session_turn s id) true ;;
  let? p := ok_or (sn_provider_sessions s !! id) NotFound in
  let? record := ok_or (ps_waits p !! wf_command_id fence) NotFound in
  ensure fence_matches (wr_fence record) fence else InvalidTransition ;;
  ensure wr_pending record else AlreadyExists ;;
  Ok (put_session s id
        (with_waits p (<[wf_command_id fence := {| wr_fence := wr_fence record;
                                                   wr_pending := false |}]> (ps_waits p)))).

Definition apply_input_delivered (s : TaskSnapshot) (i : InputIdentity)
    : result TaskSnapshot ApplyError :=
  let id := ii_agent_session_id i in
  try? validate_snapshot_provider_fence s id (input_fence s i) None None (session_turn s id)
         true ;;
  let? p := ok_or (sn_provider_sessions s !! id) NotFound in
  let? settlement := ok_or (ps_last_settlement p) InvalidTransition in
  if negb (se_command_id settlement =? ii_command_id i)
     || negb (se_operation_id settlement =?= Some (ii_operation_id i))
  then Ok s
  else
    ensure negb (is_delivered settlement) else InvalidTransition ;;
    Ok (put_session s id (with_settlement p (Some (settlement_of i Delivered)))).

(** ** The fold *)

Definition refusing (r : result TaskSnapshot ApplyError) : result TaskSnapshot ApplyFailure :=
  map_err Refused r.

Definition apply_into (s : TaskSnapshot) (e : Event) (occurred_at_ms : Z)
    : result TaskSnapshot ApplyFailure :=
  match e with
  | EvTaskRenamed title => refusing (apply_task_renamed s title)
  | EvTaskAttentionSet attention => Ok (set_attention s attention)
  | EvTaskCloseBegun epoch => refusing (apply_close_begun s epoch)
  | EvTaskSettled => refusing (apply_settled s)
  | EvTaskReopened => refusing (apply_reopened s)
  | EvTaskArchived => refusing (apply_archived s)
  | EvTaskDeleted => refusing (apply_deleted s)
  | EvAgentSessionRegistered agent => refusing (apply_agent_registered s agent)
  | EvAgentProviderSessionBound a r p g => refusing (apply_provider_bound s a r p g)
  | EvAgentProviderSessionAbandoned a p g => refusing (apply_provider_abandoned s a p g)
  | EvPrimaryAgentSet a => refusing (apply_primary_set s a)
  | EvUnstartedPrimaryProviderRebound a k => refusing (apply_unstarted_rebound s a k)
  | EvSpecialistRequested sp by_ purpose agent permission ws epoch gen r =>
      refusing (apply_specialist_requested s sp by_ purpose agent permission ws epoch gen r)
  | EvPrimaryPromoted previous promoted epoch gen =>
      refusing (apply_primary_promoted s previous promoted epoch gen)
  | EvSpecialistHandoffRecorded sp artifact structured epoch gen =>
      refusing (apply_handoff_recorded s sp artifact structured epoch gen)
  | EvSpecialistClosed sp epoch gen => refusing (apply_specialist_closed s sp epoch gen)
  | EvArtifactRegistered artifact => refusing (apply_artifact_registered s artifact)
  | EvResourceRegistered r => refusing (apply_resource_registered s r occurred_at_ms)
  | EvResourceReleaseBegun r g => refusing (apply_release_begun s r g occurred_at_ms)
  | EvResourceReleased r g => refusing (apply_released s r g occurred_at_ms)
  | EvTerminalRenamed r title => refusing (apply_terminal_renamed s r title)
  | EvTerminalCwdReported r cwd => refusing (apply_terminal_cwd s r cwd occurred_at_ms)
  | EvTerminalExited r code summary =>
      refusing (apply_terminal_exited s r code summary occurred_at_ms)
  | EvTerminalActivity r => refusing (apply_terminal_activity s r occurred_at_ms)
  | EvTaskTerminalStripSet strip => refusing (apply_strip_set s strip)
  | EvProviderInputAccepted c cl op a k ps g t ep q ap action wait delivery =>
      refusing (apply_input_accepted s
        {| ii_command_id := c; ii_client_id := cl; ii_operation_id := op;
           ii_agent_session_id := a; ii_provider_kind := k; ii_provider_session_id := ps;
           ii_runtime_generation := g; ii_turn_id := t; ii_action_epoch := ep;
           ii_question_id := q; ii_approval_id := ap |} action wait delivery occurred_at_ms)
  | EvProviderQuestionPresented a k ps g t ep q =>
      refusing (apply_question_presented s a k ps g t ep q)
  | EvProviderApprovalPresented a k ps g t ep q =>
      refusing (apply_approval_presented s a k ps g t ep q)
  | EvProviderWaitSettled fence => refusing (apply_wait_settled s fence)
  | EvProviderInputDelivered c cl op a k ps g t ep q ap =>
      refusing (apply_input_delivered s
        {| ii_command_id := c; ii_client_id := cl; ii_operation_id := op;
           ii_agent_session_id := a; ii_provider_kind := k; ii_provider_session_id := ps;
           ii_runtime_generation := g; ii_turn_id := t; ii_action_epoch := ep;
           ii_question_id := q; ii_approval_id := ap |})
  | EvTaskCreated _ _ _ _ _ | EvPurged | EvHostCloseBegun _ _ _
  | EvHostCleanupBranchCompleted _ _ _ _ | EvOperationAccepted _ | EvOperationSettled _
  | EvOperationFailed _ | EvOperationCancelled _ | EvOperationUncertain _ | EvBrowser _ =>
      Err Unreachable
  end.

Definition apply_task_created (snapshot : option TaskSnapshot) (event : DomainEvent)
    (task : TaskFacts) (connectivity : TaskConnectivity) (attention : TaskAttention)
    (activity : TaskActivity) (review_readiness : ReviewReadiness)
    : result TaskSnapshot ApplyError :=
  ensure is_none snapshot else SnapshotAlreadyExists ;;
  ensure is_some_and (de_task_id event) (fun id => id =? tf_id task) else TaskMismatch ;;
  ensure negb (negb (de_task_revision event =?= Some 1) || negb (tf_revision task =? 1))
    else RevisionConflict ;;
  try? or_invalid (validate_for_create task) ;;
  let? browser := map_err apply_browser_error (open_task book_new (tf_id task)) in
  Ok {| sn_task := task; sn_connectivity := connectivity; sn_attention := attention;
        sn_activity := activity; sn_review_readiness := review_readiness; sn_agents := ∅;
        sn_primary_agent_id := None; sn_artifacts := ∅; sn_resources := ∅;
        sn_provider_sessions := ∅; sn_browser := browser; sn_terminal_facts := ∅;
        sn_terminal_strip := strip_default |}.

Definition apply_browser_fact (snapshot : option TaskSnapshot) (event : DomainEvent)
    (fact : BrowserDurableFact) : result TaskSnapshot ApplyError :=
  let? s := ok_or snapshot MissingSnapshot in
  try? require_matching_task_id s event ;;
  ensure fact_task_id fact =? tf_id (sn_task s) else OwnershipConflict ;;
  let? next_revision := require_next_revision s event in
  let? browser := map_err apply_browser_error (try_apply_facts (sn_browser s) [fact]) in
  Ok (set_revision (set_browser s browser) next_revision).

(** An operation fact leaves the snapshot as it is. *)
Definition apply_operation_fact (snapshot : option TaskSnapshot) (event : DomainEvent)
    : result TaskSnapshot ApplyError :=
  let? s := ok_or snapshot MissingSnapshot in
  try? require_matching_task_id s event ;;
  Ok s.

(** Host facts are projected without consuming a task revision. *)
Definition apply_host_fact (snapshot : option TaskSnapshot) (event : DomainEvent)
    : result TaskSnapshot ApplyFailure :=
  let? s := map_err Refused (ok_or snapshot MissingSnapshot) in
  try? map_err Refused (require_matching_task_id s event) ;;
  apply_into s (de_payload event) (de_occurred_at_ms event).

Definition apply_mutation (snapshot : option TaskSnapshot) (event : DomainEvent)
    : result TaskSnapshot ApplyFailure :=
  let? s := map_err Refused (ok_or snapshot MissingSnapshot) in
  try? map_err Refused (require_matching_task_id s event) ;;
  let? next_revision := map_err Refused (require_next_revision s event) in
  let? s := apply_into s (de_payload event) (de_occurred_at_ms event) in
  Ok (set_revision s next_revision).

Definition apply (snapshot : option TaskSnapshot) (event : DomainEvent)
    : result TaskSnapshot ApplyFailure :=
  match de_payload event with
  | EvTaskCreated task connectivity attention activity review =>
      refusing (apply_task_created snapshot event task connectivity attention activity review)
  | EvBrowser fact => refusing (apply_browser_fact snapshot event fact)
  | EvOperationAccepted _ | EvOperationSettled _ | EvOperationFailed _ | EvOperationCancelled _
  | EvOperationUncertain _ => refusing (apply_operation_fact snapshot event)
  | EvHostCloseBegun _ _ _ | EvHostCleanupBranchCompleted _ _ _ _ =>
      Err (Refused InvalidTransition)
  | EvProviderInputDelivered _ _ _ _ _ _ _ _ _ _ _ | EvTerminalCwdReported _ _
  | EvTerminalExited _ _ _ | EvTerminalActivity _ => apply_host_fact snapshot event
  | _ => apply_mutation snapshot event
  end.

(** [apply_all]: [fresh] stands for the event ids [EventId::new] draws. *)
Fixpoint apply_all_from (fresh : N -> EventId) (task_id : option TaskId) (index : N)
    (snapshot : option TaskSnapshot) (events : list Event) : result TaskSnapshot ApplyFailure :=
  match events with
  | [] => map_err Refused (ok_or snapshot MissingSnapshot)
  | payload :: rest =>
      let? task_revision :=
        (if is_task_mutation payload then
           match snapshot with
           | Some s => rmap Some (map_err Refused
                         (ok_or (checked_add (tf_revision (sn_task s)) 1) InvalidTransition))
           | None => Ok (Some 1)
           end
         else Ok None) in
      let? s := apply snapshot
                  {| de_id := fresh index; de_task_id := task_id;
                     de_sequence := saturating_add index 1; de_task_revision := task_revision;
                     de_occurred_at_ms := 1%Z; de_payload := payload |} in
      apply_all_from fresh task_id (index + 1) (Some s) rest
  end.

Definition apply_all (fresh : N -> EventId) (snapshot : option TaskSnapshot)
    (events : list Event) : result TaskSnapshot ApplyFailure :=
  apply_all_from fresh (option_map (fun s => tf_id (sn_task s)) snapshot) 0 snapshot events.
End Apply.
