(* ===== verification/NativeBrowser.v ===== *)
(** A task's native browser: its durable identity and the command that opens it
    ([native_browser.rs]), with the rejection codes of [command.rs] it answers with. *)
From S2P Require Import Prelude Canonical Task Agent Resource Artifact ProviderInput Browser Operation Snapshot Event.

Inductive RejectionCode :=
| RejNotFound
| RejAlreadyExists
| RejRevisionConflict
| RejInvalidTransition
| RejOwnershipConflict
| RejUnsupportedCapability
| RejClosing
| RejIdempotencyConflict
| RejAlreadyResolved
| RejTooManyTerminals.

#[export] Instance RejectionCode_eq_dec : EqDecision RejectionCode.
Proof. solve_decision. Defined.

Record OpenTaskBrowserIntent := {
  ob_agent_session_id : AgentSessionId;
  ob_resource : ResourceFacts;
  ob_tab_id : BrowserTabId;
  ob_create_request_id : BrowserRequestId;
  ob_open_request_id : BrowserRequestId;
}.

Record NativeBrowserSessionProjection := {
  nb_task_id : TaskId;
  nb_agent_session_id : AgentSessionId;
  nb_context_id : BrowserContextId;
  nb_resource_id : ResourceId;
  nb_generation : N;
  nb_tab_id : BrowserTabId;
  nb_start_url : text;
}.

(** The browser resources and contexts that still claim the task's browser. *)
Definition browser_resources (s : TaskSnapshot) : list ResourceFacts :=
  List.filter (fun r => (rf_resource_kind r =?= KindBrowserContext)
                        && negb (rf_lifecycle r =?= ResReleased))
    (map snd (sorted_entries (sn_resources s))).

Definition open_contexts (b : BrowserIdentitySnapshot) : list BrowserContextView :=
  List.filter (fun c => negb (cv_closed c)) (is_contexts b).

Definition recipe_context_id (r : ResourceRecipe) : option BrowserContextId :=
  match r with RecipeBrowser _ id => id | _ => None end.

Definition association_ok (s : TaskSnapshot) (r : ResourceFacts) (c : BrowserContextView)
    (context_id : BrowserContextId) : bool :=
  negb (negb (rf_task_id r =?= Some (tf_id (sn_task s))) || negb (rf_owner_kind r =?= OwnerTask)
        || negb (rf_lifecycle r =?= ResActive) || negb (context_id =? cv_context_id c)
        || negb (cv_task_id c =? tf_id (sn_task s)) || (cv_generation c =? 0)
        || negb (rf_runtime_generation r =? cv_generation c)).

Definition selected_tab (s : TaskSnapshot) (b : BrowserIdentitySnapshot) (c : BrowserContextView)
    : option BrowserTabView :=
  List.find (fun t => (Some (tv_tab_id t) =?= cv_selected_tab_id c)
                      && (tv_context_id t =? cv_context_id c)
                      && (tv_task_id t =? tf_id (sn_task s)) && negb (tv_closed t))
    (is_tabs b).

Definition native_projection (s : TaskSnapshot) (b : BrowserIdentitySnapshot)
    (r : ResourceFacts) (c : BrowserContextView)
    : result NativeBrowserSessionProjection RejectionCode :=
  let? context_id := ok_or (recipe_context_id (rf_recipe r)) RejOwnershipConflict in
  ensure association_ok s r c context_id else RejOwnershipConflict ;;
  let? agent_id := ok_or (sn_primary_agent_id s) RejNotFound in
  let? agent := ok_or (sn_agents s !! agent_id) RejNotFound in
  ensure negb (negb (ag_task_id agent =? tf_id (sn_task s))
               || negb (ag_lifecycle agent =?= AgentOpen)) else RejInvalidTransition ;;
  let? tab := ok_or (selected_tab s b c) RejInvalidTransition in
  Ok {| nb_task_id := tf_id (sn_task s); nb_agent_session_id := agent_id;
        nb_context_id := cv_context_id c; nb_resource_id := rf_id r;
        nb_generation := cv_generation c; nb_tab_id := tv_tab_id tab;
        nb_start_url := match tv_committed_url tab with
                        | Some url => url | None => lit "about:blank" end |}.

Definition from_snapshot (s : TaskSnapshot)
    : result (option NativeBrowserSessionProjection) RejectionCode :=
  ensure (tf_lifecycle (sn_task s) =?= TaskOpen) || (tf_lifecycle (sn_task s) =?= TaskSettledL)
    else RejInvalidTransition ;;
  let b := identity_snapshot (sn_browser s) in
  match browser_resources s, open_contexts b with
  | [], [] => Ok None
  | [r], [c] => rmap Some (native_projection s b r c)
  | _, _ => Err RejOwnershipConflict
  end.

Section Open.
Context `{Sha256} `{UrlParser} `{BrowserWire}.

(** One request of the opening pair: planned, bound and folded into the book. *)
Definition open_step (s : TaskSnapshot) (command_id : CommandId) (b : BrowserBook)
    (request : BrowserRequest) : result (BrowserBook * list Event) RejectionCode :=
  let? accepted := map_err (fun _ => RejInvalidTransition) (plan_admit b request) in
  let accepted := bind_command accepted command_id (tf_action_epoch (sn_task s)) in
  let? b := map_err (fun _ => RejInvalidTransition) (try_apply_facts b (ba_facts accepted)) in
  Ok (b, map EvBrowser (ba_facts accepted)).

Definition open_recipe_ok (s : TaskSnapshot) (intent : OpenTaskBrowserIntent) (start_url : text)
    : bool :=
  let r := ob_resource intent in
  negb (negb (is_ok (resource_validate r)) || negb (rf_resource_kind r =?= KindBrowserContext)
        || negb (rf_owner_kind r =?= OwnerTask)
        || negb (rf_task_id r =?= Some (tf_id (sn_task s)))
        || negb (rf_lifecycle r =?= ResActive) || negb (rf_runtime_generation r =? 1)
        || negb (start_url =?= lit "about:blank")
        || (ob_create_request_id intent =? ob_open_request_id intent)).

Definition decide_open (s : TaskSnapshot) (command_id : CommandId)
    (intent : OpenTaskBrowserIntent) : result (list Event) RejectionCode :=
  let? existing := from_snapshot s in
  ensure is_none existing else RejAlreadyExists ;;
  let? agent := ok_or (sn_agents s !! ob_agent_session_id intent) RejNotFound in
  ensure negb (negb (sn_primary_agent_id s =?= Some (ob_agent_session_id intent))
               || negb (ag_task_id agent =? tf_id (sn_task s))
               || negb (ag_lifecycle agent =?= AgentOpen)) else RejOwnershipConflict ;;
  let r := ob_resource intent in
  match rf_recipe r with
  | RecipeBrowser start_url (Some context_id) =>
      ensure open_recipe_ok s intent start_url else RejOwnershipConflict ;;
      ensure is_none (sn_resources s !! rf_id r) else RejAlreadyExists ;;
      let request id tab action :=
        {| br_request_id := id; br_task_id := tf_id (sn_task s); br_context_id := context_id;
           br_tab_id := tab; br_generation := rf_runtime_generation r; br_action := action |} in
      let? (b, created) := open_step s command_id (sn_browser s)
        (request (ob_create_request_id intent) None ActCreateContext) in
      let? (_, opened) := open_step s command_id b
        (request (ob_open_request_id intent) (Some (ob_tab_id intent))
           (ActOpenTab start_url TabPage)) in
      Ok (created ++ opened ++ [EvResourceRegistered r])
  | _ => Err RejInvalidTransition
  end.
End Open.
