(* ===== verification/Command.v ===== *)
(** Commands and the decision function that turns one into events ([command.rs]). *)
From S2P Require Import Prelude Canonical Task Agent Resource Artifact ProviderInput Browser Operation Snapshot Event NativeBrowser.

(** ** Intents *)

Record CreateTaskIntent := {
  ct_id : TaskId;
  ct_environment_id : EnvironmentId;
  ct_title : text;
  ct_description : option text;
  ct_project_id : ProjectId;
  ct_workspace : WorkspaceRef;
  ct_assignment : TaskAssignment;
  ct_created_at_ms : Z;
  ct_connectivity : TaskConnectivity;
  ct_attention : TaskAttention;
  ct_activity : TaskActivity;
  ct_review_readiness : ReviewReadiness;
}.

(** Payloads of modules this development does not model: [decide] never looks
    into them. *)
Class HostPayloads := {
  workspace_request : Type;
  prompt_command : Type;
  prompt_chain_command : Type;
  provider_launch_options : Type;
}.

Record CreateTaskRequestIntent `{HostPayloads} := {
  cr_id : TaskId;
  cr_environment_id : EnvironmentId;
  cr_title : text;
  cr_description : option text;
  cr_project_id : ProjectId;
  cr_workspace : workspace_request;
  cr_primary_provider : option ProviderKind;
  cr_defer_primary_provider_start : bool;
  cr_assignment : TaskAssignment;
  cr_created_at_ms : Z;
  cr_connectivity : TaskConnectivity;
  cr_attention : TaskAttention;
  cr_activity : TaskActivity;
  cr_review_readiness : ReviewReadiness;
}.

Record ConfirmHostQuitIntent := {
  hq_inspection_id : N;
  hq_allow_uninspected_worktrees : bool;
}.

Record SubmitProviderInputIntent := {
  si_agent_session_id : AgentSessionId;
  si_runtime_generation : N;
  si_turn_id : TurnId;
  si_action_epoch : N;
  si_question_id : option QuestionId;
  si_approval_id : option ApprovalId;
  si_action : ProviderInputAction;
}.

Definition submit_validate (i : SubmitProviderInputIntent) : result unit ProviderInputIntentError :=
  validate_action_nested_ids (si_action i) (si_question_id i) (si_approval_id i).

Definition submit_try_new (agent : AgentSessionId) (generation : N) (turn : TurnId) (epoch : N)
    (question_id : option QuestionId) (approval_id : option ApprovalId)
    (action : ProviderInputAction) : result SubmitProviderInputIntent ProviderInputIntentError :=
  try? validate_action_nested_ids action question_id approval_id ;;
  Ok {| si_agent_session_id := agent; si_runtime_generation := generation; si_turn_id := turn;
        si_action_epoch := epoch; si_question_id := question_id; si_approval_id := approval_id;
        si_action := action |}.

Record RequestSpecialistIntent := {
  rs_specialist : AgentSessionFacts;
  rs_requested_by : AgentSessionId;
  rs_purpose : text;
  rs_permission : SpecialistPermission;
  rs_workspace : WorkspaceRef;
  rs_expected_artifact_kind : ArtifactKind;
  rs_expected_action_epoch : N;
  rs_expected_runtime_generation : N;
  rs_resource_id : option ResourceId;
  rs_max_top_level_runtimes : N;
}.

Record PromotePrimaryIntent := {
  pp_agent_session_id : AgentSessionId;
  pp_expected_action_epoch : N;
  pp_expected_runtime_generation : N;
}.

Record CancelSpecialistIntent := {
  cs_agent_session_id : AgentSessionId;
  cs_expected_action_epoch : N;
  cs_expected_runtime_generation : N;
}.

Record AcceptSpecialistHandoffIntent := {
  ah_specialist_id : AgentSessionId;
  ah_artifact_id : ArtifactId;
  ah_expected_action_epoch : N;
  ah_expected_runtime_generation : N;
  ah_structured : option SpecialistResult;
  ah_raw_inline_utf8 : option text;
}.

Inductive ServiceControlAction := ServiceStart | ServiceStop | ServiceRestart.

Record ServiceControlIntent := {
  sc_service_id : text;
  sc_resource_generation : N;
  sc_connection_epoch : N;
  sc_action_epoch : N;
  sc_action : ServiceControlAction;
}.

Inductive ProviderStartMode := StartOpen | StartNewConversation | StartResumeExact.

Record StartProviderSessionIntent `{HostPayloads} := {
  sp_task_id : TaskId;
  sp_agent_session_id : AgentSessionId;
  sp_resource_id : ResourceId;
  sp_provider_kind : ProviderKind;
  sp_mode : ProviderStartMode;
  sp_launch_options : provider_launch_options;
  sp_expected_task_revision : N;
  sp_expected_action_epoch : N;
}.

Record PrepareUpdateIntent := {
  pu_target_version : text;
  pu_client_build : text;
  pu_host_build : text;
  pu_allow_explicit_confirm_with_active : bool;
}.

(** [ConfirmUpdateDrainIntent] and [ArmUpdateInstallIntent]: a token, and for
    the latter whether the host stops after its acknowledgement. *)
Record ArmUpdateInstallIntent := {
  au_token_id : N;
  au_stop_host_after_ack : bool;
}.

Inductive Command `{HostPayloads} :=
| CmdCreateTask (intent : CreateTaskIntent)
| CmdCreateTaskV2 (intent : CreateTaskRequestIntent)
| CmdRenameTask (title : text)
| CmdSetTaskAttention (attention : TaskAttention)
| CmdSettleTask
| CmdBeginCloseTask
| CmdReopenTask
| CmdDeleteTask
| CmdRegisterAgentSession (agent : AgentSessionFacts)
| CmdBindProviderSession (agent_session_id : AgentSessionId) (resource_id : ResourceId)
    (provider_session_id : ProviderSessionId) (expected_runtime_generation : N)
| CmdAbandonProviderSession (agent_session_id : AgentSessionId)
    (abandoned_provider_session_id : ProviderSessionId) (expected_runtime_generation : N)
| CmdSetPrimaryAgent (agent_session_id : AgentSessionId)
| CmdRebindUnstartedPrimaryProvider (agent_session_id : AgentSessionId)
    (provider_kind : ProviderKind)
| CmdRegisterArtifact (artifact : ArtifactFacts)
| CmdRegisterResource (resource : ResourceFacts)
| CmdReleaseResource (resource_id : ResourceId)
| CmdConfirmHostQuit (intent : ConfirmHostQuitIntent)
| CmdSubmitProviderInput (intent : SubmitProviderInputIntent)
| CmdPresentProviderQuestion (intent : PresentProviderQuestionIntent)
| CmdPresentProviderApproval (intent : PresentProviderApprovalIntent)
| CmdSettleProviderWait (intent : SettleProviderWaitIntent)
| CmdRequestSpecialist (intent : RequestSpecialistIntent)
| CmdPromotePrimary (intent : PromotePrimaryIntent)
| CmdCancelSpecialist (intent : CancelSpecialistIntent)
| CmdAcceptSpecialistHandoff (intent : AcceptSpecialistHandoffIntent)
| CmdPromptLibrary (command : prompt_command)
| CmdPromptChain (command : prompt_chain_command)
| CmdServiceControl (intent : ServiceControlIntent)
| CmdStartProviderSession (intent : StartProviderSessionIntent)
| CmdBrowser (request : BrowserRequest)
| CmdOpenTaskBrowser (intent : OpenTaskBrowserIntent)
| CmdPrepareUpdate (intent : PrepareUpdateIntent)
| CmdConfirmUpdateDrain (token_id : N)
| CmdAbortUpdateHandoff
| CmdArmUpdateInstall (intent : ArmUpdateInstallIntent)
| CmdOpenShellTerminal (resource : ResourceFacts)
| CmdCloseTerminal (resource_id : ResourceId)
| CmdRenameTerminal (resource_id : ResourceId) (title : text)
| CmdSetTerminalStrip (strip : TaskTerminalStrip).

Record CommandEnvelope `{HostPayloads} := {
  ce_command_id : CommandId;
  ce_client_id : ClientId;
  ce_task_id : option TaskId;
  ce_issued_at_ms : Z;
  ce_expected_task_revision : option N;
  ce_command : Command;
}.

Inductive CommandReceipt {PromptMutationReceipt : Type} :=
| Accepted (command_id : CommandId) (operation_id : OperationId) (task_revision : option N)
    (event_ids : list EventId) (prompt_mutation : option PromptMutationReceipt)
| Rejected (command_id : CommandId) (code : RejectionCode) (current_revision : option N)
    (resolution : option ProviderResolutionWinner).
Arguments CommandReceipt : clear implicits.

Definition receipt_command_id {P} (r : CommandReceipt P) : CommandId :=
  match r with Accepted c _ _ _ _ => c | Rejected c _ _ _ => c end.

Definition accepted_operation_id {P} (r : CommandReceipt P) : option OperationId :=
  match r with Accepted _ o _ _ _ => Some o | Rejected _ _ _ _ => None end.

Definition rejection_code_name (c : RejectionCode) : text :=
  match c with
  | RejNotFound => lit "not_found"
  | RejAlreadyExists => lit "already_exists"
  | RejRevisionConflict => lit "revision_conflict"
  | RejInvalidTransition => lit "invalid_transition"
  | RejOwnershipConflict => lit "ownership_conflict"
  | RejUnsupportedCapability => lit "unsupported_capability"
  | RejClosing => lit "closing"
  | RejIdempotencyConflict => lit "idempotency_conflict"
  | RejAlreadyResolved => lit "already_resolved"
  | RejTooManyTerminals => lit "too_many_terminals"
  end.

Definition rejection_code_parse (value : text) : option RejectionCode :=
  List.find (fun c => value =?= rejection_code_name c)
    [RejNotFound; RejAlreadyExists; RejRevisionConflict; RejInvalidTransition;
     RejOwnershipConflict; RejUnsupportedCapability; RejClosing; RejIdempotencyConflict;
     RejAlreadyResolved; RejTooManyTerminals].

(** ** Guards *)

Section Decide.
Context `{Sha256} `{UrlParser} `{BrowserWire} `{HostPayloads}.

Definition require_task (snapshot : option TaskSnapshot) (envelope : CommandEnvelope)
    : result TaskSnapshot RejectionCode :=
  let? s := ok_or snapshot RejNotFound in
  let? task_id := ok_or (ce_task_id envelope) RejInvalidTransition in
  ensure tf_id (sn_task s) =? task_id else RejNotFound ;;
  Ok s.

Definition require_expected_revision (s : TaskSnapshot) (envelope : CommandEnvelope)
    : result unit RejectionCode :=
  ensure is_some_and (ce_expected_task_revision envelope)
           (fun expected => expected =? tf_revision (sn_task s)) else RejRevisionConflict ;;
  Ok tt.

Definition open_or_closing (l : TaskLifecycle) : result unit RejectionCode :=
  match l with
  | TaskOpen | TaskSettledL | TaskClosing => Ok tt
  | TaskArchivedL | TaskDeletedL => Err RejInvalidTransition
  end.

Definition runtime_capable (l : TaskLifecycle) : result unit RejectionCode :=
  match l with
  | TaskOpen | TaskSettledL => Ok tt
  | TaskClosing => Err RejClosing
  | TaskArchivedL | TaskDeletedL => Err RejInvalidTransition
  end.

Definition require_open_or_closing_task (snapshot : option TaskSnapshot)
    (envelope : CommandEnvelope) : result TaskSnapshot RejectionCode :=
  let? s := require_task snapshot envelope in
  try? open_or_closing (tf_lifecycle (sn_task s)) ;;
  Ok s.

Definition require_runtime_capable_task (snapshot : option TaskSnapshot)
    (envelope : CommandEnvelope) : result TaskSnapshot RejectionCode :=
  let? s := require_task snapshot envelope in
  try? runtime_capable (tf_lifecycle (sn_task s)) ;;
  Ok s.

(** The two preambles of the arms: resolve the task, then check the revision. *)
Definition for_open_or_closing (snapshot : option TaskSnapshot) (envelope : CommandEnvelope)
    : result TaskSnapshot RejectionCode :=
  let? s := require_open_or_closing_task snapshot envelope in
  try? require_expected_revision s envelope ;;
  Ok s.

Definition for_runtime_capable (snapshot : option TaskSnapshot) (envelope : CommandEnvelope)
    : result TaskSnapshot RejectionCode :=
  let? s := require_runtime_capable_task snapshot envelope in
  try? require_expected_revision s envelope ;;
  Ok s.

Definition for_any (snapshot : option TaskSnapshot) (envelope : CommandEnvelope)
    : result TaskSnapshot RejectionCode :=
  let? s := require_task snapshot envelope in
  try? require_expected_revision s envelope ;;
  Ok s.

Definition require_open_agent (a : AgentSessionFacts) : result unit RejectionCode :=
  match ag_lifecycle a with
  | AgentOpen => Ok tt
  | AgentClosing | AgentClosed => Err RejInvalidTransition
  end.

Definition require_live_agent (a : AgentSessionFacts) : result unit RejectionCode :=
  match ag_lifecycle a with
  | AgentOpen | AgentClosing => Ok tt
  | AgentClosed => Err RejInvalidTransition
  end.

Definition require_orchestration_fences (s : TaskSnapshot) (expected_action_epoch : N)
    (a : AgentSessionFacts) (expected_runtime_generation : N) : result unit RejectionCode :=
  ensure negb (negb (tf_action_epoch (sn_task s) =? expected_action_epoch)
               || negb (ag_runtime_generation a =? expected_runtime_generation))
    else RejRevisionConflict ;;
  Ok tt.

(** [map_err(|_| RejectionCode::InvalidTransition)] *)
Definition or_rejected {T E} (r : result T E) : result T RejectionCode :=
  map_err (fun _ => RejInvalidTransition) r.

(** ** Lifecycle commands *)

Definition decide_description (d : option text) : result (option text) RejectionCode :=
  match d with
  | Some value => if is_empty (trim value) then Err RejInvalidTransition else Ok (Some (trim value))
  | None => Ok None
  end.

Definition decide_create_task (snapshot : option TaskSnapshot) (envelope : CommandEnvelope)
    (intent : CreateTaskIntent) : result (list Event) RejectionCode :=
  ensure is_none snapshot else RejAlreadyExists ;;
  ensure is_none (ce_task_id envelope) else RejInvalidTransition ;;
  ensure is_none (ce_expected_task_revision envelope) else RejRevisionConflict ;;
  ensure negb (is_empty (trim (ct_title intent))) else RejInvalidTransition ;;
  let? description := decide_description (ct_description intent) in
  let task :=
    {| tf_id := ct_id intent; tf_environment_id := ct_environment_id intent;
       tf_title := trim (ct_title intent); tf_description := description;
       tf_project_id := ct_project_id intent; tf_workspace := ct_workspace intent;
       tf_assignment := ct_assignment intent; tf_lifecycle := TaskOpen; tf_action_epoch := 0;
       tf_revision := 1; tf_created_at_ms := ct_created_at_ms intent |} in
  try? or_rejected (validate_for_create task) ;;
  Ok [EvTaskCreated task (ct_connectivity intent) (ct_attention intent) (ct_activity intent)
        (ct_review_readiness intent)].

Definition decide_rename (snapshot : option TaskSnapshot) (envelope : CommandEnvelope)
    (title : text) : result (list Event) RejectionCode :=
  let? _ := for_open_or_closing snapshot envelope in
  ensure negb (is_empty (trim title)) else RejInvalidTransition ;;
  let? title := or_rejected (canonicalize_title title) in
  Ok [EvTaskRenamed title].

Definition decide_attention (snapshot : option TaskSnapshot) (envelope : CommandEnvelope)
    (attention : TaskAttention) : result (list Event) RejectionCode :=
  let? _ := for_open_or_closing snapshot envelope in
  Ok [EvTaskAttentionSet attention].

Definition decide_settle (snapshot : option TaskSnapshot) (envelope : CommandEnvelope)
    : result (list Event) RejectionCode :=
  let? s := for_any snapshot envelope in
  match tf_lifecycle (sn_task s) with
  | TaskOpen => Ok [EvTaskSettled]
  | TaskSettledL => Ok []
  | TaskClosing => Err RejClosing
  | TaskArchivedL | TaskDeletedL => Err RejInvalidTransition
  end.

Definition decide_begin_close (snapshot : option TaskSnapshot) (envelope : CommandEnvelope)
    : result (list Event) RejectionCode :=
  let? s := for_any snapshot envelope in
  match tf_lifecycle (sn_task s) with
  | TaskClosing => Ok []
  | TaskArchivedL | TaskDeletedL => Err RejInvalidTransition
  | TaskOpen | TaskSettledL =>
      let? epoch := ok_or (checked_add (tf_action_epoch (sn_task s)) 1) RejInvalidTransition in
      Ok [EvTaskCloseBegun epoch]
  end.

Definition decide_reopen (snapshot : option TaskSnapshot) (envelope : CommandEnvelope)
    : result (list Event) RejectionCode :=
  let? s := for_any snapshot envelope in
  match tf_lifecycle (sn_task s) with
  | TaskSettledL | TaskClosing | TaskArchivedL => Ok [EvTaskReopened]
  | TaskOpen | TaskDeletedL => Err RejInvalidTransition
  end.

Definition decide_delete (snapshot : option TaskSnapshot) (envelope : CommandEnvelope)
    : result (list Event) RejectionCode :=
  let? s := for_any snapshot envelope in
  match tf_lifecycle (sn_task s) with
  | TaskArchivedL => Ok [EvTaskDeleted]
  | TaskOpen | TaskSettledL | TaskClosing | TaskDeletedL => Err RejInvalidTransition
  end.

(** ** Agent commands *)

Definition is_primary_role (r : AgentRole) : bool := negb (is_specialist r).

Definition decide_register_agent (snapshot : option TaskSnapshot) (envelope : CommandEnvelope)
    (agent : AgentSessionFacts) : result (list Event) RejectionCode :=
  let? s := for_runtime_capable snapshot envelope in
  ensure ag_task_id agent =? tf_id (sn_task s) else RejOwnershipConflict ;;
  ensure is_ok (agent_validate_for_registration agent) else RejInvalidTransition ;;
  ensure is_none (sn_agents s !! ag_id agent) else RejAlreadyExists ;;
  ensure negb (is_specialist (ag_role agent)) else RejInvalidTransition ;;
  ensure negb (is_primary_role (ag_role agent)
               && existsb (fun a => is_primary_role (ag_role a)) (values (sn_agents s)))
    else RejAlreadyExists ;;
  Ok [EvAgentSessionRegistered agent].

Definition decide_bind_provider (snapshot : option TaskSnapshot) (envelope : CommandEnvelope)
    (agent_session_id : AgentSessionId) (resource_id : ResourceId)
    (provider_session_id : ProviderSessionId) (expected_runtime_generation : N)
    : result (list Event) RejectionCode :=
  let? s := for_runtime_capable snapshot envelope in
  let? agent := ok_or (sn_agents s !! agent_session_id) RejNotFound in
  try? require_open_agent agent ;;
  ensure ag_runtime_generation agent =? expected_runtime_generation else RejInvalidTransition ;;
  let? resource := ok_or (sn_resources s !! resource_id) RejNotFound in
  let? binding := or_rejected (from_facts agent resource) in
  ensure negb (negb (arb_resource_id binding =? resource_id)
               || negb (arb_runtime_generation binding =? expected_runtime_generation))
    else RejInvalidTransition ;;
  match ag_provider_session_id agent with
  | Some bound => if bound =?= provider_session_id then Err RejAlreadyExists
                  else Err RejOwnershipConflict
  | None => Ok [EvAgentProviderSessionBound agent_session_id resource_id provider_session_id
                  expected_runtime_generation]
  end.

Definition decide_abandon_provider (snapshot : option TaskSnapshot) (envelope : CommandEnvelope)
    (agent_session_id : AgentSessionId) (abandoned : ProviderSessionId)
    (expected_runtime_generation : N) : result (list Event) RejectionCode :=
  let? s := for_runtime_capable snapshot envelope in
  let? agent := ok_or (sn_agents s !! agent_session_id) RejNotFound in
  try? require_open_agent agent ;;
  ensure ag_runtime_generation agent =? expected_runtime_generation else RejInvalidTransition ;;
  match ag_provider_session_id agent with
  | Some bound =>
      if bound =?= abandoned
      then Ok [EvAgentProviderSessionAbandoned agent_session_id abandoned
                 expected_runtime_generation]
      else Err RejOwnershipConflict
  | None => Err RejAlreadyResolved
  end.

Definition decide_set_primary (snapshot : option TaskSnapshot) (envelope : CommandEnvelope)
    (agent_session_id : AgentSessionId) : result (list Event) RejectionCode :=
  let? s := for_runtime_capable snapshot envelope in
  let? agent := ok_or (sn_agents s !! agent_session_id) RejNotFound in
  ensure is_primary_role (ag_role agent) else RejInvalidTransition ;;
  Ok [EvPrimaryAgentSet agent_session_id].

Definition decide_rebind_unstarted (snapshot : option TaskSnapshot) (envelope : CommandEnvelope)
    (agent_session_id : AgentSessionId) (kind : ProviderKind)
    : result (list Event) RejectionCode :=
  let? s := for_runtime_capable snapshot envelope in
  ensure is_unstarted_draft s else RejInvalidTransition ;;
  ensure sn_primary_agent_id s =?= Some agent_session_id else RejOwnershipConflict ;;
  let? agent := ok_or (sn_agents s !! agent_session_id) RejNotFound in
  ensure negb (negb (is_primary_role (ag_role agent)) || negb (ag_lifecycle agent =?= AgentOpen)
               || is_some (ag_provider_session_id agent)) else RejInvalidTransition ;;
  if ag_provider_kind agent =?= kind then Ok []
  else Ok [EvUnstartedPrimaryProviderRebound agent_session_id kind].

(** ** Artifact, resource and terminal commands *)

Definition decide_register_artifact (snapshot : option TaskSnapshot) (envelope : CommandEnvelope)
    (artifact : ArtifactFacts) : result (list Event) RejectionCode :=
  let? s := for_open_or_closing snapshot envelope in
  ensure af_task_id artifact =? tf_id (sn_task s) else RejOwnershipConflict ;;
  ensure is_ok (artifact_validate artifact) else RejInvalidTransition ;;
  ensure is_none (sn_artifacts s !! af_id artifact) else RejAlreadyExists ;;
  Ok [EvArtifactRegistered artifact].

Definition decide_register_resource (snapshot : option TaskSnapshot) (envelope : CommandEnvelope)
    (r : ResourceFacts) : result (list Event) RejectionCode :=
  let? s := for_runtime_capable snapshot envelope in
  ensure rf_owner_kind r =?= OwnerTask else RejOwnershipConflict ;;
  ensure is_some_and (rf_task_id r) (fun id => id =? tf_id (sn_task s))
    else RejOwnershipConflict ;;
  ensure is_ok (resource_validate r) else RejInvalidTransition ;;
  ensure rf_lifecycle r =?= ResActive else RejInvalidTransition ;;
  ensure is_none (sn_resources s !! rf_id r) else RejAlreadyExists ;;
  Ok [EvResourceRegistered r].

Definition decide_release_resource (snapshot : option TaskSnapshot) (envelope : CommandEnvelope)
    (resource_id : ResourceId) : result (list Event) RejectionCode :=
  let? s := for_open_or_closing snapshot envelope in
  let? existing := ok_or (sn_resources s !! resource_id) RejNotFound in
  ensure negb (negb (rf_owner_kind existing =?= OwnerTask)
               || negb (rf_task_id existing =?= Some (tf_id (sn_task s))))
    else RejOwnershipConflict ;;
  match rf_lifecycle existing with
  | ResActive => Ok [EvResourceReleaseBegun resource_id (rf_runtime_generation existing)]
  | ResReleasing => Ok []
  | ResReleased => Err RejInvalidTransition
  end.

Definition is_plain_shell_terminal (r : ResourceFacts) : bool :=
  (rf_resource_kind r =?= KindTerminal) && is_plain_shell (rf_recipe r).

Definition occupied_plain_shell_ids (s : TaskSnapshot) : gset N :=
  list_to_set (map rf_id
    (List.filter (fun r => is_plain_shell_terminal r && negb (rf_lifecycle r =?= ResReleased))
       (values (sn_resources s)))).

Definition require_task_plain_shell (s : TaskSnapshot) (resource_id : ResourceId)
    : result ResourceFacts RejectionCode :=
  let? r := ok_or (sn_resources s !! resource_id) RejNotFound in
  ensure negb (negb (rf_owner_kind r =?= OwnerTask)
               || negb (rf_task_id r =?= Some (tf_id (sn_task s)))) else RejOwnershipConflict ;;
  ensure is_plain_shell_terminal r else RejInvalidTransition ;;
  ensure negb (rf_lifecycle r =?= ResReleased) else RejNotFound ;;
  Ok r.

Definition decide_open_shell_terminal (snapshot : option TaskSnapshot)
    (envelope : CommandEnvelope) (r : ResourceFacts) : result (list Event) RejectionCode :=
  let? s := for_runtime_capable snapshot envelope in
  try? or_rejected (resource_validate_for_registration r) ;;
  ensure negb (negb (rf_owner_kind r =?= OwnerTask)
               || negb (rf_task_id r =?= Some (tf_id (sn_task s)))) else RejOwnershipConflict ;;
  ensure is_plain_shell_terminal r else RejInvalidTransition ;;
  ensure is_none (sn_resources s !! rf_id r) else RejAlreadyExists ;;
  ensure negb (MAX_PLAIN_SHELLS_PER_TASK <=? N.of_nat (size (occupied_plain_shell_ids s)))
    else RejTooManyTerminals ;;
  Ok [EvResourceRegistered r].

Definition decide_close_terminal (snapshot : option TaskSnapshot) (envelope : CommandEnvelope)
    (resource_id : ResourceId) : result (list Event) RejectionCode :=
  let? s := for_open_or_closing snapshot envelope in
  let? r := require_task_plain_shell s resource_id in
  ensure rf_lifecycle r =?= ResActive else RejInvalidTransition ;;
  Ok [EvResourceReleaseBegun resource_id (rf_runtime_generation r)].

Definition decide_rename_terminal (snapshot : option TaskSnapshot) (envelope : CommandEnvelope)
    (resource_id : ResourceId) (title : text) : result (list Event) RejectionCode :=
  let? s := for_open_or_closing snapshot envelope in
  try? require_task_plain_shell s resource_id ;;
  try? or_rejected (validate_terminal_title (trim title)) ;;
  Ok [EvTerminalRenamed resource_id (trim title)].

Definition strip_rejection (e : TerminalStripError) : RejectionCode :=
  match e with
  | StripTooManyTerminals _ => RejTooManyTerminals
  | StripForeignTask _ => RejNotFound
  | StripDuplicate _ | StripFocusedNotInOrder _ | StripNotATerminal _ => RejInvalidTransition
  end.

Definition decide_set_strip (snapshot : option TaskSnapshot) (envelope : CommandEnvelope)
    (strip : TaskTerminalStrip) : result (list Event) RejectionCode :=
  let? s := for_open_or_closing snapshot envelope in
  try? map_err strip_rejection (strip_validate strip (tf_id (sn_task s)) (sn_resources s)) ;;
  ensure bool_decide (list_to_set (st_order strip) = occupied_plain_shell_ids s)
    else RejInvalidTransition ;;
  Ok [EvTaskTerminalStripSet strip].

(** ** Browser commands *)

Definition browser_rejection (e : BrowserContractError) : RejectionCode :=
  match e with
  | BrCrossTask => RejOwnershipConflict
  | BrGenerationMismatch | BrClosedTask | BrIdempotencyConflict | BrBoundExceeded
  | BrInvalidRequest | BrHostEffectUnavailable => RejInvalidTransition
  end.

Definition decide_browser (snapshot : option TaskSnapshot) (envelope : CommandEnvelope)
    (request : BrowserRequest) : result (list Event) RejectionCode :=
  let? s := for_runtime_capable snapshot envelope in
  ensure br_task_id request =? tf_id (sn_task s) else RejOwnershipConflict ;;
  let? accepted := map_err browser_rejection (plan_admit (sn_browser s) request) in
  let accepted := bind_command accepted (ce_command_id envelope) (tf_action_epoch (sn_task s)) in
  Ok (map EvBrowser (ba_facts accepted)).

Definition decide_open_task_browser (snapshot : option TaskSnapshot) (envelope : CommandEnvelope)
    (intent : OpenTaskBrowserIntent) : result (list Event) RejectionCode :=
  let? s := for_runtime_capable snapshot envelope in
  decide_open s (ce_command_id envelope) intent.

(** ** Provider-input commands *)

(** Only Codex may take input without a durable conversation identity. *)
Definition input_provider_session (a : AgentSessionFacts)
    : result (option ProviderSessionId) RejectionCode :=
  match ag_provider_kind a, ag_provider_session_id a with
  | _, Some id => Ok (Some id)
  | Codex, None => Ok None
  | _, None => Err RejUnsupportedCapability
  end.

(** What each action demands of the session it is aimed at. *)
Definition action_admissible (p : ProviderSessionProjection) (turn_id : TurnId)
    (action : ProviderInputAction) : result unit RejectionCode :=
  match action with
  | SendNow _ _ _ =>
      ensure can_begin_send_now_turn p turn_id else RejInvalidTransition ;;
      Ok tt
  | SteerCurrentTurn _ | QueueFollowUp _ | StopTurn =>
      ensure ps_current_turn p =?= Some turn_id else RejInvalidTransition ;;
      Ok tt
  | TerminalInput _ =>
      ensure negb (is_some_and (ps_current_turn p) (fun current => negb (current =? turn_id)))
        else RejInvalidTransition ;;
      Ok tt
  | AnswerQuestion id _ =>
      ensure negb (is_some (ps_question_winners p !! id)) else RejAlreadyResolved ;;
      ensure ps_open_question p =?= Some id else RejInvalidTransition ;;
      ensure ps_current_turn p =?= Some turn_id else RejInvalidTransition ;;
      Ok tt
  | ResolveApproval id _ =>
      ensure negb (is_some (ps_approval_winners p !! id)) else RejAlreadyResolved ;;
      ensure ps_open_approval p =?= Some id else RejInvalidTransition ;;
      ensure ps_current_turn p =?= Some turn_id else RejInvalidTransition ;;
      Ok tt
  end.

(** [fresh_operation] stands for the id [OperationId::new] draws. *)
Definition decide_submit_provider_input (fresh_operation : OperationId)
    (snapshot : option TaskSnapshot) (envelope : CommandEnvelope)
    (intent : SubmitProviderInputIntent) : result (list Event) RejectionCode :=
  let? s := for_runtime_capable snapshot envelope in
  try? or_rejected (submit_validate intent) ;;
  let id := si_agent_session_id intent in
  let? agent := ok_or (sn_agents s !! id) RejNotFound in
  ensure ag_task_id agent =? tf_id (sn_task s) else RejOwnershipConflict ;;
  try? require_open_agent agent ;;
  let? provider_session_id := input_provider_session agent in
  ensure ag_runtime_generation agent =? si_runtime_generation intent else RejInvalidTransition ;;
  ensure tf_action_epoch (sn_task s) =? si_action_epoch intent else RejInvalidTransition ;;
  let p := session_or_default s id in
  try? action_admissible p (si_turn_id intent) (si_action intent) ;;
  ensure negb (waits_for_turn (si_action intent)
               && negb (is_some (ps_waits p !! ce_command_id envelope))
               && (MAX_PROVIDER_WAITS <=? count (pending_waits (ps_waits p))))
    else RejInvalidTransition ;;
  Ok [EvProviderInputAccepted (ce_command_id envelope) (ce_client_id envelope) fresh_operation id
        (ag_provider_kind agent) provider_session_id (si_runtime_generation intent)
        (si_turn_id intent) (si_action_epoch intent) (si_question_id intent)
        (si_approval_id intent) (si_action intent) (waits_for_turn (si_action intent))
        hold_until_destination_adapter].

(** What presenting a question and presenting an approval check first: the
    agent, its conversation, its generation and epoch, and the turn. *)
Definition presentable (s : TaskSnapshot) (id : AgentSessionId) (generation epoch : N)
    (turn : TurnId)
    : result (ProviderKind * ProviderSessionId * ProviderSessionProjection) RejectionCode :=
  let? agent := ok_or (sn_agents s !! id) RejNotFound in
  try? require_open_agent agent ;;
  let? session_id := ok_or (ag_provider_session_id agent) RejUnsupportedCapability in
  ensure negb (negb (ag_runtime_generation agent =? generation)
               || negb (tf_action_epoch (sn_task s) =? epoch)) else RejInvalidTransition ;;
  let p := session_or_default s id in
  ensure is_none_or (ps_current_turn p) (fun current => current =? turn)
    else RejInvalidTransition ;;
  Ok (ag_provider_kind agent, session_id, p).

Definition not_open (open : option N) (id : N) : result unit RejectionCode :=
  match open with
  | Some o => if o =? id then Err RejAlreadyExists else Err RejInvalidTransition
  | None => Ok tt
  end.

Definition decide_present_question (snapshot : option TaskSnapshot) (envelope : CommandEnvelope)
    (intent : PresentProviderQuestionIntent) : result (list Event) RejectionCode :=
  let? s := for_runtime_capable snapshot envelope in
  let id := pq_agent_session_id intent in
  let? (kind, session_id, p) :=
    presentable s id (pq_runtime_generation intent) (pq_action_epoch intent)
      (pq_turn_id intent) in
  ensure negb (is_some (ps_question_winners p !! pq_question_id intent))
    else RejAlreadyResolved ;;
  try? not_open (ps_open_question p) (pq_question_id intent) ;;
  Ok [EvProviderQuestionPresented id kind session_id (pq_runtime_generation intent)
        (pq_turn_id intent) (pq_action_epoch intent) (pq_question_id intent)].

Definition decide_present_approval (snapshot : option TaskSnapshot) (envelope : CommandEnvelope)
    (intent : PresentProviderApprovalIntent) : result (list Event) RejectionCode :=
  let? s := for_runtime_capable snapshot envelope in
  let id := pa_agent_session_id intent in
  let? (kind, session_id, p) :=
    presentable s id (pa_runtime_generation intent) (pa_action_epoch intent)
      (pa_turn_id intent) in
  ensure negb (is_some (ps_approval_winners p !! pa_approval_id intent))
    else RejAlreadyResolved ;;
  try? not_open (ps_open_approval p) (pa_approval_id intent) ;;
  Ok [EvProviderApprovalPresented id kind session_id (pa_runtime_generation intent)
        (pa_turn_id intent) (pa_action_epoch intent) (pa_approval_id intent)].

Definition decide_settle_wait (snapshot : option TaskSnapshot) (envelope : CommandEnvelope)
    (intent : SettleProviderWaitIntent) : result (list Event) RejectionCode :=
  let? s := for_open_or_closing snapshot envelope in
  let fence := sw_fence intent in
  ensure wf_task_id fence =? tf_id (sn_task s) else RejOwnershipConflict ;;
  try? or_rejected (validate_provider_fence (fence_identity fence) None None None) ;;
  let? session := ok_or (sn_provider_sessions s !! wf_agent_session_id fence) RejNotFound in
  let? record := ok_or (ps_waits session !! wf_command_id fence) RejNotFound in
  ensure fence_matches (wr_fence record) fence else RejInvalidTransition ;;
  let? agent := ok_or (sn_agents s !! wf_agent_session_id fence) RejNotFound in
  try? require_live_agent agent ;;
  ensure ag_runtime_generation agent =? wf_runtime_generation fence else RejInvalidTransition ;;
  ensure tf_action_epoch (sn_task s) =? wf_action_epoch fence else RejInvalidTransition ;;
  ensure wr_pending record else RejAlreadyExists ;;
  Ok [EvProviderWaitSettled fence].

(** ** Specialist commands *)

Definition request_validate_bounds (i : RequestSpecialistIntent) : result unit RejectionCode :=
  ensure is_some (bounded_canonical (rs_purpose i)) else RejInvalidTransition ;;
  ensure negb ((ag_id (rs_specialist i) =? rs_requested_by i)
               || negb (is_specialist (ag_role (rs_specialist i)))) else RejInvalidTransition ;;
  try? or_rejected (agent_validate_for_registration (rs_specialist i)) ;;
  try? or_rejected (ws_validate (rs_workspace i)) ;;
  ensure rs_expected_artifact_kind i =?= ReviewReport else RejUnsupportedCapability ;;
  Ok tt.

Definition is_worktree (w : WorkspaceRef) : bool :=
  match w with WsWorktree _ _ => true | _ => false end.

Definition permission_admissible (s : TaskSnapshot) (i : RequestSpecialistIntent)
    : result unit RejectionCode :=
  let same := ws_eqb (rs_workspace i) (tf_workspace (sn_task s)) in
  match rs_permission i with
  | ReadOnly =>
      ensure same else RejOwnershipConflict ;;
      Ok tt
  | IsolatedWrite =>
      ensure negb (negb (is_worktree (tf_workspace (sn_task s))) || negb same)
        else RejInvalidTransition ;;
      Err RejUnsupportedCapability
  | SharedWrite true => Err RejUnsupportedCapability
  | SharedWrite false => Err RejInvalidTransition
  end.

Definition request_resource_ok (s : TaskSnapshot) (i : RequestSpecialistIntent)
    : result unit RejectionCode :=
  match rs_resource_id i with
  | None => Ok tt
  | Some id =>
      let? r := ok_or (sn_resources s !! id) RejNotFound in
      ensure rf_task_id r =?= Some (tf_id (sn_task s)) else RejOwnershipConflict ;;
      ensure rf_runtime_generation r =? rs_expected_runtime_generation i
        else RejRevisionConflict ;;
      Ok tt
  end.

Definition runtime_cap_ok (s : TaskSnapshot) (i : RequestSpecialistIntent)
    : result unit RejectionCode :=
  let requested_cap := N.min (rs_max_top_level_runtimes i) DEFAULT_MAX_TOP_LEVEL_RUNTIMES in
  let? next := ok_or (checked_add (top_level_runtime_count s) 1) RejInvalidTransition in
  ensure negb ((requested_cap =? 0) || (requested_cap <? next)) else RejInvalidTransition ;;
  Ok tt.

Definition decide_request_specialist (snapshot : option TaskSnapshot)
    (envelope : CommandEnvelope) (i : RequestSpecialistIntent)
    : result (list Event) RejectionCode :=
  let? s := for_runtime_capable snapshot envelope in
  try? request_validate_bounds i ;;
  let? requester := ok_or (sn_agents s !! rs_requested_by i) RejNotFound in
  try? require_orchestration_fences s (rs_expected_action_epoch i) requester
         (rs_expected_runtime_generation i) ;;
  ensure negb (negb (is_primary_role (ag_role requester))
               || negb (sn_primary_agent_id s =?= Some (rs_requested_by i)))
    else RejOwnershipConflict ;;
  ensure negb (negb (ag_task_id (rs_specialist i) =? tf_id (sn_task s))
               || (ag_id (rs_specialist i) =? rs_requested_by i)) else RejOwnershipConflict ;;
  let? purpose := ok_or (bounded_canonical (rs_purpose i)) RejInvalidTransition in
  try? or_rejected (ws_validate (rs_workspace i)) ;;
  ensure rs_expected_artifact_kind i =?= ReviewReport else RejUnsupportedCapability ;;
  ensure negb (negb (is_ok (agent_validate_for_registration (rs_specialist i)))
               || negb (ag_runtime_generation (rs_specialist i)
                        =? rs_expected_runtime_generation i)) else RejInvalidTransition ;;
  ensure is_none (sn_agents s !! ag_id (rs_specialist i)) else RejAlreadyExists ;;
  try? permission_admissible s i ;;
  try? request_resource_ok s i ;;
  try? runtime_cap_ok s i ;;
  Ok [EvSpecialistRequested (ag_id (rs_specialist i)) (rs_requested_by i) purpose
        (rs_specialist i) (rs_permission i) (rs_workspace i) (rs_expected_action_epoch i)
        (rs_expected_runtime_generation i) (rs_resource_id i)].

Definition decide_promote_primary (snapshot : option TaskSnapshot) (envelope : CommandEnvelope)
    (i : PromotePrimaryIntent) : result (list Event) RejectionCode :=
  let? s := for_runtime_capable snapshot envelope in
  let? candidate := ok_or (sn_agents s !! pp_agent_session_id i) RejNotFound in
  try? require_orchestration_fences s (pp_expected_action_epoch i) candidate
         (pp_expected_runtime_generation i) ;;
  let? previous := ok_or (sn_primary_agent_id s) RejNotFound in
  let? previous_agent := ok_or (sn_agents s !! previous) RejNotFound in
  ensure negb (negb (is_specialist (ag_role candidate))
               || negb (ag_lifecycle candidate =?= AgentOpen)
               || negb (is_primary_role (ag_role previous_agent))
               || negb (ag_lifecycle previous_agent =?= AgentOpen)
               || negb (ag_runtime_generation previous_agent
                        =? pp_expected_runtime_generation i)) else RejInvalidTransition ;;
  Ok [EvPrimaryPromoted previous (pp_agent_session_id i) (pp_expected_action_epoch i)
        (pp_expected_runtime_generation i)].

Definition open_specialist_required (s : TaskSnapshot) (id : AgentSessionId)
    (epoch generation : N) : result AgentSessionFacts RejectionCode :=
  let? specialist := ok_or (sn_agents s !! id) RejNotFound in
  try? require_orchestration_fences s epoch specialist generation ;;
  ensure negb (negb (is_specialist (ag_role specialist))
               || negb (ag_lifecycle specialist =?= AgentOpen)) else RejInvalidTransition ;;
  Ok specialist.

Definition decide_cancel_specialist (snapshot : option TaskSnapshot) (envelope : CommandEnvelope)
    (i : CancelSpecialistIntent) : result (list Event) RejectionCode :=
  let? s := for_runtime_capable snapshot envelope in
  try? open_specialist_required s (cs_agent_session_id i) (cs_expected_action_epoch i)
         (cs_expected_runtime_generation i) ;;
  Ok [EvSpecialistClosed (cs_agent_session_id i) (cs_expected_action_epoch i)
        (cs_expected_runtime_generation i)].

Definition raw_out_of_bounds (raw : text) : bool :=
  is_empty raw || (MAX_SPECIALIST_RAW_ARTIFACT_BYTES <? len raw).

(** The body of the handoff: a valid structured result is refused, the raw
    fallback is what is kept. *)
Definition handoff_body (i : AcceptSpecialistHandoffIntent) : result text RejectionCode :=
  match ah_structured i, ah_raw_inline_utf8 i with
  | Some r, raw =>
      if is_ok (specialist_result_validate r) then Err RejUnsupportedCapability
      else match raw with
           | Some raw =>
               ensure negb (raw_out_of_bounds raw) else RejInvalidTransition ;;
               Ok raw
           | None => Err RejInvalidTransition
           end
  | None, Some raw =>
      ensure negb (raw_out_of_bounds raw) else RejInvalidTransition ;;
      Ok raw
  | None, None => Err RejInvalidTransition
  end.

Definition handoff_artifact (s : TaskSnapshot) (envelope : CommandEnvelope)
    (i : AcceptSpecialistHandoffIntent) (body : text) : result ArtifactFacts RejectionCode :=
  let? label := or_rejected (canonicalize_label (lit "specialist-handoff-raw")) in
  let? content := or_rejected (inline_utf8 body) in
  Ok {| af_id := ah_artifact_id i; af_task_id := tf_id (sn_task s); af_kind := ReviewReport;
        af_label := label; af_content_ref := content; af_sha256 := sha256 (bytes body);
        af_privacy_class := LocalOnly; af_created_at_ms := ce_issued_at_ms envelope |}.

Definition decide_accept_handoff (snapshot : option TaskSnapshot) (envelope : CommandEnvelope)
    (i : AcceptSpecialistHandoffIntent) : result (list Event) RejectionCode :=
  let? s := for_runtime_capable snapshot envelope in
  try? open_specialist_required s (ah_specialist_id i) (ah_expected_action_epoch i)
         (ah_expected_runtime_generation i) ;;
  ensure is_none (sn_artifacts s !! ah_artifact_id i) else RejAlreadyExists ;;
  ensure negb (is_some_and (ah_raw_inline_utf8 i) raw_out_of_bounds) else RejInvalidTransition ;;
  let? body := handoff_body i in
  let? artifact := handoff_artifact s envelope i body in
  try? or_rejected (artifact_validate artifact) ;;
  try? or_rejected (verify_inline_content_digest artifact) ;;
  Ok [EvSpecialistHandoffRecorded (ah_specialist_id i) artifact false
        (ah_expected_action_epoch i) (ah_expected_runtime_generation i)].

(** ** The decision

    [decide] of the source; stdpp already has a [decide]. *)

Definition command_decide (fresh_operation : OperationId) (snapshot : option TaskSnapshot)
    (envelope : CommandEnvelope) : result (list Event) RejectionCode :=
  match ce_command envelope with
  | CmdCreateTask intent => decide_create_task snapshot envelope intent
  | CmdRenameTask title => decide_rename snapshot envelope title
  | CmdSetTaskAttention attention => decide_attention snapshot envelope attention
  | CmdSettleTask => decide_settle snapshot envelope
  | CmdBeginCloseTask => decide_begin_close snapshot envelope
  | CmdReopenTask => decide_reopen snapshot envelope
  | CmdDeleteTask => decide_delete snapshot envelope
  | CmdRegisterAgentSession agent => decide_register_agent snapshot envelope agent
  | CmdBindProviderSession a r p g => decide_bind_provider snapshot envelope a r p g
  | CmdAbandonProviderSession a p g => decide_abandon_provider snapshot envelope a p g
  | CmdSetPrimaryAgent a => decide_set_primary snapshot envelope a
  | CmdRebindUnstartedPrimaryProvider a k => decide_rebind_unstarted snapshot envelope a k
  | CmdRegisterArtifact artifact => decide_register_artifact snapshot envelope artifact
  | CmdRegisterResource r => decide_register_resource snapshot envelope r
  | CmdReleaseResource r => decide_release_resource snapshot envelope r
  | CmdSubmitProviderInput intent =>
      decide_submit_provider_input fresh_operation snapshot envelope intent
  | CmdPresentProviderQuestion intent => decide_present_question snapshot envelope intent
  | CmdPresentProviderApproval intent => decide_present_approval snapshot envelope intent
  | CmdSettleProviderWait intent => decide_settle_wait snapshot envelope intent
  | CmdRequestSpecialist intent => decide_request_specialist snapshot envelope intent
  | CmdPromotePrimary intent => decide_promote_primary snapshot envelope intent
  | CmdCancelSpecialist intent => decide_cancel_specialist snapshot envelope intent
  | CmdAcceptSpecialistHandoff intent => decide_accept_handoff snapshot envelope intent
  | CmdBrowser request => decide_browser snapshot envelope request
  | CmdOpenTaskBrowser intent => decide_open_task_browser snapshot envelope intent
  | CmdOpenShellTerminal r => decide_open_shell_terminal snapshot envelope r
  | CmdCloseTerminal r => decide_close_terminal snapshot envelope r
  | CmdRenameTerminal r title => decide_rename_terminal snapshot envelope r title
  | CmdSetTerminalStrip strip => decide_set_strip snapshot envelope strip
  | CmdCreateTaskV2 _ | CmdConfirmHostQuit _ | CmdPromptLibrary _ | CmdPromptChain _
  | CmdServiceControl _ | CmdStartProviderSession _ | CmdPrepareUpdate _
  | CmdConfirmUpdateDrain _ | CmdAbortUpdateHandoff | CmdArmUpdateInstall _ =>
      Err RejInvalidTransition
  end.
End Decide.
