(* ===== verification/Sample.v ===== *)
(** Concrete instances, snapshots and logs on which the theorems are applied. *)
From S2P Require Import Prelude Canonical Task Agent Resource Artifact ProviderInput Browser Operation Snapshot Event NativeBrowser Command.

Definition toy_sha : Sha256 := fun m => repeat (count m mod 256) 32.
Definition toy_urls : UrlParser :=
  fun raw => Some {| url_scheme := lit "https"; url_username := []; url_password := None;
                     url_host_str := Some raw; url_port := None; url_query := None;
                     url_fragment := None |}.
Definition toy_wire : BrowserWire :=
  {| rmp_request := fun r => Some [br_request_id r];
     rmp_rows := fun rows => Some (repeat 1 (length rows)) |}.
Definition toy_json : SpecialistJson := fun _ => None.
Definition toy_host : HostPayloads :=
  {| workspace_request := unit; prompt_command := unit; prompt_chain_command := unit;
     provider_launch_options := unit |}.

#[local] Existing Instance toy_sha.
#[local] Existing Instance toy_urls.
#[local] Existing Instance toy_wire.
#[local] Existing Instance toy_json.
#[local] Existing Instance toy_host.

Definition sample_created_event : DomainEvent :=
  {| de_id := 900; de_task_id := Some 1; de_sequence := 1; de_task_revision := Some 1;
     de_occurred_at_ms := 0%Z;
     de_payload := EvTaskCreated (sample_task WsMain) Connected AttentionNone ActivityIdle
                     NotReady |}.

(** An event on the sample task, stamped with a revision. *)
Definition stamped (revision : option N) (e : Event) : DomainEvent :=
  {| de_id := 901; de_task_id := Some 1; de_sequence := 2; de_task_revision := revision;
     de_occurred_at_ms := 5%Z; de_payload := e |}.

Definition snapshot_of (r : result TaskSnapshot ApplyFailure) : option TaskSnapshot :=
  match r with Ok s => Some s | Err _ => None end.

Definition sample_created : option TaskSnapshot := snapshot_of (apply None sample_created_event).

Definition sample_fold (s : option TaskSnapshot) (es : list Event) : option TaskSnapshot :=
  snapshot_of (apply_all (fun n => n) s es).

(** The snapshot of a sample run, for use where an actual one is expected. *)
Definition blank_snapshot : TaskSnapshot :=
  {| sn_task := sample_task WsMain; sn_connectivity := Connected; sn_attention := AttentionNone;
     sn_activity := ActivityIdle; sn_review_readiness := NotReady; sn_agents := ∅;
     sn_primary_agent_id := None; sn_artifacts := ∅; sn_resources := ∅;
     sn_provider_sessions := ∅; sn_browser := book_new; sn_terminal_facts := ∅;
     sn_terminal_strip := strip_default |}.

Definition the (s : option TaskSnapshot) : TaskSnapshot :=
  match s with Some s => s | None => blank_snapshot end.

Definition sess : ProviderSessionId := lit "sess".

Definition accept_send_now : Event :=
  EvProviderInputAccepted 100 101 102 10 ClaudeCode (Some sess) 0 7 0 None None
    (SendNow (lit "hi") true []) true hold_until_destination_adapter.

Definition present_question : Event :=
  EvProviderQuestionPresented 10 ClaudeCode sess 0 7 0 55.

Definition answer_question : Event :=
  EvProviderInputAccepted 110 111 112 10 ClaudeCode (Some sess) 0 7 0 (Some 55) None
    (AnswerQuestion 55 (lit "yes")) false hold_until_destination_adapter.

(** A task with a primary agent whose terminal is registered. *)
Definition sample_manned : option TaskSnapshot :=
  sample_fold sample_created
    [EvAgentSessionRegistered sample_agent; EvPrimaryAgentSet 10;
     EvResourceRegistered sample_provider_terminal].

(** The same task with the provider's conversation bound and a turn running. *)
Definition sample_working : option TaskSnapshot :=
  sample_fold sample_manned
    [EvAgentProviderSessionBound 10 20 sess 0; accept_send_now; present_question].

Definition sample_answered : option TaskSnapshot :=
  sample_fold sample_working [answer_question].

Definition sample_envelope (revision : N) (c : Command) : CommandEnvelope :=
  {| ce_command_id := 500; ce_client_id := 501; ce_task_id := Some 1; ce_issued_at_ms := 9%Z;
     ce_expected_task_revision := Some revision; ce_command := c |}.

Example sample_answered_revision :
  option_map (fun s => tf_revision (sn_task s)) sample_answered = Some 8.
Proof. by vm_compute. Qed.
