(* ===== verification/Invariant.v ===== *)
(** What every event application keeps: the lifecycle machine, the revision and
    epoch counters, the well-formedness of the snapshot, and the monotone parts
    of the provider sessions. *)
From S2P Require Import Prelude Canonical Task Agent Resource Artifact ProviderInput Browser Operation Snapshot Event Command Sample.

(** ** The abstract lifecycle machine *)

Inductive lifecycle_step : TaskLifecycle -> TaskLifecycle -> Prop :=
| LsSettle : lifecycle_step TaskOpen TaskSettledL
| LsBeginClose l : l = TaskOpen \/ l = TaskSettledL -> lifecycle_step l TaskClosing
| LsReopen l : l = TaskSettledL \/ l = TaskClosing \/ l = TaskArchivedL ->
    lifecycle_step l TaskOpen
| LsArchive : lifecycle_step TaskClosing TaskArchivedL
| LsDelete : lifecycle_step TaskArchivedL TaskDeletedL.

(** The lifecycle an event leaves behind. *)
Definition lifecycle_after (e : Event) (l l' : TaskLifecycle) : Prop :=
  match e with
  | EvTaskSettled => l = TaskOpen /\ l' = TaskSettledL
  | EvTaskCloseBegun _ => (l = TaskOpen \/ l = TaskSettledL) /\ l' = TaskClosing
  | EvTaskReopened =>
      (l = TaskSettledL \/ l = TaskClosing \/ l = TaskArchivedL) /\ l' = TaskOpen
  | EvTaskArchived => l = TaskClosing /\ l' = TaskArchivedL
  | EvTaskDeleted => l = TaskArchivedL /\ l' = TaskDeletedL
  | EvProviderInputAccepted _ _ _ _ _ _ _ _ _ _ _ (SendNow _ _ _) _ _ =>
      l' = if l =?= TaskSettledL then TaskOpen else l
  | _ => l' = l
  end.

Definition epoch_after (e : Event) (epoch epoch' : N) : Prop :=
  match e with
  | EvTaskCloseBegun n => epoch' = n /\ n = epoch + 1
  | _ => epoch' = epoch
  end.

(** The facts of a task no event rewrites. *)
Definition task_frame (t t' : TaskFacts) : Prop :=
  tf_id t' = tf_id t /\ tf_environment_id t' = tf_environment_id t
  /\ tf_description t' = tf_description t /\ tf_project_id t' = tf_project_id t
  /\ tf_workspace t' = tf_workspace t /\ tf_assignment t' = tf_assignment t
  /\ tf_created_at_ms t' = tf_created_at_ms t.

(** Opens the arm an event selects, down to the snapshot it builds. *)
Ltac arm_unfold Hs :=
  unfold apply_task_renamed, apply_close_begun, apply_settled, apply_reopened, apply_archived,
    apply_deleted, apply_agent_registered, apply_provider_bound, apply_provider_abandoned,
    apply_primary_set, apply_unstarted_rebound, apply_specialist_requested,
    apply_primary_promoted, apply_handoff_recorded, apply_specialist_closed,
    apply_artifact_registered, apply_resource_registered, apply_release_begun, apply_released,
    apply_terminal_renamed, apply_terminal_cwd, apply_terminal_exited, apply_terminal_activity,
    apply_strip_set, apply_input_accepted, apply_question_presented, apply_approval_presented,
    apply_wait_settled, apply_input_delivered, or_invalid in Hs.

Ltac arm Hs :=
  match type of Hs with
  | Err _ = Ok _ => discriminate Hs
  | _ => cbn [apply_into] in Hs; unfold refusing in Hs;
         try discriminate Hs; arm_unfold Hs; peel Hs
  end.

Section Arms.
Context `{Sha256} `{UrlParser} `{SpecialistJson}.

Lemma apply_into_task s e at_ms s' :
  apply_into s e at_ms = Ok s' ->
  task_frame (sn_task s) (sn_task s') /\ tf_revision (sn_task s') = tf_revision (sn_task s)
  /\ lifecycle_after e (tf_lifecycle (sn_task s)) (tf_lifecycle (sn_task s'))
  /\ epoch_after e (tf_action_epoch (sn_task s)) (tf_action_epoch (sn_task s')).
Proof.
  intros Hs. destruct e; arm Hs; try (subst s'; by repeat split).
  all: facts; subst; cbn; try (by repeat split).
  - match goal with G : checked_add _ _ = Some _ |- _ => apply checked_add_Some in G as [-> _] end.
    by repeat split.
  - repeat split. destruct (tf_lifecycle (sn_task s)); naive_solver.
  - by case_match; repeat split.
  - by case_match; repeat split.
  - destruct action; cbn; rewrite ?andb_false_r; try (by repeat split).
    rewrite andb_true_r. destruct (tf_lifecycle (sn_task s) =?= TaskSettledL); cbn; repeat split.
Qed.

(** ** The shape of a successful application *)

Definition is_operation_fact (e : Event) : bool :=
  match e with
  | EvOperationAccepted _ | EvOperationSettled _ | EvOperationFailed _ | EvOperationCancelled _
  | EvOperationUncertain _ => true
  | _ => false
  end.

(** The facts projected without consuming a task revision. *)
Definition is_host_projection (e : Event) : bool :=
  match e with
  | EvProviderInputDelivered _ _ _ _ _ _ _ _ _ _ _ | EvTerminalCwdReported _ _
  | EvTerminalExited _ _ _ | EvTerminalActivity _ => true
  | _ => false
  end.

Inductive applied (s : TaskSnapshot) (ev : DomainEvent) : TaskSnapshot -> Prop :=
| ApBrowser fact b :
    de_payload ev = EvBrowser fact -> fact_task_id fact = tf_id (sn_task s) ->
    try_apply_facts (sn_browser s) [fact] = Ok b ->
    de_task_revision ev = Some (tf_revision (sn_task s) + 1) ->
    tf_revision (sn_task s) + 1 <= u64_max ->
    applied s ev (set_revision (set_browser s b) (tf_revision (sn_task s) + 1))
| ApOperation : is_operation_fact (de_payload ev) = true -> applied s ev s
| ApProjection s' :
    is_host_projection (de_payload ev) = true ->
    apply_into s (de_payload ev) (de_occurred_at_ms ev) = Ok s' -> applied s ev s'
| ApMutation s1 :
    is_task_mutation (de_payload ev) = true ->
    apply_into s (de_payload ev) (de_occurred_at_ms ev) = Ok s1 ->
    de_task_revision ev = Some (tf_revision (sn_task s) + 1) ->
    tf_revision (sn_task s) + 1 <= u64_max ->
    applied s ev (set_revision s1 (tf_revision (sn_task s) + 1)).

Lemma require_matching_task_id_Ok s ev u :
  require_matching_task_id s ev = Ok u <-> de_task_id ev = Some (tf_id (sn_task s)).
Proof.
  unfold require_matching_task_id. destruct u. split.
  - destruct (de_task_id ev) as [id|]; [|done]. intros Hm.
    destruct (id =? tf_id (sn_task s)) eqn:E; [|done]. by apply N.eqb_eq in E as <-.
  - intros ->. by rewrite N.eqb_refl.
Qed.

Lemma require_next_revision_Ok s ev n :
  require_next_revision s ev = Ok n <->
  n = tf_revision (sn_task s) + 1 /\ de_task_revision ev = Some n /\ n <= u64_max.
Proof.
  unfold require_next_revision. split.
  - intros Hr. peel Hr. facts. subst.
    match goal with G : checked_add _ _ = Some _ |- _ => apply checked_add_Some in G as [-> ?] end.
    done.
  - intros (-> & -> & Hle). cbn. unfold checked_add.
    apply N.leb_le in Hle. by rewrite Hle; cbn; rewrite N.eqb_refl.
Qed.

Lemma apply_mutation_Ok s ev s' :
  apply_mutation (Some s) ev = Ok s' <->
  de_task_id ev = Some (tf_id (sn_task s))
  /\ de_task_revision ev = Some (tf_revision (sn_task s) + 1)
  /\ tf_revision (sn_task s) + 1 <= u64_max
  /\ exists s1, apply_into s (de_payload ev) (de_occurred_at_ms ev) = Ok s1
             /\ s' = set_revision s1 (tf_revision (sn_task s) + 1).
Proof.
  unfold apply_mutation. cbn [ok_or map_err rbind]. split.
  - intros Ha. peel Ha. subst s'. apply require_matching_task_id_Ok in G.
    apply require_next_revision_Ok in G0 as (-> & ? & ?). naive_solver.
  - intros (Ht & Hr & Hle & s1 & Hs & ->).
    rewrite (proj2 (require_matching_task_id_Ok s ev tt)) by done. cbn [map_err rbind].
    rewrite (proj2 (require_next_revision_Ok s ev _)) by done. cbn [map_err rbind].
    by rewrite Hs.
Qed.

Lemma apply_Some_applied s ev s' :
  apply (Some s) ev = Ok s' -> applied s ev s' /\ de_task_id ev = Some (tf_id (sn_task s)).
Proof.
  intros Ha. unfold apply in Ha.
  destruct (de_payload ev) eqn:E;
    try (apply apply_mutation_Ok in Ha as (? & ? & ? & s1 & ? & ->); split; [|done];
         apply ApMutation; [by rewrite E|done..]).
  all: try (apply apply_mutation_Ok in Ha as (_ & _ & _ & s1 & Hs & _); by rewrite E in Hs).
  all: unfold apply_task_created, apply_operation_fact, apply_browser_fact, apply_host_fact,
         refusing in Ha; cbn [ok_or map_err rbind] in Ha; peel Ha; try discriminate;
       repeat match goal with
         G : require_matching_task_id _ _ = Ok _ |- _ => apply require_matching_task_id_Ok in G
       end; subst; (split; [|done]).
  all: try (apply ApOperation; by rewrite E).
  all: try (apply ApProjection; [by rewrite E|done]).
  facts. subst.
  match goal with G : require_next_revision _ _ = Ok _ |- _ =>
    apply require_next_revision_Ok in G as (-> & ? & ?) end.
  by eapply ApBrowser.
Qed.

(** ** Counters and lifecycle *)

Definition bump (b : bool) : N := if b then 1 else 0.

Definition is_close_begun (e : Event) : bool :=
  match e with EvTaskCloseBegun _ => true | _ => false end.

Lemma applied_task s ev s' :
  applied s ev s' ->
  task_frame (sn_task s) (sn_task s')
  /\ tf_revision (sn_task s') = tf_revision (sn_task s) + bump (is_task_mutation (de_payload ev))
  /\ lifecycle_after (de_payload ev) (tf_lifecycle (sn_task s)) (tf_lifecycle (sn_task s'))
  /\ epoch_after (de_payload ev) (tf_action_epoch (sn_task s)) (tf_action_epoch (sn_task s')).
Proof.
  intros [fact b Hp _ _ _ _|Hop|s1 Hp Hs|s1 Hm Hs _ _].
  - rewrite Hp. by repeat split.
  - destruct (de_payload ev); try done; (repeat split; cbn; by rewrite ?N.add_0_r).
  - apply apply_into_task in Hs as (? & -> & ? & ?).
    destruct (de_payload ev); try done; (split_and!; [done|cbn; by rewrite ?N.add_0_r|done|done]).
  - apply apply_into_task in Hs as (? & _ & ? & ?). rewrite Hm. by split_and!.
Qed.

Lemma lifecycle_after_step e l l' : lifecycle_after e l l' -> l' = l \/ lifecycle_step l l'.
Proof.
  intros Hl. destruct e; cbn in Hl; try (by left).
  - destruct Hl as [? ->]. right. by constructor.
  - destruct Hl as [-> ->]. right. by constructor.
  - destruct Hl as [? ->]. right. by constructor.
  - destruct Hl as [-> ->]. right. by constructor.
  - destruct Hl as [-> ->]. right. by constructor.
  - destruct action; try (by left).
    destruct (l =?= TaskSettledL) eqn:E; [|by left]. apply eqb_true_1 in E as ->. subst l'.
    right. constructor. by left.
Qed.

Lemma lifecycle_step_deleted l : ~ lifecycle_step TaskDeletedL l.
Proof. intros Hs. inversion Hs; naive_solver. Qed.

Lemma rtc_lifecycle_deleted l : rtc lifecycle_step TaskDeletedL l -> l = TaskDeletedL.
Proof. intros Hs. inversion Hs as [|? ? ? Hd]; subst; [done|]. by apply lifecycle_step_deleted in Hd. Qed.

Lemma epoch_after_bump e n n' : epoch_after e n n' -> n' = n + bump (is_close_begun e).
Proof. destruct e; cbn; lia. Qed.

Lemma apply_all_from_cons fresh task index s e rest s' :
  apply_all_from fresh task index (Some s) (e :: rest) = Ok s' ->
  exists ev s1, de_payload ev = e /\ apply (Some s) ev = Ok s1
    /\ apply_all_from fresh task (index + 1) (Some s1) rest = Ok s'.
Proof.
  cbn [apply_all_from]. intros Ha. apply rbind_Ok in Ha as (rev & _ & Ha).
  apply rbind_Ok in Ha as (s1 & Hs & Ha). eexists _, s1.
  split_and!; [|exact Hs|exact Ha]. done.
Qed.

Definition mutations (es : list Event) : N := count (List.filter is_task_mutation es).
Definition closes (es : list Event) : N := count (List.filter is_close_begun es).

Lemma count_filter_cons {A} (p : A -> bool) x l :
  count (List.filter p (x :: l)) = bump (p x) + count (List.filter p l).
Proof. cbn [List.filter]. destruct (p x); [apply count_cons | done]. Qed.

Lemma apply_all_from_task fresh task index es : forall s s',
  apply_all_from fresh task index (Some s) es = Ok s' ->
  task_frame (sn_task s) (sn_task s')
  /\ tf_revision (sn_task s') = tf_revision (sn_task s) + mutations es
  /\ tf_action_epoch (sn_task s') = tf_action_epoch (sn_task s) + closes es
  /\ rtc lifecycle_step (tf_lifecycle (sn_task s)) (tf_lifecycle (sn_task s')).
Proof.
  revert index; induction es as [|e es IH]; intros index s s' Ha.
  - injection Ha as <-. unfold mutations, closes. cbn. rewrite !N.add_0_r. by repeat split.
  - apply apply_all_from_cons in Ha as (ev & s1 & <- & Hs & Ha).
    apply apply_Some_applied in Hs as [Hs _]. apply applied_task in Hs as (Hf & Hr & Hl & He).
    apply IH in Ha as (Hf' & Hr' & He' & Hl'). unfold mutations, closes in *.
    rewrite !count_filter_cons. apply epoch_after_bump in He. split_and!.
    + unfold task_frame in *. naive_solver congruence.
    + lia.
    + lia.
    + apply lifecycle_after_step in Hl as [<-|Hl]; [done|]. by eapply rtc_l.
Qed.

(** [Unreachable] is the one failure that is not a refusal. *)
Lemma map_err_refused {T} (r : result T ApplyError) : map_err Refused r <> Err Unreachable.
Proof. by destruct r. Qed.

Lemma rbind_refused {T U} (r : result T ApplyError) (f : T -> result U ApplyFailure) :
  rbind (map_err Refused r) f = Err Unreachable <-> exists t, r = Ok t /\ f t = Err Unreachable.
Proof. destruct r; cbn; split; naive_solver. Qed.

Lemma apply_into_unreachable s e at_ms :
  is_task_mutation e = true \/ is_host_projection e = true \/ e = EvPurged ->
  (forall f, e <> EvBrowser f) ->
  (forall t c a ac r, e <> EvTaskCreated t c a ac r) ->
  apply_into s e at_ms = Err Unreachable <-> e = EvPurged.
Proof.
  intros Hm Hb Hc. split; [|by intros ->].
  destruct e; cbn [apply_into]; try done; try (by intros ?%map_err_refused);
    first [by edestruct Hb | by edestruct Hc | by cbn in Hm; naive_solver].
Qed.

Lemma rbind_Ok_Err {T U E} (r : result T E) (g : T -> U) e :
  rbind r (fun t => Ok (g t)) = Err e <-> r = Err e.
Proof. destruct r; cbn; split; naive_solver. Qed.

(** ** Properties *)

(** applying an event never rewrites the identity of a task (id,
    environment, project, workspace, assignment, description, creation time);
    it advances the revision by exactly one when the event is a task mutation
    and leaves it alone otherwise; and it advances the action epoch by exactly
    one when it begins a close and leaves it alone otherwise. *)
Theorem apply_advances_counters (s s' : TaskSnapshot) (ev : DomainEvent)
    (Hrun : apply (Some s) ev = Ok s') :
  de_task_id ev = Some (tf_id (sn_task s))
  /\ task_frame (sn_task s) (sn_task s')
  /\ tf_revision (sn_task s') = tf_revision (sn_task s) + bump (is_task_mutation (de_payload ev))
  /\ tf_action_epoch (sn_task s')
     = tf_action_epoch (sn_task s) + bump (is_close_begun (de_payload ev)).
Proof.
  apply apply_Some_applied in Hrun as [Hs Ht]. apply applied_task in Hs as (? & ? & _ & He).
  by apply epoch_after_bump in He.
Qed.

(** Folding any list of events over a snapshot walks the abstract lifecycle
    machine (settle, begin close, archive, delete, reopen, and nothing else),
    counts the task mutations in the revision and the closes in the epoch, and
    never leaves [Deleted]. *)
Theorem apply_all_refines_lifecycle (fresh : N -> EventId) (s s' : TaskSnapshot)
    (es : list Event) (Hrun : apply_all fresh (Some s) es = Ok s') :
  rtc lifecycle_step (tf_lifecycle (sn_task s)) (tf_lifecycle (sn_task s'))
  /\ tf_revision (sn_task s') = tf_revision (sn_task s) + mutations es
  /\ tf_action_epoch (sn_task s') = tf_action_epoch (sn_task s) + closes es
  /\ (tf_lifecycle (sn_task s) = TaskDeletedL -> tf_lifecycle (sn_task s') = TaskDeletedL).
Proof.
  apply apply_all_from_task in Hrun as (_ & Hr & He & Hl). split_and!; try done.
  intros Hd. rewrite Hd in Hl. by apply rtc_lifecycle_deleted.
Qed.

(** The [unreachable!] of [apply_into] can be hit by one event only: a
    [Purged] row addressed to the task at its next revision. *)
Theorem apply_unreachable_only_purged (snapshot : option TaskSnapshot) (ev : DomainEvent) :
  apply snapshot ev = Err Unreachable <->
  de_payload ev = EvPurged
  /\ exists s, snapshot = Some s /\ de_task_id ev = Some (tf_id (sn_task s))
            /\ de_task_revision ev = Some (tf_revision (sn_task s) + 1)
            /\ tf_revision (sn_task s) + 1 <= u64_max.
Proof.
  unfold apply. split.
  - destruct (de_payload ev) eqn:E; try (by intros ?%map_err_refused); try done.
    all: unfold apply_mutation, apply_host_fact; rewrite !rbind_refused;
      intros (s & Hs%ok_or_Ok & Hr); apply rbind_refused in Hr as (? & Ht & Hr);
      apply require_matching_task_id_Ok in Ht; rewrite E in Hr;
      try (apply rbind_refused in Hr as (n & Hn & Hr); apply require_next_revision_Ok in Hn as (-> & ? & ?)).
    all: rewrite ?rbind_Ok_Err in Hr.
    all: try (by apply apply_into_unreachable in Hr; [|naive_solver..]).
    split; [done|]. by exists s.
  - intros (Hp & s & -> & Ht & Hr & Hle). rewrite Hp. unfold apply_mutation. cbn [ok_or map_err rbind].
    rewrite (proj2 (require_matching_task_id_Ok s ev tt)) by done. cbn [map_err rbind].
    rewrite (proj2 (require_next_revision_Ok s ev (tf_revision (sn_task s) + 1))) by done.
    by rewrite Hp.
Qed.
End Arms.

#[local] Existing Instance toy_sha.
#[local] Existing Instance toy_urls.
#[local] Existing Instance toy_json.

Lemma apply_advances_counters_witness :
  exists s', apply (Some (the sample_working)) (stamped (Some 8) (EvTaskCloseBegun 1)) = Ok s'
    /\ tf_revision (sn_task s') = 8 /\ tf_action_epoch (sn_task s') = 1.
Proof.
  destruct (apply (Some (the sample_working)) (stamped (Some 8) (EvTaskCloseBegun 1)))
    as [s'|] eqn:E; [|vm_compute in E; discriminate].
  destruct (apply_advances_counters _ _ _ E) as (_ & _ & Hr & He).
  exists s'. rewrite Hr, He. split_and!; by vm_compute.
Defined.

Lemma apply_all_refines_lifecycle_witness :
  exists s', apply_all (fun n => n) (Some (the sample_created))
               [EvTaskCloseBegun 1; EvTaskArchived; EvTaskDeleted] = Ok s'
    /\ rtc lifecycle_step TaskOpen (tf_lifecycle (sn_task s')) /\ tf_revision (sn_task s') = 4.
Proof.
  destruct (apply_all (fun n => n) (Some (the sample_created))
              [EvTaskCloseBegun 1; EvTaskArchived; EvTaskDeleted]) as [s'|] eqn:E;
    [|vm_compute in E; discriminate].
  destruct (apply_all_refines_lifecycle _ _ _ _ E) as (Hl & Hr & _).
  exists s'. rewrite Hr. split_and!; [done|exact Hl|by vm_compute].
Defined.
