(* ===== verification/WellFormed.v ===== *)
(** The well-formedness of a snapshot and that every event application keeps it. *)
From S2P Require Import Prelude Canonical Task Agent Resource Artifact ProviderInput Browser Operation Snapshot Event Command Sample Invariant.

(** ** The parts of a well-formed snapshot *)

Definition agents_wf (task : TaskId) (m : gmap N AgentSessionFacts) : Prop :=
  map_Forall (fun id a => ag_id a = id /\ ag_task_id a = task) m.

Definition primary_wf (p : option AgentSessionId) (m : gmap N AgentSessionFacts) : Prop :=
  forall id, p = Some id -> exists a, m !! id = Some a /\ is_specialist (ag_role a) = false.

Definition artifacts_wf (task : TaskId) (m : gmap N ArtifactFacts) : Prop :=
  map_Forall (fun id a => af_id a = id /\ af_task_id a = task /\ artifact_validate a = Ok tt) m.

Definition resource_wf (task : TaskId) (id : ResourceId) (r : ResourceFacts) : Prop :=
  rf_id r = id /\ rf_owner_kind r = OwnerTask /\ rf_task_id r = Some task
  /\ resource_validate r = Ok tt.

Definition resources_wf (task : TaskId) (m : gmap N ResourceFacts) : Prop :=
  map_Forall (resource_wf task) m.

(** The waits of a session were opened for this agent of this task. *)
Definition waits_wf (task : TaskId) (id : AgentSessionId) (w : gmap N ProviderWaitRecord) : Prop :=
  map_Forall (fun _ r => wf_agent_session_id (wr_fence r) = id /\ wf_task_id (wr_fence r) = task) w.

Definition sessions_wf (task : TaskId) (agents : gmap N AgentSessionFacts)
    (m : gmap N ProviderSessionProjection) : Prop :=
  map_Forall (fun id p => is_Some (agents !! id) /\ session_ok p /\ waits_wf task id (ps_waits p)) m.

(** A terminal that still holds its facts: registered and not yet released. *)
Definition holds_terminal (m : gmap N ResourceFacts) (id : ResourceId) : Prop :=
  exists r, m !! id = Some r /\ rf_resource_kind r = KindTerminal /\ rf_lifecycle r <> ResReleased.

Definition terminals_wf (resources : gmap N ResourceFacts) (m : gmap N TerminalFacts) : Prop :=
  map_Forall (fun id t => tm_resource_id t = id) m
  /\ forall id, is_Some (m !! id) <-> holds_terminal resources id.

Record snapshot_wf (s : TaskSnapshot) : Prop := {
  wf_agents : agents_wf (tf_id (sn_task s)) (sn_agents s);
  wf_primary : primary_wf (sn_primary_agent_id s) (sn_agents s);
  wf_artifacts : artifacts_wf (tf_id (sn_task s)) (sn_artifacts s);
  wf_resources : resources_wf (tf_id (sn_task s)) (sn_resources s);
  wf_sessions : sessions_wf (tf_id (sn_task s)) (sn_agents s) (sn_provider_sessions s);
  wf_terminals : terminals_wf (sn_resources s) (sn_terminal_facts s);
  wf_strip : strip_ok (sn_terminal_strip s) (tf_id (sn_task s)) (sn_resources s);
}.

(** ** Component lemmas *)

Lemma agents_wf_insert task m id a :
  agents_wf task m -> ag_id a = id -> ag_task_id a = task -> agents_wf task (<[id := a]> m).
Proof. intros Hm Hi Ht. by apply map_Forall_insert_2. Qed.

Lemma primary_wf_insert p m id a :
  primary_wf p m -> (p = Some id -> is_specialist (ag_role a) = false) ->
  primary_wf p (<[id := a]> m).
Proof.
  intros Hm Ha x Hx. destruct (decide (x = id)) as [->|Hne].
  - rewrite lookup_insert_eq. eauto.
  - rewrite lookup_insert_ne by done. by apply Hm.
Qed.

Lemma primary_wf_replace p m id a a' :
  primary_wf p m -> m !! id = Some a -> is_specialist (ag_role a') = is_specialist (ag_role a) ->
  primary_wf p (<[id := a']> m).
Proof.
  intros Hm Ha Hr. apply primary_wf_insert; [done|]. intros Hp.
  destruct (Hm _ Hp) as (b & Hb & Hs). rewrite Hr. by simplify_eq.
Qed.

Lemma sessions_wf_agents task agents m id a :
  sessions_wf task agents m -> sessions_wf task (<[id := a]> agents) m.
Proof.
  intros Hm x p Hx. destruct (Hm x p Hx) as (Ha & Hp). split; [|done].
  apply lookup_insert_is_Some. destruct (decide (id = x)); [by left|by right].
Qed.

Lemma sessions_wf_insert task agents m id p :
  sessions_wf task agents m -> is_Some (agents !! id) -> session_ok p ->
  waits_wf task id (ps_waits p) -> sessions_wf task agents (<[id := p]> m).
Proof. intros Hm Ha Hp Hw. by apply map_Forall_insert_2. Qed.

Lemma session_or_default_wf task s id :
  sessions_wf task (sn_agents s) (sn_provider_sessions s) ->
  session_ok (session_or_default s id) /\ waits_wf task id (ps_waits (session_or_default s id)).
Proof.
  intros Hm. unfold session_or_default. destruct (sn_provider_sessions s !! id) as [p|] eqn:E.
  - by destruct (Hm id p E) as (_ & ? & ?).
  - split; [apply session_default_ok|]. apply map_Forall_empty.
Qed.

(** *** Resources, terminals and the strip *)

Lemma resources_wf_insert task m id r :
  resources_wf task m -> resource_wf task id r -> resources_wf task (<[id := r]> m).
Proof. intros Hm Hr. by apply map_Forall_insert_2. Qed.

Lemma strip_ok_mono st task m m' :
  strip_ok st task m -> (forall x, strip_entry_ok task m x -> strip_entry_ok task m' x) ->
  strip_ok st task m'.
Proof.
  intros (Hc & Hnd & Hall & Hf) Hx. split_and!; try done. by eapply Forall_impl.
Qed.

(** Replacing a resource by one of the same task, kind and shell shape keeps
    every strip entry. *)
Lemma strip_ok_replace st task m id r r' :
  strip_ok st task m -> m !! id = Some r -> rf_task_id r' = rf_task_id r ->
  rf_resource_kind r' = rf_resource_kind r ->
  is_plain_shell (rf_recipe r') = is_plain_shell (rf_recipe r) ->
  strip_ok st task (<[id := r']> m).
Proof.
  intros Hst Hr Ht Hk Hp. eapply strip_ok_mono; [done|]. intros x (f & Hf & ?).
  destruct (decide (x = id)) as [->|Hne].
  - exists r'. rewrite lookup_insert_eq. simplify_eq. split_and!; naive_solver congruence.
  - exists f. by rewrite lookup_insert_ne.
Qed.

Lemma strip_ok_fresh st task m id r :
  strip_ok st task m -> m !! id = None -> strip_ok st task (<[id := r]> m).
Proof.
  intros Hst Hr. eapply strip_ok_mono; [done|]. intros x (f & Hf & ?).
  exists f. rewrite lookup_insert_ne; [done|]. naive_solver.
Qed.

Lemma strip_push_ok st task m id r :
  strip_ok st task m -> m !! id = None -> rf_task_id r = Some task ->
  rf_resource_kind r = KindTerminal -> is_plain_shell (rf_recipe r) = true ->
  count (st_order st) < MAX_PLAIN_SHELLS_PER_TASK ->
  strip_ok (strip_push st id) task (<[id := r]> m).
Proof.
  intros Hst Hid Ht Hk Hp Hc. pose proof (strip_ok_fresh _ _ _ _ r Hst Hid) as (_ & Hnd & Hall & Hf).
  assert (id ∉ st_order st) as Hnin.
  { destruct Hst as (_ & _ & Hs & _). intros Hin.
    destruct (proj1 (Forall_forall _ _) Hs _ Hin) as (f & Hm & _). congruence. }
  split_and!; cbn [strip_push st_order st_focused].
  - rewrite count_app, count_cons, count_nil. lia.
  - apply NoDup_app. split_and!; [done| |apply NoDup_singleton].
    intros x Hx ->%list_elem_of_singleton. done.
  - apply Forall_app. split; [done|]. apply Forall_singleton. exists r.
    by rewrite lookup_insert_eq.
  - intros x. destruct (st_focused st) as [f|]; intros [= <-].
    + apply elem_of_app. left. by apply Hf.
    + apply elem_of_app. right. by left.
Qed.

Lemma holds_terminal_insert m id r x :
  holds_terminal (<[id := r]> m) x <->
  (x = id /\ rf_resource_kind r = KindTerminal /\ rf_lifecycle r <> ResReleased)
  \/ (x <> id /\ holds_terminal m x).
Proof.
  unfold holds_terminal. destruct (decide (x = id)) as [->|Hne].
  - rewrite lookup_insert_eq. naive_solver.
  - rewrite lookup_insert_ne by done. naive_solver.
Qed.

Lemma terminals_wf_insert m tm id r t :
  terminals_wf m tm -> rf_resource_kind r = KindTerminal -> rf_lifecycle r <> ResReleased ->
  tm_resource_id t = id -> terminals_wf (<[id := r]> m) (<[id := t]> tm).
Proof.
  intros [Hid Hiff] Hk Hl Ht. split; [by apply map_Forall_insert_2|].
  intros x. rewrite holds_terminal_insert, lookup_insert_is_Some, Hiff.
  destruct (decide (x = id)); naive_solver.
Qed.

Lemma terminals_wf_other m tm id r :
  terminals_wf m tm -> m !! id = None -> rf_resource_kind r <> KindTerminal ->
  terminals_wf (<[id := r]> m) tm.
Proof.
  intros [Hid Hiff] Hm Hk. split; [done|]. intros x. rewrite holds_terminal_insert, Hiff.
  unfold holds_terminal. destruct (decide (x = id)); naive_solver.
Qed.

Lemma terminals_wf_update m tm id t t' :
  terminals_wf m tm -> tm !! id = Some t -> tm_resource_id t' = tm_resource_id t ->
  terminals_wf m (<[id := t']> tm).
Proof.
  intros [Hid Hiff] Ht Heq. split.
  - apply map_Forall_insert_2; [|done]. rewrite Heq. by apply Hid.
  - intros x. rewrite lookup_insert_is_Some, <- Hiff. destruct (decide (id = x)) as [->|]; [|tauto].
    rewrite Ht. naive_solver.
Qed.

(** Replacing a resource by one that holds a terminal exactly when it did. *)
Lemma terminals_wf_replace m tm id r r' :
  terminals_wf m tm -> m !! id = Some r -> rf_resource_kind r' = rf_resource_kind r ->
  (rf_lifecycle r' = ResReleased <-> rf_lifecycle r = ResReleased) ->
  terminals_wf (<[id := r']> m) tm.
Proof.
  intros [Hid Hiff] Hm Hk Hl. split; [done|]. intros x. rewrite holds_terminal_insert, Hiff.
  unfold holds_terminal. destruct (decide (x = id)); naive_solver congruence.
Qed.

Lemma terminals_wf_release m tm id r :
  terminals_wf m tm -> rf_lifecycle r = ResReleased ->
  terminals_wf (<[id := r]> m) (delete id tm).
Proof.
  intros [Hid Hiff] Hl. split; [by apply map_Forall_delete|]. intros x.
  rewrite holds_terminal_insert, lookup_delete_is_Some, Hiff. naive_solver.
Qed.

Lemma rename_validates task id r cols rows launch old title :
  resource_wf task id r -> rf_recipe r = RecipeTerminal cols rows launch old ->
  is_plain_shell (rf_recipe r) = true -> validate_terminal_title title = Ok tt ->
  resource_wf task id (with_recipe r (RecipeTerminal cols rows launch (Some title))).
Proof.
  intros (Hid & Ho & Ht & Hv) Hr Hp Hti. repeat split; try done. unfold resource_validate in *.
  cbn [with_recipe rf_owner_kind rf_task_id rf_resource_kind rf_recipe]. rewrite Hr in Hv, Hp.
  apply rbind_Ok in Hv as ([] & Hob & Hv). rewrite Hob. cbn [rbind].
  destruct (rf_resource_kind r); cbn [kind_matches_recipe] in *; try done.
  cbn [recipe_validate] in *. apply rbind_Ok in Hv as ([] & Hg & Hv). rewrite Hg. cbn [rbind].
  apply rbind_Ok in Hv as ([] & Hl & _). rewrite Hl. cbn [rbind].
  destruct launch; [done|]. done.
Qed.

(** *** Provider sessions *)

Lemma fence_structure fence action wait context u :
  validate_provider_fence fence action wait context = Ok u ->
  validate_provider_fence fence None None None = Ok tt.
Proof.
  unfold validate_provider_fence. intros Hv. apply rbind_Ok in Hv as (k & Hk & Hv).
  rewrite Hk. cbn [rbind]. do 3 (apply rbind_Ok in Hv as ([] & Hg & Hv); rewrite Hg; cbn [rbind]; clear Hg).
  done.
Qed.

Lemma snapshot_fence_Ok s id fence action wait turn allow u :
  validate_snapshot_provider_fence s id fence action wait turn allow = Ok u ->
  exists agent, sn_agents s !! id = Some agent
    /\ validate_provider_fence fence None None None = Ok tt
    /\ fi_agent_session_id fence = id /\ fi_task_id fence = Some (tf_id (sn_task s))
    /\ fi_provider_kind fence = Some (ag_provider_kind agent)
    /\ fi_provider_session_id fence = ag_provider_session_id agent
    /\ fi_runtime_generation fence = ag_runtime_generation agent
    /\ fi_action_epoch fence = tf_action_epoch (sn_task s)
    /\ (forall t, turn = Some t -> fi_turn_id fence = t).
Proof.
  unfold validate_snapshot_provider_fence, or_invalid. intros Hv. peel Hv.
  match goal with G : sn_agents s !! id = Some ?a |- _ => exists a end.
  pose proof (fence_structure _ _ _ _ _ Hv) as Hf. split; [done|]. split; [done|].
  unfold validate_provider_fence in Hv. peel Hv.
  match goal with G : validate_fence_context _ _ _ = Ok _ |- _ =>
    unfold validate_fence_context in G; cbn in G; peel G end.
  facts. simplify_eq. split_and!; try congruence.
  intros t ->. cbn in *. by match goal with G : (_ =? _) = true |- _ => apply N.eqb_eq in G end.
Qed.

Lemma session_ok_settlement p t x :
  session_ok p -> is_some (se_operation_id x) = true ->
  session_ok (with_settlement (with_turn p t) (Some x)).
Proof. intros (? & ? & ? & _ & ?) Hx. split_and!; try done. by intros y [= <-]. Qed.

Lemma session_ok_turn p t : session_ok p -> session_ok (with_turn p t).
Proof. done. Qed.

Lemma record_winner_ok p a w p' :
  record_winner p a w = Ok p' -> session_ok p -> session_ok p' /\ ps_waits p' = ps_waits p.
Proof.
  intros Hr (Hq & Ha & Hw & Hs & Hf). unfold record_winner, or_invalid in Hr.
  destruct a; try (injection Hr as <-; done).
  all: apply map_err_Ok in Hr; unfold bounded_insert_question_winner,
         bounded_insert_approval_winner in Hr;
       destruct (is_none _ && _) eqn:E; [done|]; injection Hr as <-; split; [|done];
       split_and!; try done; cbn.
  all: match goal with |- msize (<[?k := _]> ?m) <= _ => destruct (m !! k) as [y|] eqn:Ek end;
       [by rewrite (msize_insert_Some _ _ _ _ Ek)|];
       rewrite msize_insert_None by done; cbn in E; rewrite ?Ek in E; apply N.leb_gt in E; lia.
Qed.

Lemma insert_wait_ok task id p c r p' :
  bounded_insert_wait p c r = Ok p' -> session_ok p -> waits_wf task id (ps_waits p) ->
  wr_pending r = true -> wf_command_id (wr_fence r) = c ->
  is_some (wf_operation_id (wr_fence r)) = true ->
  validate_provider_fence (fence_identity (wr_fence r)) None None None = Ok tt ->
  wf_agent_session_id (wr_fence r) = id -> wf_task_id (wr_fence r) = task ->
  session_ok p' /\ waits_wf task id (ps_waits p').
Proof.
  intros Hi (Hq & Ha & Hw & Hs & Hf) Hwf Hp Hc Ho Hv Hag Ht.
  apply bounded_insert_wait_Ok in Hi as (Heq & Hsz & Hlk & _ & Hold); [|done|by right].
  generalize dependent (ps_waits p'). intros waits -> Hsz Hlk Hold. cbn. split.
  - split_and!; try done. cbn. intros k w Hk. destruct (decide (k = c)) as [->|Hne].
    + rewrite Hk in Hlk. by injection Hlk as ->.
    + by apply Hf, Hold.
  - intros k w Hk. destruct (decide (k = c)) as [->|Hne].
    { rewrite Hk in Hlk. by injection Hlk as ->. }
    by apply (Hwf k), Hold.
Qed.

Lemma settle_wait_ok task id p c r :
  session_ok p -> waits_wf task id (ps_waits p) -> ps_waits p !! c = Some r ->
  let w := <[c := {| wr_fence := wr_fence r; wr_pending := false |}]> (ps_waits p) in
  session_ok (with_waits p w) /\ waits_wf task id w.
Proof.
  intros (Hq & Ha & Hw & Hs & Hf) Hwf Hc w. subst w. split.
  - split_and!; try done; cbn.
    + by rewrite (msize_insert_Some _ _ _ _ Hc).
    + intros k x. destruct (decide (k = c)) as [->|Hne].
      * rewrite lookup_insert_eq. intros [= <-]. by apply (Hf c r).
      * rewrite lookup_insert_ne by done. apply Hf.
  - apply map_Forall_insert_2; [|done]. by apply (Hwf c r).
Qed.

(** ** Every arm keeps a snapshot well formed *)

(** Splits the goal into the parts of the invariant the arm changed. *)
Ltac wf_parts W := destruct W as [Wa Wp Wf Wr Ws Wt Wst]; constructor; cbn; try assumption.

Lemma put_agent_wf s id a a' :
  snapshot_wf s -> sn_agents s !! id = Some a -> ag_id a' = ag_id a ->
  ag_task_id a' = ag_task_id a -> is_specialist (ag_role a') = is_specialist (ag_role a) ->
  snapshot_wf (put_agent s a' id).
Proof.
  intros W Ha Hi Ht Hr. wf_parts W.
  - destruct (Wa _ _ Ha). apply agents_wf_insert; [done|congruence..].
  - by eapply primary_wf_replace.
  - by apply sessions_wf_agents.
Qed.

Lemma put_new_agent_wf s a :
  snapshot_wf s -> sn_agents s !! ag_id a = None -> ag_task_id a = tf_id (sn_task s) ->
  snapshot_wf (put_agent s a (ag_id a)).
Proof.
  intros W Ha Ht. wf_parts W.
  - by apply agents_wf_insert.
  - apply primary_wf_insert; [done|]. intros Hp. destruct (Wp _ Hp) as (b & Hb & _). congruence.
  - by apply sessions_wf_agents.
Qed.

Lemma put_session_wf s id p :
  snapshot_wf s -> is_Some (sn_agents s !! id) -> session_ok p ->
  waits_wf (tf_id (sn_task s)) id (ps_waits p) -> snapshot_wf (put_session s id p).
Proof. intros W Ha Hp Hw. wf_parts W. by apply sessions_wf_insert. Qed.

Lemma put_terminal_wf s id t t' :
  snapshot_wf s -> sn_terminal_facts s !! id = Some t -> tm_resource_id t' = tm_resource_id t ->
  snapshot_wf (put_terminal s id t').
Proof. intros W Ht Hr. wf_parts W. by eapply terminals_wf_update. Qed.

Lemma set_primary_wf s id a :
  snapshot_wf s -> sn_agents s !! id = Some a -> is_specialist (ag_role a) = false ->
  snapshot_wf (set_primary s (Some id)).
Proof. intros W Ha Hr. wf_parts W. intros x [= <-]. eauto. Qed.

Lemma put_artifact_wf s a :
  snapshot_wf s -> af_task_id a = tf_id (sn_task s) -> artifact_validate a = Ok tt ->
  snapshot_wf (set_artifacts s (<[af_id a := a]> (sn_artifacts s))).
Proof. intros W Ht Hv. wf_parts W. by apply map_Forall_insert_2. Qed.

Lemma release_begun_wf s id r at_ms :
  snapshot_wf s -> sn_resources s !! id = Some r -> rf_lifecycle r = ResActive ->
  snapshot_wf (set_resources s (<[id := with_res_state r ResReleasing at_ms]> (sn_resources s))).
Proof.
  intros W Hr Hl. wf_parts W.
  - apply resources_wf_insert; [done|]. by apply Wr in Hr.
  - eapply terminals_wf_replace; [done..|]. cbn. rewrite Hl. done.
  - by eapply strip_ok_replace.
Qed.

Lemma released_wf s id r at_ms :
  snapshot_wf s -> sn_resources s !! id = Some r ->
  snapshot_wf
    (set_terminals
       (set_resources s (<[id := with_res_state r ResReleased at_ms]> (sn_resources s)))
       (delete id (sn_terminal_facts s)) (strip_remove (sn_terminal_strip s) id)).
Proof.
  intros W Hr. wf_parts W.
  - apply resources_wf_insert; [done|]. by apply Wr in Hr.
  - by apply terminals_wf_release.
  - eapply strip_remove_ok; [done|]. intros x Hne (f & Hf & ?). exists f.
    by rewrite lookup_insert_ne.
Qed.

Lemma register_wf s r at_ms :
  snapshot_wf s -> sn_resources s !! rf_id r = None ->
  resource_wf (tf_id (sn_task s)) (rf_id r) r -> rf_lifecycle r = ResActive ->
  (is_plain_shell (rf_recipe r) = false
   \/ count (st_order (sn_terminal_strip s)) < MAX_PLAIN_SHELLS_PER_TASK) ->
  let s1 := set_resources s (<[rf_id r := r]> (sn_resources s)) in
  snapshot_wf (if rf_resource_kind r =?= KindTerminal then register_terminal s1 r at_ms else s1).
Proof.
  intros W Hn Hr Hl Hcap s1. destruct (rf_resource_kind r =?= KindTerminal) eqn:E.
  - apply eqb_true_1 in E. pose proof Hr as (_ & _ & Ht & _). wf_parts W.
    + by apply resources_wf_insert.
    + apply terminals_wf_insert; [done|done|by rewrite Hl|done].
    + destruct (is_plain_shell (rf_recipe r)) eqn:Ep; [|by apply strip_ok_fresh].
      apply strip_push_ok; try done. naive_solver.
  - apply eqb_false in E. wf_parts W.
    + by apply resources_wf_insert.
    + by apply terminals_wf_other.
    + by apply strip_ok_fresh.
Qed.

Lemma rename_terminal_wf s id r t title :
  snapshot_wf s -> sn_resources s !! id = Some r -> is_plain_shell (rf_recipe r) = true ->
  validate_terminal_title title = Ok tt -> sn_terminal_facts s !! id = Some t ->
  let s1 := put_terminal s id (terminal_with t (Some title) (tm_live_cwd t) (tm_exit t)
                                 (tm_last_activity_at_ms t)) in
  snapshot_wf (match rf_recipe r with
               | RecipeTerminal cols rows launch _ =>
                   set_resources s1
                     (<[id := with_recipe r (RecipeTerminal cols rows launch (Some title))]>
                        (sn_resources s1))
               | _ => s1
               end).
Proof.
  intros W Hr Hp Hv Ht s1. assert (snapshot_wf s1) as W1 by (by eapply put_terminal_wf).
  destruct (rf_recipe r) as [cols rows launch old| |] eqn:E; [|done..].
  destruct W1 as [Wa Wp Wf Wr Ws Wt Wst]. constructor; try done.
  - apply resources_wf_insert; [done|]. eapply rename_validates; [by apply Wr|done| |done].
    by rewrite E.
  - by eapply terminals_wf_replace.
  - eapply strip_ok_replace; try done. cbn. by rewrite E.
Qed.

Section Arms.
Context `{Sha256} `{UrlParser} `{SpecialistJson}.

Lemma put_accepted_wf s (l : bool) i p action settlement wait r p1 p2 :
  let s' := if l then set_lifecycle s TaskOpen else s in
  snapshot_wf s ->
  validate_snapshot_provider_fence s (ii_agent_session_id i) (input_fence s i) (Some action)
    (Some wait) (accepted_turn s i action) false = Ok r ->
  p = with_settlement (with_turn (session_or_default s' (ii_agent_session_id i))
                         (Some (ii_turn_id i))) (Some (settlement_of i settlement)) ->
  (exists w, record_winner p action w = Ok p1) ->
  (if wait then or_invalid (bounded_insert_wait p1 (ii_command_id i) (wait_record_of s' i))
   else Ok p1) = Ok p2 ->
  snapshot_wf (put_session s' (ii_agent_session_id i) p2).
Proof.
  intros s' W Hf -> [w Hw] Hi. apply snapshot_fence_Ok in Hf as (agent & Ha & Hv & _).
  assert (snapshot_wf s' /\ sn_agents s' = sn_agents s /\ tf_id (sn_task s') = tf_id (sn_task s))
    as (W' & Hag & Hid) by (subst s'; destruct l; [split_and!; [by wf_parts W|done..]|done]).
  destruct (session_or_default_wf _ _ (ii_agent_session_id i) (wf_sessions _ W')) as [Hp Hws].
  apply record_winner_ok in Hw as [Hp1 Hw1]; [|by apply session_ok_settlement].
  cbn in Hw1. rewrite <- Hw1 in Hws.
  assert (session_ok p2 /\ waits_wf (tf_id (sn_task s')) (ii_agent_session_id i) (ps_waits p2))
    as [Hp2 Hw2].
  { destruct wait; [|by injection Hi as <-]. apply map_err_Ok in Hi.
    by eapply insert_wait_ok. }
  apply put_session_wf; try done. rewrite Hag. eauto.
Qed.

Lemma live_specialist_Ok s id g a :
  live_specialist s id g = Ok a ->
  sn_agents s !! id = Some a /\ is_specialist (ag_role a) = true /\ ag_lifecycle a = AgentOpen
  /\ ag_runtime_generation a = g.
Proof. unfold live_specialist. intros Hl. peel Hl. facts. by subst. Qed.

Lemma handoff_artifact_ok_Ok s a structured epoch u :
  handoff_artifact_ok s a structured epoch = Ok u ->
  af_task_id a = tf_id (sn_task s) /\ artifact_validate a = Ok tt.
Proof. unfold handoff_artifact_ok, or_invalid. intros Hl. peel Hl; by facts. Qed.

Lemma apply_promoted_wf s previous a a' promoted b b' :
  snapshot_wf s -> sn_agents s !! previous = Some a ->
  is_specialist (ag_role a') = true -> ag_id a' = ag_id a -> ag_task_id a' = ag_task_id a ->
  sn_agents s !! promoted = Some b -> promoted <> previous ->
  is_specialist (ag_role b') = false -> ag_id b' = ag_id b -> ag_task_id b' = ag_task_id b ->
  snapshot_wf (set_primary (put_agent (put_agent s a' previous) b' promoted) (Some promoted)).
Proof.
  intros W Ha Hr Hi Ht Hb Hne Hrb Hib Htb. wf_parts W.
  - destruct (Wa _ _ Ha), (Wa _ _ Hb). 
    apply agents_wf_insert; [apply agents_wf_insert; [done|congruence..]|congruence..].
  - intros x [= <-]. exists b'. by rewrite lookup_insert_eq.
  - by do 2 apply sessions_wf_agents.
Qed.

Lemma apply_into_wf s e at_ms s' :
  apply_into s e at_ms = Ok s' -> snapshot_wf s -> snapshot_wf s'.
Proof.
  intros Hs W. destruct e; arm Hs; try done; facts; try subst s'; try (by wf_parts W).
  - apply put_session_wf.
    + by apply put_new_agent_wf.
    + cbn. rewrite lookup_insert_eq. eauto.
    + by eapply session_or_default_wf, wf_sessions, put_new_agent_wf.
    + by eapply session_or_default_wf, wf_sessions, put_new_agent_wf.
  - by eapply put_agent_wf.
  - by eapply put_agent_wf.
  - by eapply set_primary_wf.
  - by eapply put_agent_wf.
  - by apply put_new_agent_wf.
  - match goal with G : role_specialist _ = Ok _ |- _ => injection G as <- end.
    match goal with G : _ !! promoted = Some _ |- _ => cbn in G;
      rewrite lookup_insert_ne in G by done end.
    by eapply apply_promoted_wf.
  - apply handoff_artifact_ok_Ok in G as []. apply live_specialist_Ok in G1 as (? & _).
    apply (put_artifact_wf (put_agent s _ _)); [by eapply put_agent_wf|done..].
  - apply live_specialist_Ok in G as (? & _). by eapply put_agent_wf.
  - by apply put_artifact_wf.
  - by apply register_wf.
  - unfold releasable in G. peel G. subst. facts. by eapply release_begun_wf.
  - unfold releasable in G. peel G. subst. by eapply released_wf.
  - by eapply rename_terminal_wf.
  - by eapply put_terminal_wf.
  - by eapply put_terminal_wf.
  - by eapply put_terminal_wf.
  - wf_parts W. by apply strip_validate_Ok.
  - match type of G0 with context [input_fence _ ?i] =>
      eapply (put_accepted_wf s _ i); try done; by eexists
    end.
  - apply snapshot_fence_Ok in G as (agent & Ha & _).
    destruct (session_or_default_wf _ _ agent_session_id (wf_sessions _ W)) as [Hp Hws].
    apply put_session_wf; eauto.
  - apply snapshot_fence_Ok in G as (agent & Ha & _).
    destruct (session_or_default_wf _ _ agent_session_id (wf_sessions _ W)) as [Hp Hws].
    apply put_session_wf; eauto.
  - apply snapshot_fence_Ok in G as (agent & Ha & _).
    destruct (wf_sessions _ W _ _ G0) as (_ & Hp & Hw).
    destruct (settle_wait_ok _ _ _ _ _ Hp Hw G1). apply put_session_wf; eauto.
  - apply snapshot_fence_Ok in G as (agent & Ha & _).
    destruct (wf_sessions _ W _ _ G0) as (_ & Hp & Hw).
    apply put_session_wf; [done|eauto| |done].
    by apply (session_ok_settlement _ (ps_current_turn x0)).
Qed.

Lemma set_revision_wf s n : snapshot_wf s -> snapshot_wf (set_revision s n).
Proof. intros W. by wf_parts W. Qed.

Lemma applied_wf s ev s' : applied s ev s' -> snapshot_wf s -> snapshot_wf s'.
Proof.
  intros [fact b _ _ _ _ _|_|s1 _ Hs|s1 _ Hs _ _] W.
  - by wf_parts W.
  - done.
  - by eapply apply_into_wf.
  - by eapply set_revision_wf, apply_into_wf.
Qed.

Lemma apply_None_Ok ev s :
  apply None ev = Ok s ->
  (exists t c a ac r, de_payload ev = EvTaskCreated t c a ac r
     /\ validate_for_create t = Ok tt /\ sn_task s = t)
  /\ de_task_id ev = Some (tf_id (sn_task s))
  /\ tf_revision (sn_task s) = 1
  /\ sn_agents s = ∅ /\ sn_primary_agent_id s = None /\ sn_artifacts s = ∅
  /\ sn_resources s = ∅ /\ sn_provider_sessions s = ∅ /\ sn_terminal_facts s = ∅
  /\ sn_terminal_strip s = strip_default /\ tf_lifecycle (sn_task s) = TaskOpen
  /\ tf_action_epoch (sn_task s) = 0.
Proof.
  unfold apply. intros Ha.
  destruct (de_payload ev) eqn:E; unfold refusing, apply_mutation, apply_host_fact,
    apply_operation_fact, apply_browser_fact in Ha; cbn [ok_or map_err rbind] in Ha;
    try discriminate Ha.
  apply map_err_Ok in Ha. unfold apply_task_created, or_invalid in Ha. peel Ha. subst s. facts.
  destruct (de_task_id ev) as [id|] eqn:Et; [|done].
  match goal with G : is_some_and _ _ = true |- _ => cbn in G; apply N.eqb_eq in G as -> end.
  match goal with G : validate_for_create _ = Ok _ |- _ =>
    pose proof G as Gc; unfold validate_for_create in Gc; peel Gc end.
  facts. cbn. split; [by do 5 eexists|]. by split_and!.
Qed.

Lemma created_wf ev s : apply None ev = Ok s -> snapshot_wf s.
Proof.
  intros (_ & _ & _ & Ha & Hp & Hf & Hr & Hs & Ht & Hst & _)%apply_None_Ok.
  constructor; rewrite ?Ha, ?Hp, ?Hf, ?Hr, ?Hs, ?Ht, ?Hst; try solve [apply map_Forall_empty]; [by intros ? ?| |].
  - split; [apply map_Forall_empty|]. intros x. rewrite lookup_empty. unfold holds_terminal.
    split; [by intros []|]. intros (r & Hx & _). by rewrite lookup_empty in Hx.
  - split_and!; [done|constructor|constructor|done].
Qed.

(** The snapshots a log of events replays to. *)
Inductive replayed : list DomainEvent -> TaskSnapshot -> Prop :=
| replayed_created ev s : apply None ev = Ok s -> replayed [ev] s
| replayed_next log s ev s' :
    replayed log s -> apply (Some s) ev = Ok s' -> replayed (log ++ [ev]) s'.

Lemma replayed_inv log s : replayed log s -> snapshot_wf s.
Proof.
  induction 1 as [ev s Hs|log s ev s' _ IH Hs].
  - by eapply created_wf.
  - apply apply_Some_applied in Hs as [Hs _]. by eapply applied_wf.
Qed.

Lemma apply_all_from_replayed fresh task index es : forall log s s',
  replayed log s -> apply_all_from fresh task index (Some s) es = Ok s' ->
  exists log', replayed (log ++ log') s' /\ map de_payload log' = es.
Proof.
  revert index; induction es as [|e es IH]; intros index log s s' Hlog Ha.
  - injection Ha as <-. exists []. by rewrite app_nil_r.
  - apply apply_all_from_cons in Ha as (ev & s1 & <- & Hs & Ha).
    destruct (IH _ (log ++ [ev]) _ _ (replayed_next _ _ _ _ Hlog Hs) Ha) as (l & Hl & Hm).
    exists (ev :: l). cbn. rewrite <- app_assoc in Hl. by rewrite Hm.
Qed.

(** ** Properties *)

(** C5: whatever log of events a snapshot replays from, it is well formed: maps
    are keyed by their members' ids and hold only this task's members, the
    primary agent exists and is no specialist, every artifact and resource is
    valid, the sessions respect their bounds and fences, a terminal has facts
    exactly while it is registered and not released, and the strip lists at
    most eight distinct plain shells of the task.  The revision counts the
    mutations of the log and stays within 64 bits. *)
Theorem replayed_well_formed (log : list DomainEvent) (s : TaskSnapshot)
    (Hlog : replayed log s) :
  snapshot_wf s /\ tf_revision (sn_task s) = mutations (map de_payload log)
  /\ 1 <= tf_revision (sn_task s) <= u64_max.
Proof.
  split; [by eapply replayed_inv|].
  induction Hlog as [ev s Hs|log s ev s' _ [Hr Hb] Hs].
  - apply apply_None_Ok in Hs as ((t & c & a & ac & r & Hp & _) & _ & -> & _). cbn [map]. by rewrite Hp.
  - apply apply_Some_applied in Hs as [Hs _]. pose proof (applied_task _ _ _ Hs) as (_ & Hr' & _).
    rewrite map_app. unfold mutations in *. rewrite List.filter_app, count_app, <- Hr. cbn.
    unfold bump in Hr'. rewrite Hr'. destruct (is_task_mutation (de_payload ev)) eqn:E.
    + rewrite count_cons, count_nil. split; [lia|].
      destruct Hs as [fact b _ _ _ _ ?|Hop|s1 Hop _|s1 _ _ _ ?]; [lia| | |lia];
        revert E Hop; by destruct (de_payload ev).
    + split; [done|]. by rewrite N.add_0_r.
Qed.
End Arms.

#[local] Existing Instance toy_sha.
#[local] Existing Instance toy_urls.
#[local] Existing Instance toy_json.

Lemma sample_created_replayed : replayed [sample_created_event] (the sample_created).
Proof. apply replayed_created. by vm_compute. Qed.

Lemma sample_working_replayed : exists log, replayed log (the sample_working).
Proof.
  destruct (apply_all_from_replayed (fun n => n) (Some 1) 0
    [EvAgentSessionRegistered sample_agent; EvPrimaryAgentSet 10;
     EvResourceRegistered sample_provider_terminal] _ _ (the sample_manned)
    sample_created_replayed) as (log & Hlog & _); [by vm_compute|].
  destruct (apply_all_from_replayed (fun n => n) (Some 1) 0
    [EvAgentProviderSessionBound 10 20 sess 0; accept_send_now; present_question] _ _
    (the sample_working) Hlog) as (log' & Hlog' & _); [by vm_compute|].
  eauto.
Qed.

Lemma replayed_well_formed_witness : snapshot_wf (the sample_created).
Proof. apply (replayed_well_formed _ _ sample_created_replayed). Defined.
