(* ===== verification/Sessions.v ===== *)
(** What events do to an agent and to its provider session: the conversation
    bound to an agent, the first answers, and the pending waits. *)
From S2P Require Import Prelude Canonical Task Agent Resource Artifact ProviderInput Browser Operation Snapshot Event Command Sample Invariant WellFormed.

(** ** Agents *)

(** How one event moves an agent. *)
Inductive agent_step (e : Event) (id : AgentSessionId) (a : AgentSessionFacts)
    : AgentSessionFacts -> Prop :=
| AsSame : agent_step e id a a
| AsBound r session g :
    e = EvAgentProviderSessionBound id r session g -> ag_provider_session_id a = None ->
    ag_lifecycle a = AgentOpen -> ag_runtime_generation a = g ->
    agent_step e id a (rebind_session a (Some session))
| AsAbandoned session g :
    e = EvAgentProviderSessionAbandoned id session g ->
    ag_provider_session_id a = Some session -> ag_lifecycle a = AgentOpen ->
    ag_runtime_generation a = g -> agent_step e id a (rebind_session a None)
| AsRebound k :
    e = EvUnstartedPrimaryProviderRebound id k -> ag_provider_session_id a = None ->
    ag_lifecycle a = AgentOpen -> agent_step e id a (rebound_agent a k)
| AsRole r : ag_lifecycle a = AgentOpen -> agent_step e id a (with_role a r)
| AsClosed :
    is_specialist (ag_role a) = true -> ag_lifecycle a = AgentOpen ->
    agent_step e id a (with_lifecycle a AgentClosed).

Lemma put_agent_step e s id' a0 a' id a :
  sn_agents s !! id' = Some a0 -> agent_step e id' a0 a' -> sn_agents s !! id = Some a ->
  exists x, sn_agents (put_agent s a' id') !! id = Some x /\ agent_step e id a x.
Proof.
  intros Ha Hs Hid. cbn. destruct (decide (id' = id)) as [->|Hne].
  - rewrite lookup_insert_eq. exists a'. split; [done|]. by simplify_eq.
  - rewrite lookup_insert_ne by done. exists a. split; [done|constructor].
Qed.

Lemma put_new_agent_step e s a0 id a :
  sn_agents s !! ag_id a0 = None -> sn_agents s !! id = Some a ->
  exists x, sn_agents (put_agent s a0 (ag_id a0)) !! id = Some x /\ agent_step e id a x.
Proof.
  intros Hn Ha. cbn. rewrite lookup_insert_ne by congruence. exists a. split; [done|constructor].
Qed.

(** ** Sessions *)

Definition settles (e : Event) (f : ProviderWaitFence) : Prop := e = EvProviderWaitSettled f.

(** The command whose acceptance opens a wait. *)
Definition waiting_command (e : Event) : option CommandId :=
  match e with
  | EvProviderInputAccepted c _ _ _ _ _ _ _ _ _ _ _ true _ => Some c
  | _ => None
  end.

(** What an event keeps of a session: every first answer, and every pending
    wait but the one it settles or the same command reopens. *)
Record session_step (e : Event) (p p' : ProviderSessionProjection) : Prop := {
  ss_questions : ps_question_winners p ⊆ ps_question_winners p';
  ss_approvals : ps_approval_winners p ⊆ ps_approval_winners p';
  ss_waits : forall c r, ps_waits p !! c = Some r -> wr_pending r = true ->
    ps_waits p' !! c = Some r
    \/ (settles e (wr_fence r)
        /\ ps_waits p' !! c = Some {| wr_fence := wr_fence r; wr_pending := false |})
    \/ waiting_command e = Some c;
}.

Lemma session_step_refl e p : session_step e p p.
Proof. constructor; [done|done|]. by left. Qed.

Lemma put_session_step e s id' q id p :
  session_step e (session_or_default s id') q -> sn_provider_sessions s !! id = Some p ->
  exists p', sn_provider_sessions (put_session s id' q) !! id = Some p' /\ session_step e p p'.
Proof.
  intros Hs Hp. cbn. destruct (decide (id' = id)) as [->|Hne].
  - rewrite lookup_insert_eq. exists q. split; [done|]. unfold session_or_default in Hs.
    by rewrite Hp in Hs.
  - rewrite lookup_insert_ne by done. exists p. split; [done|]. apply session_step_refl.
Qed.

Lemma record_winner_step p0 a w p' :
  record_winner p0 a w = Ok p' -> check_unresolved p0 a = Ok tt ->
  ps_question_winners p0 ⊆ ps_question_winners p'
  /\ ps_approval_winners p0 ⊆ ps_approval_winners p' /\ ps_waits p' = ps_waits p0.
Proof.
  unfold record_winner, check_unresolved, or_invalid. intros Hr Hc.
  destruct a; try (injection Hr as <-; done); peel Hc; apply map_err_Ok in Hr; facts;
    unfold bounded_insert_question_winner, bounded_insert_approval_winner in Hr;
    destruct (is_none _ && _); [done| |done|]; injection Hr as <-; cbn;
    split_and!; try done; by apply insert_subseteq.
Qed.

Section Arms.
Context `{Sha256} `{UrlParser} `{SpecialistJson}.

Lemma accepted_step e s' i action p1 p2 w (wait : bool) delivery r :
  let p0 := session_or_default s' (ii_agent_session_id i) in
  session_ok p0 -> wr_pending r = true ->
  check_unresolved p0 action = Ok tt ->
  record_winner (with_settlement (with_turn p0 (Some (ii_turn_id i)))
                   (Some (settlement_of i delivery))) action w = Ok p1 ->
  (if wait then or_invalid (bounded_insert_wait p1 (ii_command_id i) r) else Ok p1) = Ok p2 ->
  (wait = true -> waiting_command e = Some (ii_command_id i)) ->
  session_step e p0 p2.
Proof.
  intros p0 Hok Hr Hc Hw Hi He.
  apply record_winner_step in Hw as (Hq & Ha & Hws); [|by destruct action].
  cbn in Hq, Ha, Hws. destruct wait; [|injection Hi as <-].
  - apply map_err_Ok, bounded_insert_wait_Ok in Hi as (Heq & _ & _ & Hkeep & _);
      [| by rewrite Hws; apply Hok | by right].
    rewrite Heq. constructor; [done|done|]. cbn. intros c x Hx Hp.
    destruct (decide (c = ii_command_id i)) as [->|Hne]; [right; right; by apply He|].
    left. apply Hkeep; [done| |done]. by rewrite Hws.
  - constructor; [done|done|]. rewrite Hws. by left.
Qed.

Lemma apply_into_sessions s e at_ms s' id p :
  apply_into s e at_ms = Ok s' -> snapshot_wf s -> sn_provider_sessions s !! id = Some p ->
  exists p', sn_provider_sessions s' !! id = Some p' /\ session_step e p p'.
Proof.
  intros Hs W Hp. destruct e; arm Hs; facts; try subst s'.
  all: try (exists p; split; [exact Hp|apply session_step_refl]).
  - eapply put_session_step; [apply session_step_refl|done].
  - exists p. split; [|apply session_step_refl]. repeat case_match; exact Hp.
  - exists p. split; [|apply session_step_refl]. repeat case_match; exact Hp.
  - match type of G0 with context [input_fence _ ?i] =>
      eapply (put_session_step _ _ (ii_agent_session_id i));
      [eapply (accepted_step _ _ i); try done|] end.
    + eapply session_or_default_wf, wf_sessions. destruct (_ && _); [by wf_parts W|done].
    + reflexivity.
    + by intros ->.
    + destruct (_ && _); exact Hp.
  - eapply put_session_step; [|done]. constructor; [done|done|by left].
  - eapply put_session_step; [|done]. constructor; [done|done|by left].
  - eapply put_session_step; [|done]. unfold session_or_default. rewrite G0.
    constructor; [done|done|]. cbn. intros c r Hc Hr.
    destruct (decide (c = wf_command_id fence)) as [->|Hne].
    + right. left. rewrite G1 in Hc. injection Hc as ->. rewrite lookup_insert_eq.
      split; [|done]. unfold fence_matches in *. facts. by subst.
    + left. by rewrite lookup_insert_ne.
  - eapply put_session_step; [|done]. unfold session_or_default. cbn in G0. rewrite G0.
    constructor; [done|done|]. by left.
Qed.

Lemma applied_sessions s ev s' id p :
  applied s ev s' -> snapshot_wf s -> sn_provider_sessions s !! id = Some p ->
  exists p', sn_provider_sessions s' !! id = Some p' /\ session_step (de_payload ev) p p'.
Proof.
  intros [fact b _ _ _ _ _|_|s1 _ Hs|s1 _ Hs _ _] W Hp;
    try (by exists p; split; [|apply session_step_refl]).
  - by eapply apply_into_sessions.
  - by eapply apply_into_sessions in Hs.
Qed.

Lemma apply_into_agents s e at_ms s' id a :
  apply_into s e at_ms = Ok s' -> sn_agents s !! id = Some a ->
  exists a', sn_agents s' !! id = Some a' /\ agent_step e id a a'.
Proof.
  intros Hs Ha. destruct e; arm Hs; facts; try subst s'.
  all: try (exists a; split; [exact Ha|constructor]).
  - by eapply (put_new_agent_step (EvAgentSessionRegistered agent)).
  - eapply put_agent_step; [done| |done]. by eapply AsBound.
  - subst. eapply put_agent_step; [done| |done]. by eapply AsAbandoned.
  - eapply put_agent_step; [done| |done]. by eapply AsRebound.
  - by eapply put_new_agent_step.
  - match goal with G : _ !! promoted = Some _ |- _ => cbn in G;
      rewrite lookup_insert_ne in G by done end. cbn.
    destruct (decide (promoted = id)) as [->|]; [|destruct (decide (previous = id)) as [->|]].
    + rewrite lookup_insert_eq. eexists. split; [done|]. simplify_eq. by apply AsRole.
    + rewrite lookup_insert_ne, lookup_insert_eq by done. eexists. split; [done|]. simplify_eq.
      by apply AsRole.
    + rewrite !lookup_insert_ne by done. exists a. by split; [|constructor].
  - apply live_specialist_Ok in G1 as (? & ? & ? & _).
    eapply (put_agent_step _ s specialist_id); [done| |done]. by apply AsClosed.
  - apply live_specialist_Ok in G as (? & ? & ? & _).
    eapply put_agent_step; [done| |done]. by apply AsClosed.
  - exists a. split; [|constructor]. by repeat case_match.
  - exists a. split; [|constructor]. by repeat case_match.
  - exists a. split; [|constructor]. by repeat case_match.
Qed.

Lemma applied_agents s ev s' id a :
  applied s ev s' -> sn_agents s !! id = Some a ->
  exists a', sn_agents s' !! id = Some a' /\ agent_step (de_payload ev) id a a'.
Proof.
  intros [fact b _ _ _ _ _|_|s1 _ Hs|s1 _ Hs _ _] Ha; try (by exists a; split; [|constructor]).
  - by eapply apply_into_agents.
  - by eapply apply_into_agents in Hs.
Qed.

(** ** Runs of events *)

Lemma apply_all_from_sessions fresh task index es : forall s s' id p,
  apply_all_from fresh task index (Some s) es = Ok s' -> snapshot_wf s ->
  sn_provider_sessions s !! id = Some p ->
  exists p', sn_provider_sessions s' !! id = Some p'
    /\ ps_question_winners p ⊆ ps_question_winners p'
    /\ ps_approval_winners p ⊆ ps_approval_winners p'.
Proof.
  revert index; induction es as [|e es IH]; intros index s s' id p Ha W Hp.
  - injection Ha as <-. eauto.
  - apply apply_all_from_cons in Ha as (ev & s1 & _ & Hs & Ha).
    apply apply_Some_applied in Hs as [Hs _].
    destruct (applied_sessions _ _ _ _ _ Hs W Hp) as (p1 & Hp1 & [Hq Hap _]).
    destruct (IH _ _ _ _ _ Ha (applied_wf _ _ _ Hs W) Hp1) as (p' & ? & ? & ?).
    exists p'. split_and!; [done|by etrans|by etrans].
Qed.

(** ** Properties *)

(** The first answer to a question, and the first resolution of an approval,
    stand: whatever events follow, the recorded winner of every question and
    approval of every agent stays exactly the one recorded first. *)
Theorem first_answer_stands (log : list DomainEvent) (s s' : TaskSnapshot)
    (fresh : N -> EventId) (es : list Event) (id : AgentSessionId)
    (p : ProviderSessionProjection) (Hlog : replayed log s)
    (Hrun : apply_all fresh (Some s) es = Ok s')
    (Hp : sn_provider_sessions s !! id = Some p) :
  exists p', sn_provider_sessions s' !! id = Some p'
    /\ (forall q w, ps_question_winners p !! q = Some w -> ps_question_winners p' !! q = Some w)
    /\ (forall a w, ps_approval_winners p !! a = Some w -> ps_approval_winners p' !! a = Some w).
Proof.
  destruct (apply_all_from_sessions _ _ _ _ _ _ _ _ Hrun (replayed_inv _ _ Hlog) Hp)
    as (p' & Hp' & Hq & Ha).
  exists p'. split_and!; [done|intros q w Hw..]; by eapply lookup_weaken.
Qed.

(** A pending wait is never lost: an event leaves it as it was, or settles
    it by naming its exact fence, or is a new acceptance of the same command. *)
Theorem pending_wait_kept (log : list DomainEvent) (s s' : TaskSnapshot) (ev : DomainEvent)
    (id : AgentSessionId) (p : ProviderSessionProjection) (c : CommandId)
    (r : ProviderWaitRecord) (Hlog : replayed log s) (Hrun : apply (Some s) ev = Ok s')
    (Hp : sn_provider_sessions s !! id = Some p) (Hr : ps_waits p !! c = Some r)
    (Hpending : wr_pending r = true) :
  exists p', sn_provider_sessions s' !! id = Some p'
    /\ (ps_waits p' !! c = Some r
        \/ (de_payload ev = EvProviderWaitSettled (wr_fence r)
            /\ ps_waits p' !! c = Some {| wr_fence := wr_fence r; wr_pending := false |})
        \/ waiting_command (de_payload ev) = Some c).
Proof.
  apply apply_Some_applied in Hrun as [Hs _].
  destruct (applied_sessions _ _ _ _ _ Hs (replayed_inv _ _ Hlog) Hp) as (p' & Hp' & [_ _ Hw]).
  exists p'. split; [done|]. by apply Hw.
Qed.

(** C12: the provider conversation bound to an agent is never swapped: no event
    removes an agent or changes its runtime generation, and its conversation
    changes only from none to the one a bind names and from that one to none by
    an abandon that names it, both fenced on the agent's generation. *)
Theorem provider_conversation_never_swapped (s s' : TaskSnapshot) (ev : DomainEvent)
    (id : AgentSessionId) (a : AgentSessionFacts) (Hrun : apply (Some s) ev = Ok s')
    (Ha : sn_agents s !! id = Some a) :
  exists a', sn_agents s' !! id = Some a'
    /\ ag_runtime_generation a' = ag_runtime_generation a
    /\ (ag_provider_session_id a' = ag_provider_session_id a
        \/ (exists r session, ag_provider_session_id a = None
             /\ ag_provider_session_id a' = Some session
             /\ de_payload ev
                = EvAgentProviderSessionBound id r session (ag_runtime_generation a))
        \/ (exists session, ag_provider_session_id a = Some session
             /\ ag_provider_session_id a' = None
             /\ de_payload ev
                = EvAgentProviderSessionAbandoned id session (ag_runtime_generation a))).
Proof.
  apply apply_Some_applied in Hrun as [Hs _].
  destruct (applied_agents _ _ _ _ _ Hs Ha) as (a' & Ha' & Hstep). exists a'. split; [done|].
  destruct Hstep; subst; (split; [done|]); first [by left | right].
  - left. by eexists _, _.
  - right. by eexists.
Qed.
End Arms.

#[local] Existing Instance toy_sha.
#[local] Existing Instance toy_urls.
#[local] Existing Instance toy_json.

Lemma first_answer_stands_witness :
  exists s' p', apply_all (fun n => n) (Some (the sample_answered)) [EvTaskSettled] = Ok s'
    /\ sn_provider_sessions s' !! 10 = Some p' /\ is_some (ps_question_winners p' !! 55) = true.
Proof.
  destruct sample_working_replayed as (log & Hlog).
  destruct (apply_all_from_replayed (fun n => n) (Some 1) 0 [answer_question] _ _
    (the sample_answered) Hlog) as (log' & Hlog' & _); [by vm_compute|].
  destruct (apply_all (fun n => n) (Some (the sample_answered)) [EvTaskSettled]) as [s'|] eqn:E;
    [|vm_compute in E; discriminate].
  destruct (sn_provider_sessions (the sample_answered) !! 10) as [p|] eqn:Ep;
    [|vm_compute in Ep; discriminate].
  destruct (first_answer_stands _ _ _ _ _ 10 p Hlog' E Ep) as (p' & Hp' & Hq & _).
  exists s', p'. split_and!; [done|done|].
  destruct (ps_question_winners p !! 55) as [w|] eqn:Ew.
  - by rewrite (Hq _ _ Ew).
  - vm_compute in Ep. injection Ep as <-. vm_compute in Ew. discriminate.
Defined.

Lemma pending_wait_kept_witness :
  exists p', is_some (ps_waits p' !! 100) = true.
Proof.
  destruct sample_working_replayed as (log & Hlog).
  destruct (apply (Some (the sample_working)) (stamped (Some 8) EvTaskSettled)) as [s'|] eqn:E;
    [|vm_compute in E; discriminate].
  destruct (sn_provider_sessions (the sample_working) !! 10) as [p|] eqn:Ep;
    [|vm_compute in Ep; discriminate].
  destruct (ps_waits p !! 100) as [r|] eqn:Er;
    [|vm_compute in Ep; injection Ep as <-; vm_compute in Er; discriminate].
  destruct (pending_wait_kept _ _ _ _ 10 p 100 r Hlog E Ep Er) as (p' & _ & [Hw|[[? _]|?]]);
    [|by exists p'; rewrite Hw|done|done].
  vm_compute in Ep. injection Ep as <-. vm_compute in Er. by injection Er as <-.
Defined.

Lemma provider_conversation_never_swapped_witness :
  exists s' a', apply (Some (the sample_manned))
                  (stamped (Some 5) (EvAgentProviderSessionBound 10 20 sess 0)) = Ok s'
    /\ sn_agents s' !! 10 = Some a'.
Proof.
  destruct (apply (Some (the sample_manned))
             (stamped (Some 5) (EvAgentProviderSessionBound 10 20 sess 0))) as [s'|] eqn:E;
    [|vm_compute in E; discriminate].
  destruct (provider_conversation_never_swapped _ _ _ 10 sample_agent E) as (a' & Ha' & _);
    [by vm_compute|].
  by exists s', a'.
Defined.
