(* ===== verification/Outbox.v ===== *)
(** The outbox planner: the effect an accepted decision hands to the host
    ([kernel/outbox.rs]), and the revisions its events are stamped with
    ([kernel/command_bus.rs]). *)
From S2P Require Import Prelude Canonical Task Agent Resource Artifact ProviderInput Browser Operation Snapshot Event NativeBrowser Command.

Inductive DestinationClass := TaskTeardown | ResourceRelease | ProviderInput | BrowserHost.
Inductive ReplayPolicy := RetrySafe | ReconcileBeforeRetry | NoAutomaticRetry.

#[export] Instance DestinationClass_eq_dec : EqDecision DestinationClass.
Proof. solve_decision. Defined.
#[export] Instance ReplayPolicy_eq_dec : EqDecision ReplayPolicy.
Proof. solve_decision. Defined.

Definition destination_as_str (d : DestinationClass) : text :=
  match d with
  | TaskTeardown => lit "task_teardown"
  | ResourceRelease => lit "resource_release"
  | ProviderInput => lit "provider_input"
  | BrowserHost => lit "browser_host"
  end.

Definition destination_parse (value : text) : option DestinationClass :=
  if value =?= lit "task_teardown" then Some TaskTeardown
  else if value =?= lit "resource_release" then Some ResourceRelease
  else if value =?= lit "provider_input" then Some ProviderInput
  else if value =?= lit "browser_host" then Some BrowserHost
  else None.

Definition policy_as_str (p : ReplayPolicy) : text :=
  match p with
  | RetrySafe => lit "retry_safe"
  | ReconcileBeforeRetry => lit "reconcile_before_retry"
  | NoAutomaticRetry => lit "no_automatic_retry"
  end.

Definition policy_parse (value : text) : option ReplayPolicy :=
  if value =?= lit "retry_safe" then Some RetrySafe
  else if value =?= lit "reconcile_before_retry" then Some ReconcileBeforeRetry
  else if value =?= lit "no_automatic_retry" then Some NoAutomaticRetry
  else None.

Inductive Effect :=
| BeginTaskTeardown (task_id : TaskId) (action_epoch : N)
| ReleaseResource (task_id : TaskId) (action_epoch : N) (fence : ResourceFence)
| DeliverProviderInput (task_id : TaskId) (operation_id : OperationId) (command_id : CommandId)
    (client_id : ClientId) (agent_session_id : AgentSessionId) (provider_kind : ProviderKind)
    (provider_session_id : option ProviderSessionId) (runtime_generation action_epoch : N)
    (turn_id : TurnId) (question_id : option QuestionId) (approval_id : option ApprovalId)
    (action : ProviderInputAction) (wait : bool)
| HoldBrowserHost (task_id : TaskId) (action_epoch : N) (request_id : BrowserRequestId)
    (context_id : BrowserContextId) (generation : N) (hold : BrowserIntegrationHold).

Definition browser_host_hold_identity (e : Effect)
    : option (TaskId * N * BrowserRequestId * BrowserContextId * N) :=
  match e with
  | HoldBrowserHost t ep r c g _ => Some (t, ep, r, c, g)
  | _ => None
  end.

Definition destination_class (e : Effect) : DestinationClass :=
  match e with
  | BeginTaskTeardown _ _ => TaskTeardown
  | ReleaseResource _ _ _ => ResourceRelease
  | DeliverProviderInput _ _ _ _ _ _ _ _ _ _ _ _ _ _ => ProviderInput
  | HoldBrowserHost _ _ _ _ _ _ => BrowserHost
  end.

Record OperationFence := {
  opf_action_epoch : option N;
  opf_resource_id : option ResourceId;
  opf_runtime_generation : option N;
}.

#[export] Instance OperationFence_eq_dec : EqDecision OperationFence.
Proof. solve_decision. Defined.

Definition EFFECT_SCHEMA_VERSION : N := 1.

Record PlannedEffectDocument := {
  pd_schema_version : N;
  pd_destination_class : DestinationClass;
  pd_replay_policy : ReplayPolicy;
  pd_effect : Effect;
}.

Definition document_new (effect : Effect) (policy : ReplayPolicy) : PlannedEffectDocument :=
  {| pd_schema_version := EFFECT_SCHEMA_VERSION;
     pd_destination_class := destination_class effect; pd_replay_policy := policy;
     pd_effect := effect |}.

Record PlannedEffect := {
  pe_document : PlannedEffectDocument;
  pe_fence : OperationFence;
}.

(** [StoreError], as far as the planner and the revision counter raise it. *)
Inductive StoreError := Projection | Corruption | IntegerOutOfRange.

Definition browser_fact_requires_host_settlement (f : BrowserDurableFact) : bool :=
  match f with
  | FactRequestAccepted _ _ _ _ _ a _ _ _ _ _ => requires_host_settlement a
  | _ => false
  end.

Definition is_pure_slice_decision_fact (e : Event) : bool :=
  match e with
  | EvTaskCreated _ _ _ _ _ | EvTaskRenamed _ | EvTaskAttentionSet _ | EvTaskSettled
  | EvTaskReopened | EvTaskArchived | EvTaskDeleted | EvAgentSessionRegistered _
  | EvAgentProviderSessionBound _ _ _ _ | EvAgentProviderSessionAbandoned _ _ _
  | EvPrimaryAgentSet _ | EvUnstartedPrimaryProviderRebound _ _
  | EvSpecialistRequested _ _ _ _ _ _ _ _ _ | EvPrimaryPromoted _ _ _ _
  | EvSpecialistHandoffRecorded _ _ _ _ _ | EvSpecialistClosed _ _ _ | EvArtifactRegistered _
  | EvResourceRegistered _ | EvResourceReleased _ _ | EvProviderQuestionPresented _ _ _ _ _ _ _
  | EvProviderApprovalPresented _ _ _ _ _ _ _ | EvProviderWaitSettled _
  | EvTerminalRenamed _ _ | EvTaskTerminalStripSet _ => true
  | EvBrowser f => negb (browser_fact_requires_host_settlement f)
  | EvPurged | EvTaskCloseBegun _ | EvResourceReleaseBegun _ _
  | EvProviderInputAccepted _ _ _ _ _ _ _ _ _ _ _ _ _ _ | EvOperationAccepted _
  | EvOperationSettled _ | EvOperationFailed _ | EvOperationCancelled _
  | EvOperationUncertain _ | EvProviderInputDelivered _ _ _ _ _ _ _ _ _ _ _
  | EvHostCloseBegun _ _ _ | EvHostCleanupBranchCompleted _ _ _ _ | EvTerminalCwdReported _ _
  | EvTerminalExited _ _ _ | EvTerminalActivity _ => false
  end.

Definition is_side_effect_decision_fact (e : Event) : bool :=
  match e with
  | EvTaskCloseBegun _ | EvResourceReleaseBegun _ _
  | EvProviderInputAccepted _ _ _ _ _ _ _ _ _ _ _ _ _ _ => true
  | EvBrowser f => browser_fact_requires_host_settlement f
  | _ => false
  end.

(** The pre-command snapshot an arm needs, in the task's scope. *)
Definition scoped (snapshot : option TaskSnapshot) (task_id : TaskId)
    : result TaskSnapshot StoreError :=
  let? s := ok_or snapshot Projection in
  ensure tf_id (sn_task s) =? task_id else Projection ;;
  Ok s.

Definition plan_teardown (snapshot : option TaskSnapshot) (task_id : TaskId) (action_epoch : N)
    : result PlannedEffect StoreError :=
  let? s := scoped snapshot task_id in
  ensure (tf_lifecycle (sn_task s) =?= TaskOpen) || (tf_lifecycle (sn_task s) =?= TaskSettledL)
    else Projection ;;
  let? expected := ok_or (checked_add (tf_action_epoch (sn_task s)) 1) Projection in
  ensure action_epoch =? expected else Projection ;;
  Ok {| pe_document := document_new (BeginTaskTeardown task_id action_epoch) RetrySafe;
        pe_fence := {| opf_action_epoch := Some action_epoch; opf_resource_id := None;
                       opf_runtime_generation := None |} |}.

Definition plan_release (snapshot : option TaskSnapshot) (task_id : TaskId)
    (resource_id : ResourceId) (runtime_generation : N) : result PlannedEffect StoreError :=
  let? s := scoped snapshot task_id in
  let? r := ok_or (sn_resources s !! resource_id) Projection in
  ensure negb (negb (rf_owner_kind r =?= OwnerTask) || negb (rf_task_id r =?= Some task_id)
               || negb (rf_lifecycle r =?= ResActive)
               || negb (rf_runtime_generation r =? runtime_generation)) else Projection ;;
  let epoch := tf_action_epoch (sn_task s) in
  Ok {| pe_document :=
          document_new
            (ReleaseResource task_id epoch
               {| rfe_resource_id := resource_id; rfe_runtime_generation := runtime_generation |})
            ReconcileBeforeRetry;
        pe_fence := {| opf_action_epoch := Some epoch; opf_resource_id := Some resource_id;
                       opf_runtime_generation := Some runtime_generation |} |}.

Definition plan_delivery (snapshot : option TaskSnapshot) (task_id : TaskId) (i : InputIdentity)
    (action : ProviderInputAction) (wait : bool) : result PlannedEffect StoreError :=
  let? s := scoped snapshot task_id in
  let? agent := ok_or (sn_agents s !! ii_agent_session_id i) Projection in
  ensure negb (negb (ag_provider_session_id agent =?= ii_provider_session_id i)
               || negb (ag_provider_kind agent =?= ii_provider_kind i)
               || negb (ag_runtime_generation agent =? ii_runtime_generation i))
    else Projection ;;
  Ok {| pe_document :=
          document_new
            (DeliverProviderInput task_id (ii_operation_id i) (ii_command_id i) (ii_client_id i)
               (ii_agent_session_id i) (ii_provider_kind i) (ii_provider_session_id i)
               (ii_runtime_generation i) (ii_action_epoch i) (ii_turn_id i) (ii_question_id i)
               (ii_approval_id i) action wait) NoAutomaticRetry;
        pe_fence := {| opf_action_epoch := Some (ii_action_epoch i); opf_resource_id := None;
                       opf_runtime_generation := None |} |}.

Definition plan_hold (task_id fact_task : TaskId) (request_id : BrowserRequestId)
    (context_id : BrowserContextId) (generation action_epoch : N)
    : result PlannedEffect StoreError :=
  ensure fact_task =? task_id else Projection ;;
  ensure negb (generation =? 0) else Projection ;;
  Ok {| pe_document :=
          document_new
            (HoldBrowserHost task_id action_epoch request_id context_id generation
               WebViewSurfaceAbsent) NoAutomaticRetry;
        pe_fence := {| opf_action_epoch := Some action_epoch; opf_resource_id := None;
                       opf_runtime_generation := None |} |}.

(** What the planning loop does with one fact: plan an effect, or count it pure. *)
Definition plan_fact (snapshot : option TaskSnapshot) (task_id : TaskId) (e : Event)
    : result (option PlannedEffect) StoreError :=
  match e with
  | EvTaskCloseBegun epoch => rmap Some (plan_teardown snapshot task_id epoch)
  | EvResourceReleaseBegun r g => rmap Some (plan_release snapshot task_id r g)
  | EvProviderInputAccepted c cl op a k ps g t ep q ap action wait _ =>
      rmap Some (plan_delivery snapshot task_id
        {| ii_command_id := c; ii_client_id := cl; ii_operation_id := op;
           ii_agent_session_id := a; ii_provider_kind := k; ii_provider_session_id := ps;
           ii_runtime_generation := g; ii_turn_id := t; ii_action_epoch := ep;
           ii_question_id := q; ii_approval_id := ap |} action wait)
  | EvBrowser (FactRequestAccepted rid fact_task ctx _ g action _ _ _ epoch _) =>
      if requires_host_settlement action
      then rmap Some (plan_hold task_id fact_task rid ctx g epoch)
      else Ok None
  | EvBrowser _ => Ok None
  | EvTaskCreated _ _ _ _ _ | EvTaskRenamed _ | EvTaskAttentionSet _ | EvTaskSettled
  | EvTaskReopened | EvTaskArchived | EvTaskDeleted | EvAgentSessionRegistered _
  | EvAgentProviderSessionBound _ _ _ _ | EvAgentProviderSessionAbandoned _ _ _
  | EvPrimaryAgentSet _ | EvUnstartedPrimaryProviderRebound _ _
  | EvSpecialistRequested _ _ _ _ _ _ _ _ _ | EvPrimaryPromoted _ _ _ _
  | EvSpecialistHandoffRecorded _ _ _ _ _ | EvSpecialistClosed _ _ _ | EvArtifactRegistered _
  | EvResourceRegistered _ | EvResourceReleased _ _ | EvProviderQuestionPresented _ _ _ _ _ _ _
  | EvProviderApprovalPresented _ _ _ _ _ _ _ | EvProviderWaitSettled _
  | EvTerminalRenamed _ _ | EvTaskTerminalStripSet _ => Ok None
  | EvOperationAccepted _ | EvOperationSettled _ | EvOperationFailed _ | EvOperationCancelled _
  | EvOperationUncertain _ | EvProviderInputDelivered _ _ _ _ _ _ _ _ _ _ _
  | EvHostCloseBegun _ _ _ | EvHostCleanupBranchCompleted _ _ _ _ | EvTerminalCwdReported _ _
  | EvTerminalExited _ _ _ | EvTerminalActivity _ | EvPurged => Err Projection
  end.

(** The loop: planned effects, and how many facts were effects and pure.  The
    counters are [usize]s bounded by the length of the decision, so their
    [checked_add] cannot fail. *)
Fixpoint plan_loop (snapshot : option TaskSnapshot) (task_id : TaskId) (decision : list Event)
    (planned : list PlannedEffect) (effects pure : N)
    : result (list PlannedEffect * N * N) StoreError :=
  match decision with
  | [] => Ok (planned, effects, pure)
  | e :: rest =>
      let? p := plan_fact snapshot task_id e in
      match p with
      | Some p => plan_loop snapshot task_id rest (planned ++ [p]) (effects + 1) pure
      | None => plan_loop snapshot task_id rest planned effects (pure + 1)
      end
  end.

Definition fences_agree (planned : list PlannedEffect) : bool :=
  match planned with
  | [] => true
  | first :: rest => forallb (fun p => pe_fence p =?= pe_fence first) rest
  end.

Definition plan_effects (snapshot : option TaskSnapshot) (task_id : TaskId)
    (decision : list Event) : result (list PlannedEffect) StoreError :=
  let? (planned, effects, pure) := plan_loop snapshot task_id decision [] 0 0 in
  ensure negb ((0 <? effects) && (0 <? pure)) else Projection ;;
  ensure negb (1 <? effects) else Projection ;;
  ensure effects =? count planned else Projection ;;
  ensure negb (1 <? count planned) else Projection ;;
  ensure fences_agree planned else Projection ;;
  Ok planned.

(** ** The command bus around a decision *)

Definition effective_task_scope `{HostPayloads} (e : CommandEnvelope) : option TaskId :=
  match ce_command e with
  | CmdCreateTask intent => Some (ct_id intent)
  | CmdCreateTaskV2 intent => Some (cr_id intent)
  | _ => ce_task_id e
  end.

Definition command_is_effectful `{HostPayloads} (c : Command) : bool :=
  match c with CmdBeginCloseTask | CmdReleaseResource _ => true | _ => false end.

Definition provider_resolution_for_rejection `{HostPayloads} (snapshot : option TaskSnapshot)
    (e : CommandEnvelope) : option ProviderResolutionWinner :=
  match snapshot, ce_command e with
  | Some s, CmdSubmitProviderInput intent =>
      match sn_provider_sessions s !! si_agent_session_id intent with
      | Some session =>
          match si_action intent with
          | AnswerQuestion q _ => ps_question_winners session !! q
          | ResolveApproval a _ => ps_approval_winners session !! a
          | _ => None
          end
      | None => None
      end
  | _, _ => None
  end.

(** The rejection a client sees: a loser of a race learns who won. *)
Definition rejection_code `{HostPayloads} (snapshot : option TaskSnapshot) (e : CommandEnvelope)
    (code : RejectionCode) : RejectionCode :=
  if is_some (provider_resolution_for_rejection snapshot e) then RejAlreadyResolved else code.

(** [decision_revisions]: the revision each event is appended with, and the
    revision the receipt reports. *)
Fixpoint decision_revisions (next : option N) (decision : list Event)
    : result (list (option N) * option N) StoreError :=
  match decision with
  | [] => Ok ([], next)
  | e :: rest =>
      let? next :=
        (if is_task_mutation e then
           match next with
           | None => Ok (Some 1)
           | Some current => rmap Some (ok_or (checked_add current 1) IntegerOutOfRange)
           end
         else Ok next) in
      let? (revisions, final) := decision_revisions next rest in
      Ok (next :: revisions, final)
  end.
