(* ===== verification/Kernel.v ===== *)
(** The command kernel as a transition system: a command is decided on the
    current snapshot, its events are applied in order, and the host appends the
    facts it observes; with the invariants of the states this reaches. *)
From S2P Require Import Prelude Canonical Task Agent Resource Artifact ProviderInput Browser Operation Snapshot Event NativeBrowser Command Sample Invariant WellFormed Sessions Outbox.

(** ** The invariants *)

Definition is_open (a : AgentSessionFacts) : bool := ag_lifecycle a =?= AgentOpen.

(** One primary at most, one as soon as there is any agent, always open; and no
    more open agents than the runtime cap. *)
Record crew_ok (m : gmap N AgentSessionFacts) : Prop := {
  crew_unique : forall i j a b, m !! i = Some a -> m !! j = Some b ->
    is_specialist (ag_role a) = false -> is_specialist (ag_role b) = false -> i = j;
  crew_primary : forall i a, m !! i = Some a ->
    exists j b, m !! j = Some b /\ is_specialist (ag_role b) = false;
  crew_open : forall i a, m !! i = Some a -> is_specialist (ag_role a) = false ->
    ag_lifecycle a = AgentOpen;
  crew_count : count (List.filter is_open (values m)) <= DEFAULT_MAX_TOP_LEVEL_RUNTIMES;
}.

Definition occupies (r : ResourceFacts) : Prop :=
  rf_resource_kind r = KindTerminal /\ is_plain_shell (rf_recipe r) = true
  /\ rf_lifecycle r <> ResReleased.

(** The strip lists exactly the plain shells that hold a slot. *)
Definition strip_full (s : TaskSnapshot) : Prop :=
  forall id, id ∈ st_order (sn_terminal_strip s) <->
    exists r, sn_resources s !! id = Some r /\ occupies r.

(** Nothing of an archived task is still running. *)
Definition archived (l : TaskLifecycle) : Prop := l = TaskArchivedL \/ l = TaskDeletedL.

Definition at_rest (s : TaskSnapshot) : Prop :=
  archived (tf_lifecycle (sn_task s)) ->
  (forall id r, sn_resources s !! id = Some r -> rf_lifecycle r = ResReleased)
  /\ (forall id a, sn_agents s !! id = Some a -> is_specialist (ag_role a) = true ->
        ag_lifecycle a <> AgentOpen).

(** A stored browser receipt repeats its request, under a live generation. *)
Definition receipt_ok (r : StoredReceipt) : Prop :=
  ba_facts (rc_accepted r) = []
  /\ br_generation (rc_request r) <> 0
  /\ ba_task_id (rc_accepted r) = br_task_id (rc_request r)
  /\ ba_generation (rc_accepted r) = br_generation (rc_request r)
  /\ ba_action (rc_accepted r) = br_action (rc_request r).

Definition receipts_ok (b : BrowserBook) : Prop := map_Forall (fun _ r => receipt_ok r) (bk_receipts b).

Record sys_inv (s : TaskSnapshot) : Prop := {
  si_wf : snapshot_wf s;
  si_crew : crew_ok (sn_agents s);
  si_strip : strip_full s;
  si_rest : at_rest s;
  si_receipts : receipts_ok (sn_browser s);
}.

(** What the kernel checks of an event before it is appended, beyond what
    applying it checks. *)
Definition admissible (s : TaskSnapshot) (e : Event) : Prop :=
  match e with
  | EvAgentSessionRegistered _ =>
      forall i a, sn_agents s !! i = Some a -> is_specialist (ag_role a) = true
  | EvTaskTerminalStripSet strip =>
      forall id, id ∈ st_order strip <-> exists r, sn_resources s !! id = Some r /\ occupies r
  | EvResourceRegistered _ | EvSpecialistRequested _ _ _ _ _ _ _ _ _ | EvPrimaryPromoted _ _ _ _ =>
      ~ archived (tf_lifecycle (sn_task s))
  | EvBrowser (FactRequestAccepted _ _ _ _ g _ _ _ _ _ _) => g <> 0
  | _ => True
  end.

(** ** Counting the open agents *)

Lemma values_insert {A} (m : gmap N A) k v : m !! k = None -> values (<[k := v]> m) ≡ₚ v :: values m.
Proof. intros Hk. unfold values. by rewrite (map_to_list_insert m k v Hk). Qed.

Lemma elem_of_values {A} (m : gmap N A) v : v ∈ values m <-> exists k, m !! k = Some v.
Proof.
  unfold values. rewrite list_elem_of_fmap. split.
  - intros ([k v'] & -> & Hk%elem_of_map_to_list). by exists k.
  - intros [k Hk%elem_of_map_to_list]. by exists (k, v).
Qed.

Lemma count_filter_perm {A} (p : A -> bool) l l' :
  l ≡ₚ l' -> count (List.filter p l) = count (List.filter p l').
Proof.
  induction 1 as [|x l l' _ IH|x y l|l1 l2 l3 _ IH1 _ IH2].
  - done.
  - by rewrite !count_filter_cons, IH.
  - rewrite !count_filter_cons. lia.
  - by rewrite IH1.
Qed.

Lemma count_values_new {A} (p : A -> bool) (m : gmap N A) k v :
  m !! k = None ->
  count (List.filter p (values (<[k := v]> m))) = bump (p v) + count (List.filter p (values m)).
Proof. intros Hk. by rewrite (count_filter_perm _ _ _ (values_insert _ _ v Hk)), count_filter_cons. Qed.

Lemma count_values_replace {A} (p : A -> bool) (m : gmap N A) k v w :
  m !! k = Some w ->
  count (List.filter p (values (<[k := v]> m))) + bump (p w)
  = count (List.filter p (values m)) + bump (p v).
Proof.
  intros Hk. rewrite <- (insert_id m k w Hk) at 2. rewrite <- !(insert_delete_eq m).
  rewrite !count_values_new by apply lookup_delete_eq. lia.
Qed.

(** ** The crew *)

Lemma crew_replace m id a a' :
  crew_ok m -> m !! id = Some a -> is_specialist (ag_role a') = is_specialist (ag_role a) ->
  ag_lifecycle a' = ag_lifecycle a
  \/ (is_specialist (ag_role a) = true /\ ag_lifecycle a' = AgentClosed) ->
  crew_ok (<[id := a']> m).
Proof.
  intros [Hu Hp Ho Hc] Ha Hr Hl.
  assert (forall i x, <[id := a']> m !! i = Some x ->
            exists y, m !! i = Some y /\ is_specialist (ag_role x) = is_specialist (ag_role y)) as Hold.
  { intros i x. destruct (decide (i = id)) as [->|Hne].
    - rewrite lookup_insert_eq. intros [= <-]. eauto.
    - rewrite lookup_insert_ne by done. eauto. }
  constructor.
  - intros i j x y (x' & Hx & Ex)%Hold (y' & Hy & Ey)%Hold Sx Sy.
    apply (Hu i j x' y'); congruence.
  - intros i x (x' & Hx & _)%Hold. destruct (Hp _ _ Hx) as (j & b & Hj & Hb).
    destruct (decide (j = id)) as [->|Hne].
    + exists id, a'. rewrite lookup_insert_eq. split; [done|]. by simplify_eq; rewrite Hr.
    + exists j, b. by rewrite lookup_insert_ne.
  - intros i x Hx Sx. destruct (decide (i = id)) as [->|Hne].
    + rewrite lookup_insert_eq in Hx. injection Hx as <-. destruct Hl as [->|[Hs _]]; [|congruence].
      apply (Ho id); congruence.
    + rewrite lookup_insert_ne in Hx by done. by apply (Ho i).
  - pose proof (count_values_replace is_open m id a' a Ha) as Hn.
    assert (bump (is_open a') <= bump (is_open a)) as Hb; [|lia].
    unfold is_open. destruct Hl as [->|[_ ->]]; [done|].
    change (AgentClosed =?= AgentOpen) with false. apply N.le_0_l.
Qed.

Lemma crew_first m a :
  crew_ok m -> (forall i x, m !! i = Some x -> is_specialist (ag_role x) = true) ->
  is_specialist (ag_role a) = false -> ag_lifecycle a = AgentOpen ->
  crew_ok (<[ag_id a := a]> m).
Proof.
  intros [_ Hp _ _] Hno Hs Hl.
  assert (m = ∅) as ->.
  { apply map_empty. intros i. destruct (m !! i) as [x|] eqn:E; [|done].
    destruct (Hp _ _ E) as (j & b & Hj & Hb). specialize (Hno _ _ Hj). congruence. }
  constructor.
  - intros i j x y [(<- & <-)|[_ Hx]]%lookup_insert_Some; [|by rewrite lookup_empty in Hx].
    intros [(<- & <-)|[_ Hy]]%lookup_insert_Some; [done|by rewrite lookup_empty in Hy].
  - intros i x _. exists (ag_id a), a. split; [by rewrite lookup_insert_eq|done].
  - by intros i x [(<- & <-)|[_ Hx]]%lookup_insert_Some; [|rewrite lookup_empty in Hx].
  - rewrite count_values_new by apply lookup_empty. unfold is_open. rewrite Hl.
    change (values ∅) with (@nil AgentSessionFacts). done.
Qed.

Lemma crew_specialist m a :
  crew_ok m -> m !! ag_id a = None -> is_specialist (ag_role a) = true ->
  (exists j b, m !! j = Some b /\ is_specialist (ag_role b) = false) ->
  count (List.filter is_open (values m)) < DEFAULT_MAX_TOP_LEVEL_RUNTIMES ->
  crew_ok (<[ag_id a := a]> m).
Proof.
  intros [Hu Hp Ho Hc] Hn Hs (j & b & Hj & Hb) Hcap. constructor.
  - intros i k x y Hx Hy Sx Sy.
    destruct (decide (i = ag_id a)) as [->|]; [rewrite lookup_insert_eq in Hx; congruence|].
    destruct (decide (k = ag_id a)) as [->|]; [rewrite lookup_insert_eq in Hy; congruence|].
    rewrite !lookup_insert_ne in Hx, Hy by done. by apply (Hu i k x y).
  - intros i x _. exists j, b. rewrite lookup_insert_ne by congruence. done.
  - intros i x Hx Sx. destruct (decide (i = ag_id a)) as [->|].
    + rewrite lookup_insert_eq in Hx. congruence.
    + rewrite lookup_insert_ne in Hx by done. by apply (Ho i).
  - rewrite count_values_new by done. unfold bump. case_match; lia.
Qed.

Lemma crew_promote m p a a' q b b' :
  crew_ok m -> m !! p = Some a -> m !! q = Some b -> q <> p ->
  is_specialist (ag_role a) = false -> is_specialist (ag_role a') = true ->
  ag_lifecycle a' = ag_lifecycle a -> is_specialist (ag_role b') = false ->
  ag_lifecycle b = AgentOpen -> ag_lifecycle b' = AgentOpen ->
  crew_ok (<[q := b']> (<[p := a']> m)).
Proof.
  intros [Hu Hp Ho Hc] Ha Hb Hne Sa Sa' La Sb' Lb Lb'.
  assert (forall i x, <[q := b']> (<[p := a']> m) !! i = Some x ->
            is_specialist (ag_role x) = false -> i = q /\ x = b') as Honly.
  { intros i x Hx Sx. destruct (decide (i = q)) as [->|Hq].
    { rewrite lookup_insert_eq in Hx. by simplify_eq. }
    rewrite lookup_insert_ne in Hx by done. destruct (decide (i = p)) as [->|Hip].
    { rewrite lookup_insert_eq in Hx. congruence. }
    rewrite lookup_insert_ne in Hx by done. by destruct (Hu i p x a). }
  constructor.
  - intros i j x y Hx Hy Sx Sy. destruct (Honly _ _ Hx Sx), (Honly _ _ Hy Sy). congruence.
  - intros i x _. exists q, b'. by rewrite lookup_insert_eq.
  - intros i x Hx Sx. by destruct (Honly _ _ Hx Sx) as [_ ->].
  - pose proof (count_values_replace is_open m p a' a Ha) as Hn.
    assert (<[p := a']> m !! q = Some b) as Hq by (by rewrite lookup_insert_ne).
    pose proof (count_values_replace is_open _ q b' b Hq) as Hn'.
    unfold is_open in *. rewrite La, Lb, Lb' in *. lia.
Qed.

Lemma registration_open a u :
  agent_validate_for_registration a = Ok u -> ag_lifecycle a = AgentOpen.
Proof. unfold agent_validate_for_registration. intros Hv. peel Hv. by facts. Qed.

(** The preservation lemmas go arm by arm; [same_part] closes the arms that
    leave the part in question alone. *)
Ltac same_part H := first [exact H | repeat case_match; exact H | destruct (_ && _); exact H].

Section Arms.
Context `{Sha256} `{UrlParser} `{SpecialistJson}.

Lemma specialist_requester_Ok s by_ g u :
  specialist_requester_ok s by_ g = Ok u <->
  sn_primary_agent_id s = Some by_
  /\ exists r, sn_agents s !! by_ = Some r /\ ag_lifecycle r = AgentOpen
            /\ is_specialist (ag_role r) = false /\ ag_runtime_generation r = g.
Proof.
  unfold specialist_requester_ok. destruct u. split.
  - intros Hr. peel Hr. facts. split; [done|]. by eexists.
  - intros (-> & r & Hr & Hl & Hro & Hg). rewrite Hr. cbn [ok_or rbind].
    by rewrite Hl, Hro, Hg, N.eqb_refl, !eqb_refl.
Qed.

Lemma apply_into_crew s e at_ms s' :
  apply_into s e at_ms = Ok s' -> admissible s e -> crew_ok (sn_agents s) ->
  crew_ok (sn_agents s').
Proof.
  intros Hs Had Hc. destruct e; arm Hs; facts; try subst s'; try (by same_part Hc).
  - cbn in Had |- *. eapply crew_first; [done..|]. by eapply registration_open.
  - eapply crew_replace; [done..|]. by left.
  - eapply crew_replace; [done..|]. by left.
  - eapply crew_replace; [done..|]. by left.
  - apply crew_specialist; try done.
    match goal with G : specialist_requester_ok _ _ _ = Ok _ |- _ =>
      apply specialist_requester_Ok in G as (_ & b & ? & _ & ? & _) end. by eexists _, b.
  - match goal with G : role_specialist _ = Ok _ |- _ => injection G as <- end.
    match goal with G : _ !! promoted = Some _ |- _ => cbn in G;
      rewrite lookup_insert_ne in G by done end.
    by eapply crew_promote.
  - apply live_specialist_Ok in G1 as (? & ? & _). cbn.
    eapply crew_replace; [done..|]. by right.
  - apply live_specialist_Ok in G as (? & ? & _).
    eapply crew_replace; [done..|]. by right.
Qed.

Lemma strip_full_same s s' :
  strip_full s -> sn_terminal_strip s' = sn_terminal_strip s ->
  sn_resources s' = sn_resources s -> strip_full s'.
Proof. unfold strip_full. by intros Hf -> ->. Qed.

(** Replacing a resource by one that occupies a slot exactly when it did. *)
Lemma strip_full_replace s s' id r r' :
  strip_full s -> sn_terminal_strip s' = sn_terminal_strip s ->
  sn_resources s !! id = Some r -> sn_resources s' = <[id := r']> (sn_resources s) ->
  (occupies r' <-> occupies r) -> strip_full s'.
Proof.
  intros Hf Hst Hr Hrs Ho x. rewrite Hst, Hrs, (Hf x). destruct (decide (x = id)) as [->|Hne].
  - rewrite lookup_insert_eq, Hr. naive_solver.
  - by rewrite lookup_insert_ne.
Qed.

Lemma register_strip s r at_ms :
  snapshot_wf s -> strip_full s -> sn_resources s !! rf_id r = None ->
  rf_lifecycle r = ResActive -> resource_validate r = Ok tt ->
  let s1 := set_resources s (<[rf_id r := r]> (sn_resources s)) in
  strip_full (if rf_resource_kind r =?= KindTerminal then register_terminal s1 r at_ms else s1).
Proof.
  intros W Hf Hn Hl Hv s1 x.
  assert (rf_id r ∉ st_order (sn_terminal_strip s)) as Hnin.
  { rewrite (Hf (rf_id r)). intros (y & Hy & _). congruence. }
  assert ((exists y, sn_resources s1 !! x = Some y /\ occupies y)
          <-> (x = rf_id r /\ rf_resource_kind r = KindTerminal
               /\ is_plain_shell (rf_recipe r) = true)
              \/ x ∈ st_order (sn_terminal_strip s)) as Hocc.
  { rewrite (Hf x). subst s1. cbn. unfold occupies. destruct (decide (x = rf_id r)) as [->|Hne].
    - rewrite lookup_insert_eq, Hn. split; [|intros [(_ & Hk & Hp)|(? & ? & _)]]; [|exists r|done].
      + intros (y & [= <-] & Hk & Hp & _). by left.
      + by rewrite Hl.
    - rewrite lookup_insert_ne by done. naive_solver. }
  destruct (rf_resource_kind r =?= KindTerminal) eqn:E.
  - apply eqb_true_1 in E. cbn [register_terminal set_terminals sn_resources sn_terminal_strip].
    rewrite Hocc. destruct (is_plain_shell (rf_recipe r)) eqn:Ep; cbn.
    + rewrite elem_of_app, elem_of_cons. set_solver.
    + naive_solver.
  - apply eqb_false in E. rewrite Hocc. cbn. naive_solver.
Qed.

Lemma apply_into_strip s e at_ms s' :
  apply_into s e at_ms = Ok s' -> admissible s e -> snapshot_wf s -> strip_full s ->
  strip_full s'.
Proof.
  intros Hs Had W Hc. destruct e; arm Hs; facts; try subst s';
    try (by eapply strip_full_same).
  - by apply register_strip.
  - unfold releasable in G. peel G. subst. facts.
    eapply strip_full_replace; [done..|]. unfold occupies. cbn. naive_solver congruence.
  - unfold releasable in G. peel G. subst. facts. intros y. cbn [sn_terminal_strip sn_resources
      set_terminals set_resources]. rewrite strip_remove_order, (Hc y). unfold occupies.
    destruct (decide (y = resource_id)) as [->|Hne].
    + rewrite lookup_insert_eq. cbn. naive_solver.
    + rewrite lookup_insert_ne by done. naive_solver.
  - destruct (rf_recipe x) as [cols rows launch old| |] eqn:Er;
      [|by eapply strip_full_same..].
    eapply strip_full_replace; [done..|]. unfold occupies. cbn. by rewrite Er.
  - exact Had.
  - destruct (_ && _); by eapply strip_full_same.
Qed.

Lemma at_rest_same s s' :
  at_rest s -> tf_lifecycle (sn_task s') = tf_lifecycle (sn_task s) ->
  sn_resources s' = sn_resources s -> sn_agents s' = sn_agents s -> at_rest s'.
Proof. unfold at_rest. by intros Hr -> -> ->. Qed.

Lemma at_rest_running s : ~ archived (tf_lifecycle (sn_task s)) -> at_rest s.
Proof. by intros ? ?. Qed.

Lemma at_rest_agent s s' id a a' :
  at_rest s -> tf_lifecycle (sn_task s') = tf_lifecycle (sn_task s) ->
  sn_resources s' = sn_resources s -> sn_agents s !! id = Some a ->
  sn_agents s' = <[id := a']> (sn_agents s) ->
  (is_specialist (ag_role a') = true -> ag_lifecycle a' = AgentOpen ->
   is_specialist (ag_role a) = true /\ ag_lifecycle a = AgentOpen) -> at_rest s'.
Proof.
  intros Hr Hl Hrs Ha Has Himp Hd. rewrite Hl in Hd. destruct (Hr Hd) as [Hres Hag].
  rewrite Hrs, Has. split; [done|]. intros i x.
  destruct (decide (i = id)) as [->|Hne]; [|rewrite lookup_insert_ne by done; apply Hag].
  rewrite lookup_insert_eq. intros [= <-] Hs Ho. destruct (Himp Hs Ho). by apply (Hag id a).
Qed.

Lemma at_rest_new_primary s s' id a :
  at_rest s -> tf_lifecycle (sn_task s') = tf_lifecycle (sn_task s) ->
  sn_resources s' = sn_resources s -> sn_agents s' = <[id := a]> (sn_agents s) ->
  is_specialist (ag_role a) = false -> at_rest s'.
Proof.
  intros Hr Hl Hrs Has Hs Hd. rewrite Hl in Hd. destruct (Hr Hd) as [Hres Hag].
  rewrite Hrs, Has. split; [done|]. intros i x.
  destruct (decide (i = id)) as [->|Hne]; [|rewrite lookup_insert_ne by done; apply Hag].
  rewrite lookup_insert_eq. intros [= <-]. congruence.
Qed.

Lemma at_rest_resource s s' id r r' :
  at_rest s -> tf_lifecycle (sn_task s') = tf_lifecycle (sn_task s) ->
  sn_agents s' = sn_agents s -> sn_resources s !! id = Some r ->
  sn_resources s' = <[id := r']> (sn_resources s) ->
  (rf_lifecycle r = ResReleased -> rf_lifecycle r' = ResReleased) -> at_rest s'.
Proof.
  intros Hr Hl Has Hre Hrs Himp Hd. rewrite Hl in Hd. destruct (Hr Hd) as [Hres Hag].
  rewrite Hrs, Has. split; [|done]. intros i x.
  destruct (decide (i = id)) as [->|Hne]; [|rewrite lookup_insert_ne by done; apply Hres].
  rewrite lookup_insert_eq. intros [= <-]. by eapply Himp, Hres.
Qed.

Lemma existsb_values_false {A} (p : A -> bool) (m : gmap N A) :
  existsb p (values m) = false <-> forall k v, m !! k = Some v -> p v = false.
Proof.
  split.
  - intros He k v Hk. destruct (p v) eqn:E; [|done].
    assert (existsb p (values m) = true) as Ht; [|congruence].
    apply existsb_exists. exists v. split; [|done]. apply list_elem_of_In, elem_of_values. eauto.
  - intros Hall. destruct (existsb p (values m)) eqn:E; [|done].
    apply existsb_exists in E as (v & Hin & Hv). apply list_elem_of_In, elem_of_values in Hin as [k Hk].
    by rewrite (Hall _ _ Hk) in Hv.
Qed.

Lemma apply_archived_rest s :
  existsb resource_unreleased (values (sn_resources s)) = false ->
  existsb open_specialist (values (sn_agents s)) = false ->
  at_rest (set_lifecycle s TaskArchivedL).
Proof.
  rewrite !existsb_values_false. intros Hr Ha _. cbn. split.
  - intros id r Hk. specialize (Hr _ _ Hk). unfold resource_unreleased in Hr. facts.
    by destruct (rf_lifecycle r).
  - intros id a Hk Hs Ho. specialize (Ha _ _ Hk). unfold open_specialist in Ha.
    by rewrite Ho, Hs, eqb_refl in Ha.
Qed.

Lemma apply_into_rest s e at_ms s' :
  apply_into s e at_ms = Ok s' -> admissible s e -> at_rest s -> at_rest s'.
Proof.
  intros Hs Had Hr. destruct e; arm Hs; facts; try subst s'; try (by eapply at_rest_same).
  all: try (by apply at_rest_running; intros [?|?]).
  - by apply apply_archived_rest.
  - intros _. by apply Hr; left.
  - by eapply at_rest_new_primary.
  - by eapply at_rest_agent.
  - by eapply at_rest_agent.
  - by eapply at_rest_agent.
  - by apply at_rest_running.
  - by apply at_rest_running.
  - apply live_specialist_Ok in G1 as (? & ? & ? & _). by eapply at_rest_agent.
  - apply live_specialist_Ok in G as (? & ? & ? & _). by eapply at_rest_agent.
  - apply at_rest_running. by case_match.
  - unfold releasable in G. peel G. subst. facts. eapply at_rest_resource; try done. congruence.
  - unfold releasable in G. peel G. subst. by eapply at_rest_resource.
  - destruct (rf_recipe x); [by eapply at_rest_resource|by eapply at_rest_same..].
  - destruct (tf_lifecycle (sn_task s) =?= TaskSettledL) eqn:El; cbn [andb];
      [|by eapply at_rest_same].
    apply eqb_true_1 in El. apply at_rest_running. destruct (is_send_now action); cbn.
    + by intros [?|?].
    + rewrite El. by intros [?|?].
Qed.

(** *** The browser book *)

Definition fact_live (f : BrowserDurableFact) : Prop :=
  match f with FactRequestAccepted _ _ _ _ g _ _ _ _ _ _ => g <> 0 | _ => True end.

Lemma apply_fact_receipts_ok b f b' :
  apply_fact b f = Ok b' -> fact_live f -> receipts_ok b -> receipts_ok b'.
Proof.
  intros Hf Hl Hr. destruct (is_request_accepted f) eqn:E.
  - destruct f; try discriminate E. unfold apply_fact in Hf. cbn [apply_fact_state] in Hf.
    unfold apply_request_accepted in Hf. peel Hf. subst b'.
    match goal with G : rbind _ _ = Ok _ |- _ => peel G end; subst; try done.
    apply map_Forall_insert_2; [|done]. by repeat split.
  - assert (run_facts b [f] = Ok b') as Hrun by (cbn [run_facts]; by rewrite Hf).
    apply run_facts_receipts in Hrun; [|by constructor]. unfold receipts_ok. by rewrite Hrun.
Qed.

Lemma run_facts_receipts_ok facts : forall b b',
  run_facts b facts = Ok b' -> Forall fact_live facts -> receipts_ok b -> receipts_ok b'.
Proof.
  induction facts as [|f facts IH]; intros b b' Hrun Hl Hr; cbn [run_facts] in Hrun.
  - by injection Hrun as <-.
  - apply rbind_Ok in Hrun as (b1 & Hf & Hrun). apply Forall_cons in Hl as [? Hl].
    eapply IH; [done|done|]. by eapply apply_fact_receipts_ok.
Qed.

Lemma plan_close_task_plain b t :
  Forall (fun f => is_request_accepted f = false) (plan_close_task b t).
Proof.
  unfold plan_close_task. apply Forall_app. split; apply Forall_forall; intros f;
    change (map ?g ?l) with (g <$> l); intros (x & -> & _)%list_elem_of_fmap; done.
Qed.

Lemma close_task_receipts b t b' : close_task b t = Ok b' -> bk_receipts b' = bk_receipts b.
Proof.
  unfold close_task. intros Hc. peel Hc. subst b'. cbn.
  match goal with G : try_apply_facts _ _ = Ok _ |- _ => apply try_apply_facts_Ok in G as [G _] end.
  eapply run_facts_receipts; [done|]. apply plan_close_task_plain.
Qed.

Lemma open_task_receipts b t b' : open_task b t = Ok b' -> bk_receipts b' = bk_receipts b.
Proof. unfold open_task. intros Ho. peel Ho; by subst. Qed.

Lemma apply_into_browser s e at_ms s' :
  apply_into s e at_ms = Ok s' -> bk_receipts (sn_browser s') = bk_receipts (sn_browser s).
Proof.
  intros Hs. destruct e; arm Hs; facts; try subst s'; try reflexivity.
  - cbn. by eapply (close_task_receipts (sn_browser s)).
  - cbn. by eapply open_task_receipts.
  - by repeat case_match.
  - by repeat case_match.
  - by destruct (_ && _).
Qed.

(** ** The system *)

Lemma sys_inv_applied s ev s' :
  applied s ev s' -> admissible s (de_payload ev) -> sys_inv s -> sys_inv s'.
Proof.
  intros Ha Had [W C St R B]. pose proof (applied_wf _ _ _ Ha W) as W'.
  destruct Ha as [fact b Hp _ Hb _ _|_|s1 _ Hs|s1 _ Hs _ _].
  - constructor; try done. cbn. rewrite Hp in Had.
    apply try_apply_facts_Ok in Hb as [Hb _].
    eapply run_facts_receipts_ok; [done| |done]. constructor; [|done]. by destruct fact.
  - by constructor.
  - constructor; [done|by eapply apply_into_crew|by eapply apply_into_strip
      |by eapply apply_into_rest|].
    unfold receipts_ok. by rewrite (apply_into_browser _ _ _ _ Hs).
  - assert (sys_inv s1) as [_ ? ? ? ?].
    { constructor; [by eapply apply_into_wf|by eapply apply_into_crew|by eapply apply_into_strip
        |by eapply apply_into_rest|].
      unfold receipts_ok. by rewrite (apply_into_browser _ _ _ _ Hs). }
    by constructor.
Qed.

Lemma sys_inv_created ev s : apply None ev = Ok s -> sys_inv s.
Proof.
  intros Ha. pose proof (created_wf _ _ Ha) as W.
  assert (receipts_ok (sn_browser s)) as B.
  { unfold apply in Ha. destruct (de_payload ev); unfold refusing, apply_mutation, apply_host_fact,
      apply_operation_fact, apply_browser_fact in Ha; cbn [ok_or map_err rbind] in Ha;
      try discriminate Ha.
    apply map_err_Ok in Ha. unfold apply_task_created, or_invalid in Ha. peel Ha. subst s. cbn.
    unfold receipts_ok.
    match goal with G : open_task _ _ = Ok _ |- _ => rewrite (open_task_receipts _ _ _ G) end.
    apply map_Forall_empty. }
  apply apply_None_Ok in Ha as (_ & _ & _ & Ea & _ & _ & Er & _ & _ & Est & El & _).
  constructor; try done.
  - rewrite Ea. constructor.
    + intros i j a b Hi. by rewrite lookup_empty in Hi.
    + intros i a Hi. by rewrite lookup_empty in Hi.
    + intros i a Hi. by rewrite lookup_empty in Hi.
    + done.
  - intros id. rewrite Est, Er. cbn. split; [by intros ?%not_elem_of_nil|].
    intros (r & Hr & _). by rewrite lookup_empty in Hr.
  - apply at_rest_running. rewrite El. by intros [?|?].
Qed.
End Arms.

(** ** What a decision consists of *)

Section Decision.
Context `{Sha256} `{UrlParser} `{BrowserWire} `{HostPayloads} `{SpecialistJson}.

Lemma some_eqb (o : option N) n : is_some_and o (fun x => x =? n) = true <-> o = Some n.
Proof. destruct o; cbn; rewrite ?N.eqb_eq; split; congruence. Qed.

Lemma require_task_Ok snapshot env s :
  require_task snapshot env = Ok s <->
  snapshot = Some s /\ ce_task_id env = Some (tf_id (sn_task s)).
Proof.
  unfold require_task. split.
  - intros Hf. peel Hf. facts. subst. split; congruence.
  - intros [-> Ht]. cbn. rewrite Ht. cbn. by rewrite N.eqb_refl.
Qed.

Lemma require_expected_revision_Ok s env u :
  require_expected_revision s env = Ok u <->
  ce_expected_task_revision env = Some (tf_revision (sn_task s)).
Proof.
  unfold require_expected_revision. rewrite <- some_eqb. destruct u. split.
  - intros Hf. peel Hf. done.
  - by intros ->.
Qed.

(** The preamble of every arm but creation: the task, at the expected revision. *)
Definition addressed (snapshot : option TaskSnapshot) (env : CommandEnvelope) (s : TaskSnapshot)
    : Prop :=
  snapshot = Some s /\ ce_task_id env = Some (tf_id (sn_task s))
  /\ ce_expected_task_revision env = Some (tf_revision (sn_task s)).

Lemma for_any_Ok snapshot env s : for_any snapshot env = Ok s <-> addressed snapshot env s.
Proof.
  unfold for_any, addressed. split.
  - intros Hf. peel Hf. subst. apply require_task_Ok in G as [-> ?].
    by apply require_expected_revision_Ok in G0.
  - intros (Hs & Ht & He). rewrite (proj2 (require_task_Ok snapshot env s)) by done. cbn.
    by rewrite (proj2 (require_expected_revision_Ok s env tt)).
Qed.

Lemma for_open_or_closing_Ok snapshot env s :
  for_open_or_closing snapshot env = Ok s <->
  addressed snapshot env s /\ ~ archived (tf_lifecycle (sn_task s)).
Proof.
  rewrite <- for_any_Ok. unfold for_open_or_closing, require_open_or_closing_task, for_any.
  destruct (require_task snapshot env) as [x|]; cbn; [|naive_solver].
  unfold archived. split.
  - intros Hf. peel Hf. peel G. subst. rewrite G0. split; [done|].
    destruct (tf_lifecycle (sn_task s)); naive_solver.
  - intros (Hf & Hn). peel Hf. subst.
    replace (open_or_closing (tf_lifecycle (sn_task s))) with (@Ok unit RejectionCode tt)
      by (destruct (tf_lifecycle (sn_task s)); naive_solver).
    cbn. by rewrite G.
Qed.

Lemma for_runtime_capable_Ok snapshot env s :
  for_runtime_capable snapshot env = Ok s <->
  addressed snapshot env s
  /\ (tf_lifecycle (sn_task s) = TaskOpen \/ tf_lifecycle (sn_task s) = TaskSettledL).
Proof.
  rewrite <- for_any_Ok. unfold for_runtime_capable, require_runtime_capable_task, for_any.
  destruct (require_task snapshot env) as [x|]; cbn; [|naive_solver]. split.
  - intros Hf. peel Hf. peel G. subst. rewrite G0. split; [done|].
    destruct (tf_lifecycle (sn_task s)); naive_solver.
  - intros (Hf & Hn). peel Hf. subst.
    replace (runtime_capable (tf_lifecycle (sn_task s))) with (@Ok unit RejectionCode tt)
      by (destruct Hn as [-> | ->]; done).
    cbn. by rewrite G.
Qed.

Lemma running_not_archived l : l = TaskOpen \/ l = TaskSettledL -> ~ archived l.
Proof. by intros [-> | ->] [?|?]. Qed.

Lemma plan_identity_live b r fs : plan_identity_facts b r = Ok fs -> Forall fact_live fs.
Proof.
  unfold plan_identity_facts, plan_create_context, plan_close_context, plan_open_tab.
  intros Hp. destruct (br_action r); peel Hp; subst fs; try by repeat constructor.
  3: by constructor; [done|case_match; repeat constructor].
  all: apply Forall_app; split; [|by repeat constructor]; apply Forall_map; by apply Forall_true.
Qed.

Lemma plan_admit_live b r acc :
  receipts_ok b -> plan_admit b r = Ok acc -> Forall fact_live (ba_facts acc).
Proof.
  intros Hr Hp. destruct (bk_receipts b !! br_request_id r) as [prior|] eqn:E.
  - unfold plan_admit in Hp. rewrite E in Hp. peel Hp. subst acc.
    destruct (Hr _ _ E) as (Hf & Hg & _ & Hge & _).
    unfold replayed_receipt. rewrite Hf. cbn. rewrite Hge. by constructor.
  - unfold plan_admit in Hp. rewrite E in Hp. peel Hp. subst acc. facts. cbn.
    constructor; [done|].
    match goal with G : plan_identity_facts _ _ = Ok _ |- _ =>
      apply plan_identity_live in G end. done.
Qed.
End Decision.
