(* ===== verification/Decision.v ===== *)
(** What a decision consists of: the facts of a browser request, followed by at
    most one other event, which the state it was decided on admits; and who may
    issue a command that is accepted. *)
From S2P Require Import Prelude Canonical Task Agent Resource Artifact ProviderInput Browser Operation Snapshot Event NativeBrowser Command Sample Invariant WellFormed Sessions Outbox Kernel.

(** Opens one arm of [command_decide]. *)
Ltac decided Hd :=
  unfold command_decide, decide_create_task, decide_rename, decide_attention, decide_settle,
    decide_begin_close, decide_reopen, decide_delete, decide_register_agent,
    decide_bind_provider, decide_abandon_provider, decide_set_primary, decide_rebind_unstarted,
    decide_register_artifact, decide_register_resource, decide_release_resource,
    decide_open_shell_terminal, decide_close_terminal, decide_rename_terminal, decide_set_strip,
    decide_browser, decide_open_task_browser, decide_submit_provider_input,
    decide_present_question, decide_present_approval, decide_settle_wait,
    decide_request_specialist, decide_promote_primary, decide_cancel_specialist,
    decide_accept_handoff in Hd; peel Hd; try discriminate Hd.

(** What the preamble of the arm establishes. *)
Ltac preamble :=
  repeat match goal with
  | G : for_any _ _ = Ok _ |- _ => apply for_any_Ok in G
  | G : for_open_or_closing _ _ = Ok _ |- _ => apply for_open_or_closing_Ok in G as [G ?]
  | G : for_runtime_capable _ _ = Ok _ |- _ => apply for_runtime_capable_Ok in G as [G ?]
  end.

Section Decision.
Context `{Sha256} `{UrlParser} `{BrowserWire} `{HostPayloads} `{SpecialistJson}.

(** A decision: browser facts of live generations, then at most one event. *)
Definition decision_shape (s : TaskSnapshot) (d : list Event) : Prop :=
  exists facts tail, d = map EvBrowser facts ++ tail /\ Forall fact_live facts
    /\ (tail = [] \/ exists e, tail = [e] /\ admissible s e /\ is_task_mutation e = true).

Lemma shape_one s e : admissible s e -> is_task_mutation e = true -> decision_shape s [e].
Proof. intros. exists [], [e]. split_and!; [done..|]. right. by exists e. Qed.

Lemma shape_nil s : decision_shape s [].
Proof. exists [], []. split_and!; [done..|by left]. Qed.

Lemma shape_facts s facts : Forall fact_live facts -> decision_shape s (map EvBrowser facts).
Proof. intros. exists facts, []. split_and!; [by rewrite app_nil_r|done|by left]. Qed.

Lemma elem_of_occupied s id :
  snapshot_wf s ->
  id ∈ occupied_plain_shell_ids s <-> exists r, sn_resources s !! id = Some r /\ occupies r.
Proof.
  intros W. unfold occupied_plain_shell_ids, occupies.
  rewrite elem_of_list_to_set. change (map ?g ?l) with (g <$> l). rewrite list_elem_of_fmap.
  assert (forall k r, sn_resources s !! k = Some r -> rf_id r = k) as Hk
    by (intros k r Hr; by destruct (wf_resources _ W _ _ Hr)).
  setoid_rewrite list_elem_of_In. setoid_rewrite List.filter_In.
  setoid_rewrite <- list_elem_of_In. setoid_rewrite elem_of_values.
  unfold is_plain_shell_terminal. split.
  - intros (r & -> & (k & Hr) & Hb). bool_inv. exists r. rewrite (Hk _ _ Hr).
    facts. split_and!; try done; eauto.
  - intros (r & Hr & Hkd & Hp & Hl). exists r. split; [by rewrite (Hk _ _ Hr)|].
    split; [eauto|]. rewrite Hkd, Hp, eqb_refl. cbn.
    destruct (rf_lifecycle r); done.
Qed.

Lemma live_bind_command facts acc command epoch :
  ba_facts (bind_command acc command epoch) = facts ->
  Forall fact_live (ba_facts acc) -> Forall fact_live facts.
Proof.
  intros <- Hl. unfold bind_command. cbn. apply Forall_map.
  eapply Forall_impl; [exact Hl|]. by intros [].
Qed.

(** ** Who may be heard *)

(** The commands a closing task still hears. *)
Definition heard_while_closing (c : Command) : bool :=
  match c with
  | CmdRenameTask _ | CmdSetTaskAttention _ | CmdBeginCloseTask | CmdReopenTask
  | CmdRegisterArtifact _ | CmdReleaseResource _ | CmdSettleProviderWait _ | CmdCloseTerminal _
  | CmdRenameTerminal _ _ | CmdSetTerminalStrip _ => true
  | _ => false
  end.

(** The commands each lifecycle hears at all. *)
Definition heard (l : TaskLifecycle) (c : Command) : Prop :=
  match l with
  | TaskOpen => c <> CmdReopenTask /\ c <> CmdDeleteTask
  | TaskSettledL => c <> CmdDeleteTask
  | TaskClosing => heard_while_closing c = true
  | TaskArchivedL => c = CmdReopenTask \/ c = CmdDeleteTask
  | TaskDeletedL => False
  end.

Lemma addressed_same s env s' : addressed (Some s) env s' -> s' = s.
Proof. by intros ([= ->] & _). Qed.

Lemma decide_heard fresh s env d :
  command_decide fresh (Some s) env = Ok d ->
  addressed (Some s) env s /\ heard (tf_lifecycle (sn_task s)) (ce_command env).
Proof.
  intros Hd. unfold command_decide in Hd. destruct (ce_command env) eqn:Ec; decided Hd; preamble;
    try discriminate.
  all: match goal with G : addressed _ _ ?x |- _ =>
         pose proof (addressed_same _ _ _ G) as ->; split; [exact G|] end.
  all: unfold heard; try match goal with
       | Hr : _ = TaskOpen \/ _ = TaskSettledL |- _ => by destruct Hr as [-> | ->]
       | Hn : ~ archived ?l |- _ =>
           destruct l eqn:El; try done; exfalso; apply Hn; unfold archived; tauto
       | El : tf_lifecycle _ = _ |- _ => rewrite El; naive_solver
       end.
Qed.

Lemma decide_None fresh env d :
  command_decide fresh None env = Ok d ->
  exists intent, ce_command env = CmdCreateTask intent.
Proof.
  intros Hd. unfold command_decide in Hd. destruct (ce_command env) eqn:Ec; [eauto|..].
  all: decided Hd; preamble; by match goal with G : addressed _ _ _ |- _ => destruct G end.
Qed.

(** ** The shape of a decision *)

Lemma plan_admit_bound_live b r acc command epoch :
  receipts_ok b -> plan_admit b r = Ok acc ->
  Forall fact_live (ba_facts (bind_command acc command epoch)).
Proof. intros Hr Hp. eapply live_bind_command; [done|]. by eapply plan_admit_live. Qed.

Lemma open_step_shape s command b r b' es :
  receipts_ok b -> open_step s command b r = Ok (b', es) ->
  receipts_ok b' /\ exists facts, es = map EvBrowser facts /\ Forall fact_live facts.
Proof.
  intros Hr Ho. unfold open_step in Ho. peel Ho. simplify_eq.
  pose proof (plan_admit_bound_live b r x command (tf_action_epoch (sn_task s)) Hr G) as Hl.
  apply try_apply_facts_Ok in G0 as [G0 _]. split; [|eauto].
  by eapply run_facts_receipts_ok.
Qed.

Lemma decide_open_shape s command intent d :
  receipts_ok (sn_browser s) -> ~ archived (tf_lifecycle (sn_task s)) ->
  decide_open s command intent = Ok d -> decision_shape s d.
Proof.
  intros Hr Hn Ho. unfold decide_open in Ho. peel Ho. subst d.
  match goal with G : open_step _ _ (sn_browser s) _ = Ok _ |- _ =>
    apply open_step_shape in G as (Hr' & f1 & -> & Hl1); [|done] end.
  match goal with G : open_step _ _ _ _ = Ok _ |- _ =>
    apply open_step_shape in G as (_ & f2 & -> & Hl2); [|done] end.
  exists (f1 ++ f2), [EvResourceRegistered (ob_resource intent)].
  split_and!; [by rewrite map_app, app_assoc|by apply Forall_app|].
  right. by eexists.
Qed.

Lemma decide_shape fresh s env d :
  sys_inv s -> command_decide fresh (Some s) env = Ok d -> decision_shape s d.
Proof.
  intros I Hd. pose proof (si_wf _ I) as W. pose proof (si_receipts _ I) as R.
  unfold command_decide in Hd. destruct (ce_command env) eqn:Ec; decided Hd; preamble;
    try discriminate.
  all: match goal with G : addressed _ _ ?x |- _ =>
         pose proof (addressed_same _ _ _ G) as -> end.
  all: try match goal with G : _ = TaskOpen \/ _ = TaskSettledL |- _ =>
         apply running_not_archived in G end.
  all: try (by eapply decide_open_shape).
  all: subst d.
  all: try apply shape_nil.
  all: try (by apply shape_facts; eapply plan_admit_bound_live).
  all: try (by apply shape_one).
  - apply shape_one; [|done]. cbn. intros i a Ha. facts.
    assert (is_primary_role (ag_role agent) = true) as Hp by (unfold is_primary_role; by rewrite G3).
    destruct G4 as [G4|G4]; [congruence|]. rewrite existsb_values_false in G4.
    specialize (G4 _ _ Ha). by apply negb_false_iff.
  - apply shape_one; [|done]. cbn. intros id.
    match goal with G : bool_decide _ = true |- _ => apply bool_decide_eq_true in G as Heq end.
    rewrite <- (elem_of_occupied s id W), <- Heq. symmetry. apply elem_of_list_to_set.
Qed.
End Decision.
