(* ===== verification/Reachable.v ===== *)
(** The kernel as a transition system over the pure decision and projection of
    [domain/]: a command is decided on the current snapshot and its events are
    applied in order; the host appends the facts it observes.  The theorems are
    about every snapshot this reaches. *)
From S2P Require Import Prelude Canonical Task Agent Resource Artifact ProviderInput Browser Operation Snapshot Event NativeBrowser Command Sample Invariant WellFormed Sessions Outbox Kernel Decision.

(** The events the host appends outside a command's decision: the results of
    planned effects, observed terminal facts, browser settlements and the
    operation journal. *)
Definition host_fact (e : Event) : bool :=
  match e with
  | EvTaskArchived | EvResourceReleased _ _ | EvProviderInputDelivered _ _ _ _ _ _ _ _ _ _ _
  | EvTerminalCwdReported _ _ | EvTerminalExited _ _ _ | EvTerminalActivity _
  | EvOperationAccepted _ | EvOperationSettled _ | EvOperationFailed _ | EvOperationCancelled _
  | EvOperationUncertain _ => true
  | EvBrowser f => negb (is_request_accepted f)
  | _ => false
  end.

Section Reachable.
Context `{Sha256} `{UrlParser} `{BrowserWire} `{HostPayloads} `{SpecialistJson}.

(** The events of one decision, applied one after the other. *)
Fixpoint run (snapshot : option TaskSnapshot) (evs : list DomainEvent)
    : result (option TaskSnapshot) ApplyFailure :=
  match evs with
  | [] => Ok snapshot
  | ev :: rest => let? s := apply snapshot ev in run (Some s) rest
  end.

Inductive reachable : TaskSnapshot -> Prop :=
| reach_create fresh env evs s :
    command_decide fresh None env = Ok (map de_payload evs) ->
    run None evs = Ok (Some s) -> reachable s
| reach_command s fresh env evs s' :
    reachable s -> command_decide fresh (Some s) env = Ok (map de_payload evs) ->
    run (Some s) evs = Ok (Some s') -> reachable s'
| reach_host s ev s' :
    reachable s -> host_fact (de_payload ev) = true -> apply (Some s) ev = Ok s' ->
    reachable s'.

Lemma run_cons snapshot ev evs s' :
  run snapshot (ev :: evs) = Ok s' <->
  exists s, apply snapshot ev = Ok s /\ run (Some s) evs = Ok s'.
Proof. cbn [run]. apply rbind_Ok. Qed.

Lemma run_Some evs : forall s o, run (Some s) evs = Ok o -> exists s', o = Some s'.
Proof.
  induction evs as [|ev evs IH]; intros s o.
  - intros [= <-]. eauto.
  - rewrite run_cons. intros (s1 & _ & Hr). by eapply IH.
Qed.

(** A browser fact leaves everything admission looks at alone. *)
Lemma applied_browser_frame s ev s' f :
  applied s ev s' -> de_payload ev = EvBrowser f ->
  sn_agents s' = sn_agents s /\ sn_resources s' = sn_resources s
  /\ tf_lifecycle (sn_task s') = tf_lifecycle (sn_task s).
Proof.
  intros [fact b _ _ _ _ _|Hop|s1 Hop _|s1 _ Hs _ _] Hp.
  - done.
  - by rewrite Hp in Hop.
  - by rewrite Hp in Hop.
  - by rewrite Hp in Hs.
Qed.

Lemma admissible_frame s s' e :
  sn_agents s' = sn_agents s -> sn_resources s' = sn_resources s ->
  tf_lifecycle (sn_task s') = tf_lifecycle (sn_task s) -> admissible s e -> admissible s' e.
Proof. intros Ha Hr Hl. unfold admissible. by rewrite Ha, Hr, Hl. Qed.

Lemma run_decision_inv facts tail : forall evs s s',
  map de_payload evs = map EvBrowser facts ++ tail -> Forall fact_live facts ->
  (tail = [] \/ exists e, tail = [e] /\ admissible s e) ->
  run (Some s) evs = Ok (Some s') -> sys_inv s -> sys_inv s'.
Proof.
  induction facts as [|f facts IH]; intros evs s s' Hm Hl Ht Hr I.
  - destruct Ht as [-> | (e & -> & Had)].
    + destruct evs; [|done]. cbn in Hr. by simplify_eq.
    + destruct evs as [|ev [|]]; try done. injection Hm as Hp.
      apply run_cons in Hr as (s1 & Ha & Hr). cbn in Hr. simplify_eq.
      apply apply_Some_applied in Ha as [Ha _]. by eapply sys_inv_applied.
  - destruct evs as [|ev evs]; [done|]. injection Hm as Hp Hm.
    apply run_cons in Hr as (s1 & Ha & Hr). apply apply_Some_applied in Ha as [Ha _].
    apply Forall_cons in Hl as [Hf Hl].
    pose proof (applied_browser_frame _ _ _ _ Ha Hp) as (E1 & E2 & E3).
    eapply (IH evs s1); [done|done| |done|].
    + destruct Ht as [?|(e & ? & ?)]; [by left|right]. exists e. split; [done|].
      by eapply admissible_frame.
    + eapply sys_inv_applied; [done| |done]. rewrite Hp. by destruct f.
Qed.

Lemma host_fact_admissible s e : host_fact e = true -> admissible s e.
Proof.
  intros Hh. destruct e; try done.
  by match goal with f : BrowserDurableFact |- _ => destruct f end.
Qed.

Lemma reachable_inv s : reachable s -> sys_inv s.
Proof.
  induction 1 as [fresh env evs s Hd Hr|s fresh env evs s' _ I Hd Hr|s ev s' _ I Hh Ha].
  - destruct (decide_None _ _ _ Hd) as [intent Ec]. unfold command_decide in Hd. rewrite Ec in Hd.
    unfold decide_create_task in Hd. peel Hd. destruct evs as [|ev [|]]; try done.
    apply run_cons in Hr as (s1 & Ha & Hr). cbn in Hr. simplify_eq. by eapply sys_inv_created.
  - destruct (decide_shape _ _ _ _ I Hd) as (facts & tail & Hm & Hl & Ht).
    eapply run_decision_inv; try done. destruct Ht as [?|(e & ? & ? & _)]; eauto.
  - apply apply_Some_applied in Ha as [Ha _]. eapply sys_inv_applied; [done| |done].
    by apply host_fact_admissible.
Qed.

(** ** Committing a decision

    The events [persist_pure_acceptance] and [persist_side_effect_acceptance]
    append for a decision: fresh ids, consecutive sequence numbers (the row ids
    the insertions get), one time for all, the revisions counted from the
    snapshot's.  Also the revision the receipt reports. *)
Fixpoint stamp (fresh_event : N -> EventId) (sequence : N) (task : option TaskId) (now : Z)
    (rows : list (Event * option N)) : list DomainEvent :=
  match rows with
  | [] => []
  | (e, revision) :: rest =>
      {| de_id := fresh_event sequence; de_task_id := task; de_sequence := sequence;
         de_task_revision := revision; de_occurred_at_ms := now; de_payload := e |}
      :: stamp fresh_event (sequence + 1) task now rest
  end.

Definition commit_decision (fresh_event : N -> EventId) (sequence : N) (task : option TaskId)
    (now : Z) (snapshot : option TaskSnapshot) (d : list Event)
    : result (list DomainEvent * option N) StoreError :=
  let? (revisions, final) :=
    decision_revisions (option_map (fun s => tf_revision (sn_task s)) snapshot) d in
  Ok (stamp fresh_event sequence task now (combine d revisions), final).

Lemma decision_revisions_length d : forall next revs final,
  decision_revisions next d = Ok (revs, final) -> length revs = length d.
Proof.
  induction d as [|e d IH]; intros next revs final Hd; cbn [decision_revisions] in Hd.
  - by simplify_eq.
  - apply rbind_Ok in Hd as (n & _ & Hd). apply rbind_Ok in Hd as ([revs' f] & Hr & Hd).
    injection Hd as <- <-. cbn. by rewrite (IH _ _ _ Hr).
Qed.

Lemma stamp_payloads fresh task now d : forall sequence revs,
  length revs = length d ->
  map de_payload (stamp fresh sequence task now (combine d revs)) = d
  /\ map de_task_revision (stamp fresh sequence task now (combine d revs)) = revs.
Proof.
  induction d as [|e d IH]; intros sequence [|r revs] Hl; try done.
  cbn in *. injection Hl as Hl. by destruct (IH (sequence + 1) revs Hl) as [-> ->].
Qed.

Lemma commit_decision_payloads fresh sequence task now snapshot d evs final :
  commit_decision fresh sequence task now snapshot d = Ok (evs, final) ->
  map de_payload evs = d
  /\ decision_revisions (option_map (fun s => tf_revision (sn_task s)) snapshot) d
     = Ok (map de_task_revision evs, final).
Proof.
  unfold commit_decision. intros Hc. apply rbind_Ok in Hc as ([revs f] & Hd & Hc).
  simplify_eq. destruct (stamp_payloads fresh task now d sequence revs) as [Hp Hr].
  { by eapply decision_revisions_length. }
  by rewrite Hr.
Qed.

(** A command, end to end, as the bus runs it on the pure projection. *)
Definition execute (fresh_operation : OperationId) (fresh_event : N -> EventId) (sequence : N)
    (now : Z) (snapshot : option TaskSnapshot) (env : CommandEnvelope) : option TaskSnapshot :=
  match command_decide fresh_operation snapshot env with
  | Ok d =>
      match commit_decision fresh_event sequence (effective_task_scope env) now snapshot d with
      | Ok (evs, _) => match run snapshot evs with Ok s => s | Err _ => None end
      | Err _ => None
      end
  | Err _ => None
  end.

Lemma execute_reachable op ids sequence now snapshot env s :
  (forall s0, snapshot = Some s0 -> reachable s0) ->
  execute op ids sequence now snapshot env = Some s -> reachable s.
Proof.
  unfold execute. intros Hr He. destruct (command_decide op snapshot env) as [d|] eqn:Hd; [|done].
  destruct (commit_decision _ _ _ _ _ _) as [[evs final]|] eqn:Hc; [|done].
  destruct (run snapshot evs) as [o|] eqn:Hrun; [|done]. subst o.
  apply commit_decision_payloads in Hc as [Hp _]. subst d. destruct snapshot as [s0|].
  - eapply reach_command; [by apply Hr|done..].
  - by eapply reach_create.
Qed.

(** ** Revisions *)

Lemma applied_stamp s ev s' :
  applied s ev s' -> is_task_mutation (de_payload ev) = true ->
  de_task_revision ev = Some (tf_revision (sn_task s) + 1)
  /\ tf_revision (sn_task s') = tf_revision (sn_task s) + 1
  /\ tf_revision (sn_task s) + 1 <= u64_max.
Proof.
  intros [fact b Hp _ _ Hr ?|Hop|s1 Hop _|s1 _ Hs Hr ?] Hm; [done| | |done];
    revert Hm Hop; by destruct (de_payload ev).
Qed.

(** Events that applied one after the other carry the revisions the bus counts. *)
Lemma run_revisions evs : forall s s',
  run (Some s) evs = Ok (Some s') ->
  Forall (fun ev => is_task_mutation (de_payload ev) = true) evs ->
  tf_revision (sn_task s') = tf_revision (sn_task s) + count evs
  /\ decision_revisions (Some (tf_revision (sn_task s))) (map de_payload evs)
     = Ok (map de_task_revision evs, Some (tf_revision (sn_task s'))).
Proof.
  induction evs as [|ev evs IH]; intros s s' Hr Hm.
  - cbn in Hr. simplify_eq. rewrite count_nil. split; [lia|done].
  - apply run_cons in Hr as (s1 & Ha & Hr). apply Forall_cons in Hm as [Hm Hms].
    apply apply_Some_applied in Ha as [Ha _].
    destruct (applied_stamp _ _ _ Ha Hm) as (E1 & E2 & Hle).
    destruct (IH _ _ Hr Hms) as [E3 E4]. rewrite count_cons. split; [lia|].
    cbn [map decision_revisions]. rewrite Hm.
    unfold checked_add. apply N.leb_le in Hle. rewrite Hle. cbn [ok_or rmap rbind].
    by rewrite <- E2, E4, E1, E2.
Qed.

Lemma shape_mutations s d :
  decision_shape s d -> Forall (fun e => is_task_mutation e = true) d.
Proof.
  intros (facts & tail & -> & _ & Ht). apply Forall_app. split.
  - apply Forall_map, Forall_forall. done.
  - destruct Ht as [-> | (e & -> & _ & ?)]; by repeat constructor.
Qed.

(** ** Properties *)

(** C6: a task never has two primary agents; once it has an agent it has a
    primary, that primary is open, and the recorded primary, if any, is it; and
    at most two of its agents are open at a time. *)
Theorem reachable_crew (s : TaskSnapshot) (Hs : reachable s) :
  (forall i j a b, sn_agents s !! i = Some a -> sn_agents s !! j = Some b ->
     is_specialist (ag_role a) = false -> is_specialist (ag_role b) = false -> i = j)
  /\ (sn_agents s <> ∅ -> exists i a, sn_agents s !! i = Some a
        /\ is_specialist (ag_role a) = false /\ ag_lifecycle a = AgentOpen
        /\ forall p, sn_primary_agent_id s = Some p -> p = i)
  /\ count (List.filter is_open (values (sn_agents s))) <= 2.
Proof.
  destruct (reachable_inv _ Hs) as [W [Hu Hp Ho Hc] _ _ _]. split_and!; [done| |done].
  intros (x & a & Hx)%map_choose. destruct (Hp _ _ Hx) as (i & b & Hi & Hb).
  exists i, b. split_and!; [done|done|by eapply Ho|]. intros p Hpr.
  destruct (wf_primary _ W _ Hpr) as (c & Hc' & Hsc). by eapply Hu.
Qed.

(** The terminal strip of a task lists, without repetition, exactly the
    plain shells that are not released, and there are at most eight of them. *)
Theorem reachable_strip (s : TaskSnapshot) (Hs : reachable s) :
  NoDup (st_order (sn_terminal_strip s)) /\ count (st_order (sn_terminal_strip s)) <= 8
  /\ (forall id, id ∈ st_order (sn_terminal_strip s) <->
        exists r, sn_resources s !! id = Some r /\ occupies r)
  /\ list_to_set (st_order (sn_terminal_strip s)) = occupied_plain_shell_ids s.
Proof.
  destruct (reachable_inv _ Hs) as [W _ St _ _]. destruct (wf_strip _ W) as (? & ? & _).
  split_and!; [done..|]. apply set_eq. intros id.
  by rewrite elem_of_list_to_set, (elem_of_occupied _ _ W).
Qed.

(** Nothing of an archived or deleted task is left running: every resource
    is released, every specialist closed, and no terminal holds facts or a place
    on the strip. *)
Theorem reachable_archived (s : TaskSnapshot) (Hs : reachable s)
    (Ha : tf_lifecycle (sn_task s) = TaskArchivedL \/ tf_lifecycle (sn_task s) = TaskDeletedL) :
  (forall id r, sn_resources s !! id = Some r -> rf_lifecycle r = ResReleased)
  /\ (forall id a, sn_agents s !! id = Some a -> is_specialist (ag_role a) = true ->
        ag_lifecycle a <> AgentOpen)
  /\ sn_terminal_facts s = ∅ /\ st_order (sn_terminal_strip s) = [].
Proof.
  destruct (reachable_inv _ Hs) as [W _ St R _]. destruct (R Ha) as [Hr Hag].
  split_and!; [done..| |].
  - apply map_empty. intros id. apply eq_None_not_Some. intros Hid.
    apply (wf_terminals _ W) in Hid as (r & Hr' & _ & Hl). by apply Hl, (Hr id).
  - destruct (st_order (sn_terminal_strip s)) as [|id l] eqn:E; [done|].
    destruct (proj1 (St id)) as (r & Hr' & _ & _ & Hl); [rewrite E; left|].
    by destruct Hl; apply (Hr id).
Qed.

(** C2: a command on an existing task is accepted only when it names the task and
    its current revision, and only when the task's lifecycle hears it: a closing
    task hears the housekeeping commands, an archived one reopening and
    deletion, a deleted one nothing. *)
Theorem decide_requires_current_revision (fresh : OperationId) (s : TaskSnapshot)
    (env : CommandEnvelope) (d : list Event)
    (Hd : command_decide fresh (Some s) env = Ok d) :
  ce_task_id env = Some (tf_id (sn_task s))
  /\ ce_expected_task_revision env = Some (tf_revision (sn_task s))
  /\ heard (tf_lifecycle (sn_task s)) (ce_command env).
Proof. by destruct (decide_heard _ _ _ _ Hd) as [(_ & ? & ?) ?]. Qed.

(** Of two commands issued against the same revision, the second is refused
    once the first has had any event applied: no update is lost. *)
Theorem second_writer_rejected (s s' : TaskSnapshot) (f1 f2 : OperationId)
    (env1 env2 : CommandEnvelope) (evs : list DomainEvent) (Hs : reachable s)
    (Hfirst : command_decide f1 (Some s) env1 = Ok (map de_payload evs)) (Hne : evs <> [])
    (Hrun : run (Some s) evs = Ok (Some s'))
    (Hsame : ce_expected_task_revision env2 = ce_expected_task_revision env1) :
  exists code, command_decide f2 (Some s') env2 = Err code.
Proof.
  destruct (command_decide f2 (Some s') env2) as [d|code] eqn:E; [exfalso|eauto].
  apply decide_heard in E as [(_ & _ & E) _]. pose proof Hfirst as Hf.
  apply decide_heard in Hf as [(_ & _ & E1) _].
  apply decide_shape, shape_mutations in Hfirst; [|by apply reachable_inv].
  apply (proj1 (Forall_map _ _ _)) in Hfirst.
  destruct (run_revisions _ _ _ Hrun Hfirst) as [Er _].
  destruct evs as [|ev evs]; [done|]. rewrite count_cons in Er.
  assert (tf_revision (sn_task s') = tf_revision (sn_task s)) by congruence. lia.
Qed.

(** The revisions the bus stamps a decision's events with are the ones under
    which they apply, and the revision in the receipt is that of the snapshot
    they lead to. *)
Theorem receipt_reports_final_revision (fresh : OperationId) (ids : N -> EventId) (sequence : N)
    (now : Z) (s : TaskSnapshot) (env : CommandEnvelope) (d : list Event)
    (evs applied_evs : list DomainEvent) (final : option N) (s' : TaskSnapshot)
    (Hs : reachable s) (Hd : command_decide fresh (Some s) env = Ok d)
    (Hc : commit_decision ids sequence (ce_task_id env) now (Some s) d = Ok (evs, final))
    (Hsame : map de_payload applied_evs = d)
    (Hrun : run (Some s) applied_evs = Ok (Some s')) :
  map de_task_revision evs = map de_task_revision applied_evs
  /\ final = Some (tf_revision (sn_task s'))
  /\ tf_revision (sn_task s') = tf_revision (sn_task s) + count d.
Proof.
  apply commit_decision_payloads in Hc as [_ Hc]. cbn [option_map] in Hc.
  apply decide_shape, shape_mutations in Hd; [|by apply reachable_inv]. subst d.
  apply (proj1 (Forall_map _ _ _)) in Hd. destruct (run_revisions _ _ _ Hrun Hd) as [Er Ed].
  rewrite Ed in Hc. simplify_eq. split_and!; [done..|]. by unfold count; rewrite length_map.
Qed.
End Reachable.

(** ** A reachable run *)

#[local] Existing Instance toy_sha.
#[local] Existing Instance toy_urls.
#[local] Existing Instance toy_wire.
#[local] Existing Instance toy_json.
#[local] Existing Instance toy_host.

Definition sample_intent : CreateTaskIntent :=
  {| ct_id := 1; ct_environment_id := 2; ct_title := lit "Fix it"; ct_description := None;
     ct_project_id := 3; ct_workspace := WsMain; ct_assignment := LocalOwner;
     ct_created_at_ms := 0%Z; ct_connectivity := Connected; ct_attention := AttentionNone;
     ct_activity := ActivityIdle; ct_review_readiness := NotReady |}.

Definition create_envelope : CommandEnvelope :=
  {| ce_command_id := 500; ce_client_id := 501; ce_task_id := None; ce_issued_at_ms := 9%Z;
     ce_expected_task_revision := None; ce_command := CmdCreateTask sample_intent |}.

Definition send (snapshot : option TaskSnapshot) (c : Command) : option TaskSnapshot :=
  let s := the snapshot in
  execute 600 (fun n => 700 + n) 10 5%Z (Some s) (sample_envelope (tf_revision (sn_task s)) c).

Definition observe (snapshot : option TaskSnapshot) (revision : option N) (e : Event)
    : option TaskSnapshot :=
  snapshot_of (apply (Some (the snapshot)) (stamped revision e)).

Lemma send_reachable snapshot c s :
  reachable (the snapshot) -> send snapshot c = Some s -> reachable s.
Proof. intros Hr. unfold send. apply execute_reachable. by intros s0 [= <-]. Qed.

Lemma observe_reachable snapshot revision e s :
  reachable (the snapshot) -> host_fact e = true -> observe snapshot revision e = Some s ->
  reachable s.
Proof.
  unfold observe, snapshot_of. intros Hr Hh Ho.
  destruct (apply _ _) as [s0|] eqn:E; [|done]. injection Ho as <-.
  by eapply reach_host; [exact Hr| |exact E].
Qed.

Definition sample_shell : ResourceFacts :=
  {| rf_id := 30; rf_task_id := Some 1; rf_owner_kind := OwnerTask;
     rf_resource_kind := KindTerminal; rf_recipe := RecipeTerminal 80 24 
       (Some {| tl_cwd := lit "/p"; tl_program := lit "sh"; tl_args := [] |}) None;
     rf_lifecycle := ResActive; rf_runtime_generation := 0; rf_updated_at_ms := 0%Z |}.

Definition run_created := execute 600 (fun n => 700 + n) 1 0%Z None create_envelope.
Definition run_manned := send run_created (CmdRegisterAgentSession sample_agent).
Definition run_staffed := send run_manned (CmdSetPrimaryAgent 10).
Definition run_shelled := send run_staffed (CmdOpenShellTerminal sample_shell).
Definition run_renamed := send run_shelled (CmdRenameTask (lit "Fixed")).
Definition run_freed :=
  observe (send run_renamed (CmdCloseTerminal 30)) (Some 7) (EvResourceReleased 30 0).
Definition run_archived := observe (send run_freed CmdBeginCloseTask) (Some 9) EvTaskArchived.

Lemma run_staffed_reachable : reachable (the run_staffed).
Proof.
  apply (send_reachable run_manned (CmdSetPrimaryAgent 10)); [|by vm_compute].
  apply (send_reachable run_created (CmdRegisterAgentSession sample_agent)); [|by vm_compute].
  apply (execute_reachable 600 (fun n => 700 + n) 1 0%Z None create_envelope); [done|by vm_compute].
Qed.

Lemma run_renamed_reachable : reachable (the run_renamed).
Proof.
  apply (send_reachable run_shelled (CmdRenameTask (lit "Fixed"))); [|by vm_compute].
  apply (send_reachable run_staffed (CmdOpenShellTerminal sample_shell)); [|by vm_compute].
  apply run_staffed_reachable.
Qed.

Lemma run_archived_reachable : reachable (the run_archived).
Proof.
  apply (observe_reachable (send run_freed CmdBeginCloseTask) (Some 9) EvTaskArchived);
    [|done|by vm_compute].
  apply (send_reachable run_freed CmdBeginCloseTask); [|by vm_compute].
  apply (observe_reachable (send run_renamed (CmdCloseTerminal 30)) (Some 7)
           (EvResourceReleased 30 0)); [|done|by vm_compute].
  apply (send_reachable run_renamed (CmdCloseTerminal 30)); [|by vm_compute].
  apply run_renamed_reachable.
Qed.

Lemma reachable_crew_witness :
  count (List.filter is_open (values (sn_agents (the run_renamed)))) <= 2.
Proof. apply (reachable_crew _ run_renamed_reachable). Defined.

Lemma reachable_strip_witness :
  list_to_set (st_order (sn_terminal_strip (the run_renamed)))
  = occupied_plain_shell_ids (the run_renamed).
Proof. apply (reachable_strip _ run_renamed_reachable). Defined.

Lemma reachable_archived_witness : sn_terminal_facts (the run_archived) = ∅.
Proof.
  apply (reachable_archived (the run_archived) run_archived_reachable). left. by vm_compute.
Defined.

Definition close_command : CommandEnvelope := sample_envelope 5 (CmdCloseTerminal 30).

Lemma decide_requires_current_revision_witness :
  ce_expected_task_revision close_command = Some (tf_revision (sn_task (the run_renamed))).
Proof.
  pose proof (decide_requires_current_revision 600 (the run_renamed) close_command
                [EvResourceReleaseBegun 30 0] ltac:(by vm_compute)) as (_ & Hrev & _).
  exact Hrev.
Defined.

Lemma second_writer_rejected_witness :
  exists s' code, command_decide 601 (Some s') (sample_envelope 5 (CmdRenameTask (lit "x")))
                  = Err code.
Proof.
  destruct (run (Some (the run_renamed)) [stamped (Some 6) (EvResourceReleaseBegun 30 0)])
    as [[s'|]|] eqn:E; [|vm_compute in E; discriminate..].
  pose proof (second_writer_rejected (the run_renamed) s' 600 601 close_command
    (sample_envelope 5 (CmdRenameTask (lit "x"))) [stamped (Some 6) (EvResourceReleaseBegun 30 0)]
    run_renamed_reachable ltac:(by vm_compute) ltac:(done) E eq_refl) as [code Hc].
  by exists s', code.
Defined.

Lemma receipt_reports_final_revision_witness :
  exists s', tf_revision (sn_task s') = 6.
Proof.
  destruct (run (Some (the run_renamed)) [stamped (Some 6) (EvResourceReleaseBegun 30 0)])
    as [[s'|]|] eqn:E; [|vm_compute in E; discriminate..].
  exists s'. destruct (commit_decision (fun n => n) 10 (Some 1) 5%Z (Some (the run_renamed))
    [EvResourceReleaseBegun 30 0]) as [[evs final]|] eqn:Ec; [|vm_compute in Ec; discriminate].
  destruct (receipt_reports_final_revision 600 (fun n => n) 10 5%Z (the run_renamed) close_command
    [EvResourceReleaseBegun 30 0] evs [stamped (Some 6) (EvResourceReleaseBegun 30 0)] final s'
    run_renamed_reachable ltac:(by vm_compute) Ec eq_refl E) as (_ & _ & Hrev).
  rewrite Hrev. by vm_compute.
Defined.
