(* ===== verification/Effects.v ===== *)
(** The planner against the decision: every accepted decision can be planned,
    into no effect or exactly one, and the effect repeats the identities of the
    event that asked for it. *)
From S2P Require Import Prelude Canonical Task Agent Resource Artifact ProviderInput Browser Operation Snapshot Event NativeBrowser Command Sample Invariant WellFormed Sessions Outbox Kernel Decision Reachable.

(** How an effect may be retried after a crash, by what it touches. *)
Definition policy_of (d : DestinationClass) : ReplayPolicy :=
  match d with
  | TaskTeardown => RetrySafe
  | ResourceRelease => ReconcileBeforeRetry
  | ProviderInput | BrowserHost => NoAutomaticRetry
  end.

(** The epoch an effect is fenced with: closing raises it, nothing else does. *)
Definition fence_epoch (epoch : N) (e : Event) : N :=
  match e with EvTaskCloseBegun _ => epoch + 1 | _ => epoch end.

(** The effect an event asks for, in the scope of a task. *)
Definition effect_of (task : TaskId) (epoch : N) (e : Event) : option Effect :=
  match e with
  | EvTaskCloseBegun new_epoch => Some (BeginTaskTeardown task new_epoch)
  | EvResourceReleaseBegun r g =>
      Some (ReleaseResource task epoch {| rfe_resource_id := r; rfe_runtime_generation := g |})
  | EvProviderInputAccepted c cl op a k ps g t ep q ap action wait _ =>
      Some (DeliverProviderInput task op c cl a k ps g ep t q ap action wait)
  | EvBrowser (FactRequestAccepted rid _ ctx _ g action _ _ _ ep _) =>
      if requires_host_settlement action
      then Some (HoldBrowserHost task ep rid ctx g WebViewSurfaceAbsent) else None
  | _ => None
  end.

(** An effect document that says what its event says. *)
Definition planned_for (s : TaskSnapshot) (e : Event) (p : PlannedEffect) : Prop :=
  let epoch := tf_action_epoch (sn_task s) in
  effect_of (tf_id (sn_task s)) epoch e = Some (pd_effect (pe_document p))
  /\ pd_destination_class (pe_document p) = destination_class (pd_effect (pe_document p))
  /\ pd_replay_policy (pe_document p) = policy_of (pd_destination_class (pe_document p))
  /\ opf_action_epoch (pe_fence p) = Some (fence_epoch epoch e).

Section Effects.
Context `{Sha256} `{UrlParser} `{BrowserWire} `{HostPayloads} `{SpecialistJson}.

Lemma plan_fact_pure snapshot task e :
  is_pure_slice_decision_fact e = true -> plan_fact snapshot task e = Ok None.
Proof.
  destruct e; try done. match goal with f : BrowserDurableFact |- _ => destruct f; try done end.
  cbn. by intros ->%negb_true_iff.
Qed.

Lemma plan_loop_pure snapshot task d : forall planned effects pure,
  Forall (fun e => is_pure_slice_decision_fact e = true) d ->
  plan_loop snapshot task d planned effects pure = Ok (planned, effects, pure + count d).
Proof.
  induction d as [|e d IH]; intros planned effects pure Hd; cbn [plan_loop].
  - by rewrite count_nil, N.add_0_r.
  - apply Forall_cons in Hd as [He Hd]. rewrite (plan_fact_pure _ _ _ He). cbn [rbind].
    rewrite (IH _ _ _ Hd), count_cons. by rewrite <- N.add_assoc.
Qed.

Lemma plan_effects_pure snapshot task d :
  Forall (fun e => is_pure_slice_decision_fact e = true) d -> plan_effects snapshot task d = Ok [].
Proof. intros Hd. unfold plan_effects. by rewrite (plan_loop_pure _ _ _ _ _ _ Hd). Qed.

Lemma plan_effects_one snapshot task e p :
  plan_fact snapshot task e = Ok (Some p) -> plan_effects snapshot task [e] = Ok [p].
Proof. intros He. unfold plan_effects. cbn [plan_loop]. by rewrite He. Qed.

(** *** What admission plans *)

(** A planned identity fact: no request, of the request's task. *)
Definition identity_of (r : BrowserRequest) (f : BrowserDurableFact) : Prop :=
  is_request_accepted f = false /\ fact_task_id f = br_task_id r.

Lemma identity_plain r fs :
  Forall (identity_of r) fs -> Forall (fun f => is_request_accepted f = false) fs.
Proof. intros Hf. eapply Forall_impl; [exact Hf|]. by intros f [? _]. Qed.

Lemma plan_admit_facts b r acc :
  receipts_ok b -> plan_admit b r = Ok acc ->
  exists rid ctx tab privacy perm hash epoch command identity,
    ba_facts acc = FactRequestAccepted rid (br_task_id r) ctx tab (br_generation r)
                     (br_action r) privacy perm hash epoch command :: identity
    /\ br_generation r <> 0
    /\ Forall (identity_of r) identity
    /\ (requires_host_settlement (br_action r) = true -> identity = []).
Proof.
  intros Hr Hp. destruct (bk_receipts b !! br_request_id r) as [prior|] eqn:E.
  - unfold plan_admit in Hp. rewrite E in Hp. peel Hp. subst acc.
    destruct (Hr _ _ E) as (Hf & Hg & Ht & Hge & Ha). apply eqb_true_1 in G0.
    unfold replayed_receipt. rewrite Hf. cbn. rewrite Ht, Hge, Ha, <- G0.
    by do 8 eexists; exists [].
  - unfold plan_admit in Hp. rewrite E in Hp. peel Hp. subst acc. facts. cbn.
    match goal with G : plan_identity_facts _ _ = Ok _ |- _ =>
      apply plan_identity_shape in G as [Hi Hs] end.
    by do 9 eexists.
Qed.

Lemma plan_bound_task b r acc command epoch :
  receipts_ok b -> plan_admit b r = Ok acc ->
  Forall (fun f => fact_task_id f = br_task_id r) (ba_facts (bind_command acc command epoch)).
Proof.
  intros Hr Hp. destruct (plan_admit_facts _ _ _ Hr Hp)
    as (rid & ctx & tab & privacy & perm & hash & ep & cmd & identity & Hf & _ & Hi & _).
  unfold bind_command. cbn [ba_facts]. rewrite Hf. cbn [map bind_fact].
  rewrite (bind_identity _ _ _ (identity_plain _ _ Hi)). constructor; [done|].
  eapply Forall_impl; [exact Hi|]. by intros f [_ ?].
Qed.

Lemma identity_pure fs :
  Forall (fun f => is_request_accepted f = false) fs ->
  Forall (fun e => is_pure_slice_decision_fact e = true) (map EvBrowser fs).
Proof. intros Hf. apply Forall_map. eapply Forall_impl; [exact Hf|]. by intros []. Qed.

(** A request bound to its command: pure as a whole, or one hold alone. *)
Lemma plan_bound_request s b r acc command :
  receipts_ok b -> br_task_id r = tf_id (sn_task s) -> plan_admit b r = Ok acc ->
  let d := map EvBrowser (ba_facts (bind_command acc command (tf_action_epoch (sn_task s)))) in
  Forall (fun e => is_pure_slice_decision_fact e = true) d
  \/ (requires_host_settlement (br_action r) = true
      /\ exists e p, d = [e] /\ is_side_effect_decision_fact e = true
          /\ plan_fact (Some s) (tf_id (sn_task s)) e = Ok (Some p) /\ planned_for s e p).
Proof.
  intros Hr Ht Hp.
  destruct (plan_admit_facts _ _ _ Hr Hp)
    as (rid & ctx & tab & privacy & perm & hash & epoch & cmd & identity & Hf & Hg & Hi & Hs).
  unfold bind_command. cbn [ba_facts]. rewrite Hf. cbn [map bind_fact].
  rewrite (bind_identity _ _ _ (identity_plain _ _ Hi)).
  destruct (requires_host_settlement (br_action r)) eqn:Ea; [right|left].
  - split; [done|]. rewrite (Hs eq_refl). do 2 eexists. split; [done|]. split; [done|].
    split.
    + cbn. rewrite Ea. unfold plan_hold. rewrite Ht, N.eqb_refl. apply N.eqb_neq in Hg.
      rewrite Hg. reflexivity.
    + unfold planned_for. cbn. by rewrite Ea.
  - constructor; [cbn; by rewrite Ea|]. by eapply identity_pure, identity_plain.
Qed.

Lemma open_step_pure s command b r b' es :
  receipts_ok b -> br_task_id r = tf_id (sn_task s) ->
  requires_host_settlement (br_action r) = false -> open_step s command b r = Ok (b', es) ->
  receipts_ok b' /\ Forall (fun e => is_pure_slice_decision_fact e = true) es.
Proof.
  intros Hr Ht Ha Ho. pose proof Ho as Hok. apply open_step_shape in Hok as [? _]; [|done].
  split; [done|]. unfold open_step in Ho. peel Ho. simplify_eq.
  destruct (plan_bound_request s b r _ command Hr Ht G) as [?|[? _]]; [done|congruence].
Qed.

Lemma decide_open_pure s command intent d :
  receipts_ok (sn_browser s) -> decide_open s command intent = Ok d ->
  Forall (fun e => is_pure_slice_decision_fact e = true) d.
Proof.
  intros Hr Ho. unfold decide_open in Ho. peel Ho. subst d.
  match goal with G : open_step _ _ (sn_browser s) _ = Ok _ |- _ =>
    apply open_step_pure in G as (Hr' & ?); [|done..] end.
  match goal with G : open_step _ _ _ _ = Ok _ |- _ =>
    apply open_step_pure in G as (_ & ?); [|done..] end.
  rewrite !Forall_app. split_and!; [done..|]. by repeat constructor.
Qed.

(** *** Planning each kind of effect *)

Definition plannable (s : TaskSnapshot) (d : list Event) : Prop :=
  Forall (fun e => is_pure_slice_decision_fact e = true) d
  \/ exists e p, d = [e] /\ is_side_effect_decision_fact e = true
       /\ plan_fact (Some s) (tf_id (sn_task s)) e = Ok (Some p) /\ planned_for s e p.

Lemma scoped_self s : scoped (Some s) (tf_id (sn_task s)) = Ok s.
Proof. unfold scoped. cbn. by rewrite N.eqb_refl. Qed.

Lemma plannable_teardown s epoch :
  tf_lifecycle (sn_task s) = TaskOpen \/ tf_lifecycle (sn_task s) = TaskSettledL ->
  checked_add (tf_action_epoch (sn_task s)) 1 = Some epoch -> plannable s [EvTaskCloseBegun epoch].
Proof.
  intros Hl He. right. do 2 eexists. split; [done|]. split; [done|]. split.
  - cbn [plan_fact]. unfold plan_teardown. rewrite scoped_self. cbn [rbind].
    replace ((_ =?= TaskOpen) || (_ =?= TaskSettledL)) with true
      by (by destruct Hl as [-> | ->]).
    cbn [guard rbind]. rewrite He. cbn [ok_or rbind guard]. rewrite N.eqb_refl. reflexivity.
  - unfold planned_for. cbn. split_and!; [done..|]. unfold checked_add in He. by case_match; simplify_eq.
Qed.

Lemma plannable_release s id r :
  sn_resources s !! id = Some r -> rf_owner_kind r = OwnerTask ->
  rf_task_id r = Some (tf_id (sn_task s)) -> rf_lifecycle r = ResActive ->
  plannable s [EvResourceReleaseBegun id (rf_runtime_generation r)].
Proof.
  intros Hr Ho Ht Hl. right. do 2 eexists. split; [done|]. split; [done|]. split.
  - cbn [plan_fact]. unfold plan_release. rewrite scoped_self. cbn [rbind]. rewrite Hr. cbn [ok_or rbind].
    rewrite Ho, Ht, Hl, !eqb_refl, N.eqb_refl. reflexivity.
  - by unfold planned_for.
Qed.

Lemma plannable_delivery s c cl op id a g t q ap action wait h :
  sn_agents s !! id = Some a -> ag_runtime_generation a = g ->
  plannable s [EvProviderInputAccepted c cl op id (ag_provider_kind a) (ag_provider_session_id a) g t
                 (tf_action_epoch (sn_task s)) q ap action wait h].
Proof.
  intros Ha <-. right. do 2 eexists. split; [done|]. split; [done|]. split.
  - cbn [plan_fact]. unfold plan_delivery. rewrite scoped_self. cbn. rewrite Ha. cbn.
    rewrite !eqb_refl, N.eqb_refl. reflexivity.
  - by unfold planned_for.
Qed.

Lemma input_provider_session_Ok a p :
  input_provider_session a = Ok p -> p = ag_provider_session_id a.
Proof. unfold input_provider_session. intros Hp. peel Hp; congruence. Qed.

Lemma decide_plannable fresh s env d :
  sys_inv s -> command_decide fresh (Some s) env = Ok d -> plannable s d.
Proof.
  intros I Hd. pose proof (si_receipts _ I) as R.
  unfold command_decide in Hd. destruct (ce_command env) eqn:Ec; decided Hd; preamble;
    try discriminate.
  all: match goal with G : addressed _ _ ?x |- _ =>
         pose proof (addressed_same _ _ _ G) as -> end.
  all: try (left; by eapply decide_open_pure).
  all: subst d.
  all: try (left; by repeat constructor).
  all: facts; unfold require_task_plain_shell in *.
  all: try match goal with G : rbind (ok_or _ _) _ = Ok _ |- _ => peel G; facts; subst end.
  all: try (by eapply plannable_release).
  all: try (apply plannable_teardown; [tauto|done]).
  - match goal with G : input_provider_session _ = Ok _ |- _ =>
      apply input_provider_session_Ok in G as -> end.
    match goal with G : tf_action_epoch _ = _ |- _ => rewrite <- G end.
    by apply plannable_delivery.
  - match goal with G : plan_admit _ _ = Ok _ |- _ =>
      destruct (plan_bound_request s _ _ _ (ce_command_id env) R ltac:(done) G) as [?|[_ ?]] end;
      [by left|by right].
Qed.

(** ** Properties *)

(** C3: every decision accepted on a reachable task can be planned: either all
    its events are pure and no effect is planned, or it is one event and one
    effect, of the class and retry policy of that event, repeating its
    identities in the task's scope and fenced with the action epoch the event
    leaves the task at.  Provider input and browser actions are never retried
    by themselves. *)
Theorem accepted_decision_planned (fresh : OperationId) (s : TaskSnapshot)
    (env : CommandEnvelope) (d : list Event) (Hs : reachable s)
    (Hd : command_decide fresh (Some s) env = Ok d) :
  (Forall (fun e => is_pure_slice_decision_fact e = true) d
   /\ plan_effects (Some s) (tf_id (sn_task s)) d = Ok [])
  \/ exists e p, d = [e] /\ is_side_effect_decision_fact e = true
       /\ plan_effects (Some s) (tf_id (sn_task s)) d = Ok [p]
       /\ effect_of (tf_id (sn_task s)) (tf_action_epoch (sn_task s)) e
          = Some (pd_effect (pe_document p))
       /\ pe_document p = document_new (pd_effect (pe_document p))
                            (policy_of (destination_class (pd_effect (pe_document p))))
       /\ opf_action_epoch (pe_fence p) = Some (fence_epoch (tf_action_epoch (sn_task s)) e).
Proof.
  destruct (decide_plannable _ _ _ _ (reachable_inv _ Hs) Hd)
    as [Hp|(e & p & -> & He & Hp & Hf & Hc & Hpol & Hep)].
  - left. split; [done|]. by apply plan_effects_pure.
  - right. exists e, p. split_and!; try done; [by apply plan_effects_one|].
    rewrite Hc in Hpol. unfold plan_fact in Hp. destruct e; peel Hp; simplify_eq.
    all: repeat match goal with G : plan_teardown _ _ _ = Ok _ |- _ => unfold plan_teardown in G
         | G : plan_release _ _ _ _ = Ok _ |- _ => unfold plan_release in G
         | G : plan_delivery _ _ _ _ _ = Ok _ |- _ => unfold plan_delivery in G
         | G : plan_hold _ _ _ _ _ _ = Ok _ |- _ => unfold plan_hold in G end.
    all: match goal with G : rbind _ _ = Ok ?x |- _ => peel G; by subst x end.
Qed.
End Effects.

#[local] Existing Instance toy_sha.
#[local] Existing Instance toy_urls.
#[local] Existing Instance toy_wire.
#[local] Existing Instance toy_json.
#[local] Existing Instance toy_host.

Lemma accepted_decision_planned_witness :
  exists p, plan_effects (Some (the run_renamed)) 1 [EvResourceReleaseBegun 30 0] = Ok [p].
Proof.
  pose proof (accepted_decision_planned 600 (the run_renamed) close_command
                [EvResourceReleaseBegun 30 0] run_renamed_reachable ltac:(by vm_compute))
    as [[Hp _]|(e & p & _ & _ & Hp & _)].
  - by apply Forall_cons in Hp as [? _].
  - by exists p.
Defined.
