(* ===== verification/Agreement.v ===== *)
(** Decision and projection agree: what [decide] accepts on a reachable task,
    [apply] does not refuse, except where the two check different things; those
    places are named by [room_for]. *)
From S2P Require Import Prelude Canonical Task Agent Resource Artifact ProviderInput Browser Operation Snapshot Event NativeBrowser Command Sample Invariant WellFormed Sessions Outbox Kernel Decision Reachable Effects.

Section Agreement.
Context `{Sha256} `{UrlParser} `{BrowserWire} `{HostPayloads} `{SpecialistJson}.

Lemma canonicalize_title_idem t t' :
  canonicalize_title t = Ok t' -> canonicalize_title t' = Ok t'.
Proof.
  unfold canonicalize_title. intros Ht%ok_or_Ok%canonicalize_Some.
  destruct Ht as [-> Hne]. rewrite (proj2 (canonicalize_Some (trim t) (trim t))); [done|].
  by rewrite trim_idem.
Qed.

(** ** One event at a time *)

Lemma prog_settled s at_ms :
  tf_lifecycle (sn_task s) = TaskOpen -> succeeds (apply_into s EvTaskSettled at_ms).
Proof. intros. cbn [apply_into]. unfold refusing, apply_settled. build. Qed.

Lemma prog_deleted s at_ms :
  tf_lifecycle (sn_task s) = TaskArchivedL -> succeeds (apply_into s EvTaskDeleted at_ms).
Proof. intros. cbn [apply_into]. unfold refusing, apply_deleted. build. Qed.

Lemma prog_renamed s title title' at_ms :
  canonicalize_title title = Ok title' -> succeeds (apply_into s (EvTaskRenamed title') at_ms).
Proof.
  intros Ht%canonicalize_title_idem. cbn [apply_into]. unfold refusing, apply_task_renamed, or_invalid.
  build.
Qed.

Lemma releasable_Ok s id r g from :
  sn_resources s !! id = Some r -> rf_owner_kind r = OwnerTask ->
  rf_task_id r = Some (tf_id (sn_task s)) -> rf_lifecycle r = from ->
  rf_runtime_generation r = g -> releasable s id g from = Ok r.
Proof.
  unfold releasable. intros -> Ho Ht <- <-. cbn [ok_or rbind].
  by rewrite Ho, Ht, !eqb_refl, N.eqb_refl.
Qed.

Lemma prog_release s id r at_ms :
  sn_resources s !! id = Some r -> rf_owner_kind r = OwnerTask ->
  rf_task_id r = Some (tf_id (sn_task s)) -> rf_lifecycle r = ResActive ->
  succeeds (apply_into s (EvResourceReleaseBegun id (rf_runtime_generation r)) at_ms).
Proof.
  intros. cbn [apply_into]. unfold refusing, apply_release_begun.
  apply succeeds_map_err. eapply succeeds_bind; [by apply releasable_Ok|apply succeeds_Ok].
Qed.

Lemma prog_agent s a at_ms :
  ag_task_id a = tf_id (sn_task s) -> is_ok (agent_validate_for_registration a) = true ->
  sn_agents s !! ag_id a = None -> is_specialist (ag_role a) = false ->
  succeeds (apply_into s (EvAgentSessionRegistered a) at_ms).
Proof.
  intros Ht Hv Hn Hs. cbn [apply_into]. unfold refusing, apply_agent_registered, or_invalid.
  destruct (agent_validate_for_registration a) as [[]|] eqn:E; [|done].
  apply succeeds_map_err. build.
Qed.

Lemma prog_bound s id a rid r p binding at_ms :
  sn_agents s !! id = Some a -> ag_lifecycle a = AgentOpen ->
  sn_resources s !! rid = Some r -> from_facts a r = Ok binding ->
  ag_provider_session_id a = None ->
  succeeds (apply_into s (EvAgentProviderSessionBound id rid p (ag_runtime_generation a)) at_ms).
Proof.
  intros Ha Hl Hr Hf Hp. cbn [apply_into]. unfold refusing, apply_provider_bound, or_invalid.
  build. rewrite Hp. apply succeeds_Ok.
Qed.

Lemma prog_abandoned s id a p at_ms :
  sn_agents s !! id = Some a -> ag_lifecycle a = AgentOpen -> ag_provider_session_id a = Some p ->
  succeeds (apply_into s (EvAgentProviderSessionAbandoned id p (ag_runtime_generation a)) at_ms).
Proof.
  intros Ha Hl Hp. cbn [apply_into]. unfold refusing, apply_provider_abandoned.
  build. rewrite Hp, eqb_refl. apply succeeds_Ok.
Qed.

Lemma prog_primary s id a at_ms :
  sn_agents s !! id = Some a -> is_specialist (ag_role a) = false ->
  succeeds (apply_into s (EvPrimaryAgentSet id) at_ms).
Proof. intros. cbn [apply_into]. unfold refusing, apply_primary_set. build. Qed.

Lemma prog_rebound s id a k at_ms :
  is_unstarted_draft s = true -> sn_primary_agent_id s = Some id -> sn_agents s !! id = Some a ->
  is_specialist (ag_role a) = false -> ag_lifecycle a = AgentOpen ->
  ag_provider_session_id a = None ->
  succeeds (apply_into s (EvUnstartedPrimaryProviderRebound id k) at_ms).
Proof.
  intros. cbn [apply_into]. unfold refusing, apply_unstarted_rebound.
  assert (is_some (ag_provider_session_id a) = false) by (by destruct (ag_provider_session_id a)).
  build.
Qed.

Lemma prog_artifact s a at_ms :
  af_task_id a = tf_id (sn_task s) -> is_ok (artifact_validate a) = true ->
  sn_artifacts s !! af_id a = None -> succeeds (apply_into s (EvArtifactRegistered a) at_ms).
Proof.
  intros Ht Hv Hn. cbn [apply_into]. unfold refusing, apply_artifact_registered, or_invalid.
  destruct (artifact_validate a) as [[]|] eqn:E; [|done]. build.
Qed.

Lemma prog_resource s r at_ms :
  rf_owner_kind r = OwnerTask -> rf_task_id r = Some (tf_id (sn_task s)) ->
  resource_validate r = Ok tt -> rf_lifecycle r = ResActive ->
  sn_resources s !! rf_id r = None ->
  (is_plain_shell (rf_recipe r) = true ->
   count (st_order (sn_terminal_strip s)) < MAX_PLAIN_SHELLS_PER_TASK) ->
  succeeds (apply_into s (EvResourceRegistered r) at_ms).
Proof.
  intros Ho Ht Hv Hl Hn Hc. cbn [apply_into]. unfold refusing, apply_resource_registered, or_invalid.
  build.
  apply succeeds_guard; [|build]. destruct (is_plain_shell (rf_recipe r)); [|done].
  cbn. apply negb_true_iff, N.leb_gt. by apply Hc.
Qed.

Lemma prog_terminal_renamed s id r title at_ms :
  snapshot_wf s -> sn_resources s !! id = Some r -> occupies r ->
  validate_terminal_title title = Ok tt ->
  succeeds (apply_into s (EvTerminalRenamed id title) at_ms).
Proof.
  intros W Hr (Hk & Hp & Hl) Hv. cbn [apply_into].
  destruct (proj2 (proj2 (wf_terminals _ W) id)) as [t Ht]; [by exists r|].
  unfold refusing, apply_terminal_renamed, or_invalid. build.
Qed.

Lemma prog_strip s strip at_ms :
  strip_validate strip (tf_id (sn_task s)) (sn_resources s) = Ok tt ->
  succeeds (apply_into s (EvTaskTerminalStripSet strip) at_ms).
Proof. intros. cbn [apply_into]. unfold refusing, apply_strip_set. build. Qed.

(** *** Specialists *)

Lemma prog_specialist s sp by_ purpose a ws epoch g rid req at_ms :
  sn_agents s !! by_ = Some req -> ag_lifecycle req = AgentOpen ->
  is_specialist (ag_role req) = false -> sn_primary_agent_id s = Some by_ ->
  ag_runtime_generation req = g -> ag_id a = sp -> ag_task_id a = tf_id (sn_task s) ->
  is_bounded_canonical purpose = true -> is_specialist (ag_role a) = true ->
  epoch = tf_action_epoch (sn_task s) -> ag_runtime_generation a = g -> ag_id a <> by_ ->
  is_ok (ws_validate ws) = true -> top_level_runtime_count s < DEFAULT_MAX_TOP_LEVEL_RUNTIMES ->
  specialist_resource_ok s rid g = Ok tt -> is_ok (agent_validate_for_registration a) = true ->
  sn_agents s !! ag_id a = None ->
  succeeds (apply_into s (EvSpecialistRequested sp by_ purpose a ReadOnly ws epoch g rid) at_ms).
Proof.
  intros Hreq Hl Hs Hp Hg <- Ht Hpu Hsp -> Hga Hne Hw Hc Hr Hv Hn. cbn [apply_into].
  unfold refusing, apply_specialist_requested, or_invalid.
  assert (specialist_requester_ok s by_ g = Ok tt) as Hrq.
  { apply specialist_requester_Ok. split; [done|]. by exists req. }
  destruct (ws_validate ws) as [[]|]; [|done].
  destruct (agent_validate_for_registration a) as [[]|]; [|done].
  build.
Qed.

Lemma prog_promoted s p a q b epoch at_ms :
  sn_agents s !! p = Some a -> sn_agents s !! q = Some b -> sn_primary_agent_id s = Some p ->
  is_specialist (ag_role a) = false -> is_specialist (ag_role b) = true ->
  ag_lifecycle a = AgentOpen -> ag_lifecycle b = AgentOpen ->
  ag_runtime_generation a = ag_runtime_generation b -> epoch = tf_action_epoch (sn_task s) ->
  succeeds (apply_into s (EvPrimaryPromoted p q epoch (ag_runtime_generation b)) at_ms).
Proof.
  intros Ha Hb Hp Sa Sb La Lb Hg ->. assert (p <> q) by congruence.
  cbn [apply_into]. unfold refusing, apply_primary_promoted, or_invalid.
  build. eapply succeeds_ok_or; [cbn; rewrite lookup_insert_ne by done; exact Hb|]. build.
Qed.

Lemma live_specialist_intro s id a g :
  sn_agents s !! id = Some a -> is_specialist (ag_role a) = true -> ag_lifecycle a = AgentOpen ->
  ag_runtime_generation a = g -> live_specialist s id g = Ok a.
Proof.
  unfold live_specialist. intros -> Hs Hl <-. cbn [ok_or rbind].
  by rewrite Hs, Hl, !eqb_refl, N.eqb_refl.
Qed.

Lemma prog_specialist_closed s id a epoch at_ms :
  sn_agents s !! id = Some a -> is_specialist (ag_role a) = true -> ag_lifecycle a = AgentOpen ->
  epoch = tf_action_epoch (sn_task s) ->
  succeeds (apply_into s (EvSpecialistClosed id epoch (ag_runtime_generation a)) at_ms).
Proof.
  intros Ha Hs Hl ->. cbn [apply_into]. unfold refusing, apply_specialist_closed.
  pose proof (live_specialist_intro s id a _ Ha Hs Hl eq_refl). build.
Qed.

Lemma prog_handoff s id a artifact body epoch at_ms :
  sn_agents s !! id = Some a -> is_specialist (ag_role a) = true -> ag_lifecycle a = AgentOpen ->
  epoch = tf_action_epoch (sn_task s) -> af_task_id artifact = tf_id (sn_task s) ->
  af_kind artifact = ReviewReport -> af_content_ref artifact = InlineUtf8 body ->
  len body <= MAX_SPECIALIST_RAW_ARTIFACT_BYTES -> artifact_validate artifact = Ok tt ->
  verify_inline_content_digest artifact = Ok tt -> sn_artifacts s !! af_id artifact = None ->
  succeeds (apply_into s
    (EvSpecialistHandoffRecorded id artifact false epoch (ag_runtime_generation a)) at_ms).
Proof.
  intros Ha Hs Hl -> Ht Hk Hc Hb Hv Hd Hn. cbn [apply_into].
  unfold refusing, apply_handoff_recorded.
  pose proof (live_specialist_intro s id a _ Ha Hs Hl eq_refl).
  assert (handoff_artifact_ok s artifact false (tf_action_epoch (sn_task s)) = Ok tt).
  { unfold handoff_artifact_ok, or_invalid. rewrite Ht, Hk, Hc, Hv, Hd, !N.eqb_refl, eqb_refl.
    apply N.ltb_ge in Hb. by rewrite Hb. }
  build.
Qed.

(** *** Provider input *)

Lemma snapshot_fence_absorbed s id a fence action wait turn closing :
  sn_agents s !! id = Some a -> ag_task_id a = tf_id (sn_task s) ->
  fi_task_id fence = Some (tf_id (sn_task s)) -> fi_agent_session_id fence = id ->
  fi_provider_kind fence = Some (ag_provider_kind a) ->
  fi_provider_session_id fence = ag_provider_session_id a ->
  fi_runtime_generation fence = ag_runtime_generation a ->
  fi_action_epoch fence = tf_action_epoch (sn_task s) ->
  agent_live (ag_lifecycle a) closing = true ->
  is_none_or turn (fun t => fi_turn_id fence =? t) = true ->
  validate_provider_fence fence action wait None = Ok tt ->
  validate_snapshot_provider_fence s id fence action wait turn closing = Ok tt.
Proof.
  intros Ha Hat Ht Hid Hk Hs Hg He Hl Htu Hv. unfold validate_snapshot_provider_fence, or_invalid.
  rewrite Ha. cbn [ok_or rbind]. unfold validate_provider_fence in Hv |- *.
  rewrite Hk in Hv |- *. cbn [ok_or rbind] in Hv |- *.
  do 4 (apply rbind_Ok in Hv as ([] & G & Hv); rewrite G; cbn [rbind]; clear G).
  unfold validate_fence_context. cbn. rewrite Ht, Hid, Hs, Hat, Hg, He, Hl, Htu.
  rewrite !eqb_refl, !N.eqb_refl. apply rbind_Ok in Hv as ([] & G & _). by rewrite G.
Qed.

(** Room among the recorded winners for the one an answer or approval adds. *)
Definition winners_room (p : ProviderSessionProjection) (action : ProviderInputAction) : Prop :=
  match action with
  | AnswerQuestion _ _ => msize (ps_question_winners p) < MAX_PROVIDER_QUESTION_WINS
  | ResolveApproval _ _ => msize (ps_approval_winners p) < MAX_PROVIDER_APPROVAL_WINS
  | _ => True
  end.

Lemma record_winner_succeeds p action w :
  winners_room p action ->
  exists p', record_winner p action w = Ok p' /\ ps_waits p' = ps_waits p.
Proof.
  destruct action; cbn; try (by eexists);
    unfold or_invalid, bounded_insert_question_winner, bounded_insert_approval_winner;
    intros ->%N.leb_gt; rewrite andb_false_r; by eexists.
Qed.

Lemma action_admissible_unresolved p turn action :
  action_admissible p turn action = Ok tt -> check_unresolved p action = Ok tt.
Proof.
  destruct action; cbn [action_admissible check_unresolved]; intros Ha; try done;
    peel Ha; by rewrite G, G0.
Qed.

Lemma action_admissible_turn s i p action :
  p = session_or_default s (ii_agent_session_id i) ->
  action_admissible p (ii_turn_id i) action = Ok tt ->
  is_none_or (accepted_turn s i action) (fun t => ii_turn_id i =? t) = true.
Proof.
  unfold session_or_default, accepted_turn.
  destruct (sn_provider_sessions s !! ii_agent_session_id i) as [q|]; [|done]. intros ->.
  destruct action; cbn [action_admissible is_send_now andb]; intros Ha; peel Ha; facts;
    try (by match goal with G : ps_current_turn q = _ |- _ => rewrite G; cbn; apply N.eqb_refl end).
  - by rewrite G.
  - destruct (ps_current_turn q) as [t|]; [|done]. cbn in G |- *. 
    apply negb_false_iff, N.eqb_eq in G. subst. apply N.eqb_refl.
Qed.

Lemma nested_ids_exclusive action q ap :
  validate_action_nested_ids action q ap = Ok tt -> q = None \/ ap = None.
Proof.
  destruct action, q, ap; cbn [validate_action_nested_ids]; intros Hv; try tauto; exfalso;
    peel Hv; facts; done.
Qed.

Lemma submit_fence_Ok s i action :
  validate_action_nested_ids action (ii_question_id i) (ii_approval_id i) = Ok tt ->
  ii_provider_session_id i <> None \/ ii_provider_kind i = Codex ->
  validate_provider_fence (input_fence s i) (Some action) (Some (waits_for_turn action)) None
  = Ok tt.
Proof.
  intros Hv Hs. unfold validate_provider_fence, input_fence, fence_with_identity. cbn -[guard].
  assert (is_none (ii_provider_session_id i) && negb (ii_provider_kind i =?= Codex) = false) as ->.
  { destruct (ii_provider_session_id i); [done|]. destruct Hs as [| ->]; done. }
  assert (is_some (ii_question_id i) && is_some (ii_approval_id i) = false) as ->.
  { destruct (nested_ids_exclusive _ _ _ Hv) as [-> | ->]; [done|by rewrite andb_comm]. }
  rewrite Hv. cbn. by rewrite eqb_refl.
Qed.

Lemma wait_room_succeeds s i p c :
  is_some (ps_waits p !! c) = true
  \/ count (pending_waits (ps_waits p)) < MAX_PROVIDER_WAITS ->
  exists p', bounded_insert_wait p c (wait_record_of s i) = Ok p'.
Proof.
  intros [Hc|Hp]; [|by apply bounded_insert_wait_progress].
  unfold bounded_insert_wait. destruct (ps_waits p !! c); [by eexists|done].
Qed.

Lemma prog_input s c cl op id a g t epoch q ap action at_ms :
  sn_agents s !! id = Some a -> ag_task_id a = tf_id (sn_task s) -> ag_lifecycle a = AgentOpen ->
  ag_runtime_generation a = g -> epoch = tf_action_epoch (sn_task s) ->
  input_provider_session a = Ok (ag_provider_session_id a) ->
  validate_action_nested_ids action q ap = Ok tt ->
  action_admissible (session_or_default s id) t action = Ok tt ->
  (waits_for_turn action = true ->
   is_some (ps_waits (session_or_default s id) !! c) = true
   \/ count (pending_waits (ps_waits (session_or_default s id))) < MAX_PROVIDER_WAITS) ->
  winners_room (session_or_default s id) action ->
  succeeds (apply_into s
    (EvProviderInputAccepted c cl op id (ag_provider_kind a) (ag_provider_session_id a) g t epoch
       q ap action (waits_for_turn action) hold_until_destination_adapter) at_ms).
Proof.
  intros Ha Ht Hl <- -> Hps Hn Had Hw Hroom. cbn [apply_into]. unfold refusing, apply_input_accepted.
  set (i := {| ii_command_id := c |}). cbn [ii_agent_session_id i].
  apply succeeds_map_err. apply succeeds_guard; [done|].
  assert (validate_snapshot_provider_fence s id (input_fence s i) (Some action)
            (Some (waits_for_turn action)) (accepted_turn s i action) false = Ok tt) as Hf.
  { eapply (snapshot_fence_absorbed s id a); try done; [by rewrite Hl| |].
    - by apply (action_admissible_turn s i (session_or_default s id)).
    - apply submit_fence_Ok; [done|]. cbn. unfold input_provider_session in Hps.
      destruct (ag_provider_kind a), (ag_provider_session_id a); try done; first [by left | by right]. }
  eapply succeeds_bind; [exact Hf|].
  set (s1 := if _ && _ then _ else s).
  replace (session_or_default s1 id) with (session_or_default s id)
    by (subst s1; by case_match).
  eapply succeeds_bind; [by eapply action_admissible_unresolved|].
  set (p1 := with_settlement _ _). 
  destruct (record_winner_succeeds p1 action
    {| win_command_id := c; win_client_id := cl; win_accepted_at_ms := at_ms |})
    as (p2 & Hr & Hw2); [by destruct action|].
  eapply succeeds_bind; [exact Hr|]. destruct (waits_for_turn action); [|build].
  destruct (wait_room_succeeds s1 i p2 c) as [p3 Hp3]; [rewrite Hw2; by apply Hw|].
  unfold or_invalid. eapply succeeds_map_err_bind; [exact Hp3|]. build.
Qed.

Lemma presentable_Ok s id g epoch turn kind session p :
  presentable s id g epoch turn = Ok (kind, session, p) ->
  exists a, sn_agents s !! id = Some a /\ ag_lifecycle a = AgentOpen
    /\ ag_provider_kind a = kind /\ ag_provider_session_id a = Some session
    /\ ag_runtime_generation a = g /\ tf_action_epoch (sn_task s) = epoch
    /\ p = session_or_default s id
    /\ is_none_or (session_turn s id) (fun t => turn =? t) = true.
Proof.
  unfold presentable, require_open_agent. intros Hp. peel Hp. peel G0. simplify_eq. facts.
  eexists. split_and!; try done. unfold session_turn, session_or_default in *.
  destruct (sn_provider_sessions s !! id) as [q|]; [|done]. cbn.
  destruct (ps_current_turn q) as [t|]; [|done]. cbn in *. by rewrite N.eqb_sym.
Qed.

Lemma not_open_None o id : not_open o id = Ok tt -> o = None.
Proof. unfold not_open. intros Hn. by peel Hn. Qed.

Lemma prog_question s id kind session g turn epoch q p at_ms :
  snapshot_wf s -> presentable s id g epoch turn = Ok (kind, session, p) ->
  ps_question_winners p !! q = None -> ps_open_question p = None ->
  succeeds (apply_into s (EvProviderQuestionPresented id kind session g turn epoch q) at_ms).
Proof.
  intros W (a & Ha & Hl & <- & Hs & <- & <- & -> & Ht)%presentable_Ok Hw Ho. cbn [apply_into].
  unfold refusing, apply_question_presented. apply succeeds_map_err.
  eapply succeeds_bind.
  - eapply (snapshot_fence_absorbed s id a); try done; [by destruct (wf_agents _ W _ _ Ha)|by rewrite Hl].
  - rewrite Hw, Ho. build.
Qed.

Lemma prog_approval s id kind session g turn epoch q p at_ms :
  snapshot_wf s -> presentable s id g epoch turn = Ok (kind, session, p) ->
  ps_approval_winners p !! q = None -> ps_open_approval p = None ->
  succeeds (apply_into s (EvProviderApprovalPresented id kind session g turn epoch q) at_ms).
Proof.
  intros W (a & Ha & Hl & <- & Hs & <- & <- & -> & Ht)%presentable_Ok Hw Ho. cbn [apply_into].
  unfold refusing, apply_approval_presented. apply succeeds_map_err.
  eapply succeeds_bind.
  - eapply (snapshot_fence_absorbed s id a); try done; [by destruct (wf_agents _ W _ _ Ha)|by rewrite Hl].
  - rewrite Hw, Ho. build.
Qed.

(** The conversation and the turn a wait was opened in are still the agent's. *)
Definition wait_current (s : TaskSnapshot) (fence : ProviderWaitFence) : Prop :=
  (forall a, sn_agents s !! wf_agent_session_id fence = Some a ->
     Some (ag_provider_kind a) = wf_provider_kind fence
     /\ ag_provider_session_id a = wf_provider_session_id fence)
  /\ is_none_or (session_turn s (wf_agent_session_id fence)) (fun t => wf_turn_id fence =? t) = true.

Lemma prog_wait_settled s fence a p record at_ms :
  snapshot_wf s -> wait_current s fence -> wf_task_id fence = tf_id (sn_task s) ->
  is_ok (validate_provider_fence (fence_identity fence) None None None) = true ->
  sn_agents s !! wf_agent_session_id fence = Some a ->
  ag_lifecycle a = AgentOpen \/ ag_lifecycle a = AgentClosing ->
  ag_runtime_generation a = wf_runtime_generation fence ->
  tf_action_epoch (sn_task s) = wf_action_epoch fence ->
  sn_provider_sessions s !! wf_agent_session_id fence = Some p ->
  ps_waits p !! wf_command_id fence = Some record -> fence_matches (wr_fence record) fence = true ->
  wr_pending record = true -> succeeds (apply_into s (EvProviderWaitSettled fence) at_ms).
Proof.
  intros W [Hc Ht] Hta Hv Ha Hl Hg He Hp Hw Hm Hpend. destruct (Hc _ Ha) as [Hk Hs].
  cbn [apply_into]. unfold refusing, apply_wait_settled. apply succeeds_map_err.
  destruct (validate_provider_fence (fence_identity fence) None None None) as [[]|] eqn:Ev; [|done].
  eapply succeeds_bind; [|build].
  eapply (snapshot_fence_absorbed s _ a); try done; cbn; try congruence.
  - by destruct (wf_agents _ W _ _ Ha).
  - by destruct Hl as [-> | ->].
Qed.

(** *** Browser facts *)

Lemma try_one b f b1 :
  apply_fact b f = Ok b1 -> count (bk_facts b) + 1 <= MAX_BROWSER_JOURNAL_FACTS ->
  try_apply_facts b [f] = Ok b1.
Proof.
  intros Hf Hc. apply try_apply_facts_Ok. cbn [run_facts]. rewrite Hf. split; [done|].
  right. apply journal_room. by rewrite count_cons, count_nil, N.add_0_r.
Qed.

(** The events of a decision, each applied to what the one before it left. *)
Fixpoint absorbs (s : TaskSnapshot) (now : Z) (d : list Event) : Prop :=
  match d with
  | [] => True
  | e :: rest =>
      forall id sequence, exists s1,
        apply (Some s)
          {| de_id := id; de_task_id := Some (tf_id (sn_task s)); de_sequence := sequence;
             de_task_revision := Some (tf_revision (sn_task s) + 1); de_occurred_at_ms := now;
             de_payload := e |} = Ok s1
        /\ absorbs s1 now rest
  end.

Lemma matching_self s id sequence revision now e :
  require_matching_task_id s
    {| de_id := id; de_task_id := Some (tf_id (sn_task s)); de_sequence := sequence;
       de_task_revision := revision; de_occurred_at_ms := now; de_payload := e |} = Ok tt.
Proof. by apply require_matching_task_id_Ok. Qed.

Lemma next_revision_self s id task sequence now e :
  tf_revision (sn_task s) + 1 <= u64_max ->
  require_next_revision s
    {| de_id := id; de_task_id := task; de_sequence := sequence;
       de_task_revision := Some (tf_revision (sn_task s) + 1); de_occurred_at_ms := now;
       de_payload := e |} = Ok (tf_revision (sn_task s) + 1).
Proof.
  unfold require_next_revision, checked_add. intros ->%N.leb_le. cbn. by rewrite N.eqb_refl.
Qed.

(** The arms that go through [apply_into] with a revision. *)
Definition plain_mutation (e : Event) : bool :=
  match e with EvTaskCreated _ _ _ _ _ | EvBrowser _ => false | e => is_task_mutation e end.

Lemma apply_plain_mutation s ev :
  plain_mutation (de_payload ev) = true -> apply (Some s) ev = apply_mutation (Some s) ev.
Proof. unfold apply. by destruct (de_payload ev). Qed.

Lemma absorbs_one s now e :
  plain_mutation e = true -> tf_revision (sn_task s) + 1 <= u64_max ->
  succeeds (apply_into s e now) -> absorbs s now [e].
Proof.
  intros Hp Hr [s1 Hs] id sequence. rewrite apply_plain_mutation by done.
  unfold apply_mutation. cbn [ok_or map_err rbind].
  rewrite matching_self, (next_revision_self _ _ _ _ _ _ Hr).
  cbn [map_err rbind de_payload de_occurred_at_ms]. rewrite Hs. by eexists.
Qed.

Lemma absorbs_app s now d1 d2 :
  absorbs s now d1 ->
  (forall s' evs, map de_payload evs = d1 -> run (Some s) evs = Ok (Some s') -> absorbs s' now d2) ->
  absorbs s now (d1 ++ d2).
Proof.
  revert s; induction d1 as [|e d1 IH]; intros s Hd1 Hd2; cbn [app absorbs].
  - by apply (Hd2 s []).
  - intros id sequence. destruct (Hd1 id sequence) as (s1 & Ha & Hb). exists s1. split; [done|].
    apply IH; [done|]. intros s' evs Hm Hr. 
    match type of Ha with apply _ ?ev = _ => apply (Hd2 s' (ev :: evs)) end; [cbn; by rewrite Hm|].
    apply run_cons. by exists s1.
Qed.

Lemma absorbs_facts now facts : forall s b,
  run_facts (sn_browser s) facts = Ok b ->
  count (bk_facts (sn_browser s)) + count facts <= MAX_BROWSER_JOURNAL_FACTS ->
  Forall (fun f => fact_task_id f = tf_id (sn_task s)) facts ->
  tf_revision (sn_task s) + count facts <= u64_max ->
  absorbs s now (map EvBrowser facts).
Proof.
  induction facts as [|f facts IH]; intros s b Hrun Hc Ht Hr; cbn [map absorbs]; [done|].
  intros id sequence. cbn [run_facts] in Hrun. apply rbind_Ok in Hrun as (b1 & Hf & Hrun).
  rewrite count_cons in Hc, Hr. apply Forall_cons in Ht as [Hft Ht].
  assert (bk_facts b1 = bk_facts (sn_browser s) ++ [f]) as Hj.
  { assert (run_facts (sn_browser s) [f] = Ok b1) as H1f by (cbn [run_facts]; by rewrite Hf).
    by apply run_facts_frame in H1f as (_ & _ & ?). }
  exists (set_revision (set_browser s b1) (tf_revision (sn_task s) + 1)). split.
  - unfold apply. cbn [de_payload]. unfold refusing, apply_browser_fact. cbn [ok_or rbind].
    rewrite matching_self. cbn [rbind]. rewrite Hft, N.eqb_refl. cbn [guard rbind].
    rewrite next_revision_self by lia. cbn [rbind]. rewrite (try_one _ _ _ Hf) by lia. done.
  - apply (IH _ b); cbn; [done| |done|lia]. rewrite Hj, count_app, count_cons, count_nil. lia.
Qed.

(** *** The task in its browser book *)

(** The book knows this task only, and has it open while the task runs. *)
Definition task_open (s : TaskSnapshot) : Prop :=
  bk_open_tasks (sn_browser s) ⊆ {[tf_id (sn_task s)]}
  /\ (tf_lifecycle (sn_task s) = TaskOpen \/ tf_lifecycle (sn_task s) = TaskSettledL ->
      tf_id (sn_task s) ∈ bk_open_tasks (sn_browser s)).

Lemma task_open_keep s s' :
  task_open s -> bk_open_tasks (sn_browser s') = bk_open_tasks (sn_browser s) ->
  tf_id (sn_task s') = tf_id (sn_task s) ->
  (tf_lifecycle (sn_task s') = TaskOpen \/ tf_lifecycle (sn_task s') = TaskSettledL ->
   tf_lifecycle (sn_task s) = TaskOpen \/ tf_lifecycle (sn_task s) = TaskSettledL) ->
  task_open s'.
Proof. unfold task_open. intros [Hs Ho] -> -> Hl. split; [done|]. auto. Qed.

Lemma close_task_open b t b' :
  close_task b t = Ok b' -> bk_open_tasks b' = bk_open_tasks b ∖ {[t]}.
Proof.
  unfold close_task. intros Hc. peel Hc. subst b'. cbn.
  match goal with G : try_apply_facts _ _ = Ok _ |- _ =>
    apply try_apply_facts_Ok in G as [Hx _]; apply run_facts_frame in Hx as (_ & Hx & _) end.
  by rewrite Hx.
Qed.

Lemma open_task_open b t b' :
  open_task b t = Ok b' -> bk_open_tasks b' = {[t]} ∪ bk_open_tasks b.
Proof.
  unfold open_task. intros Ho. destruct (bool_decide _) eqn:E.
  - apply bool_decide_eq_true in E. simplify_eq. set_solver.
  - destruct (_ <=? _); by simplify_eq.
Qed.

Lemma apply_into_task_open s e at_ms s' :
  apply_into s e at_ms = Ok s' -> task_open s -> task_open s'.
Proof.
  intros Hs Ho. destruct e; arm Hs; facts; try subst s'; try (by eapply task_open_keep).
  - match goal with G : close_task _ _ = Ok _ |- _ => apply close_task_open in G as Hx end.
    destruct Ho as [Hsub _]. unfold task_open. cbn in *. rewrite Hx. split; [set_solver|].
    by intros [?|?].
  - eapply task_open_keep; [done..|]. cbn. by left.
  - match goal with G : open_task _ _ = Ok _ |- _ => apply open_task_open in G as Hx end.
    destruct Ho as [Hsub _]. unfold task_open. cbn in *. rewrite Hx. set_solver.
  - eapply task_open_keep; [done..|]. cbn. by intros [?|?].
  - eapply task_open_keep; [done..|]. cbn. by intros [?|?].
  - case_match; by eapply task_open_keep.
  - case_match; by eapply task_open_keep.
  - destruct (tf_lifecycle (sn_task s) =?= TaskSettledL) eqn:El; cbn [andb];
      [|by eapply task_open_keep].
    apply eqb_true_1 in El.
    destruct (is_send_now action); (eapply task_open_keep; [done..|]); by right.
Qed.

Lemma applied_task_open s ev s' : applied s ev s' -> task_open s -> task_open s'.
Proof.
  intros [fact b _ _ Hb _ _|_|s1 _ Hs|s1 _ Hs _ _] Ho.
  - apply try_apply_facts_Ok in Hb as [Hb _]. apply run_facts_frame in Hb as (_ & Hb & _).
    eapply task_open_keep; [done|exact Hb|done|done].
  - done.
  - by eapply apply_into_task_open.
  - eapply apply_into_task_open in Hs; [|done]. eapply task_open_keep; [exact Hs|done..].
Qed.

Lemma run_task_open evs : forall s s', run (Some s) evs = Ok (Some s') -> task_open s -> task_open s'.
Proof.
  induction evs as [|ev evs IH]; intros s s' Hr Ho; [cbn in Hr; by simplify_eq|].
  apply run_cons in Hr as (s1 & Ha & Hr). apply apply_Some_applied in Ha as [Ha _].
  eapply IH; [done|]. by eapply applied_task_open.
Qed.

Lemma created_task_open ev s : apply None ev = Ok s -> task_open s.
Proof.
  intros Ha. unfold apply in Ha. destruct (de_payload ev); unfold refusing, apply_mutation,
    apply_host_fact, apply_operation_fact, apply_browser_fact in Ha;
    cbn [ok_or map_err rbind] in Ha; try discriminate Ha.
  apply map_err_Ok in Ha. unfold apply_task_created, or_invalid in Ha. peel Ha. subst s.
  match goal with G : open_task _ _ = Ok _ |- _ => apply open_task_open in G as Hx end.
  unfold task_open. cbn in *. rewrite Hx. set_solver.
Qed.

Lemma reachable_task_open s : reachable s -> task_open s.
Proof.
  induction 1 as [fresh env evs s Hd Hr|s fresh env evs s' _ I Hd Hr|s ev s' _ I Hh Ha].
  - destruct evs as [|ev evs]; [done|]. apply run_cons in Hr as (s1 & Ha & Hr).
    eapply run_task_open; [done|]. by eapply created_task_open.
  - by eapply run_task_open.
  - apply apply_Some_applied in Ha as [Ha _]. by eapply applied_task_open.
Qed.

Lemma prog_close s epoch at_ms :
  task_open s -> tf_lifecycle (sn_task s) = TaskOpen \/ tf_lifecycle (sn_task s) = TaskSettledL ->
  checked_add (tf_action_epoch (sn_task s)) 1 = Some epoch ->
  count (bk_facts (sn_browser s)) + count (plan_close_task (sn_browser s) (tf_id (sn_task s)))
    <= MAX_BROWSER_JOURNAL_FACTS ->
  succeeds (apply_into s (EvTaskCloseBegun epoch) at_ms).
Proof.
  intros [_ Ho] Hl He Hr. cbn [apply_into]. unfold refusing, apply_close_begun.
  destruct (run_closing _ _ (plan_close_task_closes (sn_browser s) (tf_id (sn_task s))))
    as (b1 & Hrun & _).
  pose proof (close_task_run _ _ _ (Ho Hl) Hr Hrun) as Hc.
  apply succeeds_map_err, succeeds_guard; [by destruct Hl as [-> | ->]|].
  eapply succeeds_ok_or; [exact He|]. apply succeeds_guard; [apply N.eqb_refl|].
  eapply succeeds_map_err_bind; [exact Hc|]. apply succeeds_Ok.
Qed.

Lemma prog_reopen s at_ms :
  task_open s -> tf_lifecycle (sn_task s) = TaskSettledL
    \/ tf_lifecycle (sn_task s) = TaskClosing \/ tf_lifecycle (sn_task s) = TaskArchivedL ->
  succeeds (apply_into s EvTaskReopened at_ms).
Proof.
  intros [Hs _] Hl. cbn [apply_into]. unfold refusing, apply_reopened.
  assert (exists b, open_task (sn_browser s) (tf_id (sn_task s)) = Ok b) as [b Hb].
  { unfold open_task. destruct (bool_decide _); [by eexists|].
    apply subseteq_size in Hs. rewrite size_singleton in Hs.
    destruct (N.leb_spec MAX_BROWSER_OPEN_TASKS (N.of_nat (size (bk_open_tasks (sn_browser s)))));
      [unfold MAX_BROWSER_OPEN_TASKS in *; lia|by eexists]. }
  apply succeeds_map_err. eapply succeeds_bind; [by destruct Hl as [-> | [-> | ->]]|].
  eapply succeeds_map_err_bind; [exact Hb|]. apply succeeds_Ok.
Qed.

(** *** Opening the task browser *)

Lemma open_step_runs s command b r b' es :
  receipts_ok b -> br_task_id r = tf_id (sn_task s) -> open_step s command b r = Ok (b', es) ->
  exists facts, es = map EvBrowser facts /\ run_facts b facts = Ok b'
    /\ (facts = [] \/ count (bk_facts b) + count facts <= MAX_BROWSER_JOURNAL_FACTS)
    /\ Forall (fun f => fact_task_id f = tf_id (sn_task s)) facts
    /\ receipts_ok b'.
Proof.
  intros Hr Ht Ho. pose proof Ho as Hk. apply open_step_shape in Hk as [Hk _]; [|done].
  unfold open_step in Ho. peel Ho. simplify_eq. apply try_apply_facts_Ok in G0 as [G0 Hc].
  eexists. split_and!; [done|exact G0| | |done].
  - destruct Hc as [?|Hc]; [by left|right]. by apply journal_room_inv.
  - rewrite <- Ht. by apply (plan_bound_task b r x command (tf_action_epoch (sn_task s))).
Qed.

(** Both steps of the opening, as one batch of facts. *)
Lemma decide_open_runs s command intent d :
  receipts_ok (sn_browser s) -> decide_open s command intent = Ok d ->
  exists facts b r, d = map EvBrowser facts ++ [EvResourceRegistered r]
    /\ run_facts (sn_browser s) facts = Ok b
    /\ (facts = [] \/ count (bk_facts (sn_browser s)) + count facts <= MAX_BROWSER_JOURNAL_FACTS)
    /\ Forall (fun f => fact_task_id f = tf_id (sn_task s)) facts
    /\ rf_owner_kind r = OwnerTask /\ rf_task_id r = Some (tf_id (sn_task s))
    /\ resource_validate r = Ok tt /\ rf_lifecycle r = ResActive
    /\ sn_resources s !! rf_id r = None /\ is_plain_shell (rf_recipe r) = false.
Proof.
  intros Hr Ho. unfold decide_open in Ho. peel Ho. subst d.
  match goal with G : open_step _ _ (sn_browser s) _ = Ok _ |- _ =>
    apply open_step_runs in G as (f1 & -> & R1 & C1 & T1 & Hr'); [|done..] end.
  match goal with G : open_step _ _ _ _ = Ok _ |- _ =>
    apply open_step_runs in G as (f2 & -> & R2 & C2 & T2 & _); [|done..] end.
  match goal with G : open_recipe_ok _ _ _ = true |- _ => unfold open_recipe_ok in G end. facts.
  eexists (f1 ++ f2), _, (ob_resource intent).
  split; [by rewrite map_app, <- app_assoc|]. split; [by rewrite run_facts_app, R1; exact R2|].
  split.
  { apply run_facts_frame in R1 as (_ & _ & Hj). rewrite Hj, count_app in C2. rewrite count_app.
    destruct C2 as [-> | C2]; [|right; lia]. rewrite app_nil_r, count_nil, N.add_0_r. exact C1. }
  split; [by apply Forall_app|]. split_and!; try done.
  - by destruct (resource_validate (ob_resource intent)) as [[]|].
  - match goal with G : rf_recipe _ = _ |- _ => by rewrite G end.
Qed.

Lemma run_browser_frame evs facts : forall s s',
  map de_payload evs = map EvBrowser facts -> run (Some s) evs = Ok (Some s') ->
  sn_resources s' = sn_resources s /\ tf_id (sn_task s') = tf_id (sn_task s)
  /\ tf_revision (sn_task s') = tf_revision (sn_task s) + count facts.
Proof.
  revert evs; induction facts as [|f facts IH]; intros [|ev evs] s s' Hm Hr; try done.
  - cbn in Hr. simplify_eq. by rewrite count_nil, N.add_0_r.
  - injection Hm as Hp Hm. apply run_cons in Hr as (s1 & Ha & Hr).
    apply apply_Some_applied in Ha as [Ha _].
    destruct (applied_browser_frame _ _ _ _ Ha Hp) as (_ & E1 & _).
    apply applied_task in Ha as (Hf & Hrev & _). rewrite Hp in Hrev. cbn in Hrev.
    destruct (IH _ _ _ Hm Hr) as (-> & -> & ->). rewrite count_cons, Hrev.
    split_and!; [done| |lia].
    unfold task_frame in Hf. tauto.
Qed.

Lemma absorbs_open s now command intent d :
  receipts_ok (sn_browser s) -> decide_open s command intent = Ok d ->
  tf_revision (sn_task s) + count d <= u64_max -> absorbs s now d.
Proof.
  intros Hr Ho Hrev. destruct (decide_open_runs _ _ _ _ Hr Ho)
    as (facts & b & r & -> & R & C & T & F1 & F2 & F3 & F4 & F5 & F6).
  rewrite count_app, count_cons, count_nil in Hrev.
  assert (count (map EvBrowser facts) = count facts) as Ec by (unfold count; by rewrite length_map).
  apply absorbs_app.
  - destruct facts as [|f facts]; [done|]. destruct C as [|C]; [done|].
    eapply absorbs_facts; try done. lia.
  - intros s' evs Hm Hrun. destruct (run_browser_frame _ _ _ _ Hm Hrun) as (E1 & E2 & E3).
    apply absorbs_one; [done|lia|]. apply prog_resource; try congruence.
Qed.

(** ** Committing what is absorbed *)

Lemma absorbs_run ids now d : forall s sequence,
  absorbs s now d -> Forall (fun e => is_task_mutation e = true) d ->
  tf_revision (sn_task s) + count d <= u64_max ->
  exists revisions final s',
    decision_revisions (Some (tf_revision (sn_task s))) d = Ok (revisions, final)
    /\ run (Some s) (stamp ids sequence (Some (tf_id (sn_task s))) now (combine d revisions))
       = Ok (Some s').
Proof.
  induction d as [|e d IH]; intros s sequence Ha Hm Hr.
  - by eexists [], _, s.
  - apply Forall_cons in Hm as [He Hm]. rewrite count_cons in Hr.
    destruct (Ha (ids sequence) sequence) as (s1 & Hap & Hd).
    pose proof Hap as Hap'. apply apply_Some_applied in Hap' as [Hx _].
    apply applied_stamp in Hx as Hst; [|done]. destruct Hst as (_ & Hrev & _).
    apply applied_task in Hx as (Hf & _). unfold task_frame in Hf. destruct Hf as (Hid & _).
    destruct (IH s1 (sequence + 1) Hd Hm) as (revs & final & s' & Hdr & Hrun); [lia|].
    exists (Some (tf_revision (sn_task s) + 1) :: revs), final, s'. split.
    + cbn [decision_revisions]. rewrite He. unfold checked_add.
      assert ((tf_revision (sn_task s) + 1 <=? u64_max) = true) as -> by (apply N.leb_le; lia).
      cbn [ok_or rmap rbind]. rewrite <- Hrev, Hdr. done.
    + cbn [combine stamp]. apply run_cons. exists s1. split; [exact Hap|]. by rewrite <- Hid.
Qed.

(** What an accepted command needs besides, for its events to apply: the
    places where the projection checks something the decision does not. *)
Definition room_for (s : TaskSnapshot) (c : Command) : Prop :=
  match c with
  | CmdRegisterResource r =>
      is_plain_shell (rf_recipe r) = true ->
      count (st_order (sn_terminal_strip s)) < MAX_PLAIN_SHELLS_PER_TASK
  | CmdSubmitProviderInput i =>
      winners_room (session_or_default s (si_agent_session_id i)) (si_action i)
  | CmdSettleProviderWait i => wait_current s (sw_fence i)
  | CmdBeginCloseTask =>
      count (bk_facts (sn_browser s)) + count (plan_close_task (sn_browser s) (tf_id (sn_task s)))
      <= MAX_BROWSER_JOURNAL_FACTS
  | CmdBrowser r =>
      bk_receipts (sn_browser s) !! br_request_id r = None
      /\ generation_current (sn_browser s) r
  | _ => True
  end.

Lemma strip_room s :
  snapshot_wf s -> strip_full s ->
  count (st_order (sn_terminal_strip s)) = N.of_nat (size (occupied_plain_shell_ids s)).
Proof.
  intros W St. destruct (wf_strip _ W) as (_ & Hnd & _).
  assert (occupied_plain_shell_ids s = list_to_set (st_order (sn_terminal_strip s))) as ->.
  { apply set_eq. intros id. by rewrite elem_of_list_to_set, (elem_of_occupied _ _ W), (St id). }
  by rewrite size_list_to_set.
Qed.

(** ** Each command's events are absorbed *)

(** Every decision of an arm is absorbed by the snapshot it was taken on. *)
Definition absorbed (s : TaskSnapshot) (now : Z) (r : result (list Event) RejectionCode) : Prop :=
  forall d, r = Ok d -> tf_revision (sn_task s) + count d <= u64_max -> absorbs s now d.

(** Opens an arm down to the one event it decides. *)
Ltac absorbed_arm Hrev :=
  let Hd := fresh "Hd" in
  unfold absorbed; intros ? Hd Hrev; decided Hd; preamble; try discriminate;
  match goal with G : addressed _ _ ?x |- _ => pose proof (addressed_same _ _ _ G) as -> end;
  try subst; facts;
  unfold require_task_plain_shell, require_open_agent, require_live_agent,
    require_orchestration_fences, or_rejected in *;
  repeat match goal with G : map_err _ _ = Ok _ |- _ => apply map_err_Ok in G end;
  try (apply absorbs_one; [done|by rewrite count_cons, count_nil in Hrev|]).

Lemma absorbed_submit fresh s env i now :
  snapshot_wf s -> winners_room (session_or_default s (si_agent_session_id i)) (si_action i) ->
  absorbed s now (decide_submit_provider_input fresh (Some s) env i).
Proof.
  intros W Hroom. absorbed_arm Hrev.
  match goal with G : input_provider_session _ = Ok _ |- _ =>
    pose proof (input_provider_session_Ok _ _ G) as -> end.
  match goal with G : match ag_lifecycle ?x with _ => _ end = Ok _ |- _ => peel G end.
  eapply prog_input; try done.
  intros Hw. match goal with G : (_ \/ _) \/ _ |- _ => destruct G as [[G|[r Hr]]|G] end.
  - congruence.
  - left. by rewrite Hr.
  - by right.
Qed.

Lemma absorbed_question s env i now :
  snapshot_wf s -> absorbed s now (decide_present_question (Some s) env i).
Proof.
  intros W. absorbed_arm Hrev.
  match goal with G : not_open _ _ = Ok ?u |- _ => destruct u; apply not_open_None in G end.
  by eapply prog_question.
Qed.

Lemma absorbed_approval s env i now :
  snapshot_wf s -> absorbed s now (decide_present_approval (Some s) env i).
Proof.
  intros W. absorbed_arm Hrev.
  match goal with G : not_open _ _ = Ok ?u |- _ => destruct u; apply not_open_None in G end.
  by eapply prog_approval.
Qed.

Lemma absorbed_wait s env i now :
  snapshot_wf s -> wait_current s (sw_fence i) -> absorbed s now (decide_settle_wait (Some s) env i).
Proof.
  intros W Hc. absorbed_arm Hrev.
  eapply prog_wait_settled; try done; [by rewrite G1|].
  match goal with G : match ag_lifecycle ?x with _ => _ end = Ok _ |- _ => peel G end; auto.
Qed.

Lemma bounded_canonical_is_bounded t t' :
  bounded_canonical t = Some t' -> is_bounded_canonical t' = true.
Proof.
  intros (-> & Hne & Hl)%bounded_canonical_Some. unfold is_bounded_canonical.
  apply andb_true_iff. split; [|by apply N.leb_le]. rewrite is_canonical_spec. by rewrite trim_idem.
Qed.

Lemma runtime_cap_room s i :
  runtime_cap_ok s i = Ok tt -> top_level_runtime_count s < DEFAULT_MAX_TOP_LEVEL_RUNTIMES.
Proof.
  unfold runtime_cap_ok. intros Hc. peel Hc. facts. unfold checked_add in G. case_match; [|done].
  simplify_eq. lia.
Qed.

Lemma request_resource_room s i :
  request_resource_ok s i = Ok tt ->
  specialist_resource_ok s (rs_resource_id i) (rs_expected_runtime_generation i) = Ok tt.
Proof.
  unfold request_resource_ok, specialist_resource_ok. intros Hr.
  destruct (rs_resource_id i) as [id|]; [|done]. peel Hr. facts. rewrite G. cbn [ok_or rbind].
  by rewrite G0, G1, eqb_refl, N.eqb_refl.
Qed.

Lemma permission_read_only s i : permission_admissible s i = Ok tt -> rs_permission i = ReadOnly.
Proof. unfold permission_admissible. intros Hp. by peel Hp. Qed.

Lemma absorbed_specialist s env i now :
  sys_inv s -> absorbed s now (decide_request_specialist (Some s) env i).
Proof.
  intros I. absorbed_arm Hrev.
  match goal with G : permission_admissible _ _ = Ok _ |- _ =>
    apply permission_read_only in G as -> end.
  match goal with G : runtime_cap_ok _ _ = Ok _ |- _ => apply runtime_cap_room in G end.
  match goal with G : request_resource_ok _ _ = Ok _ |- _ => apply request_resource_room in G end.
  match goal with G : bounded_canonical _ = Some _ |- _ =>
    apply bounded_canonical_is_bounded in G end.
  unfold request_validate_bounds in *.
  repeat match goal with G : rbind _ _ = Ok _ |- _ => peel G end. facts.
  match goal with G : is_primary_role _ = true |- _ => apply negb_true_iff in G end.
  eapply prog_specialist; try done.
  - by eapply crew_open; [apply (si_crew _ I)|..].
  - match goal with G : ws_validate _ = Ok _ |- _ => by rewrite G end.
Qed.

Lemma absorbed_promote s env i now : absorbed s now (decide_promote_primary (Some s) env i).
Proof.
  absorbed_arm Hrev.
  match goal with G : is_primary_role _ = true |- _ => apply negb_true_iff in G end.
  match goal with G : rbind (guard _ _) _ = Ok _ |- _ => peel G; facts end.
  match goal with G : ag_runtime_generation ?x = pp_expected_runtime_generation i,
                  C : sn_agents s !! pp_agent_session_id i = Some ?x |- _ => rewrite <- G end.
  eapply prog_promoted; try done; congruence.
Qed.

Lemma open_specialist_Ok s id epoch g a :
  open_specialist_required s id epoch g = Ok a ->
  sn_agents s !! id = Some a /\ is_specialist (ag_role a) = true /\ ag_lifecycle a = AgentOpen
  /\ tf_action_epoch (sn_task s) = epoch /\ ag_runtime_generation a = g.
Proof.
  unfold open_specialist_required, require_orchestration_fences. intros Ho. peel Ho. subst.
  peel G0. facts. done.
Qed.

Lemma absorbed_cancel s env i now : absorbed s now (decide_cancel_specialist (Some s) env i).
Proof.
  absorbed_arm Hrev.
  match goal with G : open_specialist_required _ _ _ _ = Ok _ |- _ =>
    apply open_specialist_Ok in G as (? & ? & ? & He & <-) end.
  by apply prog_specialist_closed.
Qed.

Lemma handoff_body_bound i body :
  handoff_body i = Ok body -> len body <= MAX_SPECIALIST_RAW_ARTIFACT_BYTES.
Proof.
  unfold handoff_body, raw_out_of_bounds. intros Hb. peel Hb; subst; facts; lia.
Qed.

Lemma handoff_artifact_Ok s env i body a :
  handoff_artifact s env i body = Ok a ->
  af_id a = ah_artifact_id i /\ af_task_id a = tf_id (sn_task s) /\ af_kind a = ReviewReport
  /\ af_content_ref a = InlineUtf8 body.
Proof.
  unfold handoff_artifact, or_rejected, inline_utf8. intros Ha. peel Ha. subst a. cbn.
  by peel G0; subst.
Qed.

Lemma absorbed_handoff s env i now : absorbed s now (decide_accept_handoff (Some s) env i).
Proof.
  absorbed_arm Hrev.
  match goal with G : open_specialist_required _ _ _ _ = Ok _ |- _ =>
    apply open_specialist_Ok in G as (? & ? & ? & He & <-) end.
  match goal with G : handoff_artifact _ _ _ _ = Ok _ |- _ =>
    apply handoff_artifact_Ok in G as (Hid & ? & ? & ?) end.
  eapply prog_handoff; try done; [by eapply handoff_body_bound|congruence].
Qed.

Lemma absorbed_open_shell s env r now :
  snapshot_wf s -> strip_full s -> absorbed s now (decide_open_shell_terminal (Some s) env r).
Proof.
  intros W St. absorbed_arm Hrev.
  match goal with G : resource_validate_for_registration _ = Ok _ |- _ =>
    unfold resource_validate_for_registration in G; peel G; facts end.
  apply prog_resource; try done. by rewrite (strip_room s W St).
Qed.

Lemma plain_shell_occupies r :
  is_plain_shell_terminal r = true -> rf_lifecycle r <> ResReleased -> occupies r.
Proof. unfold is_plain_shell_terminal. intros ? ?. facts. done. Qed.

Lemma absorbed_rename_terminal s env id title now :
  snapshot_wf s -> absorbed s now (decide_rename_terminal (Some s) env id title).
Proof.
  intros W. absorbed_arm Hrev.
  match goal with G : rbind (ok_or _ _) _ = Ok _ |- _ => peel G; facts; subst end.
  eapply prog_terminal_renamed; try done. by apply plain_shell_occupies.
Qed.

Lemma absorbed_close_terminal s env id now :
  absorbed s now (decide_close_terminal (Some s) env id).
Proof.
  absorbed_arm Hrev.
  match goal with G : rbind (ok_or _ _) _ = Ok _ |- _ => peel G; facts; subst end.
  by apply prog_release.
Qed.

Lemma absorbed_browser s env r now :
  receipts_ok (sn_browser s) -> bk_receipts (sn_browser s) !! br_request_id r = None ->
  generation_current (sn_browser s) r -> absorbed s now (decide_browser (Some s) env r).
Proof.
  intros R Hn Hg. absorbed_arm Hrev.
  match goal with G : br_task_id r = _, P : plan_admit _ _ = Ok ?acc |- _ =>
    pose proof (plan_bound_task _ _ _ (ce_command_id env) (tf_action_epoch (sn_task s)) R P) as Ht;
    rewrite G in Ht;
    destruct (plan_bound_applies _ _ _ (ce_command_id env) (tf_action_epoch (sn_task s)) P Hn Hg)
      as [b Hb] end.
  apply try_apply_facts_Ok in Hb as [Hb Hc]. unfold count in Hrev. rewrite length_map in Hrev.
  destruct Hc as [Hc|Hc]; [cbn in Hc; by rewrite Hc|]. by eapply absorbs_facts; [|apply journal_room_inv|..].
Qed.

(** The arms whose event repeats the decision's own checks. *)
Lemma absorbed_simple s now env :
  snapshot_wf s -> task_open s -> room_for s (ce_command env) ->
  match ce_command env with
  | CmdRenameTask t => absorbed s now (decide_rename (Some s) env t)
  | CmdSetTaskAttention a => absorbed s now (decide_attention (Some s) env a)
  | CmdSettleTask => absorbed s now (decide_settle (Some s) env)
  | CmdBeginCloseTask => absorbed s now (decide_begin_close (Some s) env)
  | CmdReopenTask => absorbed s now (decide_reopen (Some s) env)
  | CmdDeleteTask => absorbed s now (decide_delete (Some s) env)
  | CmdRegisterAgentSession a => absorbed s now (decide_register_agent (Some s) env a)
  | CmdBindProviderSession a r p g => absorbed s now (decide_bind_provider (Some s) env a r p g)
  | CmdAbandonProviderSession a p g => absorbed s now (decide_abandon_provider (Some s) env a p g)
  | CmdSetPrimaryAgent a => absorbed s now (decide_set_primary (Some s) env a)
  | CmdRebindUnstartedPrimaryProvider a k =>
      absorbed s now (decide_rebind_unstarted (Some s) env a k)
  | CmdRegisterArtifact a => absorbed s now (decide_register_artifact (Some s) env a)
  | CmdRegisterResource r => absorbed s now (decide_register_resource (Some s) env r)
  | CmdReleaseResource r => absorbed s now (decide_release_resource (Some s) env r)
  | CmdSetTerminalStrip strip => absorbed s now (decide_set_strip (Some s) env strip)
  | _ => True
  end.
Proof.
  intros W To Hroom. destruct (ce_command env) eqn:Ec; try exact Logic.I; absorbed_arm Hrev;
    try exact Logic.I;
    repeat match goal with G : match ag_lifecycle ?x with _ => _ end = Ok _ |- _ => peel G end;
    facts; subst.
  - by eapply prog_renamed.
  - by eexists.
  - by apply prog_settled.
  - apply prog_close; auto.
  - apply prog_close; auto.
  - apply prog_reopen; auto.
  - apply prog_reopen; auto.
  - apply prog_reopen; auto.
  - by apply prog_deleted.
  - by apply prog_agent.
  - eapply prog_bound; done.
  - eapply prog_abandoned; done.
  - eapply prog_primary; [done|]. by apply negb_true_iff.
  - eapply prog_rebound; try done. by apply negb_true_iff.
  - by apply prog_artifact.
  - apply some_eqb in G1. destruct (resource_validate resource) as [[]|] eqn:Ev; [|done].
    by apply prog_resource.
  - by apply prog_release.
  - by apply prog_strip.
Qed.

Lemma decide_absorbed fresh s env now :
  sys_inv s -> task_open s -> room_for s (ce_command env) ->
  absorbed s now (command_decide fresh (Some s) env).
Proof.
  intros I To Hroom. pose proof I as [W C St R B]. unfold command_decide.
  pose proof (absorbed_simple s now env W To Hroom) as Hsimple.
  destruct (ce_command env) eqn:Ec; try exact Hsimple; try (intros d Hd; discriminate Hd).
  - by apply absorbed_submit.
  - by apply absorbed_question.
  - by apply absorbed_approval.
  - by apply absorbed_wait.
  - by apply absorbed_specialist.
  - apply absorbed_promote.
  - apply absorbed_cancel.
  - apply absorbed_handoff.
  - destruct Hroom. by apply absorbed_browser.
  - intros d Hd Hrev. unfold decide_open_task_browser in Hd. peel Hd. preamble.
    match goal with G : addressed _ _ ?x |- _ => pose proof (addressed_same _ _ _ G) as -> end.
    by eapply absorbs_open.
  - by apply absorbed_open_shell.
  - apply absorbed_close_terminal.
  - by apply absorbed_rename_terminal.
Qed.

(** ** Properties *)

(** C1: decision and projection agree.  Whatever a reachable task's decision
    accepts can be committed: its events are stamped, apply in order without a
    refusal, and lead to a reachable snapshot - provided the revision counter
    has room and, for the five commands where the projection checks more than
    the decision, [room_for] holds. *)
Theorem decided_events_apply (fresh : OperationId) (ids : N -> EventId) (sequence : N) (now : Z)
    (s : TaskSnapshot) (env : CommandEnvelope) (d : list Event)
    (Hs : reachable s) (Hd : command_decide fresh (Some s) env = Ok d)
    (Hrev : tf_revision (sn_task s) + count d <= u64_max)
    (Hroom : room_for s (ce_command env)) :
  exists evs final s',
    commit_decision ids sequence (ce_task_id env) now (Some s) d = Ok (evs, final)
    /\ run (Some s) evs = Ok (Some s') /\ reachable s'.
Proof.
  pose proof (reachable_inv _ Hs) as I.
  pose proof (decide_absorbed fresh s env now I (reachable_task_open _ Hs) Hroom d Hd Hrev) as Ha.
  pose proof (shape_mutations _ _ (decide_shape _ _ _ _ I Hd)) as Hm.
  destruct (absorbs_run ids now d s sequence Ha Hm Hrev) as (revs & final & s' & Hdr & Hrun).
  destruct (decide_heard _ _ _ _ Hd) as [(_ & Ht & _) _]. rewrite <- Ht in Hrun.
  assert (commit_decision ids sequence (ce_task_id env) now (Some s) d
          = Ok (stamp ids sequence (ce_task_id env) now (combine d revs), final)) as Hc.
  { unfold commit_decision. cbn [option_map]. by rewrite Hdr. }
  do 3 eexists. split; [exact Hc|]. split; [exact Hrun|].
  apply commit_decision_payloads in Hc as [Hp _]. eapply reach_command; [done|by rewrite Hp|done].
Qed.
End Agreement.

#[local] Existing Instance toy_sha.
#[local] Existing Instance toy_urls.
#[local] Existing Instance toy_wire.
#[local] Existing Instance toy_json.
#[local] Existing Instance toy_host.

Lemma decided_events_apply_witness :
  exists s', run (Some (the run_renamed)) (stamp (fun n => n) 10 (Some 1) 5%Z
               [(EvResourceReleaseBegun 30 0, Some 6)]) = Ok (Some s') /\ reachable s'.
Proof.
  destruct (decided_events_apply 600 (fun n => n) 10 5%Z (the run_renamed) close_command
    [EvResourceReleaseBegun 30 0] run_renamed_reachable ltac:(by vm_compute) ltac:(by vm_compute) I)
    as (evs & final & s' & Hc & Hrun & Hr).
  exists s'. split; [|exact Hr]. vm_compute in Hc. injection Hc as <- _. exact Hrun.
Defined.

(** ** Where [room_for] bites *)

Definition sample_shell_n (n : N) : ResourceFacts :=
  {| rf_id := n; rf_task_id := Some 1; rf_owner_kind := OwnerTask;
     rf_resource_kind := KindTerminal; rf_recipe := rf_recipe sample_shell;
     rf_lifecycle := ResActive; rf_runtime_generation := 0; rf_updated_at_ms := 0%Z |}.

Definition run_eight : option TaskSnapshot :=
  fold_left (fun s n => send s (CmdOpenShellTerminal (sample_shell_n n)))
    [40; 41; 42; 43; 44; 45; 46; 47] run_staffed.

(** What the decision says of a command, and whether its events then apply. *)
Definition verdict (s : TaskSnapshot) (c : Command) : bool * bool :=
  let env := sample_envelope (tf_revision (sn_task s)) c in
  match command_decide 600 (Some s) env with
  | Ok d =>
      match commit_decision (fun n => n) 10 (Some 1) 5%Z (Some s) d with
      | Ok (evs, _) => (true, is_ok (run (Some s) evs))
      | Err _ => (true, false)
      end
  | Err _ => (false, false)
  end.

(** With eight shells open a ninth is refused when opened as a shell, but
    accepted when registered as a resource, and then does not apply. *)
Example ninth_shell_registered :
  verdict (the run_eight) (CmdOpenShellTerminal (sample_shell_n 48)) = (false, false)
  /\ verdict (the run_eight) (CmdRegisterResource (sample_shell_n 48)) = (true, false).
Proof. split; by vm_compute. Qed.

Definition run_bound : option TaskSnapshot :=
  send (send run_staffed (CmdRegisterResource sample_provider_terminal))
    (CmdBindProviderSession 10 20 sess 0).

Definition send_intent : SubmitProviderInputIntent :=
  {| si_agent_session_id := 10; si_runtime_generation := 0; si_turn_id := 7;
     si_action_epoch := 0; si_question_id := None; si_approval_id := None;
     si_action := SendNow (lit "hi") true [] |}.

Definition run_waiting : option TaskSnapshot := send run_bound (CmdSubmitProviderInput send_intent).

Definition open_wait_fence : ProviderWaitFence :=
  wait_fence_with_identity 500 1 600 0 10 ClaudeCode (Some sess) 0 7 None None.

(** A wait outlives the conversation it was opened in: once the conversation is
    abandoned the decision still settles the wait, and the event does not apply. *)
Example abandoned_wait_settled :
  verdict (the run_waiting) (CmdSettleProviderWait {| sw_fence := open_wait_fence |}) = (true, true)
  /\ verdict (the (send run_waiting (CmdAbandonProviderSession 10 sess 0)))
       (CmdSettleProviderWait {| sw_fence := open_wait_fence |}) = (true, false).
Proof. split; by vm_compute. Qed.
