(* ===== verification/Frame.v ===== *)
(** Physical frames between client and host ([protocol/frame.rs]): the limits
    both ends negotiate and the length-prefixed frame codec. *)
From S2P Require Import Prelude Snapshot Codec Wire.

Definition MAX_PHYSICAL_FRAME_BYTES : N := 1024 * 1024.
Definition MAX_REASSEMBLED_MESSAGE_BYTES : N := 16 * 1024 * 1024.

Inductive FrameLimitField :=
  PhysicalFrameBytes | ReassembledMessageBytes | PageItems | PageEncodedBytes.

Inductive FrameLimitsError := FrameLimitZero (field : FrameLimitField).

Inductive ErrorKind := UnexpectedEof.

Inductive PhysicalFrameError :=
| FrameEmpty
| FrameOversized (declared maximum : N)
| FrameAllocation (declared : N)
| FrameReadHeader (kind : ErrorKind)
| FrameReadPayload (declared : N) (kind : ErrorKind)
| FrameWriteHeader (kind : ErrorKind)
| FrameWritePayload (declared : N) (kind : ErrorKind).

Record FrameLimits := {
  max_physical_frame_bytes : N;
  max_reassembled_message_bytes : N;
  max_page_items : N;
  max_page_encoded_bytes : N;
}.

#[export] Instance FrameLimits_eq_dec : EqDecision FrameLimits.
Proof. solve_decision. Defined.

Definition frame_limits_v1_default : FrameLimits :=
  {| max_physical_frame_bytes := MAX_PHYSICAL_FRAME_BYTES;
     max_reassembled_message_bytes := MAX_REASSEMBLED_MESSAGE_BYTES;
     max_page_items := MAX_SNAPSHOT_PAGE_ITEMS;
     max_page_encoded_bytes := MAX_SNAPSHOT_PAGE_ENCODED_BYTES |}.

Definition validate_offer (l : FrameLimits) : result unit FrameLimitsError :=
  fold_left (fun acc '(field, value) =>
               try? acc ;; guard (negb (value =? 0)) (FrameLimitZero field))
    [(PhysicalFrameBytes, max_physical_frame_bytes l);
     (ReassembledMessageBytes, max_reassembled_message_bytes l);
     (PageItems, max_page_items l);
     (PageEncodedBytes, max_page_encoded_bytes l)] (Ok tt).

Definition negotiate (l peer : FrameLimits) : result FrameLimits FrameLimitsError :=
  try? validate_offer l ;;
  try? validate_offer peer ;;
  Ok {| max_physical_frame_bytes :=
          N.min (N.min (max_physical_frame_bytes l) (max_physical_frame_bytes peer))
            MAX_PHYSICAL_FRAME_BYTES;
        max_reassembled_message_bytes :=
          N.min (N.min (max_reassembled_message_bytes l) (max_reassembled_message_bytes peer))
            MAX_REASSEMBLED_MESSAGE_BYTES;
        max_page_items :=
          N.min (N.min (max_page_items l) (max_page_items peer)) MAX_SNAPSHOT_PAGE_ITEMS;
        max_page_encoded_bytes :=
          N.min (N.min (max_page_encoded_bytes l) (max_page_encoded_bytes peer))
            MAX_SNAPSHOT_PAGE_ENCODED_BYTES |}.

(** ** The frame codec *)

Record PhysicalFrameCodec := { max_payload_bytes : N }.

Definition from_limits (l : FrameLimits) : result PhysicalFrameCodec FrameLimitsError :=
  try? validate_offer l ;;
  Ok {| max_payload_bytes := N.min (max_physical_frame_bytes l) MAX_PHYSICAL_FRAME_BYTES |}.


(** [u32::to_be_bytes] *)
Definition to_be_bytes (n : N) : list N :=
  [n / 16777216; (n / 65536) mod 256; (n / 256) mod 256; n mod 256].

(** [usize::try_from] of a [u32] does not fail on a 64-bit target. *)
Definition validate_declared (c : PhysicalFrameCodec) (declared : N) : result N PhysicalFrameError :=
  ensure negb (declared =? 0) else FrameEmpty ;;
  ensure negb (max_payload_bytes c <? declared)
    else FrameOversized declared (max_payload_bytes c) ;;
  Ok declared.

Definition validated_payload_len (c : PhysicalFrameCodec) (header : list N)
    : result N PhysicalFrameError :=
  validate_declared c (from_be header).

Definition declared_for_payload (c : PhysicalFrameCodec) (payload : list N)
    : result N PhysicalFrameError :=
  let declared := count payload in
  ensure negb (declared =? 0) else FrameEmpty ;;
  ensure negb (max_payload_bytes c <? declared)
    else FrameOversized declared (max_payload_bytes c) ;;
  ensure declared <=? u32_max else FrameOversized declared (max_payload_bytes c) ;;
  Ok declared.

(** Whether the allocator grants [try_reserve_exact] that many bytes. *)
Class Allocator := can_reserve : N -> bool.

(** A reader is the bytes that will arrive before the end of the stream; [read]
    says what is left of it. *)
Definition frame_read `{Allocator} (c : PhysicalFrameCodec) (reader : list N)
    : result (list N * list N) PhysicalFrameError :=
  let? (header, reader) := ok_or (read_exact 4 reader) (FrameReadHeader UnexpectedEof) in
  let declared := from_be header in
  let? payload_len := validate_declared c declared in
  ensure can_reserve payload_len else FrameAllocation declared ;;
  let? (payload, reader) := ok_or (read_exact payload_len reader)
                              (FrameReadPayload declared UnexpectedEof) in
  Ok (payload, reader).

(** A writer that never fails ([Vec<u8>]): the bytes written so far. *)
Definition frame_write (c : PhysicalFrameCodec) (writer payload : list N)
    : result (list N) PhysicalFrameError :=
  let? declared := declared_for_payload c payload in
  Ok (writer ++ to_be_bytes declared ++ payload).

(** ** Lemmas *)

Lemma validate_offer_Ok l u : validate_offer l = Ok u <->
  0 < max_physical_frame_bytes l /\ 0 < max_reassembled_message_bytes l
  /\ 0 < max_page_items l /\ 0 < max_page_encoded_bytes l.
Proof.
  destruct u. unfold validate_offer. simpl.
  destruct (N.eqb_spec (max_physical_frame_bytes l) 0), (N.eqb_spec (max_reassembled_message_bytes l) 0),
    (N.eqb_spec (max_page_items l) 0), (N.eqb_spec (max_page_encoded_bytes l) 0);
    simpl; split; try done; try lia.
Qed.

Lemma from_be_to_be n : n <= u32_max -> from_be (to_be_bytes n) = n.
Proof.
  unfold u32_max, from_be, to_be_bytes. intros Hn. simpl.
  pose proof (N.div_mod n 256 ltac:(lia)). pose proof (N.div_mod (n / 256) 256 ltac:(lia)).
  pose proof (N.div_mod (n / 65536) 256 ltac:(lia)).
  rewrite !N.Div0.div_div in *. change (256 * 256) with 65536 in *.
  change (65536 * 256) with 16777216 in *. lia.
Qed.

Lemma frame_write_Ok c w p w' : frame_write c w p = Ok w' <->
  0 < count p <= N.min (max_payload_bytes c) u32_max /\ w' = w ++ to_be_bytes (count p) ++ p.
Proof.
  unfold frame_write, declared_for_payload. split.
  - intros E. peel E. facts. peel G. facts. subst. split; [lia | done].
  - intros [Hp ->]. rewrite (proj2 (N.eqb_neq (count p) 0)) by lia. cbn [negb guard rbind].
    rewrite (proj2 (N.ltb_ge _ _)) by lia. cbn [negb guard rbind].
    by rewrite (proj2 (N.leb_le _ _)) by lia.
Qed.

Lemma frame_read_written `{Allocator} c p rest :
  0 < count p <= N.min (max_payload_bytes c) u32_max -> can_reserve (count p) = true ->
  frame_read c (to_be_bytes (count p) ++ p ++ rest) = Ok (p, rest).
Proof.
  intros Hp Ha. unfold frame_read.
  rewrite (proj2 (read_exact_Some 4 _ (to_be_bytes (count p)) (p ++ rest))) by done.
  cbn [ok_or rbind]. rewrite from_be_to_be by lia. unfold validate_declared.
  rewrite (proj2 (N.eqb_neq (count p) 0)) by lia. cbn [negb guard rbind].
  rewrite (proj2 (N.ltb_ge _ _)) by lia. cbn [negb guard rbind]. rewrite Ha. cbn [guard rbind].
  by rewrite (proj2 (read_exact_Some (count p) _ p rest)).
Qed.

(** Writing frames one after the other, and reading until the stream ends or a
    frame is refused. *)
Fixpoint write_frames (c : PhysicalFrameCodec) (w : list N) (payloads : list (list N))
    : result (list N) PhysicalFrameError :=
  match payloads with
  | [] => Ok w
  | p :: rest => let? w := frame_write c w p in write_frames c w rest
  end.

Fixpoint read_frames `{Allocator} (n : nat) (c : PhysicalFrameCodec) (reader : list N)
    : result (list (list N) * list N) PhysicalFrameError :=
  match n with
  | O => Ok ([], reader)
  | S n =>
      let? (p, reader) := frame_read c reader in
      let? (ps, reader) := read_frames n c reader in
      Ok (p :: ps, reader)
  end.

Lemma write_frames_app c : forall payloads w w',
  write_frames c w payloads = Ok w' ->
  exists s, w' = w ++ s /\ Forall (fun p => 0 < count p <= N.min (max_payload_bytes c) u32_max) payloads
    /\ s = concat (map (fun p => to_be_bytes (count p) ++ p) payloads).
Proof.
  induction payloads as [|p ps IH]; intros w w' E; simpl in E.
  - simplify_eq. exists []. by rewrite app_nil_r.
  - apply rbind_Ok in E as (w1 & [Hp ->]%frame_write_Ok & (s & -> & Hps & ->)%IH).
    eexists. rewrite <- app_assoc. split; [done|]. by split; [constructor|].
Qed.

(** The frames one end agrees to write are exactly what the other end reads.
    Both ends compute the same limits whichever makes the offer, the limits
    are within both offers and the protocol maxima, and under them any
    sequence of payloads written is read back in order, with what follows it
    on the stream untouched. *)
Theorem negotiated_frames_roundtrip `{Allocator} (a b l : FrameLimits) (c : PhysicalFrameCodec)
    (payloads : list (list N)) (stream rest : list N)
    (Hl : negotiate a b = Ok l) (Hc : from_limits l = Ok c)
    (Hw : write_frames c [] payloads = Ok stream)
    (Ha : Forall (fun p => can_reserve (count p) = true) payloads) :
  negotiate b a = Ok l /\ validate_offer l = Ok tt
  /\ max_payload_bytes c <= max_physical_frame_bytes a
  /\ max_payload_bytes c <= max_physical_frame_bytes b
  /\ max_payload_bytes c <= MAX_PHYSICAL_FRAME_BYTES
  /\ read_frames (length payloads) c (stream ++ rest) = Ok (payloads, rest).
Proof.
  unfold negotiate in *. peel Hl. unfold from_limits in Hc. peel Hc. subst. simpl in *.
  rewrite G, G0. cbn [rbind]. apply validate_offer_Ok in G, G0. split.
  { f_equal. f_equal; lia. }
  split; [apply validate_offer_Ok; simpl; unfold MAX_PHYSICAL_FRAME_BYTES,
            MAX_REASSEMBLED_MESSAGE_BYTES, MAX_SNAPSHOT_PAGE_ITEMS, MAX_SNAPSHOT_PAGE_ENCODED_BYTES; lia|].
  split_and!; [lia..|]. clear G G0 G1.
  apply write_frames_app in Hw as (s & -> & Hp & ->). cbn [app].
  induction payloads as [|p ps IH]; [done|]. cbn [map concat length read_frames].
  inversion_clear Ha. inversion_clear Hp.
  rewrite <- !app_assoc, frame_read_written by done.
  cbn [rbind]. by rewrite IH.
Qed.

Lemma negotiated_frames_roundtrip_witness :
  @read_frames (fun n => n <=? 100) 2 {| max_payload_bytes := 64 |}
    ([0; 0; 0; 2; 7; 8; 0; 0; 0; 1; 9] ++ [5]) = Ok ([[7; 8]; [9]], [5]).
Proof.
  pose (a := {| max_physical_frame_bytes := 64; max_reassembled_message_bytes := 9;
                max_page_items := 3; max_page_encoded_bytes := 5 |}).
  pose proof (@negotiated_frames_roundtrip (fun n => n <=? 100) a frame_limits_v1_default a
    {| max_payload_bytes := 64 |} [[7; 8]; [9]] [0; 0; 0; 2; 7; 8; 0; 0; 0; 1; 9] [5]
    ltac:(by vm_compute) ltac:(by vm_compute) ltac:(by vm_compute)
    ltac:(by repeat constructor)) as (_ & _ & _ & _ & _ & Hr). exact Hr.
Defined.
