(* ===== verification/Chunk.v ===== *)
(** Chunked transfers ([protocol/chunk.rs]): negotiated limits, the frame of one
    chunk and the receiving context that checks order, size and cumulative
    hash, and is poisoned by the first violation. *)
From S2P Require Import Prelude Canonical Task Wire.

Definition MAX_CHUNK_BYTES : N := 256 * 1024.
Definition MAX_CUMULATIVE_BYTES : N := 16 * 1024 * 1024.
Definition MAX_CURSOR_BYTES : N := 64 * 1024.

Inductive ChunkLimitField := ChunkBytes | CumulativeBytes | CursorBytes.

Inductive ChunkLimitsError :=
| ChunkLimitZero (field : ChunkLimitField)
| ExceedsHardMaximum (field : ChunkLimitField) (declared maximum : N)
| ChunkExceedsCumulative (chunk cumulative : N).

Inductive ChunkError :=
| ChunkLimitsErr (e : ChunkLimitsError)
| EmptyPayload
| ChunkTooLarge (declared maximum : N)
| CumulativeOverflow
| CumulativeTooLarge (declared maximum : N)
| CursorEmpty
| CursorTooLarge (declared maximum : N)
| TransferIdMismatch
| IndexMismatch (expected received : N)
| ResumeCursorMismatch
| CumulativeHashMismatch
| AlreadyComplete
| FinalRequired
| Poisoned.

Record ChunkLimits := {
  max_chunk_bytes : N;
  max_cumulative_bytes : N;
  max_cursor_bytes : N;
}.

#[export] Instance ChunkLimits_eq_dec : EqDecision ChunkLimits.
Proof. solve_decision. Defined.

Definition chunk_limits_v1_default : ChunkLimits :=
  {| max_chunk_bytes := MAX_CHUNK_BYTES; max_cumulative_bytes := MAX_CUMULATIVE_BYTES;
     max_cursor_bytes := MAX_CURSOR_BYTES |}.

Definition chunk_limits_validate (l : ChunkLimits) : result unit ChunkLimitsError :=
  try? fold_left (fun acc '(field, value, maximum) =>
                    try? acc ;;
                    ensure negb (value =? 0) else ChunkLimitZero field ;;
                    guard (negb (maximum <? value)) (ExceedsHardMaximum field value maximum))
         [(ChunkBytes, max_chunk_bytes l, MAX_CHUNK_BYTES);
          (CumulativeBytes, max_cumulative_bytes l, MAX_CUMULATIVE_BYTES);
          (CursorBytes, max_cursor_bytes l, MAX_CURSOR_BYTES)] (Ok tt) ;;
  guard (negb (max_cumulative_bytes l <? max_chunk_bytes l))
    (ChunkExceedsCumulative (max_chunk_bytes l) (max_cumulative_bytes l)).

Definition chunk_limits_try_new (chunk cumulative cursor : N)
    : result ChunkLimits ChunkLimitsError :=
  let limits := {| max_chunk_bytes := chunk; max_cumulative_bytes := cumulative;
                   max_cursor_bytes := cursor |} in
  try? chunk_limits_validate limits ;;
  Ok limits.

Definition chunk_limits_negotiate (l peer : ChunkLimits) : result ChunkLimits ChunkLimitsError :=
  try? chunk_limits_validate l ;;
  try? chunk_limits_validate peer ;;
  chunk_limits_try_new
    (N.min (max_chunk_bytes l) (max_chunk_bytes peer))
    (N.min (max_cumulative_bytes l) (max_cumulative_bytes peer))
    (N.min (max_cursor_bytes l) (max_cursor_bytes peer)).

Definition validate_chunk (l : ChunkLimits) (cumulative_before : N) (payload : list N)
    : result N ChunkError :=
  ensure negb (is_empty payload) else EmptyPayload ;;
  let declared := count payload in
  ensure negb (max_chunk_bytes l <? declared) else ChunkTooLarge declared (max_chunk_bytes l) ;;
  let? cumulative := ok_or (checked_add cumulative_before declared) CumulativeOverflow in
  ensure negb (max_cumulative_bytes l <? cumulative)
    else CumulativeTooLarge cumulative (max_cumulative_bytes l) ;;
  Ok cumulative.

Definition validate_cursor_len (l : ChunkLimits) (declared : N) : result unit ChunkError :=
  ensure negb (declared =? 0) else CursorEmpty ;;
  guard (negb (max_cursor_bytes l <? declared)) (CursorTooLarge declared (max_cursor_bytes l)).

(** ** Frames *)

Notation TransferId := (list N) (only parsing).

Record ChunkFrame := {
  chf_transfer_id : TransferId;
  chf_index : N;
  chf_final_chunk : bool;
  chf_payload : list N;
  chf_cumulative_sha256 : list N;
  chf_resume_cursor : option (list N);
}.

#[export] Instance ChunkFrame_eq_dec : EqDecision ChunkFrame.
Proof. solve_decision. Defined.

Definition validate_shape (f : ChunkFrame) : result unit ChunkError :=
  ensure negb (is_empty (chf_payload f)) else EmptyPayload ;;
  ensure negb (MAX_CHUNK_BYTES <? count (chf_payload f))
    else ChunkTooLarge (count (chf_payload f)) MAX_CHUNK_BYTES ;;
  match chf_resume_cursor f with
  | None => Ok tt
  | Some cursor =>
      ensure negb (count cursor =? 0) else CursorEmpty ;;
      guard (negb (MAX_CURSOR_BYTES <? count cursor)) (CursorTooLarge (count cursor) MAX_CURSOR_BYTES)
  end.

Definition chunk_frame_new (transfer_id : TransferId) (index : N) (final_chunk : bool)
    (payload cumulative_sha256 : list N) (resume_cursor : option (list N))
    : result ChunkFrame ChunkError :=
  let frame := {| chf_transfer_id := transfer_id; chf_index := index;
                  chf_final_chunk := final_chunk; chf_payload := payload;
                  chf_cumulative_sha256 := cumulative_sha256;
                  chf_resume_cursor := resume_cursor |} in
  try? validate_shape frame ;;
  Ok frame.

Definition chunk_frame_validate (f : ChunkFrame) (l : ChunkLimits) : result unit ChunkError :=
  try? map_err ChunkLimitsErr (chunk_limits_validate l) ;;
  try? validate_shape f ;;
  try? validate_chunk l 0 (chf_payload f) ;;
  match chf_resume_cursor f with
  | None => Ok tt
  | Some cursor => validate_cursor_len l (count cursor)
  end.

(** ** The receiving context

    The incremental hasher is the bytes it has absorbed; finalising a clone of
    it is their digest. *)

Record ChunkContext := {
  chc_transfer_id : TransferId;
  chc_limits : ChunkLimits;
  chc_resume_cursor : option (list N);
  chc_next_index : N;
  chc_cumulative_bytes : N;
  chc_cumulative_hasher : list N;
  chc_complete : bool;
  chc_poisoned : bool;
}.

Definition chunk_context_new (transfer_id : TransferId) (limits : ChunkLimits)
    (resume_cursor : option (list N)) : result ChunkContext ChunkError :=
  try? map_err ChunkLimitsErr (chunk_limits_validate limits) ;;
  try? match resume_cursor with
       | None => Ok tt
       | Some cursor => validate_cursor_len limits (count cursor)
       end ;;
  Ok {| chc_transfer_id := transfer_id; chc_limits := limits;
        chc_resume_cursor := resume_cursor; chc_next_index := 0; chc_cumulative_bytes := 0;
        chc_cumulative_hasher := []; chc_complete := false; chc_poisoned := false |}.

Definition with_flags (c : ChunkContext) (complete poisoned : bool) : ChunkContext :=
  {| chc_transfer_id := chc_transfer_id c; chc_limits := chc_limits c;
     chc_resume_cursor := chc_resume_cursor c; chc_next_index := chc_next_index c;
     chc_cumulative_bytes := chc_cumulative_bytes c;
     chc_cumulative_hasher := chc_cumulative_hasher c; chc_complete := complete;
     chc_poisoned := poisoned |}.

Definition absorb (c : ChunkContext) (hasher : list N) (cumulative next_index : N)
    (complete : bool) : ChunkContext :=
  {| chc_transfer_id := chc_transfer_id c; chc_limits := chc_limits c;
     chc_resume_cursor := chc_resume_cursor c; chc_next_index := next_index;
     chc_cumulative_bytes := cumulative; chc_cumulative_hasher := hasher;
     chc_complete := complete; chc_poisoned := chc_poisoned c |}.

(** The checks of [accept_inner]: the cumulative size after the frame. *)
Definition accept_checks `{Sha256} (c : ChunkContext) (f : ChunkFrame) : result N ChunkError :=
  ensure negb (chc_complete c) else AlreadyComplete ;;
  try? chunk_frame_validate f (chc_limits c) ;;
  ensure chf_transfer_id f =?= chc_transfer_id c else TransferIdMismatch ;;
  ensure chf_index f =? chc_next_index c else IndexMismatch (chc_next_index c) (chf_index f) ;;
  ensure chf_resume_cursor f =?= chc_resume_cursor c else ResumeCursorMismatch ;;
  let? cumulative := validate_chunk (chc_limits c) (chc_cumulative_bytes c) (chf_payload f) in
  ensure chf_cumulative_sha256 f =?= sha256 (chc_cumulative_hasher c ++ chf_payload f)
    else CumulativeHashMismatch ;;
  Ok cumulative.

(** [accept_inner]: the hasher and the size are updated before the index, whose
    overflow leaves them updated. *)
Definition accept_inner `{Sha256} (c : ChunkContext) (f : ChunkFrame)
    : ChunkContext * result unit ChunkError :=
  match accept_checks c f with
  | Err e => (c, Err e)
  | Ok cumulative =>
      let hasher := chc_cumulative_hasher c ++ chf_payload f in
      if chc_next_index c + 1 <=? u32_max
      then (absorb c hasher cumulative (chc_next_index c + 1) (chf_final_chunk f), Ok tt)
      else (absorb c hasher cumulative (chc_next_index c) (chc_complete c), Err CumulativeOverflow)
  end.

Definition accept `{Sha256} (c : ChunkContext) (f : ChunkFrame)
    : ChunkContext * result unit ChunkError :=
  if chc_poisoned c then (c, Err Poisoned)
  else
    match accept_inner c f with
    | (c, Ok u) => (c, Ok u)
    | (c, Err e) => (with_flags c false true, Err e)
    end.

Definition is_complete (c : ChunkContext) : bool := chc_complete c && negb (chc_poisoned c).

Definition require_complete (c : ChunkContext) : ChunkContext * result unit ChunkError :=
  if chc_poisoned c then (c, Err Poisoned)
  else if chc_complete c then (c, Ok tt)
  else (with_flags c (chc_complete c) true, Err FinalRequired).

(** ** The wire forms *)

Definition chunk_limits_serialize (l : ChunkLimits) : result (list (text * wire)) SerdeError :=
  try? map_err (fun _ => CustomError) (chunk_limits_validate l) ;;
  Ok [(lit "max_chunk_bytes", WUint (max_chunk_bytes l));
      (lit "max_cumulative_bytes", WUint (max_cumulative_bytes l));
      (lit "max_cursor_bytes", WUint (max_cursor_bytes l))].

Definition chunk_limits_field (value : text) : result ChunkLimitField SerdeError :=
  if value =?= lit "max_chunk_bytes" then Ok ChunkBytes
  else if value =?= lit "max_cumulative_bytes" then Ok CumulativeBytes
  else if value =?= lit "max_cursor_bytes" then Ok CursorBytes
  else Err UnknownField.

Fixpoint chunk_limits_visit_map (entries : list (text * wire)) (chunk cumulative cursor : option N)
    : result ChunkLimits SerdeError :=
  match entries with
  | [] =>
      let? a := field chunk in let? b := field cumulative in let? c := field cursor in
      map_err (fun _ => CustomError) (chunk_limits_try_new a b c)
  | (name, value) :: rest =>
      let? key := chunk_limits_field name in
      match key with
      | ChunkBytes =>
          let? chunk := fill chunk (get_uint u32_max value) in
          chunk_limits_visit_map rest chunk cumulative cursor
      | CumulativeBytes =>
          let? cumulative := fill cumulative (get_uint u64_max value) in
          chunk_limits_visit_map rest chunk cumulative cursor
      | CursorBytes =>
          let? cursor := fill cursor (get_uint u32_max value) in
          chunk_limits_visit_map rest chunk cumulative cursor
      end
  end.

Definition chunk_limits_deserialize (entries : list (text * wire)) : result ChunkLimits SerdeError :=
  chunk_limits_visit_map entries None None None.

Definition chunk_frame_entries (f : ChunkFrame) : list (text * wire) :=
  [(lit "transfer_id", WBin (chf_transfer_id f));
   (lit "index", WUint (chf_index f));
   (lit "final_chunk", WBool (chf_final_chunk f));
   (lit "payload", WBin (chf_payload f));
   (lit "cumulative_sha256", WBin (chf_cumulative_sha256 f));
   (lit "resume_cursor", match chf_resume_cursor f with Some bs => WBin bs | None => WNil end)].

Definition chunk_frame_serialize (f : ChunkFrame) : result (list (text * wire)) SerdeError :=
  try? map_err (fun _ => CustomError) (validate_shape f) ;;
  Ok (chunk_frame_entries f).

Inductive ChunkFrameField :=
  FTransferId | FIndex | FFinalChunk | FPayload | FCumulativeSha256 | FResumeCursor.

Definition chunk_frame_field (value : text) : result ChunkFrameField SerdeError :=
  if value =?= lit "transfer_id" then Ok FTransferId
  else if value =?= lit "index" then Ok FIndex
  else if value =?= lit "final_chunk" then Ok FFinalChunk
  else if value =?= lit "payload" then Ok FPayload
  else if value =?= lit "cumulative_sha256" then Ok FCumulativeSha256
  else if value =?= lit "resume_cursor" then Ok FResumeCursor
  else Err UnknownField.

(** [try_into::<[u8; 32]>] *)
Definition sha256_array (w : wire) : result (list N) SerdeError :=
  let? bs := get_bin w in
  ensure Nat.eqb (length bs) 32 else InvalidLength ;;
  Ok bs.

Record FrameSlots := {
  fs_transfer_id : option (list N);
  fs_index : option N;
  fs_final_chunk : option bool;
  fs_payload : option (list N);
  fs_cumulative_sha256 : option (list N);
  fs_resume_cursor : option (option (list N));
}.

Definition no_slots : FrameSlots :=
  {| fs_transfer_id := None; fs_index := None; fs_final_chunk := None; fs_payload := None;
     fs_cumulative_sha256 := None; fs_resume_cursor := None |}.

Definition visit_field (s : FrameSlots) (key : ChunkFrameField) (value : wire)
    : result FrameSlots SerdeError :=
  match key with
  | FTransferId =>
      let? v := fill (fs_transfer_id s) (get_id value) in
      Ok {| fs_transfer_id := v; fs_index := fs_index s; fs_final_chunk := fs_final_chunk s;
            fs_payload := fs_payload s; fs_cumulative_sha256 := fs_cumulative_sha256 s;
            fs_resume_cursor := fs_resume_cursor s |}
  | FIndex =>
      let? v := fill (fs_index s) (get_uint u32_max value) in
      Ok {| fs_transfer_id := fs_transfer_id s; fs_index := v; fs_final_chunk := fs_final_chunk s;
            fs_payload := fs_payload s; fs_cumulative_sha256 := fs_cumulative_sha256 s;
            fs_resume_cursor := fs_resume_cursor s |}
  | FFinalChunk =>
      let? v := fill (fs_final_chunk s) (get_bool value) in
      Ok {| fs_transfer_id := fs_transfer_id s; fs_index := fs_index s; fs_final_chunk := v;
            fs_payload := fs_payload s; fs_cumulative_sha256 := fs_cumulative_sha256 s;
            fs_resume_cursor := fs_resume_cursor s |}
  | FPayload =>
      let? v := fill (fs_payload s) (get_bin value) in
      Ok {| fs_transfer_id := fs_transfer_id s; fs_index := fs_index s;
            fs_final_chunk := fs_final_chunk s; fs_payload := v;
            fs_cumulative_sha256 := fs_cumulative_sha256 s;
            fs_resume_cursor := fs_resume_cursor s |}
  | FCumulativeSha256 =>
      let? v := fill (fs_cumulative_sha256 s) (sha256_array value) in
      Ok {| fs_transfer_id := fs_transfer_id s; fs_index := fs_index s;
            fs_final_chunk := fs_final_chunk s; fs_payload := fs_payload s;
            fs_cumulative_sha256 := v; fs_resume_cursor := fs_resume_cursor s |}
  | FResumeCursor =>
      let? v := fill (fs_resume_cursor s) (get_optional_bin value) in
      Ok {| fs_transfer_id := fs_transfer_id s; fs_index := fs_index s;
            fs_final_chunk := fs_final_chunk s; fs_payload := fs_payload s;
            fs_cumulative_sha256 := fs_cumulative_sha256 s; fs_resume_cursor := v |}
  end.

Fixpoint chunk_frame_visit_map (entries : list (text * wire)) (s : FrameSlots)
    : result ChunkFrame SerdeError :=
  match entries with
  | [] =>
      let? transfer_id := field (fs_transfer_id s) in
      let? index := field (fs_index s) in
      let? final_chunk := field (fs_final_chunk s) in
      let? payload := field (fs_payload s) in
      let? cumulative_sha256 := field (fs_cumulative_sha256 s) in
      let? resume_cursor := field (fs_resume_cursor s) in
      map_err (fun _ => CustomError)
        (chunk_frame_new transfer_id index final_chunk payload cumulative_sha256 resume_cursor)
  | (name, value) :: rest =>
      let? key := chunk_frame_field name in
      let? s := visit_field s key value in
      chunk_frame_visit_map rest s
  end.

Definition chunk_frame_deserialize (entries : list (text * wire)) : result ChunkFrame SerdeError :=
  chunk_frame_visit_map entries no_slots.

(** ** Lemmas *)

Lemma chunk_limits_validate_Ok l u : chunk_limits_validate l = Ok u <->
  0 < max_chunk_bytes l <= MAX_CHUNK_BYTES
  /\ 0 < max_cumulative_bytes l <= MAX_CUMULATIVE_BYTES
  /\ 0 < max_cursor_bytes l <= MAX_CURSOR_BYTES
  /\ max_chunk_bytes l <= max_cumulative_bytes l.
Proof.
  destruct u, l as [chunk cumulative cursor]. unfold chunk_limits_validate. simpl.
  destruct (N.eqb_spec chunk 0), (N.eqb_spec cumulative 0), (N.eqb_spec cursor 0),
    (N.ltb_spec MAX_CHUNK_BYTES chunk), (N.ltb_spec MAX_CUMULATIVE_BYTES cumulative),
    (N.ltb_spec MAX_CURSOR_BYTES cursor), (N.ltb_spec cumulative chunk); simpl;
    (split; [try done; intros _; lia | intros ?; first [done | lia]]).
Qed.

Lemma is_empty_count {A} (l : list A) : is_empty l = false <-> 0 < count l.
Proof. destruct l; [done|]. rewrite count_cons. simpl. split; [lia | done]. Qed.

Lemma validate_chunk_Ok l before p n :
  max_cumulative_bytes l <= MAX_CUMULATIVE_BYTES ->
  validate_chunk l before p = Ok n <->
  0 < count p <= max_chunk_bytes l /\ n = before + count p /\ n <= max_cumulative_bytes l.
Proof.
  intros Hl. unfold validate_chunk. split.
  - intros E. peel E. apply checked_add_Some in G1 as [-> _].
    apply negb_true_iff, is_empty_count in G. facts. subst. lia.
  - intros (Hp & -> & Hn). rewrite (proj2 (is_empty_count p)) by lia. cbn [negb guard rbind].
    rewrite (proj2 (N.ltb_ge _ _)) by lia. cbn [negb guard rbind].
    rewrite (proj2 (checked_add_Some before (count p) (before + count p))).
    + cbn [ok_or rbind]. by rewrite (proj2 (N.ltb_ge _ _)) by lia.
    + split; [done|]. unfold MAX_CUMULATIVE_BYTES, u64_max in *. lia.
Qed.

Definition cursor_ok (l : ChunkLimits) (cursor : option (list N)) : Prop :=
  match cursor with None => True | Some bs => 0 < count bs <= max_cursor_bytes l end.

Lemma chunk_frame_validate_Ok f l u :
  chunk_limits_validate l = Ok tt ->
  chunk_frame_validate f l = Ok u <->
  0 < count (chf_payload f) <= max_chunk_bytes l /\ cursor_ok l (chf_resume_cursor f).
Proof.
  intros Hl. unfold chunk_frame_validate, validate_shape. rewrite Hl. cbn [map_err rbind].
  apply chunk_limits_validate_Ok in Hl. destruct u. split.
  - intros E. apply rbind_Ok in E as (_ & _ & E).
    apply rbind_Ok in E as (n & (Hp & _)%validate_chunk_Ok & E); [|lia]. split; [done|].
    unfold validate_cursor_len in E. destruct (chf_resume_cursor f) as [bs|]; [|done].
    simpl. peel E. facts. apply guard_Ok in E. facts. lia.
  - intros [Hp Hc]. rewrite (proj2 (is_empty_count (chf_payload f))) by lia. cbn [negb guard rbind].
    rewrite (proj2 (N.ltb_ge _ _)) by lia. cbn [negb guard rbind].
    rewrite (proj2 (validate_chunk_Ok l 0 (chf_payload f) (0 + count (chf_payload f)) ltac:(lia)))
      by (split_and!; lia).
    unfold validate_cursor_len. destruct (chf_resume_cursor f) as [bs|]; [|done]. simpl in Hc.
    rewrite (proj2 (N.eqb_neq (count bs) 0)) by lia. cbn [negb guard rbind].
    rewrite (proj2 (N.ltb_ge MAX_CURSOR_BYTES _)) by lia. cbn [negb guard rbind].
    by rewrite (proj2 (N.ltb_ge (max_cursor_bytes l) _)) by lia.
Qed.

Section Transfer.
Context `{Sha256}.

(** The context after a run of frames, each accepted or refused. *)
Definition accept_all (c : ChunkContext) (frames : list ChunkFrame) : ChunkContext :=
  fold_left (fun c f => fst (accept c f)) frames c.

(** What a sender must send from the [index]th chunk on, [sent] bytes into the
    content: contiguous indices, nonempty chunks within the limits, the digest
    of everything sent so far, and nothing after the final chunk. *)
Fixpoint transfer (id : TransferId) (l : ChunkLimits) (cursor : option (list N)) (index : N)
    (sent : list N) (frames : list ChunkFrame) : Prop :=
  match frames with
  | [] => True
  | f :: rest =>
      chf_transfer_id f = id /\ chf_index f = index /\ chf_resume_cursor f = cursor
      /\ 0 < count (chf_payload f) <= max_chunk_bytes l
      /\ count sent + count (chf_payload f) <= max_cumulative_bytes l
      /\ chf_cumulative_sha256 f = sha256 (sent ++ chf_payload f)
      /\ (chf_final_chunk f = true -> rest = [])
      /\ transfer id l cursor (index + 1) (sent ++ chf_payload f) rest
  end.

(** A context that has received [sent] without a violation. *)
Record receiving (c : ChunkContext) (sent : list N) : Prop := {
  rc_limits : chunk_limits_validate (chc_limits c) = Ok tt;
  rc_cursor : cursor_ok (chc_limits c) (chc_resume_cursor c);
  rc_hasher : chc_cumulative_hasher c = sent;
  rc_bytes : chc_cumulative_bytes c = count sent;
  rc_max : count sent <= max_cumulative_bytes (chc_limits c);
  rc_index : chc_next_index c <= count sent;
  rc_clean : chc_poisoned c = false;
}.

Lemma accept_checks_Ok c sent f n : receiving c sent ->
  accept_checks c f = Ok n <->
  chc_complete c = false /\ chf_transfer_id f = chc_transfer_id c
  /\ chf_index f = chc_next_index c /\ chf_resume_cursor f = chc_resume_cursor c
  /\ 0 < count (chf_payload f) <= max_chunk_bytes (chc_limits c)
  /\ n = count sent + count (chf_payload f)
  /\ n <= max_cumulative_bytes (chc_limits c)
  /\ chf_cumulative_sha256 f = sha256 (sent ++ chf_payload f).
Proof.
  intros [Hl Hc Hh Hb _ _ _]. unfold accept_checks. rewrite Hh, Hb.
  pose proof (proj1 (chunk_limits_validate_Ok _ _) Hl) as Hl'. split.
  - intros E. peel E. apply chunk_frame_validate_Ok in G0 as [Hp _]; [|done].
    apply validate_chunk_Ok in G4 as (_ & -> & Hn); [|lia]. facts. subst. done.
  - intros (-> & Hid & Hi & Hcur & Hp & -> & Hn & Hsha). cbn [negb guard rbind].
    rewrite (proj2 (chunk_frame_validate_Ok f _ tt Hl)) by (by rewrite Hcur).
    cbn [rbind]. rewrite Hid, Hi, Hcur, Hsha, !eqb_refl, N.eqb_refl. cbn [guard rbind].
    rewrite (proj2 (validate_chunk_Ok (chc_limits c) (count sent) (chf_payload f)
                      (count sent + count (chf_payload f)) ltac:(lia))) by done.
    done.
Qed.

Lemma poisoned_stays frames : forall c, chc_poisoned c = true -> accept_all c frames = c.
Proof.
  induction frames as [|f frames IH]; intros c Hc; [done|].
  change (accept_all (fst (accept c f)) frames = c).
  replace (accept c f) with (c, @Err unit _ Poisoned) by (unfold accept; by rewrite Hc). by apply IH.
Qed.

Lemma accept_refused c sent f e : receiving c sent -> accept_checks c f = Err e ->
  accept c f = (with_flags c false true, Err e).
Proof.
  intros Hc He. unfold accept. rewrite (rc_clean _ _ Hc). unfold accept_inner. by rewrite He.
Qed.

Lemma accept_accepted c sent f n : receiving c sent -> accept_checks c f = Ok n ->
  let c' := absorb c (sent ++ chf_payload f) n (chc_next_index c + 1) (chf_final_chunk f) in
  accept c f = (c', Ok tt) /\ receiving c' (sent ++ chf_payload f).
Proof.
  intros Hc He. pose proof Hc as [Hl Hcur Hh Hb Hm Hi Hp].
  apply (accept_checks_Ok _ _ _ _ Hc) in He as He'. destruct He' as (_ & _ & _ & _ & Hpay & Hn & Hle & _).
  apply chunk_limits_validate_Ok in Hl as Hl'.
  assert (chc_next_index c + 1 <= u32_max).
  { unfold MAX_CUMULATIVE_BYTES, u32_max in *. lia. }
  split.
  - unfold accept. rewrite Hp. unfold accept_inner. rewrite He, Hh.
    by rewrite (proj2 (N.leb_le _ _)).
  - split; simpl; try done; rewrite ?count_app; lia.
Qed.

(** The completion flag a run of frames leaves. *)
Definition final_flag (complete : bool) (frames : list ChunkFrame) : bool :=
  fold_left (fun _ f => chf_final_chunk f) frames complete.

Lemma accept_all_spec frames : forall c sent, receiving c sent ->
  (chc_poisoned (accept_all c frames) = false <->
     (chc_complete c = true -> frames = [])
     /\ transfer (chc_transfer_id c) (chc_limits c) (chc_resume_cursor c) (chc_next_index c)
          sent frames)
  /\ (chc_poisoned (accept_all c frames) = false ->
        receiving (accept_all c frames) (sent ++ concat (map chf_payload frames))
        /\ chc_complete (accept_all c frames) = final_flag (chc_complete c) frames).
Proof.
  induction frames as [|f frames IH]; intros c sent Hc.
  - simpl. rewrite app_nil_r. pose proof (rc_clean _ _ Hc). naive_solver.
  - cbn [accept_all fold_left transfer map concat]. fold (accept_all (fst (accept c f)) frames).
    destruct (accept_checks c f) as [n|e] eqn:He.
    + destruct (accept_accepted _ _ _ _ Hc He) as [-> Hc']. cbn [fst].
      apply (accept_checks_Ok _ _ _ _ Hc) in He as (Hcomp & Hid & Hi & Hcur & Hp & -> & Hle & Hsha).
      destruct (IH _ _ Hc') as [IHiff IHok]. cbn [absorb chc_complete chc_transfer_id chc_limits
        chc_resume_cursor chc_next_index] in IHiff, IHok. rewrite Hcomp, <- app_assoc in *.
      split; [|done]. rewrite IHiff. naive_solver.
    + rewrite (accept_refused _ _ _ _ Hc He). cbn [fst]. rewrite poisoned_stays by done.
      simpl. split; [|done]. split; [done|].
      intros (Hcomp & Hid & Hi & Hcur & Hp & Hle & Hsha & _ & _). exfalso.
      assert (accept_checks c f = Ok (count sent + count (chf_payload f))) as He'.
      { apply (accept_checks_Ok _ _ _ _ Hc). split_and!; try done; try lia.
        by destruct (chc_complete c); [specialize (Hcomp eq_refl)|]. }
      congruence.
Qed.

Lemma context_new_receiving id l cursor c :
  chunk_context_new id l cursor = Ok c -> receiving c []
  /\ chc_complete c = false /\ chc_transfer_id c = id /\ chc_limits c = l
  /\ chc_resume_cursor c = cursor /\ chc_next_index c = 0.
Proof.
  unfold chunk_context_new. intros E. peel E. subst. destruct x. split; [|done].
  split; simpl; try done; [|by rewrite count_nil; lia].
  destruct cursor as [bs|]; [|done]. simpl. unfold validate_cursor_len in G0. peel G0.
  apply guard_Ok in G0. facts. lia.
Qed.

End Transfer.

(** Under a condition both sides only need to agree. *)
Lemma and_iff_compat_l_iff (A B C : Prop) : (A -> (B <-> C)) -> (A /\ B <-> A /\ C).
Proof. tauto. Qed.

Lemma accept_keeps_limits `{Sha256} c f : chc_limits (fst (accept c f)) = chc_limits c.
Proof.
  unfold accept, accept_inner. destruct (chc_poisoned c); [done|].
  destruct (accept_checks c f); [|done]. by destruct (_ <=? u32_max).
Qed.

Lemma accept_all_limits `{Sha256} frames : forall c, chc_limits (accept_all c frames) = chc_limits c.
Proof.
  induction frames as [|f frames IH]; intros c; [done|].
  change (chc_limits (accept_all (fst (accept c f)) frames) = chc_limits c).
  by rewrite IH, accept_keeps_limits.
Qed.

Lemma transfer_digest `{Sha256} id l cursor before : forall i sent f,
  transfer id l cursor i sent (before ++ [f]) ->
  chf_cumulative_sha256 f = sha256 (sent ++ concat (map chf_payload (before ++ [f]))).
Proof.
  induction before as [|g before IH]; intros i sent f Ht; simpl in *.
  - destruct Ht as (_ & _ & _ & _ & _ & -> & _). by rewrite app_nil_r.
  - destruct Ht as (_ & _ & _ & _ & _ & _ & _ & Ht). apply IH in Ht. by rewrite Ht, app_assoc.
Qed.

(** C16: the receiving context accepts exactly the honest transfers.  A run of
    frames leaves it unpoisoned iff every frame carries the transfer's id and
    cursor, the next index, a chunk within the negotiated limits and the
    digest of the whole content so far, and nothing follows the final chunk;
    it is complete iff moreover the last frame is final, and then the content
    received has the digest that frame announced and fits the limit.  Once
    poisoned it accepts nothing more. *)
Theorem chunk_context_accepts_transfers `{Sha256} (id : TransferId) (l : ChunkLimits)
    (cursor : option (list N)) (c0 : ChunkContext) (frames more : list ChunkFrame)
    (Hnew : chunk_context_new id l cursor = Ok c0) :
  let c := accept_all c0 frames in
  let content := concat (map chf_payload frames) in
  (chc_poisoned c = false <-> transfer id l cursor 0 [] frames)
  /\ (is_complete c = true <->
        transfer id l cursor 0 [] frames
        /\ exists before f, frames = before ++ [f] /\ chf_final_chunk f = true)
  /\ (is_complete c = true ->
        count content <= max_cumulative_bytes l /\ chc_cumulative_bytes c = count content
        /\ exists f, last frames = Some f /\ chf_cumulative_sha256 f = sha256 content)
  /\ (chc_poisoned c = true -> accept_all c0 (frames ++ more) = c).
Proof.
  intros c content.
  destruct (context_new_receiving _ _ _ _ Hnew) as (Hr & Hcomp & Hid & Hlim & Hcur & Hi).
  destruct (accept_all_spec frames _ _ Hr) as [Hiff Hok].
  fold c in Hiff, Hok. rewrite Hid, Hlim, Hcur, Hi, Hcomp in *. cbn [app] in Hok. fold content in Hok.
  assert (chc_poisoned c = false <-> transfer id l cursor 0 [] frames) as Hclean by naive_solver.
  assert (is_complete c = true <->
        transfer id l cursor 0 [] frames
        /\ exists before f, frames = before ++ [f] /\ chf_final_chunk f = true) as Hcomplete.
  { unfold is_complete. rewrite andb_true_iff, negb_true_iff, Hclean, (and_comm (_ = true)).
    apply and_iff_compat_l_iff. intros Ht%Hclean. destruct (Hok Ht) as [_ ->].
    unfold final_flag. destruct frames as [|g gs _] using rev_ind; simpl.
    - split; [done|]. by intros ([|] & ? & ? & ?).
    - rewrite fold_left_app. simpl. split; [eauto|]. intros (b & f & E & Hf).
      by apply app_inj_tail in E as [_ ->]. }
  split_and!; [done|done| |].
  - intros Hc. apply Hcomplete in Hc as [Ht (b & f & E & Hf)].
    destruct (Hok (proj2 Hclean Ht)) as [Hrc _]. pose proof (rc_max _ _ Hrc) as Hm.
    assert (chc_limits c = l) as Hcl by (unfold c; by rewrite accept_all_limits).
    rewrite Hcl in Hm. split_and!; [done|apply (rc_bytes _ _ Hrc)|].
    exists f. subst content. rewrite E, last_snoc. split; [done|].
    apply (transfer_digest id l cursor b 0 [] f). by rewrite <- E.
  - intros Hp. unfold accept_all. rewrite fold_left_app. fold (accept_all c0 frames). fold c.
    by apply poisoned_stays.
Qed.

(** Reading back the entries of a frame fills every slot. *)
Lemma visit_frame_entries f more :
  id_ok (chf_transfer_id f) = true -> chf_index f <= u32_max ->
  length (chf_cumulative_sha256 f) = 32%nat ->
  chunk_frame_deserialize (chunk_frame_entries f ++ more)
  = chunk_frame_visit_map more
      {| fs_transfer_id := Some (chf_transfer_id f); fs_index := Some (chf_index f);
         fs_final_chunk := Some (chf_final_chunk f); fs_payload := Some (chf_payload f);
         fs_cumulative_sha256 := Some (chf_cumulative_sha256 f);
         fs_resume_cursor := Some (chf_resume_cursor f) |}.
Proof.
  intros Hid Hindex Hsha.
  assert (sha256_array (WBin (chf_cumulative_sha256 f)) = Ok (chf_cumulative_sha256 f)) as Hs
    by (unfold sha256_array; simpl; by rewrite Hsha).
  assert (get_optional_bin (match chf_resume_cursor f with Some bs => WBin bs | None => WNil end)
          = Ok (chf_resume_cursor f)) as Hc by (by destruct (chf_resume_cursor f)).
  unfold chunk_frame_deserialize, chunk_frame_entries. cbn [app chunk_frame_visit_map].
  change (chunk_frame_field (lit "transfer_id")) with (@Ok _ SerdeError FTransferId).
  change (chunk_frame_field (lit "index")) with (@Ok _ SerdeError FIndex).
  change (chunk_frame_field (lit "final_chunk")) with (@Ok _ SerdeError FFinalChunk).
  change (chunk_frame_field (lit "payload")) with (@Ok _ SerdeError FPayload).
  change (chunk_frame_field (lit "cumulative_sha256")) with (@Ok _ SerdeError FCumulativeSha256).
  change (chunk_frame_field (lit "resume_cursor")) with (@Ok _ SerdeError FResumeCursor).
  cbn [rbind visit_field no_slots fs_transfer_id fs_index fs_final_chunk fs_payload
       fs_cumulative_sha256 fs_resume_cursor].
  by rewrite (get_id_ok _ Hid), (get_uint_ok _ _ Hindex), Hs, Hc.
Qed.

(** A chunk frame and its limits survive their named-map wire form, field by
    field, and a document that repeats one of its fields is refused. *)
Theorem chunk_wire_roundtrip (f : ChunkFrame) (l : ChunkLimits)
    (Hf : validate_shape f = Ok tt) (Hid : id_ok (chf_transfer_id f) = true)
    (Hindex : chf_index f <= u32_max) (Hsha : length (chf_cumulative_sha256 f) = 32%nat)
    (Hl : chunk_limits_validate l = Ok tt) :
  rbind (chunk_frame_serialize f) chunk_frame_deserialize = Ok f
  /\ rbind (chunk_limits_serialize l) chunk_limits_deserialize = Ok l
  /\ (forall entries e, chunk_frame_serialize f = Ok entries -> e ∈ entries ->
        chunk_frame_deserialize (entries ++ [e]) = Err DuplicateField).
Proof.
  unfold chunk_frame_serialize, chunk_limits_serialize. rewrite Hf, Hl. cbn [map_err rbind].
  split_and!.
  - rewrite <- (app_nil_r (chunk_frame_entries f)), visit_frame_entries by done.
    destruct f. cbn -[validate_shape chunk_frame_new]. unfold chunk_frame_new. by rewrite Hf.
  - apply chunk_limits_validate_Ok in Hl as Hb.
    unfold MAX_CHUNK_BYTES, MAX_CUMULATIVE_BYTES, MAX_CURSOR_BYTES in Hb.
    unfold chunk_limits_deserialize. cbn [chunk_limits_visit_map].
    change (chunk_limits_field (lit "max_chunk_bytes")) with (@Ok _ SerdeError ChunkBytes).
    change (chunk_limits_field (lit "max_cumulative_bytes")) with (@Ok _ SerdeError CumulativeBytes).
    change (chunk_limits_field (lit "max_cursor_bytes")) with (@Ok _ SerdeError CursorBytes).
    cbn [rbind]. rewrite !get_uint_ok by (unfold u32_max, u64_max; lia).
    destruct l. cbn -[chunk_limits_validate]. unfold chunk_limits_try_new. by rewrite Hl.
  - intros es e He Hin. assert (chunk_frame_entries f = es) as <- by congruence.
    rewrite visit_frame_entries by done. unfold chunk_frame_entries in Hin.
    repeat (apply elem_of_cons in Hin as [->|Hin]; [reflexivity|]). by apply elem_of_nil in Hin.
Qed.

(** A digest for the examples. *)
Definition sample_digest : Sha256 := fun bs => repeat (fold_left N.add bs 0 mod 256) 32.

Definition sample_limits : ChunkLimits :=
  {| max_chunk_bytes := 4; max_cumulative_bytes := 6; max_cursor_bytes := 8 |}.

Definition sample_chunk (index : N) (final : bool) (sent payload : list N) : ChunkFrame :=
  {| chf_transfer_id := id_nil; chf_index := index; chf_final_chunk := final;
     chf_payload := payload; chf_cumulative_sha256 := sample_digest (sent ++ payload);
     chf_resume_cursor := None |}.

Definition sample_transfer : list ChunkFrame :=
  [sample_chunk 0 false [] [1; 2; 3]; sample_chunk 1 true [1; 2; 3] [4; 5]].

Lemma chunk_context_accepts_transfers_witness :
  exists c0, @chunk_context_new id_nil sample_limits None = Ok c0
    /\ @transfer sample_digest id_nil sample_limits None 0 [] sample_transfer
    /\ @accept_all sample_digest c0
         ([sample_chunk 0 false [] [1]; sample_chunk 0 true [1] [4]] ++ sample_transfer)
       = @accept_all sample_digest c0 [sample_chunk 0 false [] [1]; sample_chunk 0 true [1] [4]].
Proof.
  eexists. split; [by vm_compute|]. split.
  - pose proof (@chunk_context_accepts_transfers sample_digest id_nil sample_limits None _
      sample_transfer [] ltac:(by vm_compute)) as (Hclean & _). by apply Hclean.
  - pose proof (@chunk_context_accepts_transfers sample_digest id_nil sample_limits None _
      [sample_chunk 0 false [] [1]; sample_chunk 0 true [1] [4]] sample_transfer
      ltac:(by vm_compute)) as (_ & _ & _ & Hp). by apply Hp.
Defined.

Lemma chunk_wire_roundtrip_witness :
  rbind (chunk_frame_serialize (sample_chunk 1 true [1] [2])) chunk_frame_deserialize
  = Ok (sample_chunk 1 true [1] [2]).
Proof.
  pose proof (chunk_wire_roundtrip (sample_chunk 1 true [1] [2]) sample_limits ltac:(by vm_compute)
    ltac:(by vm_compute) ltac:(by vm_compute) ltac:(by vm_compute) ltac:(by vm_compute)) as (Hr & _ & _).
  exact Hr.
Defined.
