(* ===== verification/Stream.v ===== *)
(** Ephemeral resource streams: the wire envelope ([protocol/stream.rs]) and the
    client's admission of one frame ([client/model.rs]). *)
From S2P Require Import Prelude Canonical Wire.

Notation SubscriptionId := (list N) (only parsing).

(** A nonzero [u16]. *)
Definition payload_kind_new (value : N) : option N := if value =? 0 then None else Some value.

Definition BROWSER_FRAME : N := 8.

Record StreamFrame := {
  sf_subscription_id : SubscriptionId;
  sf_stream : list N;
  sf_generation : N;
  sf_sequence : N;
  sf_payload_kind : N;
  sf_schema_version : N;
  sf_payload : list N;
}.

#[export] Instance StreamFrame_eq_dec : EqDecision StreamFrame.
Proof. solve_decision. Defined.

Inductive StreamFrameField :=
  SfSubscriptionId | SfStream | SfGeneration | SfSequence | SfPayloadKind | SfSchemaVersion | SfPayload.

Definition stream_field (value : text) : result StreamFrameField SerdeError :=
  if value =?= lit "subscription_id" then Ok SfSubscriptionId
  else if value =?= lit "stream" then Ok SfStream
  else if value =?= lit "generation" then Ok SfGeneration
  else if value =?= lit "sequence" then Ok SfSequence
  else if value =?= lit "payload_kind" then Ok SfPayloadKind
  else if value =?= lit "schema_version" then Ok SfSchemaVersion
  else if value =?= lit "payload" then Ok SfPayload
  else Err UnknownField.

Definition stream_frame_serialize (f : StreamFrame) : list (text * wire) :=
  [(lit "subscription_id", WBin (sf_subscription_id f));
   (lit "stream", WBin (sf_stream f));
   (lit "generation", WUint (sf_generation f));
   (lit "sequence", WUint (sf_sequence f));
   (lit "payload_kind", WUint (sf_payload_kind f));
   (lit "schema_version", WUint (sf_schema_version f));
   (lit "payload", WBin (sf_payload f))].

Definition payload_kind_deserialize (w : wire) : result N SerdeError :=
  let? value := get_uint u16_max w in
  ok_or (payload_kind_new value) CustomError.

Record StreamSlots := {
  ss_subscription_id : option (list N);
  ss_stream : option (list N);
  ss_generation : option N;
  ss_sequence : option N;
  ss_payload_kind : option N;
  ss_schema_version : option N;
  ss_payload : option (list N);
}.

Definition no_stream_slots : StreamSlots :=
  {| ss_subscription_id := None; ss_stream := None; ss_generation := None; ss_sequence := None;
     ss_payload_kind := None; ss_schema_version := None; ss_payload := None |}.

Definition visit_stream_field (s : StreamSlots) (key : StreamFrameField) (value : wire)
    : result StreamSlots SerdeError :=
  let '{| ss_subscription_id := sub; ss_stream := st; ss_generation := g; ss_sequence := q;
          ss_payload_kind := k; ss_schema_version := v; ss_payload := p |} := s in
  let keep sub st g q k v p :=
    {| ss_subscription_id := sub; ss_stream := st; ss_generation := g; ss_sequence := q;
       ss_payload_kind := k; ss_schema_version := v; ss_payload := p |} in
  match key with
  | SfSubscriptionId => let? sub := fill sub (get_id value) in Ok (keep sub st g q k v p)
  | SfStream => let? st := fill st (get_id value) in Ok (keep sub st g q k v p)
  | SfGeneration => let? g := fill g (get_uint u64_max value) in Ok (keep sub st g q k v p)
  | SfSequence => let? q := fill q (get_uint u64_max value) in Ok (keep sub st g q k v p)
  | SfPayloadKind => let? k := fill k (payload_kind_deserialize value) in Ok (keep sub st g q k v p)
  | SfSchemaVersion => let? v := fill v (get_uint u16_max value) in Ok (keep sub st g q k v p)
  | SfPayload => let? p := fill p (get_bin value) in Ok (keep sub st g q k v p)
  end.

Fixpoint stream_visit_map (entries : list (text * wire)) (s : StreamSlots)
    : result StreamFrame SerdeError :=
  match entries with
  | [] =>
      let? sub := field (ss_subscription_id s) in
      let? st := field (ss_stream s) in
      let? g := field (ss_generation s) in
      let? q := field (ss_sequence s) in
      let? k := field (ss_payload_kind s) in
      let? v := field (ss_schema_version s) in
      let? p := field (ss_payload s) in
      Ok {| sf_subscription_id := sub; sf_stream := st; sf_generation := g; sf_sequence := q;
            sf_payload_kind := k; sf_schema_version := v; sf_payload := p |}
  | (name, value) :: rest =>
      let? key := stream_field name in
      let? s := visit_stream_field s key value in
      stream_visit_map rest s
  end.

Definition stream_frame_deserialize (entries : list (text * wire)) : result StreamFrame SerdeError :=
  stream_visit_map entries no_stream_slots.

(** ** Admission at the client *)

Inductive StreamAdmissionReject :=
| SubscriptionMismatch
| ResourceMismatch
| GenerationMismatch (expected actual : N)
| ZeroSequence
| StaleSequence (last actual : N)
| SequenceGap (last actual : N).

Record AdmittedStreamFrame := {
  as_resource_id : list N;
  as_generation : N;
  as_sequence : N;
  as_output : option text;
}.

(** [std::str::from_utf8], a parameter: which byte strings are text, and which
    text they are. *)
Class Utf8 := from_utf8 : list N -> option text.

Definition admit_subscription_stream `{Utf8} (expected_subscription : SubscriptionId)
    (expected_resource : list N) (expected_generation last_sequence : N) (f : StreamFrame)
    : result AdmittedStreamFrame StreamAdmissionReject :=
  ensure sf_subscription_id f =?= expected_subscription else SubscriptionMismatch ;;
  ensure sf_stream f =?= expected_resource else ResourceMismatch ;;
  ensure sf_generation f =? expected_generation
    else GenerationMismatch expected_generation (sf_generation f) ;;
  ensure negb (sf_sequence f =? 0) else ZeroSequence ;;
  ensure negb (negb (last_sequence =? 0) && (sf_sequence f <=? last_sequence))
    else StaleSequence last_sequence (sf_sequence f) ;;
  ensure negb (negb (last_sequence =? 0)
               && negb (sf_sequence f =? saturating_add last_sequence 1))
    else SequenceGap last_sequence (sf_sequence f) ;;
  ensure negb ((last_sequence =? 0) && negb (sf_sequence f =? 1))
    else SequenceGap last_sequence (sf_sequence f) ;;
  Ok {| as_resource_id := expected_resource; as_generation := sf_generation f;
        as_sequence := sf_sequence f; as_output := from_utf8 (sf_payload f) |}.

Section Admission.
Context `{Utf8} (subscription resource : list N) (generation : N).

(** A client that keeps the sequence of the last frame it admitted. *)
Fixpoint admit_run (last : N) (frames : list StreamFrame) : result N StreamAdmissionReject :=
  match frames with
  | [] => Ok last
  | f :: rest =>
      let? a := admit_subscription_stream subscription resource generation last f in
      admit_run (as_sequence a) rest
  end.

Definition fenced (f : StreamFrame) : Prop :=
  sf_subscription_id f = subscription /\ sf_stream f = resource /\ sf_generation f = generation.

Lemma admit_Ok last f a : last <= u64_max -> sf_sequence f <= u64_max ->
  admit_subscription_stream subscription resource generation last f = Ok a <->
  fenced f /\ sf_sequence f = last + 1
  /\ a = {| as_resource_id := resource; as_generation := generation; as_sequence := last + 1;
            as_output := from_utf8 (sf_payload f) |}.
Proof.
  intros Hlast Hseq. unfold admit_subscription_stream, fenced. split.
  - intros E. peel E. facts. subst. unfold saturating_add in *.
    assert (sf_sequence f = last + 1) as Hs by lia. rewrite Hs. naive_solver.
  - intros ((-> & -> & ->) & Hs & ->). rewrite !eqb_refl, N.eqb_refl, Hs. cbn [guard rbind].
    rewrite (proj2 (N.eqb_neq (last + 1) 0)) by lia. cbn [negb guard rbind].
    rewrite (proj2 (N.leb_gt (last + 1) last)) by lia. rewrite andb_false_r. cbn [negb guard rbind].
    unfold saturating_add. rewrite N.min_l by lia. rewrite N.eqb_refl, andb_false_r. cbn [negb guard rbind].
    destruct (N.eqb_spec last 0) as [->|]; done.
Qed.

Lemma admit_run_Ok frames : forall last n, last <= u64_max ->
  Forall (fun f => sf_sequence f <= u64_max) frames ->
  admit_run last frames = Ok n <->
  Forall fenced frames
  /\ map sf_sequence frames = map (fun k => last + 1 + N.of_nat k) (seq 0 (length frames))
  /\ n = last + count frames.
Proof.
  induction frames as [|f frames IH]; intros last n Hl Hs; simpl.
  - unfold count. simpl. split; [intros [= <-]; by rewrite N.add_0_r | intros (_ & _ & ->); f_equal; lia].
  - inversion_clear Hs. rewrite rbind_Ok, Forall_cons, <- seq_shift, map_map, count_cons. split.
    + intros (a & (Hf & Hseq & ->)%admit_Ok & Hr); [|done..]. simpl in Hr.
      apply IH in Hr as (Hfs & Hm & ->); [|lia|done]. split_and!; try done; [|lia].
      rewrite Hseq, Hm. simpl. f_equal; [lia|]. apply map_ext. lia.
    + intros ([Hf Hfs] & Hm & ->). injection Hm as Hseq Hm. eexists. split.
      * apply admit_Ok; [done..|]. split_and!; [done| |done]. lia.
      * simpl. apply IH; [lia|done|]. split_and!; [done| |lia].
        rewrite Hm. apply map_ext. lia.
Qed.

End Admission.

Lemma stream_wire_fields f :
  id_ok (sf_subscription_id f) = true -> id_ok (sf_stream f) = true ->
  sf_generation f <= u64_max -> sf_sequence f <= u64_max ->
  0 < sf_payload_kind f <= u16_max -> sf_schema_version f <= u16_max ->
  stream_frame_deserialize (stream_frame_serialize f) = Ok f.
Proof.
  intros Hsub Hst Hg Hq Hk Hv.
  assert (payload_kind_deserialize (WUint (sf_payload_kind f)) = Ok (sf_payload_kind f)) as Hkind.
  { unfold payload_kind_deserialize. rewrite get_uint_ok by lia. simpl. unfold payload_kind_new.
    by rewrite (proj2 (N.eqb_neq _ _)) by lia. }
  unfold stream_frame_deserialize, stream_frame_serialize. cbn [stream_visit_map].
  change (stream_field (lit "subscription_id")) with (@Ok _ SerdeError SfSubscriptionId).
  change (stream_field (lit "stream")) with (@Ok _ SerdeError SfStream).
  change (stream_field (lit "generation")) with (@Ok _ SerdeError SfGeneration).
  change (stream_field (lit "sequence")) with (@Ok _ SerdeError SfSequence).
  change (stream_field (lit "payload_kind")) with (@Ok _ SerdeError SfPayloadKind).
  change (stream_field (lit "schema_version")) with (@Ok _ SerdeError SfSchemaVersion).
  change (stream_field (lit "payload")) with (@Ok _ SerdeError SfPayload).
  apply get_id_ok in Hsub, Hst. apply get_uint_ok in Hg, Hq, Hv.
  repeat (cbn -[get_id get_uint payload_kind_deserialize];
          first [rewrite Hsub | rewrite Hst | rewrite Hg | rewrite Hq | rewrite Hkind | rewrite Hv]).
  by destruct f.
Qed.

(** The client's view of a resource stream has no gap, repetition or foreign
    frame.  Starting with nothing received, a run of frames is admitted
    exactly when all carry the subscription, resource and generation expected
    and their sequences are 1, 2, 3 and so on; and a frame survives its wire
    form, so the fences it is checked against are the ones the host set. *)
Theorem stream_admission_gap_free `{Utf8} (subscription resource : list N) (generation : N)
    (frames : list StreamFrame) (n : N)
    (Hs : Forall (fun f => sf_sequence f <= u64_max) frames) :
  (admit_run subscription resource generation 0 frames = Ok n <->
     Forall (fenced subscription resource generation) frames
     /\ map sf_sequence frames = map (fun k => 1 + N.of_nat k) (seq 0 (length frames))
     /\ n = count frames)
  /\ (forall f, f ∈ frames -> id_ok (sf_subscription_id f) = true -> id_ok (sf_stream f) = true ->
        sf_generation f <= u64_max -> 0 < sf_payload_kind f <= u16_max ->
        sf_schema_version f <= u16_max ->
        stream_frame_deserialize (stream_frame_serialize f) = Ok f).
Proof.
  split.
  - rewrite admit_run_Ok by done. by rewrite N.add_0_l.
  - intros f Hf ? ? ? ? ?. rewrite Forall_forall in Hs. apply stream_wire_fields; auto.
Qed.

Definition sample_stream_frame (sequence : N) : StreamFrame :=
  {| sf_subscription_id := id_nil; sf_stream := id_nil; sf_generation := 3; sf_sequence := sequence;
     sf_payload_kind := BROWSER_FRAME; sf_schema_version := 1; sf_payload := [104] |}.

Lemma stream_admission_gap_free_witness :
  @admit_run Some id_nil id_nil 3 0 (map sample_stream_frame [1; 2]) = Ok 2
  /\ @admit_run Some id_nil id_nil 3 0 (map sample_stream_frame [1; 3]) = Err (SequenceGap 1 3)
  /\ stream_frame_deserialize (stream_frame_serialize (sample_stream_frame 2))
     = Ok (sample_stream_frame 2).
Proof.
  pose proof (@stream_admission_gap_free Some id_nil id_nil 3 (map sample_stream_frame [1; 2]) 2
    ltac:(by repeat constructor)) as [H1 H2].
  split; [apply H1; split; [by repeat constructor|by split]|]. split; [by vm_compute|].
  apply H2; [by apply list_elem_of_further, list_elem_of_here | by vm_compute..].
Defined.
