(* ===== verification/Order.v ===== *)
(** Orders of the standard library: lexicographic [Ord], and [BTreeSet] as the
    strictly increasing list of its elements. *)
From S2P Require Import Prelude.

(** [Ordering::then_with] *)
Definition then_with (a b : comparison) : comparison := match a with Eq => b | c => c end.

(** [Ord] of [String]: the order of the UTF-8 bytes is that of the scalars. *)
Fixpoint str_cmp (a b : text) : comparison :=
  match a, b with
  | [], [] => Eq
  | [], _ => Lt
  | _, [] => Gt
  | x :: a, y :: b => match x ?= y with Eq => str_cmp a b | c => c end
  end.

(** A total order as [Ord::cmp]. *)
Class LawfulCmp {A} (cmp : A -> A -> comparison) : Prop := {
  cmp_eq x y : cmp x y = Eq <-> x = y;
  cmp_opp x y : cmp y x = CompOpp (cmp x y);
  cmp_trans x y z : cmp x y = Lt -> cmp y z = Lt -> cmp x z = Lt;
}.

Definition lex_cmp {A B} (c : A -> A -> comparison) (d : B -> B -> comparison) (x y : A * B)
    : comparison :=
  then_with (c (fst x) (fst y)) (d (snd x) (snd y)).

(** The reverse order, [other.cmp(self)]. *)
Definition rev_cmp {A} (c : A -> A -> comparison) (x y : A) : comparison := c y x.

#[global] Typeclasses Opaque lex_cmp rev_cmp str_cmp.
#[global] Hint Mode LawfulCmp - ! : typeclass_instances.

#[export] Instance N_cmp_lawful : LawfulCmp N.compare.
Proof.
  split; [apply N.compare_eq_iff|apply N.compare_antisym|].
  intros x y z. rewrite !N.compare_lt_iff. apply N.lt_trans.
Qed.

#[export] Instance Z_cmp_lawful : LawfulCmp Z.compare.
Proof.
  split; [apply Z.compare_eq_iff|apply Z.compare_antisym|].
  intros x y z. rewrite !Z.compare_lt_iff. apply Z.lt_trans.
Qed.

#[export] Instance rev_cmp_lawful {A} (c : A -> A -> comparison) `{!LawfulCmp c} :
  LawfulCmp (rev_cmp c).
Proof.
  unfold rev_cmp. split; intros.
  - rewrite cmp_eq. split; congruence.
  - apply cmp_opp.
  - by eapply cmp_trans.
Qed.

#[export] Instance lex_cmp_lawful {A B} (c : A -> A -> comparison) (d : B -> B -> comparison)
  `{!LawfulCmp c, !LawfulCmp d} : LawfulCmp (lex_cmp c d).
Proof.
  unfold lex_cmp. split.
  - intros [x1 x2] [y1 y2]. simpl. unfold then_with. destruct (c x1 y1) eqn:E.
    + apply cmp_eq in E as ->. rewrite cmp_eq. split; congruence.
    + split; [done|]. intros [= -> ->]. by rewrite (proj2 (cmp_eq y1 y1)) in E.
    + split; [done|]. intros [= -> ->]. by rewrite (proj2 (cmp_eq y1 y1)) in E.
  - intros [x1 x2] [y1 y2]. simpl. rewrite (cmp_opp (cmp:=c) x1 y1). destruct (c x1 y1); simpl; [|done..].
    apply cmp_opp.
  - intros [x1 x2] [y1 y2] [z1 z2]. simpl. unfold then_with.
    destruct (c x1 y1) eqn:E1; [apply cmp_eq in E1 as ->| |done].
    + by destruct (c y1 z1) eqn:E2; [apply cmp_trans| |].
    + intros _. destruct (c y1 z1) eqn:E2; [apply cmp_eq in E2 as ->; by rewrite E1| |done].
      by rewrite (cmp_trans _ _ _ E1 E2).
Qed.

#[export] Instance str_cmp_lawful : LawfulCmp str_cmp.
Proof.
  split.
  - induction x as [|x a IH]; intros [|y b]; simpl; try done.
    destruct (x ?= y) eqn:E.
    + apply N.compare_eq_iff in E as ->. rewrite IH. split; congruence.
    + split; [done|]. intros [= -> ->]. by rewrite N.compare_refl in E.
    + split; [done|]. intros [= -> ->]. by rewrite N.compare_refl in E.
  - induction x as [|x a IH]; intros [|y b]; simpl; try done.
    rewrite (N.compare_antisym x y). destruct (x ?= y); simpl; [apply IH|done..].
  - induction x as [|x a IH]; intros [|y b] [|z d]; simpl; try done.
    destruct (x ?= y) eqn:E1; [apply N.compare_eq_iff in E1 as ->| |done].
    + destruct (y ?= z) eqn:E2; [apply IH|done|done].
    + intros _. destruct (y ?= z) eqn:E2; [apply N.compare_eq_iff in E2 as ->; by rewrite E1| |done].
      rewrite N.compare_lt_iff in E1, E2. intros _.
      by rewrite (proj2 (N.compare_lt_iff x z)) by lia.
Qed.

(** An order pulled back along an injection. *)
Lemma lawful_pullback {A B} (f : A -> B) (c : B -> B -> comparison) `{!LawfulCmp c} `{!Inj eq eq f} :
  LawfulCmp (fun x y => c (f x) (f y)).
Proof.
  split; intros.
  - rewrite cmp_eq. split; [apply inj, _|congruence].
  - apply cmp_opp.
  - by eapply cmp_trans.
Qed.

(** ** [BTreeSet] *)

Section OrdSet.
Context {A : Type} (cmp : A -> A -> comparison).

(** [BTreeSet::insert]: an equal element stays. *)
Fixpoint set_insert (x : A) (l : list A) : list A :=
  match l with
  | [] => [x]
  | y :: l' =>
      match cmp x y with
      | Lt => x :: l
      | Eq => l
      | Gt => y :: set_insert x l'
      end
  end.

(** [BTreeSet::remove] *)
Fixpoint set_remove (x : A) (l : list A) : list A :=
  match l with
  | [] => []
  | y :: l' =>
      match cmp x y with
      | Lt => l
      | Eq => l'
      | Gt => y :: set_remove x l'
      end
  end.

Definition increasing (l : list A) : Prop := StronglySorted (fun x y => cmp x y = Lt) l.

Context `{!LawfulCmp cmp}.

Lemma cmp_gt x y : cmp x y = Gt <-> cmp y x = Lt.
Proof. rewrite (cmp_opp (cmp:=cmp) x y). by destruct (cmp x y). Qed.

Lemma elem_of_set_insert x y l : y ∈ set_insert x l <-> y = x \/ y ∈ l.
Proof.
  induction l as [|z l IH]; simpl; [set_solver|].
  destruct (cmp x z) eqn:E; [apply cmp_eq in E as ->|..]; rewrite ?elem_of_cons, ?IH; tauto.
Qed.

Lemma set_insert_increasing x l : increasing l -> increasing (set_insert x l).
Proof.
  induction 1 as [|z l Hl IH Hz]; simpl; [repeat constructor|].
  destruct (cmp x z) eqn:E; [by constructor| |].
  - constructor; [by constructor|]. constructor; [done|].
    eapply Forall_impl; [exact Hz|]. intros y. by apply cmp_trans.
  - apply cmp_gt in E. constructor; [done|]. apply Forall_forall. intros y [->|Hy]%elem_of_set_insert; [done|].
    rewrite Forall_forall in Hz. by apply Hz.
Qed.

Lemma elem_of_set_remove x y l : increasing l -> y ∈ set_remove x l <-> y ∈ l /\ y <> x.
Proof.
  induction 1 as [|z l Hl IH Hz]; simpl; [set_solver|]. rewrite Forall_forall in Hz.
  assert (forall v, v ∈ l -> v <> z) as Hne.
  { intros v Hv%Hz ->. by rewrite (proj2 (cmp_eq z z)) in Hv. }
  destruct (cmp x z) eqn:E; rewrite ?elem_of_cons.
  - apply cmp_eq in E as ->. split; [|by intros [[?|?] ?]]. intros Hy. split; [by right|by apply Hne].
  - split; [|by intros [? ?]]. intros Hy. split; [done|]. intros ->.
    destruct Hy as [->|Hy%Hz]; [by rewrite (proj2 (cmp_eq z z)) in E|].
    apply cmp_gt in E. congruence.
  - rewrite IH. assert (x <> z) by (intros ->; by rewrite (proj2 (cmp_eq z z)) in E).
    split; [|tauto]. intros [->|[? ?]]; [split; [by left|congruence]|tauto].
Qed.

Lemma set_remove_increasing x l : increasing l -> increasing (set_remove x l).
Proof.
  intros Hl. induction Hl as [|z l Hl' IH Hz]; simpl; [constructor|].
  destruct (cmp x z) eqn:E; [done|by constructor|]. constructor; [done|].
  apply Forall_forall. intros y Hy%elem_of_set_remove; [|done]. rewrite Forall_forall in Hz. by apply Hz, Hy.
Qed.

(** Two increasing lists of the same elements are the same list. *)
Lemma increasing_unique l : forall k, increasing l -> increasing k ->
  (forall x, x ∈ l <-> x ∈ k) -> l = k.
Proof.
  induction l as [|x l IH]; intros [|y k] Hl Hk Hiff; [done|..].
  - exfalso. eapply not_elem_of_nil, Hiff. left.
  - exfalso. eapply not_elem_of_nil, Hiff. left.
  - apply StronglySorted_inv in Hl as [Hl Hx]. apply StronglySorted_inv in Hk as [Hk Hy].
    rewrite Forall_forall in Hx, Hy. assert (x = y) as ->.
    { assert (x ∈ y :: k) as Hxk by (apply Hiff; left). assert (y ∈ x :: l) as Hyl by (apply Hiff; left).
      apply elem_of_cons in Hxk as [?|Hxk]; [done|]. apply elem_of_cons in Hyl as [?|Hyl]; [done|].
      apply Hx in Hyl. apply Hy in Hxk. apply cmp_gt in Hxk. congruence. }
    f_equal. apply IH; [done..|]. intros z.
    assert (forall v, v ∈ l -> v <> y) as Hn1 by (intros v Hv%Hx ->; by rewrite (proj2 (cmp_eq y y)) in Hv).
    assert (forall v, v ∈ k -> v <> y) as Hn2 by (intros v Hv%Hy ->; by rewrite (proj2 (cmp_eq y y)) in Hv).
    specialize (Hiff z). rewrite !elem_of_cons in Hiff. specialize (Hn1 z). specialize (Hn2 z). tauto.
Qed.
End OrdSet.
