(* ===== verification/OperationQueue.v ===== *)
(** The browser operation queue ([browser/operation_queue.rs]): per logical tab,
    one active operation and the ones waiting behind it. *)
From S2P Require Import Prelude Order.

Record BrowserWorkspaceKey := {
  wk_project_id : text;
  wk_ai_tab_id : text;
}.

Record BrowserOperationTarget := {
  ot_workspace_key : BrowserWorkspaceKey;
  ot_tab_id : text;
}.

#[export] Instance BrowserWorkspaceKey_eq_dec : EqDecision BrowserWorkspaceKey.
Proof. solve_decision. Defined.
#[export] Instance BrowserOperationTarget_eq_dec : EqDecision BrowserOperationTarget.
Proof. solve_decision. Defined.
#[export] Instance BrowserOperationTarget_countable : Countable BrowserOperationTarget.
Proof.
  refine (inj_countable'
    (fun t => (wk_project_id (ot_workspace_key t), wk_ai_tab_id (ot_workspace_key t), ot_tab_id t))
    (fun '(p, a, t) =>
       {| ot_workspace_key := {| wk_project_id := p; wk_ai_tab_id := a |}; ot_tab_id := t |}) _).
  by intros [[p a] t].
Defined.

Inductive QueueError := InvalidTabId.

Definition target_new (workspace_key : BrowserWorkspaceKey) (tab_id : text)
    : result BrowserOperationTarget QueueError :=
  ensure negb (is_empty (trim tab_id)) else InvalidTabId ;;
  Ok {| ot_workspace_key := workspace_key; ot_tab_id := tab_id |}.

Section Queue.
Context {T : Type}.

Record QueuedOperation := { qo_operation_id : text; qo_value : T }.

Record BrowserQueueCancellation := {
  qc_active_operation_id : option text;
  qc_queued : list T;
}.

Record BrowserOperationQueue := {
  oq_active : gmap BrowserOperationTarget text;
  oq_queued : gmap BrowserOperationTarget (list QueuedOperation);
}.

Definition queue_default : BrowserOperationQueue := {| oq_active := ∅; oq_queued := ∅ |}.

(** [queued.get(target).unwrap_or_default()] *)
Definition waiting (q : BrowserOperationQueue) (target : BrowserOperationTarget)
    : list QueuedOperation := default [] (oq_queued q !! target).

Definition enqueue (q : BrowserOperationQueue) (target : BrowserOperationTarget)
    (operation_id : text) (value : T) : BrowserOperationQueue * option T :=
  match oq_active q !! target with
  | Some _ =>
      ({| oq_active := oq_active q;
          oq_queued := <[target := waiting q target
                          ++ [{| qo_operation_id := operation_id; qo_value := value |}]]>
                         (oq_queued q) |}, None)
  | None =>
      ({| oq_active := <[target := operation_id]> (oq_active q); oq_queued := oq_queued q |},
       Some value)
  end.

Definition active_operation_id (q : BrowserOperationQueue) (target : BrowserOperationTarget)
    : option text := oq_active q !! target.

Definition complete (q : BrowserOperationQueue) (target : BrowserOperationTarget)
    (operation_id : text) : BrowserOperationQueue * option T :=
  if negb (active_operation_id q target =?= Some operation_id) then (q, None)
  else
    let active := delete target (oq_active q) in
    match oq_queued q !! target with
    | None | Some [] =>
        ({| oq_active := active; oq_queued := delete target (oq_queued q) |}, None)
    | Some (next :: rest) =>
        ({| oq_active := <[target := qo_operation_id next]> active;
            oq_queued := if is_empty rest then delete target (oq_queued q)
                         else <[target := rest]> (oq_queued q) |},
         Some (qo_value next))
    end.

Definition cancel_tab (q : BrowserOperationQueue) (target : BrowserOperationTarget)
    : BrowserOperationQueue * BrowserQueueCancellation :=
  ({| oq_active := delete target (oq_active q); oq_queued := delete target (oq_queued q) |},
   {| qc_active_operation_id := oq_active q !! target;
      qc_queued := map qo_value (waiting q target) |}).

Definition cancel_queued (q : BrowserOperationQueue) (target : BrowserOperationTarget)
    : BrowserOperationQueue * list T :=
  ({| oq_active := oq_active q; oq_queued := delete target (oq_queued q) |},
   map qo_value (waiting q target)).

(** ** Cancelling every tab of a workspace or project *)

(** [slice::sort_by] by a comparison, and [Vec::dedup]. *)
Fixpoint insert_by {A} (cmp : A -> A -> comparison) (x : A) (l : list A) : list A :=
  match l with
  | [] => [x]
  | y :: l => match cmp x y with Gt => y :: insert_by cmp x l | _ => x :: y :: l end
  end.

Definition sort_by {A} (cmp : A -> A -> comparison) (l : list A) : list A :=
  fold_right (insert_by cmp) [] l.

Fixpoint dedup (l : list BrowserOperationTarget) : list BrowserOperationTarget :=
  match l with
  | x :: ((y :: _) as rest) => if x =?= y then dedup rest else x :: dedup rest
  | l => l
  end.

(** [self.active.keys().chain(self.queued.keys())] *)
Definition keys (q : BrowserOperationQueue) : list BrowserOperationTarget :=
  map fst (map_to_list (oq_active q)) ++ map fst (map_to_list (oq_queued q)).

Definition targets_for_workspace (q : BrowserOperationQueue) (key : BrowserWorkspaceKey)
    : list BrowserOperationTarget :=
  dedup (sort_by (fun l r => str_cmp (ot_tab_id l) (ot_tab_id r))
           (List.filter (fun t => ot_workspace_key t =?= key) (keys q))).

Definition by_tab (l r : BrowserOperationTarget) : comparison :=
  then_with (str_cmp (wk_ai_tab_id (ot_workspace_key l)) (wk_ai_tab_id (ot_workspace_key r)))
    (str_cmp (ot_tab_id l) (ot_tab_id r)).

Definition targets_for_project (q : BrowserOperationQueue) (project_id : text)
    : list BrowserOperationTarget :=
  dedup (sort_by by_tab
           (List.filter (fun t => wk_project_id (ot_workspace_key t) =?= project_id) (keys q))).

Definition targets (q : BrowserOperationQueue) : list BrowserOperationTarget :=
  dedup (sort_by (fun l r =>
           then_with (str_cmp (wk_project_id (ot_workspace_key l)) (wk_project_id (ot_workspace_key r)))
             (by_tab l r)) (keys q)).

Definition cancel_targets (q : BrowserOperationQueue) (ts : list BrowserOperationTarget)
    : BrowserOperationQueue * list (BrowserOperationTarget * BrowserQueueCancellation) :=
  fold_left (fun '(q, out) t => let '(q, c) := cancel_tab q t in (q, out ++ [(t, c)])) ts (q, []).

Definition cancel_workspace (q : BrowserOperationQueue) (key : BrowserWorkspaceKey) :=
  cancel_targets q (targets_for_workspace q key).

Definition cancel_project (q : BrowserOperationQueue) (project_id : text) :=
  cancel_targets q (targets_for_project q project_id).

Definition queue_is_empty (q : BrowserOperationQueue) : bool :=
  bool_decide (oq_active q = ∅) && bool_decide (oq_queued q = ∅).

(** ** Runs of the queue *)

Inductive queue_op :=
| OpEnqueue (target : BrowserOperationTarget) (operation_id : text) (value : T)
| OpComplete (target : BrowserOperationTarget) (operation_id : text)
| OpCancelTab (target : BrowserOperationTarget)
| OpCancelQueued (target : BrowserOperationTarget)
| OpCancelWorkspace (key : BrowserWorkspaceKey)
| OpCancelProject (project_id : text).

(** What an operation gives its caller: the values to start now, and the
    values dropped. *)
Definition queue_step (q : BrowserOperationQueue) (op : queue_op)
    : BrowserOperationQueue * list (BrowserOperationTarget * T) * list (BrowserOperationTarget * T) :=
  let dropped t vs := map (pair t) vs in
  match op with
  | OpEnqueue t id v =>
      let '(q, started) := enqueue q t id v in (q, dropped t (option_list started), [])
  | OpComplete t id =>
      let '(q, started) := complete q t id in (q, dropped t (option_list started), [])
  | OpCancelTab t => let '(q, c) := cancel_tab q t in (q, [], dropped t (qc_queued c))
  | OpCancelQueued t => let '(q, vs) := cancel_queued q t in (q, [], dropped t vs)
  | OpCancelWorkspace k =>
      let '(q, out) := cancel_workspace q k in
      (q, [], concat (map (fun '(t, c) => dropped t (qc_queued c)) out))
  | OpCancelProject p =>
      let '(q, out) := cancel_project q p in
      (q, [], concat (map (fun '(t, c) => dropped t (qc_queued c)) out))
  end.

Fixpoint queue_run (q : BrowserOperationQueue) (ops : list queue_op)
    : BrowserOperationQueue * list (BrowserOperationTarget * T) * list (BrowserOperationTarget * T) :=
  match ops with
  | [] => (q, [], [])
  | op :: rest =>
      let '(q, started, dropped) := queue_step q op in
      let '(q, started', dropped') := queue_run q rest in
      (q, started ++ started', dropped ++ dropped')
  end.

(** The values of one tab, in order. *)
Definition of_tab (t : BrowserOperationTarget) (l : list (BrowserOperationTarget * T)) : list T :=
  map snd (List.filter (fun p => fst p =?= t) l).

Definition enqueued (t : BrowserOperationTarget) (ops : list queue_op) : list T :=
  concat (map (fun op => match op with
                         | OpEnqueue t' _ v => if t' =?= t then [v] else []
                         | _ => []
                         end) ops).

(** Work waits only behind active work, and no empty queue is kept. *)
Definition queue_wf (q : BrowserOperationQueue) : Prop :=
  forall t l, oq_queued q !! t = Some l -> l <> [] /\ is_some (oq_active q !! t) = true.

End Queue.
Arguments BrowserOperationQueue : clear implicits.
Arguments queue_op : clear implicits.

(** ** Lemmas *)

Section QueueLemmas.
Context {T : Type}.
Notation queue := (BrowserOperationQueue T).
Implicit Types (q : queue) (t : BrowserOperationTarget) (l : list (BrowserOperationTarget * T)).

Definition waiting_values q t : list T := map qo_value (waiting q t).

Lemma of_tab_app t l k : of_tab t (l ++ k) = of_tab t l ++ of_tab t k.
Proof. unfold of_tab. by rewrite List.filter_app, map_app. Qed.

Lemma of_tab_pairs t t' (vs : list T) :
  of_tab t (map (pair t') vs) = if t' =?= t then vs else [].
Proof.
  unfold of_tab. induction vs as [|v vs IH]; simpl; [by destruct (t' =?= t)|].
  destruct (t' =?= t); simpl; [by f_equal | done].
Qed.

Lemma eqb_neq {A} `{EqDecision A} (x y : A) : x <> y -> (x =?= y) = false.
Proof. by intros ?%eqb_false. Qed.

(** One step at one tab: what waited and what arrives is started, dropped or
    waits, and nothing overtakes. *)
Definition conserves q q' t (arrived started dropped : list T) : Prop :=
  waiting_values q t ++ arrived ≡ₚ started ++ dropped ++ waiting_values q' t
  /\ started ++ waiting_values q' t `sublist_of` waiting_values q t ++ arrived.

Lemma conserves_same q q' t : waiting q' t = waiting q t -> conserves q q' t [] [] [].
Proof. unfold conserves, waiting_values. intros ->. by rewrite app_nil_r. Qed.

Lemma conserves_dropped q q' t : waiting q' t = [] ->
  conserves q q' t [] [] (waiting_values q t).
Proof.
  unfold conserves, waiting_values. intros ->. simpl. rewrite !app_nil_r.
  split; [reflexivity | apply sublist_nil_l].
Qed.

Lemma conserves_trans q q1 q' t a1 s1 d1 a2 s2 d2 :
  conserves q q1 t a1 s1 d1 -> conserves q1 q' t a2 s2 d2 ->
  conserves q q' t (a1 ++ a2) (s1 ++ s2) (d1 ++ d2).
Proof.
  intros [P1 S1] [P2 S2]. split.
  - transitivity ((s1 ++ d1 ++ waiting_values q1 t) ++ a2).
    { rewrite app_assoc. by apply Permutation_app_tail. }
    rewrite <- !app_assoc. apply Permutation_app_head.
    transitivity (d1 ++ s2 ++ d2 ++ waiting_values q' t); [by apply Permutation_app_head|].
    rewrite !app_assoc. do 2 apply Permutation_app_tail. apply Permutation_app_comm.
  - transitivity (s1 ++ waiting_values q1 t ++ a2).
    + rewrite <- app_assoc. by apply sublist_app.
    + rewrite !app_assoc. by apply sublist_app.
Qed.

Lemma queue_wf_default : queue_wf (@queue_default T).
Proof. intros t l Hl. simpl in Hl. by rewrite lookup_empty in Hl. Qed.

Lemma waiting_insert q a t t' (l : list QueuedOperation) :
  waiting {| oq_active := a; oq_queued := <[t' := l]> (oq_queued q) |} t
  = if decide (t = t') then l else waiting q t.
Proof.
  unfold waiting. simpl. destruct (decide (t = t')) as [->|Hne];
    [by rewrite lookup_insert_eq | by rewrite lookup_insert_ne by done].
Qed.

Lemma waiting_delete q a t t' :
  waiting {| oq_active := a; oq_queued := delete t' (oq_queued q) |} t
  = if decide (t = t') then [] else waiting q t.
Proof.
  unfold waiting. simpl. destruct (decide (t = t')) as [->|Hne];
    [by rewrite lookup_delete_eq | by rewrite lookup_delete_ne by done].
Qed.

Lemma enqueue_step q t' id v q' s : queue_wf q -> enqueue q t' id v = (q', s) ->
  queue_wf q' /\ forall t,
    conserves q q' t (if t' =?= t then [v] else []) (of_tab t (map (pair t') (option_list s))) [].
Proof.
  intros Hwf E. unfold enqueue in E. destruct (oq_active q !! t') as [a|] eqn:Ha; injection E as <- <-.
  - split.
    + intros t l. simpl. destruct (decide (t = t')) as [->|Hne].
      * rewrite lookup_insert_eq. intros [= <-]. rewrite Ha. split; [|done].
        by intros [_ ?]%app_eq_nil.
      * rewrite lookup_insert_ne by done. apply Hwf.
    + intros t. simpl. unfold conserves, waiting_values. rewrite waiting_insert.
      destruct (decide (t = t')) as [->|Hne].
      * rewrite eqb_refl, map_app. done.
      * rewrite eqb_neq by done. by rewrite app_nil_r.
  - assert (waiting q t' = []) as Hw.
    { unfold waiting. destruct (oq_queued q !! t') as [l|] eqn:Hl; [|done].
      destruct (Hwf _ _ Hl) as [_ Hs]. by rewrite Ha in Hs. }
    split.
    + intros t l Hl. simpl in *. destruct (Hwf _ _ Hl) as [Hne Hs]. split; [done|].
      destruct (decide (t = t')) as [->|Hn]; [by rewrite lookup_insert_eq|].
      by rewrite lookup_insert_ne.
    + intros t. rewrite of_tab_pairs. unfold conserves, waiting_values, waiting. simpl.
      fold (waiting q t). destruct (decide (t' = t)) as [->|Hne].
      * rewrite eqb_refl, Hw. done.
      * rewrite eqb_neq by done. by rewrite app_nil_r.
Qed.

Lemma complete_step q t' id q' s : queue_wf q -> complete q t' id = (q', s) ->
  queue_wf q' /\ forall t, conserves q q' t [] (of_tab t (map (pair t') (option_list s))) [].
Proof.
  intros Hwf E. unfold complete in E. destruct (negb _).
  { injection E as <- <-. split; [done|]. intros t. by apply conserves_same. }
  destruct (oq_queued q !! t') as [[|next rest]|] eqn:Hq.
  - by destruct (Hwf _ _ Hq).
  - injection E as <- <-. split.
    + intros t l. simpl. destruct (decide (t = t')) as [->|Hne].
      * destruct rest; simpl; [by rewrite lookup_delete_eq|]. rewrite !lookup_insert_eq.
        by intros [= <-].
      * destruct rest; simpl; rewrite ?lookup_delete_ne, ?lookup_insert_ne, ?lookup_delete_ne by done;
          apply Hwf.
    + intros t. rewrite of_tab_pairs. unfold conserves, waiting_values.
      assert (waiting q t' = next :: rest) as Hw by (unfold waiting; by rewrite Hq).
      destruct rest; simpl; rewrite ?waiting_delete, ?waiting_insert;
        (destruct (decide (t = t')) as [->|Hne];
          [rewrite eqb_refl, Hw; split; simpl; rewrite ?app_nil_r; reflexivity
          |rewrite eqb_neq by done; by rewrite app_nil_r]).
  - injection E as <- <-. split.
    + intros t l. simpl. destruct (decide (t = t')) as [->|Hne]; [by rewrite lookup_delete_eq|].
      rewrite !lookup_delete_ne by done. apply Hwf.
    + intros t. apply conserves_same. rewrite waiting_delete.
      destruct (decide (t = t')) as [->|]; [|done]. unfold waiting. by rewrite Hq.
Qed.

Lemma cancel_tab_step q t' q' c : queue_wf q -> cancel_tab q t' = (q', c) ->
  queue_wf q' /\ forall t, conserves q q' t [] [] (of_tab t (map (pair t') (qc_queued c))).
Proof.
  intros Hwf [= <- <-]. split.
  - intros t l. simpl. destruct (decide (t = t')) as [->|Hne]; [by rewrite lookup_delete_eq|].
    rewrite !lookup_delete_ne by done. apply Hwf.
  - intros t. rewrite of_tab_pairs. simpl. destruct (decide (t = t')) as [->|Hne].
    + rewrite eqb_refl. apply conserves_dropped. rewrite waiting_delete. by rewrite decide_True.
    + rewrite eqb_neq by done. apply conserves_same. rewrite waiting_delete. by rewrite decide_False.
Qed.

Lemma cancel_queued_step q t' q' vs : queue_wf q -> cancel_queued q t' = (q', vs) ->
  queue_wf q' /\ forall t, conserves q q' t [] [] (of_tab t (map (pair t') vs)).
Proof.
  intros Hwf [= <- <-]. split.
  - intros t l. simpl. destruct (decide (t = t')) as [->|Hne]; [by rewrite lookup_delete_eq|].
    rewrite !lookup_delete_ne by done. apply Hwf.
  - intros t. rewrite of_tab_pairs. simpl. destruct (decide (t = t')) as [->|Hne].
    + rewrite eqb_refl. apply conserves_dropped. rewrite waiting_delete. by rewrite decide_True.
    + rewrite eqb_neq by done. apply conserves_same. rewrite waiting_delete. by rewrite decide_False.
Qed.

Definition dropped_of (out : list (BrowserOperationTarget * BrowserQueueCancellation))
    : list (BrowserOperationTarget * T) :=
  concat (map (fun '(t, c) => map (pair t) (qc_queued c)) out).

Lemma cancel_targets_step ts : forall q out q' out', queue_wf q ->
  fold_left (fun '(q, out) t => let '(q, c) := cancel_tab q t in (q, out ++ [(t, c)])) ts (q, out)
  = (q', out') ->
  queue_wf q' /\ exists more, out' = out ++ more
    /\ forall t, conserves q q' t [] [] (of_tab t (dropped_of more)).
Proof.
  induction ts as [|t0 ts IH]; intros q out q' out' Hwf E; cbn [fold_left] in E.
  - injection E as <- <-. split; [done|]. exists []. rewrite app_nil_r. split; [done|].
    intros t. by apply conserves_same.
  - destruct (cancel_tab q t0) as [q1 c] eqn:Ec.
    destruct (cancel_tab_step _ _ _ _ Hwf Ec) as [Hwf1 Hc].
    destruct (IH _ _ _ _ Hwf1 E) as [Hwf' (more & -> & Hmore)]. split; [done|].
    exists ((t0, c) :: more). rewrite <- app_assoc. split; [done|]. intros t.
    unfold dropped_of. simpl. rewrite of_tab_app.
    by apply (conserves_trans q q1 q' t [] [] _ [] []).
Qed.

Lemma queue_step_conserves q op q' s d : queue_wf q -> queue_step q op = (q', s, d) ->
  queue_wf q' /\ forall t, conserves q q' t (enqueued t [op]) (of_tab t s) (of_tab t d).
Proof.
  intros Hwf E.
  assert (forall t, enqueued t [op] = match op with
            OpEnqueue t' _ v => if t' =?= t then [v] else [] | _ => [] end) as He.
  { intros t. unfold enqueued. simpl. by rewrite app_nil_r. }
  setoid_rewrite He. destruct op as [t0 id v|t0 id|t0|t0|k|p]; simpl in E.
  - destruct (enqueue q t0 id v) as [q1 o] eqn:E1. injection E as <- <- <-. by apply enqueue_step in E1.
  - destruct (complete q t0 id) as [q1 o] eqn:E1. injection E as <- <- <-. by apply complete_step in E1.
  - injection E as <- <- <-. exact (cancel_tab_step q t0 _ _ Hwf eq_refl).
  - injection E as <- <- <-. exact (cancel_queued_step q t0 _ _ Hwf eq_refl).
  - destruct (cancel_workspace q k) as [q1 out] eqn:E1. injection E as <- <- <-.
    apply cancel_targets_step in E1 as [? (more & -> & Hm)]; [|done]. by split.
  - destruct (cancel_project q p) as [q1 out] eqn:E1. injection E as <- <- <-.
    apply cancel_targets_step in E1 as [? (more & -> & Hm)]; [|done]. by split.
Qed.

Lemma queue_run_conserves ops : forall q q' s d, queue_wf q -> queue_run q ops = (q', s, d) ->
  queue_wf q' /\ forall t, conserves q q' t (enqueued t ops) (of_tab t s) (of_tab t d).
Proof.
  induction ops as [|op ops IH]; intros q q' s d Hwf E; simpl in E.
  - injection E as <- <- <-. split; [done|]. intros t. by apply conserves_same.
  - destruct (queue_step q op) as [[q1 s1] d1] eqn:E1.
    destruct (queue_run q1 ops) as [[q2 s2] d2] eqn:E2. injection E as <- <- <-.
    destruct (queue_step_conserves _ _ _ _ _ Hwf E1) as [Hwf1 H1].
    destruct (IH _ _ _ _ Hwf1 E2) as [Hwf2 H2]. split; [done|]. intros t.
    rewrite !of_tab_app. change (op :: ops) with ([op] ++ ops).
    unfold enqueued. rewrite map_app, concat_app. by eapply conserves_trans.
Qed.

(** Completing the active operation of a tab [n] times over. *)
Fixpoint drain (n : nat) q t : queue * list T :=
  match n, active_operation_id q t with
  | O, _ | _, None => (q, [])
  | S n, Some id =>
      let '(q, started) := complete q t id in
      let '(q, rest) := drain n q t in
      (q, option_list started ++ rest)
  end.

Lemma complete_active q t id : oq_active q !! t = Some id ->
  exists q', complete q t id = (q', head (waiting_values q t))
    /\ waiting_values q' t = tail (waiting_values q t)
    /\ (oq_active q' !! t = None <-> waiting_values q t = [])
    /\ forall t', t' <> t -> oq_active q' !! t' = oq_active q !! t' /\ waiting q' t' = waiting q t'.
Proof.
  intros Ha. unfold complete, active_operation_id. rewrite Ha, eqb_refl. simpl.
  unfold waiting_values, waiting. destruct (oq_queued q !! t) as [[|next rest]|] eqn:Hq; simpl.
  - eexists. split; [done|]. simpl. rewrite !lookup_delete_eq. split_and!; try done.
    intros t' Hne. by rewrite !lookup_delete_ne.
  - eexists. split; [done|]. simpl. rewrite lookup_insert_eq. split_and!; try done.
    + destruct rest; simpl; [by rewrite lookup_delete_eq | by rewrite lookup_insert_eq].
    + intros t' Hne. rewrite lookup_insert_ne, lookup_delete_ne by done. split; [done|].
      destruct rest; simpl; [by rewrite lookup_delete_ne | by rewrite lookup_insert_ne].
  - eexists. split; [done|]. simpl. rewrite !lookup_delete_eq. split_and!; try done.
    intros t' Hne. by rewrite !lookup_delete_ne.
Qed.

Lemma drain_spec t vs : forall q, waiting_values q t = vs -> is_some (oq_active q !! t) = true ->
  exists q', drain (S (length vs)) q t = (q', vs) /\ oq_active q' !! t = None /\ waiting_values q' t = []
    /\ forall t', t' <> t -> oq_active q' !! t' = oq_active q !! t' /\ waiting q' t' = waiting q t'.
Proof.
  induction vs as [|v vs IH]; intros q Hw Ha; apply is_some_true in Ha as [id Ha];
    destruct (complete_active _ _ _ Ha) as (q1 & Hc & Ht & Hn & Ho); rewrite Hw in *; simpl in *.
  - unfold active_operation_id. rewrite Ha, Hc. exists q1. split; [done|]. split_and!; try done. by apply Hn.
  - destruct (IH q1) as (q2 & Hd & Hn2 & Hw2 & Ho2); [done| |].
    { destruct (oq_active q1 !! t); [done|]. by destruct Hn as [Hn _]; specialize (Hn eq_refl). }
    unfold active_operation_id at 1. rewrite Ha, Hc. simpl in Hd. rewrite Hd. exists q2.
    split_and!; try done. intros t' Hne. destruct (Ho t' Hne) as [<- <-]. by apply Ho2.
Qed.

End QueueLemmas.

(** No browser operation is lost, duplicated or overtaken.  After any run of
    the queue, whatever was enqueued on a tab has been started, dropped by a
    cancellation, or still waits, each exactly once; what was started and what
    waits are in the order of enqueueing; and work waits only behind an active
    operation. *)
Theorem queue_keeps_order {T} (ops : list (queue_op T)) (q : BrowserOperationQueue T)
    (started dropped : list (BrowserOperationTarget * T)) (t : BrowserOperationTarget)
    (Hrun : queue_run queue_default ops = (q, started, dropped)) :
  enqueued t ops ≡ₚ of_tab t started ++ of_tab t dropped ++ map qo_value (waiting q t)
  /\ of_tab t started ++ map qo_value (waiting q t) `sublist_of` enqueued t ops
  /\ (waiting q t <> [] -> is_some (active_operation_id q t) = true).
Proof.
  destruct (queue_run_conserves _ _ _ _ _ queue_wf_default Hrun) as [Hwf Hc].
  destruct (Hc t) as [Hp Hs]. split_and!; [exact Hp | exact Hs|].
  unfold waiting, active_operation_id. destruct (oq_queued q !! t) as [l|] eqn:Hl; [|done].
  intros _. by apply (Hwf t l).
Qed.

(** The queue of a tab drains.  Completing its active operation as often as
    there is work starts everything that waited, in order, leaves the tab idle
    and touches no other tab; and a completion that names another operation
    than the active one changes nothing. *)
Theorem queue_drains {T} (q : BrowserOperationQueue T) (t : BrowserOperationTarget) (id : text)
    (Ha : active_operation_id q t = Some id) :
  (exists q', drain (S (length (waiting q t))) q t = (q', map qo_value (waiting q t))
     /\ active_operation_id q' t = None /\ waiting q' t = []
     /\ forall t', t' <> t ->
          active_operation_id q' t' = active_operation_id q t' /\ waiting q' t' = waiting q t')
  /\ (forall stale, stale <> id -> complete q t stale = (q, None)).
Proof.
  split.
  - destruct (drain_spec t (map qo_value (waiting q t)) q eq_refl) as (q' & Hd & Hn & Hw & Ho).
    { unfold active_operation_id in Ha. by rewrite Ha. }
    rewrite length_map in Hd. exists q'. split_and!; try done. by apply map_eq_nil in Hw.
  - intros stale Hne. unfold complete. rewrite Ha. by rewrite eqb_neq by congruence.
Qed.

Definition sample_target (tab : text) : BrowserOperationTarget :=
  {| ot_workspace_key := {| wk_project_id := lit "p"; wk_ai_tab_id := lit "a" |}; ot_tab_id := tab |}.

Definition sample_ops : list (queue_op N) :=
  [OpEnqueue (sample_target (lit "x")) (lit "1") 1; OpEnqueue (sample_target (lit "x")) (lit "2") 2;
   OpEnqueue (sample_target (lit "y")) (lit "3") 3; OpEnqueue (sample_target (lit "x")) (lit "4") 4;
   OpComplete (sample_target (lit "x")) (lit "9"); OpComplete (sample_target (lit "x")) (lit "1");
   OpCancelWorkspace {| wk_project_id := lit "p"; wk_ai_tab_id := lit "b" |};
   OpCancelQueued (sample_target (lit "x")); OpEnqueue (sample_target (lit "x")) (lit "5") 5].

Lemma queue_keeps_order_witness :
  exists q started dropped, queue_run queue_default sample_ops = (q, started, dropped)
    /\ of_tab (sample_target (lit "x")) started = [1; 2]
    /\ of_tab (sample_target (lit "x")) dropped = [4]
    /\ enqueued (sample_target (lit "x")) sample_ops ≡ₚ [1; 2] ++ [4] ++ [5].
Proof.
  eexists _, _, _. split; [by vm_compute|].
  pose proof (queue_keeps_order sample_ops _ _ _ (sample_target (lit "x")) ltac:(by vm_compute)) as (H & _).
  split; [by vm_compute|]. split; [by vm_compute|]. exact H.
Defined.

Lemma queue_drains_witness :
  exists q, active_operation_id (queue_run queue_default sample_ops).1.1 (sample_target (lit "x"))
            = Some (lit "2")
    /\ drain 2 (queue_run queue_default sample_ops).1.1 (sample_target (lit "x")) = (q, [5]).
Proof.
  pose proof (queue_drains (queue_run queue_default sample_ops).1.1 (sample_target (lit "x")) (lit "2")
    ltac:(by vm_compute)) as [(q & Hd & _) _].
  exists q. split; [by vm_compute | exact Hd].
Defined.
