(* ===== verification/Generation.v ===== *)
(** The generation authority of task browsers (browser/generation.rs): the one
    mint of workflow tickets over a task's browser book, each queue fenced by
    the live generation of its context. *)
From S2P Require Import Prelude Canonical Task Browser Sample.

Definition MAX_BROWSER_GENERATION_QUEUE : N := 32.
Definition MAX_BROWSER_GENERATION_CONTEXTS : N := 32.

Inductive BrowserGenerationError :=
| GeCrossTask
| GeGenerationMismatch
| GeClosed
| GeBoundExceeded
| GeStaleOperation
| GeCancelled
| GeInvalidRequest
| GeSecretSerialized
| GeSilentRepairForbidden
| GeApprovalRequired
| GeQueueOrphan
| GeHostEffectUnavailable.

#[export] Instance BrowserGenerationError_eq_dec : EqDecision BrowserGenerationError.
Proof. solve_decision. Defined.

(** [impl From<BrowserContractError>] *)
Definition from_contract_error (e : BrowserContractError) : BrowserGenerationError :=
  match e with
  | BrCrossTask => GeCrossTask
  | BrGenerationMismatch => GeGenerationMismatch
  | BrClosedTask => GeClosed
  | BrBoundExceeded => GeBoundExceeded
  | BrHostEffectUnavailable => GeHostEffectUnavailable
  | BrIdempotencyConflict | BrInvalidRequest => GeInvalidRequest
  end.

Inductive BrowserWorkflowKind :=
| KindRecord | KindReplay | KindRepair | KindCancel | KindRecover | KindCapture | KindWait
| KindNavigate.

#[export] Instance BrowserWorkflowKind_eq_dec : EqDecision BrowserWorkflowKind.
Proof. solve_decision. Defined.

Record BrowserGenerationTicket := {
  gt_request_id : BrowserRequestId;
  gt_task_id : TaskId;
  gt_context_id : BrowserContextId;
  gt_tab_id : option BrowserTabId;
  gt_generation : N;
  gt_kind : BrowserWorkflowKind;
}.

#[export] Instance BrowserGenerationTicket_eq_dec : EqDecision BrowserGenerationTicket.
Proof. solve_decision. Defined.

Inductive BrowserTaskArtifactKind := ArtRecording | ArtRecipe | ArtRecipeRevision.

Record BrowserTaskArtifact := {
  bta_artifact_id : ArtifactId;
  bta_task_id : TaskId;
  bta_context_id : BrowserContextId;
  bta_generation : N;
  bta_identity : text;
  bta_kind : BrowserTaskArtifactKind;
}.

Record GenerationQueue := {
  gq_generation : N;
  gq_active : option BrowserGenerationTicket;
  gq_queued : list BrowserGenerationTicket;
  gq_cancelled : gset N;
  gq_cancelled_requests : gset N;
}.

Definition generation_queue_new (generation : N) : GenerationQueue :=
  {| gq_generation := generation; gq_active := None; gq_queued := []; gq_cancelled := ∅;
     gq_cancelled_requests := ∅ |}.

Definition gq_is_empty (q : GenerationQueue) : bool :=
  is_none (gq_active q) && is_empty (gq_queued q).

Definition gq_len (q : GenerationQueue) : N :=
  count (gq_queued q) + (if is_some (gq_active q) then 1 else 0).

Record BrowserTaskGenerationAuthority := {
  au_book : BrowserBook;
  au_queues : gmap (N * N) GenerationQueue;
}.

Definition authority_new : BrowserTaskGenerationAuthority :=
  {| au_book := book_new; au_queues := ∅ |}.

Definition with_book (a : BrowserTaskGenerationAuthority) (b : BrowserBook) :=
  {| au_book := b; au_queues := au_queues a |}.
Definition with_queue (a : BrowserTaskGenerationAuthority) (k : N * N) (q : GenerationQueue) :=
  {| au_book := au_book a; au_queues := <[k := q]> (au_queues a) |}.
Definition without_queue (a : BrowserTaskGenerationAuthority) (k : N * N) :=
  {| au_book := au_book a; au_queues := delete k (au_queues a) |}.

(** A method on [&mut self]: the authority after the call, an error included,
    since a later step may fail after an earlier one took effect. *)
Definition stepped (X : Type) : Type :=
  BrowserTaskGenerationAuthority * result X BrowserGenerationError.

Definition and_then {X Y} (m : stepped X)
    (k : BrowserTaskGenerationAuthority -> X -> stepped Y) : stepped Y :=
  match m with
  | (a, Ok x) => k a x
  | (a, Err e) => (a, Err e)
  end.

Notation "'with?' a , x := m 'in' k" := (and_then m (fun a x => k))
  (at level 10, a name, x pattern, m at level 99, k at level 200) : devm_scope.

(** Guards that run before anything is written. *)
Definition checked {X Y} (a : BrowserTaskGenerationAuthority) (r : result X BrowserGenerationError)
    (k : X -> stepped Y) : stepped Y :=
  match r with
  | Ok x => k x
  | Err e => (a, Err e)
  end.

Section Authority.
Context `{Sha256} `{UrlParser} `{BrowserWire}.

(** [self.book.admit(&request)?] and [self.book.settle(&outcome)?] *)
Definition book_admit (a : BrowserTaskGenerationAuthority) (r : BrowserRequest) : stepped unit :=
  match admit_request (au_book a) r with
  | Ok (b, _) => (with_book a b, Ok tt)
  | Err e => (a, Err (from_contract_error e))
  end.

Definition book_settle (a : BrowserTaskGenerationAuthority) (o : BrowserHostOutcome)
    : stepped unit :=
  match settle (au_book a) o with
  | Ok (b, _) => (with_book a b, Ok tt)
  | Err e => (a, Err (from_contract_error e))
  end.

Definition authority_open_task (a : BrowserTaskGenerationAuthority) (task_id : TaskId)
    : stepped unit :=
  match open_task (au_book a) task_id with
  | Ok b => (with_book a b, Ok tt)
  | Err e => (a, Err (from_contract_error e))
  end.

Definition create_context (a : BrowserTaskGenerationAuthority) (request_id : BrowserRequestId)
    (task_id : TaskId) (context_id : BrowserContextId) : stepped N :=
  if (MAX_BROWSER_GENERATION_CONTEXTS <=? N.of_nat (size (au_queues a)))
     && is_none (au_queues a !! (task_id, context_id))
  then (a, Err GeBoundExceeded)
  else
    with? a, _ := book_admit a
        {| br_request_id := request_id; br_task_id := task_id; br_context_id := context_id;
           br_tab_id := None; br_generation := 1; br_action := ActCreateContext |} in
    (with_queue a (task_id, context_id) (generation_queue_new 1), Ok 1).

Definition live_generation (a : BrowserTaskGenerationAuthority) (task_id : TaskId)
    (context_id : BrowserContextId) : result N BrowserGenerationError :=
  let? view := ok_or (bk_contexts (au_book a) !! context_id) GeInvalidRequest in
  ensure cs_task_id view =? task_id else GeCrossTask ;;
  ensure negb (cs_closed view) else GeClosed ;;
  Ok (cs_generation view).

Definition authority_health (a : BrowserTaskGenerationAuthority) (task_id : TaskId)
    (context_id : BrowserContextId) : result BrowserHealth BrowserGenerationError :=
  let? view := ok_or (bk_contexts (au_book a) !! context_id) GeInvalidRequest in
  ensure cs_task_id view =? task_id else GeCrossTask ;;
  Ok (cs_health view).

Definition authority_open_tab (a : BrowserTaskGenerationAuthority) (request_id : BrowserRequestId)
    (task_id : TaskId) (context_id : BrowserContextId) (tab_id : BrowserTabId) (url : text)
    : stepped unit :=
  checked a (live_generation a task_id context_id) (fun generation =>
    book_admit a
      {| br_request_id := request_id; br_task_id := task_id; br_context_id := context_id;
         br_tab_id := Some tab_id; br_generation := generation;
         br_action := ActOpenTab url TabPage |}).

Definition push_ticket (q : GenerationQueue) (t : BrowserGenerationTicket) : GenerationQueue :=
  match gq_active q with
  | None =>
      {| gq_generation := gq_generation q; gq_active := Some t; gq_queued := gq_queued q;
         gq_cancelled := gq_cancelled q; gq_cancelled_requests := gq_cancelled_requests q |}
  | Some _ =>
      {| gq_generation := gq_generation q; gq_active := gq_active q;
         gq_queued := gq_queued q ++ [t]; gq_cancelled := gq_cancelled q;
         gq_cancelled_requests := gq_cancelled_requests q |}
  end.

Definition enqueue_ticket (a : BrowserTaskGenerationAuthority) (request_id : BrowserRequestId)
    (task_id : TaskId) (context_id : BrowserContextId) (tab_id : option BrowserTabId)
    (generation : N) (kind : BrowserWorkflowKind) : stepped BrowserGenerationTicket :=
  checked a
    (let? live := live_generation a task_id context_id in
     ensure generation =? live else GeGenerationMismatch ;;
     let? queue := ok_or (au_queues a !! (task_id, context_id)) GeInvalidRequest in
     ensure negb (MAX_BROWSER_GENERATION_QUEUE <=? gq_len queue) else GeBoundExceeded ;;
     Ok queue)
    (fun queue =>
       let ticket := {| gt_request_id := request_id; gt_task_id := task_id;
                        gt_context_id := context_id; gt_tab_id := tab_id;
                        gt_generation := generation; gt_kind := kind |} in
       (with_queue a (task_id, context_id) (push_ticket queue ticket), Ok ticket)).

Definition require_live (a : BrowserTaskGenerationAuthority) (t : BrowserGenerationTicket)
    : result unit BrowserGenerationError :=
  let? live := live_generation a (gt_task_id t) (gt_context_id t) in
  ensure gt_generation t =? live else GeStaleOperation ;;
  let? queue := ok_or (au_queues a !! (gt_task_id t, gt_context_id t)) GeInvalidRequest in
  ensure negb (bool_decide (gt_generation t ∈ gq_cancelled queue)
               || bool_decide (gt_request_id t ∈ gq_cancelled_requests queue)) else GeCancelled ;;
  ensure is_some_and (gq_active queue) (fun active => gt_request_id active =? gt_request_id t)
         || existsb (fun queued => gt_request_id queued =? gt_request_id t) (gq_queued queue)
    else GeStaleOperation ;;
  Ok tt.

Definition pop_ticket (q : GenerationQueue) : GenerationQueue :=
  {| gq_generation := gq_generation q; gq_active := head (gq_queued q);
     gq_queued := tail (gq_queued q); gq_cancelled := gq_cancelled q;
     gq_cancelled_requests := gq_cancelled_requests q |}.

Definition complete_ticket (a : BrowserTaskGenerationAuthority) (t : BrowserGenerationTicket)
    : stepped (option BrowserGenerationTicket) :=
  checked a
    (try? require_live a t ;;
     let? queue := ok_or (au_queues a !! (gt_task_id t, gt_context_id t)) GeInvalidRequest in
     ensure is_some_and (gq_active queue) (fun active => gt_request_id active =? gt_request_id t)
       else GeStaleOperation ;;
     Ok queue)
    (fun queue =>
       (with_queue a (gt_task_id t, gt_context_id t) (pop_ticket queue),
        Ok (gq_active (pop_ticket queue)))).

(** The tickets of a queue, the active one first. *)
Definition gq_tickets (q : GenerationQueue) : list BrowserGenerationTicket :=
  option_list (gq_active q) ++ gq_queued q.

(** [active.take()], [queued.drain(..)] and the ids inserted in
    [cancelled_requests]. *)
Definition emptied (q : GenerationQueue) : GenerationQueue :=
  {| gq_generation := gq_generation q; gq_active := None; gq_queued := [];
     gq_cancelled := gq_cancelled q;
     gq_cancelled_requests :=
       list_to_set (map gt_request_id (gq_tickets q)) ∪ gq_cancelled_requests q |}.

Definition drop_queue (a : BrowserTaskGenerationAuthority) (task_id : TaskId)
    (context_id : BrowserContextId) (generation : N) : stepped (list BrowserGenerationTicket) :=
  checked a
    (let? queue := ok_or (au_queues a !! (task_id, context_id)) GeInvalidRequest in
     ensure gq_generation queue =? generation else GeGenerationMismatch ;;
     Ok queue)
    (fun queue =>
       (with_queue a (task_id, context_id) (emptied queue),
        if gq_is_empty (emptied queue) then Ok (gq_tickets queue) else Err GeQueueOrphan)).

Definition cancel_generation (a : BrowserTaskGenerationAuthority) (request_id : BrowserRequestId)
    (task_id : TaskId) (context_id : BrowserContextId) (generation : N)
    : stepped (list BrowserGenerationTicket) :=
  checked a
    (let? live := live_generation a task_id context_id in
     guard (generation =? live) GeGenerationMismatch)
    (fun _ =>
       with? a, _ := book_admit a
         {| br_request_id := request_id; br_task_id := task_id; br_context_id := context_id;
            br_tab_id := None; br_generation := generation; br_action := ActCancel |} in
       drop_queue a task_id context_id generation).

(** The queue of a recovered context. *)
Definition recovered_queue (q : GenerationQueue) (from next : N) : GenerationQueue :=
  {| gq_generation := next; gq_active := gq_active q; gq_queued := gq_queued q;
     gq_cancelled := {[from]} ∪ gq_cancelled q; gq_cancelled_requests := ∅ |}.

Definition recover_generation (a : BrowserTaskGenerationAuthority) (request_id : BrowserRequestId)
    (task_id : TaskId) (context_id : BrowserContextId) (from_generation : N) : stepped N :=
  checked a
    (let? live := live_generation a task_id context_id in
     ensure from_generation =? live else GeGenerationMismatch ;;
     ok_or (checked_add from_generation 1) GeBoundExceeded)
    (fun next =>
       with? a, _ := drop_queue a task_id context_id from_generation in
       with? a, _ := book_admit a
         {| br_request_id := request_id; br_task_id := task_id; br_context_id := context_id;
            br_tab_id := None; br_generation := from_generation; br_action := ActRecover |} in
       with? a, _ := book_settle a
         {| bo_request_id := request_id; bo_task_id := task_id; bo_context_id := context_id;
            bo_tab_id := None; bo_generation := from_generation;
            bo_settlement := SetRecovered next |} in
       match au_queues a !! (task_id, context_id) with
       | Some queue =>
           let queue := recovered_queue queue from_generation next in
           (with_queue a (task_id, context_id) queue,
            if gq_is_empty queue then Ok next else Err GeQueueOrphan)
       | None => (a, Ok next)
       end).

Definition settle_identity (a : BrowserTaskGenerationAuthority) (t : BrowserGenerationTicket)
    (link_id : BrowserRequestId) (artifact_id : ArtifactId) (action : BrowserAction)
    (identity : text) (kind : BrowserTaskArtifactKind) : stepped BrowserTaskArtifact :=
  checked a (guard (negb (is_empty identity || (MAX_BROWSER_IDENTITY_BYTES <? len identity)))
               GeInvalidRequest)
    (fun _ =>
       with? a, _ := book_admit a
         {| br_request_id := gt_request_id t; br_task_id := gt_task_id t;
            br_context_id := gt_context_id t; br_tab_id := gt_tab_id t;
            br_generation := gt_generation t; br_action := action |} in
       with? a, _ := book_settle a
         {| bo_request_id := gt_request_id t; bo_task_id := gt_task_id t;
            bo_context_id := gt_context_id t; bo_tab_id := gt_tab_id t;
            bo_generation := gt_generation t;
            bo_settlement := match kind with
                             | ArtRecording => SetRecordingIdentified identity
                             | ArtRecipe | ArtRecipeRevision => SetRecipeIdentified identity
                             end |} in
       with? a, _ := book_admit a
         {| br_request_id := link_id; br_task_id := gt_task_id t;
            br_context_id := gt_context_id t; br_tab_id := None;
            br_generation := gt_generation t; br_action := ActLinkArtifact artifact_id |} in
       (a, Ok {| bta_artifact_id := artifact_id; bta_task_id := gt_task_id t;
                 bta_context_id := gt_context_id t; bta_generation := gt_generation t;
                 bta_identity := identity; bta_kind := kind |})).

Definition identify_recording (a : BrowserTaskGenerationAuthority) (t : BrowserGenerationTicket)
    (link_id : BrowserRequestId) (artifact_id : ArtifactId) (recording_id : text)
    : stepped BrowserTaskArtifact :=
  checked a
    (try? require_live a t ;;
     guard (gt_kind t =?= KindRecord) GeInvalidRequest)
    (fun _ => settle_identity a t link_id artifact_id ActRecord recording_id ArtRecording).

Definition identify_recipe (a : BrowserTaskGenerationAuthority) (t : BrowserGenerationTicket)
    (link_id : BrowserRequestId) (artifact_id : ArtifactId) (recipe_id : text)
    : stepped BrowserTaskArtifact :=
  checked a
    (try? require_live a t ;;
     guard ((gt_kind t =?= KindReplay) || (gt_kind t =?= KindRepair)) GeInvalidRequest)
    (fun _ => settle_identity a t link_id artifact_id ActReplay recipe_id ArtRecipe).

Definition queued_count (a : BrowserTaskGenerationAuthority) (task_id : TaskId)
    (context_id : BrowserContextId) : N :=
  match au_queues a !! (task_id, context_id) with Some q => gq_len q | None => 0 end.

Definition has_orphans (a : BrowserTaskGenerationAuthority) (task_id : TaskId)
    (context_id : BrowserContextId) : bool :=
  is_some_and (au_queues a !! (task_id, context_id)) (fun q =>
    negb (gq_is_empty q) && bool_decide (gq_generation q ∈ gq_cancelled q)).

(** The keys of a task in the order of the map. *)
Definition owned_contexts (a : BrowserTaskGenerationAuthority) (task_id : TaskId) : list N :=
  merge_sort N.le
    (map (fun kq => snd (fst kq))
       (List.filter (fun kq => fst (fst kq) =? task_id) (map_to_list (au_queues a)))).

Fixpoint close_queues (a : BrowserTaskGenerationAuthority) (task_id : TaskId)
    (contexts : list N) : stepped unit :=
  match contexts with
  | [] => (a, Ok tt)
  | context_id :: rest =>
      with? a, _ :=
        match live_generation a task_id context_id with
        | Ok generation =>
            with? a, _ := drop_queue a task_id context_id generation in (a, Ok tt)
        | Err _ => (a, Ok tt)
        end in
      close_queues (without_queue a (task_id, context_id)) task_id rest
  end.

Definition authority_close_task (a : BrowserTaskGenerationAuthority) (task_id : TaskId)
    : stepped unit :=
  with? a, _ := close_queues a task_id (owned_contexts a task_id) in
  match close_task (au_book a) task_id with
  | Err e => (a, Err (from_contract_error e))
  | Ok b =>
      let a := with_book a b in
      (a, guard (forallb (fun kq => negb ((fst (fst kq) =? task_id) && negb (gq_is_empty (snd kq))))
                   (map_to_list (au_queues a))) GeQueueOrphan)
  end.

(** ** Runs of the authority *)

(** One call, with the identifiers that [new()] minted for it. *)
Inductive authority_op :=
| OpOpenTask (task_id : TaskId)
| OpCreateContext (request_id : BrowserRequestId) (task_id : TaskId) (context_id : BrowserContextId)
| OpOpenTab (request_id : BrowserRequestId) (task_id : TaskId) (context_id : BrowserContextId)
    (tab_id : BrowserTabId) (url : text)
| OpEnqueue (request_id : BrowserRequestId) (task_id : TaskId) (context_id : BrowserContextId)
    (tab_id : option BrowserTabId) (generation : N) (kind : BrowserWorkflowKind)
| OpComplete (t : BrowserGenerationTicket)
| OpCancel (request_id : BrowserRequestId) (task_id : TaskId) (context_id : BrowserContextId)
    (generation : N)
| OpRecover (request_id : BrowserRequestId) (task_id : TaskId) (context_id : BrowserContextId)
    (generation : N)
| OpIdentifyRecording (link_id : BrowserRequestId) (artifact_id : ArtifactId)
    (t : BrowserGenerationTicket) (identity : text)
| OpIdentifyRecipe (link_id : BrowserRequestId) (artifact_id : ArtifactId)
    (t : BrowserGenerationTicket) (identity : text)
| OpCloseTask (task_id : TaskId).

(** The request id a call mints. *)
Definition minted (op : authority_op) : list N :=
  match op with
  | OpCreateContext rid _ _ | OpOpenTab rid _ _ _ _ | OpEnqueue rid _ _ _ _ _
  | OpCancel rid _ _ _ | OpRecover rid _ _ _ | OpIdentifyRecording rid _ _ _
  | OpIdentifyRecipe rid _ _ _ => [rid]
  | OpOpenTask _ | OpComplete _ | OpCloseTask _ => []
  end.

(** The tickets a call presents; they are minted by the authority alone. *)
Definition presented (op : authority_op) : list BrowserGenerationTicket :=
  match op with
  | OpComplete t | OpIdentifyRecording _ _ t _ | OpIdentifyRecipe _ _ t _ => [t]
  | _ => []
  end.

Definition outcome {X} (m : stepped X)
    : BrowserTaskGenerationAuthority * option BrowserGenerationError :=
  match m with
  | (a, Ok _) => (a, None)
  | (a, Err e) => (a, Some e)
  end.

(** The authority after a call, the error it returned, the ticket it issued. *)
Definition authority_step (a : BrowserTaskGenerationAuthority) (op : authority_op)
    : BrowserTaskGenerationAuthority * option BrowserGenerationError
      * list BrowserGenerationTicket :=
  match op with
  | OpOpenTask t => (outcome (authority_open_task a t), [])
  | OpCreateContext rid t c => (outcome (create_context a rid t c), [])
  | OpOpenTab rid t c tab url => (outcome (authority_open_tab a rid t c tab url), [])
  | OpEnqueue rid t c tab g k =>
      match enqueue_ticket a rid t c tab g k with
      | (a, Ok ticket) => (a, None, [ticket])
      | (a, Err e) => (a, Some e, [])
      end
  | OpComplete t => (outcome (complete_ticket a t), [])
  | OpCancel rid t c g => (outcome (cancel_generation a rid t c g), [])
  | OpRecover rid t c g => (outcome (recover_generation a rid t c g), [])
  | OpIdentifyRecording l art t i => (outcome (identify_recording a t l art i), [])
  | OpIdentifyRecipe l art t i => (outcome (identify_recipe a t l art i), [])
  | OpCloseTask t => (outcome (authority_close_task a t), [])
  end.

(** The authority with the tickets it has issued, the request ids minted so
    far and the errors returned. *)
Record world := {
  w_authority : BrowserTaskGenerationAuthority;
  w_issued : list BrowserGenerationTicket;
  w_ids : list N;
  w_errors : list BrowserGenerationError;
}.

Definition world_new : world :=
  {| w_authority := authority_new; w_issued := []; w_ids := []; w_errors := [] |}.

Definition world_step (w : world) (op : authority_op) : world :=
  let '(a, error, issued) := authority_step (w_authority w) op in
  {| w_authority := a; w_issued := w_issued w ++ issued; w_ids := w_ids w ++ minted op;
     w_errors := w_errors w ++ option_list error |}.

Definition world_run (w : world) (ops : list authority_op) : world := fold_left world_step ops w.

(** [new()] mints ids not seen before, and only issued tickets are presented. *)
Definition legal (w : world) (op : authority_op) : bool :=
  forallb (fun i => bool_decide (i ∉ w_ids w)) (minted op)
  && forallb (fun t => bool_decide (t ∈ w_issued w)) (presented op).

Fixpoint legal_run (w : world) (ops : list authority_op) : bool :=
  match ops with
  | [] => true
  | op :: rest => legal w op && legal_run (world_step w op) rest
  end.

End Authority.

(** ** What the book keeps *)

Section BookFrame.
Context `{Sha256} `{UrlParser} `{BrowserWire}.

(** No context goes away, changes hands, changes generation or re-opens. *)
Definition keeps_contexts (b b' : BrowserBook) : Prop :=
  forall k s, bk_contexts b !! k = Some s ->
    exists s', bk_contexts b' !! k = Some s' /\ cs_task_id s' = cs_task_id s
      /\ cs_generation s' = cs_generation s /\ (cs_closed s = true -> cs_closed s' = true).

Definition new_receipts (b b' : BrowserBook) (ids : list N) : Prop :=
  forall k, is_Some (bk_receipts b' !! k) -> is_Some (bk_receipts b !! k) \/ k ∈ ids.

#[export] Instance keeps_contexts_po : PreOrder keeps_contexts.
Proof.
  split; [intros b k s Hs; eauto|]. intros a b c Hab Hbc k s Hs.
  destruct (Hab k s Hs) as (s1 & L1 & E1 & F1 & G1). destruct (Hbc k s1 L1) as (s2 & L2 & E2 & F2 & G2).
  exists s2. split_and!; [done|congruence|congruence|auto].
Qed.

Lemma keeps_same b b' : bk_contexts b' = bk_contexts b -> keeps_contexts b b'.
Proof. intros E k s Hs. rewrite E. eauto. Qed.

Lemma keeps_set_context b b' id s s' :
  bk_contexts b !! id = Some s -> bk_contexts b' = <[id := s']> (bk_contexts b) ->
  cs_task_id s' = cs_task_id s -> cs_generation s' = cs_generation s ->
  (cs_closed s = true -> cs_closed s' = true) -> keeps_contexts b b'.
Proof.
  intros Hs E ? ? ? k t Ht. rewrite E. destruct (decide (id = k)) as [<-|Hne].
  - rewrite lookup_insert_eq. rewrite Hs in Ht. injection Ht as <-. eauto.
  - rewrite lookup_insert_ne by done. eauto.
Qed.

Lemma keeps_new_context b b' id s :
  bk_contexts b !! id = None -> bk_contexts b' = <[id := s]> (bk_contexts b) -> keeps_contexts b b'.
Proof.
  intros Hn E k t Ht. rewrite E. destruct (decide (id = k)) as [<-|Hne]; [congruence|].
  rewrite lookup_insert_ne by done. eauto.
Qed.

Definition moves_generation (f : BrowserDurableFact) : bool :=
  match f with FactHealthTransitioned _ _ _ _ _ => true | _ => false end.

Lemma apply_fact_keeps b f b' :
  apply_fact b f = Ok b' -> moves_generation f = false -> keeps_contexts b b'.
Proof.
  unfold apply_fact. intros Hx Hm. apply rbind_Ok in Hx as (b1 & Hx & Hb). injection Hb as <-.
  destruct f; try done; unfold apply_fact_state, apply_request_accepted, apply_context_created,
    apply_tab_opened, apply_tab_closed, apply_download_settled, owned_context in Hx; ok_inv;
    repeat case_match; simpl;
    first [ by apply keeps_same
          | by eapply keeps_set_context; [eassumption|reflexivity|..]
          | eapply keeps_new_context; [by apply is_none_true|reflexivity] ].
Qed.

Lemma run_facts_keeps facts : forall b b',
  run_facts b facts = Ok b' -> Forall (fun f => moves_generation f = false) facts ->
  keeps_contexts b b'.
Proof.
  induction facts as [|f facts IH]; intros b b' Hx Hall; simpl in Hx; [by injection Hx as <-|].
  apply Forall_cons in Hall as [Hf Hall]. apply rbind_Ok in Hx as (b1 & Hb1 & Hx).
  transitivity b1; [by eapply apply_fact_keeps | by eapply IH].
Qed.

Lemma plan_identity_moves b r fs :
  plan_identity_facts b r = Ok fs -> Forall (fun f => moves_generation f = false) fs.
Proof.
  unfold plan_identity_facts, plan_create_context, plan_close_context, plan_open_tab.
  intros Hp. destruct (br_action r); peel Hp; subst fs; try by repeat constructor.
  3: by constructor; [done|case_match; repeat constructor].
  all: apply Forall_app; split; [|by repeat constructor]; apply Forall_map; by apply Forall_true.
Qed.

Lemma apply_accepted_frame b r b' :
  apply_fact b (accepted_fact r) = Ok b' ->
  bk_contexts b' = bk_contexts b /\ new_receipts b b' [br_request_id r].
Proof.
  unfold apply_fact. intros Hx. apply rbind_Ok in Hx as (b1 & Hx & Hb). injection Hb as <-.
  unfold accepted_fact, apply_fact_state, apply_request_accepted in Hx. ok_inv;
  repeat case_match; simpl; split; try done; intros k Hk; simpl in Hk; try (by left).
  all: destruct (decide (br_request_id r = k)) as [->|?]; [right; set_solver|left].
  all: by rewrite lookup_insert_ne in Hk.
Qed.

(** What a successful admission of a request leaves behind. *)
Lemma admit_request_frame b r b' acc :
  admit_request b r = Ok (b', acc) ->
  keeps_contexts b b' /\ new_receipts b b' [br_request_id r].
Proof.
  unfold admit_request. intros Hx. apply rbind_Ok in Hx as (accepted & Hp & Hx).
  destruct (bk_receipts b !! br_request_id r) as [prior|] eqn:Hr.
  { injection Hx as <- _. split; [done|]. by intros k; left. }
  destruct (plan_admit_fresh _ _ _ Hp Hr) as (identity & Hf & Hi & _).
  apply rbind_Ok in Hx as (b1 & Hrun & Hx). injection Hx as <- _.
  apply try_apply_facts_Ok in Hrun as [Hrun _]. rewrite Hf in Hrun. cbn [run_facts] in Hrun.
  apply rbind_Ok in Hrun as (b0 & Hb0 & Hrun). apply apply_accepted_frame in Hb0 as [Hc Hn].
  split.
  - transitivity b0; [by apply keeps_same|].
    etrans; [eapply run_facts_keeps; [exact Hrun|by eapply plan_identity_moves]|by apply keeps_same].
  - intros k. simpl. intros Hk. destruct (decide (br_request_id r = k)) as [->|?]; [right; set_solver|].
    rewrite lookup_insert_ne in Hk by done.
    rewrite (run_facts_receipts _ _ _ Hrun) in Hk; [by apply Hn|].
    apply plan_identity_shape in Hi as [Hi _]. eapply Forall_impl; [exact Hi|]. by intros f [? _].
Qed.

Lemma admit_request_recorded b r b' acc :
  admit_request b r = Ok (b', acc) -> bk_receipts b !! br_request_id r = None ->
  exists stored, bk_receipts b' !! br_request_id r = Some stored
    /\ rc_request stored = r /\ rc_settled stored = negb (requires_host_settlement (br_action r)).
Proof.
  unfold admit_request. intros Hx Hr. rewrite Hr in Hx. apply rbind_Ok in Hx as (accepted & Hp & Hx).
  apply rbind_Ok in Hx as (b1 & Hrun & Hx). injection Hx as <- _.
  eexists. cbn. by rewrite lookup_insert_eq.
Qed.

Lemma admit_create_context b r b' acc :
  admit_request b r = Ok (b', acc) -> bk_receipts b !! br_request_id r = None ->
  br_action r = ActCreateContext ->
  bk_contexts b !! br_context_id r = None
  /\ exists s, bk_contexts b' !! br_context_id r = Some s /\ cs_task_id s = br_task_id r
       /\ cs_generation s = 1.
Proof.
  unfold admit_request. intros Hx Hr Ha. rewrite Hr in Hx. apply rbind_Ok in Hx as (accepted & Hp & Hx).
  destruct (plan_admit_fresh _ _ _ Hp Hr) as (identity & Hf & Hi & _).
  apply rbind_Ok in Hx as (b1 & Hrun & Hx). injection Hx as <- _.
  apply try_apply_facts_Ok in Hrun as [Hrun _]. rewrite Hf in Hrun. cbn [run_facts] in Hrun.
  apply rbind_Ok in Hrun as (b0 & Hb0 & Hrun). apply apply_accepted_frame in Hb0 as [Hc _].
  unfold plan_identity_facts, plan_create_context in Hi. rewrite Ha in Hi.
  destruct (bk_contexts b !! br_context_id r) eqn:Hn; [peel Hi; done|].
  peel Hi. subst identity. split; [done|].
  cbn in Hrun. ok_inv. unfold apply_fact, apply_fact_state, apply_context_created in *. ok_inv.
  cbn. rewrite lookup_insert_eq. eauto.
Qed.

Lemma settle_receipts b o b' acc : settle b o = Ok (b', acc) -> new_receipts b b' [].
Proof.
  unfold settle. intros Hx. apply rbind_Ok in Hx as (receipt & Hr%ok_or_Ok & Hx).
  apply rbind_Ok in Hx as (? & _ & Hx). destruct (rc_settled receipt).
  { destruct (rc_settlement receipt =?= _); [|done]. injection Hx as <- _. by intros k; left. }
  apply rbind_Ok in Hx as (fs & Hs & Hx). apply rbind_Ok in Hx as (b1 & Hrun & Hx).
  apply rbind_Ok in Hx as (stored & _ & Hx). injection Hx as <- _.
  apply try_apply_facts_Ok in Hrun as [Hrun _].
  intros k. simpl. destruct (decide (bo_request_id o = k)) as [<-|?]; [left; rewrite Hr; eauto|].
  rewrite lookup_insert_ne by done.
  rewrite (run_facts_receipts _ _ _ Hrun); [by left|]. by eapply settlement_facts_plain.
Qed.

Lemma settle_keeps b o b' acc :
  settle b o = Ok (b', acc) -> (forall g, bo_settlement o <> SetRecovered g) -> keeps_contexts b b'.
Proof.
  unfold settle. intros Hx Hs. apply rbind_Ok in Hx as (receipt & Hr%ok_or_Ok & Hx).
  apply rbind_Ok in Hx as (? & _ & Hx). destruct (rc_settled receipt).
  { destruct (rc_settlement receipt =?= _); [|done]. by injection Hx as <- _. }
  apply rbind_Ok in Hx as (fs & Hf & Hx). apply rbind_Ok in Hx as (b1 & Hrun & Hx).
  apply rbind_Ok in Hx as (stored & _ & Hx). injection Hx as <- _.
  apply try_apply_facts_Ok in Hrun as [Hrun _].
  etrans; [eapply run_facts_keeps; [exact Hrun|]|by apply keeps_same].
  unfold settlement_facts in Hf. repeat case_match; ok_inv; try by repeat constructor.
  by edestruct Hs.
Qed.

(** A recovery that is settled moves its context, and no other, to the next
    generation. *)
Lemma settle_recovered b o b' acc stored g :
  settle b o = Ok (b', acc) -> bk_receipts b !! bo_request_id o = Some stored ->
  rc_settled stored = false -> bo_settlement o = SetRecovered g ->
  exists s s', bk_contexts b !! bo_context_id o = Some s /\ cs_closed s = false
    /\ bk_contexts b' = <[bo_context_id o := s']> (bk_contexts b)
    /\ cs_task_id s' = cs_task_id s /\ cs_generation s' = g /\ cs_closed s' = cs_closed s.
Proof.
  unfold settle. intros Hx Hr Hsd Hs. rewrite Hr in Hx. cbn [ok_or rbind] in Hx. rewrite Hsd in Hx.
  apply rbind_Ok in Hx as (? & _ & Hx).
  apply rbind_Ok in Hx as (fs & Hf & Hx). apply rbind_Ok in Hx as (b1 & Hrun & Hx).
  apply rbind_Ok in Hx as (st & _ & Hx). injection Hx as <- _.
  apply try_apply_facts_Ok in Hrun as [Hrun _].
  unfold settlement_facts in Hf. rewrite Hs in Hf. repeat case_match; ok_inv; simplify_eq.
  unfold apply_fact, apply_fact_state, require_context_ids in *. ok_inv.
  bool_inv. simplify_eq. eexists _, _. cbn. split_and!; first [done | eassumption | reflexivity].
Qed.

End BookFrame.

(** ** The invariant of the authority *)

Section AuthorityInvariant.
Context `{Sha256} `{UrlParser} `{BrowserWire}.

Definition ticket_of (t c g : N) (issued : list BrowserGenerationTicket)
    (k : BrowserGenerationTicket) : Prop :=
  gt_task_id k = t /\ gt_context_id k = c /\ gt_generation k = g /\ k ∈ issued.

Definition ticket_ids (q : GenerationQueue) : list N := map gt_request_id (gq_tickets q).

(** A queue agrees with the context it is keyed by; [ids] are the request ids
    minted so far. *)
Record queue_ok (b : BrowserBook) (issued : list BrowserGenerationTicket) (ids : list N)
    (t c : N) (q : GenerationQueue) : Prop := {
  qk_context : exists s, bk_contexts b !! c = Some s /\ cs_task_id s = t
                         /\ cs_generation s = gq_generation q;
  qk_tickets : Forall (ticket_of t c (gq_generation q) issued) (gq_tickets q);
  qk_nodup : NoDup (ticket_ids q);
  qk_head : gq_active q = None -> gq_queued q = [];
  qk_len : gq_len q <= MAX_BROWSER_GENERATION_QUEUE;
  qk_cancelled : forall g, g ∈ gq_cancelled q -> g < gq_generation q;
  qk_dropped : forall k, k ∈ gq_cancelled_requests q -> k ∉ ticket_ids q /\ k ∈ ids;
}.

Record authority_ok (a : BrowserTaskGenerationAuthority) (issued : list BrowserGenerationTicket)
    (ids : list N) : Prop := {
  ao_queues : forall t c q, au_queues a !! (t, c) = Some q -> queue_ok (au_book a) issued ids t c q;
  ao_size : N.of_nat (size (au_queues a)) <= MAX_BROWSER_GENERATION_CONTEXTS;
  ao_receipts : forall k, is_Some (bk_receipts (au_book a) !! k) -> k ∈ ids;
  ao_nodup : NoDup (map gt_request_id issued);
  ao_issued : Forall (fun k => gt_request_id k ∈ ids) issued;
}.

Definition pending (a : BrowserTaskGenerationAuthority) (k : BrowserGenerationTicket) : Prop :=
  exists q, au_queues a !! (gt_task_id k, gt_context_id k) = Some q /\ k ∈ gq_tickets q.

(** Nothing closed re-opens and nothing but a new ticket starts waiting. *)
Record advances (new : list BrowserGenerationTicket)
    (a a' : BrowserTaskGenerationAuthority) : Prop := {
  ad_contexts : forall k s, bk_contexts (au_book a) !! k = Some s ->
    exists s', bk_contexts (au_book a') !! k = Some s' /\ cs_task_id s' = cs_task_id s
      /\ (cs_closed s = true -> cs_closed s' = true);
  ad_pending : forall k, pending a' k -> pending a k \/ k ∈ new;
}.

Lemma queue_ok_mono b b' issued issued' ids ids' t c q :
  queue_ok b issued ids t c q -> keeps_contexts b b' -> issued ⊆ issued' -> ids ⊆ ids' ->
  queue_ok b' issued' ids' t c q.
Proof.
  intros [(s & Hs & Ht & Hg) Hk ? ? ? ? Hd] Hb Hi Hj. split; try done.
  - destruct (Hb c s Hs) as (s' & ? & ? & ? & _). exists s'. split_and!; congruence.
  - eapply Forall_impl; [exact Hk|]. intros k (? & ? & ? & ?). split_and!; try done. by apply Hi.
  - intros k [? ?]%Hd. auto.
Qed.

Lemma authority_ok_book a b' issued ids new :
  authority_ok a issued ids -> keeps_contexts (au_book a) b' ->
  new_receipts (au_book a) b' new -> authority_ok (with_book a b') issued (ids ++ new).
Proof.
  intros [Hq ? Hr ? Hi] Hb Hn. split; try done.
  - intros t c q Hl. eapply queue_ok_mono; [by apply Hq|done|done|set_solver].
  - intros k [?|?]%Hn; [|set_solver]. apply elem_of_app. left. by apply Hr.
  - eapply Forall_impl; [exact Hi|]. intros. cbn in *. set_solver.
Qed.

Lemma authority_ok_ids a issued ids ids' :
  authority_ok a issued ids -> ids ⊆ ids' -> authority_ok a issued ids'.
Proof.
  intros [Hq ? Hr ? Hi] Hs. split; try done.
  - intros t c q Hl. by eapply queue_ok_mono; [apply Hq|..].
  - intros k Hk. by apply Hs, Hr.
  - eapply Forall_impl; [exact Hi|]. intros k Hk. by apply Hs.
Qed.

(** Replacing a queue that is there. *)
Lemma authority_ok_queue a issued ids t c q q' :
  authority_ok a issued ids -> au_queues a !! (t, c) = Some q ->
  queue_ok (au_book a) issued ids t c q' -> authority_ok (with_queue a (t, c) q') issued ids.
Proof.
  intros [Hq ? ? ? ?] Hl Hk. split; try done.
  - intros t' c' q1. simpl. destruct (decide ((t, c) = (t', c'))) as [[= <- <-]|Hne].
    + rewrite lookup_insert_eq. by intros [= <-].
    + rewrite lookup_insert_ne by done. apply Hq.
  - simpl. rewrite map_size_insert_Some; [done|eauto].
Qed.

Lemma authority_ok_without a issued ids k :
  authority_ok a issued ids -> authority_ok (without_queue a k) issued ids.
Proof.
  intros [Hq Hs ? ? ?]. split; try done.
  - intros t c q. simpl. intros [_ Hl]%lookup_delete_Some. by apply Hq.
  - simpl. destruct (au_queues a !! k) as [q|] eqn:E.
    + rewrite map_size_delete_Some by eauto. lia.
    + by rewrite delete_id.
Qed.

Lemma advances_refl a : advances [] a a.
Proof. split; eauto. Qed.

Lemma advances_trans a1 a2 a3 : advances [] a1 a2 -> advances [] a2 a3 -> advances [] a1 a3.
Proof.
  intros [C1 P1] [C2 P2]. split.
  - intros k s (s1 & E1 & T1 & F1)%C1. destruct (C2 k s1 E1) as (s2 & E2 & T2 & F2).
    exists s2. split_and!; [done|congruence|auto].
  - intros k [Hk%P1|Hk]%P2; set_solver.
Qed.

Lemma advances_book a b' : keeps_contexts (au_book a) b' -> advances [] a (with_book a b').
Proof.
  intros Hb. split; [|by left]. intros k s (s' & ? & ? & _ & ?)%Hb. eauto.
Qed.

Lemma advances_queue a t c q' new :
  (forall k, k ∈ gq_tickets q' -> gt_task_id k = t -> gt_context_id k = c ->
     (exists q, au_queues a !! (t, c) = Some q /\ k ∈ gq_tickets q) \/ k ∈ new) ->
  advances new a (with_queue a (t, c) q').
Proof.
  intros Hq. split; [eauto|]. intros k (q & Hl & Hk). simpl in Hl.
  destruct (decide ((t, c) = (gt_task_id k, gt_context_id k))) as [[= -> ->]|Hne].
  - rewrite lookup_insert_eq in Hl. injection Hl as <-.
    destruct (Hq k Hk eq_refl eq_refl) as [(q1 & ? & ?)|?]; [left; by exists q1|by right].
  - rewrite lookup_insert_ne in Hl by done. left. by exists q.
Qed.

Lemma advances_without a k : advances [] a (without_queue a k).
Proof.
  split; [eauto|]. intros t (q & Hl & Hk). simpl in Hl. apply lookup_delete_Some in Hl as [_ Hl]. left. by exists q.
Qed.

(** What each method guarantees, success or not. *)
Definition guarantees {X} (a : BrowserTaskGenerationAuthority)
    (issued : list BrowserGenerationTicket) (ids : list N) (m : stepped X) : Prop :=
  authority_ok (fst m) issued ids /\ advances [] a (fst m) /\ snd m <> Err GeQueueOrphan.

Lemma guarantees_err {X} a issued ids e :
  authority_ok a issued ids -> e <> GeQueueOrphan ->
  guarantees a issued ids ((a, Err e) : stepped X).
Proof. intros Ha He. split_and!; [done|apply advances_refl|]. intros [= ->]. done. Qed.

Lemma guarantees_and_then {X Y} a issued ids (m : stepped X) (k : _ -> X -> stepped Y) :
  guarantees a issued ids m ->
  (forall a' x, m = (a', Ok x) -> authority_ok a' issued ids -> advances [] a a' ->
     guarantees a' issued ids (k a' x)) ->
  guarantees a issued ids (and_then m k).
Proof.
  destruct m as [a' [x|e]]; intros (Ho & Ha & He) Hk; simpl in *.
  - destruct (Hk a' x eq_refl Ho Ha) as (? & ? & ?). split_and!; try done. by eapply advances_trans.
  - split_and!; try done. intros [= ->]. done.
Qed.

Lemma from_contract_no_orphan e : from_contract_error e <> GeQueueOrphan.
Proof. by destruct e. Qed.

Lemma book_admit_guarantees a issued ids r :
  authority_ok a issued ids -> br_request_id r ∈ ids -> guarantees a issued ids (book_admit a r).
Proof.
  intros Ha Hr. unfold book_admit. destruct (admit_request (au_book a) r) as [[b acc]|e] eqn:E.
  - apply admit_request_frame in E as [Hk Hn]. split_and!; simpl; [|by apply advances_book|done].
    eapply authority_ok_ids; [by eapply authority_ok_book|set_solver].
  - apply guarantees_err; [done|apply from_contract_no_orphan].
Qed.

Lemma book_settle_guarantees a issued ids o :
  authority_ok a issued ids -> (forall g, bo_settlement o <> SetRecovered g) ->
  guarantees a issued ids (book_settle a o).
Proof.
  intros Ha Ho. unfold book_settle. destruct (settle (au_book a) o) as [[b acc]|e] eqn:E.
  - pose proof (settle_keeps _ _ _ _ E Ho) as Hk. apply settle_receipts in E.
    split_and!; simpl; [|by apply advances_book|done].
    eapply authority_ok_ids; [by eapply authority_ok_book|set_solver].
  - apply guarantees_err; [done|apply from_contract_no_orphan].
Qed.

Lemma live_generation_Ok a t c g :
  live_generation a t c = Ok g <->
  exists s, bk_contexts (au_book a) !! c = Some s /\ cs_task_id s = t /\ cs_closed s = false
            /\ cs_generation s = g.
Proof.
  unfold live_generation. split.
  - intros Hx. ok_inv. bool_inv. eauto.
  - intros (s & -> & <- & Hc & <-). simpl. by rewrite N.eqb_refl, Hc.
Qed.

Lemma live_generation_no_orphan a t c e : live_generation a t c = Err e -> e <> GeQueueOrphan.
Proof.
  unfold live_generation. destruct (_ !! c) as [s|]; simpl; [|by intros [= <-]].
  destruct (_ =? _); simpl; [|by intros [= <-]]. destruct (cs_closed s); simpl; by intros [= <-].
Qed.

(** *** The methods *)

Lemma NoDup_map_inj {A B} (f : A -> B) (l : list A) (x y : A) :
  NoDup (map f l) -> x ∈ l -> y ∈ l -> f x = f y -> x = y.
Proof.
  induction l as [|z l IH]; simpl; [by intros _ ?%elem_of_nil|].
  intros [Hn Hd]%NoDup_cons Hx Hy E. apply elem_of_cons in Hx, Hy.
  destruct Hx as [->|Hx], Hy as [->|Hy]; [done| | |by apply IH];
    exfalso; apply Hn; [rewrite E|rewrite <- E]; by apply list_elem_of_fmap_2.
Qed.

Lemma gq_len_tickets q : gq_len q = count (gq_tickets q).
Proof.
  unfold gq_len, gq_tickets. rewrite count_app. destruct (gq_active q); unfold count; simpl; lia.
Qed.

Lemma drop_queue_inv a t c g :
  match drop_queue a t c g with
  | (a', Ok dropped) => exists q, au_queues a !! (t, c) = Some q /\ gq_generation q = g
      /\ dropped = gq_tickets q
      /\ a' = with_queue a (t, c) (emptied q)
  | (a', Err e) => a' = a /\ e <> GeQueueOrphan
  end.
Proof.
  unfold drop_queue. destruct (au_queues a !! (t, c)) as [q|]; cbn [ok_or rbind]; [|done].
  destruct (N.eqb_spec (gq_generation q) g) as [<-|Hne]; cbn; [|done]. by exists q.
Qed.

Lemma emptied_ok b issued ids t c q :
  queue_ok b issued ids t c q -> Forall (fun k => gt_request_id k ∈ ids) issued ->
  queue_ok b issued ids t c (emptied q).
Proof.
  intros Hq Hi. destruct Hq. split; cbn; try done; try by constructor.
  - intros k. rewrite elem_of_union, elem_of_list_to_set. intros [Hk|Hk].
    + split; [apply not_elem_of_nil|].
      apply list_elem_of_fmap in Hk as (tk & -> & Hk). rewrite Forall_forall in qk_tickets0, Hi.
      apply Hi. by apply qk_tickets0.
    + split; [apply not_elem_of_nil|]. by apply qk_dropped0.
Qed.

Lemma drop_queue_guarantees a issued ids t c g :
  authority_ok a issued ids -> guarantees a issued ids (drop_queue a t c g).
Proof.
  intros Ha. pose proof (drop_queue_inv a t c g) as Hd.
  destruct (drop_queue a t c g) as [a' [dropped|e]].
  - destruct Hd as (q & Hl & _ & _ & ->). split_and!; simpl; [| |done].
    + eapply authority_ok_queue; [done|exact Hl|]. apply emptied_ok; [|apply Ha]. by apply Ha.
    + apply advances_queue. intros k Hk. cbn in Hk. by apply elem_of_nil in Hk.
  - destruct Hd as [-> He]. by apply guarantees_err.
Qed.

Lemma push_ticket_tickets q t :
  (gq_active q = None -> gq_queued q = []) -> gq_tickets (push_ticket q t) = gq_tickets q ++ [t].
Proof.
  unfold push_ticket, gq_tickets. destruct (gq_active q) eqn:E; simpl; [by intros _|].
  intros Hq. by rewrite Hq.
Qed.

Lemma pop_ticket_tickets q :
  (gq_active q = None -> gq_queued q = []) -> gq_tickets (pop_ticket q) = tail (gq_tickets q).
Proof.
  unfold pop_ticket, gq_tickets. destruct (gq_active q); simpl; [|intros ->; done]. by destruct (gq_queued q).
Qed.

Lemma ticket_ids_minted b issued ids t c q :
  queue_ok b issued ids t c q -> Forall (fun k => gt_request_id k ∈ ids) issued ->
  forall i, i ∈ ticket_ids q -> i ∈ ids.
Proof.
  intros Hq Hi i (k & -> & Hk)%list_elem_of_fmap. rewrite Forall_forall in Hi. apply Hi.
  pose proof (qk_tickets _ _ _ _ _ _ Hq) as Ht. rewrite Forall_forall in Ht. by apply Ht.
Qed.

Lemma push_ticket_ok b issued ids t c q k :
  queue_ok b issued ids t c q -> Forall (fun k => gt_request_id k ∈ ids) issued ->
  gt_task_id k = t -> gt_context_id k = c -> gt_generation k = gq_generation q ->
  gt_request_id k ∉ ids -> gq_len q < MAX_BROWSER_GENERATION_QUEUE ->
  queue_ok b (issued ++ [k]) (ids ++ [gt_request_id k]) t c (push_ticket q k).
Proof.
  intros Hq Hi ? ? ? Hn Hlen. pose proof (push_ticket_tickets q k (qk_head _ _ _ _ _ _ Hq)) as Ht.
  pose proof (ticket_ids_minted _ _ _ _ _ _ Hq Hi) as Hm.
  assert (ticket_ids (push_ticket q k) = ticket_ids q ++ [gt_request_id k]) as Hids.
  { unfold ticket_ids. by rewrite Ht, map_app. }
  assert (gq_generation (push_ticket q k) = gq_generation q
          /\ gq_cancelled (push_ticket q k) = gq_cancelled q
          /\ gq_cancelled_requests (push_ticket q k) = gq_cancelled_requests q) as (Eg & Ec & Er).
  { unfold push_ticket. by destruct (gq_active q). }
  destruct Hq. split; rewrite ?Eg, ?Ec, ?Er, ?Hids, ?Ht; try done.
  - apply Forall_app. split; [|repeat constructor; set_solver].
    eapply Forall_impl; [done|]. intros k' (? & ? & ? & ?). split_and!; try done. set_solver.
  - apply NoDup_app. split_and!; [done| |apply NoDup_singleton].
    intros i Hi' ->%list_elem_of_singleton. by apply Hn, Hm.
  - unfold push_ticket. destruct (gq_active q); cbn; congruence.
  - rewrite gq_len_tickets, Ht, count_app. rewrite gq_len_tickets in Hlen. unfold count in *. simpl. lia.
  - intros i Hd. destruct (qk_dropped0 i Hd) as [? ?]. split; [|set_solver].
    rewrite elem_of_app, list_elem_of_singleton. intros [?| ->]; [done|]. by apply Hn.
Qed.

Lemma pop_ticket_ok b issued ids t c q :
  queue_ok b issued ids t c q -> queue_ok b issued ids t c (pop_ticket q).
Proof.
  intros Hq. pose proof (pop_ticket_tickets q (qk_head _ _ _ _ _ _ Hq)) as Ht.
  assert (ticket_ids (pop_ticket q) = tail (ticket_ids q)) as Hids.
  { unfold ticket_ids. rewrite Ht. by destruct (gq_tickets q). }
  assert (forall i, i ∈ tail (ticket_ids q) -> i ∈ ticket_ids q) as Hsub.
  { intros i. destruct (ticket_ids q); simpl; [done|]. by right. }
  destruct Hq. split; rewrite ?Hids, ?Ht; try done.
  - by apply Forall_tail.
  - destruct (ticket_ids q); [done|]. by apply NoDup_cons in qk_nodup0 as [_ ?].
  - cbn. by destruct (gq_queued q).
  - rewrite gq_len_tickets, Ht. rewrite gq_len_tickets in qk_len0.
    destruct (gq_tickets q); simpl; [done|]. rewrite count_cons in qk_len0. lia.
  - intros i Hd. destruct (qk_dropped0 i Hd). split; [|done]. intros ?%Hsub. done.
Qed.

Lemma elem_of_ticket_ids q i :
  i ∈ ticket_ids q <->
  is_some_and (gq_active q) (fun active => gt_request_id active =? i)
  || existsb (fun queued => gt_request_id queued =? i) (gq_queued q) = true.
Proof.
  unfold ticket_ids, gq_tickets. rewrite map_app, elem_of_app, orb_true_iff, existsb_exists.
  rewrite !list_elem_of_fmap. setoid_rewrite N.eqb_eq.
  split; (intros [Hl|(k & Hk)]; [left|right]).
  - destruct Hl as (k & -> & Hk). destruct (gq_active q); simpl in *; [|set_solver].
    apply list_elem_of_singleton in Hk as ->. apply N.eqb_refl.
  - exists k. rewrite <- list_elem_of_In. naive_solver.
  - destruct (gq_active q) as [k|]; simpl in *; [|done]. apply N.eqb_eq in Hl as <-.
    exists k. split; [done|set_solver].
  - exists k. rewrite list_elem_of_In. naive_solver.
Qed.

Lemma require_live_Ok a t :
  require_live a t = Ok tt <->
  exists q, live_generation a (gt_task_id t) (gt_context_id t) = Ok (gt_generation t)
    /\ au_queues a !! (gt_task_id t, gt_context_id t) = Some q
    /\ gt_generation t ∉ gq_cancelled q /\ gt_request_id t ∉ gq_cancelled_requests q
    /\ gt_request_id t ∈ ticket_ids q.
Proof.
  unfold require_live. setoid_rewrite elem_of_ticket_ids. split.
  - intros Hx. apply rbind_Ok in Hx as (g & Hl & Hx). apply rbind_Ok in Hx as (? & Hg%guard_Ok & Hx).
    apply rbind_Ok in Hx as (q & Hq%ok_or_Ok & Hx). apply rbind_Ok in Hx as (? & Hc%guard_negb & Hx).
    apply rbind_Ok in Hx as (? & Hk%guard_Ok & _). apply N.eqb_eq in Hg. subst g.
    apply orb_false_iff in Hc as [Hc1%bool_decide_eq_false Hc2%bool_decide_eq_false]. eauto 10.
  - intros (q & -> & Hq & Hc1 & Hc2 & Hk). simpl. rewrite N.eqb_refl, Hq. simpl.
    rewrite !bool_decide_false by done. simpl. by rewrite Hk.
Qed.

(** A ticket the authority issued is live exactly while it waits in the queue
    of an open context. *)
Lemma live_iff_pending a issued ids k :
  authority_ok a issued ids -> k ∈ issued ->
  require_live a k = Ok tt <->
  pending a k /\ exists s, bk_contexts (au_book a) !! gt_context_id k = Some s
                          /\ cs_closed s = false.
Proof.
  intros Ha Hk. rewrite require_live_Ok. setoid_rewrite live_generation_Ok. split.
  - intros (q & (s & Hs & _ & Hc & _) & Hq & _ & _ & Hin).
    split; [|by exists s]. exists q. split; [done|].
    apply list_elem_of_fmap in Hin as (k' & Hid & Hk').
    pose proof (qk_tickets _ _ _ _ _ _ (ao_queues _ _ _ Ha _ _ _ Hq)) as Ht.
    rewrite Forall_forall in Ht. destruct (Ht k' Hk') as (_ & _ & _ & Hi).
    enough (k = k') as -> by done.
    by apply (NoDup_map_inj gt_request_id issued); [apply Ha|..].
  - intros [(q & Hq & Hin) (s & Hs & Hc)]. exists q.
    destruct (ao_queues _ _ _ Ha _ _ _ Hq) as [(s' & Hs' & Ht & Hg) Hk' _ _ _ Hcan Hdr].
    rewrite Forall_forall in Hk'. destruct (Hk' k Hin) as (_ & _ & Hgk & _).
    assert (gt_request_id k ∈ ticket_ids q) as Hid by by apply list_elem_of_fmap_2.
    split_and!; try done.
    + exists s'. rewrite Hs in Hs'. injection Hs' as <-. split_and!; congruence.
    + rewrite Hgk. intros ?%Hcan. lia.
    + intros ?%Hdr. naive_solver.
Qed.

Lemma authority_ok_fresh a issued ids rid :
  authority_ok a issued ids -> rid ∉ ids -> bk_receipts (au_book a) !! rid = None.
Proof.
  intros Ha Hn. destruct (bk_receipts (au_book a) !! rid) eqn:E; [|done].
  exfalso. apply Hn, (ao_receipts _ _ _ Ha). by rewrite E.
Qed.

Lemma create_context_guarantees a issued ids rid t c :
  authority_ok a issued ids -> rid ∉ ids ->
  guarantees a issued (ids ++ [rid]) (create_context a rid t c).
Proof.
  intros Ha Hn. assert (authority_ok a issued (ids ++ [rid])) as Ha1
    by (eapply authority_ok_ids; [done|set_solver]).
  unfold create_context. destruct (_ && _) eqn:Hb; [by apply guarantees_err|].
  pose (r := {| br_request_id := rid; br_task_id := t; br_context_id := c; br_tab_id := None;
                br_generation := 1; br_action := ActCreateContext |}).
  fold r. apply guarantees_and_then.
  { apply book_admit_guarantees; [done|]. simpl. set_solver. }
  intros a' [] Hadm Ha' Hadv. unfold book_admit in Hadm.
  destruct (admit_request (au_book a) r) as [[b acc]|] eqn:E; [|done]. injection Hadm as <-.
  apply admit_create_context in E as [Hnone (s & Hs & Ht & Hg)];
    [|by apply (authority_ok_fresh a issued ids)|done]. simpl in Hnone, Hs, Ht.
  assert (forall t', au_queues a !! (t', c) = None) as Hfree.
  { intros t'. destruct (au_queues a !! (t', c)) as [q|] eqn:Hq; [|done].
    apply (ao_queues _ _ _ Ha) in Hq. destruct (qk_context _ _ _ _ _ _ Hq) as (? & ? & _). congruence. }
  rewrite Hfree in Hb. simpl in Hb. rewrite andb_true_r in Hb. apply N.leb_gt in Hb.
  split_and!; [|apply advances_queue; intros k Hk; by apply elem_of_nil in Hk|done].
  destruct Ha' as [Hq Hsz Hr ? ?]. split; try done; cbn.
  - intros t' c' q. destruct (decide ((t, c) = (t', c'))) as [[= <- <-]|Hne].
    + rewrite lookup_insert_eq. intros [= <-]. split; cbn; try done; try by constructor.
      exists s. by split_and!.
    + rewrite lookup_insert_ne by done. apply Hq.
  - rewrite map_size_insert_None by apply Hfree. unfold MAX_BROWSER_GENERATION_CONTEXTS in *. lia.
Qed.

Lemma checked_guarantees {X Y} a issued ids (r : result X _) (k : X -> stepped Y) :
  authority_ok a issued ids -> r <> Err GeQueueOrphan ->
  (forall x, r = Ok x -> guarantees a issued ids (k x)) -> guarantees a issued ids (checked a r k).
Proof.
  intros Ha Hr Hk. unfold checked. destruct r as [x|e]; [by apply Hk|].
  apply guarantees_err; [done|congruence].
Qed.

(** No guard reports an orphan. *)
Ltac no_orphan :=
  unfold require_live, live_generation;
  repeat match goal with
         | |- rbind ?r _ <> _ => destruct r eqn:?; cbn [rbind]
         | |- ok_or ?o _ <> _ => destruct o; cbn [ok_or]
         | |- guard ?c _ <> _ => destruct c; cbn [guard]
         end; try discriminate;
  repeat match goal with
         | E : rbind ?r _ = Err _ |- _ => destruct r eqn:?; cbn [rbind] in E; simplify_eq
         | E : ok_or ?o _ = Err _ |- _ => destruct o; cbn [ok_or] in E; simplify_eq
         | E : guard ?c _ = Err _ |- _ => destruct c; cbn [guard] in E; simplify_eq
         end; try discriminate.

Lemma complete_ticket_guarantees a issued ids t :
  authority_ok a issued ids -> guarantees a issued ids (complete_ticket a t).
Proof.
  intros Ha. apply checked_guarantees; [done|no_orphan|]. intros q Hq.
  apply rbind_Ok in Hq as ([] & _ & Hq). apply rbind_Ok in Hq as (q0 & Hl%ok_or_Ok & Hq).
  apply rbind_Ok in Hq as (? & _ & Hq). injection Hq as ->.
  pose proof (ao_queues _ _ _ Ha _ _ _ Hl) as Hk. split_and!; cbn; [| |done].
  - eapply authority_ok_queue; [done|exact Hl|]. by apply pop_ticket_ok.
  - apply advances_queue. intros k Hin _ _. left. exists q. split; [done|].
    rewrite pop_ticket_tickets in Hin by apply Hk. destruct (gq_tickets q); [done|]. by right.
Qed.

Lemma open_tab_guarantees a issued ids rid t c tab url :
  authority_ok a issued ids -> rid ∈ ids ->
  guarantees a issued ids (authority_open_tab a rid t c tab url).
Proof.
  intros Ha Hr. apply checked_guarantees; [done|no_orphan|]. intros g _. by apply book_admit_guarantees.
Qed.

Lemma cancel_guarantees a issued ids rid t c g :
  authority_ok a issued ids -> rid ∈ ids -> guarantees a issued ids (cancel_generation a rid t c g).
Proof.
  intros Ha Hr. apply checked_guarantees; [done|no_orphan|]. intros _ _.
  apply guarantees_and_then; [by apply book_admit_guarantees|].
  intros a' [] _ Ha' _. by apply drop_queue_guarantees.
Qed.

Lemma settle_identity_guarantees a issued ids t l art action i k :
  authority_ok a issued ids -> gt_request_id t ∈ ids -> l ∈ ids ->
  guarantees a issued ids (settle_identity a t l art action i k).
Proof.
  intros Ha Ht Hl. apply checked_guarantees; [done|no_orphan|]. intros _ _.
  apply guarantees_and_then; [by apply book_admit_guarantees|]. intros a1 [] _ Ha1 _.
  apply guarantees_and_then; [apply book_settle_guarantees; [done|by destruct k]|]. intros a2 [] _ Ha2 _.
  apply guarantees_and_then; [by apply book_admit_guarantees|]. intros a3 [] _ Ha3 _.
  split_and!; [done|apply advances_refl|done].
Qed.

Lemma identify_recording_guarantees a issued ids t l art i :
  authority_ok a issued ids -> gt_request_id t ∈ ids -> l ∈ ids ->
  guarantees a issued ids (identify_recording a t l art i).
Proof.
  intros. apply checked_guarantees; [done|no_orphan|]. intros _ _. by apply settle_identity_guarantees.
Qed.

Lemma identify_recipe_guarantees a issued ids t l art i :
  authority_ok a issued ids -> gt_request_id t ∈ ids -> l ∈ ids ->
  guarantees a issued ids (identify_recipe a t l art i).
Proof.
  intros. apply checked_guarantees; [done|no_orphan|]. intros _ _. by apply settle_identity_guarantees.
Qed.

(** *** Recovery *)

(** Once its context has moved to the next generation, an emptied queue follows. *)
Lemma recovered_ok a issued ids b t c q g s s' :
  authority_ok a issued ids -> au_queues a !! (t, c) = Some q -> gq_generation q = g ->
  gq_tickets q = [] -> new_receipts (au_book a) b [] ->
  bk_contexts (au_book a) !! c = Some s -> bk_contexts b = <[c := s']> (bk_contexts (au_book a)) ->
  cs_task_id s' = cs_task_id s -> cs_generation s' = g + 1 ->
  authority_ok (with_queue (with_book a b) (t, c) (recovered_queue q g (g + 1))) issued ids.
Proof.
  intros Ha Hq Hg He Hn Hs Hb Ht Hg'. pose proof (ao_queues _ _ _ Ha _ _ _ Hq) as Hk.
  pose proof (qk_context _ _ _ _ _ _ Hk) as (s0 & Hs0 & Hs0t & Hs0g).
  assert (s0 = s) as -> by congruence.
  assert (gq_tickets (recovered_queue q g (g + 1)) = []) as He' by exact He.
  assert (gq_active q = None /\ gq_queued q = []) as [Hact Hqd].
  { unfold gq_tickets in He. destruct (gq_active q); [done|]. by split. }
  destruct Ha as [Hqs Hsz Hr ? ?]. split; try done; cbn.
  - intros t' c' q'. destruct (decide ((t, c) = (t', c'))) as [[= <- <-]|Hne].
    + rewrite lookup_insert_eq. intros [= <-]. split; unfold ticket_ids; rewrite ?He'; try by constructor.
      * exists s'. rewrite Hb, lookup_insert_eq. split_and!; [done|congruence|done].
      * intros _. exact Hqd.
      * rewrite gq_len_tickets, He'. done.
      * intros g0. cbn. rewrite elem_of_union, elem_of_singleton.
        intros [->|Hc%(qk_cancelled _ _ _ _ _ _ Hk)]; lia.
    + rewrite lookup_insert_ne by done. intros Hl. destruct (Hqs _ _ _ Hl) as [(s1 & H1s & H1t & H1g) ? ? ? ? ? ?].
      split; try done. exists s1. rewrite Hb, lookup_insert_ne; [done|].
      intros <-. apply Hne. congruence.
  - rewrite map_size_insert_Some; [done|eauto].
  - intros k Hk'. apply Hn in Hk' as [?|?%elem_of_nil]; [by apply Hr|done].
Qed.

Lemma recover_guarantees a issued ids rid t c g :
  authority_ok a issued ids -> rid ∉ ids ->
  guarantees a issued (ids ++ [rid]) (recover_generation a rid t c g).
Proof.
  intros Ha Hn. assert (authority_ok a issued (ids ++ [rid])) as Ha1
    by (eapply authority_ok_ids; [done|set_solver]).
  apply checked_guarantees; [done|no_orphan; by destruct (checked_add _ _)|]. intros next Hnext.
  apply rbind_Ok in Hnext as (live & Hlive & Hnext). apply rbind_Ok in Hnext as (? & Hg%guard_Ok & Hnext).
  apply ok_or_Ok, checked_add_Some in Hnext as [-> _].
  apply guarantees_and_then; [by apply drop_queue_guarantees|]. intros a1 dropped Hdrop Ha2 _.
  pose proof (drop_queue_inv a t c g) as Hd. rewrite Hdrop in Hd.
  destruct Hd as (q & Hq & Hqg & _ & ->). cbn [au_book] in *.
  set (a1 := with_queue a (t, c) (emptied q)) in *.
  assert (au_queues a1 !! (t, c) = Some (emptied q)) as Hq1 by apply lookup_insert_eq.
  set (r := {| br_request_id := rid; br_task_id := t; br_context_id := c; br_tab_id := None;
               br_generation := g; br_action := ActRecover |}).
  apply guarantees_and_then.
  { apply book_admit_guarantees; [done|]. simpl. set_solver. }
  intros a2 [] Hadm Ha3 _. unfold book_admit in Hadm.
  destruct (admit_request (au_book a1) r) as [[b acc]|] eqn:E; [|done]. injection Hadm as <-.
  apply admit_request_recorded in E as (stored & Hst & _ & Hset);
    [|by apply (authority_ok_fresh a issued ids)]. cbn in Hset.
  unfold book_settle. set (o := {| bo_request_id := rid; bo_task_id := t; bo_context_id := c;
    bo_tab_id := None; bo_generation := g; bo_settlement := SetRecovered (g + 1) |}).
  destruct (settle (au_book (with_book a1 b)) o) as [[b2 acc2]|e] eqn:Es; cbn [and_then];
    [|apply guarantees_err; [done|apply from_contract_no_orphan]].
  pose proof (settle_receipts _ _ _ _ Es) as Hrec.
  eapply settle_recovered in Es as (s & s' & Hs & Hcl & Hb2 & Ht' & Hg' & Hcl'); try done.
  cbn [au_queues with_book]. rewrite Hq1. split_and!; cbn [fst snd]; [| |done].
  - by eapply (recovered_ok (with_book a1 b)).
  - split.
    + intros k s0 Hk. change (bk_contexts b !! k = Some s0) in Hk. cbn. rewrite Hb2.
      destruct (decide (c = k)) as [<-|Hne].
      * rewrite lookup_insert_eq. change (bk_contexts b !! c = Some s) in Hs.
        exists s'. split_and!; [done|congruence|congruence].
      * rewrite lookup_insert_ne by done. eauto.
    + intros k (q' & Hl & Hin). cbn in Hl. left. exists q'. split; [|done].
      destruct (decide ((t, c) = (gt_task_id k, gt_context_id k))) as [E'|Hne].
      * rewrite <- E' in *. rewrite lookup_insert_eq in Hl. injection Hl as <-. by apply elem_of_nil in Hin.
      * by rewrite lookup_insert_ne in Hl.
Qed.

(** *** Closing a task *)

Lemma close_queues_guarantees contexts : forall a issued ids t,
  authority_ok a issued ids -> guarantees a issued ids (close_queues a t contexts).
Proof.
  induction contexts as [|c rest IH]; intros a issued ids t Ha; simpl.
  { split_and!; [done|apply advances_refl|done]. }
  apply guarantees_and_then.
  - destruct (live_generation a t c) as [g|e].
    + apply guarantees_and_then; [by apply drop_queue_guarantees|]. intros a' x _ Ha' _.
      split_and!; [done|apply advances_refl|done].
    + split_and!; [done|apply advances_refl|done].
  - intros a' [] _ Ha' _. destruct (IH (without_queue a' (t, c)) issued ids t) as (? & Hadv & ?);
      [by apply authority_ok_without|]. split_and!; try done.
    eapply advances_trans; [apply advances_without|done].
Qed.

(** The contexts closed so far have no queue, and no other queue is added. *)
Lemma close_queues_removes contexts : forall a a' t,
  close_queues a t contexts = (a', Ok tt) ->
  forall c q, au_queues a' !! (t, c) = Some q -> au_queues a !! (t, c) <> None /\ c ∉ contexts.
Proof.
  induction contexts as [|c0 rest IH]; intros a a' t; cbn [close_queues].
  { intros [= <-] c q Hq. split; [congruence|apply not_elem_of_nil]. }
  intros Hx c q Hq.
  assert (exists a1, close_queues (without_queue a1 (t, c0)) t rest = (a', Ok tt)
            /\ forall k, k <> (t, c0) -> au_queues a1 !! k = au_queues a !! k) as (a1 & Hx1 & Hsame).
  { destruct (live_generation a t c0) as [g|e]; [|by exists a].
    pose proof (drop_queue_inv a t c0 g) as Hd. destruct (drop_queue a t c0 g) as [a1 [d|e]]; [|done].
    destruct Hd as (q1 & _ & _ & _ & ->). exists (with_queue a (t, c0) (emptied q1)). split; [done|].
    intros k Hk. cbn. by rewrite lookup_insert_ne. }
  destruct (IH _ _ _ Hx1 c q Hq) as [Hl Hc]. cbn in Hl.
  destruct (decide (c = c0)) as [->|Hne]; [by rewrite lookup_delete_eq in Hl|].
  rewrite lookup_delete_ne in Hl by congruence. rewrite Hsame in Hl by congruence.
  split; [done|]. by apply not_elem_of_cons.
Qed.

Lemma elem_of_owned_contexts a t c :
  c ∈ owned_contexts a t <-> is_Some (au_queues a !! (t, c)).
Proof.
  unfold owned_contexts. rewrite merge_sort_Permutation, list_elem_of_fmap. split.
  - intros ([[t' c'] q] & -> & Hin). apply list_elem_of_In, filter_In in Hin as [Hin Ht%N.eqb_eq].
    simpl in *. subst t'. apply list_elem_of_In, elem_of_map_to_list in Hin. by eexists.
  - intros [q Hq]. exists ((t, c), q). split; [done|]. apply list_elem_of_In, filter_In.
    split; [by apply list_elem_of_In, elem_of_map_to_list|apply N.eqb_refl].
Qed.

Lemma close_task_keeps b t b' :
  close_task b t = Ok b' -> keeps_contexts b b' /\ new_receipts b b' [].
Proof.
  unfold close_task. intros Hx. apply rbind_Ok in Hx as (? & _ & Hx).
  apply rbind_Ok in Hx as (b1 & Hrun & Hx). injection Hx as <-.
  apply try_apply_facts_Ok in Hrun as [Hrun _].
  assert (Forall (fun f => moves_generation f = false /\ is_request_accepted f = false)
            (plan_close_task b t)) as Hall.
  { apply Forall_app. split; apply Forall_map; by apply Forall_true. }
  split.
  - etrans; [eapply run_facts_keeps; [exact Hrun|]|by apply keeps_same].
    eapply Forall_impl; [exact Hall|]. by intros f [? _].
  - intros k. simpl. rewrite (run_facts_receipts _ _ _ Hrun); [by left|].
    eapply Forall_impl; [exact Hall|]. by intros f [_ ?].
Qed.

Lemma close_task_guarantees a issued ids t :
  authority_ok a issued ids -> guarantees a issued ids (authority_close_task a t).
Proof.
  intros Ha. apply guarantees_and_then; [by apply close_queues_guarantees|]. intros a' [] Hcl Ha' _.
  destruct (close_task (au_book a') t) as [b|e] eqn:E;
    [|apply guarantees_err; [done|apply from_contract_no_orphan]].
  apply close_task_keeps in E as [Hk Hn]. split_and!; cbn; [|by apply advances_book|].
  - eapply authority_ok_ids; [by eapply authority_ok_book|set_solver].
  - rewrite (proj2 (forallb_forall _ _)); [done|]. intros [[t' c] q] Hin. cbn.
    apply list_elem_of_In, elem_of_map_to_list in Hin.
    destruct (N.eqb_spec t' t) as [->|]; [|done]. cbn.
    destruct (close_queues_removes _ _ _ _ Hcl _ _ Hin) as [Hl Hc]. exfalso. apply Hc.
    apply elem_of_owned_contexts. destruct (au_queues a !! (t, c)); [by eexists|done].
Qed.

(** *** Runs *)

Lemma open_task_guarantees a issued ids t :
  authority_ok a issued ids -> guarantees a issued ids (authority_open_task a t).
Proof.
  intros Ha. unfold authority_open_task.
  destruct (open_task (au_book a) t) as [b|e] eqn:E;
    [|apply guarantees_err; [done|apply from_contract_no_orphan]].
  assert (bk_contexts b = bk_contexts (au_book a) /\ bk_receipts b = bk_receipts (au_book a)) as [Ec Er].
  { unfold open_task in E. repeat case_match; by simplify_eq/=. }
  split_and!; cbn; [|by apply advances_book, keeps_same|done].
  eapply authority_ok_ids; [eapply (authority_ok_book _ _ _ _ []); [done|by apply keeps_same|]|set_solver].
  intros k. rewrite Er. by left.
Qed.

Lemma enqueue_ticket_step a issued ids rid t c tab g k :
  authority_ok a issued ids -> rid ∉ ids ->
  match enqueue_ticket a rid t c tab g k with
  | (a', Ok ticket) => authority_ok a' (issued ++ [ticket]) (ids ++ [rid]) /\ advances [ticket] a a'
  | (a', Err e) => a' = a /\ e <> GeQueueOrphan
  end.
Proof.
  intros Ha Hn. unfold enqueue_ticket. set (r := rbind _ _).
  assert (r <> Err GeQueueOrphan) as Hr by (unfold r; no_orphan).
  destruct r as [q|e] eqn:E; cbn; [|split; [done|congruence]]. subst r.
  apply rbind_Ok in E as (live & (s & Hs & Ht & Hc & Hg)%live_generation_Ok & E).
  apply rbind_Ok in E as (? & Hgl%guard_Ok & E). apply N.eqb_eq in Hgl.
  apply rbind_Ok in E as (q0 & Hq%ok_or_Ok & E). apply rbind_Ok in E as (? & Hl%guard_negb & E).
  injection E as ->. apply N.leb_gt in Hl.
  set (tk := {| gt_request_id := rid; gt_task_id := t; gt_context_id := c; gt_tab_id := tab;
                gt_generation := g; gt_kind := k |}).
  pose proof (ao_queues _ _ _ Ha _ _ _ Hq) as Hk.
  pose proof (qk_context _ _ _ _ _ _ Hk) as (s0 & Hs0 & _ & Hs0g).
  assert (gt_generation tk = gq_generation q) as Htg by (simpl; congruence).
  pose proof (push_ticket_ok _ _ _ _ _ _ tk Hk (ao_issued _ _ _ Ha) eq_refl eq_refl Htg Hn Hl) as Hp.
  pose proof (push_ticket_tickets q tk (qk_head _ _ _ _ _ _ Hk)) as Hpt.
  destruct Ha as [Hqs Hsz Hrc Hnd Hi]. split.
  - split; cbn; try done.
    + intros t' c' q'. destruct (decide ((t, c) = (t', c'))) as [[= <- <-]|Hne].
      * rewrite lookup_insert_eq. by intros [= <-].
      * rewrite lookup_insert_ne by done. intros Hq'.
        eapply queue_ok_mono; [by apply Hqs|done|set_solver|set_solver].
    + rewrite map_size_insert_Some; [done|eauto].
    + intros i ?%Hrc. set_solver.
    + rewrite map_app. apply NoDup_app. split_and!; [done| |apply NoDup_singleton].
      intros i Hi' ->%list_elem_of_singleton. apply Hn. apply list_elem_of_fmap in Hi' as (k' & E & Hk').
      rewrite Forall_forall in Hi. apply Hi in Hk'. by rewrite <- E in Hk'.
    + apply Forall_app. split; [|repeat constructor; simpl; set_solver].
      eapply Forall_impl; [exact Hi|]. cbn. intros. set_solver.
  - apply advances_queue. intros k' Hk' _ _. rewrite Hpt in Hk'.
    apply elem_of_app in Hk' as [?|?]; [left; eauto|by right].
Qed.

Definition world_ok (w : world) : Prop :=
  authority_ok (w_authority w) (w_issued w) (w_ids w) /\ GeQueueOrphan ∉ w_errors w.

Lemma guarantees_outcome {X} a issued ids (m : stepped X) :
  guarantees a issued ids m ->
  authority_ok (fst (outcome m)) issued ids /\ advances [] a (fst (outcome m))
  /\ snd (outcome m) <> Some GeQueueOrphan.
Proof. destruct m as [a' [x|e]]; intros (? & ? & Hn); split_and!; try done. simpl in *. congruence. Qed.

Lemma authority_step_ok w op :
  world_ok w -> legal w op = true ->
  world_ok (world_step w op)
  /\ exists new, w_issued (world_step w op) = w_issued w ++ new
       /\ (forall t, t ∈ new -> gt_request_id t ∉ w_ids w)
       /\ advances new (w_authority w) (w_authority (world_step w op)).
Proof.
  intros [Ha He] [Hm Hp]%andb_true_iff. rewrite forallb_forall in Hm, Hp.
  setoid_rewrite bool_decide_eq_true in Hm. setoid_rewrite bool_decide_eq_true in Hp.
  setoid_rewrite <- list_elem_of_In in Hm. setoid_rewrite <- list_elem_of_In in Hp.
  assert (authority_ok (w_authority w) (w_issued w) (w_ids w ++ minted op)) as Ha1
    by (eapply authority_ok_ids; [done|set_solver]).
  assert (forall t, t ∈ presented op -> gt_request_id t ∈ w_ids w ++ minted op) as Hpi.
  { intros t Ht%Hp. pose proof (ao_issued _ _ _ Ha1) as Hi. rewrite Forall_forall in Hi. by apply Hi. }
  assert (forall i, i ∈ minted op -> i ∈ w_ids w ++ minted op) as Hmi by set_solver.
  assert (forall (X : Type) (m : stepped X),
    guarantees (w_authority w) (w_issued w) (w_ids w ++ minted op) m ->
    authority_step (w_authority w) op = (outcome m, []) ->
    world_ok (world_step w op) /\ exists new, w_issued (world_step w op) = w_issued w ++ new
       /\ (forall t, t ∈ new -> gt_request_id t ∉ w_ids w)
       /\ advances new (w_authority w) (w_authority (world_step w op))) as Hdone.
  { intros X m (Hg1 & Hg2 & Hg3)%guarantees_outcome Hs. unfold world_step, world_ok. rewrite Hs.
    destruct (outcome m) as [a' e]. cbn in *. split; [split|].
    - by rewrite app_nil_r.
    - rewrite elem_of_app. intros [?|Hin]; [done|]. destruct e; [|by apply elem_of_nil in Hin].
      apply list_elem_of_singleton in Hin as <-. done.
    - exists []. split_and!; [done|by intros ? ?%elem_of_nil|done]. }
  destruct op; cbn [minted presented] in *; try (eapply Hdone; [|reflexivity]).
  - by apply open_task_guarantees.
  - apply create_context_guarantees; [done|apply Hm; set_solver].
  - apply open_tab_guarantees; [done|set_solver].
  - clear Hdone. unfold world_step, world_ok. cbn [authority_step].
    pose proof (enqueue_ticket_step (w_authority w) (w_issued w) (w_ids w) request_id task_id context_id
                  tab_id generation kind Ha (Hm request_id ltac:(set_solver))) as Hs.
    destruct (enqueue_ticket _ _ _ _ _ _ _) as [a' [tk|e]] eqn:E; cbn in *.
    + destruct Hs as [? ?]. rewrite app_nil_r. split; [done|]. exists [tk]. split_and!; try done.
      intros t ->%list_elem_of_singleton. unfold enqueue_ticket, checked in E.
      destruct (rbind _ _); simplify_eq/=. apply Hm. set_solver.
    + destruct Hs as [-> Hne]. rewrite app_nil_r. split.
      * split; [done|]. rewrite elem_of_app, list_elem_of_singleton. intros [?|?]; [done|congruence].
      * exists []. rewrite app_nil_r. split_and!; [done|by intros ? ?%elem_of_nil|apply advances_refl].
  - by apply complete_ticket_guarantees.
  - apply cancel_guarantees; [done|set_solver].
  - apply recover_guarantees; [done|apply Hm; set_solver].
  - apply identify_recording_guarantees; [done|apply Hpi; set_solver|set_solver].
  - apply identify_recipe_guarantees; [done|apply Hpi; set_solver|set_solver].
  - by apply close_task_guarantees.
Qed.

Lemma world_new_ok : world_ok world_new.
Proof.
  split; [|apply not_elem_of_nil].
  split; cbn; [intros t c q; by rewrite lookup_empty|by vm_compute| |constructor|constructor].
  intros k [? Hk]. by rewrite lookup_empty in Hk.
Qed.

(** A ticket that is not live stays so. *)
Lemma world_step_not_live w op t :
  world_ok w -> legal w op = true -> t ∈ w_issued w ->
  require_live (w_authority w) t <> Ok tt ->
  require_live (w_authority (world_step w op)) t <> Ok tt.
Proof.
  intros Hw Hl Ht Hn Hlive. apply Hn. destruct (authority_step_ok w op Hw Hl) as [Hw' (new & Ei & Hnew & [Hc Hp])].
  destruct Hw as [Ha _], Hw' as [Ha' _].
  assert (t ∈ w_issued (world_step w op)) as Ht' by (rewrite Ei; set_solver).
  apply (live_iff_pending _ _ _ _ Ha' Ht') in Hlive as [Hpend (s' & Hs' & Hcl)].
  apply (live_iff_pending _ _ _ _ Ha Ht).
  apply Hp in Hpend as [Hpend|Hin].
  - split; [done|]. destruct Hpend as (q & Hq & _).
    destruct (qk_context _ _ _ _ _ _ (ao_queues _ _ _ Ha _ _ _ Hq)) as (s & Hs & _). exists s. split; [done|].
    destruct (Hc _ _ Hs) as (s1 & Hs1 & _ & Hcl1). destruct (cs_closed s) eqn:E; [|done].
    rewrite Hs' in Hs1. injection Hs1 as <-. by rewrite Hcl1 in Hcl.
  - exfalso. apply (Hnew t Hin). pose proof (ao_issued _ _ _ Ha) as Hi. rewrite Forall_forall in Hi. by apply Hi.
Qed.

Lemma world_run_ok ops : forall w,
  world_ok w -> legal_run w ops = true ->
  world_ok (world_run w ops) /\ (forall t, t ∈ w_issued w -> t ∈ w_issued (world_run w ops))
  /\ forall t, t ∈ w_issued w -> require_live (w_authority w) t <> Ok tt ->
       require_live (w_authority (world_run w ops)) t <> Ok tt.
Proof.
  induction ops as [|op ops IH]; intros w Hw Hl; cbn in *; [done|].
  apply andb_true_iff in Hl as [Hop Hl].
  destruct (authority_step_ok w op Hw Hop) as [Hw' (new & Ei & _)].
  destruct (IH _ Hw' Hl) as (Hw2 & Hi & Hn).
  assert (forall t, t ∈ w_issued w -> t ∈ w_issued (world_step w op)) as Hi1
    by (intros t Ht; rewrite Ei; set_solver).
  split_and!; [done|auto|]. intros t Ht Hd. apply Hn; [auto|]. by apply world_step_not_live.
Qed.

Lemma legal_run_app ops1 : forall w ops2,
  legal_run w (ops1 ++ ops2) = legal_run w ops1 && legal_run (world_run w ops1) ops2.
Proof. induction ops1; intros; cbn; [done|]. by rewrite IHops1, andb_assoc. Qed.


(** *** What a method that succeeds has done *)

Lemma queued_count_none a t c k :
  queued_count a t c = 0 -> gt_task_id k = t -> gt_context_id k = c -> ~ pending a k.
Proof.
  unfold queued_count. intros Hz <- <- (q & Hq & Hin). rewrite Hq, gq_len_tickets in Hz.
  destruct (gq_tickets q); [by apply elem_of_nil in Hin|]. rewrite count_cons in Hz. lia.
Qed.

Lemma and_then_Ok {X Y} (m : stepped X) (k : _ -> X -> stepped Y) a y :
  and_then m k = (a, Ok y) <-> exists a' x, m = (a', Ok x) /\ k a' x = (a, Ok y).
Proof. destruct m as [a1 [x|e]]; simpl; split; naive_solver. Qed.

Lemma checked_Ok {X Y} a (r : result X _) (k : X -> stepped Y) a' y :
  checked a r k = (a', Ok y) <-> exists x, r = Ok x /\ k x = (a', Ok y).
Proof. destruct r; simpl; split; naive_solver. Qed.

Lemma recover_Ok a issued ids rid t c g a' n :
  authority_ok a issued ids -> rid ∉ ids ->
  recover_generation a rid t c g = (a', Ok n) ->
  n = g + 1 /\ live_generation a' t c = Ok n /\ queued_count a' t c = 0.
Proof.
  intros Ha Hn Hx. apply checked_Ok in Hx as (next & Hg & Hx).
  apply rbind_Ok in Hg as (live & (s0 & Hs0 & Ht0 & _)%live_generation_Ok & Hg).
  apply rbind_Ok in Hg as (? & _ & [-> _]%ok_or_Ok%checked_add_Some).
  apply and_then_Ok in Hx as (a1 & d & Hd & Hx). pose proof (drop_queue_inv a t c g) as Hdi.
  rewrite Hd in Hdi. destruct Hdi as (q & Hq & _ & _ & ->).
  apply and_then_Ok in Hx as (a2 & [] & Hadm & Hx). unfold book_admit in Hadm.
  destruct (admit_request _ _) as [[b acc]|] eqn:E; [|done]. injection Hadm as <-.
  pose proof (admit_request_frame _ _ _ _ E) as [Hk _].
  apply admit_request_recorded in E as (stored & Hst & _ & Hset);
    [|by apply (authority_ok_fresh a issued ids)].
  apply and_then_Ok in Hx as (a3 & [] & Hst2 & Hx). unfold book_settle in Hst2.
  destruct (settle _ _) as [[b2 acc2]|] eqn:Es; [|done]. injection Hst2 as <-.
  eapply settle_recovered in Es as (s & s' & Hs & Hcl & Hb2 & Ht & Hg & Hcl'); try done.
  cbn [au_queues with_book with_queue] in Hx. rewrite lookup_insert_eq in Hx.
  injection Hx as <- <-. split; [done|]. split.
  - apply live_generation_Ok. exists s'. cbn. cbn in Hb2. rewrite Hb2, lookup_insert_eq.
    destruct (Hk c s0 Hs0) as (s1 & Hs1 & Ht1 & _). cbn in Hs. assert (s1 = s) as -> by congruence.
    split_and!; congruence.
  - unfold queued_count. cbn. by rewrite lookup_insert_eq.
Qed.

Lemma cancel_Ok a rid t c g a' dropped :
  cancel_generation a rid t c g = (a', Ok dropped) ->
  (exists q, au_queues a !! (t, c) = Some q /\ dropped = gq_tickets q) /\ queued_count a' t c = 0.
Proof.
  intros Hx. apply checked_Ok in Hx as (? & _ & Hx). apply and_then_Ok in Hx as (a1 & [] & Hadm & Hx).
  assert (au_queues a1 = au_queues a) as E.
  { unfold book_admit in Hadm. destruct (admit_request _ _) as [[b acc]|]; [|done]. by injection Hadm as <-. }
  pose proof (drop_queue_inv a1 t c g) as Hd. rewrite Hx in Hd. rewrite E in Hd.
  destruct Hd as (q & Hq & _ & -> & ->). split; [eauto|].
  unfold queued_count. cbn. by rewrite lookup_insert_eq.
Qed.

Lemma complete_Ok a issued ids t a' next :
  authority_ok a issued ids -> t ∈ issued -> complete_ticket a t = (a', Ok next) ->
  exists q, au_queues a !! (gt_task_id t, gt_context_id t) = Some q
    /\ gq_tickets q = t :: gq_queued q /\ next = head (gq_queued q)
    /\ a' = with_queue a (gt_task_id t, gt_context_id t) (pop_ticket q).
Proof.
  intros Ha Ht Hx. apply checked_Ok in Hx as (q0 & Hg & Hx).
  apply rbind_Ok in Hg as ([] & _ & Hg). apply rbind_Ok in Hg as (q & Hq%ok_or_Ok & Hg).
  apply rbind_Ok in Hg as (? & Hact%guard_Ok & Hg). injection Hg as <-. injection Hx as <- <-.
  exists q. split_and!; try done. unfold gq_tickets.
  destruct (gq_active q) as [k|] eqn:E; [|done]. cbn in *. apply N.eqb_eq in Hact. f_equal.
  pose proof (qk_tickets _ _ _ _ _ _ (ao_queues _ _ _ Ha _ _ _ Hq)) as Hk.
  unfold gq_tickets in Hk. rewrite E in Hk. apply Forall_cons in Hk as [(_ & _ & _ & Hk) _].
  by apply (NoDup_map_inj gt_request_id issued); [apply Ha|..].
Qed.

Lemma reached_ok ops : legal_run world_new ops = true -> world_ok (world_run world_new ops).
Proof. intros Hl. by apply world_run_ok; [apply world_new_ok|]. Qed.

End AuthorityInvariant.

(** No ticket issued for the context so far is live in the later state. *)
Definition work_dropped (w w' : world) (t : TaskId) (c : BrowserContextId) : Prop :=
  forall k, k ∈ w_issued w -> gt_task_id k = t -> gt_context_id k = c ->
    require_live (w_authority w') k <> Ok tt.

(** A cancellation that succeeds answers with all the work that waits, in order, and a recovery
    that succeeds moves the context to exactly the next generation; none of the context's work up to
    then is live in the later state. *)
Definition turned_over `{Sha256} `{UrlParser} `{BrowserWire} (w : world) (op : authority_op)
    (w' : world) : Prop :=
  match op with
  | OpCancel rid t c g => forall a dropped,
      cancel_generation (w_authority w) rid t c g = (a, Ok dropped) ->
      (exists q, au_queues (w_authority w) !! (t, c) = Some q /\ dropped = gq_tickets q)
      /\ work_dropped w w' t c
  | OpRecover rid t c g => forall a n,
      recover_generation (w_authority w) rid t c g = (a, Ok n) ->
      n = g + 1 /\ live_generation a t c = Ok n /\ work_dropped w w' t c
  | _ => True
  end.

Section TurnedOver.
Context `{Sha256} `{UrlParser} `{BrowserWire}.

(** An emptied queue leaves none of the context's work live, at once and later. *)
Lemma emptied_dropped w op after t c :
  world_ok w -> legal_run w (op :: after) = true ->
  queued_count (w_authority (world_step w op)) t c = 0 ->
  work_dropped w (world_run w (op :: after)) t c.
Proof.
  intros Hw [Hop Hl]%andb_true_iff Hz k Hk Ht Hc.
  destruct (authority_step_ok w op Hw Hop) as [Hw' (new & Ei & _)].
  assert (k ∈ w_issued (world_step w op)) as Hk' by (rewrite Ei; set_solver).
  destruct (world_run_ok after _ Hw' Hl) as (_ & _ & Hn). apply Hn; [done|].
  intros [Hp _]%(live_iff_pending _ _ _ _ (proj1 Hw') Hk'). by eapply queued_count_none.
Qed.

Lemma run_turned_over w op after :
  world_ok w -> legal_run w (op :: after) = true -> turned_over w op (world_run w (op :: after)).
Proof.
  intros Hw Hl. pose proof (fun t c => emptied_dropped w op after t c Hw Hl) as Hd.
  pose proof (proj1 (andb_prop _ _ Hl)) as [Hm _]%andb_prop. destruct Hw as [Ha _].
  destruct op; try done; cbn [turned_over]; unfold world_step in Hd; cbn [authority_step] in Hd.
  - intros a dropped Hx. rewrite Hx in Hd. destruct (cancel_Ok _ _ _ _ _ _ _ Hx) as [Hq Hz].
    split; [done|]. by apply Hd.
  - intros a n Hx. rewrite Hx in Hd. cbn [minted forallb] in Hm.
    apply andb_prop in Hm as [Hm%bool_decide_eq_true _].
    destruct (recover_Ok _ _ _ _ _ _ _ _ _ Ha Hm Hx) as (-> & Hg & Hz). split_and!; [done|done|].
    by apply Hd.
Qed.
End TurnedOver.

(** C17: Cancelled browser work never resumes.  Over any run of the authority from its creation: a
    ticket is live exactly while it waits in the queue of its open context, and one that is not
    live at some point is live at no later point, whatever is created, recovered or closed in
    between.  A cancellation that succeeds answers with all the work its context has waiting, in
    order, and a recovery that succeeds moves its context to exactly the next generation; either
    way none of the work issued for the context up to then is ever live again.  No call ever reports
    an orphaned queue, no queue holds work of a generation recovered from, and none holds more
    than 32 tickets. *)
Theorem dropped_tickets_never_resume `{Sha256} `{UrlParser} `{BrowserWire}
    (before : list authority_op) (op : authority_op) (after : list authority_op)
    (Hlegal : legal_run world_new (before ++ op :: after) = true) :
  let w0 := world_run world_new before in
  let w := world_run world_new (before ++ op :: after) in
  (forall t, t ∈ w_issued w0 ->
     (require_live (w_authority w0) t = Ok tt <->
        pending (w_authority w0) t
        /\ exists s, bk_contexts (au_book (w_authority w0)) !! gt_context_id t = Some s
                     /\ cs_closed s = false)
     /\ (require_live (w_authority w0) t <> Ok tt -> require_live (w_authority w) t <> Ok tt))
  /\ turned_over w0 op w
  /\ GeQueueOrphan ∉ w_errors w
  /\ (forall task ctx, has_orphans (w_authority w) task ctx = false
        /\ queued_count (w_authority w) task ctx <= MAX_BROWSER_GENERATION_QUEUE).
Proof.
  intros w0 w. rewrite legal_run_app in Hlegal. apply andb_true_iff in Hlegal as [H1' H2'].
  pose proof (reached_ok before H1') as Hw0. fold w0 in Hw0, H2'.
  assert (w = world_run w0 (op :: after)) as Hw by apply fold_left_app. rewrite Hw.
  destruct (world_run_ok (op :: after) _ Hw0 H2') as ((Ha & He) & _ & Hn). split_and!.
  - intros t Ht. split; [|by apply Hn]. by apply (live_iff_pending _ _ _ _ (proj1 Hw0)).
  - by apply run_turned_over.
  - exact He.
  - intros task ctx. unfold has_orphans, queued_count.
    destruct (au_queues _ !! (task, ctx)) as [q|] eqn:Hq; [|done]. cbn [option_map is_some_and].
    destruct (ao_queues _ _ _ Ha _ _ _ Hq) as [_ _ _ _ Hlen Hc _]. split; [|done].
    rewrite bool_decide_false; [by rewrite andb_false_r|]. intros ?%Hc. lia.
Qed.

(** Turning a generation over.  In any state a run reaches: a recovery that
    succeeds moves the context to exactly the next generation and leaves its
    queue empty, so that no ticket issued for the context before is live; a
    cancellation returns the waiting tickets in order and leaves none of them
    live; and completing a ticket, which must be the oldest, hands the
    context to the next oldest, the others keeping their order. *)
Theorem generation_turns_over `{Sha256} `{UrlParser} `{BrowserWire}
    (ops : list authority_op) (rid : BrowserRequestId) (t : TaskId) (c : BrowserContextId) (g : N)
    (Hlegal : legal_run world_new ops = true)
    (Hfresh : rid ∉ w_ids (world_run world_new ops)) :
  let w := world_run world_new ops in
  (forall a' n, recover_generation (w_authority w) rid t c g = (a', Ok n) ->
     n = g + 1 /\ live_generation a' t c = Ok n
     /\ forall k, k ∈ w_issued w -> gt_task_id k = t -> gt_context_id k = c ->
                  require_live a' k <> Ok tt)
  /\ (forall a' dropped, cancel_generation (w_authority w) rid t c g = (a', Ok dropped) ->
     (exists q, au_queues (w_authority w) !! (t, c) = Some q /\ dropped = gq_tickets q)
     /\ forall k, k ∈ dropped -> require_live a' k <> Ok tt)
  /\ (forall k a' next, k ∈ w_issued w -> complete_ticket (w_authority w) k = (a', Ok next) ->
     exists q q', au_queues (w_authority w) !! (gt_task_id k, gt_context_id k) = Some q
       /\ au_queues a' !! (gt_task_id k, gt_context_id k) = Some q'
       /\ gq_tickets q = k :: gq_tickets q' /\ next = head (gq_tickets q')).
Proof.
  intros w. destruct (reached_ok ops Hlegal) as [Ha _]. fold w in Ha, Hfresh.
  split; [|split].
  - intros a' n Hx. destruct (recover_Ok _ _ _ _ _ _ _ _ _ Ha Hfresh Hx) as (Hn & Hl & Hz).
    split_and!; try done. intros k Hk Ht Hc Hlive.
    pose proof (recover_guarantees _ _ _ rid t c g Ha Hfresh) as (Ha' & _). rewrite Hx in Ha'.
    apply (live_iff_pending _ _ _ _ Ha' Hk) in Hlive as [Hp _]. by eapply queued_count_none.
  - intros a' d Hx. destruct (cancel_Ok _ _ _ _ _ _ _ Hx) as ((q & Hq & ->) & Hz). split; [eauto|].
    intros k Hk Hlive.
    pose proof (qk_tickets _ _ _ _ _ _ (ao_queues _ _ _ Ha _ _ _ Hq)) as Hkt. rewrite Forall_forall in Hkt.
    destruct (Hkt k Hk) as (Ht & Hc & _ & Hi).
    assert (authority_ok (w_authority w) (w_issued w) (w_ids w ++ [rid])) as Ha1
      by (eapply authority_ok_ids; [done|set_solver]).
    pose proof (cancel_guarantees _ _ _ rid t c g Ha1 ltac:(set_solver)) as (Ha' & _). rewrite Hx in Ha'.
    apply (live_iff_pending _ _ _ _ Ha' Hi) in Hlive as [Hp _]. by eapply queued_count_none.
  - intros k a' next Hk Hx. destruct (complete_Ok _ _ _ _ _ _ Ha Hk Hx) as (q & Hq & Hts & -> & ->).
    pose proof (qk_head _ _ _ _ _ _ (ao_queues _ _ _ Ha _ _ _ Hq)) as Hh.
    exists q, (pop_ticket q). cbn. rewrite lookup_insert_eq, pop_ticket_tickets, Hts by done. by split_and!.
Qed.

(** ** Concrete runs *)

Definition sample_ticket (rid g : N) (k : BrowserWorkflowKind) : BrowserGenerationTicket :=
  {| gt_request_id := rid; gt_task_id := 1; gt_context_id := 2; gt_tab_id := None;
     gt_generation := g; gt_kind := k |}.

Definition sample_authority_ops : list authority_op :=
  [OpOpenTask 1; OpCreateContext 10 1 2; OpEnqueue 11 1 2 None 1 KindRecord;
   OpEnqueue 12 1 2 None 1 KindReplay; OpRecover 13 1 2 1].

Lemma dropped_tickets_never_resume_witness :
  let w := @world_run toy_sha toy_urls toy_wire world_new (take 4 sample_authority_ops) in
  require_live (w_authority w) (sample_ticket 12 1 KindReplay) = Ok tt
  /\ require_live (w_authority (@world_run toy_sha toy_urls toy_wire world_new
       (take 4 sample_authority_ops
        ++ OpCancel 13 1 2 1 :: [OpEnqueue 14 1 2 None 1 KindRecord; OpCloseTask 1])))
     (sample_ticket 12 1 KindReplay) <> Ok tt.
Proof.
  intros w. split; [by vm_compute|].
  pose proof (@dropped_tickets_never_resume toy_sha toy_urls toy_wire (take 4 sample_authority_ops)
    (OpCancel 13 1 2 1) [OpEnqueue 14 1 2 None 1 KindRecord; OpCloseTask 1] ltac:(by vm_compute))
    as (_ & Hc & _).
  cbn [turned_over] in Hc.
  destruct (@cancel_generation toy_sha toy_urls toy_wire
              (w_authority (world_run world_new (take 4 sample_authority_ops))) 13 1 2 1)
    as [a [dropped|e]] eqn:E; [|exfalso; vm_compute in E; discriminate].
  destruct (Hc _ _ eq_refl) as [_ Hd]. apply Hd; [|done|done].
  apply (bool_decide_unpack _). by vm_compute.
Defined.

Lemma generation_turns_over_witness :
  let w := @world_run toy_sha toy_urls toy_wire world_new (take 4 sample_authority_ops) in
  exists a' a'', @recover_generation toy_sha toy_urls toy_wire (w_authority w) 13 1 2 1 = (a', Ok 2)
    /\ live_generation a' 1 2 = Ok 2
    /\ complete_ticket (w_authority w) (sample_ticket 11 1 KindRecord)
       = (a'', Ok (Some (sample_ticket 12 1 KindReplay))).
Proof.
  intros w.
  pose proof (@generation_turns_over toy_sha toy_urls toy_wire (take 4 sample_authority_ops) 13 1 2 1
    ltac:(by vm_compute) ltac:(apply (bool_decide_unpack _); by vm_compute)) as (Hr & _).
  destruct (@recover_generation toy_sha toy_urls toy_wire (w_authority w) 13 1 2 1) as [a' [n|e]] eqn:E;
    [|exfalso; vm_compute in E; discriminate].
  destruct (Hr _ _ E) as (-> & Hl & _). exists a'.
  eexists. split; [done|]. split; [exact Hl|]. by vm_compute.
Defined.

(** A recovery that the book refuses, here because it holds 256 receipts, has
    already dropped the queue: the work waiting in the live generation is lost. *)
Example refused_recovery_loses_queue :
  let cancels := map (fun i => OpCancel (100 + N.of_nat i) 1 2 1) (seq 0 255) in
  let w := @world_run toy_sha toy_urls toy_wire world_new
             ([OpOpenTask 1; OpCreateContext 10 1 2] ++ cancels
              ++ [OpEnqueue 11 1 2 None 1 KindRecord]) in
  let '(a', r) := @recover_generation toy_sha toy_urls toy_wire (w_authority w) 13 1 2 1 in
  require_live (w_authority w) (sample_ticket 11 1 KindRecord) = Ok tt
  /\ r = Err GeBoundExceeded /\ live_generation a' 1 2 = Ok 1
  /\ require_live a' (sample_ticket 11 1 KindRecord) = Err GeCancelled.
Proof. vm_compute. by split_and!. Qed.
