(* ===== verification/Pages.v ===== *)
(** What the host ships to a client: operation facts, the items and pages of a
    snapshot, and replay pages ([operation.rs], [snapshot.rs]). *)
From S2P Require Import Prelude Canonical Task Agent Resource Artifact Browser Operation Snapshot Event.

Notation SnapshotId := N (only parsing).

Inductive OperationState :=
| OpAccepted
| OpSettled (settled_at_ms : Z) (result_event_ids : list EventId)
| OpFailed (settled_at_ms : Z) (code : OperationErrorCode)
| OpCancelled (settled_at_ms : Z) (reason : CancellationReason)
| OpUncertain (observed_at_ms : Z) (code : OperationUncertaintyCode).

#[export] Instance OperationState_eq_dec : EqDecision OperationState.
Proof. solve_decision. Defined.

Record OperationFacts := {
  opf_id : OperationId;
  opf_command_id : CommandId;
  opf_task_id : option TaskId;
  opf_state : OperationState;
  opf_accepted_at_ms : Z;
}.

#[export] Instance OperationFacts_eq_dec : EqDecision OperationFacts.
Proof. solve_decision. Defined.

(** [OperationFacts::accepted], with the id that [OperationId::new] draws. *)
Definition operation_facts_accepted (id : OperationId) (command_id : CommandId)
    (task_id : option TaskId) (accepted_at_ms : Z) : OperationFacts :=
  {| opf_id := id; opf_command_id := command_id; opf_task_id := task_id;
     opf_state := OpAccepted; opf_accepted_at_ms := accepted_at_ms |}.

Inductive SnapshotSection :=
| SecTasks | SecAgentSessions | SecArtifacts | SecResources | SecOperations
| SecBrowserContexts | SecBrowserTabs.

#[export] Instance SnapshotSection_eq_dec : EqDecision SnapshotSection.
Proof. solve_decision. Defined.

Inductive SnapshotItemKey :=
| SkTask (id : TaskId)
| SkAgentSession (id : AgentSessionId)
| SkArtifact (id : ArtifactId)
| SkResource (id : ResourceId)
| SkOperation (id : OperationId)
| SkBrowserContext (id : BrowserContextId)
| SkBrowserTab (id : BrowserTabId).

#[export] Instance SnapshotItemKey_eq_dec : EqDecision SnapshotItemKey.
Proof. solve_decision. Defined.

Record TaskSnapshotItem := {
  ti_task : TaskFacts;
  ti_connectivity : TaskConnectivity;
  ti_attention : TaskAttention;
  ti_activity : TaskActivity;
  ti_review_readiness : ReviewReadiness;
  ti_primary_agent_id : option AgentSessionId;
}.

Inductive SnapshotItem :=
| SiTask (t : TaskSnapshotItem)
| SiAgentSession (a : AgentSessionFacts)
| SiArtifact (a : ArtifactSummary)
| SiResource (r : ResourceFacts)
| SiOperation (o : OperationFacts)
| SiBrowserContext (c : BrowserContextView)
| SiBrowserTab (t : BrowserTabView).

Record SnapshotPage := {
  sp_snapshot_id : SnapshotId;
  sp_through_sequence : N;
  sp_section : SnapshotSection;
  sp_after_item : option SnapshotItemKey;
  sp_items : list SnapshotItem;
  sp_encoded_bytes : N;
  sp_next_cursor : option (list N);
}.

Record EventPage := {
  ep_after_sequence : N;
  ep_through_sequence : N;
  ep_events : list DomainEvent;
  ep_next_cursor : option (list N);
}.
