(* ===== verification/ProjectionIndex.v ===== *)
(** The client's projection index ([TaskProjectionIndex] of [client/model.rs]):
    one entry per task and the canonical order of each lifecycle.  The search
    postings kept beside the orders are not modelled. *)
From S2P Require Import Prelude Order Canonical Task Snapshot.

Definition MAX_CLIENT_SEARCH_CHARS : N := 160.
Definition MAX_INDEXED_TITLE_CHARS : N := MAX_CLIENT_SEARCH_CHARS * 4.

(** The Unicode tables of the [unicode_normalization] and [caseless] crates. *)
Class UnicodeText := {
  nfd : text -> text;
  nfkd : text -> text;
  default_case_fold : text -> text;
}.

Definition take_chars (n : N) (value : text) : text := take (N.to_nat n) value.

Definition normalize_bounded_search_text `{UnicodeText} (value : text) (max_chars : N)
    : text * bool :=
  if max_chars =? 0 then ([], negb (is_empty value))
  else
    let source_truncated := max_chars <? count value in
    let normalized :=
      nfkd (default_case_fold (nfkd (default_case_fold (nfd (take_chars max_chars value))))) in
    (take_chars max_chars normalized, source_truncated || (max_chars <? count normalized)).

Record TaskProjectionEntry := {
  pe_lifecycle : TaskLifecycle;
  pe_attention_rank : N;
  pe_occurred_at_ms : Z;
  pe_revision : N;
  pe_lower_title : text;
  pe_title : text;
}.

Definition attention_rank (s : VisibleTaskStatus) : N :=
  match s with
  | VisDisconnected => 0
  | VisFailed => 1
  | VisUncertainOutcome => 2
  | VisNeedsApproval => 3
  | VisNeedsAnswer => 4
  | VisWorking => 5
  | VisSettling => 6
  | VisReadyForReview => 7
  | VisIdle => 8
  end.

Definition entry_from_snapshot `{UnicodeText} (s : TaskSnapshot) (occurred_at_ms : Z)
    : TaskProjectionEntry :=
  {| pe_lifecycle := tf_lifecycle (sn_task s);
     pe_attention_rank := attention_rank (visible_status s);
     pe_occurred_at_ms := occurred_at_ms;
     pe_revision := tf_revision (sn_task s);
     pe_lower_title :=
       fst (normalize_bounded_search_text (tf_title (sn_task s)) MAX_INDEXED_TITLE_CHARS);
     pe_title := take_chars MAX_INDEXED_TITLE_CHARS (tf_title (sn_task s)) |}.

Record TaskOrderKey := {
  ok_task_id : TaskId;
  ok_attention_rank : N;
  ok_occurred_at_ms : Z;
  ok_revision : N;
  ok_lower_title : text;
  ok_title : text;
}.

Definition order_key_new (task_id : TaskId) (e : TaskProjectionEntry) : TaskOrderKey :=
  {| ok_task_id := task_id; ok_attention_rank := pe_attention_rank e;
     ok_occurred_at_ms := pe_occurred_at_ms e; ok_revision := pe_revision e;
     ok_lower_title := pe_lower_title e; ok_title := pe_title e |}.

(** [Ord] of [TaskOrderKey]: rank, newest first, highest revision first, title. *)
Definition key_cmp (a b : TaskOrderKey) : comparison :=
  then_with (N.compare (ok_attention_rank a) (ok_attention_rank b))
    (then_with (Z.compare (ok_occurred_at_ms b) (ok_occurred_at_ms a))
      (then_with (N.compare (ok_revision b) (ok_revision a))
        (then_with (str_cmp (ok_lower_title a) (ok_lower_title b))
          (then_with (str_cmp (ok_title a) (ok_title b))
            (N.compare (ok_task_id a) (ok_task_id b)))))).

Record TaskProjectionIndex := {
  ix_revision : N;
  ix_entries : gmap N TaskProjectionEntry;
  ix_active_order : list TaskOrderKey;
  ix_settled_order : list TaskOrderKey;
  ix_archived_order : list TaskOrderKey;
  ix_full_rebuilds : N;
  ix_incremental_updates : N;
}.

Definition ix_with (x : TaskProjectionIndex) (entries : gmap N TaskProjectionEntry)
    (active settled archived : list TaskOrderKey) : TaskProjectionIndex :=
  {| ix_revision := ix_revision x; ix_entries := entries; ix_active_order := active;
     ix_settled_order := settled; ix_archived_order := archived;
     ix_full_rebuilds := ix_full_rebuilds x; ix_incremental_updates := ix_incremental_updates x |}.

(** The order an entry is filed under. *)
Definition file_key (x : TaskProjectionIndex) (l : TaskLifecycle) (k : TaskOrderKey)
    : TaskProjectionIndex :=
  match l with
  | TaskOpen | TaskClosing =>
      ix_with x (ix_entries x) (set_insert key_cmp k (ix_active_order x)) (ix_settled_order x)
        (ix_archived_order x)
  | TaskSettledL =>
      ix_with x (ix_entries x) (ix_active_order x) (set_insert key_cmp k (ix_settled_order x))
        (ix_archived_order x)
  | TaskArchivedL =>
      ix_with x (ix_entries x) (ix_active_order x) (ix_settled_order x)
        (set_insert key_cmp k (ix_archived_order x))
  | TaskDeletedL => x
  end.

Definition from_tasks `{UnicodeText} (tasks : gmap N TaskSnapshot) (revision : N)
    : TaskProjectionIndex :=
  let entries :=
    (fun s => entry_from_snapshot s (tf_created_at_ms (sn_task s))) <$> tasks in
  let index :=
    {| ix_revision := revision; ix_entries := entries; ix_active_order := [];
       ix_settled_order := []; ix_archived_order := []; ix_full_rebuilds := 1;
       ix_incremental_updates := 0 |} in
  fold_left (fun x ke => file_key x (pe_lifecycle (snd ke)) (order_key_new (fst ke) (snd ke)))
    (sorted_entries entries) index.

Definition remove_task_id (x : TaskProjectionIndex) (task_id : TaskId) : TaskProjectionIndex :=
  match ix_entries x !! task_id with
  | None => x
  | Some entry =>
      let k := order_key_new task_id entry in
      ix_with x (delete task_id (ix_entries x)) (set_remove key_cmp k (ix_active_order x))
        (set_remove key_cmp k (ix_settled_order x)) (set_remove key_cmp k (ix_archived_order x))
  end.

Definition update_task `{UnicodeText} (x : TaskProjectionIndex) (s : TaskSnapshot)
    (occurred_at_ms : Z) : TaskProjectionIndex :=
  let task_id := tf_id (sn_task s) in
  let x := remove_task_id x task_id in
  let entry := entry_from_snapshot s occurred_at_ms in
  let x := ix_with x (<[task_id := entry]> (ix_entries x)) (ix_active_order x)
             (ix_settled_order x) (ix_archived_order x) in
  let x := file_key x (pe_lifecycle entry) (order_key_new task_id entry) in
  {| ix_revision := ix_revision x; ix_entries := ix_entries x;
     ix_active_order := ix_active_order x; ix_settled_order := ix_settled_order x;
     ix_archived_order := ix_archived_order x; ix_full_rebuilds := ix_full_rebuilds x;
     ix_incremental_updates := saturating_add (ix_incremental_updates x) 1 |}.

Definition index_set_revision (x : TaskProjectionIndex) (revision : N) : TaskProjectionIndex :=
  {| ix_revision := revision; ix_entries := ix_entries x; ix_active_order := ix_active_order x;
     ix_settled_order := ix_settled_order x; ix_archived_order := ix_archived_order x;
     ix_full_rebuilds := ix_full_rebuilds x; ix_incremental_updates := ix_incremental_updates x |}.

Definition active_task_ids (x : TaskProjectionIndex) : list TaskId :=
  map ok_task_id (ix_active_order x).
Definition archived_task_ids (x : TaskProjectionIndex) : list TaskId :=
  map ok_task_id (ix_archived_order x).
Definition active_count (x : TaskProjectionIndex) : N := count (ix_active_order x).
Definition archived_count (x : TaskProjectionIndex) : N := count (ix_archived_order x).
Definition settled_count (x : TaskProjectionIndex) : N := count (ix_settled_order x).
Definition top_active_task_ids (x : TaskProjectionIndex) (limit : N) : list TaskId :=
  map ok_task_id (take (N.to_nat limit) (ix_active_order x)).
Definition top_settled_task_ids (x : TaskProjectionIndex) (limit : N) : list TaskId :=
  map ok_task_id (take (N.to_nat limit) (ix_settled_order x)).
Definition top_archived_task_ids (x : TaskProjectionIndex) (limit : N) : list TaskId :=
  map ok_task_id (take (N.to_nat limit) (ix_archived_order x)).

(** ** Lemmas *)

Definition key_tuple (k : TaskOrderKey) : N * (Z * (N * (text * (text * N)))) :=
  (ok_attention_rank k, (ok_occurred_at_ms k, (ok_revision k, (ok_lower_title k,
    (ok_title k, ok_task_id k))))).

#[export] Instance key_tuple_inj : Inj eq eq key_tuple.
Proof. intros [] [] E. unfold key_tuple in E. simpl in E. congruence. Qed.

#[export] Instance key_cmp_lawful : LawfulCmp key_cmp.
Proof.
  exact (lawful_pullback key_tuple
    (lex_cmp N.compare (lex_cmp (rev_cmp Z.compare) (lex_cmp (rev_cmp N.compare)
      (lex_cmp str_cmp (lex_cmp str_cmp N.compare)))))).
Qed.

(** The three orders an index keeps, and the one a lifecycle is filed under. *)
Inductive shelf := ShelfActive | ShelfSettled | ShelfArchived.

#[export] Instance shelf_eq_dec : EqDecision shelf.
Proof. solve_decision. Defined.

Definition shelf_of (l : TaskLifecycle) : option shelf :=
  match l with
  | TaskOpen | TaskClosing => Some ShelfActive
  | TaskSettledL => Some ShelfSettled
  | TaskArchivedL => Some ShelfArchived
  | TaskDeletedL => None
  end.

Definition shelf_order (x : TaskProjectionIndex) (sh : shelf) : list TaskOrderKey :=
  match sh with
  | ShelfActive => ix_active_order x
  | ShelfSettled => ix_settled_order x
  | ShelfArchived => ix_archived_order x
  end.

(** The key of an entry filed on the shelf, among [entries]. *)
Definition filed (entries : gmap N TaskProjectionEntry) (sh : shelf) (k : TaskOrderKey) : Prop :=
  exists e, entries !! ok_task_id k = Some e /\ k = order_key_new (ok_task_id k) e
            /\ shelf_of (pe_lifecycle e) = Some sh.

(** Every shelf is strictly ordered and holds exactly the entries filed on it. *)
Definition shelves_ok (entries : gmap N TaskProjectionEntry) (x : TaskProjectionIndex) : Prop :=
  forall sh, increasing key_cmp (shelf_order x sh)
             /\ forall k, k ∈ shelf_order x sh <-> filed entries sh k.

Definition index_ok (x : TaskProjectionIndex) : Prop := shelves_ok (ix_entries x) x.

Lemma file_key_entries x l k : ix_entries (file_key x l k) = ix_entries x.
Proof. by destruct l. Qed.

Lemma file_key_order x l k sh :
  shelf_order (file_key x l k) sh
  = if decide (shelf_of l = Some sh) then set_insert key_cmp k (shelf_order x sh)
    else shelf_order x sh.
Proof. by destruct l, sh. Qed.

Lemma filed_insert entries t e sh k :
  entries !! t = None ->
  filed (<[t := e]> entries) sh k
  <-> filed entries sh k \/ (k = order_key_new t e /\ shelf_of (pe_lifecycle e) = Some sh).
Proof.
  intros Hn. unfold filed. destruct (decide (ok_task_id k = t)) as [<-|Hne].
  - rewrite lookup_insert_eq, Hn. split.
    + intros (e' & [= <-] & Hk & Hs). by right.
    + intros [(e' & ? & _)|[Hk Hs]]; [done|]. by exists e.
  - rewrite lookup_insert_ne by done. split; [by left|]. intros [?|[Hk _]]; [done|].
    exfalso. apply Hne. by rewrite Hk.
Qed.

(** Filing the key of a new entry. *)
Lemma file_key_ok entries x t e :
  shelves_ok entries x -> entries !! t = None ->
  shelves_ok (<[t := e]> entries) (file_key x (pe_lifecycle e) (order_key_new t e)).
Proof.
  intros Hx Hn sh. destruct (Hx sh) as [Hi Hm]. rewrite file_key_order.
  destruct (decide (shelf_of (pe_lifecycle e) = Some sh)) as [Hs|Hs].
  - split; [apply set_insert_increasing; [apply _|exact Hi]|]. intros k. rewrite (elem_of_set_insert key_cmp), Hm, filed_insert by done.
    tauto.
  - split; [done|]. intros k. rewrite Hm, filed_insert by done. tauto.
Qed.

Lemma remove_task_id_ok x t :
  index_ok x -> index_ok (remove_task_id x t) /\ ix_entries (remove_task_id x t) = delete t (ix_entries x).
Proof.
  intros Hx. unfold remove_task_id. destruct (ix_entries x !! t) as [e|] eqn:He.
  2: { by rewrite delete_id. }
  split; [|done]. intros sh. destruct (Hx sh) as [Hi Hm].
  assert (shelf_order (ix_with x (delete t (ix_entries x))
            (set_remove key_cmp (order_key_new t e) (ix_active_order x))
            (set_remove key_cmp (order_key_new t e) (ix_settled_order x))
            (set_remove key_cmp (order_key_new t e) (ix_archived_order x))) sh
          = set_remove key_cmp (order_key_new t e) (shelf_order x sh)) as -> by by destruct sh.
  split; [apply set_remove_increasing; [apply _|exact Hi]|]. intros k.
  rewrite (elem_of_set_remove key_cmp) by exact Hi. rewrite Hm. cbn [ix_entries ix_with]. unfold filed.
  destruct (decide (ok_task_id k = t)) as [<-|Hne].
  - rewrite lookup_delete_eq. split; [|by intros (? & ? & _)].
    intros [(e' & He' & Hk & _) Hne]. exfalso. apply Hne. rewrite He in He'. by simplify_eq.
  - rewrite lookup_delete_ne by done. split; [by intros [? _]|]. intros Hf. split; [done|].
    intros ->. by apply Hne.
Qed.

Section Index.
Context `{UnicodeText}.

Lemma update_task_ok x s at_ms :
  index_ok x ->
  index_ok (update_task x s at_ms)
  /\ ix_entries (update_task x s at_ms)
     = <[tf_id (sn_task s) := entry_from_snapshot s at_ms]> (ix_entries x).
Proof.
  intros Hx. destruct (remove_task_id_ok x (tf_id (sn_task s)) Hx) as [Hr He].
  unfold update_task. cbn zeta. cbn [ix_entries]. rewrite file_key_entries. cbn [ix_entries ix_with].
  rewrite He, insert_delete_eq. split; [|done].
  pose proof (file_key_ok _ _ (tf_id (sn_task s)) (entry_from_snapshot s at_ms) Hr) as Hf.
  rewrite He in Hf. rewrite insert_delete_eq in Hf.
  specialize (Hf (lookup_delete_eq _ _)). unfold index_ok. cbn [ix_entries].
  intros sh. specialize (Hf sh). rewrite file_key_order in Hf.
  assert (forall y z : TaskProjectionIndex, ix_active_order y = ix_active_order z ->
            ix_settled_order y = ix_settled_order z -> ix_archived_order y = ix_archived_order z ->
            shelf_order y sh = shelf_order z sh) as Hcong by (by intros y z ? ? ?; destruct sh).
  destruct (pe_lifecycle (entry_from_snapshot s at_ms)), sh; exact Hf.
Qed.

Lemma from_tasks_ok tasks revision :
  index_ok (from_tasks tasks revision)
  /\ ix_entries (from_tasks tasks revision)
     = (fun s => entry_from_snapshot s (tf_created_at_ms (sn_task s))) <$> tasks.
Proof.
  unfold from_tasks. set (entries := _ <$> tasks). set (x0 := Build_TaskProjectionIndex _ _ _ _ _ _ _).
  assert (forall l, NoDup l.*1 ->
    let x := fold_left (fun x ke => file_key x (pe_lifecycle (snd ke)) (order_key_new (fst ke) (snd ke)))
               l x0 in
    ix_entries x = entries /\ shelves_ok (list_to_map l) x) as Hfold.
  { induction l as [|[t e] l IH] using rev_ind; intros Hnd; cbn zeta.
    - split; [done|]. intros sh. split; [by destruct sh; constructor|]. intros k.
      unfold filed. cbn. rewrite lookup_empty. split; [|by intros (? & ? & _)].
      by destruct sh; intros ?%elem_of_nil.
    - rewrite fmap_app in Hnd. apply NoDup_app in Hnd as (Hnd & Hdis & _).
      destruct (IH Hnd) as [Hent Hok]. rewrite fold_left_app. cbn [fold_left fst snd].
      rewrite file_key_entries. split; [done|].
      assert (t ∉ l.*1) as Hfresh by (intros Hin; apply (Hdis t Hin); left).
      replace (list_to_map (l ++ [(t, e)])) with (<[t := e]> (list_to_map l : gmap N TaskProjectionEntry)).
      + apply file_key_ok; [done|]. by apply not_elem_of_list_to_map_1.
      + rewrite list_to_map_snoc by done. done. }
  destruct (Hfold (sorted_entries entries) (sorted_entries_nodup entries)) as [Hent Hok].
  split; [|done]. unfold index_ok. rewrite Hent.
  replace entries with (list_to_map (sorted_entries entries) : gmap N TaskProjectionEntry) at 1; [done|].
  apply map_eq. intros t. apply option_eq. intros e.
  rewrite <- elem_of_list_to_map by apply sorted_entries_nodup. apply elem_of_sorted_entries.
Qed.
End Index.

(** A text without combining marks or case: every transformation is the identity. *)
Definition toy_unicode : UnicodeText :=
  {| nfd := fun t => t; nfkd := fun t => t; default_case_fold := fun t => t |}.
