(* ===== verification/Client.v ===== *)
(** The client's read model ([ClientModel] of [client/model.rs]): durable events
    staged through the domain's [apply], operation outcomes, replay pages and the
    detail of a task admitted on demand. *)
From S2P Require Import Prelude Order Canonical Task Agent Resource Artifact Browser Operation Snapshot Event Pages ProjectionIndex.

Definition MAX_CLIENT_REPLAY_PAGES : N := 1024.
Definition MAX_CLIENT_REPLAY_CURSORS : N := 1024.

Inductive ClientModelError :=
| MissingSections
| DuplicateSection
| SectionItemMismatch
| DuplicateItem
| SnapshotDrift
| SequenceDrift
| NonProgressingPage
| PageBoundExceeded
| ItemBoundExceeded
| CursorBoundExceeded
| RepeatedCursor
| MissingParentTask
| InvalidOwnership
| InvalidPrimaryAgent
| DuplicateOrRegression
| ApplyFailed
| OperationIdentityMismatch
| OperationStateRegression
| MissingOperation
| ReplayRangeInvalid
| ReplayAfterMismatch
| ReplayThroughDrift
| ReplayRepeatedCursor
| ReplayPageBoundExceeded
| ReplayNonProgressing
| SnapshotBoundaryMismatch
| OperationEnvelopeTimestampMismatch.

#[export] Instance ClientModelError_eq_dec : EqDecision ClientModelError.
Proof. solve_decision. Defined.

Record ClientModel := {
  cm_tasks : gmap N TaskSnapshot;
  cm_host_resources : gmap N ResourceFacts;
  cm_operations : gmap N OperationFacts;
  cm_artifact_summaries : gmap N ArtifactSummary;
  cm_last_applied_sequence : N;
  cm_replay_through : option N;
  cm_replay_page_count : N;
  cm_replay_cursors : gset (list N);
  cm_task_projection_index : TaskProjectionIndex;
  cm_admitted_task_detail : gset N;
}.

(** ** Field updates *)

Definition cm_set_tasks (m : ClientModel) (tasks : gmap N TaskSnapshot)
    (index : TaskProjectionIndex) (admitted : gset N) : ClientModel :=
  {| cm_tasks := tasks; cm_host_resources := cm_host_resources m;
     cm_operations := cm_operations m; cm_artifact_summaries := cm_artifact_summaries m;
     cm_last_applied_sequence := cm_last_applied_sequence m;
     cm_replay_through := cm_replay_through m; cm_replay_page_count := cm_replay_page_count m;
     cm_replay_cursors := cm_replay_cursors m; cm_task_projection_index := index;
     cm_admitted_task_detail := admitted |}.

Definition cm_set_facts (m : ClientModel) (operations : gmap N OperationFacts)
    (summaries : gmap N ArtifactSummary) : ClientModel :=
  {| cm_tasks := cm_tasks m; cm_host_resources := cm_host_resources m;
     cm_operations := operations; cm_artifact_summaries := summaries;
     cm_last_applied_sequence := cm_last_applied_sequence m;
     cm_replay_through := cm_replay_through m; cm_replay_page_count := cm_replay_page_count m;
     cm_replay_cursors := cm_replay_cursors m;
     cm_task_projection_index := cm_task_projection_index m;
     cm_admitted_task_detail := cm_admitted_task_detail m |}.

Definition cm_set_sequence (m : ClientModel) (sequence : N) : ClientModel :=
  {| cm_tasks := cm_tasks m; cm_host_resources := cm_host_resources m;
     cm_operations := cm_operations m; cm_artifact_summaries := cm_artifact_summaries m;
     cm_last_applied_sequence := sequence; cm_replay_through := cm_replay_through m;
     cm_replay_page_count := cm_replay_page_count m; cm_replay_cursors := cm_replay_cursors m;
     cm_task_projection_index := index_set_revision (cm_task_projection_index m) sequence;
     cm_admitted_task_detail := cm_admitted_task_detail m |}.

Definition cm_set_replay (m : ClientModel) (through : option N) (page_count : N)
    (cursors : gset (list N)) : ClientModel :=
  {| cm_tasks := cm_tasks m; cm_host_resources := cm_host_resources m;
     cm_operations := cm_operations m; cm_artifact_summaries := cm_artifact_summaries m;
     cm_last_applied_sequence := cm_last_applied_sequence m; cm_replay_through := through;
     cm_replay_page_count := page_count; cm_replay_cursors := cursors;
     cm_task_projection_index := cm_task_projection_index m;
     cm_admitted_task_detail := cm_admitted_task_detail m |}.

Definition task_last_occurred_at_ms (m : ClientModel) (task_id : TaskId) : option Z :=
  option_map pe_occurred_at_ms (ix_entries (cm_task_projection_index m) !! task_id).

(** ** Checks shared with the assembly *)

Definition task_detail_ships_at_startup (l : TaskLifecycle) : bool :=
  match l with TaskOpen | TaskClosing => true | _ => false end.

Definition validate_primary_agent (s : TaskSnapshot) : result unit ClientModelError :=
  match sn_primary_agent_id s with
  | None => Ok tt
  | Some primary =>
      match sn_agents s !! primary with
      | Some agent => guard (match ag_role agent with RolePrimary => true | _ => false end)
                        InvalidPrimaryAgent
      | None => guard (negb (task_detail_ships_at_startup (tf_lifecycle (sn_task s))))
                  InvalidPrimaryAgent
      end
  end.

Definition task_detail_admitted (m : ClientModel) (task_id : TaskId) : bool :=
  is_some_and (cm_tasks m !! task_id) (fun s =>
    task_detail_ships_at_startup (tf_lifecycle (sn_task s))
    || bool_decide (task_id ∈ cm_admitted_task_detail m)).

Definition invalidate_task_detail (m : ClientModel) (task_id : TaskId) : ClientModel :=
  cm_set_tasks m (cm_tasks m) (cm_task_projection_index m) (cm_admitted_task_detail m ∖ {[task_id]}).

(** ** Events *)

Record StagedEventCommit := {
  st_task : option (TaskId * TaskSnapshot);
  st_operation : option (OperationId * OperationFacts);
  st_artifact_summary : option ArtifactSummary;
}.

Definition staged_task (t : TaskId) (s : TaskSnapshot) : StagedEventCommit :=
  {| st_task := Some (t, s); st_operation := None; st_artifact_summary := None |}.

Definition staged_nothing : StagedEventCommit :=
  {| st_task := None; st_operation := None; st_artifact_summary := None |}.

Definition require_operation_envelope_timestamp (event : DomainEvent)
    : result unit ClientModelError :=
  let expected :=
    match de_payload event with
    | EvOperationAccepted f => Some (oa_accepted_at_ms f)
    | EvOperationSettled f => Some (os_settled_at_ms f)
    | EvOperationFailed f => Some (of_settled_at_ms f)
    | EvOperationCancelled f => Some (oc_settled_at_ms f)
    | EvOperationUncertain f => Some (ou_observed_at_ms f)
    | _ => None
    end in
  guard (is_none_or expected (fun at_ms => de_occurred_at_ms event =?= at_ms))
    OperationEnvelopeTimestampMismatch.

(** Whether an outcome with this provenance may follow the recorded state. *)
Definition outcome_follows (state : OperationState) (source : option OutcomeSource)
    (next : OperationState) (outcome_at_ms : Z) : bool :=
  match state, source, next with
  | OpAccepted, None, (OpCancelled _ _ | OpUncertain _ _) => true
  | OpAccepted, Some SourceDispatch, (OpSettled _ _ | OpFailed _ _) => true
  | OpUncertain observed_at_ms _, Some (SourceVerifiedReconciliation _ _),
      (OpSettled _ _ | OpFailed _ _) => (observed_at_ms <=? outcome_at_ms)%Z
  | _, _, _ => false
  end.

Definition stage_operation_outcome (m : ClientModel) (operation_id : OperationId)
    (command_id : CommandId) (task_id : option TaskId) (outcome_at_ms : Z)
    (source : option OutcomeSource) (next_state : OperationState)
    : result (OperationId * OperationFacts) ClientModelError :=
  let? operation := ok_or (cm_operations m !! operation_id) MissingOperation in
  ensure (opf_command_id operation =? command_id) && (opf_task_id operation =?= task_id)
    else OperationIdentityMismatch ;;
  ensure (opf_accepted_at_ms operation <=? outcome_at_ms)%Z else OperationStateRegression ;;
  ensure outcome_follows (opf_state operation) source next_state outcome_at_ms
    else OperationStateRegression ;;
  Ok (operation_id,
      {| opf_id := opf_id operation; opf_command_id := opf_command_id operation;
         opf_task_id := opf_task_id operation; opf_state := next_state;
         opf_accepted_at_ms := opf_accepted_at_ms operation |}).

Section Events.
Context `{Sha256} `{UrlParser} `{SpecialistJson} `{UnicodeText}.

(** [apply(self.tasks.get(&task_id).cloned(), event)] *)
Definition apply_to_task (m : ClientModel) (task_id : TaskId) (event : DomainEvent)
    : result TaskSnapshot ClientModelError :=
  map_err (fun _ => ApplyFailed) (apply (cm_tasks m !! task_id) event).

Definition stage_task_passthrough (m : ClientModel) (event : DomainEvent)
    : result (option (TaskId * TaskSnapshot)) ClientModelError :=
  match de_task_id event with
  | None => Ok None
  | Some task_id => let? next := apply_to_task m task_id event in Ok (Some (task_id, next))
  end.

Definition stage_outcome (m : ClientModel) (event : DomainEvent) (operation_id : OperationId)
    (command_id : CommandId) (outcome_at_ms : Z) (source : option OutcomeSource)
    (next_state : OperationState) : result StagedEventCommit ClientModelError :=
  let? task := stage_task_passthrough m event in
  let? operation := stage_operation_outcome m operation_id command_id (de_task_id event)
                      outcome_at_ms source next_state in
  Ok {| st_task := task; st_operation := Some operation; st_artifact_summary := None |}.

Definition stage_accepted (m : ClientModel) (event : DomainEvent) (fact : OperationAcceptedFact)
    : result StagedEventCommit ClientModelError :=
  let? task := stage_task_passthrough m event in
  ensure is_none (cm_operations m !! oa_operation_id fact) else OperationStateRegression ;;
  Ok {| st_task := task;
        st_operation := Some (oa_operation_id fact,
          {| opf_id := oa_operation_id fact; opf_command_id := oa_command_id fact;
             opf_task_id := de_task_id event; opf_state := OpAccepted;
             opf_accepted_at_ms := oa_accepted_at_ms fact |});
        st_artifact_summary := None |}.

Definition stage_created (m : ClientModel) (event : DomainEvent) (task : TaskFacts)
    : result StagedEventCommit ClientModelError :=
  ensure is_none (cm_tasks m !! tf_id task) else ApplyFailed ;;
  let? next := map_err (fun _ => ApplyFailed) (apply None event) in
  Ok (staged_task (tf_id task) next).

(** The inline body is dropped after the domain has checked the artifact. *)
Definition stage_artifact (m : ClientModel) (event : DomainEvent) (artifact : ArtifactFacts)
    : result StagedEventCommit ClientModelError :=
  ensure is_none (cm_artifact_summaries m !! af_id artifact) else DuplicateItem ;;
  let? task_id := ok_or (de_task_id event) ApplyFailed in
  let? next := apply_to_task m task_id event in
  let? summary := map_err (fun _ => ApplyFailed) (artifact_summary artifact) in
  Ok {| st_task := Some (task_id, set_artifacts next (delete (af_id artifact) (sn_artifacts next)));
        st_operation := None; st_artifact_summary := Some summary |}.

Definition stage_event (m : ClientModel) (event : DomainEvent)
    : result StagedEventCommit ClientModelError :=
  try? require_operation_envelope_timestamp event ;;
  match de_payload event with
  | EvOperationAccepted fact => stage_accepted m event fact
  | EvOperationSettled f =>
      stage_outcome m event (os_operation_id f) (os_command_id f) (os_settled_at_ms f)
        (Some (os_source f)) (OpSettled (os_settled_at_ms f) (os_result_event_ids f))
  | EvOperationFailed f =>
      stage_outcome m event (of_operation_id f) (of_command_id f) (of_settled_at_ms f)
        (Some (of_source f)) (OpFailed (of_settled_at_ms f) (of_code f))
  | EvOperationCancelled f =>
      stage_outcome m event (oc_operation_id f) (oc_command_id f) (oc_settled_at_ms f)
        None (OpCancelled (oc_settled_at_ms f) (oc_reason f))
  | EvOperationUncertain f =>
      stage_outcome m event (ou_operation_id f) (ou_command_id f) (ou_observed_at_ms f)
        None (OpUncertain (ou_observed_at_ms f) (ou_code f))
  | EvTaskCreated task _ _ _ _ => stage_created m event task
  | EvArtifactRegistered artifact | EvSpecialistHandoffRecorded _ artifact _ _ _ =>
      stage_artifact m event artifact
  | EvHostCloseBegun _ _ _ | EvHostCleanupBranchCompleted _ _ _ _ | EvPurged =>
      Ok staged_nothing
  | _ =>
      let? task_id := ok_or (de_task_id event) ApplyFailed in
      let? next := apply_to_task m task_id event in
      Ok (staged_task task_id next)
  end.

Definition commit_task (m : ClientModel) (event : DomainEvent) (staged : StagedEventCommit)
    : ClientModel :=
  match st_task staged with
  | None => m
  | Some (task_id, s) =>
      cm_set_tasks m (<[task_id := s]> (cm_tasks m))
        (update_task (cm_task_projection_index m) s (de_occurred_at_ms event))
        (cm_admitted_task_detail m ∖ {[task_id]})
  end.

Definition commit_facts (m : ClientModel) (staged : StagedEventCommit) : ClientModel :=
  cm_set_facts m
    (match st_operation staged with
     | Some (id, facts) => <[id := facts]> (cm_operations m)
     | None => cm_operations m
     end)
    (match st_artifact_summary staged with
     | Some summary => <[as_id summary := summary]> (cm_artifact_summaries m)
     | None => cm_artifact_summaries m
     end).

(** Nothing is written before the event is staged, so an error leaves the model
    as it was. *)
Definition apply_one_event (m : ClientModel) (event : DomainEvent)
    : result ClientModel ClientModelError :=
  ensure cm_last_applied_sequence m <? de_sequence event else DuplicateOrRegression ;;
  let? staged := stage_event m event in
  Ok (cm_set_sequence (commit_facts (commit_task m event staged) staged) (de_sequence event)).

Definition apply_event (m : ClientModel) (event : DomainEvent)
    : result ClientModel ClientModelError := apply_one_event m event.

(** ** Replay pages *)

Definition check_replay_continuation_bounds (page_count max_pages : N)
    (seen_cursors : gset (list N)) (next_cursor : list N) : result unit ClientModelError :=
  ensure page_count <? max_pages else ReplayPageBoundExceeded ;;
  ensure N.of_nat (size seen_cursors) <? MAX_CLIENT_REPLAY_CURSORS else CursorBoundExceeded ;;
  guard (bool_decide (next_cursor ∉ seen_cursors)) ReplayRepeatedCursor.

Fixpoint apply_page_events (m : ClientModel) (after through : N) (events : list DomainEvent)
    : result ClientModel ClientModelError :=
  match events with
  | [] => Ok m
  | event :: rest =>
      ensure negb ((de_sequence event <=? after) || (through <? de_sequence event))
        else ReplayRangeInvalid ;;
      let? m := apply_one_event m event in
      apply_page_events m after through rest
  end.

Definition apply_replay_page_inner (m : ClientModel) (page : EventPage)
    : result ClientModel ClientModelError :=
  ensure ep_after_sequence page <=? ep_through_sequence page else ReplayRangeInvalid ;;
  ensure ep_after_sequence page =? cm_last_applied_sequence m else ReplayAfterMismatch ;;
  ensure is_none_or (cm_replay_through m) (fun pinned => pinned =? ep_through_sequence page)
    else ReplayThroughDrift ;;
  let m := cm_set_replay m (Some (ep_through_sequence page)) (cm_replay_page_count m)
             (cm_replay_cursors m) in
  ensure negb (is_empty (ep_events page) && is_some (ep_next_cursor page))
    else ReplayNonProgressing ;;
  let? m :=
    match ep_next_cursor page with
    | None => Ok m
    | Some cursor =>
        try? check_replay_continuation_bounds (cm_replay_page_count m) MAX_CLIENT_REPLAY_PAGES
               (cm_replay_cursors m) cursor ;;
        Ok (cm_set_replay m (cm_replay_through m) (cm_replay_page_count m)
              ({[cursor]} ∪ cm_replay_cursors m))
    end in
  let? page_count := ok_or (checked_add (cm_replay_page_count m) 1) ReplayPageBoundExceeded in
  let m := cm_set_replay m (cm_replay_through m) page_count (cm_replay_cursors m) in
  ensure page_count <=? MAX_CLIENT_REPLAY_PAGES else ReplayPageBoundExceeded ;;
  let? m := apply_page_events m (ep_after_sequence page) (ep_through_sequence page)
              (ep_events page) in
  match ep_next_cursor page with
  | Some _ => Ok m
  | None =>
      ensure cm_last_applied_sequence m <=? ep_through_sequence page else ReplayRangeInvalid ;;
      Ok (cm_set_replay (cm_set_sequence m (ep_through_sequence page)) None 0 ∅)
  end.

(** [apply_replay_page] works on a clone and keeps it only on success. *)
Definition apply_replay_page (m : ClientModel) (page : EventPage)
    : ClientModel * result unit ClientModelError :=
  match apply_replay_page_inner m page with
  | Ok candidate => (candidate, Ok tt)
  | Err e => (m, Err e)
  end.

End Events.

(** ** Detail of one task *)

Definition is_browser_section (s : SnapshotSection) : bool :=
  match s with SecBrowserContexts | SecBrowserTabs => true | _ => false end.

(** Whether one page of the section says it is the last. *)
Definition section_finished (pages : list SnapshotPage) (s : SnapshotSection) : bool :=
  existsb (fun p => (sp_section p =?= s) && is_none (sp_next_cursor p)) pages.

(** A map that refuses a key it has: [insert(..).is_some()]. *)
Definition insert_new {V} (m : gmap N V) (k : N) (v : V) : result (gmap N V) ClientModelError :=
  ensure is_none (m !! k) else DuplicateItem ;;
  Ok (<[k := v]> m).

(** One item of a task-scoped snapshot: the task and the artifact index. *)
Definition admit_detail_item (task_id : TaskId) (section : SnapshotSection)
    (s : TaskSnapshot) (summaries : gmap N ArtifactSummary) (item : SnapshotItem)
    : result (TaskSnapshot * gmap N ArtifactSummary) ClientModelError :=
  match section, item with
  | SecAgentSessions, SiAgentSession agent =>
      ensure ag_task_id agent =? task_id else InvalidOwnership ;;
      let? agents := insert_new (sn_agents s) (ag_id agent) agent in
      Ok (set_agents s agents, summaries)
  | SecResources, SiResource resource =>
      try? map_err (fun _ => InvalidOwnership) (resource_validate resource) ;;
      ensure rf_task_id resource =?= Some task_id else InvalidOwnership ;;
      let? resources := insert_new (sn_resources s) (rf_id resource) resource in
      Ok (set_resources s resources, summaries)
  | SecArtifacts, SiArtifact summary =>
      ensure as_task_id summary =? task_id else InvalidOwnership ;;
      let? summaries := insert_new summaries (as_id summary) summary in
      Ok (s, summaries)
  | SecBrowserContexts, SiBrowserContext context =>
      ensure cv_task_id context =? task_id else InvalidOwnership ;;
      let? b := map_err (fun _ => InvalidOwnership) (project_context_view (sn_browser s) context) in
      Ok (set_browser s b, summaries)
  | SecBrowserTabs, SiBrowserTab tab =>
      ensure tv_task_id tab =? task_id else InvalidOwnership ;;
      let? b := map_err (fun _ => InvalidOwnership) (project_tab_view (sn_browser s) tab) in
      Ok (set_browser s b, summaries)
  | _, _ => Err SectionItemMismatch
  end.

Fixpoint admit_detail_items (task_id : TaskId) (s : TaskSnapshot)
    (summaries : gmap N ArtifactSummary) (items : list (SnapshotSection * SnapshotItem))
    : result (TaskSnapshot * gmap N ArtifactSummary) ClientModelError :=
  match items with
  | [] => Ok (s, summaries)
  | (section, item) :: rest =>
      let? p := admit_detail_item task_id section s summaries item in
      admit_detail_items task_id (fst p) (snd p) rest
  end.

(** The items of the pages in order, each with the section of its page. *)
Definition page_items (pages : list SnapshotPage) : list (SnapshotSection * SnapshotItem) :=
  p ← pages; map (pair (sp_section p)) (sp_items p).

(** The task with the rows that are about to be replaced cleared. *)
Definition clear_detail (s : TaskSnapshot) (task_id : TaskId) (browser_pages : bool)
    : result TaskSnapshot ClientModelError :=
  let s := set_resources (set_agents s ∅) ∅ in
  if browser_pages then
    let? b := map_err (fun _ => InvalidOwnership) (open_task book_new task_id) in
    Ok (set_browser s b)
  else Ok s.

Definition admit_task_detail_pages_inner `{UnicodeText} (m : ClientModel) (task_id : TaskId)
    (pages : list SnapshotPage) : result ClientModel ClientModelError :=
  let? task := ok_or (cm_tasks m !! task_id) MissingParentTask in
  let browser_pages := existsb (fun p => is_browser_section (sp_section p)) pages in
  ensure negb (browser_pages
               && negb (section_finished pages SecBrowserContexts
                        && section_finished pages SecBrowserTabs)) else MissingSections ;;
  let? task := clear_detail task task_id browser_pages in
  let summaries :=
    filter (fun ks => as_task_id (snd ks) <> task_id) (cm_artifact_summaries m) in
  let? p := admit_detail_items task_id task summaries (page_items pages) in
  let task := fst p in
  try? validate_primary_agent task ;;
  let occurred_at_ms := default 0%Z (task_last_occurred_at_ms m task_id) in
  Ok (cm_set_tasks (cm_set_facts m (cm_operations m) (snd p))
        (<[task_id := task]> (cm_tasks m))
        (update_task (cm_task_projection_index m) task occurred_at_ms)
        ({[task_id]} ∪ cm_admitted_task_detail m)).

(** [admit_task_detail_pages] works on a clone and keeps it only on success. *)
Definition admit_task_detail_pages `{UnicodeText} (m : ClientModel) (task_id : TaskId)
    (pages : list SnapshotPage) : ClientModel * result unit ClientModelError :=
  match admit_task_detail_pages_inner m task_id pages with
  | Ok candidate => (candidate, Ok tt)
  | Err e => (m, Err e)
  end.
