(* ===== verification/Assembly.v ===== *)
(** The assembly of a client model from snapshot pages ([ClientModelBuilder] of
    [client/model.rs]). *)
From S2P Require Import Prelude Order Canonical Task Agent Resource Artifact Browser Operation Snapshot Event Pages Sample ProjectionIndex Client.

Definition MAX_CLIENT_MODEL_PAGES : N := 1024.
Definition MAX_CLIENT_MODEL_ITEMS : N := 100000.
Definition MAX_CLIENT_MODEL_CURSORS_PER_SECTION : N := 1024.
Definition REQUIRED_SNAPSHOT_SECTION_COUNT : N := 5.
Definition SNAPSHOT_SECTION_COUNT : N := 7.

Record SectionAssembly := {
  sa_started : bool;
  sa_finished : bool;
  sa_seen_cursors : gset (list N);
  sa_expected_after : option SnapshotItemKey;
}.

Definition section_default : SectionAssembly :=
  {| sa_started := false; sa_finished := false; sa_seen_cursors := ∅; sa_expected_after := None |}.

Definition section_index (s : SnapshotSection) : N :=
  match s with
  | SecTasks => 0
  | SecAgentSessions => 1
  | SecArtifacts => 2
  | SecResources => 3
  | SecOperations => 4
  | SecBrowserContexts => 5
  | SecBrowserTabs => 6
  end.

Definition snapshot_item_key (i : SnapshotItem) : SnapshotItemKey :=
  match i with
  | SiTask t => SkTask (tf_id (ti_task t))
  | SiAgentSession a => SkAgentSession (ag_id a)
  | SiArtifact a => SkArtifact (as_id a)
  | SiResource r => SkResource (rf_id r)
  | SiOperation o => SkOperation (opf_id o)
  | SiBrowserContext c => SkBrowserContext (cv_context_id c)
  | SiBrowserTab t => SkBrowserTab (tv_tab_id t)
  end.

Record BuilderRows := {
  br_tasks : gmap N TaskSnapshotItem;
  br_agents : gmap N AgentSessionFacts;
  br_artifacts : gmap N ArtifactSummary;
  br_resources : gmap N ResourceFacts;
  br_operations : gmap N OperationFacts;
  br_browser_contexts : gmap N BrowserContextView;
  br_browser_tabs : gmap N BrowserTabView;
}.

(** The fields of the builder before its seven maps of rows. *)
Record ClientModelBuilder := {
  bd_snapshot_id : option SnapshotId;
  bd_through_sequence : option N;
  bd_page_count : N;
  bd_item_count : N;
  bd_sections : gmap N SectionAssembly;
  bd_rows : BuilderRows;
}.

Definition rows_empty : BuilderRows :=
  {| br_tasks := ∅; br_agents := ∅; br_artifacts := ∅; br_resources := ∅; br_operations := ∅;
     br_browser_contexts := ∅; br_browser_tabs := ∅ |}.

Definition builder_new : ClientModelBuilder :=
  {| bd_snapshot_id := None; bd_through_sequence := None; bd_page_count := 0;
     bd_item_count := 0; bd_sections := ∅; bd_rows := rows_empty |}.

(** [self.sections[index]]: an array of defaults at the start. *)
Definition section_at (b : ClientModelBuilder) (index : N) : SectionAssembly :=
  default section_default (bd_sections b !! index).

Definition with_section (b : ClientModelBuilder) (index : N) (s : SectionAssembly)
    : ClientModelBuilder :=
  {| bd_snapshot_id := bd_snapshot_id b; bd_through_sequence := bd_through_sequence b;
     bd_page_count := bd_page_count b; bd_item_count := bd_item_count b;
     bd_sections := <[index := s]> (bd_sections b); bd_rows := bd_rows b |}.

Definition with_page (b : ClientModelBuilder) (snapshot_id : option SnapshotId)
    (through : option N) (page_count : N) : ClientModelBuilder :=
  {| bd_snapshot_id := snapshot_id; bd_through_sequence := through;
     bd_page_count := page_count; bd_item_count := bd_item_count b;
     bd_sections := bd_sections b; bd_rows := bd_rows b |}.

Definition with_rows (b : ClientModelBuilder) (item_count : N) (r : BuilderRows)
    : ClientModelBuilder :=
  {| bd_snapshot_id := bd_snapshot_id b; bd_through_sequence := bd_through_sequence b;
     bd_page_count := bd_page_count b; bd_item_count := item_count;
     bd_sections := bd_sections b; bd_rows := r |}.

(** A method on [&mut self]: the builder after the call, an error included. *)
Definition built : Type := ClientModelBuilder * result unit ClientModelError.

(** [BTreeMap::insert], which replaces the value it reports. *)
Definition replaced {V} (m : gmap N V) (k : N) : result unit ClientModelError :=
  guard (is_none (m !! k)) DuplicateItem.

Definition admit_item (r : BuilderRows) (section : SnapshotSection) (item : SnapshotItem)
    : BuilderRows * result unit ClientModelError :=
  let '{| br_tasks := tasks; br_agents := agents; br_artifacts := artifacts;
          br_resources := resources; br_operations := operations;
          br_browser_contexts := contexts; br_browser_tabs := tabs |} := r in
  match section, item with
  | SecTasks, SiTask t =>
      let k := tf_id (ti_task t) in
      (Build_BuilderRows (<[k := t]> tasks) agents artifacts resources operations contexts tabs,
       replaced tasks k)
  | SecAgentSessions, SiAgentSession a =>
      (Build_BuilderRows tasks (<[ag_id a := a]> agents) artifacts resources operations contexts
         tabs, replaced agents (ag_id a))
  | SecArtifacts, SiArtifact a =>
      (Build_BuilderRows tasks agents (<[as_id a := a]> artifacts) resources operations contexts
         tabs, replaced artifacts (as_id a))
  | SecResources, SiResource x =>
      match resource_validate x with
      | Err _ => (r, Err InvalidOwnership)
      | Ok _ =>
          (Build_BuilderRows tasks agents artifacts (<[rf_id x := x]> resources) operations
             contexts tabs, replaced resources (rf_id x))
      end
  | SecOperations, SiOperation o =>
      (Build_BuilderRows tasks agents artifacts resources (<[opf_id o := o]> operations) contexts
         tabs, replaced operations (opf_id o))
  | SecBrowserContexts, SiBrowserContext c =>
      (Build_BuilderRows tasks agents artifacts resources operations
         (<[cv_context_id c := c]> contexts) tabs, replaced contexts (cv_context_id c))
  | SecBrowserTabs, SiBrowserTab t =>
      (Build_BuilderRows tasks agents artifacts resources operations contexts
         (<[tv_tab_id t := t]> tabs), replaced tabs (tv_tab_id t))
  | _, _ => (r, Err SectionItemMismatch)
  end.

Fixpoint admit_items (b : ClientModelBuilder) (section : SnapshotSection)
    (items : list SnapshotItem) : built :=
  match items with
  | [] => (b, Ok tt)
  | item :: rest =>
      if MAX_CLIENT_MODEL_ITEMS <=? bd_item_count b then (b, Err ItemBoundExceeded)
      else
        let '(r, res) := admit_item (bd_rows b) section item in
        let b := with_rows b (bd_item_count b + 1) r in
        match res with
        | Ok _ => admit_items b section rest
        | Err e => (b, Err e)
        end
  end.

(** The page must start its section, or resume it after the last item of the
    page before. *)
Definition section_open (s : SectionAssembly) (page : SnapshotPage)
    : result SectionAssembly ClientModelError :=
  ensure negb (sa_finished s) else DuplicateSection ;;
  if negb (sa_started s) then
    ensure is_none (sp_after_item page) else NonProgressingPage ;;
    Ok {| sa_started := true; sa_finished := sa_finished s;
          sa_seen_cursors := sa_seen_cursors s; sa_expected_after := sa_expected_after s |}
  else
    ensure is_some (sa_expected_after s) && (sa_expected_after s =?= sp_after_item page)
      else SnapshotBoundaryMismatch ;;
    Ok s.

(** The cursor of the page: one to resume from, or the end of the section. *)
Definition section_close (s : SectionAssembly) (page : SnapshotPage)
    : SectionAssembly * result unit ClientModelError :=
  match sp_next_cursor page with
  | Some cursor =>
      if MAX_CLIENT_MODEL_CURSORS_PER_SECTION <=? N.of_nat (size (sa_seen_cursors s))
      then (s, Err CursorBoundExceeded)
      else
        let s' := {| sa_started := sa_started s; sa_finished := sa_finished s;
                     sa_seen_cursors := {[cursor]} ∪ sa_seen_cursors s;
                     sa_expected_after := sa_expected_after s |} in
        if bool_decide (cursor ∈ sa_seen_cursors s) then (s', Err RepeatedCursor)
        else
          match last (sp_items page) with
          | None => (s', Err NonProgressingPage)
          | Some item =>
              ({| sa_started := sa_started s'; sa_finished := sa_finished s';
                  sa_seen_cursors := sa_seen_cursors s';
                  sa_expected_after := Some (snapshot_item_key item) |}, Ok tt)
          end
  | None =>
      ({| sa_started := sa_started s; sa_finished := true;
          sa_seen_cursors := sa_seen_cursors s; sa_expected_after := None |}, Ok tt)
  end.

Definition ingest_page (b : ClientModelBuilder) (page : SnapshotPage) : built :=
  if MAX_CLIENT_MODEL_PAGES <=? bd_page_count b then (b, Err PageBoundExceeded)
  else
    let page_count := bd_page_count b + 1 in
    if negb (is_none_or (bd_snapshot_id b) (fun id => id =? sp_snapshot_id page))
    then (with_page b (bd_snapshot_id b) (bd_through_sequence b) page_count, Err SnapshotDrift)
    else if negb (is_none_or (bd_through_sequence b) (fun s => s =? sp_through_sequence page))
    then (with_page b (Some (sp_snapshot_id page)) (bd_through_sequence b) page_count,
          Err SequenceDrift)
    else
      let b := with_page b (Some (sp_snapshot_id page)) (Some (sp_through_sequence page))
                 page_count in
      let index := section_index (sp_section page) in
      match section_open (section_at b index) page with
      | Err e => (b, Err e)
      | Ok opened =>
          let b := with_section b index opened in
          if is_empty (sp_items page) && is_some (sp_next_cursor page)
          then (b, Err NonProgressingPage)
          else
            match admit_items b (sp_section page) (sp_items page) with
            | (b, Err e) => (b, Err e)
            | (b, Ok _) =>
                let '(s, res) := section_close (section_at b index) page in
                (with_section b index s, res)
            end
      end.

(** ** The finished model *)

Definition task_snapshot_from_item (i : TaskSnapshotItem) : TaskSnapshot :=
  {| sn_task := ti_task i; sn_connectivity := ti_connectivity i; sn_attention := ti_attention i;
     sn_activity := ti_activity i; sn_review_readiness := ti_review_readiness i;
     sn_agents := ∅; sn_primary_agent_id := None; sn_artifacts := ∅; sn_resources := ∅;
     sn_provider_sessions := ∅;
     sn_browser := match open_task book_new (tf_id (ti_task i)) with
                   | Ok b => b
                   | Err _ => book_new
                   end;
     sn_terminal_facts := ∅; sn_terminal_strip := strip_default |}.

(** [tasks.get_mut(&id).ok_or(MissingParentTask)?] and its update. *)
Definition update_parent (tasks : gmap N TaskSnapshot) (id : TaskId)
    (f : TaskSnapshot -> result TaskSnapshot ClientModelError)
    : result (gmap N TaskSnapshot) ClientModelError :=
  let? task := ok_or (tasks !! id) MissingParentTask in
  let? task := f task in
  Ok (<[id := task]> tasks).

Definition place_agent (tasks : gmap N TaskSnapshot) (ka : N * AgentSessionFacts) :=
  update_parent tasks (ag_task_id (snd ka)) (fun s =>
    let? agents := insert_new (sn_agents s) (fst ka) (snd ka) in Ok (set_agents s agents)).

Definition place_context (tasks : gmap N TaskSnapshot) (kc : N * BrowserContextView) :=
  update_parent tasks (cv_task_id (snd kc)) (fun s =>
    let? b := map_err (fun _ => InvalidOwnership) (project_context_view (sn_browser s) (snd kc)) in
    ensure is_some (bk_contexts b !! fst kc) else ApplyFailed ;;
    Ok (set_browser s b)).

Definition place_tab (tasks : gmap N TaskSnapshot) (kt : N * BrowserTabView) :=
  update_parent tasks (tv_task_id (snd kt)) (fun s =>
    let? b := map_err (fun _ => InvalidOwnership) (project_tab_view (sn_browser s) (snd kt)) in
    ensure is_some (bk_tabs b !! fst kt) else ApplyFailed ;;
    Ok (set_browser s b)).

Definition place_resource (p : gmap N ResourceFacts * gmap N TaskSnapshot)
    (kr : N * ResourceFacts) :=
  let '(host, tasks) := p in
  let r := snd kr in
  match rf_owner_kind r with
  | OwnerHost =>
      ensure is_none (rf_task_id r) else InvalidOwnership ;;
      let? host := insert_new host (fst kr) r in
      Ok (host, tasks)
  | OwnerTask =>
      let? task_id := ok_or (rf_task_id r) InvalidOwnership in
      let? tasks := update_parent tasks task_id (fun s =>
        let? resources := insert_new (sn_resources s) (fst kr) r in Ok (set_resources s resources)) in
      Ok (host, tasks)
  end.

Definition finish_assembled `{UnicodeText} (b : ClientModelBuilder)
    : result ClientModel ClientModelError :=
  let rows := bd_rows b in
  let? through_sequence := ok_or (bd_through_sequence b) MissingSections in
  let tasks := (fun i => set_primary (task_snapshot_from_item i) (ti_primary_agent_id i))
                 <$> br_tasks rows in
  let? tasks := try_fold place_agent tasks (sorted_entries (br_agents rows)) in
  let? tasks := try_fold place_context tasks (sorted_entries (br_browser_contexts rows)) in
  let? tasks := try_fold place_tab tasks (sorted_entries (br_browser_tabs rows)) in
  ensure forallb (fun a => is_some (tasks !! as_task_id a)) (values (br_artifacts rows))
    else MissingParentTask ;;
  let? p := try_fold place_resource (∅, tasks) (sorted_entries (br_resources rows)) in
  let '(host_resources, tasks) := p in
  let? _ := try_fold (fun _ ks => validate_primary_agent (snd ks)) tt (sorted_entries tasks) in
  ensure forallb (fun o => is_none_or (opf_task_id o) (fun t => is_some (tasks !! t)))
           (values (br_operations rows)) else MissingParentTask ;;
  Ok {| cm_tasks := tasks; cm_host_resources := host_resources;
        cm_operations := br_operations rows; cm_artifact_summaries := br_artifacts rows;
        cm_last_applied_sequence := through_sequence; cm_replay_through := None;
        cm_replay_page_count := 0; cm_replay_cursors := ∅;
        cm_task_projection_index := from_tasks tasks through_sequence;
        cm_admitted_task_detail := ∅ |}.

Definition finished_at (b : ClientModelBuilder) (index : N) : bool :=
  sa_finished (section_at b index).
Definition started_at (b : ClientModelBuilder) (index : N) : bool :=
  sa_started (section_at b index).

Definition finish `{UnicodeText} (b : ClientModelBuilder) : result ClientModel ClientModelError :=
  ensure forallb (finished_at b) [0; 1; 2; 3; 4] else MissingSections ;;
  ensure negb (existsb (started_at b) [5; 6] && negb (forallb (finished_at b) [5; 6]))
    else MissingSections ;;
  finish_assembled b.

Record TaskInboxPreview := {
  ip_tasks : gmap N TaskSnapshot;
  ip_through_sequence : N;
}.

Definition finish_tasks_preview (b : ClientModelBuilder)
    : result TaskInboxPreview ClientModelError :=
  ensure finished_at b (section_index SecTasks) else MissingSections ;;
  ensure negb (existsb (started_at b) [1; 2; 3; 4; 5; 6]) else DuplicateSection ;;
  let? through_sequence := ok_or (bd_through_sequence b) MissingSections in
  Ok {| ip_tasks := task_snapshot_from_item <$> br_tasks (bd_rows b);
        ip_through_sequence := through_sequence |}.

(** ** The rows after the pages admitted so far *)

Definition ingest_ok (b : ClientModelBuilder) (page : SnapshotPage)
    : result ClientModelBuilder ClientModelError :=
  match ingest_page b page with
  | (b, Ok _) => Ok b
  | (_, Err e) => Err e
  end.

Definition ingest_all (b : ClientModelBuilder) (pages : list SnapshotPage)
    : result ClientModelBuilder ClientModelError := try_fold ingest_ok b pages.

(** The map holds exactly the items of one kind, each under its own key. *)
Definition holds {V} (key : V -> N) (inj : V -> SnapshotItem) (m : gmap N V)
    (items : list SnapshotItem) : Prop :=
  forall k v, m !! k = Some v <-> k = key v /\ inj v ∈ items.

Definition task_item_key (t : TaskSnapshotItem) : N := tf_id (ti_task t).

Record rows_hold (r : BuilderRows) (items : list SnapshotItem) : Prop := {
  rh_tasks : holds task_item_key SiTask (br_tasks r) items;
  rh_agents : holds ag_id SiAgentSession (br_agents r) items;
  rh_artifacts : holds as_id SiArtifact (br_artifacts r) items;
  rh_resources : holds rf_id SiResource (br_resources r) items;
  rh_operations : holds opf_id SiOperation (br_operations r) items;
  rh_contexts : holds cv_context_id SiBrowserContext (br_browser_contexts r) items;
  rh_tabs : holds tv_tab_id SiBrowserTab (br_browser_tabs r) items;
}.

Lemma holds_nil {V} (key : V -> N) inj : holds key inj ∅ [].
Proof. intros k v. rewrite lookup_empty. set_solver. Qed.

Lemma holds_insert {V} (key : V -> N) mk `{!Inj eq eq mk} m items v :
  holds key mk m items -> m !! key v = None -> holds key mk (<[key v := v]> m) (items ++ [mk v]).
Proof.
  intros Hm Hn k w. rewrite elem_of_app, list_elem_of_singleton.
  destruct (decide (key v = k)) as [<-|Hne].
  - rewrite lookup_insert_eq. split.
    + intros [= <-]. auto.
    + intros [Hk [Hw|Hw%(inj mk)]]; [|by subst]. assert (m !! key v = Some w) by (by apply Hm). congruence.
  - rewrite lookup_insert_ne by done. rewrite (Hm k w). split; [by intros [? ?]; auto|].
    intros [Hk [?|Hw%(inj mk)]]; [done|]. by subst.
Qed.

Lemma holds_skip {V} (key : V -> N) inj m items i :
  holds key inj m items -> (forall v, inj v <> i) -> holds key inj m (items ++ [i]).
Proof.
  intros Hm Hi k w. rewrite elem_of_app, list_elem_of_singleton, (Hm k w).
  split; [by intros [? ?]; auto|]. by intros [? [?|?%Hi]].
Qed.

#[export] Instance SiTask_inj : Inj eq eq SiTask. Proof. by intros ? ? [=]. Qed.
#[export] Instance SiAgentSession_inj : Inj eq eq SiAgentSession. Proof. by intros ? ? [=]. Qed.
#[export] Instance SiArtifact_inj : Inj eq eq SiArtifact. Proof. by intros ? ? [=]. Qed.
#[export] Instance SiResource_inj : Inj eq eq SiResource. Proof. by intros ? ? [=]. Qed.
#[export] Instance SiOperation_inj : Inj eq eq SiOperation. Proof. by intros ? ? [=]. Qed.
#[export] Instance SiBrowserContext_inj : Inj eq eq SiBrowserContext. Proof. by intros ? ? [=]. Qed.
#[export] Instance SiBrowserTab_inj : Inj eq eq SiBrowserTab. Proof. by intros ? ? [=]. Qed.

Lemma replaced_Ok {V} (m : gmap N V) k u : replaced m k = Ok u -> m !! k = None.
Proof. unfold replaced. intros H%guard_Ok. by apply is_none_true. Qed.

Lemma admit_item_rows r section item r' u items :
  admit_item r section item = (r', Ok u) -> rows_hold r items -> rows_hold r' (items ++ [item]).
Proof.
  destruct r. intros Hx [H1 H2 H3 H4 H5 H6 H7]. unfold admit_item in Hx.
  destruct section, item; try discriminate Hx;
    try (destruct (resource_validate _); [|discriminate Hx]);
    injection Hx as <- Hr%replaced_Ok; split; cbn in *;
    match goal with |- holds ?key ?mk _ _ =>
      first [by apply (holds_insert key mk) | by apply (holds_skip key mk)] end.
Qed.

Lemma admit_items_rows items : forall b section b' u sent,
  admit_items b section items = (b', Ok u) -> rows_hold (bd_rows b) sent ->
  rows_hold (bd_rows b') (sent ++ items)
  /\ bd_item_count b' = bd_item_count b + count items
  /\ (bd_item_count b <= MAX_CLIENT_MODEL_ITEMS -> bd_item_count b' <= MAX_CLIENT_MODEL_ITEMS)
  /\ bd_sections b' = bd_sections b /\ bd_through_sequence b' = bd_through_sequence b
  /\ bd_snapshot_id b' = bd_snapshot_id b /\ bd_page_count b' = bd_page_count b.
Proof.
  induction items as [|item items IH]; intros b section b' u sent Hx Hr; cbn [admit_items] in Hx.
  - injection Hx as <-. rewrite app_nil_r, count_nil. split_and!; [done|lia|done..].
  - destruct (N.leb_spec MAX_CLIENT_MODEL_ITEMS (bd_item_count b)); [done|].
    destruct (admit_item (bd_rows b) section item) as [r [v|e]] eqn:E; [|done].
    pose proof (admit_item_rows _ _ _ _ _ _ E Hr) as Hr1.
    destruct (IH _ _ _ _ (sent ++ [item]) Hx Hr1) as (Hrows & Hc & Hb & ? & ? & ? & ?).
    rewrite <- app_assoc in Hrows. cbn in Hc, Hb. rewrite count_cons. split_and!; try done; lia.
Qed.

(** What holds after some pages were admitted. *)
Record assembling (b : ClientModelBuilder) (pages : list SnapshotPage) : Prop := {
  as_rows : rows_hold (bd_rows b) (pages ≫= sp_items);
  as_items : bd_item_count b = count (pages ≫= sp_items)
             /\ bd_item_count b <= MAX_CLIENT_MODEL_ITEMS;
  as_pages : bd_page_count b = count pages /\ bd_page_count b <= MAX_CLIENT_MODEL_PAGES;
  as_pinned : Forall (fun p => bd_through_sequence b = Some (sp_through_sequence p)
                               /\ bd_snapshot_id b = Some (sp_snapshot_id p)) pages;
  as_finished : forall i, finished_at b i = true ->
    exists p, p ∈ pages /\ section_index (sp_section p) = i /\ sp_next_cursor p = None;
}.

Lemma assembling_new : assembling builder_new [].
Proof.
  split; [split; apply holds_nil|by split|by split|constructor|].
  intros i. unfold finished_at, section_at. cbn. by rewrite lookup_empty.
Qed.

Lemma section_open_finished s page s' :
  section_open s page = Ok s' -> sa_finished s' = false.
Proof.
  unfold section_open. intros Hx. apply rbind_Ok in Hx as (? & Hf%guard_negb & Hx).
  destruct (negb (sa_started s)); apply rbind_Ok in Hx as (? & _ & Hx); by injection Hx as <-.
Qed.

Lemma section_close_finished s page s' u :
  section_close s page = (s', Ok u) -> sa_finished s = false ->
  sa_finished s' = is_none (sp_next_cursor page).
Proof.
  unfold section_close. destruct (sp_next_cursor page) as [c|]; [|by intros [= <-]].
  destruct (_ <=? _); [done|]. destruct (bool_decide _); [done|].
  destruct (last (sp_items page)); [|done]. by intros [= <-].
Qed.

Lemma finished_at_with_section b i s j :
  finished_at (with_section b i s) j = if decide (i = j) then sa_finished s else finished_at b j.
Proof.
  unfold finished_at, section_at. cbn. destruct (decide (i = j)) as [->|Hne].
  - by rewrite lookup_insert_eq.
  - by rewrite lookup_insert_ne.
Qed.

Lemma ingest_ok_assembling b page b' pages :
  assembling b pages -> ingest_ok b page = Ok b' -> assembling b' (pages ++ [page]).
Proof.
  intros [Hrows [Hic Hib] [Hpc Hpb] Hpin Hfin] Hx. unfold ingest_ok, ingest_page in Hx.
  destruct (N.leb_spec MAX_CLIENT_MODEL_PAGES (bd_page_count b)); [done|].
  destruct (is_none_or (bd_snapshot_id b) _) eqn:Esn; [|done]. cbn [negb] in Hx.
  destruct (is_none_or (bd_through_sequence b) _) eqn:Eth; [|done]. cbn [negb] in Hx.
  set (b0 := with_page b _ _ _) in Hx.
  destruct (section_open _ page) as [opened|] eqn:Eop; [|done].
  destruct (_ && _); [done|].
  destruct (admit_items _ _ _) as [b1 [[]|]] eqn:Ea; [|done].
  destruct (section_close _ page) as [s [[]|]] eqn:Ec; [|done]. injection Hx as <-.
  destruct (admit_items_rows _ _ _ _ _ (pages ≫= sp_items) Ea Hrows)
    as (Hr1 & Hc1 & Hb1 & Hsec & Hth & Hsid & Hpg).
  assert ((pages ++ [page]) ≫= sp_items = (pages ≫= sp_items) ++ sp_items page) as Heq.
  { rewrite bind_app. cbn [mbind list_bind]. by rewrite app_nil_r. }
  split; rewrite ?Heq.
  - exact Hr1.
  - cbn. rewrite Hc1. cbn. rewrite Hic, count_app. split; [done|]. cbn in Hb1.
    rewrite <- Hic. rewrite Hc1 in Hb1. cbn in Hb1. auto.
  - cbn. rewrite Hpg. cbn. rewrite count_app, count_cons, count_nil. lia.
  - cbn. rewrite Hth, Hsid. cbn. apply Forall_app. split; [|by repeat constructor].
    eapply Forall_impl; [exact Hpin|]. intros p [Ht Hs]. rewrite Ht in Eth. rewrite Hs in Esn.
    cbn in Eth, Esn. apply N.eqb_eq in Eth, Esn. by rewrite Eth, Esn.
  - intros i. rewrite finished_at_with_section.
    set (j := section_index (sp_section page)) in *.
    assert (section_at b1 j = opened) as Hat.
    { unfold section_at. rewrite Hsec. cbn. by rewrite lookup_insert_eq. }
    rewrite Hat in Ec. destruct (decide (j = i)) as [<-|Hne].
    + rewrite (section_close_finished _ _ _ _ Ec (section_open_finished _ _ _ Eop)).
      intros Hn%is_none_true. exists page. split_and!; [set_solver|done|done].
    + intros Hf. assert (finished_at b i = true) as (p & ? & ? & ?)%Hfin.
      { unfold finished_at, section_at in *. rewrite Hsec in Hf. cbn in Hf.
        by rewrite lookup_insert_ne in Hf. }
      exists p. split_and!; [set_solver|done|done].
Qed.

Lemma ingest_all_assembling pages b : ingest_all builder_new pages = Ok b -> assembling b pages.
Proof.
  apply (try_fold_ind ingest_ok (fun pages b => assembling b pages)); [apply assembling_new|].
  intros ps p b1 b2 Hb Hx. by eapply ingest_ok_assembling.
Qed.

(** ** Placing the rows under their tasks *)

(** A loop that hands each row to the task it names. [look] reads the rows a task
    holds; [rest] is what the loop leaves alone. *)
Section Placing.
Context {Σ V R : Type} (tasks_of : Σ -> gmap N TaskSnapshot) (key : V -> N)
  (owner : V -> option N) (look : TaskSnapshot -> N -> option V) (rest : TaskSnapshot -> R)
  (place : Σ -> N * V -> result Σ ClientModelError).

(** What one turn of the loop does to the tasks. *)
Definition places : Prop := forall st v st', place st (key v, v) = Ok st' ->
  match owner v with
  | None => tasks_of st' = tasks_of st
  | Some t => exists s s', tasks_of st !! t = Some s /\ tasks_of st' = <[t := s']> (tasks_of st)
      /\ rest s' = rest s /\ look s (key v) = None
      /\ forall j, look s' j = if decide (j = key v) then Some v else look s j
  end.

(** The rows of one task after the loop. *)
Definition placed (t : N) (l : list (N * V)) (s s' : TaskSnapshot) : Prop :=
  rest s' = rest s
  /\ forall k v, look s' k = Some v <-> look s k = Some v \/ ((k, v) ∈ l /\ owner v = Some t).

Definition placed_all (l : list (N * V)) (ts ts' : gmap N TaskSnapshot) : Prop :=
  (forall t, match ts !! t, ts' !! t with
             | Some s, Some s' => placed t l s s'
             | None, None => True
             | _, _ => False
             end)
  /\ forall k v t, (k, v) ∈ l -> owner v = Some t -> is_Some (ts !! t).

Lemma placed_nil t s : placed t [] s s.
Proof. split; [done|]. set_solver. Qed.

Lemma placed_skip t l s s' k v :
  placed t l s s' -> owner v <> Some t -> placed t (l ++ [(k, v)]) s s'.
Proof.
  intros [Hr Hl] Hn. split; [done|]. intros j w. rewrite Hl, elem_of_app, list_elem_of_singleton.
  split; [by intros [?|[? ?]]; auto|]. intros [?|[[?|?] ?]]; [auto..|]. by simplify_eq.
Qed.

Lemma placed_add t l s s' k v s'' :
  placed t l s s' -> owner v = Some t -> rest s'' = rest s' -> look s' k = None ->
  (forall j, look s'' j = if decide (j = k) then Some v else look s' j) ->
  placed t (l ++ [(k, v)]) s s''.
Proof.
  intros [Hr Hl] Ho Hr2 Hk Hj. split; [by rewrite Hr2|]. intros j w.
  rewrite Hj, elem_of_app, list_elem_of_singleton. destruct (decide (j = k)) as [->|Hne].
  - split; [by intros [= <-]; auto|]. specialize (Hl k w). rewrite Hk in Hl.
    intros [Hw|[[Hw|Hw] Ht]]; [assert (@None V = Some w) by (apply Hl; auto); done..|].
    by simplify_eq.
  - rewrite Hl. split; [by intros [?|[? ?]]; auto|]. intros [?|[[?|?] ?]]; [auto..|].
    by simplify_eq.
Qed.

Lemma place_all st l st' :
  places -> (forall k v, (k, v) ∈ l -> k = key v) -> try_fold place st l = Ok st' ->
  placed_all l (tasks_of st) (tasks_of st').
Proof.
  intros Hp Hkey Hx. revert Hkey. revert Hx.
  apply (try_fold_ind place (fun l st' => (forall k v, (k, v) ∈ l -> k = key v) ->
                                          placed_all l (tasks_of st) (tasks_of st'))).
  - intros _. split; [|by intros k v t ?%not_elem_of_nil]. intros t.
    destruct (tasks_of st !! t); [apply placed_nil|done].
  - intros l0 [k v] st1 st2 IH Hx Hkey.
    destruct IH as [Ha Hb]; [intros j w ?; apply Hkey; set_solver|].
    assert (k = key v) as -> by (apply Hkey; set_solver). specialize (Hp _ _ _ Hx). split.
    + intros t. specialize (Ha t). destruct (owner v) as [u|] eqn:Ho.
      * destruct Hp as (s & s' & Hs & -> & Hr & Hk & Hj). destruct (decide (u = t)) as [<-|Hne].
        -- rewrite Hs in Ha. rewrite lookup_insert_eq. destruct (tasks_of st !! u); [|done].
           by apply (placed_add u l0 _ s).
        -- rewrite lookup_insert_ne by done. destruct (tasks_of st !! t), (tasks_of st1 !! t);
             try done. apply placed_skip; [done|]. rewrite Ho. congruence.
      * rewrite Hp. destruct (tasks_of st !! t), (tasks_of st1 !! t); try done.
        apply placed_skip; [done|]. by rewrite Ho.
    + intros j w t [Hin|Hin%list_elem_of_singleton]%elem_of_app Hw; [by eapply Hb|].
      simplify_eq. rewrite Hw in Hp. destruct Hp as (s & s' & Hs & _). specialize (Ha t).
      rewrite Hs in Ha. destruct (tasks_of st !! t); [by eexists|done].
Qed.
End Placing.

Lemma update_parent_Ok tasks id f tasks' :
  update_parent tasks id f = Ok tasks' ->
  exists s s', tasks !! id = Some s /\ f s = Ok s' /\ tasks' = <[id := s']> tasks.
Proof.
  unfold update_parent. intros Hx. apply rbind_Ok in Hx as (s & Hs%ok_or_Ok & Hx).
  apply rbind_Ok in Hx as (s' & Hf & Hx). injection Hx as <-. eauto.
Qed.

Lemma insert_new_Ok {V} (m : gmap N V) k v m' :
  insert_new m k v = Ok m' -> m !! k = None /\ m' = <[k := v]> m.
Proof.
  unfold insert_new. intros Hx. apply rbind_Ok in Hx as (? & Hn%guard_Ok & Hx).
  injection Hx as <-. split; [by apply is_none_true|done].
Qed.

Definition agent_row (s : TaskSnapshot) (k : N) : option AgentSessionFacts := sn_agents s !! k.
Definition resource_row (s : TaskSnapshot) (k : N) : option ResourceFacts := sn_resources s !! k.
Definition context_row (s : TaskSnapshot) (k : N) : option BrowserContextView :=
  (fun c => context_state_view c k) <$> bk_contexts (sn_browser s) !! k.
Definition tab_row (s : TaskSnapshot) (k : N) : option BrowserTabView :=
  (fun c => tab_state_view c k) <$> bk_tabs (sn_browser s) !! k.

Definition but_agents (s : TaskSnapshot) : TaskSnapshot := set_agents s ∅.
Definition but_resources (s : TaskSnapshot) : TaskSnapshot := set_resources s ∅.
Definition but_contexts (s : TaskSnapshot) := (set_browser s book_new, bk_tabs (sn_browser s)).
Definition but_tabs (s : TaskSnapshot) := (set_browser s book_new, bk_contexts (sn_browser s)).

Lemma place_agent_places :
  places id ag_id (fun a => Some (ag_task_id a)) agent_row but_agents place_agent.
Proof.
  intros ts v ts' Hx. apply update_parent_Ok in Hx as (s & s' & Hs & Hf & ->).
  apply rbind_Ok in Hf as (m & [Hk ->]%insert_new_Ok & Hf). injection Hf as <-.
  exists s, (set_agents s (<[ag_id v := v]> (sn_agents s))). split_and!; try done.
  intros j. apply lookup_insert_dec.
Qed.

Lemma open_task_rows b t b' :
  open_task b t = Ok b' -> bk_contexts b' = bk_contexts b /\ bk_tabs b' = bk_tabs b.
Proof.
  unfold open_task. destruct (bool_decide _); [by intros [= <-]|].
  destruct (_ <=? _); [done|]. by intros [= <-].
Qed.

Lemma place_context_places :
  places id cv_context_id (fun c => Some (cv_task_id c)) context_row but_contexts place_context.
Proof.
  intros ts v ts' Hx. apply update_parent_Ok in Hx as (s & s' & Hs & Hf & ->).
  apply rbind_Ok in Hf as (b & Hb%map_err_Ok & Hf). apply rbind_Ok in Hf as (? & _ & Hf).
  injection Hf as <-. exists s, (set_browser s b). cbn [fst snd] in *. unfold project_context_view in Hb.
  apply rbind_Ok in Hb as (b0 & [Hc0 Ht0]%open_task_rows & Hb).
  apply rbind_Ok in Hb as (? & Hn%guard_Ok & Hb). apply is_none_true in Hn.
  apply rbind_Ok in Hb as (? & _ & Hb). injection Hb as <-. rewrite Hc0 in *.
  split_and!; try done.
  - unfold but_contexts. cbn. by rewrite Ht0.
  - unfold context_row. by rewrite Hn.
  - intros j. unfold context_row. cbn. rewrite lookup_insert_dec.
    destruct (decide (j = cv_context_id v)) as [->|]; [by destruct v|done].
Qed.

Lemma place_tab_places :
  places id tv_tab_id (fun c => Some (tv_task_id c)) tab_row but_tabs place_tab.
Proof.
  intros ts v ts' Hx. apply update_parent_Ok in Hx as (s & s' & Hs & Hf & ->).
  apply rbind_Ok in Hf as (b & Hb%map_err_Ok & Hf). apply rbind_Ok in Hf as (? & _ & Hf).
  injection Hf as <-. exists s, (set_browser s b). cbn [fst snd] in *. unfold project_tab_view in Hb.
  apply rbind_Ok in Hb as (b0 & [Hc0 Ht0]%open_task_rows & Hb).
  apply rbind_Ok in Hb as (c & _ & Hb). apply rbind_Ok in Hb as (? & Hn%guard_negb & Hb).
  apply orb_false_iff in Hn as [_ Hn%is_some_false].
  apply rbind_Ok in Hb as (? & _ & Hb). injection Hb as <-. rewrite Ht0 in *.
  split_and!; try done.
  - unfold but_tabs. cbn. by rewrite Hc0.
  - unfold tab_row. by rewrite Hn.
  - intros j. unfold tab_row. cbn. rewrite lookup_insert_dec.
    destruct (decide (j = tv_tab_id v)) as [->|]; [by destruct v|done].
Qed.

Lemma place_resource_places :
  places snd rf_id rf_task_id resource_row but_resources place_resource.
Proof.
  intros [host ts] v [host' ts'] Hx. unfold place_resource in Hx. cbn [fst snd] in *.
  destruct (rf_owner_kind v).
  - apply rbind_Ok in Hx as (t & ->%ok_or_Ok & Hx). apply rbind_Ok in Hx as (ts1 & Hu & Hx).
    injection Hx as <- <-. apply update_parent_Ok in Hu as (s & s' & Hs & Hf & ->).
    apply rbind_Ok in Hf as (m & [Hk ->]%insert_new_Ok & Hf). injection Hf as <-.
    exists s, (set_resources s (<[rf_id v := v]> (sn_resources s))). split_and!; try done.
    intros j. apply lookup_insert_dec.
  - apply rbind_Ok in Hx as (? & Hn%guard_Ok & Hx). apply is_none_true in Hn. rewrite Hn.
    apply rbind_Ok in Hx as (? & _ & Hx). by injection Hx as <- <-.
Qed.

(** The host's own resources. *)
Lemma place_resource_host l host ts host' ts' :
  try_fold place_resource (host, ts) l = Ok (host', ts') ->
  forall k r, host' !! k = Some r <-> host !! k = Some r \/ ((k, r) ∈ l /\ rf_task_id r = None).
Proof.
  intros Hx. cut (forall k r, fst (host', ts') !! k = Some r <->
                              host !! k = Some r \/ ((k, r) ∈ l /\ rf_task_id r = None)); [done|].
  revert Hx. apply (try_fold_ind place_resource (fun l st => forall k r,
    fst st !! k = Some r <-> host !! k = Some r \/ ((k, r) ∈ l /\ rf_task_id r = None))); [set_solver|].
  intros l0 [k v] [h1 t1] [h2 t2] IH Hp j w. specialize (IH j w). cbn [fst] in *.
  rewrite elem_of_app, list_elem_of_singleton. unfold place_resource in Hp. cbn [fst snd] in Hp.
  destruct (rf_owner_kind v).
  - apply rbind_Ok in Hp as (t & Ht%ok_or_Ok & Hp). apply rbind_Ok in Hp as (ts1 & _ & Hp).
    injection Hp as <- <-. rewrite IH. split; [by intros [?|[? ?]]; auto|].
    intros [?|[[?|?] ?]]; [by auto..|by simplify_eq].
  - apply rbind_Ok in Hp as (? & Hn%guard_Ok & Hp). apply is_none_true in Hn.
    apply rbind_Ok in Hp as (? & [Hk ->]%insert_new_Ok & Hp). injection Hp as <- <-.
    rewrite lookup_insert_dec. destruct (decide (j = k)) as [->|Hne].
    + rewrite Hk in IH. split; [by intros [= <-]; auto|].
      intros [Hw|[[Hw|Hw] Ht]]; [assert (@None ResourceFacts = Some w) by (apply IH; auto); done..|].
      by simplify_eq.
    + rewrite IH. split; [by intros [?|[? ?]]; auto|]. intros [?|[[?|?] ?]]; [auto..|].
      by simplify_eq.
Qed.

(** ** What the finished model holds of the items shipped *)

(** A task without the rows that are attached to it. *)
Definition bare (s : TaskSnapshot) : TaskSnapshot :=
  set_resources (set_agents (set_browser s book_new) ∅) ∅.

Definition item_task_id (i : SnapshotItem) : option TaskId :=
  match i with
  | SiTask t => Some (tf_id (ti_task t))
  | SiAgentSession a => Some (ag_task_id a)
  | SiArtifact a => Some (as_task_id a)
  | SiResource r => rf_task_id r
  | SiOperation o => opf_task_id o
  | SiBrowserContext c => Some (cv_task_id c)
  | SiBrowserTab t => Some (tv_task_id t)
  end.

(** The rows read through [look] are the items of one kind that name the task. *)
Definition attached {V} (key : V -> N) (mk : V -> SnapshotItem) (t : TaskId)
    (look : N -> option V) (items : list SnapshotItem) : Prop :=
  forall k v, look k = Some v <-> k = key v /\ mk v ∈ items /\ item_task_id (mk v) = Some t.

(** The primary agent is there and has the role; only the agents of a task that is settled,
    archived or deleted may not have been shipped. *)
Definition primary_shipped (s : TaskSnapshot) : Prop :=
  forall primary, sn_primary_agent_id s = Some primary ->
  match sn_agents s !! primary with
  | Some agent => ag_role agent = RolePrimary
  | None => tf_lifecycle (sn_task s) <> TaskOpen /\ tf_lifecycle (sn_task s) <> TaskClosing
  end.

Record task_assembled (items : list SnapshotItem) (i : TaskSnapshotItem) (s : TaskSnapshot)
    : Prop := {
  ta_shipped : SiTask i ∈ items;
  ta_bare : bare s = bare (set_primary (task_snapshot_from_item i) (ti_primary_agent_id i));
  ta_agents : attached ag_id SiAgentSession (tf_id (ti_task i)) (agent_row s) items;
  ta_resources : attached rf_id SiResource (tf_id (ti_task i)) (resource_row s) items;
  ta_contexts : attached cv_context_id SiBrowserContext (tf_id (ti_task i)) (context_row s) items;
  ta_tabs : attached tv_tab_id SiBrowserTab (tf_id (ti_task i)) (tab_row s) items;
  ta_primary : primary_shipped s;
}.

Record assembled `{UnicodeText} (items : list SnapshotItem) (m : ClientModel) : Prop := {
  am_tasks : forall t s, cm_tasks m !! t = Some s ->
    exists i, tf_id (ti_task i) = t /\ task_assembled items i s;
  am_parents : forall i t, i ∈ items -> item_task_id i = Some t -> is_Some (cm_tasks m !! t);
  am_host_resources : forall k r, cm_host_resources m !! k = Some r <->
    k = rf_id r /\ SiResource r ∈ items /\ rf_task_id r = None;
  am_operations : holds opf_id SiOperation (cm_operations m) items;
  am_summaries : holds as_id SiArtifact (cm_artifact_summaries m) items;
  am_index : cm_task_projection_index m = from_tasks (cm_tasks m) (cm_last_applied_sequence m);
}.

Lemma placed_fresh {V R} (owner : V -> option N) look (rest : TaskSnapshot -> R) t l s s' :
  placed owner look rest t l s s' -> (forall k, look s k = None) ->
  forall k v, look s' k = Some v <-> (k, v) ∈ l /\ owner v = Some t.
Proof.
  intros [_ Hl] Hn k v. rewrite Hl, Hn. split; [by intros [?|?]|auto].
Qed.

Lemma holds_rows {V} (key : V -> N) mk m items k v :
  holds key mk m items -> (k, v) ∈ sorted_entries m <-> k = key v /\ mk v ∈ items.
Proof. intros Hm. by rewrite elem_of_sorted_entries, (Hm k v). Qed.

Lemma holds_keyed {V} (key : V -> N) mk m items :
  holds key mk m items -> forall k v, (k, v) ∈ sorted_entries m -> k = key v.
Proof. intros Hm k v Hin. by apply (holds_rows key mk m items) in Hin as [? _]. Qed.

Lemma attached_rows {V R} (key : V -> N) mk m items (owner : V -> option N) look
    (rest : TaskSnapshot -> R) t s s' :
  holds key mk m items -> (forall v, item_task_id (mk v) = owner v) ->
  placed owner look rest t (sorted_entries m) s s' -> (forall k, look s k = None) ->
  attached key mk t (look s') items.
Proof.
  intros Hm Ho Hp Hn k v. rewrite (placed_fresh _ _ _ _ _ _ _ Hp Hn), Ho.
  rewrite (holds_rows key mk m items) by done. tauto.
Qed.

(** The four loops one after the other, for one task. *)
Lemma placed_four t l1 l2 l3 l4 s0 s1 s2 s3 s4 :
  placed (fun a => Some (ag_task_id a)) agent_row but_agents t l1 s0 s1 ->
  placed (fun c => Some (cv_task_id c)) context_row but_contexts t l2 s1 s2 ->
  placed (fun c => Some (tv_task_id c)) tab_row but_tabs t l3 s2 s3 ->
  placed rf_task_id resource_row but_resources t l4 s3 s4 ->
  bare s4 = bare s0 /\ agent_row s4 = agent_row s1 /\ context_row s4 = context_row s2
  /\ tab_row s4 = tab_row s3 /\ context_row s1 = context_row s0 /\ tab_row s2 = tab_row s0
  /\ resource_row s3 = resource_row s0.
Proof.
  intros [H1 _] [H2 _] [H3 _] [H4 _].
  unfold but_agents, but_contexts, but_tabs, but_resources in *.
  destruct s0, s1, s2, s3, s4. cbn in *. simplify_eq.
  unfold bare, agent_row, context_row, tab_row, resource_row. cbn in *.
  repeat match goal with Hb : _ = _ |- _ => rewrite Hb; clear Hb end. by split_and!.
Qed.

Lemma placed_all_at {V R} (owner : V -> option N) look (rest : TaskSnapshot -> R) l ts ts' t s' :
  placed_all owner look rest l ts ts' -> ts' !! t = Some s' ->
  exists s, ts !! t = Some s /\ placed owner look rest t l s s'.
Proof.
  intros [Ha _] Hs. specialize (Ha t). rewrite Hs in Ha. destruct (ts !! t); [eauto|done].
Qed.

Lemma placed_all_dom {V R} (owner : V -> option N) look (rest : TaskSnapshot -> R) l ts ts' t :
  placed_all owner look rest l ts ts' -> is_Some (ts' !! t) <-> is_Some (ts !! t).
Proof.
  intros [Ha _]. specialize (Ha t). by destruct (ts !! t), (ts' !! t).
Qed.

Lemma try_fold_check {E A} (f : A -> result unit E) l u :
  try_fold (fun _ a => f a) tt l = Ok u -> forall a, a ∈ l -> f a = Ok tt.
Proof.
  apply (try_fold_ind _ (fun l _ => forall a, a ∈ l -> f a = Ok tt)); [set_solver|].
  intros l0 a _ [] IH Hf b [?|Hb%list_elem_of_singleton]%elem_of_app; [auto|by subst].
Qed.

Lemma validated_primary s : validate_primary_agent s = Ok tt -> primary_shipped s.
Proof.
  unfold validate_primary_agent. intros Hv primary Hp. rewrite Hp in Hv.
  destruct (sn_agents s !! primary) as [agent|]; apply guard_Ok in Hv; [by destruct (ag_role agent)|].
  by destruct (tf_lifecycle (sn_task s)).
Qed.

Lemma forallb_values {V} (m : gmap N V) f k v :
  forallb f (values m) = true -> m !! k = Some v -> f v = true.
Proof.
  intros Hf Hv. eapply (proj1 (forallb_forall _ _)); [exact Hf|].
  apply in_map_iff. exists (k, v). split; [done|]. by apply list_elem_of_In, elem_of_map_to_list.
Qed.

Lemma fresh_rows i p k :
  let s := set_primary (task_snapshot_from_item i) p in
  agent_row s k = None /\ resource_row s k = None /\ context_row s k = None /\ tab_row s k = None.
Proof.
  cbn. unfold agent_row, resource_row, context_row, tab_row. cbn.
  destruct (open_task book_new _) as [b|] eqn:E; cbn; [|done].
  apply open_task_rows in E as [-> ->]. done.
Qed.

(** A row of the builder names a task the loop over its kind has found. *)
Lemma placed_parent {V R} (key : V -> N) mk m items (owner : V -> option N) look
    (rest : TaskSnapshot -> R) ts ts' v t :
  holds key mk m items -> placed_all owner look rest (sorted_entries m) ts ts' ->
  mk v ∈ items -> owner v = Some t -> is_Some (ts !! t).
Proof.
  intros Hm [_ Hb] Hin Ho. apply (Hb (key v) v t); [|done].
  by apply (holds_rows key mk m items).
Qed.

Lemma finish_assembled_Ok `{UnicodeText} b m items :
  rows_hold (bd_rows b) items -> finish_assembled b = Ok m ->
  assembled items m /\ bd_through_sequence b = Some (cm_last_applied_sequence m).
Proof.
  intros [Ht Ha Hf Hr Ho Hc Hb] Hx. unfold finish_assembled in Hx.
  apply rbind_Ok in Hx as (sq & Hsq%ok_or_Ok & Hx).
  set (ts0 := (fun i => set_primary (task_snapshot_from_item i) (ti_primary_agent_id i))
                <$> br_tasks (bd_rows b)) in Hx.
  apply rbind_Ok in Hx as (ts1 & H1' & Hx). apply rbind_Ok in Hx as (ts2 & H2' & Hx).
  apply rbind_Ok in Hx as (ts3 & H3' & Hx). apply rbind_Ok in Hx as (? & Hs%guard_Ok & Hx).
  apply rbind_Ok in Hx as ([host ts4] & H4' & Hx). apply rbind_Ok in Hx as ([] & Hp & Hx).
  apply rbind_Ok in Hx as (? & Hop%guard_Ok & Hx). injection Hx as <-.
  pose proof (place_resource_host _ _ _ _ _ H4') as Hhost.
  apply (place_all id ag_id _ _ _ _ _ _ _ place_agent_places (holds_keyed _ _ _ _ Ha)) in H1'.
  apply (place_all id cv_context_id _ _ _ _ _ _ _ place_context_places (holds_keyed _ _ _ _ Hc)) in H2'.
  apply (place_all id tv_tab_id _ _ _ _ _ _ _ place_tab_places (holds_keyed _ _ _ _ Hb)) in H3'.
  apply (place_all snd rf_id _ _ _ _ _ _ _ place_resource_places (holds_keyed _ _ _ _ Hr)) in H4'.
  cbn [id snd] in H1', H2', H3', H4'.
  split; [|done]. split; cbn -[from_tasks].
  - intros t s4 Hs4.
    destruct (placed_all_at _ _ _ _ _ _ _ _ H4' Hs4) as (s3 & Hs3 & Hp4).
    destruct (placed_all_at _ _ _ _ _ _ _ _ H3' Hs3) as (s2 & Hs2 & Hp3).
    destruct (placed_all_at _ _ _ _ _ _ _ _ H2' Hs2) as (s1 & Hs1 & Hp2).
    destruct (placed_all_at _ _ _ _ _ _ _ _ H1' Hs1) as (s0 & Hs0 & Hp1).
    unfold ts0 in Hs0. apply lookup_fmap_Some in Hs0 as (i & <- & Hi).
    apply Ht in Hi as [-> Hin]. exists i. split; [done|].
    destruct (placed_four _ _ _ _ _ _ _ _ _ _ Hp1 Hp2 Hp3 Hp4)
      as (Hbare & Har & Hcr & Htr & Hc0 & Ht0 & Hr0).
    pose proof (fresh_rows i (ti_primary_agent_id i)) as Hfresh. cbn zeta in Hfresh.
    split; [done|done|rewrite Har| |rewrite Hcr|rewrite Htr|].
    + eapply attached_rows; [done..|]. intros k. apply Hfresh.
    + eapply attached_rows; [done..|]. intros k. rewrite Hr0. apply Hfresh.
    + eapply attached_rows; [done..|]. intros k. rewrite Hc0. apply Hfresh.
    + eapply attached_rows; [done..|]. intros k. rewrite Ht0. apply Hfresh.
    + apply validated_primary. eapply (try_fold_check (fun ks => validate_primary_agent (snd ks)) _ _ Hp (_, s4)).
      by apply elem_of_sorted_entries.
  - assert (forall t, is_Some (ts0 !! t) -> is_Some (ts4 !! t)) as Hdom.
    { intros t Hd. eapply placed_all_dom; [exact H4'|]. eapply placed_all_dom; [exact H3'|].
      eapply placed_all_dom; [exact H2'|]. by eapply placed_all_dom. }
    assert (forall t, is_Some (ts3 !! t) -> is_Some (ts4 !! t)) as Hdom3.
    { intros t Hd. by eapply placed_all_dom. }
    intros i t Hin Hi. destruct i as [y|y|y|y|y|y|y]; cbn in Hi.
    + apply Hdom. injection Hi as <-. unfold ts0. rewrite lookup_fmap, fmap_is_Some.
      exists y. by apply Ht.
    + apply Hdom. by eapply (placed_parent ag_id SiAgentSession).
    + apply Hdom3. apply is_some_true. injection Hi as <-.
      apply (forallb_values _ _ (as_id y) y Hs). by apply Hf.
    + apply Hdom3. by eapply (placed_parent rf_id SiResource).
    + apply is_some_true. pose proof (forallb_values _ _ (opf_id y) y Hop) as Hv.
      cbn beta in Hv. rewrite Hi in Hv. apply Hv. by apply Ho.
    + apply Hdom. apply (proj1 (placed_all_dom _ _ _ _ _ _ t H1')).
      by eapply (placed_parent cv_context_id SiBrowserContext).
    + apply Hdom. apply (proj1 (placed_all_dom _ _ _ _ _ _ t H1')). apply (proj1 (placed_all_dom _ _ _ _ _ _ t H2')).
      by eapply (placed_parent tv_tab_id SiBrowserTab).
  - intros k r. rewrite Hhost, lookup_empty. rewrite (holds_rows rf_id SiResource) by done.
    split; [by intros [?|[[? ?] ?]]|intros (? & ? & ?); auto].
  - done.
  - done.
  - done.
Qed.

Lemma section_done b pages i :
  assembling b pages -> finished_at b i = true ->
  exists p, p ∈ pages /\ section_index (sp_section p) = i /\ sp_next_cursor p = None.
Proof. intros Hb. apply (as_finished b pages Hb). Qed.


(** *** A snapshot in six pages *)

Definition sample_page (section : SnapshotSection) (items : list SnapshotItem) : SnapshotPage :=
  {| sp_snapshot_id := 77; sp_through_sequence := 40; sp_section := section;
     sp_after_item := None; sp_items := items; sp_encoded_bytes := 9; sp_next_cursor := None |}.

Definition sample_task_item : TaskSnapshotItem :=
  {| ti_task := sample_task WsMain; ti_connectivity := Connected; ti_attention := AttentionNone;
     ti_activity := ActivityIdle; ti_review_readiness := NotReady;
     ti_primary_agent_id := Some (ag_id sample_agent) |}.

Definition sample_operation : OperationFacts := operation_facts_accepted 300 301 (Some 1) 4%Z.

Definition sample_pages : list SnapshotPage :=
  [ sample_page SecResources [SiResource sample_provider_terminal];
    sample_page SecAgentSessions [SiAgentSession sample_agent];
    sample_page SecArtifacts [];
    sample_page SecOperations [SiOperation sample_operation];
    sample_page SecTasks [SiTask sample_task_item] ].

Definition ok_of {T E} (r : result T E) (d : T) : T := match r with Ok t => t | Err _ => d end.

#[local] Existing Instance toy_unicode.
Definition sample_builder : ClientModelBuilder := ok_of (ingest_all builder_new sample_pages) builder_new.

Definition empty_model : ClientModel :=
  {| cm_tasks := ∅; cm_host_resources := ∅; cm_operations := ∅; cm_artifact_summaries := ∅;
     cm_last_applied_sequence := 0; cm_replay_through := None; cm_replay_page_count := 0;
     cm_replay_cursors := ∅; cm_task_projection_index := from_tasks ∅ 0;
     cm_admitted_task_detail := ∅ |}.

Definition sample_model : ClientModel := ok_of (finish sample_builder) empty_model.

