(* ===== verification/Replica.v ===== *)
(** The client's read model as a replica of the host's tasks: what it keeps in
    step with the events the host recorded. *)
From S2P Require Import Prelude Order Canonical Task Agent Resource Artifact ProviderInput Browser Operation Snapshot Event Pages Sample ProjectionIndex Client Assembly.

(** ** The artifacts a client does not keep *)

(** A task as the client holds it: the artifact bodies are dropped. *)
Definition erased (s : TaskSnapshot) : TaskSnapshot := set_artifacts s ∅.

Definition registers_artifact (e : Event) : bool :=
  match e with
  | EvArtifactRegistered _ | EvSpecialistHandoffRecorded _ _ _ _ _ => true
  | _ => false
  end.

Section Erasure.
Context `{Sha256} `{UrlParser} `{SpecialistJson}.

#[local] Create HintDb arms.
#[local] Hint Unfold refusing or_invalid apply_task_renamed apply_close_begun apply_settled
  apply_reopened apply_archived apply_deleted session_or_default put_session put_agent
  apply_agent_registered apply_provider_bound apply_provider_abandoned apply_primary_set
  is_unstarted_draft apply_unstarted_rebound top_level_runtime_count specialist_requester_ok
  specialist_resource_ok apply_specialist_requested apply_primary_promoted live_specialist
  apply_specialist_closed register_terminal apply_resource_registered releasable
  apply_release_begun apply_released put_terminal apply_terminal_renamed apply_terminal_cwd
  apply_terminal_exited apply_terminal_activity apply_strip_set session_turn
  validate_snapshot_provider_fence input_fence accepted_turn wait_record_of apply_input_accepted
  presentation_fence apply_question_presented apply_approval_presented apply_wait_settled
  apply_input_delivered : arms.

(** Both sides branch on the same tests, none of which reads the artifacts. *)
Ltac same_branches :=
  repeat (reflexivity ||
    match goal with
    | |- context [match ?x with _ => _ end] =>
        lazymatch x with context [match _ with _ => _ end] => fail | _ => destruct x; cbn end
    | |- context [rbind ?r _] =>
        lazymatch r with context [rbind _ _] => fail | _ => destruct r; cbn end
    end).

Lemma apply_into_erased s e at_ms :
  registers_artifact e = false ->
  apply_into (erased s) e at_ms = rmap erased (apply_into s e at_ms).
Proof.
  intros He. destruct e; try discriminate He; clear He; cbn [apply_into]; try reflexivity;
    autounfold with arms; cbn; same_branches.
Qed.

Lemma matching_erased s ev : require_matching_task_id (erased s) ev = require_matching_task_id s ev.
Proof. reflexivity. Qed.

Lemma next_revision_erased s ev : require_next_revision (erased s) ev = require_next_revision s ev.
Proof. reflexivity. Qed.

(** Events that register no artifact do not see the erased bodies. *)
Lemma apply_erased s ev :
  registers_artifact (de_payload ev) = false ->
  apply (Some (erased s)) ev = rmap erased (apply (Some s) ev).
Proof.
  intros He. pose proof (apply_into_erased s (de_payload ev) (de_occurred_at_ms ev) He) as Hi.
  unfold apply, apply_host_fact, apply_mutation, apply_browser_fact, apply_operation_fact,
    apply_task_created, refusing.
  cbn [ok_or map_err rbind is_none guard rmap]. rewrite matching_erased, next_revision_erased.
  destruct (de_payload ev); try discriminate He; cbn [rmap]; try reflexivity;
    destruct (require_matching_task_id s ev); cbn [map_err rbind rmap]; try reflexivity;
    try (cbn; same_branches; fail); try exact Hi;
    destruct (require_next_revision s ev); cbn [map_err rbind rmap]; try reflexivity;
    rewrite Hi; destruct (apply_into s _ _); reflexivity.
Qed.

(** An event that registers an artifact: the client drops the body it brings. *)
Definition registered_artifact (e : Event) : option ArtifactFacts :=
  match e with
  | EvArtifactRegistered a | EvSpecialistHandoffRecorded _ a _ _ _ => Some a
  | _ => None
  end.

Lemma apply_artifact_erased s ev a s1 s2 :
  registered_artifact (de_payload ev) = Some a ->
  apply (Some s) ev = Ok s1 -> apply (Some (erased s)) ev = Ok s2 ->
  set_artifacts s2 (delete (af_id a) (sn_artifacts s2)) = erased s1.
Proof.
  unfold apply. intros Ha Hx Hy.
  destruct (de_payload ev) eqn:He; try discriminate Ha; injection Ha as ->;
    unfold apply_mutation, refusing in Hx, Hy;
    cbn [ok_or map_err rbind] in Hx, Hy; rewrite matching_erased, next_revision_erased in Hy;
    rewrite He in Hx, Hy; cbn [apply_into] in Hx, Hy; unfold refusing in Hx, Hy;
    (destruct (require_matching_task_id s ev); [|discriminate Hx]); cbn [map_err rbind] in Hx, Hy;
    (destruct (require_next_revision s ev); [|discriminate Hx]); cbn [map_err rbind] in Hx, Hy.
  - unfold apply_handoff_recorded in Hx, Hy.
    destruct (handoff_artifact_ok s _ _ _); [|discriminate Hx].
    destruct (handoff_artifact_ok (erased s) _ _ _); [|discriminate Hy].
    cbn [rbind map_err] in Hx, Hy.
    destruct (is_none (sn_artifacts s !! _)); [|discriminate Hx]. cbn in Hx, Hy.
    unfold live_specialist in Hx, Hy. cbn in Hy. rewrite lookup_empty in Hy. cbn in Hy.
    destruct (sn_agents s !! specialist_id); [|discriminate Hx]. cbn in Hx, Hy.
    destruct (guard _ _); [|discriminate Hx]. cbn in Hx, Hy. simplify_eq. cbn.
    by rewrite delete_insert_eq, delete_empty.
  - unfold apply_artifact_registered in Hx, Hy. cbn in Hy. rewrite lookup_empty in Hy.
    destruct (guard _ _); [|discriminate Hx]. cbn in Hx, Hy.
    destruct (or_invalid _); [|discriminate Hx]. cbn in Hx, Hy.
    destruct (is_none (sn_artifacts s !! _)); [|discriminate Hx]. cbn in Hx, Hy. simplify_eq. cbn.
    by rewrite delete_insert_eq, delete_empty.
Qed.

(** ** The host's tasks *)

(** The tasks of the host after an event: the domain's fold, task by task. *)
Definition host_step (hosts : gmap N TaskSnapshot) (ev : DomainEvent)
    : result (gmap N TaskSnapshot) ApplyFailure :=
  match de_payload ev with
  | EvHostCloseBegun _ _ _ | EvHostCleanupBranchCompleted _ _ _ _ | EvPurged => Ok hosts
  | _ =>
      match de_task_id ev with
      | None => Ok hosts
      | Some t => let? s := apply (hosts !! t) ev in Ok (<[t := s]> hosts)
      end
  end.

Lemma apply_erased_option o ev :
  registers_artifact (de_payload ev) = false ->
  apply (erased <$> o) ev = rmap erased (apply o ev).
Proof.
  intros He. destruct o as [s|]; [by apply apply_erased|]. cbn [fmap option_fmap option_map].
  unfold apply, apply_host_fact, apply_mutation, apply_browser_fact, apply_operation_fact,
    apply_task_created, refusing.
  destruct (de_payload ev); try discriminate He; cbn; same_branches.
Qed.
End Erasure.

(** ** The client in step with the host *)

Section Replica.
Context `{Sha256} `{UrlParser} `{SpecialistJson} `{UnicodeText}.

(** The client holds the host's tasks, less the artifact bodies. *)
Definition in_step (m : ClientModel) (hosts : gmap N TaskSnapshot) : Prop :=
  cm_tasks m = erased <$> hosts.

Definition host_run : gmap N TaskSnapshot -> list DomainEvent -> result (gmap N TaskSnapshot) ApplyFailure :=
  try_fold host_step.

(** The tasks of a model once a staged event is committed. *)
Definition committed_tasks (m : ClientModel) (staged : StagedEventCommit) : gmap N TaskSnapshot :=
  match st_task staged with
  | Some (t, s) => <[t := s]> (cm_tasks m)
  | None => cm_tasks m
  end.

Lemma apply_one_event_Ok m ev m' :
  apply_one_event m ev = Ok m' ->
  exists staged, stage_event m ev = Ok staged /\ cm_last_applied_sequence m < de_sequence ev
    /\ m' = cm_set_sequence (commit_facts (commit_task m ev staged) staged) (de_sequence ev)
    /\ cm_tasks m' = committed_tasks m staged.
Proof.
  unfold apply_one_event. intros Hx. apply rbind_Ok in Hx as (? & Hs%guard_Ok & Hx).
  apply rbind_Ok in Hx as (staged & Hst & Hx). injection Hx as <-. exists staged.
  apply N.ltb_lt in Hs. split_and!; try done.
  unfold commit_facts, commit_task, committed_tasks. by destruct (st_task staged) as [[t s]|].
Qed.

Lemma apply_to_task_in_step m hosts t ev s :
  in_step m hosts -> registers_artifact (de_payload ev) = false ->
  apply_to_task m t ev = Ok s ->
  exists s0, apply (hosts !! t) ev = Ok s0 /\ s = erased s0.
Proof.
  unfold in_step, apply_to_task. intros Hi He Hx. apply map_err_Ok in Hx.
  rewrite Hi, lookup_fmap, apply_erased_option in Hx by done. apply rmap_Ok in Hx as (s0 & ? & ?).
  eauto.
Qed.

(** A staged task agrees with the host's, which took the same event. *)
Lemma staged_in_step m hosts t ev s hosts' :
  in_step m hosts -> registers_artifact (de_payload ev) = false ->
  de_task_id ev = Some t -> apply_to_task m t ev = Ok s ->
  (let? s := apply (hosts !! t) ev in Ok (<[t := s]> hosts)) = Ok hosts' ->
  <[t := s]> (cm_tasks m) = erased <$> hosts'.
Proof.
  intros Hi He Ht Hx Hh. destruct (apply_to_task_in_step _ _ _ _ _ Hi He Hx) as (s0 & Hs0 & ->).
  rewrite Hs0 in Hh. injection Hh as <-. by rewrite fmap_insert, Hi.
Qed.

Definition names_no_task (e : Event) : bool :=
  match e with
  | EvHostCloseBegun _ _ _ | EvHostCleanupBranchCompleted _ _ _ _ | EvPurged => true
  | _ => false
  end.

Lemma host_step_plain hosts ev :
  names_no_task (de_payload ev) = false ->
  host_step hosts ev = match de_task_id ev with
                       | None => Ok hosts
                       | Some t => let? s := apply (hosts !! t) ev in Ok (<[t := s]> hosts)
                       end.
Proof. unfold host_step. by destruct (de_payload ev). Qed.

(** What a staged event does to the tasks. *)
Inductive stages (m : ClientModel) (ev : DomainEvent) (staged : StagedEventCommit) : Prop :=
| stages_nothing :
    st_task staged = None -> names_no_task (de_payload ev) = true \/ de_task_id ev = None ->
    stages m ev staged
| stages_task t s :
    names_no_task (de_payload ev) = false -> registers_artifact (de_payload ev) = false ->
    de_task_id ev = Some t -> apply_to_task m t ev = Ok s -> st_task staged = Some (t, s) ->
    stages m ev staged
| stages_artifact t a s :
    names_no_task (de_payload ev) = false -> registered_artifact (de_payload ev) = Some a ->
    de_task_id ev = Some t -> apply_to_task m t ev = Ok s ->
    st_task staged = Some (t, set_artifacts s (delete (af_id a) (sn_artifacts s))) ->
    stages m ev staged.

Lemma passthrough_stages m ev o :
  stage_task_passthrough m ev = Ok o ->
  match o with
  | None => de_task_id ev = None
  | Some (t, s) => de_task_id ev = Some t /\ apply_to_task m t ev = Ok s
  end.
Proof.
  unfold stage_task_passthrough. destruct (de_task_id ev) as [t|]; [|by intros [= <-]].
  intros Hx. apply rbind_Ok in Hx as (s & Hs & Hx). by injection Hx as <-.
Qed.

Lemma stages_passthrough m ev staged o :
  names_no_task (de_payload ev) = false -> registers_artifact (de_payload ev) = false ->
  stage_task_passthrough m ev = Ok o -> st_task staged = o -> stages m ev staged.
Proof.
  intros Hn Hr Hp Hst. apply passthrough_stages in Hp. destruct o as [[t s]|].
  - destruct Hp. by eapply stages_task.
  - apply stages_nothing; [done|by right].
Qed.

Lemma stage_event_stages m ev staged : stage_event m ev = Ok staged -> stages m ev staged.
Proof.
  unfold stage_event. intros Hx. apply rbind_Ok in Hx as (? & _ & Hx).
  destruct (de_payload ev) eqn:He;
    try (apply rbind_Ok in Hx as (t & Ht%ok_or_Ok & Hx); apply rbind_Ok in Hx as (s & Hs & Hx);
         injection Hx as <-; eapply stages_task; rewrite ?He; done);
    try (injection Hx as <-; apply stages_nothing; [done|left; by rewrite He]);
    try (unfold stage_outcome in Hx; apply rbind_Ok in Hx as (o & Ho & Hx);
         apply rbind_Ok in Hx as (op & _ & Hx); injection Hx as <-;
         eapply stages_passthrough; [by rewrite He..|exact Ho|done]).
  - unfold stage_created in Hx. apply rbind_Ok in Hx as (? & Hn%guard_Ok & Hx).
    apply rbind_Ok in Hx as (s & Hs & Hx). injection Hx as <-.
    eapply (stages_task _ _ _ (tf_id task)); rewrite ?He; try done.
    + apply map_err_Ok in Hs. unfold apply, refusing in Hs. rewrite He in Hs.
      apply map_err_Ok in Hs. unfold apply_task_created in Hs. peel Hs.
      destruct (de_task_id ev); [|done]. cbn in *. by bool_inv; subst.
    + unfold apply_to_task. apply is_none_true in Hn. by rewrite Hn.
  - unfold stage_artifact in Hx. apply rbind_Ok in Hx as (? & _ & Hx).
    apply rbind_Ok in Hx as (t & Ht%ok_or_Ok & Hx). apply rbind_Ok in Hx as (s & Hs & Hx).
    apply rbind_Ok in Hx as (sm & _ & Hx). injection Hx as <-.
    eapply stages_artifact; rewrite ?He; done.
  - unfold stage_artifact in Hx. apply rbind_Ok in Hx as (? & _ & Hx).
    apply rbind_Ok in Hx as (t & Ht%ok_or_Ok & Hx). apply rbind_Ok in Hx as (s & Hs & Hx).
    apply rbind_Ok in Hx as (sm & _ & Hx). injection Hx as <-.
    eapply stages_artifact; rewrite ?He; done.
Qed.

Lemma stage_event_in_step m ev staged hosts hosts' :
  in_step m hosts -> stage_event m ev = Ok staged -> host_step hosts ev = Ok hosts' ->
  committed_tasks m staged = erased <$> hosts'.
Proof.
  intros Hi Hx Hh. unfold committed_tasks. apply stage_event_stages in Hx.
  destruct Hx as [Hst Hn|t s Hn Hr Ht Hs Hst|t a s Hn Ha Ht Hs Hst]; rewrite Hst.
  - destruct (names_no_task (de_payload ev)) eqn:E.
    + unfold host_step in Hh. destruct (de_payload ev); try discriminate E; by simplify_eq.
    + rewrite host_step_plain in Hh by done. destruct Hn as [?|Hn]; [done|]. rewrite Hn in Hh.
      by simplify_eq.
  - rewrite host_step_plain, Ht in Hh by done. by eapply staged_in_step.
  - rewrite host_step_plain, Ht in Hh by done. apply rbind_Ok in Hh as (s1 & Hs1 & Hh).
    injection Hh as <-. unfold apply_to_task in Hs. apply map_err_Ok in Hs.
    unfold in_step in Hi. rewrite Hi, lookup_fmap in Hs. rewrite fmap_insert, Hi. f_equal.
    destruct (hosts !! t) as [s0|].
    + exact (apply_artifact_erased s0 ev a s1 s Ha Hs1 Hs).
    + exfalso. unfold apply, apply_mutation in Hs1.
      destruct (de_payload ev); try discriminate Ha; cbn in Hs1; discriminate.
Qed.

Lemma apply_one_event_in_step m ev m' hosts hosts' :
  in_step m hosts -> apply_one_event m ev = Ok m' -> host_step hosts ev = Ok hosts' ->
  in_step m' hosts'.
Proof.
  intros Hi Hx Hh. destruct (apply_one_event_Ok _ _ _ Hx) as (staged & Hst & _ & _ & Ht).
  unfold in_step. rewrite Ht. by eapply stage_event_in_step.
Qed.

Lemma apply_page_events_in_step events : forall m m' hosts hosts' after through,
  in_step m hosts -> apply_page_events m after through events = Ok m' ->
  host_run hosts events = Ok hosts' -> in_step m' hosts'.
Proof.
  unfold host_run.
  induction events as [|ev events IH]; intros m m' hosts hosts' after through Hi Hx Hh; simpl in *.
  - by simplify_eq.
  - apply rbind_Ok in Hx as (? & _ & Hx). apply rbind_Ok in Hx as (m1 & H1' & Hx).
    apply rbind_Ok in Hh as (h1 & Hh1 & Hh).
    eapply IH; [|exact Hx|exact Hh]. by eapply apply_one_event_in_step.
Qed.

(** *** Replay pages *)

Definition client_pages (m : ClientModel) (pages : list EventPage)
    : result ClientModel ClientModelError := try_fold apply_replay_page_inner m pages.

Definition page_events (pages : list EventPage) : list DomainEvent := pages ≫= ep_events.

(** The facts of a model that replay bookkeeping leaves alone. *)
Definition same_facts (m m' : ClientModel) : Prop :=
  cm_tasks m' = cm_tasks m /\ cm_operations m' = cm_operations m
  /\ cm_task_projection_index m' = cm_task_projection_index m.

Lemma apply_page_events_frame events : forall m m' after through,
  apply_page_events m after through events = Ok m' ->
  cm_replay_page_count m' = cm_replay_page_count m /\ cm_replay_through m' = cm_replay_through m
  /\ cm_replay_cursors m' = cm_replay_cursors m.
Proof.
  induction events as [|ev events IH]; intros m m' after through Hx; simpl in Hx.
  - by injection Hx as <-.
  - apply rbind_Ok in Hx as (? & _ & Hx). apply rbind_Ok in Hx as (m1 & Hm1 & Hx).
    apply IH in Hx as (-> & -> & ->).
    destruct (apply_one_event_Ok _ _ _ Hm1) as (staged & _ & _ & -> & _).
    unfold commit_facts, commit_task. by destruct (st_task staged) as [[t s]|].
Qed.

(** A page the client accepts: its events from the start of the page, and the
    bookkeeping at its end. *)
Lemma replay_page_Ok m page m' :
  apply_replay_page_inner m page = Ok m' ->
  exists m0 m1, same_facts m m0
    /\ apply_page_events m0 (ep_after_sequence page) (ep_through_sequence page) (ep_events page) = Ok m1
    /\ cm_replay_page_count m0 = cm_replay_page_count m + 1
    /\ cm_replay_page_count m0 <= MAX_CLIENT_REPLAY_PAGES
    /\ m' = (if is_none (ep_next_cursor page)
             then cm_set_replay (cm_set_sequence m1 (ep_through_sequence page)) None 0 ∅ else m1).
Proof.
  unfold apply_replay_page_inner. intros Hx.
  apply rbind_Ok in Hx as (? & _ & Hx). apply rbind_Ok in Hx as (? & _ & Hx).
  apply rbind_Ok in Hx as (? & _ & Hx). apply rbind_Ok in Hx as (? & _ & Hx).
  apply rbind_Ok in Hx as (ma & Hma & Hx). apply rbind_Ok in Hx as (pc & Hpc & Hx).
  apply rbind_Ok in Hx as (? & Hb%guard_Ok & Hx). apply rbind_Ok in Hx as (m1 & Hm1 & Hx).
  exists (cm_set_replay ma (cm_replay_through ma) pc (cm_replay_cursors ma)), m1.
  apply ok_or_Ok, checked_add_Some in Hpc as [-> _]. apply N.leb_le in Hb.
  assert (same_facts m ma /\ cm_replay_page_count ma = cm_replay_page_count m) as [Hs Hp].
  { destruct (ep_next_cursor page); [|by injection Hma as <-].
    apply rbind_Ok in Hma as (? & _ & Hma). by injection Hma as <-. }
  rewrite Hp in *. split_and!; try done.
  destruct (ep_next_cursor page); cbn in *; [by injection Hx as <-|].
  apply rbind_Ok in Hx as (? & _ & Hx). by injection Hx as <-.
Qed.

Lemma replay_page_in_step m page m' hosts hosts' :
  in_step m hosts -> apply_replay_page_inner m page = Ok m' ->
  host_run hosts (ep_events page) = Ok hosts' -> in_step m' hosts'.
Proof.
  intros Hi Hx Hh. apply replay_page_Ok in Hx as (m0 & m1 & (Ht & _) & Hp & _ & _ & ->).
  assert (in_step m0 hosts) as Hi0 by (unfold in_step; by rewrite Ht).
  pose proof (apply_page_events_in_step _ _ _ _ _ _ _ Hi0 Hp Hh). by destruct (is_none _).
Qed.

Lemma client_pages_in_step pages : forall m m' hosts hosts',
  in_step m hosts -> client_pages m pages = Ok m' ->
  host_run hosts (page_events pages) = Ok hosts' -> in_step m' hosts'.
Proof.
  unfold client_pages, host_run, page_events.
  induction pages as [|page pages IH]; intros m m' hosts hosts' Hi Hx Hh; simpl in *.
  - by simplify_eq.
  - apply rbind_Ok in Hx as (m1 & Hm1 & Hx). apply try_fold_app in Hh as (h1 & Hh1 & Hh).
    eapply IH; [|exact Hx|exact Hh]. by eapply replay_page_in_step.
Qed.

(** A replay that keeps returning a cursor ends within its bound of pages. *)
Lemma client_pages_bounded pages : forall m m',
  client_pages m pages = Ok m' -> Forall (fun p => is_none (ep_next_cursor p) = false) pages ->
  cm_replay_page_count m <= MAX_CLIENT_REPLAY_PAGES ->
  cm_replay_page_count m + count pages <= MAX_CLIENT_REPLAY_PAGES.
Proof.
  unfold client_pages. induction pages as [|page pages IH]; intros m m' Hx Hc Hm; simpl in *.
  - rewrite count_nil. lia.
  - apply Forall_cons in Hc as [Hc Hcs]. apply rbind_Ok in Hx as (m1 & Hm1 & Hx).
    apply replay_page_Ok in Hm1 as (m0 & m2 & _ & Hp & Hpc & Hb & ->). rewrite Hc in Hx.
    apply apply_page_events_frame in Hp as (Hp & _).
    specialize (IH _ _ Hx Hcs ltac:(lia)). rewrite count_cons. lia.
Qed.

(** Events the client takes from the domain alone. *)
Definition plain_event (e : Event) : bool :=
  negb (names_no_task e) && negb (registers_artifact e)
  && match e with
     | EvOperationAccepted _ | EvOperationSettled _ | EvOperationFailed _ | EvOperationCancelled _
     | EvOperationUncertain _ => false
     | _ => true
     end.

(** The client accepts every plain event the host accepted. *)
Lemma plain_event_accepted m hosts ev t s :
  in_step m hosts -> plain_event (de_payload ev) = true -> de_task_id ev = Some t ->
  cm_last_applied_sequence m < de_sequence ev -> apply (hosts !! t) ev = Ok s ->
  exists m', apply_event m ev = Ok m' /\ in_step m' (<[t := s]> hosts).
Proof.
  intros Hi Hp Ht Hs Ha.
  assert (names_no_task (de_payload ev) = false /\ registers_artifact (de_payload ev) = false) as [Hn Hr].
  { unfold plain_event in Hp. by destruct (names_no_task _), (registers_artifact _). }
  assert (apply_to_task m t ev = Ok (erased s)) as Hat.
  { unfold apply_to_task. unfold in_step in Hi. rewrite Hi, lookup_fmap, apply_erased_option by done.
    by rewrite Ha. }
  assert (exists staged, stage_event m ev = Ok staged) as [staged Hst].
  { unfold stage_event, require_operation_envelope_timestamp.
    destruct (de_payload ev) eqn:He; try discriminate Hp; cbn [is_none_or guard rbind];
      try (rewrite Ht; cbn [ok_or rbind]; rewrite Hat; cbn [rbind]; by eexists).
    unfold stage_created. unfold apply in Ha. rewrite He in Ha. unfold refusing in Ha.
    apply map_err_Ok in Ha. unfold apply_task_created in Ha.
    apply rbind_Ok in Ha as (? & Hnone%guard_Ok & Ha). apply rbind_Ok in Ha as (? & Htt%guard_Ok & Ha).
    rewrite Ht in Htt. cbn in Htt. apply N.eqb_eq in Htt as ->.
    unfold in_step in Hi. rewrite Hi, lookup_fmap. apply is_none_true in Hnone.
    unfold apply_to_task in Hat. rewrite Hi, lookup_fmap, Hnone in Hat. rewrite Hnone. cbn in *.
    rewrite Hat. cbn. by eexists. }
  unfold apply_event. destruct (apply_one_event m ev) as [m'|] eqn:Hx.
  - exists m'. split; [done|]. eapply apply_one_event_in_step; [done|exact Hx|].
    rewrite host_step_plain, Ht, Ha by done. done.
  - unfold apply_one_event in Hx. rewrite (proj2 (N.ltb_lt _ _) Hs) in Hx. cbn in Hx.
    by rewrite Hst in Hx.
Qed.

(** *** Operations *)

(** The life of an operation as its outcomes are observed. *)
Inductive op_step : OperationState -> OperationState -> Prop :=
| op_settles at_ms ids : op_step OpAccepted (OpSettled at_ms ids)
| op_fails at_ms code : op_step OpAccepted (OpFailed at_ms code)
| op_is_cancelled at_ms reason : op_step OpAccepted (OpCancelled at_ms reason)
| op_turns_uncertain at_ms code : op_step OpAccepted (OpUncertain at_ms code)
| op_verified_settled seen code at_ms ids :
    (seen <= at_ms)%Z -> op_step (OpUncertain seen code) (OpSettled at_ms ids)
| op_verified_failed seen code at_ms code' :
    (seen <= at_ms)%Z -> op_step (OpUncertain seen code) (OpFailed at_ms code').

Definition op_final (s : OperationState) : bool :=
  match s with OpSettled _ _ | OpFailed _ _ | OpCancelled _ _ => true | _ => false end.

(** From one record of an operation to a later one. *)
Definition op_evolves (o o' : option OperationFacts) : Prop :=
  match o, o' with
  | Some f, Some f' =>
      opf_id f' = opf_id f /\ opf_command_id f' = opf_command_id f
      /\ opf_task_id f' = opf_task_id f /\ opf_accepted_at_ms f' = opf_accepted_at_ms f
      /\ rtc op_step (opf_state f) (opf_state f')
  | None, Some f' => rtc op_step OpAccepted (opf_state f')
  | None, None => True
  | Some _, None => False
  end.

#[export] Instance op_evolves_po : PreOrder op_evolves.
Proof.
  split.
  - intros [f|]; [|done]. by split_and!.
  - intros [f|] [g|] [h|]; simpl; try done; [|by intros Hr (_ & _ & _ & _ & ?); etrans].
    intros (? & ? & ? & ? & ?) (? & ? & ? & ? & ?). split_and!; try congruence. by etrans.
Qed.

(** The instant a state carries. *)
Definition state_at (s : OperationState) (at_ms : Z) : Prop :=
  match s with
  | OpSettled u _ | OpFailed u _ | OpCancelled u _ | OpUncertain u _ => u = at_ms
  | OpAccepted => True
  end.

Lemma outcome_follows_step state source next at_ms :
  outcome_follows state source next at_ms = true ->
  state_at next at_ms ->
  op_step state next.
Proof.
  intros Hf Ht. destruct state; destruct source as [[|i e]|]; destruct next; try discriminate Hf;
    cbn in Hf; try constructor; apply Z.leb_le in Hf; cbn in Ht; by subst.
Qed.

Lemma stage_operation_outcome_step m id cmd task at_ms source next id' f :
  stage_operation_outcome m id cmd task at_ms source next = Ok (id', f) ->
  state_at next at_ms ->
  id' = id /\ op_evolves (cm_operations m !! id) (Some f).
Proof.
  unfold stage_operation_outcome. intros Hx Hn. apply rbind_Ok in Hx as (f0 & Hf0%ok_or_Ok & Hx).
  apply rbind_Ok in Hx as (? & _ & Hx). apply rbind_Ok in Hx as (? & _ & Hx).
  apply rbind_Ok in Hx as (? & Ho%guard_Ok & Hx). injection Hx as <- <-. split; [done|].
  rewrite Hf0. cbn. split_and!; try done. apply rtc_once. by eapply outcome_follows_step.
Qed.

Definition staged_evolves (m : ClientModel) (staged : StagedEventCommit) : Prop :=
  match st_operation staged with
  | Some (i, f) => op_evolves (cm_operations m !! i) (Some f)
  | None => True
  end.

Lemma stage_outcome_evolves m ev id cmd at_ms source next staged :
  stage_outcome m ev id cmd at_ms source next = Ok staged -> state_at next at_ms ->
  staged_evolves m staged.
Proof.
  unfold stage_outcome. intros Hx Hn. apply rbind_Ok in Hx as (o & _ & Hx).
  apply rbind_Ok in Hx as ([i f] & Ho & Hx). injection Hx as <-. cbn.
  by apply stage_operation_outcome_step in Ho as [-> ?].
Qed.

Lemma apply_one_event_operations m ev m' :
  apply_one_event m ev = Ok m' ->
  forall id, op_evolves (cm_operations m !! id) (cm_operations m' !! id).
Proof.
  intros Hx. destruct (apply_one_event_Ok _ _ _ Hx) as (staged & Hst & _ & -> & _). intros id.
  assert (cm_operations (cm_set_sequence (commit_facts (commit_task m ev staged) staged) (de_sequence ev))
          = match st_operation staged with
            | Some (i, f) => <[i := f]> (cm_operations m)
            | None => cm_operations m
            end) as ->.
  { cbn. unfold commit_task. by destruct (st_task staged) as [[t s]|]. }
  assert (staged_evolves m staged) as Hev.
  { unfold stage_event in Hst. apply rbind_Ok in Hst as (? & _ & Hst).
    destruct (de_payload ev);
      try (apply rbind_Ok in Hst as (t & _ & Hst); apply rbind_Ok in Hst as (s & _ & Hst);
           by injection Hst as <-);
      try (by injection Hst as <-);
      try (by eapply stage_outcome_evolves; [exact Hst|]).
    - unfold stage_artifact in Hst. apply rbind_Ok in Hst as (? & _ & Hst).
      apply rbind_Ok in Hst as (? & _ & Hst). apply rbind_Ok in Hst as (? & _ & Hst).
      apply rbind_Ok in Hst as (? & _ & Hst). by injection Hst as <-.
    - unfold stage_artifact in Hst. apply rbind_Ok in Hst as (? & _ & Hst).
      apply rbind_Ok in Hst as (? & _ & Hst). apply rbind_Ok in Hst as (? & _ & Hst).
      apply rbind_Ok in Hst as (? & _ & Hst). by injection Hst as <-.
    - unfold stage_accepted in Hst. apply rbind_Ok in Hst as (? & _ & Hst).
      apply rbind_Ok in Hst as (? & Hn%guard_Ok & Hst). injection Hst as <-. unfold staged_evolves. cbn.
      apply is_none_true in Hn. rewrite Hn. apply rtc_refl. }
  unfold staged_evolves in Hev. destruct (st_operation staged) as [[i f]|]; [|done].
  destruct (decide (i = id)) as [->|Hne]; [by rewrite lookup_insert_eq|by rewrite lookup_insert_ne].
Qed.

Lemma op_final_stuck s s' : op_final s = true -> rtc op_step s s' -> s' = s.
Proof. intros Hf Hr. destruct Hr as [|s1 s2 s3 Hs _]; [done|]. by destruct Hs. Qed.

Definition client_events (m : ClientModel) (evs : list DomainEvent)
    : result ClientModel ClientModelError := try_fold apply_event m evs.

Lemma client_events_operations m evs m' :
  client_events m evs = Ok m' ->
  forall id, op_evolves (cm_operations m !! id) (cm_operations m' !! id).
Proof.
  intros Hx id. revert Hx. unfold client_events.
  apply (try_fold_ind apply_event
           (fun _ m' => op_evolves (cm_operations m !! id) (cm_operations m' !! id))); [done|].
  intros _ ev m1 m2 Hm Hev. etrans; [exact Hm|]. by apply (apply_one_event_operations _ ev).
Qed.
End Replica.

(** ** The properties *)

Section Properties.
Context `{Sha256} `{UrlParser} `{SpecialistJson} `{UnicodeText}.

(** C4: A client in step with the host stays in step: replaying pages of the host's events through
    [apply_replay_page] gives exactly the tasks the host's own fold over the same events gives,
    less the artifact bodies the client drops, and so does any single event that both accept. An event
    the domain accepts is accepted by the client too and keeps it in step, unless it registers an artifact or reports on an operation,
    which the client checks against its own records and may refuse, or speaks of the host alone. A replay whose pages keep promising more ends within the bound of pages. *)
Theorem client_tracks_host m hosts :
  in_step m hosts -> cm_replay_page_count m <= MAX_CLIENT_REPLAY_PAGES ->
  (forall pages m' hosts', client_pages m pages = Ok m' ->
     host_run hosts (page_events pages) = Ok hosts' -> in_step m' hosts')
  /\ (forall ev m' hosts', apply_event m ev = Ok m' -> host_step hosts ev = Ok hosts' -> in_step m' hosts')
  /\ (forall ev t s, plain_event (de_payload ev) = true -> de_task_id ev = Some t ->
        cm_last_applied_sequence m < de_sequence ev -> apply (hosts !! t) ev = Ok s ->
        exists m', apply_event m ev = Ok m' /\ in_step m' (<[t := s]> hosts))
  /\ (forall pages m', client_pages m pages = Ok m' ->
        Forall (fun p => is_none (ep_next_cursor p) = false) pages ->
        cm_replay_page_count m + count pages <= MAX_CLIENT_REPLAY_PAGES).
Proof.
  intros Hi Hc. split_and!.
  - intros. by eapply client_pages_in_step.
  - intros. by eapply apply_one_event_in_step.
  - intros. by apply plain_event_accepted.
  - intros. by eapply client_pages_bounded.
Qed.

(** However a client observes events, the record of an operation only moves along
    accepted -> settled, failed, cancelled or uncertain, and uncertain -> settled or failed no
    earlier than it was observed uncertain; its id, command, task and acceptance time never
    change, it is never forgotten, and a settled, failed or cancelled operation keeps its outcome
    for good. *)
Theorem operation_states_monotone m evs m' id :
  client_events m evs = Ok m' ->
  op_evolves (cm_operations m !! id) (cm_operations m' !! id)
  /\ (forall f, cm_operations m !! id = Some f -> op_final (opf_state f) = true ->
        cm_operations m' !! id = Some f).
Proof.
  intros Hx. pose proof (client_events_operations _ _ _ Hx id) as He. split; [done|].
  intros f Hf Hfin. rewrite Hf in He. destruct (cm_operations m' !! id) as [f'|]; [|done].
  destruct He as (? & ? & ? & ? & Hr). apply op_final_stuck in Hr; [|done]. f_equal.
  destruct f, f'. cbn in *. congruence.
Qed.
End Properties.

#[local] Existing Instance toy_sha.
#[local] Existing Instance toy_urls.
#[local] Existing Instance toy_json.
#[local] Existing Instance toy_unicode.

Definition sample_replay : list EventPage :=
  [ {| ep_after_sequence := 0; ep_through_sequence := 2;
       ep_events := [sample_created_event; stamped (Some 2) (EvAgentSessionRegistered sample_agent)];
       ep_next_cursor := None |} ].

Definition replayed_model : ClientModel := ok_of (client_pages empty_model sample_replay) empty_model.
Definition replayed_hosts : gmap N TaskSnapshot := ok_of (host_run ∅ (page_events sample_replay)) ∅.

Lemma client_tracks_host_witness :
  client_pages empty_model sample_replay = Ok replayed_model
  /\ is_some (replayed_hosts !! 1) = true /\ in_step replayed_model replayed_hosts.
Proof.
  destruct (client_tracks_host empty_model ∅ ltac:(by vm_compute) ltac:(by vm_compute)) as [Ht _].
  split; [by vm_compute|]. split; [by vm_compute|].
  apply (Ht sample_replay); by vm_compute.
Defined.

(** An operation accepted, found uncertain and settled by reconciliation. *)
Definition on_operation (sequence : N) (at_ms : Z) (e : Event) : DomainEvent :=
  {| de_id := 950; de_task_id := None; de_sequence := sequence; de_task_revision := None;
     de_occurred_at_ms := at_ms; de_payload := e |}.

Definition sample_outcomes : list DomainEvent :=
  [ on_operation 1 4%Z (EvOperationAccepted
      {| oa_command_id := 301; oa_operation_id := 300; oa_accepted_at_ms := 4%Z;
         oa_action_epoch := None; oa_resource_id := None; oa_runtime_generation := None |});
    on_operation 2 6%Z (EvOperationUncertain
      {| ou_command_id := 301; ou_operation_id := 300; ou_observed_at_ms := 6%Z;
         ou_code := AmbiguousDispatch; ou_action_epoch := None; ou_resource_id := None;
         ou_runtime_generation := None |});
    on_operation 3 8%Z (EvOperationSettled
      {| os_command_id := 301; os_operation_id := 300; os_settled_at_ms := 8%Z;
         os_result_event_ids := [901]; os_action_epoch := None; os_resource_id := None;
         os_runtime_generation := None;
         os_source := SourceVerifiedReconciliation 0 (lit "ext") |}) ].

Definition uncertain_model : ClientModel :=
  ok_of (client_events empty_model (take 2 sample_outcomes)) empty_model.
Definition settled_model : ClientModel :=
  ok_of (client_events empty_model sample_outcomes) empty_model.

Lemma operation_states_monotone_witness :
  option_map opf_state (cm_operations uncertain_model !! 300) = Some (OpUncertain 6 AmbiguousDispatch)
  /\ option_map opf_state (cm_operations settled_model !! 300) = Some (OpSettled 8 [901])
  /\ op_evolves (cm_operations uncertain_model !! 300) (cm_operations settled_model !! 300).
Proof.
  pose proof (operation_states_monotone uncertain_model (drop 2 sample_outcomes) settled_model 300
                ltac:(by vm_compute)) as [He _].
  split; [by vm_compute|]. split; [by vm_compute|exact He].
Defined.
