(* ===== verification/Inbox.v ===== *)
(** The task inbox of the client: whatever happens to its read model, the index
    it displays is the one of the tasks it holds. *)
From S2P Require Import Prelude Order Canonical Task Agent Resource Artifact ProviderInput Browser Operation Snapshot Event Pages Sample ProjectionIndex Client Assembly Invariant Replica.

Section Inbox.
Context `{Sha256} `{UrlParser} `{SpecialistJson} `{UnicodeText}.

(** What is done to a client model once it is assembled; a refused event, page or
    detail leaves it as it was. *)
Inductive client_op :=
| CoEvent (event : DomainEvent)
| CoReplay (page : EventPage)
| CoDetail (task_id : TaskId) (pages : list SnapshotPage)
| CoInvalidate (task_id : TaskId).

Definition client_do (m : ClientModel) (op : client_op) : ClientModel :=
  match op with
  | CoEvent event => match apply_event m event with Ok m' => m' | Err _ => m end
  | CoReplay page => fst (apply_replay_page m page)
  | CoDetail task_id pages => fst (admit_task_detail_pages m task_id pages)
  | CoInvalidate task_id => invalidate_task_detail m task_id
  end.

Definition on_shelf (sh : shelf) (s : TaskSnapshot) : Prop :=
  shelf_of (tf_lifecycle (sn_task s)) = Some sh.

#[export] Instance on_shelf_dec sh s : base.Decision (on_shelf sh s).
Proof. unfold on_shelf. apply _. Defined.

(** The entries of the index are those of the tasks. *)
Definition entry_current (o : option TaskSnapshot) (e : option TaskProjectionEntry) : Prop :=
  match o, e with
  | Some s, Some e => e = entry_from_snapshot s (pe_occurred_at_ms e)
  | None, None => True
  | _, _ => False
  end.

Record inbox_ok (tasks : gmap N TaskSnapshot) (x : TaskProjectionIndex) : Prop := {
  io_keyed : forall t s, tasks !! t = Some s -> tf_id (sn_task s) = t;
  io_entries : forall t, entry_current (tasks !! t) (ix_entries x !! t);
  io_index : index_ok x;
}.

Definition model_ok (m : ClientModel) : Prop := inbox_ok (cm_tasks m) (cm_task_projection_index m).

(** ** Each operation keeps the index current *)

Lemma update_task_inbox tasks x t s at_ms :
  inbox_ok tasks x -> tf_id (sn_task s) = t -> inbox_ok (<[t := s]> tasks) (update_task x s at_ms).
Proof.
  intros [Hk He Hi] <-. destruct (update_task_ok x s at_ms Hi) as [Hi' Hent]. split.
  - intros t s'. rewrite lookup_insert_dec. destruct (decide _) as [->|]; [by intros [= <-]|apply Hk].
  - intros t. rewrite Hent, !lookup_insert_dec. destruct (decide _) as [->|]; [done|apply He].
  - exact Hi'.
Qed.

Lemma set_revision_inbox tasks x revision :
  inbox_ok tasks x -> inbox_ok tasks (index_set_revision x revision).
Proof. by intros [Hk He Hi]. Qed.

Lemma from_tasks_inbox tasks revision :
  (forall t s, tasks !! t = Some s -> tf_id (sn_task s) = t) -> inbox_ok tasks (from_tasks tasks revision).
Proof.
  intros Hk. destruct (from_tasks_ok tasks revision) as [Hi He]. split; [done| |done].
  intros t. rewrite He, lookup_fmap. by destruct (tasks !! t).
Qed.

(** Whatever event the domain applies, the task keeps its id. *)
Lemma apply_keeps_id o ev s t :
  apply o ev = Ok s -> de_task_id ev = Some t -> tf_id (sn_task s) = t.
Proof.
  intros Ha Ht. destruct o as [s0|].
  - apply apply_Some_applied in Ha as [Ha Hid]. apply applied_task in Ha as (Hf & _).
    unfold task_frame in Hf. destruct Hf as (Hf & _). congruence.
  - unfold apply in Ha. destruct (de_payload ev);
      try (unfold apply_mutation, apply_browser_fact, apply_operation_fact, apply_host_fact,
             refusing in Ha; cbn in Ha; discriminate Ha).
    unfold refusing in Ha. apply map_err_Ok in Ha. unfold apply_task_created in Ha.
    apply rbind_Ok in Ha as (? & _ & Ha). apply rbind_Ok in Ha as (? & Hid%guard_Ok & Ha).
    apply rbind_Ok in Ha as (? & _ & Ha). apply rbind_Ok in Ha as (? & _ & Ha).
    apply rbind_Ok in Ha as (b & _ & Ha). injection Ha as <-. rewrite Ht in Hid. cbn in *.
    symmetry. by apply N.eqb_eq.
Qed.

Lemma staged_id m ev staged t s :
  stage_event m ev = Ok staged -> st_task staged = Some (t, s) -> tf_id (sn_task s) = t.
Proof.
  intros Hs%stage_event_stages Ht. destruct Hs as [Hn _|u s' _ _ Hu Ha Hst|u a s' _ _ Hu Ha Hst];
    rewrite Ht in *; [done|..]; injection Hst as -> ->; apply map_err_Ok in Ha.
  - by eapply apply_keeps_id.
  - cbn. by eapply apply_keeps_id.
Qed.

Lemma apply_one_event_inbox m ev m' : model_ok m -> apply_one_event m ev = Ok m' -> model_ok m'.
Proof.
  intros Hm Hx. destruct (apply_one_event_Ok _ _ _ Hx) as (staged & Hst & _ & -> & _).
  unfold model_ok, commit_facts, commit_task. destruct (st_task staged) as [[t s]|] eqn:Ht; cbn.
  - apply set_revision_inbox, update_task_inbox; [done|by eapply staged_id].
  - by apply set_revision_inbox.
Qed.

Lemma apply_page_events_inbox events : forall m after through m',
  model_ok m -> apply_page_events m after through events = Ok m' -> model_ok m'.
Proof.
  induction events as [|ev events IH]; intros m after through m' Hm Hx; simpl in Hx.
  - by injection Hx as <-.
  - apply rbind_Ok in Hx as (? & _ & Hx). apply rbind_Ok in Hx as (m1 & Hm1 & Hx).
    eapply IH; [|exact Hx]. by eapply apply_one_event_inbox.
Qed.

Lemma replay_page_inbox m page m' :
  model_ok m -> apply_replay_page_inner m page = Ok m' -> model_ok m'.
Proof.
  intros Hm Hx. apply replay_page_Ok in Hx as (m0 & m1 & (Ht & _ & Hi) & Hp & _ & _ & ->).
  assert (model_ok m0) as Hm0 by (unfold model_ok; by rewrite Ht, Hi).
  apply apply_page_events_inbox in Hp; [|done].
  destruct (is_none _); [|done]. by apply set_revision_inbox.
Qed.

Lemma clear_detail_task s t browser s' : clear_detail s t browser = Ok s' -> sn_task s' = sn_task s.
Proof.
  unfold clear_detail. destruct browser; [|by intros [= <-]].
  intros Hx. apply rbind_Ok in Hx as (b & _ & Hx). by injection Hx as <-.
Qed.

Lemma admit_detail_item_task t section s sums item s' sums' :
  admit_detail_item t section s sums item = Ok (s', sums') -> sn_task s' = sn_task s.
Proof.
  unfold admit_detail_item. intros Hx. destruct section, item; try discriminate Hx; peel Hx; by simplify_eq.
Qed.

Lemma admit_detail_items_task t items : forall s sums s' sums',
  admit_detail_items t s sums items = Ok (s', sums') -> sn_task s' = sn_task s.
Proof.
  induction items as [|[section item] items IH]; intros s sums s' sums' Hx; simpl in Hx.
  - by injection Hx as <- _.
  - apply rbind_Ok in Hx as ([s1 sums1] & H1' & Hx). apply IH in Hx. cbn in Hx. rewrite Hx.
    by eapply admit_detail_item_task.
Qed.

Lemma detail_inbox m t pages m' :
  model_ok m -> admit_task_detail_pages_inner m t pages = Ok m' -> model_ok m'.
Proof.
  intros Hm Hx. unfold admit_task_detail_pages_inner in Hx.
  apply rbind_Ok in Hx as (s & Hs%ok_or_Ok & Hx). apply rbind_Ok in Hx as (? & _ & Hx).
  apply rbind_Ok in Hx as (s1 & Hs1%clear_detail_task & Hx).
  apply rbind_Ok in Hx as ([s2 sums] & Hs2%admit_detail_items_task & Hx).
  apply rbind_Ok in Hx as (? & _ & Hx). injection Hx as <-. unfold model_ok. cbn.
  apply update_task_inbox; [done|]. rewrite Hs2, Hs1. by apply (io_keyed _ _ Hm).
Qed.

Lemma client_do_ok m op : model_ok m -> model_ok (client_do m op).
Proof.
  intros Hm. destruct op as [ev|page|t pages|t]; cbn [client_do].
  - unfold apply_event. destruct (apply_one_event m ev) eqn:E; [|done]. by eapply apply_one_event_inbox.
  - unfold apply_replay_page. destruct (apply_replay_page_inner m page) eqn:E; [|done].
    by eapply replay_page_inbox.
  - unfold admit_task_detail_pages. destruct (admit_task_detail_pages_inner m t pages) eqn:E; [|done].
    by eapply detail_inbox.
  - exact Hm.
Qed.

Lemma client_run_ok ops : forall m, model_ok m -> model_ok (foldl client_do m ops).
Proof. induction ops as [|op ops IH]; intros m Hm; [done|]. cbn. by apply IH, client_do_ok. Qed.

Lemma assembled_inbox items m : assembled items m -> model_ok m.
Proof.
  intros Ha. unfold model_ok. rewrite (am_index _ _ Ha). apply from_tasks_inbox. intros t s Hs.
  destruct (am_tasks _ _ Ha t s Hs) as (i & <- & Hi). pose proof (ta_bare _ _ _ Hi) as Hb.
  apply (f_equal sn_task) in Hb. cbn in Hb. by rewrite Hb.
Qed.
End Inbox.

(** ** What the inbox shows *)

Section Shown.
Context `{Sha256} `{UrlParser} `{SpecialistJson} `{UnicodeText}.

Definition shelf_ids (m : ClientModel) (sh : shelf) : list TaskId :=
  map ok_task_id (shelf_order (cm_task_projection_index m) sh).

(** The tasks of the model that belong on a shelf. *)
Definition shelf_tasks (m : ClientModel) (sh : shelf) : gmap N TaskSnapshot :=
  filter (fun ts => on_shelf sh (snd ts)) (cm_tasks m).

Lemma increasing_NoDup l : increasing key_cmp l -> NoDup l.
Proof.
  induction 1 as [|k l Hl IH Hk]; [constructor|]. apply NoDup_cons. split; [|done].
  intros Hin. rewrite Forall_forall in Hk. specialize (Hk _ Hin). by rewrite (proj2 (cmp_eq (cmp := key_cmp) k k)) in Hk.
Qed.

Lemma shelf_ids_NoDup x sh : index_ok x -> NoDup (map ok_task_id (shelf_order x sh)).
Proof.
  intros Hx. destruct (Hx sh) as [Hi Hm]. apply NoDup_fmap_2_strong; [|by apply increasing_NoDup].
  intros k k' (e & He & -> & _)%Hm (e' & He' & -> & _)%Hm Hid. cbn in *. congruence.
Qed.

Lemma elem_of_shelf_ids m sh t :
  model_ok m -> t ∈ shelf_ids m sh <-> is_Some (shelf_tasks m sh !! t).
Proof.
  intros [Hk He Hi]. unfold shelf_ids, shelf_tasks. destruct (Hi sh) as [_ Hm]. specialize (He t).
  rewrite list_elem_of_fmap. split.
  - intros (k & -> & (e & Hke & _ & Hsh)%Hm). rewrite Hke in He.
    destruct (cm_tasks m !! ok_task_id k) as [s|] eqn:Hs; [|done]. cbn in He. exists s.
    apply map_lookup_filter_Some. split; [done|]. rewrite He in Hsh. exact Hsh.
  - intros [s (Hs & Hsh)%map_lookup_filter_Some]. rewrite Hs in He.
    destruct (ix_entries _ !! t) as [e|] eqn:Hent; [|done]. cbn in He.
    exists (order_key_new t e). split; [done|]. apply Hm. exists e. split_and!; [done|done|].
    rewrite He. exact Hsh.
Qed.

Lemma shelf_ids_perm m sh : model_ok m -> shelf_ids m sh ≡ₚ elements (dom (shelf_tasks m sh)).
Proof.
  intros Hm. apply NoDup_Permutation; [apply shelf_ids_NoDup, (io_index _ _ Hm)|apply NoDup_elements|].
  intros t. rewrite elem_of_elements, elem_of_dom. by apply elem_of_shelf_ids.
Qed.

(** The key under which a task is filed. *)
Definition task_key (s : TaskSnapshot) (at_ms : Z) : TaskOrderKey :=
  order_key_new (tf_id (sn_task s)) (entry_from_snapshot s at_ms).

(** Whatever events, replay pages and details a client takes after its snapshot is assembled,
    accepted or refused, its inbox shows its tasks as they are: each shelf (active, settled,
    archived) lists exactly once the tasks whose lifecycle puts them there and no deleted one, in
    the strict order of attention, recency, revision and title computed from the task's present
    state, the counters count those tasks, and the first entries shown are a prefix of that
    order. *)
Theorem client_index_current pages b m ops :
  ingest_all builder_new pages = Ok b -> finish b = Ok m ->
  let m' := foldl client_do m ops in
  let x := cm_task_projection_index m' in
  (forall sh, increasing key_cmp (shelf_order x sh)
     /\ shelf_ids m' sh ≡ₚ elements (dom (shelf_tasks m' sh))
     /\ count (shelf_order x sh) = msize (shelf_tasks m' sh)
     /\ forall k, k ∈ shelf_order x sh ->
          exists s, cm_tasks m' !! ok_task_id k = Some s /\ k = task_key s (ok_occurred_at_ms k))
  /\ active_count x = msize (shelf_tasks m' ShelfActive)
  /\ (forall limit, exists later, active_task_ids x = top_active_task_ids x limit ++ later
        /\ count (top_active_task_ids x limit) = N.min limit (active_count x)).
Proof.
  intros Hb Hf m' x. assert (model_ok m') as Hm.
  { apply client_run_ok, (assembled_inbox (pages ≫= sp_items)).
    apply ingest_all_assembling in Hb. unfold finish in Hf.
    apply rbind_Ok in Hf as (? & _ & Hf). apply rbind_Ok in Hf as (? & _ & Hf).
    by apply (finish_assembled_Ok b m _ (as_rows b pages Hb)). }
  assert (forall sh, count (shelf_order x sh) = msize (shelf_tasks m' sh)) as Hcount.
  { intros sh. pose proof (shelf_ids_perm m' sh Hm) as Hp%Permutation_length.
    unfold shelf_ids in Hp. rewrite length_map in Hp. unfold count. fold x in Hp. rewrite Hp.
    unfold msize. by rewrite <- size_dom. }
  split_and!.
  - intros sh. destruct (io_index _ _ Hm sh) as [Hi Hfiled].
    split_and!; [exact Hi|by apply shelf_ids_perm|apply Hcount|].
    intros k (e & Hke & -> & _)%Hfiled. pose proof (io_entries _ _ Hm (ok_task_id k)) as He.
    rewrite Hke in He. destruct (cm_tasks m' !! ok_task_id k) as [s|] eqn:Hs; [|done].
    exists s. cbn. split; [done|]. unfold task_key. rewrite (io_keyed _ _ Hm _ _ Hs). by rewrite <- He.
  - apply (Hcount ShelfActive).
  - intros limit. unfold active_task_ids, top_active_task_ids, active_count.
    exists (map ok_task_id (drop (N.to_nat limit) (ix_active_order x))).
    rewrite <- map_app, take_drop. split; [done|]. unfold count. rewrite length_map, length_take. lia.
Qed.
End Shown.

#[local] Existing Instance toy_sha.
#[local] Existing Instance toy_urls.
#[local] Existing Instance toy_json.
#[local] Existing Instance toy_unicode.

(** The sample task renamed, its detail fetched again, and an event refused. *)
Definition sample_client_ops : list client_op :=
  [ CoEvent {| de_id := 902; de_task_id := Some 1; de_sequence := 41; de_task_revision := Some 2;
               de_occurred_at_ms := 50%Z; de_payload := EvTaskRenamed (lit "later") |};
    CoInvalidate 1;
    CoDetail 1 [sample_page SecAgentSessions [SiAgentSession sample_agent]];
    CoEvent (stamped (Some 9) (EvTaskRenamed (lit "stale"))) ].

Lemma client_index_current_witness :
  let x := cm_task_projection_index (foldl client_do sample_model sample_client_ops) in
  active_task_ids x = [1] /\ map ok_title (ix_active_order x) = [lit "later"]
  /\ active_count x = msize (shelf_tasks (foldl client_do sample_model sample_client_ops) ShelfActive).
Proof.
  pose proof (client_index_current sample_pages sample_builder sample_model sample_client_ops
                ltac:(by vm_compute) ltac:(by vm_compute)) as (_ & Hc & _).
  split; [by vm_compute|]. split; [by vm_compute|exact Hc].
Defined.

(** ** What a snapshot does not ship *)

(** A task rebuilt from snapshot pages has its terminal resource but no terminal facts, so an
    event about that terminal, which the host's task takes, is refused. *)
Definition terminal_event : DomainEvent :=
  {| de_id := 903; de_task_id := Some 1; de_sequence := 41; de_task_revision := None;
     de_occurred_at_ms := 50%Z; de_payload := EvTerminalActivity (rf_id sample_provider_terminal) |}.

Example snapshot_forgets_terminal_facts :
  is_ok (apply sample_manned terminal_event) = true
  /\ apply_event sample_model terminal_event = Err ApplyFailed.
Proof. split; by vm_compute. Qed.
