(* ===== verification/Cockpit.v ===== *)
(** The task cockpit's questions ([domain/cockpit.rs]) with the git actions they carry
    ([git/desktop.rs]): which belong to the host rather than a task, the repository
    selectors, paths and labels that cross to a client, and the projection of the
    provider input fences. *)
From S2P Require Import Prelude Order Canonical Task Agent Resource ProviderInput Snapshot.

Definition MAX_COCKPIT_RELATIVE_PATH_BYTES : N := 1024.
Definition MAX_FOLDER_CONFIG_ID_BYTES : N := 128.
Definition MAX_REPOSITORY_LABEL_BYTES : N := 96.
Definition MAX_PROVIDER_INPUT_STATE_WAITS : N := 128.

(** ** Vocabulary *)

Inductive DesktopGitAction :=
| DgStatus
| DgHistory (limit skip : N)
| DgFileDiff (relative_path : text) (staged : bool)
| DgCommitDiff (hash : text)
| DgBranches
| DgStagedDiff
| DgStage (paths : list text)
| DgUnstage (paths : list text)
| DgStageAll
| DgUnstageAll
| DgCommit (summary : text) (description : option text)
| DgFetch
| DgPull
| DgPush
| DgSync
| DgPublish (branch : text)
| DgSwitchBranch (name : text)
| DgCreateBranch (name : text)
| DgDeleteBranch (name : text).

Definition is_mutation (a : DesktopGitAction) : bool :=
  match a with
  | DgStatus | DgHistory _ _ | DgFileDiff _ _ | DgCommitDiff _ | DgBranches | DgStagedDiff => false
  | _ => true
  end.

Inductive TaskCockpitSurface :=
| SurfaceConversation | SurfaceTerminal | SurfaceWorkspace | SurfaceGit | SurfaceFiles
| SurfaceSsh | SurfaceServices | SurfaceBrowser.

Inductive TaskGitMutateIntent :=
| GmStage (relative_paths : list text)
| GmUnstage (relative_paths : list text)
| GmCommit (message : text).

Inductive TaskRepositorySelector :=
| SelWorkspace
| SelProjectRoot
| SelFolder (folder_config_id : text).

Inductive TaskRepositorySelectorError :=
| EmptyFolderConfigId | OversizedFolderConfigId | InvalidFolderConfigId | PathLikeFolderConfigId.

Inductive TaskRepositoryKind := RkWorkspace | RkProjectRoot | RkConfiguredFolder.

Inductive SshSecretEdit := SecretKeep | SecretClear | SecretSet (secret : text).

Inductive TaskCockpitQuery {ProviderSettingsHostRequest RemoteSetupRequest : Type} :=
| CqProviderInputState
| CqConfigSnapshot
| CqDesktopRepositories
| CqDesktopRepositoryAction (repository_id : text) (action : DesktopGitAction) (confirm : bool)
| CqAgentConnection
| CqBrowserProcessSession
| CqBrowserNativeSession
| CqOpenBrowserSession (expected_task_revision : N)
| CqConfigCreateProject (name root_path : text)
| CqConfigUpdateProject (project_id name : text) (root_path : option text)
| CqConfigArchiveProject (project_id : text)
| CqImageStagingRoot
| CqSuggestTaskTitle (seed : text)
| CqConfigUpsertCommand (project_id folder_id : text) (command_id : option text) (label command : text)
| CqConfigArchiveCommand (project_id folder_id command_id : text)
| CqConfigRunCommand (project_id folder_id command_id : text)
| CqConfigCommandDetail (project_id folder_id command_id : text)
| CqProviderSettings (request : ProviderSettingsHostRequest)
| CqRemoteAccess (request : RemoteSetupRequest)
| CqConversation (after_sequence : N)
| CqOpenConversationSubscription (after_sequence : N)
| CqReleaseConversationSubscription (subscription_id : list N)
| CqTerminal
| CqTerminalScroll (delta_lines : Z)
| CqTerminalResize (cols rows : N)
| CqTerminalReadiness
| CqTerminalFor (resource_id : ResourceId)
| CqTerminalScrollFor (resource_id : ResourceId) (delta_lines : Z)
| CqTerminalResizeFor (resource_id : ResourceId) (cols rows : N)
| CqTerminalReadinessFor (resource_id : ResourceId)
| CqTaskTerminals
| CqOpenShellTerminal (cwd : option text) (expected_task_revision : N)
| CqOpenSshTerminal (endpoint_id : text) (expected_task_revision : N)
| CqHostSshOpen (endpoint_id : text)
| CqHostTerminal (resource_id : ResourceId)
| CqHostTerminalScroll (resource_id : ResourceId) (delta_lines : Z)
| CqHostTerminalResize (resource_id : ResourceId) (cols rows : N)
| CqHostTerminalClose (resource_id : ResourceId)
| CqConfigUpsertSsh (connection_id : option text) (label host : text) (port : N) (username : text)
    (password private_key : SshSecretEdit)
| CqConfigArchiveSsh (connection_id : text)
| CqWorkspaceStatus
| CqGitRepositories
| CqGitStatus
| CqGitStatusTargeted (selector : TaskRepositorySelector)
| CqGitDesktopTargeted (selector : TaskRepositorySelector) (action : DesktopGitAction) (confirm : bool)
| CqGitFileDiffTargeted (selector : TaskRepositorySelector) (relative_path : text) (staged : bool)
| CqGitHistoryTargeted (selector : TaskRepositorySelector) (limit skip : N)
| CqGitCommitDiffTargeted (selector : TaskRepositorySelector) (commit_hash : text)
| CqFilesList (relative_directory : option text) (limit : N)
| CqFilesRead (relative_path : text) (max_bytes : N)
| CqFilesWrite (relative_path utf8_contents : text) (expected_sha256_hex : option text) (confirm : bool)
| CqGitMutate (intent : TaskGitMutateIntent) (confirm : bool)
| CqGitMutateTargeted (selector : TaskRepositorySelector) (intent : TaskGitMutateIntent) (confirm : bool)
| CqSshStatus
| CqSshAction (endpoint_id : text)
| CqServiceSnapshots
| CqServiceLogs (service_id : ConfiguredServiceId) (resource_generation connection_epoch action_epoch : N)
| CqServiceHealth (service_id : ConfiguredServiceId) (resource_generation connection_epoch action_epoch : N).
#[global] Arguments TaskCockpitQuery : clear implicits.

Section Queries.
Context {Settings Setup : Type}.
Implicit Types q : TaskCockpitQuery Settings Setup.

Definition cockpit_surface q : TaskCockpitSurface :=
  match q with
  | CqConfigSnapshot | CqAgentConnection | CqConfigCreateProject _ _ | CqConfigUpdateProject _ _ _
  | CqConfigArchiveProject _ | CqConfigUpsertSsh _ _ _ _ _ _ _ | CqConfigArchiveSsh _
  | CqConfigUpsertCommand _ _ _ _ _ | CqConfigArchiveCommand _ _ _ | CqConfigRunCommand _ _ _
  | CqConfigCommandDetail _ _ _ | CqProviderSettings _ | CqRemoteAccess _ => SurfaceWorkspace
  | CqBrowserProcessSession | CqBrowserNativeSession | CqOpenBrowserSession _ => SurfaceBrowser
  | CqConversation _ | CqOpenConversationSubscription _ | CqReleaseConversationSubscription _
  | CqSuggestTaskTitle _ | CqProviderInputState => SurfaceConversation
  | CqTerminal | CqTerminalScroll _ | CqTerminalResize _ _ | CqTerminalReadiness | CqTerminalFor _
  | CqTerminalScrollFor _ _ | CqTerminalResizeFor _ _ _ | CqTerminalReadinessFor _ | CqTaskTerminals
  | CqOpenShellTerminal _ _ | CqOpenSshTerminal _ _ | CqHostSshOpen _ | CqHostTerminal _
  | CqHostTerminalScroll _ _ | CqHostTerminalResize _ _ _ | CqHostTerminalClose _ => SurfaceTerminal
  | CqWorkspaceStatus | CqImageStagingRoot => SurfaceWorkspace
  | CqDesktopRepositories | CqDesktopRepositoryAction _ _ _ | CqGitRepositories | CqGitStatus
  | CqGitStatusTargeted _ | CqGitDesktopTargeted _ _ _ | CqGitFileDiffTargeted _ _ _
  | CqGitHistoryTargeted _ _ _ | CqGitCommitDiffTargeted _ _ | CqGitMutate _ _
  | CqGitMutateTargeted _ _ _ => SurfaceGit
  | CqFilesList _ _ | CqFilesRead _ _ | CqFilesWrite _ _ _ _ => SurfaceFiles
  | CqSshStatus | CqSshAction _ => SurfaceSsh
  | CqServiceSnapshots | CqServiceLogs _ _ _ _ | CqServiceHealth _ _ _ _ => SurfaceServices
  end.

Definition is_host_config_query q : bool :=
  match q with
  | CqConfigSnapshot | CqDesktopRepositories | CqDesktopRepositoryAction _ _ _ | CqAgentConnection
  | CqConfigCreateProject _ _ | CqConfigUpdateProject _ _ _ | CqConfigArchiveProject _
  | CqConfigUpsertSsh _ _ _ _ _ _ _ | CqConfigArchiveSsh _ | CqConfigUpsertCommand _ _ _ _ _
  | CqConfigArchiveCommand _ _ _ | CqConfigRunCommand _ _ _ | CqConfigCommandDetail _ _ _
  | CqHostSshOpen _ | CqHostTerminal _ | CqHostTerminalScroll _ _ | CqHostTerminalResize _ _ _
  | CqHostTerminalClose _ => true
  | _ => false
  end.

Definition is_host_terminal_query q : bool :=
  match q with
  | CqHostSshOpen _ | CqHostTerminal _ | CqHostTerminalScroll _ _ | CqHostTerminalResize _ _ _
  | CqHostTerminalClose _ => true
  | _ => false
  end.
End Queries.

(** ** Text that crosses to a client *)

(** [str::is_char_boundary] *)
Definition is_char_boundary (s : text) (i : N) : bool :=
  (i =? 0)
  || match bytes s !! N.to_nat i with
     | Some b => negb ((0x80 <=? b) && (b <? 0xC0))
     | None => i =? len s
     end.

(** The loop that steps back from [i] to a boundary. *)
Fixpoint step_back (s : text) (i : nat) : N :=
  match i with
  | O => 0
  | S j => if is_char_boundary s (N.of_nat i) then N.of_nat i else step_back s j
  end.

(** [&text[..end]] at a boundary *)
Fixpoint slice_to (s : text) (last : N) : text :=
  match s with
  | [] => []
  | c :: r => if last =? 0 then [] else c :: slice_to r (last - count (utf8_char c))
  end.

Definition truncate_to_max_bytes (s : text) (max_bytes : N) : text :=
  if len s <=? max_bytes then s else slice_to s (step_back s (N.to_nat max_bytes)).

(** [str::split] on the two separators: never empty. *)
Fixpoint split_separators (s : text) : list text :=
  match s with
  | [] => [[]]
  | c :: r =>
      if (c =? 47) || (c =? 92) then [] :: split_separators r
      else match split_separators r with
           | seg :: rest => (c :: seg) :: rest
           | [] => [[c]]
           end
  end.

(** [value.as_bytes().get(1) == Some(&b':')] *)
Definition drive_like (s : text) : bool := bool_decide (bytes s !! 1%nat = Some 58).

Definition relative_path_is_safe (p : text) : bool :=
  if is_empty p || (MAX_COCKPIT_RELATIVE_PATH_BYTES <? len p) then false
  else if contains_char 92 p || starts_with [47] p || drive_like p
          || existsb (fun component => is_empty component || (component =?= [46]) || (component =?= [46; 46]))
               (split_separators p)
  then false
  else true.

Fixpoint contains_dots (s : text) : bool :=
  match s with
  | a :: (b :: _) as r => ((a =? 46) && (b =? 46)) || contains_dots r
  | _ => false
  end.

Definition validate_folder_config_id (raw : text) : result unit TaskRepositorySelectorError :=
  let value := trim raw in
  ensure negb (is_empty value) else EmptyFolderConfigId ;;
  ensure len value <=? MAX_FOLDER_CONFIG_ID_BYTES else OversizedFolderConfigId ;;
  ensure negb (contains_char 0 value || existsb is_control value) else InvalidFolderConfigId ;;
  guard (negb (contains_char 47 value || contains_char 92 value || contains_dots value
               || starts_with [46] value || drive_like value || contains_char 58 value))
    PathLikeFolderConfigId.

Definition selector_validate (s : TaskRepositorySelector) : result unit TaskRepositorySelectorError :=
  match s with
  | SelWorkspace | SelProjectRoot => Ok tt
  | SelFolder folder_config_id => validate_folder_config_id folder_config_id
  end.

Definition selector_kind (s : TaskRepositorySelector) : TaskRepositoryKind :=
  match s with
  | SelWorkspace => RkWorkspace
  | SelProjectRoot => RkProjectRoot
  | SelFolder _ => RkConfiguredFolder
  end.

Definition redact_repository_label (label : text) : text :=
  let trimmed := trim (List.filter (fun c => negb (is_control c)) label) in
  if is_empty trimmed then lit "Repository"
  else
    let bounded := truncate_to_max_bytes trimmed MAX_REPOSITORY_LABEL_BYTES in
    if is_empty (trim bounded) then lit "Repository" else bounded.

(** ** Projections *)

Inductive TaskWorkspaceKind := TwMain | TwWorktree | TwExternal | TwBound.

Record TaskWorkspaceProjection := {
  twp_task_id : TaskId;
  twp_kind : TaskWorkspaceKind;
  twp_bound : bool;
  twp_branch : option text;
  twp_has_repository_fingerprint : bool;
}.

Definition workspace_kind (k : WorkspaceBindingKind) : TaskWorkspaceKind :=
  match k with BindMain => TwMain | BindWorktree => TwWorktree | BindExternal => TwExternal end.

Definition workspace_identity (w : WorkspaceRef) : TaskWorkspaceKind * bool * option text :=
  match w with
  | WsMain | WsMainWithFingerprint _ => (TwMain, false, None)
  | WsWorktree _ branch | WsWorktreeWithFingerprint _ branch _ => (TwWorktree, false, Some branch)
  | WsExternal _ => (TwExternal, false, None)
  | WsHostBound binding => (workspace_kind (wb_kind binding), true, wb_branch binding)
  | WsExternalWithFingerprint _ binding => (TwExternal, true, wb_branch binding)
  end.

Definition workspace_projection (task_id : TaskId) (w : WorkspaceRef) : TaskWorkspaceProjection :=
  let '(kind, bound, branch) := workspace_identity w in
  {| twp_task_id := task_id; twp_kind := kind; twp_bound := bound; twp_branch := branch;
     twp_has_repository_fingerprint := is_some (ws_repository_fingerprint w) |}.

Record ProviderInputStateProjection := {
  pis_task_id : TaskId;
  pis_task_revision : N;
  pis_action_epoch : N;
  pis_agent_session_id : option AgentSessionId;
  pis_resource_id : option ResourceId;
  pis_runtime_generation : option N;
  pis_agent_lifecycle : option AgentSessionLifecycle;
  pis_provider_kind : option ProviderKind;
  pis_provider_session_id : option ProviderSessionId;
  pis_current_turn : option TurnId;
  pis_open_question : option QuestionId;
  pis_open_approval : option ApprovalId;
  pis_pending_wait_command_ids : list CommandId;
}.

(** [Iterator::find_map] over the bindable resources *)
Definition bound_resource (agent : AgentSessionFacts) (resources : list (N * ResourceFacts))
    : option ResourceId :=
  fold_left (fun found kr =>
      match found with
      | Some id => Some id
      | None => match from_facts agent (snd kr) with
                | Ok binding => Some (arb_resource_id binding)
                | Err _ => None
                end
      end) resources None.

Definition pending_ids (waits : gmap N ProviderWaitRecord) : list CommandId :=
  map fst (List.filter (fun kw => wr_pending (snd kw)) (sorted_entries waits)).

Definition from_snapshot (s : TaskSnapshot) : ProviderInputStateProjection :=
  let agent := a ← (id ← sn_primary_agent_id s; sn_agents s !! id);
               if ag_task_id a =? tf_id (sn_task s) then Some a else None in
  let input := a ← agent; sn_provider_sessions s !! ag_id a in
  {| pis_task_id := tf_id (sn_task s);
     pis_task_revision := tf_revision (sn_task s);
     pis_action_epoch := tf_action_epoch (sn_task s);
     pis_agent_session_id := ag_id <$> agent;
     pis_resource_id := a ← agent; bound_resource a (sorted_entries (sn_resources s));
     pis_runtime_generation := ag_runtime_generation <$> agent;
     pis_agent_lifecycle := ag_lifecycle <$> agent;
     pis_provider_kind := ag_provider_kind <$> agent;
     pis_provider_session_id := a ← agent; ag_provider_session_id a;
     pis_current_turn := p ← input; ps_current_turn p;
     pis_open_question := p ← input; ps_open_question p;
     pis_open_approval := p ← input; ps_open_approval p;
     pis_pending_wait_command_ids :=
       match input with
       | Some p => take (N.to_nat (MAX_PROVIDER_INPUT_STATE_WAITS + 1)) (pending_ids (ps_waits p))
       | None => []
       end |}.

(** ** Truncation stays on character boundaries *)

Lemma utf8_char_bytes c :
  exists b rest, utf8_char c = b :: rest /\ (b < 0x80 \/ 0xC0 <= b)
                 /\ forall x, x ∈ rest -> 0x80 <= x < 0xC0.
Proof.
  unfold utf8_char.
  assert (forall n, 0x80 <= 0x80 + n mod 64 < 0xC0) as Hm.
  { intros n. pose proof (N.mod_lt n 64 ltac:(done)) as Hl. clear -Hl. revert Hl. generalize (n mod 64). lia. }
  destruct (N.ltb_spec c 0x80); [|destruct (c <? 0x800); [|destruct (c <? 0x10000)]]; do 2 eexists;
    (split; [reflexivity|]); (split; [first [by left | right; etrans; [|apply N.le_add_r]; done]|]); intros x Hx; rewrite ?elem_of_cons in Hx;
    repeat match goal with H : _ \/ _ |- _ => destruct H as [->|H] end;
    try (by apply not_elem_of_nil in Hx); apply Hm.
Qed.

Lemma boundary_cons c s i :
  is_char_boundary (c :: s) i = true
  <-> i = 0 \/ (count (utf8_char c) <= i /\ is_char_boundary s (i - count (utf8_char c)) = true).
Proof.
  unfold is_char_boundary. destruct (N.eqb_spec i 0) as [->|Hi]; [naive_solver|].
  rewrite orb_false_l. assert (bytes (c :: s) = utf8_char c ++ bytes s) as -> by done.
  rewrite len_cons. set (n := count (utf8_char c)).
  assert (N.to_nat n = length (utf8_char c)) as Hn by (unfold n, count; lia).
  destruct (N.ltb_spec i n) as [Hlt|Hge].
  - rewrite lookup_app_l by lia. destruct (utf8_char_bytes c) as (b & rest & E & _ & Hr).
    destruct (utf8_char c !! N.to_nat i) as [x|] eqn:Ex.
    + assert (x ∈ rest) as Hx.
      { rewrite E in Ex. destruct (N.to_nat i) as [|k] eqn:Ek; [lia|]. by eapply list_elem_of_lookup_2. }
      apply Hr in Hx. rewrite (proj2 (N.leb_le _ _)), (proj2 (N.ltb_lt _ _)) by lia. cbn.
      split; [done|intros [?|[? _]]; [done|lia]].
    + apply lookup_ge_None_1 in Ex. lia.
  - rewrite lookup_app_r by lia. replace (N.to_nat i - length (utf8_char c))%nat with (N.to_nat (i - n)) by lia.
    destruct (N.eqb_spec (i - n) 0) as [Hz|Hnz].
    + rewrite Hz. change (N.to_nat 0) with 0%nat. cbn. destruct (bytes s) as [|x l] eqn:Es; cbn.
      * assert (len s = 0) as -> by (unfold len; by rewrite Es). rewrite N.eqb_eq. split; [intros; right; split; [lia|done]|]. intros [?|[? _]]; lia.
      * destruct s as [|c' s]; [done|]. destruct (utf8_char_bytes c') as (b & rest & E & Hb & _).
        unfold bytes in Es. cbn in Es. rewrite E in Es. injection Es as <- _.
        assert (((0x80 <=? b) && (b <? 0xC0)) = false) as ->; [|cbn; split; [right; split; [lia|done]|done]].
        apply andb_false_iff. rewrite N.leb_gt, N.ltb_ge. lia.
    + cbn. destruct (bytes s !! N.to_nat (i - n)); [naive_solver lia|].
      rewrite !N.eqb_eq. naive_solver lia.
Qed.

Lemma slice_boundary s : forall i, is_char_boundary s i = true ->
  exists rest, s = slice_to s i ++ rest /\ len (slice_to s i) = i.
Proof.
  induction s as [|c s IH]; intros i Hi.
  - exists []. split; [done|]. unfold is_char_boundary in Hi. cbn in Hi.
    rewrite lookup_nil in Hi. cbn in Hi |- *. by apply orb_true_iff in Hi as [Hi%N.eqb_eq|Hi%N.eqb_eq].
  - cbn [slice_to]. apply boundary_cons in Hi as [->|[Hc Hb]]; [by exists (c :: s)|].
    destruct (N.eqb_spec i 0) as [->|Hi]; [pose proof (utf8_char_pos c); lia|].
    destruct (IH _ Hb) as (rest & Hs & Hl). exists rest. split; [cbn; by rewrite <- Hs|].
    rewrite len_cons, Hl. lia.
Qed.

Lemma prefix_boundary p : forall q, is_char_boundary (p ++ q) (len p) = true.
Proof.
  induction p as [|c p IH]; intros q; [done|]. cbn [app]. apply boundary_cons. right. rewrite len_cons.
  split; [lia|]. replace (count (utf8_char c) + len p - count (utf8_char c)) with (len p) by lia. apply IH.
Qed.

Lemma step_back_spec s n :
  is_char_boundary s (step_back s n) = true /\ step_back s n <= N.of_nat n
  /\ forall i, is_char_boundary s i = true -> i <= N.of_nat n -> i <= step_back s n.
Proof.
  induction n as [|n (Hb & Hle & Hmax)]; cbn [step_back]; [split_and!; [done|lia|lia]|].
  destruct (is_char_boundary s (N.of_nat (S n))) eqn:E; [split_and!; [done|lia|lia]|].
  split_and!; [done|lia|]. intros i Hi Hn. apply Hmax; [done|].
  destruct (N.eq_dec i (N.of_nat (S n))) as [->|]; [congruence|lia].
Qed.

(** The longest prefix of whole characters within the bound. *)
Lemma truncate_spec s max :
  exists rest, s = truncate_to_max_bytes s max ++ rest
    /\ len (truncate_to_max_bytes s max) <= max
    /\ forall p q, s = p ++ q -> len p <= max -> len p <= len (truncate_to_max_bytes s max).
Proof.
  unfold truncate_to_max_bytes. destruct (N.leb_spec (len s) max) as [Hle|Hgt].
  - exists []. rewrite app_nil_r. split_and!; [done..|]. intros p q -> _. rewrite len_app. lia.
  - destruct (step_back_spec s (N.to_nat max)) as (Hb & Hle & Hmax). rewrite N2Nat.id in *.
    destruct (slice_boundary _ _ Hb) as (rest & Hs & Hl). exists rest. rewrite Hl.
    split_and!; [done..|]. intros p q -> Hp. apply Hmax; [apply prefix_boundary|done].
Qed.

(** ** Paths and names stay inside *)

(** Where a path leads from a directory, component by component. *)
Definition enter (dir : list text) (component : text) : list text :=
  if is_empty component || (component =?= [46]) then dir
  else if component =?= [46; 46] then removelast dir
  else dir ++ [component].

Definition walk (dir : list text) (components : list text) : list text := fold_left enter components dir.

Definition plain_name (c : text) : Prop := c <> [] /\ c <> [46] /\ c <> [46; 46].

Lemma enter_plain dir c : plain_name c -> enter dir c = dir ++ [c].
Proof.
  intros (Hn & Hd & Hdd). unfold enter.
  rewrite (proj2 (eqb_false _ _) Hd), (proj2 (eqb_false _ _) Hdd). by destruct c.
Qed.

Lemma walk_plain l : forall dir, Forall plain_name l -> walk dir l = dir ++ l.
Proof.
  induction l as [|c l IH]; intros dir Hl; [by rewrite app_nil_r|].
  apply Forall_cons_1 in Hl as [Hc Hl]. unfold walk. cbn [fold_left]. rewrite enter_plain by done.
  fold (walk (dir ++ [c]) l). rewrite IH by done. by rewrite <- app_assoc.
Qed.

Lemma split_nonempty s : split_separators s <> [].
Proof. destruct s as [|c s]; cbn; [done|]. by destruct (_ || _); [|destruct (split_separators s)]. Qed.

(** Text without separators is one component. *)
Lemma split_single s :
  contains_char 47 s = false -> contains_char 92 s = false -> split_separators s = [s].
Proof.
  induction s as [|c s IH]; [done|]. unfold contains_char in *. cbn [existsb split_separators].
  rewrite !(N.eqb_sym _ c), !orb_false_iff. intros [-> H1] [-> H2]. cbn. by rewrite IH.
Qed.

Lemma split_no_separator s c x : c ∈ split_separators s -> x ∈ c -> x <> 47 /\ x <> 92.
Proof.
  revert c. induction s as [|a s IH]; intros c; cbn [split_separators].
  - rewrite list_elem_of_singleton. intros ->. set_solver.
  - destruct (N.eqb_spec a 47); cbn [orb].
    + rewrite elem_of_cons. intros [->|Hc]; [set_solver|by apply IH].
    + destruct (N.eqb_spec a 92).
      * rewrite elem_of_cons. intros [->|Hc]; [set_solver|by apply IH].
      * destruct (split_separators s) as [|seg rest]; rewrite elem_of_cons.
        -- intros [->|Hc]; [|set_solver]. rewrite list_elem_of_singleton. by intros ->.
        -- intros [->|Hc] Hx; [|by apply (IH c); [right|]].
           rewrite elem_of_cons in Hx. destruct Hx as [->|Hx]; [done|]. by apply (IH seg); [left|].
Qed.

Lemma safe_path_plain p :
  relative_path_is_safe p = true ->
  Forall plain_name (split_separators p) /\ drive_like p = false /\ len p <= MAX_COCKPIT_RELATIVE_PATH_BYTES.
Proof.
  unfold relative_path_is_safe.
  destruct (is_empty p || (MAX_COCKPIT_RELATIVE_PATH_BYTES <? len p)) eqn:Eb; [done|].
  apply orb_false_iff in Eb as [_ Hl%N.ltb_ge]. destruct (_ || _) eqn:E; [done|]. intros _.
  rewrite !orb_false_iff in E. destruct E as [[[_ _] Hd] Hc]. split_and!; [|done..].
  apply Forall_forall. intros c Hin. apply not_true_iff_false in Hc.
  split_and!; intros ->; apply Hc, existsb_exists; eexists; rewrite list_elem_of_In in Hin; (split; [exact Hin|done]).
Qed.

Lemma folder_id_plain raw u :
  validate_folder_config_id raw = Ok u ->
  split_separators (trim raw) = [trim raw] /\ plain_name (trim raw) /\ drive_like (trim raw) = false
  /\ len (trim raw) <= MAX_FOLDER_CONFIG_ID_BYTES.
Proof.
  unfold validate_folder_config_id. intros H. peel H. apply guard_Ok, negb_true_iff in H.
  rewrite !orb_false_iff in H. destruct H as [[[[[Hs Hb] _] Hdot] Hd] _].
  split_and!; [by apply split_single| | done|by apply N.leb_le].
  split_and!; intros E; rewrite E in *; [done|by vm_compute in Hdot|by vm_compute in Hdot].
Qed.

(** No path or repository name a client sends to the cockpit leaves the directory it is read
    against: a path taken as safe walks strictly downwards at every step, over components that
    carry no separator and are neither empty nor dots, is no drive path and is bounded; and a folder
    id taken as valid is one such component. *)
Theorem cockpit_paths_stay_inside :
  (forall p, relative_path_is_safe p = true ->
     split_separators p <> []
     /\ (forall dir k, walk dir (take k (split_separators p)) = dir ++ take k (split_separators p))
     /\ (forall c x, c ∈ split_separators p -> x ∈ c -> x <> 47 /\ x <> 92)
     /\ drive_like p = false /\ len p <= MAX_COCKPIT_RELATIVE_PATH_BYTES)
  /\ (forall raw, selector_validate (SelFolder raw) = Ok tt ->
        (forall dir, walk dir (split_separators (trim raw)) = dir ++ [trim raw])
        /\ drive_like (trim raw) = false /\ len (trim raw) <= MAX_FOLDER_CONFIG_ID_BYTES).
Proof.
  split.
  - intros p Hp. destruct (safe_path_plain p Hp) as (Hf & Hd & Hl).
    split_and!; [apply split_nonempty| |apply split_no_separator|done..].
    intros dir k. apply walk_plain. by apply Forall_take.
  - intros raw Hr. destruct (folder_id_plain raw tt Hr) as (-> & Hp & Hd & Hl).
    split_and!; [|done..]. intros dir. by apply walk_plain, Forall_singleton.
Qed.

(** ** Labels *)

Lemma trim_sub s x : x ∈ trim s -> x ∈ s.
Proof.
  unfold trim, trim_end. intros Hx. destruct (trim_start_suffix s) as [p Hs].
  destruct (trim_start_suffix (rev (trim_start s))) as [q Hq].
  rewrite Hs, elem_of_app. right. rewrite <- (rev_involutive (trim_start s)), list_elem_of_In, <- in_rev.
  rewrite Hq. apply in_app_iff. right. by rewrite list_elem_of_In, <- in_rev in Hx.
Qed.

(** A repository label shown to a client is never empty, never longer than its bound, carries no
    control character and ends on a whole character. *)
Theorem redacted_label_presentable label :
  let shown := redact_repository_label label in
  shown <> [] /\ len shown <= MAX_REPOSITORY_LABEL_BYTES /\ forallb (fun c => negb (is_control c)) shown = true
  /\ (shown = lit "Repository" \/ exists rest, trim (List.filter (fun c => negb (is_control c)) label) = shown ++ rest).
Proof.
  cbn zeta. unfold redact_repository_label.
  set (trimmed := trim (List.filter (fun c => negb (is_control c)) label)).
  assert (lit "Repository" <> [] /\ len (lit "Repository") <= MAX_REPOSITORY_LABEL_BYTES
          /\ forallb (fun c => negb (is_control c)) (lit "Repository") = true) as (H1 & H2 & H3)
    by by vm_compute.
  destruct (is_empty trimmed); [split_and!; [done..|by left]|].
  destruct (is_empty (trim (truncate_to_max_bytes trimmed MAX_REPOSITORY_LABEL_BYTES))) eqn:Et;
    [split_and!; [done..|by left]|].
  destruct (truncate_spec trimmed MAX_REPOSITORY_LABEL_BYTES) as (rest & Hs & Hl & _).
  split_and!; [by intros E; rewrite E in Et|done| |right; by exists rest].
  apply forallb_forall. intros x Hx. assert (x ∈ trimmed) as Hin.
  { rewrite Hs, elem_of_app. left. by rewrite list_elem_of_In. }
  apply trim_sub in Hin. rewrite list_elem_of_In in Hin. by apply List.filter_In in Hin as [_ ?].
Qed.

(** ** The input fences a client is shown *)

(** Whatever the snapshot holds, the projection names only waits that are pending and at most
    one more than the bound it is checked against. *)
Lemma projection_waits_bounded s :
  count (pis_pending_wait_command_ids (from_snapshot s)) <= MAX_PROVIDER_INPUT_STATE_WAITS + 1.
Proof.
  unfold from_snapshot. cbn. case_match; [|by vm_compute]. unfold count. rewrite length_take. lia.
Qed.

Example safe_paths :
  map relative_path_is_safe (map lit ["src/lib.rs"; "../secret"; "/etc/passwd"; "C:/x"; "a//b"; "a/./b"; "a/.."]%string)
  = [true; false; false; false; false; false; false].
Proof. by vm_compute. Qed.
