(* ===== verification/Query.v ===== *)
(** Questions a client puts to its host: the granted capabilities
    ([protocol/capabilities.rs]), queries with their results and errors
    ([domain/query.rs]), the pages of an artifact's content ([domain/snapshot.rs])
    and the errors of the transport ([host/ipc.rs]). *)
From S2P Require Import Prelude Canonical Task Artifact Browser Operation Event Command Cockpit Frame Stream Pages.

(** ** Protocol version and capabilities *)

Definition PROTOCOL_MAJOR : N := 1.
Definition PROTOCOL_MINOR : N := 0.

Record ProtocolVersion := { pv_major : N; pv_minor : N }.

Inductive VersionNegotiationError := IncompatibleMajor (local peer : N).

Definition version_current : ProtocolVersion :=
  {| pv_major := PROTOCOL_MAJOR; pv_minor := PROTOCOL_MINOR |}.

Definition version_negotiate (v peer : ProtocolVersion)
    : result ProtocolVersion VersionNegotiationError :=
  ensure pv_major v =? pv_major peer else IncompatibleMajor (pv_major v) (pv_major peer) ;;
  Ok {| pv_major := pv_major v; pv_minor := N.min (pv_minor v) (pv_minor peer) |}.

Inductive Capability :=
| PagedSnapshots | EventReplay | OperationSettlement | ChunkResume | GenericExtensions
| SemanticConversation | TerminalDeltas | BrowserProjection | PromptProjection
| ConnectEncryption | Guests | ManagementMetadata | ExplicitDetach | HostShutdown
| ProviderInputCapability | OrganizationProjection | ServiceSupervisor | TaskCockpit
| UpdateHandoff | SemanticSubagents.

#[export] Instance Capability_eq_dec : EqDecision Capability.
Proof. solve_decision. Defined.

(** [self as u8] *)
Definition capability_index (c : Capability) : N :=
  match c with
  | PagedSnapshots => 0 | EventReplay => 1 | OperationSettlement => 2 | ChunkResume => 3
  | GenericExtensions => 4 | SemanticConversation => 5 | TerminalDeltas => 6
  | BrowserProjection => 7 | PromptProjection => 8 | ConnectEncryption => 9 | Guests => 10
  | ManagementMetadata => 11 | ExplicitDetach => 12 | HostShutdown => 13
  | ProviderInputCapability => 14 | OrganizationProjection => 15 | ServiceSupervisor => 16
  | TaskCockpit => 17 | UpdateHandoff => 18 | SemanticSubagents => 19
  end.

Definition capability_bit (c : Capability) : N := N.shiftl 1 (capability_index c).

Definition capability_wire_name (c : Capability) : text :=
  match c with
  | PagedSnapshots => lit "paged_snapshots"
  | EventReplay => lit "event_replay"
  | OperationSettlement => lit "operation_settlement"
  | ChunkResume => lit "chunk_resume"
  | GenericExtensions => lit "generic_extensions"
  | SemanticConversation => lit "semantic_conversation"
  | TerminalDeltas => lit "terminal_deltas"
  | BrowserProjection => lit "browser_projection"
  | PromptProjection => lit "personal_prompt_library"
  | ConnectEncryption => lit "connect_encryption"
  | Guests => lit "guests"
  | ManagementMetadata => lit "management_metadata"
  | ExplicitDetach => lit "explicit_detach"
  | HostShutdown => lit "host_shutdown"
  | ProviderInputCapability => lit "provider_input"
  | OrganizationProjection => lit "organization_projection"
  | ServiceSupervisor => lit "service_supervisor"
  | TaskCockpit => lit "task_cockpit"
  | UpdateHandoff => lit "update_handoff"
  | SemanticSubagents => lit "semantic_subagents"
  end.

(** A [u64] of bits; unknown bits of a newer peer are kept. *)
Notation CapabilitySet := N (only parsing).

Definition contains_bit (bits bit : N) : bool := negb (bit =? 0) && (N.land bits bit =? bit).
Definition contains (bits : CapabilitySet) (c : Capability) : bool := contains_bit bits (capability_bit c).
Definition from_capabilities (cs : list Capability) : CapabilitySet :=
  fold_left (fun bits c => N.lor bits (capability_bit c)) cs 0.
Definition capability_intersection (bits peer : CapabilitySet) : CapabilitySet := N.land bits peer.
Definition grants_personal_prompt_library (bits : CapabilitySet) : bool := contains bits PromptProjection.
Definition grants_task_cockpit (bits : CapabilitySet) : bool := contains bits TaskCockpit.

(** ** Transport errors *)

(** Payloads that pass through unread: documents of other components, and the
    error types of the operating system and the codecs. *)
Class QueryPayloads := {
  prompt_library_query : Type;
  provider_settings_request : Type;
  remote_setup_request : Type;
  host_quit_inspection : Type;
  prompt_projection_reply : Type;
  task_cockpit_result : Type;
  prompt_mutation_receipt : Type;
  io_error : Type;
  message_pack_error : Type;
  client_hello_error : Type;
  server_hello_error : Type;
}.

Inductive IpcError `{QueryPayloads} :=
| IpcInvalidProfile (name : text)
| IpcUnsupported
| IpcUnsupportedCapability
| IpcIo (error : io_error)
| IpcTimeout
| IpcFrame (error : PhysicalFrameError)
| IpcMessagePack (error : message_pack_error)
| IpcClientHello (error : client_hello_error)
| IpcServerHello (error : server_hello_error)
| IpcProfileMismatch
| IpcHelloInconsistent
| IpcUnauthorized
| IpcUnexpectedResponse
| IpcCorrelationMismatch
| IpcDuplicateInFlight
| IpcConnectionPoisoned
| IpcBusy
| IpcUnavailable
| IpcRetiredSubscriptionFlood (limit : N)
| IpcSecurity (detail : text).

(** ** Queries *)

Notation RequestId := N (only parsing).

Record ArtifactContentPage := {
  ac_artifact_id : ArtifactId;
  ac_offset : N;
  ac_total_bytes : N;
  ac_sha256 : list N;
  ac_payload : list N;
  ac_encoded_bytes : N;
  ac_next_cursor : option (list N);
}.

Inductive Query `{HostPayloads} `{QueryPayloads} :=
| QOperationStatus (operation_id : OperationId)
| QCommandReceiptStatus (command : CommandEnvelope)
| QTaskSnapshot
| QSnapshotPage (section : SnapshotSection) (snapshot_id : option SnapshotId)
    (resume_cursor : option (list N))
| QReleaseSnapshot (snapshot_id : SnapshotId)
| QOpenEventReplay (after_sequence : N)
| QContinueEventReplay (subscription_id : SubscriptionId) (resume_cursor : list N)
| QReleaseEventReplay (subscription_id : SubscriptionId)
| QOpenArtifactContent (artifact_id : ArtifactId)
| QContinueArtifactContent (subscription_id : SubscriptionId) (resume_cursor : list N)
| QReleaseArtifactContent (subscription_id : SubscriptionId)
| QInspectHostQuit
| QPromptLibrary (query : prompt_library_query)
| QTaskCockpit (query : TaskCockpitQuery provider_settings_request remote_setup_request).

Record QueryEnvelope `{HostPayloads} `{QueryPayloads} := {
  qe_request_id : RequestId;
  qe_client_id : ClientId;
  qe_task_id : option TaskId;
  qe_query : Query;
}.

Inductive QueryError :=
| QeNotFound
| QeUnauthorized
| QeInvalidRequest
| QeConflict
| QeUnsupportedCapability
| QeReplayUnavailable (oldest_sequence newest_sequence : N)
| QeUnavailable (reason : text).

#[export] Instance QueryError_eq_dec : EqDecision QueryError.
Proof. solve_decision. Defined.

Inductive QueryResult `{QueryPayloads} :=
| QrOperationStatus (operation_id : OperationId) (state : OperationState)
| QrCommandReceiptStatus (receipt : option (CommandReceipt prompt_mutation_receipt))
| QrTaskSnapshot (snapshot : TaskSnapshotItem)
| QrSnapshotPage (page : SnapshotPage)
| QrSnapshotReleased (snapshot_id : SnapshotId)
| QrEventReplayPage (subscription_id : SubscriptionId) (page : EventPage)
| QrEventReplayReleased (subscription_id : SubscriptionId)
| QrArtifactContentPage (subscription_id : SubscriptionId) (page : ArtifactContentPage)
| QrArtifactContentReleased (subscription_id : SubscriptionId)
| QrHostQuitInspection (inspection : host_quit_inspection)
| QrPromptLibrary (reply : prompt_projection_reply)
| QrTaskCockpit (result : task_cockpit_result).

(** [QueryOutcome] *)
Notation QueryOutcome := (result QueryResult QueryError) (only parsing).

Record QueryReply `{QueryPayloads} := {
  qr_request_id : RequestId;
  qr_outcome : QueryOutcome;
}.

(** ** Capability sets as sets *)

Lemma capability_index_bound c : capability_index c < 20.
Proof. by destruct c. Qed.

Lemma capability_index_inj c c' : capability_index c = capability_index c' -> c = c'.
Proof. by destruct c, c'. Qed.

Lemma contains_testbit bits c : contains bits c = N.testbit bits (capability_index c).
Proof.
  unfold contains, contains_bit, capability_bit. rewrite N.shiftl_1_l.
  assert (2 ^ capability_index c <> 0) as Hz by (by apply N.pow_nonzero).
  apply N.eqb_neq in Hz as ->. cbn [negb andb].
  destruct (N.testbit bits (capability_index c)) eqn:Hb.
  - apply N.eqb_eq. apply N.bits_inj. intros i. rewrite N.land_spec, N.pow2_bits_eqb.
    destruct (N.eqb_spec (capability_index c) i) as [<-|]; [by rewrite Hb|apply andb_false_r].
  - apply N.eqb_neq. intros He. apply (f_equal (fun n => N.testbit n (capability_index c))) in He.
    by rewrite N.land_spec, N.pow2_bits_true, Hb in He.
Qed.

Lemma from_capabilities_testbit cs c : forall bits,
  N.testbit (fold_left (fun bits c => N.lor bits (capability_bit c)) cs bits) (capability_index c)
  = N.testbit bits (capability_index c) || bool_decide (c ∈ cs).
Proof.
  induction cs as [|d cs IH]; intros bits; cbn [fold_left].
  - by rewrite orb_false_r.
  - rewrite IH, N.lor_spec, <- orb_assoc. f_equal. unfold capability_bit.
    rewrite N.shiftl_1_l, N.pow2_bits_eqb. apply eq_true_iff_eq.
    rewrite orb_true_iff, !bool_decide_eq_true, N.eqb_eq, elem_of_cons.
    split; [intros [?%capability_index_inj|?]; auto|intros [->|?]; auto].
Qed.

Lemma contains_from_capabilities cs c : contains (from_capabilities cs) c = bool_decide (c ∈ cs).
Proof.
  rewrite contains_testbit. unfold from_capabilities. rewrite from_capabilities_testbit.
  by rewrite N.bits_0.
Qed.

Lemma contains_intersection bits peer c :
  contains (capability_intersection bits peer) c = contains bits c && contains peer c.
Proof. rewrite !contains_testbit. apply N.land_spec. Qed.
