(* ===== verification/UnsolicitedInbox.v ===== *)
(** The inbox of unsolicited server messages of one connection
    ([UnsolicitedInbox] of [client/connection.rs]): a bounded durable lane with
    the messages retained while an older generation was fenced, a lane of
    current stream frames, a lane of conversation wakes, and fair dequeueing. *)
From S2P Require Import Prelude Canonical Task Operation Event Stream Query.

Definition UNSOLICITED_QUEUE_CAPACITY : N := 64.
Definition UNSOLICITED_STREAM_CAPACITY : N := 16.
Definition MAX_RETIRED_SUBSCRIPTION_IDS : N := 64.
Definition MAX_RETIRED_DRAIN_WORK : N := UNSOLICITED_QUEUE_CAPACITY.
Definition MAX_RETAINED_DURABLE_MESSAGES : N := UNSOLICITED_QUEUE_CAPACITY * 2.

Inductive UnsolicitedServerMessage :=
| UmDurableEvent (subscription_id : SubscriptionId) (event : DomainEvent)
| UmResyncRequired (subscription_id : SubscriptionId) (last_delivered_sequence newest_sequence : N)
| UmStream (frame : StreamFrame)
| UmConversationDirty (subscription_id : SubscriptionId) (task_id : TaskId) (high_water : N).

Inductive UnsolicitedLane := LaneDurable | LaneRetained | LaneStream | LaneConversation.

#[export] Instance UnsolicitedLane_eq_dec : EqDecision UnsolicitedLane.
Proof. solve_decision. Defined.

Definition lane_next (l : UnsolicitedLane) : UnsolicitedLane :=
  match l with
  | LaneDurable => LaneRetained
  | LaneRetained => LaneStream
  | LaneStream => LaneConversation
  | LaneConversation => LaneDurable
  end.

Definition durable_message_subscription_id (m : UnsolicitedServerMessage) : option SubscriptionId :=
  match m with
  | UmDurableEvent id _ | UmResyncRequired id _ _ => Some id
  | UmStream _ | UmConversationDirty _ _ _ => None
  end.

Definition durable_message_is_retired (retired : gset (list N)) (m : UnsolicitedServerMessage) : bool :=
  is_some_and (durable_message_subscription_id m) (fun id => bool_decide (id ∈ retired)).

(** [HashMap::keys().next()]: some key of the map, whichever comes first. *)
Class HashOrder := {
  first_key : forall {V}, gmap (list N) V -> option (list N);
  first_key_spec : forall {V} (m : gmap (list N) V),
    match first_key m with Some k => is_some (m !! k) = true | None => m = ∅ end;
}.

Record UnsolicitedInbox := {
  ui_durable_capacity : N;
  ui_durable_rx : list UnsolicitedServerMessage;
  ui_retained_durable : list UnsolicitedServerMessage;
  ui_retired_subscription_ids : gset (list N);
  ui_next_lane : UnsolicitedLane;
  ui_stream_capacity : N;
  ui_streams : gmap (list N) StreamFrame;
  ui_conversations : gmap (list N) (TaskId * N);
  ui_closed : bool;
}.

Definition inbox_new (durable_capacity stream_capacity : N) : UnsolicitedInbox :=
  {| ui_durable_capacity := N.max durable_capacity 1; ui_durable_rx := [];
     ui_retained_durable := []; ui_retired_subscription_ids := ∅; ui_next_lane := LaneDurable;
     ui_stream_capacity := N.max stream_capacity 1; ui_streams := ∅; ui_conversations := ∅;
     ui_closed := false |}.

(** ** Field updates *)

Definition with_durable (i : UnsolicitedInbox) (rx retained : list UnsolicitedServerMessage)
    (retired : gset (list N)) : UnsolicitedInbox :=
  {| ui_durable_capacity := ui_durable_capacity i; ui_durable_rx := rx;
     ui_retained_durable := retained; ui_retired_subscription_ids := retired;
     ui_next_lane := ui_next_lane i; ui_stream_capacity := ui_stream_capacity i;
     ui_streams := ui_streams i; ui_conversations := ui_conversations i;
     ui_closed := ui_closed i |}.

Definition with_maps (i : UnsolicitedInbox) (streams : gmap (list N) StreamFrame)
    (conversations : gmap (list N) (TaskId * N)) : UnsolicitedInbox :=
  {| ui_durable_capacity := ui_durable_capacity i; ui_durable_rx := ui_durable_rx i;
     ui_retained_durable := ui_retained_durable i;
     ui_retired_subscription_ids := ui_retired_subscription_ids i;
     ui_next_lane := ui_next_lane i; ui_stream_capacity := ui_stream_capacity i;
     ui_streams := streams; ui_conversations := conversations; ui_closed := ui_closed i |}.

Definition with_lane (i : UnsolicitedInbox) (lane : UnsolicitedLane) : UnsolicitedInbox :=
  {| ui_durable_capacity := ui_durable_capacity i; ui_durable_rx := ui_durable_rx i;
     ui_retained_durable := ui_retained_durable i;
     ui_retired_subscription_ids := ui_retired_subscription_ids i; ui_next_lane := lane;
     ui_stream_capacity := ui_stream_capacity i; ui_streams := ui_streams i;
     ui_conversations := ui_conversations i; ui_closed := ui_closed i |}.

Definition inbox_close (i : UnsolicitedInbox) : UnsolicitedInbox :=
  {| ui_durable_capacity := ui_durable_capacity i; ui_durable_rx := ui_durable_rx i;
     ui_retained_durable := ui_retained_durable i;
     ui_retired_subscription_ids := ui_retired_subscription_ids i;
     ui_next_lane := ui_next_lane i; ui_stream_capacity := ui_stream_capacity i;
     ui_streams := ui_streams i; ui_conversations := ui_conversations i; ui_closed := true |}.

Section Inbox.
Context `{QueryPayloads} `{HashOrder}.

(** ** Admission *)

(** A method on [&self] behind the mutexes: the inbox after it, and its result. *)
Notation kept := (UnsolicitedInbox * result unit IpcError)%type.

Definition push_durable (i : UnsolicitedInbox) (m : UnsolicitedServerMessage) : kept :=
  if ui_closed i then (i, Err IpcUnavailable)
  else
    match durable_message_subscription_id m with
    | None => (i, Err IpcUnavailable)
    | Some _ =>
        if durable_message_is_retired (ui_retired_subscription_ids i) m then (i, Ok tt)
        else if ui_durable_capacity i <=? count (ui_durable_rx i) then (i, Err IpcUnavailable)
        else (with_durable i (ui_durable_rx i ++ [m]) (ui_retained_durable i)
                (ui_retired_subscription_ids i), Ok tt)
    end.

Definition push_stream (i : UnsolicitedInbox) (frame : StreamFrame) : kept :=
  if ui_closed i then (i, Err IpcUnavailable)
  else
    let key := sf_stream frame in
    if is_some (ui_streams i !! key) || (N.of_nat (size (ui_streams i)) <? ui_stream_capacity i)
    then (with_maps i (<[key := frame]> (ui_streams i)) (ui_conversations i), Ok tt)
    else (i, Ok tt).

(** The part of [push_conversation_dirty] before the durable fence is released:
    whether the wake goes on to its lane. *)
Definition conversation_admitted (i : UnsolicitedInbox) (subscription_id : SubscriptionId)
    (high_water : N) : result bool IpcError :=
  if ui_closed i then Err IpcUnavailable
  else if high_water =? 0 then Err IpcUnauthorized
  else Ok (bool_decide (subscription_id ∉ ui_retired_subscription_ids i)).

(** The part after it, under the lock of the conversation lane alone. *)
Definition conversation_insert (i : UnsolicitedInbox) (subscription_id : SubscriptionId)
    (task_id : TaskId) (high_water : N) : UnsolicitedInbox :=
  match ui_conversations i !! subscription_id with
  | Some (_, existing) =>
      if existing <? high_water
      then with_maps i (ui_streams i) (<[subscription_id := (task_id, high_water)]> (ui_conversations i))
      else i
  | None =>
      if N.of_nat (size (ui_conversations i)) <? ui_stream_capacity i
      then with_maps i (ui_streams i) (<[subscription_id := (task_id, high_water)]> (ui_conversations i))
      else i
  end.

Definition push_conversation_dirty (i : UnsolicitedInbox) (subscription_id : SubscriptionId)
    (task_id : TaskId) (high_water : N) : kept :=
  match conversation_admitted i subscription_id high_water with
  | Err e => (i, Err e)
  | Ok false => (i, Ok tt)
  | Ok true => (conversation_insert i subscription_id task_id high_water, Ok tt)
  end.

(** ** Retirement *)

Definition other_generation (subscription_id : SubscriptionId) (m : UnsolicitedServerMessage) : bool :=
  negb (durable_message_subscription_id m =?= Some subscription_id).

(** The drain loop of [retire_subscription_id]: at most [work] messages leave the
    queue, those of other generations for the retained lane. *)
Fixpoint drain_retired (work : nat) (subscription_id : SubscriptionId)
    (rx retained : list UnsolicitedServerMessage)
    : list UnsolicitedServerMessage * list UnsolicitedServerMessage :=
  match work, rx with
  | S work, m :: rx =>
      drain_retired work subscription_id rx
        (if other_generation subscription_id m then retained ++ [m] else retained)
  | _, _ => (rx, retained)
  end.

Definition retire_subscription_id (i : UnsolicitedInbox) (subscription_id : SubscriptionId) : kept :=
  let retired := ui_retired_subscription_ids i in
  if bool_decide (subscription_id ∉ retired)
     && (MAX_RETIRED_SUBSCRIPTION_IDS <=? N.of_nat (size retired))
  then (i, Err (IpcRetiredSubscriptionFlood MAX_RETIRED_SUBSCRIPTION_IDS))
  else
    let retained := List.filter (other_generation subscription_id) (ui_retained_durable i) in
    let i := with_maps (with_durable i (ui_durable_rx i) retained ({[subscription_id]} ∪ retired))
               (ui_streams i) (delete subscription_id (ui_conversations i)) in
    if MAX_RETAINED_DURABLE_MESSAGES <? saturating_add (count retained) (count (ui_durable_rx i))
    then (i, Err (IpcRetiredSubscriptionFlood MAX_RETAINED_DURABLE_MESSAGES))
    else
      let '(rx, retained) :=
        drain_retired (N.to_nat MAX_RETIRED_DRAIN_WORK) subscription_id (ui_durable_rx i) retained in
      let i := with_durable i rx retained (ui_retired_subscription_ids i) in
      if is_empty rx then (i, Ok tt)
      else (i, Err (IpcRetiredSubscriptionFlood MAX_RETIRED_DRAIN_WORK)).

(** ** Dequeueing *)

(** Pops until a message of a generation that is not retired, or the end. *)
Fixpoint pop_live (retired : gset (list N)) (l : list UnsolicitedServerMessage)
    : option UnsolicitedServerMessage * list UnsolicitedServerMessage :=
  match l with
  | [] => (None, [])
  | m :: l => if durable_message_is_retired retired m then pop_live retired l else (Some m, l)
  end.

(** One lane: what it yields, and what it drops on the way. *)
Definition take_lane (i : UnsolicitedInbox) (lane : UnsolicitedLane)
    : UnsolicitedInbox * option UnsolicitedServerMessage :=
  let retired := ui_retired_subscription_ids i in
  match lane with
  | LaneRetained =>
      let '(m, retained) := pop_live retired (ui_retained_durable i) in
      (with_durable i (ui_durable_rx i) retained retired, m)
  | LaneDurable =>
      if is_empty (ui_retained_durable i) then
        let '(m, rx) := pop_live retired (ui_durable_rx i) in
        (with_durable i rx (ui_retained_durable i) retired, m)
      else (i, None)
  | LaneStream =>
      match first_key (ui_streams i) with
      | Some key =>
          (with_maps i (delete key (ui_streams i)) (ui_conversations i),
           option_map UmStream (ui_streams i !! key))
      | None => (i, None)
      end
  | LaneConversation =>
      match first_key (ui_conversations i) with
      | Some key =>
          (with_maps i (ui_streams i) (delete key (ui_conversations i)),
           option_map (fun th => UmConversationDirty key (fst th) (snd th))
             (ui_conversations i !! key))
      | None => (i, None)
      end
  end.

Fixpoint try_lanes (lanes : list UnsolicitedLane) (i : UnsolicitedInbox)
    : UnsolicitedInbox * option UnsolicitedServerMessage :=
  match lanes with
  | [] => (i, None)
  | lane :: lanes =>
      match take_lane i lane with
      | (i, Some m) => (with_lane i (lane_next lane), Some m)
      | (i, None) => try_lanes lanes i
      end
  end.

Definition lanes_from (first : UnsolicitedLane) : list UnsolicitedLane :=
  [first; lane_next first; lane_next (lane_next first); lane_next (lane_next (lane_next first))].

Definition try_dequeue (i : UnsolicitedInbox) : UnsolicitedInbox * option UnsolicitedServerMessage :=
  try_lanes (lanes_from (ui_next_lane i)) i.

End Inbox.

(** ** What the durable lanes keep *)

Definition live (retired : gset (list N)) (m : UnsolicitedServerMessage) : bool :=
  negb (durable_message_is_retired retired m).

(** The durable messages an inbox holds, in the order they were admitted. *)
Definition durable_messages (i : UnsolicitedInbox) : list UnsolicitedServerMessage :=
  ui_retained_durable i ++ ui_durable_rx i.

Definition is_durable (m : UnsolicitedServerMessage) : bool :=
  is_some (durable_message_subscription_id m).

(** The capacities of the lanes. *)
Record inbox_bounded (i : UnsolicitedInbox) : Prop := {
  ib_rx : count (ui_durable_rx i) <= ui_durable_capacity i;
  ib_retained : count (ui_retained_durable i) <= MAX_RETAINED_DURABLE_MESSAGES;
  ib_retired : N.of_nat (size (ui_retired_subscription_ids i)) <= MAX_RETIRED_SUBSCRIPTION_IDS;
  ib_streams : N.of_nat (size (ui_streams i)) <= ui_stream_capacity i;
  ib_conversations : N.of_nat (size (ui_conversations i)) <= ui_stream_capacity i;
  ib_durable : Forall (fun m => is_durable m = true) (durable_messages i);
}.

Lemma live_mono R R' m : R ⊆ R' -> live R' m = true -> live R m = true.
Proof.
  intros Hs. unfold live, durable_message_is_retired.
  destruct (durable_message_subscription_id m) as [id|]; [|done]. cbn. rewrite !negb_true_iff.
  rewrite !bool_decide_eq_false. set_solver.
Qed.

Lemma filter_live_sub R p l :
  (forall m, live R m = true -> p m = true) ->
  List.filter (live R) (List.filter p l) = List.filter (live R) l.
Proof.
  intros Hp. induction l as [|m l IH]; [done|]. cbn.
  destruct (p m) eqn:E; cbn; destruct (live R m) eqn:El; rewrite ?IH; try done.
  apply Hp in El. congruence.
Qed.

Lemma live_other R id m : id ∈ R -> live R m = true -> other_generation id m = true.
Proof.
  unfold live, durable_message_is_retired, other_generation. intros Hin.
  destruct (durable_message_subscription_id m) as [j|]; [|done]. cbn. rewrite !negb_true_iff.
  rewrite bool_decide_eq_false, eqb_false. intros Hn [= ->]. done.
Qed.

Lemma drain_retired_live R id work : forall rx retained rx' retained',
  id ∈ R -> drain_retired work id rx retained = (rx', retained') ->
  List.filter (live R) (retained' ++ rx') = List.filter (live R) (retained ++ rx).
Proof.
  induction work as [|work IH]; intros rx retained rx' retained' Hin Hd;
    [by injection Hd as <- <-|]. cbn in Hd. destruct rx as [|m rx]; [by injection Hd as <- <-|].
  rewrite (IH _ _ _ _ Hin Hd). destruct (other_generation id m) eqn:Eo.
  - by rewrite <- app_assoc.
  - rewrite !List.filter_app. f_equal. cbn. destruct (live R m) eqn:El; [|done].
    apply (live_other R id) in El; [congruence|done].
Qed.

Lemma drain_retired_count id work : forall rx retained rx' retained',
  drain_retired work id rx retained = (rx', retained') ->
  count retained' + count rx' <= count retained + count rx /\ count rx' <= count rx.
Proof.
  induction work as [|work IH]; intros rx retained rx' retained' Hd.
  - injection Hd as <- <-. lia.
  - cbn in Hd. destruct rx as [|m rx]; [injection Hd as <- <-; lia|].
    apply IH in Hd. rewrite count_cons. destruct (other_generation id m);
      rewrite ?count_app, ?count_cons, ?count_nil in Hd; lia.
Qed.

Lemma pop_live_spec R R' l m l' :
  R' ⊆ R -> pop_live R' l = (m, l') ->
  List.filter (live R) (option_list m ++ l') = List.filter (live R) l
  /\ (forall x, m = Some x -> live R' x = true) /\ count l' <= count l.
Proof.
  intros Hs. induction l as [|x l IH]; intros Hp; cbn in Hp.
  - injection Hp as <- <-. split_and!; [done|done|lia].
  - destruct (durable_message_is_retired R' x) eqn:Er.
    + apply IH in Hp as (Hf & Hm & Hc). split_and!; [|done|rewrite count_cons; lia].
      rewrite Hf. cbn [List.filter]. destruct (live R x) eqn:El; [|done]. apply (live_mono R' R) in El; [|done].
      unfold live in El. by rewrite Er in El.
    + injection Hp as <- <-. split_and!; [done| |rewrite count_cons; lia].
      intros y [= <-]. unfold live. by rewrite Er.
Qed.

(** The durable message a dequeue delivers, if it delivers one. *)
Definition durable_of (om : option UnsolicitedServerMessage) : list UnsolicitedServerMessage :=
  List.filter is_durable (option_list om).

Lemma durable_of_Some m : is_durable m = true -> durable_of (Some m) = [m].
Proof. unfold durable_of. cbn. by intros ->. Qed.

Lemma pop_live_sub R l m l' x : pop_live R l = (m, l') -> x ∈ option_list m ++ l' -> x ∈ l.
Proof.
  revert m l'. induction l as [|y l IH]; intros m l' Hp Hin; cbn in Hp.
  - by injection Hp as <- <-.
  - apply elem_of_cons. destruct (durable_message_is_retired R y); [eauto|].
    injection Hp as <- <-. by apply elem_of_cons.
Qed.

Lemma pop_live_durable R l m l' :
  pop_live R l = (m, l') -> Forall (fun m => is_durable m = true) l ->
  durable_of m = option_list m /\ Forall (fun m => is_durable m = true) l'.
Proof.
  intros Hp Hl. rewrite Forall_forall in Hl. split.
  - destruct m as [m|]; [|done]. apply durable_of_Some, Hl, (pop_live_sub R _ (Some m) l'); [done|].
    cbn. set_solver.
  - apply Forall_forall. intros x Hx. apply Hl, (pop_live_sub R _ m l'); [done|]. set_solver.
Qed.

Lemma size_delete_le {V} (m : gmap (list N) V) k : (size (delete k m) <= size m)%nat.
Proof.
  rewrite map_size_delete. destruct (m !! k); unfold id; lia.
Qed.

Section Lanes.
Context `{QueryPayloads} `{HashOrder}.

(** One lane taken from: nothing durable is lost, doubled or reordered. *)
Record lane_taken (i i' : UnsolicitedInbox) (om : option UnsolicitedServerMessage) : Prop := {
  lt_order : forall R, ui_retired_subscription_ids i ⊆ R ->
    List.filter (live R) (durable_of om ++ durable_messages i')
    = List.filter (live R) (durable_messages i);
  lt_live : forall m, om = Some m -> live (ui_retired_subscription_ids i) m = true;
  lt_retired : ui_retired_subscription_ids i' = ui_retired_subscription_ids i;
  lt_bounded : inbox_bounded i';
}.

Lemma take_lane_taken i lane i' om :
  inbox_bounded i -> take_lane i lane = (i', om) ->
  lane_taken i i' om /\ ui_next_lane i' = ui_next_lane i.
Proof.
  intros [H1 H2 H3 H4 H5 H6] Ht. unfold durable_messages in H6. destruct lane; cbn [take_lane] in Ht.
  - destruct (ui_retained_durable i) eqn:Er; cbn [is_empty] in Ht.
    + destruct (pop_live _ _) as [m rx] eqn:Hp. injection Ht as <- <-. split; [|done].
      destruct (pop_live_durable _ _ _ _ Hp H6) as [Hd Hf].
      split; cbn.
      * intros R HR. rewrite Hd. unfold durable_messages. cbn. rewrite Er. cbn.
        by apply (pop_live_spec R _ _ _ _ HR Hp).
      * by apply (pop_live_spec _ _ _ _ _ (reflexivity _) Hp).
      * done.
      * destruct (pop_live_spec _ _ _ _ _ (reflexivity _) Hp) as (_ & _ & Hc).
        split; cbn; rewrite ?Er; try done; lia.
    + injection Ht as <- <-. split; [|done]. split; try done.
      split; try done; unfold durable_messages; by rewrite ?Er.
  - destruct (pop_live _ _) as [m retained] eqn:Hp. injection Ht as <- <-. split; [|done].
    apply Forall_app in H6 as [H6 H7]. destruct (pop_live_durable _ _ _ _ Hp H6) as [Hd Hf].
    split; cbn.
    + intros R HR. rewrite Hd. unfold durable_messages. cbn. rewrite app_assoc, !List.filter_app.
      f_equal. rewrite <- List.filter_app. by apply (pop_live_spec R _ _ _ _ HR Hp).
    + by apply (pop_live_spec _ _ _ _ _ (reflexivity _) Hp).
    + done.
    + destruct (pop_live_spec _ _ _ _ _ (reflexivity _) Hp) as (_ & _ & Hc).
      split; cbn; try done; [lia|]. by apply Forall_app.
  - pose proof (first_key_spec (ui_streams i)) as Hk. destruct (first_key (ui_streams i)) as [k|].
    + injection Ht as <- <-. split; [|done]. apply is_some_true in Hk as [f ->]. split; try done.
      * by intros m [= <-].
      * split; try done. cbn. pose proof (size_delete_le (ui_streams i) k). lia.
    + injection Ht as <- <-. split; [|done]. by split.
  - pose proof (first_key_spec (ui_conversations i)) as Hk.
    destruct (first_key (ui_conversations i)) as [k|].
    + injection Ht as <- <-. split; [|done]. apply is_some_true in Hk as [f ->]. split; try done.
      * by intros m [= <-].
      * split; try done. cbn. pose proof (size_delete_le (ui_conversations i) k). lia.
    + injection Ht as <- <-. split; [|done]. by split.
Qed.
End Lanes.

Section Runs.
Context `{QueryPayloads} `{HashOrder}.

Lemma lane_taken_trans i i1 i2 om :
  lane_taken i i1 None -> lane_taken i1 i2 om -> lane_taken i i2 om.
Proof.
  intros [Ho1 _ Hr1 _] [Ho2 Hl2 Hr2 Hb2]. split; [|by rewrite <- Hr1|by rewrite Hr2|done].
  intros R HR. rewrite Ho2 by (by rewrite Hr1). by apply (Ho1 R).
Qed.

Lemma try_lanes_taken lanes : forall i i' om,
  inbox_bounded i -> try_lanes lanes i = (i', om) -> lane_taken i i' om.
Proof.
  induction lanes as [|lane lanes IH]; intros i i' om Hb Ht; cbn in Ht.
  - injection Ht as <- <-. by split.
  - destruct (take_lane i lane) as [i1 [m|]] eqn:Hl;
      apply take_lane_taken in Hl as [Hl _]; try done.
    + injection Ht as <- <-. destruct Hl as [? ? ? []]. by split.
    + eapply lane_taken_trans; [done|]. apply (IH i1); [|done]. apply Hl.
Qed.

Lemma try_dequeue_taken i i' om : inbox_bounded i -> try_dequeue i = (i', om) -> lane_taken i i' om.
Proof. apply try_lanes_taken. Qed.

(** What one operation does to the durable messages an inbox holds: [pushed] is
    what it admitted, [om] what it delivered. *)
Record inbox_moved (i i' : UnsolicitedInbox) (pushed : list UnsolicitedServerMessage)
    (om : option UnsolicitedServerMessage) : Prop := {
  im_order : forall R, ui_retired_subscription_ids i' ⊆ R ->
    List.filter (live R) (durable_of om ++ durable_messages i')
    = List.filter (live R) (durable_messages i ++ pushed);
  im_live : forall m, om = Some m -> live (ui_retired_subscription_ids i) m = true;
  im_retired : ui_retired_subscription_ids i ⊆ ui_retired_subscription_ids i';
  im_bounded : inbox_bounded i';
}.

Lemma inbox_still i : inbox_bounded i -> inbox_moved i i [] None.
Proof. intros Hb. split; [intros R _; by rewrite app_nil_r|done|done|done]. Qed.

Lemma push_durable_moved i m i' res :
  inbox_bounded i -> push_durable i m = (i', res) ->
  inbox_moved i i' (if is_ok res then [m] else []) None.
Proof.
  intros Hb Hp. unfold push_durable in Hp.
  destruct (ui_closed i); [injection Hp as <- <-; by apply inbox_still|].
  destruct (durable_message_subscription_id m) as [id|] eqn:Hid;
    [|injection Hp as <- <-; by apply inbox_still].
  destruct (durable_message_is_retired _ m) eqn:Hr.
  - injection Hp as <- <-. split; try done. intros R HR. cbn [is_ok]. rewrite (List.filter_app _ (durable_messages i)).
    cbn. destruct (live R m) eqn:El; [|by rewrite app_nil_r].
    apply (live_mono (ui_retired_subscription_ids i) R) in El; [|done].
    unfold live in El. by rewrite Hr in El.
  - destruct (N.leb_spec (ui_durable_capacity i) (count (ui_durable_rx i)));
      injection Hp as <- <-; [by apply inbox_still|]. destruct Hb as [H1' H2' H3' H4' H5' H6'].
    split; try done.
    + intros R HR. unfold durable_messages. cbn. by rewrite app_assoc.
    + split; try done; cbn.
      * rewrite count_app, count_cons, count_nil. lia.
      * unfold durable_messages in *. cbn. rewrite app_assoc. apply Forall_app. split; [done|].
        constructor; [|done]. unfold is_durable. by rewrite Hid.
Qed.

Lemma size_insert_bound {V} (m : gmap (list N) V) k v n :
  is_some (m !! k) || (N.of_nat (size m) <? n) = true -> N.of_nat (size m) <= n ->
  N.of_nat (size (<[k := v]> m)) <= n.
Proof.
  intros Hc Hn. rewrite map_size_insert. destruct (m !! k); [done|]. cbn in Hc.
  apply N.ltb_lt in Hc. lia.
Qed.

Lemma push_stream_moved i f i' res :
  inbox_bounded i -> push_stream i f = (i', res) -> inbox_moved i i' [] None.
Proof.
  intros Hb Hp. unfold push_stream in Hp.
  destruct (ui_closed i); [injection Hp as <- <-; by apply inbox_still|].
  destruct (_ || _) eqn:Hc; injection Hp as <- <-; [|by apply inbox_still].
  destruct Hb as [H1' H2' H3' H4' H5' H6']. split; try done.
  - intros R _. by rewrite app_nil_r.
  - split; try done. cbn. by apply size_insert_bound.
Qed.

Lemma conversation_insert_moved i id t hw :
  inbox_bounded i -> inbox_moved i (conversation_insert i id t hw) [] None.
Proof.
  intros Hb. unfold conversation_insert.
  assert (is_some (ui_conversations i !! id)
          || (N.of_nat (size (ui_conversations i)) <? ui_stream_capacity i) = true ->
          inbox_moved i (with_maps i (ui_streams i)
                           (<[id := (t, hw)]> (ui_conversations i))) [] None) as Hins.
  { intros Hc. destruct Hb as [H1' H2' H3' H4' H5' H6']. split; try done.
    - intros R _. by rewrite app_nil_r.
    - split; try done. cbn. by apply size_insert_bound. }
  destruct (ui_conversations i !! id) as [[t0 hw0]|] eqn:E.
  - destruct (hw0 <? hw); [apply Hins; by rewrite ?E|by apply inbox_still].
  - destruct (_ <? ui_stream_capacity i) eqn:Hs; [apply Hins; by rewrite ?E|by apply inbox_still].
Qed.

Lemma push_conversation_moved i id t hw i' res :
  inbox_bounded i -> push_conversation_dirty i id t hw = (i', res) -> inbox_moved i i' [] None.
Proof.
  intros Hb Hp. unfold push_conversation_dirty in Hp.
  destruct (conversation_admitted i id hw) as [[]|]; injection Hp as <- <-;
    [by apply conversation_insert_moved|by apply inbox_still..].
Qed.

Lemma count_filter_le {A} (p : A -> bool) l : count (List.filter p l) <= count l.
Proof. induction l as [|x l IH]; cbn; [done|]. destruct (p x); rewrite ?count_cons; lia. Qed.

Lemma Forall_filter_bool {A} (P : A -> Prop) p l : Forall P l -> Forall P (List.filter p l).
Proof. induction 1; cbn; [done|]. destruct (p x); auto. Qed.

Lemma drain_retired_durable id work : forall rx retained rx' retained',
  drain_retired work id rx retained = (rx', retained') ->
  Forall (fun m => is_durable m = true) (retained ++ rx) ->
  Forall (fun m => is_durable m = true) (retained' ++ rx').
Proof.
  induction work as [|work IH]; intros rx retained rx' retained' Hd Hf;
    [by injection Hd as <- <-|]. cbn in Hd. destruct rx as [|m rx]; [by injection Hd as <- <-|].
  apply (IH _ _ _ _ Hd). destruct (other_generation id m); [by rewrite <- app_assoc|].
  apply Forall_app in Hf as [? Hf]. apply Forall_cons in Hf as [_ ?]. by apply Forall_app.
Qed.

Lemma retire_size (R : gset (list N)) id n :
  N.of_nat (size R) <= n ->
  bool_decide (id ∉ R) && (n <=? N.of_nat (size R)) = false -> N.of_nat (size ({[id]} ∪ R)) <= n.
Proof.
  intros Hs Hf. destruct (decide (id ∈ R)) as [Hin|Hin].
  - assert ({[id]} ∪ R = R) as -> by set_solver. done.
  - rewrite bool_decide_eq_true_2 in Hf by done. cbn in Hf. apply N.leb_gt in Hf.
    rewrite size_union by set_solver. rewrite size_singleton. lia.
Qed.

Lemma retired_more (R R' : gset (list N)) id : {[id]} ∪ R ⊆ R' -> id ∈ R' /\ R ⊆ R'.
Proof. set_solver. Qed.

Lemma retire_moved i id i' res :
  inbox_bounded i -> retire_subscription_id i id = (i', res) -> inbox_moved i i' [] None.
Proof.
  intros Hb Hp. pose proof Hb as [H1' H2' H3' H4' H5' H6']. unfold retire_subscription_id in Hp.
  destruct (bool_decide (id ∉ _) && _) eqn:Hfull; [injection Hp as <- <-; by apply inbox_still|].
  set (retained := List.filter (other_generation id) (ui_retained_durable i)) in *.
  cbn [ui_durable_rx with_maps with_durable ui_retired_subscription_ids] in Hp.
  assert (N.of_nat (size ({[id]} ∪ ui_retired_subscription_ids i)) <= MAX_RETIRED_SUBSCRIPTION_IDS) as Hsz
    by (by apply retire_size).
  assert (count retained <= count (ui_retained_durable i)) as Hcr by apply count_filter_le.
  assert (Forall (fun m => is_durable m = true) (retained ++ ui_durable_rx i)) as Hdur.
  { unfold durable_messages in H6'. apply Forall_app in H6' as [? ?]. apply Forall_app.
    split; [by apply Forall_filter_bool|done]. }
  assert (forall R, {[id]} ∪ ui_retired_subscription_ids i ⊆ R ->
            List.filter (live R) (retained ++ ui_durable_rx i)
            = List.filter (live R) (durable_messages i)) as Hord.
  { intros R HR. unfold durable_messages. rewrite !List.filter_app. f_equal.
    apply filter_live_sub. intros m. apply live_other. by apply retired_more in HR as [? _]. }
  pose proof (size_delete_le (ui_conversations i) id) as Hcv.
  destruct (N.ltb_spec MAX_RETAINED_DURABLE_MESSAGES
              (saturating_add (count retained) (count (ui_durable_rx i)))) as [Hlt|Hle].
  - injection Hp as <- <-. split; try done; cbn.
    + intros R HR. rewrite app_nil_r. by apply (Hord R).
    + apply union_subseteq_r.
    + split; cbn; try done; lia.
  - destruct (drain_retired _ id _ retained) as [rx kept] eqn:Hd.
    pose proof (drain_retired_count _ _ _ _ _ _ Hd) as [Hc1 Hc2].
    pose proof (drain_retired_durable _ _ _ _ _ _ Hd Hdur) as Hdur'.
    apply saturating_add_le in Hle; [|done].
    assert (inbox_moved i (with_durable (with_maps (with_durable i (ui_durable_rx i) retained
      ({[id]} ∪ ui_retired_subscription_ids i)) (ui_streams i) (delete id (ui_conversations i)))
      rx kept ({[id]} ∪ ui_retired_subscription_ids i)) [] None) as Hgoal.
    { split; try done; cbn.
      - intros R HR. rewrite app_nil_r. unfold durable_messages at 1. cbn.
        rewrite (drain_retired_live R id _ _ _ _ _ (proj1 (retired_more _ _ _ HR)) Hd). by apply Hord.
      - apply union_subseteq_r.
      - split; cbn; try done; lia. }
    by destruct (is_empty rx); injection Hp as <- <-.
Qed.
End Runs.

(** ** Runs of an inbox *)

Inductive inbox_op :=
| IoPushDurable (m : UnsolicitedServerMessage)
| IoPushStream (frame : StreamFrame)
| IoPushConversation (subscription_id : SubscriptionId) (task_id : TaskId) (high_water : N)
| IoRetire (subscription_id : SubscriptionId)
| IoDequeue
| IoClose.

(** The inbox after an operation, the durable messages it admitted and the message
    it delivered. *)
Definition inbox_step `{QueryPayloads} `{HashOrder} (i : UnsolicitedInbox) (op : inbox_op)
    : UnsolicitedInbox * list UnsolicitedServerMessage * option UnsolicitedServerMessage :=
  match op with
  | IoPushDurable m =>
      let '(i, res) := push_durable i m in (i, if is_ok res then [m] else [], None)
  | IoPushStream f => (fst (push_stream i f), [], None)
  | IoPushConversation id t hw => (fst (push_conversation_dirty i id t hw), [], None)
  | IoRetire id => (fst (retire_subscription_id i id), [], None)
  | IoDequeue => let '(i, om) := try_dequeue i in (i, [], om)
  | IoClose => (inbox_close i, [], None)
  end.

(** The inbox after the operations, all it admitted and all it delivered. *)
Fixpoint inbox_run `{QueryPayloads} `{HashOrder} (i : UnsolicitedInbox) (ops : list inbox_op)
    : UnsolicitedInbox * list UnsolicitedServerMessage * list UnsolicitedServerMessage :=
  match ops with
  | [] => (i, [], [])
  | op :: ops =>
      let '(i, pushed, om) := inbox_step i op in
      let '(i, pushed', delivered) := inbox_run i ops in
      (i, pushed ++ pushed', option_list om ++ delivered)
  end.

Section Order.
Context `{QueryPayloads} `{HashOrder}.

Lemma inbox_step_moved i op i' pushed om :
  inbox_bounded i -> inbox_step i op = (i', pushed, om) -> inbox_moved i i' pushed om.
Proof.
  intros Hb Hs. destruct op; cbn [inbox_step] in Hs.
  - destruct (push_durable i m) eqn:E. injection Hs as <- <- <-. by eapply push_durable_moved.
  - destruct (push_stream i frame) eqn:E. injection Hs as <- <- <-. by eapply push_stream_moved.
  - destruct (push_conversation_dirty i _ _ _) eqn:E. injection Hs as <- <- <-.
    by eapply push_conversation_moved.
  - destruct (retire_subscription_id i _) eqn:E. injection Hs as <- <- <-. by eapply retire_moved.
  - destruct (try_dequeue i) eqn:E. injection Hs as <- <- <-.
    destruct (try_dequeue_taken _ _ _ Hb E) as [Ho Hl Hr Hb']. split; [|done|by rewrite Hr|done].
    intros R HR. rewrite app_nil_r. apply Ho. by rewrite <- Hr.
  - injection Hs as <- <- <-. destruct Hb.
    split; [intros R _; by rewrite app_nil_r|done|done|by split].
Qed.

Lemma inbox_run_moved ops : forall i i' pushed delivered,
  inbox_bounded i -> inbox_run i ops = (i', pushed, delivered) ->
  inbox_bounded i' /\ ui_retired_subscription_ids i ⊆ ui_retired_subscription_ids i'
  /\ forall R, ui_retired_subscription_ids i' ⊆ R ->
       List.filter (live R) (List.filter is_durable delivered ++ durable_messages i')
       = List.filter (live R) (durable_messages i ++ pushed).
Proof.
  induction ops as [|op ops IH]; intros i i' pushed delivered Hb Hr; cbn in Hr.
  - injection Hr as <- <- <-. split_and!; [done|done|]. intros R _. by rewrite app_nil_r.
  - destruct (inbox_step i op) as [[i1 pushed1] om] eqn:Hs.
    destruct (inbox_run i1 ops) as [[i2 pushed2] delivered2] eqn:Hr2. injection Hr as <- <- <-.
    destruct (inbox_step_moved _ _ _ _ _ Hb Hs) as [Ho1 _ Hs1 Hb1].
    destruct (IH _ _ _ _ Hb1 Hr2) as (Hb2 & Hs2 & Ho2). split_and!; [done|by etrans|].
    intros R HR. specialize (Ho1 R ltac:(by etrans)). specialize (Ho2 R HR).
    rewrite List.filter_app in Ho2. rewrite (List.filter_app is_durable).
    fold (durable_of om). rewrite <- app_assoc, (List.filter_app (live R) (durable_of om)).
    rewrite (List.filter_app (live R) (List.filter is_durable delivered2)), Ho2.
    rewrite app_assoc, (List.filter_app (live R) (durable_messages i ++ pushed1)), <- Ho1.
    by rewrite !List.filter_app, app_assoc.
Qed.

(** Every message delivered is live when it is delivered. *)
Lemma inbox_run_live ops : forall i i' pushed delivered,
  inbox_bounded i -> inbox_run i ops = (i', pushed, delivered) ->
  Forall (fun m => live (ui_retired_subscription_ids i) m = true) delivered.
Proof.
  induction ops as [|op ops IH]; intros i i' pushed delivered Hb Hr; cbn in Hr.
  - by injection Hr as <- <- <-.
  - destruct (inbox_step i op) as [[i1 pushed1] om] eqn:Hs.
    destruct (inbox_run i1 ops) as [[i2 pushed2] delivered2] eqn:Hr2. injection Hr as <- <- <-.
    destruct (inbox_step_moved _ _ _ _ _ Hb Hs) as [_ Hl Hs1 Hb1]. apply Forall_app. split.
    + destruct om as [m|]; [|done]. constructor; [by apply Hl|done].
    + eapply Forall_impl; [by eapply IH|]. intros m. by apply live_mono.
Qed.

(** The retired subscriptions as the calls made tell them: each one retired is among them,
    unless 64 others are already. *)
Definition retire_in (retired : gset (list N)) (op : inbox_op) : gset (list N) :=
  match op with
  | IoRetire id =>
      if decide (id ∈ retired \/ N.of_nat (size retired) < 64) then {[id]} ∪ retired else retired
  | _ => retired
  end.

Definition retired_by (ops : list inbox_op) : gset (list N) := foldl retire_in ∅ ops.

Lemma retire_retires i id :
  ui_retired_subscription_ids (fst (retire_subscription_id i id))
  = retire_in (ui_retired_subscription_ids i) (IoRetire id)
  /\ (~ (id ∈ ui_retired_subscription_ids i
         \/ N.of_nat (size (ui_retired_subscription_ids i)) < 64) ->
      retire_subscription_id i id = (i, Err (IpcRetiredSubscriptionFlood 64))).
Proof.
  unfold retire_subscription_id, retire_in, MAX_RETIRED_SUBSCRIPTION_IDS.
  destruct (decide _) as [Hroom|Hfull].
  - assert (bool_decide (id ∉ ui_retired_subscription_ids i)
            && (64 <=? N.of_nat (size (ui_retired_subscription_ids i))) = false) as ->.
    { apply andb_false_iff. destruct Hroom as [Hin|Hlt];
        [left; by apply bool_decide_eq_false_2; intros []|right; by apply N.leb_gt]. }
    split; [|done]. destruct (_ <? _); [done|]. destruct (drain_retired _ _ _ _) as [rx kept].
    by destruct (is_empty rx).
  - rewrite bool_decide_eq_true_2 by auto.
    destruct (N.leb_spec 64 (N.of_nat (size (ui_retired_subscription_ids i)))); [done|].
    by exfalso; apply Hfull; right.
Qed.

(** Only a retirement changes the retired subscriptions. *)
Lemma inbox_step_retired i op i' pushed om :
  inbox_bounded i -> inbox_step i op = (i', pushed, om) ->
  ui_retired_subscription_ids i' = retire_in (ui_retired_subscription_ids i) op.
Proof.
  intros Hb Hs. destruct op; cbn [inbox_step] in Hs.
  - unfold push_durable in Hs. repeat case_match; by simplify_eq.
  - unfold push_stream in Hs. repeat case_match; by simplify_eq.
  - unfold push_conversation_dirty, conversation_insert in Hs.
    destruct (conversation_admitted _ _ _) as [[]|]; try (by injection Hs as <- <- <-).
    destruct (ui_conversations i !! subscription_id) as [[t0 h0]|];
      destruct (_ <? _); by injection Hs as <- <- <-.
  - injection Hs as <- <- <-. apply retire_retires.
  - destruct (try_dequeue i) eqn:E. injection Hs as <- <- <-.
    apply (lt_retired _ _ _ (try_dequeue_taken _ _ _ Hb E)).
  - by injection Hs as <- <- <-.
Qed.

Lemma inbox_run_retired ops : forall i i' pushed delivered,
  inbox_bounded i -> inbox_run i ops = (i', pushed, delivered) ->
  ui_retired_subscription_ids i' = foldl retire_in (ui_retired_subscription_ids i) ops.
Proof.
  induction ops as [|op ops IH]; intros i i' pushed delivered Hb Hr; cbn in Hr.
  - by injection Hr as <- <- <-.
  - destruct (inbox_step i op) as [[i1 pushed1] om] eqn:Hs.
    destruct (inbox_run i1 ops) as [[i2 pushed2] delivered2] eqn:Hr2. injection Hr as <- <- <-.
    pose proof (im_bounded _ _ _ _ (inbox_step_moved _ _ _ _ _ Hb Hs)) as Hb1.
    rewrite (IH _ _ _ _ Hb1 Hr2). cbn. f_equal. by eapply inbox_step_retired.
Qed.

Lemma inbox_new_bounded d s : inbox_bounded (inbox_new d s).
Proof.
  split; cbn -[N.max size]; rewrite ?count_nil, ?size_empty, ?map_size_empty; try done; apply N.le_0_l.
Qed.

(** C13: Whatever is pushed into, taken from, retired in or closed on a connection's inbox, in any
    order: for every subscription not retired, the durable messages delivered and then those
    still waiting are exactly the ones admitted, in the order of the wire, none lost, doubled or
    overtaken. A call that retires a subscription retires it, even when it fails on a flood of
    messages; only when 64 others are retired already is it refused and the inbox left as it was.
    No durable message of a subscription retired so far is delivered from then on. Every lane stays
    within its capacity. *)
Theorem inbox_keeps_order durable_capacity stream_capacity before ops :
  let '(i, _, _) := inbox_run (inbox_new durable_capacity stream_capacity) before in
  let '(i', pushed, delivered) := inbox_run i ops in
  let retired := retired_by (before ++ ops) in
  List.filter (live retired) (List.filter is_durable delivered ++ durable_messages i')
  = List.filter (live retired) (durable_messages i ++ pushed)
  /\ Forall (fun m => live (retired_by before) m = true) delivered
  /\ ui_retired_subscription_ids i' = retired
  /\ (forall id, ~ (id ∈ retired \/ N.of_nat (size retired) < 64) ->
        retire_subscription_id i' id = (i', Err (IpcRetiredSubscriptionFlood 64)))
  /\ inbox_bounded i'.
Proof.
  destruct (inbox_run (inbox_new _ _) before) as [[i p0] d0] eqn:Hi.
  destruct (inbox_run i ops) as [[i' pushed] delivered] eqn:Hr.
  pose proof (inbox_run_retired _ _ _ _ _ (inbox_new_bounded _ _) Hi) as HR.
  apply inbox_run_moved in Hi as (Hb & _ & _); [|apply inbox_new_bounded].
  pose proof (inbox_run_retired _ _ _ _ _ Hb Hr) as HR'.
  assert (ui_retired_subscription_ids i' = retired_by (before ++ ops)) as Hret.
  { unfold retired_by. by rewrite foldl_app, HR', HR. }
  destruct (inbox_run_moved _ _ _ _ _ Hb Hr) as (Hb' & _ & Ho). rewrite <- Hret.
  split_and!; [by apply Ho| |done| |done].
  - unfold retired_by. change ∅ with (ui_retired_subscription_ids (inbox_new durable_capacity stream_capacity)).
    rewrite <- HR. by eapply inbox_run_live.
  - intros id. apply retire_retires.
Qed.
End Order.

(** ** Every lane is served *)

Section Fairness.
Context `{QueryPayloads} `{HashOrder}.

(** A dequeue that looks at this lane finds a message in it. *)
Definition lane_ready (i : UnsolicitedInbox) (lane : UnsolicitedLane) : bool :=
  let retired := ui_retired_subscription_ids i in
  match lane with
  | LaneDurable =>
      is_empty (ui_retained_durable i) && is_some (fst (pop_live retired (ui_durable_rx i)))
  | LaneRetained => is_some (fst (pop_live retired (ui_retained_durable i)))
  | LaneStream => negb (bool_decide (ui_streams i = ∅))
  | LaneConversation => negb (bool_decide (ui_conversations i = ∅))
  end.

(** How many lanes the rotation visits before this one. *)
Definition lane_distance (from lane : UnsolicitedLane) : nat :=
  if decide (from = lane) then 0
  else if decide (lane_next from = lane) then 1
  else if decide (lane_next (lane_next from) = lane) then 2 else 3.

Definition comes_from (lane : UnsolicitedLane) (m : UnsolicitedServerMessage) : bool :=
  match lane, m with
  | LaneStream, UmStream _ | LaneConversation, UmConversationDirty _ _ _ => true
  | (LaneDurable | LaneRetained), (UmDurableEvent _ _ | UmResyncRequired _ _ _) => true
  | _, _ => false
  end.

Lemma pop_live_in R l m l' : pop_live R l = (Some m, l') -> m ∈ l.
Proof. intros Hp. apply (pop_live_sub R l (Some m) l' m Hp). cbn. by apply elem_of_cons; left. Qed.

Lemma take_lane_comes_from i lane i' m :
  inbox_bounded i -> take_lane i lane = (i', Some m) -> comes_from lane m = true.
Proof.
  intros Hb Ht. pose proof (ib_durable i Hb) as Hd. unfold durable_messages in Hd.
  apply Forall_app in Hd as [Hre Hrx]. destruct lane; cbn [take_lane] in Ht.
  - destruct (is_empty _); [|done]. destruct (pop_live _ _) as [om rx] eqn:Hp.
    injection Ht as _ ->. apply pop_live_in in Hp. rewrite Forall_forall in Hrx. specialize (Hrx m Hp).
    by destruct m.
  - destruct (pop_live _ _) as [om rx] eqn:Hp. injection Ht as _ ->.
    apply pop_live_in in Hp. rewrite Forall_forall in Hre. specialize (Hre m Hp).
    by destruct m.
  - destruct (first_key _) as [k|]; [|done]. injection Ht as _ Hm.
    destruct (ui_streams i !! k); [|done]. by injection Hm as <-.
  - destruct (first_key _) as [k|]; [|done]. injection Ht as _ Hm.
    destruct (ui_conversations i !! k); [|done]. by injection Hm as <-.
Qed.

Lemma first_key_ready {V W : Type} (m : gmap (list N) V) (f : list N -> V -> W)
    `{!base.Decision (m = ∅)} :
  is_some (match first_key m with Some k => option_map (f k) (m !! k) | None => None end)
  = negb (bool_decide (m = ∅)).
Proof.
  pose proof (first_key_spec m) as Hk. destruct (first_key m) as [k|].
  - apply is_some_true in Hk as [v Hv]. rewrite Hv. cbn. rewrite bool_decide_eq_false_2; [done|].
    intros ->. by rewrite lookup_empty in Hv.
  - rewrite bool_decide_eq_true_2; done.
Qed.

Lemma take_lane_ready i lane : is_some (snd (take_lane i lane)) = lane_ready i lane.
Proof.
  destruct lane; cbn [take_lane lane_ready].
  - destruct (is_empty _); [|done]. by destruct (pop_live _ _).
  - by destruct (pop_live _ _).
  - rewrite <- (first_key_ready _ (fun _ => UmStream)). by destruct (first_key _).
  - rewrite <- (first_key_ready _ (fun k th => UmConversationDirty k (fst th) (snd th))).
    by destruct (first_key _).
Qed.

(** Looking at another lane does not empty this one. *)
Lemma take_other_ready i other lane i' om :
  take_lane i other = (i', om) -> other <> lane -> lane_ready i lane = true ->
  lane_ready i' lane = true.
Proof.
  intros Ht Hne Hr. destruct other; cbn [take_lane] in Ht.
  - destruct (is_empty (ui_retained_durable i)) eqn:Ee; [|by injection Ht as <- <-].
    destruct (pop_live _ _) as [om' rx]. injection Ht as <- <-. by destruct lane.
  - destruct (pop_live _ _) as [om' re] eqn:Ep. injection Ht as <- <-. destruct lane; try done.
    cbn in *. destruct (ui_retained_durable i); [|done]. cbn in Ep. by injection Ep as <- <-.
  - destruct (first_key _) as [k|]; injection Ht as <- <-; [|done]. by destruct lane.
  - destruct (first_key _) as [k|]; injection Ht as <- <-; [|done]. by destruct lane.
Qed.

(** The lanes looked at before one that is ready yield nothing or are served first. *)
Lemma try_lanes_progress lanes lane : forall i,
  lane ∈ lanes -> lane_ready i lane = true ->
  exists i' m served, try_lanes lanes i = (i', Some m) /\ served ∈ lanes
    /\ ui_next_lane i' = lane_next served
    /\ (inbox_bounded i -> comes_from served m = true)
    /\ (served <> lane -> lane_ready i' lane = true
         /\ exists before after, lanes = before ++ served :: after /\ lane ∈ after).
Proof.
  induction lanes as [|l lanes IH]; intros i Hin Hr; [by apply not_elem_of_nil in Hin|].
  cbn [try_lanes]. destruct (take_lane i l) as [i1 [m|]] eqn:Ht.
  - exists (with_lane i1 (lane_next l)), m, l. split_and!; [done|by left|done| |].
    + intros Hb. by eapply take_lane_comes_from.
    + intros Hne. split.
      * pose proof (take_other_ready _ _ _ _ _ Ht Hne Hr) as Hr1. by destruct lane.
      * exists [], lanes. split; [done|]. apply elem_of_cons in Hin as [->|?]; done.
  - apply elem_of_cons in Hin as [->|Hin].
    + pose proof (take_lane_ready i l) as Hl. by rewrite Ht, Hr in Hl.
    + destruct (decide (l = lane)) as [->|Hne].
      { pose proof (take_lane_ready i lane) as Hl. by rewrite Ht, Hr in Hl. }
      pose proof (take_other_ready _ _ _ _ _ Ht Hne Hr) as Hr1.
      destruct (IH i1 Hin Hr1) as (i' & m & served & H1' & H2' & H3' & H4' & H5').
      exists i', m, served. split_and!; [done|by right|done| |].
      * intros Hb. apply H4'. apply (take_lane_taken _ _ _ _ Hb Ht).
      * intros Hs. destruct (H5' Hs) as [? (b & a & -> & ?)]. split; [done|]. by exists (l :: b), a.
Qed.

Lemma lanes_from_all from lane : lane ∈ lanes_from from.
Proof. by destruct from, lane; cbn; set_solver. Qed.

Lemma lanes_from_after from lane before served after :
  lanes_from from = before ++ served :: after -> lane ∈ after ->
  (lane_distance (lane_next served) lane < lane_distance from lane)%nat.
Proof.
  unfold lanes_from. intros Hl Hin.
  destruct before as [|b1 [|b2 [|b3 [|b4 before]]]]; cbn in Hl; simplify_eq.
  - rewrite !elem_of_cons, elem_of_nil in Hin.
    destruct Hin as [->|[->|[->|[]]]]; destruct served; vm_compute; lia.
  - rewrite !elem_of_cons, elem_of_nil in Hin. destruct Hin as [->|[->|[]]]; destruct b1; vm_compute; lia.
  - rewrite !elem_of_cons, elem_of_nil in Hin. destruct Hin as [->|[]]; destruct b1; vm_compute; lia.
  - by apply elem_of_nil in Hin.
  - by destruct before.
Qed.

(** Operations that neither retire a generation nor take a message. *)
Definition is_push (op : inbox_op) : bool :=
  match op with IoPushDurable _ | IoPushStream _ | IoPushConversation _ _ _ => true | _ => false end.

Lemma pop_live_app R l k : is_some (fst (pop_live R l)) = true -> is_some (fst (pop_live R (l ++ k))) = true.
Proof.
  induction l as [|m l IH]; [done|]. cbn. by destruct (durable_message_is_retired R m).
Qed.

Lemma insert_ready {V} (m : gmap (list N) V) k v `{!base.Decision (<[k := v]> m = ∅)} :
  negb (bool_decide (<[k := v]> m = ∅)) = true.
Proof. rewrite bool_decide_eq_false_2; [done|]. apply insert_non_empty. Qed.

Lemma push_keeps_ready i op i' pushed om lane :
  is_push op = true -> inbox_step i op = (i', pushed, om) -> lane_ready i lane = true ->
  lane_ready i' lane = true /\ ui_next_lane i' = ui_next_lane i.
Proof.
  intros Hop Hs Hr. destruct op; try done; cbn [inbox_step] in Hs.
  - unfold push_durable in Hs. destruct (ui_closed i); [by injection Hs as <- <- <-|].
    destruct (durable_message_subscription_id m); [|by injection Hs as <- <- <-].
    destruct (durable_message_is_retired _ m); [by injection Hs as <- <- <-|].
    destruct (_ <=? _); injection Hs as <- <- <-; [done|]. split; [|done].
    destruct lane; try done. cbn in *. apply andb_true_iff in Hr as [-> Hr]. by apply pop_live_app.
  - unfold push_stream in Hs. destruct (ui_closed i); [by injection Hs as <- <- <-|].
    destruct (_ || _); injection Hs as <- <- <-; [|done]. split; [|done].
    destruct lane; try done. apply insert_ready.
  - unfold push_conversation_dirty, conversation_insert in Hs.
    destruct (conversation_admitted _ _ _) as [[]|]; try (by injection Hs as <- <- <-).
    destruct (ui_conversations i !! subscription_id) as [[t0 h0]|];
      destruct (_ <? _); injection Hs as <- <- <-; try done;
      (split; [|done]); destruct lane; try done; apply insert_ready.
Qed.

(** Some dequeue of the run delivers a message of the lane. *)
Fixpoint lane_served (lane : UnsolicitedLane) (i : UnsolicitedInbox) (ops : list inbox_op) : Prop :=
  match ops with
  | [] => False
  | op :: ops =>
      let '(i', _, om) := inbox_step i op in
      (op = IoDequeue /\ exists m, om = Some m /\ comes_from lane m = true
       /\ ui_next_lane i' = lane_next lane)
      \/ lane_served lane i' ops
  end.

Definition is_dequeue (op : inbox_op) : bool := match op with IoDequeue => true | _ => false end.

Lemma lane_served_within ops lane : forall i,
  inbox_bounded i -> lane_ready i lane = true ->
  forallb (fun op => is_push op || is_dequeue op) ops = true ->
  (lane_distance (ui_next_lane i) lane < length (List.filter is_dequeue ops))%nat ->
  lane_served lane i ops.
Proof.
  induction ops as [|op ops IH]; intros i Hb Hr Hops Hd; cbn [List.filter length] in Hd; [lia|].
  cbn [forallb] in Hops. apply andb_true_iff in Hops as [Hop Hops]. cbn [lane_served].
  destruct (inbox_step i op) as [[i' pushed] om] eqn:Hs.
  pose proof (im_bounded _ _ _ _ (inbox_step_moved _ _ _ _ _ Hb Hs)) as Hb'.
  destruct (is_push op) eqn:Hpush.
  - right. destruct (push_keeps_ready _ _ _ _ _ _ Hpush Hs Hr) as [Hr' Hn].
    apply IH; [done|done|done|]. rewrite Hn. by destruct op.
  - destruct op; try done. cbn [is_dequeue length] in Hd. cbn [inbox_step] in Hs. unfold try_dequeue in Hs.
    destruct (try_lanes_progress _ lane i (lanes_from_all (ui_next_lane i) lane) Hr)
      as (i1 & m & served & Ht & _ & Hn & Hc & Hne).
    rewrite Ht in Hs. injection Hs as -> <- <-. destruct (decide (served = lane)) as [->|Hsl].
    + left. split; [done|]. exists m. auto.
    + right. destruct (Hne Hsl) as [Hr' (b & a & Hl & Ha)].
      apply IH; [done|done|done|]. rewrite Hn.
      pose proof (lanes_from_after _ _ _ _ _ Hl Ha). lia.
Qed.

(** C18: No lane of the inbox starves: from any state it can reach, once a lane has a message to give
    (durable, retained, stream or conversation), the fourth dequeue at the latest delivers one from
    it, whatever is pushed onto any lane in between. *)
Theorem no_lane_starves durable_capacity stream_capacity before lane ops :
  let '(i, _, _) := inbox_run (inbox_new durable_capacity stream_capacity) before in
  lane_ready i lane = true ->
  forallb (fun op => is_push op || is_dequeue op) ops = true ->
  4 <= count (List.filter is_dequeue ops) -> lane_served lane i ops.
Proof.
  destruct (inbox_run (inbox_new _ _) before) as [[i p0] d0] eqn:Hi. intros Hr Hops Hc.
  apply inbox_run_moved in Hi as (Hb & _ & _); [|apply inbox_new_bounded].
  apply lane_served_within; [done..|].
  assert (lane_distance (ui_next_lane i) lane <= 3)%nat by (by destruct (ui_next_lane i), lane; vm_compute; lia).
  unfold count in Hc. lia.
Qed.
End Fairness.

(** ** An inbox at work *)

Definition toy_payloads : QueryPayloads :=
  {| prompt_library_query := unit; provider_settings_request := unit; remote_setup_request := unit; host_quit_inspection := unit;
     prompt_projection_reply := unit; task_cockpit_result := unit;
     prompt_mutation_receipt := unit; io_error := unit; message_pack_error := unit;
     client_hello_error := unit; server_hello_error := unit |}.

Definition toy_first_key {V} (m : gmap (list N) V) : option (list N) :=
  option_map fst (head (map_to_list m)).

Lemma toy_first_key_spec {V} (m : gmap (list N) V) :
  match toy_first_key m with Some k => is_some (m !! k) = true | None => m = ∅ end.
Proof.
  unfold toy_first_key. destruct (map_to_list m) as [|[k v] l] eqn:E; cbn.
  - by apply map_to_list_empty_iff.
  - apply is_some_true. exists v. apply elem_of_map_to_list. rewrite E. by left.
Qed.

Definition toy_order : HashOrder := {| first_key := @toy_first_key; first_key_spec := @toy_first_key_spec |}.

#[local] Existing Instance toy_payloads.
#[local] Existing Instance toy_order.

Definition sample_resync (subscription : N) (sequence : N) : UnsolicitedServerMessage :=
  UmResyncRequired [subscription] sequence sequence.

Definition sample_inbox_ops : list inbox_op :=
  [IoPushDurable (sample_resync 1 1); IoPushDurable (sample_resync 2 2); IoRetire [1];
   IoPushDurable (sample_resync 2 3); IoPushConversation [2] 7 4].

Lemma no_lane_starves_witness :
  lane_served LaneConversation
    (fst (fst (inbox_run (inbox_new 8 2) sample_inbox_ops)))
    [IoDequeue; IoPushDurable (sample_resync 2 5); IoDequeue; IoDequeue; IoDequeue].
Proof.
  exact (no_lane_starves 8 2 sample_inbox_ops LaneConversation
           [IoDequeue; IoPushDurable (sample_resync 2 5); IoDequeue; IoDequeue; IoDequeue]
           ltac:(by vm_compute) ltac:(by vm_compute) ltac:(by vm_compute)).
Defined.

Example retired_tail_dropped :
  snd (inbox_run (inbox_new 8 2) (sample_inbox_ops ++ [IoDequeue; IoDequeue; IoDequeue]))
  = [sample_resync 2 2; UmConversationDirty [2] 7 4; sample_resync 2 3].
Proof. by vm_compute. Qed.

(** The wake is checked under the durable fence and inserted after it is released: a
    retirement between the two leaves a wake of the retired generation behind, and
    a dequeue delivers it. *)
Example late_wake_survives_retirement :
  let i := inbox_new 8 2 in
  conversation_admitted i [1] 4 = Ok true
  /\ (let retired := fst (retire_subscription_id i [1]) in
      snd (try_dequeue (conversation_insert retired [1] 7 4)) = Some (UmConversationDirty [1] 7 4)
      /\ snd (try_dequeue (fst (push_conversation_dirty retired [1] 7 4))) = None).
Proof. by vm_compute. Qed.
