(* ===== verification/HostClient.v ===== *)
(** The client of one host ([HostClient] of [client/host_client.rs]): correlated
    queries over the live connection, which is retired on the first reply that
    does not answer the question, and the tracking of accepted operations. *)
From S2P Require Import Prelude Canonical Task Agent Resource Artifact Browser Operation Event Command Frame Stream Pages Query UnsolicitedInbox.

(** What the client asks of a connection: [ClientConnection] of
    [client/connection.rs], with the host at its far end.  Request ids are drawn
    where [RequestId::new] is called. *)
Class ClientConnection `{HostPayloads} `{QueryPayloads} := {
  connection : Type;
  is_live : connection -> bool;
  new_request_id : connection -> RequestId;
  connection_query : connection -> QueryEnvelope -> connection * result QueryReply IpcError;
  connection_execute : connection -> CommandEnvelope ->
    connection * result (CommandReceipt prompt_mutation_receipt) IpcError;
  connection_retire : connection -> SubscriptionId -> connection * result unit IpcError;
  connection_recv : connection -> connection * result UnsolicitedServerMessage IpcError;
}.

Inductive TrackedOperation :=
| TrPending (command_id : CommandId)
| TrResolved (command_id : CommandId) (state : OperationState).

#[export] Instance TrackedOperation_eq_dec : EqDecision TrackedOperation.
Proof. solve_decision. Defined.

Definition tracked_command (t : TrackedOperation) : CommandId :=
  match t with TrPending c | TrResolved c _ => c end.

Record EventReplayBatch := { rb_subscription_id : SubscriptionId; rb_page : EventPage }.
Record ArtifactContentBatch := { ab_subscription_id : SubscriptionId; ab_page : ArtifactContentPage }.

Record HostClient `{ClientConnection} := {
  hc_client_id : ClientId;
  hc_granted : CapabilitySet;
  hc_connection : option connection;
  hc_tracked : gmap N TrackedOperation;
}.

Section Client.
Context `{HP : HostPayloads} `{QP : QueryPayloads} `{CC : !ClientConnection}.

Definition with_connection (h : HostClient) (c : option connection) : HostClient :=
  {| hc_client_id := hc_client_id h; hc_granted := hc_granted h; hc_connection := c;
     hc_tracked := hc_tracked h |}.

Definition with_tracked (h : HostClient) (tracked : gmap N TrackedOperation) : HostClient :=
  {| hc_client_id := hc_client_id h; hc_granted := hc_granted h;
     hc_connection := hc_connection h; hc_tracked := tracked |}.

Definition granted (h : HostClient) (c : Capability) : bool := contains (hc_granted h) c.

Definition retire_connection (h : HostClient) : HostClient := with_connection h None.
Definition disconnect (h : HostClient) : HostClient := with_connection h None.
Definition is_connected (h : HostClient) : bool := is_some_and (hc_connection h) is_live.

Definition live_connection (h : HostClient) : result connection IpcError :=
  match hc_connection h with
  | Some c => if is_live c then Ok c else Err IpcUnavailable
  | None => Err IpcUnavailable
  end.

(** A request on [&mut self]. *)
Notation asked T := (HostClient * result T IpcError)%type.
(** [Result<Result<T, QueryError>, IpcError>] *)
Notation answered T := (HostClient * result (result T QueryError) IpcError)%type.

Definition mismatch {T} (h : HostClient) : asked T := (retire_connection h, Err IpcCorrelationMismatch).
Definition unexpected {T} (h : HostClient) : asked T := (retire_connection h, Err IpcUnexpectedResponse).

(** [connection.query(QueryEnvelope { .. }).await] on a live connection. *)
Definition query_live (h : HostClient) (c : connection) (task_id : option TaskId) (q : Query)
    : asked QueryReply :=
  let '(c, reply) := connection_query c
    {| qe_request_id := new_request_id c; qe_client_id := hc_client_id h; qe_task_id := task_id;
       qe_query := q |} in
  (with_connection h (Some c), reply).

(** The reply of one query, the connection retired when there is none. *)
Definition ask (h : HostClient) (task_id : option TaskId) (q : Query) : asked QueryOutcome :=
  match live_connection h with
  | Err e => (h, Err e)
  | Ok c =>
      match query_live h c task_id q with
      | (h, Ok reply) => (h, Ok (qr_outcome reply))
      | (h, Err e) => (retire_connection h, Err e)
      end
  end.

(** ** Snapshots *)

Definition snapshot_page_scoped (h : HostClient) (section : SnapshotSection)
    (task_id : option TaskId) (snapshot_id : option SnapshotId) (resume_cursor : option (list N))
    : answered SnapshotPage :=
  if negb (granted h PagedSnapshots) then (h, Err IpcUnsupportedCapability)
  else
    match ask h task_id (QSnapshotPage section snapshot_id resume_cursor) with
    | (h, Err e) => (h, Err e)
    | (h, Ok (Err error)) => (h, Ok (Err error))
    | (h, Ok (Ok (QrSnapshotPage page))) =>
        if negb (sp_section page =?= section) then mismatch h
        else if negb (is_none_or snapshot_id (fun expected => sp_snapshot_id page =? expected))
        then mismatch h
        else (h, Ok (Ok page))
    | (h, Ok (Ok _)) => unexpected h
    end.

Definition snapshot_page (h : HostClient) (section : SnapshotSection)
    (snapshot_id : option SnapshotId) (resume_cursor : option (list N)) : answered SnapshotPage :=
  snapshot_page_scoped h section None snapshot_id resume_cursor.

Definition release_snapshot_scoped (h : HostClient) (snapshot_id : SnapshotId)
    (task_id : option TaskId) : answered unit :=
  if negb (granted h PagedSnapshots) then (h, Err IpcUnsupportedCapability)
  else
    match ask h task_id (QReleaseSnapshot snapshot_id) with
    | (h, Err e) => (h, Err e)
    | (h, Ok (Err error)) => (h, Ok (Err error))
    | (h, Ok (Ok (QrSnapshotReleased released))) =>
        if released =? snapshot_id then (h, Ok (Ok tt)) else mismatch h
    | (h, Ok (Ok _)) => unexpected h
    end.

Definition release_snapshot (h : HostClient) (snapshot_id : SnapshotId) : answered unit :=
  release_snapshot_scoped h snapshot_id None.

(** ** Event replay *)

Definition open_event_replay (h : HostClient) (after_sequence : N) : answered EventReplayBatch :=
  if negb (granted h EventReplay) then (h, Err IpcUnsupportedCapability)
  else
    match ask h None (QOpenEventReplay after_sequence) with
    | (h, Err e) => (h, Err e)
    | (h, Ok (Err error)) => (h, Ok (Err error))
    | (h, Ok (Ok (QrEventReplayPage subscription_id page))) =>
        if negb (ep_after_sequence page =? after_sequence) then mismatch h
        else (h, Ok (Ok {| rb_subscription_id := subscription_id; rb_page := page |}))
    | (h, Ok (Ok _)) => unexpected h
    end.

Definition continue_event_replay (h : HostClient) (subscription_id : SubscriptionId)
    (resume_cursor : list N) : answered EventReplayBatch :=
  if negb (granted h EventReplay) then (h, Err IpcUnsupportedCapability)
  else
    match ask h None (QContinueEventReplay subscription_id resume_cursor) with
    | (h, Err e) => (h, Err e)
    | (h, Ok (Err error)) => (h, Ok (Err error))
    | (h, Ok (Ok (QrEventReplayPage returned page))) =>
        if negb (returned =?= subscription_id) then mismatch h
        else (h, Ok (Ok {| rb_subscription_id := returned; rb_page := page |}))
    | (h, Ok (Ok _)) => unexpected h
    end.

(** Fences the tail of a released subscription in the connection's inbox. *)
Definition fence_retired_subscription (h : HostClient) (subscription_id : SubscriptionId)
    : asked unit :=
  let '(h, res) :=
    match hc_connection h with
    | Some c => let '(c, res) := connection_retire c subscription_id in
                (with_connection h (Some c), res)
    | None => (h, Err IpcUnavailable)
    end in
  (if is_ok res then h else retire_connection h, res).

(** [self.fence_retired_subscription(..).await?; Ok(answer)] *)
Definition fenced_answer (h : HostClient) (subscription_id : SubscriptionId)
    (answer : result unit QueryError) : answered unit :=
  match fence_retired_subscription h subscription_id with
  | (h, Err e) => (h, Err e)
  | (h, Ok _) => (h, Ok answer)
  end.

(** A failed fence is ignored: the connection goes anyway. *)
Definition fenced_retire (h : HostClient) (subscription_id : SubscriptionId) (error : IpcError)
    : answered unit :=
  (retire_connection (fst (fence_retired_subscription h subscription_id)), Err error).

Definition release_event_replay (h : HostClient) (subscription_id : SubscriptionId) : answered unit :=
  if negb (granted h EventReplay) then
    match hc_connection h with
    | None => (h, Err IpcUnsupportedCapability)
    | Some _ =>
        match fence_retired_subscription h subscription_id with
        | (h, Err e) => (h, Err e)
        | (h, Ok _) => (h, Err IpcUnsupportedCapability)
        end
    end
  else
    match live_connection h with
    | Err e => (h, Err e)
    | Ok c =>
        match query_live h c None (QReleaseEventReplay subscription_id) with
        | (h, Err error) => fenced_retire h subscription_id error
        | (h, Ok reply) =>
            match qr_outcome reply with
            | Err error => fenced_answer h subscription_id (Err error)
            | Ok (QrEventReplayReleased released) =>
                if released =?= subscription_id then fenced_answer h subscription_id (Ok tt)
                else fenced_retire h subscription_id IpcCorrelationMismatch
            | Ok _ => fenced_retire h subscription_id IpcUnexpectedResponse
            end
        end
    end.

(** ** Artifact content *)

Definition open_artifact_content (h : HostClient) (task_id : TaskId) (artifact_id : ArtifactId)
    : answered ArtifactContentBatch :=
  if negb (granted h ChunkResume) then (h, Err IpcUnsupportedCapability)
  else
    match ask h (Some task_id) (QOpenArtifactContent artifact_id) with
    | (h, Err e) => (h, Err e)
    | (h, Ok (Err error)) => (h, Ok (Err error))
    | (h, Ok (Ok (QrArtifactContentPage subscription_id page))) =>
        if negb (ac_artifact_id page =? artifact_id) then mismatch h
        else (h, Ok (Ok {| ab_subscription_id := subscription_id; ab_page := page |}))
    | (h, Ok (Ok _)) => unexpected h
    end.

Definition continue_artifact_content (h : HostClient) (task_id : TaskId)
    (subscription_id : SubscriptionId) (resume_cursor : list N) : answered ArtifactContentBatch :=
  if negb (granted h ChunkResume) then (h, Err IpcUnsupportedCapability)
  else
    match ask h (Some task_id) (QContinueArtifactContent subscription_id resume_cursor) with
    | (h, Err e) => (h, Err e)
    | (h, Ok (Err error)) => (h, Ok (Err error))
    | (h, Ok (Ok (QrArtifactContentPage returned page))) =>
        if negb (returned =?= subscription_id) then mismatch h
        else (h, Ok (Ok {| ab_subscription_id := returned; ab_page := page |}))
    | (h, Ok (Ok _)) => unexpected h
    end.

Definition release_artifact_content (h : HostClient) (task_id : TaskId)
    (subscription_id : SubscriptionId) : answered unit :=
  if negb (granted h ChunkResume) then (h, Err IpcUnsupportedCapability)
  else
    match ask h (Some task_id) (QReleaseArtifactContent subscription_id) with
    | (h, Err e) => (h, Err e)
    | (h, Ok (Err error)) => (h, Ok (Err error))
    | (h, Ok (Ok (QrArtifactContentReleased released))) =>
        if released =?= subscription_id then (h, Ok (Ok tt)) else mismatch h
    | (h, Ok (Ok _)) => unexpected h
    end.

(** ** Accepted operations *)

Definition track_accepted_receipt (tracked : gmap N TrackedOperation)
    (receipt : CommandReceipt prompt_mutation_receipt)
    : result (gmap N TrackedOperation) IpcError :=
  match receipt with
  | Accepted command_id operation_id _ _ _ =>
      match tracked !! operation_id with
      | None => Ok (<[operation_id := TrPending command_id]> tracked)
      | Some existing =>
          ensure tracked_command existing =? command_id else IpcCorrelationMismatch ;;
          Ok tracked
      end
  | Rejected _ _ _ _ => Ok tracked
  end.

Definition correlate_operation_status (expected : OperationId) (r : QueryResult)
    : result OperationState IpcError :=
  match r with
  | QrOperationStatus operation_id state =>
      if operation_id =? expected then Ok state else Err IpcCorrelationMismatch
  | _ => Err IpcUnexpectedResponse
  end.

Definition apply_observed_operation_state (tracked : gmap N TrackedOperation)
    (operation_id : OperationId) (state : OperationState)
    : result (gmap N TrackedOperation) IpcError :=
  match tracked !! operation_id with
  | None => Ok tracked
  | Some (TrPending command_id) =>
      match state with
      | OpAccepted => Ok tracked
      | _ => Ok (<[operation_id := TrResolved command_id state]> tracked)
      end
  | Some (TrResolved command_id existing) =>
      if existing =?= state then Ok tracked
      else
        match existing, state with
        | OpUncertain _ _, (OpSettled _ _ | OpFailed _ _) =>
            Ok (<[operation_id := TrResolved command_id state]> tracked)
        | _, _ => Err IpcCorrelationMismatch
        end
  end.

Definition refresh_operation (h : HostClient) (operation_id : OperationId)
    : answered OperationState :=
  if negb (granted h OperationSettlement) then (h, Err IpcUnsupportedCapability)
  else
    match ask h None (QOperationStatus operation_id) with
    | (h, Err e) => (h, Err e)
    | (h, Ok (Err error)) => (h, Ok (Err error))
    | (h, Ok (Ok r)) =>
        match correlate_operation_status operation_id r with
        | Err error => (retire_connection h, Err error)
        | Ok state =>
            match apply_observed_operation_state (hc_tracked h) operation_id state with
            | Err error => (retire_connection h, Err error)
            | Ok tracked => (with_tracked h tracked, Ok (Ok state))
            end
        end
    end.

Definition execute_command (h : HostClient) (envelope : CommandEnvelope)
    : asked (CommandReceipt prompt_mutation_receipt) :=
  if negb (ce_client_id envelope =? hc_client_id h) then (h, Err IpcUnauthorized)
  else
    match live_connection h with
    | Err e => (h, Err e)
    | Ok c =>
        let '(c, outcome) := connection_execute c envelope in
        let h := with_connection h (Some c) in
        match outcome with
        | Err IpcDuplicateInFlight => (h, Err IpcDuplicateInFlight)
        | Err error => (retire_connection h, Err error)
        | Ok receipt =>
            match track_accepted_receipt (hc_tracked h) receipt with
            | Err error => (retire_connection h, Err error)
            | Ok tracked => (with_tracked h tracked, Ok receipt)
            end
        end
    end.

(** The loop that moves the operations of [source]: what is settled here stays. *)
Definition absorb_one (tracked : gmap N TrackedOperation) (incoming : N * TrackedOperation)
    : gmap N TrackedOperation :=
  let '(operation_id, incoming) := incoming in
  match tracked !! operation_id, incoming with
  | None, _ => <[operation_id := incoming]> tracked
  | Some (TrResolved _ _), _ => tracked
  | Some (TrPending _), TrResolved _ _ => <[operation_id := incoming]> tracked
  | Some (TrPending _), TrPending _ => tracked
  end.

Definition absorb_conflict (tracked : gmap N TrackedOperation) (incoming : N * TrackedOperation)
    : bool :=
  is_some_and (tracked !! fst incoming) (fun existing =>
    negb (tracked_command existing =? tracked_command (snd incoming))).

(** Both clients after the call. *)
Definition absorb_tracked_operations (h source : HostClient)
    : HostClient * HostClient * result unit IpcError :=
  let incoming := sorted_entries (hc_tracked source) in
  if existsb (absorb_conflict (hc_tracked h)) incoming
  then (h, source, Err IpcCorrelationMismatch)
  else (with_tracked h (fold_left absorb_one incoming (hc_tracked h)), with_tracked source ∅, Ok tt).

(** ** Unsolicited messages *)

Definition recv_unsolicited (h : HostClient) : asked UnsolicitedServerMessage :=
  match live_connection h with
  | Err e => (h, Err e)
  | Ok c => let '(c, res) := connection_recv c in (with_connection h (Some c), res)
  end.

End Client.

(** ** What tracking promises *)

(** An outcome stands, but for an uncertain one that turns out settled or failed. *)
Definition outcome_stands (s s' : OperationState) : Prop :=
  s' = s \/ match s, s' with
            | OpUncertain _ _, (OpSettled _ _ | OpFailed _ _) => True
            | _, _ => False
            end.

(** No tracked operation is forgotten, changes its command or goes back. *)
Definition tracked_evolves (t t' : gmap N TrackedOperation) : Prop := forall id,
  match t !! id, t' !! id with
  | None, _ => True
  | Some (TrPending c), Some x => tracked_command x = c
  | Some (TrResolved c s), Some (TrResolved c' s') => c' = c /\ outcome_stands s s'
  | Some _, _ => False
  end.

Lemma tracked_evolves_refl t : tracked_evolves t t.
Proof. intros id. destruct (t !! id) as [[c|c s]|]; [done| |done]. split; [done|by left]. Qed.

Lemma tracked_evolves_insert t id x :
  match t !! id with
  | None => True
  | Some (TrPending c) => tracked_command x = c
  | Some (TrResolved c s) => exists s', x = TrResolved c s' /\ outcome_stands s s'
  end -> tracked_evolves t (<[id := x]> t).
Proof.
  intros Hx i. destruct (decide (i = id)) as [->|Hne].
  - rewrite lookup_insert_eq. destruct (t !! id) as [[c|c s]|]; [done| |done].
    by destruct Hx as (s' & -> & ?).
  - rewrite lookup_insert_ne by done. apply tracked_evolves_refl.
Qed.

Lemma outcome_stands_trans s1 s2 s3 : outcome_stands s1 s2 -> outcome_stands s2 s3 -> outcome_stands s1 s3.
Proof. intros [->|H1] [->|H2]; [by left|by right|by right|]. by destruct s1, s2, s3. Qed.

Lemma tracked_evolves_trans t1 t2 t3 : tracked_evolves t1 t2 -> tracked_evolves t2 t3 -> tracked_evolves t1 t3.
Proof.
  intros Ha Hb id. specialize (Ha id). specialize (Hb id).
  destruct (t1 !! id) as [[c|c s]|]; [| |done]; destruct (t2 !! id) as [[c2|c2 s2]|]; try done;
    destruct (t3 !! id) as [[c3|c3 s3]|]; try done; cbn in *; try (by destruct Hb as [-> _]); subst; try done.
  - destruct Ha as [-> Ha], Hb as [-> Hb]. split; [done|]. by eapply outcome_stands_trans.
Qed.

#[export] Instance tracked_evolves_preorder : PreOrder tracked_evolves.
Proof. split; [exact tracked_evolves_refl|exact tracked_evolves_trans]. Qed.

Section Tracking.
Context `{HP : HostPayloads} `{QP : QueryPayloads} `{CC : !ClientConnection}.

Lemma track_receipt_evolves t receipt t' :
  track_accepted_receipt t receipt = Ok t' ->
  tracked_evolves t t'
  /\ (forall id, t !! id = None -> forall x, t' !! id = Some x ->
        exists c a b d, receipt = Accepted c id a b d /\ x = TrPending c).
Proof.
  unfold track_accepted_receipt.
  destruct receipt as [command id a b d|]; [|by intros [= <-]; split; [|intros i Hn x Hx; congruence]].
  destruct (t !! id) as [existing|] eqn:Et.
  - intros Hx. apply rbind_Ok in Hx as (_ & _ & Hx). injection Hx as <-.
    split; [done|intros i Hn x Hx; congruence].
  - intros [= <-]. split; [apply tracked_evolves_insert; by rewrite Et|].
    intros i Hn x Hx. destruct (decide (i = id)) as [->|Hne].
    + rewrite lookup_insert_eq in Hx. injection Hx as <-. by eauto 10.
    + rewrite lookup_insert_ne in Hx by done. congruence.
Qed.

Lemma observed_state_evolves t id state t' :
  apply_observed_operation_state t id state = Ok t' ->
  tracked_evolves t t' /\ (forall i, is_some (t' !! i) = is_some (t !! i))
  /\ (forall x, t !! id = Some x -> state <> OpAccepted ->
        t' !! id = Some (TrResolved (tracked_command x) state)).
Proof.
  unfold apply_observed_operation_state. destruct (t !! id) as [[c|c s]|] eqn:Et.
  - destruct (decide (state = OpAccepted)) as [->|Hne].
    + intros [= <-]. split_and!; [done|done|]. by intros x _ [].
    + intros Hx. assert (t' = <[id := TrResolved c state]> t) as -> by (by destruct state; injection Hx as <-).
      split_and!.
      * apply tracked_evolves_insert. by rewrite Et.
      * intros i. destruct (decide (i = id)) as [->|?]; [by rewrite lookup_insert_eq, Et|by rewrite lookup_insert_ne].
      * intros x [= <-] _. by rewrite lookup_insert_eq.
  - destruct (s =?= state) eqn:Es.
    + apply eqb_true_1 in Es as ->. intros [= <-]. split_and!; [done|done|]. by intros x [= <-] _.
    + intros Hx. assert (t' = <[id := TrResolved c state]> t /\ outcome_stands s state) as [-> Ho].
      { destruct s; try done; destruct state; try done; injection Hx as <-; split; [done|by right|done|by right]. }
      split_and!.
      * apply tracked_evolves_insert. rewrite Et. by exists state.
      * intros i. destruct (decide (i = id)) as [->|?]; [by rewrite lookup_insert_eq, Et|by rewrite lookup_insert_ne].
      * intros x [= <-] _. by rewrite lookup_insert_eq.
  - intros [= <-]. split_and!; [done|done|]. congruence.
Qed.

(** ** Absorbing the operations of another client *)

Lemma absorb_one_evolves t k x :
  absorb_conflict t (k, x) = false ->
  tracked_evolves t (absorb_one t (k, x))
  /\ (exists y, absorb_one t (k, x) !! k = Some y /\ tracked_command y = tracked_command x)
  /\ (forall i, i <> k -> absorb_one t (k, x) !! i = t !! i).
Proof.
  unfold absorb_conflict, absorb_one. cbn [fst snd]. destruct (t !! k) as [e|] eqn:Et; cbn.
  - intros Hc%negb_false_iff%N.eqb_eq. destruct e as [c|c s]; cbn in Hc.
    + destruct x as [c'|c' s']; cbn in Hc.
      * split_and!; [done|by exists (TrPending c)|done].
      * split_and!; [apply tracked_evolves_insert; by rewrite Et| |intros; by rewrite lookup_insert_ne].
        exists (TrResolved c' s'). by rewrite lookup_insert_eq.
    + split_and!; [done|by exists (TrResolved c s)|done].
  - intros _. split_and!; [apply tracked_evolves_insert; by rewrite Et| |intros; by rewrite lookup_insert_ne].
    exists x. by rewrite lookup_insert_eq.
Qed.

Lemma absorb_all l : forall t,
  NoDup l.*1 -> (forall kx, kx ∈ l -> absorb_conflict t kx = false) ->
  tracked_evolves t (fold_left absorb_one l t)
  /\ (forall k x, (k, x) ∈ l -> exists y, fold_left absorb_one l t !! k = Some y
                                       /\ tracked_command y = tracked_command x)
  /\ (forall i, i ∉ l.*1 -> fold_left absorb_one l t !! i = t !! i).
Proof.
  induction l as [|[k x] l IH]; intros t Hd Hc; cbn [fold_left].
  - split_and!; [done|set_solver|done].
  - apply NoDup_cons in Hd as [Hk Hd].
    destruct (absorb_one_evolves t k x (Hc (k, x) ltac:(set_solver))) as (He & (y & Hy & Hyx) & Ho).
    destruct (IH (absorb_one t (k, x)) Hd) as (He2 & Hl & Hi).
    { intros [k' x'] Hin. unfold absorb_conflict. cbn [fst snd]. rewrite Ho.
      - apply (Hc (k', x')). set_solver.
      - intros ->. apply Hk. apply list_elem_of_fmap. by exists (k, x'). }
    split_and!.
    + by etrans.
    + intros k' x' [[= -> ->]|Hin]%elem_of_cons; [|by apply Hl]. rewrite Hi by done. by exists y.
    + intros i Hni. cbn in Hni. rewrite Hi by set_solver. apply Ho. set_solver.
Qed.

Lemma absorb_evolves h source h' source' r :
  absorb_tracked_operations h source = (h', source', r) ->
  tracked_evolves (hc_tracked h) (hc_tracked h')
  /\ match r with
     | Err _ => h' = h /\ source' = source
     | Ok _ => hc_tracked source' = ∅
               /\ (forall k x, hc_tracked source !! k = Some x ->
                     exists y, hc_tracked h' !! k = Some y /\ tracked_command y = tracked_command x)
               /\ (forall k, hc_tracked source !! k = None -> hc_tracked h' !! k = hc_tracked h !! k)
     end.
Proof.
  unfold absorb_tracked_operations. destruct (existsb _ _) eqn:Ec; intros [= <- <- <-]; [done|].
  destruct (absorb_all (sorted_entries (hc_tracked source)) (hc_tracked h)) as (He & Hl & Hi).
  - apply sorted_entries_nodup.
  - intros kx Hkx. destruct (absorb_conflict (hc_tracked h) kx) eqn:Ek; [|done].
    assert (existsb (absorb_conflict (hc_tracked h)) (sorted_entries (hc_tracked source)) = true) as Hx;
      [|congruence].
    apply existsb_exists. exists kx. split; [by apply list_elem_of_In|done].
  - cbn. split_and!; [done|done| |].
    + intros k x Hk. by apply Hl, elem_of_sorted_entries.
    + intros k Hk. apply Hi. intros [[k' x] [-> Hin]]%list_elem_of_fmap.
      apply elem_of_sorted_entries in Hin. cbn in Hk. congruence.
Qed.

Lemma retired_tracked h : hc_tracked (retire_connection h) = hc_tracked h.
Proof. done. Qed.

Lemma ask_tracked h t q : hc_tracked (ask h t q).1 = hc_tracked h.
Proof.
  unfold ask, query_live. destruct (live_connection h); [|done].
  destruct (connection_query _ _) as [c' [reply|e]]; done.
Qed.

(** The operations a client tracks are never lost and their outcomes stand: executing a
    command, asking for the state of an operation and taking over the operations of another
    client keep every tracked operation with its command, and an outcome changes only from
    uncertain to settled or failed. A receipt adds only the operation it accepts, pending; an
    observation adds none, and a state observed of a tracked operation is the one it has from
    then on; taking over moves every operation of the other client, or on a conflict of commands
    changes neither client. *)
Theorem tracked_outcomes_stand h :
  (forall envelope h' r, execute_command h envelope = (h', r) ->
     tracked_evolves (hc_tracked h) (hc_tracked h')
     /\ (forall id x, hc_tracked h !! id = None -> hc_tracked h' !! id = Some x ->
           exists c a b d, r = Ok (Accepted c id a b d) /\ x = TrPending c))
  /\ (forall id h' r, refresh_operation h id = (h', r) ->
        tracked_evolves (hc_tracked h) (hc_tracked h')
        /\ (forall i, is_some (hc_tracked h' !! i) = is_some (hc_tracked h !! i))
        /\ (forall state x, r = Ok (Ok state) -> state <> OpAccepted -> hc_tracked h !! id = Some x ->
              hc_tracked h' !! id = Some (TrResolved (tracked_command x) state)))
  /\ (forall source h' source' r, absorb_tracked_operations h source = (h', source', r) ->
        tracked_evolves (hc_tracked h) (hc_tracked h')
        /\ match r with
           | Err _ => h' = h /\ source' = source
           | Ok _ => hc_tracked source' = ∅
                     /\ (forall k x, hc_tracked source !! k = Some x ->
                           exists y, hc_tracked h' !! k = Some y /\ tracked_command y = tracked_command x)
                     /\ (forall k, hc_tracked source !! k = None ->
                           hc_tracked h' !! k = hc_tracked h !! k)
           end).
Proof.
  split_and!; [| |intros; by apply absorb_evolves].
  - intros envelope h' r. unfold execute_command.
    destruct (negb _); [intros [= <- <-]; split; [done|congruence]|].
    destruct (live_connection h) as [c|e]; [|intros [= <- <-]; split; [done|congruence]].
    destruct (connection_execute c envelope) as [c' [receipt|e]].
    + cbn [hc_tracked with_connection]. destruct (track_accepted_receipt _ _) as [t|e] eqn:Et;
        intros [= <- <-]; cbn; [|split; [done|congruence]].
      destruct (track_receipt_evolves _ _ _ Et) as [He Hn]. split; [done|].
      intros id x Hid Hx. destruct (Hn id Hid x Hx) as (k & a & b & d & -> & ->). by eauto 10.
    + intros Hx. assert (hc_tracked h' = hc_tracked h) as Ht by (by destruct e; injection Hx as <- _).
      rewrite Ht. split; [done|congruence].
  - intros id h' r. unfold refresh_operation.
    destruct (negb _); [intros [= <- <-]; split_and!; [done|done|congruence]|].
    pose proof (ask_tracked h None (QOperationStatus id)) as Hk.
    destruct (ask h None (QOperationStatus id)) as [h1 [[q|e]|e]]; cbn in Hk;
      try (intros [= <- <-]; rewrite Hk; split_and!; [done|done|congruence]).
    destruct (correlate_operation_status id q) as [state|e];
      [|intros [= <- <-]; cbn; rewrite Hk; split_and!; [done|done|congruence]].
    destruct (apply_observed_operation_state (hc_tracked h1) id state) as [t|e] eqn:Ea;
      intros [= <- <-]; cbn; rewrite <- Hk; [|split_and!; [done|done|congruence]].
    destruct (observed_state_evolves _ _ _ _ Ea) as (He & Hd & Hs). split_and!; [done|done|].
    intros state' x [= <-] Hne Hx. by apply Hs.
Qed.
End Tracking.
