(* ===== verification/Subscription.v ===== *)
(** The client's subscription ([ClientSubscription] of [client/subscription.rs]):
    the inbox preview, the synchronisation from snapshot and replay, the live tail,
    the detail of a task on demand, and the release of what the host holds for it. *)
From S2P Require Import Prelude Canonical Task Agent Resource Artifact Browser Operation Snapshot Event Command Stream Pages ProjectionIndex Client Assembly Query UnsolicitedInbox HostClient.

Definition SNAPSHOT_SECTIONS : list SnapshotSection :=
  [SecTasks; SecAgentSessions; SecArtifacts; SecResources; SecOperations].
Definition TASK_DETAIL_SECTIONS : list SnapshotSection :=
  [SecAgentSessions; SecArtifacts; SecResources].
Definition BROWSER_SNAPSHOT_SECTIONS : list SnapshotSection := [SecBrowserContexts; SecBrowserTabs].

Definition snapshot_sections (browser task_detail : bool) : list SnapshotSection :=
  (if task_detail then TASK_DETAIL_SECTIONS else SNAPSHOT_SECTIONS)
  ++ (if browser then BROWSER_SNAPSHOT_SECTIONS else []).

Definition MAX_SEEN_EVENT_IDS : N := 8192.
Definition MAX_PENDING_REPLAY_EVENTS : N := 8192.

Inductive ClientSubscriptionState := CsPending | CsReady | CsNeedsResync | CsReleased.

#[export] Instance ClientSubscriptionState_eq_dec : EqDecision ClientSubscriptionState.
Proof. solve_decision. Defined.

Inductive SubscriptionUpdate :=
| UpDurableEvent (event : DomainEvent)
| UpResyncRequired (last_delivered_sequence newest_sequence : N)
| UpStream (frame : StreamFrame)
| UpConversationDirty (subscription_id : SubscriptionId) (task_id : TaskId) (high_water : N).

Inductive SubscriptionError `{QueryPayloads} :=
| SubNotReady
| SubNeedsResync
| SubReleased
| SubModel (error : ClientModelError)
| SubForeignSubscription (message : UnsolicitedServerMessage)
| SubReplayOverflow (limit : N)
| SubInvalidResync
| SubTransport (error : IpcError)
| SubTransportAt (operation : text) (error : IpcError)
| SubQuery (error : QueryError)
| SubIncompleteSnapshot
| SubMissingCapabilities.

Record ClientSubscription := {
  cs_state : ClientSubscriptionState;
  cs_subscription_id : option SubscriptionId;
  cs_model : option ClientModel;
  cs_snapshot_id : option SnapshotId;
  cs_seen_event_ids : gset N;
  cs_seen_event_order : list EventId;
  cs_pending_replay_events : list DomainEvent;
}.

Definition subscription_new : ClientSubscription :=
  {| cs_state := CsPending; cs_subscription_id := None; cs_model := None; cs_snapshot_id := None;
     cs_seen_event_ids := ∅; cs_seen_event_order := []; cs_pending_replay_events := [] |}.

(** ** Field updates *)

Definition cs_with_state (s : ClientSubscription) (state : ClientSubscriptionState) : ClientSubscription :=
  {| cs_state := state; cs_subscription_id := cs_subscription_id s; cs_model := cs_model s;
     cs_snapshot_id := cs_snapshot_id s; cs_seen_event_ids := cs_seen_event_ids s;
     cs_seen_event_order := cs_seen_event_order s;
     cs_pending_replay_events := cs_pending_replay_events s |}.

Definition cs_with_model (s : ClientSubscription) (model : option ClientModel) : ClientSubscription :=
  {| cs_state := cs_state s; cs_subscription_id := cs_subscription_id s; cs_model := model;
     cs_snapshot_id := cs_snapshot_id s; cs_seen_event_ids := cs_seen_event_ids s;
     cs_seen_event_order := cs_seen_event_order s;
     cs_pending_replay_events := cs_pending_replay_events s |}.

(** The remote handles it owns. *)
Definition cs_with_handles (s : ClientSubscription) (subscription_id : option SubscriptionId)
    (snapshot_id : option SnapshotId) : ClientSubscription :=
  {| cs_state := cs_state s; cs_subscription_id := subscription_id; cs_model := cs_model s;
     cs_snapshot_id := snapshot_id; cs_seen_event_ids := cs_seen_event_ids s;
     cs_seen_event_order := cs_seen_event_order s;
     cs_pending_replay_events := cs_pending_replay_events s |}.

Definition cs_with_seen (s : ClientSubscription) (ids : gset N) (order : list EventId)
    : ClientSubscription :=
  {| cs_state := cs_state s; cs_subscription_id := cs_subscription_id s; cs_model := cs_model s;
     cs_snapshot_id := cs_snapshot_id s; cs_seen_event_ids := ids; cs_seen_event_order := order;
     cs_pending_replay_events := cs_pending_replay_events s |}.

Definition cs_with_pending (s : ClientSubscription) (pending : list DomainEvent) : ClientSubscription :=
  {| cs_state := cs_state s; cs_subscription_id := cs_subscription_id s; cs_model := cs_model s;
     cs_snapshot_id := cs_snapshot_id s; cs_seen_event_ids := cs_seen_event_ids s;
     cs_seen_event_order := cs_seen_event_order s; cs_pending_replay_events := pending |}.

(** ** The live tail *)

Definition take_replay_events (s : ClientSubscription) : ClientSubscription * list DomainEvent :=
  (cs_with_pending s [], cs_pending_replay_events s).

Definition remember_event_id (s : ClientSubscription) (event_id : EventId) : ClientSubscription :=
  if bool_decide (event_id ∈ cs_seen_event_ids s) then s
  else
    let ids := {[event_id]} ∪ cs_seen_event_ids s in
    let order := cs_seen_event_order s ++ [event_id] in
    if MAX_SEEN_EVENT_IDS <? count order then
      match order with
      | evicted :: order => cs_with_seen s (ids ∖ {[evicted]}) order
      | [] => cs_with_seen s ids order
      end
    else cs_with_seen s ids order.

Definition observe_recv_transport_failure (s : ClientSubscription) : ClientSubscription :=
  if cs_state s =?= CsReady then cs_with_state s CsNeedsResync else s.

Definition retire_without_transport (s : ClientSubscription) : ClientSubscription :=
  {| cs_state := CsReleased; cs_subscription_id := None; cs_model := None; cs_snapshot_id := None;
     cs_seen_event_ids := ∅; cs_seen_event_order := []; cs_pending_replay_events := [] |}.

Definition state_error `{QueryPayloads} (s : ClientSubscriptionState) : option SubscriptionError :=
  match s with
  | CsReady => None
  | CsNeedsResync => Some SubNeedsResync
  | CsReleased => Some SubReleased
  | CsPending => Some SubNotReady
  end.

Section Tail.
Context `{Sha256} `{UrlParser} `{SpecialistJson} `{UnicodeText} `{QueryPayloads}.

Notation handled := (ClientSubscription * result SubscriptionUpdate SubscriptionError)%type.

Definition needs_resync (s : ClientSubscription) (e : SubscriptionError) : handled :=
  (cs_with_state s CsNeedsResync, Err e).

Definition handle_durable_event (s : ClientSubscription) (subscription_id observed : SubscriptionId)
    (event : DomainEvent) : handled :=
  if negb (observed =?= subscription_id)
  then needs_resync s (SubForeignSubscription (UmDurableEvent observed event))
  else if bool_decide (de_id event ∈ cs_seen_event_ids s) then (s, Ok (UpDurableEvent event))
  else
    match cs_model s with
    | None => (s, Err SubIncompleteSnapshot)
    | Some model =>
        if de_sequence event <=? cm_last_applied_sequence model
        then needs_resync s (SubModel DuplicateOrRegression)
        else
          let s := remember_event_id s (de_id event) in
          match apply_event model event with
          | Err error => needs_resync s (SubModel error)
          | Ok model => (cs_with_model s (Some model), Ok (UpDurableEvent event))
          end
    end.

Definition handle_resync_required (s : ClientSubscription) (subscription_id observed : SubscriptionId)
    (last_delivered_sequence newest_sequence : N) : handled :=
  if negb (observed =?= subscription_id)
  then needs_resync s
         (SubForeignSubscription (UmResyncRequired observed last_delivered_sequence newest_sequence))
  else
    match cs_model s with
    | None => (s, Err SubIncompleteSnapshot)
    | Some model =>
        if (newest_sequence <? last_delivered_sequence)
           || negb (last_delivered_sequence =? cm_last_applied_sequence model)
        then needs_resync s SubInvalidResync
        else (cs_with_state s CsNeedsResync,
              Ok (UpResyncRequired last_delivered_sequence newest_sequence))
    end.

Definition handle_unsolicited_message (s : ClientSubscription) (message : UnsolicitedServerMessage)
    : handled :=
  match state_error (cs_state s) with
  | Some e => (s, Err e)
  | None =>
      match cs_subscription_id s with
      | None => (s, Err SubIncompleteSnapshot)
      | Some subscription_id =>
          match message with
          | UmDurableEvent observed event => handle_durable_event s subscription_id observed event
          | UmResyncRequired observed last newest =>
              handle_resync_required s subscription_id observed last newest
          | UmStream frame => (s, Ok (UpStream frame))
          | UmConversationDirty id task_id high_water =>
              (s, Ok (UpConversationDirty id task_id high_water))
          end
      end
  end.

Definition queue_replay_event (s : ClientSubscription) (event : DomainEvent)
    : ClientSubscription * result unit SubscriptionError :=
  if MAX_PENDING_REPLAY_EVENTS <=? count (cs_pending_replay_events s)
  then (cs_with_state s CsNeedsResync, Err (SubReplayOverflow MAX_PENDING_REPLAY_EVENTS))
  else
    let s := remember_event_id s (de_id event) in
    (cs_with_pending s (cs_pending_replay_events s ++ [event]), Ok tt).

End Tail.

(** ** Asynchronous methods *)

(** What an asynchronous method works on: the subscription and the client. *)
Record world `{ClientConnection} := { w_sub : ClientSubscription; w_client : HostClient }.

(** A computation on both; [None] when a loop ran out of turns. *)
Definition io `{ClientConnection} (A : Type) : Type :=
  world -> world * option (result A SubscriptionError).

Section Monad.
Context `{HP : HostPayloads} `{QP : QueryPayloads} `{CC : !ClientConnection}.

Definition io_ret {A} (a : A) : io A := fun w => (w, Some (Ok a)).
Definition io_fail {A} (e : SubscriptionError) : io A := fun w => (w, Some (Err e)).
Definition io_stuck {A} : io A := fun w => (w, None).

Definition io_bind {A B} (p : io A) (k : A -> io B) : io B := fun w =>
  match p w with
  | (w, Some (Ok a)) => k a w
  | (w, Some (Err e)) => (w, Some (Err e))
  | (w, None) => (w, None)
  end.

(** [match p { Ok(a) => a, Err(error) => { h; return Err(error) } }] *)
Definition io_on_error {A} (p : io A) (h : io unit) : io A := fun w =>
  match p w with
  | (w, Some (Err e)) =>
      match h w with
      | (w, Some _) => (w, Some (Err e))
      | (w, None) => (w, None)
      end
  | r => r
  end.

Definition io_sub : io ClientSubscription := fun w => (w, Some (Ok (w_sub w))).
Definition io_client : io HostClient := fun w => (w, Some (Ok (w_client w))).
Definition io_modify (f : ClientSubscription -> ClientSubscription) : io unit := fun w =>
  ({| w_sub := f (w_sub w); w_client := w_client w |}, Some (Ok tt)).

(** One request to the host. *)
Definition io_request {T} (f : HostClient -> HostClient * T) : io T := fun w =>
  let '(h, a) := f (w_client w) in ({| w_sub := w_sub w; w_client := h |}, Some (Ok a)).

(** A method of the subscription alone. *)
Definition io_method {A} (f : ClientSubscription -> ClientSubscription * result A SubscriptionError)
    : io A := fun w =>
  let '(s, r) := f (w_sub w) in ({| w_sub := s; w_client := w_client w |}, Some r).

Definition io_lift {A} (r : result A SubscriptionError) : io A := fun w => (w, Some r).
Definition io_when (c : bool) (e : SubscriptionError) : io unit :=
  if c then io_fail e else io_ret tt.
End Monad.

Declare Scope io_scope.
Delimit Scope io_scope with io.
Notation "'let!' x := p 'in' k" := (io_bind p (fun x => k))
  (at level 10, x pattern, p at level 99, k at level 200) : io_scope.
Notation "'do!' p ;; k" := (io_bind p (fun _ => k))
  (at level 10, p at level 99, k at level 200) : io_scope.

(** ** Remote handles *)

Section Synchronize.
Context `{HP : HostPayloads} `{QP : QueryPayloads} `{CC : !ClientConnection}.
Context `{Sha256} `{UrlParser} `{SpecialistJson} `{UnicodeText}.
Local Open Scope io_scope.

(** [match client.request(..).await { Ok(Ok(t)) => t, Ok(Err(error)) => return
    Err(Query(error)), Err(error) => return Err(wrap(error)) }] *)
Definition io_answer {T} (wrap : IpcError -> SubscriptionError)
    (request : HostClient -> HostClient * result (result T QueryError) IpcError) : io T :=
  let! answer := io_request request in
  match answer with
  | Ok (Ok t) => io_ret t
  | Ok (Err error) => io_fail (SubQuery error)
  | Err error => io_fail (wrap error)
  end.

(** A release: a handle the host does not know is as good as released. *)
Definition io_released
    (request : HostClient -> HostClient * result (result unit QueryError) IpcError) : io unit :=
  let! answer := io_request request in
  match answer with
  | Ok (Ok _) | Ok (Err QeNotFound) => io_ret tt
  | Ok (Err error) => io_fail (SubQuery error)
  | Err error => io_fail (SubTransport error)
  end.

Definition set_subscription_id (id : option SubscriptionId) : io unit :=
  io_modify (fun s => cs_with_handles s id (cs_snapshot_id s)).
Definition set_snapshot_id (id : option SnapshotId) : io unit :=
  io_modify (fun s => cs_with_handles s (cs_subscription_id s) id).
Definition set_state (state : ClientSubscriptionState) : io unit :=
  io_modify (fun s => cs_with_state s state).

Definition release_event_replay_if_owned : io unit :=
  let! s := io_sub in
  match cs_subscription_id s with
  | None => io_ret tt
  | Some subscription_id =>
      do! io_released (fun h => release_event_replay h subscription_id) ;;
      set_subscription_id None
  end.

Definition release_snapshot_if_owned : io unit :=
  let! s := io_sub in
  match cs_snapshot_id s with
  | None => io_ret tt
  | Some snapshot_id =>
      do! io_released (fun h => release_snapshot h snapshot_id) ;;
      set_snapshot_id None
  end.

(** A release that fails leaves the subscription in need of a resync. *)
Definition or_needs_resync (p : io unit) : io unit := io_on_error p (set_state CsNeedsResync).

(** The error a computation ends with, if it does. *)
Definition io_error_of (p : io unit) : io (option SubscriptionError) := fun w =>
  match p w with
  | (w, Some (Ok _)) => (w, Some (Ok None))
  | (w, Some (Err e)) => (w, Some (Ok (Some e)))
  | (w, None) => (w, None)
  end.

Definition best_effort_cleanup : io (option SubscriptionError) :=
  let! replay := io_error_of release_event_replay_if_owned in
  let! snapshot := io_error_of release_snapshot_if_owned in
  io_ret (match replay with Some e => Some e | None => snapshot end).

(** The cleanup of a preview or synchronisation that fails: what the cleanup
    returns goes to the log at most. *)
Definition give_in : io unit :=
  do! set_state CsNeedsResync ;;
  do! best_effort_cleanup ;;
  io_ret tt.

(** ** Snapshot pages *)

(** The locals of the loop that reads a snapshot. *)
Record Reading := {
  rd_builder : ClientModelBuilder;
  rd_snapshot_id : option SnapshotId;
  rd_through_sequence : option N;
}.

Definition reading_new : Reading :=
  {| rd_builder := builder_new; rd_snapshot_id := None; rd_through_sequence := None |}.

(** The first page of all opens a snapshot; a later one needs its id. *)
Definition requested_id (r : Reading) (section_started : bool) : io (option SnapshotId) :=
  do! io_when (section_started && is_none (rd_snapshot_id r)) SubIncompleteSnapshot ;;
  io_ret (rd_snapshot_id r).

(** The page belongs to the snapshot of the ones before. *)
Definition take_page (r : Reading) (page : SnapshotPage) : io Reading :=
  do! set_snapshot_id (Some (sp_snapshot_id page)) ;;
  do! io_when (negb (is_none_or (rd_snapshot_id r) (fun expected => expected =? sp_snapshot_id page)))
        SubIncompleteSnapshot ;;
  do! io_when (negb (is_none_or (rd_through_sequence r)
                       (fun expected => expected =? sp_through_sequence page)))
        SubIncompleteSnapshot ;;
  match ingest_page (rd_builder r) page with
  | (builder, Ok _) =>
      io_ret {| rd_builder := builder; rd_snapshot_id := Some (sp_snapshot_id page);
                rd_through_sequence := Some (sp_through_sequence page) |}
  | (_, Err error) => io_fail (SubModel error)
  end.

(** One turn of the loop: the reading and the cursor to go on from. *)
Definition read_page (wrap : IpcError -> SubscriptionError) (section : SnapshotSection)
    (r : Reading) (requested : option SnapshotId) (resume_cursor : option (list N))
    : io (Reading * option (list N)) :=
  let! page := io_answer wrap (fun h => snapshot_page h section requested resume_cursor) in
  let! r := take_page r page in
  io_ret (r, sp_next_cursor page).

(** ** The preview of the inbox *)

Fixpoint preview_pages (fuel : nat) (r : Reading) (section_started : bool)
    (resume_cursor : option (list N)) : io (Reading * TaskInboxPreview) :=
  match fuel with
  | O => io_stuck
  | S fuel =>
      let! requested := requested_id r section_started in
      let! taken := io_on_error (read_page SubTransport SecTasks r requested resume_cursor) give_in in
      match snd taken with
      | Some cursor => preview_pages fuel (fst taken) true (Some cursor)
      | None =>
          let! preview := io_on_error
            (io_lift (map_err SubModel (finish_tasks_preview (rd_builder (fst taken))))) give_in in
          io_ret (fst taken, preview)
      end
  end.

Definition preview_tasks (fuel : nat) : io TaskInboxPreview :=
  let! s := io_sub in
  do! io_when (cs_state s =?= CsReady) SubNotReady ;;
  do! io_when (cs_state s =?= CsReleased) SubReleased ;;
  let! client := io_client in
  do! io_when (negb (granted client PagedSnapshots)) SubMissingCapabilities ;;
  do! or_needs_resync release_snapshot_if_owned ;;
  let! read := preview_pages fuel reading_new false None in
  let '(r, preview) := read in
  do! or_needs_resync release_snapshot_if_owned ;;
  do! io_modify (fun s => cs_with_model s None) ;;
  do! io_modify (fun s => if cs_state s =?= CsReady then cs_with_state s CsPending else s) ;;
  let! through := io_lift (ok_or (rd_through_sequence r) SubIncompleteSnapshot) in
  do! io_when (negb (ip_through_sequence preview =? through)) SubIncompleteSnapshot ;;
  io_ret preview.

(** ** Synchronisation *)

(** [{section:?}] *)
Definition section_debug (s : SnapshotSection) : text :=
  match s with
  | SecTasks => lit "Tasks"
  | SecAgentSessions => lit "AgentSessions"
  | SecArtifacts => lit "Artifacts"
  | SecResources => lit "Resources"
  | SecOperations => lit "Operations"
  | SecBrowserContexts => lit "BrowserContexts"
  | SecBrowserTabs => lit "BrowserTabs"
  end.

(** The pages of one section, to the one without a cursor. *)
Fixpoint read_section (fuel : nat) (section : SnapshotSection) (r : Reading)
    (section_started : bool) (resume_cursor : option (list N)) : io Reading :=
  match fuel with
  | O => io_stuck
  | S fuel =>
      let! requested := requested_id r section_started in
      let! taken := read_page (SubTransportAt (lit "snapshot " ++ section_debug section))
                      section r requested resume_cursor in
      match snd taken with
      | Some cursor => read_section fuel section (fst taken) true (Some cursor)
      | None => io_ret (fst taken)
      end
  end.

Fixpoint read_sections (fuel : nat) (sections : list SnapshotSection) (r : Reading) : io Reading :=
  match sections with
  | [] => io_ret r
  | section :: rest =>
      let! r := read_section fuel section r false None in
      read_sections fuel rest r
  end.

Fixpoint queue_replay_events (events : list DomainEvent) : io unit :=
  match events with
  | [] => io_ret tt
  | event :: rest =>
      do! io_method (fun s => queue_replay_event s event) ;;
      queue_replay_events rest
  end.

(** The pages that close the race between the snapshot and the live tail. *)
Fixpoint replay_pages (fuel : nat) (model : ClientModel) (batch : EventReplayBatch)
    : io ClientModel :=
  match fuel with
  | O => io_stuck
  | S fuel =>
      let page := rb_page batch in
      do! queue_replay_events (ep_events page) ;;
      let '(model, applied) := apply_replay_page model page in
      do! io_lift (map_err SubModel applied) ;;
      match ep_next_cursor page with
      | None => io_ret model
      | Some cursor =>
          let! batch := io_answer (SubTransportAt (lit "continue replay"))
            (fun h => continue_event_replay h (rb_subscription_id batch) cursor) in
          let! s := io_sub in
          do! io_when (negb (Some (rb_subscription_id batch) =?= cs_subscription_id s))
                SubIncompleteSnapshot ;;
          replay_pages fuel model batch
      end
  end.

Definition synchronize_inner (fuel : nat) : io unit :=
  let! client := io_client in
  let! r := read_sections fuel (snapshot_sections (granted client BrowserProjection) false)
              reading_new in
  let! model := io_lift (map_err SubModel (finish (rd_builder r))) in
  let! through := io_lift (ok_or (rd_through_sequence r) SubIncompleteSnapshot) in
  do! io_when (negb (cm_last_applied_sequence model =? through)) SubIncompleteSnapshot ;;
  let! batch := io_answer (SubTransportAt (lit "open replay"))
                  (fun h => open_event_replay h through) in
  do! set_subscription_id (Some (rb_subscription_id batch)) ;;
  do! release_snapshot_if_owned ;;
  let! model := replay_pages fuel model batch in
  io_modify (fun s => cs_with_state (cs_with_model s (Some model)) CsReady).

Definition synchronize (fuel : nat) : io unit :=
  let! s := io_sub in
  do! io_when (cs_state s =?= CsReady) SubNotReady ;;
  do! io_when (cs_state s =?= CsReleased) SubReleased ;;
  let! client := io_client in
  do! io_when (negb (granted client PagedSnapshots) || negb (granted client EventReplay))
        SubMissingCapabilities ;;
  do! set_state CsPending ;;
  do! or_needs_resync release_event_replay_if_owned ;;
  do! or_needs_resync release_snapshot_if_owned ;;
  do! io_modify (fun s => cs_with_pending (cs_with_seen s ∅ []) []) ;;
  io_on_error (synchronize_inner fuel)
    (do! set_state CsNeedsResync ;;
     do! io_modify (fun s => cs_with_pending s []) ;;
     do! best_effort_cleanup ;;
     io_ret tt).

(** ** Receiving and releasing *)

Definition recv_and_apply : io SubscriptionUpdate :=
  let! s := io_sub in
  do! match state_error (cs_state s) with Some e => io_fail e | None => io_ret tt end ;;
  let! received := io_request recv_unsolicited in
  match received with
  | Err error =>
      do! io_modify observe_recv_transport_failure ;;
      io_fail (SubTransport error)
  | Ok message => io_method (fun s => handle_unsolicited_message s message)
  end.

Definition release : io unit :=
  let! s := io_sub in
  if (cs_state s =?= CsReleased) && is_none (cs_subscription_id s) && is_none (cs_snapshot_id s)
  then io_ret tt
  else
    do! or_needs_resync release_event_replay_if_owned ;;
    do! or_needs_resync release_snapshot_if_owned ;;
    set_state CsReleased.

(** ** Detail of one task *)

(** The locals of the loop: the pages, the snapshot they come from, and the
    failure that ended it. *)
Record DetailPages := {
  dp_pages : list SnapshotPage;
  dp_snapshot_id : option SnapshotId;
  dp_failure : option SubscriptionError;
}.

Definition detail_failed (d : DetailPages) (e : SubscriptionError) : DetailPages :=
  {| dp_pages := dp_pages d; dp_snapshot_id := dp_snapshot_id d; dp_failure := Some e |}.

(** The pages of one section; a failure breaks out of all of them. *)
Fixpoint detail_section (fuel : nat) (task_id : TaskId) (section : SnapshotSection)
    (d : DetailPages) (resume_cursor : option (list N)) : io DetailPages :=
  match fuel with
  | O => io_stuck
  | S fuel =>
      let! answer := io_request (fun h =>
        snapshot_page_scoped h section (Some task_id) (dp_snapshot_id d) resume_cursor) in
      match answer with
      | Ok (Err error) => io_ret (detail_failed d (SubQuery error))
      | Err error =>
          io_ret (detail_failed d
            (SubTransportAt (lit "task detail snapshot " ++ section_debug section) error))
      | Ok (Ok page) =>
          if negb (is_none_or (dp_snapshot_id d) (fun expected => expected =? sp_snapshot_id page))
          then io_ret (detail_failed d SubIncompleteSnapshot)
          else
            let d := {| dp_pages := dp_pages d ++ [page];
                        dp_snapshot_id := Some (sp_snapshot_id page);
                        dp_failure := dp_failure d |} in
            match sp_next_cursor page with
            | Some cursor => detail_section fuel task_id section d (Some cursor)
            | None => io_ret d
            end
      end
  end.

Fixpoint detail_sections (fuel : nat) (task_id : TaskId) (sections : list SnapshotSection)
    (d : DetailPages) : io DetailPages :=
  match sections with
  | [] => io_ret d
  | section :: rest =>
      let! d := detail_section fuel task_id section d None in
      match dp_failure d with
      | Some _ => io_ret d
      | None => detail_sections fuel task_id rest d
      end
  end.

Definition load_task_detail (fuel : nat) (task_id : TaskId) : io unit :=
  let! s := io_sub in
  do! io_when (cs_state s =?= CsReleased) SubReleased ;;
  let! model := io_lift (ok_or (cs_model s) SubNotReady) in
  if task_detail_admitted model task_id then io_ret tt
  else
    let! client := io_client in
    do! io_when (negb (granted client PagedSnapshots)) SubMissingCapabilities ;;
    let! d := detail_sections fuel task_id
                (snapshot_sections (granted client BrowserProjection) true)
                {| dp_pages := []; dp_snapshot_id := None; dp_failure := None |} in
    do! match dp_snapshot_id d with
        | None => io_ret tt
        | Some snapshot_id =>
            let! answer := io_request (fun h => release_snapshot_scoped h snapshot_id (Some task_id)) in
            match answer with
            | Ok (Ok _) | Ok (Err QeNotFound) => io_ret tt
            | Ok (Err error) => io_fail (default (SubQuery error) (dp_failure d))
            | Err error => io_fail (default (SubTransport error) (dp_failure d))
            end
        end ;;
    do! match dp_failure d with Some failure => io_fail failure | None => io_ret tt end ;;
    let! s := io_sub in
    let! model := io_lift (ok_or (cs_model s) SubNotReady) in
    let '(model, admitted) := admit_task_detail_pages model task_id (dp_pages d) in
    do! io_modify (fun s => cs_with_model s (Some model)) ;;
    io_lift (map_err SubModel admitted).

End Synchronize.
