(* ===== verification/Synchronized.v ===== *)
(** What the client's subscription promises: synchronisation and preview end
    within the bound of pages, a synchronised model is the one the pages ship
    followed by the replay, and no handle of the host is lost on the way. *)
From S2P Require Import Prelude Canonical Task Agent Resource Artifact Browser Operation Snapshot Event Command Sample Stream Pages ProjectionIndex Client Assembly Replica Query UnsolicitedInbox HostClient Subscription.

(** ** Programs on the subscription and the client *)

Section Logic.
Context `{HP : HostPayloads} `{QP : QueryPayloads} `{CC : !ClientConnection}.
Implicit Types (w : world).

(** What holds after a run: [Q] of its result, or [cut] of the world it stopped in. *)
Definition wp {A} (cut : world -> Prop) (p : io A)
    (Q : result A SubscriptionError -> world -> Prop) (w : world) : Prop :=
  match p w with
  | (w, Some r) => Q r w
  | (w, None) => cut w
  end.

Section Rules.
Context (cut : world -> Prop).

Lemma wp_mono {A} (p : io A) (Q R : result A SubscriptionError -> world -> Prop) w :
  (forall r w, Q r w -> R r w) -> wp cut p Q w -> wp cut p R w.
Proof. unfold wp. intros Hq. destruct (p w) as [w' [r|]]; auto. Qed.

Lemma wp_ret {A} (a : A) Q w : wp cut (io_ret a) Q w <-> Q (Ok a) w.
Proof. done. Qed.

Lemma wp_fail {A} e (Q : result A _ -> _) w : wp cut (io_fail e) Q w <-> Q (Err e) w.
Proof. done. Qed.

Lemma wp_stuck {A} (Q : result A _ -> _) w : wp cut io_stuck Q w <-> cut w.
Proof. done. Qed.

Lemma wp_lift {A} (r : result A SubscriptionError) Q w : wp cut (io_lift r) Q w <-> Q r w.
Proof. done. Qed.

Lemma wp_sub Q w : wp cut io_sub Q w <-> Q (Ok (w_sub w)) w.
Proof. done. Qed.

Lemma wp_client Q w : wp cut io_client Q w <-> Q (Ok (w_client w)) w.
Proof. done. Qed.

Lemma wp_modify f Q w :
  wp cut (io_modify f) Q w <-> Q (Ok tt) {| w_sub := f (w_sub w); w_client := w_client w |}.
Proof. done. Qed.

Lemma wp_request {T} (f : HostClient -> HostClient * T) Q w :
  wp cut (io_request f) Q w
  <-> Q (Ok (f (w_client w)).2) {| w_sub := w_sub w; w_client := (f (w_client w)).1 |}.
Proof. unfold wp, io_request. by destruct (f (w_client w)). Qed.

Lemma wp_method {A} (f : ClientSubscription -> ClientSubscription * result A SubscriptionError) Q w :
  wp cut (io_method f) Q w
  <-> Q (f (w_sub w)).2 {| w_sub := (f (w_sub w)).1; w_client := w_client w |}.
Proof. unfold wp, io_method. by destruct (f (w_sub w)). Qed.

Lemma wp_when c e Q w : wp cut (io_when c e) Q w <-> Q (if c then Err e else Ok tt) w.
Proof. by destruct c. Qed.

Lemma wp_bind {A B} (p : io A) (k : A -> io B) Q w :
  wp cut (io_bind p k) Q w
  <-> wp cut p (fun r w => match r with Ok a => wp cut (k a) Q w | Err e => Q (Err e) w end) w.
Proof. unfold wp, io_bind. by destruct (p w) as [w' [[a|e]|]]. Qed.

Lemma wp_on_error {A} (p : io A) h Q w :
  wp cut (io_on_error p h) Q w
  <-> wp cut p (fun r w => match r with
                           | Ok a => Q (Ok a) w
                           | Err e => wp cut h (fun _ => Q (Err e)) w
                           end) w.
Proof.
  unfold wp, io_on_error. destruct (p w) as [w' [[a|e]|]]; [done| |done].
  by destruct (h w') as [w2 [r|]].
Qed.

Lemma wp_error_of (p : io unit) Q w :
  wp cut (io_error_of p) Q w
  <-> wp cut p (fun r => Q (Ok (match r with Ok _ => None | Err e => Some e end))) w.
Proof. unfold wp, io_error_of. by destruct (p w) as [w' [[a|e]|]]. Qed.
End Rules.

(** A run that comes to an end, with [P] of what it returns. *)
Definition returns {A} (p : io A) (P : A -> Prop) : Prop :=
  forall w, wp (fun _ => False) p (fun r _ => match r with Ok a => P a | Err _ => True end) w.

Lemma returns_bind {A B} (p : io A) (k : A -> io B) P R :
  returns p P -> (forall a, P a -> returns (k a) R) -> returns (io_bind p k) R.
Proof.
  intros Hp Hk w. apply wp_bind. eapply wp_mono; [|apply Hp]. intros [a|e] w' Ha; [|done].
  by apply Hk.
Qed.

Lemma returns_on_error {A} (p : io A) h P :
  returns p P -> returns h (fun _ => True) -> returns (io_on_error p h) P.
Proof.
  intros Hp Hh w. apply wp_on_error. eapply wp_mono; [|apply Hp]. intros [a|e] w' Ha; [done|].
  eapply wp_mono; [|apply Hh]. done.
Qed.

Lemma returns_error_of p P : returns p P -> returns (io_error_of p) (fun _ => True).
Proof. intros Hp w. apply wp_error_of. eapply wp_mono; [|apply Hp]. done. Qed.

Lemma returns_ret {A} (a : A) (P : A -> Prop) : P a -> returns (io_ret a) P.
Proof. by intros Ha w. Qed.

Lemma returns_fail {A} e (P : A -> Prop) : returns (io_fail e) P.
Proof. by intros w. Qed.

Lemma returns_lift {A} (r : result A SubscriptionError) : returns (io_lift r) (fun a => r = Ok a).
Proof. intros w. by destruct r. Qed.

Lemma returns_when c e : returns (io_when c e) (fun _ => c = false).
Proof. intros w. by destruct c. Qed.

Lemma returns_atom {A} (p : io A) : (forall w, is_some (p w).2 = true) -> returns p (fun _ => True).
Proof. intros Hp w. unfold wp. specialize (Hp w). by destruct (p w) as [w' [[a|e]|]]. Qed.

Lemma returns_request {T} (f : HostClient -> HostClient * T) : returns (io_request f) (fun _ => True).
Proof. intros w. by apply wp_request. Qed.

Lemma returns_modify f : returns (io_modify f) (fun _ => True).
Proof. done. Qed.

Lemma returns_sub : returns io_sub (fun _ => True).
Proof. done. Qed.

Lemma returns_client : returns io_client (fun _ => True).
Proof. done. Qed.

Lemma returns_method {A} (f : ClientSubscription -> ClientSubscription * result A SubscriptionError) :
  returns (io_method f) (fun _ => True).
Proof. apply returns_atom. intros w. unfold io_method. by destruct (f (w_sub w)). Qed.

(** *** Runs with more turns *)

(** A run that comes to an end is the same with more turns. *)
Definition io_le {A} (p q : io A) : Prop := forall w, (p w).2 = None \/ q w = p w.

#[export] Instance io_le_preorder {A} : PreOrder (@io_le A).
Proof.
  split; [intros p w; by right|]. intros p q r Hpq Hqr w.
  destruct (Hpq w) as [?|He]; [by left|]. destruct (Hqr w) as [Hn|He']; [left|right]; congruence.
Qed.

#[export] Instance io_bind_mono {A B} :
  Proper (io_le ==> pointwise_relation A io_le ==> io_le) (@io_bind _ _ CC A B).
Proof.
  intros p p' Hp k k' Hk w. unfold io_bind. destruct (Hp w) as [Hn|He].
  - left. destruct (p w) as [w' o]. cbn in Hn. by subst o.
  - rewrite He. destruct (p w) as [w' [[a|e]|]]; [apply Hk|by right|by right].
Qed.

#[export] Instance io_on_error_mono {A} :
  Proper (io_le ==> eq ==> io_le) (@io_on_error _ _ CC A).
Proof.
  intros p p' Hp h ? <- w. unfold io_on_error. destruct (Hp w) as [Hn|He].
  - left. destruct (p w) as [w' o]. cbn in Hn. by subst o.
  - rewrite He. by right.
Qed.

Lemma io_le_stuck {A} (p : io A) : io_le io_stuck p.
Proof. intros w. by left. Qed.

Lemma io_le_chain {A} (p : nat -> io A) n m :
  (forall k, io_le (p k) (p (S k))) -> (n <= m)%nat -> io_le (p n) (p m).
Proof. intros Hs. induction 1 as [|m _ IH]; [done|]. by etrans. Qed.
End Logic.

#[export] Hint Rewrite @wp_bind @wp_ret @wp_fail @wp_lift @wp_sub @wp_client @wp_modify
  @wp_request @wp_method @wp_when @wp_on_error @wp_error_of : wp.

(** Runs a program by its rules, down to the calls that have none. *)
Ltac wp_run := repeat (autorewrite with wp; cbn beta iota).

(** ** Termination *)

(** Turns that are enough for each loop: one more than the pages it may read. *)
Definition SYNC_TURNS : nat := 1025.

Section Termination.
Context `{HP : HostPayloads} `{QP : QueryPayloads} `{CC : !ClientConnection}.
Context `{Sha256} `{UrlParser} `{SpecialistJson} `{UnicodeText}.

Lemma returns_answer {T} wrap
    (request : HostClient -> HostClient * result (result T QueryError) IpcError) :
  returns (io_answer wrap request) (fun _ => True).
Proof.
  eapply returns_bind; [apply returns_request|]. intros [[t|e]|e] _;
    [by apply returns_ret|apply returns_fail..].
Qed.

Lemma returns_released (request : HostClient -> HostClient * result (result unit QueryError) IpcError) :
  returns (io_released request) (fun _ => True).
Proof.
  eapply returns_bind; [apply returns_request|]. intros [[[]|[]]|e] _;
    solve [by apply returns_ret|apply returns_fail].
Qed.

Lemma returns_release_event_replay : returns release_event_replay_if_owned (fun _ => True).
Proof.
  eapply returns_bind; [apply returns_sub|]. intros s _. destruct (cs_subscription_id s).
  - eapply returns_bind; [apply returns_released|]. intros. apply returns_modify.
  - by apply returns_ret.
Qed.

Lemma returns_release_snapshot : returns release_snapshot_if_owned (fun _ => True).
Proof.
  eapply returns_bind; [apply returns_sub|]. intros s _. destruct (cs_snapshot_id s).
  - eapply returns_bind; [apply returns_released|]. intros. apply returns_modify.
  - by apply returns_ret.
Qed.

Lemma returns_cleanup : returns best_effort_cleanup (fun _ => True).
Proof.
  eapply returns_bind; [eapply returns_error_of, returns_release_event_replay|]. intros ? _.
  eapply returns_bind; [eapply returns_error_of, returns_release_snapshot|]. intros ? _.
  by apply returns_ret.
Qed.

Lemma returns_give_in : returns give_in (fun _ => True).
Proof.
  eapply returns_bind; [apply returns_modify|]. intros ? _.
  eapply returns_bind; [apply returns_cleanup|]. intros ? _. by apply returns_ret.
Qed.

(** Each page the builder takes counts. *)
Definition one_more (r r' : Reading) : Prop :=
  bd_page_count (rd_builder r') = bd_page_count (rd_builder r) + 1
  /\ bd_page_count (rd_builder r') <= MAX_CLIENT_MODEL_PAGES.

Lemma admit_items_page_count items : forall b section,
  bd_page_count (admit_items b section items).1 = bd_page_count b.
Proof.
  induction items as [|i items IH]; intros b section; cbn [admit_items]; [done|].
  destruct (_ <=? _); [done|]. destruct (admit_item _ _ _) as [r [u|e]]; [|done]. by rewrite IH.
Qed.

Lemma ingest_page_count b page b' u :
  ingest_page b page = (b', Ok u) ->
  bd_page_count b' = bd_page_count b + 1 /\ bd_page_count b' <= MAX_CLIENT_MODEL_PAGES.
Proof.
  unfold ingest_page. destruct (N.leb_spec MAX_CLIENT_MODEL_PAGES (bd_page_count b)); [done|].
  destruct (negb _); [done|]. destruct (negb _); [done|].
  destruct (section_open _ _) as [s|]; [|done]. destruct (_ && _); [done|].
  destruct (admit_items _ _ _) as [b1 [v|]] eqn:Ea; [|done].
  destruct (section_close _ _) as [s' r]. intros [= <- _].
  apply (f_equal fst), (f_equal bd_page_count) in Ea. rewrite admit_items_page_count in Ea.
  cbn in Ea. cbn. lia.
Qed.

Lemma returns_take_page r page : returns (take_page r page) (one_more r).
Proof.
  eapply returns_bind; [apply returns_modify|]. intros ? _.
  eapply returns_bind; [apply returns_when|]. intros ? _.
  eapply returns_bind; [apply returns_when|]. intros ? _.
  destruct (ingest_page _ _) as [b [u|e]] eqn:Ei; [|apply returns_fail].
  apply returns_ret. exact (ingest_page_count _ _ _ _ Ei).
Qed.

Lemma returns_read_page wrap section r requested cursor :
  returns (read_page wrap section r requested cursor) (fun taken => one_more r taken.1).
Proof.
  eapply returns_bind; [apply returns_answer|]. intros page _.
  eapply returns_bind; [apply returns_take_page|]. intros r' Hr. by apply returns_ret.
Qed.

Lemma returns_requested_id r started : returns (requested_id r started) (fun _ => True).
Proof. eapply returns_bind; [apply returns_when|]. intros. by apply returns_ret. Qed.

(** The turns left cover the pages left. *)
Definition covers (fuel : nat) (pages : N) : Prop := MAX_CLIENT_MODEL_PAGES < pages + N.of_nat fuel.

Lemma returns_preview_pages fuel : forall r started cursor,
  covers fuel (bd_page_count (rd_builder r)) -> bd_page_count (rd_builder r) <= MAX_CLIENT_MODEL_PAGES ->
  returns (preview_pages fuel r started cursor) (fun _ => True).
Proof.
  induction fuel as [|fuel IH]; intros r started cursor Hc Hb; unfold covers in *; [lia|].
  cbn [preview_pages]. eapply returns_bind; [apply returns_requested_id|]. intros requested _.
  eapply returns_bind; [eapply returns_on_error; [apply returns_read_page|apply returns_give_in]|].
  intros [r' next] [Hr Hle]. cbn [fst snd] in *. destruct next as [next|].
  - apply IH; unfold covers in *; lia.
  - eapply returns_bind; [eapply returns_on_error; [apply returns_lift|apply returns_give_in]|].
    intros. by apply returns_ret.
Qed.

Definition within (r : Reading) : Prop := bd_page_count (rd_builder r) <= MAX_CLIENT_MODEL_PAGES.

Lemma returns_read_section fuel section : forall r started cursor,
  covers fuel (bd_page_count (rd_builder r)) -> within r ->
  returns (read_section fuel section r started cursor) within.
Proof.
  induction fuel as [|fuel IH]; intros r started cursor Hc Hb; unfold covers, within in *; [lia|].
  cbn [read_section]. eapply returns_bind; [apply returns_requested_id|]. intros requested _.
  eapply returns_bind; [apply returns_read_page|]. intros [r' next] [Hr Hle]. cbn [fst snd] in *.
  destruct next as [next|]; [apply IH; unfold covers in *; lia|by apply returns_ret].
Qed.

Lemma returns_read_sections fuel sections : (SYNC_TURNS <= fuel)%nat -> forall r, within r ->
  returns (read_sections fuel sections r) within.
Proof.
  intros Hf. induction sections as [|section sections IH]; intros r Hr; cbn [read_sections].
  - by apply returns_ret.
  - eapply returns_bind; [|intros r' Hr'; by apply IH].
    apply returns_read_section; [|done]. unfold covers, MAX_CLIENT_MODEL_PAGES, SYNC_TURNS in *. lia.
Qed.

Lemma returns_queue events : returns (queue_replay_events events) (fun _ => True).
Proof.
  induction events as [|ev events IH]; cbn [queue_replay_events]; [by apply returns_ret|].
  eapply returns_bind; [apply returns_method|]. intros. apply IH.
Qed.

(** A replay page that promises more counts. *)
Lemma apply_replay_page_count m page m' cursor :
  apply_replay_page m page = (m', Ok tt) -> ep_next_cursor page = Some cursor ->
  cm_replay_page_count m' = cm_replay_page_count m + 1
  /\ cm_replay_page_count m' <= MAX_CLIENT_REPLAY_PAGES.
Proof.
  unfold apply_replay_page. destruct (apply_replay_page_inner m page) as [c|] eqn:Ea; [|done].
  intros [= <-] Hn. destruct (replay_page_Ok _ _ _ Ea) as (m0 & m1 & _ & Hp & Hc & Hb & ->).
  rewrite Hn. destruct (apply_page_events_frame _ _ _ _ _ Hp) as [Hf _]. cbn. lia.
Qed.

Lemma returns_replay_pages fuel : forall m batch,
  MAX_CLIENT_REPLAY_PAGES < cm_replay_page_count m + N.of_nat fuel ->
  cm_replay_page_count m <= MAX_CLIENT_REPLAY_PAGES ->
  returns (replay_pages fuel m batch) (fun _ => True).
Proof.
  induction fuel as [|fuel IH]; intros m batch Hc Hb; [lia|]. cbn [replay_pages].
  eapply returns_bind; [apply returns_queue|]. intros _ _.
  destruct (apply_replay_page m (rb_page batch)) as [m' applied] eqn:Ea.
  eapply returns_bind; [apply returns_lift|]. intros u Hu%map_err_Ok. subst applied. destruct u.
  destruct (ep_next_cursor (rb_page batch)) as [cursor|] eqn:En; [|by apply returns_ret].
  destruct (apply_replay_page_count _ _ _ _ Ea En).
  eapply returns_bind; [apply returns_answer|]. intros batch' _.
  eapply returns_bind; [apply returns_sub|]. intros s _.
  eapply returns_bind; [apply returns_when|]. intros ? _. apply IH; lia.
Qed.

Lemma finish_assembled_page_count b m : finish_assembled b = Ok m -> cm_replay_page_count m = 0.
Proof.
  unfold finish_assembled. intros Hx. do 6 peel1 Hx. destruct x4 as [host tasks].
  do 2 peel1 Hx. by injection Hx as <-.
Qed.

Lemma finish_page_count b m : finish b = Ok m -> cm_replay_page_count m = 0.
Proof. unfold finish. intros Hx. peel Hx. by apply finish_assembled_page_count in Hx. Qed.

Lemma returns_or_needs_resync p P : returns p P -> returns (or_needs_resync p) P.
Proof. intros Hp. eapply returns_on_error; [done|apply returns_modify]. Qed.

Lemma returns_synchronize_inner fuel :
  (SYNC_TURNS <= fuel)%nat -> returns (synchronize_inner fuel) (fun _ => True).
Proof.
  intros Hf. eapply returns_bind; [apply returns_client|]. intros client _.
  eapply returns_bind; [by apply returns_read_sections|]. intros r Hr.
  eapply returns_bind; [apply returns_lift|]. intros m Hm%map_err_Ok%finish_page_count.
  eapply returns_bind; [apply returns_lift|]. intros through _.
  eapply returns_bind; [apply returns_when|]. intros ? _.
  eapply returns_bind; [apply returns_answer|]. intros batch _.
  eapply returns_bind; [apply returns_modify|]. intros ? _.
  eapply returns_bind; [apply returns_release_snapshot|]. intros ? _.
  eapply returns_bind; [|intros; apply returns_modify].
  apply returns_replay_pages; rewrite Hm; unfold MAX_CLIENT_REPLAY_PAGES, SYNC_TURNS in *; lia.
Qed.

Lemma returns_synchronize fuel :
  (SYNC_TURNS <= fuel)%nat -> returns (synchronize fuel) (fun _ => True).
Proof.
  intros Hf. eapply returns_bind; [apply returns_sub|]. intros s _.
  eapply returns_bind; [apply returns_when|]. intros ? _.
  eapply returns_bind; [apply returns_when|]. intros ? _.
  eapply returns_bind; [apply returns_client|]. intros client _.
  eapply returns_bind; [apply returns_when|]. intros ? _.
  eapply returns_bind; [apply returns_modify|]. intros ? _.
  eapply returns_bind; [apply returns_or_needs_resync, returns_release_event_replay|]. intros ? _.
  eapply returns_bind; [apply returns_or_needs_resync, returns_release_snapshot|]. intros ? _.
  eapply returns_bind; [apply returns_modify|]. intros ? _.
  eapply returns_on_error; [by apply returns_synchronize_inner|].
  eapply returns_bind; [apply returns_modify|]. intros ? _.
  eapply returns_bind; [apply returns_modify|]. intros ? _.
  eapply returns_bind; [apply returns_cleanup|]. intros ? _. by apply returns_ret.
Qed.

Lemma returns_preview_tasks fuel :
  (SYNC_TURNS <= fuel)%nat -> returns (preview_tasks fuel) (fun _ => True).
Proof.
  intros Hf. eapply returns_bind; [apply returns_sub|]. intros s _.
  eapply returns_bind; [apply returns_when|]. intros ? _.
  eapply returns_bind; [apply returns_when|]. intros ? _.
  eapply returns_bind; [apply returns_client|]. intros client _.
  eapply returns_bind; [apply returns_when|]. intros ? _.
  eapply returns_bind; [apply returns_or_needs_resync, returns_release_snapshot|]. intros ? _.
  eapply returns_bind.
  { apply returns_preview_pages; unfold covers; cbn; unfold MAX_CLIENT_MODEL_PAGES, SYNC_TURNS in *; lia. }
  intros [r preview] _.
  eapply returns_bind; [apply returns_or_needs_resync, returns_release_snapshot|]. intros ? _.
  eapply returns_bind; [apply returns_modify|]. intros ? _.
  eapply returns_bind; [apply returns_modify|]. intros ? _.
  eapply returns_bind; [apply returns_lift|]. intros through _.
  eapply returns_bind; [apply returns_when|]. intros ? _. by apply returns_ret.
Qed.

(** *** More turns change nothing *)

Lemma preview_pages_mono fuel : forall r started cursor,
  io_le (preview_pages fuel r started cursor) (preview_pages (S fuel) r started cursor).
Proof.
  induction fuel as [|fuel IH]; intros r started cursor; [apply io_le_stuck|].
  remember (S fuel) as n. rewrite Heqn at 1. cbn [preview_pages].
  apply io_bind_mono; [done|]. intros requested. apply io_bind_mono; [done|]. intros [r' [next|]];
    [subst n; apply IH|done].
Qed.

Lemma read_section_mono fuel section : forall r started cursor,
  io_le (read_section fuel section r started cursor) (read_section (S fuel) section r started cursor).
Proof.
  induction fuel as [|fuel IH]; intros r started cursor; [apply io_le_stuck|].
  remember (S fuel) as n. rewrite Heqn at 1. cbn [read_section].
  apply io_bind_mono; [done|]. intros requested. apply io_bind_mono; [done|]. intros [r' [next|]];
    [subst n; apply IH|done].
Qed.

Lemma read_sections_mono fuel sections : forall r,
  io_le (read_sections fuel sections r) (read_sections (S fuel) sections r).
Proof.
  induction sections as [|section sections IH]; intros r; [done|]. cbn [read_sections].
  apply io_bind_mono; [apply read_section_mono|exact IH].
Qed.

Lemma replay_pages_mono fuel : forall m batch,
  io_le (replay_pages fuel m batch) (replay_pages (S fuel) m batch).
Proof.
  induction fuel as [|fuel IH]; intros m batch; [apply io_le_stuck|].
  remember (S fuel) as n. rewrite Heqn at 1. cbn [replay_pages].
  apply io_bind_mono; [done|]. intros _. destruct (apply_replay_page m (rb_page batch)) as [m' r].
  apply io_bind_mono; [done|]. intros _. destruct (ep_next_cursor _); [|done].
  apply io_bind_mono; [done|]. intros batch'. apply io_bind_mono; [done|]. intros s.
  apply io_bind_mono; [done|]. intros _. subst n. apply IH.
Qed.

Lemma preview_tasks_mono n m : (n <= m)%nat -> io_le (preview_tasks n) (preview_tasks m).
Proof.
  apply io_le_chain. intros k. unfold preview_tasks. do 6 (apply io_bind_mono; [done|]; intros ?).
  apply io_bind_mono; [apply preview_pages_mono|done].
Qed.

Lemma synchronize_mono n m : (n <= m)%nat -> io_le (synchronize n) (synchronize m).
Proof.
  apply io_le_chain. intros k. unfold synchronize. do 9 (apply io_bind_mono; [done|]; intros ?).
  apply io_on_error_mono; [|done]. unfold synchronize_inner.
  apply io_bind_mono; [done|]. intros client.
  apply io_bind_mono; [apply read_sections_mono|]. intros r.
  do 6 (apply io_bind_mono; [done|]; intros ?).
  apply io_bind_mono; [apply replay_pages_mono|done].
Qed.

(** C8: Whatever the host answers, on every page of a snapshot or a replay that keeps promising
    more, [synchronize] and [preview_tasks] come to an end, successfully or with an error: the
    loops over the pages of a section and over the replay take at most 1,024 pages each, so 1,025
    turns are enough, and more turns change neither the result nor the state. *)
Theorem synchronization_ends (w : world) fuel :
  (SYNC_TURNS <= fuel)%nat ->
  (exists w' r, synchronize fuel w = (w', Some r) /\ synchronize SYNC_TURNS w = (w', Some r))
  /\ (exists w' r, preview_tasks fuel w = (w', Some r) /\ preview_tasks SYNC_TURNS w = (w', Some r)).
Proof.
  intros Hf. split.
  - pose proof (returns_synchronize SYNC_TURNS ltac:(done) w) as Hr. unfold wp in Hr.
    destruct (synchronize_mono _ _ Hf w) as [Hn|He].
    + destruct (synchronize SYNC_TURNS w) as [w' o]. cbn in Hn. by subst o.
    + rewrite He. destruct (synchronize SYNC_TURNS w) as [w' [r|]]; [by exists w', r|done].
  - pose proof (returns_preview_tasks SYNC_TURNS ltac:(done) w) as Hr. unfold wp in Hr.
    destruct (preview_tasks_mono _ _ Hf w) as [Hn|He].
    + destruct (preview_tasks SYNC_TURNS w) as [w' o]. cbn in Hn. by subst o.
    + rewrite He. destruct (preview_tasks SYNC_TURNS w) as [w' [r|]]; [by exists w', r|done].
Qed.

End Termination.

(** ** The synchronised model *)

(** A run that touches nothing of the subscription but the handles it owns. *)
Record only_handles (s s' : ClientSubscription) : Prop := {
  oh_state : cs_state s' = cs_state s;
  oh_model : cs_model s' = cs_model s;
  oh_ids : cs_seen_event_ids s' = cs_seen_event_ids s;
  oh_order : cs_seen_event_order s' = cs_seen_event_order s;
  oh_pending : cs_pending_replay_events s' = cs_pending_replay_events s;
}.

#[export] Instance only_handles_preorder : PreOrder only_handles.
Proof. split; [done|]. intros s1 s2 s3 [] []. split; congruence. Qed.

Section Refinement.
Context `{HP : HostPayloads} `{QP : QueryPayloads} `{CC : !ClientConnection}.
Context `{Sha256} `{UrlParser} `{SpecialistJson} `{UnicodeText}.
Implicit Types (w : world).

Section Frames.
Context (cut : world -> Prop).

Lemma wp_answer {T} wrap
    (request : HostClient -> HostClient * result (result T QueryError) IpcError) Q w :
  wp cut (io_answer wrap request) Q w
  <-> Q (match (request (w_client w)).2 with
         | Ok (Ok t) => Ok t
         | Ok (Err e) => Err (SubQuery e)
         | Err e => Err (wrap e)
         end) {| w_sub := w_sub w; w_client := (request (w_client w)).1 |}.
Proof.
  unfold io_answer. rewrite wp_bind, wp_request. by destruct ((request (w_client w)).2) as [[|]|].
Qed.

Lemma wp_released request Q w :
  wp cut (io_released request) Q w
  <-> Q (match (request (w_client w)).2 with
         | Ok (Ok _) | Ok (Err QeNotFound) => Ok tt
         | Ok (Err e) => Err (SubQuery e)
         | Err e => Err (SubTransport e)
         end) {| w_sub := w_sub w; w_client := (request (w_client w)).1 |}.
Proof.
  unfold io_released. rewrite wp_bind, wp_request. by destruct ((request (w_client w)).2) as [[[]|[]]|].
Qed.

(** What a release leaves: the handle goes exactly when the release succeeds. *)
Definition replay_released (s : ClientSubscription) (r : result unit SubscriptionError)
    (s' : ClientSubscription) : Prop :=
  s' = if is_ok r then cs_with_handles s None (cs_snapshot_id s) else s.

Definition snapshot_released (s : ClientSubscription) (r : result unit SubscriptionError)
    (s' : ClientSubscription) : Prop :=
  s' = if is_ok r then cs_with_handles s (cs_subscription_id s) None else s.

Lemma wp_release_event_replay w :
  wp cut release_event_replay_if_owned (fun r w' => replay_released (w_sub w) r (w_sub w')) w.
Proof.
  unfold release_event_replay_if_owned. rewrite wp_bind, wp_sub.
  destruct (cs_subscription_id (w_sub w)) eqn:Es.
  - rewrite wp_bind, wp_released. unfold set_subscription_id.
    destruct ((release_event_replay _ _).2) as [[u|e]|e]; [by apply wp_modify| |done].
    destruct e; done.
  - unfold replay_released. rewrite wp_ret. destruct (w_sub w). cbn in Es. by subst.
Qed.

Lemma wp_release_snapshot w :
  wp cut release_snapshot_if_owned (fun r w' => snapshot_released (w_sub w) r (w_sub w')) w.
Proof.
  unfold release_snapshot_if_owned. rewrite wp_bind, wp_sub.
  destruct (cs_snapshot_id (w_sub w)) eqn:Es.
  - rewrite wp_bind, wp_released. unfold set_snapshot_id.
    destruct ((release_snapshot _ _).2) as [[u|e]|e]; [by apply wp_modify| |done].
    destruct e; done.
  - unfold snapshot_released. rewrite wp_ret. destruct (w_sub w). cbn in Es. by subst.
Qed.

Lemma wp_cleanup w :
  wp cut best_effort_cleanup
    (fun r w' => only_handles (w_sub w) (w_sub w') /\ is_ok r = true) w.
Proof.
  unfold best_effort_cleanup. rewrite wp_bind, wp_error_of.
  eapply wp_mono; [|apply wp_release_event_replay]. intros r w1 Hr1. cbn beta.
  rewrite wp_bind, wp_error_of.
  eapply wp_mono; [|apply wp_release_snapshot]. intros r' w2 Hr2. cbn beta iota.
  rewrite wp_ret. split; [|done]. unfold replay_released, snapshot_released in *.
  rewrite Hr2, Hr1. by destruct (is_ok r), (is_ok r').
Qed.

Lemma wp_take_page r page w :
  wp cut (take_page r page) (fun res w' =>
    w_sub w' = cs_with_handles (w_sub w) (cs_subscription_id (w_sub w)) (Some (sp_snapshot_id page))
    /\ w_client w' = w_client w
    /\ match res with
       | Err _ => True
       | Ok r' => ingest_ok (rd_builder r) page = Ok (rd_builder r')
                  /\ rd_snapshot_id r' = Some (sp_snapshot_id page)
                  /\ rd_through_sequence r' = Some (sp_through_sequence page)
       end) w.
Proof.
  unfold take_page, set_snapshot_id. rewrite wp_bind, wp_modify, wp_bind, wp_when.
  destruct (negb _); [done|]. rewrite wp_bind, wp_when. destruct (negb _); [done|].
  unfold ingest_ok. destruct (ingest_page _ _) as [b [u|e]]; [by apply wp_ret|by apply wp_fail].
Qed.

(** The pages read so far. *)
Definition read_from (pages : list SnapshotPage) (r : Reading) : Prop :=
  ingest_all builder_new pages = Ok (rd_builder r).

Lemma read_from_page pages r page r' :
  read_from pages r -> ingest_ok (rd_builder r) page = Ok (rd_builder r') ->
  read_from (pages ++ [page]) r'.
Proof.
  unfold read_from, ingest_all. intros Hr Hp. apply try_fold_app. exists (rd_builder r).
  split; [done|]. simpl. by rewrite Hp.
Qed.

Lemma wp_read_page wrap section r requested cursor pages w :
  read_from pages r ->
  wp cut (read_page wrap section r requested cursor) (fun res w' =>
    only_handles (w_sub w) (w_sub w')
    /\ match res with Ok taken => exists pages, read_from pages taken.1 | Err _ => True end) w.
Proof.
  intros Hr. unfold read_page. rewrite wp_bind, wp_answer.
  destruct ((snapshot_page _ _ _ _).2) as [[page|]|]; [|done..].
  rewrite wp_bind. eapply wp_mono; [|apply wp_take_page]. intros [r'|e] w' (Hs & _ & Ht).
  - rewrite wp_ret, Hs. split; [done|]. destruct Ht as [Hi _]. eexists. by eapply read_from_page.
  - by rewrite Hs.
Qed.

End Frames.

Lemma wp_read_section fuel section : forall r started cursor pages w,
  read_from pages r ->
  wp (fun _ => True) (read_section fuel section r started cursor) (fun res w' =>
    only_handles (w_sub w) (w_sub w')
    /\ match res with Ok r' => exists pages, read_from pages r' | Err _ => True end) w.
Proof.
  induction fuel as [|fuel IH]; intros r started cursor pages w Hr; [done|]. cbn [read_section].
  unfold requested_id. rewrite wp_bind, wp_bind, wp_when. destruct (_ && _); [done|].
  rewrite wp_ret, wp_bind. eapply wp_mono; [|eapply wp_read_page; exact Hr]. cbn beta.
  intros [[r' next]|e] w1 [Ho Hp]; [|done]. cbn [fst snd] in *. destruct Hp as [pages' Hp].
  destruct next as [next|]; [|apply wp_ret; split; [done|by exists pages']].
  eapply wp_mono; [|eapply IH; exact Hp]. intros res w2 [Ho' Hp']. split; [by etrans|done].
Qed.

Lemma wp_read_sections fuel sections : forall r pages w,
  read_from pages r ->
  wp (fun _ => True) (read_sections fuel sections r) (fun res w' =>
    only_handles (w_sub w) (w_sub w')
    /\ match res with Ok r' => exists pages, read_from pages r' | Err _ => True end) w.
Proof.
  induction sections as [|section sections IH]; intros r pages w Hr; cbn [read_sections].
  - apply wp_ret. split; [done|by exists pages].
  - rewrite wp_bind. eapply wp_mono; [|eapply wp_read_section; done].
    cbn beta. intros [r'|e] w1 [Ho Hp]; [|done]. destruct Hp as [pages' Hp].
    eapply wp_mono; [|eapply IH; exact Hp]. intros res w2 [Ho' Hp']. split; [by etrans|done].
Qed.

(** A run that touches nothing but the state, the events handed over and the ids
    remembered. *)
Record only_events (s s' : ClientSubscription) : Prop := {
  oe_subscription : cs_subscription_id s' = cs_subscription_id s;
  oe_snapshot : cs_snapshot_id s' = cs_snapshot_id s;
  oe_model : cs_model s' = cs_model s;
}.

#[local] Instance only_events_preorder : PreOrder only_events.
Proof. split; [done|]. intros s1 s2 s3 [] []. split; congruence. Qed.

Lemma remember_event_id_frame s id :
  only_events s (remember_event_id s id) /\ cs_state (remember_event_id s id) = cs_state s
  /\ cs_pending_replay_events (remember_event_id s id) = cs_pending_replay_events s.
Proof.
  unfold remember_event_id. destruct (bool_decide _); [done|]. destruct (_ <? _); [|done].
  by destruct (_ ++ _).
Qed.

Lemma queue_replay_event_frame s ev s' r :
  queue_replay_event s ev = (s', r) ->
  only_events s s'
  /\ (is_ok r = true -> cs_state s' = cs_state s
      /\ cs_pending_replay_events s' = cs_pending_replay_events s ++ [ev]).
Proof.
  unfold queue_replay_event. destruct (_ <=? _); intros [= <- <-]; [done|].
  destruct (remember_event_id_frame s (de_id ev)) as ([] & Hst & Hp).
  cbn. rewrite Hp. split; [by split|done].
Qed.

Lemma wp_queue events : forall w,
  wp (fun _ => True) (queue_replay_events events) (fun r w' =>
    only_events (w_sub w) (w_sub w') /\ w_client w' = w_client w
    /\ (is_ok r = true -> cs_state (w_sub w') = cs_state (w_sub w)
        /\ cs_pending_replay_events (w_sub w') = cs_pending_replay_events (w_sub w) ++ events)) w.
Proof.
  induction events as [|ev events IH]; intros w; cbn [queue_replay_events].
  - apply wp_ret. rewrite app_nil_r. by split_and!.
  - rewrite wp_bind, wp_method.
    destruct (queue_replay_event (w_sub w) ev) as [s1 r1] eqn:Eq. cbn [fst snd].
    destruct (queue_replay_event_frame _ _ _ _ Eq) as [Ho Hok]. destruct r1 as [u|e]; [|done].
    destruct (Hok eq_refl) as [Hst Hpe]. eapply wp_mono; [|apply IH]. cbn.
    intros r w2 (Ho2 & Hc & Hr). split_and!; [by etrans|done|].
    intros [Hst2 Hpe2]%Hr. rewrite Hst2, Hpe2, Hst, Hpe, <- app_assoc. done.
Qed.

Lemma apply_replay_page_Ok m page m' r :
  apply_replay_page m page = (m', r) ->
  match r with
  | Ok _ => apply_replay_page_inner m page = Ok m'
  | Err e => m' = m /\ apply_replay_page_inner m page = Err e
  end.
Proof. unfold apply_replay_page. by destruct (apply_replay_page_inner m page); intros [= <- <-]. Qed.

(** A replay: its pages, applied one after the other, up to the one that
    promises no more. *)
Definition replayed (m : ClientModel) (pages : list EventPage) (m' : ClientModel) : Prop :=
  client_pages m pages = Ok m' /\ option_map ep_next_cursor (last pages) = Some None.

Lemma client_pages_snoc m pages m1 page m2 :
  client_pages m pages = Ok m1 -> apply_replay_page_inner m1 page = Ok m2 ->
  client_pages m (pages ++ [page]) = Ok m2.
Proof.
  unfold client_pages. intros Hm Hp. apply try_fold_app. exists m1. split; [done|].
  simpl. by rewrite Hp.
Qed.

Lemma page_events_snoc pages page : page_events (pages ++ [page]) = page_events pages ++ ep_events page.
Proof. unfold page_events. rewrite bind_app. cbn [mbind list_bind]. by rewrite app_nil_r. Qed.

Lemma wp_replay_pages fuel m0 : forall m batch pages w,
  client_pages m0 pages = Ok m ->
  cs_pending_replay_events (w_sub w) = page_events pages ->
  wp (fun _ => True) (replay_pages fuel m batch) (fun r w' =>
    only_events (w_sub w) (w_sub w')
    /\ match r with
       | Ok m' => exists pages, replayed m0 pages m'
                  /\ cs_pending_replay_events (w_sub w') = page_events pages
       | Err _ => True
       end) w.
Proof.
  induction fuel as [|fuel IH]; intros m batch pages w Hm Hpe; [done|]. cbn [replay_pages].
  rewrite wp_bind. eapply wp_mono; [|apply wp_queue]. cbn beta.
  intros [u|e] w1 (Ho & _ & Hq); [|done]. destruct (Hq eq_refl) as [_ Hq1].
  rewrite Hpe, <- page_events_snoc in Hq1.
  destruct (apply_replay_page m (rb_page batch)) as [m1 [v|e]] eqn:Ea;
    apply apply_replay_page_Ok in Ea; rewrite wp_bind, wp_lift; cbn [map_err]; [|done].
  pose proof (client_pages_snoc _ _ _ _ _ Hm Ea) as Hm1.
  destruct (ep_next_cursor (rb_page batch)) as [cursor|] eqn:En.
  - rewrite wp_bind, wp_answer. destruct ((continue_event_replay _ _ _).2) as [[batch'|]|]; [|done..].
    rewrite wp_bind, wp_sub, wp_bind, wp_when. cbn [w_sub]. destruct (negb _); [done|].
    eapply wp_mono; [|eapply IH; [exact Hm1|exact Hq1]]. cbn.
    intros r w2 [Ho2 Hr]. split; [by etrans|done].
  - apply wp_ret. split; [done|]. exists (pages ++ [rb_page batch]). split; [|done].
    split; [done|]. rewrite last_snoc. cbn. by rewrite En.
Qed.

(** A subscription whose model is what pages of one snapshot ship, followed by the
    replay of the events it hands over. *)
Definition synchronized (s : ClientSubscription) : Prop :=
  exists pages b m0 replay m,
    ingest_all builder_new pages = Ok b /\ finish b = Ok m0
    /\ Forall (fun p => sp_through_sequence p = cm_last_applied_sequence m0) pages
    /\ replayed m0 replay m
    /\ cs_model s = Some m /\ cs_state s = CsReady
    /\ cs_pending_replay_events s = page_events replay
    /\ cs_snapshot_id s = None /\ is_some (cs_subscription_id s) = true
    /\ (forall hosts hosts', in_step m0 hosts ->
          host_run hosts (page_events replay) = Ok hosts' -> in_step m hosts').

Lemma finish_sequence b m pages :
  ingest_all builder_new pages = Ok b -> finish b = Ok m ->
  Forall (fun p => sp_through_sequence p = cm_last_applied_sequence m) pages.
Proof.
  intros Hb%ingest_all_assembling Hf. unfold finish in Hf. peel Hf.
  destruct (finish_assembled_Ok b m _ (as_rows b pages Hb) Hf) as [_ Hsq].
  eapply Forall_impl; [exact (as_pinned b pages Hb)|]. intros p [Hp _]. congruence.
Qed.

Lemma wp_synchronize_inner fuel w :
  cs_pending_replay_events (w_sub w) = [] ->
  wp (fun _ => True) (synchronize_inner fuel) (fun r w' =>
    match r with
    | Ok _ => synchronized (w_sub w')
    | Err _ => cs_model (w_sub w') = cs_model (w_sub w)
    end) w.
Proof.
  intros Hpe. unfold synchronize_inner. rewrite wp_bind, wp_client, wp_bind.
  eapply wp_mono; [|by apply (wp_read_sections _ _ _ [])]. cbn beta.
  intros [r|e] w1 [[? Hmo _ _ Hp1] Hr]; [|done]. destruct Hr as [pages Hr].
  rewrite wp_bind, wp_lift. destruct (finish (rd_builder r)) as [m0|e] eqn:Ef; cbn [map_err]; [|done].
  rewrite wp_bind, wp_lift. destruct (ok_or _ _) as [through|]; [|done].
  rewrite wp_bind, wp_when. destruct (negb _); [done|].
  rewrite wp_bind, wp_answer. cbn [w_sub w_client].
  destruct ((open_event_replay _ _).2) as [[batch|]|]; [|done..].
  unfold set_subscription_id. rewrite wp_bind, wp_modify, wp_bind.
  eapply wp_mono; [|apply wp_release_snapshot]. cbn [w_sub w_client].
  intros [u|e] w2 Hs2; unfold snapshot_released in Hs2; cbn [is_ok] in Hs2; [|by rewrite Hs2].
  rewrite wp_bind. eapply wp_mono; [|apply (wp_replay_pages _ m0 _ _ []); [done|]].
  2:{ rewrite Hs2. cbn. by rewrite Hp1. }
  cbn beta. intros [m|e] w3 [[Hsi Hsn Hmo3] Hm]; rewrite Hs2 in *; cbn in *; [|congruence].
  destruct Hm as (replay & Hm & Hp3). exists pages, (rd_builder r), m0, replay, m.
  cbn. rewrite Hsi. split_and!; try done; [by eapply finish_sequence|].
  intros hosts hosts' Hi Hh. destruct Hm. by eapply client_pages_in_step.
Qed.

(** A call that fails before it does anything, or leaves the old model behind. *)
Definition synchronize_refused (s s' : ClientSubscription) : Prop :=
  cs_model s' = cs_model s
  /\ (s' = s \/ (cs_state s' = CsNeedsResync
                 /\ (cs_pending_replay_events s' = []
                     \/ cs_pending_replay_events s' = cs_pending_replay_events s))).

Lemma wp_synchronize fuel w :
  wp (fun _ => True) (synchronize fuel) (fun r w' =>
    match r with
    | Ok _ => synchronized (w_sub w')
    | Err _ => synchronize_refused (w_sub w) (w_sub w')
    end) w.
Proof.
  unfold synchronize, synchronize_refused. rewrite wp_bind, wp_sub, wp_bind, wp_when.
  destruct (_ =?= CsReady); [by auto|]. rewrite wp_bind, wp_when.
  destruct (_ =?= CsReleased); [by auto|]. rewrite wp_bind, wp_client, wp_bind, wp_when.
  destruct (_ || _); [by auto|]. unfold set_state, or_needs_resync.
  rewrite wp_bind, wp_modify, wp_bind, wp_on_error.
  eapply wp_mono; [|apply wp_release_event_replay]. cbn beta.
  intros [u|e] w1 Hs1; unfold replay_released in Hs1; cbn in Hs1;
    [|apply wp_modify; cbn; rewrite Hs1; cbn; by auto].
  rewrite wp_bind, wp_on_error. eapply wp_mono; [|apply wp_release_snapshot]. cbn beta.
  intros [v|e] w2 Hs2; unfold snapshot_released in Hs2; cbn in Hs2;
    [|apply wp_modify; cbn; rewrite Hs2, Hs1; cbn; by auto].
  rewrite wp_bind, wp_modify, wp_on_error.
  eapply wp_mono; [|by apply wp_synchronize_inner]. cbn beta.
  intros [[]|e] w3 H3; [done|]. cbn in H3. rewrite Hs2, Hs1 in H3. cbn in H3.
  rewrite wp_bind, wp_modify, wp_bind, wp_modify, wp_bind.
  eapply wp_mono; [|apply wp_cleanup]. cbn beta. intros r w4 [[Hst Hmo _ _ Hpe] Hr]. cbn in *.
  destruct r; [|done]. cbn. split; [congruence|by auto].
Qed.

(** C7: A call of [synchronize] that succeeds leaves the subscription ready with the model that
    [ClientModelBuilder] finishes from the pages of one snapshot, all of one sequence, followed
    by the replay from that sequence on through its last page; the events the replay carried are
    what [take_replay_events] hands over, each once and in order, the snapshot is released and
    the replay subscription kept. A replica in step with the host at the snapshot is in step with
    the host's own fold over those events. A call that fails keeps the model it had, and either
    did nothing or leaves the subscription in need of a resync, with no half of a replay. *)
Theorem synchronize_installs_model fuel w w' r :
  synchronize fuel w = (w', Some r) ->
  match r with
  | Err _ => synchronize_refused (w_sub w) (w_sub w')
  | Ok _ => synchronized (w_sub w')
  end.
Proof.
  intros Hx. pose proof (wp_synchronize fuel w) as Hw. unfold wp in Hw. by rewrite Hx in Hw.
Qed.

End Refinement.

(** ** The state of a subscription *)

(** The ids remembered, in the order they came, and the bounds of both queues. *)
Record queues_ok (s : ClientSubscription) : Prop := {
  qo_ids : cs_seen_event_ids s = list_to_set (cs_seen_event_order s);
  qo_distinct : NoDup (cs_seen_event_order s);
  qo_seen : count (cs_seen_event_order s) <= MAX_SEEN_EVENT_IDS;
  qo_pending : count (cs_pending_replay_events s) <= MAX_PENDING_REPLAY_EVENTS;
}.

(** A ready subscription has a model and the replay subscription it follows, and no
    snapshot left; a released one holds nothing of the host. *)
Definition handles_ok (s : ClientSubscription) : Prop :=
  match cs_state s with
  | CsReady => is_some (cs_model s) = true /\ is_some (cs_subscription_id s) = true
               /\ cs_snapshot_id s = None
  | CsReleased => cs_subscription_id s = None /\ cs_snapshot_id s = None
  | CsPending | CsNeedsResync => True
  end.

Definition subscription_ok (s : ClientSubscription) : Prop := queues_ok s /\ handles_ok s.

Lemma subscription_new_ok : subscription_ok subscription_new.
Proof. split; [|done]. by split; try constructor. Qed.

Lemma queues_ok_alike s s' :
  cs_seen_event_ids s' = cs_seen_event_ids s -> cs_seen_event_order s' = cs_seen_event_order s ->
  cs_pending_replay_events s' = cs_pending_replay_events s \/ cs_pending_replay_events s' = [] ->
  queues_ok s -> queues_ok s'.
Proof.
  intros Hi Ho Hp []. split; rewrite ?Hi, ?Ho; try done. destruct Hp as [->| ->]; [done|].
  unfold MAX_PENDING_REPLAY_EVENTS. by cbn.
Qed.

Lemma list_to_set_snoc (l : list N) x : list_to_set (l ++ [x]) = {[x]} ∪ (list_to_set l : gset N).
Proof. rewrite list_to_set_app_L, list_to_set_cons, list_to_set_nil. set_solver. Qed.

Lemma list_to_set_evict (l : list N) x :
  NoDup (x :: l) -> list_to_set (x :: l) ∖ {[x]} = (list_to_set l : gset N).
Proof.
  intros [Hx _]%NoDup_cons. apply set_eq. intros y. rewrite elem_of_difference, elem_of_singleton.
  rewrite !elem_of_list_to_set, elem_of_cons. naive_solver.
Qed.

Lemma remember_event_id_ok s id :
  queues_ok s -> queues_ok (remember_event_id s id) /\ id ∈ cs_seen_event_ids (remember_event_id s id).
Proof.
  intros [Hi Hd Hs Hp]. unfold remember_event_id. case_bool_decide as Hin; [done|].
  assert (NoDup (cs_seen_event_order s ++ [id])) as Hd'.
  { apply NoDup_app. split; [done|]. split; [|apply NoDup_singleton].
    intros x Hx ->%list_elem_of_singleton. apply Hin. rewrite Hi. by apply elem_of_list_to_set. }
  assert ({[id]} ∪ cs_seen_event_ids s = list_to_set (cs_seen_event_order s ++ [id])) as He
    by (by rewrite Hi, list_to_set_snoc).
  destruct (N.ltb_spec MAX_SEEN_EVENT_IDS (count (cs_seen_event_order s ++ [id]))) as [Hl|Hl].
  - destruct (cs_seen_event_order s ++ [id]) as [|x l] eqn:Eo.
    { by apply app_nil in Eo as [_ ?]. }
    assert (x <> id) as Hne.
    { intros ->. destruct (cs_seen_event_order s) as [|y k] eqn:Es; [|].
      { unfold MAX_SEEN_EVENT_IDS in Hl. injection Eo as <-. rewrite count_cons, count_nil in Hl. lia. }
     
      injection Eo as -> _. apply Hin. rewrite Hi. set_solver. }
    rewrite He, list_to_set_evict by done. apply NoDup_cons in Hd' as [Hx Hd'].
    assert (count (cs_seen_event_order s) + 1 = 1 + count l) as Hc.
    { rewrite <- count_cons with (x := x), <- Eo, count_app, count_cons, count_nil. lia. }
    split; [split; cbn; try done; lia|]. cbn. rewrite elem_of_list_to_set.
    assert (id ∈ x :: l) as Hm by (rewrite <- Eo; set_solver). set_solver.
  - split; [split; cbn; done|]. cbn. set_solver.
Qed.

(** The ids remembered: the newest last, and no more than there is room for. *)
Definition kept_last (order : list EventId) : list EventId :=
  drop (N.to_nat (count order - MAX_SEEN_EVENT_IDS)) order.

Definition recall (order : list EventId) (id : EventId) : list EventId :=
  if decide (id ∈ order) then order else kept_last (order ++ [id]).

Lemma remember_recalls s id :
  queues_ok s -> cs_seen_event_order (remember_event_id s id) = recall (cs_seen_event_order s) id.
Proof.
  intros [Hi _ Hs _]. unfold remember_event_id, recall. case_bool_decide as Hin; rewrite Hi, elem_of_list_to_set in Hin.
  { by rewrite decide_True. }
  rewrite decide_False by done. unfold kept_last. rewrite count_app, count_cons, count_nil.
  destruct (N.ltb_spec MAX_SEEN_EVENT_IDS (count (cs_seen_event_order s) + (1 + 0))).
  - assert (count (cs_seen_event_order s) + (1 + 0) - MAX_SEEN_EVENT_IDS = 1) as -> by lia.
    by destruct (cs_seen_event_order s).
  - by assert (count (cs_seen_event_order s) + (1 + 0) - MAX_SEEN_EVENT_IDS = 0) as -> by lia.
Qed.

Lemma queue_replay_event_ok `{QueryPayloads} s ev : queues_ok s -> queues_ok (queue_replay_event s ev).1.
Proof.
  intros Hq. unfold queue_replay_event.
  destruct (N.leb_spec MAX_PENDING_REPLAY_EVENTS (count (cs_pending_replay_events s))).
  - cbn. by eapply queues_ok_alike; [..|exact Hq]; auto.
  - destruct (remember_event_id_ok s (de_id ev) Hq) as [[Hi Hd Hs Hp] _].
    destruct (remember_event_id_frame s (de_id ev)) as (_ & _ & Hpe).
    split; try done. cbn. rewrite count_app, count_cons, count_nil, Hpe. lia.
Qed.

(** *** Programs that keep a property of the subscription *)

Section Keeping.
Context `{HP : HostPayloads} `{QP : QueryPayloads} `{CC : !ClientConnection}.
Context `{Sha256} `{UrlParser} `{SpecialistJson} `{UnicodeText}.
Implicit Types (w : world).
Notation done_or_cut := (fun _ : world => True).

Section Generic.
Context (I : ClientSubscription -> Prop).

Definition keeps {A} (p : io A) : Prop := forall w, I (w_sub w) ->
  wp done_or_cut p (fun _ w' => I (w_sub w')) w.

Lemma keeps_bind {A B} (p : io A) (k : A -> io B) : keeps p -> (forall a, keeps (k a)) -> keeps (io_bind p k).
Proof.
  intros Hp Hk w Hw. apply wp_bind. eapply wp_mono; [|by apply Hp].
  intros [a|e] w' Hw'; [by apply Hk|done].
Qed.

Lemma keeps_on_error {A} (p : io A) h : keeps p -> keeps h -> keeps (io_on_error p h).
Proof.
  intros Hp Hh w Hw. apply wp_on_error. eapply wp_mono; [|by apply Hp].
  intros [a|e] w' Hw'; [done|]. eapply wp_mono; [|by apply Hh]. done.
Qed.

Lemma keeps_error_of p : keeps p -> keeps (io_error_of p).
Proof. intros Hp w Hw. apply wp_error_of. eapply wp_mono; [|by apply Hp]. done. Qed.

Lemma keeps_ret {A} (a : A) : keeps (io_ret a).
Proof. by intros w. Qed.

Lemma keeps_fail {A} e : keeps (io_fail (A := A) e).
Proof. by intros w. Qed.

Lemma keeps_stuck {A} : keeps (io_stuck (A := A)).
Proof. by intros w. Qed.

Lemma keeps_lift {A} (r : result A SubscriptionError) : keeps (io_lift r).
Proof. by intros w. Qed.

Lemma keeps_when c e : keeps (io_when c e).
Proof. intros w. by destruct c. Qed.

Lemma keeps_request {T} (f : HostClient -> HostClient * T) : keeps (io_request f).
Proof. intros w Hw. by apply wp_request. Qed.

Lemma keeps_sub : keeps io_sub.
Proof. by intros w. Qed.

Lemma keeps_client : keeps io_client.
Proof. by intros w. Qed.

Lemma keeps_modify f : (forall s, I s -> I (f s)) -> keeps (io_modify f).
Proof. intros Hf w Hw. by apply Hf. Qed.

Lemma keeps_method {A} (f : ClientSubscription -> ClientSubscription * result A SubscriptionError) :
  (forall s, I s -> I (f s).1) -> keeps (io_method f).
Proof. intros Hf w Hw. apply wp_method. by apply Hf. Qed.
End Generic.

Create HintDb keeps.
Hint Resolve keeps_ret keeps_fail keeps_stuck keeps_lift keeps_when keeps_request keeps_sub keeps_client : keeps.

(** Follows the program text, through the definitions of the subscription. *)
Ltac keep := repeat first
  [ progress cbn beta iota
  | solve [eauto 3 with keeps]
  | apply keeps_bind; [|intros ?]
  | apply keeps_on_error
  | apply keeps_error_of
  | match goal with |- keeps _ (match ?x with _ => _ end) => destruct x end
  | match goal with |- keeps _ (let '_ := ?x in _) => destruct x end ].

Section Any.
Context (I : ClientSubscription -> Prop).

Lemma keeps_answer {T} wrap
    (request : HostClient -> HostClient * result (result T QueryError) IpcError) :
  keeps I (io_answer wrap request).
Proof. unfold io_answer. keep. Qed.

Lemma keeps_released request : keeps I (io_released request).
Proof. unfold io_released. keep. Qed.

Hint Resolve keeps_answer keeps_released : keeps.

Lemma keeps_detail_section fuel task_id section : forall d cursor,
  keeps I (detail_section fuel task_id section d cursor).
Proof. induction fuel as [|fuel IH]; intros; cbn [detail_section]; keep. Qed.

Lemma keeps_detail_sections fuel task_id sections : forall d,
  keeps I (detail_sections fuel task_id sections d).
Proof.
  induction sections as [|section sections IH]; intros; cbn [detail_sections]; keep;
    apply keeps_detail_section.
Qed.

End Any.
Hint Resolve keeps_answer keeps_released keeps_detail_sections : keeps.

(** What a change of the handles or a call for a resync keeps. *)
Section Closed.
Context (I : ClientSubscription -> Prop)
  (I_handles : forall s a b, I s -> I (cs_with_handles s a b))
  (I_resync : forall s, I s -> I (cs_with_state s CsNeedsResync)).

Lemma keeps_set_subscription_id id : keeps I (set_subscription_id id).
Proof. apply keeps_modify. intros. by apply I_handles. Qed.

Lemma keeps_set_snapshot_id id : keeps I (set_snapshot_id id).
Proof. apply keeps_modify. intros. by apply I_handles. Qed.

Lemma keeps_resync : keeps I (set_state CsNeedsResync).
Proof. apply keeps_modify. intros. by apply I_resync. Qed.

Hint Resolve keeps_set_subscription_id keeps_set_snapshot_id keeps_resync : keeps.

Lemma keeps_releases : keeps I release_event_replay_if_owned /\ keeps I release_snapshot_if_owned.
Proof. split; [unfold release_event_replay_if_owned|unfold release_snapshot_if_owned]; keep. Qed.

Lemma keeps_cleanup : keeps I best_effort_cleanup.
Proof. unfold best_effort_cleanup. keep; apply keeps_releases. Qed.

Hint Resolve keeps_cleanup : keeps.

Lemma keeps_give_in : keeps I give_in.
Proof. unfold give_in. keep. Qed.

Lemma keeps_or_needs_resync p : keeps I p -> keeps I (or_needs_resync p).
Proof. intros. unfold or_needs_resync. keep. Qed.

Lemma keeps_release_either :
  keeps I (or_needs_resync release_event_replay_if_owned)
  /\ keeps I (or_needs_resync release_snapshot_if_owned).
Proof. split; apply keeps_or_needs_resync, keeps_releases. Qed.

Lemma keeps_read_page wrap section r requested cursor :
  keeps I (read_page wrap section r requested cursor).
Proof. unfold read_page, take_page. keep. Qed.

Lemma keeps_requested_id r started : keeps I (requested_id r started).
Proof. unfold requested_id. keep. Qed.

Hint Resolve keeps_give_in keeps_read_page keeps_requested_id : keeps.

Lemma keeps_preview_pages fuel : forall r started cursor, keeps I (preview_pages fuel r started cursor).
Proof. induction fuel as [|fuel IH]; intros; cbn [preview_pages]; keep. Qed.

Lemma keeps_read_section fuel section : forall r started cursor,
  keeps I (read_section fuel section r started cursor).
Proof. induction fuel as [|fuel IH]; intros; cbn [read_section]; keep. Qed.

Lemma keeps_read_sections fuel sections : forall r, keeps I (read_sections fuel sections r).
Proof.
  induction sections as [|section sections IH]; intros r; cbn [read_sections]; keep;
    apply keeps_read_section.
Qed.

Hint Resolve keeps_preview_pages : keeps.

(** A preview of a subscription that is neither ready nor released. *)
Lemma keeps_preview_tasks fuel :
  (forall s, I s -> I (cs_with_model s None)) ->
  (forall s, I s -> I (cs_with_state s CsPending)) -> keeps I (preview_tasks fuel).
Proof.
  intros I_model I_pending. unfold preview_tasks. keep; try apply keeps_release_either;
    apply keeps_modify; intros s Hs; [by apply I_model|].
  destruct (_ =?= _); [by apply I_pending|done].
Qed.
End Closed.

(** *** The bounds of the queues *)

Lemma queues_ok_with_state s state : queues_ok s -> queues_ok (cs_with_state s state).
Proof. apply queues_ok_alike; auto. Qed.

Lemma queues_ok_with_handles s a b : queues_ok s -> queues_ok (cs_with_handles s a b).
Proof. apply queues_ok_alike; auto. Qed.

Lemma queues_ok_with_model s m : queues_ok s -> queues_ok (cs_with_model s m).
Proof. apply queues_ok_alike; auto. Qed.

Lemma queues_ok_drained s : queues_ok s -> queues_ok (cs_with_pending s []).
Proof. apply queues_ok_alike; auto. Qed.

Lemma queues_ok_cleared s : queues_ok (cs_with_pending (cs_with_seen s ∅ []) []).
Proof. split; cbn; try constructor; done. Qed.

Hint Resolve queues_ok_with_state queues_ok_with_handles queues_ok_with_model queues_ok_drained
  queues_ok_cleared : keeps.

(** A replay only queues events. *)
Section Queueing.
Context (I : ClientSubscription -> Prop) (I_queue : forall s ev, I s -> I (queue_replay_event s ev).1).

Lemma keeps_queue_events events : keeps I (queue_replay_events events).
Proof.
  induction events as [|ev events IH]; cbn [queue_replay_events]; keep. apply keeps_method. intros. by apply I_queue.
Qed.

Hint Resolve keeps_queue_events : keeps.

Lemma keeps_replay_pages fuel : forall m batch, keeps I (replay_pages fuel m batch).
Proof. induction fuel as [|fuel IH]; intros; cbn [replay_pages]; keep. Qed.
End Queueing.

Hint Resolve keeps_read_sections keeps_cleanup keeps_release_either queue_replay_event_ok keeps_replay_pages : keeps.

Lemma keeps_modify_queues f : (forall s, queues_ok s -> queues_ok (f s)) -> keeps queues_ok (io_modify f).
Proof. apply keeps_modify. Qed.

Lemma keeps_release_handles :
  keeps queues_ok release_event_replay_if_owned /\ keeps queues_ok release_snapshot_if_owned
  /\ keeps queues_ok (or_needs_resync release_event_replay_if_owned)
  /\ keeps queues_ok (or_needs_resync release_snapshot_if_owned).
Proof.
  split_and!; first [apply keeps_releases|apply keeps_release_either];
    eauto using queues_ok_with_handles, queues_ok_with_state.
Qed.

Lemma keeps_synchronize fuel : keeps queues_ok (synchronize fuel).
Proof.
  pose proof keeps_release_handles as (? & ? & ? & ?).
  unfold synchronize, synchronize_inner, set_state. keep; apply keeps_modify_queues; intros; 
    eauto with keeps.
Qed.

(** The ids remembered are those of the events that wait to be handed over. *)
Definition remembers_pending (s : ClientSubscription) : Prop :=
  queues_ok s /\ cs_seen_event_order s = fold_left recall (map de_id (cs_pending_replay_events s)) [].

Lemma queue_remembers s ev : remembers_pending s -> remembers_pending (queue_replay_event s ev).1.
Proof.
  intros [Hq Ho]. split; [by apply queue_replay_event_ok|]. unfold queue_replay_event. destruct (_ <=? _); [done|]. cbn.
  destruct (remember_event_id_frame s (de_id ev)) as (_ & _ & Hp).
  rewrite Hp, map_app, fold_left_app, <- Ho. by apply remember_recalls.
Qed.

Lemma keeps_synchronize_inner fuel : keeps remembers_pending (synchronize_inner fuel).
Proof.
  pose proof (keeps_replay_pages remembers_pending queue_remembers).
  assert (forall s a b, remembers_pending s -> remembers_pending (cs_with_handles s a b)) as Hh.
  { intros s a b [? ?]. split; [by apply queues_ok_with_handles|done]. }
  assert (forall s, remembers_pending s -> remembers_pending (cs_with_state s CsNeedsResync)) as Hs.
  { intros s [? ?]. split; [by apply queues_ok_with_state|done]. }
  pose proof (keeps_releases remembers_pending Hh) as [_ Hr].
  unfold synchronize_inner. keep; try apply keeps_read_sections; eauto with keeps.
  all: apply keeps_modify; intros s Hq; first [by apply Hh|destruct Hq as [? ?]; split; [|done]].
  by apply queues_ok_with_state, queues_ok_with_model.
Qed.

Lemma wp_anything {A} (p : io A) w : wp done_or_cut p (fun _ _ => True) w.
Proof. unfold wp. by destruct (p w) as [w' [r|]]. Qed.

(** After a synchronization the ids remembered are those of the events its replay carried. *)
Lemma wp_synchronize_remembers fuel w :
  wp done_or_cut (synchronize fuel) (fun r w' => is_ok r = true -> remembers_pending (w_sub w')) w.
Proof.
  unfold synchronize.
  do 8 (rewrite wp_bind; eapply wp_mono; [|apply wp_anything]; cbn beta; intros [?|?] ? _; [|done]).
  rewrite wp_bind, wp_modify, wp_on_error. eapply wp_mono; [|apply keeps_synchronize_inner].
  - cbn beta. intros [[]|e] w' Hw; [done|]. eapply wp_mono; [|apply wp_anything]. done.
  - cbn. split; [apply queues_ok_cleared|done].
Qed.

Lemma synchronize_remembers fuel w w' u :
  synchronize fuel w = (w', Some (Ok u)) -> remembers_pending (w_sub w').
Proof.
  intros Hx. pose proof (wp_synchronize_remembers fuel w) as Hw. unfold wp in Hw. rewrite Hx in Hw. by apply Hw.
Qed.

Lemma keeps_release : keeps queues_ok release.
Proof.
  pose proof keeps_release_handles as (? & ? & ? & ?). unfold release, set_state. keep.
  apply keeps_modify_queues. eauto with keeps.
Qed.

Lemma keeps_load_task_detail fuel task_id : keeps queues_ok (load_task_detail fuel task_id).
Proof. unfold load_task_detail. keep. apply keeps_modify_queues. eauto with keeps. Qed.

Lemma remember_queues_ok s id : queues_ok s -> queues_ok (remember_event_id s id).
Proof. apply remember_event_id_ok. Qed.

Hint Resolve remember_queues_ok : keeps.

Lemma handle_queues_ok s message : queues_ok s -> queues_ok (handle_unsolicited_message s message).1.
Proof.
  intros Hq. unfold handle_unsolicited_message, handle_durable_event, handle_resync_required, needs_resync.
  repeat case_match; cbn; eauto with keeps.
Qed.

Lemma keeps_recv : keeps queues_ok recv_and_apply.
Proof.
  unfold recv_and_apply. keep.
  - apply keeps_method. intros s. apply handle_queues_ok.
  - apply keeps_modify_queues. intros s Hs. unfold observe_recv_transport_failure.
    destruct (_ =?= _); eauto with keeps.
Qed.

(** *** The calls of a caller *)

Lemma keeps_run I {A} (p : io A) w w' r : keeps I p -> p w = (w', Some r) -> I (w_sub w) -> I (w_sub w').
Proof. intros Hp Hx Hw. specialize (Hp w Hw). unfold wp in Hp. by rewrite Hx in Hp. Qed.

Definition unsettled (s : ClientSubscription) : Prop :=
  cs_state s = CsPending \/ cs_state s = CsNeedsResync.

Lemma unsettled_handles_ok s : unsettled s -> handles_ok s.
Proof. unfold handles_ok. by intros [-> | ->]. Qed.

Lemma preview_handles_ok fuel w w' r :
  preview_tasks fuel w = (w', Some r) -> handles_ok (w_sub w) -> handles_ok (w_sub w').
Proof.
  intros Hx Hh. destruct (cs_state (w_sub w)) eqn:Es.
  2,4: unfold preview_tasks, io_bind, io_sub, io_when in Hx; rewrite Es in Hx; by injection Hx as <- _.
  all: apply unsettled_handles_ok; eapply keeps_run;
    [apply (keeps_preview_tasks unsettled); unfold unsettled; cbn; auto|exact Hx|unfold unsettled; auto].
Qed.

Lemma synchronize_handles_ok fuel w w' r :
  synchronize fuel w = (w', Some r) -> handles_ok (w_sub w) -> handles_ok (w_sub w').
Proof.
  intros Hx Hh. pose proof (wp_synchronize fuel w) as Hw. unfold wp in Hw. rewrite Hx in Hw.
  destruct r as [u|e].
  - destruct Hw as (? & ? & ? & ? & m & ? & ? & ? & ? & Hm & Hs & _ & Hsn & Hsub & _).
    unfold handles_ok. by rewrite Hs, Hm.
  - destruct Hw as [_ [->|[Hs _]]]; [done|]. unfold handles_ok. by rewrite Hs.
Qed.

(** A release: done when both handles are gone. *)
Lemma wp_release_call w :
  wp (fun _ => True) release (fun r w' =>
    match r with
    | Ok _ => cs_state (w_sub w') = CsReleased /\ cs_subscription_id (w_sub w') = None
              /\ cs_snapshot_id (w_sub w') = None /\ cs_model (w_sub w') = cs_model (w_sub w)
    | Err _ => cs_state (w_sub w') = CsNeedsResync /\ cs_model (w_sub w') = cs_model (w_sub w)
    end) w.
Proof.
  unfold release. rewrite wp_bind, wp_sub. destruct (_ && _) eqn:Ea.
  - apply andb_true_iff in Ea as [[Es%eqb_true_1 Hsub%is_none_true]%andb_true_iff Hsn%is_none_true].
    apply wp_ret. by split_and!.
  - unfold or_needs_resync, set_state. rewrite wp_bind, wp_on_error.
    eapply wp_mono; [|apply wp_release_event_replay]. cbn beta.
    intros [u|e] w1 Hs1; unfold replay_released in Hs1; cbn in Hs1; [|cbn; by rewrite Hs1].
    rewrite wp_bind, wp_on_error. eapply wp_mono; [|apply wp_release_snapshot]. cbn beta.
    intros [v|e] w2 Hs2; unfold snapshot_released in Hs2; cbn in Hs2; cbn; by rewrite Hs2, Hs1.
Qed.

Lemma release_handles_ok w w' r : release w = (w', Some r) -> handles_ok (w_sub w').
Proof.
  intros Hx. pose proof (wp_release_call w) as Hw. unfold wp in Hw. rewrite Hx in Hw.
  unfold handles_ok. destruct r; [by destruct Hw as (-> & -> & -> & _)|by destruct Hw as [-> _]].
Qed.

(** The detail of a task touches the model alone, and keeps one. *)
Lemma detail_frame fuel t w w' r :
  load_task_detail fuel t w = (w', Some r) ->
  w_sub w' = w_sub w
  \/ (is_some (cs_model (w_sub w)) = true
      /\ exists m, w_sub w' = cs_with_model (w_sub w) (Some m)).
Proof.
  set (I s' := s' = w_sub w \/ (is_some (cs_model (w_sub w)) = true
                 /\ exists m, s' = cs_with_model (w_sub w) (Some m))).
  intros Hx. change (I (w_sub w')). revert Hx.
  destruct (cs_model (w_sub w)) as [m0|] eqn:Em.
  - intros Hx. eapply (keeps_run I); [|exact Hx|by left]. unfold load_task_detail. keep.
    apply keeps_modify. intros s [->|[_ [m ->]]]; right; (split; [by rewrite ?Em|by eexists]).
  - unfold load_task_detail, io_bind, io_sub, io_when, io_lift. rewrite Em.
    destruct (_ =?= _); cbn; intros Hx; injection Hx as <- _; by left.
Qed.

Lemma detail_handles_ok fuel t w w' r :
  load_task_detail fuel t w = (w', Some r) -> handles_ok (w_sub w) -> handles_ok (w_sub w').
Proof.
  intros Hx Hh. destruct (detail_frame _ _ _ _ _ Hx) as [->|[_ [m ->]]]; [done|].
  unfold handles_ok in *. cbn. destruct (cs_state (w_sub w)); [done|by destruct Hh as (_ & ? & ?)|done..].
Qed.

(** *** The live tail *)

(** The only way a message changes the model: an event of the subscription it
    follows, new and later than all before it, that the model accepts. *)
Definition tail_event (s : ClientSubscription) (message : UnsolicitedServerMessage)
    (s' : ClientSubscription) : Prop :=
  exists id ev m m',
    message = UmDurableEvent id ev /\ cs_state s = CsReady /\ cs_subscription_id s = Some id
    /\ cs_model s = Some m /\ de_id ev ∉ cs_seen_event_ids s
    /\ cm_last_applied_sequence m < de_sequence ev /\ apply_event m ev = Ok m'
    /\ cs_model s' = Some m' /\ de_id ev ∈ cs_seen_event_ids s'.

(** The id of the event a message makes a subscription look at: one of its own, new and later than
    all before it. *)
Definition noticed (s : ClientSubscription) (message : UnsolicitedServerMessage) : option EventId :=
  match message with
  | UmDurableEvent id ev =>
      if (cs_state s =?= CsReady) && (cs_subscription_id s =?= Some id)
         && negb (bool_decide (de_id ev ∈ cs_seen_event_ids s))
         && is_some_and (cs_model s) (fun m => cm_last_applied_sequence m <? de_sequence ev)
      then Some (de_id ev) else None
  | _ => None
  end.

Definition remembered (s : ClientSubscription) (message : UnsolicitedServerMessage) : list EventId :=
  match noticed s message with
  | Some id => kept_last (cs_seen_event_order s ++ [id])
  | None => cs_seen_event_order s
  end.

Lemma handle_remembers s message :
  queues_ok s -> cs_seen_event_order (handle_unsolicited_message s message).1 = remembered s message.
Proof.
  intros Hq. unfold handle_unsolicited_message, remembered, noticed.
  destruct (cs_state s) eqn:Es; cbn [state_error]; try by destruct message.
  destruct (cs_subscription_id s) as [id|] eqn:Eid; [|by destruct message].
  destruct message as [observed ev|observed last newest|frame|cid t high]; try done.
  2:{ unfold handle_resync_required, needs_resync. destruct (negb _); [done|]. destruct (cs_model s); [|done].
      by destruct (_ || _). }
  unfold handle_durable_event, needs_resync.
  destruct (observed =?= id) eqn:Eo; [apply eqb_true_1 in Eo as ->|].
  2:{ assert ((Some id =?= Some observed) = false) as ->; [|done]. apply not_true_iff_false. rewrite eqb_true.
      intros [= ->]. by rewrite (proj2 (eqb_true _ _) eq_refl) in Eo. }
  rewrite !(proj2 (eqb_true _ _) eq_refl). cbn [andb negb]. case_bool_decide as Hin; [done|]. cbn [andb negb].
  destruct (cs_model s) as [m|]; [|done]. cbn [is_some_and].
  rewrite N.leb_antisym. destruct (cm_last_applied_sequence m <? de_sequence ev); [|done]. cbn [negb].
  destruct Hq as [Hi Hd Hl Hp]. pose proof (remember_recalls s (de_id ev) (Build_queues_ok _ Hi Hd Hl Hp)) as Hr.
  unfold recall in Hr. rewrite decide_False in Hr by (by rewrite Hi, elem_of_list_to_set in Hin).
  destruct (apply_event m ev) as [m'|e]; cbn; exact Hr.
Qed.

Record tail_step (s : ClientSubscription) (message : UnsolicitedServerMessage)
    (s' : ClientSubscription) (r : result SubscriptionUpdate SubscriptionError) : Prop := {
  tl_ok : subscription_ok s';
  tl_handles : cs_subscription_id s' = cs_subscription_id s /\ cs_snapshot_id s' = cs_snapshot_id s;
  tl_pending : cs_pending_replay_events s' = cs_pending_replay_events s;
  tl_model : cs_model s' = cs_model s \/ tail_event s message s';
  tl_error : is_ok r = false -> cs_state s' <> CsReady;
  tl_kept : cs_state s <> CsReady -> s' = s;
  tl_seen : cs_seen_event_order s' = remembered s message;
}.

Lemma durable_event_step s id observed ev s' r :
  subscription_ok s -> cs_state s = CsReady -> cs_subscription_id s = Some id ->
  handle_durable_event s id observed ev = (s', r) ->
  handles_ok s' /\ only_events s s' /\ cs_pending_replay_events s' = cs_pending_replay_events s
    /\ (is_ok r = false -> cs_state s' <> CsReady)
  \/ handles_ok s' /\ tail_event s (UmDurableEvent observed ev) s' /\ is_ok r = true
     /\ cs_subscription_id s' = cs_subscription_id s /\ cs_snapshot_id s' = cs_snapshot_id s
     /\ cs_pending_replay_events s' = cs_pending_replay_events s.
Proof.
  intros [Hq Hh] Hs Hid. pose proof Hh as Hh0. unfold handles_ok in Hh0. rewrite Hs in Hh0.
  destruct Hh0 as (Hm & Hsub & Hsn). unfold handle_durable_event, needs_resync.
  destruct (observed =?= id) eqn:Eo; cbn [negb]; [|by intros [= <- <-]; left].
  apply eqb_true_1 in Eo as ->. case_bool_decide as Hseen; [by intros [= <- <-]; left|].
  destruct (cs_model s) as [m|] eqn:Em; [|done].
  destruct (N.leb_spec (de_sequence ev) (cm_last_applied_sequence m)); [by intros [= <- <-]; left|].
  destruct (remember_event_id_frame s (de_id ev)) as ([E1 E2 E3] & Est & Epe).
  destruct (remember_event_id_ok s (de_id ev) Hq) as [_ Hin].
  destruct (apply_event m ev) as [m'|e] eqn:Ea; intros [= <- <-].
  - right. unfold handles_ok. cbn. rewrite Est, E1, E2, Epe, Hs, Hid. split_and!; try done.
    by exists id, ev, m, m'.
  - left. unfold handles_ok. cbn. rewrite Epe. by split_and!.
Qed.

Lemma resync_step s id observed last newest s' r :
  subscription_ok s -> cs_state s = CsReady ->
  handle_resync_required s id observed last newest = (s', r) ->
  s' = cs_with_state s CsNeedsResync.
Proof.
  intros [_ Hh] Hs. unfold handles_ok in Hh. rewrite Hs in Hh. destruct Hh as (Hm & _ & _).
  unfold handle_resync_required, needs_resync. destruct (negb _); [by intros [= <- _]|].
  destruct (cs_model s); [|done]. destruct (_ || _); by intros [= <- _].
Qed.

Lemma handle_unsolicited_step s message s' r :
  subscription_ok s -> handle_unsolicited_message s message = (s', r) -> tail_step s message s' r.
Proof.
  intros Hok Hx. pose proof (handle_queues_ok s message (proj1 Hok)) as Hq. rewrite Hx in Hq. cbn in Hq.
  pose proof (handle_remembers s message (proj1 Hok)) as Hrem. rewrite Hx in Hrem. cbn [fst] in Hrem.
  unfold handle_unsolicited_message in Hx. destruct (state_error (cs_state s)) as [e|] eqn:Ee.
  { injection Hx as <- <-. split; try done; [by left|]. by destruct (cs_state s). }
  assert (cs_state s = CsReady) as Hs by (by destruct (cs_state s)).
  pose proof (proj2 Hok) as Hh. unfold handles_ok in Hh. rewrite Hs in Hh.
  destruct Hh as (Hm & Hsub & Hsn). destruct (cs_subscription_id s) as [id|] eqn:Hid; [|done].
  destruct message as [observed ev|observed last newest|frame|cid t high].
  - destruct (durable_event_step _ _ _ _ _ _ Hok Hs Hid Hx)
      as [(Hh & [E1 E2 E3] & Hp & He)|(Hh & Ht & He & E1 & E2 & Hp)].
    + split; try done; [by left].
    + split; try done; [by right|by rewrite He].
  - pose proof (resync_step _ _ _ _ _ _ _ Hok Hs Hx) as ->.
    split; try done; by left.
  - injection Hx as <- <-. split; try done; by left.
  - injection Hx as <- <-. split; try done; by left.
Qed.

Lemma recv_cases w w' r :
  recv_and_apply w = (w', Some r) ->
  w_sub w' = w_sub w \/ w_sub w' = observe_recv_transport_failure (w_sub w)
  \/ exists message, w_sub w' = (handle_unsolicited_message (w_sub w) message).1.
Proof.
  unfold recv_and_apply, io_bind, io_sub, io_request, io_modify, io_method, io_fail, io_ret.
  destruct (state_error _); [intros [= <- _]; by left|].
  destruct (recv_unsolicited (w_client w)) as [h [message|e]]; cbn.
  - destruct (handle_unsolicited_message _ _) as [s res] eqn:Eh. intros [= <- _].
    right; right. exists message. by rewrite Eh.
  - intros [= <- _]. right; by left.
Qed.

Lemma observe_handles_ok s : handles_ok s -> handles_ok (observe_recv_transport_failure s).
Proof. unfold observe_recv_transport_failure. by destruct (_ =?= _). Qed.

Lemma observe_queues_ok s : queues_ok s -> queues_ok (observe_recv_transport_failure s).
Proof. unfold observe_recv_transport_failure. destruct (_ =?= _); eauto with keeps. Qed.

Lemma handle_subscription_ok s message :
  subscription_ok s -> subscription_ok (handle_unsolicited_message s message).1.
Proof.
  intros Hs. destruct (handle_unsolicited_message s message) as [s' r] eqn:Eh.
  by destruct (handle_unsolicited_step _ _ _ _ Hs Eh).
Qed.

Lemma preview_queues_ok fuel : keeps queues_ok (preview_tasks fuel).
Proof. apply keeps_preview_tasks; eauto with keeps. Qed.

(** The calls a caller makes, each to its end, in any order. *)
Section Calls.
Context (fresh : connection -> Prop).

Inductive call : world -> world -> Prop :=
| call_preview fuel w w' r : preview_tasks fuel w = (w', Some r) -> call w w'
| call_synchronize fuel w w' r : synchronize fuel w = (w', Some r) -> call w w'
| call_recv w w' r : recv_and_apply w = (w', Some r) -> call w w'
| call_handle message w :
    call w {| w_sub := (handle_unsolicited_message (w_sub w) message).1; w_client := w_client w |}
| call_take w : call w {| w_sub := (take_replay_events (w_sub w)).1; w_client := w_client w |}
| call_observe w :
    call w {| w_sub := observe_recv_transport_failure (w_sub w); w_client := w_client w |}
| call_release w w' r : release w = (w', Some r) -> call w w'
| call_retire w : hc_connection (w_client w) = None ->
    call w {| w_sub := retire_without_transport (w_sub w); w_client := w_client w |}
| call_disconnect w : call w {| w_sub := w_sub w; w_client := disconnect (w_client w) |}
| call_reconnect w c : fresh c ->
    call w {| w_sub := w_sub w; w_client := with_connection (w_client w) (Some c) |}.

(** The calls above and the detail of a task. *)
Definition call_or_detail (w w' : world) : Prop :=
  call w w' \/ exists fuel t r, load_task_detail fuel t w = (w', Some r).

Lemma call_ok w w' : call w w' -> subscription_ok (w_sub w) -> subscription_ok (w_sub w').
Proof.
  intros Hc Hw. pose proof Hw as [Hq Hh]. destruct Hc; cbn [w_sub].
  - split; [eapply (keeps_run queues_ok); [apply preview_queues_ok|eassumption|done]|by eapply preview_handles_ok].
  - split; [eapply (keeps_run queues_ok); [apply keeps_synchronize|eassumption|done]|by eapply synchronize_handles_ok].
  - destruct (recv_cases _ _ _ H3) as [->|[->|[message ->]]]; [done| |by apply handle_subscription_ok].
    split; [by apply observe_queues_ok|by apply observe_handles_ok].
  - by apply handle_subscription_ok.
  - split; [by apply queues_ok_drained|done].
  - split; [by apply observe_queues_ok|by apply observe_handles_ok].
  - split; [eapply (keeps_run queues_ok); [apply keeps_release|eassumption|done]|by eapply release_handles_ok].
  - split; [split; [done|constructor|done|done]|by unfold handles_ok].
  - done.
  - done.
Qed.

Lemma call_or_detail_ok w w' : call_or_detail w w' -> subscription_ok (w_sub w) -> subscription_ok (w_sub w').
Proof.
  intros [Hc|(fuel & t & r & Hx)] Hw; [by eapply call_ok|]. destruct Hw as [Hq Hh].
  split; [eapply (keeps_run queues_ok); [apply keeps_load_task_detail|exact Hx|exact Hq]|by eapply detail_handles_ok].
Qed.

Lemma reachable_ok client w :
  rtc call_or_detail {| w_sub := subscription_new; w_client := client |} w -> subscription_ok (w_sub w).
Proof.
  remember {| w_sub := subscription_new; w_client := client |} as w0 eqn:E.
  intros Hr. assert (subscription_ok (w_sub w0)) as Hok by (rewrite E; apply subscription_new_ok).
  clear E. induction Hr; [done|]. eauto using call_or_detail_ok.
Qed.

(** C10: However a caller uses a subscription -- previews, synchronisations, messages, detail
    loads, releases, lost and new connections, in any order and whatever the host answers -- the
    remembered event ids differ and are at most 8,192, at most 8,192 replayed events wait to be
    handed over, a ready subscription has its model and replay subscription and no snapshot, and a
    released one holds no handle. From any such state a message changes the model only when the
    subscription is ready and the message is an event of its own subscription, of an id not
    remembered and a sequence past the last one applied, that the model accepts; the id of such an
    event is remembered as the newest, accepted or not, and of 8,193 the oldest is forgotten; an
    error leaves the subscription not ready; and a subscription that is not ready is left as it
    was. A synchronization that succeeds remembers the ids of the events its replay carried. *)
Theorem live_tail_safe client w message s' r :
  rtc call_or_detail {| w_sub := subscription_new; w_client := client |} w ->
  handle_unsolicited_message (w_sub w) message = (s', r) ->
  subscription_ok (w_sub w) /\ tail_step (w_sub w) message s' r
  /\ (forall fuel w' u, synchronize fuel w = (w', Some (Ok u)) -> remembers_pending (w_sub w')).
Proof.
  intros Hr%reachable_ok Hx. split; [done|]. split; [by apply handle_unsolicited_step|].
  intros fuel w' u. apply synchronize_remembers.
Qed.
End Calls.

End Keeping.

(** ** A host that follows a script *)

#[local] Existing Instance toy_sha.
#[local] Existing Instance toy_urls.
#[local] Existing Instance toy_wire.
#[local] Existing Instance toy_json.
#[local] Existing Instance toy_host.
#[local] Existing Instance toy_unicode.
#[local] Existing Instance toy_payloads.

(** Answers in turn; a timeout when there are none left. *)
Definition scripted : ClientConnection :=
  {| connection := list QueryOutcome;
     is_live _ := true;
     new_request_id _ := 0;
     connection_query c q :=
       match c with
       | o :: rest => (rest, Ok {| qr_request_id := qe_request_id q; qr_outcome := o |})
       | [] => ([], Err IpcTimeout)
       end;
     connection_execute c _ := (c, Err IpcUnavailable);
     connection_retire c _ := (c, Ok tt);
     connection_recv c := (c, Err IpcUnavailable) |}.
#[local] Existing Instance scripted.

Definition client_of `{CC : !ClientConnection} (c : connection) : HostClient :=
  {| hc_client_id := 1; hc_granted := from_capabilities [PagedSnapshots; EventReplay];
     hc_connection := Some c; hc_tracked := ∅ |}.

Definition world_of `{CC : !ClientConnection} (c : connection) : world :=
  {| w_sub := subscription_new; w_client := client_of c |}.

(** An operation the host accepts after the snapshot. *)
Definition accepted_event (sequence operation_id : N) : DomainEvent :=
  {| de_id := 900 + sequence; de_task_id := None; de_sequence := sequence; de_task_revision := None;
     de_occurred_at_ms := 4%Z;
     de_payload := EvOperationAccepted
       {| oa_command_id := operation_id + 1; oa_operation_id := operation_id;
          oa_accepted_at_ms := 4%Z; oa_action_epoch := None; oa_resource_id := None;
          oa_runtime_generation := None |} |}.

Definition replay_answer (after : N) (event : DomainEvent) (cursor : option (list N)) : QueryOutcome :=
  Ok (QrEventReplayPage [9]
        {| ep_after_sequence := after; ep_through_sequence := 42; ep_events := [event];
           ep_next_cursor := cursor |}).

(** Five sections, a replay in two pages, and the release of the snapshot between. *)
Definition sync_script : list QueryOutcome :=
  map (fun page => Ok (QrSnapshotPage page))
    [ sample_page SecTasks [SiTask sample_task_item];
      sample_page SecAgentSessions [SiAgentSession sample_agent];
      sample_page SecArtifacts [];
      sample_page SecResources [SiResource sample_provider_terminal];
      sample_page SecOperations [SiOperation sample_operation] ]
  ++ [ replay_answer 40 (accepted_event 41 310) (Some [7]);
       Ok (QrSnapshotReleased 77);
       replay_answer 41 (accepted_event 42 320) None ].

Definition synced : world := (synchronize SYNC_TURNS (world_of sync_script)).1.

Definition run_of {A} (o : option (result A SubscriptionError)) : bool :=
  match o with Some (Ok _) => true | _ => false end.

Example synced_result :
  (synchronize SYNC_TURNS (world_of sync_script)).2 = Some (Ok tt)
  /\ cs_state (w_sub synced) = CsReady
  /\ map de_sequence (cs_pending_replay_events (w_sub synced)) = [41; 42]
  /\ option_map (fun m => (cm_last_applied_sequence m, is_some (cm_operations m !! 320)))
       (cs_model (w_sub synced)) = Some (42, true).
Proof. vm_compute. auto. Qed.

Lemma synchronization_ends_witness :
  (SYNC_TURNS <= 1100)%nat
  /\ (exists w' r, synchronize 1100 (world_of sync_script) = (w', Some r)
                   /\ synchronize SYNC_TURNS (world_of sync_script) = (w', Some r)).
Proof.
  assert (SYNC_TURNS <= 1100)%nat as Hf by (unfold SYNC_TURNS; lia). split; [exact Hf|].
  exact (proj1 (synchronization_ends (world_of sync_script) 1100 Hf)).
Defined.

Lemma synchronize_installs_model_witness :
  (synchronize SYNC_TURNS (world_of sync_script)).2 = Some (Ok tt) /\ synchronized (w_sub synced).
Proof.
  split; [by vm_compute|].
  exact (synchronize_installs_model SYNC_TURNS (world_of sync_script) synced (Ok tt)
           ltac:(by vm_compute)).
Defined.

(** The next event on the live tail. *)
Definition tail_message : UnsolicitedServerMessage := UmDurableEvent [9] (accepted_event 43 330).
Definition after_tail : ClientSubscription := (handle_unsolicited_message (w_sub synced) tail_message).1.

Lemma live_tail_safe_witness :
  option_map cm_last_applied_sequence (cs_model after_tail) = Some 43
  /\ subscription_ok after_tail.
Proof.
  split; [by vm_compute|].
  pose proof (live_tail_safe (fun _ => True) (client_of sync_script) synced tail_message after_tail
                (Ok (UpDurableEvent (accepted_event 43 330)))
                ltac:(apply rtc_once; left; eapply call_synchronize with (fuel := SYNC_TURNS); by vm_compute)
                ltac:(by vm_compute)) as (_ & Ht & _).
  exact (tl_ok _ _ _ _ Ht).
Defined.

(** ** A host whose pages never end *)

(** Every answer is a page with a cursor, of the section and snapshot asked for. *)
Definition endless : ClientConnection :=
  {| connection := unit;
     is_live _ := true;
     new_request_id _ := 0;
     connection_query c q :=
       (c, Ok {| qr_request_id := qe_request_id q;
                 qr_outcome :=
                   match qe_query q with
                   | QSnapshotPage section id cursor =>
                       Ok (QrSnapshotPage
                         {| sp_snapshot_id := default 77 id; sp_through_sequence := 40;
                            sp_section := section; sp_after_item := None; sp_items := [];
                            sp_encoded_bytes := 9; sp_next_cursor := Some [1] |})
                   | _ => Err QeInvalidRequest
                   end |});
     connection_execute c _ := (c, Err IpcUnavailable);
     connection_retire c _ := (c, Ok tt);
     connection_recv c := (c, Err IpcUnavailable) |}.

Definition endless_world : @world toy_host toy_payloads endless :=
  {| w_sub := w_sub synced; w_client := @client_of endless tt |}.

(** [load_task_detail] has no bound of its own: as long as the host sends cursors it
    asks for the next page, and keeps them all. *)
Example detail_never_ends :
  (load_task_detail (CC := endless) 3000 5 endless_world).2 = None.
Proof. vm_compute. reflexivity. Qed.

(** The preview of the same host ends at the first empty page. *)
Example preview_ends :
  (preview_tasks (CC := endless) 2 {| w_sub := subscription_new; w_client := @client_of endless tt |}).2
  = Some (Err (SubModel NonProgressingPage)).
Proof. vm_compute. reflexivity. Qed.
