(* ===== verification/Ledger.v ===== *)
(** The handles a host holds for a client: every snapshot and event replay opened
    on a connection and not released is one the client's subscription still owns. *)
From S2P Require Import Prelude Canonical Task Agent Resource Artifact Browser Operation Snapshot Event Command Sample Stream Pages ProjectionIndex Client Assembly Replica Query UnsolicitedInbox HostClient Subscription Synchronized.

Section Ledger.
Context `{HP : HostPayloads} `{QP : QueryPayloads} (CC : ClientConnection).

(** ** A connection that writes down what it is asked and answers *)

Definition exchange : Type := Query * QueryOutcome.

Definition answered_log (log : list exchange) (q : Query) (r : result QueryReply IpcError) : list exchange :=
  match r with
  | Ok reply => (q, qr_outcome reply) :: log
  | Err _ => log
  end.

(** The same connection, with the exchanges so far, the last one first. *)
Definition logged : ClientConnection :=
  {| connection := @connection _ _ CC * list exchange;
     is_live c := @is_live _ _ CC c.1;
     new_request_id c := @new_request_id _ _ CC c.1;
     connection_query c q :=
       let '(k, r) := @connection_query _ _ CC c.1 q in ((k, answered_log c.2 (qe_query q) r), r);
     connection_execute c e := let '(k, r) := @connection_execute _ _ CC c.1 e in ((k, c.2), r);
     connection_retire c id := let '(k, r) := @connection_retire _ _ CC c.1 id in ((k, c.2), r);
     connection_recv c := let '(k, r) := @connection_recv _ _ CC c.1 in ((k, c.2), r) |}.

(** The snapshots the host keeps after an exchange: a page pins its snapshot, a
    release or the word that it is unknown ends it. *)
Definition snapshots_after (open : gset N) (x : exchange) : gset N :=
  match x with
  | (_, Ok (QrSnapshotPage page)) => {[sp_snapshot_id page]} ∪ open
  | (QReleaseSnapshot id, Ok (QrSnapshotReleased released)) =>
      if released =? id then open ∖ {[id]} else open
  | (QReleaseSnapshot id, Err QeNotFound) => open ∖ {[id]}
  | _ => open
  end.

Definition replays_after (open : gset (list N)) (x : exchange) : gset (list N) :=
  match x with
  | (_, Ok (QrEventReplayPage id _)) => {[id]} ∪ open
  | (QReleaseEventReplay id, Ok (QrEventReplayReleased released)) =>
      if released =?= id then open ∖ {[id]} else open
  | (QReleaseEventReplay id, Err QeNotFound) => open ∖ {[id]}
  | _ => open
  end.

Definition open_snapshots (log : list exchange) : gset N :=
  foldr (fun x open => snapshots_after open x) ∅ log.
Definition open_replays (log : list exchange) : gset (list N) :=
  foldr (fun x open => replays_after open x) ∅ log.

#[local] Existing Instance logged | 0.

(** What is open on the connection the client has, if it has one. *)
Definition ledger (h : HostClient) : option (gset N * gset (list N)) :=
  c ← hc_connection h; Some (open_snapshots c.2, open_replays c.2).

(** The subscription owns all that is open. *)
Definition owns (s : ClientSubscription) (l : gset N * gset (list N)) : Prop :=
  (forall id, id ∈ l.1 -> cs_snapshot_id s = Some id)
  /\ (forall id, id ∈ l.2 -> cs_subscription_id s = Some id).

Definition accounted (w : world) : Prop :=
  match ledger (w_client w) with
  | None => True
  | Some l => owns (w_sub w) l
  end.

(** ** Requests and the ledger *)

(** A request ends without a connection, or moves the ledger. *)
Definition moves (h h' : HostClient) (f : gset N * gset (list N) -> gset N * gset (list N)) : Prop :=
  ledger h' = None \/ exists l, ledger h = Some l /\ ledger h' = Some (f l).

Definition exchanged (x : exchange) (l : gset N * gset (list N)) : gset N * gset (list N) :=
  (snapshots_after l.1 x, replays_after l.2 x).

Lemma ledger_of h (c : connection) :
  hc_connection h = Some c -> ledger h = Some (open_snapshots c.2, open_replays c.2).
Proof. unfold ledger. by intros ->. Qed.

Lemma ledger_none h : hc_connection h = None -> ledger h = None.
Proof. unfold ledger. by intros ->. Qed.

Lemma moves_same h : moves h h id.
Proof. unfold moves. destruct (ledger h) as [l|] eqn:El; [right; by exists l|by left]. Qed.

Lemma moves_retired h h' f : moves h (retire_connection h') f.
Proof. by left. Qed.

Lemma query_live_ledger h c t q h' r :
  live_connection h = Ok c -> query_live h c t q = (h', r) ->
  moves h h' (match r with Ok reply => exchanged (q, qr_outcome reply) | Err _ => id end).
Proof.
  unfold live_connection, query_live. cbn.
  destruct (hc_connection h) as [[k log]|] eqn:Eh; [|done]. cbn.
  destruct (@is_live _ _ CC k); [|done]. intros [= <-]. cbn.
  destruct (@connection_query _ _ CC k _) as [k' [reply|e]]; intros [= <- <-]; right;
    eexists; (split; [by apply ledger_of|reflexivity]).
Qed.

Lemma ask_ledger h t q h' r :
  ask h t q = (h', r) -> moves h h' (match r with Ok outcome => exchanged (q, outcome) | Err _ => id end).
Proof.
  unfold ask. destruct (live_connection h) as [c|e] eqn:El; [|intros [= <- <-]; apply moves_same].
  destruct (query_live h c t q) as [h1 r1] eqn:Eq. pose proof (query_live_ledger _ _ _ _ _ _ El Eq) as Hm.
  destruct r1; intros [= <- <-]; [done|apply moves_retired].
Qed.

(** The id of a page, for the ledger. *)
Definition opens_snapshot (id : N) (l : gset N * gset (list N)) := ({[id]} ∪ l.1, l.2).
Definition closes_snapshot (id : N) (l : gset N * gset (list N)) := (l.1 ∖ {[id]}, l.2).
Definition opens_replay (id : list N) (l : gset N * gset (list N)) := (l.1, {[id]} ∪ l.2).
Definition closes_replay (id : list N) (l : gset N * gset (list N)) := (l.1, l.2 ∖ {[id]}).

Definition answered_page (r : result (result SnapshotPage QueryError) IpcError) :=
  match r with Ok (Ok page) => opens_snapshot (sp_snapshot_id page) | _ => id end.
Definition answered_batch (r : result (result EventReplayBatch QueryError) IpcError) :=
  match r with Ok (Ok batch) => opens_replay (rb_subscription_id batch) | _ => id end.

(** A release the host confirms, or of a handle it does not know. *)
Definition confirmed (r : result (result unit QueryError) IpcError) : bool :=
  match r with Ok (Ok _) | Ok (Err QeNotFound) => true | _ => false end.

Lemma exchanged_plain q e l :
  (forall i, q <> QReleaseSnapshot i) -> (forall i, q <> QReleaseEventReplay i) ->
  exchanged (q, Err e) l = l.
Proof.
  intros Hs Hr. destruct l, q; try done; [by destruct (Hs snapshot_id)|by destruct (Hr subscription_id)].
Qed.

Lemma moves_ext h h' f g : moves h h' f -> (forall l, f l = g l) -> moves h h' g.
Proof. intros [Hn|(l & Hl & Hl')] He; [by left|right]. exists l. by rewrite <- He. Qed.

Lemma snapshot_page_ledger h section t requested cursor h' r :
  snapshot_page_scoped h section t requested cursor = (h', r) ->
  moves h h' (answered_page r)
  /\ match r with
     | Ok (Ok page) => is_none_or requested (fun expected => sp_snapshot_id page =? expected) = true
     | _ => True
     end.
Proof.
  unfold snapshot_page_scoped. destruct (negb (granted _ _)); [by intros [= <- <-]; split; [apply moves_same|]|].
  destruct (ask h t _) as [h1 [[q|e]|e]] eqn:Ea; apply ask_ledger in Ea.
  - destruct q as [| | |page| | | | | | | |];
      try (intros [= <- <-]; split; [apply moves_retired|done]).
    destruct (negb (_ =?= _)); [by intros [= <- <-]; split; [apply moves_retired|]|].
    destruct (is_none_or _ _) eqn:En; cbn [negb]; intros [= <- <-]; split; try done.
    apply moves_retired.
  - intros [= <- <-]. split; [|done]. eapply moves_ext; [exact Ea|]. intros l. by apply exchanged_plain.
  - intros [= <- <-]. by split.
Qed.

Lemma release_snapshot_ledger h id t h' r :
  release_snapshot_scoped h id t = (h', r) ->
  moves h h' (if confirmed r then closes_snapshot id else Datatypes.id).
Proof.
  unfold release_snapshot_scoped.
  destruct (negb (granted _ _)); [intros [= <- <-]; apply moves_same|].
  destruct (ask h t _) as [h1 [[q|e]|e]] eqn:Ea; apply ask_ledger in Ea.
  - destruct q as [| | | |released| | | | | | |]; try (intros [= <- <-]; apply moves_retired).
    destruct (released =? id) eqn:Er; intros [= <- <-]; [|apply moves_retired].
    eapply moves_ext; [exact Ea|]. intros l. unfold exchanged. cbn. by rewrite Er.
  - intros [= <- <-]. eapply moves_ext; [exact Ea|]. intros [l1 l2]. by destruct e.
  - intros [= <- <-]. exact Ea.
Qed.

Lemma open_replay_ledger h after h' r :
  open_event_replay h after = (h', r) -> moves h h' (answered_batch r).
Proof.
  unfold open_event_replay. destruct (negb (granted _ _)); [intros [= <- <-]; apply moves_same|].
  destruct (ask h None _) as [h1 [[q|e]|e]] eqn:Ea; apply ask_ledger in Ea.
  - destruct q; try (intros [= <- <-]; apply moves_retired).
    destruct (negb _); intros [= <- <-]; [apply moves_retired|exact Ea].
  - intros [= <- <-]. eapply moves_ext; [exact Ea|]. intros l. by apply exchanged_plain.
  - intros [= <- <-]. exact Ea.
Qed.

Lemma continue_replay_ledger h id cursor h' r :
  continue_event_replay h id cursor = (h', r) ->
  moves h h' (answered_batch r)
  /\ match r with Ok (Ok batch) => rb_subscription_id batch = id | _ => True end.
Proof.
  unfold continue_event_replay.
  destruct (negb (granted _ _)); [by intros [= <- <-]; split; [apply moves_same|]|].
  destruct (ask h None _) as [h1 [[q|e]|e]] eqn:Ea; apply ask_ledger in Ea.
  - destruct q as [| | | | |returned page| | | | | |];
      try (intros [= <- <-]; split; [apply moves_retired|done]).
    destruct (returned =?= id) eqn:Er; cbn [negb]; intros [= <- <-]; split; try done;
      [by apply eqb_true_1 in Er|apply moves_retired].
  - intros [= <- <-]. split; [|done]. eapply moves_ext; [exact Ea|]. intros l. by apply exchanged_plain.
  - intros [= <- <-]. by split.
Qed.

Lemma fence_ledger h id h' r :
  fence_retired_subscription h id = (h', r) -> moves h h' Datatypes.id.
Proof.
  unfold fence_retired_subscription. destruct (hc_connection h) as [[k log]|] eqn:Eh.
  - cbn. destruct (@connection_retire _ _ CC k id) as [k' res]. intros [= <- <-].
    destruct (is_ok res); [|by left]. right. eexists. split; [by apply ledger_of|reflexivity].
  - intros [= <- <-]. left. by apply ledger_none.
Qed.

Lemma moves_trans h1 h2 h3 f : moves h1 h2 f -> moves h2 h3 Datatypes.id -> moves h1 h3 f.
Proof.
  intros [Hn|(l & Hl & Hl')] [Hn'|(l' & Hk & Hk')]; [by left..|congruence|by left|].
  right. exists l. split; [done|]. cbn in Hk'. congruence.
Qed.

Lemma fenced_ledger h h1 id answer h' r f :
  moves h h1 f -> fenced_answer h1 id answer = (h', r) ->
  moves h h' (match r with Ok _ => f | Err _ => Datatypes.id end)
  /\ (r = Ok answer \/ exists e, r = Err e).
Proof.
  intros Hm. unfold fenced_answer. destruct (fence_retired_subscription h1 id) as [h2 [u|e]] eqn:Ef.
  - apply fence_ledger in Ef. intros [= <- <-]. split; [by eapply moves_trans|by left].
  - unfold fence_retired_subscription in Ef. intros [= <- <-]. split; [|by right; exists e].
    destruct (hc_connection h1) as [[k log]|] eqn:Eh; cbn in Ef.
    + destruct (@connection_retire _ _ CC k id) as [k' [|e']]; [done|]. injection Ef as <- _. by left.
    + injection Ef as <- _. left. by apply ledger_none.
Qed.

Lemma release_replay_ledger h id h' r :
  release_event_replay h id = (h', r) ->
  moves h h' (if confirmed r then closes_replay id else Datatypes.id).
Proof.
  unfold release_event_replay. destruct (negb (granted _ _)).
  - destruct (hc_connection h) eqn:Eh; [|intros [= <- <-]; apply moves_same].
    destruct (fence_retired_subscription h id) as [h1 [u|e]] eqn:Ef; apply fence_ledger in Ef;
      by intros [= <- <-].
  - destruct (live_connection h) as [k|e] eqn:El; [|intros [= <- <-]; apply moves_same].
    destruct (query_live h k None _) as [h1 [reply|e]] eqn:Eq;
      [|intros [= <- <-]; apply moves_retired].
    pose proof (query_live_ledger _ _ _ _ _ _ El Eq) as Hm. cbn beta iota in Hm.
    destruct (qr_outcome reply) as [q|e].
    + destruct q as [| | | | | |released| | | | |];
        try (intros [= <- <-]; apply moves_retired).
      destruct (released =?= id) eqn:Er; [|intros [= <- <-]; apply moves_retired].
      intros Hf. destruct (fenced_ledger _ _ _ _ _ _ _ Hm Hf) as [Hm' [->|[e ->]]]; [|done].
      eapply moves_ext; [exact Hm'|]. intros l. unfold exchanged. cbn. by rewrite Er.
    + intros Hf. destruct (fenced_ledger _ _ _ _ _ _ _ Hm Hf) as [Hm' [->|[e' ->]]]; [|done].
      eapply moves_ext; [exact Hm'|]. intros [l1 l2]. by destruct e.
Qed.

(** ** Programs and the ledger *)

Context `{Sha256} `{UrlParser} `{SpecialistJson} `{UnicodeText}.
Implicit Types (w : world).
Notation run p Q w := (wp (fun _ => True) p Q w).

Lemma accounted_moves w w' f :
  accounted w -> moves (w_client w) (w_client w') f ->
  (forall l, owns (w_sub w) l -> owns (w_sub w') (f l)) -> accounted w'.
Proof.
  unfold accounted. intros Hw [->|(l & Hl & ->)] Ho; [done|]. rewrite Hl in Hw. by apply Ho.
Qed.

Lemma accounted_alike w w' :
  accounted w -> w_client w' = w_client w ->
  cs_snapshot_id (w_sub w') = cs_snapshot_id (w_sub w) ->
  cs_subscription_id (w_sub w') = cs_subscription_id (w_sub w) -> accounted w'.
Proof. unfold accounted, owns. by intros Hw -> -> ->. Qed.

Lemma owns_closed_snapshot s id l :
  cs_snapshot_id s = Some id -> owns s l ->
  owns (cs_with_handles s (cs_subscription_id s) None) (closes_snapshot id l).
Proof.
  intros Hs [Ho Hr]. split; cbn; [|done]. intros i [Hi Hne]%elem_of_difference.
  apply Ho in Hi. set_solver.
Qed.

Lemma owns_closed_replay s id l :
  cs_subscription_id s = Some id -> owns s l ->
  owns (cs_with_handles s None (cs_snapshot_id s)) (closes_replay id l).
Proof.
  intros Hs [Ho Hr]. split; cbn; [done|]. intros i [Hi Hne]%elem_of_difference.
  apply Hr in Hi. set_solver.
Qed.

Lemma run_release_snapshot w :
  accounted w ->
  run release_snapshot_if_owned (fun r w' =>
    accounted w' /\ snapshot_released (w_sub w) r (w_sub w')) w.
Proof.
  intros Hw. unfold release_snapshot_if_owned, snapshot_released. rewrite wp_bind, wp_sub.
  destruct (cs_snapshot_id (w_sub w)) as [id|] eqn:Es.
  - rewrite wp_bind, wp_released. unfold set_snapshot_id.
    destruct (release_snapshot (w_client w) id) as [h' r] eqn:Er. cbn [fst snd].
    pose proof (release_snapshot_ledger _ _ _ _ _ Er) as Hm.
    destruct r as [[u|e]|e]; cbn in Hm.
    + rewrite wp_modify. split; [|done]. eapply accounted_moves; [exact Hw|exact Hm|].
      intros l. by apply owns_closed_snapshot.
    + destruct e; try (split; [by eapply accounted_moves|done]).
      rewrite wp_modify. split; [|done]. eapply accounted_moves; [exact Hw|exact Hm|].
      intros l. by apply owns_closed_snapshot.
    + split; [by eapply accounted_moves|done].
  - rewrite wp_ret. split; [done|]. destruct (w_sub w). cbn in Es. by subst.
Qed.

Lemma run_release_replay w :
  accounted w ->
  run release_event_replay_if_owned (fun r w' =>
    accounted w' /\ replay_released (w_sub w) r (w_sub w')) w.
Proof.
  intros Hw. unfold release_event_replay_if_owned, replay_released. rewrite wp_bind, wp_sub.
  destruct (cs_subscription_id (w_sub w)) as [id|] eqn:Es.
  - rewrite wp_bind, wp_released. unfold set_subscription_id.
    destruct (release_event_replay (w_client w) id) as [h' r] eqn:Er. cbn [fst snd].
    pose proof (release_replay_ledger _ _ _ _ Er) as Hm.
    destruct r as [[u|e]|e]; cbn in Hm.
    + rewrite wp_modify. split; [|done]. eapply accounted_moves; [exact Hw|exact Hm|].
      intros l. by apply owns_closed_replay.
    + destruct e; try (split; [by eapply accounted_moves|done]).
      rewrite wp_modify. split; [|done]. eapply accounted_moves; [exact Hw|exact Hm|].
      intros l. by apply owns_closed_replay.
    + split; [by eapply accounted_moves|done].
  - rewrite wp_ret. split; [done|]. destruct (w_sub w). cbn in Es. by subst.
Qed.

Lemma run_cleanup w : accounted w -> run best_effort_cleanup (fun _ w' => accounted w') w.
Proof.
  intros Hw. unfold best_effort_cleanup. rewrite wp_bind, wp_error_of.
  eapply wp_mono; [|by apply run_release_replay]. cbn beta. intros r w1 [Hw1 _].
  rewrite wp_bind, wp_error_of. eapply wp_mono; [|by apply run_release_snapshot].
  cbn beta. by intros r' w2 [Hw2 _].
Qed.

Lemma run_give_in w : accounted w -> run give_in (fun _ w' => accounted w') w.
Proof.
  intros Hw. unfold give_in, set_state. rewrite wp_bind, wp_modify, wp_bind.
  eapply wp_mono; [|apply run_cleanup; by eapply accounted_alike]. by intros [r|e] w' Hw'.
Qed.

(** The reading goes on with the snapshot the subscription owns. *)
Definition aligned (r : Reading) w : Prop := rd_snapshot_id r = cs_snapshot_id (w_sub w).

Lemma owns_opened_snapshot s id l :
  is_none_or (cs_snapshot_id s) (fun expected => id =? expected) = true -> owns s l ->
  owns (cs_with_handles s (cs_subscription_id s) (Some id)) (opens_snapshot id l).
Proof.
  intros Hn [Ho Hr]. split; cbn; [|done]. intros i [->%elem_of_singleton|Hi]%elem_of_union; [done|].
  apply Ho in Hi. rewrite Hi in Hn. cbn in Hn. apply N.eqb_eq in Hn. by subst.
Qed.

Lemma run_read_page wrap section r cursor w :
  accounted w -> aligned r w ->
  run (read_page wrap section r (rd_snapshot_id r) cursor) (fun res w' =>
    accounted w' /\ cs_subscription_id (w_sub w') = cs_subscription_id (w_sub w)
    /\ match res with Ok taken => aligned taken.1 w' | Err _ => True end) w.
Proof.
  intros Hw Ha. unfold read_page. rewrite wp_bind, wp_answer. unfold snapshot_page.
  destruct (snapshot_page_scoped _ _ _ _ _) as [h' res] eqn:Ep. cbn [fst snd].
  apply snapshot_page_ledger in Ep as [Hm Hid].
  destruct res as [[page|e]|e]; [|by split_and!; [eapply accounted_moves|..]..].
  rewrite wp_bind. eapply wp_mono; [|apply wp_take_page]. cbn [w_sub w_client].
  intros res w' (Hs & Hc & Ht).
  assert (accounted w') as Hw'.
  { eapply (accounted_moves w); [done|rewrite Hc; exact Hm|]. intros l. rewrite Hs.
    apply owns_opened_snapshot. by rewrite <- Ha. }
  destruct res as [r'|e]; [rewrite wp_ret|]; rewrite Hs; split_and!; try done.
  destruct Ht as (_ & Ht & _). unfold aligned. cbn [fst]. by rewrite Ht, Hs.
Qed.

(** What a loop over pages keeps. *)
Definition reading_on (w : world) {A} (reading : A -> Reading) (res : result A SubscriptionError) w' : Prop :=
  accounted w' /\ cs_subscription_id (w_sub w') = cs_subscription_id (w_sub w)
  /\ match res with Ok a => aligned (reading a) w' | Err _ => True end.

Lemma run_read_section fuel section : forall r started cursor w,
  accounted w -> aligned r w ->
  run (read_section fuel section r started cursor) (reading_on w id) w.
Proof.
  induction fuel as [|fuel IH]; intros r started cursor w Hw Ha; [done|]. cbn [read_section].
  unfold requested_id. rewrite wp_bind, wp_bind, wp_when. destruct (_ && _); [done|].
  rewrite wp_ret, wp_bind. eapply wp_mono; [|by apply run_read_page].
  cbn beta. intros [[r' next]|e] w1 (Hw1 & Hs1 & Ha1); [|done]. cbn [fst snd] in *.
  destruct next as [next|]; [|by apply wp_ret].
  eapply wp_mono; [|by apply IH]. intros res w2 (Hw2 & Hs2 & Ha2). split_and!; [done|congruence|done].
Qed.

Lemma run_read_sections fuel sections : forall r w,
  accounted w -> aligned r w -> run (read_sections fuel sections r) (reading_on w id) w.
Proof.
  induction sections as [|section sections IH]; intros r w Hw Ha; cbn [read_sections].
  - by apply wp_ret.
  - rewrite wp_bind. eapply wp_mono; [|by apply run_read_section].
    intros [r'|e] w1 (Hw1 & Hs1 & Ha1); [|done].
    eapply wp_mono; [|by apply IH]. intros res w2 (Hw2 & Hs2 & Ha2). split_and!; [done|congruence|done].
Qed.

Lemma run_preview_pages fuel : forall r started cursor w,
  accounted w -> aligned r w ->
  run (preview_pages fuel r started cursor) (fun _ w' => accounted w') w.
Proof.
  induction fuel as [|fuel IH]; intros r started cursor w Hw Ha; [done|]. cbn [preview_pages].
  unfold requested_id. rewrite wp_bind, wp_bind, wp_when. destruct (_ && _); [done|].
  rewrite wp_ret, wp_bind, wp_on_error. eapply wp_mono; [|by apply run_read_page].
  cbn beta. intros [[r' next]|e] w1 (Hw1 & Hs1 & Ha1); [|by apply run_give_in]. cbn [fst snd] in *.
  destruct next as [next|]; [by apply IH|].
  rewrite wp_bind, wp_on_error, wp_lift. destruct (map_err _ _); [done|by apply run_give_in].
Qed.

Lemma run_queue events w : accounted w ->
  run (queue_replay_events events) (fun r w' =>
    accounted w' /\ cs_subscription_id (w_sub w') = cs_subscription_id (w_sub w)) w.
Proof.
  intros Hw. eapply wp_mono; [|apply wp_queue]. cbn beta. intros r w' ([Hs Hn _] & Hc & _).
  split; [by eapply accounted_alike|done].
Qed.

Lemma owns_opened_replay s id l :
  is_none_or (cs_subscription_id s) (fun expected => id =?= expected) = true -> owns s l ->
  owns (cs_with_handles s (Some id) (cs_snapshot_id s)) (opens_replay id l).
Proof.
  intros Hn [Ho Hr]. split; cbn; [done|]. intros i [->%elem_of_singleton|Hi]%elem_of_union; [done|].
  apply Hr in Hi. rewrite Hi in Hn. cbn in Hn. apply eqb_true_1 in Hn. by subst.
Qed.

Lemma run_replay_pages fuel : forall m batch w,
  accounted w -> cs_subscription_id (w_sub w) = Some (rb_subscription_id batch) ->
  run (replay_pages fuel m batch) (fun _ w' => accounted w') w.
Proof.
  induction fuel as [|fuel IH]; intros m batch w Hw Hs; [done|]. cbn [replay_pages].
  rewrite wp_bind. eapply wp_mono; [|by apply run_queue]. cbn beta.
  intros [u|e] w1 [Hw1 Hs1]; [|done].
  destruct (apply_replay_page m (rb_page batch)) as [m1 applied].
  rewrite wp_bind, wp_lift. destruct (map_err _ _); [|done].
  destruct (ep_next_cursor (rb_page batch)) as [cursor|]; [|by apply wp_ret].
  rewrite wp_bind, wp_answer.
  destruct (continue_event_replay _ _ _) as [h' res] eqn:Ec. cbn [fst snd].
  apply continue_replay_ledger in Ec as [Hm Hid].
  destruct res as [[batch'|e]|e]; [|by eapply accounted_moves..].
  rewrite wp_bind, wp_sub, wp_bind, wp_when. cbn [w_sub].
  assert (accounted {| w_sub := w_sub w1; w_client := h' |}) as Hw2.
  { eapply (accounted_moves w1); [done|exact Hm|]. intros l Hl. cbn.
    replace (w_sub w1) with (cs_with_handles (w_sub w1) (Some (rb_subscription_id batch'))
      (cs_snapshot_id (w_sub w1))) at 1.
    - apply owns_opened_replay; [|done]. rewrite Hs1, Hs, Hid. cbn. apply eqb_refl.
    - rewrite Hid, <- Hs, <- Hs1. by destruct (w_sub w1). }
  destruct (negb _); [done|]. apply IH; [done|]. cbn. congruence.
Qed.

Lemma run_or_needs_resync p w Q :
  run p (fun r w' => accounted w' /\ Q r (w_sub w')) w ->
  run (or_needs_resync p) (fun r w' => accounted w' /\ (is_ok r = true -> Q r (w_sub w'))) w.
Proof.
  intros Hp. unfold or_needs_resync. rewrite wp_on_error. eapply wp_mono; [|exact Hp].
  cbn beta. intros [u|e] w' [Hw' Hq]; [done|]. unfold set_state. rewrite wp_modify.
  split; [by eapply accounted_alike|done].
Qed.

Lemma run_synchronize_inner fuel w :
  accounted w -> cs_snapshot_id (w_sub w) = None -> cs_subscription_id (w_sub w) = None ->
  run (synchronize_inner fuel) (fun _ w' => accounted w') w.
Proof.
  intros Hw Hsn Hsu. unfold synchronize_inner. rewrite wp_bind, wp_client, wp_bind.
  eapply wp_mono; [|apply run_read_sections; [done|by unfold aligned]].
  intros [r|e] w1 (Hw1 & Hs1 & _); [|done]. rewrite Hsu in Hs1.
  rewrite wp_bind, wp_lift. destruct (map_err _ _); [|done].
  rewrite wp_bind, wp_lift. destruct (ok_or _ _) as [through|]; [|done].
  rewrite wp_bind, wp_when. destruct (negb _); [done|]. rewrite wp_bind, wp_answer.
  destruct (open_event_replay _ _) as [h' res] eqn:Eo. cbn [fst snd].
  apply open_replay_ledger in Eo. destruct res as [[batch|e]|e]; [|by eapply accounted_moves..].
  unfold set_subscription_id. rewrite wp_bind, wp_modify, wp_bind. cbn [w_sub w_client].
  assert (accounted {| w_sub := cs_with_handles (w_sub w1) (Some (rb_subscription_id batch))
                         (cs_snapshot_id (w_sub w1)); w_client := h' |}) as Hw2.
  { eapply (accounted_moves w1); [done|exact Eo|]. intros l. apply owns_opened_replay. by rewrite Hs1. }
  eapply wp_mono; [|by apply run_release_snapshot]. cbn [w_sub].
  intros [u|e] w3 [Hw3 Hs3]; [|done]. unfold snapshot_released in Hs3. cbn in Hs3.
  rewrite wp_bind. eapply wp_mono; [|apply run_replay_pages; [done|by rewrite Hs3]].
  cbn beta. intros [m|e'] w4 Hw4; [|done]. rewrite wp_modify. by eapply accounted_alike.
Qed.

Lemma run_synchronize fuel w : accounted w -> run (synchronize fuel) (fun _ w' => accounted w') w.
Proof.
  intros Hw. unfold synchronize. rewrite wp_bind, wp_sub, wp_bind, wp_when.
  destruct (_ =?= CsReady); [done|]. rewrite wp_bind, wp_when.
  destruct (_ =?= CsReleased); [done|]. rewrite wp_bind, wp_client, wp_bind, wp_when.
  destruct (_ || _); [done|]. unfold set_state. rewrite wp_bind, wp_modify, wp_bind.
  assert (accounted {| w_sub := cs_with_state (w_sub w) CsPending; w_client := w_client w |}) as Hw0
    by (by eapply accounted_alike).
  eapply wp_mono; [|apply (run_or_needs_resync _ _ _ (run_release_replay _ Hw0))].
  cbn beta. intros [u|e] w1 [Hw1 Hr1]; [|done].
  specialize (Hr1 eq_refl). unfold replay_released in Hr1. cbn in Hr1.
  rewrite wp_bind.
  eapply wp_mono; [|apply (run_or_needs_resync _ _ _ (run_release_snapshot _ Hw1))].
  cbn beta. intros [v|e] w2 [Hw2 Hr2]; [|done].
  specialize (Hr2 eq_refl). unfold snapshot_released in Hr2. cbn in Hr2.
  rewrite wp_bind, wp_modify, wp_on_error.
  eapply wp_mono; [|apply run_synchronize_inner; cbn; [by eapply accounted_alike|by rewrite Hr2|by rewrite Hr2, Hr1]].
  cbn beta. intros [x|e] w3 Hw3; [done|]. rewrite wp_bind, wp_modify, wp_bind, wp_modify, wp_bind.
  eapply wp_mono; [|apply run_cleanup; by eapply accounted_alike]. cbn beta.
  by intros [r|r] w4 Hw4.
Qed.

Lemma run_preview fuel w : accounted w -> run (preview_tasks fuel) (fun _ w' => accounted w') w.
Proof.
  intros Hw. unfold preview_tasks. rewrite wp_bind, wp_sub, wp_bind, wp_when.
  destruct (_ =?= CsReady); [done|]. rewrite wp_bind, wp_when.
  destruct (_ =?= CsReleased); [done|]. rewrite wp_bind, wp_client, wp_bind, wp_when.
  destruct (negb _); [done|]. rewrite wp_bind.
  eapply wp_mono; [|apply (run_or_needs_resync _ _ _ (run_release_snapshot _ Hw))].
  cbn beta. intros [v|e] w1 [Hw1 Hr1]; [|done]. rewrite wp_bind.
  specialize (Hr1 eq_refl). unfold snapshot_released in Hr1. cbn in Hr1.
  eapply wp_mono; [|apply run_preview_pages; [done|unfold aligned; by rewrite Hr1]].
  cbn beta. intros [[r preview]|e] w2 Hw2; [|done]. rewrite wp_bind.
  eapply wp_mono; [|apply (run_or_needs_resync _ _ _ (run_release_snapshot _ Hw2))].
  cbn beta. intros [u|e] w3 [Hw3 _]; [|done].
  rewrite wp_bind, wp_modify, wp_bind, wp_modify, wp_bind, wp_lift. cbn [w_sub w_client].
  assert (forall s, cs_snapshot_id s = cs_snapshot_id (w_sub w3) ->
    cs_subscription_id s = cs_subscription_id (w_sub w3) ->
    accounted {| w_sub := s; w_client := w_client w3 |}) as Hx by (intros; by eapply accounted_alike).
  assert (accounted {| w_sub := if cs_state (cs_with_model (w_sub w3) None) =?= CsReady
                                then cs_with_state (cs_with_model (w_sub w3) None) CsPending
                                else cs_with_model (w_sub w3) None; w_client := w_client w3 |}) as Hw4.
  { apply Hx; by destruct (_ =?= _). }
  destruct (ok_or _ _); [|done]. rewrite wp_bind, wp_when. by destruct (negb _).
Qed.

Lemma run_release w : accounted w ->
  run release (fun r w' => accounted w'
    /\ (is_ok r = true -> cs_snapshot_id (w_sub w') = None /\ cs_subscription_id (w_sub w') = None)) w.
Proof.
  intros Hw.
  assert (run release (fun _ w' => accounted w') w) as Ha.
  { unfold release. rewrite wp_bind, wp_sub. destruct (_ && _); [done|]. rewrite wp_bind.
    eapply wp_mono; [|apply (run_or_needs_resync _ _ _ (run_release_replay _ Hw))].
    cbn beta. intros [u|e] w1 [Hw1 _]; [|done]. rewrite wp_bind.
    eapply wp_mono; [|apply (run_or_needs_resync _ _ _ (run_release_snapshot _ Hw1))].
    cbn beta. intros [v|e] w2 [Hw2 _]; [|done]. unfold set_state. rewrite wp_modify.
    by eapply accounted_alike. }
  pose proof (wp_release_call w) as Hb. unfold wp in *. destruct (release w) as [w' [r|]]; [|done].
  split; [done|]. destruct r; [|done]. by destruct Hb as (_ & ? & ? & _).
Qed.

(** A new connection: nothing is open on it. *)
Definition fresh (c : connection) : Prop := c.2 = [].

Lemma fresh_accounted w (c : connection) : fresh c ->
  accounted {| w_sub := w_sub w; w_client := with_connection (w_client w) (Some c) |}.
Proof.
  intros Hc. unfold accounted. cbn. unfold fresh in Hc. rewrite Hc. split; cbn; set_solver.
Qed.

Lemma recv_ledger h : ledger (recv_unsolicited h).1 = ledger h.
Proof.
  unfold recv_unsolicited, live_connection. destruct (hc_connection h) as [[k log]|] eqn:Eh; [|done].
  cbn. destruct (@is_live _ _ CC k); [|done].
  cbn. destruct (@connection_recv _ _ CC k) as [k' res]. rewrite (ledger_of h _ Eh). reflexivity.
Qed.

Lemma handle_handles s message :
  cs_snapshot_id (handle_unsolicited_message s message).1 = cs_snapshot_id s
  /\ cs_subscription_id (handle_unsolicited_message s message).1 = cs_subscription_id s.
Proof.
  unfold handle_unsolicited_message. destruct (state_error _); [done|].
  destruct (cs_subscription_id s) as [id|] eqn:Es; [|done]. destruct message as [observed ev|observed x y|f|c t h].
  - unfold handle_durable_event, needs_resync. destruct (negb _); [done|].
    case_bool_decide; [done|]. destruct (cs_model s); [|done].
    destruct (_ <=? _); [done|].
    destruct (remember_event_id_frame s (de_id ev)) as ([E1 E2 _] & _ & _).
    destruct (apply_event _ _); cbn; by rewrite E1, E2, Es.
  - unfold handle_resync_required, needs_resync. destruct (negb _); [done|].
    destruct (cs_model s); [|done]. destruct (_ || _); done.
  - done.
  - done.
Qed.

Lemma observe_handles s :
  cs_snapshot_id (observe_recv_transport_failure s) = cs_snapshot_id s
  /\ cs_subscription_id (observe_recv_transport_failure s) = cs_subscription_id s.
Proof. unfold observe_recv_transport_failure. by destruct (_ =?= _). Qed.

Lemma run_recv w : accounted w -> run recv_and_apply (fun _ w' => accounted w') w.
Proof.
  intros Hw. unfold recv_and_apply. rewrite wp_bind, wp_sub, wp_bind.
  destruct (state_error _); [done|]. rewrite wp_ret, wp_bind, wp_request.
  pose proof (recv_ledger (w_client w)) as Hl. destruct (recv_unsolicited _) as [h' [message|e]]; cbn [fst snd] in *.
  - rewrite wp_method. unfold accounted in *. cbn in *. rewrite Hl.
    destruct (handle_handles (w_sub w) message) as [E1 E2]. unfold owns. by rewrite E1, E2.
  - rewrite wp_bind, wp_modify. cbn. unfold accounted in *. cbn in *. rewrite Hl.
    destruct (observe_handles (w_sub w)) as [E1 E2]. unfold owns. by rewrite E1, E2.
Qed.

Lemma call_accounted w w' : call fresh w w' -> accounted w -> accounted w'.
Proof.
  intros Hc Hw. destruct Hc; cbn [w_sub].
  - pose proof (run_preview fuel w Hw) as Hp. unfold wp in Hp. by rewrite H3 in Hp.
  - pose proof (run_synchronize fuel w Hw) as Hp. unfold wp in Hp. by rewrite H3 in Hp.
  - pose proof (run_recv w Hw) as Hp. unfold wp in Hp. by rewrite H3 in Hp.
  - destruct (handle_handles (w_sub w) message). by eapply accounted_alike.
  - by eapply accounted_alike.
  - destruct (observe_handles (w_sub w)). by eapply accounted_alike.
  - pose proof (run_release w Hw) as Hp. unfold wp in Hp. rewrite H3 in Hp. apply Hp.
  - unfold accounted. cbn [w_client]. by rewrite ledger_none.
  - done.
  - by apply fresh_accounted.
Qed.

(** C9: No handle of the host is lost: whatever sequence of previews, synchronisations, messages,
    releases, lost and new connections a caller goes through, and however the host answers, every
    snapshot and every event replay the host has opened on the connection the client holds and has
    not been released is the one snapshot and the one replay the subscription still owns, so at
    most one of each is open; after a release that succeeds none is. The connection is one that
    writes down its exchanges. *)
Theorem no_handle_lost client w :
  ledger client = None \/ ledger client = Some (∅, ∅) ->
  rtc (call fresh) {| w_sub := subscription_new; w_client := client |} w ->
  accounted w
  /\ (forall w' u, release w = (w', Some (Ok u)) -> ledger (w_client w') = None
                                               \/ ledger (w_client w') = Some (∅, ∅)).
Proof.
  intros Hc Hr. assert (accounted w) as Hw.
  { remember {| w_sub := subscription_new; w_client := client |} as w0 eqn:E.
    assert (accounted w0) as H0'.
    { subst w0. unfold accounted. cbn. destruct Hc as [->| ->]; [done|]. split; cbn; set_solver. }
    clear E Hc. induction Hr; [done|]. eauto using call_accounted. }
  split; [done|]. intros w' u Hx. pose proof (run_release w Hw) as Hp. unfold wp in Hp.
  rewrite Hx in Hp. destruct Hp as [Ha Hn]. destruct (Hn eq_refl) as [Hsn Hsu].
  unfold accounted in Ha. destruct (ledger (w_client w')) as [[S R]|]; [right|by left].
  destruct Ha as [Hs Hr']. rewrite Hsn in Hs. rewrite Hsu in Hr'. cbn in *. f_equal. f_equal.
  - apply set_eq. intros i. split; [by intros ?%Hs|set_solver].
  - apply set_eq. intros i. split; [by intros ?%Hr'|set_solver].
Qed.
End Ledger.

(** ** A session, written down *)

#[local] Existing Instance toy_sha.
#[local] Existing Instance toy_urls.
#[local] Existing Instance toy_wire.
#[local] Existing Instance toy_json.
#[local] Existing Instance toy_host.
#[local] Existing Instance toy_unicode.
#[local] Existing Instance toy_payloads.
#[local] Instance logged_script : ClientConnection := logged scripted.

Definition session_start : world := world_of (CC := logged_script)
  (sync_script ++ [Ok (QrEventReplayReleased [9])], []).

Definition session_synced : world := (synchronize SYNC_TURNS session_start).1.

Lemma no_handle_lost_witness :
  ledger scripted (w_client session_synced) = Some (∅, {[ [9] ]})
  /\ accounted scripted session_synced
  /\ (ledger scripted (w_client (release session_synced).1) = None
      \/ ledger scripted (w_client (release session_synced).1) = Some (∅, ∅)).
Proof.
  split; [by vm_compute|].
  destruct (no_handle_lost scripted (w_client session_start) session_synced
              ltac:(right; by vm_compute)
              ltac:(apply rtc_once; eapply call_synchronize with (fuel := SYNC_TURNS); by vm_compute))
    as [Ha Hr].
  split; [exact Ha|]. exact (Hr _ tt ltac:(by vm_compute)).
Defined.

(** [load_task_detail] keeps its own snapshot: when the host does not release it, the id
    is lost and the snapshot stays open. *)
Definition detail_page (section : SnapshotSection) : QueryOutcome :=
  Ok (QrSnapshotPage
        {| sp_snapshot_id := 88; sp_through_sequence := 42; sp_section := section;
           sp_after_item := None; sp_items := []; sp_encoded_bytes := 9; sp_next_cursor := None |}).

Definition detail_failed_release : world :=
  (load_task_detail 10 5 {| w_sub := w_sub session_synced;
    w_client := client_of (CC := logged_script)
      (map detail_page TASK_DETAIL_SECTIONS ++ [Err (QeUnavailable [])], []) |}).1.

Example detail_strands_its_snapshot :
  ledger scripted (w_client detail_failed_release) = Some ({[88]}, ∅)
  /\ cs_snapshot_id (w_sub detail_failed_release) = None.
Proof. by vm_compute. Qed.
