(* ===== verification/TerminalProtocol.v ===== *)
(** Terminal identities, fences, snapshots, deltas and input contracts
    ([terminal/protocol.rs], with the cursor and mode records of
    [terminal/session.rs]). *)
From S2P Require Import Prelude Canonical Query.

Definition MAX_TERMINAL_COLS : N := 512.
Definition MAX_TERMINAL_ROWS : N := 256.
Definition MAX_SCROLLBACK_ROWS : N := 10000.
Definition MAX_SCROLLBACK_BYTES : N := 1048576.
Definition MAX_RETAINED_DELTAS : N := 64.
Definition MAX_PENDING_OUTPUT_CHUNKS : N := 64.
Definition MAX_PENDING_OUTPUT_BYTES : N := 262144.
Definition MAX_INPUT_BYTES : N := 4194304.
Definition MAX_ACCEPTED_INPUT_HISTORY_BYTES : N := 4194304.
Definition MAX_TRACKED_INPUT_IDS : N := 4096.
Definition MAX_TITLE_BYTES : N := 1024.

Inductive TerminalError :=
| TeNotFound | TeClosed | TeStaleGeneration | TeStaleSession | TeStaleTask | TeStaleFocus
| TeSequenceOverflow | TeGenerationOverflow | TeFocusOverflow | TeBoundExceeded | TeInvalidSize
| TeInvalidFence | TeCanonicalReaderPoisoned | TeRuntimeIo | TeTeardownFenceMissing
| TeTeardownFailed | TeFixtureOnly.

#[export] Instance TerminalError_eq_dec : EqDecision TerminalError.
Proof. solve_decision. Defined.

(** ** Counters: nonzero generations and focus epochs, sequences from zero *)

Notation TerminalGeneration := N (only parsing).
Notation TerminalSequence := N (only parsing).
Notation TerminalFocusEpoch := N (only parsing).
Notation TerminalSessionId := N (only parsing).
Notation InputId := N (only parsing).
Notation TerminalId := N (only parsing).

(** [TerminalGeneration::from_raw] and [FocusEpoch::from_raw] *)
Definition fence_from_raw (raw : N) : result N TerminalError :=
  ensure negb (raw =? 0) else TeInvalidFence ;; Ok raw.

Definition generation_next (g : TerminalGeneration) : result N TerminalError :=
  ok_or (checked_add g 1) TeGenerationOverflow.

Definition sequence_next (s : TerminalSequence) : result N TerminalError :=
  ok_or (checked_add s 1) TeSequenceOverflow.

Definition focus_next (f : TerminalFocusEpoch) : result N TerminalError :=
  ok_or (checked_add f 1) TeFocusOverflow.

Definition saturating_distance (s earlier : TerminalSequence) : N := saturating_sub s earlier.

(** ** Size and specification *)

Record TerminalSize := { tz_cols : N; tz_rows : N }.

#[export] Instance TerminalSize_eq_dec : EqDecision TerminalSize.
Proof. solve_decision. Defined.

Definition terminal_size_new (cols rows : N) : result TerminalSize TerminalError :=
  ensure negb ((cols =? 0) || (rows =? 0) || (MAX_TERMINAL_COLS <? cols) || (MAX_TERMINAL_ROWS <? rows))
    else TeInvalidSize ;;
  Ok {| tz_cols := cols; tz_rows := rows |}.

Record TerminalSpec := {
  sp_session_id : TerminalSessionId;
  sp_size : TerminalSize;
  sp_max_scrollback_rows : N;
  sp_max_scrollback_bytes : N;
  sp_title : option text;
}.

Definition spec_validated (s : TerminalSpec) : result TerminalSpec TerminalError :=
  let? _ := terminal_size_new (tz_cols (sp_size s)) (tz_rows (sp_size s)) in
  ensure negb ((sp_max_scrollback_rows s =? 0) || (MAX_SCROLLBACK_ROWS <? sp_max_scrollback_rows s))
    else TeBoundExceeded ;;
  ensure negb ((sp_max_scrollback_bytes s =? 0) || (MAX_SCROLLBACK_BYTES <? sp_max_scrollback_bytes s))
    else TeBoundExceeded ;;
  ensure negb (is_some_and (sp_title s) (fun title => MAX_TITLE_BYTES <? len title)) else TeBoundExceeded ;;
  Ok s.

Definition terminal_spec_new (session_id : TerminalSessionId) (size : TerminalSize)
    : result TerminalSpec TerminalError :=
  spec_validated {| sp_session_id := session_id; sp_size := size; sp_max_scrollback_rows := 1000;
                    sp_max_scrollback_bytes := 65536; sp_title := None |}.

(** ** Snapshots and deltas *)

Inductive CursorShape := ShapeBlock | ShapeUnderline | ShapeBeam | ShapeHollowBlock | ShapeHidden.

#[export] Instance CursorShape_eq_dec : EqDecision CursorShape.
Proof. solve_decision. Defined.

Record TerminalCursorSnapshot := { cu_row : N; cu_column : N; cu_shape : CursorShape }.

#[export] Instance TerminalCursorSnapshot_eq_dec : EqDecision TerminalCursorSnapshot.
Proof. solve_decision. Defined.

Record TerminalModeSnapshot := {
  md_alternate_screen : bool;
  md_app_cursor : bool;
  md_bracketed_paste : bool;
  md_focus_in_out : bool;
  md_mouse_report_click : bool;
  md_mouse_drag : bool;
  md_mouse_motion : bool;
  md_sgr_mouse : bool;
  md_utf8_mouse : bool;
  md_alternate_scroll : bool;
}.

#[export] Instance TerminalModeSnapshot_eq_dec : EqDecision TerminalModeSnapshot.
Proof. solve_decision. Defined.

Definition mode_default : TerminalModeSnapshot :=
  {| md_alternate_screen := false; md_app_cursor := false; md_bracketed_paste := false;
     md_focus_in_out := false; md_mouse_report_click := false; md_mouse_drag := false;
     md_mouse_motion := false; md_sgr_mouse := false; md_utf8_mouse := false;
     md_alternate_scroll := false |}.

Definition mouse_reporting (m : TerminalModeSnapshot) : bool :=
  md_mouse_report_click m || md_mouse_drag m || md_mouse_motion m.

Record TerminalSnapshot := {
  tsn_terminal_id : TerminalId;
  tsn_generation : TerminalGeneration;
  tsn_sequence : TerminalSequence;
  tsn_size : TerminalSize;
  tsn_cursor : option TerminalCursorSnapshot;
  tsn_modes : TerminalModeSnapshot;
  tsn_title : option text;
  tsn_rows : list text;
  tsn_history_rows : N;
  tsn_truncated : bool;
}.

Inductive TerminalDeltaOp :=
| OpRowsChanged (start_row : N) (rows : list text)
| OpScroll (display_offset : N)
| OpCursor (cursor : option TerminalCursorSnapshot)
| OpMode (modes : TerminalModeSnapshot)
| OpTitle (title : option text)
| OpTruncated (dropped_rows : N)
| OpExit (summary : text).

Record TerminalDelta := {
  td_terminal_id : TerminalId;
  td_generation : TerminalGeneration;
  td_sequence : TerminalSequence;
  td_ops : list TerminalDeltaOp;
}.

Inductive ReplicaApplyResult := Applied | NeedSnapshot.

Inductive CoalesceReason := SequenceGap | GenerationMismatch | SlowClient | ScrollbackTruncated.

Inductive ReplicaUpdate :=
| RuEmpty
| RuDeltas (deltas : list TerminalDelta)
| RuSnapshot (snapshot : TerminalSnapshot)
| RuCoalescedSnapshot (snapshot : TerminalSnapshot) (reason : CoalesceReason).

(** ** Input *)

Record InputEnvelope := {
  ie_client_id : ClientId;
  ie_input_id : InputId;
  ie_task_id : TaskId;
  ie_session_id : TerminalSessionId;
  ie_terminal_id : TerminalId;
  ie_terminal_generation : TerminalGeneration;
  ie_focus_epoch : TerminalFocusEpoch;
  ie_bytes : list N;
}.

Record TerminalInputContext := {
  tc_task_id : TaskId;
  tc_agent_session_id : AgentSessionId;
  tc_resource_id : ResourceId;
  tc_runtime_generation : N;
  tc_resource_generation : N;
  tc_session_id : TerminalSessionId;
  tc_terminal_generation : TerminalGeneration;
  tc_focus_epoch : TerminalFocusEpoch;
  tc_action_epoch : N;
  tc_input_sequence : N;
}.

(** The nil identifier is zero. *)
Definition is_plain_shell_fence (c : TerminalInputContext) : bool :=
  (tc_agent_session_id c =? 0) && (tc_runtime_generation c =? 0) && (tc_action_epoch c =? 0).

Definition input_context_validate (c : TerminalInputContext) : result unit TerminalError :=
  ensure negb ((tc_resource_generation c =? 0) || (tc_input_sequence c =? 0)) else TeInvalidFence ;;
  if is_plain_shell_fence c then Ok tt
  else guard (negb ((tc_runtime_generation c =? 0) || (tc_action_epoch c =? 0))) TeInvalidFence.

Record TerminalInputRequest := {
  ti_client_id : ClientId;
  ti_input_id : InputId;
  ti_terminal_id : TerminalId;
  ti_context : TerminalInputContext;
  ti_bytes : list N;
}.

Definition input_required_capability (r : TerminalInputRequest) : Capability :=
  if is_plain_shell_fence (ti_context r) then TaskCockpit else ProviderInputCapability.

Definition terminal_input_validate (r : TerminalInputRequest) : result unit TerminalError :=
  try? input_context_validate (ti_context r) ;;
  guard (negb (is_empty (ti_bytes r) || (MAX_INPUT_BYTES <? count (ti_bytes r)))) TeBoundExceeded.

Inductive InputRejectReason :=
| IrStaleTask | IrStaleAgent | IrStaleResource | IrStaleRuntimeGeneration | IrStaleSession
| IrStaleGeneration | IrStaleFocus | IrStaleAction | IrStaleInputSequence | IrReadOnly | IrClosed
| IrEmpty | IrBoundExceeded | IrRuntimeForwardFailed.

Inductive InputAck :=
| AckAccepted (sequence : N)
| AckDuplicate (sequence : N)
| AckRejected (reason : InputRejectReason).

Record TerminalInputAck := { tk_input_id : InputId; tk_ack : InputAck }.

Inductive ClientInputGrant := GrantReadWrite | GrantReadOnly.

#[export] Instance ClientInputGrant_eq_dec : EqDecision ClientInputGrant.
Proof. solve_decision. Defined.

Inductive CloseReason := CloseExplicitService | CloseTask | CloseHostQuit.

Record TeardownReport := {
  tr_terminal_id : TerminalId;
  tr_generation : TerminalGeneration;
  tr_closed : bool;
  tr_explicit : bool;
  tr_reason : CloseReason;
}.

Record ResizeFence := {
  rz_generation : TerminalGeneration;
  rz_client_id : ClientId;
  rz_view_sequence : N;
}.

(** The exact attached runtime. *)
Record AttachmentFence := { af_resource_id : ResourceId; af_generation : TerminalGeneration }.

#[export] Instance AttachmentFence_eq_dec : EqDecision AttachmentFence.
Proof. solve_decision. Defined.
