(* ===== verification/Terminal.v ===== *)
(** A terminal as the host holds it ([terminal/service.rs], [HostedTerminal]): the
    attached runtime behind its fence, notifications of output and exit, the deltas
    retained for replicas, and the inputs accepted.

    The runtime is the trait [AttachedTerminalRuntime]: its implementation drives an
    operating-system terminal, whose reader thread writes to the screen at any time, so
    each call answers the runtime it leaves.  What the reader reports waits in two
    queues behind locks of their own; the methods empty them where they drain, so it is
    enough to let reports arrive between two methods. *)
From S2P Require Import Prelude Canonical Query TerminalProtocol.

(** ** Screens and views ([terminal/session.rs], [state/runtime_state.rs]) *)

Record TerminalCellSnapshot := {
  ce_character : N;
  ce_zero_width : list N;
  ce_foreground : N;
  ce_background : N;
  ce_bold : bool; ce_dim : bool; ce_italic : bool; ce_underline : bool;
  ce_undercurl : bool; ce_strike : bool; ce_hidden : bool; ce_has_hyperlink : bool;
  ce_default_background : bool; ce_default_foreground : bool;
}.

Record TerminalIndexedCellSnapshot := { ic_row : N; ic_column : N; ic_cell : TerminalCellSnapshot }.

Record TerminalScreenSnapshot := {
  ss_cells : list TerminalIndexedCellSnapshot;
  ss_lines : list (list TerminalCellSnapshot);
  ss_cursor : option TerminalCursorSnapshot;
  ss_display_offset : N;
  ss_history_size : N;
  ss_total_lines : N;
  ss_rows : N;
  ss_cols : N;
  ss_mode : TerminalModeSnapshot;
  ss_margin_above : list text;
  ss_margin_below : list text;
}.

Record SessionDimensions := { dm_cols : N; dm_rows : N; dm_cell_width : N; dm_cell_height : N }.

(** The fallback cell: eight wide, and the line of a thirteen-point font. *)
Definition session_dimensions (size : TerminalSize) : SessionDimensions :=
  {| dm_cols := tz_cols size; dm_rows := tz_rows size; dm_cell_width := 8; dm_cell_height := 18 |}.

Inductive TerminalLifecycleEvent :=
| ReaderEof
| ReaderFailed (summary : text)
| ChildExited (summary : text) (code : option N).

(** What the service calls: the attached runtime, and the emulator behind the fixture
    terminals of the tests.  [runtime_rest] are the fields of [SessionRuntimeState] this
    component only carries. *)
Record RuntimeState (runtime_rest : Type) := {
  sr_title : option text;
  sr_dimensions : SessionDimensions;
  sr_provider_session_id : option text;
  sr_rest : runtime_rest;
}.
Arguments sr_title {_}. Arguments sr_dimensions {_}. Arguments sr_provider_session_id {_}.
Arguments sr_rest {_}.

Record SessionView (runtime_rest : Type) := {
  sv_runtime : RuntimeState runtime_rest;
  sv_screen : TerminalScreenSnapshot;
}.
Arguments sv_runtime {_}. Arguments sv_screen {_}.

Class AttachedTerminalRuntime := {
  runtime : Type;
  runtime_rest : Type;
  rt_write_bytes : runtime -> list N -> AttachmentFence -> runtime * result unit TerminalError;
  rt_resize : runtime -> TerminalSize -> AttachmentFence -> runtime * result unit TerminalError;
  rt_close_exact : runtime -> CloseReason -> AttachmentFence -> runtime * result unit TerminalError;
  rt_screen_snapshot : runtime -> runtime * TerminalScreenSnapshot;
  rt_session_view : runtime -> runtime * result (SessionView runtime_rest) TerminalError;
  rt_scroll_lines : runtime -> Z -> runtime * result unit TerminalError;
  rt_bound_history : runtime -> N -> runtime;
  rt_install_output_sink : runtime -> runtime * result unit TerminalError;
  rt_install_lifecycle_sink : runtime -> runtime * result unit TerminalError;
  rt_current_attachment_fence : runtime -> runtime * result AttachmentFence TerminalError;
}.

Class FixtureEmulator `{AttachedTerminalRuntime} := {
  grid : Type;
  grid_bootstrap : N -> SessionDimensions -> option text -> option text -> grid;
  grid_bound_history : grid -> N -> grid;
  grid_snapshot : grid -> TerminalScreenSnapshot;
  grid_view : grid -> option (SessionView runtime_rest);
  grid_scrollback_text : grid -> text;
  grid_apply_output_bytes : grid -> list N -> grid;
  grid_apply_local_resize : grid -> SessionDimensions -> grid;
  grid_apply_runtime : grid -> RuntimeState runtime_rest -> grid;
}.

(** ** Notifications of output *)

Record PendingOutputQueue := { pq_chunks : list N; pq_bytes : N; pq_coalesced : bool }.

Definition pending_default : PendingOutputQueue :=
  {| pq_chunks := []; pq_bytes := 0; pq_coalesced := false |}.

Definition pending_push (q : PendingOutputQueue) (chunk_len : N) : PendingOutputQueue :=
  let next_bytes := saturating_add (pq_bytes q) chunk_len in
  if pq_coalesced q then
    {| pq_chunks := pq_chunks q; pq_bytes := next_bytes; pq_coalesced := true |}
  else if (MAX_PENDING_OUTPUT_CHUNKS <? saturating_add (count (pq_chunks q)) 1)
          || (MAX_PENDING_OUTPUT_BYTES <? next_bytes)
  then {| pq_chunks := []; pq_bytes := next_bytes; pq_coalesced := true |}
  else {| pq_chunks := pq_chunks q ++ [chunk_len]; pq_bytes := next_bytes; pq_coalesced := false |}.

Inductive PendingOutputDrain :=
| DrainEmpty
| DrainNotifications (notifications bytes : N)
| DrainCoalesced (bytes : N).

Definition pending_take (q : PendingOutputQueue) : PendingOutputQueue * PendingOutputDrain :=
  if pq_coalesced q then (pending_default, DrainCoalesced (pq_bytes q))
  else ({| pq_chunks := []; pq_bytes := 0; pq_coalesced := pq_coalesced q |},
        if count (pq_chunks q) =? 0 then DrainEmpty
        else DrainNotifications (count (pq_chunks q)) (pq_bytes q)).

(** ** The hosted terminal *)

Record ClientReplicaCursor := { rc_generation : TerminalGeneration; rc_sequence : TerminalSequence }.

Record ClientViewState := {
  cv_grant : ClientInputGrant;
  cv_cursor : option ClientReplicaCursor;
  cv_resize_sequence : option N;
}.

Section Hosted.
Context `{RT : AttachedTerminalRuntime} `{FE : !FixtureEmulator}.

Inductive ProjectionSource :=
| Fixture (replica : grid)
| Attached (attached : runtime).

Record HostedTerminal := {
  ht_task_id : TaskId;
  ht_agent_session_id : option AgentSessionId;
  ht_runtime_generation : option N;
  ht_action_epoch : option N;
  ht_session_id : TerminalSessionId;
  ht_resource_id : ResourceId;
  ht_generation : TerminalGeneration;
  ht_sequence : TerminalSequence;
  ht_focus_epoch : TerminalFocusEpoch;
  ht_spec : TerminalSpec;
  ht_projection : ProjectionSource;
  ht_pending_output : PendingOutputQueue;
  ht_pending_lifecycle : list TerminalLifecycleEvent;
  ht_reader_count : N;
  ht_view_count : N;
  ht_closed : bool;
  ht_exit_summary : option text;
  ht_is_plain_shell : bool;
  ht_unknown : bool;
  ht_truncated : bool;
  ht_observed_output_bytes : N;
  ht_output_pressure_coalesced : bool;
  ht_provider_session_id : option text;
  ht_accepted_input_sequence : N;
  ht_accepted_input_ids : gmap InputId N;
  ht_accepted_bytes : list N;
  ht_last_rows : list text;
  ht_last_cursor : option TerminalCursorSnapshot;
  ht_last_modes : TerminalModeSnapshot;
  ht_last_title : option text;
  ht_deltas : list TerminalDelta;
  ht_clients : gmap ClientId ClientViewState;
}.

(** [t.field = value], one setter per field that is ever assigned. *)
Definition ht_eta (t : HostedTerminal) : HostedTerminal :=
  {| ht_task_id := ht_task_id t; ht_agent_session_id := ht_agent_session_id t;
     ht_runtime_generation := ht_runtime_generation t; ht_action_epoch := ht_action_epoch t;
     ht_session_id := ht_session_id t; ht_resource_id := ht_resource_id t; ht_generation :=
     ht_generation t; ht_sequence := ht_sequence t; ht_focus_epoch := ht_focus_epoch t; ht_spec :=
     ht_spec t; ht_projection := ht_projection t; ht_pending_output := ht_pending_output t;
     ht_pending_lifecycle := ht_pending_lifecycle t; ht_reader_count := ht_reader_count t;
     ht_view_count := ht_view_count t; ht_closed := ht_closed t; ht_exit_summary :=
     ht_exit_summary t; ht_is_plain_shell := ht_is_plain_shell t; ht_unknown := ht_unknown t;
     ht_truncated := ht_truncated t; ht_observed_output_bytes := ht_observed_output_bytes t;
     ht_output_pressure_coalesced := ht_output_pressure_coalesced t; ht_provider_session_id :=
     ht_provider_session_id t; ht_accepted_input_sequence := ht_accepted_input_sequence t;
     ht_accepted_input_ids := ht_accepted_input_ids t; ht_accepted_bytes := ht_accepted_bytes t;
     ht_last_rows := ht_last_rows t; ht_last_cursor := ht_last_cursor t; ht_last_modes :=
     ht_last_modes t; ht_last_title := ht_last_title t; ht_deltas := ht_deltas t; ht_clients :=
     ht_clients t |}.

End Hosted.

(** [put r t field value]: the record [r], an expansion of [t], with [field] assigned. *)
Ltac start t := eval cbv beta delta [ht_eta] in (ht_eta t).
Ltac put r t field value := lazymatch r with context C [field t] => context C [value] end.
Ltac setter t field value := let r := start t in let r := put r t field value in exact r.


Section Setters.
Context `{RT : AttachedTerminalRuntime} `{FE : !FixtureEmulator}.

Definition set_task_id (t : HostedTerminal) (v : TaskId) : HostedTerminal :=
  ltac:(setter t ht_task_id v).
Definition set_agent_session_id (t : HostedTerminal) (v : option AgentSessionId) : HostedTerminal :=
  ltac:(setter t ht_agent_session_id v).
Definition set_runtime_generation (t : HostedTerminal) (v : option N) : HostedTerminal :=
  ltac:(setter t ht_runtime_generation v).
Definition set_action_epoch (t : HostedTerminal) (v : option N) : HostedTerminal :=
  ltac:(setter t ht_action_epoch v).
Definition set_session_id (t : HostedTerminal) (v : TerminalSessionId) : HostedTerminal :=
  ltac:(setter t ht_session_id v).
Definition set_resource_id (t : HostedTerminal) (v : ResourceId) : HostedTerminal :=
  ltac:(setter t ht_resource_id v).
Definition set_generation (t : HostedTerminal) (v : TerminalGeneration) : HostedTerminal :=
  ltac:(setter t ht_generation v).
Definition set_sequence (t : HostedTerminal) (v : TerminalSequence) : HostedTerminal :=
  ltac:(setter t ht_sequence v).
Definition set_focus_epoch (t : HostedTerminal) (v : TerminalFocusEpoch) : HostedTerminal :=
  ltac:(setter t ht_focus_epoch v).
Definition set_spec (t : HostedTerminal) (v : TerminalSpec) : HostedTerminal :=
  ltac:(setter t ht_spec v).
Definition set_projection (t : HostedTerminal) (v : ProjectionSource) : HostedTerminal :=
  ltac:(setter t ht_projection v).
Definition set_pending_output (t : HostedTerminal) (v : PendingOutputQueue) : HostedTerminal :=
  ltac:(setter t ht_pending_output v).
Definition set_pending_lifecycle (t : HostedTerminal) (v : list TerminalLifecycleEvent) : HostedTerminal :=
  ltac:(setter t ht_pending_lifecycle v).
Definition set_view_count (t : HostedTerminal) (v : N) : HostedTerminal :=
  ltac:(setter t ht_view_count v).
Definition set_closed (t : HostedTerminal) (v : bool) : HostedTerminal :=
  ltac:(setter t ht_closed v).
Definition set_exit_summary (t : HostedTerminal) (v : option text) : HostedTerminal :=
  ltac:(setter t ht_exit_summary v).
Definition set_is_plain_shell (t : HostedTerminal) (v : bool) : HostedTerminal :=
  ltac:(setter t ht_is_plain_shell v).
Definition set_truncated (t : HostedTerminal) (v : bool) : HostedTerminal :=
  ltac:(setter t ht_truncated v).
Definition set_observed_output_bytes (t : HostedTerminal) (v : N) : HostedTerminal :=
  ltac:(setter t ht_observed_output_bytes v).
Definition set_output_pressure_coalesced (t : HostedTerminal) (v : bool) : HostedTerminal :=
  ltac:(setter t ht_output_pressure_coalesced v).
Definition set_provider_session_id (t : HostedTerminal) (v : option text) : HostedTerminal :=
  ltac:(setter t ht_provider_session_id v).
Definition set_accepted_input_sequence (t : HostedTerminal) (v : N) : HostedTerminal :=
  ltac:(setter t ht_accepted_input_sequence v).
Definition set_accepted_input_ids (t : HostedTerminal) (v : gmap InputId N) : HostedTerminal :=
  ltac:(setter t ht_accepted_input_ids v).
Definition set_accepted_bytes (t : HostedTerminal) (v : list N) : HostedTerminal :=
  ltac:(setter t ht_accepted_bytes v).
Definition set_last_rows (t : HostedTerminal) (v : list text) : HostedTerminal :=
  ltac:(setter t ht_last_rows v).
Definition set_last_cursor (t : HostedTerminal) (v : option TerminalCursorSnapshot) : HostedTerminal :=
  ltac:(setter t ht_last_cursor v).
Definition set_last_modes (t : HostedTerminal) (v : TerminalModeSnapshot) : HostedTerminal :=
  ltac:(setter t ht_last_modes v).
Definition set_last_title (t : HostedTerminal) (v : option text) : HostedTerminal :=
  ltac:(setter t ht_last_title v).
Definition set_deltas (t : HostedTerminal) (v : list TerminalDelta) : HostedTerminal :=
  ltac:(setter t ht_deltas v).
Definition set_clients (t : HostedTerminal) (v : gmap ClientId ClientViewState) : HostedTerminal :=
  ltac:(setter t ht_clients v).

(** ** Methods on [&mut self]

    A method answers the terminal it leaves with its result: what an early return had
    already changed stays changed. *)
Definition method (A : Type) : Type := HostedTerminal -> HostedTerminal * result A TerminalError.

Definition m_ret {A} (a : A) : method A := fun t => (t, Ok a).
Definition m_fail {A} (e : TerminalError) : method A := fun t => (t, Err e).
Definition m_lift {A} (r : result A TerminalError) : method A := fun t => (t, r).
Definition m_get {A} (f : HostedTerminal -> A) : method A := fun t => (t, Ok (f t)).
Definition m_set (f : HostedTerminal -> HostedTerminal) : method unit := fun t => (f t, Ok tt).

Definition m_bind {A B} (p : method A) (k : A -> method B) : method B := fun t =>
  match p t with
  | (t', Ok a) => k a t'
  | (t', Err e) => (t', Err e)
  end.

(** [Result::ok] *)
Definition m_attempt {A} (p : method A) : method (option A) := fun t =>
  match p t with
  | (t', Ok a) => (t', Ok (Some a))
  | (t', Err _) => (t', Ok None)
  end.

End Setters.

Declare Scope method_scope.
Delimit Scope method_scope with method.
Notation "'let!' x := p 'in' k" := (m_bind p (fun x => k))
  (at level 10, x pattern, p at level 99, k at level 200) : method_scope.
Notation "'do!' p ;; k" := (m_bind p (fun _ => k))
  (at level 10, p at level 99, k at level 200) : method_scope.

Section Methods.
Context `{RT : AttachedTerminalRuntime} `{FE : !FixtureEmulator}.
Local Open Scope method_scope.

(** A call of the attached runtime. *)
Definition m_runtime {A} (rt : runtime) (call : runtime -> runtime * A) : method A := fun t =>
  let '(rt', a) := call rt in (set_projection t (Attached rt'), Ok a).

Definition m_runtime_try {A} (rt : runtime) (call : runtime -> runtime * result A TerminalError)
    : method A := let! r := m_runtime rt call in m_lift r.

Definition rows_from_screen (screen : TerminalScreenSnapshot) : list text :=
  map (map ce_character) (ss_lines screen).

Definition is_attached (t : HostedTerminal) : bool :=
  match ht_projection t with Attached _ => true | Fixture _ => false end.

Inductive TerminalRuntimeState := RuntimeRunning | RuntimeExited (summary : text) | RuntimeUnknown.

Definition runtime_state (t : HostedTerminal) : TerminalRuntimeState :=
  if ht_unknown t then RuntimeUnknown
  else match ht_exit_summary t with
       | Some summary => RuntimeExited summary
       | None => RuntimeRunning
       end.

Definition ensure_open : method unit := fun t => (t, guard (negb (ht_closed t)) TeClosed).

Record TerminalResourceFence := {
  tf_terminal_id : TerminalId;
  tf_session_id : TerminalSessionId;
  tf_resource_id : ResourceId;
  tf_generation : TerminalGeneration;
}.

Definition hosted_fence (t : HostedTerminal) (terminal_id : TerminalId) : TerminalResourceFence :=
  {| tf_terminal_id := terminal_id; tf_session_id := ht_session_id t;
     tf_resource_id := ht_resource_id t; tf_generation := ht_generation t |}.

Definition bump_sequence : method TerminalSequence :=
  let! sequence := m_get ht_sequence in
  let! next := m_lift (sequence_next sequence) in
  do! m_set (fun t => set_sequence t next) ;;
  m_ret next.

Definition screen_snapshot : method TerminalScreenSnapshot :=
  let! projection := m_get ht_projection in
  match projection with
  | Fixture replica => m_ret (grid_snapshot replica)
  | Attached rt => m_runtime rt rt_screen_snapshot
  end.

Definition with_title (view : SessionView runtime_rest) (title : option text) : SessionView runtime_rest :=
  {| sv_runtime := {| sr_title := title; sr_dimensions := sr_dimensions (sv_runtime view);
                      sr_provider_session_id := sr_provider_session_id (sv_runtime view);
                      sr_rest := sr_rest (sv_runtime view) |};
     sv_screen := sv_screen view |}.

Definition hosted_session_view : method (SessionView runtime_rest) :=
  let! projection := m_get ht_projection in
  let! view := match projection with
               | Fixture replica => m_lift (ok_or (grid_view replica) TeCanonicalReaderPoisoned)
               | Attached rt => m_runtime_try rt rt_session_view
               end in
  let! spec := m_get ht_spec in
  m_ret (if is_none (sr_title (sv_runtime view)) then with_title view (sp_title spec) else view).

(** [session_view().ok().and_then(|view| view.runtime.title).or_else(|| spec.title)] *)
Definition current_title : method (option text) :=
  let! view := m_attempt hosted_session_view in
  let! spec := m_get ht_spec in
  m_ret (match mbind (fun view => sr_title (sv_runtime view)) view with
         | Some title => Some title
         | None => sp_title spec
         end).

Definition note_observed_output (output : N) : method unit := m_set (fun t =>
  let observed := saturating_add (ht_observed_output_bytes t) output in
  set_truncated (set_observed_output_bytes t observed)
    (ht_truncated t || (sp_max_scrollback_bytes (ht_spec t) <? observed))).

Definition attachment_fence (t : HostedTerminal) : AttachmentFence :=
  {| af_resource_id := ht_resource_id t; af_generation := ht_generation t |}.

Definition verify_attachment : method unit :=
  let! projection := m_get ht_projection in
  match projection with
  | Fixture _ => m_ret tt
  | Attached rt =>
      let! r := m_runtime rt rt_current_attachment_fence in
      match r with
      | Err _ => m_fail TeTeardownFenceMissing
      | Ok current =>
          let! fence := m_get attachment_fence in
          m_lift (guard (current =?= fence) TeStaleGeneration)
      end
  end.

(** *** Deltas *)

(** [if deltas.len() >= MAX_RETAINED_DELTAS { pop_front() }; push_back(delta)] *)
Definition retain_delta (delta : TerminalDelta) : method unit := m_set (fun t =>
  let kept := if MAX_RETAINED_DELTAS <=? count (ht_deltas t) then tail (ht_deltas t) else ht_deltas t in
  set_deltas t (kept ++ [delta])).

Definition delta_of (t : HostedTerminal) (terminal_id : TerminalId) (sequence : TerminalSequence)
    (ops : list TerminalDeltaOp) : TerminalDelta :=
  {| td_terminal_id := terminal_id; td_generation := ht_generation t; td_sequence := sequence;
     td_ops := ops |}.

Definition event_summary (event : TerminalLifecycleEvent) : text :=
  match event with
  | ReaderEof => lit "PTY reader reached EOF"
  | ReaderFailed summary => summary
  | ChildExited summary _ => summary
  end.

Fixpoint settle_events (terminal_id : TerminalId) (events : list TerminalLifecycleEvent) : method unit :=
  match events with
  | [] => m_ret tt
  | event :: events =>
      let summary := event_summary event in
      do! m_set (fun t => set_exit_summary t (Some summary)) ;;
      let! sequence := bump_sequence in
      let! delta := m_get (fun t => delta_of t terminal_id sequence [OpExit summary]) in
      do! retain_delta delta ;;
      settle_events terminal_id events
  end.

Definition drain_lifecycle (terminal_id : TerminalId) : method unit :=
  let! events := m_get ht_pending_lifecycle in
  do! m_set (fun t => set_pending_lifecycle t []) ;;
  settle_events terminal_id events.

Definition saturating_mul (a b : N) : N := N.min (a * b) u64_max.

Definition scrollback_bytes (projection : ProjectionSource) (screen : TerminalScreenSnapshot) : N :=
  match projection with
  | Fixture replica => len (grid_scrollback_text replica)
  | Attached _ =>
      saturating_add (len (concat (rows_from_screen screen)))
        (saturating_mul (ss_history_size screen) (ss_cols screen mod 65536))
  end.

Definition enforce_scrollback_bound_from_screen (screen : TerminalScreenSnapshot) : method unit :=
  m_set (fun t =>
    let rows := sp_max_scrollback_rows (ht_spec t) in
    if (rows <? ss_history_size screen)
       || (sp_max_scrollback_bytes (ht_spec t) <? scrollback_bytes (ht_projection t) screen)
    then set_truncated
           (set_projection t
              match ht_projection t with
              | Fixture replica => Fixture (grid_bound_history replica rows)
              | Attached rt => Attached (rt_bound_history rt rows)
              end) true
    else t).

(** The operations that carry a replica from the screen last recorded to this one. *)
Definition screen_ops (t : HostedTerminal) (screen : TerminalScreenSnapshot) (title : option text)
    : list TerminalDeltaOp :=
  let rows := rows_from_screen screen in
  let truncated := if ht_truncated t then [OpTruncated (ss_history_size screen)] else [] in
  truncated
  ++ (if negb (rows =?= ht_last_rows t) || is_empty truncated then [OpRowsChanged 0 rows] else [])
  ++ (if ss_cursor screen =?= ht_last_cursor t then [] else [OpCursor (ss_cursor screen)])
  ++ (if ss_mode screen =?= ht_last_modes t then [] else [OpMode (ss_mode screen)])
  ++ (if title =?= ht_last_title t then [] else [OpTitle title])
  ++ (if ss_display_offset screen =? 0 then [] else [OpScroll (ss_display_offset screen)]).

Definition remember_screen (screen : TerminalScreenSnapshot) (title : option text) : method unit :=
  m_set (fun t =>
    set_last_title
      (set_last_modes
         (set_last_cursor (set_last_rows t (rows_from_screen screen)) (ss_cursor screen))
         (ss_mode screen)) title).

Definition record_delta_from_screen (terminal_id : TerminalId) (sequence : TerminalSequence)
    (screen : TerminalScreenSnapshot) : method unit :=
  let! title := current_title in
  let! ops := m_get (fun t => screen_ops t screen title) in
  do! remember_screen screen title ;;
  if is_empty ops then m_ret tt
  else
    let! delta := m_get (fun t => delta_of t terminal_id sequence ops) in
    retain_delta delta.

(** *** Draining what the reader reported *)

Definition record_screen (terminal_id : TerminalId) (screen : TerminalScreenSnapshot) (coalesced : bool)
    : method unit :=
  do! enforce_scrollback_bound_from_screen screen ;;
  do! m_set (fun t => if coalesced then set_output_pressure_coalesced t true else t) ;;
  let! sequence := bump_sequence in
  record_delta_from_screen terminal_id sequence screen.

(** The loop of [notifications] turns; a fixture has no attached output and returns. *)
Fixpoint record_notifications (terminal_id : TerminalId) (notifications : nat) : method unit :=
  match notifications with
  | O => m_ret tt
  | S notifications =>
      let! projection := m_get ht_projection in
      match projection with
      | Fixture _ => m_ret tt
      | Attached rt =>
          let! screen := m_runtime rt rt_screen_snapshot in
          do! record_screen terminal_id screen false ;;
          record_notifications terminal_id notifications
      end
  end.

(** After an exit the fence may be gone; the last screens are still read. *)
Definition verify_readable : method unit := fun t =>
  match verify_attachment t with
  | (t', Err TeTeardownFenceMissing) =>
      if is_some (ht_exit_summary t') then (t', Ok tt) else (t', Err TeTeardownFenceMissing)
  | verified => verified
  end.

Definition take_pending_output : method PendingOutputDrain := fun t =>
  let '(pending, drain) := pending_take (ht_pending_output t) in
  (set_pending_output t pending, Ok drain).

Definition drain_attached_output (terminal_id : TerminalId) : method unit :=
  do! drain_lifecycle terminal_id ;;
  do! verify_readable ;;
  let! drain := take_pending_output in
  match drain with
  | DrainEmpty => m_ret tt
  | DrainCoalesced output =>
      do! note_observed_output output ;;
      let! projection := m_get ht_projection in
      match projection with
      | Fixture _ => m_ret tt
      | Attached rt =>
          let! screen := m_runtime rt rt_screen_snapshot in
          record_screen terminal_id screen true
      end
  | DrainNotifications notifications output =>
      do! note_observed_output output ;;
      record_notifications terminal_id (N.to_nat notifications)
  end.

Definition apply_fixture_reader_bytes (terminal_id : TerminalId) (output : list N)
    : method TerminalSequence :=
  do! ensure_open ;;
  if is_empty output then m_get ht_sequence
  else if MAX_INPUT_BYTES <? count output then m_fail TeBoundExceeded
  else
    do! note_observed_output (count output) ;;
    let! projection := m_get ht_projection in
    match projection with
    | Attached _ => m_fail TeFixtureOnly
    | Fixture replica =>
        do! m_set (fun t => set_projection t (Fixture (grid_apply_output_bytes replica output))) ;;
        let! screen := screen_snapshot in
        do! enforce_scrollback_bound_from_screen screen ;;
        let! sequence := bump_sequence in
        let! screen := screen_snapshot in
        do! record_delta_from_screen terminal_id sequence screen ;;
        m_ret sequence
    end.

(** *** What a replica is sent *)

Definition hosted_snapshot (terminal_id : TerminalId) : method TerminalSnapshot :=
  do! drain_attached_output terminal_id ;;
  let! screen := screen_snapshot in
  let! title := current_title in
  m_get (fun t =>
    {| tsn_terminal_id := terminal_id; tsn_generation := ht_generation t;
       tsn_sequence := ht_sequence t; tsn_size := sp_size (ht_spec t);
       tsn_cursor := ss_cursor screen; tsn_modes := ss_mode screen; tsn_title := title;
       tsn_rows := rows_from_screen screen; tsn_history_rows := ss_history_size screen;
       tsn_truncated := ht_truncated t |}).

Definition remember_client_cursor (client_id : ClientId) (generation : TerminalGeneration)
    (sequence : TerminalSequence) : method unit := m_set (fun t =>
  match ht_clients t !! client_id with
  | None => t
  | Some client =>
      set_clients t
        (<[client_id := {| cv_grant := cv_grant client;
                           cv_cursor := Some {| rc_generation := generation; rc_sequence := sequence |};
                           cv_resize_sequence := cv_resize_sequence client |}]> (ht_clients t))
  end).

Definition deltas_contiguous (t : HostedTerminal) (since : TerminalSequence) : bool :=
  is_some_and (head (ht_deltas t)) (fun oldest => td_sequence oldest <=? saturating_add since 1)
  && (saturating_distance (ht_sequence t) since <=? MAX_RETAINED_DELTAS)
  && negb (ht_truncated t) && negb (ht_output_pressure_coalesced t).

Definition coalesce_reason (t : HostedTerminal) (since : TerminalSequence) : CoalesceReason :=
  if ht_output_pressure_coalesced t then SlowClient
  else if ht_truncated t then ScrollbackTruncated
  else if MAX_RETAINED_DELTAS <? saturating_distance (ht_sequence t) since then SlowClient
  else SequenceGap.

Definition coalesced_snapshot (terminal_id : TerminalId) (client_id : ClientId)
    (generation : TerminalGeneration) (reason : CoalesceReason) (clear_pressure : bool)
    : method ReplicaUpdate :=
  let! snapshot := hosted_snapshot terminal_id in
  do! m_set (fun t => if clear_pressure then set_output_pressure_coalesced t false else t) ;;
  do! remember_client_cursor client_id generation (tsn_sequence snapshot) ;;
  m_ret (RuCoalescedSnapshot snapshot reason).

Definition updates_since (terminal_id : TerminalId) (client_id : ClientId)
    (generation : TerminalGeneration) (since : TerminalSequence) : method ReplicaUpdate :=
  do! ensure_open ;;
  do! drain_attached_output terminal_id ;;
  let! t := m_get (fun t => t) in
  if negb (generation =? ht_generation t) then
    let! snapshot := hosted_snapshot terminal_id in
    m_ret (RuCoalescedSnapshot snapshot GenerationMismatch)
  else if ht_sequence t <? since then
    let! snapshot := hosted_snapshot terminal_id in
    m_ret (RuCoalescedSnapshot snapshot SequenceGap)
  else if since =? ht_sequence t then
    do! remember_client_cursor client_id generation since ;;
    m_ret RuEmpty
  else if negb (deltas_contiguous t since) then
    coalesced_snapshot terminal_id client_id generation (coalesce_reason t since) true
  else
    let deltas := List.filter (fun delta => since <? td_sequence delta) (ht_deltas t) in
    if is_some_and (last deltas) (fun final => negb (td_sequence final =? ht_sequence t)) then
      coalesced_snapshot terminal_id client_id generation SequenceGap false
    else
      do! remember_client_cursor client_id generation (ht_sequence t) ;;
      m_ret (RuDeltas deltas).

(** *** Input *)

Definition rejected {A} (c : bool) (reason : InputRejectReason) (k : result A InputAck)
    : result A InputAck := if c then Err (AckRejected reason) else k.

(** The admission of an input: the sequence it will have, or the answer it gets. *)
Definition input_sequence_for (t : HostedTerminal) (envelope : InputEnvelope) : result N InputAck :=
  rejected (ht_closed t) IrClosed (
  rejected (negb (ie_task_id envelope =? ht_task_id t)) IrStaleTask (
  rejected (negb (ie_session_id envelope =? ht_session_id t)) IrStaleSession (
  rejected (negb (ie_terminal_generation envelope =? ht_generation t)) IrStaleGeneration (
  rejected (negb (ie_focus_epoch envelope =? ht_focus_epoch t)) IrStaleFocus (
  rejected (is_empty (ie_bytes envelope)) IrEmpty (
  rejected (MAX_INPUT_BYTES <? count (ie_bytes envelope)) IrBoundExceeded (
  match ht_accepted_input_ids t !! ie_input_id envelope with
  | Some sequence => Err (AckDuplicate sequence)
  | None =>
      rejected (negb (default GrantReadOnly (cv_grant <$> ht_clients t !! ie_client_id envelope)
                      =?= GrantReadWrite)) IrReadOnly (
      rejected (MAX_TRACKED_INPUT_IDS <=? msize (ht_accepted_input_ids t)) IrBoundExceeded (
      match checked_add (count (ht_accepted_bytes t)) (count (ie_bytes envelope)) with
      | None => Err (AckRejected IrBoundExceeded)
      | Some total =>
          rejected (MAX_ACCEPTED_INPUT_HISTORY_BYTES <? total) IrBoundExceeded
            (ok_or (checked_add (ht_accepted_input_sequence t) 1) (AckRejected IrBoundExceeded))
      end))
  end))))))).

(** The input reaches the runtime behind its fence; a fixture has none. *)
Definition forward_input (envelope : InputEnvelope) : method unit :=
  let! attached := m_get is_attached in
  if negb attached then m_ret tt
  else
    do! verify_attachment ;;
    let! projection := m_get ht_projection in
    match projection with
    | Fixture _ => m_ret tt
    | Attached rt =>
        let! fence := m_get attachment_fence in
        let! written := m_attempt (m_runtime_try rt (fun rt => rt_write_bytes rt (ie_bytes envelope) fence)) in
        m_lift (guard (is_some written) TeRuntimeIo)
    end.

Definition accept_input (t : HostedTerminal) (envelope : InputEnvelope) (sequence : N) : HostedTerminal :=
  set_accepted_bytes
    (set_accepted_input_ids (set_accepted_input_sequence t sequence)
       (<[ie_input_id envelope := sequence]> (ht_accepted_input_ids t)))
    (ht_accepted_bytes t ++ ie_bytes envelope).

Definition forward_refusal (e : TerminalError) : InputRejectReason :=
  match e with
  | TeTeardownFenceMissing | TeStaleGeneration => IrStaleGeneration
  | _ => IrRuntimeForwardFailed
  end.

Definition hosted_write (t : HostedTerminal) (envelope : InputEnvelope) : HostedTerminal * InputAck :=
  match input_sequence_for t envelope with
  | Err ack => (t, ack)
  | Ok sequence =>
      match forward_input envelope t with
      | (t, Err e) => (t, AckRejected (forward_refusal e))
      | (t, Ok _) => (accept_input t envelope sequence, AckAccepted sequence)
      end
  end.

(** *** Size, scrolling and teardown *)

(** A resize fenced by a view: [None] when an older view's resize is dropped. *)
Definition resize_fence (t : HostedTerminal) (fence : option ResizeFence)
    : result (option (option (ClientId * N))) TerminalError :=
  match fence with
  | None => Ok (Some None)
  | Some fence =>
      ensure rz_generation fence =? ht_generation t else TeStaleGeneration ;;
      ensure negb (rz_view_sequence fence =? 0) else TeInvalidFence ;;
      let? client := ok_or (ht_clients t !! rz_client_id fence) TeInvalidFence in
      if is_some_and (cv_resize_sequence client) (fun current => rz_view_sequence fence <? current)
      then Ok None
      else Ok (Some (Some (rz_client_id fence, rz_view_sequence fence)))
  end.

Definition commit_view_sequence (view : option (ClientId * N)) : method unit := m_set (fun t =>
  match view with
  | None => t
  | Some (client_id, view_sequence) =>
      match ht_clients t !! client_id with
      | None => t
      | Some client =>
          set_clients t
            (<[client_id := {| cv_grant := cv_grant client; cv_cursor := cv_cursor client;
                               cv_resize_sequence := Some view_sequence |}]> (ht_clients t))
      end
  end).

Definition with_size (spec : TerminalSpec) (size : TerminalSize) : TerminalSpec :=
  {| sp_session_id := sp_session_id spec; sp_size := size;
     sp_max_scrollback_rows := sp_max_scrollback_rows spec;
     sp_max_scrollback_bytes := sp_max_scrollback_bytes spec; sp_title := sp_title spec |}.

Definition hosted_resize (terminal_id : TerminalId) (size : TerminalSize) (fence : option ResizeFence)
    : method unit :=
  do! ensure_open ;;
  do! verify_attachment ;;
  do! drain_attached_output terminal_id ;;
  let! size := m_lift (terminal_size_new (tz_cols size) (tz_rows size)) in
  let! t := m_get (fun t => t) in
  let! commit := m_lift (resize_fence t fence) in
  match commit with
  | None => m_ret tt
  | Some view =>
      do! match ht_projection t with
          | Attached rt => m_runtime_try rt (fun rt => rt_resize rt size (attachment_fence t))
          | Fixture replica =>
              m_set (fun t => set_projection t (Fixture (grid_apply_local_resize replica (session_dimensions size))))
          end ;;
      do! commit_view_sequence view ;;
      do! m_set (fun t => set_spec t (with_size (ht_spec t) size)) ;;
      let! sequence := bump_sequence in
      let! screen := screen_snapshot in
      record_delta_from_screen terminal_id sequence screen
  end.

(** [&[u8]::repeat] *)
Definition repeat_bytes (report : list N) (n : N) : list N := concat (repeat report (N.to_nat n)).

Definition alternate_scroll_bytes (delta_lines : Z) : list N :=
  repeat_bytes [0x1b; 79; if (0 <? delta_lines)%Z then 65 else 66] (Z.abs_N delta_lines).

(** A number in decimal, most significant digit first. *)
Fixpoint decimal_digits (fuel : nat) (n : N) : list N :=
  match fuel with
  | O => []
  | S fuel => (if n <? 10 then [] else decimal_digits fuel (n / 10)) ++ [48 + n mod 10]
  end.
Definition decimal (n : N) : list N := decimal_digits 21 n.

Definition u8_of (n : N) : N := n mod 256.

Definition encode_position (position : N) : list N :=
  let position := 32 + 1 + position in [u8_of (0xC0 + position / 64); u8_of (0x80 + N.land position 63)].

Definition normal_mouse_scroll_bytes (column row button : N) (utf8 : bool) : option (list N) :=
  let max_point := if utf8 then 2015 else 223 in
  if (max_point <=? row) || (max_point <=? column) then None
  else
    let at_point point := if utf8 && (95 <=? point) then encode_position point
                          else [u8_of (32 + 1 + u8_of point)] in
    Some ([0x1b; 91; 77; 32 + button] ++ at_point column ++ at_point row).

Definition mouse_scroll_bytes (mode : TerminalModeSnapshot) (rows columns : N) (delta_lines : Z) : list N :=
  let button := if (0 <? delta_lines)%Z then 64 else 65 in
  let row := saturating_sub rows 1 / 2 in
  let column := saturating_sub columns 1 / 2 in
  let report :=
    if md_sgr_mouse mode then
      [0x1b; 91; 60] ++ decimal button ++ [59] ++ decimal (column + 1) ++ [59] ++ decimal (row + 1) ++ [77]
    else default [] (normal_mouse_scroll_bytes column row button (md_utf8_mouse mode)) in
  repeat_bytes report (Z.abs_N delta_lines).

Definition hosted_scroll_lines (delta_lines : Z) : method unit :=
  let! projection := m_get ht_projection in
  match projection with
  | Fixture _ => m_fail TeRuntimeIo
  | Attached rt =>
      let! view := m_runtime_try rt rt_session_view in
      let screen := sv_screen view in
      let! fence := m_get attachment_fence in
      let! projection := m_get ht_projection in
      match projection with
      | Fixture _ => m_fail TeRuntimeIo
      | Attached rt =>
          if mouse_reporting (ss_mode screen) then
            m_runtime_try rt (fun rt => rt_write_bytes rt
              (mouse_scroll_bytes (ss_mode screen) (ss_rows screen) (ss_cols screen) delta_lines) fence)
          else if md_alternate_screen (ss_mode screen) && md_alternate_scroll (ss_mode screen) then
            m_runtime_try rt (fun rt => rt_write_bytes rt (alternate_scroll_bytes delta_lines) fence)
          else m_runtime_try rt (fun rt => rt_scroll_lines rt delta_lines)
      end
  end.

(** The report names a fresh terminal id, which the service replaces by its own. *)
Definition hosted_close (fresh_id : TerminalId) (reason : CloseReason) : method TeardownReport :=
  let! closed := m_get ht_closed in
  let report := m_get (fun t =>
    {| tr_terminal_id := fresh_id; tr_generation := ht_generation t; tr_closed := true;
       tr_explicit := true; tr_reason := reason |}) in
  if closed then report
  else
    let! attached := m_get is_attached in
    do! (if attached then
           do! verify_attachment ;;
           let! t := m_get (fun t => t) in
           match ht_projection t with
           | Attached rt => m_runtime_try rt (fun rt => rt_close_exact rt reason (attachment_fence t))
           | Fixture _ => m_ret tt
           end
         else m_ret tt) ;;
    do! m_set (fun t => set_clients (set_closed t true) ∅) ;;
    report.

(** *** Replacement of the generation *)

(** What both ways of replacing a generation start over. *)
Definition start_over (t : HostedTerminal) : HostedTerminal := ltac:(
  let r := start t in
  let r := put r t ht_sequence 0 in
  let r := put r t ht_truncated false in
  let r := put r t ht_observed_output_bytes 0 in
  let r := put r t ht_accepted_input_sequence 0 in
  let r := put r t ht_accepted_input_ids (∅ : gmap InputId N) in
  let r := put r t ht_accepted_bytes (@nil N) in
  let r := put r t ht_deltas (@nil TerminalDelta) in
  let r := put r t ht_clients
    ((fun client => {| cv_grant := cv_grant client; cv_cursor := None; cv_resize_sequence := None |})
       <$> ht_clients t) in
  exact r).

Definition dimensions_size (d : SessionDimensions) : result TerminalSize TerminalError :=
  terminal_size_new (dm_cols d) (dm_rows d).

(** The job restarted the runtime: the terminal is bound to the fence it published. *)
Definition rebind_runtime (terminal_id : TerminalId) (rt : runtime) : method TerminalGeneration :=
  let! attachment := m_runtime_try rt rt_current_attachment_fence in
  let! t := m_get (fun t => t) in
  if (af_resource_id attachment =? ht_resource_id t) && (af_generation attachment <=? ht_generation t)
  then m_fail TeStaleGeneration
  else
    do! drain_lifecycle terminal_id ;;
    let! _ := take_pending_output in
    let! projection := m_get ht_projection in
    match projection with
    | Fixture _ => m_fail TeFixtureOnly
    | Attached rt =>
        let! view := m_runtime_try rt rt_session_view in
        let screen := sv_screen view in
        do! m_set (fun t =>
          let t := match dimensions_size (sr_dimensions (sv_runtime view)) with
                   | Ok size => set_spec t (with_size (ht_spec t) size)
                   | Err _ => t
                   end in
          let t := set_generation (set_resource_id t (af_resource_id attachment)) (af_generation attachment) in
          set_output_pressure_coalesced (set_exit_summary (start_over t) None) false) ;;
        let! spec := m_get ht_spec in
        do! remember_screen screen
              (match sr_title (sv_runtime view) with Some title => Some title | None => sp_title spec end) ;;
        m_get ht_generation
    end.

Definition fixture_grid (terminal_id : TerminalId) (spec : TerminalSpec) (provider : option text) : grid :=
  grid_bound_history (grid_bootstrap terminal_id (session_dimensions (sp_size spec)) (sp_title spec) provider)
    (sp_max_scrollback_rows spec).

Definition renew_fixture (terminal_id : TerminalId) (next : TerminalGeneration) (t : HostedTerminal)
    : HostedTerminal :=
  let t := set_projection t (Fixture (fixture_grid terminal_id (ht_spec t) (ht_provider_session_id t))) in
  let t := set_generation t next in
  let t := set_agent_session_id t None in
  let t := set_runtime_generation t None in
  start_over (set_action_epoch t None).

Definition replace_fixture (terminal_id : TerminalId) : method TerminalGeneration :=
  let! generation := m_get ht_generation in
  let! next := m_lift (generation_next generation) in
  do! m_set (renew_fixture terminal_id next) ;;
  let! screen := screen_snapshot in
  let! spec := m_get ht_spec in
  do! remember_screen screen (sp_title spec) ;;
  m_ret next.

Definition hosted_replace_generation (terminal_id : TerminalId) : method TerminalGeneration :=
  do! ensure_open ;;
  let! projection := m_get ht_projection in
  match projection with
  | Attached rt => rebind_runtime terminal_id rt
  | Fixture _ => replace_fixture terminal_id
  end.

(** *** Opening *)

Definition opened (task_id : TaskId) (spec : TerminalSpec) (resource_id : ResourceId)
    (generation : TerminalGeneration) (projection : ProjectionSource) (screen : TerminalScreenSnapshot)
    (title : option text) : HostedTerminal :=
  {| ht_task_id := task_id; ht_agent_session_id := None; ht_runtime_generation := None;
     ht_action_epoch := None; ht_session_id := sp_session_id spec; ht_resource_id := resource_id;
     ht_generation := generation; ht_sequence := 0; ht_focus_epoch := 1; ht_spec := spec;
     ht_projection := projection; ht_pending_output := pending_default; ht_pending_lifecycle := [];
     ht_reader_count := 1; ht_view_count := 0; ht_closed := false; ht_exit_summary := None;
     ht_is_plain_shell := false; ht_unknown := false; ht_truncated := false;
     ht_observed_output_bytes := 0; ht_output_pressure_coalesced := false;
     ht_provider_session_id := None; ht_accepted_input_sequence := 0; ht_accepted_input_ids := ∅;
     ht_accepted_bytes := []; ht_last_rows := rows_from_screen screen;
     ht_last_cursor := ss_cursor screen; ht_last_modes := ss_mode screen; ht_last_title := title;
     ht_deltas := []; ht_clients := ∅ |}.

Definition open_fixture (task_id : TaskId) (spec : TerminalSpec) (terminal_id : TerminalId)
    (fresh_resource : ResourceId) : result HostedTerminal TerminalError :=
  let? spec := spec_validated spec in
  let replica := fixture_grid terminal_id spec None in
  Ok (opened task_id spec fresh_resource 1 (Fixture replica) (grid_snapshot replica) (sp_title spec)).

Definition open_attached (task_id : TaskId) (spec : TerminalSpec) (rt : runtime)
    : result HostedTerminal TerminalError :=
  let? spec := spec_validated spec in
  let '(rt, attachment) := rt_current_attachment_fence rt in
  let? attachment := attachment in
  let rt := rt_bound_history rt (sp_max_scrollback_rows spec) in
  let '(rt, screen) := rt_screen_snapshot rt in
  let '(rt, view) := rt_session_view rt in
  let title := match view with
               | Ok view => match sr_title (sv_runtime view) with
                            | Some title => Some title
                            | None => sp_title spec
                            end
               | Err _ => sp_title spec
               end in
  let '(rt, installed) := rt_install_output_sink rt in
  try? installed ;;
  let '(rt, installed) := rt_install_lifecycle_sink rt in
  try? installed ;;
  Ok (opened task_id spec (af_resource_id attachment) (af_generation attachment) (Attached rt) screen title).

End Methods.

(** ** Frames: what a method leaves alone *)

Section Frames.
Context `{RT : AttachedTerminalRuntime} `{FE : !FixtureEmulator}.

(** The owner, the fences and the kind of a terminal, and whether it is closed. *)
Definition ht_identity (t : HostedTerminal) :=
  (ht_task_id t, ht_agent_session_id t, ht_runtime_generation t, ht_action_epoch t,
   ht_session_id t, ht_resource_id t, ht_generation t, ht_focus_epoch t, ht_closed t,
   ht_is_plain_shell t).

Definition ht_inputs (t : HostedTerminal) :=
  (ht_accepted_input_sequence t, ht_accepted_input_ids t, ht_accepted_bytes t).

Definition grants (t : HostedTerminal) : gmap ClientId ClientInputGrant := cv_grant <$> ht_clients t.

Record hosted_bounded (t : HostedTerminal) : Prop := {
  hb_deltas : count (ht_deltas t) <= MAX_RETAINED_DELTAS;
  hb_chunks : count (pq_chunks (ht_pending_output t)) <= MAX_PENDING_OUTPUT_CHUNKS;
  hb_quiet : pq_coalesced (ht_pending_output t) = true -> pq_chunks (ht_pending_output t) = [];
  hb_sequence : ht_sequence t <= u64_max;
  hb_observed : ht_observed_output_bytes t <= u64_max;
  hb_past : Forall (fun delta => td_sequence delta <= ht_sequence t) (ht_deltas t);
}.

(** What the terminal last recorded of its screen, and how the operations of a delta move
    a replica's copy of it: rows are written over the ones there are. *)
Record Shown := {
  sh_rows : list text;
  sh_cursor : option TerminalCursorSnapshot;
  sh_modes : TerminalModeSnapshot;
  sh_title : option text;
}.

Definition last_shown (t : HostedTerminal) : Shown :=
  {| sh_rows := ht_last_rows t; sh_cursor := ht_last_cursor t; sh_modes := ht_last_modes t;
     sh_title := ht_last_title t |}.

Definition show_op (v : Shown) (op : TerminalDeltaOp) : Shown :=
  match op with
  | OpRowsChanged _ rows =>
      {| sh_rows := rows ++ skipn (length rows) (sh_rows v); sh_cursor := sh_cursor v;
         sh_modes := sh_modes v; sh_title := sh_title v |}
  | OpCursor cursor =>
      {| sh_rows := sh_rows v; sh_cursor := cursor; sh_modes := sh_modes v; sh_title := sh_title v |}
  | OpMode modes =>
      {| sh_rows := sh_rows v; sh_cursor := sh_cursor v; sh_modes := modes; sh_title := sh_title v |}
  | OpTitle title =>
      {| sh_rows := sh_rows v; sh_cursor := sh_cursor v; sh_modes := sh_modes v; sh_title := title |}
  | OpScroll _ | OpTruncated _ | OpExit _ => v
  end.

(** A copy shows a screen when it begins with its rows; rows below them may be stale. *)
Definition showing (copy v : Shown) : Prop :=
  firstn (length (sh_rows v)) (sh_rows copy) = sh_rows v
  /\ sh_cursor copy = sh_cursor v /\ sh_modes copy = sh_modes v /\ sh_title copy = sh_title v.

Definition moves_shown (v : Shown) (ops : list TerminalDeltaOp) (v' : Shown) : Prop :=
  forall copy, showing copy v -> showing (fold_left show_op ops copy) v'.

Definition from_top (op : TerminalDeltaOp) : Prop :=
  match op with OpRowsChanged start_row _ => start_row = 0 | _ => True end.

Definition delta_between (t t' : HostedTerminal) (delta : TerminalDelta) : Prop :=
  ht_sequence t < td_sequence delta <= ht_sequence t'
  /\ td_generation delta = ht_generation t /\ Forall from_top (td_ops delta).

(** The deltas recorded between two moments: in order, carrying the screen recorded at the
    first to the one recorded at the second; the oldest may have been dropped. *)
Definition recorded (t t' : HostedTerminal) : Prop :=
  exists news gone,
    ht_deltas t ++ news = gone ++ ht_deltas t'
    /\ StronglySorted N.lt (map td_sequence news)
    /\ Forall (delta_between t t') news
    /\ moves_shown (last_shown t) (concat (map td_ops news)) (last_shown t').

(** The same generation of a terminal, later. *)
Record advanced (t t' : HostedTerminal) : Prop := {
  ad_generation : ht_generation t' = ht_generation t;
  ad_sequence : ht_sequence t <= ht_sequence t';
  ad_recorded : recorded t t';
}.

(** The work on screens, sizes and notifications: it moves the sequence on, records what it
    shows, and keeps authority, inputs and grants. *)
Record calm (t t' : HostedTerminal) : Prop := {
  calm_identity : ht_identity t' = ht_identity t;
  calm_inputs : ht_inputs t' = ht_inputs t;
  calm_grants : grants t' = grants t;
  calm_sequence : ht_sequence t <= ht_sequence t';
  calm_bounded : hosted_bounded t -> hosted_bounded t';
  calm_recorded : recorded t t';
}.

Lemma identity_generation t t' : ht_identity t' = ht_identity t -> ht_generation t' = ht_generation t.
Proof. unfold ht_identity. by intros [= _ _ _ _ _ _ -> _ _ _]. Qed.

Lemma recorded_same t t' : ht_deltas t' = ht_deltas t -> last_shown t' = last_shown t -> recorded t t'.
Proof.
  intros Hd Hs. exists [], []. split_and!; [by rewrite Hd, app_nil_r|constructor..|]. rewrite Hs. by intros copy.
Qed.

Lemma sorted_app_below (l1 l2 : list N) m :
  StronglySorted N.lt l1 -> StronglySorted N.lt l2 -> Forall (fun x => x <= m) l1 ->
  Forall (fun x => m < x) l2 -> StronglySorted N.lt (l1 ++ l2).
Proof.
  intros H1 H2 Hl1 Hl2. induction H1 as [|x l1 H1 IH Hx]; [done|]. cbn. apply Forall_cons in Hl1 as [Hm Hl1].
  constructor; [auto|]. apply Forall_app. split; [done|]. eapply Forall_impl; [exact Hl2|]. intros y Hy. cbn in *. lia.
Qed.

Lemma recorded_trans t1 t2 t3 :
  ht_generation t2 = ht_generation t1 -> ht_sequence t1 <= ht_sequence t2 -> ht_sequence t2 <= ht_sequence t3 ->
  recorded t1 t2 -> recorded t2 t3 -> recorded t1 t3.
Proof.
  intros Hg H12 H23 (n1 & g1 & Hd1 & Hs1 & Hb1 & Hm1) (n2 & g2 & Hd2 & Hs2 & Hb2 & Hm2).
  exists (n1 ++ n2), (g1 ++ g2). split_and!.
  - by rewrite app_assoc, Hd1, <- !app_assoc, Hd2.
  - rewrite map_app. apply (sorted_app_below _ _ (ht_sequence t2)); [done..| |]; apply Forall_map.
    + eapply Forall_impl; [exact Hb1|]. intros d ([_ ?] & _). done.
    + eapply Forall_impl; [exact Hb2|]. intros d ([? _] & _). done.
  - apply Forall_app. split; (eapply Forall_impl; [eassumption|]); intros d ([? ?] & ? & ?); split_and!; try done; lia || congruence.
  - rewrite map_app, concat_app. intros copy Hc. rewrite fold_left_app. auto.
Qed.

#[export] Instance advanced_preorder : PreOrder advanced.
Proof.
  split; [intros t; split; try done; by apply recorded_same|]. intros t1 t2 t3 [? ? ?] [? ? ?].
  split; [congruence|lia|by eapply recorded_trans].
Qed.

#[export] Instance calm_preorder : PreOrder calm.
Proof.
  split; [intros t; split; try done; by apply recorded_same|]. intros t1 t2 t3 [? ? ? ? ? ?] [? ? ? ? ? ?].
  split; [congruence..|lia|auto|]. eapply recorded_trans; [by apply identity_generation|eassumption..].
Qed.

Definition keeps_calm {A} (p : method A) : Prop := forall t, calm t (fst (p t)).

Lemma calm_bind {A B} (p : method A) (k : A -> method B) :
  keeps_calm p -> (forall a, keeps_calm (k a)) -> keeps_calm (m_bind p k).
Proof.
  intros Hp Hk t. unfold m_bind. specialize (Hp t). destruct (p t) as [t' [a|e]]; [|done].
  etrans; [exact Hp|apply Hk].
Qed.

Lemma calm_ret {A} (a : A) : keeps_calm (m_ret a).
Proof. by intros t. Qed.
Lemma calm_fail {A} e : keeps_calm (m_fail (A:=A) e).
Proof. by intros t. Qed.
Lemma calm_lift {A} (r : result A TerminalError) : keeps_calm (m_lift r).
Proof. by intros t. Qed.
Lemma calm_get {A} (f : HostedTerminal -> A) : keeps_calm (m_get f).
Proof. by intros t. Qed.
Lemma calm_set f : (forall t, calm t (f t)) -> keeps_calm (m_set f).
Proof. by intros Hf t. Qed.
Lemma calm_open : keeps_calm ensure_open.
Proof. by intros t. Qed.
Lemma calm_attempt {A} (p : method A) : keeps_calm p -> keeps_calm (m_attempt p).
Proof. intros Hp t. unfold m_attempt. specialize (Hp t). by destruct (p t) as [t' []]. Qed.

Lemma calm_advanced t t' : calm t t' -> advanced t t'.
Proof. intros []. split; [by apply identity_generation|done|done]. Qed.

Lemma past_later (l : list TerminalDelta) n m :
  n <= m -> Forall (fun delta => td_sequence delta <= n) l -> Forall (fun delta => td_sequence delta <= m) l.
Proof. intros Hn Hl. eapply Forall_impl; [exact Hl|]. intros d Hd. cbn in *. lia. Qed.

(** A setter of a field that [calm] does not mention. *)
Ltac calm_setter := intros; split; [reflexivity..|cbn; lia|by intros []|by apply recorded_same].

Lemma calm_projection t v : calm t (set_projection t v).
Proof. calm_setter. Qed.
Lemma calm_lifecycle t v : calm t (set_pending_lifecycle t v).
Proof. calm_setter. Qed.
Lemma calm_exit t v : calm t (set_exit_summary t v).
Proof. calm_setter. Qed.
Lemma calm_truncated t v : calm t (set_truncated t v).
Proof. calm_setter. Qed.
Lemma calm_coalesced t v : calm t (set_output_pressure_coalesced t v).
Proof. calm_setter. Qed.
Lemma calm_spec t v : calm t (set_spec t v).
Proof. calm_setter. Qed.
Lemma calm_view_count t v : calm t (set_view_count t v).
Proof. calm_setter. Qed.
Lemma calm_observed t n :
  calm t (set_observed_output_bytes t (saturating_add (ht_observed_output_bytes t) n)).
Proof.
  split; [reflexivity..|cbn; lia| |by apply recorded_same]. intros []. split; try done. apply saturating_add_bound.
Qed.

Lemma calm_runtime {A} rt (call : runtime -> runtime * A) : keeps_calm (m_runtime rt call).
Proof. intros t. unfold m_runtime. destruct (call rt). apply calm_projection. Qed.
Lemma calm_runtime_try {A} rt (call : runtime -> runtime * result A TerminalError) :
  keeps_calm (m_runtime_try rt call).
Proof. apply calm_bind; [apply calm_runtime|intros; apply calm_lift]. Qed.

Lemma calm_bump : keeps_calm bump_sequence.
Proof.
  intros t. unfold bump_sequence, m_bind, m_get, m_lift, m_set, m_ret. cbn [fst].
  destruct (sequence_next (ht_sequence t)) as [n|e] eqn:En; [|done].
  unfold sequence_next in En. ok_inv.
  match goal with H : checked_add _ _ = Some _ |- _ => apply checked_add_Some in H as [-> Hb] end.
  split; [reflexivity..|cbn; lia| |by apply recorded_same]. intros []. split; try done.
  eapply past_later; [|eassumption]. cbn. lia.
Qed.

(** A delta retained at a sequence just reached, for the screen just remembered. *)
Lemma calm_retained t u delta :
  ht_identity u = ht_identity t -> ht_inputs u = ht_inputs t -> grants u = grants t ->
  ht_deltas u = ht_deltas t -> ht_sequence t < ht_sequence u -> (hosted_bounded t -> hosted_bounded u) ->
  td_sequence delta = ht_sequence u -> td_generation delta = ht_generation t ->
  Forall from_top (td_ops delta) -> moves_shown (last_shown t) (td_ops delta) (last_shown u) ->
  calm t (fst (retain_delta delta u)).
Proof.
  intros Hi Hn Hg Hd Hs Hb Hds Hdg Hf Hm. unfold retain_delta, m_set. cbn [fst]. split; try done.
  - cbn. lia.
  - intros [? ? ? ? ? Hp]%Hb. split; try done; cbn.
    2:{ apply Forall_app. split; [|constructor; [lia|constructor]].
        destruct (MAX_RETAINED_DELTAS <=? count (ht_deltas u)); [|done]. destruct Hp; [constructor|done]. }
    rewrite count_app, count_cons, count_nil. destruct (N.leb_spec MAX_RETAINED_DELTAS (count (ht_deltas u))).
    + destruct (ht_deltas u); cbn [tail]; [done|]. rewrite count_cons in *. lia.
    + unfold MAX_RETAINED_DELTAS in *. lia.
  - exists [delta], (if MAX_RETAINED_DELTAS <=? count (ht_deltas u) then firstn 1 (ht_deltas u) else []).
    split_and!.
    + rewrite <- Hd. cbn. destruct (MAX_RETAINED_DELTAS <=? count (ht_deltas u)); [|done]. by destruct (ht_deltas u).
    + repeat constructor.
    + constructor; [|constructor]. split_and!; try done; cbn; lia.
    + cbn. rewrite app_nil_r. intros copy Hc. by apply Hm.
Qed.

Definition screen_shown (screen : TerminalScreenSnapshot) (title : option text) : Shown :=
  {| sh_rows := rows_from_screen screen; sh_cursor := ss_cursor screen; sh_modes := ss_mode screen;
     sh_title := title |}.

Lemma screen_ops_from_top t screen title : Forall from_top (screen_ops t screen title).
Proof.
  unfold screen_ops. rewrite !Forall_app. split_and!;
    match goal with |- Forall _ (if ?b then _ else _) => destruct b end; repeat constructor.
Qed.

Ltac eq_case x y := let E := fresh "E" in destruct (x =?= y) eqn:E; [rewrite eqb_true in E|].

(** The operations of a delta carry what was recorded to the screen at hand. *)
Lemma screen_ops_move t screen title :
  moves_shown (last_shown t) (screen_ops t screen title) (screen_shown screen title).
Proof.
  intros copy (Hr & Hc & Hm & Ht). unfold screen_ops. rewrite !fold_left_app. cbn in Hr, Hc, Hm, Ht.
  assert (forall l : list text, firstn (length (rows_from_screen screen)) (rows_from_screen screen ++ l)
            = rows_from_screen screen) as Htop by (intros l; apply take_app_length).
  eq_case (rows_from_screen screen) (ht_last_rows t); eq_case (ss_cursor screen) (ht_last_cursor t);
    eq_case (ss_mode screen) (ht_last_modes t); eq_case title (ht_last_title t);
  destruct (ss_display_offset screen =? 0), (ht_truncated t);
  split_and!; cbn; congruence || apply Htop.
Qed.

(** A program that does nothing but call the runtime. *)
Definition only_runtime {A} (p : method A) : Prop := forall t, exists v, fst (p t) = set_projection t v.

Lemma same_projection t : t = set_projection t (ht_projection t).
Proof. by destruct t. Qed.
Lemma only_bind {A B} (p : method A) (k : A -> method B) :
  only_runtime p -> (forall a, only_runtime (k a)) -> only_runtime (m_bind p k).
Proof.
  intros Hp Hk t. unfold m_bind. destruct (Hp t) as [v Hv]. destruct (p t) as [u [a|e]]; cbn in Hv; subst u.
  - destruct (Hk a (set_projection t v)) as [w Hw]. by exists w.
  - by exists v.
Qed.
Lemma only_still {A} (r : HostedTerminal -> result A TerminalError) : only_runtime (fun t => (t, r t)).
Proof. intros t. exists (ht_projection t). apply same_projection. Qed.
Lemma only_call {A} rt (call : runtime -> runtime * A) : only_runtime (m_runtime rt call).
Proof. intros t. unfold m_runtime. destruct (call rt) as [rt' a]. by exists (Attached rt'). Qed.
Lemma only_try {A} rt (call : runtime -> runtime * result A TerminalError) : only_runtime (m_runtime_try rt call).
Proof. apply only_bind; [apply only_call|intros; apply only_still]. Qed.
Lemma only_attempt {A} (p : method A) : only_runtime p -> only_runtime (m_attempt p).
Proof.
  intros Hp t. destruct (Hp t) as [v Hv]. unfold m_attempt. exists v.
  by destruct (p t) as [u [a|e]].
Qed.

Lemma only_screen : only_runtime screen_snapshot.
Proof. apply only_bind; [apply only_still|]. intros [g|rt]; [apply only_still|apply only_call]. Qed.
Lemma only_title : only_runtime current_title.
Proof.
  apply only_bind; [apply only_attempt|intros; apply only_bind; intros; apply only_still].
  apply only_bind; [apply only_still|]. intros projection. apply only_bind.
  - destruct projection; [apply only_still|apply only_try].
  - intros. apply only_bind; intros; apply only_still.
Qed.

Lemma bump_next t u n :
  bump_sequence t = (u, Ok n) -> u = set_sequence t n /\ n = ht_sequence t + 1 /\ n <= u64_max.
Proof.
  unfold bump_sequence, m_bind, m_get, m_lift, m_set, m_ret. destruct (sequence_next (ht_sequence t)) as [m|e] eqn:En; [|done].
  unfold sequence_next in En. ok_inv.
  match goal with H : checked_add _ _ = Some _ |- _ => apply checked_add_Some in H as [-> Hb] end.
  by intros [= <- <-].
Qed.

(** Recording a screen at the sequence just reached. *)
Lemma calm_record_at t id n screen v :
  n = ht_sequence t + 1 -> n <= u64_max ->
  calm t (fst (record_delta_from_screen id n screen (set_projection (set_sequence t n) v))).
Proof.
  intros Hn Hb. unfold record_delta_from_screen. unfold m_bind at 1.
  destruct (only_title (set_projection (set_sequence t n) v)) as [w Hw].
  destruct (current_title (set_projection (set_sequence t n) v)) as [u [title|e]]; cbn [fst] in Hw; subst u.
  2:{ split; [reflexivity..|cbn; lia| |by apply recorded_same]. intros []. split; try done.
      eapply past_later; [|eassumption]. cbn. lia. }
  unfold m_bind at 1. cbn [m_get]. unfold m_bind at 1, remember_screen, m_set at 1.
  assert (is_empty (screen_ops (set_projection (set_projection (set_sequence t n) v) w) screen title) = false) as ->.
  { unfold screen_ops. destruct (ht_truncated _); [done|]. cbn. by rewrite orb_true_r. }
  unfold m_bind. cbn [m_get]. apply calm_retained; try done.
  - cbn. lia.
  - intros []. split; try done. eapply past_later; [|eassumption]. cbn. lia.
  - apply screen_ops_from_top.
  - apply (screen_ops_move t).
Qed.

Lemma calm_recorded_then {A} id (p : method TerminalScreenSnapshot) (k : N -> TerminalScreenSnapshot -> method A) :
  only_runtime p -> (forall n screen, keeps_calm (k n screen)) ->
  keeps_calm (m_bind bump_sequence (fun sequence => m_bind p (fun screen =>
    m_bind (record_delta_from_screen id sequence screen) (fun _ => k sequence screen)))).
Proof.
  intros Hp Hk t. unfold m_bind at 1. pose proof (calm_bump t) as Hc.
  destruct (bump_sequence t) as [u [n|e]] eqn:Hb; [|done]. apply bump_next in Hb as (-> & Hn & Hle).
  unfold m_bind at 1. destruct (Hp (set_sequence t n)) as [v Hv].
  destruct (p (set_sequence t n)) as [u [screen|e]]; cbn [fst] in Hv; subst u.
  2:{ etrans; [exact Hc|apply calm_projection]. }
  pose proof (calm_record_at t id n screen v Hn Hle) as Hr. unfold m_bind.
  destruct (record_delta_from_screen id n screen _) as [u [[]|e]]; [|exact Hr]. etrans; [exact Hr|apply Hk].
Qed.

Lemma calm_recorded_screen id (p : method TerminalScreenSnapshot) :
  only_runtime p ->
  keeps_calm (m_bind bump_sequence (fun sequence => m_bind p (fun screen =>
    record_delta_from_screen id sequence screen))).
Proof.
  intros Hp t. pose proof (calm_recorded_then id p (fun _ _ => m_ret tt) Hp (fun _ _ => calm_ret tt) t) as H.
  revert H. unfold m_bind. destruct (bump_sequence t) as [u [n|e]]; [|done]. destruct (p u) as [u2 [screen|e]]; [|done].
  by destruct (record_delta_from_screen id n screen u2) as [u3 [[]|e]].
Qed.

Lemma calm_take_pending : keeps_calm take_pending_output.
Proof.
  intros t. unfold take_pending_output, pending_take. destruct (pq_coalesced _) eqn:Ec; cbn.
  - split; [reflexivity..|cbn; lia| |by apply recorded_same]. intros []. by split; cbn.
  - split; [reflexivity..|cbn; lia| |by apply recorded_same]. by intros [].
Qed.

End Frames.

Create HintDb calm.
#[export] Hint Resolve calm_ret calm_fail calm_lift calm_get calm_open calm_runtime calm_runtime_try calm_bump
  calm_take_pending calm_projection calm_lifecycle calm_exit calm_truncated calm_coalesced
  calm_spec calm_view_count calm_observed : calm.

(** Follows the program: binds, branches, setters. *)
Ltac calm_step :=
  match goal with
  | |- forall _, _ => intros
  | |- keeps_calm (m_bind bump_sequence _) =>
      first [apply calm_recorded_screen; apply only_screen|apply calm_recorded_then; [apply only_screen|]]
  | |- keeps_calm (m_bind _ _) => apply calm_bind
  | |- keeps_calm (m_set _) => apply calm_set
  | |- keeps_calm (match ?x with _ => _ end) => destruct x
  | |- calm _ (match ?x with _ => _ end) => destruct x
  | |- calm ?t ?t => reflexivity
  | |- _ => solve [eauto with calm nocore]
  end.
Ltac calms := repeat calm_step.

Section Calm.
Context `{RT : AttachedTerminalRuntime} `{FE : !FixtureEmulator}.

Lemma calm_screen_snapshot : keeps_calm screen_snapshot.
Proof. unfold screen_snapshot. calms. Qed.
Lemma calm_session_view : keeps_calm hosted_session_view.
Proof. unfold hosted_session_view. calms. Qed.
Hint Resolve calm_screen_snapshot calm_session_view : calm.

Lemma calm_title : keeps_calm current_title.
Proof. unfold current_title. apply calm_bind; [apply calm_attempt|]; calms. Qed.
Lemma calm_note n : keeps_calm (note_observed_output n).
Proof. unfold note_observed_output. apply calm_set. intros t. etrans; [apply calm_observed|apply calm_truncated]. Qed.
Lemma calm_verify : keeps_calm verify_attachment.
Proof. unfold verify_attachment. calms. Qed.
Lemma calm_settle id events : keeps_calm (settle_events id events).
Proof.
  induction events as [|event events IH]; cbn [settle_events]; [apply calm_ret|].
  apply calm_bind; [apply calm_set; intros; apply calm_exit|]. intros _ t. unfold m_bind at 1.
  pose proof (calm_bump t) as Hc. destruct (bump_sequence t) as [u [n|e]] eqn:Hb; [|done].
  apply bump_next in Hb as (-> & Hn & Hle). unfold m_bind at 1. cbn [m_get]. unfold m_bind.
  match goal with |- context [retain_delta ?d ?u] => assert (calm t (fst (retain_delta d u))) as Hr end.
  { apply calm_retained; try done;
      [cbn; lia|intros []; split; try done; eapply past_later; [|eassumption]; cbn; lia|repeat constructor|by intros copy]. }
  unfold retain_delta, m_set in *. cbn [fst] in *. etrans; [exact Hr|apply IH].
Qed.

Hint Resolve calm_title calm_note calm_verify calm_settle : calm.

Lemma calm_drain_lifecycle id : keeps_calm (drain_lifecycle id).
Proof. unfold drain_lifecycle. calms. Qed.
Lemma calm_enforce screen : keeps_calm (enforce_scrollback_bound_from_screen screen).
Proof.
  unfold enforce_scrollback_bound_from_screen. calms. etrans; [apply calm_projection|apply calm_truncated].
Qed.
Hint Resolve calm_drain_lifecycle calm_enforce : calm.

Lemma calm_record_screen id screen c : keeps_calm (record_screen id screen c).
Proof.
  unfold record_screen. apply calm_bind; [apply calm_enforce|intros _].
  apply calm_bind; [calms|intros _]. intros t. unfold m_bind. pose proof (calm_bump t) as Hc.
  destruct (bump_sequence t) as [u [n|e]] eqn:Hb; [|done]. apply bump_next in Hb as (-> & Hn & Hle).
  rewrite (same_projection (set_sequence t n)). by apply calm_record_at.
Qed.
Hint Resolve calm_record_screen : calm.
Lemma calm_record_notifications id n : keeps_calm (record_notifications id n).
Proof. induction n; cbn; calms. Qed.
Lemma calm_verify_readable : keeps_calm verify_readable.
Proof.
  intros t. unfold verify_readable. pose proof (calm_verify t) as H. destruct (verify_attachment t) as [t' [[]|[]]]; try done.
  by destruct (is_some _).
Qed.
Hint Resolve calm_record_notifications calm_verify_readable : calm.

Lemma calm_drain id : keeps_calm (drain_attached_output id).
Proof. unfold drain_attached_output. calms. Qed.
Hint Resolve calm_drain : calm.

Lemma calm_snapshot id : keeps_calm (hosted_snapshot id).
Proof. unfold hosted_snapshot. calms. Qed.
Hint Resolve calm_snapshot : calm.

(** Replacing what a client has seen keeps its grant. *)
Lemma calm_client t client_id client cursor resized :
  ht_clients t !! client_id = Some client ->
  calm t (set_clients t (<[client_id := {| cv_grant := cv_grant client; cv_cursor := cursor;
                                           cv_resize_sequence := resized |}]> (ht_clients t))).
Proof.
  intros Hc. split; [reflexivity|reflexivity| |cbn; lia|by intros []|by apply recorded_same].
  unfold grants. cbn. rewrite fmap_insert. cbn. apply insert_id. by rewrite lookup_fmap, Hc.
Qed.

Lemma calm_cursor client_id generation sequence : keeps_calm (remember_client_cursor client_id generation sequence).
Proof.
  unfold remember_client_cursor. apply calm_set. intros t.
  destruct (ht_clients t !! client_id) as [client|] eqn:Ec; [by apply calm_client|done].
Qed.
Lemma calm_commit view : keeps_calm (commit_view_sequence view).
Proof.
  unfold commit_view_sequence. apply calm_set. intros t. destruct view as [[client_id view_sequence]|]; [|done].
  destruct (ht_clients t !! client_id) as [client|] eqn:Ec; [by apply calm_client|done].
Qed.
Hint Resolve calm_cursor calm_commit : calm.

Lemma calm_coalesced_snapshot id c g reason clear : keeps_calm (coalesced_snapshot id c g reason clear).
Proof. unfold coalesced_snapshot. calms. Qed.
Hint Resolve calm_coalesced_snapshot : calm.

Lemma calm_updates id c g since : keeps_calm (updates_since id c g since).
Proof. unfold updates_since. calms. Qed.
Lemma calm_resize id size fence : keeps_calm (hosted_resize id size fence).
Proof. unfold hosted_resize. calms. Qed.
Lemma calm_scroll d : keeps_calm (hosted_scroll_lines d).
Proof. unfold hosted_scroll_lines. calms. Qed.
Lemma calm_forward e : keeps_calm (forward_input e).
Proof. unfold forward_input. calms. apply calm_attempt. calms. Qed.
Lemma calm_fixture_bytes id output : keeps_calm (apply_fixture_reader_bytes id output).
Proof. unfold apply_fixture_reader_bytes. calms. Qed.
Hint Resolve calm_updates calm_resize calm_scroll calm_forward calm_fixture_bytes : calm.
End Calm.

#[export] Hint Resolve calm_screen_snapshot calm_session_view calm_title calm_note calm_verify
  calm_settle calm_drain_lifecycle calm_enforce calm_record_screen
  calm_record_notifications calm_verify_readable calm_drain calm_snapshot calm_cursor calm_commit
  calm_coalesced_snapshot calm_updates calm_resize calm_scroll calm_forward calm_fixture_bytes :
  calm.

(** ** Input, teardown and replacement, case by case *)

Section Cases.
Context `{RT : AttachedTerminalRuntime} `{FE : !FixtureEmulator}.

(** An input the terminal takes now, and the sequence it gets. *)
Record input_admissible (t : HostedTerminal) (e : InputEnvelope) (sequence : N) : Prop := {
  ia_open : ht_closed t = false;
  ia_task : ie_task_id e = ht_task_id t;
  ia_session : ie_session_id e = ht_session_id t;
  ia_generation : ie_terminal_generation e = ht_generation t;
  ia_focus : ie_focus_epoch e = ht_focus_epoch t;
  ia_bytes : ie_bytes e <> [];
  ia_size : count (ie_bytes e) <= MAX_INPUT_BYTES;
  ia_new : ht_accepted_input_ids t !! ie_input_id e = None;
  ia_grant : grants t !! ie_client_id e = Some GrantReadWrite;
  ia_ids : msize (ht_accepted_input_ids t) < MAX_TRACKED_INPUT_IDS;
  ia_history : count (ht_accepted_bytes t) + count (ie_bytes e) <= MAX_ACCEPTED_INPUT_HISTORY_BYTES;
  ia_sequence : sequence = ht_accepted_input_sequence t + 1;
  ia_sequence_bound : sequence <= u64_max;
}.

Lemma rejected_Ok {A} c reason (k : result A InputAck) a : rejected c reason k = Ok a <-> c = false /\ k = Ok a.
Proof. destruct c; cbn; naive_solver. Qed.
Lemma rejected_Err {A} c reason (k : result A InputAck) ack :
  rejected c reason k = Err ack <-> c = true /\ ack = AckRejected reason \/ c = false /\ k = Err ack.
Proof. destruct c; cbn; naive_solver. Qed.

Lemma granted t c :
  default GrantReadOnly (cv_grant <$> ht_clients t !! c) = GrantReadWrite
  <-> grants t !! c = Some GrantReadWrite.
Proof.
  unfold grants. rewrite lookup_fmap. destruct (ht_clients t !! c) as [v|]; cbn; [|by split].
  split; [by intros ->|congruence].
Qed.

Lemma input_sequence_for_Ok t e n : input_sequence_for t e = Ok n <-> input_admissible t e n.
Proof.
  unfold input_sequence_for. rewrite !rejected_Ok, !negb_false_iff, !N.eqb_eq, N.ltb_ge.
  assert (is_empty (ie_bytes e) = false <-> ie_bytes e <> []) as Hem by (by destruct (ie_bytes e)).
  rewrite Hem. destruct (ht_accepted_input_ids t !! ie_input_id e) as [m|] eqn:Ei.
  - split; [by intros (_ & _ & _ & _ & _ & _ & _ & ?)|]. intros []. congruence.
  - rewrite !rejected_Ok, negb_false_iff, eqb_true, granted, N.leb_gt.
    destruct (checked_add (count (ht_accepted_bytes t)) _) as [total|] eqn:Et.
    + apply checked_add_Some in Et as [-> Ht]. rewrite rejected_Ok, N.ltb_ge, ok_or_Ok, checked_add_Some.
      split; [intros (? & ? & ? & ? & ? & ? & ? & ? & ? & ? & -> & ?); by split|].
      intros []; subst; by split_and!.
    + apply checked_add_None in Et. split; [by intros (? & ? & ? & ? & ? & ? & ? & ? & ? & ?)|].
      intros []. unfold MAX_ACCEPTED_INPUT_HISTORY_BYTES, u64_max in *. lia.
Qed.

(** What a refused input is told: a repeated one its first sequence. *)
Lemma input_sequence_for_Err t e ack :
  input_sequence_for t e = Err ack ->
  match ack with
  | AckAccepted _ => False
  | AckDuplicate n => ht_accepted_input_ids t !! ie_input_id e = Some n
  | AckRejected _ => True
  end.
Proof.
  unfold input_sequence_for.
  do 7 (intros [[_ ->]|[_ H]]%rejected_Err; [done|revert H]).
  destruct (ht_accepted_input_ids t !! ie_input_id e) as [m|] eqn:Ei; [by intros [= <-]|].
  do 2 (intros [[_ ->]|[_ H]]%rejected_Err; [done|revert H]).
  destruct (checked_add _ _); [|by intros [= <-]].
  intros [[_ ->]|[_ H]]%rejected_Err; [done|]. destruct (checked_add _ _); cbn in H; [done|by injection H as <-].
Qed.

(** The three ways an input ends; only an admissible one reaches the runtime. *)
Lemma hosted_write_cases t e t' ack :
  hosted_write t e = (t', ack) ->
  match ack with
  | AckAccepted n =>
      input_admissible t e n
      /\ exists u, forward_input e t = (u, Ok tt) /\ calm t u /\ t' = accept_input u e n
  | AckDuplicate n => t' = t /\ ht_accepted_input_ids t !! ie_input_id e = Some n
  | AckRejected reason =>
      t' = t \/ exists n error, input_admissible t e n /\ forward_input e t = (t', Err error) /\ calm t t'
                         /\ reason = forward_refusal error
  end.
Proof.
  unfold hosted_write. destruct (input_sequence_for t e) as [n|a] eqn:Es.
  - apply input_sequence_for_Ok in Es. pose proof (calm_forward e t) as Hc.
    destruct (forward_input e t) as [u [[]|error]]; intros [= <- <-]; [split; [done|]; by exists u|].
    right. by exists n, error.
  - intros [= <- <-]. apply input_sequence_for_Err in Es. destruct a; [done|by split|by left].
Qed.

Lemma forwarded_inputs t u e n :
  calm t u -> ht_inputs (accept_input u e n)
              = (n, <[ie_input_id e := n]> (ht_accepted_input_ids t), ht_accepted_bytes t ++ ie_bytes e).
Proof. intros [_ Hi _ _ _]. unfold ht_inputs in Hi. by injection Hi as _ <- <-. Qed.

Lemma hosted_close_cases id reason t t' r :
  hosted_close id reason t = (t', r) ->
  (ht_closed t = true /\ t' = t)
  \/ (ht_closed t = false
      /\ match r with
         | Ok _ => exists u, calm t u /\ t' = set_clients (set_closed u true) ∅
         | Err _ => calm t t'
         end).
Proof.
  unfold hosted_close. unfold m_bind at 1. cbn [m_get fst]. destruct (ht_closed t) eqn:Ec; [intros [= <- <-]; by left|].
  unfold m_bind at 1. cbn [m_get]. unfold m_bind at 1.
  match goal with |- context [match ?p t with _ => _ end] => assert (keeps_calm p) as Hp end.
  { calms. }
  specialize (Hp t). destruct (_ t) as [u [[]|e]]; cbn; intros [= <- <-]; right; split; try done. by exists u.
Qed.

Lemma start_over_inputs t : ht_inputs (start_over t) = (0, ∅, []).
Proof. done. Qed.

(** A replacement that fails has reset nothing; one that succeeds forgets every input. *)
Record replaced (t t' : HostedTerminal) (g : TerminalGeneration) : Prop := {
  rp_open : ht_closed t = false /\ ht_closed t' = false;
  rp_task : ht_task_id t' = ht_task_id t;
  rp_session : ht_session_id t' = ht_session_id t;
  rp_shell : ht_is_plain_shell t' = ht_is_plain_shell t;
  rp_generation : ht_generation t' = g;
  rp_fence : (ht_resource_id t', g) <> (ht_resource_id t, ht_generation t);
  rp_inputs : ht_inputs t' = (0, ∅, []);
  rp_grants : grants t' = grants t;
  rp_fresh : ht_sequence t' = 0 /\ ht_deltas t' = [];
  rp_bounded : hosted_bounded t -> hosted_bounded t';
}.

Lemma start_over_replaced t u g :
  calm t u -> ht_closed t = false ->
  forall v, ht_closed v = ht_closed u -> ht_task_id v = ht_task_id u -> ht_session_id v = ht_session_id u ->
  ht_is_plain_shell v = ht_is_plain_shell u -> ht_clients v = ht_clients u ->
  ht_pending_output v = ht_pending_output u ->
  ht_generation v = g -> (ht_resource_id v, g) <> (ht_resource_id t, ht_generation t) ->
  replaced t (start_over v) g.
Proof.
  intros [Hi _ Hg _ Hb] Hc v Hv1 Hv2 Hv3 Hv4 Hv5 Hv6 Hv7 Hf. unfold ht_identity in Hi.
  injection Hi as H1 H2 H3 H4 H5 H6 H7 H8 H9 H10.
  split; cbn; try done; try congruence.
  - split; congruence.
  - rewrite <- Hg. unfold grants. cbn. rewrite Hv5, <- map_fmap_compose. by apply map_fmap_ext.
  - intros [? ? ? ? ? ?]%Hb. split; cbn; rewrite ?Hv6; try done.
Qed.

(** One step of a program: it goes on, or it ends here with its error. *)
Lemma bind_calm {A B} (p : method A) (k : A -> method B) t t0 t' (r : result B TerminalError) :
  calm t0 t -> keeps_calm p -> m_bind p k t = (t', r) ->
  (exists u a, calm t0 u /\ k a u = (t', r)) \/ (exists e, r = Err e /\ calm t0 t').
Proof.
  intros H0 Hp H. unfold m_bind in H. specialize (Hp t). destruct (p t) as [u [a|e]].
  - left. exists u, a. split; [by etrans|done].
  - injection H as <- <-. right. exists e. split; [done|by etrans].
Qed.

Lemma calm_kept t u :
  calm t u -> ht_resource_id u = ht_resource_id t /\ ht_generation u = ht_generation t /\ ht_closed u = ht_closed t.
Proof. intros [Hi _ _ _ _]. unfold ht_identity in Hi. by injection Hi as _ _ _ _ _ -> -> _ -> _. Qed.

Lemma replaced_remember t u g screen title :
  replaced t u g ->
  replaced t (set_last_title (set_last_modes (set_last_cursor (set_last_rows u (rows_from_screen screen))
                (ss_cursor screen)) (ss_mode screen)) title) g.
Proof. intros []. split; try done. intros [? ? ? ? ? ?]%rp_bounded0. by split. Qed.

Lemma replaced_rebound t u g exit coalesced :
  replaced t u g -> replaced t (set_output_pressure_coalesced (set_exit_summary u exit) coalesced) g.
Proof. intros []. split; try done. intros [? ? ? ? ? ?]%rp_bounded0. by split. Qed.

Lemma rebind_cases id rt t t' r :
  ht_closed t = false -> rebind_runtime id rt t = (t', r) ->
  match r with Ok g => replaced t t' g | Err _ => calm t t' end.
Proof.
  intros Hc H. unfold rebind_runtime in H.
  apply (bind_calm _ _ _ t) in H as [(u & attachment & Hu & H)|(e & -> & ?)]; [|done..|auto with calm].
  unfold m_bind at 1 in H. cbn [m_get] in H. destruct (calm_kept _ _ Hu) as (Hr & Hg & Hcl).
  destruct (_ && _) eqn:Ef; [by injection H as <- <-|].
  assert ((af_resource_id attachment, af_generation attachment) <> (ht_resource_id t, ht_generation t)) as Hfence.
  { intros [= Ha Hb]. rewrite Hr, Hg, Ha, Hb, N.eqb_refl, N.leb_refl in Ef. done. }
  clear Ef Hr Hg Hcl.
  apply (bind_calm _ _ _ t) in H as [(u2 & ? & Hu2 & H)|(e & -> & ?)]; [|done..|auto with calm]. clear u Hu.
  apply (bind_calm _ _ _ t) in H as [(u3 & ? & Hu3 & H)|(e & -> & ?)]; [|done..|auto with calm]. clear u2 Hu2.
  unfold m_bind at 1 in H. cbn [m_get] in H. destruct (ht_projection u3) as [?|rt3]; [by injection H as <- <-|].
  apply (bind_calm _ _ _ t) in H as [(u4 & view & Hu4 & H)|(e & -> & ?)]; [|done..|auto with calm]. clear u3 Hu3.
  unfold m_bind, m_set, m_get, remember_screen in H. injection H as <- <-. apply replaced_remember.
  apply replaced_rebound.
  assert (forall spec, replaced t (start_over (set_generation (set_resource_id (set_spec u4 spec)
            (af_resource_id attachment)) (af_generation attachment))) (af_generation attachment)) as Hs
    by (intros spec; by eapply start_over_replaced).
  destruct (dimensions_size _) as [size|]; [apply Hs|by eapply start_over_replaced].
Qed.

Lemma renew_replaced id next t :
  ht_closed t = false -> next <> ht_generation t -> replaced t (renew_fixture id next t) next.
Proof.
  intros Hc Hn. unfold renew_fixture. eapply (start_over_replaced t t); try done. by intros [= ?].
Qed.

Lemma replaced_projection t u g v : replaced t u g -> replaced t (set_projection u v) g.
Proof. intros []. split; try done. intros [? ? ? ? ? ?]%rp_bounded0. by split. Qed.

Lemma replace_fixture_cases id t t' r :
  ht_closed t = false -> replace_fixture id t = (t', r) ->
  match r with Ok g => replaced t t' g | Err _ => calm t t' end.
Proof.
  intros Hc. unfold replace_fixture, m_bind at 1. cbn [m_get]. unfold m_bind at 1, m_lift.
  destruct (generation_next (ht_generation t)) as [next|e] eqn:En; [|by intros [= <- <-]].
  unfold generation_next in En. ok_inv.
  match goal with E : checked_add _ _ = Some _ |- _ => apply checked_add_Some in E as [-> _] end.
  unfold m_bind at 1. cbn [m_set].
  assert (replaced t (renew_fixture id (ht_generation t + 1) t) (ht_generation t + 1)) as Hr
    by (apply renew_replaced; [done|lia]).
  revert Hr. generalize (renew_fixture id (ht_generation t + 1) t). intros u Hr.
  unfold m_bind at 1, screen_snapshot, m_bind at 1. cbn [m_get].
  destruct (ht_projection u) as [g|rt]; [|unfold m_runtime; destruct (rt_screen_snapshot rt) as [rt' screen]].
  - unfold m_ret, m_bind, remember_screen, m_set, m_get. intros [= <- <-]. by apply replaced_remember.
  - unfold m_ret, m_bind, remember_screen, m_set, m_get. intros [= <- <-].
    by apply replaced_remember, replaced_projection.
Qed.

Lemma hosted_replace_cases id t t' r :
  hosted_replace_generation id t = (t', r) ->
  match r with Ok g => replaced t t' g | Err _ => calm t t' end.
Proof.
  unfold hosted_replace_generation. unfold m_bind at 1, ensure_open.
  destruct (ht_closed t) eqn:Ec; cbn [negb guard]; [by intros [= <- <-]|].
  unfold m_bind at 1. cbn [m_get]. destruct (ht_projection t); [by apply replace_fixture_cases|by apply rebind_cases].
Qed.

(** A report of the reader never overfills the queue. *)
Lemma pending_push_bounded t n :
  hosted_bounded t -> hosted_bounded (set_pending_output t (pending_push (ht_pending_output t) n)).
Proof.
  intros [? Hc Hq ? ? ?]. unfold pending_push. destruct (pq_coalesced _) eqn:Ec; [by split; cbn; auto|].
  destruct (_ || _) eqn:Eb; split; try done; cbn [ht_pending_output set_pending_output pq_chunks].
  apply orb_false_iff in Eb as [Eb _]. apply N.ltb_ge in Eb. rewrite count_app, count_cons, count_nil.
  rewrite saturating_succ in Eb by (unfold MAX_PENDING_OUTPUT_CHUNKS, u64_max in *; lia). lia.
Qed.
End Cases.
