(* ===== verification/TerminalService.v ===== *)
(** The host's terminals ([terminal/service.rs], [TerminalService]): attaching runtimes,
    admitting inputs behind every fence, and the views of a task's terminals.

    The methods hold one lock over the map of terminals for their whole length; a poisoned
    lock, which takes a panic, is not modelled. *)
From S2P Require Import Prelude Order Canonical OperationQueue Query TerminalProtocol Terminal.

(** [HashMap<TerminalId, HostedTerminal>] *)
Notation TerminalService := (gmap TerminalId HostedTerminal) (only parsing).

Section Service.
Context `{RT : AttachedTerminalRuntime} `{FE : !FixtureEmulator}.

Definition service_new : TerminalService := ∅.

(** [HashMap::iter().find(..)]: some terminal that satisfies the predicate. *)
Class TerminalOrder := {
  find_terminal : (HostedTerminal -> bool) -> TerminalService -> option TerminalId;
  find_terminal_spec : forall p s,
    match find_terminal p s with
    | Some id => exists t, s !! id = Some t /\ p t = true
    | None => forall id t, s !! id = Some t -> p t = false
    end;
}.

Notation served A := (TerminalService * result A TerminalError)%type.

(** [get_mut(&id).ok_or(NotFound)?] and a method of the terminal. *)
Definition on_terminal {A} (s : TerminalService) (id : TerminalId) (p : method A) : served A :=
  match s !! id with
  | None => (s, Err TeNotFound)
  | Some t => let '(t, r) := p t in (<[id := t]> s, r)
  end.

(** [get(&id).ok_or(NotFound)?] and a look at the terminal. *)
Definition read_terminal {A} (s : TerminalService) (id : TerminalId) (p : HostedTerminal -> result A TerminalError)
    : result A TerminalError :=
  let? t := ok_or (s !! id) TeNotFound in p t.

Definition read_open {A} (s : TerminalService) (id : TerminalId) (f : HostedTerminal -> A)
    : result A TerminalError :=
  read_terminal s id (fun t => ensure negb (ht_closed t) else TeClosed ;; Ok (f t)).

Local Open Scope method_scope.

Definition when_open {A} (p : method A) : method A := do! ensure_open ;; p.

(** ** Attaching *)

Definition publish (s : TerminalService) (id : TerminalId) (opened : result HostedTerminal TerminalError)
    (taken : HostedTerminal -> bool) : served TerminalId :=
  match opened with
  | Err e => (s, Err e)
  | Ok hosted =>
      if existsb (fun kt => taken (snd kt)) (sorted_entries s) then (s, Err TeInvalidFence)
      else (<[id := hosted]> s, Ok id)
  end.

(** [fresh_id] and [fresh_resource] are the identifiers the call draws. *)
Definition create_fixture (s : TerminalService) (fresh_id : TerminalId) (fresh_resource : ResourceId)
    (owner : TaskId) (spec : TerminalSpec) : served TerminalId :=
  publish s fresh_id
    (let? spec := spec_validated spec in open_fixture owner spec fresh_id fresh_resource)
    (fun _ => false).

Definition attach (s : TerminalService) (fresh_id : TerminalId) (owner : TaskId) (spec : TerminalSpec)
    (rt : runtime) : served TerminalId :=
  publish s fresh_id (let? spec := spec_validated spec in open_attached owner spec rt) (fun _ => false).

Definition with_identity (t : HostedTerminal) (agent_session_id : AgentSessionId)
    (runtime_generation action_epoch : N) : HostedTerminal :=
  set_action_epoch (set_runtime_generation (set_agent_session_id t (Some agent_session_id))
    (Some runtime_generation)) (Some action_epoch).

Definition attach_bound_task_runtime (s : TerminalService) (fresh_id : TerminalId) (owner : TaskId)
    (spec : TerminalSpec) (rt : runtime) (agent_session_id : AgentSessionId)
    (runtime_generation action_epoch : N) : served TerminalId :=
  publish s fresh_id
    (ensure negb ((runtime_generation =? 0) || (action_epoch =? 0)) else TeInvalidFence ;;
     let? spec := spec_validated spec in
     let? hosted := open_attached owner spec rt in
     Ok (with_identity hosted agent_session_id runtime_generation action_epoch))
    (fun current => (ht_task_id current =? owner) && negb (ht_closed current)
                    && negb (ht_is_plain_shell current)).

Definition attach_plain_shell (s : TerminalService) (fresh_id : TerminalId) (owner : TaskId)
    (resource_id : ResourceId) (resource_generation : N) (spec : TerminalSpec) (rt : runtime)
    : served TerminalId :=
  publish s fresh_id
    (let? generation := fence_from_raw resource_generation in
     let '(rt, attachment) := rt_current_attachment_fence rt in
     let? attachment := attachment in
     ensure (af_resource_id attachment =? resource_id) && (af_generation attachment =? generation)
       else TeInvalidFence ;;
     let? spec := spec_validated spec in
     let? hosted := open_attached owner spec rt in
     Ok (set_is_plain_shell hosted true))
    (fun current => (ht_resource_id current =? resource_id) && negb (ht_closed current)).

Definition bind_task_identity (s : TerminalService) (id : TerminalId) (agent_session_id : AgentSessionId)
    (runtime_generation action_epoch : N) : served unit :=
  if (runtime_generation =? 0) || (action_epoch =? 0) then (s, Err TeInvalidFence)
  else on_terminal s id (when_open (
    let! t := m_get (fun t => t) in
    match ht_agent_session_id t, ht_runtime_generation t, ht_action_epoch t with
    | Some agent, Some generation, Some action =>
        m_lift (guard ((agent =? agent_session_id) && (generation =? runtime_generation)
                       && (action =? action_epoch)) TeInvalidFence)
    | None, None, None =>
        m_set (fun t => with_identity t agent_session_id runtime_generation action_epoch)
    | _, _, _ => m_fail TeInvalidFence
    end)).

(** ** Input *)

Definition write_method (envelope : InputEnvelope) : method InputAck := fun t =>
  let '(t, ack) := hosted_write t envelope in (t, Ok ack).

Definition service_write (s : TerminalService) (id : TerminalId) (input : InputEnvelope) : served InputAck :=
  if negb (ie_terminal_id input =? id) then (s, Err TeInvalidFence)
  else on_terminal s id (write_method input).

(** The fences of a request against the terminal it names: a shell has no provider's. *)
Definition request_fences (t : HostedTerminal) (c : TerminalInputContext) : result unit InputRejectReason :=
  ensure tc_task_id c =? ht_task_id t else IrStaleTask ;;
  ensure (if ht_is_plain_shell t then is_plain_shell_fence c
          else ht_agent_session_id t =?= Some (tc_agent_session_id c)) else IrStaleAgent ;;
  ensure ht_resource_id t =? tc_resource_id c else IrStaleResource ;;
  ensure ht_is_plain_shell t || (ht_runtime_generation t =?= Some (tc_runtime_generation c))
    else IrStaleRuntimeGeneration ;;
  ensure (ht_generation t =? tc_terminal_generation c) && (ht_generation t =? tc_resource_generation c)
    else IrStaleGeneration ;;
  ensure ht_session_id t =? tc_session_id c else IrStaleSession ;;
  ensure ht_focus_epoch t =? tc_focus_epoch c else IrStaleFocus ;;
  guard (ht_is_plain_shell t || (ht_action_epoch t =?= Some (tc_action_epoch c))) IrStaleAction.

Definition request_envelope (r : TerminalInputRequest) : InputEnvelope :=
  let c := ti_context r in
  {| ie_client_id := ti_client_id r; ie_input_id := ti_input_id r; ie_task_id := tc_task_id c;
     ie_session_id := tc_session_id c; ie_terminal_id := ti_terminal_id r;
     ie_terminal_generation := tc_terminal_generation c; ie_focus_epoch := tc_focus_epoch c;
     ie_bytes := ti_bytes r |}.

(** A repeated input is answered whatever its sequence. *)
Definition request_in_order (t : HostedTerminal) (r : TerminalInputRequest) : bool :=
  is_some (ht_accepted_input_ids t !! ti_input_id r)
  || (tc_input_sequence (ti_context r) =? saturating_add (ht_accepted_input_sequence t) 1).

Definition write_task_input (s : TerminalService) (r : TerminalInputRequest) : served InputAck :=
  match terminal_input_validate r with
  | Err e => (s, Err e)
  | Ok _ => on_terminal s (ti_terminal_id r) (when_open (fun t =>
      match request_fences t (ti_context r) with
      | Err reason => (t, Ok (AckRejected reason))
      | Ok _ =>
          if negb (request_in_order t r) then (t, Ok (AckRejected IrStaleInputSequence))
          else write_method (request_envelope r) t
      end))
  end.

(** ** Size, views and teardown *)

Definition service_resize (s : TerminalService) (id : TerminalId) (size : TerminalSize)
    (fence : option ResizeFence) : served unit := on_terminal s id (hosted_resize id size fence).

Definition service_snapshot (s : TerminalService) (id : TerminalId) : served TerminalSnapshot :=
  on_terminal s id (when_open (hosted_snapshot id)).

Definition service_close (s : TerminalService) (id fresh_id : TerminalId) (reason : CloseReason)
    : served TeardownReport :=
  let '(s, r) := on_terminal s id (hosted_close fresh_id reason) in
  (s, rmap (fun report =>
         {| tr_terminal_id := id; tr_generation := tr_generation report; tr_closed := tr_closed report;
            tr_explicit := tr_explicit report; tr_reason := tr_reason report |}) r).

Definition disconnect_view (s : TerminalService) (id : TerminalId) (client_id : ClientId) : served unit :=
  on_terminal s id (when_open (m_set (fun t => set_clients t (delete client_id (ht_clients t))))).

Definition grant_client (s : TerminalService) (id : TerminalId) (client_id : ClientId)
    (grant : ClientInputGrant) : served unit :=
  on_terminal s id (when_open (m_set (fun t =>
    set_clients t (<[client_id := {| cv_grant := grant; cv_cursor := None;
                                     cv_resize_sequence := None |}]> (ht_clients t))))).


Inductive ViewKind := ViewRaw | ViewSession.

Record TerminalViewHandle := {
  vh_terminal_id : TerminalId;
  vh_generation : TerminalGeneration;
  vh_kind : ViewKind;
}.

Definition open_view (s : TerminalService) (id : TerminalId) (kind : ViewKind) : served TerminalViewHandle :=
  on_terminal s id (when_open (
    let! views := m_get ht_view_count in
    let! views := m_lift (ok_or (checked_add views 1) TeBoundExceeded) in
    do! m_set (fun t => set_view_count t views) ;;
    m_get (fun t => {| vh_terminal_id := id; vh_generation := ht_generation t; vh_kind := kind |}))).

Definition raw_view (s : TerminalService) (id : TerminalId) : served TerminalScreenSnapshot :=
  on_terminal s id (when_open (do! drain_attached_output id ;; screen_snapshot)).

Definition service_session_view (s : TerminalService) (id : TerminalId) : served (SessionView runtime_rest) :=
  on_terminal s id (when_open (do! drain_attached_output id ;; hosted_session_view)).

Definition admit_reader_bytes (s : TerminalService) (id : TerminalId) (output : list N)
    : served TerminalSequence := on_terminal s id (apply_fixture_reader_bytes id output).

Definition pump_attached_output (s : TerminalService) (id : TerminalId) : served unit :=
  on_terminal s id (when_open (drain_attached_output id)).

Definition service_updates_since (s : TerminalService) (id : TerminalId) (client_id : ClientId)
    (generation : TerminalGeneration) (since : TerminalSequence) : served ReplicaUpdate :=
  on_terminal s id (updates_since id client_id generation since).

Definition service_replace_generation (s : TerminalService) (id : TerminalId) : served TerminalGeneration :=
  on_terminal s id (hosted_replace_generation id).

(** ** Identities *)

Definition set_provider_session (s : TerminalService) (id : TerminalId) (provider : text) : served unit :=
  on_terminal s id (when_open (m_set (fun t =>
    let t := set_provider_session_id t (Some provider) in
    match ht_projection t with
    | Attached _ => t
    | Fixture replica =>
        match grid_view replica with
        | None => t
        | Some view =>
            set_projection t (Fixture (grid_apply_runtime replica
              {| sr_title := sr_title (sv_runtime view); sr_dimensions := sr_dimensions (sv_runtime view);
                 sr_provider_session_id := Some provider; sr_rest := sr_rest (sv_runtime view) |}))
        end
    end))).

Definition retarget_task (s : TerminalService) (id : TerminalId) (task_id : TaskId) : served unit :=
  on_terminal s id (when_open (m_set (fun t => set_task_id t task_id))).

Definition retarget_session (s : TerminalService) (id : TerminalId) (session_id : TerminalSessionId)
    : served unit := on_terminal s id (when_open (m_set (fun t => set_session_id t session_id))).

Definition advance_focus (s : TerminalService) (id : TerminalId) : served TerminalFocusEpoch :=
  on_terminal s id (when_open (
    let! focus := m_get ht_focus_epoch in
    let! next := m_lift (focus_next focus) in
    do! m_set (fun t => set_focus_epoch t next) ;;
    m_ret next)).

(** ** Reads *)

Definition canonical_reader_count (s : TerminalService) id := read_open s id ht_reader_count.
Definition service_view_count (s : TerminalService) id := read_open s id ht_view_count.
Definition current_task (s : TerminalService) id := read_open s id ht_task_id.
Definition current_session (s : TerminalService) id := read_open s id ht_session_id.
Definition current_generation (s : TerminalService) id := read_open s id ht_generation.
Definition current_focus (s : TerminalService) id := read_open s id ht_focus_epoch.
Definition provider_session_of (s : TerminalService) id := read_open s id ht_provider_session_id.
Definition service_fence (s : TerminalService) id := read_open s id (fun t => hosted_fence t id).
Definition is_open (s : TerminalService) id := read_terminal s id (fun t => Ok (negb (ht_closed t))).
Definition service_is_attached (s : TerminalService) id := read_terminal s id (fun t => Ok (is_attached t)).
Definition accepted_input_bytes (s : TerminalService) id := read_terminal s id (fun t => Ok (ht_accepted_bytes t)).
Definition exit_summary_of (s : TerminalService) id := read_terminal s id (fun t => Ok (ht_exit_summary t)).

(** ** The terminals of a task *)

Definition selectable (task_id : TaskId) (resource_id : option ResourceId) (t : HostedTerminal) : bool :=
  (ht_task_id t =? task_id) && negb (ht_closed t)
  && match resource_id with
     | Some id => ht_resource_id t =? id
     | None => negb (ht_is_plain_shell t)
     end.

Definition matching_terminals (s : TerminalService) (task_id : TaskId) (resource_id : option ResourceId)
    : list TerminalId :=
  map fst (List.filter (fun kt => selectable task_id resource_id (snd kt)) (sorted_entries s)).

Definition select_terminal (s : TerminalService) (task_id : TaskId) (resource_id : option ResourceId)
    : result (option TerminalId) TerminalError :=
  match matching_terminals s task_id resource_id with
  | [] => Ok None
  | [one] => Ok (Some one)
  | _ => Err TeInvalidFence
  end.

Record TaskTerminalFence := {
  ttf_terminal_id : TerminalId;
  ttf_resource_id : ResourceId;
  ttf_resource_generation : N;
  ttf_is_provider : bool;
  ttf_agent_session_id : option AgentSessionId;
  ttf_runtime_generation : option N;
  ttf_action_epoch : option N;
}.

Definition task_terminal_fence_for (s : TerminalService) (task_id : TaskId) (resource_id : option ResourceId)
    : result (option TaskTerminalFence) TerminalError :=
  let? selected := select_terminal s task_id resource_id in
  match selected with
  | None => Ok None
  | Some terminal_id =>
      let? t := ok_or (s !! terminal_id) TeNotFound in
      Ok (Some {| ttf_terminal_id := terminal_id; ttf_resource_id := ht_resource_id t;
                  ttf_resource_generation := ht_generation t;
                  ttf_is_provider := negb (ht_is_plain_shell t);
                  ttf_agent_session_id := ht_agent_session_id t;
                  ttf_runtime_generation := ht_runtime_generation t;
                  ttf_action_epoch := ht_action_epoch t |})
  end.

Record TaskTerminalView := {
  ttv_task_id : TaskId;
  ttv_terminal_id : TerminalId;
  ttv_session_id : TerminalSessionId;
  ttv_agent_session_id : option AgentSessionId;
  ttv_runtime_generation : option N;
  ttv_action_epoch : option N;
  ttv_focus_epoch : TerminalFocusEpoch;
  ttv_resource_id : ResourceId;
  ttv_resource_generation : N;
  ttv_accepted_input_sequence : N;
  ttv_sequence : N;
  ttv_is_provider : bool;
  ttv_runtime_state : TerminalRuntimeState;
  ttv_view : SessionView runtime_rest;
}.

(** A provider's terminal stays invisible without its complete durable identity. *)
Definition provider_identity : method unit :=
  let! t := m_get (fun t => t) in
  m_lift (guard (ht_is_plain_shell t
                 || (is_some (ht_agent_session_id t) && is_some (ht_runtime_generation t)
                     && is_some (ht_action_epoch t))) TeInvalidFence).

Definition view_method (task_id : TaskId) (terminal_id : TerminalId) : method TaskTerminalView :=
  do! drain_attached_output terminal_id ;;
  let! sequence := m_get ht_sequence in
  let! _ := (if sequence =? 0 then bump_sequence else m_ret sequence) in
  do! provider_identity ;;
  let! state := m_get runtime_state in
  let! view := hosted_session_view in
  m_get (fun t =>
    {| ttv_task_id := task_id; ttv_terminal_id := terminal_id; ttv_session_id := ht_session_id t;
       ttv_agent_session_id := ht_agent_session_id t; ttv_runtime_generation := ht_runtime_generation t;
       ttv_action_epoch := ht_action_epoch t; ttv_focus_epoch := ht_focus_epoch t;
       ttv_resource_id := ht_resource_id t; ttv_resource_generation := ht_generation t;
       ttv_accepted_input_sequence := ht_accepted_input_sequence t; ttv_sequence := ht_sequence t;
       ttv_is_provider := negb (ht_is_plain_shell t); ttv_runtime_state := state; ttv_view := view |}).

Definition task_terminal_view_for (s : TerminalService) (task_id : TaskId) (resource_id : option ResourceId)
    : served (option TaskTerminalView) :=
  match select_terminal s task_id resource_id with
  | Err e => (s, Err e)
  | Ok None => (s, Ok None)
  | Ok (Some terminal_id) =>
      on_terminal s terminal_id (when_open (
        let! view := view_method task_id terminal_id in m_ret (Some view)))
  end.

(** A method of the one terminal selected, which must exist. *)
Definition on_selected {A} (s : TerminalService) (task_id : TaskId) (resource_id : option ResourceId)
    (p : TerminalId -> method A) : served A :=
  match (let? selected := select_terminal s task_id resource_id in ok_or selected TeNotFound) with
  | Err e => (s, Err e)
  | Ok terminal_id => on_terminal s terminal_id (when_open (p terminal_id))
  end.

Definition scroll_task_terminal_for (s : TerminalService) (task_id : TaskId)
    (resource_id : option ResourceId) (delta_lines : Z) : served unit :=
  on_selected s task_id resource_id (fun terminal_id =>
    do! drain_attached_output terminal_id ;;
    do! hosted_scroll_lines delta_lines ;;
    let! _ := bump_sequence in m_ret tt).

Definition resize_task_terminal_for (s : TerminalService) (task_id : TaskId)
    (resource_id : option ResourceId) (size : TerminalSize) : served unit :=
  on_selected s task_id resource_id (fun terminal_id => hosted_resize terminal_id size None).

Record TerminalRuntimeSummary := {
  rs_resource_id : ResourceId;
  rs_terminal_id : option TerminalId;
  rs_state : TerminalRuntimeState;
  rs_is_provider : bool;
  rs_sequence : N;
}.

(** [sort_by_key(|summary| (!summary.is_provider, summary.resource_id))]; terminals with
    the same key come in the order of the map, here that of their identifiers. *)
Definition summary_cmp (a b : TerminalRuntimeSummary) : comparison :=
  lex_cmp N.compare N.compare (N.b2n (negb (rs_is_provider a)), rs_resource_id a)
    (N.b2n (negb (rs_is_provider b)), rs_resource_id b).

Definition task_terminal_summaries (s : TerminalService) (task_id : TaskId) : list TerminalRuntimeSummary :=
  sort_by summary_cmp
    (map (fun kt => {| rs_resource_id := ht_resource_id (snd kt); rs_terminal_id := Some (fst kt);
                       rs_state := runtime_state (snd kt);
                       rs_is_provider := negb (ht_is_plain_shell (snd kt));
                       rs_sequence := ht_sequence (snd kt) |})
      (List.filter (fun kt => (ht_task_id (snd kt) =? task_id) && negb (ht_closed (snd kt)))
         (sorted_entries s))).

(** ** Shells by their durable resource *)

Context `{TO : !TerminalOrder}.

Definition remove_closed (s : TerminalService) (resource_id : ResourceId) : TerminalService * bool :=
  match find_terminal (fun t => (ht_resource_id t =? resource_id) && ht_closed t) s with
  | None => (s, false)
  | Some terminal_id => (delete terminal_id s, true)
  end.

Definition open_plain_shell_id (s : TerminalService) (resource_id : ResourceId) : option TerminalId :=
  find_terminal (fun t => (ht_resource_id t =? resource_id) && ht_is_plain_shell t && negb (ht_closed t)) s.

Definition shell_output_sequence (s : TerminalService) (resource_id : ResourceId) : served N :=
  match open_plain_shell_id s resource_id with
  | None => (s, Err TeNotFound)
  | Some terminal_id =>
      on_terminal s terminal_id (do! drain_attached_output terminal_id ;; m_get ht_sequence)
  end.

End Service.
