(* ===== verification/TerminalRuns.v ===== *)
(** Runs of the host's terminals: any sequence of calls of [TerminalService], with what
    the readers of the runtimes report between them. *)
From S2P Require Import Prelude Canonical Query TerminalProtocol Terminal TerminalService.

Section Runs.
Context `{RT : AttachedTerminalRuntime} `{FE : !FixtureEmulator} `{TO : !TerminalOrder}.

(** The calls that may change a terminal, and three events that are no calls: a chunk of
    output, a lifecycle event, and a runtime that moves by itself. *)
Inductive terminal_call :=
| TcCreateFixture (fresh_id : TerminalId) (fresh_resource : ResourceId) (owner : TaskId) (spec : TerminalSpec)
| TcAttach (fresh_id : TerminalId) (owner : TaskId) (spec : TerminalSpec) (rt : runtime)
| TcAttachBound (fresh_id : TerminalId) (owner : TaskId) (spec : TerminalSpec) (rt : runtime)
    (agent : AgentSessionId) (generation action : N)
| TcAttachShell (fresh_id : TerminalId) (owner : TaskId) (resource : ResourceId) (generation : N)
    (spec : TerminalSpec) (rt : runtime)
| TcBind (id : TerminalId) (agent : AgentSessionId) (generation action : N)
| TcWrite (id : TerminalId) (input : InputEnvelope)
| TcTaskInput (request : TerminalInputRequest)
| TcResize (id : TerminalId) (size : TerminalSize) (fence : option ResizeFence)
| TcSnapshot (id : TerminalId)
| TcClose (id fresh_id : TerminalId) (reason : CloseReason)
| TcRemoveClosed (resource : ResourceId)
| TcDisconnect (id : TerminalId) (client : ClientId)
| TcGrant (id : TerminalId) (client : ClientId) (grant : ClientInputGrant)
| TcOpenView (id : TerminalId) (kind : ViewKind)
| TcRawView (id : TerminalId)
| TcSessionView (id : TerminalId)
| TcReaderBytes (id : TerminalId) (output : list N)
| TcPump (id : TerminalId)
| TcUpdates (id : TerminalId) (client : ClientId) (generation : TerminalGeneration) (since : TerminalSequence)
| TcReplace (id : TerminalId)
| TcSetProvider (id : TerminalId) (provider : text)
| TcRetargetTask (id : TerminalId) (task : TaskId)
| TcRetargetSession (id : TerminalId) (session : TerminalSessionId)
| TcAdvanceFocus (id : TerminalId)
| TcTaskView (task : TaskId) (resource : option ResourceId)
| TcScroll (task : TaskId) (resource : option ResourceId) (delta_lines : Z)
| TcResizeTask (task : TaskId) (resource : option ResourceId) (size : TerminalSize)
| TcShellSequence (resource : ResourceId)
| TcOutput (id : TerminalId) (chunk : N)
| TcLifecycle (id : TerminalId) (event : TerminalLifecycleEvent)
| TcMoved (id : TerminalId) (rt : runtime).

(** What of an answer the runs below look at. *)
Inductive terminal_outcome :=
| ToAck (r : result InputAck TerminalError)
| ToAttached (r : result TerminalId TerminalError)
| ToReplaced (r : result TerminalGeneration TerminalError)
| ToDone.

Definition acked (r : TerminalService * result InputAck TerminalError) := (fst r, ToAck (snd r)).
Definition attached (r : TerminalService * result TerminalId TerminalError) := (fst r, ToAttached (snd r)).
Definition done_with {A} (r : TerminalService * A) := (fst r, ToDone).

(** An event of the reader reaches the terminal that holds its queue. *)
Definition reported (s : TerminalService) (id : TerminalId) (f : HostedTerminal -> HostedTerminal)
    : TerminalService * terminal_outcome := (alter f id s, ToDone).

Definition terminal_do (s : TerminalService) (call : terminal_call) : TerminalService * terminal_outcome :=
  match call with
  | TcCreateFixture id resource owner spec => attached (create_fixture s id resource owner spec)
  | TcAttach id owner spec rt => attached (attach s id owner spec rt)
  | TcAttachBound id owner spec rt agent generation action =>
      attached (attach_bound_task_runtime s id owner spec rt agent generation action)
  | TcAttachShell id owner resource generation spec rt =>
      attached (attach_plain_shell s id owner resource generation spec rt)
  | TcBind id agent generation action => done_with (bind_task_identity s id agent generation action)
  | TcWrite id input => acked (service_write s id input)
  | TcTaskInput request => acked (write_task_input s request)
  | TcResize id size fence => done_with (service_resize s id size fence)
  | TcSnapshot id => done_with (service_snapshot s id)
  | TcClose id fresh_id reason => done_with (service_close s id fresh_id reason)
  | TcRemoveClosed resource => done_with (remove_closed s resource)
  | TcDisconnect id client => done_with (disconnect_view s id client)
  | TcGrant id client grant => done_with (grant_client s id client grant)
  | TcOpenView id kind => done_with (open_view s id kind)
  | TcRawView id => done_with (raw_view s id)
  | TcSessionView id => done_with (service_session_view s id)
  | TcReaderBytes id output => done_with (admit_reader_bytes s id output)
  | TcPump id => done_with (pump_attached_output s id)
  | TcUpdates id client generation since => done_with (service_updates_since s id client generation since)
  | TcReplace id => let '(s, r) := service_replace_generation s id in (s, ToReplaced r)
  | TcSetProvider id provider => done_with (set_provider_session s id provider)
  | TcRetargetTask id task => done_with (retarget_task s id task)
  | TcRetargetSession id session => done_with (retarget_session s id session)
  | TcAdvanceFocus id => done_with (advance_focus s id)
  | TcTaskView task resource => done_with (task_terminal_view_for s task resource)
  | TcScroll task resource delta_lines => done_with (scroll_task_terminal_for s task resource delta_lines)
  | TcResizeTask task resource size => done_with (resize_task_terminal_for s task resource size)
  | TcShellSequence resource => done_with (shell_output_sequence s resource)
  | TcOutput id chunk =>
      reported s id (fun t => if chunk =? 0 then t
                              else set_pending_output t (pending_push (ht_pending_output t) chunk))
  | TcLifecycle id event =>
      reported s id (fun t => set_pending_lifecycle t (ht_pending_lifecycle t ++ [event]))
  | TcMoved id rt =>
      reported s id (fun t => match ht_projection t with
                              | Attached _ => set_projection t (Attached rt)
                              | Fixture _ => t
                              end)
  end.

Definition terminal_log := list (terminal_call * terminal_outcome).

Definition terminal_run (s : TerminalService) (calls : list terminal_call) : TerminalService * terminal_log :=
  fold_left (fun sl call => let '(s, out) := terminal_do (fst sl) call in (s, snd sl ++ [(call, out)]))
    calls (s, []).

Lemma terminal_run_snoc s calls call :
  terminal_run s (calls ++ [call])
  = let '(s', log) := terminal_run s calls in
    let '(s'', out) := terminal_do s' call in (s'', log ++ [(call, out)]).
Proof. unfold terminal_run. rewrite fold_left_app. cbn. by destruct (fold_left _ calls _). Qed.

(** ** What a call does to one terminal *)

(** Every terminal after the call was there before it and is related to what it was. *)
Definition served_by (R : HostedTerminal -> HostedTerminal -> Prop) (s s' : TerminalService) : Prop :=
  forall id t', s' !! id = Some t' -> exists t, s !! id = Some t /\ R t t'.

Definition method_by (R : HostedTerminal -> HostedTerminal -> Prop) {A} (p : method A) : Prop :=
  forall t, R t (fst (p t)).

Lemma served_same R `{!Reflexive R} s : served_by R s s.
Proof. intros id t Ht. by exists t. Qed.

Lemma on_terminal_by R `{!Reflexive R} {A} s id (p : method A) :
  method_by R p -> served_by R s (fst (on_terminal s id p)).
Proof.
  intros Hp. unfold on_terminal. destruct (s !! id) as [t|] eqn:Ht; [|by apply served_same].
  specialize (Hp t). destruct (p t) as [t1 r]. intros i t'. cbn. rewrite lookup_insert_dec.
  destruct (decide _) as [<-|]; [intros [= <-]; by exists t|]. intros Hi. by exists t'.
Qed.

Lemma when_open_by R `{!Reflexive R} {A} (p : method A) :
  (forall t, ht_closed t = false -> R t (fst (p t))) -> method_by R (when_open p).
Proof.
  intros Hp t. unfold when_open, m_bind, ensure_open. specialize (Hp t).
  destruct (ht_closed t); cbn; auto.
Qed.

Lemma on_selected_by R `{!Reflexive R} {A} s task resource (p : TerminalId -> method A) :
  (forall id t, ht_closed t = false -> R t (fst (p id t))) ->
  served_by R s (fst (on_selected s task resource p)).
Proof.
  intros Hp. unfold on_selected. destruct (rbind _ _) as [id|e]; [|by apply served_same].
  apply on_terminal_by; [done|]. apply when_open_by; [done|]. auto.
Qed.

Lemma alter_by R `{!Reflexive R} s id f : (forall t, R t (f t)) -> served_by R s (fst (reported s id f)).
Proof.
  intros Hf i t'. cbn. destruct (decide (i = id)) as [->|Hne].
  - rewrite lookup_alter_eq. intros (t & Ht & ->)%fmap_Some. by exists t.
  - rewrite lookup_alter_ne by done. intros Ht. by exists t'.
Qed.

Lemma delete_by R `{!Reflexive R} (s : TerminalService) id : served_by R s (delete id s).
Proof. intros i t' [_ Ht]%lookup_delete_Some. by exists t'. Qed.

Lemma remove_closed_by R `{!Reflexive R} s resource : served_by R s (fst (remove_closed s resource)).
Proof.
  unfold remove_closed. destruct (find_terminal _ s); [by apply delete_by|by apply served_same].
Qed.
End Runs.

(** ** Calls that take no input *)

Section Mild.
Context `{RT : AttachedTerminalRuntime} `{FE : !FixtureEmulator} `{TO : !TerminalOrder}.

(** The durable identity of a provider's terminal is complete. *)
Definition identified (t : HostedTerminal) : Prop :=
  is_some (ht_agent_session_id t) && is_some (ht_runtime_generation t) && is_some (ht_action_epoch t) = true.

(** Neither the inputs nor the kind nor the fence of the terminal change; it is not
    reopened, and it changes hands only when [retargets]. *)
Record mild (retargets : bool) (t t' : HostedTerminal) : Prop := {
  mi_inputs : ht_inputs t' = ht_inputs t;
  mi_shell : ht_is_plain_shell t' = ht_is_plain_shell t;
  mi_fence : attachment_fence t' = attachment_fence t;
  mi_closed : ht_closed t = true -> ht_closed t' = true;
  mi_task : retargets = false -> ht_task_id t' = ht_task_id t;
  mi_advanced : advanced t t';
  mi_identified : identified t -> identified t';
  mi_bounded : hosted_bounded t -> hosted_bounded t';
}.

#[local] Instance mild_preorder r : PreOrder (mild r).
Proof.
  split; [by split|]. intros t1 t2 t3 [] []. split; try congruence; auto; [|by etrans]. intros Hr.
  rewrite mi_task1, mi_task0; done.
Qed.

Lemma calm_mild r t t' : calm t t' -> mild r t t'.
Proof.
  intros Hcalm. pose proof (calm_advanced _ _ Hcalm). destruct Hcalm as [Hi Hn _ _ Hb _].
  unfold ht_identity in Hi. injection Hi as H1 H2 H3 H4 H5 H6 H7 H8 H9 H10.
  split; try done; [unfold attachment_fence; congruence|congruence|unfold identified; congruence].
Qed.

Lemma keeps_calm_mild r {A} (p : method A) : keeps_calm p -> method_by (mild r) p.
Proof. intros Hp t. by apply calm_mild. Qed.

(** Setters of the service's own methods. *)
Ltac mild_setter :=
  intros; split; try done; first [by split; [..|apply recorded_same]|intros []; by split].

Lemma mild_identity r t a g c : mild r t (with_identity t a g c).
Proof. mild_setter. Qed.
Lemma mild_task t task : mild true t (set_task_id t task).
Proof. mild_setter. Qed.
Lemma mild_session r t v : mild r t (set_session_id t v).
Proof. mild_setter. Qed.
Lemma mild_focus r t v : mild r t (set_focus_epoch t v).
Proof. mild_setter. Qed.
Lemma mild_clients r t v : mild r t (set_clients t v).
Proof. mild_setter. Qed.
Lemma mild_provider r t v : mild r t (set_provider_session_id t v).
Proof. mild_setter. Qed.
Lemma mild_closing r t v : mild r t (set_clients (set_closed t true) v).
Proof. mild_setter. Qed.
Lemma mild_push r t n : mild r t (set_pending_output t (pending_push (ht_pending_output t) n)).
Proof. split; try done; [by split; [..|apply recorded_same]|apply pending_push_bounded]. Qed.

(** [retargets] of a call. *)
Definition call_retargets (call : terminal_call) : bool :=
  match call with TcRetargetTask _ _ => true | _ => false end.

Definition takes_input (call : terminal_call) : bool :=
  match call with
  | TcCreateFixture _ _ _ _ | TcAttach _ _ _ _ | TcAttachBound _ _ _ _ _ _ _
  | TcAttachShell _ _ _ _ _ _ | TcWrite _ _ | TcTaskInput _ | TcReplace _ => true
  | _ => false
  end.

Lemma mild_method r {A} s id (p : method A) :
  method_by (mild r) p -> served_by (mild r) s (fst (on_terminal s id p)).
Proof. apply on_terminal_by, mild_preorder. Qed.

Lemma mild_open r {A} s id (p : method A) :
  method_by (mild r) p -> served_by (mild r) s (fst (on_terminal s id (when_open p))).
Proof. intros Hp. apply mild_method, when_open_by; [apply mild_preorder|auto]. Qed.

Lemma mild_done r {A} s (x : TerminalService * A) :
  served_by (mild r) s (fst x) -> served_by (mild r) s (fst (done_with x)).
Proof. done. Qed.

Lemma bind_mild r s id a g c : served_by (mild r) s (fst (bind_task_identity s id a g c)).
Proof.
  unfold bind_task_identity. destruct (_ || _); [apply served_same, mild_preorder|]. apply mild_open. intros t.
  unfold m_bind. cbn [m_get fst]. destruct (ht_agent_session_id t), (ht_runtime_generation t), (ht_action_epoch t);
    try (apply mild_preorder). apply mild_identity.
Qed.

Lemma focus_mild r s id : served_by (mild r) s (fst (advance_focus s id)).
Proof.
  apply mild_open. intros t. unfold m_bind, m_get, m_lift, m_set, m_ret.
  destruct (focus_next _); [apply mild_focus|apply mild_preorder].
Qed.

Lemma close_mild r s id fresh reason : served_by (mild r) s (fst (service_close s id fresh reason)).
Proof.
  assert (method_by (mild r) (hosted_close fresh reason)) as Hp.
  { intros t. destruct (hosted_close fresh reason t) as [t' res] eqn:Hc. cbn.
    apply hosted_close_cases in Hc as [[_ ->]|[_ Hc]]; [apply mild_preorder|]. destruct res as [rep|e].
    - destruct Hc as (u & Hu & ->). transitivity u; [by apply calm_mild|apply mild_closing].
    - by apply calm_mild. }
  apply (mild_method r s id) in Hp. unfold service_close. by destruct (on_terminal s id _).
Qed.

Lemma provider_mild r s id v : served_by (mild r) s (fst (set_provider_session s id v)).
Proof.
  apply mild_open. intros t. unfold m_set. cbn [fst].
  assert (mild r t (set_provider_session_id t (Some v))) as H by apply mild_provider.
  revert H. generalize (set_provider_session_id t (Some v)). intros u Hu.
  destruct (ht_projection u) as [g|]; [|done]. destruct (grid_view g); [|done].
  transitivity u; [done|]. apply calm_mild, calm_projection.
Qed.

Lemma calm_view task id : keeps_calm (view_method task id).
Proof. unfold view_method, provider_identity. calms. Qed.

Lemma shell_sequence_mild r s resource : served_by (mild r) s (fst (shell_output_sequence s resource)).
Proof.
  unfold shell_output_sequence. destruct (open_plain_shell_id s resource); [|apply served_same, mild_preorder].
  apply mild_method, keeps_calm_mild. calms.
Qed.

Lemma task_view_mild r s task resource : served_by (mild r) s (fst (task_terminal_view_for s task resource)).
Proof.
  unfold task_terminal_view_for. destruct (select_terminal _ _ _) as [[id|]|e]; try apply served_same, mild_preorder.
  apply mild_open, keeps_calm_mild. apply calm_bind; [apply calm_view|intros; apply calm_ret].
Qed.

Lemma selected_mild r {A} s task resource (p : TerminalId -> method A) :
  (forall id, keeps_calm (p id)) -> served_by (mild r) s (fst (on_selected s task resource p)).
Proof. intros Hp. apply on_selected_by; [apply mild_preorder|]. intros id t _. by apply keeps_calm_mild. Qed.

(** Every call but attaching, writing and replacing is mild. *)
Lemma mild_call s call :
  takes_input call = false -> served_by (mild (call_retargets call)) s (fst (terminal_do s call)).
Proof.
  intros Hn. destruct call; try discriminate Hn; cbn [terminal_do call_retargets]; try apply mild_done;
    try (by apply mild_method, keeps_calm_mild; auto with calm);
    try (by apply mild_open, keeps_calm_mild; calms).
  - apply bind_mild.
  - apply close_mild.
  - apply remove_closed_by, mild_preorder.
  - apply mild_open. intros t. apply mild_clients.
  - apply mild_open. intros t. apply mild_clients.
  - apply provider_mild.
  - apply mild_open. intros t. apply mild_task.
  - apply mild_open. intros t. apply mild_session.
  - apply focus_mild.
  - apply task_view_mild.
  - apply selected_mild. intros id. calms.
  - apply selected_mild. intros id. calms.
  - apply shell_sequence_mild.
  - apply alter_by; [apply mild_preorder|]. intros t. destruct (_ =? 0); [apply mild_preorder|apply mild_push].
  - apply alter_by; [apply mild_preorder|]. intros t. apply calm_mild, calm_lifecycle.
  - apply alter_by; [apply mild_preorder|]. intros t. destruct (ht_projection t); [apply mild_preorder|].
    apply calm_mild, calm_projection.
Qed.
End Mild.

(** ** Inputs *)

Section Inputs.
Context `{RT : AttachedTerminalRuntime} `{FE : !FixtureEmulator} `{TO : !TerminalOrder}.

(** The attached runtime still presents the terminal's fence and takes the bytes. *)
Definition runtime_takes (t : HostedTerminal) (input : list N) : Prop :=
  match ht_projection t with
  | Fixture _ => True
  | Attached rt =>
      let '(rt, current) := rt_current_attachment_fence rt in
      current = Ok (attachment_fence t)
      /\ snd (rt_write_bytes rt input (attachment_fence t)) = Ok tt
  end.

Lemma forward_input_takes t e : snd (forward_input e t) = Ok tt <-> runtime_takes t (ie_bytes e).
Proof.
  unfold forward_input, verify_attachment, runtime_takes, is_attached.
  unfold m_bind, m_get, m_ret, m_fail, m_lift. cbn [negb]. destruct (ht_projection t) as [g|rt] eqn:Ep; cbn [negb].
  - done.
  - rewrite Ep. unfold m_runtime. destruct (rt_current_attachment_fence rt) as [rt1 [current|e1]] eqn:Ec; [|by cbn; split; [|intros []]].
    change (attachment_fence (set_projection t (Attached rt1))) with (attachment_fence t).
    destruct (current =?= attachment_fence t) eqn:Ef; cbn [guard].
    + apply eqb_true in Ef as ->. change (ht_projection (set_projection t (Attached rt1))) with (Attached rt1).
      cbv iota. unfold m_attempt, m_runtime_try, m_bind, m_runtime, m_lift.
      change (attachment_fence (set_projection t (Attached rt1))) with (attachment_fence t).
      destruct (rt_write_bytes rt1 (ie_bytes e) (attachment_fence t)) as [rt2 [[]|e2]]; cbn; naive_solver.
    + apply eqb_false in Ef. cbn. split; [done|]. intros [[=] _]. by subst.
Qed.

(** The fences of a request that names exactly this terminal. *)
Definition exact_fences (t : HostedTerminal) (c : TerminalInputContext) : Prop :=
  tc_task_id c = ht_task_id t /\ tc_resource_id c = ht_resource_id t
  /\ tc_terminal_generation c = ht_generation t /\ tc_resource_generation c = ht_generation t
  /\ tc_session_id c = ht_session_id t /\ tc_focus_epoch c = ht_focus_epoch t
  /\ if ht_is_plain_shell t then is_plain_shell_fence c = true
     else ht_agent_session_id t = Some (tc_agent_session_id c)
          /\ ht_runtime_generation t = Some (tc_runtime_generation c)
          /\ ht_action_epoch t = Some (tc_action_epoch c).

Lemma ensure_Ok {A E} c (e : E) (k : result A E) a : (ensure c else e ;; k) = Ok a <-> c = true /\ k = Ok a.
Proof. destruct c; cbn; naive_solver. Qed.

Lemma request_fences_Ok t c : request_fences t c = Ok tt <-> exact_fences t c.
Proof.
  unfold request_fences, exact_fences. rewrite !ensure_Ok, guard_Ok, !andb_true_iff, !N.eqb_eq.
  destruct (ht_is_plain_shell t); cbn [orb]; rewrite ?eqb_true; intuition congruence.
Qed.

(** Where a request comes to: the terminal it names, its answer, the terminal it leaves. *)
Definition request_answered (t : HostedTerminal) (r : TerminalInputRequest) (t' : HostedTerminal)
    (ack : InputAck) : Prop :=
  match ack with
  | AckAccepted n =>
      exact_fences t (ti_context r) /\ input_admissible t (request_envelope r) n
      /\ n = tc_input_sequence (ti_context r) /\ runtime_takes t (ti_bytes r)
      /\ exists u, calm t u /\ t' = accept_input u (request_envelope r) n
  | AckDuplicate n => t' = t /\ exact_fences t (ti_context r) /\ ht_accepted_input_ids t !! ti_input_id r = Some n
  | AckRejected _ =>
      t' = t \/ (exists n, exact_fences t (ti_context r) /\ input_admissible t (request_envelope r) n)
               /\ ~ runtime_takes t (ti_bytes r) /\ calm t t'
  end.

Lemma write_method_answer t e t' ack :
  hosted_write t e = (t', ack) ->
  match ack with
  | AckAccepted n => input_admissible t e n /\ runtime_takes t (ie_bytes e)
                     /\ exists u, calm t u /\ t' = accept_input u e n
  | AckDuplicate n => t' = t /\ ht_accepted_input_ids t !! ie_input_id e = Some n
  | AckRejected _ => t' = t \/ (exists n, input_admissible t e n) /\ ~ runtime_takes t (ie_bytes e) /\ calm t t'
  end.
Proof.
  intros H. apply hosted_write_cases in H. destruct ack as [n|n|reason].
  - destruct H as (Ha & u & Hf & Hc & ->). split_and!; [done| |by exists u].
    apply forward_input_takes. by rewrite Hf.
  - done.
  - destruct H as [->|(n & error & Ha & Hf & Hc & _)]; [by left|]. right. split_and!; [by exists n| |done].
    rewrite <- forward_input_takes, Hf. done.
Qed.

Lemma write_task_input_answer s r s' res :
  write_task_input s r = (s', res) ->
  match res with
  | Err _ => s' = s /\ (terminal_input_validate r <> Ok tt \/ s !! ti_terminal_id r = None
                       \/ exists t, s !! ti_terminal_id r = Some t /\ ht_closed t = true)
  | Ok ack => terminal_input_validate r = Ok tt
              /\ exists t t', s !! ti_terminal_id r = Some t /\ s' = <[ti_terminal_id r := t']> s
                        /\ ht_closed t = false /\ request_answered t r t' ack
  end.
Proof.
  unfold write_task_input. destruct (terminal_input_validate r) as [[]|e] eqn:Ev; [|intros [= <- <-]; by auto].
  unfold on_terminal. destruct (s !! ti_terminal_id r) as [t|] eqn:Ht; [|intros [= <- <-]; by auto].
  unfold when_open, m_bind, ensure_open. destruct (ht_closed t) eqn:Ec; cbn [negb guard].
  { intros [= <- <-]. split; [by apply insert_id|]. right. right. by exists t. }
  destruct (request_fences t (ti_context r)) as [[]|reason] eqn:Ef.
  2:{ intros [= <- <-]. split; [done|]. exists t, t. split_and!; try done. by left. }
  apply request_fences_Ok in Ef.
  destruct (request_in_order t r) eqn:Eo; cbn [negb].
  2:{ intros [= <- <-]. split; [done|]. exists t, t. split_and!; try done. by left. }
  unfold write_method. destruct (hosted_write t (request_envelope r)) as [t' ack] eqn:Hw. intros [= <- <-].
  split; [done|]. exists t, t'. split_and!; try done. apply write_method_answer in Hw. destruct ack as [n|n|reason].
  - destruct Hw as (Ha & Hr & Hu). split_and!; try done.
    unfold request_in_order in Eo. destruct Ha as [? ? ? ? ? ? ? Hnew ? ? ? -> Hb]. cbn in Hnew. rewrite Hnew in Eo. cbn in Eo.
    apply N.eqb_eq in Eo. rewrite saturating_succ in Eo; [done|lia].
  - by destruct Hw.
  - destruct Hw as [->|((n & Ha) & Hr & Hc)]; [by left|]. right. split_and!; [by exists n|done|done].
Qed.
End Inputs.

(** ** The inputs of a run *)

Section Ledger.
Context `{RT : AttachedTerminalRuntime} `{FE : !FixtureEmulator} `{TO : !TerminalOrder}.

(** What an exchange means for the inputs of terminal [id]. *)
Inductive input_effect := InputsKept | InputTaken (e : InputEnvelope) | InputsForgotten.

Definition effect_on (id : TerminalId) (exchange : terminal_call * terminal_outcome) : input_effect :=
  match exchange with
  | (TcWrite i e, ToAck (Ok (AckAccepted _))) => if i =? id then InputTaken e else InputsKept
  | (TcTaskInput r, ToAck (Ok (AckAccepted _))) =>
      if ti_terminal_id r =? id then InputTaken (request_envelope r) else InputsKept
  | (TcReplace i, ToReplaced (Ok _)) => if i =? id then InputsForgotten else InputsKept
  | (_, ToAttached (Ok i)) => if i =? id then InputsForgotten else InputsKept
  | _ => InputsKept
  end.

(** The inputs taken by [id] since it was attached or its generation was last replaced. *)
Definition inputs_since (id : TerminalId) (log : terminal_log) : list InputEnvelope :=
  fold_left (fun taken exchange =>
    match effect_on id exchange with
    | InputsKept => taken
    | InputTaken e => taken ++ [e]
    | InputsForgotten => []
    end) log [].

Lemma inputs_since_snoc id log x :
  inputs_since id (log ++ [x])
  = match effect_on id x with
    | InputsKept => inputs_since id log
    | InputTaken e => inputs_since id log ++ [e]
    | InputsForgotten => []
    end.
Proof. unfold inputs_since. by rewrite fold_left_app. Qed.

Definition fresh_inputs (t : HostedTerminal) : Prop := ht_inputs t = (0, ∅, []) /\ hosted_bounded t.

Lemma opened_fresh task spec resource generation projection screen title :
  fresh_inputs (opened task spec resource generation projection screen title).
Proof. split; [done|]. by split. Qed.

Lemma open_attached_fresh task spec rt t : open_attached task spec rt = Ok t -> fresh_inputs t.
Proof.
  unfold open_attached. intros (sp & _ & H)%rbind_Ok. destruct (rt_current_attachment_fence rt) as [rt1 a].
  apply rbind_Ok in H as (fence & _ & H). destruct (rt_screen_snapshot _) as [rt2 screen].
  destruct (rt_session_view rt2) as [rt3 view]. destruct (rt_install_output_sink rt3) as [rt4 i].
  apply rbind_Ok in H as (_ & _ & H). destruct (rt_install_lifecycle_sink rt4) as [rt5 i2].
  apply rbind_Ok in H as (_ & _ & [= <-]). apply opened_fresh.
Qed.

Lemma publish_cases s id opened taken s' r :
  publish s id opened taken = (s', r) ->
  (exists t, opened = Ok t /\ r = Ok id /\ s' = <[id := t]> s /\ forall i u, s !! i = Some u -> taken u = false)
  \/ (exists e, r = Err e /\ s' = s).
Proof.
  unfold publish. destruct opened as [t|e]; [|intros [= <- <-]; right; by exists e].
  destruct (existsb _ _) eqn:Ex; intros [= <- <-]; [right; by eexists|]. left. exists t. split_and!; try done.
  intros i u Hu. destruct (taken u) eqn:Eu; [|done]. exfalso. apply not_true_iff_false in Ex. apply Ex.
  apply existsb_exists. exists (i, u). split; [|done]. by apply list_elem_of_In, elem_of_sorted_entries.
Qed.

(** A successful attachment starts with no input. *)
Lemma attach_fresh s call id s' :
  terminal_do s call = (s', ToAttached (Ok id)) ->
  exists t, s' = <[id := t]> s /\ fresh_inputs t.
Proof.
  assert (forall i opened taken, (forall t, opened = Ok t -> fresh_inputs t) ->
            attached (publish s i opened taken) = (s', ToAttached (Ok id)) ->
            exists t, s' = <[id := t]> s /\ fresh_inputs t) as Hp.
  { intros i opened taken Hf. unfold attached. destruct (publish s i opened taken) as [s1 r] eqn:Hp.
    cbn. intros [= <- ->]. apply publish_cases in Hp as [(t & Ho & [= <-] & -> & _)|(e & [=] & _)]. exists t. auto. }
  destruct call; cbn [terminal_do]; unfold acked, done_with, reported; try (by intros [=]); try apply Hp.
  - intros t (sp & _ & (sp' & _ & [= <-])%rbind_Ok)%rbind_Ok. apply opened_fresh.
  - intros t (sp & _ & H)%rbind_Ok. by apply open_attached_fresh in H.
  - intros t (_ & _ & (sp & _ & (t0 & H & [= <-])%rbind_Ok)%rbind_Ok)%rbind_Ok.
    apply open_attached_fresh in H as [Hi []]. by split.
  - intros t (g & _ & H)%rbind_Ok. destruct (rt_current_attachment_fence rt) as [rt1 a].
    apply rbind_Ok in H as (fence & _ & (_ & _ & (sp & _ & (t0 & H & [= <-])%rbind_Ok)%rbind_Ok)%rbind_Ok).
    apply open_attached_fresh in H as [Hi []]. by split.
  - by destruct (service_replace_generation s id0).
Qed.
End Ledger.

Section Accepted.
Context `{RT : AttachedTerminalRuntime} `{FE : !FixtureEmulator} `{TO : !TerminalOrder}.

(** A terminal before and after one exchange, as far as its inputs go. *)
Definition inputs_moved (effect : input_effect) (before : option HostedTerminal) (t' : HostedTerminal) : Prop :=
  ((forall t, before = Some t -> hosted_bounded t) -> hosted_bounded t')
  /\ match effect with
     | InputsKept => exists t, before = Some t /\ ht_inputs t' = ht_inputs t /\ advanced t t'
     | InputTaken e =>
         exists t n, before = Some t /\ input_admissible t e n /\ advanced t t'
           /\ ht_inputs t' = (n, <[ie_input_id e := n]> (ht_accepted_input_ids t),
                              ht_accepted_bytes t ++ ie_bytes e)
     | InputsForgotten => ht_inputs t' = (0, ∅, [])
     end.

Lemma same_inputs t : inputs_moved InputsKept (Some t) t.
Proof. split; [auto|]. by exists t. Qed.

Lemma calm_moved t t' : calm t t' -> inputs_moved InputsKept (Some t) t'.
Proof.
  intros Hc. pose proof (calm_advanced _ _ Hc). destruct Hc as [_ Hi _ _ Hb _]. split; [auto|]. by exists t.
Qed.

Lemma served_moved r s s' id t' :
  served_by (mild r) s s' -> s' !! id = Some t' -> inputs_moved InputsKept (s !! id) t'.
Proof.
  intros Hs Ht'. destruct (Hs _ _ Ht') as (t & Ht & [Hi _ _ _ _ Hb]). rewrite Ht. split; [auto|]. by exists t.
Qed.

Lemma taken_moved t u e n :
  input_admissible t e n -> calm t u -> inputs_moved (InputTaken e) (Some t) (accept_input u e n).
Proof.
  intros Ha Hc. split.
  - intros Hb. destruct (calm_bounded _ _ Hc (Hb _ eq_refl)). by split.
  - exists t, n. split_and!; [done|done| |by apply forwarded_inputs].
    apply calm_advanced in Hc as [? ? ?]. by split.
Qed.

Lemma write_moved s i e s' ack :
  on_terminal s i (write_method e) = (s', Ok ack) ->
  forall id t', s' !! id = Some t' ->
  inputs_moved (match ack with AckAccepted _ => if i =? id then InputTaken e else InputsKept
                | _ => InputsKept end) (s !! id) t'.
Proof.
  unfold on_terminal, write_method. destruct (s !! i) as [t|] eqn:Ht; [|done].
  destruct (hosted_write t e) as [u a] eqn:Hw. intros [= <- <-] id t'. rewrite lookup_insert_dec.
  apply write_method_answer in Hw. destruct (N.eqb_spec i id) as [<-|Hne].
  - rewrite decide_True by done. intros [= <-]. rewrite Ht. destruct a as [n|n|reason].
    + destruct Hw as (Ha & _ & v & Hc & ->). by apply taken_moved.
    + destruct Hw as [-> _]. apply same_inputs.
    + destruct Hw as [->|(_ & _ & Hc)]; [apply same_inputs|by apply calm_moved].
  - rewrite decide_False by done. intros Hi. rewrite Hi. destruct a; apply same_inputs.
Qed.

Lemma task_input_moved s r s' res :
  write_task_input s r = (s', res) ->
  forall id t', s' !! id = Some t' -> inputs_moved (effect_on id (TcTaskInput r, ToAck res)) (s !! id) t'.
Proof.
  intros H id t' Ht'. apply write_task_input_answer in H. destruct res as [ack|e].
  2:{ destruct H as [-> _]. rewrite Ht'. apply same_inputs. }
  destruct H as (_ & t & u & Ht & -> & _ & Ha). rewrite lookup_insert_dec in Ht'. cbn [effect_on].
  destruct (N.eqb_spec (ti_terminal_id r) id) as [<-|Hne].
  - rewrite decide_True in Ht' by done. injection Ht' as <-. rewrite Ht. destruct ack as [n|n|reason].
    + destruct Ha as (_ & Ha & _ & _ & v & Hc & ->). by apply taken_moved.
    + destruct Ha as [-> _]. apply same_inputs.
    + destruct Ha as [->|(_ & _ & Hc)]; [apply same_inputs|by apply calm_moved].
  - rewrite decide_False in Ht' by done. rewrite Ht'. destruct ack; apply same_inputs.
Qed.

Lemma replace_moved s i s' res :
  service_replace_generation s i = (s', res) ->
  forall id t', s' !! id = Some t' -> inputs_moved (effect_on id (TcReplace i, ToReplaced res)) (s !! id) t'.
Proof.
  unfold service_replace_generation, on_terminal. destruct (s !! i) as [t|] eqn:Ht.
  2:{ intros [= <- <-] id t' Ht'. rewrite Ht'. apply same_inputs. }
  destruct (hosted_replace_generation i t) as [u r] eqn:Hr. intros [= <- <-] id t'. rewrite lookup_insert_dec.
  apply hosted_replace_cases in Hr. cbn [effect_on]. destruct (N.eqb_spec i id) as [<-|Hne].
  - rewrite decide_True by done. intros [= <-]. rewrite Ht. destruct r as [g|e]; [|by apply calm_moved].
    destruct Hr as [_ _ _ _ _ _ Hi _ _ Hb]. split; [auto|done].
  - rewrite decide_False by done. intros Hi. rewrite Hi. destruct r; apply same_inputs.
Qed.

Lemma attach_moved s call s' r :
  terminal_do s call = (s', ToAttached r) ->
  forall id t', s' !! id = Some t' -> inputs_moved (effect_on id (call, ToAttached r)) (s !! id) t'.
Proof.
  intros H id t' Ht'.
  assert (effect_on id (call, ToAttached r)
          = match r with Ok i => if i =? id then InputsForgotten else InputsKept | Err _ => InputsKept end) as ->
    by (destruct call, r; try reflexivity; by destruct (_ =? _)).
  destruct r as [i|e].
  - apply attach_fresh in H as (t & -> & Hi & Hb). rewrite lookup_insert_dec in Ht'.
    destruct (N.eqb_spec i id) as [<-|Hne].
    + rewrite decide_True in Ht' by done. injection Ht' as <-. by split.
    + rewrite decide_False in Ht' by done. rewrite Ht'. apply same_inputs.
  - assert (s' = s) as ->; [|rewrite Ht'; apply same_inputs].
    destruct call; cbn [terminal_do] in H; unfold acked, done_with, reported in H; try by inversion H;
      try (by destruct (service_replace_generation s id0)); revert H; unfold attached;
      match goal with |- context [fst ?x] => destruct x as [s1 r1] eqn:Hp end; cbn; intros [= <- ->];
      apply publish_cases in Hp as [(? & _ & [=] & _)|(? & _ & ->)]; done.
Qed.
End Accepted.

Section Runs_Inputs.
Context `{RT : AttachedTerminalRuntime} `{FE : !FixtureEmulator} `{TO : !TerminalOrder}.

Lemma call_moved s call s' out :
  terminal_do s call = (s', out) ->
  forall id t', s' !! id = Some t' -> inputs_moved (effect_on id (call, out)) (s !! id) t'.
Proof.
  intros H id t' Ht'. destruct (takes_input call) eqn:Et.
  - destruct out as [r|r|r|]; [|by eapply attach_moved| |].
    + destruct call; try discriminate Et; cbn [terminal_do] in H; unfold attached in H; try by inversion H;
        try by destruct (service_replace_generation s _).
      * unfold acked in H. destruct (service_write s id0 input) as [s1 r1] eqn:Hw. cbn in H. injection H as <- <-.
        unfold service_write in Hw. destruct (negb _); [injection Hw as <- <-; rewrite Ht'; apply same_inputs|].
        destruct r1 as [ack|e]; [eapply write_moved in Hw; [|done]; by destruct ack|].
        unfold on_terminal, write_method in Hw. destruct (s !! id0); [|injection Hw as <- _; rewrite Ht'; apply same_inputs].
        by destruct (hosted_write _ _).
      * unfold acked in H. destruct (write_task_input s request) as [s1 r1] eqn:Hw. cbn in H. injection H as <- <-.
        by eapply task_input_moved.
    + destruct call; try discriminate Et; cbn [terminal_do] in H; unfold attached, acked in H; try by inversion H.
      destruct (service_replace_generation s id0) as [s1 r1] eqn:Hr. injection H as <- <-. by eapply replace_moved.
    + exfalso. destruct call; try discriminate Et; cbn [terminal_do] in H; unfold attached, acked in H; try by inversion H.
      by destruct (service_replace_generation s id0).
  - pose proof (mild_call s call Et) as Hm. rewrite H in Hm. cbn [fst] in Hm.
    assert (effect_on id (call, out) = InputsKept) as ->; [|by eapply served_moved].
    destruct call; try discriminate Et; try reflexivity;
      cbn [terminal_do] in H; unfold done_with, reported in H; by injection H as _ <-.
Qed.

(** The terminal's account of its inputs agrees with the list taken. *)
Record inputs_ok (t : HostedTerminal) (taken : list InputEnvelope) : Prop := {
  io_count : ht_accepted_input_sequence t = count taken;
  io_bytes : ht_accepted_bytes t = concat (map ie_bytes taken);
  io_once : NoDup (map ie_input_id taken);
  io_ids : forall i n, ht_accepted_input_ids t !! i = Some n
                       <-> exists k e, taken !! k = Some e /\ ie_input_id e = i /\ n = N.of_nat k + 1;
  io_size : msize (ht_accepted_input_ids t) = count taken;
  io_ids_bound : count taken <= MAX_TRACKED_INPUT_IDS;
  io_bytes_bound : count (ht_accepted_bytes t) <= MAX_ACCEPTED_INPUT_HISTORY_BYTES;
}.

Lemma inputs_ok_same t t' taken : ht_inputs t' = ht_inputs t -> inputs_ok t taken -> inputs_ok t' taken.
Proof. unfold ht_inputs. intros [= H1 H2 H3] []. split; by rewrite ?H1, ?H2, ?H3. Qed.

Lemma inputs_ok_fresh t : ht_inputs t = (0, ∅, []) -> inputs_ok t [].
Proof.
  unfold ht_inputs. intros [= H1 H2 H3]. split; rewrite ?H1, ?H2, ?H3; try done; [constructor|..].
  - intros i n. rewrite lookup_empty. split; [done|]. by intros (k & e & Hk & _).
Qed.

Lemma inputs_ok_taken t e n t' taken :
  inputs_ok t taken -> input_admissible t e n ->
  ht_inputs t' = (n, <[ie_input_id e := n]> (ht_accepted_input_ids t), ht_accepted_bytes t ++ ie_bytes e) ->
  inputs_ok t' (taken ++ [e]).
Proof.
  intros [Hc Hb Ho Hi Hs Hib Hbb] [? ? ? ? ? ? ? Hnew ? Hids Hhist Hseq ?] Ht'. unfold ht_inputs in Ht'.
  injection Ht' as H1 H2 H3. split; rewrite ?H1, ?H2, ?H3.
  - rewrite count_app, count_cons, count_nil. lia.
  - rewrite map_app, concat_app, Hb. cbn. by rewrite app_nil_r.
  - rewrite map_app. apply NoDup_app. split_and!; [done| |by apply NoDup_singleton].
    intros i Hin Hi1. apply list_elem_of_singleton in Hi1 as ->.
    apply list_elem_of_In, in_map_iff in Hin as (x & Hx & Hin%list_elem_of_In). apply list_elem_of_lookup in Hin as [k Hk].
    assert (ht_accepted_input_ids t !! ie_input_id e = Some (N.of_nat k + 1)) by (apply Hi; by exists k, x).
    congruence.
  - intros i m. rewrite lookup_insert_dec. destruct (decide _) as [->|Hne].
    + split.
      * intros [= <-]. exists (length taken), e. rewrite lookup_app_r, Nat.sub_diag by done.
        split_and!; [done|done|]. rewrite Hseq, Hc. unfold count. lia.
      * intros (k & x & Hk & Hx & ->). apply lookup_app_Some in Hk as [Hk|[Hk Hx1]].
        -- assert (ht_accepted_input_ids t !! ie_input_id e = Some (N.of_nat k + 1)) by (apply Hi; by exists k, x).
           congruence.
        -- apply list_lookup_singleton_Some in Hx1 as [Hk0 <-]. f_equal. rewrite Hseq, Hc. unfold count. lia.
    + rewrite Hi. split; intros (k & x & Hk & Hx & ->); exists k, x; (split; [|done]).
      * by apply lookup_app_l_Some.
      * apply lookup_app_Some in Hk as [Hk|[_ Hx1]]; [done|].
        apply list_lookup_singleton_Some in Hx1 as [_ <-]. congruence.
  - rewrite msize_insert_None by done. rewrite Hs, count_app, count_cons, count_nil. lia.
  - rewrite count_app, count_cons, count_nil. lia.
  - rewrite count_app. lia.
Qed.

Lemma run_inputs calls :
  let '(s, log) := terminal_run ∅ calls in
  forall id t, s !! id = Some t -> inputs_ok t (inputs_since id log) /\ hosted_bounded t.
Proof.
  induction calls as [|call calls IH] using rev_ind; [by intros id t Ht|].
  rewrite terminal_run_snoc. destruct (terminal_run ∅ calls) as [s log].
  destruct (terminal_do s call) as [s' out] eqn:Hd. intros id t' Ht'.
  apply (call_moved _ _ _ _ Hd) in Ht' as [Hb Hm]. rewrite inputs_since_snoc. split.
  - destruct (effect_on id (call, out)) as [|e|].
    + destruct Hm as (t & Ht & Hi & _). eapply inputs_ok_same; [exact Hi|]. by apply IH.
    + destruct Hm as (t & n & Ht & Ha & _ & Hi). eapply inputs_ok_taken; [|exact Ha|exact Hi]. by apply IH.
    + by apply inputs_ok_fresh.
  - apply Hb. intros t Ht. by apply (IH id t).
Qed.


(** Whatever the host calls and the readers report, a hosted terminal stays within its bounds: at
    most 64 deltas are retained and 64 notifications wait, notifications that were coalesced keep
    no chunks, and the sequence and the count of observed bytes stay in 64 bits. *)
Theorem terminals_stay_bounded calls id t :
  fst (terminal_run ∅ calls) !! id = Some t -> hosted_bounded t.
Proof.
  pose proof (run_inputs calls) as H. destruct (terminal_run ∅ calls) as [s log]. cbn. intros Ht. by apply (H id t).
Qed.
End Runs_Inputs.
