(* ===== verification/TerminalStamps.v ===== *)
(** Every delta a terminal of the service retains carries the identifier of that terminal,
    whatever is called. *)
From S2P Require Import Prelude Order Canonical OperationQueue Query TerminalProtocol Terminal TerminalService TerminalRuns.

Local Open Scope method_scope.

Section Stamps.
Context `{RT : AttachedTerminalRuntime} `{FE : !FixtureEmulator}.

Definition stamped (id : TerminalId) (t : HostedTerminal) : Prop :=
  Forall (fun d => td_terminal_id d = id) (ht_deltas t).

(** The method keeps the stamps of the terminal it is a method of. *)
Definition stamps (id : TerminalId) {A} (p : method A) : Prop :=
  forall t, stamped id t -> stamped id (fst (p t)).

Lemma stamps_bind {A B} id (p : method A) (k : A -> method B) :
  stamps id p -> (forall a, stamps id (k a)) -> stamps id (m_bind p k).
Proof.
  intros Hp Hk t Ht. unfold m_bind. specialize (Hp t Ht). destruct (p t) as [t' [a|e]]; [|done].
  by apply Hk.
Qed.

Lemma stamps_still {A} id (r : HostedTerminal -> result A TerminalError) : stamps id (fun t => (t, r t)).
Proof. by intros t. Qed.
Lemma stamps_attempt {A} id (p : method A) : stamps id p -> stamps id (m_attempt p).
Proof. intros Hp t Ht. unfold m_attempt. specialize (Hp t Ht). by destruct (p t) as [t' []]. Qed.
Lemma stamps_runtime {A} id rt (call : runtime -> runtime * A) : stamps id (m_runtime rt call).
Proof. intros t Ht. unfold m_runtime. by destruct (call rt). Qed.
Lemma stamps_runtime_try {A} id rt (call : runtime -> runtime * result A TerminalError) :
  stamps id (m_runtime_try rt call).
Proof. apply stamps_bind; [apply stamps_runtime|intros; apply stamps_still]. Qed.
Lemma stamps_set id f : (forall t, stamped id t -> stamped id (f t)) -> stamps id (m_set f).
Proof. intros Hf t Ht. by apply Hf. Qed.

(** A delta made for the terminal and retained. *)
Lemma stamps_retained {A} id n ops (k : unit -> method A) :
  (forall u, stamps id (k u)) ->
  stamps id (m_bind (m_get (fun t => delta_of t id n ops)) (fun delta => m_bind (retain_delta delta) k)).
Proof.
  intros Hk t Ht. unfold m_bind, m_get, retain_delta, m_set. apply Hk. unfold stamped in *. cbn.
  apply Forall_app. split; [|by constructor]. destruct (_ <=? _); [|done]. destruct Ht; [constructor|done].
Qed.
Lemma stamps_retained_last id n ops :
  stamps id (m_bind (m_get (fun t => delta_of t id n ops)) retain_delta).
Proof.
  intros t Ht. pose proof (stamps_retained id n ops m_ret (fun u => stamps_still id _) t Ht) as H.
  exact H.
Qed.
End Stamps.

Create HintDb stamps.
#[export] Hint Resolve stamps_still stamps_runtime stamps_runtime_try : stamps.

(** Follows the program: binds, branches, and setters of anything but the deltas. *)
Ltac stamp_step :=
  match goal with
  | |- forall _, _ => intros
  | |- stamps _ (m_bind (m_get (fun t => delta_of t _ _ _)) (fun d => retain_delta d)) => apply stamps_retained_last
  | |- stamps _ (m_bind (m_get (fun t => delta_of t _ _ _)) _) => apply stamps_retained
  | |- stamps _ (m_bind _ _) => apply stamps_bind
  | |- stamps _ (m_attempt _) => apply stamps_attempt
  | |- stamps _ (m_set _) => apply stamps_set
  | |- stamps _ (match ?x with _ => _ end) => destruct x
  | |- stamped _ (match ?x with _ => _ end) => destruct x
  | H : stamped ?id ?t |- stamped ?id _ => exact H
  | |- _ => solve [eauto with stamps nocore]
  end.
Ltac stamp := repeat stamp_step.

Section Methods.
Context `{RT : AttachedTerminalRuntime} `{FE : !FixtureEmulator}.

Lemma stamps_bump id : stamps id bump_sequence.
Proof. unfold bump_sequence. stamp. Qed.
Lemma stamps_screen id : stamps id screen_snapshot.
Proof. unfold screen_snapshot. stamp. Qed.
Lemma stamps_session_view id : stamps id hosted_session_view.
Proof. unfold hosted_session_view. stamp. Qed.
Hint Resolve stamps_bump stamps_screen stamps_session_view : stamps.

Lemma stamps_title id : stamps id current_title.
Proof. unfold current_title. stamp. Qed.
Lemma stamps_note id n : stamps id (note_observed_output n).
Proof. unfold note_observed_output. stamp. Qed.
Lemma stamps_verify id : stamps id verify_attachment.
Proof. unfold verify_attachment. stamp. Qed.
Hint Resolve stamps_title stamps_note stamps_verify : stamps.

Lemma stamps_settle id events : stamps id (settle_events id events).
Proof. induction events; cbn [settle_events]; stamp. Qed.
Hint Resolve stamps_settle : stamps.
Lemma stamps_lifecycle id : stamps id (drain_lifecycle id).
Proof. unfold drain_lifecycle. stamp. Qed.
Lemma stamps_enforce id screen : stamps id (enforce_scrollback_bound_from_screen screen).
Proof. unfold enforce_scrollback_bound_from_screen. stamp. Qed.
Lemma stamps_remember id screen title : stamps id (remember_screen screen title).
Proof. unfold remember_screen. stamp. Qed.
Hint Resolve stamps_lifecycle stamps_enforce stamps_remember : stamps.

Lemma stamps_record id n screen : stamps id (record_delta_from_screen id n screen).
Proof. unfold record_delta_from_screen. stamp. Qed.
Hint Resolve stamps_record : stamps.
Lemma stamps_record_screen id screen coalesced : stamps id (record_screen id screen coalesced).
Proof. unfold record_screen. stamp. Qed.
Hint Resolve stamps_record_screen : stamps.
Lemma stamps_notifications id n : stamps id (record_notifications id n).
Proof. induction n; cbn [record_notifications]; stamp. Qed.
Lemma stamps_readable id : stamps id verify_readable.
Proof.
  intros t Ht. unfold verify_readable. pose proof (stamps_verify id t Ht) as H.
  destruct (verify_attachment t) as [t' [[]|[]]]; try done. by destruct (is_some _).
Qed.
Lemma stamps_pending id : stamps id take_pending_output.
Proof. intros t Ht. unfold take_pending_output. by destruct (pending_take _). Qed.
Hint Resolve stamps_notifications stamps_readable stamps_pending : stamps.

Lemma stamps_drain id : stamps id (drain_attached_output id).
Proof. unfold drain_attached_output. stamp. Qed.
Hint Resolve stamps_drain : stamps.
Lemma stamps_snapshot id : stamps id (hosted_snapshot id).
Proof. unfold hosted_snapshot. stamp. Qed.
Lemma stamps_cursor id c g n : stamps id (remember_client_cursor c g n).
Proof. unfold remember_client_cursor. stamp. Qed.
Lemma stamps_commit id view : stamps id (commit_view_sequence view).
Proof. unfold commit_view_sequence. stamp. Qed.
Hint Resolve stamps_snapshot stamps_cursor stamps_commit : stamps.
Lemma stamps_coalesced id c g reason clear : stamps id (coalesced_snapshot id c g reason clear).
Proof. unfold coalesced_snapshot. stamp. Qed.
Hint Resolve stamps_coalesced : stamps.

Lemma stamps_updates id c g since : stamps id (updates_since id c g since).
Proof. unfold updates_since. stamp. Qed.
Lemma stamps_resize id size fence : stamps id (hosted_resize id size fence).
Proof. unfold hosted_resize. stamp. Qed.
Lemma stamps_scroll id d : stamps id (hosted_scroll_lines d).
Proof. unfold hosted_scroll_lines. stamp. Qed.
Lemma stamps_forward id e : stamps id (forward_input e).
Proof. unfold forward_input. stamp. Qed.
Lemma stamps_fixture_bytes id output : stamps id (apply_fixture_reader_bytes id output).
Proof. unfold apply_fixture_reader_bytes. stamp. Qed.
Lemma stamps_close id fresh reason : stamps id (hosted_close fresh reason).
Proof. unfold hosted_close. stamp. Qed.

Hint Resolve stamps_close stamps_scroll stamps_forward : stamps.

(** Replacing the generation drops the deltas of the one before. *)
Lemma stamps_replace id : stamps id (hosted_replace_generation id).
Proof.
  unfold hosted_replace_generation, rebind_runtime, replace_fixture. stamp.
  - unfold stamped. cbn. by constructor.
  - unfold stamped. cbn. by constructor.
Qed.

Lemma stamps_view id task : stamps id (view_method task id).
Proof. unfold view_method, provider_identity. stamp. Qed.

Lemma stamps_write id e : stamps id (write_method e).
Proof.
  intros t Ht. unfold write_method, hosted_write. destruct (input_sequence_for t e) as [n|ack]; [|done].
  pose proof (stamps_forward id e t Ht) as H. by destruct (forward_input e t) as [t' []].
Qed.
End Methods.

#[export] Hint Resolve stamps_bump stamps_screen stamps_session_view stamps_title stamps_note
  stamps_verify stamps_settle stamps_lifecycle stamps_enforce stamps_remember stamps_record
  stamps_record_screen stamps_notifications stamps_readable stamps_pending stamps_drain
  stamps_snapshot stamps_cursor stamps_commit stamps_coalesced stamps_updates stamps_resize
  stamps_scroll stamps_forward stamps_fixture_bytes stamps_close stamps_replace stamps_view
  stamps_write : stamps.

(** ** The calls of the service *)

Section Calls.
Context `{RT : AttachedTerminalRuntime} `{FE : !FixtureEmulator} `{TO : !TerminalOrder}.

Definition all_stamped (s : TerminalService) : Prop := map_Forall stamped s.

Lemma on_terminal_stamped {A} s id (p : method A) :
  stamps id p -> all_stamped s -> all_stamped (fst (on_terminal s id p)).
Proof.
  intros Hp Hs. unfold on_terminal. destruct (s !! id) as [t|] eqn:Ht; [|done].
  specialize (Hp t (Hs _ _ Ht)). destruct (p t) as [t' r]. by apply map_Forall_insert_2.
Qed.

Lemma when_open_stamps {A} id (p : method A) : stamps id p -> stamps id (when_open p).
Proof. intros Hp. apply stamps_bind; [by intros t|by intros]. Qed.

Lemma on_selected_stamped {A} s task resource (p : TerminalId -> method A) :
  (forall id, stamps id (p id)) -> all_stamped s -> all_stamped (fst (on_selected s task resource p)).
Proof.
  intros Hp Hs. unfold on_selected. destruct (rbind _ _) as [id|e]; [|done].
  by apply on_terminal_stamped; [apply when_open_stamps|].
Qed.

Lemma alter_stamped s id f :
  (forall t, ht_deltas (f t) = ht_deltas t) -> all_stamped s -> all_stamped (alter f id s).
Proof.
  intros Hf Hs i t. destruct (decide (i = id)) as [->|Hne].
  - rewrite lookup_alter_eq. intros (t' & Ht & ->)%fmap_Some. unfold stamped. rewrite Hf. by apply Hs.
  - rewrite lookup_alter_ne by done. apply Hs.
Qed.

(** A terminal is published without deltas. *)
Lemma publish_stamped s id o taken :
  (forall t, o = Ok t -> ht_deltas t = []) -> all_stamped s -> all_stamped (fst (publish s id o taken)).
Proof.
  intros Ho Hs. unfold publish. destruct o as [t|]; [|done]. destruct (existsb _ _); [done|].
  apply map_Forall_insert_2; [|done]. unfold stamped. by rewrite Ho.
Qed.

Lemma open_attached_empty owner spec rt t : open_attached owner spec rt = Ok t -> ht_deltas t = [].
Proof.
  unfold open_attached. intros Hx. apply rbind_Ok in Hx as (sp & _ & Hx).
  destruct (rt_current_attachment_fence rt) as [r1 a]. apply rbind_Ok in Hx as (? & _ & Hx).
  destruct (rt_screen_snapshot _) as [r2 screen]. destruct (rt_session_view r2) as [r3 view].
  destruct (rt_install_output_sink r3) as [r4 i1]. apply rbind_Ok in Hx as (? & _ & Hx).
  destruct (rt_install_lifecycle_sink r4) as [r5 i2]. apply rbind_Ok in Hx as (? & _ & Hx).
  by injection Hx as <-.
Qed.

Lemma close_stamped s id fresh reason :
  all_stamped s -> all_stamped (fst (service_close s id fresh reason)).
Proof.
  intros Hs. pose proof (on_terminal_stamped s id _ (stamps_close id fresh reason) Hs) as H.
  unfold service_close. by destruct (on_terminal s id _).
Qed.

Lemma remove_stamped s resource : all_stamped s -> all_stamped (fst (remove_closed s resource)).
Proof.
  intros Hs. unfold remove_closed. destruct (find_terminal _ s); [|done]. by apply map_Forall_delete.
Qed.

Lemma call_stamped s call : all_stamped s -> all_stamped (fst (terminal_do s call)).
Proof.
  intros Hs. destruct call; cbn [terminal_do]; unfold acked, attached, done_with, reported; cbn [fst];
    try (apply on_terminal_stamped; [first [by stamp|by apply when_open_stamps; stamp]|done]);
    try (by apply alter_stamped; [intros ?; repeat case_match|]).
  - apply publish_stamped; [|done]. intros t Hx. apply rbind_Ok in Hx as (? & _ & Hx).
    apply rbind_Ok in Hx as (? & _ & Hx). by injection Hx as <-.
  - apply publish_stamped; [|done]. intros t Hx. apply rbind_Ok in Hx as (? & _ & Hx).
    by eapply open_attached_empty.
  - apply publish_stamped; [|done]. intros t Hx. apply rbind_Ok in Hx as (? & _ & Hx).
    apply rbind_Ok in Hx as (? & _ & Hx). apply rbind_Ok in Hx as (t' & Ht & Hx). injection Hx as <-.
    by apply open_attached_empty in Ht.
  - apply publish_stamped; [|done]. intros t Hx. apply rbind_Ok in Hx as (? & _ & Hx).
    destruct (rt_current_attachment_fence _) as [r1 a]. apply rbind_Ok in Hx as (? & _ & Hx).
    apply rbind_Ok in Hx as (? & _ & Hx). apply rbind_Ok in Hx as (? & _ & Hx).
    apply rbind_Ok in Hx as (t' & Ht & Hx). injection Hx as <-. by apply open_attached_empty in Ht.
  - unfold bind_task_identity. destruct (_ || _); [done|]. apply on_terminal_stamped; [|done].
    apply when_open_stamps. stamp.
  - unfold service_write. destruct (negb _); [done|]. apply on_terminal_stamped; [stamp|done].
  - unfold write_task_input. destruct (terminal_input_validate _); [|done].
    apply on_terminal_stamped; [|done]. apply when_open_stamps. intros u Ht.
    destruct (request_fences u _); [|done]. destruct (negb _); [done|]. by apply stamps_write.
  - by apply close_stamped.
  - by apply remove_stamped.
  - pose proof (on_terminal_stamped s id _ (stamps_replace id) Hs) as H.
    unfold service_replace_generation. by destruct (on_terminal s id _).
  - apply on_terminal_stamped; [|done]. apply when_open_stamps, stamps_set. intros u Hu. cbn zeta.
    by repeat case_match.
  - unfold task_terminal_view_for. destruct (select_terminal _ _ _) as [[id|]|]; [|done..].
    apply on_terminal_stamped; [|done]. apply when_open_stamps. stamp.
  - apply on_selected_stamped; [|done]. intros id. stamp.
  - apply on_selected_stamped; [|done]. intros id. stamp.
  - unfold shell_output_sequence. destruct (open_plain_shell_id s _) as [id|]; [|done].
    apply on_terminal_stamped; [stamp|done].
Qed.

(** Whatever is called and reported, from any service whose terminals are stamped. *)
Lemma run_stamped calls : forall s s' log,
  all_stamped s -> terminal_run s calls = (s', log) -> all_stamped s'.
Proof.
  induction calls as [|call calls IH] using rev_ind; intros s s' log Hs Hr; [by injection Hr as <- _|].
  rewrite terminal_run_snoc in Hr. destruct (terminal_run s calls) as [s1 log1] eqn:E.
  pose proof (call_stamped s1 call (IH _ _ _ Hs E)) as H. destruct (terminal_do s1 call) as [s2 out].
  by injection Hr as <- _.
Qed.
End Calls.
