(* ===== verification/TerminalSlots.v ===== *)
(** Which terminal is meant, and when one is final: the slots of a task's terminals over
    the runs of [TerminalRuns], the exact fences of an input, teardown, and a run on a
    concrete runtime. *)
From S2P Require Import Prelude Canonical Query TerminalProtocol Terminal TerminalService TerminalRuns.

(** ** Who is selected, and what is final *)

Section Slots.
Context `{RT : AttachedTerminalRuntime} `{FE : !FixtureEmulator} `{TO : !TerminalOrder}.

(** A runtime that is not restarted between two looks at its fence. *)
Definition steady (rt : runtime) : Prop :=
  let '(rt1, fence) := rt_current_attachment_fence rt in snd (rt_current_attachment_fence rt1) = fence.

(** The calls of the running host: fixtures, unbound attachments, and the moves of a
    terminal to another task or generation are for tests.  Attaching a shell looks twice at
    the fence, which must not change in between. *)
Definition host_call (call : terminal_call) : Prop :=
  match call with
  | TcCreateFixture _ _ _ _ | TcAttach _ _ _ _ | TcRetargetTask _ _ | TcReplace _ => False
  | TcAttachShell _ _ _ _ _ rt => steady rt
  | _ => True
  end.

Record slot_kept (t t' : HostedTerminal) : Prop := {
  sk_shell : ht_is_plain_shell t' = ht_is_plain_shell t;
  sk_resource : ht_resource_id t' = ht_resource_id t;
  sk_task : ht_task_id t' = ht_task_id t;
  sk_closed : ht_closed t = true -> ht_closed t' = true;
  sk_identified : identified t -> identified t';
}.

#[local] Instance slot_kept_refl : Reflexive slot_kept.
Proof. by split. Qed.

Lemma mild_slot t t' : mild false t t' -> slot_kept t t'.
Proof. intros [_ ? Hf ? ? _ ? _]. injection Hf as H1 H2. split; auto. Qed.

Lemma accepted_slot t u e n : calm t u -> slot_kept t (accept_input u e n).
Proof. intros Hc%(calm_mild false)%mild_slot. by destruct Hc. Qed.

Lemma write_slot e : method_by slot_kept (write_method e).
Proof.
  intros t. unfold write_method. destruct (hosted_write t e) as [t' ack] eqn:Hw. cbn.
  apply write_method_answer in Hw. destruct ack as [n|n|reason].
  - destruct Hw as (_ & _ & u & Hc & ->). by apply accepted_slot.
  - by destruct Hw as [-> _].
  - destruct Hw as [->|(_ & _ & Hc)]; [done|]. by apply mild_slot, calm_mild.
Qed.

Lemma host_call_slots s call :
  host_call call -> (forall r, snd (terminal_do s call) <> ToAttached r) ->
  served_by slot_kept s (fst (terminal_do s call)).
Proof.
  intros Hh Hna. destruct (takes_input call) eqn:Et.
  - destruct call; try discriminate Et; try destruct Hh as []; try (by exfalso; eapply Hna; cbn).
    + cbn. unfold service_write. destruct (negb _); [by apply served_same|]. apply on_terminal_by; [done|apply write_slot].
    + cbn. unfold write_task_input. destruct (terminal_input_validate _); [|by apply served_same].
      apply on_terminal_by; [done|]. apply when_open_by; [done|]. intros ? _.
      destruct (request_fences _ _); [|done]. destruct (negb _); [done|apply write_slot].
  - intros id t' Ht'. destruct (mild_call s call Et id t' Ht') as (t & Ht & Hm). exists t. split; [done|].
    apply mild_slot. destruct call; try exact Hm. destruct Hh.
Qed.

Definition open_terminal (s : TerminalService) (id : TerminalId) (t : HostedTerminal) : Prop :=
  s !! id = Some t /\ ht_closed t = false.

Record slots_ok (s : TerminalService) : Prop := {
  so_provider : forall i j t u, open_terminal s i t -> open_terminal s j u ->
    ht_is_plain_shell t = false -> ht_is_plain_shell u = false -> ht_task_id t = ht_task_id u -> i = j;
  so_shell : forall i j t u, open_terminal s i t -> open_terminal s j u ->
    ht_is_plain_shell t = true -> ht_is_plain_shell u = true -> ht_resource_id t = ht_resource_id u -> i = j;
  so_identified : forall i t, open_terminal s i t -> ht_is_plain_shell t = false -> identified t;
}.

Lemma slots_served s s' : slots_ok s -> served_by slot_kept s s' -> slots_ok s'.
Proof.
  intros [Hp Hs Hi] Hk.
  assert (forall i t', open_terminal s' i t' -> exists t, open_terminal s i t /\ slot_kept t t') as Ho.
  { intros i t' [Ht' Hc]. destruct (Hk _ _ Ht') as (t & Ht & Hsk). exists t. split; [|done]. split; [done|].
    destruct (ht_closed t) eqn:Ec; [|done]. apply Hsk in Ec. congruence. }
  split.
  - intros i j t u Ht Hu ? ? ?. apply Ho in Ht as (x & Hx & []), Hu as (y & Hy & []).
    apply (Hp i j x y); congruence.
  - intros i j t u Ht Hu ? ? ?. apply Ho in Ht as (x & Hx & []), Hu as (y & Hy & []).
    apply (Hs i j x y); congruence.
  - intros i t Ht ?. apply Ho in Ht as (x & Hx & []). apply sk_identified0, (Hi i x); congruence.
Qed.

Lemma slots_insert s id t :
  slots_ok s ->
  (forall i u, open_terminal s i u -> ht_is_plain_shell t = false -> ht_is_plain_shell u = false ->
     ht_task_id u <> ht_task_id t) ->
  (forall i u, open_terminal s i u -> ht_is_plain_shell t = true -> ht_resource_id u <> ht_resource_id t) ->
  (ht_is_plain_shell t = false -> identified t) ->
  slots_ok (<[id := t]> s).
Proof.
  intros [Hp Hs Hi] Hnp Hns Hni.
  assert (forall i u, open_terminal (<[id := t]> s) i u -> (i = id /\ u = t) \/ open_terminal s i u) as Ho.
  { intros i u [Hu Hc]. rewrite lookup_insert_dec in Hu. destruct (decide _) as [<-|];
      [injection Hu as <-; by left|right; by split]. }
  split.
  - intros i j x y [[-> ->]|Hx]%Ho [[-> ->]|Hy]%Ho ? ? ?; [done|..].
    + exfalso. by eapply (Hnp j y).
    + exfalso. by eapply (Hnp i x).
    + by eapply (Hp i j x y).
  - intros i j x y [[-> ->]|Hx]%Ho [[-> ->]|Hy]%Ho ? ? ?; [done|..].
    + exfalso. by eapply (Hns j y).
    + exfalso. by eapply (Hns i x).
    + by eapply (Hs i j x y).
  - intros i x [[-> ->]|Hx]%Ho ?; [auto|by eapply (Hi i x)].
Qed.

Lemma open_attached_shape task spec rt t :
  open_attached task spec rt = Ok t -> ht_task_id t = task /\ ht_is_plain_shell t = false
    /\ snd (rt_current_attachment_fence rt) = Ok (attachment_fence t).
Proof.
  unfold open_attached. intros (sp & _ & H)%rbind_Ok. destruct (rt_current_attachment_fence rt) as [rt1 a].
  apply rbind_Ok in H as ([res gen] & -> & H). destruct (rt_screen_snapshot _) as [rt2 screen].
  destruct (rt_session_view rt2) as [rt3 view]. destruct (rt_install_output_sink rt3) as [rt4 i].
  apply rbind_Ok in H as (_ & _ & H). destruct (rt_install_lifecycle_sink rt4) as [rt5 i2].
  by apply rbind_Ok in H as (_ & _ & [= <-]).
Qed.

Lemma attach_slots s call s' r :
  host_call call -> terminal_do s call = (s', ToAttached r) -> slots_ok s -> slots_ok s'.
Proof.
  intros Hh H Hok. destruct call; try destruct Hh as []; cbn [terminal_do] in H; unfold acked, done_with, reported in H;
    try by inversion H.
  - unfold attached, attach_bound_task_runtime in H.
    match type of H with (fst ?p, _) = _ => destruct p as [s1 r1] eqn:Hp end.
    cbn in H. injection H as <- _. apply publish_cases in Hp as [(t & Ho & _ & -> & Hfree)|(e & _ & ->)]; [|done].
    apply ensure_Ok in Ho as (_ & (sp & _ & (t0 & Ht0 & [= <-])%rbind_Ok)%rbind_Ok).
    apply open_attached_shape in Ht0 as (Htask & Hshell & _). apply slots_insert; [done|..].
    + intros i u [Hu Hc] _ Hus Heq. specialize (Hfree i u Hu). cbn in Heq.
      rewrite Heq, Htask, N.eqb_refl, Hc, Hus in Hfree. done.
    + cbn. congruence.
    + done.
  - unfold attached, attach_plain_shell in H.
    match type of H with (fst ?p, _) = _ => destruct p as [s1 r1] eqn:Hp end.
    cbn in H. injection H as <- _. apply publish_cases in Hp as [(t & Ho & _ & -> & Hfree)|(e & _ & ->)]; [|done].
    apply rbind_Ok in Ho as (g & _ & Ho). destruct (rt_current_attachment_fence rt) as [rt1 a] eqn:Ha.
    apply rbind_Ok in Ho as (fence & -> & Ho). apply ensure_Ok in Ho as (Hf & (sp & _ & (t0 & Ht0 & [= <-])%rbind_Ok)%rbind_Ok).
    apply andb_true_iff in Hf as [Hf%N.eqb_eq _].
    apply open_attached_shape in Ht0 as (_ & _ & Hfence).
    assert (ht_resource_id t0 = resource) as Hr.
    { unfold host_call, steady in Hh. rewrite Ha, Hfence in Hh. by injection Hh as <-. }
    apply slots_insert; [done|..].
    + done.
    + intros i u [Hu Hc] _ Heq. specialize (Hfree i u Hu). cbn in Heq. rewrite Heq, Hr, N.eqb_refl, Hc in Hfree. done.
    + done.
Qed.
End Slots.

Section Claims.
Context `{RT : AttachedTerminalRuntime} `{FE : !FixtureEmulator} `{TO : !TerminalOrder}.

Lemma run_slots calls :
  Forall host_call calls -> slots_ok (fst (terminal_run ∅ calls)).
Proof.
  induction calls as [|call calls IH] using rev_ind.
  - intros _. cbn. split; by intros ? ? [? _] || intros ? ? ? ? [? _].
  - intros [Hc Hcall]%Forall_app. apply IH in Hc. rewrite terminal_run_snoc.
    destruct (terminal_run ∅ calls) as [s log]. cbn [fst] in Hc.
    apply Forall_cons_1 in Hcall as [Hcall _]. pose proof (host_call_slots s call Hcall) as Hk.
    destruct (terminal_do s call) as [s' out] eqn:Hd. cbn [fst snd] in *.
    destruct out as [?|r|?|]; [|by eapply attach_slots|..]; by eapply slots_served; [exact Hc|apply Hk].
Qed.

Lemma matching_spec s task resource id :
  id ∈ matching_terminals s task resource
  <-> exists t, open_terminal s id t /\ ht_task_id t = task
        /\ match resource with Some r => ht_resource_id t = r | None => ht_is_plain_shell t = false end.
Proof.
  unfold matching_terminals, open_terminal. rewrite list_elem_of_In, in_map_iff. split.
  - intros ([i t] & <- & [Hin Hs]%filter_In). apply list_elem_of_In, elem_of_sorted_entries in Hin. exists t.
    unfold selectable in Hs. cbn in *. rewrite !andb_true_iff, negb_true_iff, N.eqb_eq in Hs.
    destruct Hs as [[? ?] Hr]. split_and!; try done. destruct resource; [by apply N.eqb_eq|by apply negb_true_iff].
  - intros (t & [Ht Hc] & Htask & Hr). exists (id, t). split; [done|]. apply filter_In. split.
    + by apply list_elem_of_In, elem_of_sorted_entries.
    + unfold selectable. cbn. rewrite Htask, Hc, N.eqb_refl. cbn.
      destruct resource; [by apply N.eqb_eq|by apply negb_true_iff].
Qed.

Lemma matching_nodup s task resource : NoDup (matching_terminals s task resource).
Proof.
  unfold matching_terminals. pose proof (sorted_entries_nodup s) as H. revert H.
  generalize (sorted_entries s). intros l H. induction l as [|[k t] l IH]; [constructor|].
  cbn [map] in H. apply NoDup_cons in H as [Hn H]. cbn [List.filter]. destruct (selectable _ _ _); [|by apply IH].
  cbn [map]. apply NoDup_cons. split; [|by apply IH]. intros Hin. apply Hn.
  apply list_elem_of_In, in_map_iff in Hin as ([k' t'] & Heq & [Hin _]%filter_In).
  apply list_elem_of_In, in_map_iff. by exists (k', t').
Qed.

Lemma select_unique s task resource :
  (forall i j, i ∈ matching_terminals s task resource -> j ∈ matching_terminals s task resource -> i = j) ->
  exists selected, select_terminal s task resource = Ok selected
    /\ match selected with
       | Some id => id ∈ matching_terminals s task resource
       | None => forall id, id ∉ matching_terminals s task resource
       end.
Proof.
  unfold select_terminal. pose proof (matching_nodup s task resource) as Hnd.
  destruct (matching_terminals s task resource) as [|i [|j l]]; intros Hu.
  - exists None. split; [done|]. by intros id ?%elem_of_nil.
  - exists (Some i). split; [done|]. by constructor.
  - exfalso. apply NoDup_cons in Hnd as [Hn _]. apply Hn. rewrite (Hu i j); [by constructor..|do 2 constructor].
Qed.

(** However the running host attaches, binds, views, resizes and closes terminals, a task never has
    two live provider terminals and a durable resource never two live shells.  So selecting a
    task's provider is never ambiguous, and what it selects is live, the task's own and fully
    identified; selecting by a resource is unambiguous unless a provider of the task carries that
    resource too; and a live shell is found by its resource. *)
Theorem terminal_slots_unambiguous calls s log :
  Forall host_call calls -> terminal_run ∅ calls = (s, log) ->
  (forall task, exists selected, select_terminal s task None = Ok selected
     /\ match selected with
        | Some id => exists t, open_terminal s id t /\ ht_task_id t = task
                       /\ ht_is_plain_shell t = false /\ identified t
        | None => forall id t, open_terminal s id t -> ht_task_id t = task -> ht_is_plain_shell t = true
        end)
  /\ (forall task resource,
        (forall id t, open_terminal s id t -> ht_task_id t = task -> ht_resource_id t = resource ->
           ht_is_plain_shell t = true) ->
        exists selected, select_terminal s task (Some resource) = Ok selected)
  /\ (forall id t, open_terminal s id t -> ht_is_plain_shell t = true ->
        open_plain_shell_id s (ht_resource_id t) = Some id).
Proof.
  intros Hc Hr. pose proof (run_slots calls Hc) as Hok. rewrite Hr in Hok. destruct Hok as [Hp Hs Hi]. split_and!.
  - intros task. destruct (select_unique s task None) as (selected & Hsel & Hin).
    { intros i j (t & Ht & ? & ?)%matching_spec (u & Hu & ? & ?)%matching_spec. apply (Hp i j t u); try done; congruence. }
    exists selected. split; [done|]. destruct selected as [id|].
    + apply matching_spec in Hin as (t & Ht & ? & ?). exists t. split_and!; try done. by apply (Hi id t).
    + intros id t Ht Htask. destruct (ht_is_plain_shell t) eqn:Es; [done|]. exfalso. apply (Hin id), matching_spec.
      by exists t.
  - intros task resource Hshell. destruct (select_unique s task (Some resource)) as (selected & Hsel & _); [|by exists selected].
    intros i j (t & Ht & ? & ?)%matching_spec (u & Hu & ? & ?)%matching_spec.
    apply (Hs i j t u); try done; [by apply (Hshell i t)|by apply (Hshell j u)|congruence].
  - intros id t [Ht Hcl] Hsh. unfold open_plain_shell_id.
    pose proof (find_terminal_spec (fun t0 => (ht_resource_id t0 =? ht_resource_id t) && ht_is_plain_shell t0
                                              && negb (ht_closed t0)) s) as Hf.
    destruct (find_terminal _ s) as [id'|].
    + destruct Hf as (u & Hu & Hm). rewrite !andb_true_iff, negb_true_iff, N.eqb_eq in Hm. destruct Hm as [[? ?] ?].
      f_equal. by apply (Hs id' id u t).
    + specialize (Hf id t Ht). rewrite N.eqb_refl, Hsh, Hcl in Hf. done.
Qed.

(** Bytes a client sends to a task's terminal reach the runtime exactly when the request names this
    very terminal and moment - its task, its resource and generation, its session and focus, for a
    provider its agent, run and action epoch and for a shell none of them - continues the sequence
    of inputs with an id not seen before, comes from a client granted to write, fits the bounds,
    and finds the runtime still attached under that fence; the answer is then the sequence the
    request named.  Any other answer leaves every terminal as it was, except that a refusal by the
    runtime itself may have moved the screen. *)
Theorem task_input_exact_fences s r n :
  ((exists s', write_task_input s r = (s', Ok (AckAccepted n)))
   <-> terminal_input_validate r = Ok tt
       /\ exists t, s !! ti_terminal_id r = Some t /\ exact_fences t (ti_context r)
            /\ input_admissible t (request_envelope r) n
            /\ n = tc_input_sequence (ti_context r) /\ runtime_takes t (ti_bytes r))
  /\ (forall s' res, write_task_input s r = (s', res) ->
      (exists m, res = Ok (AckAccepted m)) \/ s' = s
      \/ exists t t', s !! ti_terminal_id r = Some t /\ s' = <[ti_terminal_id r := t']> s
           /\ calm t t' /\ ~ runtime_takes t (ti_bytes r)).
Proof.
  split; [split|].
  - intros [s' H]. apply write_task_input_answer in H as (Hv & t & t' & Ht & _ & _ & Hf & Ha & Hn & Hr & _).
    split; [done|]. by exists t.
  - intros (Hv & t & Ht & Hf & Ha & Hn & Hr). unfold write_task_input, on_terminal, when_open, m_bind, ensure_open.
    pose proof Ha as [Hopen ? ? ? ? ? ? Hnew ? ? ? Hseq Hb]. cbn in Hnew.
    rewrite Hv, Ht, Hopen, (proj2 (request_fences_Ok _ _) Hf). cbn [negb guard].
    unfold request_in_order. rewrite Hnew. cbn [is_some orb].
    rewrite saturating_succ by lia. rewrite <- Hn, Hseq, N.eqb_refl. cbn [negb].
    unfold write_method, hosted_write. rewrite <- Hseq. rewrite (proj2 (input_sequence_for_Ok _ _ _) Ha).
    pose proof (proj2 (forward_input_takes t (request_envelope r)) Hr) as Hfw.
    destruct (forward_input (request_envelope r) t) as [u w]. cbn in Hfw. subst w. by eexists.
  - intros s' res H. apply write_task_input_answer in H. destruct res as [ack|e]; [|right; left; by destruct H].
    destruct H as (_ & t & t' & Ht & -> & _ & Ha). destruct ack as [m|m|reason]; [left; by exists m|..].
    + right. left. destruct Ha as [-> _]. by apply insert_id.
    + destruct Ha as [->|(_ & Hr & Hc)]; [right; left; by apply insert_id|]. right. right. by exists t, t'.
Qed.
End Claims.

Section Final.
Context `{RT : AttachedTerminalRuntime} `{FE : !FixtureEmulator} `{TO : !TerminalOrder}.

(** A method a closed terminal does not hear. *)
Definition deaf {A} (p : method A) : Prop := forall t, ht_closed t = true -> fst (p t) = t.

Lemma deaf_when_open {A} (p : method A) : deaf (when_open p).
Proof. intros t Hc. unfold when_open, m_bind, ensure_open. by rewrite Hc. Qed.

Lemma deaf_terminal {A} s i (p : method A) id t :
  deaf p -> s !! id = Some t -> ht_closed t = true -> fst (on_terminal s i p) !! id = Some t.
Proof.
  intros Hp Ht Hc. unfold on_terminal. destruct (s !! i) as [u|] eqn:Hu; [|done].
  destruct (p u) as [u' r] eqn:Hpu. cbn. rewrite lookup_insert_dec. destruct (decide _) as [->|]; [|done].
  assert (u = t) as -> by congruence. specialize (Hp t Hc). rewrite Hpu in Hp. cbn in Hp. by subst.
Qed.

Lemma deaf_write e : deaf (write_method e).
Proof.
  intros t Hc. unfold write_method, hosted_write, input_sequence_for. by rewrite Hc.
Qed.

Lemma deaf_task_input s r id t :
  s !! id = Some t -> ht_closed t = true -> fst (write_task_input s r) !! id = Some t.
Proof.
  intros Ht Hc. unfold write_task_input. destruct (terminal_input_validate r); [|done].
  by apply deaf_terminal; [apply deaf_when_open|..].
Qed.

Lemma deaf_selected {A} s task resource (p : TerminalId -> method A) id t :
  s !! id = Some t -> ht_closed t = true -> fst (on_selected s task resource p) !! id = Some t.
Proof.
  intros Ht Hc. unfold on_selected. destruct (rbind _ _); [|done]. by apply deaf_terminal; [apply deaf_when_open|..].
Qed.

Lemma deaf_close fresh reason : deaf (hosted_close fresh reason).
Proof. intros t Hc. unfold hosted_close, m_bind at 1. cbn [m_get]. by rewrite Hc. Qed.

(** The events of a reader, which no call of the service makes. *)
Definition reader_event (call : terminal_call) : bool :=
  match call with TcOutput _ _ | TcLifecycle _ _ | TcMoved _ _ => true | _ => false end.

Lemma remove_closed_other s resource id t :
  s !! id = Some t -> fst (remove_closed s resource) !! id = Some t
    \/ fst (remove_closed s resource) !! id = None /\ ht_resource_id t = resource /\ ht_closed t = true.
Proof.
  intros Ht. unfold remove_closed. pose proof (find_terminal_spec
    (fun t => (ht_resource_id t =? resource) && ht_closed t) s) as Hf.
  destruct (find_terminal _ s) as [i|]; [|by left]. destruct Hf as (u & Hu & [Hr%N.eqb_eq Hc]%andb_true_iff). cbn.
  destruct (decide (i = id)) as [->|Hne]; [|left; by rewrite lookup_delete_ne].
  right. rewrite lookup_delete_eq. assert (u = t) as -> by congruence. done.
Qed.

Lemma publish_other s i opened taken id t :
  s !! id = Some t -> fst (publish s i opened taken) !! id = Some t \/ snd (publish s i opened taken) = Ok id.
Proof.
  intros Ht. unfold publish. destruct opened; [|by left]. destruct (existsb _ _); [by left|]. cbn.
  rewrite lookup_insert_dec. destruct (decide _) as [->|]; [by right|by left].
Qed.

Lemma deaf_call s call id t :
  s !! id = Some t -> ht_closed t = true -> reader_event call = false ->
  fst (terminal_do s call) !! id = Some t
  \/ (fst (terminal_do s call) !! id = None /\ call = TcRemoveClosed (ht_resource_id t))
  \/ snd (terminal_do s call) = ToAttached (Ok id).
Proof.
  intros Ht Hc Hev.
  assert (forall {A} i (p : method A), deaf p -> fst (on_terminal s i p) !! id = Some t) as Hdeaf
    by (intros; by apply deaf_terminal).
  assert (forall i opened taken, fst (attached (publish s i opened taken)) !! id = Some t
            \/ snd (attached (publish s i opened taken)) = ToAttached (Ok id)) as Hpub.
  { intros. destruct (publish_other s i opened taken id t Ht) as [|Hp]; [by left|right]. cbn. by rewrite Hp. }
  assert (forall {A} (x : TerminalService * A), fst x !! id = Some t -> fst (done_with x) !! id = Some t) as Hdone by done.
  destruct call; try discriminate Hev; cbn [terminal_do];
    try (by left; apply Hdone, Hdeaf; first [apply deaf_when_open|intros u Hu; unfold m_bind, ensure_open; by rewrite Hu]);
    try (by left; apply Hdone, deaf_selected).
  - destruct (Hpub fresh_id (let? sp := spec_validated spec in open_fixture owner sp fresh_id fresh_resource) (fun _ => false)); auto.
  - edestruct Hpub as [H|H]; [left|right; right]; exact H.
  - edestruct Hpub as [H|H]; [left|right; right]; exact H.
  - edestruct Hpub as [H|H]; [left|right; right]; exact H.
  - left. unfold bind_task_identity. destruct (_ || _); [done|]. apply Hdone, Hdeaf, deaf_when_open.
  - left. cbn. unfold service_write. destruct (negb _); [done|]. apply Hdeaf, deaf_write.
  - left. cbn. by apply deaf_task_input.
  - left. cbn. unfold service_close. specialize (Hdeaf _ id0 _ (deaf_close fresh_id reason)).
    by destruct (on_terminal s id0 (hosted_close fresh_id reason)).
  - destruct (remove_closed_other s resource id t Ht) as [|(H & <- & _)]; [by left|]. right. by left.
  - left. cbn. specialize (Hdeaf _ id0 (hosted_replace_generation id0)). unfold service_replace_generation.
    destruct (on_terminal s id0 _). apply Hdeaf. intros u Hu. unfold hosted_replace_generation, m_bind, ensure_open. by rewrite Hu.
  - left. unfold task_terminal_view_for. destruct (select_terminal _ _ _) as [[i|]|]; [|done..].
    apply Hdone, Hdeaf, deaf_when_open.
  - left. unfold shell_output_sequence. pose proof (find_terminal_spec
      (fun t => (ht_resource_id t =? resource) && ht_is_plain_shell t && negb (ht_closed t)) s) as Hf.
    unfold open_plain_shell_id. destruct (find_terminal _ s) as [i|]; [|done].
    destruct Hf as (u & Hu & [_ Hcu%negb_true_iff]%andb_true_iff). apply Hdone. unfold on_terminal. rewrite Hu.
    match goal with |- context [let '(_, _) := ?p in _] => destruct p as [u' r] end. cbn.
    rewrite lookup_insert_dec. destruct (decide _) as [->|]; [|done]. congruence.
Qed.

(** Only a closed terminal is ever dropped. *)
Lemma open_kept s call id t :
  s !! id = Some t -> ht_closed t = false -> is_some (fst (terminal_do s call) !! id) = true.
Proof.
  intros Ht Hc.
  assert (forall {A} i (p : method A), is_some (fst (on_terminal s i p) !! id) = true) as Hon.
  { intros A i p. unfold on_terminal. destruct (s !! i) as [u|] eqn:Hu; [|cbn; by rewrite Ht]. destruct (p u). cbn.
    rewrite lookup_insert_dec. destruct (decide _); [done|by rewrite Ht]. }
  assert (forall i opened taken, is_some (fst (publish s i opened taken) !! id) = true) as Hpub.
  { intros. destruct (publish_other s i opened taken id t Ht) as [H|H]; [by rewrite H|].
    unfold publish in *. destruct opened; [|cbn; by rewrite Ht]. destruct (existsb _ _); [cbn; by rewrite Ht|]. cbn.
    rewrite lookup_insert_dec. destruct (decide _); [done|by rewrite Ht]. }
  assert (is_some (s !! id) = true) as Hs by by rewrite Ht.
  assert (forall A task resource (p : TerminalId -> method A),
            is_some (fst (on_selected s task resource p) !! id) = true) as Hsel.
  { intros. unfold on_selected. destruct (rbind _ _); [apply Hon|done]. }
  assert (forall i f, is_some (fst (reported s i f) !! id) = true) as Hrep.
  { intros i f. cbn. destruct (decide (i = id)) as [->|]; [by rewrite lookup_alter_eq, Ht|by rewrite lookup_alter_ne]. }
  destruct call; cbn [terminal_do]; try apply Hrep; unfold attached, acked, done_with; cbn [fst];
    try (by apply Hon); try (by apply Hpub); try (by apply Hsel).
  - unfold bind_task_identity. destruct (_ || _); [done|apply Hon].
  - unfold service_write. destruct (negb _); [done|apply Hon].
  - unfold write_task_input. destruct (terminal_input_validate _); [apply Hon|done].
  - unfold service_close. specialize (Hon _ id0 (hosted_close fresh_id reason)). by destruct (on_terminal s id0 _).
  - destruct (remove_closed_other s resource id t Ht) as [H|(_ & _ & H)]; [by rewrite H|congruence].
  - specialize (Hon _ id0 (hosted_replace_generation id0)). unfold service_replace_generation.
    by destruct (on_terminal s id0 _).
  - unfold task_terminal_view_for. destruct (select_terminal _ _ _) as [[i|]|]; [apply Hon|done..].
  - unfold shell_output_sequence. destruct (open_plain_shell_id _ _); [apply Hon|done].
Qed.

(** Closing is final, and nothing but a teardown ends a terminal: once closed, no call reaches its
    runtime or changes anything of it, whatever the call is addressed to - the entry can only be
    dropped by its resource, or its identifier be given to a terminal attached anew; and no call
    ever drops a live terminal. *)
Theorem closed_is_final s call s' out id t :
  s !! id = Some t -> terminal_do s call = (s', out) ->
  (ht_closed t = true -> reader_event call = false ->
     s' !! id = Some t
     \/ (s' !! id = None /\ call = TcRemoveClosed (ht_resource_id t))
     \/ out = ToAttached (Ok id))
  /\ (ht_closed t = false -> is_some (s' !! id) = true).
Proof.
  intros Ht H. pose proof (deaf_call s call id t Ht) as Hd. pose proof (open_kept s call id t Ht) as Hk.
  rewrite H in Hd, Hk. cbn in Hd, Hk. by split.
Qed.
End Final.

(** ** A run on a concrete runtime *)

(** A runtime that writes down what it is sent and echoes it on its one-row screen. *)
Record toy_runtime := {
  toy_fence : AttachmentFence;
  toy_written : list N;
  toy_offset : N;
}.

Definition toy_cell (c : N) : TerminalCellSnapshot :=
  {| ce_character := c; ce_zero_width := []; ce_foreground := 0; ce_background := 0; ce_bold := false;
     ce_dim := false; ce_italic := false; ce_underline := false; ce_undercurl := false;
     ce_strike := false; ce_hidden := false; ce_has_hyperlink := false; ce_default_background := true;
     ce_default_foreground := true |}.

Definition toy_screen (written : list N) (offset : N) : TerminalScreenSnapshot :=
  {| ss_cells := []; ss_lines := [map toy_cell written]; ss_cursor := None; ss_display_offset := offset;
     ss_history_size := 0; ss_total_lines := 1; ss_rows := 1; ss_cols := 80; ss_mode := mode_default;
     ss_margin_above := []; ss_margin_below := [] |}.

Definition toy_view (written : list N) (offset : N) : SessionView unit :=
  {| sv_runtime := {| sr_title := None;
                      sr_dimensions := {| dm_cols := 80; dm_rows := 24; dm_cell_width := 8; dm_cell_height := 18 |};
                      sr_provider_session_id := None; sr_rest := tt |};
     sv_screen := toy_screen written offset |}.

Definition toy_write (rt : toy_runtime) (input : list N) (fence : AttachmentFence)
    : toy_runtime * result unit TerminalError :=
  if fence =?= toy_fence rt
  then ({| toy_fence := toy_fence rt; toy_written := toy_written rt ++ input; toy_offset := toy_offset rt |}, Ok tt)
  else (rt, Err TeStaleGeneration).

#[local] Instance toy_attached : AttachedTerminalRuntime := {|
  runtime := toy_runtime;
  runtime_rest := unit;
  rt_write_bytes := toy_write;
  rt_resize rt _ fence := (rt, guard (fence =?= toy_fence rt) TeStaleGeneration);
  rt_close_exact rt _ fence := (rt, guard (fence =?= toy_fence rt) TeTeardownFenceMissing);
  rt_screen_snapshot rt := (rt, toy_screen (toy_written rt) (toy_offset rt));
  rt_session_view rt := (rt, Ok (toy_view (toy_written rt) (toy_offset rt)));
  rt_scroll_lines rt lines :=
    ({| toy_fence := toy_fence rt; toy_written := toy_written rt; toy_offset := Z.to_N lines |}, Ok tt);
  rt_bound_history rt _ := rt;
  rt_install_output_sink rt := (rt, Ok tt);
  rt_install_lifecycle_sink rt := (rt, Ok tt);
  rt_current_attachment_fence rt := (rt, Ok (toy_fence rt));
|}.

#[local] Instance toy_emulator : FixtureEmulator := {|
  grid := list N;
  grid_bootstrap _ _ _ _ := [];
  grid_bound_history g _ := g;
  grid_snapshot g := toy_screen g 0;
  grid_view g := Some (toy_view g 0);
  grid_scrollback_text g := g;
  grid_apply_output_bytes g output := g ++ output;
  grid_apply_local_resize g _ := g;
  grid_apply_runtime g _ := g;
|}.

(** Terminals found in the order of their identifiers. *)
Definition toy_find (p : HostedTerminal -> bool) (s : TerminalService) : option TerminalId :=
  fst <$> List.find (fun kt => p (snd kt)) (sorted_entries s).

Lemma toy_find_spec p s :
  match toy_find p s with
  | Some id => exists t, s !! id = Some t /\ p t = true
  | None => forall id t, s !! id = Some t -> p t = false
  end.
Proof.
  unfold toy_find. destruct (List.find _ _) as [[id t]|] eqn:Hf; cbn.
  - apply find_some in Hf as [Hin Hp]. exists t. split; [|done].
    by apply elem_of_sorted_entries, list_elem_of_In.
  - intros id t Ht. apply (find_none _ _ Hf (id, t)). by apply list_elem_of_In, elem_of_sorted_entries.
Qed.

#[local] Instance toy_terminal_order : TerminalOrder :=
  {| find_terminal := toy_find; find_terminal_spec := toy_find_spec |}.

Definition shell_runtime : toy_runtime :=
  {| toy_fence := {| af_resource_id := 20; af_generation := 1 |}; toy_written := []; toy_offset := 0 |}.

Definition shell_spec : TerminalSpec :=
  {| sp_session_id := 31; sp_size := {| tz_cols := 80; tz_rows := 24 |}; sp_max_scrollback_rows := 1000;
     sp_max_scrollback_bytes := 65536; sp_title := None |}.

Definition shell_input (input_id sequence : N) (input : list N) : TerminalInputRequest :=
  {| ti_client_id := 9; ti_input_id := input_id; ti_terminal_id := 5;
     ti_context := {| tc_task_id := 7; tc_agent_session_id := 0; tc_resource_id := 20;
                      tc_runtime_generation := 0; tc_resource_generation := 1; tc_session_id := 31;
                      tc_terminal_generation := 1; tc_focus_epoch := 1; tc_action_epoch := 0;
                      tc_input_sequence := sequence |};
     ti_bytes := input |}.

Definition shell_calls : list terminal_call :=
  [ TcAttachShell 5 7 20 1 shell_spec shell_runtime;
    TcGrant 5 9 GrantReadWrite;
    TcTaskInput (shell_input 100 1 [108; 115]);
    TcTaskInput (shell_input 100 1 [108; 115]);
    TcTaskInput (shell_input 101 3 [13]);
    TcTaskInput (shell_input 101 2 [13]);
    TcOutput 5 3 ].

Definition shell_run := terminal_run ∅ shell_calls.
Definition shell_service : TerminalService := fst shell_run.

(** The second copy is a duplicate, and an input out of turn is refused. *)
Example shell_outcomes :
  map snd (snd shell_run)
  = [ToAttached (Ok 5); ToDone; ToAck (Ok (AckAccepted 1)); ToAck (Ok (AckDuplicate 1));
     ToAck (Ok (AckRejected IrStaleInputSequence)); ToAck (Ok (AckAccepted 2)); ToDone].
Proof. by vm_compute. Qed.

Definition shell_terminal : HostedTerminal := default (opened 0 shell_spec 0 0 (Fixture []) (toy_screen [] 0) None)
  (shell_service !! 5).

Lemma shell_terminal_hosted : shell_service !! 5 = Some shell_terminal.
Proof. by vm_compute. Qed.


Lemma terminals_stay_bounded_witness : hosted_bounded shell_terminal.
Proof. apply (terminals_stay_bounded shell_calls 5). exact shell_terminal_hosted. Defined.

Lemma terminal_slots_unambiguous_witness :
  exists selected, select_terminal shell_service 7 None = Ok selected.
Proof.
  destruct (terminal_slots_unambiguous shell_calls shell_service (snd shell_run)) as [H _].
  - repeat constructor.
  - apply surjective_pairing.
  - destruct (H 7) as (selected & Hs & _). by exists selected.
Defined.

Definition closing : terminal_call := TcClose 5 0 CloseTask.
Definition closed_service : TerminalService := fst (terminal_do shell_service closing).

Lemma closed_is_final_witness :
  exists t, closed_service !! 5 = Some t
    /\ fst (terminal_do closed_service (TcTaskInput (shell_input 102 3 [97]))) !! 5 = Some t.
Proof.
  destruct (closed_service !! 5) as [t|] eqn:Ht; [|by vm_compute in Ht]. exists t. split; [done|].
  assert (ht_closed t = true) as Hc by (vm_compute in Ht; by injection Ht as <-).
  destruct (terminal_do closed_service (TcTaskInput (shell_input 102 3 [97]))) as [s' out] eqn:Hd.
  destruct (closed_is_final closed_service (TcTaskInput (shell_input 102 3 [97])) s' out 5 t Ht Hd) as [H _].
  destruct (H Hc eq_refl) as [Hk|[[_ Hr]|Ho]]; [exact Hk|discriminate Hr|].
  exfalso. subst out. vm_compute in Hd. discriminate Hd.
Defined.

(** Scrolling moves the sequence on without a delta: a client one behind is told that
    nothing changed, whatever the screen now shows. *)
Example scroll_leaves_client_behind :
  let scrolled := fst (terminal_do shell_service (TcScroll 7 (Some 20) 5)) in
  let updates since := snd (service_updates_since scrolled 5 9 1 since) in
  rmap (fun t => ht_sequence t) (ok_or (scrolled !! 5) TeNotFound) = Ok 2
  /\ updates 1 = Ok (RuDeltas [])
  /\ rmap (fun view => ss_display_offset (sv_screen view)) (snd (service_session_view scrolled 5)) = Ok 5.
Proof. by vm_compute. Qed.
