(* ===== verification/TerminalReplica.v ===== *)
(** A client's copy of a hosted terminal ([terminal/replica.rs]): snapshots replace it,
    deltas in unbroken sequence move it on, anything else makes it ask for a snapshot.  The
    theorem relates it to the terminal of [Terminal] whose deltas it is sent. *)
From S2P Require Import Prelude Canonical Query TerminalProtocol Terminal TerminalService TerminalRuns TerminalStamps TerminalSlots.

Record TerminalSelectionSnapshot := {
  sel_start_row : N;
  sel_start_column : N;
  sel_end_row : N;
  sel_end_column : N;
}.

Record TerminalSearchMatch := {
  sm_buffer_line : N;
  sm_start_column : N;
  sm_end_column : N;
  sm_preview : text;
}.

Record ClientViewport := {
  vp_scroll_offset : N;
  vp_selection : option TerminalSelectionSnapshot;
  vp_search_query : option text;
  vp_search_matches : list TerminalSearchMatch;
  vp_hover_row : option N;
  vp_hover_column : option N;
}.

Definition viewport_default : ClientViewport :=
  {| vp_scroll_offset := 0; vp_selection := None; vp_search_query := None; vp_search_matches := [];
     vp_hover_row := None; vp_hover_column := None |}.

Record TerminalReplica := {
  tp_terminal_id : option TerminalId;
  tp_generation : option TerminalGeneration;
  tp_sequence : TerminalSequence;
  tp_size_cols : N;
  tp_size_rows : N;
  tp_cursor : option TerminalCursorSnapshot;
  tp_modes : TerminalModeSnapshot;
  tp_title : option text;
  tp_rows : list text;
  tp_history_rows : N;
  tp_truncated : bool;
  tp_pending : list TerminalDelta;
  tp_needs_snapshot : bool;
  tp_viewport : ClientViewport;
  tp_owner_client : option ClientId;
}.

Definition replica_new : TerminalReplica :=
  {| tp_terminal_id := None; tp_generation := None; tp_sequence := 0; tp_size_cols := 0;
     tp_size_rows := 0; tp_cursor := None; tp_modes := mode_default; tp_title := None; tp_rows := [];
     tp_history_rows := 0; tp_truncated := false; tp_pending := []; tp_needs_snapshot := true;
     tp_viewport := viewport_default; tp_owner_client := None |}.

Definition replica_eta (r : TerminalReplica) : TerminalReplica :=
  {| tp_terminal_id := tp_terminal_id r; tp_generation := tp_generation r; tp_sequence := tp_sequence r;
     tp_size_cols := tp_size_cols r; tp_size_rows := tp_size_rows r; tp_cursor := tp_cursor r;
     tp_modes := tp_modes r; tp_title := tp_title r; tp_rows := tp_rows r;
     tp_history_rows := tp_history_rows r; tp_truncated := tp_truncated r; tp_pending := tp_pending r;
     tp_needs_snapshot := tp_needs_snapshot r; tp_viewport := tp_viewport r;
     tp_owner_client := tp_owner_client r |}.

Ltac replica_start r := eval cbv beta delta [replica_eta] in (replica_eta r).

Definition rp_with_sequence (r : TerminalReplica) (v : TerminalSequence) : TerminalReplica :=
  ltac:(let x := replica_start r in let x := put x r tp_sequence v in exact x).
Definition rp_with_rows (r : TerminalReplica) (v : list text) : TerminalReplica :=
  ltac:(let x := replica_start r in let x := put x r tp_rows v in exact x).
Definition rp_with_cursor (r : TerminalReplica) (v : option TerminalCursorSnapshot) : TerminalReplica :=
  ltac:(let x := replica_start r in let x := put x r tp_cursor v in exact x).
Definition rp_with_modes (r : TerminalReplica) (v : TerminalModeSnapshot) : TerminalReplica :=
  ltac:(let x := replica_start r in let x := put x r tp_modes v in exact x).
Definition rp_with_title (r : TerminalReplica) (v : option text) : TerminalReplica :=
  ltac:(let x := replica_start r in let x := put x r tp_title v in exact x).
Definition rp_with_history (r : TerminalReplica) (truncated : bool) (rows : N) : TerminalReplica :=
  ltac:(let x := replica_start r in let x := put x r tp_truncated truncated in
        let x := put x r tp_history_rows rows in exact x).
Definition rp_with_resync (r : TerminalReplica) (needs : bool) : TerminalReplica :=
  ltac:(let x := replica_start r in let x := put x r tp_pending (@nil TerminalDelta) in
        let x := put x r tp_needs_snapshot needs in exact x).
Definition rp_with_viewport (r : TerminalReplica) (v : ClientViewport) : TerminalReplica :=
  ltac:(let x := replica_start r in let x := put x r tp_viewport v in exact x).

Definition bind_client (r : TerminalReplica) (client_id : ClientId) : TerminalReplica :=
  ltac:(let x := replica_start r in let x := put x r tp_owner_client (Some client_id) in exact x).

(** ** The viewport is the client's own *)

Definition set_scroll_offset (r : TerminalReplica) (offset : N) : TerminalReplica :=
  let v := tp_viewport r in
  rp_with_viewport r
    {| vp_scroll_offset := offset; vp_selection := vp_selection v; vp_search_query := vp_search_query v;
       vp_search_matches := vp_search_matches v; vp_hover_row := vp_hover_row v;
       vp_hover_column := vp_hover_column v |}.

Definition set_selection (r : TerminalReplica) (selection : option TerminalSelectionSnapshot)
    : TerminalReplica :=
  let v := tp_viewport r in
  rp_with_viewport r
    {| vp_scroll_offset := vp_scroll_offset v; vp_selection := selection;
       vp_search_query := vp_search_query v; vp_search_matches := vp_search_matches v;
       vp_hover_row := vp_hover_row v; vp_hover_column := vp_hover_column v |}.

Definition set_search (r : TerminalReplica) (query : option text) (matches : list TerminalSearchMatch)
    : TerminalReplica :=
  let v := tp_viewport r in
  rp_with_viewport r
    {| vp_scroll_offset := vp_scroll_offset v; vp_selection := vp_selection v;
       vp_search_query := query; vp_search_matches := matches; vp_hover_row := vp_hover_row v;
       vp_hover_column := vp_hover_column v |}.

Definition set_hover (r : TerminalReplica) (row column : option N) : TerminalReplica :=
  let v := tp_viewport r in
  rp_with_viewport r
    {| vp_scroll_offset := vp_scroll_offset v; vp_selection := vp_selection v;
       vp_search_query := vp_search_query v; vp_search_matches := vp_search_matches v;
       vp_hover_row := row; vp_hover_column := column |}.

(** ** Snapshots and deltas *)

Definition force_resync (r : TerminalReplica) : TerminalReplica := rp_with_resync r true.

Definition apply_snapshot (r : TerminalReplica) (s : TerminalSnapshot) : TerminalReplica :=
  {| tp_terminal_id := Some (tsn_terminal_id s); tp_generation := Some (tsn_generation s);
     tp_sequence := tsn_sequence s; tp_size_cols := tz_cols (tsn_size s);
     tp_size_rows := tz_rows (tsn_size s); tp_cursor := tsn_cursor s; tp_modes := tsn_modes s;
     tp_title := tsn_title s; tp_rows := tsn_rows s; tp_history_rows := tsn_history_rows s;
     tp_truncated := tsn_truncated s; tp_pending := []; tp_needs_snapshot := false;
     tp_viewport := tp_viewport r; tp_owner_client := tp_owner_client r |}.

(** [Vec::resize(n, String::new())] *)
Definition resize_rows (rows : list text) (n : N) : list text :=
  firstn (N.to_nat n) rows ++ repeat [] (N.to_nat n - length rows).

(** [rows[start..end].clone_from_slice(new)] *)
Definition splice_rows (rows : list text) (start_row : N) (new : list text) : list text :=
  firstn (N.to_nat start_row) rows ++ new ++ skipn (N.to_nat start_row + length new) rows.

Definition apply_op (r : TerminalReplica) (op : TerminalDeltaOp) : TerminalReplica * result unit TerminalError :=
  match op with
  | OpRowsChanged start_row rows =>
      if count (tp_rows r) <? start_row then (r, Err TeInvalidFence)
      else
        match checked_add start_row (count rows) with
        | None => (r, Err TeBoundExceeded)
        | Some last =>
            let old := if count (tp_rows r) <? last then resize_rows (tp_rows r) last else tp_rows r in
            (rp_with_rows r (splice_rows old start_row rows), Ok tt)
        end
  | OpScroll _ => (r, Ok tt)
  | OpCursor cursor => (rp_with_cursor r cursor, Ok tt)
  | OpMode modes => (rp_with_modes r modes, Ok tt)
  | OpTitle title => (rp_with_title r title, Ok tt)
  | OpTruncated dropped_rows =>
      (rp_with_history r true (saturating_sub (tp_history_rows r) dropped_rows), Ok tt)
  | OpExit _ => (r, Ok tt)
  end.

Fixpoint apply_ops (r : TerminalReplica) (ops : list TerminalDeltaOp) : TerminalReplica * result unit TerminalError :=
  match ops with
  | [] => (r, Ok tt)
  | op :: ops =>
      match apply_op r op with
      | (r, Ok _) => apply_ops r ops
      | (r, Err e) => (r, Err e)
      end
  end.

(** The delta follows what the replica holds. *)
Definition delta_follows (r : TerminalReplica) (delta : TerminalDelta) : bool :=
  is_some_and (tp_terminal_id r) (fun id => td_terminal_id delta =? id)
  && is_some_and (tp_generation r) (fun generation => td_generation delta =? generation)
  && match sequence_next (tp_sequence r) with
     | Ok expected => td_sequence delta =? expected
     | Err _ => false
     end.

Definition apply_delta (r : TerminalReplica) (delta : TerminalDelta) : TerminalReplica * ReplicaApplyResult :=
  if tp_needs_snapshot r then (rp_with_resync r true, NeedSnapshot)
  else if negb (delta_follows r delta) then (force_resync r, NeedSnapshot)
  else
    match apply_ops r (td_ops delta) with
    | (r, Err _) => (force_resync r, NeedSnapshot)
    | (r, Ok _) => (rp_with_sequence r (td_sequence delta), Applied)
    end.

(** Applying what the host answers, delta by delta. *)
Definition apply_deltas (r : TerminalReplica) (deltas : list TerminalDelta) : TerminalReplica :=
  fold_left (fun r delta => fst (apply_delta r delta)) deltas r.

Definition apply_update (r : TerminalReplica) (u : ReplicaUpdate) : TerminalReplica :=
  match u with
  | RuEmpty => r
  | RuDeltas deltas => apply_deltas r deltas
  | RuSnapshot s | RuCoalescedSnapshot s _ => apply_snapshot r s
  end.

(** ** Following the host *)

Definition replica_shown (r : TerminalReplica) : Shown :=
  {| sh_rows := tp_rows r; sh_cursor := tp_cursor r; sh_modes := tp_modes r; sh_title := tp_title r |}.

(** What a delta leaves alone. *)
Definition replica_place (r : TerminalReplica) :=
  (tp_terminal_id r, tp_generation r, tp_sequence r, tp_needs_snapshot r).

Definition op_fits (op : TerminalDeltaOp) : Prop :=
  match op with OpRowsChanged _ rows => count rows <= u64_max | _ => True end.

Lemma splice_top old rows :
  splice_rows (if count old <? count rows then resize_rows old (count rows) else old) 0 rows
  = rows ++ skipn (length rows) old.
Proof.
  unfold splice_rows. change (N.to_nat 0) with 0%nat. rewrite take_0. cbn [app Nat.add]. f_equal.
  destruct (N.ltb_spec (count old) (count rows)) as [H|_]; [|done].
  unfold resize_rows, count in *.
  rewrite (drop_ge old) by lia. apply drop_ge.
  rewrite length_app, length_take, repeat_length. lia.
Qed.

Lemma apply_op_top r op :
  from_top op ->
  match apply_op r op with
  | (r', Ok _) => replica_place r' = replica_place r /\ replica_shown r' = show_op (replica_shown r) op
  | (r', Err _) => ~ op_fits op
  end.
Proof.
  destruct op; cbn; try done. intros ->. destruct (N.ltb_spec (count (tp_rows r)) 0); [lia|].
  destruct (checked_add 0 (count rows)) as [n|] eqn:Hn.
  - apply checked_add_Some in Hn as [-> _]. split; [done|]. unfold replica_shown. cbn -[splice_rows count].
    by rewrite N.add_0_l, splice_top.
  - apply checked_add_None in Hn. lia.
Qed.

Lemma apply_ops_top ops : forall r,
  Forall from_top ops ->
  match apply_ops r ops with
  | (r', Ok _) => replica_place r' = replica_place r
                  /\ replica_shown r' = fold_left show_op ops (replica_shown r)
  | (r', Err _) => ~ Forall op_fits ops
  end.
Proof.
  induction ops as [|op ops IH]; intros r Ht; [done|]. apply Forall_cons in Ht as [Ho Ht]. cbn.
  pose proof (apply_op_top r op Ho) as H1. destruct (apply_op r op) as [r1 [u|e]].
  - specialize (IH r1 Ht). destruct (apply_ops r1 ops) as [r2 [u2|e2]].
    + destruct H1 as [Hp1 Hs1], IH as [Hp2 Hs2]. split; congruence.
    + by intros [_ ?]%Forall_cons.
  - by intros [? _]%Forall_cons.
Qed.

(** Applied, or asking for a snapshot; and applied when it follows and fits. *)
Lemma apply_delta_top r delta :
  tp_needs_snapshot r = false -> Forall from_top (td_ops delta) ->
  let r' := fst (apply_delta r delta) in
  (tp_needs_snapshot r' = true
   \/ (tp_needs_snapshot r' = false /\ tp_terminal_id r' = tp_terminal_id r /\ tp_generation r' = tp_generation r
       /\ tp_sequence r' = td_sequence delta
       /\ replica_shown r' = fold_left show_op (td_ops delta) (replica_shown r)))
  /\ (delta_follows r delta = true -> Forall op_fits (td_ops delta) -> tp_needs_snapshot r' = false).
Proof.
  intros Hn Ht r'. unfold r', apply_delta. rewrite Hn. destruct (delta_follows r delta); cbn [negb].
  - pose proof (apply_ops_top (td_ops delta) r Ht) as H. destruct (apply_ops r (td_ops delta)) as [r1 [u|e]]; cbn [fst].
    + destruct H as [Hp Hs]. unfold replica_place in Hp. injection Hp as H1 H2 H3 H4. split.
      * right. split_and!; cbn; try congruence. by rewrite <- Hs.
      * intros _ _. cbn. congruence.
    + split; [by left|]. intros _ Hf. by destruct H.
  - split; [by left|done].
Qed.

Lemma apply_deltas_lost deltas : forall r, tp_needs_snapshot r = true -> tp_needs_snapshot (apply_deltas r deltas) = true.
Proof.
  induction deltas as [|d ds IH]; intros r Hr; [done|]. cbn. apply IH. unfold apply_delta. by rewrite Hr.
Qed.

Lemma apply_deltas_top deltas : forall r,
  tp_needs_snapshot r = false -> Forall (fun d => Forall from_top (td_ops d)) deltas ->
  let r' := apply_deltas r deltas in
  tp_needs_snapshot r' = true
  \/ (tp_needs_snapshot r' = false /\ tp_terminal_id r' = tp_terminal_id r /\ tp_generation r' = tp_generation r
      /\ tp_sequence r' = default (tp_sequence r) (td_sequence <$> last deltas)
      /\ replica_shown r' = fold_left show_op (concat (map td_ops deltas)) (replica_shown r)).
Proof.
  induction deltas as [|d ds IH]; intros r Hn Ht; [right; by split_and!|].
  apply Forall_cons in Ht as [Hd Ht]. cbn [apply_deltas fold_left].
  destruct (apply_delta_top r d Hn Hd) as [[H|(Hn1 & Hi & Hg & Hs & Hsh)] _].
  - left. by apply apply_deltas_lost.
  - destruct (IH (fst (apply_delta r d)) Hn1 Ht) as [H|(H1 & H2 & H3 & H4 & H5)]; [by left|]. right.
    unfold apply_deltas in *. split_and!; try congruence.
    + rewrite H4, Hs, last_cons. by destruct (last ds).
    + rewrite H5, Hsh. cbn. by rewrite fold_left_app.
Qed.

(** Deltas in unbroken sequence are all applied. *)
Lemma apply_deltas_unbroken deltas : forall r id,
  tp_needs_snapshot r = false -> tp_terminal_id r = Some id ->
  Forall (fun d => td_terminal_id d = id /\ tp_generation r = Some (td_generation d)
                   /\ Forall from_top (td_ops d) /\ Forall op_fits (td_ops d) /\ td_sequence d <= u64_max) deltas ->
  (forall k d, deltas !! k = Some d -> td_sequence d = tp_sequence r + N.of_nat k + 1) ->
  tp_needs_snapshot (apply_deltas r deltas) = false.
Proof.
  induction deltas as [|d ds IH]; intros r id Hn Hi Hd Hs; [done|].
  apply Forall_cons in Hd as [(Hid & Hg & Ht & Hf & Hb) Hd]. pose proof (Hs 0%nat d eq_refl) as H0.
  assert (delta_follows r d = true) as Hfol.
  { unfold delta_follows, sequence_next. rewrite Hi, Hg, Hid. cbn. rewrite !N.eqb_refl. cbn.
    destruct (checked_add (tp_sequence r) 1) as [n|] eqn:Hc.
    - apply checked_add_Some in Hc as [-> _]. cbn. apply N.eqb_eq. lia.
    - apply checked_add_None in Hc. lia. }
  destruct (apply_delta_top r d Hn Ht) as [[H|(Hn1 & Hi1 & Hg1 & Hs1 & _)] Hok]; [by rewrite Hok in H|].
  cbn. apply (IH _ id); [done|congruence| |].
  - eapply Forall_impl; [exact Hd|]. intros x (? & ? & ? & ? & ?). split_and!; congruence || done.
  - intros k x Hk. rewrite Hs1, H0. rewrite (Hs (S k) x Hk). lia.
Qed.

(** ** What the host answers *)

Section Following.
Context `{RT : AttachedTerminalRuntime} `{FE : !FixtureEmulator} `{TO : !TerminalOrder}.

Lemma remember_only_clients client generation sequence t :
  exists v, remember_client_cursor client generation sequence t = (set_clients t v, Ok tt).
Proof.
  unfold remember_client_cursor, m_set. destruct (ht_clients t !! client) as [c|]; [by eexists|].
  exists (ht_clients t). by destruct t.
Qed.

(** The place and the screen of a terminal as a replica sees them. *)
Definition told (t : HostedTerminal) := (ht_generation t, ht_sequence t, ht_deltas t, last_shown t).

Definition snapshot_of (id : TerminalId) (t : HostedTerminal) (s : TerminalSnapshot) : Prop :=
  tsn_terminal_id s = id /\ tsn_generation s = ht_generation t /\ tsn_sequence s = ht_sequence t.

Lemma hosted_snapshot_of id t u s : hosted_snapshot id t = (u, Ok s) -> snapshot_of id u s.
Proof.
  unfold hosted_snapshot, m_bind, m_get. destruct (drain_attached_output id t) as [t1 [[]|e]]; [|done].
  destruct (screen_snapshot t1) as [t2 [screen|e]]; [|done]. destruct (current_title t2) as [t3 [title|e]]; [|done].
  by intros [= <- <-].
Qed.

Lemma coalesced_snapshot_of id c g reason clear t u r :
  coalesced_snapshot id c g reason clear t = (u, Ok r) ->
  exists s, r = RuCoalescedSnapshot s reason /\ snapshot_of id u s.
Proof.
  unfold coalesced_snapshot, m_bind, m_set. destruct (hosted_snapshot id t) as [t1 [s|e]] eqn:Hs; [|done].
  apply hosted_snapshot_of in Hs as (H1 & H2 & H3). set (t2 := if clear then _ else _).
  assert (told t2 = told t1) as [= Hg Hq _ _] by (unfold t2; by destruct clear).
  destruct (remember_only_clients c g (tsn_sequence s) t2) as [v ->]. intros [= <- <-]. exists s.
  split; [done|]. split_and!; cbn; congruence.
Qed.

(** The deltas a client at [since] is sent. *)
Definition deltas_after (since : TerminalSequence) (t : HostedTerminal) : list TerminalDelta :=
  List.filter (fun delta => since <? td_sequence delta) (ht_deltas t).

Definition deltas_answer (since : TerminalSequence) (t : HostedTerminal) (ds : list TerminalDelta) : Prop :=
  ds = deltas_after since t /\ deltas_contiguous t since = true /\ since < ht_sequence t
  /\ forall final, last ds = Some final -> td_sequence final = ht_sequence t.

Lemma updates_since_answer id c g since t u r :
  updates_since id c g since t = (u, Ok r) -> g = ht_generation t -> since <= ht_sequence t ->
  match r with
  | RuEmpty => since = ht_sequence u
  | RuDeltas ds => deltas_answer since u ds
  | RuCoalescedSnapshot s _ => snapshot_of id u s
  | RuSnapshot _ => False
  end.
Proof.
  intros H -> Hle. unfold updates_since in H. unfold m_bind at 1 in H. unfold ensure_open in H.
  destruct (ht_closed t) eqn:Hcl; revert H; unfold m_bind at 1, m_lift, m_get; cbn [guard]; rewrite ?Hcl; [done|].
  pose proof (calm_drain id t) as Hc. unfold m_bind at 1.
  destruct (drain_attached_output id t) as [t1 [[]|e]]; [|done]. cbn [fst] in Hc.
  rewrite <- (identity_generation _ _ (calm_identity _ _ Hc)). pose proof (calm_sequence _ _ Hc) as Hs. clear Hc Hcl.
  unfold m_bind at 1. rewrite N.eqb_refl. cbn [negb]. destruct (N.ltb_spec (ht_sequence t1) since); [lia|].
  destruct (N.eqb_spec since (ht_sequence t1)) as [->|Hne].
  { unfold m_bind. destruct (remember_only_clients c (ht_generation t1) (ht_sequence t1) t1) as [v ->].
    by intros [= <- <-]. }
  destruct (deltas_contiguous t1 since) eqn:Hdc; cbn [negb].
  2:{ intros (s & -> & Hsn)%coalesced_snapshot_of. done. }
  destruct (is_some_and _ _) eqn:Hfin; [intros (s & -> & Hsn)%coalesced_snapshot_of; done|].
  unfold m_bind. destruct (remember_only_clients c (ht_generation t1) (ht_sequence t1) t1) as [v ->].
  intros [= <- <-]. split_and!; [done|done|cbn; lia|]. intros final Hl. unfold deltas_after in Hl. rewrite Hl in Hfin.
  cbn in Hfin. apply negb_false_iff, N.eqb_eq in Hfin. exact Hfin.
Qed.

Lemma filter_none {A} (p : A -> bool) l : Forall (fun x => p x = false) l -> List.filter p l = [].
Proof. induction 1 as [|x l Hx _ IH]; [done|]. cbn. by rewrite Hx. Qed.
Lemma filter_whole {A} (p : A -> bool) l : Forall (fun x => p x = true) l -> List.filter p l = l.
Proof. induction 1 as [|x l Hx _ IH]; [done|]. cbn. by rewrite Hx, IH. Qed.

(** When the history reaches back to the client, the deltas it is sent are those recorded
    since, none missing. *)
Lemma deltas_after_recorded t0 t :
  hosted_bounded t0 -> recorded t0 t -> deltas_contiguous t (ht_sequence t0) = true ->
  let ds := deltas_after (ht_sequence t0) t in
  StronglySorted N.lt (map td_sequence ds) /\ Forall (delta_between t0 t) ds
  /\ moves_shown (last_shown t0) (concat (map td_ops ds)) (last_shown t).
Proof.
  intros Hb (news & gone & Hd & Hs & Hn & Hm) Hc ds. assert (ds = news) as ->; [|done]. unfold ds, deltas_after.
  assert (Forall (fun d => (ht_sequence t0 <? td_sequence d) = true) news) as Hnew.
  { eapply Forall_impl; [exact Hn|]. intros d ([? _] & _). by apply N.ltb_lt. }
  assert (Forall (fun d => (ht_sequence t0 <? td_sequence d) = false) (ht_deltas t0)) as Hold.
  { eapply Forall_impl; [exact (hb_past _ Hb)|]. intros d ?. by apply N.ltb_ge. }
  apply app_eq_inv in Hd as [(k & Hk & ->)|(k & _ & ->)].
  - rewrite List.filter_app. rewrite Hk in Hold. apply Forall_app in Hold as [_ Hold]. by rewrite (filter_none _ k), filter_whole.
  - destruct k as [|first k]; [by rewrite filter_whole|]. exfalso. unfold deltas_contiguous in Hc.
    apply andb_prop in Hc as [[[Hc _]%andb_prop _]%andb_prop _].
    destruct (ht_deltas t) as [|oldest rest]; [done|]. cbn in Hc. apply N.leb_le in Hc.
    apply Forall_cons in Hn as [([Hf _] & _) _]. rewrite map_app in Hs. cbn in Hs.
    apply StronglySorted_inv in Hs as [_ Hs]. apply Forall_app in Hs as [_ [Ho _]%Forall_cons].
    unfold saturating_add in Hc. lia.
Qed.

(** ** Along a run *)

(** A terminal that is there after a run and was not opened afresh in it was there before
    and has only moved on. *)
Lemma run_advances calls s s' log id t' :
  terminal_run s calls = (s', log) -> s' !! id = Some t' ->
  Forall (fun x => effect_on id x <> InputsForgotten) log ->
  exists t, s !! id = Some t /\ advanced t t' /\ (hosted_bounded t -> hosted_bounded t').
Proof.
  revert s' log t'. induction calls as [|call calls IH] using rev_ind; intros s' log t' Hr Ht' Hl.
  { injection Hr as <- <-. by exists t'. }
  rewrite terminal_run_snoc in Hr. destruct (terminal_run s calls) as [s1 log1].
  destruct (terminal_do s1 call) as [s2 out] eqn:Hd. injection Hr as <- <-. apply Forall_app in Hl as [Hl [Hx _]%Forall_cons].
  destruct (call_moved _ _ _ _ Hd _ _ Ht') as [Hb Hm].
  assert (exists t1, s1 !! id = Some t1 /\ advanced t1 t') as (t1 & Ht1 & Ha).
  { destruct (effect_on id (call, out)) as [|e|]; [|destruct Hm as (t1 & n & Ht1 & _ & Ha & _)|done].
    - destruct Hm as (t1 & Ht1 & _ & Ha). by exists t1.
    - by exists t1. }
  destruct (IH _ _ _ eq_refl Ht1 Hl) as (t & Ht & Ha0 & Hb0). exists t. split; [done|]. split; [by etrans|].
  intros Hb1. apply Hb. intros t2 Ht2. simplify_eq. auto.
Qed.

(** The replica holds what the host last recorded of the terminal. *)
Record follows (id : TerminalId) (r : TerminalReplica) (t : HostedTerminal) : Prop := {
  fo_ready : tp_needs_snapshot r = false;
  fo_terminal : tp_terminal_id r = Some id;
  fo_generation : tp_generation r = Some (ht_generation t);
  fo_sequence : tp_sequence r = ht_sequence t;
  fo_screen : showing (replica_shown r) (last_shown t);
}.

(** Every move of the sequence came with a delta, whose rows a machine word counts. *)
Definition unbroken (since now : TerminalSequence) (ds : list TerminalDelta) : Prop :=
  since + count ds = now /\ Forall (fun d => Forall op_fits (td_ops d)) ds.

(** Where an answer leaves the replica. *)
Definition kept_up (id : TerminalId) (r : TerminalReplica) (t : HostedTerminal) (u : ReplicaUpdate) : Prop :=
  let r' := apply_update r u in
  match u with
  | RuEmpty => follows id r' t
  | RuDeltas ds =>
      (tp_needs_snapshot r' = true \/ follows id r' t \/ (ds = [] /\ showing (replica_shown r') (last_shown t)))
      /\ (unbroken (tp_sequence r) (ht_sequence t) ds -> follows id r' t)
  | RuCoalescedSnapshot s _ =>
      snapshot_of id t s /\ tp_needs_snapshot r' = false /\ tp_terminal_id r' = Some id
      /\ tp_generation r' = Some (ht_generation t) /\ tp_sequence r' = ht_sequence t
      /\ replica_shown r' = {| sh_rows := tsn_rows s; sh_cursor := tsn_cursor s; sh_modes := tsn_modes s;
                               sh_title := tsn_title s |}
  | RuSnapshot _ => False
  end.

(** Strictly increasing numbers, as many as the gap they lie in, are consecutive. *)
Lemma sorted_fills (l : list N) : forall a,
  StronglySorted N.lt l -> Forall (fun x => a < x <= a + count l) l ->
  forall k x, l !! k = Some x -> x = a + N.of_nat k + 1.
Proof.
  assert (forall l a b, StronglySorted N.lt l -> Forall (fun x => a < x <= b) l -> count l <= b - a) as Hroom.
  { clear. induction l as [|x l IH]; intros a b Hs Hl; [unfold count; cbn; lia|].
    apply StronglySorted_inv in Hs as [Hs Hx]. apply Forall_cons in Hl as [Ha Hl]. rewrite count_cons.
    assert (count l <= b - x); [|lia]. apply IH; [done|]. rewrite Forall_forall in *. intros y Hy.
    specialize (Hx y Hy). specialize (Hl y Hy). cbn in *. lia. }
  induction l as [|x l IH]; intros a Hs Hl k y Hk; [done|].
  apply StronglySorted_inv in Hs as [Hs Hx]. apply Forall_cons in Hl as [Ha Hl]. rewrite count_cons in *.
  assert (Forall (fun y => x < y <= a + (count l + 1)) l) as Hl'.
  { rewrite Forall_forall in *. intros z Hz. specialize (Hx z Hz). specialize (Hl z Hz). cbn in *. lia. }
  pose proof (Hroom _ _ _ Hs Hl'). destruct k as [|k]; [injection Hk as <-; lia|].
  assert (x = a + 1) as -> by lia. rewrite (IH (a + 1) Hs) with (k := k) (x := y); [lia| |done].
  eapply Forall_impl; [exact Hl'|]. intros z ?. cbn in *. lia.
Qed.

Lemma sent_deltas_keep_up id r t0 t ds :
  hosted_bounded t0 -> hosted_bounded t -> stamped id t -> follows id r t0 -> advanced t0 t ->
  deltas_answer (tp_sequence r) t ds -> kept_up id r t (RuDeltas ds).
Proof.
  intros Hb0 Hb Hst [Hn Hi Hg Hq Hsh] [Hgen Hseq Hrec] (-> & Hc & Hlt & Hlast). rewrite Hq in *.
  assert (Forall (fun d => td_terminal_id d = id) (deltas_after (ht_sequence t0) t)) as Hids
    by (unfold stamped in Hst; rewrite Forall_forall in Hst |- *; intros d [Hd _]%list_elem_of_In%filter_In;
        by apply Hst, list_elem_of_In).
  destruct (deltas_after_recorded t0 t Hb0 Hrec Hc) as (Hs & Hd & Hm). set (ds := deltas_after _ t) in *. clearbody ds.
  assert (Forall (fun d => Forall from_top (td_ops d)) ds) as Htop.
  { eapply Forall_impl; [exact Hd|]. by intros d (_ & _ & ?). }
  pose proof (apply_deltas_top ds r Hn Htop) as Hr. cbv zeta in Hr. unfold kept_up. cbn [apply_update].
  destruct Hr as [Hr|(H1 & H2 & H3 & H4 & H5)].
  - split; [by left|]. intros [Hgap Hu]. exfalso.
    rewrite (apply_deltas_unbroken ds r id Hn Hi) in Hr; [done| |].
    + rewrite Forall_forall in *. intros d Hin. pose proof (Hids d Hin). pose proof (Hu d Hin). destruct (Hd d Hin) as ([_ ?] & ? & ?).
      pose proof (hb_sequence _ Hb). split_and!; try done; [congruence|lia].
    + intros k d Hk. rewrite Hq. apply (sorted_fills (map td_sequence ds)); [done| |by rewrite list_lookup_fmap, Hk].
      apply Forall_map. eapply Forall_impl; [exact Hd|]. intros x ([? ?] & _). cbn.
      unfold count in *. rewrite length_map. lia.
  - assert (showing (replica_shown (apply_deltas r ds)) (last_shown t)) as Hshow by (rewrite H5; by apply Hm).
    destruct (last ds) as [final|] eqn:Hl.
    + assert (follows id (apply_deltas r ds) t) as Hf.
      { split; try congruence. rewrite H4. cbn. by apply Hlast. }
      split; [by right; left|done].
    + apply last_None in Hl as ->. split; [by right; right|]. intros [Hgap _]. unfold count in Hgap. cbn in Hgap. lia.
Qed.

(** C23: A replica holds what the host last recorded of a terminal when it has its generation,
    sequence, cursor, modes and title and its rows begin with the host's (rows below them may be
    stale, since a screen that shrinks takes none away).  Such a replica keeps up: whatever the
    host's callers and readers do meanwhile, short of opening the terminal afresh or replacing its
    generation, the answer to the replica's next poll leaves it holding what the host then last
    recorded of the screen (at its sequence, or with no delta at an older one), or the snapshot the
    host just took, or asking for a snapshot.  Every delta the host sends carries the terminal's own identifier, and when deltas answer a poll and
    every move of the sequence came with one, the replica takes them all and is never made to start
    over. *)
Theorem replica_tracks_host before calls s0 log0 s1 log1 s2 id client generation r t0 u :
  terminal_run ∅ before = (s0, log0) -> s0 !! id = Some t0 -> follows id r t0 ->
  terminal_run s0 calls = (s1, log1) -> Forall (fun x => effect_on id x <> InputsForgotten) log1 ->
  tp_generation r = Some generation ->
  service_updates_since s1 id client generation (tp_sequence r) = (s2, Ok u) ->
  exists t, s2 !! id = Some t /\ advanced t0 t /\ kept_up id r t u
    /\ Forall (fun d => td_terminal_id d = id) (ht_deltas t).
Proof.
  intros H0 Ht0 Hf H1 Hl Hg Hu. assert (all_stamped s2) as Hst.
  { replace s2 with (fst (service_updates_since s1 id client generation (tp_sequence r))) by by rewrite Hu.
    apply on_terminal_stamped; [apply stamps_updates|]. eapply run_stamped, H1.
    eapply run_stamped, H0. apply map_Forall_empty. }
  unfold service_updates_since, on_terminal in Hu.
  destruct (s1 !! id) as [t1|] eqn:Ht1; [|done].
  destruct (run_advances _ _ _ _ _ _ H1 Ht1 Hl) as (t & Ht & Ha & Hb). simplify_eq.
  pose proof (run_inputs before) as Hrun. rewrite H0 in Hrun. destruct (Hrun _ _ Ht0) as [_ Hb0]. specialize (Hb Hb0).
  pose proof (calm_updates id client generation (tp_sequence r) t1) as Hc.
  destruct (updates_since id client generation (tp_sequence r) t1) as [t2 a] eqn:Hup. injection Hu as <- ->. cbn [fst] in Hc.
  specialize (Hst id t2 ltac:(apply lookup_insert_eq)).
  exists t2. rewrite lookup_insert_eq. assert (advanced t0 t2) as Ha2 by (etrans; [exact Ha|by apply calm_advanced]).
  split_and!; [done|done| |exact Hst]. pose proof (fo_sequence _ _ _ Hf) as Hq. pose proof (fo_generation _ _ _ Hf) as Hgr.
  apply updates_since_answer in Hup;
    [|rewrite (ad_generation _ _ Ha); congruence|rewrite Hq; apply (ad_sequence _ _ Ha)].
  destruct u as [|ds|s|s reason]; [|by eapply sent_deltas_keep_up; [| | |exact Hf| |]; eauto using calm_bounded|done|].
  - destruct Hf as [Hn Hi _ _ Hsh]. destruct Ha2 as [Hgen Hseq (news & gone & Hd & Hs & Hnew & Hm)].
    assert (news = []) as ->.
    { destruct news as [|d news]; [done|]. apply Forall_cons in Hnew as [([? ?] & _) _]. lia. }
    cbn. split; try done; [congruence|]. by apply (Hm (replica_shown r)).
  - destruct Hup as (H2 & H3 & H4). cbn. split_and!; try done; by f_equal.
Qed.
End Following.

(** ** A shell followed by a client *)

#[local] Existing Instance toy_attached.
#[local] Existing Instance toy_emulator.
#[local] Existing Instance toy_terminal_order.

Definition watched_calls : list terminal_call := shell_calls ++ [TcSnapshot 5].
Definition watched_service : TerminalService := fst (terminal_run ∅ watched_calls).
Definition watched_terminal : HostedTerminal := default shell_terminal (watched_service !! 5).

Definition watching : TerminalReplica :=
  match snd (service_snapshot watched_service 5) with
  | Ok s => apply_snapshot (bind_client replica_new 9) s
  | Err _ => replica_new
  end.

Definition typed_calls : list terminal_call :=
  [TcTaskInput (shell_input 102 3 [97]); TcOutput 5 1; TcPump 5; TcOutput 5 1; TcOutput 5 1].
Definition typed_service : TerminalService := fst (terminal_run watched_service typed_calls).
Definition typed_log : terminal_log := snd (terminal_run watched_service typed_calls).
Definition polled := service_updates_since typed_service 5 9 1 (tp_sequence watching).
Definition answered : ReplicaUpdate := match snd polled with Ok u => u | Err _ => RuEmpty end.

Lemma watching_follows : follows 5 watching watched_terminal.
Proof. split; [by vm_compute..|]. repeat split; by vm_compute. Qed.

(** Three outputs, three deltas; the typed letter is on the replica's screen. *)
Example watched_screen :
  tp_sequence watching = 1
  /\ tp_sequence (apply_update watching answered) = 4
  /\ tp_rows (apply_update watching answered) = [[108; 115; 13; 97]].
Proof. by vm_compute. Qed.

(** A screen with fewer rows leaves the replica's last rows as they were. *)
Example rows_never_shrink :
  tp_rows (fst (apply_op (rp_with_rows watching [[97]; [98]; [99]]) (OpRowsChanged 0 [[100]; [101]])))
  = [[100]; [101]; [99]].
Proof. reflexivity. Qed.

Lemma replica_tracks_host_witness :
  exists t, fst polled !! 5 = Some t /\ advanced watched_terminal t /\ kept_up 5 watching t answered
    /\ Forall (fun d => td_terminal_id d = 5) (ht_deltas t).
Proof.
  apply (replica_tracks_host watched_calls typed_calls watched_service (snd (terminal_run ∅ watched_calls))
           typed_service typed_log (fst polled) 5 9 1 watching watched_terminal answered).
  - apply surjective_pairing.
  - by vm_compute.
  - apply watching_follows.
  - apply surjective_pairing.
  - by vm_compute; repeat constructor.
  - by vm_compute.
  - by vm_compute.
Defined.
