(* ===== verification/ConnectLimits.v ===== *)
(** The limits of a Connect channel ([connect/envelope.rs]): what both ends declare,
    negotiate and check payloads, pages, chunks, cursors and diagnostics against, and
    the chunk receiver derived from them. *)
From S2P Require Import Prelude Snapshot Frame Chunk.

Definition MAX_CONNECT_PHYSICAL_FRAME_BYTES : N := MAX_PHYSICAL_FRAME_BYTES.
Definition MAX_CONNECT_REASSEMBLED_MESSAGE_BYTES : N := MAX_REASSEMBLED_MESSAGE_BYTES.
Definition MAX_CONNECT_PAGE_ITEMS : N := MAX_SNAPSHOT_PAGE_ITEMS.
Definition MAX_CONNECT_PAGE_ENCODED_BYTES : N := MAX_SNAPSHOT_PAGE_ENCODED_BYTES.
Definition MAX_CONNECT_CHUNK_BYTES : N := 256 * 1024.
Definition MAX_CONNECT_CUMULATIVE_BYTES : N := MAX_CONNECT_REASSEMBLED_MESSAGE_BYTES.
Definition MAX_CONNECT_CURSOR_BYTES : N := 64 * 1024.
Definition MAX_CONNECT_DIAGNOSTIC_BYTES : N := 8 * 1024.

Inductive ConnectLimitField :=
| ClPhysicalFrameBytes | ClReassembledMessageBytes | ClPageItems | ClPageEncodedBytes
| ClChunkBytes | ClCumulativeBytes | ClCursorBytes | ClDiagnosticBytes.

Inductive ConnectLimitError :=
| ClZero (field : ConnectLimitField)
| ClExceedsHardMaximum (field : ConnectLimitField) (declared maximum : N)
| ClChunkExceedsPhysicalFrame (chunk physical : N)
| ClChunkExceedsMessage (chunk message : N)
| ClCumulativeBelowChunk (cumulative chunk : N)
| ClPageItemsExceeded (declared maximum : N)
| ClPageBytesExceeded (declared maximum : N)
| ClEmptyChunk
| ClChunkExceeded (declared maximum : N)
| ClCumulativeExceeded (declared maximum : N)
| ClCumulativeOverflow
| ClCursorEmpty
| ClCursorExceeded (declared maximum : N)
| ClDiagnosticEmpty
| ClDiagnosticExceeded (declared maximum : N)
| ClPayloadExceeded (declared maximum : N).

Record ConnectLimits := {
  cl_max_physical_frame_bytes : N;
  cl_max_reassembled_message_bytes : N;
  cl_max_page_items : N;
  cl_max_page_encoded_bytes : N;
  cl_max_chunk_bytes : N;
  cl_max_cumulative_bytes : N;
}.

#[export] Instance ConnectLimits_eq_dec : EqDecision ConnectLimits.
Proof. solve_decision. Defined.

Definition connect_v1_default : ConnectLimits :=
  {| cl_max_physical_frame_bytes := MAX_CONNECT_PHYSICAL_FRAME_BYTES;
     cl_max_reassembled_message_bytes := MAX_CONNECT_REASSEMBLED_MESSAGE_BYTES;
     cl_max_page_items := MAX_CONNECT_PAGE_ITEMS;
     cl_max_page_encoded_bytes := MAX_CONNECT_PAGE_ENCODED_BYTES;
     cl_max_chunk_bytes := MAX_CONNECT_CHUNK_BYTES;
     cl_max_cumulative_bytes := MAX_CONNECT_CUMULATIVE_BYTES |}.

Definition connect_max_cursor_bytes (l : ConnectLimits) : N :=
  if MAX_CONNECT_CURSOR_BYTES <? cl_max_reassembled_message_bytes l then MAX_CONNECT_CURSOR_BYTES
  else cl_max_reassembled_message_bytes l.

Definition connect_max_diagnostic_bytes (l : ConnectLimits) : N :=
  if MAX_CONNECT_DIAGNOSTIC_BYTES <? cl_max_reassembled_message_bytes l then MAX_CONNECT_DIAGNOSTIC_BYTES
  else cl_max_reassembled_message_bytes l.

Definition bounded_limit (f : ConnectLimitField * N * N) : result unit ConnectLimitError :=
  let '(field, value, maximum) := f in
  ensure negb (value =? 0) else ClZero field ;;
  guard (negb (maximum <? value)) (ClExceedsHardMaximum field value maximum).

Definition connect_validate (l : ConnectLimits) : result unit ConnectLimitError :=
  try? fold_left (fun acc f => try? acc ;; bounded_limit f)
    [(ClPhysicalFrameBytes, cl_max_physical_frame_bytes l, MAX_CONNECT_PHYSICAL_FRAME_BYTES);
     (ClReassembledMessageBytes, cl_max_reassembled_message_bytes l, MAX_CONNECT_REASSEMBLED_MESSAGE_BYTES);
     (ClPageItems, cl_max_page_items l, MAX_CONNECT_PAGE_ITEMS);
     (ClPageEncodedBytes, cl_max_page_encoded_bytes l, MAX_CONNECT_PAGE_ENCODED_BYTES);
     (ClChunkBytes, cl_max_chunk_bytes l, MAX_CONNECT_CHUNK_BYTES);
     (ClCumulativeBytes, cl_max_cumulative_bytes l, MAX_CONNECT_CUMULATIVE_BYTES)] (Ok tt) ;;
  ensure negb (cl_max_physical_frame_bytes l <? cl_max_chunk_bytes l)
    else ClChunkExceedsPhysicalFrame (cl_max_chunk_bytes l) (cl_max_physical_frame_bytes l) ;;
  ensure negb (cl_max_reassembled_message_bytes l <? cl_max_chunk_bytes l)
    else ClChunkExceedsMessage (cl_max_chunk_bytes l) (cl_max_reassembled_message_bytes l) ;;
  ensure negb (cl_max_cumulative_bytes l <? cl_max_chunk_bytes l)
    else ClCumulativeBelowChunk (cl_max_cumulative_bytes l) (cl_max_chunk_bytes l) ;;
  guard (negb (cl_max_reassembled_message_bytes l <? cl_max_cumulative_bytes l))
    (ClExceedsHardMaximum ClCumulativeBytes (cl_max_cumulative_bytes l)
       (cl_max_reassembled_message_bytes l)).

Definition connect_try_new (physical message items encoded chunk cumulative : N)
    : result ConnectLimits ConnectLimitError :=
  let limits :=
    {| cl_max_physical_frame_bytes := physical; cl_max_reassembled_message_bytes := message;
       cl_max_page_items := items; cl_max_page_encoded_bytes := encoded;
       cl_max_chunk_bytes := chunk; cl_max_cumulative_bytes := cumulative |} in
  try? connect_validate limits ;;
  Ok limits.

Definition connect_negotiate (l peer : ConnectLimits) : result ConnectLimits ConnectLimitError :=
  try? connect_validate l ;;
  try? connect_validate peer ;;
  connect_try_new
    (N.min (cl_max_physical_frame_bytes l) (cl_max_physical_frame_bytes peer))
    (N.min (cl_max_reassembled_message_bytes l) (cl_max_reassembled_message_bytes peer))
    (N.min (cl_max_page_items l) (cl_max_page_items peer))
    (N.min (cl_max_page_encoded_bytes l) (cl_max_page_encoded_bytes peer))
    (N.min (cl_max_chunk_bytes l) (cl_max_chunk_bytes peer))
    (N.min (cl_max_cumulative_bytes l) (cl_max_cumulative_bytes peer)).

Definition connect_frame_limits (l : ConnectLimits) : FrameLimits :=
  {| max_physical_frame_bytes := cl_max_physical_frame_bytes l;
     max_reassembled_message_bytes := cl_max_reassembled_message_bytes l;
     max_page_items := cl_max_page_items l;
     max_page_encoded_bytes := cl_max_page_encoded_bytes l |}.

Definition connect_validate_payload_len (l : ConnectLimits) (length : N) : result unit ConnectLimitError :=
  guard (negb (cl_max_reassembled_message_bytes l <? length))
    (ClPayloadExceeded length (cl_max_reassembled_message_bytes l)).

Definition connect_validate_page (l : ConnectLimits) (items encoded_bytes : N)
    : result unit ConnectLimitError :=
  ensure negb (cl_max_page_items l <? items) else ClPageItemsExceeded items (cl_max_page_items l) ;;
  guard (negb (cl_max_page_encoded_bytes l <? encoded_bytes))
    (ClPageBytesExceeded encoded_bytes (cl_max_page_encoded_bytes l)).

Definition connect_validate_chunk (l : ConnectLimits) (cumulative_before : N) (chunk : list N)
    : result N ConnectLimitError :=
  ensure negb (is_empty chunk) else ClEmptyChunk ;;
  ensure negb (cl_max_chunk_bytes l <? count chunk)
    else ClChunkExceeded (count chunk) (cl_max_chunk_bytes l) ;;
  ensure negb (cl_max_cumulative_bytes l <? cumulative_before)
    else ClCumulativeExceeded cumulative_before (cl_max_cumulative_bytes l) ;;
  let? cumulative := ok_or (checked_add cumulative_before (count chunk)) ClCumulativeOverflow in
  ensure negb (cl_max_cumulative_bytes l <? cumulative)
    else ClCumulativeExceeded cumulative (cl_max_cumulative_bytes l) ;;
  Ok cumulative.

Definition connect_validate_cursor_len (l : ConnectLimits) (length : N) : result unit ConnectLimitError :=
  ensure negb (length =? 0) else ClCursorEmpty ;;
  guard (negb (connect_max_cursor_bytes l <? length))
    (ClCursorExceeded length (connect_max_cursor_bytes l)).

Definition connect_validate_diagnostic_len (l : ConnectLimits) (length : N) : result unit ConnectLimitError :=
  ensure negb (length =? 0) else ClDiagnosticEmpty ;;
  guard (negb (connect_max_diagnostic_bytes l <? length))
    (ClDiagnosticExceeded length (connect_max_diagnostic_bytes l)).

(** ** The chunk receiver *)

Definition chunk_field (f : ChunkLimitField) : ConnectLimitField :=
  match f with
  | ChunkBytes => ClChunkBytes
  | CumulativeBytes => ClCumulativeBytes
  | CursorBytes => ClCursorBytes
  end.

Definition map_protocol_chunk_limits_error (e : ChunkLimitsError) : ConnectLimitError :=
  match e with
  | ChunkLimitZero field => ClZero (chunk_field field)
  | ExceedsHardMaximum field declared maximum =>
      ClExceedsHardMaximum (chunk_field field) declared maximum
  | ChunkExceedsCumulative chunk cumulative => ClCumulativeBelowChunk cumulative chunk
  end.

Definition map_protocol_chunk_error (e : ChunkError) : ConnectLimitError :=
  match e with
  | ChunkLimitsErr e => map_protocol_chunk_limits_error e
  | EmptyPayload => ClEmptyChunk
  | ChunkTooLarge declared maximum => ClChunkExceeded declared maximum
  | CumulativeOverflow => ClCumulativeOverflow
  | CumulativeTooLarge declared maximum => ClCumulativeExceeded declared maximum
  | CursorEmpty => ClCursorEmpty
  | CursorTooLarge declared maximum => ClCursorExceeded declared maximum
  | _ => ClEmptyChunk
  end.

Definition canonical_chunk_limits (l : ConnectLimits) : result ChunkLimits ConnectLimitError :=
  map_err map_protocol_chunk_limits_error
    (chunk_limits_try_new (cl_max_chunk_bytes l) (cl_max_cumulative_bytes l)
       (connect_max_cursor_bytes l)).

Definition connect_chunk_context (l : ConnectLimits) (transfer_id : TransferId)
    (resume_cursor : option (list N)) : result ChunkContext ConnectLimitError :=
  try? connect_validate l ;;
  let? chunk_limits := canonical_chunk_limits l in
  try? match resume_cursor with
       | None => Ok tt
       | Some cursor => connect_validate_cursor_len l (count cursor)
       end ;;
  map_err map_protocol_chunk_error (chunk_context_new transfer_id chunk_limits resume_cursor).

(** ** Negotiation *)

Record limits_valid (l : ConnectLimits) : Prop := {
  lv_physical : 0 < cl_max_physical_frame_bytes l <= MAX_CONNECT_PHYSICAL_FRAME_BYTES;
  lv_message : 0 < cl_max_reassembled_message_bytes l <= MAX_CONNECT_REASSEMBLED_MESSAGE_BYTES;
  lv_items : 0 < cl_max_page_items l <= MAX_CONNECT_PAGE_ITEMS;
  lv_encoded : 0 < cl_max_page_encoded_bytes l <= MAX_CONNECT_PAGE_ENCODED_BYTES;
  lv_chunk : 0 < cl_max_chunk_bytes l <= MAX_CONNECT_CHUNK_BYTES;
  lv_cumulative : 0 < cl_max_cumulative_bytes l <= MAX_CONNECT_CUMULATIVE_BYTES;
  lv_chunk_physical : cl_max_chunk_bytes l <= cl_max_physical_frame_bytes l;
  lv_chunk_message : cl_max_chunk_bytes l <= cl_max_reassembled_message_bytes l;
  lv_chunk_cumulative : cl_max_chunk_bytes l <= cl_max_cumulative_bytes l;
  lv_cumulative_message : cl_max_cumulative_bytes l <= cl_max_reassembled_message_bytes l;
}.

Lemma bounded_limit_Ok f v m u : bounded_limit (f, v, m) = Ok u <-> 0 < v <= m.
Proof.
  unfold bounded_limit. split.
  - intros H. peel H. apply guard_Ok in H. facts. lia.
  - intros [Hv Hm]. apply N.ltb_ge in Hm as ->. destruct (N.eqb_spec v 0); [lia|]. by destruct u.
Qed.

Lemma connect_validate_Ok l : connect_validate l = Ok tt <-> limits_valid l.
Proof.
  unfold connect_validate. cbn [fold_left]. split.
  - intros H. peel H. apply guard_Ok in H.
    repeat match goal with G : rbind _ _ = Ok _ |- _ =>
      let F := fresh "F" in apply rbind_Ok in G as (? & F & G) end. facts.
    repeat match goal with G : bounded_limit _ = Ok _ |- _ => apply bounded_limit_Ok in G end.
    split; lia.
  - intros []. cbn [rbind].
    repeat match goal with |- context [bounded_limit (?f, ?v, ?m)] =>
      rewrite (proj2 (bounded_limit_Ok f v m tt)) by lia; cbn [rbind] end.
    by rewrite !(proj2 (N.ltb_ge _ _)) by lia.
Qed.

(** What both ends can keep. *)
Definition limits_meet (l peer : ConnectLimits) : ConnectLimits :=
  {| cl_max_physical_frame_bytes := N.min (cl_max_physical_frame_bytes l) (cl_max_physical_frame_bytes peer);
     cl_max_reassembled_message_bytes :=
       N.min (cl_max_reassembled_message_bytes l) (cl_max_reassembled_message_bytes peer);
     cl_max_page_items := N.min (cl_max_page_items l) (cl_max_page_items peer);
     cl_max_page_encoded_bytes := N.min (cl_max_page_encoded_bytes l) (cl_max_page_encoded_bytes peer);
     cl_max_chunk_bytes := N.min (cl_max_chunk_bytes l) (cl_max_chunk_bytes peer);
     cl_max_cumulative_bytes := N.min (cl_max_cumulative_bytes l) (cl_max_cumulative_bytes peer) |}.

Lemma meet_valid l peer : limits_valid l -> limits_valid peer -> limits_valid (limits_meet l peer).
Proof. intros [] []. split; cbn; lia. Qed.

Lemma connect_negotiate_Ok l peer m :
  connect_negotiate l peer = Ok m <-> limits_valid l /\ limits_valid peer /\ m = limits_meet l peer.
Proof.
  unfold connect_negotiate, connect_try_new. fold (limits_meet l peer). split.
  - intros H. peel H. facts. apply connect_validate_Ok in G, G0. by subst m.
  - intros (Hl & Hp & ->). pose proof (meet_valid l peer Hl Hp) as Hm.
    apply connect_validate_Ok in Hl as ->, Hp as ->, Hm as ->. done.
Qed.

Lemma canonical_chunk_limits_Ok l :
  limits_valid l ->
  canonical_chunk_limits l
  = Ok {| max_chunk_bytes := cl_max_chunk_bytes l; max_cumulative_bytes := cl_max_cumulative_bytes l;
          max_cursor_bytes := connect_max_cursor_bytes l |}.
Proof.
  intros Hl. unfold canonical_chunk_limits, chunk_limits_try_new, chunk_limits_validate.
  assert (0 < connect_max_cursor_bytes l <= MAX_CURSOR_BYTES) as [Hc0 Hc].
  { destruct Hl. unfold connect_max_cursor_bytes, MAX_CONNECT_CURSOR_BYTES, MAX_CURSOR_BYTES.
    destruct (N.ltb_spec (64 * 1024) (cl_max_reassembled_message_bytes l)); lia. }
  destruct Hl. unfold MAX_CONNECT_CHUNK_BYTES, MAX_CONNECT_CUMULATIVE_BYTES,
    MAX_CONNECT_REASSEMBLED_MESSAGE_BYTES, MAX_REASSEMBLED_MESSAGE_BYTES in *.
  unfold MAX_CHUNK_BYTES, MAX_CUMULATIVE_BYTES. cbn [fold_left max_chunk_bytes max_cumulative_bytes max_cursor_bytes].
  rewrite !(proj2 (N.eqb_neq _ 0)) by lia. by rewrite !(proj2 (N.ltb_ge _ _)) by lia.
Qed.

(** Two ends of a Connect channel always agree on limits both can keep: negotiation succeeds
    exactly when each declares limits in the protocol's range, whichever of them negotiates, and
    yields the smaller of every pair, again in range, so negotiating once more changes nothing; and
    any limits in range give a chunk receiver of exactly their chunk, total and cursor bounds, for
    every transfer and every cursor those bounds allow. *)
Theorem connect_limits_agree l peer :
  (succeeds (connect_negotiate l peer) <-> limits_valid l /\ limits_valid peer)
  /\ (forall m, connect_negotiate l peer = Ok m ->
        connect_negotiate peer l = Ok m /\ limits_valid m
        /\ connect_negotiate m l = Ok m /\ connect_negotiate m peer = Ok m)
  /\ (limits_valid l -> forall transfer_id cursor,
        (forall c, cursor = Some c -> 0 < count c <= connect_max_cursor_bytes l) ->
        exists context, connect_chunk_context l transfer_id cursor = Ok context
          /\ chc_transfer_id context = transfer_id /\ chc_resume_cursor context = cursor
          /\ max_chunk_bytes (chc_limits context) = cl_max_chunk_bytes l
          /\ max_cumulative_bytes (chc_limits context) = cl_max_cumulative_bytes l
          /\ max_cursor_bytes (chc_limits context) = connect_max_cursor_bytes l).
Proof.
  split_and!.
  - split; [intros [m Hm]; by apply connect_negotiate_Ok in Hm as (? & ? & _)|].
    intros [Hl Hp]. exists (limits_meet l peer). by apply connect_negotiate_Ok.
  - intros m (Hl & Hp & ->)%connect_negotiate_Ok. pose proof (meet_valid l peer Hl Hp) as Hm.
    rewrite !connect_negotiate_Ok. unfold limits_meet. cbn.
    split_and!; try done; f_equal; lia.
  - intros Hl transfer_id cursor Hc. unfold connect_chunk_context.
    rewrite (proj2 (connect_validate_Ok l) Hl), canonical_chunk_limits_Ok by done. cbn [rbind].
    pose proof (canonical_chunk_limits_Ok l Hl) as Hv. unfold canonical_chunk_limits, chunk_limits_try_new in Hv.
    peel Hv. unfold chunk_context_new. destruct x.
    match goal with G : chunk_limits_validate _ = Ok _ |- _ => rewrite G end.
    destruct cursor as [c|]; [|by eexists]. specialize (Hc c eq_refl).
    unfold connect_validate_cursor_len, validate_cursor_len. cbn [map_err rbind max_cursor_bytes].
    rewrite (proj2 (N.eqb_neq _ _)), (proj2 (N.ltb_ge _ _)) by lia. by eexists.
Qed.

Lemma connect_limits_agree_witness :
  let small := {| cl_max_physical_frame_bytes := 4096; cl_max_reassembled_message_bytes := 65536;
                  cl_max_page_items := 10; cl_max_page_encoded_bytes := 4096;
                  cl_max_chunk_bytes := 2048; cl_max_cumulative_bytes := 65536 |} in
  connect_negotiate connect_v1_default small = Ok small
  /\ connect_negotiate small connect_v1_default = Ok small.
Proof.
  intros small. assert (connect_negotiate connect_v1_default small = Ok small) as H by by vm_compute.
  split; [exact H|].
  apply (proj1 (proj2 (connect_limits_agree connect_v1_default small)) small H).
Defined.
