(* ===== verification/Presence.v ===== *)
(** Presence hints and epochs of a Connect session ([connect/epoch.rs],
    [connect/presence.rs]): who wrote last, kept for display and never for
    authority.  [PresenceSink] is what a session asks of the place it reports to. *)
From S2P Require Import Prelude Order Canonical.

(** ** Epochs *)

(** [NonZeroU64] newtypes: [TurnEpoch], [FocusEpoch], [ActionEpoch] and
    [RuntimeGeneration]. *)
Notation TurnEpoch := N (only parsing).
Notation FocusEpoch := N (only parsing).
Notation ActionEpoch := N (only parsing).
Notation RuntimeGeneration := N (only parsing).

Definition epoch_new (value : N) : option N := if value =? 0 then None else Some value.

Definition saturating_next (epoch : N) : N :=
  match epoch_new (saturating_add epoch 1) with
  | Some next => next
  | None => epoch
  end.

Lemma saturating_next_spec e : e <= u64_max -> saturating_next e = N.min (e + 1) u64_max.
Proof.
  intros He. unfold saturating_next, epoch_new, saturating_add.
  assert (N.min (e + 1) u64_max <> 0) as Hn%N.eqb_neq by (unfold u64_max; lia). by rewrite Hn.
Qed.

(** ** Last-sender hints *)

Record LastSenderHint := {
  ls_task_id : TaskId;
  ls_client_id : ClientId;
  ls_observed_at_ms : Z;
  ls_turn_epoch : TurnEpoch;
  ls_focus_epoch : FocusEpoch;
}.

#[export] Instance LastSenderHint_eq_dec : EqDecision LastSenderHint.
Proof. solve_decision. Defined.

(** [PresenceSink]: false when an older observation was ignored or there was no
    room for the task. *)
Class PresenceSink := {
  presence : Type;
  record : presence -> LastSenderHint -> presence * bool;
}.

(** ** The sink in memory *)

Record EphemeralPresence := {
  ep_max_tasks : N;
  ep_hints : gmap N LastSenderHint;
}.

Definition presence_new (max_tasks : N) : EphemeralPresence :=
  {| ep_max_tasks := max_tasks; ep_hints := ∅ |}.

Definition presence_default : EphemeralPresence := presence_new 128.

Definition with_hints (p : EphemeralPresence) (hints : gmap N LastSenderHint) : EphemeralPresence :=
  {| ep_max_tasks := ep_max_tasks p; ep_hints := hints |}.

Definition last_sender (p : EphemeralPresence) (task_id : TaskId) : option LastSenderHint :=
  ep_hints p !! task_id.

Definition clear_task (p : EphemeralPresence) (task_id : TaskId) : EphemeralPresence :=
  with_hints p (delete task_id (ep_hints p)).

Definition presence_clear (p : EphemeralPresence) : EphemeralPresence := with_hints p ∅.

Definition presence_len (p : EphemeralPresence) : N := msize (ep_hints p).

(** The key of [min_by_key]: observation time, then task. *)
Definition age_cmp (a b : N * LastSenderHint) : comparison :=
  lex_cmp Z.compare N.compare (ls_observed_at_ms (snd a), fst a) (ls_observed_at_ms (snd b), fst b).

(** [Iterator::min_by_key] over the entries in their order. *)
Definition older (best : option (N * LastSenderHint)) (x : N * LastSenderHint)
    : option (N * LastSenderHint) :=
  match best with
  | None => Some x
  | Some b => match age_cmp x b with Lt => Some x | _ => Some b end
  end.

Definition victim (hints : gmap N LastSenderHint) : option (N * LastSenderHint) :=
  fold_left older (sorted_entries hints) None.

Definition presence_record (p : EphemeralPresence) (hint : LastSenderHint) : EphemeralPresence * bool :=
  if ep_max_tasks p =? 0 then (p, false)
  else
    match ep_hints p !! ls_task_id hint with
    | Some previous =>
        if (ls_observed_at_ms hint <? ls_observed_at_ms previous)%Z then (p, false)
        else (with_hints p (<[ls_task_id hint := hint]> (ep_hints p)), true)
    | None =>
        if ep_max_tasks p <=? msize (ep_hints p) then
          match victim (ep_hints p) with
          | None => (p, false)
          | Some (task_id, _) =>
              (with_hints p (<[ls_task_id hint := hint]> (delete task_id (ep_hints p))), true)
          end
        else (with_hints p (<[ls_task_id hint := hint]> (ep_hints p)), true)
    end.

#[export] Instance EphemeralPresence_sink : PresenceSink :=
  {| presence := EphemeralPresence; record := presence_record |}.

(** ** What the sink keeps *)

(** A hint is filed under its own task, and no more than the bound are kept. *)
Record presence_ok (p : EphemeralPresence) : Prop := {
  po_filed : forall t h, ep_hints p !! t = Some h -> ls_task_id h = t;
  po_bound : msize (ep_hints p) <= ep_max_tasks p;
}.

Lemma older_fold l : forall best,
  match fold_left older l best with
  | None => best = None /\ l = []
  | Some r => (best = Some r \/ r ∈ l)
              /\ (forall x, best = Some x \/ x ∈ l -> age_cmp x r <> Lt)
  end.
Proof.
  assert (forall a, age_cmp a a = Eq) as Hrefl.
  { intros a. unfold age_cmp. by apply (cmp_eq (cmp := lex_cmp Z.compare N.compare)). }
  induction l as [|a l IH]; intros best; cbn [fold_left].
  - destruct best as [b|]; [|done]. split; [by left|]. intros x [[= ->]|Hx]; [by rewrite Hrefl|set_solver].
  - specialize (IH (older best a)). destruct (fold_left older l (older best a)) as [r|].
    + destruct IH as [Hr Hmin]. split.
      * destruct Hr as [Hr|Hr]; [|right; set_solver]. destruct best as [b|]; cbn in Hr.
        -- destruct (age_cmp a b); injection Hr as <-; [by left|right; set_solver|by left].
        -- injection Hr as <-. right; set_solver.
      * intros x Hx. assert (older best a = Some a \/ exists b, best = Some b /\ older best a = Some b
          /\ age_cmp a b <> Lt) as Ho.
        { destruct best as [b|]; cbn; [|by left]. destruct (age_cmp a b) eqn:E; [right|by left|right];
            exists b; by rewrite E. }
        destruct Hx as [->|[->|Hx]%elem_of_cons]; [| |by apply Hmin; right].
        -- cbn in *. destruct (age_cmp a x) eqn:E; [by apply Hmin; left| |by apply Hmin; left].
           assert (age_cmp a r <> Lt) as Ha by (by apply Hmin; left). intros Hlt. apply Ha.
           by eapply (cmp_trans (cmp := lex_cmp Z.compare N.compare)).
        -- destruct Ho as [Ho|(b & -> & Ho & Hab)]; [by apply Hmin; left|].
           assert (age_cmp b r <> Lt) as Hb by (by apply Hmin; left). intros Hlt.
           destruct (age_cmp a b) eqn:E; [|done|].
           ++ apply (cmp_eq (cmp := lex_cmp Z.compare N.compare)) in E.
              apply Hb. unfold age_cmp in *. by rewrite <- E.
           ++ apply (cmp_gt (lex_cmp Z.compare N.compare)) in E. apply Hb.
              by eapply (cmp_trans (cmp := lex_cmp Z.compare N.compare)).
    + destruct IH as [Hn ->]. destruct best as [b|]; cbn in Hn; [by destruct (age_cmp a b)|done].
Qed.

Lemma victim_spec hints :
  match victim hints with
  | None => hints = ∅
  | Some (t, h) => hints !! t = Some h
                   /\ (forall t' h', hints !! t' = Some h' -> (ls_observed_at_ms h <= ls_observed_at_ms h')%Z)
  end.
Proof.
  pose proof (older_fold (sorted_entries hints) None) as Hv. unfold victim.
  destruct (fold_left older (sorted_entries hints) None) as [[t h]|].
  - destruct Hv as [[?|Hin] Hmin]; [done|]. split; [by apply elem_of_sorted_entries|].
    intros t' h' Hh'. specialize (Hmin (t', h') (or_intror (proj2 (elem_of_sorted_entries _ _ _) Hh'))).
    unfold age_cmp, lex_cmp in Hmin. cbn in Hmin.
    destruct (Z.compare_spec (ls_observed_at_ms h') (ls_observed_at_ms h)); cbn in Hmin; [lia|done|lia].
  - destruct Hv as [_ Hv]. apply map_eq. intros t. rewrite lookup_empty.
    destruct (hints !! t) as [h|] eqn:Eh; [|done]. apply elem_of_sorted_entries in Eh.
    rewrite Hv in Eh. set_solver.
Qed.

(** What happens to the hint of another task. *)
Definition kept_or_oldest (p p' : EphemeralPresence) (hint : LastSenderHint) (t : TaskId) : Prop :=
  last_sender p' t = last_sender p t
  \/ (last_sender p' t = None /\ last_sender p (ls_task_id hint) = None
      /\ presence_len p = ep_max_tasks p
      /\ exists h, last_sender p t = Some h
         /\ forall t' h', last_sender p t' = Some h' -> (ls_observed_at_ms h <= ls_observed_at_ms h')%Z).

Lemma presence_new_ok n : presence_ok (presence_new n).
Proof. split; cbn; [intros t h; by rewrite lookup_empty|rewrite msize_empty; lia]. Qed.

Lemma record_ok p hint : presence_ok p -> presence_ok (presence_record p hint).1.
Proof.
  intros [Hf Hb]. unfold presence_record. destruct (N.eqb_spec (ep_max_tasks p) 0); [done|].
  destruct (ep_hints p !! ls_task_id hint) as [prev|] eqn:Ep.
  - destruct (_ <? _)%Z; [done|]. split; cbn; [|by rewrite (msize_insert_Some _ _ _ prev)].
    intros t h. rewrite lookup_insert_dec. case_decide as Ht; [intros [= ->]; congruence|apply Hf].
  - destruct (N.leb_spec (ep_max_tasks p) (msize (ep_hints p))) as [Hfull|Hroom].
    + pose proof (victim_spec (ep_hints p)) as Hv. destruct (victim (ep_hints p)) as [[t h]|]; [|done].
      destruct Hv as [Ht _]. split; cbn.
      * intros t' h'. rewrite lookup_insert_dec. case_decide as Hd; [intros [= ->]; congruence|].
        intros Hl. apply lookup_delete_Some in Hl as [_ Hl]. by apply Hf.
      * rewrite msize_insert_None by (apply lookup_delete_None; by right).
        rewrite (msize_delete_Some _ _ h) by done. lia.
    + split; cbn; [|rewrite msize_insert_None by done; lia].
      intros t h. rewrite lookup_insert_dec. case_decide as Ht; [intros [= ->]; congruence|apply Hf].
Qed.

Lemma record_others p hint t :
  presence_ok p -> t <> ls_task_id hint -> kept_or_oldest p (presence_record p hint).1 hint t.
Proof.
  intros [Hf Hb] Hne. unfold presence_record, kept_or_oldest, last_sender, presence_len.
  destruct (N.eqb_spec (ep_max_tasks p) 0); [by left|].
  destruct (ep_hints p !! ls_task_id hint) as [prev|] eqn:Ep.
  - destruct (_ <? _)%Z; [by left|]. left. cbn. by rewrite lookup_insert_ne.
  - destruct (N.leb_spec (ep_max_tasks p) (msize (ep_hints p))) as [Hfull|Hroom].
    + pose proof (victim_spec (ep_hints p)) as Hv. destruct (victim (ep_hints p)) as [[v h]|]; [|by left].
      destruct Hv as [Hv Hmin]. cbn. rewrite lookup_insert_ne by done. destruct (decide (v = t)) as [->|Hvt].
      * right. rewrite lookup_delete_eq. split_and!; [done|done|lia|]. by exists h.
      * left. by rewrite lookup_delete_ne.
    + left. cbn. by rewrite lookup_insert_ne.
Qed.

(** The sink of last-sender hints forgets by age alone: it never keeps more tasks than its
    bound; a recorded hint is the one shown for its task from then on; a hint is refused only when
    the sink has no room at all or it is older than the one shown, and then nothing changes; and
    recording one leaves the hints of other tasks as they were, but for a task observed no later
    than any other, forgotten when the sink is full and the task is new. *)
Theorem presence_keeps_latest p hint p' recorded :
  presence_ok p -> presence_record p hint = (p', recorded) ->
  presence_ok p'
  /\ (if recorded then last_sender p' (ls_task_id hint) = Some hint
      else p' = p /\ (ep_max_tasks p = 0
                      \/ exists h, last_sender p (ls_task_id hint) = Some h
                                   /\ (ls_observed_at_ms hint < ls_observed_at_ms h)%Z))
  /\ (forall t, t <> ls_task_id hint -> kept_or_oldest p p' hint t).
Proof.
  intros Hp Hr. pose proof (record_ok p hint Hp) as Hok. rewrite Hr in Hok. split; [done|].
  split; [|intros t Ht; pose proof (record_others p hint t Hp Ht) as Ho; by rewrite Hr in Ho].
  revert Hr. unfold presence_record, last_sender. destruct (N.eqb_spec (ep_max_tasks p) 0) as [Hz|Hz].
  - intros [= <- <-]. split; [done|by left].
  - destruct (ep_hints p !! ls_task_id hint) as [prev|] eqn:Ep.
    + destruct (Z.ltb_spec (ls_observed_at_ms hint) (ls_observed_at_ms prev)); intros [= <- <-].
      * split; [done|]. right. by exists prev.
      * cbn. by rewrite lookup_insert_eq.
    + destruct (N.leb_spec (ep_max_tasks p) (msize (ep_hints p))) as [Hfull|Hroom].
      * pose proof (victim_spec (ep_hints p)) as Hv. destruct (victim (ep_hints p)) as [[v h]|].
        -- intros [= <- <-]. cbn. by rewrite lookup_insert_eq.
        -- rewrite Hv, msize_empty in Hfull. lia.
      * intros [= <- <-]. cbn. by rewrite lookup_insert_eq.
Qed.

Definition hint_at (task_id : TaskId) (at_ms : Z) : LastSenderHint :=
  {| ls_task_id := task_id; ls_client_id := 7; ls_observed_at_ms := at_ms; ls_turn_epoch := 1;
     ls_focus_epoch := 1 |}.

Definition two_hints : EphemeralPresence :=
  (presence_record (presence_record (presence_new 2) (hint_at 1 50%Z)).1 (hint_at 2 40%Z)).1.

Lemma presence_keeps_latest_witness :
  last_sender (presence_record two_hints (hint_at 3 60%Z)).1 3 = Some (hint_at 3 60%Z)
  /\ last_sender (presence_record two_hints (hint_at 3 60%Z)).1 2 = None
  /\ presence_ok (presence_record two_hints (hint_at 3 60%Z)).1.
Proof.
  assert (presence_ok two_hints) as Hp by (apply record_ok, record_ok, presence_new_ok).
  destruct (presence_keeps_latest two_hints (hint_at 3 60%Z) _ true Hp eq_refl) as (Hok & Hl & _).
  split; [exact Hl|]. split; [by vm_compute|exact Hok].
Defined.
