(* ===== verification/ConnectSession.v ===== *)
(** Admission of input from many devices to one task ([ConnectSession] of
    [connect/session.rs]): no device holds the session; every command stands on its
    own epochs, revision and sequence, and is accepted at most once. *)
From S2P Require Import Prelude Order Canonical Presence.

Definition MAX_SESSION_ACCEPTED_COMMANDS : N := 4096.
Definition MAX_SESSION_QUEUED : N := 256.
Definition MAX_SESSION_RESOURCES : N := 512.
Definition MAX_SESSION_OUTSTANDING : N := 64.
Definition MAX_SESSION_SETTLED : N := 512.
Definition MAX_SESSION_CONNECTED : N := 32.
Definition MAX_SESSION_INVALIDATED : N := 1024.

Inductive SessionAdmitError :=
| SaZeroEpoch
| SaTaskMismatch
| SaDuplicateCommand
| SaStaleTurn
| SaStaleFocus
| SaStaleGeneration
| SaStaleInputSequence
| SaRevisionConflict
| SaClientDisconnected
| SaQueueInvalidated
| SaAlreadyResolved
| SaStaleAction
| SaNoOutstandingRequest
| SaStateBoundExceeded.

Inductive SessionReceiptKind := AcceptedDurable | Duplicate.

Record SessionReceipt := {
  sr_command_id : CommandId;
  sr_operation_id : OperationId;
  sr_kind : SessionReceiptKind;
  sr_settled : bool;
}.

Record DeviceInput := {
  di_task_id : TaskId;
  di_client_id : ClientId;
  di_command_id : CommandId;
  di_operation_id : OperationId;
  di_expected_revision : option N;
  di_resource_id : option ResourceId;
  di_input_sequence : N;
  di_turn_epoch : TurnEpoch;
  di_focus_epoch : FocusEpoch;
  di_observed_at_ms : Z;
}.

Record ActionAnswer := {
  aa_task_id : TaskId;
  aa_client_id : ClientId;
  aa_request_id : N;
  aa_action_epoch : ActionEpoch;
  aa_runtime_generation : RuntimeGeneration;
  aa_observed_at_ms : Z;
}.

Record SettledAnswer := {
  sa_client_id : ClientId;
  sa_action_epoch : ActionEpoch;
  sa_runtime_generation : RuntimeGeneration;
}.

Record QueuedMutation := { qm_client_id : ClientId; qm_generation : N }.

(** Command ids in the order of a BTreeSet, for the one that is dropped first. *)
Record ConnectSession := {
  cx_task_id : TaskId;
  cx_revision : N;
  cx_turn_epoch : TurnEpoch;
  cx_focus_epoch : FocusEpoch;
  cx_runtime_generation : RuntimeGeneration;
  cx_queue_generation : N;
  cx_accepted : gmap N OperationId;
  cx_sequences : gmap N N;
  cx_outstanding : gmap N ActionEpoch;
  cx_settled : gmap N SettledAnswer;
  cx_queued : gmap N QueuedMutation;
  cx_invalidated : list CommandId;
  cx_connected : gset N;
  cx_last_client : option ClientId;
}.

Definition session_new (task_id : TaskId) : ConnectSession :=
  {| cx_task_id := task_id; cx_revision := 1; cx_turn_epoch := 1; cx_focus_epoch := 1;
     cx_runtime_generation := 1; cx_queue_generation := 1; cx_accepted := ∅; cx_sequences := ∅;
     cx_outstanding := ∅; cx_settled := ∅; cx_queued := ∅; cx_invalidated := [];
     cx_connected := ∅; cx_last_client := None |}.

(** ** Field updates *)

Definition cx_with_connected (s : ConnectSession) (connected : gset N) : ConnectSession :=
  {| cx_task_id := cx_task_id s; cx_revision := cx_revision s; cx_turn_epoch := cx_turn_epoch s;
     cx_focus_epoch := cx_focus_epoch s; cx_runtime_generation := cx_runtime_generation s;
     cx_queue_generation := cx_queue_generation s; cx_accepted := cx_accepted s;
     cx_sequences := cx_sequences s; cx_outstanding := cx_outstanding s;
     cx_settled := cx_settled s; cx_queued := cx_queued s; cx_invalidated := cx_invalidated s;
     cx_connected := connected; cx_last_client := cx_last_client s |}.

Definition cx_with_queue (s : ConnectSession) (queue_generation : N) (queued : gmap N QueuedMutation)
    (invalidated : list CommandId) : ConnectSession :=
  {| cx_task_id := cx_task_id s; cx_revision := cx_revision s; cx_turn_epoch := cx_turn_epoch s;
     cx_focus_epoch := cx_focus_epoch s; cx_runtime_generation := cx_runtime_generation s;
     cx_queue_generation := queue_generation; cx_accepted := cx_accepted s;
     cx_sequences := cx_sequences s; cx_outstanding := cx_outstanding s;
     cx_settled := cx_settled s; cx_queued := queued; cx_invalidated := invalidated;
     cx_connected := cx_connected s; cx_last_client := cx_last_client s |}.

Definition cx_with_requests (s : ConnectSession) (generation : RuntimeGeneration)
    (outstanding : gmap N ActionEpoch) (settled : gmap N SettledAnswer) : ConnectSession :=
  {| cx_task_id := cx_task_id s; cx_revision := cx_revision s; cx_turn_epoch := cx_turn_epoch s;
     cx_focus_epoch := cx_focus_epoch s; cx_runtime_generation := generation;
     cx_queue_generation := cx_queue_generation s; cx_accepted := cx_accepted s;
     cx_sequences := cx_sequences s; cx_outstanding := outstanding; cx_settled := settled;
     cx_queued := cx_queued s; cx_invalidated := cx_invalidated s;
     cx_connected := cx_connected s; cx_last_client := cx_last_client s |}.

Definition cx_with_focus (s : ConnectSession) (focus : FocusEpoch) : ConnectSession :=
  {| cx_task_id := cx_task_id s; cx_revision := cx_revision s; cx_turn_epoch := cx_turn_epoch s;
     cx_focus_epoch := focus; cx_runtime_generation := cx_runtime_generation s;
     cx_queue_generation := cx_queue_generation s; cx_accepted := cx_accepted s;
     cx_sequences := cx_sequences s; cx_outstanding := cx_outstanding s;
     cx_settled := cx_settled s; cx_queued := cx_queued s; cx_invalidated := cx_invalidated s;
     cx_connected := cx_connected s; cx_last_client := cx_last_client s |}.

(** The writes of an accepted input. *)
Definition cx_with_accepted (s : ConnectSession) (revision : N) (turn : TurnEpoch)
    (accepted : gmap N OperationId) (sequences : gmap N N) (queued : gmap N QueuedMutation)
    (last : option ClientId) : ConnectSession :=
  {| cx_task_id := cx_task_id s; cx_revision := revision; cx_turn_epoch := turn;
     cx_focus_epoch := cx_focus_epoch s; cx_runtime_generation := cx_runtime_generation s;
     cx_queue_generation := cx_queue_generation s; cx_accepted := accepted;
     cx_sequences := sequences; cx_outstanding := cx_outstanding s; cx_settled := cx_settled s;
     cx_queued := queued; cx_invalidated := cx_invalidated s; cx_connected := cx_connected s;
     cx_last_client := last |}.

(** ** Clients and epochs *)

Notation sessioned := (ConnectSession * result unit SessionAdmitError)%type.

Definition connect_client (s : ConnectSession) (client_id : ClientId) : sessioned :=
  if (MAX_SESSION_CONNECTED <=? N.of_nat (size (cx_connected s)))
     && negb (bool_decide (client_id ∈ cx_connected s))
  then (s, Err SaStateBoundExceeded)
  else (cx_with_connected s ({[client_id]} ∪ cx_connected s), Ok tt).

Definition retain_invalidated (invalidated : list CommandId) (command_id : CommandId) : list CommandId :=
  let kept :=
    if (MAX_SESSION_INVALIDATED <=? count invalidated) && negb (bool_decide (command_id ∈ invalidated))
    then match invalidated with
         | oldest :: _ => set_remove N.compare oldest invalidated
         | [] => invalidated
         end
    else invalidated in
  set_insert N.compare command_id kept.

(** The commands of the client leave the queue for the invalidated ones. *)
Definition invalidate_queued_for_client (s : ConnectSession) (client_id : ClientId) : ConnectSession :=
  let condemned := filter (fun kq => qm_client_id (snd kq) = client_id) (sorted_entries (cx_queued s)) in
  fold_left (fun s kq =>
      cx_with_queue s (cx_queue_generation s) (delete (fst kq) (cx_queued s))
        (retain_invalidated (cx_invalidated s) (fst kq))) condemned s.

Definition disconnect_client (s : ConnectSession) (client_id : ClientId) : ConnectSession :=
  let s := cx_with_connected s (cx_connected s ∖ {[client_id]}) in
  let s := cx_with_queue s (saturating_add (cx_queue_generation s) 1) (cx_queued s) (cx_invalidated s) in
  invalidate_queued_for_client s client_id.

Definition restart_provider (s : ConnectSession) : ConnectSession :=
  cx_with_requests s (saturating_next (cx_runtime_generation s)) ∅ ∅.

Definition switch_focus (s : ConnectSession) : ConnectSession :=
  cx_with_focus s (saturating_next (cx_focus_epoch s)).

(** ** Requests of the agent *)

Definition open_request (s : ConnectSession) (request_id : N) (action_epoch : ActionEpoch) : sessioned :=
  if action_epoch =? 0 then (s, Err SaZeroEpoch)
  else if is_some (cx_settled s !! request_id) then (s, Err SaAlreadyResolved)
  else if (MAX_SESSION_OUTSTANDING <=? msize (cx_outstanding s))
          && negb (is_some (cx_outstanding s !! request_id))
  then (s, Err SaStateBoundExceeded)
  else (cx_with_requests s (cx_runtime_generation s)
          (<[request_id := action_epoch]> (cx_outstanding s)) (cx_settled s), Ok tt).

Definition session_answer (s : ConnectSession) (a : ActionAnswer) : ConnectSession * result N SessionAdmitError :=
  if negb (aa_task_id a =? cx_task_id s) then (s, Err SaTaskMismatch)
  else if negb (bool_decide (aa_client_id a ∈ cx_connected s)) then (s, Err SaClientDisconnected)
  else if negb (aa_runtime_generation a =? cx_runtime_generation s) then (s, Err SaStaleGeneration)
  else
    match cx_settled s !! aa_request_id a with
    | Some settled =>
        if negb (sa_action_epoch settled =? aa_action_epoch a) then (s, Err SaStaleAction)
        else (s, Err SaAlreadyResolved)
    | None =>
        match cx_outstanding s !! aa_request_id a with
        | None => (s, Err SaNoOutstandingRequest)
        | Some expected_epoch =>
            if negb (expected_epoch =? aa_action_epoch a) then (s, Err SaStaleAction)
            else if MAX_SESSION_SETTLED <=? msize (cx_settled s) then (s, Err SaStateBoundExceeded)
            else (cx_with_requests s (cx_runtime_generation s)
                    (delete (aa_request_id a) (cx_outstanding s))
                    (<[aa_request_id a :=
                         {| sa_client_id := aa_client_id a; sa_action_epoch := aa_action_epoch a;
                            sa_runtime_generation := aa_runtime_generation a |}]> (cx_settled s)),
                  Ok (aa_request_id a))
        end
    end.

(** ** Input *)

Definition validate_epochs (s : ConnectSession) (i : DeviceInput) : result unit SessionAdmitError :=
  ensure di_task_id i =? cx_task_id s else SaTaskMismatch ;;
  ensure negb ((di_turn_epoch i =? 0) || (di_focus_epoch i =? 0)) else SaZeroEpoch ;;
  ensure di_turn_epoch i =? cx_turn_epoch s else SaStaleTurn ;;
  guard (di_focus_epoch i =? cx_focus_epoch s) SaStaleFocus.

(** The checks [enqueue] and [admit] share. *)
Definition input_heard (s : ConnectSession) (i : DeviceInput) : result unit SessionAdmitError :=
  try? validate_epochs s i ;;
  ensure bool_decide (di_client_id i ∈ cx_connected s) else SaClientDisconnected ;;
  guard (bool_decide (di_command_id i ∉ cx_invalidated s)) SaQueueInvalidated.

Definition session_enqueue (s : ConnectSession) (i : DeviceInput) : sessioned :=
  match input_heard s i with
  | Err e => (s, Err e)
  | Ok _ =>
      if (MAX_SESSION_QUEUED <=? msize (cx_queued s))
         && negb (is_some (cx_queued s !! di_command_id i))
      then (s, Err SaStateBoundExceeded)
      else (cx_with_queue s (cx_queue_generation s)
              (<[di_command_id i :=
                   {| qm_client_id := di_client_id i; qm_generation := cx_queue_generation s |}]>
                 (cx_queued s)) (cx_invalidated s), Ok tt)
  end.

(** The bound and the order of the inputs to one resource. *)
Definition next_sequences (s : ConnectSession) (i : DeviceInput) : result (gmap N N) SessionAdmitError :=
  match di_resource_id i with
  | None => Ok (cx_sequences s)
  | Some resource_id =>
      ensure negb ((MAX_SESSION_RESOURCES <=? msize (cx_sequences s))
                   && negb (is_some (cx_sequences s !! resource_id))) else SaStateBoundExceeded ;;
      ensure default 0 (cx_sequences s !! resource_id) <? di_input_sequence i
        else SaStaleInputSequence ;;
      Ok (<[resource_id := di_input_sequence i]> (cx_sequences s))
  end.

Section Admit.
Context `{Sink : PresenceSink}.

Notation admitted := (ConnectSession * presence * result SessionReceipt SessionAdmitError)%type.

(** What follows the acceptance of an input: the hint is display metadata and its
    loss is ignored. *)
Definition session_accept (s : ConnectSession) (i : DeviceInput) (sequences : gmap N N) (p : presence)
    : admitted :=
  let turn := if cx_last_client s =?= Some (di_client_id i) then cx_turn_epoch s
              else saturating_next (cx_turn_epoch s) in
  let s := cx_with_accepted s (saturating_add (cx_revision s) 1) turn
             (<[di_command_id i := di_operation_id i]> (cx_accepted s)) sequences
             (delete (di_command_id i) (cx_queued s)) (Some (di_client_id i)) in
  let p := fst (record p
    {| ls_task_id := cx_task_id s; ls_client_id := di_client_id i;
       ls_observed_at_ms := di_observed_at_ms i; ls_turn_epoch := cx_turn_epoch s;
       ls_focus_epoch := cx_focus_epoch s |}) in
  (s, p, Ok {| sr_command_id := di_command_id i; sr_operation_id := di_operation_id i;
               sr_kind := AcceptedDurable; sr_settled := false |}).

(** A command queued before a disconnection leaves the queue unheard. *)
Definition queue_stale (s : ConnectSession) (i : DeviceInput) : bool :=
  is_some_and (cx_queued s !! di_command_id i)
    (fun queued => negb (qm_generation queued =? cx_queue_generation s)).

Definition session_admit (s : ConnectSession) (i : DeviceInput) (p : presence) : admitted :=
  match input_heard s i with
  | Err e => (s, p, Err e)
  | Ok _ =>
      if queue_stale s i then
        (cx_with_queue s (cx_queue_generation s) (delete (di_command_id i) (cx_queued s))
           (cx_invalidated s), p, Err SaQueueInvalidated)
      else
        match cx_accepted s !! di_command_id i with
        | Some operation_id =>
            (s, p, Ok {| sr_command_id := di_command_id i; sr_operation_id := operation_id;
                         sr_kind := Duplicate; sr_settled := false |})
        | None =>
            if MAX_SESSION_ACCEPTED_COMMANDS <=? msize (cx_accepted s)
            then (s, p, Err SaStateBoundExceeded)
            else if negb (is_none_or (di_expected_revision i) (fun e => e =? cx_revision s))
            then (s, p, Err SaRevisionConflict)
            else
              match next_sequences s i with
              | Err e => (s, p, Err e)
              | Ok sequences => session_accept s i sequences p
              end
        end
  end.

End Admit.

Definition reconcile_echo (s : ConnectSession) (command_id : CommandId) : option OperationId :=
  cx_accepted s !! command_id.

(** ** A session's life *)

Inductive session_call :=
| ScConnect (client_id : ClientId)
| ScDisconnect (client_id : ClientId)
| ScRestart
| ScFocus
| ScOpen (request_id : N) (action_epoch : ActionEpoch)
| ScEnqueue (input : DeviceInput)
| ScAdmit (input : DeviceInput)
| ScAnswer (answer : ActionAnswer).

Inductive session_outcome :=
| SoDone
| SoReceipt (receipt : SessionReceipt)
| SoAnswered (request_id : N)
| SoRefused (error : SessionAdmitError).

Definition done_or_refused (r : result unit SessionAdmitError) : session_outcome :=
  match r with Ok _ => SoDone | Err e => SoRefused e end.

Section Life.
Context `{Sink : PresenceSink}.

Notation hosted := (ConnectSession * presence)%type.

Definition session_do (w : hosted) (c : session_call) : hosted * session_outcome :=
  let '(s, p) := w in
  match c with
  | ScConnect client => let '(s, r) := connect_client s client in ((s, p), done_or_refused r)
  | ScDisconnect client => ((disconnect_client s client, p), SoDone)
  | ScRestart => ((restart_provider s, p), SoDone)
  | ScFocus => ((switch_focus s, p), SoDone)
  | ScOpen request epoch => let '(s, r) := open_request s request epoch in ((s, p), done_or_refused r)
  | ScEnqueue i => let '(s, r) := session_enqueue s i in ((s, p), done_or_refused r)
  | ScAdmit i =>
      let '(s, p, r) := session_admit s i p in
      ((s, p), match r with Ok receipt => SoReceipt receipt | Err e => SoRefused e end)
  | ScAnswer a =>
      let '(s, r) := session_answer s a in
      ((s, p), match r with Ok request => SoAnswered request | Err e => SoRefused e end)
  end.

Notation entry := (session_call * session_outcome)%type.

(** The calls in turn, each with its outcome. *)
Definition session_run (w : hosted) (calls : list session_call) : hosted * list entry :=
  fold_left (fun wl c => let '(w, o) := session_do (fst wl) c in (w, snd wl ++ [(c, o)])) calls (w, []).

(** What the acceptance of commands rests on. *)
Record same_commands (s s' : ConnectSession) : Prop := {
  sc_accepted : cx_accepted s' = cx_accepted s;
  sc_sequences : cx_sequences s' = cx_sequences s;
  sc_revision : cx_revision s' = cx_revision s;
  sc_turn : cx_turn_epoch s' = cx_turn_epoch s;
  sc_last : cx_last_client s' = cx_last_client s;
  sc_task : cx_task_id s' = cx_task_id s;
}.

#[local] Instance same_commands_preorder : PreOrder same_commands.
Proof. split; [done|]. intros s1 s2 s3 [] []. split; congruence. Qed.

Record same_requests (s s' : ConnectSession) : Prop := {
  sq_generation : cx_runtime_generation s' = cx_runtime_generation s;
  sq_outstanding : cx_outstanding s' = cx_outstanding s;
  sq_settled : cx_settled s' = cx_settled s;
}.

#[local] Instance same_requests_preorder : PreOrder same_requests.
Proof. split; [done|]. intros s1 s2 s3 [] []. split; congruence. Qed.

Lemma condemned_frame (l : list (N * QueuedMutation)) : forall s,
  let s' := fold_left (fun s kq =>
      cx_with_queue s (cx_queue_generation s) (delete (fst kq) (cx_queued s))
        (retain_invalidated (cx_invalidated s) (fst kq))) l s in
  same_commands s s' /\ same_requests s s' /\ cx_connected s' = cx_connected s
  /\ cx_queue_generation s' = cx_queue_generation s /\ cx_focus_epoch s' = cx_focus_epoch s.
Proof.
  induction l as [|kq l IH]; intros s; cbn [fold_left]; [by split_and!|].
  destruct (IH (cx_with_queue s (cx_queue_generation s) (delete (fst kq) (cx_queued s))
    (retain_invalidated (cx_invalidated s) (fst kq)))) as ([] & [] & ? & ? & ?).
  by split_and!.
Qed.

Lemma disconnect_frame s c :
  same_commands s (disconnect_client s c) /\ same_requests s (disconnect_client s c).
Proof.
  unfold disconnect_client, invalidate_queued_for_client.
  match goal with |- context [fold_left ?f ?l ?t] => destruct (condemned_frame l t) as ([] & [] & _) end.
  by split.
Qed.

(** An input that is accepted, and how. *)
Definition accepts (s : ConnectSession) (i : DeviceInput) (s' : ConnectSession) : Prop :=
  cx_accepted s !! di_command_id i = None
  /\ msize (cx_accepted s) < MAX_SESSION_ACCEPTED_COMMANDS
  /\ cx_accepted s' = <[di_command_id i := di_operation_id i]> (cx_accepted s)
  /\ cx_revision s' = saturating_add (cx_revision s) 1
  /\ next_sequences s i = Ok (cx_sequences s').

Lemma admit_cases s i p s' p' r :
  session_admit s i p = (s', p', r) ->
  same_requests s s' /\ cx_connected s' = cx_connected s /\ cx_focus_epoch s' = cx_focus_epoch s
  /\ cx_invalidated s' = cx_invalidated s /\ cx_queue_generation s' = cx_queue_generation s
  /\ match r with
     | Ok receipt =>
         sr_command_id receipt = di_command_id i /\ sr_settled receipt = false
         /\ match sr_kind receipt with
            | AcceptedDurable => sr_operation_id receipt = di_operation_id i /\ accepts s i s'
            | Duplicate => s' = s /\ p' = p /\ cx_accepted s !! di_command_id i = Some (sr_operation_id receipt)
            end
     | Err _ => same_commands s s' /\ p' = p
     end.
Proof.
  unfold session_admit. destruct (input_heard s i) as [u|e]; [|by intros [= <- <- <-]; split_and!].
  destruct (queue_stale s i); [by intros [= <- <- <-]; split_and!|].
  destruct (cx_accepted s !! di_command_id i) as [op|] eqn:Ea.
  { intros [= <- <- <-]. by split_and!. }
  destruct (N.leb_spec MAX_SESSION_ACCEPTED_COMMANDS (msize (cx_accepted s)));
    [by intros [= <- <- <-]; split_and!|].
  destruct (negb _); [by intros [= <- <- <-]; split_and!|].
  destruct (next_sequences s i) as [sq|e] eqn:En; [|by intros [= <- <- <-]; split_and!].
  unfold session_accept. intros [= <- <- <-]. by split_and!.
Qed.

(** ** What the log of a session shows *)

(** The command and operation an entry accepts. *)
Definition acceptance (x : entry) : list (CommandId * OperationId) :=
  match snd x with
  | SoReceipt receipt =>
      match sr_kind receipt with
      | AcceptedDurable => [(sr_command_id receipt, sr_operation_id receipt)]
      | Duplicate => []
      end
  | _ => []
  end.

Definition acceptances (log : list entry) : list (CommandId * OperationId) := concat (map acceptance log).

(** The sequence an entry spends on a resource. *)
Definition spending (resource_id : ResourceId) (x : entry) : list N :=
  match fst x with
  | ScAdmit i =>
      if (di_resource_id i =?= Some resource_id) && negb (is_empty (acceptance x))
      then [di_input_sequence i] else []
  | _ => []
  end.

Definition spent (resource_id : ResourceId) (log : list entry) : list N :=
  concat (map (spending resource_id) log).

Definition answered (x : entry) : list N :=
  match snd x with SoAnswered request => [request] | _ => [] end.

(** The answers taken by the current run of the provider. *)
Definition answers (log : list entry) : list N :=
  fold_left (fun acc x => match fst x with ScRestart => [] | _ => acc ++ answered x end) log [].

Lemma run_snoc w calls c :
  session_run w (calls ++ [c])
  = let wl := session_run w calls in
    let wo := session_do (fst wl) c in (fst wo, snd wl ++ [(c, snd wo)]).
Proof.
  unfold session_run. rewrite fold_left_app. cbn [fold_left].
  by destruct (session_do _ c) as [w' o].
Qed.

Lemma acceptances_snoc log x : acceptances (log ++ [x]) = acceptances log ++ acceptance x.
Proof. unfold acceptances. rewrite map_app, concat_app; cbn [map concat]; by rewrite app_nil_r. Qed.

Lemma spent_snoc r log x : spent r (log ++ [x]) = spent r log ++ spending r x.
Proof. unfold spent. rewrite map_app, concat_app; cbn [map concat]; by rewrite app_nil_r. Qed.

Lemma answers_snoc log x :
  answers (log ++ [x]) = match fst x with ScRestart => [] | _ => answers log ++ answered x end.
Proof. unfold answers. by rewrite fold_left_app. Qed.

(** The entry of a call that accepts nothing. *)
Definition idle (s : ConnectSession) (x : entry) : Prop :=
  acceptance x = []
  /\ forall receipt, snd x = SoReceipt receipt ->
       cx_accepted s !! sr_command_id receipt = Some (sr_operation_id receipt).

Lemma do_commands s p c :
  let '(s', _, o) := session_do (s, p) c in
  (same_commands s s' /\ idle s (c, o))
  \/ exists i receipt, c = ScAdmit i /\ o = SoReceipt receipt /\ sr_kind receipt = AcceptedDurable
       /\ sr_command_id receipt = di_command_id i /\ sr_operation_id receipt = di_operation_id i
       /\ accepts s i s'.
Proof.
  assert (forall c' r, idle s (c', done_or_refused r)) as Hidle by (by intros c' [|]; split).
  destruct c as [cl|cl| | |rq ep|i|i|a]; cbn [session_do].
  - unfold connect_client. destruct (_ && _); left; by split.
  - left. split; [apply disconnect_frame|by split].
  - left. by split.
  - left. by split.
  - unfold open_request. repeat case_match; simplify_eq; left; by split.
  - unfold session_enqueue. repeat case_match; simplify_eq; left; by split.
  - destruct (session_admit s i p) as [[s' p'] r] eqn:E.
    apply admit_cases in E as (_ & _ & _ & _ & _ & Hr). destruct r as [rc|e].
    + destruct Hr as (Hc & _ & Hr). destruct (sr_kind rc) eqn:Ek.
      * right. exists i, rc. destruct Hr as [Ho Ha]. by split_and!.
      * left. destruct Hr as (-> & _ & Hd). split; [done|]. split; [unfold acceptance; cbn; by rewrite Ek|].
        intros rc' [= <-]. by rewrite Hc.
    + left. destruct Hr as [Hs _]. by split.
  - unfold session_answer. repeat case_match; simplify_eq; left; by split.
Qed.

(** The commands of a session after the calls of a log. *)
Record commands_logged (s : ConnectSession) (log : list entry) : Prop := {
  cl_once : NoDup (map fst (acceptances log));
  cl_accepted : forall c op, cx_accepted s !! c = Some op <-> (c, op) ∈ acceptances log;
  cl_revision : cx_revision s = 1 + count (acceptances log);
  cl_count : msize (cx_accepted s) = count (acceptances log);
  cl_bound : count (acceptances log) <= MAX_SESSION_ACCEPTED_COMMANDS;
  cl_spent : forall r, StronglySorted N.lt (spent r log)
               /\ forall q, q ∈ spent r log -> q <= default 0 (cx_sequences s !! r);
  cl_receipts : forall c receipt, (c, SoReceipt receipt) ∈ log ->
                  (sr_command_id receipt, sr_operation_id receipt) ∈ acceptances log;
}.

Lemma idle_commands s s' log x :
  same_commands s s' -> idle s x -> commands_logged s log -> commands_logged s' (log ++ [x]).
Proof.
  intros [Ha Hq Hr _ _ _] [Hx Hrc] [H1 H2 H3 H4 H5 H6 H7].
  assert (acceptances (log ++ [x]) = acceptances log) as Hacc by (rewrite acceptances_snoc, Hx; apply app_nil_r).
  split; rewrite ?Hacc, ?Ha, ?Hr; try done.
  - intros r. rewrite spent_snoc, Hq. assert (spending r x = []) as ->; [|by rewrite app_nil_r].
    unfold spending. rewrite Hx. destruct (fst x); try done. cbn [is_empty negb]. by rewrite andb_false_r.
  - intros c receipt [Hin|<-%list_elem_of_singleton]%elem_of_app; [by eapply H7|].
    by apply H2, Hrc.
Qed.

Lemma spending_accepted r i receipt :
  sr_kind receipt = AcceptedDurable ->
  spending r (ScAdmit i, SoReceipt receipt)
  = if decide (di_resource_id i = Some r) then [di_input_sequence i] else [].
Proof.
  intros Hk. unfold spending, acceptance. cbn. rewrite Hk. cbn. rewrite andb_true_r.
  case_decide as Hd; [by rewrite (proj2 (eqb_true _ _) Hd)|by rewrite (proj2 (eqb_false _ _) Hd)].
Qed.

Lemma accepted_spent s i sequences r log :
  next_sequences s i = Ok sequences ->
  (StronglySorted N.lt (spent r log) /\ forall q, q ∈ spent r log -> q <= default 0 (cx_sequences s !! r)) ->
  let l := spent r log ++ if decide (di_resource_id i = Some r) then [di_input_sequence i] else [] in
  StronglySorted N.lt l /\ forall q, q ∈ l -> q <= default 0 (sequences !! r).
Proof.
  intros Hn [Hs Hm]. revert Hn. unfold next_sequences. destruct (di_resource_id i) as [k|]; cbn zeta.
  - intros Hn. peel Hn. subst sequences. facts. case_decide as Hd.
    + injection Hd as ->. rewrite lookup_insert_eq. cbn [from_option id]. split.
      * apply StronglySorted_app. split_and!; [|done|repeat constructor].
        intros a b Ha ->%list_elem_of_singleton. apply Hm in Ha. lia.
      * intros q [Hq| ->%list_elem_of_singleton]%elem_of_app; [apply Hm in Hq; lia|lia].
    + rewrite app_nil_r, lookup_insert_ne by congruence. done.
  - intros [= <-]. rewrite decide_False, app_nil_r by done. done.
Qed.

Lemma session_revision_room n : n <= MAX_SESSION_ACCEPTED_COMMANDS -> 1 + n < u64_max.
Proof. unfold MAX_SESSION_ACCEPTED_COMMANDS, u64_max. lia. Qed.

Lemma accepted_commands s s' i receipt log :
  accepts s i s' -> sr_kind receipt = AcceptedDurable ->
  sr_command_id receipt = di_command_id i -> sr_operation_id receipt = di_operation_id i ->
  commands_logged s log -> commands_logged s' (log ++ [(ScAdmit i, SoReceipt receipt)]).
Proof.
  intros (Hn & Hb & Ha & Hr & Hq) Hk Hc Ho [H1 H2 H3 H4 H5 H6 H7].
  assert (acceptances (log ++ [(ScAdmit i, SoReceipt receipt)])
          = acceptances log ++ [(di_command_id i, di_operation_id i)]) as Hacc.
  { rewrite acceptances_snoc. unfold acceptance. cbn. by rewrite Hk, Hc, Ho. }
  split; rewrite ?Hacc, ?Ha, ?Hr; autorewrite with counts.
  - rewrite map_app. apply NoDup_app. split_and!; [done| |apply NoDup_singleton].
    intros c Hin ->%list_elem_of_singleton. apply list_elem_of_fmap in Hin as ([c op] & E & Hin).
    cbn in E. subst c. apply H2 in Hin. congruence.
  - intros c op. rewrite lookup_insert_dec, elem_of_app, list_elem_of_singleton. case_decide as Hd.
    + subst c. split; [intros [= ->]; by right|]. intros [Hin%H2|[= ->]]; [congruence|done].
    + rewrite H2. split; [by left|]. intros [?|[= ? ?]]; [done|congruence].
  - rewrite saturating_succ; [rewrite H3; lia|]. rewrite H3. by apply session_revision_room.
  - rewrite msize_insert_None by done. rewrite H4. lia.
  - rewrite H4 in Hb. lia.
  - intros r. rewrite spent_snoc, spending_accepted by done. by eapply accepted_spent.
  - intros c rc [Hin|[= _ ->]%list_elem_of_singleton]%elem_of_app; apply elem_of_app.
    + left. by eapply H7.
    + right. rewrite Hc, Ho. by left.
Qed.

Lemma run_commands task_id p calls :
  let wl := session_run (session_new task_id, p) calls in commands_logged (fst (fst wl)) (snd wl).
Proof.
  cbn zeta. induction calls as [|c calls IH] using rev_ind.
  - split; try done; cbn.
    + constructor.
    + intros c op. rewrite lookup_empty. set_solver.
    + intros r. split; [constructor|]. intros q. set_solver.
    + intros c receipt. set_solver.
  - rewrite run_snoc. cbn zeta. destruct (session_run _ calls) as [[s p'] log]. cbn [fst snd] in *.
    pose proof (do_commands s p' c) as Hd. destruct (session_do (s, p') c) as [[s' p''] o].
    cbn [fst snd]. destruct Hd as [[Hs Hi]|(i & rc & -> & -> & Hk & Hc & Ho & Ha)].
    + by eapply idle_commands.
    + by eapply accepted_commands.
Qed.

(** ** Requests and answers *)

(** The requests after the calls of a log: an answer of the current run of the provider is
    settled and stays so. *)
Record requests_logged (s : ConnectSession) (log : list entry) : Prop := {
  rl_once : NoDup (answers log);
  rl_settled : forall r, is_Some (cx_settled s !! r) <-> r ∈ answers log;
  rl_apart : forall r, is_Some (cx_outstanding s !! r) -> cx_settled s !! r = None;
  rl_generation : forall r a, cx_settled s !! r = Some a ->
                    sa_runtime_generation a = cx_runtime_generation s;
}.

(** What an answer does: the request was outstanding under the same epoch, the device was
    connected and knew the current run of the provider. *)
Definition takes (s : ConnectSession) (a : ActionAnswer) (s' : ConnectSession) : Prop :=
  aa_client_id a ∈ cx_connected s
  /\ aa_runtime_generation a = cx_runtime_generation s
  /\ cx_outstanding s !! aa_request_id a = Some (aa_action_epoch a)
  /\ cx_settled s !! aa_request_id a = None
  /\ cx_runtime_generation s' = cx_runtime_generation s
  /\ cx_outstanding s' = delete (aa_request_id a) (cx_outstanding s)
  /\ cx_settled s' = <[aa_request_id a :=
       {| sa_client_id := aa_client_id a; sa_action_epoch := aa_action_epoch a;
          sa_runtime_generation := aa_runtime_generation a |}]> (cx_settled s).

Lemma answer_cases s a s' r :
  session_answer s a = (s', r) ->
  match r with
  | Ok request => request = aa_request_id a /\ takes s a s'
  | Err _ => s' = s
  end.
Proof.
  unfold session_answer. repeat case_match; intros [= <- <-]; try done.
  facts. split; [done|]. unfold takes. cbn. split_and!; try done; [|congruence].
  by eapply bool_decide_eq_true_1.
Qed.

(** A call that answers nothing keeps the requests, opens one, or starts a new run. *)
Lemma do_requests s p c :
  let '(s', _, o) := session_do (s, p) c in
  (exists a request, c = ScAnswer a /\ o = SoAnswered request /\ request = aa_request_id a /\ takes s a s')
  \/ answered (c, o) = []
     /\ ((c <> ScRestart /\ same_requests s s')
         \/ (c = ScRestart /\ cx_outstanding s' = ∅ /\ cx_settled s' = ∅)
         \/ exists request epoch, c = ScOpen request epoch /\ cx_settled s !! request = None
              /\ cx_runtime_generation s' = cx_runtime_generation s
              /\ cx_outstanding s' = <[request := epoch]> (cx_outstanding s)
              /\ cx_settled s' = cx_settled s).
Proof.
  assert (forall c' r, answered (c', done_or_refused r) = []) as Hnone by (by intros c' [|]).
  destruct c as [cl|cl| | |rq ep|i|i|a]; cbn [session_do].
  - unfold connect_client. destruct (_ && _); right; (split; [done|by left]).
  - right. split; [done|]. left. split; [done|apply disconnect_frame].
  - right. split; [done|]. right. by left.
  - right. split; [done|]. by left.
  - unfold open_request. destruct (ep =? 0); [right; split; [done|by left]|].
    destruct (is_some (cx_settled s !! rq)) eqn:Es; [right; split; [done|by left]|].
    destruct (_ && _); right; (split; [done|]); [by left|]. right. right. exists rq, ep. facts.
    by split_and!.
  - unfold session_enqueue. destruct (input_heard s i); [destruct (_ && _)|]; right; (split; [done|by left]).
  - destruct (session_admit s i p) as [[s' p'] r] eqn:E.
    apply admit_cases in E as (Hq & _). right. split; [by destruct r|]. by left.
  - destruct (session_answer s a) as [s' r] eqn:E. apply answer_cases in E. destruct r as [rq|e].
    + left. destruct E as [-> Ht]. by exists a, (aa_request_id a).
    + right. subst s'. split; [done|]. by left.
Qed.

Lemma taken_requests s s' a log :
  takes s a s' -> requests_logged s log ->
  requests_logged s' (log ++ [(ScAnswer a, SoAnswered (aa_request_id a))]).
Proof.
  intros (_ & Hg & Ho & Hn & Hg' & Ho' & Hs') [H1 H2 H3 H4]. split; rewrite ?answers_snoc; cbn.
  - apply NoDup_app. split_and!; [done| |apply NoDup_singleton].
    intros r Hr%H2 ->%list_elem_of_singleton. rewrite Hn in Hr. by destruct Hr.
  - intros r. rewrite Hs', lookup_insert_dec, elem_of_app, list_elem_of_singleton, <- H2.
    case_decide; naive_solver.
  - intros r. rewrite Ho', Hs'. intros [e [Hne He]%lookup_delete_Some].
    rewrite lookup_insert_ne by done. by apply H3.
  - intros r b. rewrite Hs', Hg', lookup_insert_dec. case_decide; [by intros [= <-]|apply H4].
Qed.

Lemma run_requests task_id p calls :
  let wl := session_run (session_new task_id, p) calls in requests_logged (fst (fst wl)) (snd wl).
Proof.
  cbn zeta. induction calls as [|c calls IH] using rev_ind.
  - split; cbn.
    + constructor.
    + intros r. rewrite lookup_empty, is_Some_alt. set_solver.
    + done.
    + intros r a. by rewrite lookup_empty.
  - rewrite run_snoc. cbn zeta. destruct (session_run _ calls) as [[s p'] log]. cbn [fst snd] in *.
    pose proof (do_requests s p' c) as Hd. destruct (session_do (s, p') c) as [[s' p''] o]. cbn [fst snd].
    destruct Hd as [(a & rq & -> & -> & -> & Ht)|[Hn Hd]]; [by apply taken_requests with s|].
    destruct IH as [H1 H2 H3 H4].
    assert (c <> ScRestart -> answers (log ++ [(c, o)]) = answers log) as Hans.
    { intros Hc. rewrite answers_snoc, Hn, app_nil_r. by destruct c. }
    destruct Hd as [(Hc & [Hg Ho Hs])|[(-> & Ho & Hs)|(rq & ep & -> & Hf & Hg & Ho & Hs)]].
    + split; rewrite ?Hans, ?Ho, ?Hs, ?Hg by done; done.
    + split; rewrite ?answers_snoc, ?Ho, ?Hs; cbn [fst].
      * constructor.
      * intros r. rewrite lookup_empty, is_Some_alt. set_solver.
      * done.
      * intros r a. by rewrite lookup_empty.
    + split; rewrite ?Hans, ?Ho, ?Hs, ?Hg by done; try done.
      intros r. rewrite lookup_insert_dec. case_decide as Hd; [by subst r|apply H3].
Qed.
End Life.

(** ** When an input is accepted *)

Definition sequence_later (s : ConnectSession) (resource_id : ResourceId) (sequence : N) : Prop :=
  default 0 (cx_sequences s !! resource_id) < sequence
  /\ (msize (cx_sequences s) < MAX_SESSION_RESOURCES \/ is_Some (cx_sequences s !! resource_id)).

(** What a device must know and be for its input to be accepted. *)
Record admissible (s : ConnectSession) (i : DeviceInput) : Prop := {
  ad_task : di_task_id i = cx_task_id s;
  ad_turn : di_turn_epoch i = cx_turn_epoch s /\ di_turn_epoch i <> 0;
  ad_focus : di_focus_epoch i = cx_focus_epoch s /\ di_focus_epoch i <> 0;
  ad_connected : di_client_id i ∈ cx_connected s;
  ad_valid : di_command_id i ∉ cx_invalidated s;
  ad_queued : forall q, cx_queued s !! di_command_id i = Some q -> qm_generation q = cx_queue_generation s;
  ad_new : cx_accepted s !! di_command_id i = None;
  ad_room : msize (cx_accepted s) < MAX_SESSION_ACCEPTED_COMMANDS;
  ad_revision : forall e, di_expected_revision i = Some e -> e = cx_revision s;
  ad_later : forall r, di_resource_id i = Some r -> sequence_later s r (di_input_sequence i);
}.

Lemma input_heard_spec s i :
  input_heard s i = Ok tt
  <-> di_task_id i = cx_task_id s /\ (di_turn_epoch i = cx_turn_epoch s /\ di_turn_epoch i <> 0)
      /\ (di_focus_epoch i = cx_focus_epoch s /\ di_focus_epoch i <> 0)
      /\ di_client_id i ∈ cx_connected s /\ di_command_id i ∉ cx_invalidated s.
Proof.
  unfold input_heard, validate_epochs. split.
  - intros H. peel H. apply guard_Ok, bool_decide_eq_true in H. facts.
    peel G. apply guard_Ok, N.eqb_eq in G. facts. apply bool_decide_eq_true in G0. by split_and!.
  - intros (-> & [-> Ht] & [-> Hf] & Hc & Hi).
    rewrite !N.eqb_refl, (proj2 (N.eqb_neq _ _) Ht), (proj2 (N.eqb_neq _ _) Hf). cbn.
    by rewrite !bool_decide_true.
Qed.

Lemma queue_stale_false s i :
  queue_stale s i = false
  <-> forall q, cx_queued s !! di_command_id i = Some q -> qm_generation q = cx_queue_generation s.
Proof.
  unfold queue_stale, is_some_and. destruct (cx_queued s !! di_command_id i) as [q|]; [|naive_solver].
  rewrite negb_false_iff, N.eqb_eq. naive_solver.
Qed.

Lemma revision_expected s i :
  is_none_or (di_expected_revision i) (fun e => e =? cx_revision s) = true
  <-> forall e, di_expected_revision i = Some e -> e = cx_revision s.
Proof.
  unfold is_none_or. destruct (di_expected_revision i) as [e|]; [|naive_solver].
  rewrite N.eqb_eq. naive_solver.
Qed.

Lemma next_sequences_spec s i :
  succeeds (next_sequences s i)
  <-> forall r, di_resource_id i = Some r -> sequence_later s r (di_input_sequence i).
Proof.
  unfold next_sequences, sequence_later. destruct (di_resource_id i) as [r|].
  - split.
    + intros [m H] r' [= <-]. peel H. facts. split; [done|]. destruct G; [left; lia|by right].
    + intros Hr. destruct (Hr r eq_refl) as [Hlt Hroom]. apply succeeds_guard.
      * apply negb_true_iff, andb_false_iff. destruct Hroom as [Hroom|[q ->]]; [|by right].
        left. by apply N.leb_gt.
      * apply succeeds_guard; [by apply N.ltb_lt|apply succeeds_Ok].
  - split; [done|]. intros _. by eexists.
Qed.

Section Admission.
Context `{Sink : PresenceSink}.

(** The session an accepted input leaves. *)
Record accepted_into (s : ConnectSession) (i : DeviceInput) (s' : ConnectSession) : Prop := {
  ai_accepted : cx_accepted s' = <[di_command_id i := di_operation_id i]> (cx_accepted s);
  ai_revision : cx_revision s' = saturating_add (cx_revision s) 1;
  ai_turn : cx_turn_epoch s' = if cx_last_client s =?= Some (di_client_id i) then cx_turn_epoch s
                               else saturating_next (cx_turn_epoch s);
  ai_last : cx_last_client s' = Some (di_client_id i);
  ai_queued : cx_queued s' = delete (di_command_id i) (cx_queued s);
  ai_sequences : next_sequences s i = Ok (cx_sequences s');
  ai_focus : cx_focus_epoch s' = cx_focus_epoch s;
  ai_task : cx_task_id s' = cx_task_id s;
}.

Definition hint_of (s : ConnectSession) (i : DeviceInput) : LastSenderHint :=
  {| ls_task_id := cx_task_id s; ls_client_id := di_client_id i;
     ls_observed_at_ms := di_observed_at_ms i; ls_turn_epoch := cx_turn_epoch s;
     ls_focus_epoch := cx_focus_epoch s |}.

Lemma accept_spec s i sequences p s' p' r :
  next_sequences s i = Ok sequences -> session_accept s i sequences p = (s', p', r) ->
  accepted_into s i s' /\ p' = fst (record p (hint_of s' i))
  /\ r = Ok {| sr_command_id := di_command_id i; sr_operation_id := di_operation_id i;
               sr_kind := AcceptedDurable; sr_settled := false |}.
Proof. unfold session_accept. intros Hn [= <- <- <-]. by split_and!. Qed.

Lemma admissible_accepted s i p :
  admissible s i -> exists sequences, next_sequences s i = Ok sequences
                    /\ session_admit s i p = session_accept s i sequences p.
Proof.
  intros [Htask Hturn Hfocus Hconn Hvalid Hqueued Hnew Hroom Hrev Hlater].
  destruct (proj2 (next_sequences_spec s i) Hlater) as [sq Hsq]. exists sq. split; [done|].
  unfold session_admit. rewrite (proj2 (input_heard_spec s i)) by tauto.
  rewrite (proj2 (queue_stale_false s i) Hqueued), Hnew, (proj2 (N.leb_gt _ _) Hroom),
    (proj2 (revision_expected s i) Hrev), Hsq. done.
Qed.

Lemma accepted_admissible s i p s' p' receipt :
  session_admit s i p = (s', p', Ok receipt) -> sr_kind receipt = AcceptedDurable -> admissible s i.
Proof.
  unfold session_admit. destruct (input_heard s i) as [[]|] eqn:Eh; [|done].
  apply input_heard_spec in Eh as (H1 & H2 & H3 & H4 & H5).
  destruct (queue_stale s i) eqn:Eq; [done|].
  destruct (cx_accepted s !! di_command_id i) eqn:Ea; [by intros [= _ _ <-]|].
  destruct (N.leb_spec MAX_SESSION_ACCEPTED_COMMANDS (msize (cx_accepted s))) as [|Hroom]; [done|].
  destruct (is_none_or (di_expected_revision i) (fun e => e =? cx_revision s)) eqn:Er; [|done].
  destruct (next_sequences s i) as [sq|] eqn:En; [|done]. intros _ _.
  split; try done; [by apply queue_stale_false|by apply revision_expected|].
  apply next_sequences_spec. by exists sq.
Qed.

(** A device's input to a task is accepted exactly when the device is connected, its command is
    new and was not invalidated with a queue, it was written against the task's current turn, focus
    and (when it names one) revision, its sequence is later than every one accepted for the
    resource, and there is room.  Accepting it writes down the command with its operation, advances
    the revision by one and the turn when another device wrote last, and reports the hint; a
    command already accepted is acknowledged under its first operation with nothing changed; a
    refusal changes no command, no request and no hint.  No receipt claims the effect settled, and
    the session and the answer are the same whatever the presence sink does. *)
Theorem input_accepted_exactly_when_current s i p s' p' r :
  session_admit s i p = (s', p', r) ->
  match r with
  | Ok receipt =>
      sr_command_id receipt = di_command_id i /\ sr_settled receipt = false
      /\ match sr_kind receipt with
         | AcceptedDurable => admissible s i /\ accepted_into s i s'
                              /\ sr_operation_id receipt = di_operation_id i
                              /\ p' = fst (record p (hint_of s' i))
         | Duplicate => ~ admissible s i /\ s' = s /\ p' = p
                        /\ reconcile_echo s (di_command_id i) = Some (sr_operation_id receipt)
         end
  | Err _ => ~ admissible s i /\ same_commands s s' /\ same_requests s s' /\ p' = p
  end
  /\ forall (Sink' : PresenceSink) (p2 : presence),
       exists p2', session_admit s i p2 = (s', p2', r).
Proof.
  intros H. split.
  - destruct (admit_cases _ _ _ _ _ _ H) as (Hq & _ & _ & _ & _ & Hr).
    destruct r as [rc|e].
    + destruct Hr as (Hc & Hs & Hr). split_and!; [done..|]. destruct (sr_kind rc) eqn:Ek.
      * pose proof (accepted_admissible _ _ _ _ _ _ H Ek) as Ha.
        destruct (admissible_accepted s i p Ha) as (sq & Hsq & Heq). rewrite Heq in H.
        destruct (accept_spec _ _ _ _ _ _ _ Hsq H) as (Hi & Hp & [= ->]). by split_and!.
      * destruct Hr as (-> & -> & Hd). split_and!; [|done..]. intros [? ? ? ? ? ? Hnew]. congruence.
    + destruct Hr as [Hc ->]. split_and!; [|done..]. intros Ha.
      destruct (admissible_accepted s i p Ha) as (sq & Hsq & Heq). rewrite Heq in H.
      by destruct (accept_spec _ _ _ _ _ _ _ Hsq H) as (_ & _ & ?).
  - intros Sink' p2. revert H. unfold session_admit, session_accept.
    repeat case_match; intros [= <- <- <-]; by eexists.
Qed.

(** C20: Over the whole life of a session every command is accepted at most once: the accepted
    commands of the log are distinct, they and no others are what an optimistic echo is reconciled
    with, every receipt of a command ever given names the one operation it was accepted under, the
    revision counts the acceptances and never wraps, and the inputs accepted for one resource carry
    strictly increasing sequences, however many devices wrote them. *)
Theorem accepted_once_in_order task_id p calls s p' log :
  session_run (session_new task_id, p) calls = ((s, p'), log) ->
  NoDup (map fst (acceptances log))
  /\ (forall c op, reconcile_echo s c = Some op <-> (c, op) ∈ acceptances log)
  /\ (forall call receipt, (call, SoReceipt receipt) ∈ log ->
        (sr_command_id receipt, sr_operation_id receipt) ∈ acceptances log)
  /\ cx_revision s = 1 + count (acceptances log)
  /\ count (acceptances log) <= MAX_SESSION_ACCEPTED_COMMANDS
  /\ forall r, StronglySorted N.lt (spent r log).
Proof.
  intros H. pose proof (run_commands task_id p calls) as Hl. cbn zeta in Hl. rewrite H in Hl.
  destruct Hl as [H1 H2 H3 H4 H5 H6 H7]. split_and!; try done. intros r. apply H6.
Qed.

(** The first answer to a request of the agent stands: in one run of the provider no request is
    answered twice, an answered request is not outstanding and cannot be opened again, and an
    answer is taken only from a connected device that knows the current run, for a request then
    outstanding under the epoch the answer names. *)
Theorem first_answer_taken task_id p calls s p' log :
  session_run (session_new task_id, p) calls = ((s, p'), log) ->
  NoDup (answers log)
  /\ (forall r, r ∈ answers log ->
        cx_outstanding s !! r = None
        /\ forall epoch, ~ succeeds (snd (open_request s r epoch)))
  /\ forall a s' r, session_answer s a = (s', Ok r) ->
       r = aa_request_id a /\ r ∉ answers log /\ takes s a s'.
Proof.
  intros H. pose proof (run_requests task_id p calls) as Hl. cbn zeta in Hl. rewrite H in Hl.
  destruct Hl as [H1 H2 H3 H4]. cbn [fst snd] in *. split_and!; [done|..].
  - intros r Hr%H2. split.
    + destruct (cx_outstanding s !! r) eqn:Eo; [|done]. assert (cx_settled s !! r = None) as Hn by (apply H3; by eexists).
      rewrite Hn in Hr. by destruct Hr.
    + intros epoch [u Hu]. revert Hu. unfold open_request. destruct Hr as [a ->]. cbn. by destruct (_ =? _).
  - intros a s' r Ha. apply answer_cases in Ha as [-> Ht]. split_and!; [done| |done].
    rewrite <- H2. destruct Ht as (_ & _ & _ & Hn & _). rewrite Hn. by intros [].
Qed.
End Admission.

(** ** Bounds *)

Definition live_epoch (e : N) : Prop := 0 < e /\ e <= u64_max.

Record session_ok (s : ConnectSession) : Prop := {
  so_accepted : msize (cx_accepted s) <= MAX_SESSION_ACCEPTED_COMMANDS;
  so_sequences : msize (cx_sequences s) <= MAX_SESSION_RESOURCES;
  so_outstanding : msize (cx_outstanding s) <= MAX_SESSION_OUTSTANDING;
  so_settled : msize (cx_settled s) <= MAX_SESSION_SETTLED;
  so_queued : msize (cx_queued s) <= MAX_SESSION_QUEUED;
  so_invalidated : increasing N.compare (cx_invalidated s)
                   /\ count (cx_invalidated s) <= MAX_SESSION_INVALIDATED;
  so_connected : N.of_nat (size (cx_connected s)) <= MAX_SESSION_CONNECTED;
  so_turn : live_epoch (cx_turn_epoch s);
  so_focus : live_epoch (cx_focus_epoch s);
  so_generation : live_epoch (cx_runtime_generation s);
  so_queue_generation : live_epoch (cx_queue_generation s);
  so_revision : live_epoch (cx_revision s);
}.

Lemma live_succ e : live_epoch e -> live_epoch (saturating_add e 1).
Proof. unfold live_epoch, saturating_add, u64_max. lia. Qed.

Lemma live_next e : live_epoch e -> live_epoch (saturating_next e).
Proof.
  intros [Hl Hu]. rewrite saturating_next_spec by done. unfold live_epoch, u64_max in *. lia.
Qed.

Lemma msize_insert_room {A} (m : gmap N A) k v limit :
  msize m <= limit -> (limit <=? msize m) && negb (is_some (m !! k)) = false ->
  msize (<[k := v]> m) <= limit.
Proof.
  intros Hm Hr. destruct (m !! k) as [w|] eqn:Ek.
  - by rewrite (msize_insert_Some _ _ _ _ Ek).
  - rewrite (msize_insert_None _ _ _ Ek). cbn in Hr. rewrite andb_true_r in Hr.
    apply N.leb_gt in Hr. lia.
Qed.

Lemma count_set_insert x l : count (set_insert N.compare x l) <= 1 + count l.
Proof.
  induction l as [|y l IH]; cbn [set_insert]; autorewrite with counts; [done|].
  destruct (N.compare x y); autorewrite with counts; lia.
Qed.

Lemma count_set_insert_same x l :
  increasing N.compare l -> x ∈ l -> count (set_insert N.compare x l) = count l.
Proof.
  intros Hl Hx. f_equal. apply (increasing_unique N.compare); [apply set_insert_increasing; [apply _|done]|done|].
  intros y. rewrite elem_of_set_insert by apply _. naive_solver.
Qed.

Lemma retain_bounded l c :
  increasing N.compare l /\ count l <= MAX_SESSION_INVALIDATED ->
  increasing N.compare (retain_invalidated l c)
  /\ count (retain_invalidated l c) <= MAX_SESSION_INVALIDATED.
Proof.
  intros [Hi Hc]. unfold retain_invalidated.
  destruct ((MAX_SESSION_INVALIDATED <=? count l) && negb (bool_decide (c ∈ l))) eqn:E.
  - destruct l as [|y l]; [by vm_compute in E|]. cbn [set_remove]. rewrite (proj2 (N.compare_eq_iff y y) eq_refl).
    apply StronglySorted_inv in Hi as [Hi _]. split; [apply set_insert_increasing; [apply _|done]|].
    pose proof (count_set_insert c l). revert Hc. autorewrite with counts. lia.
  - split; [apply set_insert_increasing; [apply _|done]|]. apply andb_false_iff in E as [E|E].
    + apply N.leb_gt in E. pose proof (count_set_insert c l). lia.
    + apply negb_false_iff, bool_decide_eq_true in E. by rewrite count_set_insert_same.
Qed.

Lemma condemned_ok (l : list (N * QueuedMutation)) : forall s, session_ok s ->
  session_ok (fold_left (fun s kq =>
      cx_with_queue s (cx_queue_generation s) (delete (fst kq) (cx_queued s))
        (retain_invalidated (cx_invalidated s) (fst kq))) l s).
Proof.
  induction l as [|kq l IH]; intros s Hs; cbn [fold_left]; [done|]. apply IH.
  destruct Hs; split; cbn; try done; [|by apply retain_bounded].
  etrans; [apply msize_delete_le|done].
Qed.

Lemma connect_ok s c : session_ok s -> session_ok (fst (connect_client s c)).
Proof.
  intros Hs. unfold connect_client. destruct (_ && _) eqn:E; [done|].
  destruct Hs; split; cbn; try done. destruct (decide (c ∈ cx_connected s)) as [Hc|Hc].
  - by rewrite (subseteq_union_1_L {[c]} (cx_connected s)) by set_solver.
  - rewrite bool_decide_false in E by done. rewrite andb_true_r in E. apply N.leb_gt in E.
    rewrite size_union, size_singleton by set_solver. lia.
Qed.

Lemma disconnect_ok s c : session_ok s -> session_ok (disconnect_client s c).
Proof.
  intros Hs. apply condemned_ok. destruct Hs; split; cbn; try done; [|by apply live_succ].
  etrans; [|exact so_connected0]. enough (size (cx_connected s ∖ {[c]}) <= size (cx_connected s))%nat by lia.
  apply subseteq_size. set_solver.
Qed.

Lemma open_ok s r e : session_ok s -> session_ok (fst (open_request s r e)).
Proof.
  intros Hs. unfold open_request. destruct (_ =? _); [done|]. destruct (is_some _); [done|].
  destruct (_ && _) eqn:E; [done|]. destruct Hs; split; cbn; try done. by apply msize_insert_room.
Qed.

Lemma answer_ok s a : session_ok s -> session_ok (fst (session_answer s a)).
Proof.
  intros Hs. unfold session_answer. repeat case_match; try done. facts.
  destruct Hs; split; cbn; try done; [etrans; [apply msize_delete_le|done]|].
  etrans; [apply msize_insert_le|lia].
Qed.

Lemma enqueue_ok s i : session_ok s -> session_ok (fst (session_enqueue s i)).
Proof.
  intros Hs. unfold session_enqueue. destruct (input_heard s i); [|done].
  destruct (_ && _) eqn:E; [done|]. destruct Hs; split; cbn; try done. by apply msize_insert_room.
Qed.

Lemma next_sequences_ok s i sequences :
  session_ok s -> next_sequences s i = Ok sequences -> msize sequences <= MAX_SESSION_RESOURCES.
Proof.
  intros [_ Hs] Hn. revert Hn. unfold next_sequences. destruct (di_resource_id i) as [r|]; [|by intros [= <-]].
  intros Hn. peel Hn. subst sequences. apply negb_true_iff in G. by apply msize_insert_room.
Qed.

(** What is unheard is not refused for a bound. *)
Lemma input_heard_unbounded s i : input_heard s i <> Err SaStateBoundExceeded.
Proof. unfold input_heard, validate_epochs, guard, rbind. repeat case_match; by try intros [=]; simplify_eq. Qed.

Section Bounds.
Context `{Sink : PresenceSink}.

Lemma admit_ok s i p : session_ok s -> session_ok (fst (fst (session_admit s i p))).
Proof.
  intros Hs. unfold session_admit. destruct (input_heard s i); [|done]. destruct (queue_stale s i).
  { destruct Hs; split; cbn; try done. etrans; [apply msize_delete_le|done]. }
  destruct (cx_accepted s !! di_command_id i) eqn:Ea; [done|].
  destruct (N.leb_spec MAX_SESSION_ACCEPTED_COMMANDS (msize (cx_accepted s))); [done|].
  destruct (negb _); [done|]. destruct (next_sequences s i) as [sq|] eqn:En; [|done].
  pose proof (next_sequences_ok _ _ _ Hs En). destruct Hs; split; cbn; try done.
  - rewrite msize_insert_None by done. lia.
  - etrans; [apply msize_delete_le|done].
  - destruct (_ =?= _); [done|by apply live_next].
  - by apply live_succ.
Qed.

Lemma do_ok s p c : session_ok s -> session_ok (fst (fst (session_do (s, p) c))).
Proof.
  intros Hs. destruct c as [cl|cl| | |rq ep|i|i|a]; cbn [session_do].
  - pose proof (connect_ok s cl Hs). by destruct (connect_client s cl).
  - by apply disconnect_ok.
  - destruct Hs; split; cbn; try done; [by rewrite msize_empty..|by apply live_next].
  - destruct Hs; split; cbn; try done. by apply live_next.
  - pose proof (open_ok s rq ep Hs). by destruct (open_request s rq ep).
  - pose proof (enqueue_ok s i Hs). by destruct (session_enqueue s i).
  - pose proof (admit_ok s i p Hs). by destruct (session_admit s i p) as [[? ?] ?].
  - pose proof (answer_ok s a Hs). by destruct (session_answer s a).
Qed.

Lemma run_ok task_id p calls :
  session_ok (fst (fst (session_run (session_new task_id, p) calls))).
Proof.
  induction calls as [|c calls IH] using rev_ind.
  - split; cbn; try done; rewrite ?msize_empty; try done. split; [constructor|done].
  - rewrite run_snoc. cbn zeta. destruct (session_run _ calls) as [[s p'] log]. cbn [fst snd] in *.
    by apply do_ok.
Qed.

(** The call would add to a collection that is full. *)
Definition overfull (s : ConnectSession) (c : session_call) : Prop :=
  match c with
  | ScConnect client => client ∉ cx_connected s /\ 32 <= N.of_nat (size (cx_connected s))
  | ScOpen request _ => cx_outstanding s !! request = None /\ 64 <= msize (cx_outstanding s)
  | ScEnqueue i => cx_queued s !! di_command_id i = None /\ 256 <= msize (cx_queued s)
  | ScAdmit i =>
      cx_accepted s !! di_command_id i = None
      /\ (4096 <= msize (cx_accepted s)
          \/ exists r, di_resource_id i = Some r /\ cx_sequences s !! r = None
                       /\ 512 <= msize (cx_sequences s))
  | ScAnswer _ => 512 <= msize (cx_settled s)
  | ScDisconnect _ | ScRestart | ScFocus => False
  end.

(** A check of a full collection, as the code writes it. *)
Lemma full_check (limit n : N) (held : bool) :
  (limit <=? n) && negb held = true <-> held = false /\ limit <= n.
Proof. rewrite andb_true_iff, negb_true_iff, N.leb_le. tauto. Qed.

Lemma next_sequences_full s i :
  (next_sequences s i = Err SaStateBoundExceeded ->
   exists r, di_resource_id i = Some r /\ cx_sequences s !! r = None /\ 512 <= msize (cx_sequences s))
  /\ ((exists r, di_resource_id i = Some r /\ cx_sequences s !! r = None
                /\ 512 <= msize (cx_sequences s)) ->
      next_sequences s i = Err SaStateBoundExceeded).
Proof.
  unfold next_sequences. destruct (di_resource_id i) as [r|]; [|by split; [|intros (? & ? & _)]].
  destruct ((MAX_SESSION_RESOURCES <=? msize (cx_sequences s)) && negb (is_some (cx_sequences s !! r))) eqn:Ef;
    cbn [negb].
  - split; [intros _|done]. apply full_check in Ef as [Hn%is_some_false ?]. by exists r.
  - split; [by destruct (_ <? _)|]. intros (r' & [= <-] & Hn & Hc). exfalso.
    rewrite (proj2 (full_check _ _ _)) in Ef; [done|]. by rewrite Hn.
Qed.

(** Refused for a bound means full, and leaves the session as it was; full means refused. *)
Lemma bound_refused s p c :
  let '(s', _, o) := session_do (s, p) c in
  (o = SoRefused SaStateBoundExceeded -> overfull s c /\ s' = s)
  /\ (overfull s c -> exists e, o = SoRefused e).
Proof.
  destruct c as [cl|cl| | |rq ep|i|i|a]; cbn [session_do overfull]; try done.
  - unfold connect_client. destruct (_ && _) eqn:Ef.
    + apply full_check in Ef as [Hn%bool_decide_eq_false ?]. by split; [|exists SaStateBoundExceeded].
    + split; [done|]. intros [Hn Hc]. exfalso. rewrite (proj2 (full_check _ _ _)) in Ef; [done|].
      by rewrite bool_decide_eq_false_2.
  - unfold open_request. destruct (ep =? 0); [by split; [|eexists]|].
    destruct (is_some (cx_settled s !! rq)); [by split; [|eexists]|]. destruct (_ && _) eqn:Ef.
    + apply full_check in Ef as [Hn%is_some_false ?]. by split; [|eexists].
    + split; [done|]. intros [Hn Hc]. exfalso. rewrite (proj2 (full_check _ _ _)) in Ef; [done|].
      by rewrite Hn.
  - unfold session_enqueue. destruct (input_heard s i) as [u|e] eqn:Eh.
    + destruct (_ && _) eqn:Ef.
      * apply full_check in Ef as [Hn%is_some_false ?]. by split; [|eexists].
      * split; [done|]. intros [Hn Hc]. exfalso. rewrite (proj2 (full_check _ _ _)) in Ef; [done|].
        by rewrite Hn.
    + split; [|by eexists]. cbn. intros [= ->]. exfalso. by eapply input_heard_unbounded.
  - unfold session_admit. destruct (input_heard s i) as [u|e] eqn:Eh.
    + destruct (queue_stale s i); [by split; [|eexists]|].
      destruct (cx_accepted s !! di_command_id i) as [op|]; [by split; [|intros []]|].
      destruct (N.leb_spec MAX_SESSION_ACCEPTED_COMMANDS (msize (cx_accepted s))) as [Hl|Hl];
        [split; [intros _; split; [split; [done|by left]|done]|by eexists]|].
      destruct (negb _); [by split; [|eexists]|].
      pose proof (next_sequences_full s i) as [Hf Hf']. destruct (next_sequences s i) as [sq|e].
      * split; [done|]. intros [_ [Hc|Hr%Hf']]; [exfalso|done].
        by apply (N.lt_irrefl 4096), (N.le_lt_trans _ (msize (cx_accepted s))).
      * split; [|by eexists]. intros [= ->]. split; [|done]. split; [done|]. right. by apply Hf.
    + split; [|by eexists]. intros [= ->]. exfalso. by eapply input_heard_unbounded.
  - unfold session_answer. repeat case_match; simplify_eq; facts;
      (split; [intros [=]; try (by split)|intros Hc; first [by eexists|exfalso; unfold MAX_SESSION_SETTLED in *; lia]]).
Qed.

End Bounds.

(** ** Disconnection *)

(** Queue entries carry a generation of the past or the present. *)
Definition queue_dated (s : ConnectSession) : Prop :=
  forall k q, cx_queued s !! k = Some q -> qm_generation q <= cx_queue_generation s.

Definition condemned (s : ConnectSession) (client_id : ClientId) : list (N * QueuedMutation) :=
  filter (fun kq => qm_client_id (snd kq) = client_id) (sorted_entries (cx_queued s)).

Lemma elem_of_retain_invalidated l c x :
  increasing N.compare l -> count l < MAX_SESSION_INVALIDATED ->
  x ∈ retain_invalidated l c <-> x = c \/ x ∈ l.
Proof.
  intros Hl Hc. unfold retain_invalidated. rewrite (proj2 (N.leb_gt _ _) Hc). cbn.
  by apply elem_of_set_insert, _.
Qed.

Lemma retain_grows l c :
  increasing N.compare l -> count l < MAX_SESSION_INVALIDATED ->
  count (retain_invalidated l c) <= 1 + count l.
Proof.
  intros Hl Hc. unfold retain_invalidated. rewrite (proj2 (N.leb_gt _ _) Hc). cbn. apply count_set_insert.
Qed.

(** While there is room for them all, each of the condemned commands is invalidated; what leaves
    the queue is exactly they. *)
Lemma condemned_leave (l : list (N * QueuedMutation)) : forall s,
  increasing N.compare (cx_invalidated s) ->
  let s' := fold_left (fun s kq =>
      cx_with_queue s (cx_queue_generation s) (delete (fst kq) (cx_queued s))
        (retain_invalidated (cx_invalidated s) (fst kq))) l s in
  (forall k, cx_queued s' !! k = if decide (k ∈ map fst l) then None else cx_queued s !! k)
  /\ (count (cx_invalidated s) + count l <= MAX_SESSION_INVALIDATED ->
      forall k, k ∈ map fst l \/ k ∈ cx_invalidated s -> k ∈ cx_invalidated s').
Proof.
  induction l as [|[c q] l IH]; intros s Hs; cbn [fold_left fst map].
  - split; [intros k; rewrite decide_False; [done|set_solver]|]. intros _ k [Hk|Hk]; [set_solver|done].
  - destruct (IH (cx_with_queue s (cx_queue_generation s) (delete c (cx_queued s))
                    (retain_invalidated (cx_invalidated s) c))) as [Hq Hi].
    { cbn. unfold retain_invalidated. apply set_insert_increasing; [apply _|].
      destruct (_ && _); [|done]. destruct (cx_invalidated s); [done|]. by apply set_remove_increasing; [apply _|]. }
    cbn in Hq, Hi. split.
    + intros k. rewrite Hq. destruct (decide (k = c)) as [->|Hkc].
      * rewrite lookup_delete_eq. rewrite (decide_True (P := c ∈ c :: _)) by left. by case_decide.
      * rewrite lookup_delete_ne by done. by do 2 case_decide; set_solver.
    + autorewrite with counts. intros Hroom k Hk.
      assert (count (cx_invalidated s) < MAX_SESSION_INVALIDATED) as Hlt by lia.
      apply Hi; [pose proof (retain_grows _ c Hs Hlt); lia|].
      rewrite elem_of_retain_invalidated by done. set_solver.
Qed.

Lemma in_condemned s c k q :
  cx_queued s !! k = Some q -> qm_client_id q = c -> k ∈ map fst (condemned s c).
Proof.
  intros Hk Hq. apply list_elem_of_fmap. exists (k, q). split; [done|].
  apply list_elem_of_filter. split; [done|by apply elem_of_sorted_entries].
Qed.

(** A disconnection strands everything that was queued: no command queued before it, of the
    device that left or of any other, would be accepted after it; the device's own commands leave
    the queue and, while there is room to remember them, are refused even if they are queued
    again. *)
Theorem disconnect_strands_queue s client_id :
  session_ok s -> queue_dated s -> cx_queue_generation s < u64_max ->
  count (cx_invalidated s) + count (condemned s client_id) <= MAX_SESSION_INVALIDATED ->
  let s' := disconnect_client s client_id in
  (forall i, is_Some (cx_queued s !! di_command_id i) -> ~ admissible s' i)
  /\ (forall i q, cx_queued s !! di_command_id i = Some q -> qm_client_id q = client_id ->
        cx_queued s' !! di_command_id i = None /\ ~ succeeds (snd (session_enqueue s' i)))
  /\ (forall i, di_client_id i = client_id -> ~ admissible s' i)
  /\ cx_accepted s' = cx_accepted s.
Proof.
  intros Hs Hd Hg Hroom s'.
  destruct (condemned_frame (condemned s client_id)
    (cx_with_queue (cx_with_connected s (cx_connected s ∖ {[client_id]}))
       (saturating_add (cx_queue_generation s) 1) (cx_queued s) (cx_invalidated s)))
    as (Hc & _ & Hconn & Hgen & _).
  destruct (condemned_leave (condemned s client_id)
    (cx_with_queue (cx_with_connected s (cx_connected s ∖ {[client_id]}))
       (saturating_add (cx_queue_generation s) 1) (cx_queued s) (cx_invalidated s))
    ltac:(apply Hs)) as [Hq Hi].
  specialize (Hi Hroom). cbn in Hq, Hi, Hconn, Hgen.
  change (fold_left _ (condemned s client_id) _) with s' in Hc, Hconn, Hgen, Hq, Hi.
  assert (forall k q, cx_queued s !! k = Some q -> qm_client_id q = client_id -> k ∈ cx_invalidated s') as Hown.
  { intros k q Hk Hc'. apply Hi. left. by eapply in_condemned. }
  split_and!; [|..|by rewrite (sc_accepted _ _ Hc)].
  - intros i [q Hk] [_ _ _ _ Hv Hqu]. destruct (decide (di_command_id i ∈ map fst (condemned s client_id))) as [Hin|Hin].
    + apply Hv, Hi. by left.
    + assert (qm_generation q = cx_queue_generation s') as Heq.
      { apply Hqu. rewrite Hq. by rewrite decide_False. }
      rewrite Hgen, saturating_succ in Heq by done. apply Hd in Hk. lia.
  - intros i q Hk Hc'. split; [rewrite Hq; apply decide_True; by eapply in_condemned|].
    intros [u Hu]. revert Hu. unfold session_enqueue. destruct (input_heard s' i) as [[]|] eqn:Eh; [|done].
    apply input_heard_spec in Eh as (_ & _ & _ & _ & Hv). exfalso. by eapply Hv, Hown.
  - intros i Hcl [_ _ _ Hco]. rewrite Hconn, Hcl in Hco. set_solver.
Qed.

(** Every session a life can reach is dated. *)
Section Dated.
Context `{Sink : PresenceSink}.

Lemma disconnect_dated s c : session_ok s -> queue_dated s -> queue_dated (disconnect_client s c).
Proof.
  intros Hs Hd k q. unfold disconnect_client, invalidate_queued_for_client.
  match goal with |- context [fold_left ?f ?l ?t] =>
    destruct (condemned_frame l t) as (_ & _ & _ & -> & _);
    assert (forall s k, cx_queued (fold_left f l s) !! k = Some q -> cx_queued s !! k = Some q) as Hsub
  end.
  { induction (filter _ _) as [|kq l IH]; intros s0 k0; cbn [fold_left]; [done|].
    intros Hk%IH. cbn in Hk. by apply lookup_delete_Some in Hk as [_ Hk]. }
  intros Hk%Hsub. cbn in Hk |- *. apply Hd in Hk. destruct (so_queue_generation _ Hs) as [_ Hu].
  unfold saturating_add. lia.
Qed.

Lemma admit_queue s i p :
  let s' := fst (fst (session_admit s i p)) in
  cx_queue_generation s' = cx_queue_generation s
  /\ forall k q, cx_queued s' !! k = Some q -> cx_queued s !! k = Some q.
Proof.
  unfold session_admit, session_accept. repeat case_match; cbn; split; try done;
    intros k q Hk; by apply lookup_delete_Some in Hk as [_ Hk].
Qed.

Lemma do_dated s p c :
  session_ok s -> queue_dated s -> queue_dated (fst (fst (session_do (s, p) c))).
Proof.
  intros Hs Hd. destruct c as [cl|cl| | |rq ep|i|i|a]; cbn [session_do].
  - unfold connect_client. by destruct (_ && _).
  - by apply disconnect_dated.
  - done.
  - done.
  - unfold open_request. by repeat case_match; simplify_eq.
  - unfold session_enqueue. destruct (input_heard s i); [|done]. destruct (_ && _); [done|].
    intros k q. cbn. rewrite lookup_insert_dec. case_decide; [by intros [= <-]|apply Hd].
  - destruct (admit_queue s i p) as [Hg Hq]. destruct (session_admit s i p) as [[s' p'] r]. cbn in *.
    intros k q Hk%Hq%Hd. by rewrite Hg.
  - unfold session_answer. by repeat case_match; simplify_eq.
Qed.

Lemma run_dated task_id p calls :
  queue_dated (fst (fst (session_run (session_new task_id, p) calls))).
Proof.
  induction calls as [|c calls IH] using rev_ind.
  - intros k q. cbn. by rewrite lookup_empty.
  - rewrite run_snoc. cbn zeta. pose proof (run_ok task_id p calls).
    destruct (session_run _ calls) as [[s p'] log]. cbn [fst snd] in *. by apply do_dated.
Qed.
End Dated.

(** ** A session of two devices *)

Definition no_hints : @presence EphemeralPresence_sink := presence_default.

Definition device_input (client command resource sequence turn : N) : DeviceInput :=
  {| di_task_id := 1; di_client_id := client; di_command_id := command; di_operation_id := command + 100;
     di_expected_revision := None; di_resource_id := Some resource; di_input_sequence := sequence;
     di_turn_epoch := turn; di_focus_epoch := 1; di_observed_at_ms := 5%Z |}.

Definition device_answer (client request epoch generation : N) : ActionAnswer :=
  {| aa_task_id := 1; aa_client_id := client; aa_request_id := request; aa_action_epoch := epoch;
     aa_runtime_generation := generation; aa_observed_at_ms := 6%Z |}.

(** The desktop 11 and the phone 12 write in turn; the phone answers before the desktop. *)
Definition two_devices : list session_call :=
  [ScConnect 11; ScConnect 12; ScAdmit (device_input 11 31 61 1 1); ScAdmit (device_input 12 32 61 1 2);
   ScAdmit (device_input 12 32 61 2 2); ScAdmit (device_input 12 32 61 2 3); ScOpen 51 7;
   ScEnqueue (device_input 11 33 61 3 3); ScEnqueue (device_input 12 34 61 3 3);
   ScAnswer (device_answer 12 51 7 1); ScAnswer (device_answer 11 51 7 1)].

Definition two_devices_run : (ConnectSession * @presence EphemeralPresence_sink) * list (session_call * session_outcome) :=
  session_run (session_new 1, no_hints) two_devices.

Example two_devices_outcomes :
  map snd (snd two_devices_run)
  = [SoDone; SoDone;
     SoReceipt {| sr_command_id := 31; sr_operation_id := 131; sr_kind := AcceptedDurable; sr_settled := false |};
     SoRefused SaStaleInputSequence;
     SoReceipt {| sr_command_id := 32; sr_operation_id := 132; sr_kind := AcceptedDurable; sr_settled := false |};
     SoReceipt {| sr_command_id := 32; sr_operation_id := 132; sr_kind := Duplicate; sr_settled := false |};
     SoDone; SoDone; SoDone; SoAnswered 51; SoRefused SaAlreadyResolved].
Proof. by vm_compute. Qed.

(** The session of the two devices after their calls. *)
Definition shared_session : ConnectSession := fst (fst two_devices_run).

Lemma input_accepted_exactly_when_current_witness :
  admissible shared_session (device_input 12 40 61 9 3)
  /\ ~ admissible shared_session (device_input 12 40 61 2 3).
Proof.
  destruct (session_admit shared_session (device_input 12 40 61 9 3) no_hints)
    as [[s1 p1] r1] eqn:E1.
  destruct (session_admit shared_session (device_input 12 40 61 2 3) no_hints)
    as [[s2 p2] r2] eqn:E2.
  destruct (input_accepted_exactly_when_current shared_session (device_input 12 40 61 9 3)
              no_hints s1 p1 r1 E1) as [H1 _].
  destruct (input_accepted_exactly_when_current shared_session (device_input 12 40 61 2 3)
              no_hints s2 p2 r2 E2) as [H2 _].
  vm_compute in E1. vm_compute in E2.
  revert H1 H2. injection E1 as _ _ <-. injection E2 as _ _ <-.
  intros (_ & _ & Ha & _) [Hn _]. by split.
Defined.

Lemma accepted_once_in_order_witness :
  acceptances (snd two_devices_run) = [(31, 131); (32, 132)]
  /\ NoDup (map fst (acceptances (snd two_devices_run)))
  /\ spent 61 (snd two_devices_run) = [1; 2].
Proof.
  split; [by vm_compute|]. split; [|by vm_compute].
  destruct (accepted_once_in_order 1 no_hints two_devices
    (fst (fst two_devices_run)) (snd (fst two_devices_run)) (snd two_devices_run)) as [Hn _];
    [by destruct two_devices_run as [[? ?] ?] eqn:E|exact Hn].
Defined.

Lemma first_answer_taken_witness :
  answers (snd two_devices_run) = [51] /\ cx_outstanding shared_session !! 51 = None.
Proof.
  destruct (first_answer_taken 1 no_hints two_devices
    (fst (fst two_devices_run)) (snd (fst two_devices_run)) (snd two_devices_run)) as (_ & Ha & _);
    [by destruct two_devices_run as [[? ?] ?] eqn:E|].
  assert (answers (snd two_devices_run) = [51]) as Hans by by vm_compute. split; [exact Hans|].
  apply (Ha 51). rewrite Hans. by left.
Defined.

Lemma disconnect_strands_queue_witness :
  is_Some (cx_queued shared_session !! 33) /\ is_Some (cx_queued shared_session !! 34)
  /\ ~ admissible (disconnect_client shared_session 12) (device_input 11 33 61 3 3)
  /\ ~ succeeds (snd (session_enqueue (disconnect_client shared_session 12) (device_input 12 34 61 3 3))).
Proof.
  assert (is_Some (cx_queued shared_session !! 33)) as H33 by (vm_compute; by eexists).
  destruct (disconnect_strands_queue shared_session 12) as (Ha & Hb & _);
    [apply (run_ok 1 no_hints two_devices)|apply (run_dated 1 no_hints two_devices)
    |by vm_compute|by vm_compute|].
  split; [exact H33|]. split; [vm_compute; by eexists|]. split; [by apply Ha|].
  refine (proj2 (Hb (device_input 12 34 61 3 3) {| qm_client_id := 12; qm_generation := 1 |} _ _));
    by vm_compute.
Defined.
