(* ===== verification/Permission.v ===== *)
(** Who may ask what over Connect ([connect/permission.rs], [connect/permissions.rs]):
    actions, roles, scoped grants, the evaluator, and the map from a client's
    requests to the actions they stand for. *)
From S2P Require Import Prelude Canonical ProviderInput Browser Event Command Sample Cockpit Query UnsolicitedInbox TerminalProtocol.

(** ** Actions *)

(** [ActionId(NonZeroU16)] *)
Notation ActionId := N (only parsing).

Definition READ_TASK : ActionId := 1.
Definition READ_PRESENCE : ActionId := 2.
Definition READ_OPERATION : ActionId := 3.
Definition READ_PERSONAL_PROMPTS : ActionId := 4.
Definition MUTATE_TASK : ActionId := 10.
Definition SEND_PROMPT : ActionId := 11.
Definition ANSWER_REQUEST : ActionId := 12.
Definition TERMINAL_INPUT : ActionId := 13.
Definition BROWSER_COMMAND : ActionId := 14.
Definition APPROVE_DANGEROUS : ActionId := 20.
Definition REDEEM_PAIRING : ActionId := 30.

Definition action_new (value : N) : option ActionId := if value =? 0 then None else Some value.

Inductive KnownAction :=
| KaReadTask | KaReadPresence | KaReadOperation | KaReadPersonalPrompts | KaMutateTask
| KaSendPrompt | KaAnswerRequest | KaTerminalInput | KaBrowserCommand | KaApproveDangerous
| KaRedeemPairing.

Definition known (a : ActionId) : option KnownAction :=
  match a with
  | 1 => Some KaReadTask
  | 2 => Some KaReadPresence
  | 3 => Some KaReadOperation
  | 4 => Some KaReadPersonalPrompts
  | 10 => Some KaMutateTask
  | 11 => Some KaSendPrompt
  | 12 => Some KaAnswerRequest
  | 13 => Some KaTerminalInput
  | 14 => Some KaBrowserCommand
  | 20 => Some KaApproveDangerous
  | 30 => Some KaRedeemPairing
  | _ => None
  end.

Definition is_mutating (a : KnownAction) : bool :=
  match a with
  | KaMutateTask | KaSendPrompt | KaAnswerRequest | KaTerminalInput | KaBrowserCommand
  | KaApproveDangerous => true
  | _ => false
  end.

Definition is_dangerous_approval (a : KnownAction) : bool :=
  match a with KaApproveDangerous => true | _ => false end.

Definition is_owner_only (a : KnownAction) : bool :=
  match a with KaReadPersonalPrompts | KaApproveDangerous => true | _ => false end.

Definition is_pairing_only (a : KnownAction) : bool :=
  match a with KaRedeemPairing => true | _ => false end.

(** ** Roles, requests and grants *)

Inductive ConnectRole :=
| PairedOwner
| Watcher (task_id : TaskId)
| Collaborator (task_id : TaskId).

#[export] Instance ConnectRole_eq_dec : EqDecision ConnectRole.
Proof. solve_decision. Defined.

Inductive ConnectAdmission := AnonymousPairing | Established (role : ConnectRole).

Inductive ConnectIdentityLiveState := IdentityLive | IdentityPending | IdentityAbsent.

Definition is_live (s : ConnectIdentityLiveState) : bool :=
  match s with IdentityLive => true | _ => false end.

(** Opaque proof of an enrolled device ([connect/identity.rs]). *)
Record DeviceCredentialProof := {
  dp_host_public_id : N;
  dp_device_id : N;
  dp_host_key_fingerprint : text;
  dp_device_key_fingerprint : text;
  dp_revocation_epoch : N;
  dp_session_epoch : N;
  dp_host_generation : N;
}.

Record PermissionRequest := {
  pr_role : ConnectRole;
  pr_task_id : option TaskId;
  pr_action : ActionId;
  pr_credential : option DeviceCredentialProof;
}.

Definition with_role (r : PermissionRequest) (role : ConnectRole) : PermissionRequest :=
  {| pr_role := role; pr_task_id := pr_task_id r; pr_action := pr_action r;
     pr_credential := pr_credential r |}.

Record AuthoritativePermissionContext := {
  pc_channel_epoch : N;
  pc_session_epoch : N;
  pc_route_epoch : N;
}.

Definition context_live (channel_epoch session_epoch route_epoch : N)
    : option AuthoritativePermissionContext :=
  if (channel_epoch =? 0) || (session_epoch =? 0) || (route_epoch =? 0) then None
  else Some {| pc_channel_epoch := channel_epoch; pc_session_epoch := session_epoch;
               pc_route_epoch := route_epoch |}.

Record ScopedPermissionGrant := {
  gr_role : ConnectRole;
  gr_task_id : TaskId;
  gr_action : ActionId;
  gr_channel_epoch : N;
  gr_session_epoch : N;
  gr_route_epoch : N;
}.

Definition grant_issue (role : ConnectRole) (task_id : TaskId) (action : ActionId)
    (context : AuthoritativePermissionContext) : option ScopedPermissionGrant :=
  if (pc_channel_epoch context =? 0) || (pc_session_epoch context =? 0) || (pc_route_epoch context =? 0)
  then None
  else
    match role with
    | PairedOwner => None
    | Watcher scoped | Collaborator scoped =>
        if negb (scoped =? task_id) then None
        else Some {| gr_role := role; gr_task_id := task_id; gr_action := action;
                     gr_channel_epoch := pc_channel_epoch context;
                     gr_session_epoch := pc_session_epoch context;
                     gr_route_epoch := pc_route_epoch context |}
    end.

Definition grant_matches (g : ScopedPermissionGrant) (request : PermissionRequest)
    (context : AuthoritativePermissionContext) : bool :=
  negb (gr_channel_epoch g =? 0) && negb (gr_session_epoch g =? 0) && negb (gr_route_epoch g =? 0)
  && negb (pc_channel_epoch context =? 0) && negb (pc_session_epoch context =? 0)
  && negb (pc_route_epoch context =? 0)
  && (gr_role g =?= pr_role request)
  && (pr_task_id request =?= Some (gr_task_id g))
  && (gr_action g =? pr_action request)
  && (gr_channel_epoch g =? pc_channel_epoch context)
  && (gr_session_epoch g =? pc_session_epoch context)
  && (gr_route_epoch g =? pc_route_epoch context).

Inductive PermissionDenyReason :=
| UnknownAction | TaskScopeRequired | TaskScopeMismatch | WatcherReadOnly | OwnerOnly
| CollaboratorWriteDisabled | DeviceCredentialRequired | ScopedGrantRequired
| NonAuthoritativeContext | AnonymousPairingOnly | IdentityNotLive.

Inductive PermissionDecision := Allow | Denied (reason : PermissionDenyReason).

Definition is_allowed (d : PermissionDecision) : bool := match d with Allow => true | _ => false end.

(** ** The evaluator *)

Record PermissionEvaluator := { collaborator_writes_enabled : bool }.

Definition evaluator_owner_only : PermissionEvaluator := {| collaborator_writes_enabled := false |}.
Definition evaluator_default : PermissionEvaluator := {| collaborator_writes_enabled := true |}.

(** The refusal of a request outside a guest's task. *)
Definition out_of_scope (requested : option TaskId) (task_id : TaskId) : option PermissionDenyReason :=
  match requested with
  | Some t => if t =? task_id then None else Some TaskScopeMismatch
  | None => Some TaskScopeRequired
  end.

Definition evaluate_roles (e : PermissionEvaluator) (request : PermissionRequest)
    (paired_owner_authorized scoped_guest_authorized : bool) : PermissionDecision :=
  match known (pr_action request) with
  | None => Denied UnknownAction
  | Some action =>
      match pr_role request with
      | PairedOwner => if paired_owner_authorized then Allow else Denied DeviceCredentialRequired
      | Watcher task_id =>
          if negb scoped_guest_authorized then Denied ScopedGrantRequired
          else match out_of_scope (pr_task_id request) task_id with
          | Some reason => Denied reason
          | None =>
              if is_mutating action then Denied WatcherReadOnly
              else if is_owner_only action then Denied OwnerOnly
              else Allow
          end
      | Collaborator task_id =>
          if negb scoped_guest_authorized then Denied ScopedGrantRequired
          else match out_of_scope (pr_task_id request) task_id with
          | Some reason => Denied reason
          | None =>
              if is_owner_only action then Denied OwnerOnly
              else if is_mutating action && negb (collaborator_writes_enabled e)
              then Denied CollaboratorWriteDisabled
              else Allow
          end
      end
  end.

Definition evaluate (e : PermissionEvaluator) (request : PermissionRequest) : PermissionDecision :=
  evaluate_roles e request false false.

Definition evaluate_transport_authenticated_owner (e : PermissionEvaluator) (request : PermissionRequest)
    : PermissionDecision :=
  match pr_role request with
  | PairedOwner => evaluate_roles e request true false
  | _ => evaluate e request
  end.

Definition evaluate_host_admission (e : PermissionEvaluator) (request : PermissionRequest)
    : PermissionDecision :=
  evaluate_roles e request true true.

(** [evaluate_with_store] and [evaluate_with_authority]: what validates the
    credential of an owner is an argument. *)
Definition evaluate_with_validation (validate_device_credential : DeviceCredentialProof -> bool)
    (e : PermissionEvaluator) (request : PermissionRequest) : PermissionDecision :=
  match pr_role request with
  | PairedOwner =>
      match pr_credential request with
      | None => Denied DeviceCredentialRequired
      | Some proof =>
          if negb (validate_device_credential proof) then Denied DeviceCredentialRequired
          else Denied NonAuthoritativeContext
      end
  | _ => evaluate e request
  end.

Definition evaluate_with_scoped_grant (e : PermissionEvaluator) (request : PermissionRequest)
    (grant : ScopedPermissionGrant) (context : AuthoritativePermissionContext) : PermissionDecision :=
  if negb (grant_matches grant request context) then Denied ScopedGrantRequired
  else evaluate_roles e request false true.

Definition admit_connect_action (live : ConnectIdentityLiveState) (admission : ConnectAdmission)
    (request : PermissionRequest) (grant : option ScopedPermissionGrant)
    (context : option AuthoritativePermissionContext) : PermissionDecision :=
  match admission with
  | AnonymousPairing =>
      if negb (is_live live) then Denied IdentityNotLive
      else if negb (pr_action request =? REDEEM_PAIRING)
              || is_some_and (known (pr_action request)) (fun action => negb (is_pairing_only action))
      then Denied AnonymousPairingOnly
      else Allow
  | Established role =>
      if negb (is_live live) then Denied IdentityNotLive
      else
        let request := with_role request role in
        match grant, context with
        | Some grant, Some context =>
            evaluate_with_scoped_grant evaluator_default request grant context
        | _, _ => evaluate evaluator_default request
        end
  end.

(** ** Requests of a client *)

Record DetachRequest := { dr_request_id : RequestId; dr_client_id : ClientId; dr_connection_id : N }.

Inductive ConnectPrivacyClass := LocalOnly | ManagedMetadata | RawContent.

Record SessionPermissionContext := { sp_role : ConnectRole; sp_privacy : ConnectPrivacyClass }.

Definition context_paired_owner (privacy : ConnectPrivacyClass) : SessionPermissionContext :=
  {| sp_role := PairedOwner; sp_privacy := privacy |}.
Definition context_watcher (task_id : TaskId) (privacy : ConnectPrivacyClass) : SessionPermissionContext :=
  {| sp_role := Watcher task_id; sp_privacy := privacy |}.
Definition context_collaborator (task_id : TaskId) (privacy : ConnectPrivacyClass) : SessionPermissionContext :=
  {| sp_role := Collaborator task_id; sp_privacy := privacy |}.

Section Requests.
Context `{HP : HostPayloads} `{QP : QueryPayloads}.

Inductive ClientRequest :=
| CrCommand (envelope : CommandEnvelope)
| CrTerminalInput (request : TerminalInputRequest)
| CrQuery (envelope : QueryEnvelope)
| CrDetach (request : DetachRequest).

(** Host-local cockpit questions are [None], the ones that move a terminal mutate. *)
Definition action_for_cockpit (q : TaskCockpitQuery provider_settings_request remote_setup_request)
    : option ActionId :=
  match q with
  | CqConfigCreateProject _ _ | CqConfigUpdateProject _ _ _ | CqConfigArchiveProject _
  | CqDesktopRepositories | CqDesktopRepositoryAction _ _ _ | CqGitDesktopTargeted _ _ _
  | CqConfigUpsertCommand _ _ _ _ _ | CqConfigArchiveCommand _ _ _ | CqConfigRunCommand _ _ _
  | CqConfigCommandDetail _ _ _ | CqProviderSettings _ | CqRemoteAccess _ | CqOpenShellTerminal _ _
  | CqOpenSshTerminal _ _ | CqHostSshOpen _ | CqHostTerminal _ | CqHostTerminalScroll _ _
  | CqHostTerminalResize _ _ _ | CqHostTerminalClose _ | CqConfigUpsertSsh _ _ _ _ _ _ _
  | CqConfigArchiveSsh _ | CqOpenBrowserSession _ | CqBrowserNativeSession => None
  | CqTerminalScroll _ | CqTerminalResize _ _ | CqTerminalScrollFor _ _
  | CqTerminalResizeFor _ _ _ => Some MUTATE_TASK
  | _ => Some READ_TASK
  end.

Definition action_for_query (q : Query) : option ActionId :=
  match q with
  | QTaskSnapshot | QSnapshotPage _ _ _ | QReleaseSnapshot _ | QOpenEventReplay _
  | QContinueEventReplay _ _ | QReleaseEventReplay _ | QOpenArtifactContent _
  | QContinueArtifactContent _ _ | QReleaseArtifactContent _ => Some READ_TASK
  | QOperationStatus _ | QCommandReceiptStatus _ => Some READ_OPERATION
  | QInspectHostQuit => Some READ_OPERATION
  | QPromptLibrary _ => Some READ_PERSONAL_PROMPTS
  | QTaskCockpit query => action_for_cockpit query
  end.

Definition action_for_command (c : Command) : option ActionId :=
  match c with
  | CmdCreateTask _ | CmdCreateTaskV2 _ | CmdRenameTask _ | CmdSetTaskAttention _ | CmdSettleTask
  | CmdBeginCloseTask | CmdReopenTask | CmdDeleteTask | CmdRegisterAgentSession _
  | CmdSetPrimaryAgent _ | CmdRegisterArtifact _ | CmdRegisterResource _ | CmdReleaseResource _
  | CmdRequestSpecialist _ | CmdPromotePrimary _ | CmdCancelSpecialist _
  | CmdAcceptSpecialistHandoff _ | CmdServiceControl _ | CmdStartProviderSession _
  | CmdPrepareUpdate _ | CmdConfirmUpdateDrain _ | CmdAbortUpdateHandoff | CmdArmUpdateInstall _
  | CmdConfirmHostQuit _ | CmdCloseTerminal _ | CmdRenameTerminal _ _ | CmdSetTerminalStrip _ =>
      Some MUTATE_TASK
  | CmdSubmitProviderInput _ => Some SEND_PROMPT
  | CmdPromptLibrary _ | CmdPromptChain _ => Some READ_PERSONAL_PROMPTS
  | CmdBrowser _ => Some BROWSER_COMMAND
  | CmdBindProviderSession _ _ _ _ | CmdAbandonProviderSession _ _ _
  | CmdRebindUnstartedPrimaryProvider _ _ | CmdPresentProviderQuestion _
  | CmdPresentProviderApproval _ | CmdOpenTaskBrowser _ | CmdOpenShellTerminal _
  | CmdSettleProviderWait _ => None
  end.

Definition task_of_command (envelope : CommandEnvelope) : option TaskId :=
  match ce_command envelope with
  | CmdCreateTask intent => Some (ct_id intent)
  | CmdCreateTaskV2 intent => Some (cr_id intent)
  | _ => ce_task_id envelope
  end.

Definition action_for_client_request (request : ClientRequest) : option (ActionId * option TaskId) :=
  match request with
  | CrTerminalInput r => Some (SEND_PROMPT, Some (tc_task_id (ti_context r)))
  | CrQuery envelope =>
      option_map (fun action => (action, qe_task_id envelope)) (action_for_query (qe_query envelope))
  | CrCommand envelope =>
      option_map (fun action => (action, task_of_command envelope))
        (action_for_command (ce_command envelope))
  | CrDetach _ => None
  end.

Definition organization_permission (mutating : bool) : PermissionRequest :=
  {| pr_role := PairedOwner; pr_task_id := None;
     pr_action := if mutating then MUTATE_TASK else READ_TASK; pr_credential := None |}.

(** ** The authorizer of a session *)

Record SessionAuthorizer := { au_evaluator : PermissionEvaluator; au_context : SessionPermissionContext }.

Definition authorizer_paired_owner : SessionAuthorizer :=
  {| au_evaluator := evaluator_owner_only; au_context := context_paired_owner RawContent |}.
Definition authorizer_watcher (task_id : TaskId) : SessionAuthorizer :=
  {| au_evaluator := {| collaborator_writes_enabled := false |};
     au_context := context_watcher task_id ManagedMetadata |}.
Definition authorizer_collaborator (task_id : TaskId) : SessionAuthorizer :=
  {| au_evaluator := {| collaborator_writes_enabled := true |};
     au_context := context_collaborator task_id ManagedMetadata |}.

(** The request an authorizer puts for its session's role. *)
Definition session_request (a : SessionAuthorizer) (action : ActionId) (task_id : option TaskId)
    : PermissionRequest :=
  {| pr_role := sp_role (au_context a); pr_task_id := task_id; pr_action := action;
     pr_credential := None |}.

Definition authorize_request (a : SessionAuthorizer) (request : ClientRequest) : PermissionDecision :=
  match request with
  | CrDetach _ => Allow
  | _ =>
      match action_for_client_request request with
      | None => Denied UnknownAction
      | Some (action, task_id) => evaluate (au_evaluator a) (session_request a action task_id)
      end
  end.

Definition authorize_request_with_grant (a : SessionAuthorizer) (request : ClientRequest)
    (grant : ScopedPermissionGrant) (context : AuthoritativePermissionContext) : PermissionDecision :=
  match request with
  | CrDetach _ => Allow
  | _ =>
      match action_for_client_request request with
      | None => Denied UnknownAction
      | Some (action, task_id) =>
          evaluate_with_scoped_grant (au_evaluator a) (session_request a action task_id) grant context
      end
  end.

Definition authorize (a : SessionAuthorizer) (request : PermissionRequest) : PermissionDecision :=
  evaluate (au_evaluator a) (with_role request (sp_role (au_context a))).

Definition authorize_with_grant (a : SessionAuthorizer) (request : PermissionRequest)
    (grant : ScopedPermissionGrant) (context : AuthoritativePermissionContext) : PermissionDecision :=
  evaluate_with_scoped_grant (au_evaluator a) (with_role request (sp_role (au_context a))) grant context.

Definition authorize_personal_prompts (a : SessionAuthorizer) : PermissionDecision :=
  match sp_role (au_context a) with
  | PairedOwner => evaluate (au_evaluator a) (session_request a READ_PERSONAL_PROMPTS None)
  | _ => Denied OwnerOnly
  end.
End Requests.

(** ** What is allowed *)

Definition epochs_live (g : ScopedPermissionGrant) (context : AuthoritativePermissionContext) : Prop :=
  (gr_channel_epoch g = pc_channel_epoch context /\ gr_channel_epoch g <> 0)
  /\ (gr_session_epoch g = pc_session_epoch context /\ gr_session_epoch g <> 0)
  /\ (gr_route_epoch g = pc_route_epoch context /\ gr_route_epoch g <> 0).

Lemma grant_matches_true g request context :
  grant_matches g request context = true
  <-> gr_role g = pr_role request /\ pr_task_id request = Some (gr_task_id g)
      /\ gr_action g = pr_action request /\ epochs_live g context.
Proof.
  unfold grant_matches, epochs_live. rewrite !andb_true_iff, !negb_true_iff, !N.eqb_eq, !N.eqb_neq, !eqb_true.
  intuition congruence.
Qed.

(** What a role may do in its own right, once its grant is live. *)
Definition role_may (writes : bool) (role : ConnectRole) (task_id : TaskId) (action : KnownAction) : Prop :=
  match role with
  | PairedOwner => False
  | Watcher scoped => scoped = task_id /\ is_mutating action = false /\ is_owner_only action = false
  | Collaborator scoped =>
      scoped = task_id /\ is_owner_only action = false /\ (is_mutating action = true -> writes = true)
  end.

Lemma evaluate_never e request : evaluate e request <> Allow.
Proof. unfold evaluate, evaluate_roles. destruct (known _); [|done]. by destruct (pr_role request). Qed.

Lemma out_of_scope_None requested t : out_of_scope requested t = None <-> requested = Some t.
Proof.
  unfold out_of_scope. destruct requested as [r|]; [|done]. destruct (N.eqb_spec r t); naive_solver.
Qed.

Lemma roles_guest e request :
  evaluate_roles e request false true = Allow
  <-> exists action t, known (pr_action request) = Some action /\ pr_task_id request = Some t
        /\ role_may (collaborator_writes_enabled e) (pr_role request) t action.
Proof.
  unfold evaluate_roles, role_may. destruct (known (pr_action request)) as [action|]; [|naive_solver].
  destruct (pr_role request) as [|t|t]; cbn [negb]; [naive_solver|..];
    (destruct (out_of_scope (pr_task_id request) t) as [reason|] eqn:Eo;
     [split; [done|]; intros (a & t' & _ & Ht & -> & _); apply out_of_scope_None in Ht; congruence|];
     apply out_of_scope_None in Eo; rewrite Eo);
    destruct (is_mutating action) eqn:Em, (is_owner_only action) eqn:Eo', (collaborator_writes_enabled e) eqn:Ew;
    cbn; (split; [intros H; try discriminate H; exists action, t; split_and!; (done || congruence)|]);
    intros (a & t' & [= <-] & _ & _ & H1 & H2); rewrite ?Em, ?Eo' in *;
    first [done | by specialize (H2 eq_refl)].
Qed.

Lemma scoped_grant_allows e request g context :
  evaluate_with_scoped_grant e request g context = Allow
  <-> gr_role g = pr_role request /\ pr_task_id request = Some (gr_task_id g)
      /\ gr_action g = pr_action request /\ epochs_live g context
      /\ exists action, known (pr_action request) = Some action
           /\ role_may (collaborator_writes_enabled e) (pr_role request) (gr_task_id g) action.
Proof.
  unfold evaluate_with_scoped_grant. destruct (grant_matches g request context) eqn:Em; cbn [negb].
  - apply grant_matches_true in Em as (Hr & Ht & Ha & He). rewrite roles_guest. naive_solver.
  - split; [done|]. intros (Hr & Ht & Ha & He & _).
    assert (grant_matches g request context = true) by by apply grant_matches_true. congruence.
Qed.

Section Authority.
Context `{HP : HostPayloads} `{QP : QueryPayloads}.

Lemma commands_mutate c action :
  action_for_command c = Some action ->
  exists known_action, known action = Some known_action
    /\ (is_mutating known_action = true \/ is_owner_only known_action = true).
Proof. destruct c; intros [= <-]; eexists; (split; [reflexivity|]); cbn; auto. Qed.

(** The cockpit questions that read; every other one changes something on the host. *)
Definition cockpit_changes (q : TaskCockpitQuery provider_settings_request remote_setup_request) : bool :=
  match q with
  | CqProviderInputState | CqConfigSnapshot | CqDesktopRepositories | CqAgentConnection
  | CqBrowserProcessSession | CqBrowserNativeSession | CqImageStagingRoot | CqSuggestTaskTitle _
  | CqConfigCommandDetail _ _ _ | CqConversation _ | CqOpenConversationSubscription _
  | CqReleaseConversationSubscription _ | CqTerminal | CqTerminalReadiness | CqTerminalFor _
  | CqTerminalReadinessFor _ | CqTaskTerminals | CqHostTerminal _ | CqWorkspaceStatus
  | CqGitRepositories | CqGitStatus | CqGitStatusTargeted _ | CqGitFileDiffTargeted _ _ _
  | CqGitHistoryTargeted _ _ _ | CqGitCommitDiffTargeted _ _ | CqFilesList _ _ | CqFilesRead _ _
  | CqSshStatus | CqServiceSnapshots | CqServiceLogs _ _ _ _ | CqServiceHealth _ _ _ _ => false
  | _ => true
  end.

Definition request_changes (r : ClientRequest) : bool :=
  match r with
  | CrCommand _ | CrTerminalInput _ => true
  | CrQuery envelope =>
      match qe_query envelope with QTaskCockpit q => cockpit_changes q | _ => false end
  | CrDetach _ => false
  end.

(** Writing a file of the workspace, mutating its repository, or starting an ssh action. *)
Definition workspace_write (q : TaskCockpitQuery provider_settings_request remote_setup_request) : bool :=
  match q with
  | CqFilesWrite _ _ _ _ | CqGitMutate _ _ | CqGitMutateTargeted _ _ _ | CqSshAction _ => true
  | _ => false
  end.

(** What changes something and is not filed as mutating is a workspace write filed as a read. *)
Lemma changes_filed_as_read r action task_id known_action :
  request_changes r = true -> action_for_client_request r = Some (action, task_id) ->
  known action = Some known_action ->
  is_mutating known_action = false -> is_owner_only known_action = false ->
  action = READ_TASK /\ exists e q, r = CrQuery e /\ qe_query e = QTaskCockpit q
    /\ workspace_write q = true /\ qe_task_id e = task_id.
Proof.
  intros Hc Ha Hk Hm Ho. destruct r as [c|i|e|d]; cbn in Ha; [| | |done].
  - destruct (action_for_command (ce_command c)) as [act|] eqn:Ec; [|done]. injection Ha as -> _.
    apply commands_mutate in Ec as (ka & Hk' & Hor). destruct Hor; congruence.
  - injection Ha as <- _. by injection Hk as <-.
  - cbn in Hc. destruct (qe_query e) as [| | | | | | | | | | | | |q] eqn:Eq; try done.
    cbn in Ha. destruct (action_for_cockpit q) as [act|] eqn:Ea; [|done]. injection Ha as -> <-.
    assert (action = READ_TASK /\ workspace_write q = true) as [-> Hw].
    { destruct q; try done; injection Ea as <-; try done; by injection Hk as <-. }
    split; [done|]. by exists e, q.
Qed.

Lemma workspace_write_filed e q :
  qe_query e = QTaskCockpit q -> workspace_write q = true ->
  request_changes (CrQuery e) = true
  /\ action_for_client_request (CrQuery e) = Some (READ_TASK, qe_task_id e).
Proof. intros Hq Hw. cbn. rewrite Hq. by destruct q. Qed.

(** C19: A guest acts over Connect only under a live grant for exactly that act: a request is allowed to
    a session under a grant if and only if it is the teardown handshake, or it maps to a known
    action on one task, the grant names the session's role, that task and that action under the
    three current nonzero epochs, and the role may do that action - a watcher none filed as
    mutating, a collaborator what the host lets collaborators write, neither what is the owner's.
    A session that owns the host gains nothing by a grant, and without a grant only the handshake
    passes.  Of all that changes something - every command, terminal input, and cockpit question
    that does not merely read - a watcher is allowed exactly what the code files as reading its
    task: writing a workspace file, mutating its repository and starting an ssh action, and those
    only under a live grant to read that task. *)
Theorem guest_acts_only_under_live_grant a request g context :
  let role := sp_role (au_context a) in
  (authorize_request_with_grant a request g context = Allow
   <-> (exists d, request = CrDetach d)
       \/ exists action known_action,
            action_for_client_request request = Some (action, Some (gr_task_id g))
            /\ known action = Some known_action
            /\ gr_role g = role /\ gr_action g = action /\ epochs_live g context
            /\ role_may (collaborator_writes_enabled (au_evaluator a)) role (gr_task_id g) known_action)
  /\ (authorize_request a request = Allow <-> exists d, request = CrDetach d)
  /\ (forall t, role = Watcher t -> request_changes request = true ->
      authorize_request_with_grant a request g context = Allow
      <-> (exists e q, request = CrQuery e /\ qe_query e = QTaskCockpit q /\ workspace_write q = true
             /\ qe_task_id e = Some t)
          /\ gr_role g = Watcher t /\ gr_task_id g = t /\ gr_action g = READ_TASK
          /\ epochs_live g context).
Proof.
  intros role.
  assert (forall r, (exists d, r = CrDetach d)
          \/ (forall d, r <> CrDetach d) /\ authorize_request_with_grant a r g context
          = match action_for_client_request r with
            | None => Denied UnknownAction
            | Some (action, task_id) =>
                evaluate_with_scoped_grant (au_evaluator a) (session_request a action task_id) g context
            end) as Hcase by (intros [| | |d]; [right; by split..|left; by exists d]).
  assert (authorize_request_with_grant a request g context = Allow <->
          (exists d, request = CrDetach d) \/ exists action known_action,
            action_for_client_request request = Some (action, Some (gr_task_id g))
            /\ known action = Some known_action
            /\ gr_role g = role /\ gr_action g = action /\ epochs_live g context
            /\ role_may (collaborator_writes_enabled (au_evaluator a)) role (gr_task_id g) known_action) as Hiff.
  { destruct (Hcase request) as [[d ->]|[Hnd ->]]; [cbn; naive_solver|].
    destruct (action_for_client_request request) as [[action task]|] eqn:Ea.
    - rewrite scoped_grant_allows. cbn. split.
      + intros (Hr & -> & Hga & He & ka & Hk & Hm). right. by exists action, ka.
      + intros [[d Hd]|(action' & ka & [= -> ->] & Hk & Hr & Hga & He & Hm)]; [by apply Hnd in Hd|].
        split_and!; [done..|]. by exists ka.
    - split; [done|]. intros [[d Hd]|(? & ? & ? & _)]; [by apply Hnd in Hd|done]. }
  split_and!; [exact Hiff| |].
  - unfold authorize_request. split; [|by intros [d ->]].
    destruct request as [| | |d]; [..|by exists d]; destruct (action_for_client_request _) as [[action task]|];
      try done; intros H; by apply evaluate_never in H.
  - intros t Ht Hc. rewrite Hiff, Ht. split.
    + intros [[d ->]|(action & ka & Ha & Hk & Hr & Hga & He & Hts & Hnm & Hno)]; [done|].
      destruct (changes_filed_as_read _ _ _ _ Hc Ha Hk Hnm Hno) as (-> & e & q & ? & ? & ? & ?).
      subst t. split_and!; try done. by exists e, q.
    + intros ((e & q & -> & Hq & Hw & Hqt) & Hr & Hgt & Hga & He). right. exists READ_TASK, KaReadTask.
      rewrite (proj2 (workspace_write_filed e q Hq Hw)), Hqt, Hgt. by split_and!.
Qed.

(** Nothing admits what it cannot vouch for: an identity that is pending, revoked or absent is
    refused everything; an anonymous peer may redeem a pairing and nothing else; an established
    role is admitted only as a guest under a live grant; neither a credential alone, nor a stored
    identity, nor a role label opens anything; and no grant can be issued for an owner or for
    another task than the guest's. *)
Theorem admission_fails_closed live admission request grant context :
  (admit_connect_action live admission request grant context = Allow ->
   live = IdentityLive
   /\ match admission with
      | AnonymousPairing => pr_action request = REDEEM_PAIRING
      | Established role =>
          role <> PairedOwner
          /\ exists g c action, grant = Some g /\ context = Some c
               /\ gr_role g = role /\ pr_task_id request = Some (gr_task_id g)
               /\ gr_action g = pr_action request /\ epochs_live g c
               /\ known (pr_action request) = Some action /\ role_may true role (gr_task_id g) action
      end)
  /\ (forall e validate, evaluate_with_validation validate e request <> Allow)
  /\ (forall role task_id action c g,
        grant_issue role task_id action c = Some g ->
        gr_role g = role /\ gr_action g = action /\ epochs_live g c
        /\ gr_task_id g = task_id /\ (role = Watcher task_id \/ role = Collaborator task_id)).
Proof.
  split_and!.
  - unfold admit_connect_action. destruct admission as [|role].
    + destruct live; [|done..]. cbn [is_live negb].
      destruct (N.eqb_spec (pr_action request) REDEEM_PAIRING); cbn [negb orb]; [|done].
      destruct (is_some_and _ _); done.
    + destruct live; [|done..]. cbn [is_live negb].
      destruct grant as [g|]; [|by intros H%evaluate_never].
      destruct context as [c|]; [|by intros H%evaluate_never].
      rewrite scoped_grant_allows. cbn. intros (Hr & Ht & Ha & He & action & Hk & Hm). split; [done|].
      split; [by intros ->|]. by exists g, c, action.
  - intros e validate. unfold evaluate_with_validation.
    destruct (pr_role request); [|apply evaluate_never..].
    destruct (pr_credential request); [|done]. by destruct (negb _).
  - intros role task_id action c g. unfold grant_issue, epochs_live.
    destruct (_ || _) eqn:Ez; [done|]. rewrite !orb_false_iff, !N.eqb_neq in Ez.
    destruct role as [|t|t]; [done|..]; (destruct (N.eqb_spec t task_id) as [->|]; [|done]);
      intros [= <-]; cbn; naive_solver.
Qed.
End Authority.

(** ** A watcher at work *)

Section Sample.
Context `{HP : HostPayloads} `{QP : QueryPayloads}.

Definition live_context : AuthoritativePermissionContext :=
  {| pc_channel_epoch := 1; pc_session_epoch := 2; pc_route_epoch := 3 |}.

Definition watcher_grant (action : ActionId) : ScopedPermissionGrant :=
  {| gr_role := Watcher 7; gr_task_id := 7; gr_action := action; gr_channel_epoch := 1;
     gr_session_epoch := 2; gr_route_epoch := 3 |}.

Definition cockpit_request (q : TaskCockpitQuery provider_settings_request remote_setup_request)
    : ClientRequest :=
  CrQuery {| qe_request_id := 1; qe_client_id := 9; qe_task_id := Some 7; qe_query := QTaskCockpit q |}.

Example watcher_grant_issued :
  grant_issue (Watcher 7) 7 READ_TASK live_context = Some (watcher_grant READ_TASK)
  /\ grant_issue PairedOwner 7 READ_TASK live_context = None
  /\ grant_issue (Watcher 7) 8 READ_TASK live_context = None.
Proof. by vm_compute. Qed.

(** The map spells a file write and a git mutation as reads of the task: a watcher whose
    grant reads may send them. *)
Example watcher_may_write_files :
  authorize_request_with_grant (authorizer_watcher 7)
    (cockpit_request (CqFilesWrite (lit "notes.txt") (lit "x") None true))
    (watcher_grant READ_TASK) live_context = Allow
  /\ authorize_request_with_grant (authorizer_watcher 7)
       (cockpit_request (CqGitMutate (GmCommit (lit "m")) true)) (watcher_grant READ_TASK) live_context = Allow.
Proof. by vm_compute. Qed.
End Sample.

#[local] Existing Instance toy_host.
#[local] Existing Instance toy_payloads.

Lemma guest_acts_only_under_live_grant_witness :
  authorize_request_with_grant (authorizer_watcher 7) (cockpit_request CqTerminal)
    (watcher_grant READ_TASK) live_context = Allow
  /\ authorize_request_with_grant (authorizer_watcher 7) (cockpit_request (CqTerminalScroll 3%Z))
       (watcher_grant MUTATE_TASK) live_context <> Allow.
Proof.
  split.
  - apply (guest_acts_only_under_live_grant (authorizer_watcher 7) (cockpit_request CqTerminal)
             (watcher_grant READ_TASK) live_context).
    right. exists READ_TASK, KaReadTask. by vm_compute.
  - intros H.
    apply (guest_acts_only_under_live_grant (authorizer_watcher 7) (cockpit_request (CqTerminalScroll 3%Z))
             (watcher_grant MUTATE_TASK) live_context) in H as [[d Hd]|(a & k & Ha & Hk & _ & _ & _ & Hm)]; [done|].
    cbn in Ha. injection Ha as <-. injection Hk as <-. by destruct Hm as (_ & ? & _).
Defined.

