(* ===== verification/SecureFrame.v ===== *)
(** The sealed frames of a Connect channel ([protocol/crypto.rs]): the byte forms of frames,
    handshake messages, identity claims and the transcript prologue; the replay window; and the
    source-level sealer, an HMAC keystream under an HMAC tag. *)
From S2P Require Import Prelude Codec Frame Query.

Definition CONNECT_CRYPTO_PROTOCOL : list N := lit "DevManagerConnect/v1" ++ [0].
Definition SEALED_FRAME_VERSION : N := 1.
Definition SEALED_NONCE_BYTES : N := 16.
Definition SEALED_TAG_BYTES : N := 32.
Definition NOISE_AEAD_TAG_BYTES : N := 16.
Definition NOISE_STATIC_KEY_BYTES : N := 32.
Definition MAX_HANDSHAKE_MESSAGE_BYTES : N := 2048.
Definition MAX_HANDSHAKE_PAYLOAD_BYTES : N := 96.
Definition HANDSHAKE_FRAME_VERSION : N := 1.
Definition NOISE_IDENTITY_CLAIM_BYTES : N := 50.
Definition CHANNEL_KEY_BYTES : N := 32.
Definition REPLAY_WINDOW_SIZE : N := 64.
Definition MAX_SESSION_AGE_SECS : N := 60 * 60.
Definition SEALED_FRAME_OVERHEAD_BYTES : N := 1 + 8 + SEALED_NONCE_BYTES + SEALED_TAG_BYTES.
Definition MAX_SEALED_FRAME_BYTES : N := MAX_PHYSICAL_FRAME_BYTES.
Definition MAX_SEALED_PLAINTEXT_BYTES : N := MAX_SEALED_FRAME_BYTES - SEALED_FRAME_OVERHEAD_BYTES.

Definition OWNER_PAIRING_LABEL : list N := lit "owner-pairing".
Definition TASK_INVITATION_LABEL : list N := lit "task-invitation".
Definition ENC_LABEL : list N := lit "e2e-enc-v1" ++ [0].
Definition MAC_LABEL : list N := lit "e2e-mac-v1" ++ [0].
Definition KS_LABEL : list N := lit "e2e-ks-v1" ++ [0].
Definition TAG_LABEL : list N := lit "e2e-tag-v1" ++ [0].
Definition SEND_ROLE : list N := lit "send" ++ [0].
Definition RECV_ROLE : list N := lit "recv" ++ [0].
Definition NOISE_FIRST_PAIRING_PATTERN : text := lit "Noise_XX_25519_ChaChaPoly_BLAKE2s".
Definition NOISE_PINNED_DEVICE_PATTERN : text := lit "Noise_IK_25519_ChaChaPoly_BLAKE2s".

Inductive CryptoError :=
| CeProtocolMajor
| CeAlgorithmDowngrade
| CeEntropyUnavailable
| CeUnsupportedVersion (version : N)
| CeZeroSequence
| CeSequenceExhausted
| CeSessionExpired
| CeReplay (sequence : N)
| CeReplayTooOld (sequence : N)
| CeTruncatedFrame (declared : N)
| CeFrameExceeded (declared : N)
| CePlaintextExceeded (declared : N)
| CeAuthenticity
| CeInvalidEnvelope
| CeRevokedKey
| CeEmptyPrologue
| CeHandshakeWrongRole
| CeHandshakeOutOfOrder
| CeHandshakeDuplicate
| CeHandshakeOversized
| CeHandshakeFailed
| CeUnexpectedPeer
| CeIdentityBinding.

(** ** Bytes *)

Definition is_byte (b : N) : Prop := b < 256.

(** [uN::to_be_bytes] *)
Fixpoint be_bytes (width : nat) (n : N) : list N :=
  match width with
  | O => []
  | S width => be_bytes width (n / 256) ++ [n mod 256]
  end.

(** [bytes[from..to]] *)
Definition slice (from to : nat) (bytes : list N) : list N := take (to - from) (drop from bytes).

Lemma length_be_bytes width n : length (be_bytes width n) = width.
Proof. revert n. induction width as [|w IH]; intros n; [done|]. cbn. rewrite length_app, IH. cbn. lia. Qed.

Lemma from_be_snoc bs b : from_be (bs ++ [b]) = from_be bs * 256 + b.
Proof. unfold from_be. by rewrite fold_left_app. Qed.

Lemma from_be_be_bytes width : forall n, n < 256 ^ N.of_nat width -> from_be (be_bytes width n) = n.
Proof.
  induction width as [|w IH]; intros n Hn; [change (256 ^ N.of_nat 0) with 1 in Hn; cbn; lia|].
  cbn [be_bytes]. rewrite from_be_snoc, IH.
  - pose proof (N.div_mod n 256 ltac:(lia)). lia.
  - apply N.Div0.div_lt_upper_bound. rewrite Nat2N.inj_succ, N.pow_succ_r' in Hn. lia.
Qed.

Lemma be_bytes_from_be bs : Forall is_byte bs -> be_bytes (length bs) (from_be bs) = bs.
Proof.
  induction bs as [|b bs IH] using rev_ind; intros Hb; [done|]. apply Forall_app in Hb as [Hbs [Hb _]%Forall_cons].
  rewrite length_app, Nat.add_1_r. cbn [be_bytes]. rewrite from_be_snoc. unfold is_byte in Hb.
  rewrite N.div_add_l, (N.div_small b), N.add_0_r by lia. rewrite IH by done.
  by rewrite N.add_comm, N.Div0.mod_add, N.mod_small.
Qed.

Lemma from_be_bound bs : Forall is_byte bs -> from_be bs < 256 ^ N.of_nat (length bs).
Proof.
  induction bs as [|b bs IH] using rev_ind; intros Hb; [done|]. apply Forall_app in Hb as [Hbs [Hb _]%Forall_cons].
  rewrite from_be_snoc, length_app, Nat.add_1_r, Nat2N.inj_succ, N.pow_succ_r'. unfold is_byte in Hb.
  specialize (IH Hbs). lia.
Qed.

Lemma be_bytes_inj width a b :
  a < 256 ^ N.of_nat width -> b < 256 ^ N.of_nat width -> be_bytes width a = be_bytes width b -> a = b.
Proof. intros Ha Hb E. rewrite <- (from_be_be_bytes width a Ha), <- (from_be_be_bytes width b Hb). by rewrite E. Qed.

Lemma slice_app p m s from to :
  length p = from -> (from + length m)%nat = to -> slice from to (p ++ m ++ s) = m.
Proof.
  intros <- <-. unfold slice. rewrite drop_app_length.
  replace (length p + length m - length p)%nat with (length m) by lia. apply take_app_length.
Qed.

Lemma drop_slice from to bytes : (from <= to)%nat -> drop from bytes = slice from to bytes ++ drop to bytes.
Proof.
  intros H. unfold slice. rewrite <- (take_drop (to - from) (drop from bytes)) at 1. f_equal.
  rewrite drop_drop. f_equal. lia.
Qed.

Lemma length_slice from to bytes :
  (from <= to)%nat -> (to <= length bytes)%nat -> length (slice from to bytes) = (to - from)%nat.
Proof. intros H1 H2. unfold slice. rewrite length_take, length_drop. lia. Qed.

Lemma slice_bytes from to bytes : Forall is_byte bytes -> Forall is_byte (slice from to bytes).
Proof. intros H. by apply Forall_take, Forall_drop. Qed.

(** ** Sealed frames *)

Record SealedFrame := {
  sl_version : N;
  sl_sequence : N;
  sl_nonce : list N;
  sl_ciphertext : list N;
  sl_tag : list N;
}.

#[export] Instance SealedFrame_eq_dec : EqDecision SealedFrame.
Proof. solve_decision. Defined.

(** What the types of the fields say: arrays of 16 and 32 bytes, a [u64]. *)
Record sealed_typed (f : SealedFrame) : Prop := {
  st_nonce : count (sl_nonce f) = SEALED_NONCE_BYTES;
  st_tag : count (sl_tag f) = SEALED_TAG_BYTES;
  st_sequence : sl_sequence f <= u64_max;
}.

Definition sealed_encoded_len (f : SealedFrame) : N :=
  1 + 8 + SEALED_NONCE_BYTES + count (sl_ciphertext f) + SEALED_TAG_BYTES.

Definition sealed_validate (f : SealedFrame) : result unit CryptoError :=
  ensure sl_version f =? SEALED_FRAME_VERSION else CeUnsupportedVersion (sl_version f) ;;
  ensure negb (sl_sequence f =? 0) else CeZeroSequence ;;
  guard (sealed_encoded_len f <=? MAX_SEALED_FRAME_BYTES) (CeFrameExceeded (sealed_encoded_len f)).

Definition sealed_from_parts (version sequence : N) (nonce ciphertext tag : list N)
    : result SealedFrame CryptoError :=
  let frame := {| sl_version := version; sl_sequence := sequence; sl_nonce := nonce;
                  sl_ciphertext := ciphertext; sl_tag := tag |} in
  try? sealed_validate frame ;; Ok frame.

Definition sealed_encode (f : SealedFrame) : result (list N) CryptoError :=
  try? sealed_validate f ;;
  Ok ([sl_version f] ++ be_bytes 8 (sl_sequence f) ++ sl_nonce f ++ sl_ciphertext f ++ sl_tag f).

Definition sealed_decode (bytes : list N) : result SealedFrame CryptoError :=
  ensure count bytes <=? MAX_SEALED_FRAME_BYTES else CeFrameExceeded (count bytes) ;;
  ensure SEALED_FRAME_OVERHEAD_BYTES <=? count bytes else CeTruncatedFrame (count bytes) ;;
  let tag_offset := (length bytes - N.to_nat SEALED_TAG_BYTES)%nat in
  sealed_from_parts (nth 0 bytes 0) (from_be (slice 1 9 bytes)) (slice 9 25 bytes)
    (slice 25 tag_offset bytes) (drop tag_offset bytes).

Lemma sealed_validate_Ok f : sealed_validate f = Ok tt <->
  sl_version f = SEALED_FRAME_VERSION /\ sl_sequence f <> 0 /\ sealed_encoded_len f <= MAX_SEALED_FRAME_BYTES.
Proof.
  unfold sealed_validate. split.
  - intros H. peel H. facts. apply guard_Ok in H. apply N.leb_le in H. split_and!; try done; by apply N.eqb_neq.
  - intros (-> & Hs & Hl). rewrite N.eqb_refl, (proj2 (N.eqb_neq _ _) Hs). cbn -[sealed_encoded_len MAX_SEALED_FRAME_BYTES N.leb].
    by rewrite (proj2 (N.leb_le _ _) Hl).
Qed.

Lemma sealed_from_parts_Ok v n nonce ct tag f : sealed_from_parts v n nonce ct tag = Ok f <->
  f = {| sl_version := v; sl_sequence := n; sl_nonce := nonce; sl_ciphertext := ct; sl_tag := tag |}
  /\ sealed_validate f = Ok tt.
Proof.
  unfold sealed_from_parts. destruct (sealed_validate _) as [[]|e] eqn:E; cbn; split.
  - by intros [= <-].
  - by intros [-> _].
  - done.
  - intros [-> H]. congruence.
Qed.

Lemma sealed_layout bytes :
  (57 <= length bytes)%nat ->
  bytes = [nth 0 bytes 0] ++ slice 1 9 bytes ++ slice 9 25 bytes
          ++ slice 25 (length bytes - 32) bytes ++ drop (length bytes - 32) bytes.
Proof.
  intros H. destruct bytes as [|v rest]; [cbn in H; lia|]. change (nth 0 (v :: rest) 0) with v.
  rewrite <- (drop_slice 25 (length (v :: rest) - 32)), <- (drop_slice 9 25), <- (drop_slice 1 9) by lia. done.
Qed.

Lemma sealed_parts f :
  sealed_typed f -> sealed_validate f = Ok tt ->
  sealed_decode ([sl_version f] ++ be_bytes 8 (sl_sequence f) ++ sl_nonce f ++ sl_ciphertext f ++ sl_tag f) = Ok f.
Proof.
  intros [Hn Ht Hs] Hv. pose proof (proj1 (sealed_validate_Ok f) Hv) as (_ & _ & Hlen).
  unfold sealed_decode. set (bytes := _ ++ _).
  change SEALED_NONCE_BYTES with 16 in *. change SEALED_TAG_BYTES with 32 in *. change SEALED_FRAME_OVERHEAD_BYTES with 57.
  assert (length (sl_nonce f) = 16%nat) as Hn' by (unfold count in Hn; lia).
  assert (length (sl_tag f) = 32%nat) as Ht' by (unfold count in Ht; lia).
  assert (length bytes = 57 + length (sl_ciphertext f))%nat as Hl.
  { unfold bytes. rewrite !length_app, length_be_bytes, Hn', Ht'. cbn. lia. }
  assert (count bytes = sealed_encoded_len f) as Hc.
  { unfold sealed_encoded_len, count. change SEALED_NONCE_BYTES with 16. change SEALED_TAG_BYTES with 32. lia. }
  rewrite Hc, (proj2 (N.leb_le _ _) Hlen). cbn [guard rbind].
  rewrite (proj2 (N.leb_le _ _)) by (unfold count in Hc; lia). cbn [guard rbind].
  replace (length bytes - N.to_nat 32)%nat with (25 + length (sl_ciphertext f))%nat by lia.
  apply sealed_from_parts_Ok. split; [|done]. unfold bytes. destruct f as [v n nonce ct tag]. cbn [sl_version sl_sequence sl_nonce sl_ciphertext sl_tag] in *.
  f_equal.
  - rewrite (slice_app [v] (be_bytes 8 n)) by (rewrite ?length_be_bytes; done). symmetry. apply from_be_be_bytes.
    change (256 ^ N.of_nat 8) with (u64_max + 1). lia.
  - rewrite (app_assoc [v]). symmetry. apply slice_app; rewrite ?length_app, ?length_be_bytes, ?Hn'; done.
  - rewrite (app_assoc [v]), (app_assoc ([v] ++ _)). symmetry.
    apply slice_app; rewrite ?length_app, ?length_be_bytes, ?Hn'; cbn; lia.
  - rewrite (app_assoc [v]), (app_assoc ([v] ++ _)), (app_assoc (([v] ++ _) ++ _)). symmetry.
    rewrite drop_app_length'; [done|]. rewrite !length_app, length_be_bytes, Hn'. cbn. lia.
Qed.

(** The byte form of a sealed frame is canonical: whatever bytes arrive, they decode to a frame
    exactly when they are what that frame, with a 16-byte nonce and a 32-byte tag, encodes to.  So
    a frame always decodes to itself, and no two byte strings carry the same frame. *)
Theorem sealed_frame_canonical bytes f :
  Forall is_byte bytes ->
  sealed_decode bytes = Ok f <-> sealed_typed f /\ sealed_encode f = Ok bytes.
Proof.
  intros Hb. split.
  - intros H. unfold sealed_decode in H. peel H. facts. apply sealed_from_parts_Ok in H as [-> Hv].
    change SEALED_FRAME_OVERHEAD_BYTES with 57 in *. change (N.to_nat SEALED_TAG_BYTES) with 32%nat in *.
    assert (57 <= length bytes)%nat as Hl by (unfold count in *; lia). split.
    + split; cbn [sl_nonce sl_tag sl_sequence]; unfold count.
      * by rewrite length_slice by lia.
      * rewrite length_drop. change SEALED_TAG_BYTES with 32. lia.
      * pose proof (from_be_bound (slice 1 9 bytes) (slice_bytes _ _ _ Hb)) as E.
        rewrite length_slice in E by lia. change (256 ^ N.of_nat (9 - 1)) with (u64_max + 1) in E. lia.
    + unfold sealed_encode. rewrite Hv. cbn [rbind sl_version sl_sequence sl_nonce sl_ciphertext sl_tag]. f_equal.
      pose proof (be_bytes_from_be (slice 1 9 bytes) (slice_bytes _ _ _ Hb)) as E.
      rewrite length_slice in E by lia. change (9 - 1)%nat with 8%nat in E. rewrite E. symmetry. by apply sealed_layout.
  - intros [Hf He]. unfold sealed_encode in He. destruct (sealed_validate f) as [[]|e] eqn:Hv; [|done].
    cbn [rbind] in He. injection He as <-. by apply sealed_parts.
Qed.

(** ** The replay window *)

Record ReplayWindow := {
  rw_highest : N;
  rw_seen : N;
}.

Definition window_new : ReplayWindow := {| rw_highest := 0; rw_seen := 0 |}.

(** [<<] on a [u64] *)
Definition u64_shl (a shift : N) : N := N.land (N.shiftl a shift) u64_max.

(** On an error the window is as it was. *)
Definition window_accept (w : ReplayWindow) (sequence : N) : result ReplayWindow CryptoError :=
  if sequence =? 0 then Err CeZeroSequence
  else if rw_highest w =? 0 then Ok {| rw_highest := sequence; rw_seen := 1 |}
  else if rw_highest w <? sequence then
    let shift := sequence - rw_highest w in
    Ok {| rw_highest := sequence;
          rw_seen := if REPLAY_WINDOW_SIZE <=? shift then 1 else N.lor (u64_shl (rw_seen w) shift) 1 |}
  else
    let distance := rw_highest w - sequence in
    if REPLAY_WINDOW_SIZE <=? distance then Err (CeReplayTooOld sequence)
    else
      let mask := N.shiftl 1 distance in
      if negb (N.land (rw_seen w) mask =? 0) then Err (CeReplay sequence)
      else Ok {| rw_highest := rw_highest w; rw_seen := N.lor (rw_seen w) mask |}.

(** What the window is for: the numbers accepted so far decide on the next. *)
Definition newest (accepted : list N) : N := fold_right N.max 0 accepted.

Definition replay_verdict (accepted : list N) (sequence : N) : result unit CryptoError :=
  if sequence =? 0 then Err CeZeroSequence
  else if newest accepted <? sequence then Ok tt
  else if REPLAY_WINDOW_SIZE <=? newest accepted - sequence then Err (CeReplayTooOld sequence)
  else if bool_decide (sequence ∈ accepted) then Err (CeReplay sequence)
  else Ok tt.

(** A window and the numbers it accepted, the last first. *)
Definition window_feed (wa : ReplayWindow * list N) (sequence : N) : ReplayWindow * list N :=
  match window_accept (fst wa) sequence with
  | Ok w => (w, sequence :: snd wa)
  | Err _ => wa
  end.

Record window_holds (w : ReplayWindow) (accepted : list N) : Prop := {
  wh_highest : rw_highest w = newest accepted;
  wh_positive : Forall (fun n => 0 < n) accepted;
  wh_once : NoDup accepted;
  wh_seen : forall d, d < REPLAY_WINDOW_SIZE -> d < rw_highest w ->
    N.testbit (rw_seen w) d = true <-> rw_highest w - d ∈ accepted;
}.

Lemma newest_bound accepted n : n ∈ accepted -> n <= newest accepted.
Proof. unfold newest. induction 1 as [n l|n m l _ IH]; cbn; lia. Qed.

Lemma newest_cons n accepted : newest (n :: accepted) = N.max n (newest accepted).
Proof. done. Qed.

Lemma newest_zero accepted : Forall (fun n => 0 < n) accepted -> newest accepted = 0 -> accepted = [].
Proof. destruct 1 as [|n l Hn]; [done|]. cbn. lia. Qed.

Lemma mask_clear a d : (N.land a (N.shiftl 1 d) =? 0) = negb (N.testbit a d).
Proof.
  rewrite N.shiftl_1_l. destruct (N.testbit a d) eqn:E; cbn.
  - apply N.eqb_neq. intros H. assert (N.testbit (N.land a (2 ^ d)) d = false) as H1 by by rewrite H, N.bits_0.
    by rewrite N.land_spec, E, N.pow2_bits_true in H1.
  - apply N.eqb_eq, N.bits_inj_0. intros i. rewrite N.land_spec. destruct (N.eq_dec i d) as [->|Hne]; [by rewrite E|].
    rewrite N.pow2_bits_false by done. apply andb_false_r.
Qed.

Lemma u64_shl_spec a shift d : d < 64 -> N.testbit (u64_shl a shift) d = (shift <=? d) && N.testbit a (d - shift).
Proof.
  intros Hd. unfold u64_shl. change u64_max with (N.ones 64). rewrite N.land_spec, N.ones_spec_low, andb_true_r by done.
  destruct (N.leb_spec shift d) as [H|H]; [by rewrite N.shiftl_spec_high'|by rewrite N.shiftl_spec_low].
Qed.

Lemma bit_one d : N.testbit 1 d = (d =? 0).
Proof. by destruct d as [|[]]. Qed.

(** The window gives the verdict of the list it stands for, and keeps standing for it. *)
Lemma window_accept_holds w accepted n :
  window_holds w accepted ->
  match window_accept w n with
  | Ok w' => replay_verdict accepted n = Ok tt /\ window_holds w' (n :: accepted)
  | Err e => replay_verdict accepted n = Err e
  end.
Proof.
  intros [Hh Hp Ho Hs]. unfold window_accept, replay_verdict. rewrite <- Hh.
  destruct (N.eqb_spec n 0) as [->|Hn]; [done|].
  destruct (N.eqb_spec (rw_highest w) 0) as [H0|H0].
  { rewrite H0 in Hh. pose proof (newest_zero _ Hp (eq_sym Hh)) as ->. rewrite H0, (proj2 (N.ltb_lt 0 n)) by lia.
    split; [done|]. split; cbn [rw_highest rw_seen]; [rewrite newest_cons; cbn; lia|by repeat constructor; lia|by apply NoDup_singleton|].
    intros d Hd Hdn. rewrite bit_one, list_elem_of_singleton, N.eqb_eq. lia. }
  destruct (N.ltb_spec (rw_highest w) n) as [Hlt|Hge].
  - split; [done|]. split; cbn [rw_highest rw_seen].
    + rewrite newest_cons. lia.
    + constructor; [lia|done].
    + constructor; [|done]. intros Hin%newest_bound. lia.
    + intros d Hd Hdn. rewrite elem_of_cons. change REPLAY_WINDOW_SIZE with 64 in *.
      destruct (N.leb_spec 64 (n - rw_highest w)) as [Hfar|Hnear].
      * rewrite bit_one, N.eqb_eq. split; [lia|]. intros [?|Hin%newest_bound]; lia.
      * rewrite N.lor_spec, orb_true_iff, bit_one, N.eqb_eq, u64_shl_spec, andb_true_iff, N.leb_le by done.
        destruct (N.leb_spec (n - rw_highest w) d) as [Hle|Hgt].
        -- rewrite Hs by lia. replace (rw_highest w - (d - (n - rw_highest w))) with (n - d) by lia.
           split; [intros [[_ ?]|?]; [by right|lia]|intros [?|?]; [lia|by left]].
        -- split; [intros [[? _]|?]; lia|intros [?|Hin%newest_bound]; lia].
  - destruct (N.leb_spec REPLAY_WINDOW_SIZE (rw_highest w - n)) as [Hold|Hin]; [done|].
    rewrite mask_clear, negb_involutive.
    assert (N.testbit (rw_seen w) (rw_highest w - n) = true <-> n ∈ accepted) as Hseen.
    { rewrite Hs by lia. by replace (rw_highest w - (rw_highest w - n)) with n by lia. }
    destruct (N.testbit (rw_seen w) (rw_highest w - n)).
    { by rewrite bool_decide_true by by apply Hseen. }
    assert (n ∉ accepted) as Hnew by (intros Hc; by apply Hseen in Hc).
    rewrite bool_decide_false by done. split; [done|]. split; cbn [rw_highest rw_seen].
    + rewrite newest_cons. lia.
    + constructor; [lia|done].
    + by constructor.
    + intros d Hd Hdn. rewrite N.lor_spec, orb_true_iff, (Hs d Hd Hdn), elem_of_cons, N.shiftl_1_l.
      destruct (N.eq_dec d (rw_highest w - n)) as [->|Hne].
      * rewrite N.pow2_bits_true. split; [intros _; left; lia|by right].
      * rewrite N.pow2_bits_false by done. split; [intros [?|?]; [by right|done]|intros [?|?]; [lia|by left]].
Qed.

Lemma window_feeds arrivals :
  let '(w, accepted) := fold_left window_feed arrivals (window_new, []) in window_holds w accepted.
Proof.
  induction arrivals as [|n arrivals IH] using rev_ind.
  - split; [done|constructor|constructor|]. cbn. intros d _ Hd. lia.
  - rewrite fold_left_app. destruct (fold_left window_feed arrivals _) as [w accepted]. cbn. unfold window_feed. cbn.
    pose proof (window_accept_holds w accepted n IH) as H. destruct (window_accept w n); [by destruct H|done].
Qed.

(** C26: The 64-bit replay window decides exactly like the full list of numbers accepted so far, whatever
    order, repetitions and gaps they arrive in: a number is refused when it is zero, 64 or more
    behind the newest, or was accepted before, with the error that says so, and accepted
    otherwise; hence no number is ever accepted twice. *)
Theorem replay_window_exact arrivals n :
  let '(w, accepted) := fold_left window_feed arrivals (window_new, []) in
  NoDup accepted /\ rmap (fun _ => tt) (window_accept w n) = replay_verdict accepted n.
Proof.
  pose proof (window_feeds arrivals) as H. destruct (fold_left window_feed arrivals _) as [w accepted].
  split; [apply (wh_once _ _ H)|]. pose proof (window_accept_holds w accepted n H) as Ha.
  destruct (window_accept w n); [by destruct Ha as [-> _]|by rewrite Ha].
Qed.

(** A shift of 63 and one of 64, a late number inside the window, and its repetition. *)
Example window_edges :
  let '(w, accepted) := fold_left window_feed [1; 64; 2; 2; 128; 65; 64; 66; 0] (window_new, []) in
  accepted = [66; 65; 128; 2; 64; 1]
  /\ window_accept w 64 = Err (CeReplayTooOld 64) /\ window_accept w 66 = Err (CeReplay 66).
Proof. by vm_compute. Qed.

(** ** The transcript prologue *)

Inductive CredentialPurpose := OwnerPairing | TaskInvitation.
Inductive ChannelRole := Initiator | Responder.

#[export] Instance CredentialPurpose_eq_dec : EqDecision CredentialPurpose.
Proof. solve_decision. Defined.
#[export] Instance ChannelRole_eq_dec : EqDecision ChannelRole.
Proof. solve_decision. Defined.

Definition transcript_label (p : CredentialPurpose) : list N :=
  match p with OwnerPairing => OWNER_PAIRING_LABEL | TaskInvitation => TASK_INVITATION_LABEL end.

Definition send_role_label (role : ChannelRole) : list N :=
  match role with Initiator => SEND_ROLE | Responder => RECV_ROLE end.
Definition recv_role_label (role : ChannelRole) : list N :=
  match role with Initiator => RECV_ROLE | Responder => SEND_ROLE end.

Record CryptoPrologue := {
  cp_protocol_major : N;
  cp_purpose : CredentialPurpose;
  cp_route_id : list N;
  cp_session_id : list N;
}.

#[export] Instance CryptoPrologue_eq_dec : EqDecision CryptoPrologue.
Proof. solve_decision. Defined.

Definition prologue_new (protocol_major : N) (purpose : CredentialPurpose) (route_id session_id : list N)
    : result CryptoPrologue CryptoError :=
  ensure protocol_major =? PROTOCOL_MAJOR else CeProtocolMajor ;;
  Ok {| cp_protocol_major := protocol_major; cp_purpose := purpose; cp_route_id := route_id;
        cp_session_id := session_id |}.

Definition prologue_bytes (p : CryptoPrologue) : list N :=
  let label := transcript_label (cp_purpose p) in
  CONNECT_CRYPTO_PROTOCOL ++ be_bytes 2 (cp_protocol_major p) ++ [count label] ++ label
  ++ cp_route_id p ++ cp_session_id p.

Record prologue_typed (p : CryptoPrologue) : Prop := {
  pt_major : cp_protocol_major p < 256 ^ 2;
  pt_route : length (cp_route_id p) = 16%nat;
  pt_session : length (cp_session_id p) = 16%nat;
}.

Lemma prologue_bytes_inj p q :
  prologue_typed p -> prologue_typed q -> prologue_bytes p = prologue_bytes q -> p = q.
Proof.
  intros [Hm Hr Hs] [Hm' Hr' Hs'] E. destruct p as [m u r s], q as [m' u' r' s']. unfold prologue_bytes in E. cbn [cp_protocol_major
    cp_purpose cp_route_id cp_session_id] in *.
  apply app_inv_head in E. apply app_inj_1 in E as [Em E]; [|by rewrite !length_be_bytes].
  apply be_bytes_inj in Em as ->; [|done..]. injection E as Ec E.
  assert (u = u') as -> by (destruct u, u'; done || (vm_compute in Ec; discriminate Ec)).
  apply app_inv_head in E. apply app_inj_1 in E as [-> ->]; [done|congruence].
Qed.

(** ** The source-level sealer *)

(** HMAC-SHA256 of a key and a message: 32 bytes. *)
Class HmacSha256 := {
  hmac : list N -> list N -> list N;
  hmac_length : forall key message, length (hmac key message) = 32%nat;
}.

(** The loop looks at every byte whatever it finds. *)
Definition constant_time_eq (left right : list N) : bool :=
  if negb (Nat.eqb (length left) (length right)) then false
  else fold_left (fun diff ab => N.lor diff (N.lxor (fst ab) (snd ab))) (zip left right) 0 =? 0.

Section Sealer.
Context `{HmacSha256}.

Definition derive_key (master label role prologue : list N) : list N :=
  hmac master (label ++ role ++ prologue).

(** One turn per block; a fuel of one turn per byte is more than enough. *)
Fixpoint apply_keystream_from (fuel : nat) (enc_key nonce : list N) (sequence block_index : N)
    (buffer : list N) : list N :=
  match fuel, buffer with
  | _, [] => []
  | O, _ => buffer
  | S fuel, _ =>
      let block := hmac enc_key (KS_LABEL ++ nonce ++ be_bytes 8 sequence ++ be_bytes 4 block_index) in
      let n := Nat.min (length buffer) (length block) in
      zip_with N.lxor (take n buffer) block
      ++ apply_keystream_from fuel enc_key nonce sequence (block_index + 1) (drop n buffer)
  end.

Definition apply_keystream (enc_key nonce : list N) (sequence : N) (buffer : list N) : list N :=
  apply_keystream_from (length buffer) enc_key nonce sequence 0 buffer.

Definition authenticate (mac_key : list N) (sequence : N) (nonce ciphertext : list N) : list N :=
  hmac mac_key (TAG_LABEL ++ [SEALED_FRAME_VERSION] ++ be_bytes 8 sequence ++ nonce ++ ciphertext).

Definition seal_with (enc_key mac_key : list N) (sequence : N) (nonce plaintext : list N)
    : result SealedFrame CryptoError :=
  ensure negb (sequence =? 0) else CeZeroSequence ;;
  ensure count plaintext <=? MAX_SEALED_PLAINTEXT_BYTES else CePlaintextExceeded (count plaintext) ;;
  let ciphertext := apply_keystream enc_key nonce sequence plaintext in
  let tag := authenticate mac_key sequence nonce ciphertext in
  sealed_from_parts SEALED_FRAME_VERSION sequence nonce ciphertext tag.

Definition open_with (enc_key mac_key : list N) (frame : SealedFrame) : result (list N) CryptoError :=
  try? sealed_validate frame ;;
  let expected := authenticate mac_key (sl_sequence frame) (sl_nonce frame) (sl_ciphertext frame) in
  ensure constant_time_eq expected (sl_tag frame) else CeAuthenticity ;;
  Ok (apply_keystream enc_key (sl_nonce frame) (sl_sequence frame) (sl_ciphertext frame)).

Record SourceLevelSealer := {
  ss_send_enc : list N;
  ss_send_mac : list N;
  ss_recv_enc : list N;
  ss_recv_mac : list N;
}.

Definition sealer_derive (master : list N) (prologue : CryptoPrologue) (role : ChannelRole) : SourceLevelSealer :=
  let bytes := prologue_bytes prologue in
  {| ss_send_enc := derive_key master ENC_LABEL (send_role_label role) bytes;
     ss_send_mac := derive_key master MAC_LABEL (send_role_label role) bytes;
     ss_recv_enc := derive_key master ENC_LABEL (recv_role_label role) bytes;
     ss_recv_mac := derive_key master MAC_LABEL (recv_role_label role) bytes |}.

Definition sealer_seal (s : SourceLevelSealer) (sequence : N) (nonce plaintext : list N)
    : result SealedFrame CryptoError :=
  seal_with (ss_send_enc s) (ss_send_mac s) sequence nonce plaintext.

Definition sealer_open (s : SourceLevelSealer) (frame : SealedFrame) : result (list N) CryptoError :=
  open_with (ss_recv_enc s) (ss_recv_mac s) frame.

Lemma lor_zero a b : N.lor a b = 0 <-> a = 0 /\ b = 0.
Proof. apply N.lor_eq_0_iff. Qed.

Lemma constant_time_eq_true l r : constant_time_eq l r = true <-> l = r.
Proof.
  unfold constant_time_eq. destruct (Nat.eqb_spec (length l) (length r)) as [E|E]; cbn [negb].
  2:{ split; [done|]. by intros ->. }
  rewrite N.eqb_eq.
  assert (forall l r d, length l = length r ->
    fold_left (fun diff ab => N.lor diff (N.lxor (fst ab) (snd ab))) (zip l r) d = 0 <-> d = 0 /\ l = r) as Hg.
  { clear. induction l as [|a l IH]; intros [|b r] d E; try done; cbn.
    - by split; [|intros [? _]].
    - rewrite IH by (cbn in E; lia). rewrite lor_zero, N.lxor_eq_0_iff. split.
      + by intros [[-> ->] ->].
      + by intros [-> [= -> ->]]. }
  rewrite Hg by done. naive_solver.
Qed.

Lemma lxor_twice a k : length a = length k -> zip_with N.lxor (zip_with N.lxor a k) k = a.
Proof.
  revert k. induction a as [|x a IH]; intros [|y k] E; try done. cbn. f_equal; [|apply IH; cbn in E; lia].
  by rewrite N.lxor_assoc, N.lxor_nilpotent, N.lxor_0_r.
Qed.

Lemma zip_lxor_take a k : (length a <= length k)%nat -> zip_with N.lxor a k = zip_with N.lxor a (take (length a) k).
Proof. revert k. induction a as [|x a IH]; intros [|y k] E; try done; cbn in *. f_equal. apply IH. lia. Qed.

Lemma keystream_length fuel e n s : forall i b, length (apply_keystream_from fuel e n s i b) = length b.
Proof.
  induction fuel as [|fuel IH]; intros i [|x b]; try done. cbn [apply_keystream_from].
  rewrite length_app, IH, length_drop, length_zip_with, hmac_length, length_take; cbn [length]; lia.
Qed.

Lemma keystream_twice fuel e n s : forall i b,
  (length b <= fuel)%nat -> apply_keystream_from fuel e n s i (apply_keystream_from fuel e n s i b) = b.
Proof.
  induction fuel as [|fuel IH]; intros i b Hl; [by destruct b|]. destruct b as [|x b]; [done|].
  set (whole := x :: b). assert (exists y c, apply_keystream_from (S fuel) e n s i whole = y :: c) as (y & c & E).
  { pose proof (keystream_length (S fuel) e n s i whole) as L. destruct (apply_keystream_from (S fuel) e n s i whole); [done|by eexists _, _]. }
  rewrite E. cbn [apply_keystream_from]. rewrite <- E.
  assert (length (apply_keystream_from (S fuel) e n s i whole) = length whole) as L by apply keystream_length.
  rewrite L. set (block := hmac e _). set (k := Nat.min (length whole) (length block)).
  assert (length block = 32%nat) as Hb by apply hmac_length.
  assert (length whole = S (length b)) as Hw by done.
  assert (1 <= k <= length block /\ k <= length whole)%nat as Hk by (unfold k; lia).
  change (apply_keystream_from (S fuel) e n s i whole) with
    (zip_with N.lxor (take k whole) block ++ apply_keystream_from fuel e n s (i + 1) (drop k whole)).
  assert (length (zip_with N.lxor (take k whole) block) = k) as Lz.
  { rewrite length_zip_with, length_take. clearbody k. lia. }
  rewrite take_app_length', drop_app_length' by done. clearbody k. cbn [length] in Hl.
  rewrite IH by (rewrite length_drop; lia). rewrite <- (take_drop k whole) at 3. f_equal.
  rewrite (zip_lxor_take (zip_with _ _ _)) by lia. rewrite Lz.
  assert (length (take k whole) = k) as Lt by (rewrite length_take; lia).
  rewrite (zip_lxor_take (take k whole)) by lia. rewrite Lt. apply lxor_twice. rewrite Lt, length_take. lia.
Qed.

(** What one end seals, the other end of the same channel opens. *)
Lemma sealer_roundtrip master prologue role other sequence nonce plaintext :
  recv_role_label other = send_role_label role ->
  0 < sequence -> count plaintext <= MAX_SEALED_PLAINTEXT_BYTES ->
  exists frame,
    sealer_seal (sealer_derive master prologue role) sequence nonce plaintext = Ok frame
    /\ sl_sequence frame = sequence
    /\ sealer_open (sealer_derive master prologue other) frame = Ok plaintext.
Proof.
  intros Hrole Hs Hp. unfold sealer_seal, sealer_open, sealer_derive. cbn [ss_send_enc ss_send_mac ss_recv_enc ss_recv_mac].
  rewrite Hrole. set (enc := derive_key _ ENC_LABEL _ _). set (mac := derive_key _ MAC_LABEL _ _). unfold seal_with.
  rewrite (proj2 (N.eqb_neq sequence 0)) by lia. rewrite (proj2 (N.leb_le _ _) Hp). cbn [negb guard rbind].
  set (ct := apply_keystream enc nonce sequence plaintext). set (tag := authenticate mac sequence nonce ct).
  set (frame := {| sl_version := SEALED_FRAME_VERSION; sl_sequence := sequence; sl_nonce := nonce;
                   sl_ciphertext := ct; sl_tag := tag |}).
  assert (length ct = length plaintext) as Hct by apply keystream_length.
  assert (sealed_validate frame = Ok tt) as Hv.
  { apply sealed_validate_Ok. split_and!; [done|cbn; lia|]. unfold sealed_encoded_len, count in *. cbn [frame sl_ciphertext].
    rewrite Hct. unfold MAX_SEALED_PLAINTEXT_BYTES, SEALED_FRAME_OVERHEAD_BYTES in Hp.
    change MAX_SEALED_FRAME_BYTES with 1048576 in *. change SEALED_NONCE_BYTES with 16 in *.
    change SEALED_TAG_BYTES with 32 in *. lia. }
  exists frame. split_and!; [by apply sealed_from_parts_Ok|done|].
  unfold open_with. rewrite Hv. cbn [rbind]. rewrite (proj2 (constant_time_eq_true _ _)) by done. cbn [guard rbind]. f_equal.
  unfold apply_keystream. cbn [frame sl_ciphertext sl_nonce sl_sequence]. rewrite Hct. by apply keystream_twice.
Qed.
End Sealer.

(** A keyed sum that stands for the hash in the examples. *)
Definition toy_hmac (key message : list N) : list N :=
  map (fun i => (7 * fold_left N.add key 0 + fold_left N.add message 0 + N.of_nat i) mod 256) (seq 0 32).

Definition toy_hmac_sha256 : HmacSha256 :=
  {| hmac := toy_hmac; hmac_length key message := eq_trans (length_map _ _) (length_seq 32 0) |}.

(** A frame for the examples. *)
Definition sample_frame : SealedFrame :=
  {| sl_version := 1; sl_sequence := 300; sl_nonce := repeat 4 16; sl_ciphertext := [1; 2; 3]; sl_tag := repeat 9 32 |}.

Definition sample_frame_bytes : list N :=
  match sealed_encode sample_frame with Ok bytes => bytes | Err _ => [] end.

Lemma sealed_frame_canonical_witness : sealed_decode sample_frame_bytes = Ok sample_frame.
Proof.
  apply (sealed_frame_canonical sample_frame_bytes sample_frame).
  - vm_compute. repeat constructor.
  - split; [split; [reflexivity|reflexivity|discriminate]|reflexivity].
Defined.
