(* ===== verification/SecureChannel.v ===== *)
(** The end-to-end channel over Noise ([protocol/crypto.rs], [connect/crypto.rs]): the handshake
    that authenticates a peer, the transport that binds every message to its frame, and the
    channel that numbers what it seals and opens no number twice.  The Noise library is the class
    [Noise]; a call that takes [&mut self] answers the next state. *)
From S2P Require Import Prelude Canonical Codec Frame Query SecureFrame.

Inductive StateProblem :=
| NotTurnToWrite
| NotTurnToRead
| HandshakeAlreadyFinished
| Exhausted
| OtherStateProblem.

(** [snow::Error], as far as it is told apart. *)
Inductive SnowError := SnowState (problem : StateProblem) | SnowInput | SnowDecrypt | SnowOther.

(** [snow]: a handshake and a transport state.  Reading is into a buffer of a given size. *)
Class Noise := {
  handshake_state : Type;
  transport_state : Type;
  noise_parses : text -> bool;
  noise_build : text -> list N -> list N -> option (list N) -> bool -> option handshake_state;
  hs_is_my_turn : handshake_state -> bool;
  hs_write_message : handshake_state -> list N -> N -> handshake_state * result (list N) SnowError;
  hs_read_message : handshake_state -> list N -> N -> handshake_state * result (list N) SnowError;
  hs_remote_static : handshake_state -> option (list N);
  hs_is_finished : handshake_state -> bool;
  hs_into_transport : handshake_state -> option transport_state;
  ts_write_message : transport_state -> list N -> N -> transport_state * result (list N) SnowError;
  ts_read_message : transport_state -> list N -> N -> transport_state * result (list N) SnowError;
}.

Definition map_handshake_error (e : SnowError) : CryptoError :=
  match e with
  | SnowState NotTurnToWrite | SnowState NotTurnToRead => CeHandshakeWrongRole
  | SnowState HandshakeAlreadyFinished => CeHandshakeDuplicate
  | SnowInput => CeHandshakeOversized
  | SnowDecrypt => CeAuthenticity
  | _ => CeHandshakeFailed
  end.

Definition map_transport_error (e : SnowError) : CryptoError :=
  match e with
  | SnowDecrypt => CeAuthenticity
  | SnowInput => CePlaintextExceeded (saturating_add MAX_SEALED_PLAINTEXT_BYTES 1)
  | SnowState Exhausted => CeSequenceExhausted
  | _ => CeAuthenticity
  end.

(** ** Keys, identities and claims *)

Definition all_zero (bytes : list N) : bool := forallb (fun b => b =? 0) bytes.

Definition reject_all_zero_key (bytes : list N) : result unit CryptoError :=
  guard (negb (all_zero bytes)) CeIdentityBinding.

(** [NoiseStaticPublicKey::from_bytes] and [NoiseStaticPrivateKey::from_vault_bytes] *)
Definition static_key_from_bytes (bytes : list N) : result (list N) CryptoError :=
  try? reject_all_zero_key bytes ;; Ok bytes.

Record NoiseIdentityBinding := {
  ni_host_public_id : list N;
  ni_device_public_id : option (list N);
}.

Definition identity_host (host_public_id : list N) : NoiseIdentityBinding :=
  {| ni_host_public_id := host_public_id; ni_device_public_id := None |}.
Definition identity_host_device (host_public_id device_public_id : list N) : NoiseIdentityBinding :=
  {| ni_host_public_id := host_public_id; ni_device_public_id := Some device_public_id |}.

Definition claim_id (b : NoiseIdentityBinding) : list N :=
  default (ni_host_public_id b) (ni_device_public_id b).

Record NoiseCustody := {
  nc_private : list N;
  nc_public : list N;
}.

Definition custody_from_vault (private public : list N) : result NoiseCustody CryptoError :=
  try? reject_all_zero_key private ;;
  try? reject_all_zero_key public ;;
  Ok {| nc_private := private; nc_public := public |}.

Definition IDENTITY_CLAIM_KIND_HOST : N := 1.
Definition IDENTITY_CLAIM_KIND_DEVICE : N := 2.

Inductive IdentityClaimKind := KindHost | KindDevice.

Definition claim_kind_from_wire (kind : N) : option IdentityClaimKind :=
  if kind =? IDENTITY_CLAIM_KIND_HOST then Some KindHost
  else if kind =? IDENTITY_CLAIM_KIND_DEVICE then Some KindDevice
  else None.

Record AuthenticatedPeer := {
  ap_static_public : list N;
  ap_public_id : list N;
  ap_kind : IdentityClaimKind;
}.

Record IdentityClaim := {
  ic_kind : N;
  ic_public_id : list N;
  ic_static_public : list N;
}.

Definition encode_identity_claim (c : IdentityClaim) : list N :=
  [1; ic_kind c] ++ ic_public_id c ++ ic_static_public c.

Definition decode_identity_claim (bytes : list N) : result IdentityClaim CryptoError :=
  ensure (count bytes =? NOISE_IDENTITY_CLAIM_BYTES) && (nth 0 bytes 0 =? 1) else CeIdentityBinding ;;
  let kind := nth 1 bytes 0 in
  ensure (kind =? IDENTITY_CLAIM_KIND_HOST) || (kind =? IDENTITY_CLAIM_KIND_DEVICE) else CeIdentityBinding ;;
  let public_id := slice 2 18 bytes in
  ensure negb (all_zero public_id) else CeIdentityBinding ;;
  let static_bytes := slice 18 50 bytes in
  ensure negb (all_zero static_bytes) else CeIdentityBinding ;;
  let? static_public := static_key_from_bytes static_bytes in
  Ok {| ic_kind := kind; ic_public_id := public_id; ic_static_public := static_public |}.

(** [try_into] needs exactly the 32 bytes that [get(..32)] returned. *)
Definition public_key_from_slice (bytes : list N) : result (list N) CryptoError :=
  ensure NOISE_STATIC_KEY_BYTES <=? count bytes else CeUnexpectedPeer ;;
  match static_key_from_bytes (take (N.to_nat NOISE_STATIC_KEY_BYTES) bytes) with
  | Ok key => Ok key
  | Err _ => Err CeUnexpectedPeer
  end.

(** ** Handshake messages *)

Record NoiseHandshakeMessage := {
  hm_step : N;
  hm_body : list N;
}.

Definition message_encoded_len (m : NoiseHandshakeMessage) : N := 2 + count (hm_body m).

Definition message_validate (m : NoiseHandshakeMessage) : result unit CryptoError :=
  guard (message_encoded_len m <=? MAX_HANDSHAKE_MESSAGE_BYTES) CeHandshakeOversized.

Definition message_encode (m : NoiseHandshakeMessage) : result (list N) CryptoError :=
  try? message_validate m ;; Ok ([HANDSHAKE_FRAME_VERSION; hm_step m] ++ hm_body m).

Definition message_decode (bytes : list N) : result NoiseHandshakeMessage CryptoError :=
  ensure count bytes <=? MAX_HANDSHAKE_MESSAGE_BYTES else CeHandshakeOversized ;;
  ensure 2 <=? count bytes else CeTruncatedFrame (count bytes) ;;
  ensure nth 0 bytes 0 =? HANDSHAKE_FRAME_VERSION else CeUnsupportedVersion (nth 0 bytes 0) ;;
  let message := {| hm_step := nth 1 bytes 0; hm_body := drop 2 bytes |} in
  try? message_validate message ;; Ok message.

(** ** What a transport message binds *)

Definition INNER_AD_VERSION : N := 1.
Definition INNER_AD_HEADER_BYTES : N := 1 + 8 + 1 + 1 + 16 + 32 + SEALED_NONCE_BYTES.

Definition purpose_tag (p : CredentialPurpose) : N :=
  match p with OwnerPairing => 0 | TaskInvitation => 1 end.

Definition purpose_of_tag (tag : N) : result CredentialPurpose CryptoError :=
  if tag =? 0 then Ok OwnerPairing else if tag =? 1 then Ok TaskInvitation else Err CeAuthenticity.

Definition route_tag (direct_reachable : bool) : N := if direct_reachable then 1 else 2.

Definition encode_transport_inner (prologue : CryptoPrologue) (direct_reachable : bool) (sequence : N)
    (nonce sender_static : list N) (remote : AuthenticatedPeer) (plaintext : list N)
    : result (list N) CryptoError :=
  let declared := count plaintext + INNER_AD_HEADER_BYTES in
  ensure declared <=? MAX_SEALED_PLAINTEXT_BYTES else CePlaintextExceeded declared ;;
  try? reject_all_zero_key sender_static ;;
  try? reject_all_zero_key (ap_static_public remote) ;;
  Ok ([INNER_AD_VERSION] ++ be_bytes 8 sequence
      ++ [purpose_tag (cp_purpose prologue); route_tag direct_reachable]
      ++ cp_session_id prologue ++ sender_static ++ nonce ++ plaintext).

Definition decode_transport_inner (prologue : CryptoPrologue) (direct_reachable : bool) (frame : SealedFrame)
    (remote : AuthenticatedPeer) (inner : list N) : result (list N) CryptoError :=
  ensure INNER_AD_HEADER_BYTES <=? count inner else CeAuthenticity ;;
  ensure nth 0 inner 0 =? INNER_AD_VERSION else CeAuthenticity ;;
  ensure from_be (slice 1 9 inner) =? sl_sequence frame else CeAuthenticity ;;
  let? purpose := purpose_of_tag (nth 9 inner 0) in
  ensure purpose =?= cp_purpose prologue else CeAuthenticity ;;
  ensure nth 10 inner 0 =? route_tag direct_reachable else CeAuthenticity ;;
  ensure slice 11 27 inner =?= cp_session_id prologue else CeAuthenticity ;;
  ensure negb (all_zero (ap_static_public remote)) else CeAuthenticity ;;
  ensure constant_time_eq (slice 27 59 inner) (ap_static_public remote) else CeAuthenticity ;;
  ensure slice 59 75 inner =?= sl_nonce frame else CeAuthenticity ;;
  Ok (drop (N.to_nat INNER_AD_HEADER_BYTES) inner).

(** The 16-byte tag of the AEAD travels in the first half of the frame's tag. *)
Definition frame_from_noise_output (sequence : N) (nonce message : list N) : result SealedFrame CryptoError :=
  ensure NOISE_AEAD_TAG_BYTES <=? count message else CeHandshakeFailed ;;
  let split := (length message - N.to_nat NOISE_AEAD_TAG_BYTES)%nat in
  sealed_from_parts SEALED_FRAME_VERSION sequence nonce (take split message)
    (drop split message ++ repeat 0 (N.to_nat (SEALED_TAG_BYTES - NOISE_AEAD_TAG_BYTES))).

Definition noise_output_from_frame (frame : SealedFrame) : result (list N) CryptoError :=
  let tag := sl_tag frame in
  ensure all_zero (drop (N.to_nat NOISE_AEAD_TAG_BYTES) tag) else CeAuthenticity ;;
  Ok (sl_ciphertext frame ++ take (N.to_nat NOISE_AEAD_TAG_BYTES) tag).

(** ** The handshake *)

Section Handshake.
Context `{NO : Noise}.

Record NoiseHandshake := {
  nh_state : handshake_state;
  nh_role : ChannelRole;
  nh_first_pairing : bool;
  nh_prologue : CryptoPrologue;
  nh_local_public : list N;
  nh_local_identity : NoiseIdentityBinding;
  nh_expected_remote : option (list N);
  nh_remote_peer : option AuthenticatedPeer;
  nh_writes : N;
  nh_reads : N;
  nh_expected_messages : N;
  nh_opened_at_unix : N;
  nh_direct_reachable : bool;
}.

Definition nh_with (h : NoiseHandshake) (state : handshake_state) (peer : option AuthenticatedPeer)
    (writes reads : N) : NoiseHandshake :=
  {| nh_state := state; nh_role := nh_role h; nh_first_pairing := nh_first_pairing h;
     nh_prologue := nh_prologue h; nh_local_public := nh_local_public h;
     nh_local_identity := nh_local_identity h; nh_expected_remote := nh_expected_remote h;
     nh_remote_peer := peer; nh_writes := writes; nh_reads := reads;
     nh_expected_messages := nh_expected_messages h; nh_opened_at_unix := nh_opened_at_unix h;
     nh_direct_reachable := nh_direct_reachable h |}.

(** [u8::checked_add(1)] *)
Definition u8_next (n : N) : result N CryptoError :=
  ensure n + 1 <=? 255 else CeHandshakeFailed ;; Ok (n + 1).

Definition handshake_open (pattern : text) (first_pairing : bool) (local_static local_public : list N)
    (expected_remote : option (list N)) (prologue : CryptoPrologue) (role : ChannelRole)
    (local_identity : NoiseIdentityBinding) (now_unix : N) (direct_reachable : bool)
    : result NoiseHandshake CryptoError :=
  let bytes := prologue_bytes prologue in
  ensure negb (is_empty bytes) else CeEmptyPrologue ;;
  try? reject_all_zero_key local_static ;;
  try? reject_all_zero_key local_public ;;
  try? match expected_remote with Some remote => reject_all_zero_key remote | None => Ok tt end ;;
  ensure negb (all_zero (ni_host_public_id local_identity)) else CeIdentityBinding ;;
  ensure negb (is_some_and (ni_device_public_id local_identity) all_zero) else CeIdentityBinding ;;
  ensure noise_parses pattern else CeAlgorithmDowngrade ;;
  let remote := if first_pairing then None else expected_remote in
  let initiator := match role with Initiator => true | Responder => false end in
  let? state := ok_or (noise_build pattern local_static bytes remote initiator) CeHandshakeFailed in
  Ok {| nh_state := state; nh_role := role; nh_first_pairing := first_pairing; nh_prologue := prologue;
        nh_local_public := local_public; nh_local_identity := local_identity;
        nh_expected_remote := expected_remote; nh_remote_peer := None; nh_writes := 0; nh_reads := 0;
        nh_expected_messages := if first_pairing then 3 else 2; nh_opened_at_unix := now_unix;
        nh_direct_reachable := direct_reachable |}.

Definition validate_noise_pattern (pattern : text) (first_pairing : bool) : result unit CryptoError :=
  let expected := if first_pairing then NOISE_FIRST_PAIRING_PATTERN else NOISE_PINNED_DEVICE_PATTERN in
  guard (pattern =?= expected) CeAlgorithmDowngrade.

Inductive CryptoHoldReason :=
| ProductionReviewRequired
| MissingSnowCrate
| DualTargetUnproven
| IndependentReviewRequired
| AlgorithmRejected
| MissingStaticKey
| HandshakeRejected.

Definition hold_reason (e : CryptoError) : CryptoHoldReason :=
  match e with
  | CeAlgorithmDowngrade | CeEmptyPrologue | CeRevokedKey => AlgorithmRejected
  | _ => HandshakeRejected
  end.

Definition instantiate_noise_channel (pattern : text) (first_pairing : bool) (local_static local_public : list N)
    (expected_remote : option (list N)) (prologue : CryptoPrologue) (role : ChannelRole)
    (local_identity : NoiseIdentityBinding) (now_unix : N) (direct_reachable : bool)
    : result NoiseHandshake CryptoHoldReason :=
  match validate_noise_pattern pattern first_pairing with
  | Err _ => Err AlgorithmRejected
  | Ok _ =>
      ensure first_pairing || is_some expected_remote else MissingStaticKey ;;
      match handshake_open pattern first_pairing local_static local_public expected_remote prologue role
              local_identity now_unix direct_reachable with
      | Ok h => Ok h
      | Err e => Err (hold_reason e)
      end
  end.

Definition handshake_finished (h : NoiseHandshake) : bool :=
  nh_expected_messages h <=? nh_writes h + nh_reads h.

Definition local_claim_bytes (h : NoiseHandshake) : list N :=
  encode_identity_claim
    {| ic_kind := if is_some (ni_device_public_id (nh_local_identity h)) then IDENTITY_CLAIM_KIND_DEVICE
                  else IDENTITY_CLAIM_KIND_HOST;
       ic_public_id := claim_id (nh_local_identity h);
       ic_static_public := nh_local_public h |}.

(** The state of the library moves with the call, whatever comes of the message. *)
Definition handshake_write_message (h : NoiseHandshake)
    : NoiseHandshake * result NoiseHandshakeMessage CryptoError :=
  if handshake_finished h then (h, Err CeHandshakeDuplicate)
  else if negb (hs_is_my_turn (nh_state h)) then (h, Err CeHandshakeWrongRole)
  else
    let expected_step := nh_writes h + nh_reads h in
    let payload := local_claim_bytes h in
    if MAX_HANDSHAKE_PAYLOAD_BYTES <? count payload then (h, Err CeHandshakeOversized)
    else
      let '(state, written) := hs_write_message (nh_state h) payload MAX_HANDSHAKE_MESSAGE_BYTES in
      let moved := nh_with h state (nh_remote_peer h) (nh_writes h) (nh_reads h) in
      match written with
      | Err e => (moved, Err (map_handshake_error e))
      | Ok body =>
          if MAX_HANDSHAKE_MESSAGE_BYTES <? count body then (moved, Err CeHandshakeOversized)
          else
            match u8_next (nh_writes h) with
            | Err e => (moved, Err e)
            | Ok writes =>
                (nh_with h state (nh_remote_peer h) writes (nh_reads h),
                 Ok {| hm_step := expected_step; hm_body := body |})
            end
      end.

(** The claim a message carried, against the key the library authenticated. *)
Definition check_claim (expected_remote : option (list N)) (remote : option (list N)) (payload : list N)
    : result (option AuthenticatedPeer) CryptoError :=
  let? claim := decode_identity_claim payload in
  match remote with
  | None => Ok None
  | Some remote =>
      let? remote_key := public_key_from_slice remote in
      ensure ic_static_public claim =?= remote_key else CeIdentityBinding ;;
      ensure match expected_remote with
             | Some expected => constant_time_eq expected remote_key
             | None => true
             end else CeUnexpectedPeer ;;
      let? kind := ok_or (claim_kind_from_wire (ic_kind claim)) CeIdentityBinding in
      Ok (Some {| ap_static_public := remote_key; ap_public_id := ic_public_id claim; ap_kind := kind |})
  end.

Definition handshake_read_message (h : NoiseHandshake) (message : NoiseHandshakeMessage)
    : NoiseHandshake * result unit CryptoError :=
  if handshake_finished h then (h, Err CeHandshakeDuplicate)
  else if hs_is_my_turn (nh_state h) then (h, Err CeHandshakeWrongRole)
  else if negb (hm_step message =? nh_writes h + nh_reads h) then (h, Err CeHandshakeOutOfOrder)
  else if MAX_HANDSHAKE_MESSAGE_BYTES <? count (hm_body message) then (h, Err CeHandshakeOversized)
  else
    let '(state, read) := hs_read_message (nh_state h) (hm_body message) MAX_HANDSHAKE_PAYLOAD_BYTES in
    let moved peer := nh_with h state peer (nh_writes h) (nh_reads h) in
    match read with
    | Err e => (moved (nh_remote_peer h), Err (map_handshake_error e))
    | Ok payload =>
        if MAX_HANDSHAKE_PAYLOAD_BYTES <? count payload
        then (moved (nh_remote_peer h), Err CeHandshakeOversized)
        else
          match (if is_empty payload then Ok None
                 else check_claim (nh_expected_remote h) (hs_remote_static state) payload) with
          | Err e => (moved (nh_remote_peer h), Err e)
          | Ok claimed =>
              let peer := match claimed with Some peer => Some peer | None => nh_remote_peer h end in
              match u8_next (nh_reads h) with
              | Err e => (moved peer, Err e)
              | Ok reads => (nh_with h state peer (nh_writes h) reads, Ok tt)
              end
          end
    end.

Record NoiseTransport := {
  nt_transport : transport_state;
  nt_role : ChannelRole;
  nt_prologue : CryptoPrologue;
  nt_local_static : list N;
  nt_remote : AuthenticatedPeer;
  nt_opened_at_unix : N;
  nt_direct_reachable : bool;
}.

Definition handshake_finish (h : NoiseHandshake) : result NoiseTransport CryptoError :=
  ensure hs_is_finished (nh_state h) else CeHandshakeFailed ;;
  let? remote_bytes := ok_or (hs_remote_static (nh_state h)) CeUnexpectedPeer in
  let? remote_static := public_key_from_slice remote_bytes in
  ensure match nh_expected_remote h with
         | Some expected => constant_time_eq expected remote_static
         | None => true
         end else CeUnexpectedPeer ;;
  let? remote := ok_or (nh_remote_peer h) CeIdentityBinding in
  ensure ap_static_public remote =?= remote_static else CeIdentityBinding ;;
  let? transport := ok_or (hs_into_transport (nh_state h)) CeHandshakeFailed in
  Ok {| nt_transport := transport; nt_role := nh_role h; nt_prologue := nh_prologue h;
        nt_local_static := nh_local_public h; nt_remote := remote;
        nt_opened_at_unix := nh_opened_at_unix h; nt_direct_reachable := nh_direct_reachable h |}.

(** ** The transport *)

Definition nt_with (t : NoiseTransport) (state : transport_state) : NoiseTransport :=
  {| nt_transport := state; nt_role := nt_role t; nt_prologue := nt_prologue t;
     nt_local_static := nt_local_static t; nt_remote := nt_remote t;
     nt_opened_at_unix := nt_opened_at_unix t; nt_direct_reachable := nt_direct_reachable t |}.

Definition transport_seal (t : NoiseTransport) (sequence : N) (nonce plaintext : list N)
    : NoiseTransport * result SealedFrame CryptoError :=
  if sequence =? 0 then (t, Err CeZeroSequence)
  else
    match encode_transport_inner (nt_prologue t) (nt_direct_reachable t) sequence nonce (nt_local_static t)
            (nt_remote t) plaintext with
    | Err e => (t, Err e)
    | Ok inner =>
        let '(state, written) :=
          ts_write_message (nt_transport t) inner (saturating_add (count inner) NOISE_AEAD_TAG_BYTES) in
        match written with
        | Err e => (nt_with t state, Err (map_transport_error e))
        | Ok message => (nt_with t state, frame_from_noise_output sequence nonce message)
        end
    end.

Definition transport_open (t : NoiseTransport) (frame : SealedFrame)
    : NoiseTransport * result (list N) CryptoError :=
  match (try? sealed_validate frame ;; noise_output_from_frame frame) with
  | Err e => (t, Err e)
  | Ok message =>
      let '(state, read) := ts_read_message (nt_transport t) message (count message) in
      match read with
      | Err e => (nt_with t state, Err (map_transport_error e))
      | Ok payload =>
          (nt_with t state,
           decode_transport_inner (nt_prologue t) (nt_direct_reachable t) frame (nt_remote t) payload)
      end
  end.
End Handshake.

(** ** The channel *)

Inductive ConnectRoute := RouteDirect | RouteRelay.

Definition preferred_connect_route (direct_reachable : bool) : ConnectRoute :=
  if direct_reachable then RouteDirect else RouteRelay.

Section Channel.
Context `{NO : Noise} `{HM : HmacSha256}.

Inductive ChannelCipher := SourceLevel (sealer : SourceLevelSealer) | Production (transport : NoiseTransport).

Record EndToEndChannel := {
  ec_role : ChannelRole;
  ec_preferred_route : ConnectRoute;
  ec_prologue : CryptoPrologue;
  ec_cipher : ChannelCipher;
  ec_send_sequence : N;
  ec_recv_window : ReplayWindow;
  ec_opened_at_unix : N;
}.

Definition ec_with (c : EndToEndChannel) (cipher : ChannelCipher) (send_sequence : N) (window : ReplayWindow)
    : EndToEndChannel :=
  {| ec_role := ec_role c; ec_preferred_route := ec_preferred_route c; ec_prologue := ec_prologue c;
     ec_cipher := cipher; ec_send_sequence := send_sequence; ec_recv_window := window;
     ec_opened_at_unix := ec_opened_at_unix c |}.

Definition open_production (pattern : text) (first_pairing revoked : bool)
    : result EndToEndChannel CryptoHoldReason :=
  ensure negb revoked else AlgorithmRejected ;;
  match validate_noise_pattern pattern first_pairing with
  | Err _ => Err AlgorithmRejected
  | Ok _ => Err MissingStaticKey
  end.

Definition open_production_handshake (pattern : text) (first_pairing : bool) (custody : NoiseCustody)
    (expected_remote : option (list N)) (prologue : CryptoPrologue) (role : ChannelRole)
    (identity : NoiseIdentityBinding) (now_unix : N) (direct_reachable revoked : bool)
    : result NoiseHandshake CryptoHoldReason :=
  ensure negb revoked else AlgorithmRejected ;;
  instantiate_noise_channel pattern first_pairing (nc_private custody) (nc_public custody) expected_remote
    prologue role identity now_unix direct_reachable.

Definition from_noise_transport (t : NoiseTransport) : EndToEndChannel :=
  {| ec_role := nt_role t; ec_preferred_route := preferred_connect_route (nt_direct_reachable t);
     ec_prologue := nt_prologue t; ec_cipher := Production t; ec_send_sequence := 0;
     ec_recv_window := window_new; ec_opened_at_unix := nt_opened_at_unix t |}.

Definition open_source_level (secret : list N) (prologue : CryptoPrologue) (role : ChannelRole)
    (direct_reachable : bool) (now_unix : N) (revoked : bool) : result EndToEndChannel CryptoError :=
  ensure negb revoked else CeRevokedKey ;;
  Ok {| ec_role := role; ec_preferred_route := preferred_connect_route direct_reachable;
        ec_prologue := prologue; ec_cipher := SourceLevel (sealer_derive secret prologue role);
        ec_send_sequence := 0; ec_recv_window := window_new; ec_opened_at_unix := now_unix |}.

Definition pair_source_level (secret : list N) (prologue : CryptoPrologue) (direct_reachable : bool)
    (now_unix : N) : result (EndToEndChannel * EndToEndChannel) CryptoError :=
  let? a := open_source_level secret prologue Initiator direct_reachable now_unix false in
  let? b := open_source_level secret prologue Responder direct_reachable now_unix false in
  Ok (a, b).

Definition is_production_grade (c : EndToEndChannel) : bool :=
  match ec_cipher c with Production _ => true | SourceLevel _ => false end.

Definition authenticated_peer (c : EndToEndChannel) : option AuthenticatedPeer :=
  match ec_cipher c with Production t => Some (nt_remote t) | SourceLevel _ => None end.

Definition next_send_sequence (c : EndToEndChannel) : N := saturating_add (ec_send_sequence c) 1.

Definition with_send_cursor (c : EndToEndChannel) (send_sequence : N) : EndToEndChannel :=
  ec_with c (ec_cipher c) send_sequence (ec_recv_window c).

Definition ensure_fresh (c : EndToEndChannel) (now_unix : N) : result unit CryptoError :=
  guard (negb (MAX_SESSION_AGE_SECS <=? saturating_sub now_unix (ec_opened_at_unix c))) CeSessionExpired.

Definition cipher_seal (cipher : ChannelCipher) (sequence : N) (nonce plaintext : list N)
    : ChannelCipher * result SealedFrame CryptoError :=
  match cipher with
  | SourceLevel sealer => (cipher, sealer_seal sealer sequence nonce plaintext)
  | Production t => let '(t, r) := transport_seal t sequence nonce plaintext in (Production t, r)
  end.

Definition cipher_open (cipher : ChannelCipher) (frame : SealedFrame)
    : ChannelCipher * result (list N) CryptoError :=
  match cipher with
  | SourceLevel sealer => (cipher, sealer_open sealer frame)
  | Production t => let '(t, r) := transport_open t frame in (Production t, r)
  end.

Definition seal_bytes (c : EndToEndChannel) (plaintext nonce : list N) (now_unix : N)
    : EndToEndChannel * result SealedFrame CryptoError :=
  match (try? ensure_fresh c now_unix ;; ok_or (checked_add (ec_send_sequence c) 1) CeSequenceExhausted) with
  | Err e => (c, Err e)
  | Ok sequence =>
      let '(cipher, sealed) := cipher_seal (ec_cipher c) sequence nonce plaintext in
      match sealed with
      | Err e => (ec_with c cipher (ec_send_sequence c) (ec_recv_window c), Err e)
      | Ok frame => (ec_with c cipher sequence (ec_recv_window c), Ok frame)
      end
  end.

(** The number is tried on a copy of the window; it counts once the frame has opened. *)
Definition open_bytes (c : EndToEndChannel) (frame : SealedFrame) (now_unix : N)
    : EndToEndChannel * result (list N) CryptoError :=
  match (try? ensure_fresh c now_unix ;; window_accept (ec_recv_window c) (sl_sequence frame)) with
  | Err e => (c, Err e)
  | Ok _ =>
      let '(cipher, opened) := cipher_open (ec_cipher c) frame in
      match opened with
      | Err e => (ec_with c cipher (ec_send_sequence c) (ec_recv_window c), Err e)
      | Ok plaintext =>
          match window_accept (ec_recv_window c) (sl_sequence frame) with
          | Err e => (ec_with c cipher (ec_send_sequence c) (ec_recv_window c), Err e)
          | Ok window => (ec_with c cipher (ec_send_sequence c) window, Ok plaintext)
          end
      end
  end.

(** [SessionId::from_bytes] of a session's bytes, and the binding of an envelope to it. *)
Definition bind_session (c : EndToEndChannel) (session_id : list N) : result unit CryptoError :=
  ensure session_id =?= cp_session_id (ec_prologue c) else CeAuthenticity ;;
  match validate_uuid_v7 (cp_session_id (ec_prologue c)) with
  | Ok _ => Ok tt
  | Err _ => Err CeAuthenticity
  end.
End Channel.

(** ** Lemmas *)

Lemma identity_claim_roundtrip c :
  length (ic_public_id c) = 16%nat -> length (ic_static_public c) = 32%nat ->
  all_zero (ic_public_id c) = false -> all_zero (ic_static_public c) = false ->
  ic_kind c = IDENTITY_CLAIM_KIND_HOST \/ ic_kind c = IDENTITY_CLAIM_KIND_DEVICE ->
  decode_identity_claim (encode_identity_claim c) = Ok c.
Proof.
  destruct c as [kind id key]. cbn [ic_kind ic_public_id ic_static_public]. intros Hid Hkey Zid Zkey Hk.
  unfold decode_identity_claim, encode_identity_claim. cbn [ic_kind ic_public_id ic_static_public].
  assert (slice 2 18 ([1; kind] ++ id ++ key) = id) as -> by (apply slice_app; rewrite ?Hid; done).
  assert (slice 18 50 ([1; kind] ++ id ++ key) = key) as ->.
  { rewrite <- (app_nil_r key) at 1. rewrite (app_assoc [1; kind]).
    apply slice_app; rewrite ?length_app, ?Hid, ?Hkey; done. }
  assert ((count ([1; kind] ++ id ++ key) =? NOISE_IDENTITY_CLAIM_BYTES) = true) as ->.
  { unfold count. by rewrite !length_app, Hid, Hkey. }
  cbn [nth app andb guard rbind N.eqb]. unfold static_key_from_bytes, reject_all_zero_key. rewrite Zid, Zkey.
  destruct Hk as [-> | ->]; done.
Qed.

Lemma encode_inner_Ok p d n nonce key peer pt inner :
  encode_transport_inner p d n nonce key peer pt = Ok inner ->
  all_zero key = false
  /\ inner = [INNER_AD_VERSION] ++ be_bytes 8 n ++ [purpose_tag (cp_purpose p); route_tag d]
             ++ cp_session_id p ++ key ++ nonce ++ pt.
Proof.
  unfold encode_transport_inner. intros E. peel E. simplify_eq. split; [|done].
  by apply guard_Ok, negb_true_iff in G0.
Qed.

Lemma purpose_of_tag_inv tag p : purpose_of_tag tag = Ok p <-> tag = purpose_tag p.
Proof.
  unfold purpose_of_tag. destruct (N.eqb_spec tag 0) as [->|H0]; [destruct p; split; done|].
  destruct (N.eqb_spec tag 1) as [->|H1]; [destruct p; split; done|]. split; [done|]. by destruct p.
Qed.

(** What the other end bound into a message is what the frame and this end's channel say, or
    the message does not open. *)
Lemma transport_inner_binds p q d d' n nonce key peer peer' pt inner frame opened :
  length (cp_session_id p) = 16%nat -> length (cp_session_id q) = 16%nat ->
  length key = 32%nat -> length nonce = 16%nat -> length (sl_nonce frame) = 16%nat ->
  n <= u64_max ->
  encode_transport_inner p d n nonce key peer pt = Ok inner ->
  decode_transport_inner q d' frame peer' inner = Ok opened <->
  opened = pt /\ n = sl_sequence frame /\ cp_purpose p = cp_purpose q /\ d = d'
  /\ cp_session_id p = cp_session_id q /\ key = ap_static_public peer' /\ nonce = sl_nonce frame.
Proof.
  intros Hp Hq Hk Hn Hfn Hs Henc. apply encode_inner_Ok in Henc as [Hz ->]. unfold decode_transport_inner.
  set (inner := _ ++ _).
  assert (count inner = 75 + count pt) as Hc.
  { unfold inner, count. rewrite !length_app, length_be_bytes, Hp, Hk, Hn. cbn [length]. lia. }
  change INNER_AD_HEADER_BYTES with 75. rewrite Hc, (proj2 (N.leb_le 75 _)) by lia.
  assert (nth 0 inner 0 = INNER_AD_VERSION) as -> by done.
  assert (slice 1 9 inner = be_bytes 8 n) as ->.
  { unfold inner. apply slice_app; rewrite ?length_be_bytes; done. }
  rewrite from_be_be_bytes by (change (256 ^ N.of_nat 8) with (u64_max + 1); lia).
  assert (nth 9 inner 0 = purpose_tag (cp_purpose p) /\ nth 10 inner 0 = route_tag d) as [-> ->].
  { unfold inner. split; (rewrite app_nth2; [|cbn; lia]); (rewrite app_nth2; [|rewrite length_be_bytes; cbn; lia]);
      rewrite length_be_bytes; done. }
  assert (slice 11 27 inner = cp_session_id p) as ->.
  { unfold inner. rewrite (app_assoc [_]), (app_assoc ([_] ++ _)). apply slice_app; rewrite ?length_app, ?length_be_bytes, ?Hp; done. }
  assert (slice 27 59 inner = key) as ->.
  { unfold inner. rewrite (app_assoc [_]), (app_assoc ([_] ++ _)), (app_assoc (([_] ++ _) ++ _)).
    apply slice_app; rewrite ?length_app, ?length_be_bytes, ?Hp, ?Hk; done. }
  assert (slice 59 75 inner = nonce) as ->.
  { unfold inner. rewrite (app_assoc [_]), (app_assoc ([_] ++ _)), (app_assoc (([_] ++ _) ++ _)), (app_assoc ((([_] ++ _) ++ _) ++ _)).
    apply slice_app; rewrite ?length_app, ?length_be_bytes, ?Hp, ?Hk, ?Hn; done. }
  assert (drop (N.to_nat 75) inner = pt) as ->.
  { unfold inner. rewrite !app_assoc. apply drop_app_length'. rewrite !length_app, length_be_bytes, Hp, Hk, Hn. done. }
  rewrite (proj2 (purpose_of_tag_inv _ _) eq_refl). cbn [guard rbind N.eqb INNER_AD_VERSION Pos.eqb].
  clearbody inner. split.
  - intros E. peel E. simplify_eq. facts. rewrite constant_time_eq_true in *.
    split_and!; try done. destruct d, d'; done.
  - intros (-> & -> & Hpu & -> & Hse & -> & ->). rewrite N.eqb_refl. cbn [guard rbind].
    rewrite (proj2 (eqb_true _ _) Hpu), N.eqb_refl, (proj2 (eqb_true _ _) Hse), Hz. cbn [guard rbind negb].
    rewrite (proj2 (constant_time_eq_true _ _)) by done. cbn [guard rbind].
    by rewrite (proj2 (eqb_true _ _) eq_refl).
Qed.

(** ** A handshake runs to a peer *)

Section Handshake_Runs.
Context `{NO : Noise}.

Inductive handshake_call := HsWrite | HsRead (message : NoiseHandshakeMessage).

(** A call, and the step of the message it moved when it succeeded. *)
Definition handshake_do (h : NoiseHandshake) (call : handshake_call) : NoiseHandshake * option N :=
  match call with
  | HsWrite => let '(h, r) := handshake_write_message h in
               (h, match r with Ok m => Some (hm_step m) | Err _ => None end)
  | HsRead m => let '(h, r) := handshake_read_message h m in
                (h, match r with Ok _ => Some (hm_step m) | Err _ => None end)
  end.

Definition handshake_run (h : NoiseHandshake) (calls : list handshake_call) : NoiseHandshake * list N :=
  fold_left (fun hl call => let '(h, step) := handshake_do (fst hl) call in
                            (h, snd hl ++ match step with Some n => [n] | None => [] end))
    calls (h, []).

(** What no message changes. *)
Definition handshake_terms (h : NoiseHandshake) :=
  (nh_role h, nh_first_pairing h, nh_prologue h, nh_local_public h, nh_expected_remote h,
   nh_expected_messages h, nh_opened_at_unix h, nh_direct_reachable h).

(** Every branch of a method, the impossible ones closed. *)
Ltac branches := repeat (case_match; simplify_eq/=; try done).

Lemma handshake_do_terms h call : handshake_terms (fst (handshake_do h call)) = handshake_terms h.
Proof.
  destruct call as [|m]; cbn [handshake_do].
  - unfold handshake_write_message. branches.
  - unfold handshake_read_message. branches.
Qed.

Lemma u8_next_Ok n m : u8_next n = Ok m -> m = n + 1.
Proof. unfold u8_next. destruct (n + 1 <=? 255); [by intros [= <-]|done]. Qed.

Lemma unfinished h : handshake_finished h = false -> nh_writes h + nh_reads h < nh_expected_messages h.
Proof. apply N.leb_gt. Qed.

Lemma handshake_do_step h call :
  let '(h', step) := handshake_do h call in
  match step with
  | Some n => n = nh_writes h + nh_reads h /\ nh_writes h' + nh_reads h' = n + 1 /\ n < nh_expected_messages h
  | None => nh_writes h' + nh_reads h' = nh_writes h + nh_reads h
  end.
Proof.
  destruct call as [|m]; cbn [handshake_do].
  - unfold handshake_write_message. destruct (handshake_finished h) eqn:Hf; [done|]. apply unfinished in Hf. branches.
    match goal with E : u8_next _ = Ok _ |- _ => apply u8_next_Ok in E end. lia.
  - unfold handshake_read_message. destruct (handshake_finished h) eqn:Hf; [done|]. apply unfinished in Hf.
    destruct (hs_is_my_turn _); [done|]. destruct (N.eqb_spec (hm_step m) (nh_writes h + nh_reads h)) as [Hm|_]; cbn [negb]; [|done].
    branches; match goal with E : u8_next _ = Ok _ |- _ => apply u8_next_Ok in E end; lia.
Qed.

Lemma handshake_run_steps h calls :
  nh_writes h + nh_reads h = 0 ->
  let '(h', log) := handshake_run h calls in
  handshake_terms h' = handshake_terms h
  /\ log = map N.of_nat (seq 0 (length log)) /\ nh_writes h' + nh_reads h' = count log
  /\ count log <= nh_expected_messages h.
Proof.
  intros H0. unfold handshake_run. induction calls as [|call calls IH] using rev_ind.
  { split_and!; try done. change (count (@nil N)) with 0. lia. }
  rewrite fold_left_app. destruct (fold_left _ calls (h, [])) as [h1 log]. cbn [fold_left fst snd].
  destruct IH as (Ht & Hl & Hc & Hb). pose proof (handshake_do_terms h1 call) as Ht1. pose proof (handshake_do_step h1 call) as Hs.
  destruct (handshake_do h1 call) as [h2 [n|]]; cbn [fst] in Ht1.
  - destruct Hs as (-> & Hs2 & Hlt). assert (nh_expected_messages h1 = nh_expected_messages h) as Hm by (by injection Ht).
    rewrite count_app, length_app. change (count [_]) with 1. cbn [length]. split_and!; [congruence| |lia|lia].
    rewrite seq_app, map_app, <- Hl. cbn. do 2 f_equal. rewrite Hc. done.
  - rewrite app_nil_r. split_and!; [congruence|done|lia|done].
Qed.

(** C25: A handshake that was opened for production and has finished, whatever was written to it and read
    by it on the way, yields the channel it was opened for, with the peer whose static key the Noise
    library authenticated; a pinned key is that key, and a pinned session is never opened without
    one.  Its messages went through in the order of their steps, none twice and no more than the
    pattern has. *)
Theorem finished_handshake_pins_peer pattern first_pairing custody expected prologue role identity now direct
    revoked h0 calls h log t :
  open_production_handshake pattern first_pairing custody expected prologue role identity now direct revoked = Ok h0 ->
  handshake_run h0 calls = (h, log) -> handshake_finish h = Ok t ->
  revoked = false
  /\ pattern = (if first_pairing then NOISE_FIRST_PAIRING_PATTERN else NOISE_PINNED_DEVICE_PATTERN)
  /\ (first_pairing = false -> is_some expected = true)
  /\ nt_prologue t = prologue /\ nt_role t = role /\ nt_opened_at_unix t = now /\ nt_direct_reachable t = direct
  /\ (exists bytes, hs_remote_static (nh_state h) = Some bytes
                    /\ public_key_from_slice bytes = Ok (ap_static_public (nt_remote t)))
  /\ (forall key, expected = Some key -> ap_static_public (nt_remote t) = key)
  /\ log = map N.of_nat (seq 0 (length log)) /\ count log <= (if first_pairing then 3 else 2).
Proof.
  intros Ho Hr Hf. unfold open_production_handshake in Ho. destruct revoked; [done|]. cbn [guard rbind negb] in Ho.
  unfold instantiate_noise_channel in Ho. destruct (validate_noise_pattern pattern first_pairing) as [[]|e] eqn:Hp; [|done].
  apply guard_Ok, eqb_true_1 in Hp. apply rbind_Ok in Ho as ([] & Hpin%guard_Ok & Ho).
  destruct (handshake_open _ _ _ _ _ _ _ _ _ _) as [h1|e] eqn:Hopen; [|done]. injection Ho as ->.
  unfold handshake_open in Hopen. repeat apply rbind_Ok in Hopen as (? & ? & Hopen). injection Hopen as <-.
  match type of Hr with handshake_run ?h0 _ = _ => pose proof (handshake_run_steps h0 calls eq_refl) as Hs end.
  rewrite Hr in Hs. destruct Hs as (Ht & Hl & _ & Hb). unfold handshake_terms in Ht. cbn in Ht, Hb.
  injection Ht as Hrole _ Hpro _ Hexp _ Hat Hdir.
  unfold handshake_finish in Hf. rewrite Hexp in Hf. apply rbind_Ok in Hf as ([] & _ & Hf).
  apply rbind_Ok in Hf as (bytes & Hbytes%ok_or_Ok & Hf). apply rbind_Ok in Hf as (key & Hkey & Hf).
  apply rbind_Ok in Hf as ([] & Hx%guard_Ok & Hf). apply rbind_Ok in Hf as (remote & _ & Hf).
  apply rbind_Ok in Hf as ([] & Hrem%guard_Ok%eqb_true_1 & Hf). apply rbind_Ok in Hf as (tr & _ & [= <-]).
  cbn [nt_prologue nt_role nt_opened_at_unix nt_direct_reachable nt_remote].
  split_and!; try done.
  - intros ->. exact Hpin.
  - exists bytes. by rewrite Hrem.
  - intros k ->. rewrite Hrem. symmetry. by apply constant_time_eq_true.
Qed.
End Handshake_Runs.

(** ** A channel seals and opens *)

Section Channel_Runs.
Context `{NO : Noise} `{HM : HmacSha256}.

Inductive channel_call :=
| ChSeal (plaintext nonce : list N) (now_unix : N)
| ChOpen (frame : SealedFrame) (now_unix : N).

(** The frames sealed and the numbers opened so far, the last first. *)
Record channel_log := { cl_sealed : list N; cl_opened : list N }.

Definition channel_do (cl : EndToEndChannel * channel_log) (call : channel_call) : EndToEndChannel * channel_log :=
  let '(c, log) := cl in
  match call with
  | ChSeal plaintext nonce now_unix =>
      let '(c, r) := seal_bytes c plaintext nonce now_unix in
      (c, match r with
          | Ok f => {| cl_sealed := sl_sequence f :: cl_sealed log; cl_opened := cl_opened log |}
          | Err _ => log
          end)
  | ChOpen frame now_unix =>
      let '(c, r) := open_bytes c frame now_unix in
      (c, match r with
          | Ok _ => {| cl_sealed := cl_sealed log; cl_opened := sl_sequence frame :: cl_opened log |}
          | Err _ => log
          end)
  end.

Definition channel_run (c : EndToEndChannel) (calls : list channel_call) : EndToEndChannel * channel_log :=
  fold_left channel_do calls (c, {| cl_sealed := []; cl_opened := [] |}).

Lemma from_parts_sequence v n nonce ct tag f : sealed_from_parts v n nonce ct tag = Ok f -> sl_sequence f = n.
Proof. by intros [-> _]%sealed_from_parts_Ok. Qed.

Lemma cipher_seal_sequence cipher n nonce pt cipher' f :
  cipher_seal cipher n nonce pt = (cipher', Ok f) -> sl_sequence f = n.
Proof.
  destruct cipher as [s|t]; cbn.
  - intros [= _ E]. unfold sealer_seal, seal_with in E. peel E. by eapply from_parts_sequence.
  - unfold transport_seal. destruct (n =? 0); [done|]. destruct (encode_transport_inner _ _ _ _ _ _ _); [|done].
    destruct (ts_write_message _ _ _) as [s [m|e]]; [|done]. intros [= _ E]. unfold frame_from_noise_output in E. peel E.
    by eapply from_parts_sequence.
Qed.

(** Sealing takes the next number, or leaves the count where it was. *)
Lemma seal_bytes_moves c pt nonce now c' r :
  seal_bytes c pt nonce now = (c', r) ->
  ec_recv_window c' = ec_recv_window c /\ ec_opened_at_unix c' = ec_opened_at_unix c
  /\ match r with
     | Ok f => sl_sequence f = ec_send_sequence c + 1 /\ ec_send_sequence c' = ec_send_sequence c + 1
     | Err _ => ec_send_sequence c' = ec_send_sequence c
     end.
Proof.
  unfold seal_bytes. destruct (rbind _ _) as [n|e] eqn:Hn; [|by intros [= <- <-]].
  apply rbind_Ok in Hn as (_ & _ & Hn%ok_or_Ok). apply checked_add_Some in Hn as [-> _].
  destruct (cipher_seal _ _ _ _) as [cipher [f|e]] eqn:Hc; intros [= <- <-]; [|done].
  apply cipher_seal_sequence in Hc. done.
Qed.

(** Opening counts the number when the frame opens, and only then. *)
Lemma open_bytes_moves c frame now c' r :
  open_bytes c frame now = (c', r) ->
  ec_send_sequence c' = ec_send_sequence c /\ ec_opened_at_unix c' = ec_opened_at_unix c
  /\ match r with
     | Ok _ => window_accept (ec_recv_window c) (sl_sequence frame) = Ok (ec_recv_window c')
               /\ now - ec_opened_at_unix c < MAX_SESSION_AGE_SECS
     | Err _ => ec_recv_window c' = ec_recv_window c
     end.
Proof.
  unfold open_bytes. destruct (rbind _ _) as [w|e] eqn:Hn; [|by intros [= <- <-]].
  apply rbind_Ok in Hn as (_ & Hf%guard_Ok%negb_true_iff%N.leb_gt & Hw).
  destruct (cipher_open _ _) as [cipher [pt|e]]; [|by intros [= <- <-]]. rewrite Hw. by intros [= <- <-].
Qed.

(** The numbers [1, 2, .. n], the last first. *)
Fixpoint countdown (n : nat) : list N :=
  match n with O => [] | S n => N.of_nat (S n) :: countdown n end.

Lemma channel_run_holds c calls :
  ec_send_sequence c = 0 -> ec_recv_window c = window_new ->
  let '(c', log) := channel_run c calls in
  window_holds (ec_recv_window c') (cl_opened log)
  /\ cl_sealed log = countdown (length (cl_sealed log)) /\ ec_send_sequence c' = count (cl_sealed log).
Proof.
  intros H0 Hw. unfold channel_run. induction calls as [|call calls IH] using rev_ind.
  { cbn. rewrite Hw. split_and!; [apply (window_feeds [])|done|done]. }
  rewrite fold_left_app. destruct (fold_left _ calls _) as [c1 log]. cbn [fold_left]. destruct IH as (Hh & Hs & Hn).
  destruct call as [pt nonce now|frame now]; cbn [channel_do].
  - destruct (seal_bytes c1 pt nonce now) as [c2 [f|e]] eqn:Hc; apply seal_bytes_moves in Hc as (-> & _ & Hc); [|by rewrite Hc].
    destruct Hc as [Hf Hc]. cbn [cl_sealed cl_opened length countdown]. rewrite count_cons, <- Hs, Hc, Hf, Hn.
    split_and!; [done| |lia]. f_equal. unfold count. lia.
  - destruct (open_bytes c1 frame now) as [c2 [pt|e]] eqn:Hc; apply open_bytes_moves in Hc as (Hq & _ & Hc).
    2:{ by rewrite Hc, Hq. }
    destruct Hc as [Hc _]. cbn [cl_sealed cl_opened]. rewrite Hq. split_and!; [|done|done].
    pose proof (window_accept_holds _ _ (sl_sequence frame) Hh) as H2. rewrite Hc in H2. by destruct H2.
Qed.

(** Over any run of a fresh channel, sealing and opening in any order, frames forged, replayed or
    reordered, at any times: it seals 1, 2, 3 ..., it opens no number twice, and a frame that was
    refused leaves no trace, so an honest frame with its number still opens if its cipher does. *)
Theorem channel_numbers_once c calls :
  ec_send_sequence c = 0 -> ec_recv_window c = window_new ->
  let '(c', log) := channel_run c calls in
  cl_sealed log = countdown (length (cl_sealed log))
  /\ NoDup (cl_opened log)
  /\ forall frame now,
       let '(c'', r) := open_bytes c' frame now in
       (match r with
        | Ok _ => sl_sequence frame <> 0 /\ sl_sequence frame ∉ cl_opened log
                  /\ now < ec_opened_at_unix c' + MAX_SESSION_AGE_SECS
        | Err _ => ec_recv_window c'' = ec_recv_window c'
        end)
       /\ (now < ec_opened_at_unix c' + MAX_SESSION_AGE_SECS ->
           replay_verdict (cl_opened log) (sl_sequence frame) = Ok tt ->
           r = snd (cipher_open (ec_cipher c') frame)).
Proof.
  intros H0 Hw. pose proof (channel_run_holds c calls H0 Hw) as H. destruct (channel_run c calls) as [c' log].
  destruct H as (Hh & Hs & _). split_and!; [done|apply (wh_once _ _ Hh)|]. intros frame now.
  pose proof (window_accept_holds _ _ (sl_sequence frame) Hh) as Ha.
  destruct (open_bytes c' frame now) as [c'' r] eqn:Ho. split.
  - apply open_bytes_moves in Ho as (_ & _ & Ho). destruct r; [|done]. destruct Ho as [Ho Ht]. rewrite Ho in Ha.
    destruct Ha as [_ [_ Hp Hn _]]. apply Forall_cons in Hp as [Hp _]. apply NoDup_cons in Hn as [Hn _].
    split_and!; [lia|done|lia].
  - intros Hnow Hv. revert Ho. unfold open_bytes, ensure_fresh.
    rewrite (proj2 (N.leb_gt MAX_SESSION_AGE_SECS _)) by (unfold saturating_sub; change MAX_SESSION_AGE_SECS with 3600 in *; lia).
    cbn [negb guard rbind]. destruct (window_accept _ _) as [w|e] eqn:Hw2; [|congruence].
    by destruct (cipher_open _ _) as [cipher [pt|e]]; intros [= <- <-].
Qed.
End Channel_Runs.

(** ** A pair of ends *)

Section Pair.
Context `{NO : Noise} `{HM : HmacSha256}.

(** Messages with their nonces, sealed one after the other. *)
Fixpoint seal_all (c : EndToEndChannel) (messages : list (list N * list N)) (now_unix : N)
    : result (EndToEndChannel * list SealedFrame) CryptoError :=
  match messages with
  | [] => Ok (c, [])
  | (plaintext, nonce) :: messages =>
      let '(c, sealed) := seal_bytes c plaintext nonce now_unix in
      let? frame := sealed in
      let? (c, frames) := seal_all c messages now_unix in
      Ok (c, frame :: frames)
  end.

(** The network hands over frames by their place, in any order and as often as it likes;
    what opens is kept with its place, the last first. *)
Definition deliver (frames : list SealedFrame) (now_unix : N) (bg : EndToEndChannel * list (nat * list N)) (i : nat)
    : EndToEndChannel * list (nat * list N) :=
  match frames !! i with
  | None => bg
  | Some frame =>
      let '(b, r) := open_bytes (fst bg) frame now_unix in
      (b, match r with Ok plaintext => (i, plaintext) :: snd bg | Err _ => snd bg end)
  end.

Definition place_number (i : nat) : N := N.of_nat i + 1.

Lemma pair_source secret prologue direct opened a b :
  pair_source_level secret prologue direct opened = Ok (a, b) ->
  ec_cipher a = SourceLevel (sealer_derive secret prologue Initiator)
  /\ ec_cipher b = SourceLevel (sealer_derive secret prologue Responder)
  /\ ec_send_sequence a = 0 /\ ec_recv_window b = window_new
  /\ ec_opened_at_unix a = opened /\ ec_opened_at_unix b = opened.
Proof. by intros [= <- <-]. Qed.

Definition fits (m : list N * list N) : Prop := count (fst m) <= MAX_SEALED_PLAINTEXT_BYTES.

Lemma fresh_enough c now : now < ec_opened_at_unix c + MAX_SESSION_AGE_SECS -> ensure_fresh c now = Ok tt.
Proof.
  intros Hn. unfold ensure_fresh, saturating_sub. rewrite (proj2 (N.leb_gt MAX_SESSION_AGE_SECS _)); [done|].
  change MAX_SESSION_AGE_SECS with 3600 in *. lia.
Qed.

(** The k-th message sealed is the frame numbered k that the other end's sealer opens. *)
Lemma seal_all_frames secret prologue now messages : forall c,
  ec_cipher c = SourceLevel (sealer_derive secret prologue Initiator) ->
  now < ec_opened_at_unix c + MAX_SESSION_AGE_SECS -> Forall fits messages ->
  ec_send_sequence c + count messages <= u64_max ->
  exists c' frames, seal_all c messages now = Ok (c', frames) /\ length frames = length messages
    /\ forall i frame m, frames !! i = Some frame -> messages !! i = Some m ->
         sl_sequence frame = ec_send_sequence c + place_number i
         /\ sealer_open (sealer_derive secret prologue Responder) frame = Ok (fst m).
Proof.
  induction messages as [|[pt nonce] messages IH]; intros c Hc Hn Hf Hb; [by exists c, []|].
  apply Forall_cons in Hf as [Hf1 Hf]. rewrite count_cons in Hb. cbn [seal_all].
  destruct (sealer_roundtrip secret prologue Initiator Responder (ec_send_sequence c + 1) nonce pt eq_refl ltac:(lia) Hf1)
    as (frame & Hseal & Hseq & Hopen).
  destruct (seal_bytes c pt nonce now) as [c1 r] eqn:Hs.
  assert (r = Ok frame /\ c1 = ec_with c (ec_cipher c) (ec_send_sequence c + 1) (ec_recv_window c)) as [-> ->].
  { unfold seal_bytes in Hs. rewrite fresh_enough in Hs by done. cbn [rbind] in Hs.
    assert (checked_add (ec_send_sequence c) 1 = Some (ec_send_sequence c + 1)) as E by (apply checked_add_Some; lia).
    rewrite E in Hs. cbn [ok_or] in Hs.
    rewrite Hc in Hs. cbn [cipher_seal] in Hs. rewrite Hseal in Hs. by injection Hs as <- <-; rewrite Hc. }
  cbn [rbind]. edestruct (IH (ec_with c (ec_cipher c) (ec_send_sequence c + 1) (ec_recv_window c)))
    as (c' & frames & -> & Hl & Hall); [done|done|done|cbn; lia|].
  exists c', (frame :: frames). cbn [rbind]. split_and!; [done|by cbn; f_equal|].
  intros [|i] f m Hi Hm; cbn in Hi, Hm.
  - simplify_eq. unfold place_number. split; [lia|done].
  - destruct (Hall i f m Hi Hm) as [-> ?]. cbn. unfold place_number. split; [lia|done].
Qed.

(** Over the source-level sealer, which the tests use: when one end of a channel seals messages and
    the network delivers the frames in any order, any number of times, or not at all, within the
    hour, the other end opens a frame exactly when the replay rule allows its number, to the very
    message that was sealed, and answers the rule's error otherwise; so every message arrives at
    most once and none arrives changed. *)
Theorem messages_arrive_once secret prologue direct opened sealed_at opened_at messages arrivals a b :
  pair_source_level secret prologue direct opened = Ok (a, b) ->
  Forall fits messages -> count messages <= u64_max ->
  sealed_at < opened + MAX_SESSION_AGE_SECS -> opened_at < opened + MAX_SESSION_AGE_SECS ->
  exists a' frames, seal_all a messages sealed_at = Ok (a', frames) /\ length frames = length messages
    /\ let '(b', got) := fold_left (deliver frames opened_at) arrivals (b, []) in
       NoDup (map fst got)
       /\ (forall i plaintext, (i, plaintext) ∈ got -> fst <$> messages !! i = Some plaintext)
       /\ forall i frame m, frames !! i = Some frame -> messages !! i = Some m ->
            snd (open_bytes b' frame opened_at)
            = match replay_verdict (map (fun ip => place_number (fst ip)) got) (place_number i) with
              | Ok _ => Ok (fst m)
              | Err e => Err e
              end.
Proof.
  intros Hpair Hf Hc Hsa Hoa. destruct (pair_source _ _ _ _ _ _ Hpair) as (Hca & Hcb & H0 & Hw & Ha & Hb).
  destruct (seal_all_frames secret prologue sealed_at messages a) as (a' & frames & Hs & Hl & Hall);
    [done|lia|done|lia|]. exists a', frames. split_and!; [done|done|]. rewrite H0 in Hall.
  assert (let '(b', got) := fold_left (deliver frames opened_at) arrivals (b, []) in
          ec_cipher b' = ec_cipher b /\ ec_opened_at_unix b' = opened
          /\ window_holds (ec_recv_window b') (map (fun ip => place_number (fst ip)) got)
          /\ forall i plaintext, (i, plaintext) ∈ got -> fst <$> messages !! i = Some plaintext) as Hinv.
  { induction arrivals as [|i arrivals IH] using rev_ind.
    { cbn. rewrite Hw. split_and!; [done|done|apply (window_feeds [])|]. by intros i p ?%not_elem_of_nil. }
    rewrite fold_left_app. destruct (fold_left _ arrivals _) as [b1 got]. destruct IH as (Hc1 & Ho1 & Hh & Hg).
    cbn [fold_left]. unfold deliver. cbn [fst snd]. destruct (frames !! i) as [frame|] eqn:Hi; [|done].
    destruct (messages !! i) as [m|] eqn:Hm.
    2:{ apply lookup_ge_None in Hm. apply lookup_lt_Some in Hi. lia. }
    destruct (Hall i frame m Hi Hm) as [Hseq Hopen]. unfold open_bytes. rewrite fresh_enough by lia. cbn [rbind].
    pose proof (window_accept_holds _ _ (sl_sequence frame) Hh) as Hv.
    destruct (window_accept (ec_recv_window b1) (sl_sequence frame)) as [w|e] eqn:Hw1; [|done].
    rewrite Hc1, Hcb. cbn [cipher_open]. rewrite Hopen. cbn [ec_with ec_cipher ec_opened_at_unix ec_recv_window map fst].
    destruct Hv as [_ Hv]. rewrite Hseq in Hv. split_and!; [done|done|exact Hv|].
    intros j p [Hj|Hj]%elem_of_cons; [|by apply Hg]. injection Hj as -> ->. by rewrite Hm. }
  destruct (fold_left _ arrivals _) as [b' got]. destruct Hinv as (Hcb' & Hob' & Hh & Hg). split_and!.
  - apply (NoDup_fmap_1 place_number). pose proof (wh_once _ _ Hh) as Hnd. by rewrite map_map in *.
  - done.
  - intros i frame m Hi Hm. destruct (Hall i frame m Hi Hm) as [Hseq Hopen]. rewrite N.add_0_l in Hseq. rewrite <- Hseq.
    pose proof (window_accept_holds _ _ (sl_sequence frame) Hh) as Hv.
    unfold open_bytes. rewrite fresh_enough by lia. cbn [rbind].
    destruct (window_accept (ec_recv_window b') (sl_sequence frame)) as [w|e] eqn:Hw1; [|by rewrite Hv].
    destruct Hv as [-> _]. rewrite Hcb', Hcb. cbn [cipher_open]. by rewrite Hopen.
Qed.
End Pair.

(** ** Two ends, for example *)

(** [toy_hmac] stands for the hash, and a library that sends its payloads in the clear for Noise. *)
#[local] Existing Instance toy_hmac_sha256.

Definition toy_key (n : N) : list N := repeat n 32.

(** Whose turn it is, the messages still to come, and the other end's key. *)
Record toy_handshake := { th_turn : bool; th_left : N; th_remote : list N }.

#[local] Instance toy_noise : Noise := {|
  handshake_state := toy_handshake;
  transport_state := unit;
  noise_parses _ := true;
  noise_build pattern _ _ remote initiator :=
    Some {| th_turn := initiator; th_left := 2; th_remote := default (toy_key 5) remote |};
  hs_is_my_turn h := th_turn h;
  hs_write_message h payload _ :=
    ({| th_turn := false; th_left := th_left h - 1; th_remote := th_remote h |}, Ok payload);
  hs_read_message h message _ :=
    ({| th_turn := true; th_left := th_left h - 1; th_remote := th_remote h |}, Ok message);
  hs_remote_static h := Some (th_remote h);
  hs_is_finished h := th_left h =? 0;
  hs_into_transport _ := Some tt;
  ts_write_message t payload _ := (t, Ok (payload ++ repeat 0 16));
  ts_read_message t message _ := (t, Ok (take (length message - 16) message));
|}.

Definition toy_prologue : CryptoPrologue :=
  {| cp_protocol_major := 1; cp_purpose := OwnerPairing; cp_route_id := repeat 1 16; cp_session_id := repeat 2 16 |}.

Definition toy_pair := pair_source_level (toy_key 9) toy_prologue true 100.
Definition toy_end (pick : EndToEndChannel * EndToEndChannel -> EndToEndChannel) : EndToEndChannel :=
  match toy_pair with Ok ab => pick ab | Err _ => from_noise_transport
    {| nt_transport := tt; nt_role := Initiator; nt_prologue := toy_prologue; nt_local_static := toy_key 4;
       nt_remote := {| ap_static_public := toy_key 5; ap_public_id := repeat 6 16; ap_kind := KindHost |};
       nt_opened_at_unix := 0; nt_direct_reachable := true |} end.

Definition toy_messages : list (list N * list N) :=
  [([104; 105], repeat 1 16); ([121; 111], repeat 2 16); (repeat 7 70, repeat 3 16)].

(** The frames out of order, one of them twice and one that never was. *)
Definition toy_arrivals : list nat := [2; 0; 2; 7]%nat.

Lemma messages_arrive_once_witness :
  exists a' frames, seal_all (toy_end fst) toy_messages 200 = Ok (a', frames)
    /\ NoDup (map fst (snd (fold_left (deliver frames 300) toy_arrivals (toy_end snd, [])))).
Proof.
  destruct (messages_arrive_once (toy_key 9) toy_prologue true 100 200 300 toy_messages toy_arrivals
              (toy_end fst) (toy_end snd)) as (a' & frames & Hs & _ & H).
  - reflexivity.
  - repeat constructor; unfold fits; vm_compute; discriminate.
  - vm_compute. discriminate.
  - reflexivity.
  - reflexivity.
  - exists a', frames. split; [exact Hs|]. destruct (fold_left _ _ _) as [b' got]. apply H.
Defined.

Example toy_delivery :
  match seal_all (toy_end fst) toy_messages 200 with
  | Ok (_, frames) =>
      let '(b, got) := fold_left (deliver frames 300) toy_arrivals (toy_end snd, []) in
      got = [(0%nat, [104; 105]); (2%nat, repeat 7 70)]
      /\ rmap (fun _ => tt) (snd (open_bytes b (default {| sl_version := 0; sl_sequence := 0; sl_nonce := [];
           sl_ciphertext := []; sl_tag := [] |} (frames !! 0%nat)) 300)) = Err (CeReplay 1)
  | Err _ => False
  end.
Proof. by vm_compute. Qed.

Lemma channel_numbers_once_witness :
  let '(c, log) := channel_run (toy_end fst) [ChSeal [1] (repeat 0 16) 150; ChSeal [2] (repeat 0 16) 160] in
  cl_sealed log = [2; 1] /\ NoDup (cl_opened log).
Proof.
  pose proof (channel_numbers_once (toy_end fst) [ChSeal [1] (repeat 0 16) 150; ChSeal [2] (repeat 0 16) 160] eq_refl eq_refl) as H.
  destruct (channel_run _ _) as [c log] eqn:E. destruct H as (_ & H & _). split; [|exact H].
  assert (log = snd (channel_run (toy_end fst) [ChSeal [1] (repeat 0 16) 150; ChSeal [2] (repeat 0 16) 160])) as ->
    by by rewrite E. by vm_compute.
Defined.

Definition toy_custody : NoiseCustody := {| nc_private := toy_key 3; nc_public := toy_key 4 |}.
Definition toy_identity : NoiseIdentityBinding := identity_host (repeat 8 16).

Definition toy_answer : NoiseHandshakeMessage :=
  {| hm_step := 1;
     hm_body := encode_identity_claim {| ic_kind := IDENTITY_CLAIM_KIND_HOST; ic_public_id := repeat 6 16;
                                         ic_static_public := toy_key 5 |} |}.

(** The answer out of step, the answer, and the answer again. *)
Definition toy_calls : list handshake_call :=
  [HsWrite; HsRead {| hm_step := 0; hm_body := hm_body toy_answer |}; HsRead toy_answer; HsRead toy_answer].

Definition toy_opened := open_production_handshake NOISE_PINNED_DEVICE_PATTERN false toy_custody (Some (toy_key 5))
  toy_prologue Initiator toy_identity 100 true false.

Lemma finished_handshake_pins_peer_witness :
  match toy_opened with
  | Ok h0 =>
      let '(h, log) := handshake_run h0 toy_calls in
      match handshake_finish h with
      | Ok t => ap_static_public (nt_remote t) = toy_key 5 /\ log = [0; 1]
      | Err _ => False
      end
  | Err _ => False
  end.
Proof.
  destruct toy_opened as [h0|e] eqn:Ho; [|by vm_compute in Ho].
  destruct (handshake_run h0 toy_calls) as [h log] eqn:Hr. destruct (handshake_finish h) as [t|e] eqn:Hf.
  2:{ vm_compute in Ho. injection Ho as <-. vm_compute in Hr. injection Hr as <- <-. by vm_compute in Hf. }
  split.
  - eapply (finished_handshake_pins_peer _ _ _ _ _ _ _ _ _ _ _ _ _ _ _ Ho Hr Hf). reflexivity.
  - vm_compute in Ho. injection Ho as <-. vm_compute in Hr. by injection Hr as <- <-.
Defined.
