(* ===== verification/SecureDelivery.v ===== *)
(** What arrives over a production channel ([connect/crypto.rs] over [protocol/crypto.rs]): two ends
    of a finished handshake, the frames one of them seals, and what the other opens of them, when
    the library numbers its messages as it documents. *)
From S2P Require Import Prelude Canonical Codec Frame Query SecureFrame SecureChannel.

(** ** Two ends and their library *)

Section Production.
Context `{NO : Noise} `{HM : HmacSha256}.

(** What the library documents of one direction of a connection: the sender counts the messages
    it writes, a message grows by its tag and may be 65,535 bytes, the receiver reads the message
    that is next and counts it, and refuses one that is not, which leaves it as it was.
    [enciphered n p c] holds of what was written [n]-th. *)
Class OrderedNoise := {
  sending : transport_state -> N -> Prop;
  receiving : transport_state -> N -> Prop;
  enciphered : N -> list N -> list N -> Prop;
  write_next : forall s n p room,
    sending s n -> n < u64_max -> count p + 16 <= room -> count p + 16 <= 65535 ->
    exists s' c, ts_write_message s p room = (s', Ok c) /\ sending s' (n + 1) /\ enciphered n p c
      /\ count c = count p + 16;
  read_next : forall s n p c, receiving s n -> enciphered n p c ->
    exists s', ts_read_message s c (count c) = (s', Ok p) /\ receiving s' (n + 1);
  read_other : forall s n m p c, receiving s n -> enciphered m p c -> m <> n ->
    exists s', ts_read_message s c (count c) = (s', Err SnowDecrypt) /\ receiving s' n;
}.

Context `{ON : !OrderedNoise}.

(** The two ends of a finished handshake: they agree on what they bind, and each knows the other's
    key. *)
Record facing (ta tb : NoiseTransport) : Prop := {
  fa_prologue : nt_prologue ta = nt_prologue tb;
  fa_route : nt_direct_reachable ta = nt_direct_reachable tb;
  fa_key : nt_local_static ta = ap_static_public (nt_remote tb);
  fa_session : length (cp_session_id (nt_prologue tb)) = 16%nat;
  fa_length : length (nt_local_static ta) = 32%nat;
  fa_local : all_zero (nt_local_static ta) = false;
  fa_remote : all_zero (ap_static_public (nt_remote ta)) = false;
  fa_sending : sending (nt_transport ta) 0;
  fa_receiving : receiving (nt_transport tb) 0;
}.

(** A message the library has room for, with its bindings. *)
Definition noise_fits (m : list N * list N) : Prop :=
  count (fst m) + INNER_AD_HEADER_BYTES + 16 <= 65535 /\ length (snd m) = 16%nat.

(** The frame of the message at a place of the sequence. *)
Record made (ta : NoiseTransport) (i : nat) (m : list N * list N) (frame : SealedFrame) : Prop := {
  ma_valid : sealed_validate frame = Ok tt;
  ma_sequence : sl_sequence frame = place_number i;
  ma_nonce : sl_nonce frame = snd m;
  ma_message : exists inner c,
    encode_transport_inner (nt_prologue ta) (nt_direct_reachable ta) (place_number i) (snd m)
      (nt_local_static ta) (nt_remote ta) (fst m) = Ok inner
    /\ enciphered (N.of_nat i) inner c /\ noise_output_from_frame frame = Ok c;
}.

Lemma all_zero_repeat n : all_zero (repeat 0 n) = true.
Proof. by induction n. Qed.

Lemma noise_output_framed n nonce c :
  n <> 0 -> 16 <= count c -> count c <= 65535 ->
  exists frame, frame_from_noise_output n nonce c = Ok frame /\ sealed_validate frame = Ok tt
    /\ sl_sequence frame = n /\ sl_nonce frame = nonce /\ noise_output_from_frame frame = Ok c.
Proof.
  intros Hn Hc Hm. unfold frame_from_noise_output. change NOISE_AEAD_TAG_BYTES with 16.
  rewrite (proj2 (N.leb_le 16 _)) by done. cbn [guard rbind]. change (N.to_nat 16) with 16%nat.
  change (N.to_nat (SEALED_TAG_BYTES - 16)) with 16%nat.
  set (split := (length c - 16)%nat). unfold sealed_from_parts.
  set (frame := {| sl_version := _ |}). assert (sealed_validate frame = Ok tt) as Hv.
  { unfold sealed_validate, sealed_encoded_len. cbn [sl_version sl_sequence frame].
    rewrite N.eqb_refl, (proj2 (N.eqb_neq n 0)) by done. cbn [guard rbind negb].
    unfold guard. rewrite (proj2 (N.leb_le _ _)); [done|]. subst frame. cbn [sl_ciphertext].
    assert (count (take split c) <= count c) by (unfold count; rewrite length_take; lia).
    change MAX_SEALED_FRAME_BYTES with MAX_PHYSICAL_FRAME_BYTES. change SEALED_NONCE_BYTES with 16.
    change SEALED_TAG_BYTES with 32. unfold MAX_PHYSICAL_FRAME_BYTES. lia. }
  exists frame. rewrite Hv. cbn [rbind]. split_and!; [done..|].
  assert (length (drop split c) = 16%nat) as Hd by (rewrite length_drop; unfold split, count in *; lia).
  unfold noise_output_from_frame. change (N.to_nat NOISE_AEAD_TAG_BYTES) with 16%nat.
  subst frame. cbn [sl_tag sl_ciphertext]. rewrite <- Hd at 1.
  rewrite drop_app_length, all_zero_repeat. cbn [guard rbind]. rewrite <- Hd at 1.
  by rewrite take_app_length, take_drop.
Qed.

Lemma nt_with_with t s s' : nt_with (nt_with t s) s' = nt_with t s'.
Proof. done. Qed.

(** One message sealed by the production end that has sealed [i]. *)
Lemma transport_seal_made ta tb i s m :
  facing ta tb -> sending s (N.of_nat i) -> N.of_nat i < u64_max -> noise_fits m ->
  exists s' frame,
    transport_seal (nt_with ta s) (place_number i) (snd m) (fst m) = (nt_with ta s', Ok frame)
    /\ sending s' (N.of_nat (S i)) /\ made ta i m frame.
Proof.
  intros Hf Hs Hi [Hm Hn]. unfold transport_seal. change INNER_AD_HEADER_BYTES with 75 in Hm.
  rewrite (proj2 (N.eqb_neq (place_number i) 0)) by (unfold place_number; lia).
  cbn [nt_with nt_prologue nt_direct_reachable nt_local_static nt_remote nt_transport].
  destruct (encode_transport_inner _ _ _ _ _ _ _) as [inner|e] eqn:He.
  2:{ exfalso. revert He. unfold encode_transport_inner, reject_all_zero_key.
      rewrite (fa_local _ _ Hf), (fa_remote _ _ Hf). cbn [negb guard rbind]. change INNER_AD_HEADER_BYTES with 75.
      rewrite (proj2 (N.leb_le _ _)); [done|].
      change MAX_SEALED_PLAINTEXT_BYTES with (MAX_PHYSICAL_FRAME_BYTES - 57). unfold MAX_PHYSICAL_FRAME_BYTES. lia. }
  assert (count inner = 75 + count (fst m)) as Hc.
  { apply encode_inner_Ok in He as [_ ->]. unfold count.
    rewrite !length_app, length_be_bytes, (fa_prologue _ _ Hf), (fa_session _ _ Hf), (fa_length _ _ Hf), Hn.
    cbn [length]. lia. }
  destruct (write_next s (N.of_nat i) inner (saturating_add (count inner) NOISE_AEAD_TAG_BYTES) Hs Hi)
    as (s' & c & Hw & Hs' & Hen & Hcc).
  { change NOISE_AEAD_TAG_BYTES with 16. unfold saturating_add, u64_max. lia. }
  { lia. }
  rewrite Hw. destruct (noise_output_framed (place_number i) (snd m) c) as (frame & Hfr & Hv & Hsq & Hno & Hout);
    [unfold place_number; lia|lia|lia|].
  exists s', frame. rewrite Hfr. split_and!; [done| |].
  - replace (N.of_nat (S i)) with (N.of_nat i + 1) by lia. exact Hs'.
  - split; [done..|]. by exists inner, c.
Qed.

(** The messages sealed one after the other by an end that has sealed [i] so far. *)
Lemma seal_all_made ta tb now messages : forall c s i,
  facing ta tb -> ec_cipher c = Production (nt_with ta s) -> sending s (N.of_nat i) ->
  ec_send_sequence c = N.of_nat i -> now < ec_opened_at_unix c + MAX_SESSION_AGE_SECS ->
  N.of_nat i + count messages <= u64_max -> Forall noise_fits messages ->
  exists c' frames, seal_all c messages now = Ok (c', frames) /\ length frames = length messages
    /\ forall k frame m, frames !! k = Some frame -> messages !! k = Some m -> made ta (i + k) m frame.
Proof.
  induction messages as [|m messages IH]; intros c s i Hf Hc Hs Hq Hn Hb Hm; [by exists c, []|].
  apply Forall_cons in Hm as [Hm1 Hm]. rewrite count_cons in Hb.
  destruct (transport_seal_made ta tb i s m Hf Hs ltac:(lia) Hm1) as (s' & frame & Hseal & Hs' & Hmade).
  destruct m as [pt nonce]. cbn [seal_all fst snd] in *.
  assert (seal_bytes c pt nonce now
          = (ec_with c (Production (nt_with ta s')) (place_number i) (ec_recv_window c), Ok frame)) as ->.
  { unfold seal_bytes. rewrite fresh_enough by done. cbn [rbind].
    rewrite (proj2 (checked_add_Some (ec_send_sequence c) 1 (place_number i))) by (unfold place_number; lia).
    cbn [ok_or]. rewrite Hc. cbn [cipher_seal]. by rewrite Hseal. }
  cbn [rbind]. destruct (IH (ec_with c (Production (nt_with ta s')) (place_number i) (ec_recv_window c)) s' (S i))
    as (c' & frames & -> & Hl & Hall); try done.
  { cbn. unfold place_number. lia. }
  { lia. }
  cbn [rbind]. exists c', (frame :: frames). split_and!; [done|by cbn; f_equal|].
  intros [|k] f m' Hk Hk'; cbn in Hk, Hk'; simplify_eq; [by rewrite Nat.add_0_r|].
  rewrite <- Nat.add_succ_comm. by eapply Hall.
Qed.

(** A frame on the way: what it carries is some frame that was sealed; its number and its nonce,
    which travel in the clear, may be anything. *)
Definition carries (frames : list SealedFrame) (f : SealedFrame) : Prop :=
  length (sl_nonce f) = 16%nat
  /\ exists g, g ∈ frames /\ sl_ciphertext f = sl_ciphertext g /\ sl_tag f = sl_tag g.

(** What an end opens is kept with its number, the last first. *)
Definition receive (now_unix : N) (bg : EndToEndChannel * list (N * list N)) (f : SealedFrame)
    : EndToEndChannel * list (N * list N) :=
  let '(b, r) := open_bytes (fst bg) f now_unix in
  (b, match r with Ok plaintext => (sl_sequence f, plaintext) :: snd bg | Err _ => snd bg end).

(** An end whose library has read [k] messages and which has opened these. *)
Definition listening (tb : NoiseTransport) (b : EndToEndChannel) (k : nat) (got : list (N * list N)) : Prop :=
  ec_opened_at_unix b = nt_opened_at_unix tb
  /\ window_holds (ec_recv_window b) (map fst got)
  /\ exists s, ec_cipher b = Production (nt_with tb s) /\ receiving s (N.of_nat k).

(** One frame carrying the [i]-th message reaches an end that has read [k]. *)
Lemma transport_open_carried ta tb s k i m g f :
  facing ta tb -> receiving s (N.of_nat k) -> length (snd m) = 16%nat -> place_number i <= u64_max ->
  made ta i m g -> length (sl_nonce f) = 16%nat ->
  sl_ciphertext f = sl_ciphertext g -> sl_tag f = sl_tag g ->
  exists s' r, transport_open (nt_with tb s) f = (nt_with tb s', r)
    /\ (receiving s' (N.of_nat k) \/ (i = k /\ receiving s' (N.of_nat (S k))))
    /\ (forall pt, r = Ok pt -> i = k /\ receiving s' (N.of_nat (S k)) /\ pt = fst m
                               /\ sl_sequence f = place_number i)
    /\ (f = g -> if decide (i = k) then r = Ok (fst m) /\ receiving s' (N.of_nat (S k))
                 else r = Err CeAuthenticity /\ receiving s' (N.of_nat k)).
Proof.
  intros Hf Hs Hm Hi [Hv Hsq Hno (inner & c & Hin & Hen & Hout)] Hfn Hct Htag. unfold transport_open.
  assert (noise_output_from_frame f = Ok c) as Hfo.
  { rewrite <- Hout. unfold noise_output_from_frame. by rewrite Hct, Htag. }
  destruct (sealed_validate f) as [[]|e] eqn:Hfv; cbn [rbind].
  2:{ exists s, (Err e). split_and!; [by destruct tb|by left|done|]. intros ->. congruence. }
  rewrite Hfo. cbn [nt_with nt_transport nt_prologue nt_direct_reachable nt_remote].
  destruct (decide (i = k)) as [->|Hne].
  - destruct (read_next s _ inner c Hs Hen) as (s' & -> & Hs').
    replace (N.of_nat k + 1) with (N.of_nat (S k)) in Hs' by lia.
    assert (forall pt, decode_transport_inner (nt_prologue tb) (nt_direct_reachable tb) f (nt_remote tb) inner = Ok pt <->
              pt = fst m /\ place_number k = sl_sequence f /\ snd m = sl_nonce f) as Hd.
    { intros pt. rewrite (transport_inner_binds (nt_prologue ta) (nt_prologue tb) (nt_direct_reachable ta)
        (nt_direct_reachable tb) (place_number k) (snd m) (nt_local_static ta) (nt_remote ta) (nt_remote tb)
        (fst m) inner f pt); try done.
      - rewrite (fa_prologue _ _ Hf), (fa_route _ _ Hf), <- (fa_key _ _ Hf). intuition.
      - rewrite (fa_prologue _ _ Hf). apply (fa_session _ _ Hf).
      - apply (fa_session _ _ Hf).
      - apply (fa_length _ _ Hf). }
    eexists s', _. split_and!; [done|by right| |].
    + intros pt (-> & Hp & _)%Hd. by split_and!.
    + intros ->. split; [|done]. apply Hd. by rewrite Hsq, Hno.
  - destruct (read_other s (N.of_nat k) (N.of_nat i) inner c Hs Hen ltac:(lia)) as (s' & -> & Hs').
    exists s', (Err CeAuthenticity). split_and!; [done|by left|done|done].
Qed.

Lemma open_carried ta tb b k got i m g f now :
  facing ta tb -> listening tb b k got -> length (snd m) = 16%nat -> place_number i <= u64_max ->
  now < nt_opened_at_unix tb + MAX_SESSION_AGE_SECS ->
  made ta i m g -> length (sl_nonce f) = 16%nat ->
  sl_ciphertext f = sl_ciphertext g -> sl_tag f = sl_tag g ->
  exists b' r k', open_bytes b f now = (b', r) /\ (k' = k \/ (i = k /\ k' = S k))
    /\ match r with
       | Ok pt => i = k /\ k' = S k /\ pt = fst m /\ sl_sequence f = place_number i
                  /\ listening tb b' k' ((sl_sequence f, pt) :: got)
       | Err _ => listening tb b' k' got
       end
    /\ (f = g -> k' = match r with Ok _ => S k | Err _ => k end
         /\ r = match replay_verdict (map fst got) (place_number i) with
                | Err e => Err e
                | Ok _ => if decide (i = k) then Ok (fst m) else Err CeAuthenticity
                end).
Proof.
  intros Hf (Ho & Hw & s & Hc & Hs) Hm Hi Hn Hg Hfn Hct Htag. unfold open_bytes.
  rewrite fresh_enough by (rewrite Ho; done). cbn [rbind].
  pose proof (window_accept_holds _ _ (sl_sequence f) Hw) as Hv.
  destruct (window_accept (ec_recv_window b) (sl_sequence f)) as [w|e] eqn:Hwa.
  2:{ exists b, (Err e), k. split_and!; [done|by left|by split_and!; [| |exists s]|].
      intros ->. split; [done|]. rewrite (ma_sequence _ _ _ _ Hg) in Hv. by rewrite Hv. }
  destruct Hv as [Hv Hw']. rewrite Hc. cbn [cipher_open].
  destruct (transport_open_carried ta tb s k i m g f Hf Hs Hm Hi Hg Hfn Hct Htag)
    as (s' & r & -> & Hk & Hok & Hexact).
  destruct r as [pt|e].
  - destruct (Hok pt eq_refl) as (-> & Hs' & -> & Hsq).
    eexists _, _, (S k). split_and!; [done|by right| |].
    + do 4 (split; [done|]). split; [done|]. split; [exact Hw'|]. by exists s'.
    + intros ->. split; [done|]. rewrite <- Hsq, Hv. by case_decide.
  - assert (exists k', receiving s' (N.of_nat k') /\ (k' = k \/ (i = k /\ k' = S k))
            /\ (f = g -> k' = k)) as (k' & Hs' & Hk' & Hfg).
    { destruct Hk as [Hk|[-> Hk]]; [exists k; by split_and!; [|left|]|].
      exists (S k). split_and!; [done|by right|]. intros Hfg%Hexact. case_decide; [by destruct Hfg|done]. }
    eexists _, _, k'. split_and!; [done|done| |].
    + split; [done|]. split; [exact Hw|]. by exists s'.
    + intros Hfg'. split; [by apply Hfg|]. specialize (Hexact Hfg'). subst f.
      rewrite (ma_sequence _ _ _ _ Hg) in Hv. rewrite Hv. destruct (decide _); by destruct Hexact.
Qed.

(** What was sealed: the frame at each place carries the message at that place. *)
Definition sealed_as (ta : NoiseTransport) (messages : list (list N * list N)) (frames : list SealedFrame) : Prop :=
  length frames = length messages /\ count messages <= u64_max /\ Forall noise_fits messages
  /\ forall i frame m, frames !! i = Some frame -> messages !! i = Some m -> made ta i m frame.

Lemma sealed_at_place ta messages frames g :
  sealed_as ta messages frames -> g ∈ frames ->
  exists i m, frames !! i = Some g /\ messages !! i = Some m /\ made ta i m g
    /\ length (snd m) = 16%nat /\ place_number i <= u64_max.
Proof.
  intros (Hl & Hc & Hf & Hall) [i Hi]%list_elem_of_lookup. pose proof (lookup_lt_Some _ _ _ Hi) as Hlt.
  destruct (lookup_lt_is_Some_2 messages i) as [m Hm]; [lia|]. exists i, m. split_and!; [done..|by eapply Hall| |].
  - by destruct (proj1 (Forall_forall _ _) Hf m (list_elem_of_lookup_2 _ _ _ Hm)).
  - unfold place_number, count in *. lia.
Qed.

(** What an end has opened: messages as they were sealed, each once and in their order. *)
Definition in_order (messages : list (list N * list N)) (got : list (N * list N)) : Prop :=
  StronglySorted N.gt (map fst got)
  /\ Forall (fun np => exists i, fst np = place_number i /\ fst <$> messages !! i = Some (snd np)) got.

Lemma receive_safe ta tb messages frames now arrivals b :
  facing ta tb -> sealed_as ta messages frames -> listening tb b 0 [] ->
  now < nt_opened_at_unix tb + MAX_SESSION_AGE_SECS -> Forall (carries frames) arrivals ->
  let '(b', got) := fold_left (receive now) arrivals (b, []) in
  exists k, listening tb b' k got /\ in_order messages got /\ Forall (fun np => fst np <= N.of_nat k) got.
Proof.
  intros Hf Hs Hb Hn. induction arrivals as [|f arrivals IH] using rev_ind; intros Ha.
  { exists 0%nat. split_and!; [done|split; constructor|constructor]. }
  apply Forall_app in Ha as [Ha (Hfn & g & Hg & Hct & Htag)%Forall_singleton]. specialize (IH Ha).
  rewrite fold_left_app. destruct (fold_left _ arrivals _) as [b1 got].
  destruct IH as (k & Hl & [Hso Hgo] & Hk). cbn [fold_left]. unfold receive. cbn [fst snd].
  destruct (sealed_at_place _ _ _ _ Hs Hg) as (i & m & _ & Hm & Hmade & Hnonce & Hi).
  destruct (open_carried ta tb b1 k got i m g f now Hf Hl Hnonce Hi Hn Hmade Hfn Hct Htag)
    as (b' & r & k' & -> & Hk' & Hr & _).
  destruct r as [pt|e].
  - destruct Hr as (-> & -> & -> & Hsq & Hl'). exists (S k). split_and!; [done| |].
    + split; cbn [map fst snd].
      * constructor; [done|]. rewrite Forall_map, Hsq. eapply Forall_impl; [exact Hk|].
        intros x Hx. cbn in *. unfold place_number. lia.
      * constructor; [|done]. exists k. by rewrite Hm.
    + constructor; [cbn; rewrite Hsq; unfold place_number; lia|].
      eapply Forall_impl; [exact Hk|]. intros x Hx. cbn in *. lia.
  - exists k'. split_and!; [done|done|]. eapply Forall_impl; [exact Hk|]. intros x Hx. cbn in *. lia.
Qed.

(** The first messages with their numbers. *)
Definition first_messages (k : nat) (messages : list (list N * list N)) : list (N * list N) :=
  imap (fun i m => (place_number i, fst m)) (take k messages).

Lemma first_messages_S k messages m :
  messages !! k = Some m -> first_messages (S k) messages = first_messages k messages ++ [(place_number k, fst m)].
Proof.
  intros Hm. unfold first_messages. rewrite (take_S_r _ _ _ Hm), imap_app. cbn.
  rewrite length_take, Nat.min_l, Nat.add_0_r; [done|]. apply lookup_lt_Some in Hm. lia.
Qed.

Lemma first_numbers k messages :
  (k <= length messages)%nat -> map fst (rev (first_messages k messages)) = countdown k.
Proof.
  induction k as [|k IH]; intros Hk; [done|].
  destruct (lookup_lt_is_Some_2 messages k) as [m Hm]; [lia|].
  rewrite (first_messages_S _ _ _ Hm), rev_app_distr. cbn [rev app map countdown fst].
  rewrite IH by lia. f_equal. unfold place_number. lia.
Qed.

Lemma newest_countdown k : newest (countdown k) = N.of_nat k.
Proof. induction k as [|k IH]; [done|]. cbn [countdown newest fold_right]. fold (newest (countdown k)). rewrite IH. lia. Qed.

Lemma elem_of_countdown k n : n ∈ countdown k <-> 0 < n <= N.of_nat k.
Proof.
  induction k as [|k IH]; cbn [countdown]; [rewrite elem_of_nil; lia|]. rewrite elem_of_cons, IH. lia.
Qed.

(** What the end answers to the frame at a place, once it has opened the first [k] messages. *)
Definition answer_at (k i : nat) (plaintext : list N) : result (list N) CryptoError :=
  match Nat.compare i k with
  | Lt => if 64 <=? N.of_nat k - place_number i then Err (CeReplayTooOld (place_number i))
          else Err (CeReplay (place_number i))
  | Eq => Ok plaintext
  | Gt => Err CeAuthenticity
  end.

Lemma verdict_answer k i plaintext :
  match replay_verdict (countdown k) (place_number i) with
  | Err e => Err e
  | Ok _ => if decide (i = k) then Ok plaintext else Err CeAuthenticity
  end = answer_at k i plaintext.
Proof.
  unfold replay_verdict, answer_at. rewrite newest_countdown. change REPLAY_WINDOW_SIZE with 64.
  rewrite (proj2 (N.eqb_neq (place_number i) 0)) by (unfold place_number; lia).
  destruct (N.ltb_spec (N.of_nat k) (place_number i)) as [Hlt|Hle]; unfold place_number in *.
  - destruct (Nat.compare_spec i k); case_decide; try done; lia.
  - destruct (Nat.compare_spec i k); try lia. destruct (64 <=? _); [done|].
    rewrite bool_decide_eq_true_2; [done|]. apply elem_of_countdown. lia.
Qed.

(** Frames as they were sealed: what is opened are the first messages. *)
Definition heard (tb : NoiseTransport) (messages : list (list N * list N)) (b : EndToEndChannel) (k : nat)
    (got : list (N * list N)) : Prop :=
  listening tb b k got /\ (k <= length messages)%nat /\ rev got = first_messages k messages.

Lemma heard_opens ta tb messages frames now b k got i g m :
  facing ta tb -> sealed_as ta messages frames -> heard tb messages b k got ->
  now < nt_opened_at_unix tb + MAX_SESSION_AGE_SECS -> frames !! i = Some g -> messages !! i = Some m ->
  snd (open_bytes b g now) = answer_at k i (fst m)
  /\ exists k', heard tb messages (fst (open_bytes b g now)) k'
       (match snd (open_bytes b g now) with Ok pt => (sl_sequence g, pt) :: got | Err _ => got end).
Proof.
  intros Hf Hs (Hl & Hk & Hr) Hn Hg Hm. pose proof Hs as (Hlen & Hcount & Hfit & Hall).
  pose proof (Hall i g m Hg Hm) as Hmade.
  pose proof (proj1 (Forall_forall _ _) Hfit m (list_elem_of_lookup_2 _ _ _ Hm)) as [_ Hnonce].
  assert (place_number i <= u64_max) as Hi by (apply lookup_lt_Some in Hm; unfold place_number, count in *; lia).
  assert (length (sl_nonce g) = 16%nat) as Hgn by by rewrite (ma_nonce _ _ _ _ Hmade).
  assert (map fst got = countdown k) as Hnum.
  { rewrite <- (first_numbers k messages Hk), <- Hr. by rewrite rev_involutive. }
  destruct (open_carried ta tb b k got i m g g now Hf Hl Hnonce Hi Hn Hmade Hgn eq_refl eq_refl)
    as (b' & r & k' & -> & _ & Hb & Hx). destruct (Hx eq_refl) as [-> Hres].
  rewrite Hnum, verdict_answer in Hres. cbn [fst snd]. split; [done|].
  destruct r as [pt|e]; [|by exists k]. destruct Hb as (-> & _ & -> & Hsq & Hl'). exists (S k). split_and!; [done| |].
  - apply lookup_lt_Some in Hm. lia.
  - cbn [rev]. by rewrite Hr, (first_messages_S _ _ _ Hm), Hsq.
Qed.

Lemma receive_heard ta tb messages frames now arrivals b :
  facing ta tb -> sealed_as ta messages frames -> listening tb b 0 [] ->
  now < nt_opened_at_unix tb + MAX_SESSION_AGE_SECS -> Forall (fun f => f ∈ frames) arrivals ->
  let '(b', got) := fold_left (receive now) arrivals (b, []) in exists k, heard tb messages b' k got.
Proof.
  intros Hf Hs Hb Hn. induction arrivals as [|f arrivals IH] using rev_ind; intros Ha.
  { exists 0%nat. split_and!; [done|lia|done]. }
  apply Forall_app in Ha as [Ha Hg]. apply Forall_cons in Hg as [Hg _]. specialize (IH Ha).
  rewrite fold_left_app. destruct (fold_left _ arrivals _) as [b1 got]. destruct IH as (k & Hk).
  destruct (sealed_at_place _ _ _ _ Hs Hg) as (i & m & Hi & Hm & _).
  destruct (heard_opens ta tb messages frames now b1 k got i f m Hf Hs Hk Hn Hi Hm) as (_ & k' & Hk').
  cbn [fold_left]. unfold receive. cbn [fst snd]. destruct (open_bytes b1 f now) as [b' r]. by exists k'.
Qed.

(** C24: What arrives over a production channel.  Take the two ends of a finished handshake over a
    library that numbers its messages as documented: one end seals messages the library has room
    for, every one successfully.  The network may hand over the frames in any order, any number of
    times or not at all, and rewrite the numbers and nonces that travel in the clear: what the
    other end opens are messages as they were sealed, each at most once and in their order, a
    later one never before an earlier.  Of frames as they were sealed it opens exactly the first
    messages, up to some place: the frame at that place opens next, an earlier one is a replay, and
    a later one is refused as not authentic until its turn. *)
Theorem production_messages_in_order ta tb messages sealed_at opened_at :
  facing ta tb -> Forall noise_fits messages -> count messages <= u64_max ->
  sealed_at < nt_opened_at_unix ta + MAX_SESSION_AGE_SECS ->
  opened_at < nt_opened_at_unix tb + MAX_SESSION_AGE_SECS ->
  exists a' frames,
    seal_all (from_noise_transport ta) messages sealed_at = Ok (a', frames)
    /\ length frames = length messages
    /\ forall arrivals, Forall (carries frames) arrivals ->
       let '(b, got) := fold_left (receive opened_at) arrivals (from_noise_transport tb, []) in
       in_order messages got
       /\ (Forall (fun f => f ∈ frames) arrivals ->
           exists k, rev got = first_messages k messages
             /\ forall i frame m, frames !! i = Some frame -> messages !! i = Some m ->
                  snd (open_bytes b frame opened_at) = answer_at k i (fst m)).
Proof.
  intros Hf Hm Hc Hsa Hoa.
  destruct (seal_all_made ta tb sealed_at messages (from_noise_transport ta) (nt_transport ta) 0 Hf)
    as (a' & frames & Hs & Hl & Hall); [by destruct ta|apply (fa_sending _ _ Hf)|done|done|lia|done|].
  exists a', frames. split_and!; [done|done|]. intros arrivals Ha.
  assert (sealed_as ta messages frames) as Has by by split_and!.
  assert (listening tb (from_noise_transport tb) 0 []) as Hb.
  { split_and!; [done|apply (window_feeds [])|]. exists (nt_transport tb). split; [by destruct tb|].
    apply (fa_receiving _ _ Hf). }
  pose proof (receive_safe ta tb messages frames opened_at arrivals _ Hf Has Hb Hoa Ha) as Hsafe.
  pose proof (receive_heard ta tb messages frames opened_at arrivals _ Hf Has Hb Hoa) as Hheard.
  destruct (fold_left _ arrivals _) as [b got]. destruct Hsafe as (_ & _ & Hord & _). split; [done|].
  intros Hin. destruct (Hheard Hin) as (k & Hk). exists k. split; [apply Hk|].
  intros i g m Hi Hmi. exact (proj1 (heard_opens ta tb messages frames opened_at b k got i g m Hf Has Hk Hoa Hi Hmi)).
Qed.
End Production.

(** ** Two ends at work *)

#[local] Existing Instance toy_hmac_sha256.

(** A library that sends its payloads in the clear, behind their number. *)
#[local] Instance counting_noise : Noise := {|
  handshake_state := unit;
  transport_state := N;
  noise_parses _ := true;
  noise_build _ _ _ _ _ := None;
  hs_is_my_turn _ := false;
  hs_write_message h _ _ := (h, Err SnowOther);
  hs_read_message h _ _ := (h, Err SnowOther);
  hs_remote_static _ := None;
  hs_is_finished _ := false;
  hs_into_transport _ := None;
  ts_write_message s p room :=
    if count p + 16 <=? room then (s + 1, Ok (s :: p ++ repeat 0 15)) else (s, Err SnowInput);
  ts_read_message s c room :=
    match c with
    | n :: rest => if n =? s then (s + 1, Ok (take (length c - 16) rest)) else (s, Err SnowDecrypt)
    | [] => (s, Err SnowDecrypt)
    end;
|}.

Lemma counting_write (s n : N) (p : list N) (room : N) :
  s = n -> n < u64_max -> count p + 16 <= room -> count p + 16 <= 65535 ->
  exists (s' : N) c, ts_write_message s p room = (s', Ok c) /\ s' = n + 1 /\ c = n :: p ++ repeat 0 15
    /\ count c = count p + 16.
Proof.
  intros -> _ Hr _. exists (n + 1), (n :: p ++ repeat 0 15). cbn. rewrite (proj2 (N.leb_le _ _)) by done.
  split_and!; [done..|]. unfold count. cbn [length]. rewrite length_app. cbn [length]. lia.
Qed.

Lemma counting_read (s n : N) (p c : list N) :
  s = n -> c = n :: p ++ repeat 0 15 ->
  exists s' : N, ts_read_message s c (count c) = (s', Ok p) /\ s' = n + 1.
Proof.
  intros -> ->. exists (n + 1). cbn. rewrite N.eqb_refl. split; [|done]. do 2 f_equal.
  rewrite length_app. cbn [length]. apply take_app_length'. lia.
Qed.

Lemma counting_other (s n m : N) (p c : list N) :
  s = n -> c = m :: p ++ repeat 0 15 -> m <> n ->
  exists s' : N, ts_read_message s c (count c) = (s', Err SnowDecrypt) /\ s' = n.
Proof. intros -> -> Hm. exists n. cbn. by rewrite (proj2 (N.eqb_neq _ _) Hm). Qed.

#[local] Instance counting_ordered : OrderedNoise := {|
  sending s n := s = n;
  receiving s n := s = n;
  enciphered n p c := c = n :: p ++ repeat 0 15;
  write_next := counting_write;
  read_next := counting_read;
  read_other := counting_other;
|}.

Definition counting_end (role : ChannelRole) (local remote : N) : NoiseTransport :=
  {| nt_transport := 0; nt_role := role; nt_prologue := toy_prologue; nt_local_static := toy_key local;
     nt_remote := {| ap_static_public := toy_key remote; ap_public_id := repeat 6 16; ap_kind := KindHost |};
     nt_opened_at_unix := 100; nt_direct_reachable := true |}.

Definition counting_sealed := seal_all (from_noise_transport (counting_end Initiator 4 5)) toy_messages 200.
Definition counting_frames : list SealedFrame := match counting_sealed with Ok (_, frames) => frames | Err _ => [] end.

(** The third frame before its turn, the first, the first again, the second, the third. *)
Definition counting_arrivals : list SealedFrame :=
  [2; 0; 0; 1; 2]%nat ≫= (fun i => option_list (counting_frames !! i)).

Lemma counting_carried : Forall (carries counting_frames) counting_arrivals.
Proof.
  assert (Forall (fun g => length (sl_nonce g) = 16%nat) counting_frames) as Hn
    by (apply (bool_decide_unpack _); by vm_compute).
  apply Forall_forall. intros f (i & Hf & _)%list_elem_of_bind.
  destruct (counting_frames !! i) as [g|] eqn:Hi; [|by apply not_elem_of_nil in Hf].
  apply list_elem_of_singleton in Hf as ->. apply list_elem_of_lookup_2 in Hi.
  split; [by apply (proj1 (Forall_forall _ _) Hn)|]. by exists g.
Qed.

Lemma production_messages_in_order_witness :
  let '(b, got) := fold_left (receive 300) counting_arrivals (from_noise_transport (counting_end Responder 5 4), []) in
  got = [(3, repeat 7 70); (2, [121; 111]); (1, [104; 105])] /\ in_order toy_messages got.
Proof.
  destruct (production_messages_in_order (counting_end Initiator 4 5) (counting_end Responder 5 4) toy_messages 200 300)
    as (a' & frames & Hs & _ & H).
  - by split.
  - apply (bool_decide_unpack _). by vm_compute.
  - by vm_compute.
  - by vm_compute.
  - by vm_compute.
  - assert (counting_frames = frames) as <- by (unfold counting_frames, counting_sealed; by rewrite Hs).
    specialize (H counting_arrivals counting_carried).
    destruct (fold_left _ counting_arrivals _) as [b got] eqn:E. destruct H as [H _]. split; [|exact H].
    assert (got = snd (fold_left (receive 300) counting_arrivals
      (from_noise_transport (counting_end Responder 5 4), []))) as -> by by rewrite E.
    by vm_compute.
Defined.

(** The library has counted the message before the channel looks at what it binds: a frame whose
    number was rewritten on the way does not open, and neither does the frame as it was sealed,
    which came too late. *)
Example rewritten_number_loses_message :
  match counting_frames with
  | g :: _ =>
      let f := {| sl_version := sl_version g; sl_sequence := 9; sl_nonce := sl_nonce g;
                  sl_ciphertext := sl_ciphertext g; sl_tag := sl_tag g |} in
      let '(b, got) := receive 300 (from_noise_transport (counting_end Responder 5 4), []) f in
      got = [] /\ snd (open_bytes b g 300) = Err CeAuthenticity
  | [] => False
  end.
Proof. by vm_compute. Qed.
