(* ===== verification/Relay.v ===== *)
(** The opaque relay ([connect/relay.rs]): route tickets, the bounded router that passes sealed
    frames between the two sockets of a route without opening them, and the queue of the relay's
    client.

    An identifier or a nonce of 16 bytes is the number those bytes spell, most significant first.
    A [&mut self] method answers the next relay with its result, whatever an early return had
    already done.  Sockets, TLS and URLs are not modelled. *)
From S2P Require Import Prelude Canonical Codec Wire SecureFrame.

Definition ROUTE_TICKET_DOMAIN : list N := lit "DevManagerConnect/v1/route-ticket" ++ [0].
Definition MAX_ROUTE_TICKET_TTL_SECS : N := 5 * 60.
Definition MAX_RELAY_QUEUE_FRAMES : N := 8.
Definition MAX_RELAY_QUEUE_BYTES : N := MAX_SEALED_FRAME_BYTES.
Definition MAX_BIND_ATTEMPTS_PER_WINDOW : N := 8.
Definition BIND_RATE_WINDOW_SECS : N := 60.
Definition PRESENCE_TTL_SECS : N := 30.
Definition MAX_RELAY_ROUTES : N := 1024.
Definition MAX_RELAY_REVOKED_TICKETS : N := 4096.
Definition MAX_RELAY_REVOKED_DEVICES : N := 4096.
Definition MAX_RELAY_CONSUMED_NONCES : N := 16384.
Definition MAX_RELAY_RATE_KEYS : N := 4096.
Definition RELAY_INITIAL_BACKOFF_MS : N := 250.
Definition RELAY_MAX_BACKOFF_MS : N := 30000.
Definition TICKET_TAG_BYTES : N := 32.

Notation RouteId := N (only parsing).
Notation TicketId := N (only parsing).
Notation HostPublicId := N (only parsing).
Notation DevicePublicId := N (only parsing).
Notation AccountId := N (only parsing).

Inductive RelayError :=
| InvalidTicket
| ExpiredTicket
| TicketReused
| RevokedTicket
| RevokedDevice
| HostOffline
| UnknownRoute
| PeerDisconnected
| OpaqueFrame
| FrameExceeded (declared : N)
| QueueExceeded
| QueueEmpty
| RateLimited
| StateBoundExceeded
| EntropyUnavailable
| InsecureEndpoint
| TlsHandshake
| Transport
| RelayIdentity (e : IdError).

Inductive TicketAudience := HostSocket | DeviceSocket.

#[export] Instance TicketAudience_eq_dec : EqDecision TicketAudience.
Proof. solve_decision. Defined.
#[export] Instance TicketAudience_countable : Countable TicketAudience.
Proof.
  refine (inj_countable' (fun a => match a with HostSocket => true | DeviceSocket => false end)
            (fun b => if b : bool then HostSocket else DeviceSocket) _). by intros [].
Defined.

Definition wire_tag (a : TicketAudience) : N := match a with HostSocket => 1 | DeviceSocket => 2 end.

Definition other_audience (a : TicketAudience) : TicketAudience :=
  match a with HostSocket => DeviceSocket | DeviceSocket => HostSocket end.

(** ** Tickets *)

Record RouteTicket := {
  rt_ticket_id : TicketId;
  rt_route_id : RouteId;
  rt_host_public_id : HostPublicId;
  rt_device_public_id : DevicePublicId;
  rt_account_id : AccountId;
  rt_audience : TicketAudience;
  rt_issued_at_unix : N;
  rt_expires_at_unix : N;
  rt_nonce : N;
}.

#[export] Instance RouteTicket_eq_dec : EqDecision RouteTicket.
Proof. solve_decision. Defined.

Definition ticket_checked (t : RouteTicket) : result RouteTicket RelayError :=
  ensure negb (rt_expires_at_unix t <=? rt_issued_at_unix t) else InvalidTicket ;;
  ensure negb (MAX_ROUTE_TICKET_TTL_SECS <? saturating_sub (rt_expires_at_unix t) (rt_issued_at_unix t))
    else InvalidTicket ;;
  Ok t.

(** [RouteTicket::new] *)
Definition route_ticket_new (ticket_id : TicketId) (route_id : RouteId) (host_public_id : HostPublicId)
    (device_public_id : DevicePublicId) (account_id : AccountId) (audience : TicketAudience)
    (issued_at_unix expires_at_unix nonce : N) : result RouteTicket RelayError :=
  ticket_checked
    {| rt_ticket_id := ticket_id; rt_route_id := route_id; rt_host_public_id := host_public_id;
       rt_device_public_id := device_public_id; rt_account_id := account_id; rt_audience := audience;
       rt_issued_at_unix := issued_at_unix; rt_expires_at_unix := expires_at_unix; rt_nonce := nonce |}.

(** [as_bytes] of an identifier. *)
Definition uuid_bytes (id : N) : list N := be_bytes 16 id.

(** [from_bytes] of an identifier. *)
Definition connect_id (bytes : list N) : result N RelayError :=
  match validate_uuid_v7 bytes with Ok _ => Ok (from_be bytes) | Err e => Err (RelayIdentity e) end.

Definition ticket_body (t : RouteTicket) : list N :=
  uuid_bytes (rt_ticket_id t) ++ uuid_bytes (rt_route_id t) ++ uuid_bytes (rt_host_public_id t)
  ++ uuid_bytes (rt_device_public_id t) ++ uuid_bytes (rt_account_id t) ++ [wire_tag (rt_audience t)]
  ++ be_bytes 8 (rt_issued_at_unix t) ++ be_bytes 8 (rt_expires_at_unix t) ++ uuid_bytes (rt_nonce t).

Definition ticket_bytes (t : RouteTicket) : list N := ROUTE_TICKET_DOMAIN ++ ticket_body t.

Definition TICKET_BODY_BYTES : N := 16 * 5 + 1 + 8 + 8 + 16.

Record SignedRouteTicket := {
  st_claims : RouteTicket;
  st_signature : list N;
}.

Section Tickets.
Context `{HM : HmacSha256}.

Definition sign_ticket (key : list N) (claims : RouteTicket) : list N := hmac key (ticket_bytes claims).

Definition ticket_issue (key : list N) (claims : RouteTicket) : SignedRouteTicket :=
  {| st_claims := claims; st_signature := sign_ticket key claims |}.

Definition ticket_verify (t : SignedRouteTicket) (key : list N) : result RouteTicket RelayError :=
  ensure constant_time_eq (sign_ticket key (st_claims t)) (st_signature t) else InvalidTicket ;;
  Ok (st_claims t).

Definition ticket_encode (t : SignedRouteTicket) : list N := ticket_bytes (st_claims t) ++ st_signature t.

Definition audience_of_tag (tag : N) : result TicketAudience RelayError :=
  if tag =? 1 then Ok HostSocket else if tag =? 2 then Ok DeviceSocket else Err InvalidTicket.

Definition ticket_of_body (body : list N) : result RouteTicket RelayError :=
  let? ticket_id := connect_id (slice 0 16 body) in
  let? route_id := connect_id (slice 16 32 body) in
  let? host_public_id := connect_id (slice 32 48 body) in
  let? device_public_id := connect_id (slice 48 64 body) in
  let? account_id := connect_id (slice 64 80 body) in
  let? audience := audience_of_tag (nth 80 body 0) in
  route_ticket_new ticket_id route_id host_public_id device_public_id account_id audience
    (from_be (slice 81 89 body)) (from_be (slice 89 97 body)) (from_be (slice 97 113 body)).

Definition ticket_decode (key bytes : list N) : result SignedRouteTicket RelayError :=
  ensure TICKET_TAG_BYTES + count ROUTE_TICKET_DOMAIN + TICKET_BODY_BYTES <=? count bytes
    else InvalidTicket ;;
  let split := (length bytes - N.to_nat TICKET_TAG_BYTES)%nat in
  let canonical := take split bytes in
  let tag_bytes := drop split bytes in
  let? body := ok_or (strip_prefix ROUTE_TICKET_DOMAIN canonical) InvalidTicket in
  ensure count body =? TICKET_BODY_BYTES else InvalidTicket ;;
  let? claims := ticket_of_body body in
  let ticket := {| st_claims := claims; st_signature := tag_bytes |} in
  try? ticket_verify ticket key ;;
  Ok ticket.
End Tickets.

(** ** The router *)

Inductive RelayStatus := RelayBound | RelayForwarded | RelayDropped | RelayDisconnected.

Record RelayObservation := {
  ro_route_id : RouteId;
  ro_frame_bytes : N;
  ro_status : RelayStatus;
  ro_error_class : option RelayError;
}.

Inductive RateKey := RateAccount (id : AccountId) | RateIp (address : N).

#[export] Instance RateKey_eq_dec : EqDecision RateKey.
Proof. solve_decision. Defined.
#[export] Instance RateKey_countable : Countable RateKey.
Proof.
  refine (inj_countable' (fun k => match k with RateAccount id => inl id | RateIp a => inr a end)
            (fun s => match s with inl id => RateAccount id | inr a => RateIp a end) _). by intros [].
Defined.

Record RateWindow := {
  rw_started_at_unix : N;
  rw_count : N;
}.

Record BoundChannel := {
  bc_claims : RouteTicket;
  bc_queued : list SealedFrame;
  bc_queued_bytes : N;
}.

Notation Sockets := (gmap TicketAudience BoundChannel) (only parsing).

(** A presence record is the time it expires. *)
Record OpaqueRelay := {
  or_signing_key : option (list N);
  or_online_hosts : gset N;
  or_revoked_tickets : gset N;
  or_revoked_devices : gset N;
  or_ticket_overflow : bool;
  or_device_overflow : bool;
  or_consumed_nonces : gset N;
  or_channels : gmap N Sockets;
  or_presence : gmap N N;
  or_bind_attempts : gmap RateKey RateWindow;
  or_max_queue_frames : N;
  or_max_queue_bytes : N;
}.

Definition relay_default : OpaqueRelay :=
  {| or_signing_key := None; or_online_hosts := ∅; or_revoked_tickets := ∅; or_revoked_devices := ∅;
     or_ticket_overflow := false; or_device_overflow := false; or_consumed_nonces := ∅; or_channels := ∅;
     or_presence := ∅; or_bind_attempts := ∅; or_max_queue_frames := MAX_RELAY_QUEUE_FRAMES;
     or_max_queue_bytes := MAX_RELAY_QUEUE_BYTES |}.

Definition or_with_routes (r : OpaqueRelay) (channels : gmap N Sockets) (presence : gmap N N) : OpaqueRelay :=
  {| or_signing_key := or_signing_key r; or_online_hosts := or_online_hosts r;
     or_revoked_tickets := or_revoked_tickets r; or_revoked_devices := or_revoked_devices r;
     or_ticket_overflow := or_ticket_overflow r; or_device_overflow := or_device_overflow r;
     or_consumed_nonces := or_consumed_nonces r; or_channels := channels; or_presence := presence;
     or_bind_attempts := or_bind_attempts r; or_max_queue_frames := or_max_queue_frames r;
     or_max_queue_bytes := or_max_queue_bytes r |}.

Definition or_with_hosts (r : OpaqueRelay) (hosts : gset N) (nonces : gset N) : OpaqueRelay :=
  {| or_signing_key := or_signing_key r; or_online_hosts := hosts;
     or_revoked_tickets := or_revoked_tickets r; or_revoked_devices := or_revoked_devices r;
     or_ticket_overflow := or_ticket_overflow r; or_device_overflow := or_device_overflow r;
     or_consumed_nonces := nonces; or_channels := or_channels r; or_presence := or_presence r;
     or_bind_attempts := or_bind_attempts r; or_max_queue_frames := or_max_queue_frames r;
     or_max_queue_bytes := or_max_queue_bytes r |}.

Definition or_with_attempts (r : OpaqueRelay) (attempts : gmap RateKey RateWindow) : OpaqueRelay :=
  {| or_signing_key := or_signing_key r; or_online_hosts := or_online_hosts r;
     or_revoked_tickets := or_revoked_tickets r; or_revoked_devices := or_revoked_devices r;
     or_ticket_overflow := or_ticket_overflow r; or_device_overflow := or_device_overflow r;
     or_consumed_nonces := or_consumed_nonces r; or_channels := or_channels r; or_presence := or_presence r;
     or_bind_attempts := attempts; or_max_queue_frames := or_max_queue_frames r;
     or_max_queue_bytes := or_max_queue_bytes r |}.

Definition or_with_revoked (r : OpaqueRelay) (tickets devices : gset N) (ticket_overflow device_overflow : bool)
    : OpaqueRelay :=
  {| or_signing_key := or_signing_key r; or_online_hosts := or_online_hosts r;
     or_revoked_tickets := tickets; or_revoked_devices := devices;
     or_ticket_overflow := ticket_overflow; or_device_overflow := device_overflow;
     or_consumed_nonces := or_consumed_nonces r; or_channels := or_channels r; or_presence := or_presence r;
     or_bind_attempts := or_bind_attempts r; or_max_queue_frames := or_max_queue_frames r;
     or_max_queue_bytes := or_max_queue_bytes r |}.

Definition with_signing_key (key : list N) : OpaqueRelay :=
  {| or_signing_key := Some key; or_online_hosts := ∅; or_revoked_tickets := ∅; or_revoked_devices := ∅;
     or_ticket_overflow := false; or_device_overflow := false; or_consumed_nonces := ∅; or_channels := ∅;
     or_presence := ∅; or_bind_attempts := ∅; or_max_queue_frames := MAX_RELAY_QUEUE_FRAMES;
     or_max_queue_bytes := MAX_RELAY_QUEUE_BYTES |}.

Definition with_queue_bounds (r : OpaqueRelay) (max_frames max_bytes : N) : OpaqueRelay :=
  {| or_signing_key := or_signing_key r; or_online_hosts := or_online_hosts r;
     or_revoked_tickets := or_revoked_tickets r; or_revoked_devices := or_revoked_devices r;
     or_ticket_overflow := or_ticket_overflow r; or_device_overflow := or_device_overflow r;
     or_consumed_nonces := or_consumed_nonces r; or_channels := or_channels r; or_presence := or_presence r;
     or_bind_attempts := or_bind_attempts r; or_max_queue_frames := N.max max_frames 1;
     or_max_queue_bytes := N.max max_bytes 1 |}.

(** *** Dropping sockets *)

(** [sockets.retain(..)] *)
Definition kept_sockets (keep : BoundChannel -> bool) (sockets : Sockets) : Sockets :=
  filter (fun ac => keep (snd ac) = true) sockets.

(** [channels.retain(..)] over every route, the routes left empty going with their presence. *)
Definition retain_sockets (keep : BoundChannel -> bool) (r : OpaqueRelay) : OpaqueRelay :=
  let left sockets :=
    let kept := kept_sockets keep sockets in if bool_decide (kept = ∅) then None else Some kept in
  or_with_routes r (omap left (or_channels r))
    (filter (fun rp => match or_channels r !! fst rp with
                       | Some sockets => negb (bool_decide (kept_sockets keep sockets = ∅))
                       | None => true
                       end = true) (or_presence r)).

Definition set_host_online (r : OpaqueRelay) (host : HostPublicId) (online : bool) : OpaqueRelay :=
  if online then or_with_hosts r ({[host]} ∪ or_online_hosts r) (or_consumed_nonces r)
  else retain_sockets (fun channel => negb (rt_host_public_id (bc_claims channel) =? host))
         (or_with_hosts r (or_online_hosts r ∖ {[host]}) (or_consumed_nonces r)).

Definition remember_revoked_ticket (r : OpaqueRelay) (ticket_id : TicketId) : OpaqueRelay :=
  if (MAX_RELAY_REVOKED_TICKETS <=? N.of_nat (size (or_revoked_tickets r)))
     && negb (bool_decide (ticket_id ∈ or_revoked_tickets r))
  then or_with_revoked r (or_revoked_tickets r) (or_revoked_devices r) true (or_device_overflow r)
  else or_with_revoked r ({[ticket_id]} ∪ or_revoked_tickets r) (or_revoked_devices r) (or_ticket_overflow r)
         (or_device_overflow r).

Definition remember_revoked_device (r : OpaqueRelay) (device : DevicePublicId) : OpaqueRelay :=
  if (MAX_RELAY_REVOKED_DEVICES <=? N.of_nat (size (or_revoked_devices r)))
     && negb (bool_decide (device ∈ or_revoked_devices r))
  then or_with_revoked r (or_revoked_tickets r) (or_revoked_devices r) (or_ticket_overflow r) true
  else or_with_revoked r (or_revoked_tickets r) ({[device]} ∪ or_revoked_devices r) (or_ticket_overflow r)
         (or_device_overflow r).

Definition drop_ticket (r : OpaqueRelay) (ticket_id : TicketId) : OpaqueRelay :=
  retain_sockets (fun channel => negb (rt_ticket_id (bc_claims channel) =? ticket_id)) r.

Definition revoke_ticket (r : OpaqueRelay) (ticket_id : TicketId) : OpaqueRelay :=
  drop_ticket (remember_revoked_ticket r ticket_id) ticket_id.

Definition revoke_device (r : OpaqueRelay) (device : DevicePublicId) : OpaqueRelay :=
  retain_sockets (fun channel => negb (rt_device_public_id (bc_claims channel) =? device))
    (remember_revoked_device r device).

(** *** Time *)

Definition evict_expired_rate_windows (r : OpaqueRelay) (now_unix : N) : OpaqueRelay :=
  or_with_attempts r
    (filter (fun kw => saturating_sub now_unix (rw_started_at_unix (snd kw)) < BIND_RATE_WINDOW_SECS)
       (or_bind_attempts r)).

Definition channel_stale (r : OpaqueRelay) (now_unix : N) (channel : BoundChannel) : bool :=
  let claims := bc_claims channel in
  ((now_unix <? rt_issued_at_unix claims) || (rt_expires_at_unix claims <=? now_unix))
  || (bool_decide (rt_ticket_id claims ∈ or_revoked_tickets r)
      || bool_decide (rt_device_public_id claims ∈ or_revoked_devices r)).

(** The routes whose presence ran out go whole. *)
Definition expire_presence (r : OpaqueRelay) (now_unix : N) : OpaqueRelay :=
  let gone route := is_some_and (or_presence r !! route) (fun expires => expires <=? now_unix) in
  or_with_routes r
    (filter (fun rs => gone (fst rs) = false) (or_channels r))
    (filter (fun re => now_unix < snd re) (or_presence r)).

(** A route goes when its last socket was stale. *)
Definition expire_sockets (r : OpaqueRelay) (now_unix : N) : OpaqueRelay :=
  let keep channel := negb (channel_stale r now_unix channel) in
  let emptied sockets := bool_decide (kept_sockets keep sockets = ∅) && negb (bool_decide (sockets = ∅)) in
  or_with_routes r
    (omap (fun sockets => if emptied sockets then None else Some (kept_sockets keep sockets)) (or_channels r))
    (filter (fun rp => is_some_and (or_channels r !! fst rp) emptied = false) (or_presence r)).

Definition expire_stale (r : OpaqueRelay) (now_unix : N) : OpaqueRelay :=
  evict_expired_rate_windows (expire_sockets (expire_presence r now_unix) now_unix) now_unix.

(** *** Binding *)

Definition rate_keys_full (r : OpaqueRelay) (source : RateKey) : bool :=
  (MAX_RELAY_RATE_KEYS <=? N.of_nat (size (or_bind_attempts r))) && is_none (or_bind_attempts r !! source).

Definition admit_rate (r : OpaqueRelay) (source : RateKey) (now_unix : N) : OpaqueRelay * result unit RelayError :=
  let r := if rate_keys_full r source then evict_expired_rate_windows r now_unix else r in
  if rate_keys_full r source then (r, Err StateBoundExceeded)
  else
    let window := default {| rw_started_at_unix := now_unix; rw_count := 0 |} (or_bind_attempts r !! source) in
    let window :=
      if BIND_RATE_WINDOW_SECS <=? saturating_sub now_unix (rw_started_at_unix window)
      then {| rw_started_at_unix := now_unix; rw_count := 0 |} else window in
    let store window := or_with_attempts r (<[source := window]> (or_bind_attempts r)) in
    if MAX_BIND_ATTEMPTS_PER_WINDOW <=? rw_count window then (store window, Err RateLimited)
    else (store {| rw_started_at_unix := rw_started_at_unix window;
                   rw_count := N.min (rw_count window + 1) u32_max |}, Ok tt).

Section Router.
Context `{HM : HmacSha256}.

(** What a ticket has to be to open a socket now. *)
Definition bind_checks (r : OpaqueRelay) (ticket : SignedRouteTicket) (now_unix : N) : result RouteTicket RelayError :=
  let? key := ok_or (or_signing_key r) InvalidTicket in
  let? claims := ticket_verify ticket key in
  ensure negb ((now_unix <? rt_issued_at_unix claims) || (rt_expires_at_unix claims <=? now_unix)) else ExpiredTicket ;;
  ensure negb (bool_decide (rt_ticket_id claims ∈ or_revoked_tickets r)) else RevokedTicket ;;
  ensure negb (bool_decide (rt_device_public_id claims ∈ or_revoked_devices r)) else RevokedDevice ;;
  ensure negb (or_ticket_overflow r || or_device_overflow r) else StateBoundExceeded ;;
  ensure negb ((rt_audience claims =?= DeviceSocket)
               && negb (bool_decide (rt_host_public_id claims ∈ or_online_hosts r))) else HostOffline ;;
  ensure negb ((MAX_RELAY_CONSUMED_NONCES <=? N.of_nat (size (or_consumed_nonces r)))
               && negb (bool_decide (rt_nonce claims ∈ or_consumed_nonces r))) else StateBoundExceeded ;;
  ensure negb (is_none (or_channels r !! rt_route_id claims) && (MAX_RELAY_ROUTES <=? msize (or_channels r)))
    else StateBoundExceeded ;;
  ensure negb (bool_decide (rt_nonce claims ∈ or_consumed_nonces r)) else TicketReused ;;
  Ok claims.

Definition open_socket (r : OpaqueRelay) (claims : RouteTicket) (now_unix : N) : OpaqueRelay :=
  let hosts := if rt_audience claims =?= HostSocket then {[rt_host_public_id claims]} ∪ or_online_hosts r
               else or_online_hosts r in
  let r := or_with_hosts r hosts ({[rt_nonce claims]} ∪ or_consumed_nonces r) in
  let route_id := rt_route_id claims in
  let sockets := default ∅ (or_channels r !! route_id) in
  let channel := {| bc_claims := claims; bc_queued := []; bc_queued_bytes := 0 |} in
  or_with_routes r (<[route_id := <[rt_audience claims := channel]> sockets]> (or_channels r))
    (<[route_id := saturating_add now_unix PRESENCE_TTL_SECS]> (or_presence r)).

Definition bind (r : OpaqueRelay) (ticket : SignedRouteTicket) (now_unix : N) (source : RateKey)
    : OpaqueRelay * result RelayObservation RelayError :=
  let '(r, admitted) := admit_rate (expire_stale r now_unix) source now_unix in
  match admitted with
  | Err e => (r, Err e)
  | Ok _ =>
      match bind_checks r ticket now_unix with
      | Err e => (r, Err e)
      | Ok claims =>
          (open_socket r claims now_unix,
           Ok {| ro_route_id := rt_route_id claims; ro_frame_bytes := 0; ro_status := RelayBound;
                 ro_error_class := None |})
      end
  end.

(** *** Frames *)

Definition channel_live (r : OpaqueRelay) (channel : BoundChannel) (now_unix : N) : result unit RelayError :=
  let claims := bc_claims channel in
  ensure negb ((now_unix <? rt_issued_at_unix claims) || (rt_expires_at_unix claims <=? now_unix)) else ExpiredTicket ;;
  ensure negb (bool_decide (rt_ticket_id claims ∈ or_revoked_tickets r)) else RevokedTicket ;;
  guard (negb (bool_decide (rt_device_public_id claims ∈ or_revoked_devices r))) RevokedDevice.

(** [u32::try_from(frame.encoded_len()).unwrap_or(..)] *)
Definition frame_len (frame : SealedFrame) (otherwise : N) : N :=
  if sealed_encoded_len frame <=? u32_max then sealed_encoded_len frame else otherwise.

Definition saturating_add_u32 (a b : N) : N := N.min (a + b) u32_max.

(** The sockets a frame passes between: it is live at both ends and the host is online. *)
Definition admit_checks (r : OpaqueRelay) (route_id : RouteId) (from : TicketAudience) (frame : SealedFrame)
    (now_unix : N) : result (Sockets * BoundChannel) RelayError :=
  let encoded_len := frame_len frame u32_max in
  ensure encoded_len <=? MAX_SEALED_FRAME_BYTES else FrameExceeded encoded_len ;;
  try? match sealed_validate frame with Ok _ => Ok tt | Err _ => Err OpaqueFrame end ;;
  let? sockets := ok_or (or_channels r !! route_id) UnknownRoute in
  let? source := ok_or (sockets !! from) UnknownRoute in
  try? channel_live r source now_unix ;;
  let? peer := ok_or (sockets !! other_audience from) PeerDisconnected in
  try? channel_live r peer now_unix ;;
  let host := rt_host_public_id (bc_claims (match from with DeviceSocket => source | HostSocket => peer end)) in
  ensure bool_decide (host ∈ or_online_hosts r) else HostOffline ;;
  Ok (sockets, peer).

Definition relay_admit (r : OpaqueRelay) (route_id : RouteId) (from : TicketAudience) (frame : SealedFrame)
    (now_unix : N) : OpaqueRelay * result RelayObservation RelayError :=
  let r := expire_stale r now_unix in
  match admit_checks r route_id from frame now_unix with
  | Err e => (r, Err e)
  | Ok (sockets, inbound) =>
      let encoded_len := frame_len frame u32_max in
      if (or_max_queue_frames r <=? count (bc_queued inbound))
         || (or_max_queue_bytes r <? saturating_add_u32 (bc_queued_bytes inbound) encoded_len)
      then (r, Ok {| ro_route_id := route_id; ro_frame_bytes := encoded_len; ro_status := RelayDropped;
                     ro_error_class := Some QueueExceeded |})
      else
        let inbound := {| bc_claims := bc_claims inbound; bc_queued := bc_queued inbound ++ [frame];
                          bc_queued_bytes := saturating_add_u32 (bc_queued_bytes inbound) encoded_len |} in
        (or_with_routes r (<[route_id := <[other_audience from := inbound]> sockets]> (or_channels r))
           (alter (fun _ => saturating_add now_unix PRESENCE_TTL_SECS) route_id (or_presence r)),
         Ok {| ro_route_id := route_id; ro_frame_bytes := encoded_len; ro_status := RelayForwarded;
               ro_error_class := None |})
  end.

(** [take] *)
Definition relay_take (r : OpaqueRelay) (route_id : RouteId) (audience : TicketAudience)
    : OpaqueRelay * result SealedFrame RelayError :=
  match or_channels r !! route_id with
  | None => (r, Err UnknownRoute)
  | Some sockets =>
      match sockets !! audience with
      | None => (r, Err UnknownRoute)
      | Some channel =>
          match bc_queued channel with
          | [] => (r, Err QueueEmpty)
          | frame :: queued =>
              let channel := {| bc_claims := bc_claims channel; bc_queued := queued;
                                bc_queued_bytes := saturating_sub (bc_queued_bytes channel) (frame_len frame 0) |} in
              (or_with_routes r (<[route_id := <[audience := channel]> sockets]> (or_channels r)) (or_presence r),
               Ok frame)
          end
      end
  end.

Definition relay_disconnect (r : OpaqueRelay) (route_id : RouteId) (audience : TicketAudience)
    : OpaqueRelay * RelayObservation :=
  (match or_channels r !! route_id with
   | None => r
   | Some sockets =>
       let sockets := delete audience sockets in
       if decide (sockets = ∅)
       then or_with_routes r (delete route_id (or_channels r)) (delete route_id (or_presence r))
       else or_with_routes r (<[route_id := sockets]> (or_channels r)) (or_presence r)
   end,
   {| ro_route_id := route_id; ro_frame_bytes := 0; ro_status := RelayDisconnected; ro_error_class := None |}).

Definition queued_frames (r : OpaqueRelay) (route_id : RouteId) (audience : TicketAudience) : N :=
  match or_channels r !! route_id with
  | Some sockets => match sockets !! audience with Some channel => count (bc_queued channel) | None => 0 end
  | None => 0
  end.

Definition presence_live (r : OpaqueRelay) (route_id : RouteId) (now_unix : N) : bool :=
  is_some_and (or_presence r !! route_id) (fun expires => now_unix <? expires).
End Router.

(** ** The client's queue *)

Record ConnectRelayClient := {
  rc_queued : list SealedFrame;
  rc_queued_bytes : N;
  rc_max_queue_frames : N;
  rc_max_queue_bytes : N;
  rc_reconnect_attempt : N;
}.

Definition relay_client_new : ConnectRelayClient :=
  {| rc_queued := []; rc_queued_bytes := 0; rc_max_queue_frames := MAX_RELAY_QUEUE_FRAMES;
     rc_max_queue_bytes := MAX_RELAY_QUEUE_BYTES; rc_reconnect_attempt := 0 |}.

Definition relay_backoff_ms (attempt : N) : N :=
  let shift := N.min attempt 8 in
  N.min (N.min (RELAY_INITIAL_BACKOFF_MS * N.shiftl 1 shift) u64_max) RELAY_MAX_BACKOFF_MS.

Definition next_backoff_ms (c : ConnectRelayClient) : N := relay_backoff_ms (rc_reconnect_attempt c).

Definition record_reconnect_failure (c : ConnectRelayClient) : ConnectRelayClient :=
  {| rc_queued := rc_queued c; rc_queued_bytes := rc_queued_bytes c;
     rc_max_queue_frames := rc_max_queue_frames c; rc_max_queue_bytes := rc_max_queue_bytes c;
     rc_reconnect_attempt := saturating_add_u32 (rc_reconnect_attempt c) 1 |}.

Definition enqueue_sealed (c : ConnectRelayClient) (frame : SealedFrame) : result ConnectRelayClient RelayError :=
  let encoded_len := frame_len frame u32_max in
  ensure encoded_len <=? MAX_SEALED_FRAME_BYTES else FrameExceeded encoded_len ;;
  ensure negb ((rc_max_queue_frames c <=? count (rc_queued c))
               || (rc_max_queue_bytes c <? saturating_add_u32 (rc_queued_bytes c) encoded_len)) else QueueExceeded ;;
  Ok {| rc_queued := rc_queued c ++ [frame]; rc_queued_bytes := saturating_add_u32 (rc_queued_bytes c) encoded_len;
        rc_max_queue_frames := rc_max_queue_frames c; rc_max_queue_bytes := rc_max_queue_bytes c;
        rc_reconnect_attempt := rc_reconnect_attempt c |}.

(** ** The byte form of a ticket *)

Lemma slice_later (p q : list N) from to :
  (length p <= from)%nat -> slice from to (p ++ q) = slice (from - length p) (to - length p) q.
Proof.
  intros H. unfold slice. rewrite drop_app_ge by done. f_equal. lia.
Qed.

Lemma slice_first p q to : length p = to -> slice 0 to (p ++ q) = p.
Proof. intros <-. unfold slice. rewrite drop_0, Nat.sub_0_r. apply take_app_length. Qed.

Lemma slice_all p to : length p = to -> slice 0 to p = p.
Proof. intros <-. rewrite <-(app_nil_r p) at 2. by apply slice_first. Qed.

Lemma nth_later (p q : list N) i d : (length p <= i)%nat -> nth i (p ++ q) d = nth (i - length p) q d.
Proof. apply app_nth2. Qed.

(** An identifier: a version 7 UUID. *)
Record uuid_ok (id : N) : Prop := {
  uo_bound : id < 256 ^ N.of_nat 16;
  uo_v7 : validate_uuid_v7 (uuid_bytes id) = Ok (uuid_bytes id);
}.

Lemma connect_id_Ok bytes id :
  length bytes = 16%nat -> Forall is_byte bytes ->
  connect_id bytes = Ok id <-> uuid_ok id /\ bytes = uuid_bytes id.
Proof.
  intros Hl Hb. unfold connect_id. pose proof (be_bytes_from_be bytes Hb) as Hrt. rewrite Hl in Hrt.
  pose proof (from_be_bound bytes Hb) as Hbound. rewrite Hl in Hbound. split.
  - destruct (validate_uuid_v7 bytes) as [b|e] eqn:Hv; [|done]. intros [= <-]. unfold uuid_bytes.
    split; [|by rewrite Hrt]. split; [done|]. unfold uuid_bytes. rewrite Hrt, Hv.
    unfold validate_uuid_v7 in Hv. by peel Hv; simplify_eq.
  - intros [[Hid Hv] ->]. rewrite Hv. f_equal. by apply from_be_be_bytes.
Qed.

Lemma connect_id_uuid id : uuid_ok id -> connect_id (be_bytes 16 id) = Ok id.
Proof. intros [Hid Hv]. unfold connect_id. unfold uuid_bytes in Hv. rewrite Hv. f_equal. by apply from_be_be_bytes. Qed.

(** What the types of a ticket's fields say. *)
Record ticket_typed (t : RouteTicket) : Prop := {
  tt_ticket : uuid_ok (rt_ticket_id t);
  tt_route : uuid_ok (rt_route_id t);
  tt_host : uuid_ok (rt_host_public_id t);
  tt_device : uuid_ok (rt_device_public_id t);
  tt_account : uuid_ok (rt_account_id t);
  tt_issued : rt_issued_at_unix t <= u64_max;
  tt_expires : rt_expires_at_unix t <= u64_max;
  tt_nonce : rt_nonce t < 256 ^ N.of_nat 16;
}.

Lemma length_ticket_body t : length (ticket_body t) = 113%nat.
Proof. unfold ticket_body, uuid_bytes. by rewrite !length_app, !length_be_bytes. Qed.

Lemma ticket_body_layout body :
  length body = 113%nat ->
  body = slice 0 16 body ++ slice 16 32 body ++ slice 32 48 body ++ slice 48 64 body ++ slice 64 80 body
         ++ [nth 80 body 0] ++ slice 81 89 body ++ slice 89 97 body ++ slice 97 113 body.
Proof.
  intros H. rewrite <-(drop_0 body) at 1.
  rewrite (drop_slice 0 16), (drop_slice 16 32), (drop_slice 32 48), (drop_slice 48 64), (drop_slice 64 80) by lia.
  do 5 f_equal. 
  destruct (nth_lookup_or_length body 80 0) as [Hn|Hn]; [|lia]. rewrite (drop_S _ _ _ Hn). cbn [app]. f_equal. rewrite (drop_slice 81 89), (drop_slice 89 97), (drop_slice 97 113) by lia.
  rewrite (drop_ge body 113) by lia. by rewrite app_nil_r.
Qed.

Ltac slices :=
  repeat (first [ rewrite slice_first by (by rewrite ?length_be_bytes)
                | rewrite slice_all by (by rewrite ?length_be_bytes)
                | rewrite slice_later by (rewrite ?length_be_bytes; cbn; lia)
                | rewrite nth_later by (rewrite ?length_be_bytes; cbn; lia) ];
          rewrite ?length_be_bytes; cbn [length Nat.sub]).

Lemma u64_bound bytes : length bytes = 8%nat -> Forall is_byte bytes -> from_be bytes <= u64_max.
Proof.
  intros Hl Hb. pose proof (from_be_bound bytes Hb) as H. rewrite Hl in H.
  change (256 ^ N.of_nat 8) with (u64_max + 1) in H. lia.
Qed.

Lemma ticket_checked_Ok t t' : ticket_checked t = Ok t' -> t' = t /\ ticket_checked t = Ok t.
Proof. intros H. assert (t' = t) as -> by (unfold ticket_checked in H; by peel H). done. Qed.

Lemma audience_of_tag_Ok tag a : audience_of_tag tag = Ok a <-> tag = wire_tag a.
Proof.
  unfold audience_of_tag. destruct (N.eqb_spec tag 1) as [->|H1]; [by destruct a|].
  destruct (N.eqb_spec tag 2) as [->|H2]; [by destruct a|]. split; [done|]. by destruct a.
Qed.

Lemma ticket_of_body_Ok body t :
  length body = 113%nat -> Forall is_byte body ->
  ticket_of_body body = Ok t <-> ticket_typed t /\ ticket_checked t = Ok t /\ body = ticket_body t.
Proof.
  intros Hl Hb.
  assert (Hsl : forall a b n, (a <= b <= 113)%nat -> (b - a)%nat = n -> length (slice a b body) = n)
    by (intros a b n ? <-; apply length_slice; lia).
  assert (Hby : forall a b, Forall is_byte (slice a b body)) by (intros a b; by apply slice_bytes).
  assert (H8 : forall a b, (a <= b <= 113)%nat -> (b - a = 8)%nat ->
    from_be (slice a b body) <= u64_max /\ be_bytes 8 (from_be (slice a b body)) = slice a b body).
  { intros a b Hab H8. pose proof (Hsl a b 8%nat Hab H8) as Hl8. split; [by apply u64_bound|].
    rewrite <-Hl8 at 1. by apply be_bytes_from_be. }
  split.
  - unfold ticket_of_body. intros H. peel H.
    apply connect_id_Ok in G as [Hi1 E1], G0 as [Hi2 E2], G1 as [Hi3 E3], G2 as [Hi4 E4], G3 as [Hi5 E5];
      try apply Hby; try (apply Hsl; [lia|done]).
    apply audience_of_tag_Ok in G4. apply ticket_checked_Ok in H as [-> Hc].
    pose proof (Hsl 97%nat 113%nat 16%nat ltac:(lia) eq_refl) as H16.
    pose proof (from_be_bound _ (Hby 97%nat 113%nat)) as Hn. rewrite H16 in Hn.
    destruct (H8 81%nat 89%nat) as [Hi Ei]; [lia|done|]. destruct (H8 89%nat 97%nat) as [He Ee]; [lia|done|].
    split; [by constructor|]. split; [done|]. unfold ticket_body.
    cbn [rt_ticket_id rt_route_id rt_host_public_id rt_device_public_id rt_account_id rt_audience
         rt_issued_at_unix rt_expires_at_unix rt_nonce].
    pose proof (be_bytes_from_be _ (Hby 97%nat 113%nat)) as En. rewrite H16 in En.
    rewrite <-E1, <-E2, <-E3, <-E4, <-E5, <-G4, Ei, Ee. unfold uuid_bytes. rewrite En.
    by apply ticket_body_layout.
  - intros (Ht & Hc & ->). clear Hsl Hby H8 Hl Hb. destruct Ht. unfold ticket_of_body, ticket_body, uuid_bytes. slices.
    do 5 (rewrite connect_id_uuid by done; cbn [rbind]). change (nth 0 ([?x] ++ _) 0) with x.
    rewrite (proj2 (audience_of_tag_Ok _ _) eq_refl). cbn [rbind].
    rewrite !from_be_be_bytes by (try done; change (256 ^ N.of_nat 8) with (u64_max + 1); lia).
    unfold route_ticket_new. by destruct t.
Qed.

Section TicketBytes.
Context `{HM : HmacSha256}.

(** C29: A route ticket has one byte form: bytes that arrive are taken as a ticket exactly when they
    are what that ticket encodes to, its identifiers are version 7 UUIDs, it lives at most five
    minutes, and its tag is the one this key gives its claims. *)
Theorem route_ticket_canonical key bytes ticket :
  Forall is_byte bytes ->
  ticket_decode key bytes = Ok ticket <->
  ticket_typed (st_claims ticket) /\ ticket_checked (st_claims ticket) = Ok (st_claims ticket)
  /\ ticket = ticket_issue key (st_claims ticket) /\ ticket_encode ticket = bytes.
Proof.
  intros Hb. unfold ticket_decode. split.
  - intros H. peel H. subst ticket. facts. cbn [st_claims].
    set (split := (length bytes - N.to_nat TICKET_TAG_BYTES)%nat) in *.
    apply strip_prefix_Some in G0.
    apply ticket_of_body_Ok in G2 as (Ht & Hc & Hbody).
    + split; [done|]. split; [done|]. unfold ticket_verify in G3. peel G3.
      cbn [st_claims st_signature] in *. rename select (constant_time_eq _ _ = true) into Hsig.
      apply constant_time_eq_true in Hsig. split; [unfold ticket_issue; by rewrite Hsig|].
      unfold ticket_encode, ticket_bytes. cbn [st_claims st_signature].
      rewrite <-Hbody, <-G0. apply take_drop.
    + clear -G1. change TICKET_BODY_BYTES with 113 in G1. unfold count in G1. lia.
    + apply (Forall_app is_byte ROUTE_TICKET_DOMAIN). rewrite <-G0. by apply Forall_take.
  - intros (Ht & Hc & Hi & He). set (t := st_claims ticket) in *.
    assert (Hlen : length (sign_ticket key t) = 32%nat) by apply hmac_length.
    rewrite Hi in He. unfold ticket_encode, ticket_issue, ticket_bytes in He. cbn [st_claims st_signature] in He.
    assert (Hl : length bytes = (length (ROUTE_TICKET_DOMAIN ++ ticket_body t) + 32)%nat)
      by (rewrite <-He, length_app, Hlen; done).
    rewrite Hl. change (N.to_nat TICKET_TAG_BYTES) with 32%nat. rewrite Nat.add_sub.
    rewrite <-He, take_app_length, drop_app_length.
    rewrite (proj2 (strip_prefix_Some ROUTE_TICKET_DOMAIN _ _) eq_refl). cbn [ok_or rbind].
    assert (Hb' : Forall is_byte (ticket_body t)).
    { rewrite <-He in Hb. rewrite !Forall_app in Hb. tauto. }
    pose proof (length_ticket_body t) as H113. unfold count. rewrite !length_app, H113, Hlen. cbn [guard rbind].
    rewrite (proj2 (ticket_of_body_Ok _ t H113 Hb')) by done. cbn [rbind].
    unfold ticket_verify. cbn [st_claims st_signature]. rewrite (proj2 (constant_time_eq_true _ _) eq_refl). cbn [guard rbind].
    exact (eq_sym (f_equal Ok Hi)).
Qed.
End TicketBytes.

(** ** A ticket for the examples *)

Definition sample_uuid (n : N) : N := from_be [0; 0; 0; 0; 0; n; 0x70; 0; 0x80; 0; 0; 0; 0; 0; 0; n].

Definition sample_claims (audience : TicketAudience) (nonce : N) : RouteTicket :=
  {| rt_ticket_id := sample_uuid nonce; rt_route_id := sample_uuid 2; rt_host_public_id := sample_uuid 3;
     rt_device_public_id := sample_uuid 4; rt_account_id := sample_uuid 5; rt_audience := audience;
     rt_issued_at_unix := 1000; rt_expires_at_unix := 1300; rt_nonce := nonce |}.

Definition sample_key : list N := repeat 7 32.

Definition sample_ticket (audience : TicketAudience) (nonce : N) : SignedRouteTicket :=
  ticket_issue (HM := toy_hmac_sha256) sample_key (sample_claims audience nonce).

Lemma route_ticket_canonical_witness :
  ticket_decode (HM := toy_hmac_sha256) sample_key (ticket_encode (sample_ticket HostSocket 9))
  = Ok (sample_ticket HostSocket 9).
Proof.
  apply (route_ticket_canonical (HM := toy_hmac_sha256)).
  - vm_compute. repeat constructor.
  - split; [|by repeat split]. constructor; first [split; [by apply N.ltb_lt|by vm_compute]|by apply N.ltb_lt|by apply N.leb_le].
Defined.
