(* ===== verification/RelayRuns.v ===== *)
(** What any sequence of calls does to the relay of [Relay.v]: which tickets open a socket, which
    frames pass, in which order they arrive, and how large the relay grows. *)
From S2P Require Import Prelude Canonical Codec Wire SecureFrame Relay.

(** ** One socket of a route *)

Definition socket (r : OpaqueRelay) (route_id : RouteId) (audience : TicketAudience) : option BoundChannel :=
  match or_channels r !! route_id with Some sockets => sockets !! audience | None => None end.

Lemma socket_routes r channels presence route aud :
  socket (or_with_routes r channels presence) route aud
  = match channels !! route with Some sockets => sockets !! aud | None => None end.
Proof. reflexivity. Qed.

Lemma kept_sockets_lookup keep (sockets : Sockets) aud :
  kept_sockets keep sockets !! aud
  = match sockets !! aud with Some c => if keep c then Some c else None | None => None end.
Proof.
  unfold kept_sockets. rewrite map_lookup_filter. destruct (sockets !! aud) as [c|]; [|done]. cbn.
  destruct (keep c) eqn:Hk.
  - by rewrite option_guard_True.
  - by rewrite option_guard_False.
Qed.

Lemma socket_retain keep r route aud :
  socket (retain_sockets keep r) route aud
  = match socket r route aud with Some c => if keep c then Some c else None | None => None end.
Proof.
  unfold retain_sockets. rewrite socket_routes, lookup_omap. unfold socket.
  destruct (or_channels r !! route) as [sockets|]; [|done]. cbn.
  rewrite <-kept_sockets_lookup. case_bool_decide as He; [|done]. by rewrite He, lookup_empty.
Qed.

Lemma socket_expire_presence r now route aud c :
  socket (expire_presence r now) route aud = Some c -> socket r route aud = Some c.
Proof.
  unfold expire_presence. rewrite socket_routes, map_lookup_filter. unfold socket.
  destruct (or_channels r !! route) as [sockets|]; [|done]. cbn.
  destruct (is_some_and (or_presence r !! route) _); [by rewrite option_guard_False|by rewrite option_guard_True].
Qed.

Lemma socket_expire_sockets r now route aud :
  socket (expire_sockets r now) route aud
  = match socket r route aud with
    | Some c => if negb (channel_stale r now c) then Some c else None
    | None => None
    end.
Proof.
  unfold expire_sockets. rewrite socket_routes, lookup_omap. unfold socket.
  destruct (or_channels r !! route) as [sockets|]; [|done]. cbn.
  rewrite <-(kept_sockets_lookup (fun c => negb (channel_stale r now c))).
  destruct (bool_decide _ && _) eqn:He; [|done].
  apply andb_true_iff in He as [He _]. apply bool_decide_eq_true in He. by rewrite He, lookup_empty.
Qed.

Lemma socket_expire_stale r now route aud c :
  socket (expire_stale r now) route aud = Some c ->
  socket r route aud = Some c /\ channel_stale r now c = false.
Proof.
  unfold expire_stale, evict_expired_rate_windows. change (socket (or_with_attempts ?r _)) with (socket r).
  rewrite socket_expire_sockets. destruct (socket (expire_presence r now) route aud) as [d|] eqn:Hd; [|done].
  apply socket_expire_presence in Hd. change (channel_stale (expire_presence r now)) with (channel_stale r).
  destruct (channel_stale r now d) eqn:Hs; [done|]. by intros [= <-].
Qed.

Lemma socket_admit_rate r source now r' a :
  admit_rate r source now = (r', a) ->
  or_channels r' = or_channels r /\ or_signing_key r' = or_signing_key r
  /\ or_revoked_tickets r' = or_revoked_tickets r /\ or_revoked_devices r' = or_revoked_devices r
  /\ or_ticket_overflow r' = or_ticket_overflow r /\ or_device_overflow r' = or_device_overflow r
  /\ or_consumed_nonces r' = or_consumed_nonces r /\ or_max_queue_frames r' = or_max_queue_frames r
  /\ or_max_queue_bytes r' = or_max_queue_bytes r.
Proof. unfold admit_rate. repeat case_match; intros [= <- <-]; done. Qed.

Lemma socket_remember_ticket r ticket_id : socket (remember_revoked_ticket r ticket_id) = socket r.
Proof. unfold remember_revoked_ticket. by case_match. Qed.

Lemma socket_remember_device r device : socket (remember_revoked_device r device) = socket r.
Proof. unfold remember_revoked_device. by case_match. Qed.

Lemma socket_insert r sockets route aud channel presence route' aud' :
  or_channels r !! route = Some sockets ->
  socket (or_with_routes r (<[route := <[aud := channel]> sockets]> (or_channels r)) presence) route' aud'
  = if bool_decide (route = route' /\ aud = aud') then Some channel else socket r route' aud'.
Proof.
  intros Hs. rewrite socket_routes. destruct (decide (route = route')) as [<-|Hr].
  - rewrite lookup_insert_eq. unfold socket. rewrite Hs. destruct (decide (aud = aud')) as [<-|Ha].
    + by rewrite lookup_insert_eq, bool_decide_true.
    + rewrite lookup_insert_ne by done. by rewrite bool_decide_false by naive_solver.
  - rewrite lookup_insert_ne by done. by rewrite bool_decide_false by naive_solver.
Qed.

Section Runs.
Context `{HM : HmacSha256}.

Lemma socket_open r claims now route aud :
  socket (open_socket r claims now) route aud
  = if bool_decide (rt_route_id claims = route /\ rt_audience claims = aud)
    then Some {| bc_claims := claims; bc_queued := []; bc_queued_bytes := 0 |}
    else socket r route aud.
Proof.
  unfold open_socket. rewrite socket_routes. cbn [or_channels or_with_hosts].
  destruct (decide (rt_route_id claims = route)) as [<-|Hr].
  - rewrite lookup_insert_eq. unfold socket. destruct (decide (rt_audience claims = aud)) as [<-|Ha].
    + by rewrite lookup_insert_eq, bool_decide_true.
    + rewrite lookup_insert_ne by done. rewrite bool_decide_false by naive_solver.
      by destruct (or_channels r !! rt_route_id claims).
  - rewrite lookup_insert_ne by done. by rewrite bool_decide_false by naive_solver.
Qed.

Lemma socket_disconnect r route aud route' aud' :
  socket (fst (relay_disconnect r route aud)) route' aud'
  = if bool_decide (route = route' /\ aud = aud') then None else socket r route' aud'.
Proof.
  unfold relay_disconnect, socket. cbn [fst].
  destruct (or_channels r !! route) as [sockets|] eqn:Hs.
  - destruct (decide (route = route')) as [<-|Hr].
    + rewrite Hs. destruct (decide (delete aud sockets = ∅)) as [He|He]; cbn [or_channels or_with_routes].
      * rewrite lookup_delete_eq. case_bool_decide as Hb; [done|].
        rewrite <-(lookup_delete_ne sockets aud aud') by naive_solver. by rewrite He, lookup_empty.
      * rewrite lookup_insert_eq. case_bool_decide as Hb.
        -- destruct Hb as [_ <-]. apply lookup_delete_eq.
        -- by rewrite lookup_delete_ne by naive_solver.
    + rewrite bool_decide_false by naive_solver.
      destruct (decide (delete aud sockets = ∅)); cbn [or_channels or_with_routes].
      * by rewrite lookup_delete_ne by done.
      * by rewrite lookup_insert_ne by done.
  - case_bool_decide as Hb; [|done]. destruct Hb as [<- <-]. by rewrite Hs.
Qed.

(** ** Runs *)

Inductive RelayCall :=
| CallHostOnline (host : HostPublicId) (online : bool)
| CallRevokeTicket (ticket_id : TicketId)
| CallRevokeDevice (device : DevicePublicId)
| CallBind (ticket : SignedRouteTicket) (now_unix : N) (source : RateKey)
| CallAdmit (route_id : RouteId) (from : TicketAudience) (frame : SealedFrame) (now_unix : N)
| CallTake (route_id : RouteId) (audience : TicketAudience)
| CallDisconnect (route_id : RouteId) (audience : TicketAudience).

Inductive RelayReply :=
| ReplyDone
| ReplyObserved (o : result RelayObservation RelayError)
| ReplyFrame (o : result SealedFrame RelayError).

Definition relay_call (r : OpaqueRelay) (call : RelayCall) : OpaqueRelay * RelayReply :=
  match call with
  | CallHostOnline host online => (set_host_online r host online, ReplyDone)
  | CallRevokeTicket ticket_id => (revoke_ticket r ticket_id, ReplyDone)
  | CallRevokeDevice device => (revoke_device r device, ReplyDone)
  | CallBind ticket now_unix source => let '(r, o) := bind r ticket now_unix source in (r, ReplyObserved o)
  | CallAdmit route_id from frame now_unix =>
      let '(r, o) := relay_admit r route_id from frame now_unix in (r, ReplyObserved o)
  | CallTake route_id audience => let '(r, o) := relay_take r route_id audience in (r, ReplyFrame o)
  | CallDisconnect route_id audience =>
      let '(r, o) := relay_disconnect r route_id audience in (r, ReplyObserved (Ok o))
  end.

(** The calls made with their replies, the last call first. *)
Notation Trace := (list (RelayCall * RelayReply)) (only parsing).

Inductive relay_reached (r0 : OpaqueRelay) : OpaqueRelay -> Trace -> Prop :=
| reached_start : relay_reached r0 r0 []
| reached_call r trace call r' reply :
    relay_reached r0 r trace -> relay_call r call = (r', reply) ->
    relay_reached r0 r' ((call, reply) :: trace).

(** *** What a call does to a socket *)

(** What only the owner of the relay changes. *)
Definition relay_control (r : OpaqueRelay) :=
  (or_signing_key r, or_revoked_tickets r, or_revoked_devices r, or_ticket_overflow r, or_device_overflow r).

Lemma bind_inv r ticket now source r' o :
  bind r ticket now source = (r', o) ->
  exists r1 a, (admit_rate (expire_stale r now) source now = (r1, a)) /\ (relay_control r1 = relay_control r)
    /\ ((exists e, r' = r1 /\ o = Err e)
        \/ exists claims, bind_checks r1 ticket now = Ok claims /\ r' = open_socket r1 claims now
           /\ o = Ok {| ro_route_id := rt_route_id claims; ro_frame_bytes := 0; ro_status := RelayBound;
                        ro_error_class := None |}).
Proof.
  unfold bind. destruct (admit_rate (expire_stale r now) source now) as [r1 a] eqn:Ha. intros H.
  exists r1, a. split; [done|]. split.
  { apply socket_admit_rate in Ha as (_ & Hk & Ht & Hd & Hto & Hdo & _). unfold relay_control.
    by rewrite Hk, Ht, Hd, Hto, Hdo. }
  destruct a as [[]|e]; [|simplify_eq; naive_solver].
  destruct (bind_checks r1 ticket now) as [claims|e] eqn:Hc; simplify_eq; [right|left]; eauto.
Qed.

(** The claims of a ticket that opened a socket. *)
Lemma bind_checks_claims r ticket now claims :
  bind_checks r ticket now = Ok claims ->
  claims = st_claims ticket
  /\ (exists key, or_signing_key r = Some key /\ st_signature ticket = sign_ticket key claims)
  /\ (rt_issued_at_unix claims <= now < rt_expires_at_unix claims)
  /\ (rt_ticket_id claims ∉ or_revoked_tickets r) /\ (rt_device_public_id claims ∉ or_revoked_devices r)
  /\ or_ticket_overflow r = false /\ or_device_overflow r = false
  /\ (rt_audience claims = DeviceSocket -> rt_host_public_id claims ∈ or_online_hosts r)
  /\ (rt_nonce claims ∉ or_consumed_nonces r)
  /\ N.of_nat (size (or_consumed_nonces r)) < MAX_RELAY_CONSUMED_NONCES
  /\ (or_channels r !! rt_route_id claims = None -> msize (or_channels r) < MAX_RELAY_ROUTES).
Proof.
  unfold bind_checks, ticket_verify. intros H. peel H. peel G0. simplify_eq. facts.
  rewrite ?bool_decide_eq_true, ?bool_decide_eq_false in *.
  rename select (constant_time_eq _ _ = true) into Hsig. apply constant_time_eq_true in Hsig.
  split; [done|]. split; [by exists x|]. split; [lia|]. do 4 (split; [done|]).
  split; [by intros; destruct G5|]. split; [done|]. split; [by destruct G6|].
  intros Hn. rewrite Hn in G7. by destruct G7.
Qed.

Lemma socket_bind r ticket now source r' o route aud c :
  bind r ticket now source = (r', o) -> socket r' route aud = Some c ->
  socket r route aud = Some c
  \/ exists r1, bind_checks r1 ticket now = Ok (bc_claims c) /\ relay_control r1 = relay_control r
       /\ rt_route_id (bc_claims c) = route /\ rt_audience (bc_claims c) = aud
       /\ (exists obs, o = Ok obs) /\ bc_queued c = [] /\ bc_queued_bytes c = 0.
Proof.
  intros H Hs. apply bind_inv in H as (r1 & a & Ha & Hctl & H).
  assert (Hold : socket r1 route aud = Some c -> socket r route aud = Some c).
  { unfold socket. apply socket_admit_rate in Ha as (-> & _). intros Hc. by apply socket_expire_stale in Hc as [? _]. }
  destruct H as [(e & -> & ->)|(claims & Hb & -> & ->)]; [by left; apply Hold|].
  rewrite socket_open in Hs. case_bool_decide as Hat; [|by left; apply Hold].
  right. exists r1. injection Hs as <-. destruct Hat. cbn [bc_claims bc_queued bc_queued_bytes]. eauto 10.
Qed.

Lemma admit_inv r route from frame now r' o :
  relay_admit r route from frame now = (r', o) ->
  (r' = expire_stale r now
   /\ (forall obs, o = Ok obs -> ro_status obs = RelayDropped))
  \/ exists sockets peer obs, admit_checks (expire_stale r now) route from frame now = Ok (sockets, peer)
       /\ o = Ok obs /\ ro_status obs = RelayForwarded
       /\ count (bc_queued peer) < or_max_queue_frames r
       /\ saturating_add_u32 (bc_queued_bytes peer) (frame_len frame u32_max) <= or_max_queue_bytes r
       /\ r' = or_with_routes (expire_stale r now)
                 (<[route := <[other_audience from :=
                     {| bc_claims := bc_claims peer; bc_queued := bc_queued peer ++ [frame];
                        bc_queued_bytes := saturating_add_u32 (bc_queued_bytes peer) (frame_len frame u32_max) |}]>
                     sockets]> (or_channels (expire_stale r now)))
                 (alter (fun _ => saturating_add now PRESENCE_TTL_SECS) route (or_presence (expire_stale r now))).
Proof.
  unfold relay_admit. destruct (admit_checks _ route from frame now) as [[sockets peer]|e] eqn:Hc.
  2: { intros H. simplify_eq. left. naive_solver. }
  destruct (_ || _) eqn:Hq; intros H; simplify_eq.
  - left. split; [done|]. intros obs [= <-]. done.
  - right. apply orb_false_iff in Hq as [Hq1 Hq2]. apply N.leb_gt in Hq1. apply N.ltb_ge in Hq2.
    exists sockets, peer. eexists. repeat split; eauto.
Qed.

(** What holds at both ends when a frame passes. *)
Lemma admit_checks_inv r route from frame now sockets peer :
  admit_checks r route from frame now = Ok (sockets, peer) ->
  or_channels r !! route = Some sockets
  /\ (exists source, sockets !! from = Some source /\ channel_live r source now = Ok tt
        /\ rt_host_public_id (bc_claims (match from with DeviceSocket => source | HostSocket => peer end))
           ∈ or_online_hosts r)
  /\ sockets !! other_audience from = Some peer /\ channel_live r peer now = Ok tt
  /\ frame_len frame u32_max <= MAX_SEALED_FRAME_BYTES /\ sealed_validate frame = Ok tt.
Proof.
  unfold admit_checks. intros H. peel H. simplify_eq. facts.
  rewrite ?bool_decide_eq_true in *. split; [done|]. split; [by eexists|].
  repeat (split; [done|]). by destruct (sealed_validate frame) as [[]|].
Qed.
(** The frames a call queued for a socket, and those it handed to it. *)
Definition accepted_by (route : RouteId) (aud : TicketAudience) (entry : RelayCall * RelayReply) : list SealedFrame :=
  match entry with
  | (CallAdmit route' from frame _, ReplyObserved (Ok obs)) =>
      match ro_status obs with
      | RelayForwarded => if bool_decide (route' = route /\ other_audience from = aud) then [frame] else []
      | _ => []
      end
  | _ => []
  end.

Definition delivered_by (route : RouteId) (aud : TicketAudience) (entry : RelayCall * RelayReply) : list SealedFrame :=
  match entry with
  | (CallTake route' aud', ReplyFrame (Ok frame)) =>
      if bool_decide (route' = route /\ aud' = aud) then [frame] else []
  | _ => []
  end.

Definition queue (r : OpaqueRelay) (route : RouteId) (aud : TicketAudience) : list SealedFrame :=
  match socket r route aud with Some channel => bc_queued channel | None => [] end.

Lemma queue_kept (r r' : OpaqueRelay) route aud :
  (forall c, socket r' route aud = Some c -> socket r route aud = Some c) ->
  queue r' route aud = queue r route aud \/ queue r' route aud = [].
Proof.
  intros H. unfold queue. destruct (socket r' route aud) as [c|]; [|by right]. left. by rewrite (H c).
Qed.

Lemma queue_retain keep r route aud :
  queue (retain_sockets keep r) route aud = queue r route aud \/ queue (retain_sockets keep r) route aud = [].
Proof.
  apply queue_kept. intros c. rewrite socket_retain. destruct (socket r route aud) as [d|]; [|done].
  by destruct (keep d).
Qed.

(** A call lengthens or shortens a queue only at its ends, unless it empties it. *)
Lemma call_queue r call r' reply route aud :
  relay_call r call = (r', reply) ->
  exists q, (q = queue r route aud \/ q = [])
    /\ q ++ accepted_by route aud (call, reply) = delivered_by route aud (call, reply) ++ queue r' route aud.
Proof.
  intros H. destruct call as [host online|ticket_id|device|ticket now source|route0 from frame now|route0 aud0|route0 aud0];
    unfold relay_call in H.
  - simplify_eq. exists (queue (set_host_online r host online) route aud). rewrite app_nil_r. split; [|done].
    unfold set_host_online. destruct online; [by left|].
    apply (queue_retain _ (or_with_hosts r _ _)).
  - simplify_eq. exists (queue (revoke_ticket r ticket_id) route aud). rewrite app_nil_r. split; [|done].
    unfold revoke_ticket, drop_ticket, revoke_device. destruct (queue_retain (fun c => negb (rt_ticket_id (bc_claims c) =? ticket_id))
                (remember_revoked_ticket r ticket_id) route aud) as [->| ->]; [left|by right].
    unfold remember_revoked_ticket. by case_match.
  - simplify_eq. exists (queue (revoke_device r device) route aud). rewrite app_nil_r. split; [|done].
    unfold revoke_ticket, drop_ticket, revoke_device. destruct (queue_retain (fun c => negb (rt_device_public_id (bc_claims c) =? device))
                (remember_revoked_device r device) route aud) as [->| ->]; [left|by right].
    unfold remember_revoked_device. by case_match.
  - destruct (bind r ticket now source) as [r1 o] eqn:Hb. simplify_eq.
    exists (queue r' route aud). rewrite app_nil_r. split; [|by destruct o].
    unfold queue. destruct (socket r' route aud) as [c|] eqn:Hc; [|by right].
    destruct (socket_bind _ _ _ _ _ _ _ _ _ Hb Hc) as [->|(_ & _ & _ & _ & _ & _ & -> & _)]; [by left|by right].
  - destruct (relay_admit r route0 from frame now) as [r1 o] eqn:Ha. simplify_eq.
    pose proof (queue_kept r (expire_stale r now) route aud
                  (fun c Hc => proj1 (socket_expire_stale r now route aud c Hc))) as Hk.
    apply admit_inv in Ha as [[-> Hst]|(sockets & peer & obs & Hc & -> & Hst & _ & _ & ->)].
    + exists (queue (expire_stale r now) route aud). split; [done|]. destruct o as [obs|]; cbn.
      * rewrite (Hst obs) by done. by rewrite app_nil_r.
      * by rewrite app_nil_r.
    + exists (queue (expire_stale r now) route aud). split; [done|]. cbn. rewrite Hst.
      apply admit_checks_inv in Hc as (Hr & _ & Hp & _).
      unfold queue. rewrite socket_insert by done. case_bool_decide as Hat; [|by rewrite app_nil_r].
      destruct Hat as [<- <-]. unfold socket. by rewrite Hr, Hp.
  - destruct (relay_take r route0 aud0) as [r1 o] eqn:Ht. simplify_eq. unfold relay_take in Ht.
    exists (queue r route aud). split; [by left|]. cbn [accepted_by]. rewrite app_nil_r.
    destruct (or_channels r !! route0) as [sockets|] eqn:Hr; [|by simplify_eq].
    destruct (sockets !! aud0) as [c|] eqn:Hs; [|by simplify_eq].
    destruct (bc_queued c) as [|frame queued] eqn:Hq; simplify_eq; [done|]. cbn.
    unfold queue. rewrite socket_insert by done. case_bool_decide as Hat; [|done].
    destruct Hat as [<- <-]. unfold socket. by rewrite Hr, Hs.
  - destruct (relay_disconnect r route0 aud0) as [r1 o] eqn:Hd. simplify_eq.
    exists (queue (fst (relay_disconnect r route0 aud0)) route aud). cbn [accepted_by].
    rewrite app_nil_r. split; [|by rewrite Hd]. apply queue_kept. intros c. rewrite socket_disconnect.
    by case_bool_decide.
Qed.

(** The frames of a whole trace, first to last. *)
Fixpoint accepted (route : RouteId) (aud : TicketAudience) (trace : list (RelayCall * RelayReply)) : list SealedFrame :=
  match trace with [] => [] | entry :: earlier => accepted route aud earlier ++ accepted_by route aud entry end.

Fixpoint delivered (route : RouteId) (aud : TicketAudience) (trace : list (RelayCall * RelayReply)) : list SealedFrame :=
  match trace with [] => [] | entry :: earlier => delivered route aud earlier ++ delivered_by route aud entry end.

(** C28: Whatever is called on a new relay, in whatever order, the frames a socket took and those
    still queued for it are, in that order and each once, among the frames the other end of the
    same route had forwarded to it: nothing is reordered, duplicated, invented or passed to
    another route or back to its sender. *)
Theorem relay_keeps_order_per_route key max_frames max_bytes r trace route aud :
  relay_reached (with_queue_bounds (with_signing_key key) max_frames max_bytes) r trace ->
  sublist (delivered route aud trace ++ queue r route aud) (accepted route aud trace).
Proof.
  intros H. induction H as [|r trace call r' reply Hr IH Hcall]; [done|].
  destruct (call_queue _ _ _ _ route aud Hcall) as (q & Hq & Happ).
  cbn [delivered accepted]. rewrite <-app_assoc, <-Happ, app_assoc.
  apply sublist_app; [|done]. destruct Hq as [-> | ->]; [done|]. rewrite app_nil_r.
  etrans; [|exact IH]. by apply sublist_inserts_r.
Qed.

(** *** Who a socket belongs to *)

Lemma socket_kept_claims (r r' : OpaqueRelay) :
  (forall route aud c, socket r' route aud = Some c -> socket r route aud = Some c) ->
  forall route aud c', socket r' route aud = Some c' ->
    exists c, socket r route aud = Some c /\ bc_claims c' = bc_claims c.
Proof. intros H route aud c' Hc. exists c'. split; [by apply H|done]. Qed.

(** A socket was there before the call, under the same ticket, or the call bound its ticket. *)
Lemma call_socket r call r' reply route aud c' :
  relay_call r call = (r', reply) -> socket r' route aud = Some c' ->
  (exists c, socket r route aud = Some c /\ bc_claims c' = bc_claims c)
  \/ (exists ticket now source r1 obs, call = CallBind ticket now source /\ reply = ReplyObserved (Ok obs)
        /\ bind_checks r1 ticket now = Ok (bc_claims c') /\ (relay_control r1 = relay_control r)
        /\ rt_route_id (bc_claims c') = route /\ rt_audience (bc_claims c') = aud).
Proof.
  intros H Hc. destruct call as [host online|ticket_id|device|ticket now source|route0 from frame now|route0 aud0|route0 aud0];
    unfold relay_call in H.
  - left. simplify_eq. exists c'. split; [|done]. unfold set_host_online in Hc. destruct online; [done|].
    rewrite socket_retain in Hc. change (socket (or_with_hosts r _ _)) with (socket r) in Hc.
    destruct (socket r route aud); [|done]. by case_match.
  - left. simplify_eq. exists c'. split; [|done]. unfold revoke_ticket, drop_ticket in Hc.
    rewrite socket_retain, socket_remember_ticket in Hc. destruct (socket r route aud); [|done]. by case_match.
  - left. simplify_eq. exists c'. split; [|done]. unfold revoke_device in Hc.
    rewrite socket_retain, socket_remember_device in Hc. destruct (socket r route aud); [|done]. by case_match.
  - destruct (bind r ticket now source) as [r2 o] eqn:Hb. simplify_eq.
    destruct (socket_bind _ _ _ _ _ _ _ _ _ Hb Hc) as [Hold|(r1 & Hch & Hctl & Hr & Ha & [obs ->] & _)].
    + left. by exists c'.
    + right. exists ticket, now, source, r1, obs. by repeat split.
  - left. destruct (relay_admit r route0 from frame now) as [r1 o] eqn:Ha. simplify_eq.
    apply admit_inv in Ha as [[-> _]|(sockets & peer & obs & Hch & -> & _ & _ & _ & ->)].
    + exists c'. split; [|done]. by apply socket_expire_stale in Hc as [? _].
    + apply admit_checks_inv in Hch as (Hr & _ & Hp & _). rewrite socket_insert in Hc by done.
      case_bool_decide as Hat.
      * injection Hc as <-. destruct Hat as [<- <-]. exists peer. split; [|done].
        apply (socket_expire_stale r now). unfold socket. by rewrite Hr.
      * exists c'. split; [|done]. by apply socket_expire_stale in Hc as [? _].
  - left. destruct (relay_take r route0 aud0) as [r1 o] eqn:Ht. simplify_eq. unfold relay_take in Ht.
    destruct (or_channels r !! route0) as [sockets|] eqn:Hr; [|simplify_eq; by exists c'].
    destruct (sockets !! aud0) as [c|] eqn:Hs; [|simplify_eq; by exists c'].
    destruct (bc_queued c) as [|frame queued] eqn:Hq; simplify_eq; [by exists c'|].
    rewrite socket_insert in Hc by done. case_bool_decide as Hat; [|by exists c'].
    injection Hc as <-. destruct Hat as [<- <-]. exists c. split; [|done]. unfold socket. by rewrite Hr.
  - left. destruct (relay_disconnect r route0 aud0) as [r1 o] eqn:Hd. simplify_eq.
    pose proof (socket_disconnect r route0 aud0 route aud) as Hs. rewrite Hd in Hs. cbn [fst] in Hs.
    rewrite Hs in Hc. case_bool_decide; [done|]. by exists c'.
Qed.

(** No socket can be bound under the ticket, or by the device, any more. *)
Definition ticket_out (r : OpaqueRelay) (ticket_id : TicketId) : Prop :=
  ticket_id ∈ or_revoked_tickets r \/ or_ticket_overflow r = true.

Definition device_out (r : OpaqueRelay) (device : DevicePublicId) : Prop :=
  device ∈ or_revoked_devices r \/ or_device_overflow r = true.

(** A call keeps every revocation and adds its own. *)
Lemma call_control r call r' reply :
  relay_call r call = (r', reply) ->
  or_signing_key r' = or_signing_key r
  /\ (forall t, ticket_out r t \/ call = CallRevokeTicket t -> ticket_out r' t)
  /\ (forall d, device_out r d \/ call = CallRevokeDevice d -> device_out r' d).
Proof.
  assert (Hctl : forall r1, relay_control r1 = relay_control r ->
    or_signing_key r1 = or_signing_key r /\ (forall t, ticket_out r t -> ticket_out r1 t)
    /\ (forall d, device_out r d -> device_out r1 d)).
  { intros r1 [= Hk Ht Hd Hto Hdo]. unfold ticket_out, device_out. by rewrite Hk, Ht, Hd, Hto, Hdo. }
  intros H. destruct call as [host online|ticket_id|device|ticket now source|route0 from frame now|route0 aud0|route0 aud0];
    unfold relay_call in H.
  - simplify_eq. destruct (Hctl (set_host_online r host online)) as (? & ? & ?); [by destruct online|]. naive_solver.
  - simplify_eq. unfold revoke_ticket, drop_ticket, remember_revoked_ticket, ticket_out, device_out.
    destruct (_ && _) eqn:Hfull; cbn [retain_sockets or_with_routes or_with_revoked or_signing_key
      or_revoked_tickets or_revoked_devices or_ticket_overflow or_device_overflow]; set_solver.
  - simplify_eq. unfold revoke_device, remember_revoked_device, ticket_out, device_out.
    destruct (_ && _) eqn:Hfull; cbn [retain_sockets or_with_routes or_with_revoked or_signing_key
      or_revoked_tickets or_revoked_devices or_ticket_overflow or_device_overflow]; set_solver.
  - destruct (bind r ticket now source) as [r2 o] eqn:Hb. simplify_eq.
    apply bind_inv in Hb as (r1 & a & _ & Hr1 & Hor). destruct (Hctl r') as (? & ? & ?); [|naive_solver].
    by destruct Hor as [(e & -> & ->)|(claims & _ & -> & ->)].
  - destruct (relay_admit r route0 from frame now) as [r1 o] eqn:Ha. simplify_eq.
    destruct (Hctl r') as (? & ? & ?); [|naive_solver].
    by apply admit_inv in Ha as [[-> _]|(sockets & peer & obs & _ & _ & _ & _ & _ & ->)].
  - destruct (relay_take r route0 aud0) as [r1 o] eqn:Ht. simplify_eq.
    destruct (Hctl r') as (? & ? & ?); [|naive_solver]. unfold relay_take in Ht. repeat case_match; by simplify_eq.
  - destruct (relay_disconnect r route0 aud0) as [r1 o] eqn:Hd. simplify_eq.
    destruct (Hctl r') as (? & ? & ?); [|naive_solver]. unfold relay_disconnect in Hd. repeat case_match; by simplify_eq.
Qed.

Lemma revoked_drops r ticket_id route aud c :
  socket (revoke_ticket r ticket_id) route aud = Some c -> rt_ticket_id (bc_claims c) <> ticket_id.
Proof.
  unfold revoke_ticket, drop_ticket. rewrite socket_retain. destruct (socket _ route aud) as [d|]; [|done].
  destruct (N.eqb_spec (rt_ticket_id (bc_claims d)) ticket_id); cbn; [done|]. by intros [= <-].
Qed.

Lemma revoked_device_drops r device route aud c :
  socket (revoke_device r device) route aud = Some c -> rt_device_public_id (bc_claims c) <> device.
Proof.
  unfold revoke_device. rewrite socket_retain. destruct (socket _ route aud) as [d|]; [|done].
  destruct (N.eqb_spec (rt_device_public_id (bc_claims d)) device); cbn; [done|]. by intros [= <-].
Qed.

(** The ticket a socket stands for: bound on this route, signed, and never revoked. *)
Record socket_admitted (key : list N) (trace : list (RelayCall * RelayReply)) (route : RouteId)
    (aud : TicketAudience) (claims : RouteTicket) : Prop := {
  sa_bound : exists ticket bound_at source obs,
    (CallBind ticket bound_at source, ReplyObserved (Ok obs)) ∈ trace
    /\ st_claims ticket = claims /\ st_signature ticket = sign_ticket key claims;
  sa_route : rt_route_id claims = route;
  sa_audience : rt_audience claims = aud;
  sa_ticket : forall reply, (CallRevokeTicket (rt_ticket_id claims), reply) ∉ trace;
  sa_device : forall reply, (CallRevokeDevice (rt_device_public_id claims), reply) ∉ trace;
}.

Lemma reached_admitted key max_frames max_bytes r trace :
  relay_reached (with_queue_bounds (with_signing_key key) max_frames max_bytes) r trace ->
  or_signing_key r = Some key
  /\ (forall t reply, (CallRevokeTicket t, reply) ∈ trace -> ticket_out r t)
  /\ (forall d reply, (CallRevokeDevice d, reply) ∈ trace -> device_out r d)
  /\ (forall route aud c, socket r route aud = Some c -> socket_admitted key trace route aud (bc_claims c)).
Proof.
  intros H. induction H as [|r trace call r' reply Hr (Hkey & Ht & Hd & Hs) Hcall].
  { split_and!; [done|set_solver|set_solver|]. intros route aud c. unfold socket. cbn. by rewrite lookup_empty. }
  destruct (call_control _ _ _ _ Hcall) as (Hk' & Ht' & Hd'). split_and!.
  - by rewrite Hk'.
  - intros t rp [[= <- <-]|Hin]%elem_of_cons; apply Ht'; [by right|left; by eapply Ht].
  - intros d rp [[= <- <-]|Hin]%elem_of_cons; apply Hd'; [by right|left; by eapply Hd].
  - intros route aud c' Hc'.
    destruct (call_socket _ _ _ _ _ _ _ Hcall Hc') as [(c & Hc & Hcl)|(ticket & now & source & r1 & obs & -> & -> & Hb & Hctl & Hro & Hau)].
    + destruct (Hs _ _ _ Hc) as [(ticket & at_ & source & obs & Hin & Hst & Hsig) Hro Hau Hti Hde]. rewrite <-Hcl in *.
      constructor; [|done|done| |].
      * exists ticket, at_, source, obs. split; [by right|done].
      * intros rp [[= Heq Hrp]|Hin']%elem_of_cons; [|by eapply Hti]. subst call. cbn in Hcall. injection Hcall as <- <-.
        by apply revoked_drops in Hc'.
      * intros rp [[= Heq Hrp]|Hin']%elem_of_cons; [|by eapply Hde]. subst call. cbn in Hcall. injection Hcall as <- <-.
        by apply revoked_device_drops in Hc'.
    + apply bind_checks_claims in Hb as (Hst & (key' & Hkey' & Hsig) & _ & Hnt & Hnd & Hto & Hdo & _).
      injection Hctl as Hk Ht1 Hd1 Hto1 Hdo1. rewrite Hk, Hkey in Hkey'. injection Hkey' as <-.
      constructor; [|done|done| |].
      * exists ticket, now, source, obs. split; [by left|done].
      * intros rp [[=]|Hin']%elem_of_cons. destruct (Ht _ _ Hin') as [Hin|Hov]; congruence.
      * intros rp [[=]|Hin']%elem_of_cons. destruct (Hd _ _ Hin') as [Hin|Hov]; congruence.
Qed.

(** C27: On a relay with a signing key, after any calls, a frame is forwarded only between the two
    sockets of one route, each opened by a ticket of that route and audience that this relay's key
    had signed, that is within its lifetime now, and whose ticket and device have never been
    revoked, not even after the bounded index of revocations filled up. *)
Theorem frames_pass_between_admitted_sockets key max_frames max_bytes r trace route from frame now r' obs :
  relay_reached (with_queue_bounds (with_signing_key key) max_frames max_bytes) r trace ->
  relay_admit r route from frame now = (r', Ok obs) -> ro_status obs = RelayForwarded ->
  forall aud, exists claims,
    socket_admitted key trace route aud claims
    /\ rt_issued_at_unix claims <= now < rt_expires_at_unix claims.
Proof.
  intros Hr Ha Hst. destruct (reached_admitted _ _ _ _ _ Hr) as (_ & _ & _ & Hs).
  apply admit_inv in Ha as [[_ Hd]|(sockets & peer & obs' & Hc & _)]; [by rewrite Hd in Hst|].
  apply admit_checks_inv in Hc as (Hro & (source & Hso & Hls & _) & Hp & Hlp & _).
  assert (Hone : forall aud c, sockets !! aud = Some c -> channel_live (expire_stale r now) c now = Ok tt ->
    socket_admitted key trace route aud (bc_claims c)
    /\ rt_issued_at_unix (bc_claims c) <= now < rt_expires_at_unix (bc_claims c)).
  { intros aud c Hc Hl. split.
    - apply Hs. apply (socket_expire_stale r now). unfold socket. by rewrite Hro.
    - unfold channel_live in Hl. peel Hl. facts. lia. }
  intros aud. destruct (decide (aud = from)) as [->|Hne]; [eauto|].
  exists (bc_claims peer). apply Hone; [|done]. by destruct aud, from.
Qed.

(** *** Each ticket opens one socket *)

Definition bound_nonce (entry : RelayCall * RelayReply) : list N :=
  match entry with
  | (CallBind ticket _ _, ReplyObserved (Ok _)) => [rt_nonce (st_claims ticket)]
  | _ => []
  end.

Lemma call_nonces r call r' reply :
  relay_call r call = (r', reply) ->
  (bound_nonce (call, reply) = [] /\ or_consumed_nonces r' = or_consumed_nonces r)
  \/ exists nonce, bound_nonce (call, reply) = [nonce] /\ (nonce ∉ or_consumed_nonces r)
       /\ or_consumed_nonces r' = {[nonce]} ∪ or_consumed_nonces r
       /\ N.of_nat (size (or_consumed_nonces r)) < MAX_RELAY_CONSUMED_NONCES.
Proof.
  intros H. destruct call as [host online|ticket_id|device|ticket now source|route0 from frame now|route0 aud0|route0 aud0];
    unfold relay_call in H; cbn [bound_nonce].
  - left. simplify_eq. by destruct online.
  - left. simplify_eq. unfold revoke_ticket, remember_revoked_ticket. by case_match.
  - left. simplify_eq. unfold revoke_device, remember_revoked_device. by case_match.
  - destruct (bind r ticket now source) as [r2 o] eqn:Hb. simplify_eq.
    apply bind_inv in Hb as (r1 & a & Ha & _ & Hor). apply socket_admit_rate in Ha as (_ & _ & _ & _ & _ & _ & Hn & _).
    destruct Hor as [(e & -> & ->)|(claims & Hch & -> & ->)]; [by left|]. right.
    apply bind_checks_claims in Hch as (-> & _ & _ & _ & _ & _ & _ & _ & Hfresh & Hsize & _). rewrite Hn in *.
    eexists. split; [done|]. split; [done|]. split; [|done]. cbn. by rewrite Hn.
  - left. destruct (relay_admit r route0 from frame now) as [r1 o] eqn:Ha. simplify_eq.
    by apply admit_inv in Ha as [[-> _]|(sockets & peer & obs & _ & _ & _ & _ & _ & ->)].
  - left. destruct (relay_take r route0 aud0) as [r1 o] eqn:Ht. simplify_eq.
    unfold relay_take in Ht. repeat case_match; by simplify_eq.
  - left. destruct (relay_disconnect r route0 aud0) as [r1 o] eqn:Hd. simplify_eq.
    unfold relay_disconnect in Hd. repeat case_match; by simplify_eq.
Qed.

(** However the relay is called, no two binds that succeed carry the same nonce: a route ticket
    opens one socket, even after that socket is gone. *)
Theorem tickets_bind_once key max_frames max_bytes r trace :
  relay_reached (with_queue_bounds (with_signing_key key) max_frames max_bytes) r trace ->
  NoDup (trace ≫= bound_nonce).
Proof.
  intros H. cut (NoDup (trace ≫= bound_nonce) /\ forall n, n ∈ trace ≫= bound_nonce -> n ∈ or_consumed_nonces r);
    [by intros [? _]|].
  induction H as [|r trace call r' reply Hr [IHd IHc] Hcall]; [split; [constructor|set_solver]|].
  rewrite bind_cons. destruct (call_nonces _ _ _ _ Hcall) as [[-> ->]|(nonce & -> & Hn & -> & _)]; [done|].
  split; [constructor; [|done]; intros Hin; by apply IHc in Hin|].
  intros n [-> |Hin]%elem_of_cons; [set_solver|]. apply IHc in Hin. set_solver.
Qed.

(** *** How large the relay grows *)

(** A route has a presence record exactly while it has a socket. *)
Definition routes_present (r : OpaqueRelay) : Prop :=
  forall route, match or_channels r !! route, or_presence r !! route with
                | Some sockets, Some _ => sockets <> ∅
                | None, None => True
                | _, _ => False
                end.

Lemma routes_with_hosts r hosts nonces : routes_present (or_with_hosts r hosts nonces) <-> routes_present r.
Proof. done. Qed.

Lemma routes_with_attempts r attempts : routes_present (or_with_attempts r attempts) <-> routes_present r.
Proof. done. Qed.

Lemma routes_retain keep r : routes_present r -> routes_present (retain_sockets keep r).
Proof.
  intros H route. specialize (H route). unfold retain_sockets. cbn [or_channels or_presence or_with_routes].
  rewrite lookup_omap, map_lookup_filter.
  destruct (or_channels r !! route) as [sockets|] eqn:Hc, (or_presence r !! route) as [at_|]; try done; cbn.
  rewrite Hc. case_bool_decide as He; cbn; [by rewrite option_guard_False|by rewrite option_guard_True].
Qed.

Lemma routes_expire_presence r now : routes_present r -> routes_present (expire_presence r now).
Proof.
  intros H route. specialize (H route). unfold expire_presence. cbn [or_channels or_presence or_with_routes].
  rewrite !map_lookup_filter.
  destruct (or_channels r !! route) as [sockets|] eqn:Hc, (or_presence r !! route) as [at_|] eqn:Hp; try done; cbn.
  rewrite Hp. cbn. destruct (at_ <=? now) eqn:He.
  - apply N.leb_le in He. rewrite option_guard_False by done. by rewrite option_guard_False by lia.
  - apply N.leb_gt in He. rewrite option_guard_True by done. by rewrite option_guard_True by lia.
Qed.

Lemma routes_expire_sockets r now : routes_present r -> routes_present (expire_sockets r now).
Proof.
  intros H route. specialize (H route). unfold expire_sockets. cbn [or_channels or_presence or_with_routes].
  rewrite lookup_omap, map_lookup_filter.
  destruct (or_channels r !! route) as [sockets|] eqn:Hc, (or_presence r !! route) as [at_|] eqn:Hp; try done; cbn.
  rewrite Hc. cbn. rewrite (bool_decide_false (sockets = ∅)) by done. cbn. rewrite andb_true_r.
  case_bool_decide as He; [by rewrite option_guard_False|by rewrite option_guard_True].
Qed.

Lemma routes_expire r now : routes_present r -> routes_present (expire_stale r now).
Proof. intros H. by apply routes_with_attempts, routes_expire_sockets, routes_expire_presence. Qed.

Lemma routes_insert r route sockets aud channel :
  routes_present r -> or_channels r !! route = Some sockets ->
  routes_present (or_with_routes r (<[route := <[aud := channel]> sockets]> (or_channels r)) (or_presence r)).
Proof.
  intros H Hs route'. specialize (H route'). cbn. destruct (decide (route = route')) as [<-|Hr].
  - rewrite lookup_insert_eq. rewrite Hs in H. destruct (or_presence r !! route); [|done]. apply insert_non_empty.
  - by rewrite lookup_insert_ne.
Qed.

Lemma routes_alter r f route :
  routes_present r -> routes_present (or_with_routes r (or_channels r) (alter f route (or_presence r))).
Proof.
  intros H route'. specialize (H route'). cbn. destruct (decide (route = route')) as [<-|Hr].
  - rewrite lookup_alter_eq. by destruct (or_presence r !! route).
  - by rewrite lookup_alter_ne.
Qed.

Lemma call_routes r call r' reply :
  relay_call r call = (r', reply) -> routes_present r -> routes_present r'.
Proof.
  intros H Hp. destruct call as [host online|ticket_id|device|ticket now source|route0 from frame now|route0 aud0|route0 aud0];
    unfold relay_call in H.
  - simplify_eq. unfold set_host_online. destruct online; [done|]. by apply routes_retain.
  - simplify_eq. unfold revoke_ticket, remember_revoked_ticket. apply routes_retain. by case_match.
  - simplify_eq. unfold revoke_device, remember_revoked_device. apply routes_retain. by case_match.
  - destruct (bind r ticket now source) as [r2 o] eqn:Hb. simplify_eq.
    apply bind_inv in Hb as (r1 & a & Ha & _ & Hor).
    assert (Hp1 : routes_present r1).
    { apply (routes_expire r now) in Hp. unfold admit_rate in Ha. repeat case_match; by simplify_eq. }
    destruct Hor as [(e & -> & ->)|(claims & _ & -> & ->)]; [done|]. intros route. specialize (Hp1 route). cbn.
    destruct (decide (rt_route_id claims = route)) as [<-|Hr].
    + rewrite !lookup_insert_eq. apply insert_non_empty.
    + by rewrite !lookup_insert_ne.
  - destruct (relay_admit r route0 from frame now) as [r1 o] eqn:Ha. simplify_eq.
    apply (routes_expire r now) in Hp.
    apply admit_inv in Ha as [[-> _]|(sockets & peer & obs & Hc & _ & _ & _ & _ & ->)]; [done|].
    apply admit_checks_inv in Hc as (Hr & _). 
    match goal with |- routes_present (or_with_routes _ (<[_ := <[_ := ?ch]> _]> _) _) =>
      pose proof (routes_insert _ _ _ (other_audience from) ch Hp Hr) as Hi end.
    exact (routes_alter _ (fun _ => saturating_add now PRESENCE_TTL_SECS) route0 Hi).
  - destruct (relay_take r route0 aud0) as [r1 o] eqn:Ht. simplify_eq. unfold relay_take in Ht.
    destruct (or_channels r !! route0) as [sockets|] eqn:Hr; [|by simplify_eq].
    repeat case_match; simplify_eq; try done. by apply routes_insert.
  - destruct (relay_disconnect r route0 aud0) as [r1 o] eqn:Hd. unfold relay_disconnect in Hd. simplify_eq.
    destruct (or_channels r !! route0) as [sockets|] eqn:Hr; [|done].
    destruct (decide (delete aud0 sockets = ∅)) as [He|He]; intros route; specialize (Hp route); cbn.
    + destruct (decide (route0 = route)) as [<-|Hne]; [by rewrite !lookup_delete_eq|by rewrite !lookup_delete_ne].
    + destruct (decide (route0 = route)) as [<-|Hne]; [|by rewrite lookup_insert_ne].
      rewrite lookup_insert_eq. rewrite Hr in Hp. by destruct (or_presence r !! route0).
Qed.

Lemma size_le_keys {K A B} `{Countable K} (m : gmap K A) (m' : gmap K B) :
  (forall k, is_Some (m' !! k) -> is_Some (m !! k)) -> (size m' <= size m)%nat.
Proof.
  intros Hk. rewrite <-(size_dom m), <-(size_dom m') by done. apply subseteq_size. intros k.
  rewrite !elem_of_dom. apply Hk.
Qed.

Lemma msize_le_keys {A B} (m : gmap N A) (m' : gmap N B) :
  (forall k, is_Some (m' !! k) -> is_Some (m !! k)) -> msize m' <= msize m.
Proof. intros H%size_le_keys. unfold msize. lia. Qed.

Lemma retain_size keep r : msize (or_channels (retain_sockets keep r)) <= msize (or_channels r).
Proof.
  apply msize_le_keys. intros route. cbn.
  rewrite lookup_omap. by destruct (or_channels r !! route).
Qed.

Lemma expire_size r now : msize (or_channels (expire_stale r now)) <= msize (or_channels r).
Proof.
  apply msize_le_keys. intros route. cbn.
  rewrite lookup_omap, map_lookup_filter. by destruct (or_channels r !! route).
Qed.

Lemma evict_size r now :
  (size (or_bind_attempts (evict_expired_rate_windows r now)) <= size (or_bind_attempts r))%nat.
Proof.
  apply size_le_keys. intros key. cbn. rewrite map_lookup_filter. by destruct (or_bind_attempts r !! key).
Qed.

Lemma attempts_insert_size r source window :
  rate_keys_full r source = false -> N.of_nat (size (or_bind_attempts r)) <= MAX_RELAY_RATE_KEYS ->
  N.of_nat (size (<[source := window]> (or_bind_attempts r))) <= MAX_RELAY_RATE_KEYS.
Proof.
  unfold rate_keys_full. intros Hf Hs. rewrite map_size_insert.
  destruct (or_bind_attempts r !! source) as [w|]; [done|]. cbn in Hf. rewrite andb_true_r in Hf.
  apply N.leb_gt in Hf. lia.
Qed.

Lemma admit_rate_size r source now r' a :
  admit_rate r source now = (r', a) -> N.of_nat (size (or_bind_attempts r)) <= MAX_RELAY_RATE_KEYS ->
  N.of_nat (size (or_bind_attempts r')) <= MAX_RELAY_RATE_KEYS.
Proof.
  unfold admit_rate. intros H Hs.
  set (r1 := if rate_keys_full r source then evict_expired_rate_windows r now else r) in *.
  assert (Hs1 : N.of_nat (size (or_bind_attempts r1)) <= MAX_RELAY_RATE_KEYS).
  { unfold r1. destruct (rate_keys_full r source); [pose proof (evict_size r now); lia|exact Hs]. }
  clearbody r1.
  destruct (rate_keys_full r1 source) eqn:Hf; [by simplify_eq|].
  destruct (MAX_BIND_ATTEMPTS_PER_WINDOW <=? _); simplify_eq; by apply attempts_insert_size.
Qed.

Definition queued_len (frames : list SealedFrame) : N :=
  foldr (fun frame n => sealed_encoded_len frame + n) 0 frames.

Lemma queued_len_app l1 l2 : queued_len (l1 ++ l2) = queued_len l1 + queued_len l2.
Proof. induction l1 as [|f l1 IH]; cbn -[sealed_encoded_len]; [done|]. fold (queued_len (l1 ++ l2)) (queued_len l1). lia. Qed.

Lemma frame_len_valid frame otherwise :
  sealed_validate frame = Ok tt -> frame_len frame otherwise = sealed_encoded_len frame.
Proof.
  intros (_ & _ & Hl)%sealed_validate_Ok. unfold frame_len. rewrite (proj2 (N.leb_le _ _)); [done|].
  etrans; [exact Hl|]. by apply N.leb_le.
Qed.

(** A socket's queue keeps within its bounds, and its byte count is what is in it. *)
Record queue_sized (max_frames max_bytes : N) (c : BoundChannel) : Prop := {
  qz_frames : count (bc_queued c) <= max_frames;
  qz_total : bc_queued_bytes c = queued_len (bc_queued c);
  qz_bytes : bc_queued_bytes c <= max_bytes;
  qz_valid : Forall (fun frame => sealed_validate frame = Ok tt) (bc_queued c);
}.

Lemma queue_sized_push max_frames max_bytes c frame :
  queue_sized max_frames max_bytes c -> max_bytes < u32_max ->
  sealed_validate frame = Ok tt -> count (bc_queued c) < max_frames ->
  saturating_add_u32 (bc_queued_bytes c) (frame_len frame u32_max) <= max_bytes ->
  queue_sized max_frames max_bytes
    {| bc_claims := bc_claims c; bc_queued := bc_queued c ++ [frame];
       bc_queued_bytes := saturating_add_u32 (bc_queued_bytes c) (frame_len frame u32_max) |}.
Proof.
  intros [Hf Ht Hb Hv] Hmax Hvalid Hroom Hbytes. rewrite frame_len_valid in * by done.
  constructor; cbn [bc_queued bc_queued_bytes].
  - unfold count in *. rewrite length_app. cbn [length]. lia.
  - rewrite queued_len_app, <-Ht. unfold saturating_add_u32 in *. cbn [queued_len foldr]. lia.
  - done.
  - apply Forall_app. by repeat constructor.
Qed.

Lemma queue_sized_pop max_frames max_bytes c frame queued :
  queue_sized max_frames max_bytes c -> bc_queued c = frame :: queued ->
  queue_sized max_frames max_bytes
    {| bc_claims := bc_claims c; bc_queued := queued;
       bc_queued_bytes := saturating_sub (bc_queued_bytes c) (frame_len frame 0) |}.
Proof.
  intros [Hf Ht Hb Hv] Hq. rewrite Hq in *. apply Forall_cons in Hv as [Hv1 Hv].
  rewrite frame_len_valid by done. constructor; cbn [bc_queued bc_queued_bytes].
  - unfold count in *. cbn [length] in Hf. lia.
  - rewrite Ht. cbn [queued_len foldr]. fold (queued_len queued). unfold saturating_sub. lia.
  - unfold saturating_sub. lia.
  - done.
Qed.

Record relay_sized (max_frames max_bytes : N) (r : OpaqueRelay) : Prop := {
  rz_frames : or_max_queue_frames r = max_frames;
  rz_bytes : or_max_queue_bytes r = max_bytes;
  rz_nonces : N.of_nat (size (or_consumed_nonces r)) <= MAX_RELAY_CONSUMED_NONCES;
  rz_routes : msize (or_channels r) <= MAX_RELAY_ROUTES;
  rz_attempts : N.of_nat (size (or_bind_attempts r)) <= MAX_RELAY_RATE_KEYS;
  rz_tickets : N.of_nat (size (or_revoked_tickets r)) <= MAX_RELAY_REVOKED_TICKETS;
  rz_devices : N.of_nat (size (or_revoked_devices r)) <= MAX_RELAY_REVOKED_DEVICES;
  rz_queues : forall route aud c, socket r route aud = Some c -> queue_sized max_frames max_bytes c;
}.

Lemma size_insert_le (x bound : N) (X : gset N) :
  (bound <=? N.of_nat (size X)) && negb (bool_decide (x ∈ X)) = false -> N.of_nat (size X) <= bound ->
  N.of_nat (size ({[x]} ∪ X)) <= bound.
Proof.
  intros Hf Hs. destruct (decide (x ∈ X)) as [Hx|Hx].
  - replace ({[x]} ∪ X) with X by set_solver. done.
  - rewrite (bool_decide_false _ Hx) in Hf. cbn in Hf. rewrite andb_true_r in Hf. apply N.leb_gt in Hf.
    rewrite size_union by set_solver. rewrite size_singleton. lia.
Qed.

(** Fewer sockets, under the same bounds. *)
Lemma sized_fewer max_frames max_bytes r r' :
  relay_sized max_frames max_bytes r ->
  or_max_queue_frames r' = or_max_queue_frames r -> or_max_queue_bytes r' = or_max_queue_bytes r ->
  or_consumed_nonces r' = or_consumed_nonces r -> msize (or_channels r') <= msize (or_channels r) ->
  N.of_nat (size (or_bind_attempts r')) <= MAX_RELAY_RATE_KEYS ->
  N.of_nat (size (or_revoked_tickets r')) <= MAX_RELAY_REVOKED_TICKETS ->
  N.of_nat (size (or_revoked_devices r')) <= MAX_RELAY_REVOKED_DEVICES ->
  (forall route aud c, socket r' route aud = Some c -> socket r route aud = Some c) ->
  relay_sized max_frames max_bytes r'.
Proof.
  intros [] ? ? Hn Hr ? ? ? Hs. constructor; try done; [congruence|congruence|by rewrite Hn|lia|]. eauto.
Qed.

Lemma sized_retain max_frames max_bytes keep r :
  relay_sized max_frames max_bytes r -> relay_sized max_frames max_bytes (retain_sockets keep r).
Proof.
  intros H. eapply sized_fewer; [exact H|done|done|done|apply retain_size|apply H|apply H|apply H|].
  intros route aud c. rewrite socket_retain. destruct (socket r route aud) as [d|]; [|done]. by destruct (keep d).
Qed.

Lemma sized_expire max_frames max_bytes r now :
  relay_sized max_frames max_bytes r -> relay_sized max_frames max_bytes (expire_stale r now).
Proof.
  intros H. eapply sized_fewer; [exact H|done|done|done|apply expire_size| |apply H|apply H|].
  - pose proof (rz_attempts _ _ _ H). pose proof (evict_size (expire_sockets (expire_presence r now) now) now).
    change (or_bind_attempts (expire_sockets (expire_presence r now) now)) with (or_bind_attempts r) in *.
    unfold expire_stale. lia.
  - intros route aud c Hc. by apply socket_expire_stale in Hc as [? _].
Qed.

Lemma sized_update max_frames max_bytes r route aud sockets channel presence :
  relay_sized max_frames max_bytes r -> or_channels r !! route = Some sockets ->
  queue_sized max_frames max_bytes channel ->
  relay_sized max_frames max_bytes
    (or_with_routes r (<[route := <[aud := channel]> sockets]> (or_channels r)) presence).
Proof.
  intros [] Hr Hc. constructor; try done.
  - cbn. by rewrite (msize_insert_Some _ _ _ _ Hr).
  - intros route' aud' c. rewrite socket_insert by done. case_bool_decide; [by intros [= <-]|]. eauto.
Qed.

Lemma sized_open max_frames max_bytes r claims ticket now :
  relay_sized max_frames max_bytes r -> bind_checks r ticket now = Ok claims ->
  relay_sized max_frames max_bytes (open_socket r claims now).
Proof.
  intros [] Hb. apply bind_checks_claims in Hb as (_ & _ & _ & _ & _ & _ & _ & _ & Hn & Hns & Hr).
  constructor; try done.
  - cbn. rewrite size_union by set_solver. rewrite size_singleton. lia.
  - cbn. destruct (or_channels r !! rt_route_id claims) as [sockets|] eqn:Hs.
    + by rewrite (msize_insert_Some _ _ _ _ Hs).
    + rewrite msize_insert_None by done. specialize (Hr eq_refl). lia.
  - intros route aud c. rewrite socket_open. case_bool_decide; [|eauto]. intros [= <-].
    constructor; cbn; [apply N.le_0_l|done|apply N.le_0_l|done].
Qed.

Lemma call_sized max_frames max_bytes r call r' reply :
  relay_call r call = (r', reply) -> max_bytes < u32_max ->
  relay_sized max_frames max_bytes r -> relay_sized max_frames max_bytes r'.
Proof.
  intros H Hmax Hz. destruct call as [host online|ticket_id|device|ticket now source|route0 from frame now|route0 aud0|route0 aud0];
    unfold relay_call in H.
  - simplify_eq. unfold set_host_online. destruct online; [by destruct Hz|]. apply sized_retain. by destruct Hz.
  - simplify_eq. apply sized_retain. unfold remember_revoked_ticket. destruct (_ && _) eqn:Hf; [by destruct Hz|].
    destruct Hz. constructor; try done. by apply size_insert_le.
  - simplify_eq. apply sized_retain. unfold remember_revoked_device. destruct (_ && _) eqn:Hf; [by destruct Hz|].
    destruct Hz. constructor; try done. by apply size_insert_le.
  - destruct (bind r ticket now source) as [r2 o] eqn:Hb. simplify_eq.
    apply bind_inv in Hb as (r1 & a & Ha & _ & Hor).
    assert (Hz1 : relay_sized max_frames max_bytes r1).
    { apply (sized_expire _ _ _ now) in Hz. pose proof (admit_rate_size _ _ _ _ _ Ha (rz_attempts _ _ _ Hz)) as Hsz.
      apply socket_admit_rate in Ha as (Hch & _ & Ht & Hd & _ & _ & Hn & Hf & Hby).
      eapply sized_fewer; [exact Hz|done|done|done|by rewrite Hch|done|by rewrite Ht; apply Hz|by rewrite Hd; apply Hz|].
      unfold socket. by rewrite Hch. }
    destruct Hor as [(e & -> & ->)|(claims & Hch & -> & ->)]; [done|]. by eapply sized_open.
  - destruct (relay_admit r route0 from frame now) as [r1 o] eqn:Ha. simplify_eq. apply (sized_expire _ _ _ now) in Hz.
    apply admit_inv in Ha as [[-> _]|(sockets & peer & obs & Hc & -> & _ & Hroom & Hby & ->)]; [done|].
    apply admit_checks_inv in Hc as (Hr & _ & Hp & _ & _ & Hv).
    change (or_max_queue_frames r) with (or_max_queue_frames (expire_stale r now)) in Hroom.
    change (or_max_queue_bytes r) with (or_max_queue_bytes (expire_stale r now)) in Hby.
    rewrite (rz_frames _ _ _ Hz) in Hroom. rewrite (rz_bytes _ _ _ Hz) in Hby.
    apply sized_update; [done|done|]. apply queue_sized_push; try done.
    apply (rz_queues _ _ _ Hz route0 (other_audience from)). unfold socket. by rewrite Hr.
  - destruct (relay_take r route0 aud0) as [r1 o] eqn:Ht. simplify_eq. unfold relay_take in Ht.
    destruct (or_channels r !! route0) as [sockets|] eqn:Hr; [|by simplify_eq].
    destruct (sockets !! aud0) as [c|] eqn:Hs; [|by simplify_eq].
    destruct (bc_queued c) as [|frame queued] eqn:Hq; simplify_eq; [done|].
    apply sized_update; [done|done|]. apply queue_sized_pop; [|done].
    apply (rz_queues _ _ _ Hz route0 aud0). unfold socket. by rewrite Hr.
  - destruct (relay_disconnect r route0 aud0) as [r1 o] eqn:Hd. simplify_eq.
    pose proof (socket_disconnect r route0 aud0) as Hs. rewrite Hd in Hs. cbn [fst] in Hs.
    unfold relay_disconnect in Hd. simplify_eq.
    eapply sized_fewer; [exact Hz|..|intros route aud c; rewrite Hs; by case_bool_decide];
      (destruct (or_channels r !! route0) as [sockets|] eqn:Hr; [destruct (decide (delete aud0 sockets = ∅))|]);
      try done; try apply Hz; cbn [or_channels or_with_routes].
    + apply msize_delete_le.
    + by rewrite (msize_insert_Some _ _ _ _ Hr).
Qed.

(** However the relay is called, its tables keep within their limits (consumed nonces, routes,
    rate windows, revoked tickets and devices), every socket's queue holds valid frames only, at
    most the configured number of them and of bytes, its byte count is exactly the length of what
    is queued, and a route has a presence record exactly while it has a socket. *)
Theorem relay_stays_bounded key max_frames max_bytes r trace :
  max_bytes < u32_max ->
  relay_reached (with_queue_bounds (with_signing_key key) max_frames max_bytes) r trace ->
  relay_sized (N.max max_frames 1) (N.max max_bytes 1) r /\ routes_present r.
Proof.
  intros Hmax H. induction H as [|r trace call r' reply Hr [IHs IHp] Hcall].
  - split; [|done]. by constructor.
  - split; [|by eapply call_routes]. eapply call_sized; [exact Hcall| |exact IHs].
    destruct (N.max_spec max_bytes 1) as [[_ ->]|[_ ->]]; [by apply N.ltb_lt|done].
Qed.
End Runs.

(** ** A run *)

#[local] Existing Instance toy_hmac_sha256.

Definition sample_relay : OpaqueRelay := with_queue_bounds (with_signing_key sample_key) 8 65536.

Definition sample_calls : list RelayCall :=
  [CallBind (sample_ticket HostSocket 9) 1010 (RateIp 1); CallBind (sample_ticket DeviceSocket 10) 1011 (RateIp 1);
   CallBind (sample_ticket DeviceSocket 10) 1012 (RateIp 1);
   CallAdmit (sample_uuid 2) DeviceSocket sample_frame 1013; CallAdmit (sample_uuid 2) DeviceSocket sample_frame 1014;
   CallTake (sample_uuid 2) HostSocket].

Fixpoint run_calls (r : OpaqueRelay) (trace : list (RelayCall * RelayReply)) (calls : list RelayCall) :=
  match calls with
  | [] => (r, trace)
  | call :: calls => let '(r', reply) := relay_call r call in run_calls r' ((call, reply) :: trace) calls
  end.

Lemma run_calls_reached r0 calls : forall r trace,
  relay_reached r0 r trace -> relay_reached r0 (fst (run_calls r trace calls)) (snd (run_calls r trace calls)).
Proof.
  induction calls as [|call calls IH]; intros r trace H; [done|]. cbn [run_calls].
  destruct (relay_call r call) as [r' reply] eqn:E. apply IH. by econstructor.
Qed.

Definition sample_run := run_calls sample_relay [] sample_calls.

Lemma sample_reached : relay_reached sample_relay (fst sample_run) (snd sample_run).
Proof. apply run_calls_reached. constructor. Qed.

Example sample_run_replies :
  map snd (rev (snd sample_run)) =
  let seen bytes status := ReplyObserved (Ok {| ro_route_id := sample_uuid 2; ro_frame_bytes := bytes;
                                                ro_status := status; ro_error_class := None |}) in
  [seen 0 RelayBound; seen 0 RelayBound; ReplyObserved (Err TicketReused); seen 60 RelayForwarded;
   seen 60 RelayForwarded; ReplyFrame (Ok sample_frame)].
Proof. vm_compute. reflexivity. Qed.

Lemma relay_keeps_order_per_route_witness :
  sublist (delivered (sample_uuid 2) HostSocket (snd sample_run) ++ queue (fst sample_run) (sample_uuid 2) HostSocket)
          (accepted (sample_uuid 2) HostSocket (snd sample_run))
  /\ accepted (sample_uuid 2) HostSocket (snd sample_run) = [sample_frame; sample_frame].
Proof. split; [|vm_compute; reflexivity]. exact (relay_keeps_order_per_route _ _ _ _ _ _ _ sample_reached). Defined.

Lemma tickets_bind_once_witness : NoDup (snd sample_run ≫= bound_nonce).
Proof. exact (tickets_bind_once _ _ _ _ _ sample_reached). Defined.

Lemma relay_stays_bounded_witness :
  relay_sized 8 65536 (fst sample_run) /\ routes_present (fst sample_run).
Proof. refine (relay_stays_bounded sample_key 8 65536 _ _ _ sample_reached). reflexivity. Defined.

Lemma frames_pass_between_admitted_sockets_witness :
  exists claims, socket_admitted sample_key (snd sample_run) (sample_uuid 2) HostSocket claims
    /\ rt_issued_at_unix claims <= 1014 < rt_expires_at_unix claims.
Proof.
  refine (frames_pass_between_admitted_sockets sample_key 8 65536 _ _ (sample_uuid 2) DeviceSocket sample_frame 1014 _
            {| ro_route_id := sample_uuid 2; ro_frame_bytes := 60; ro_status := RelayForwarded;
               ro_error_class := None |} sample_reached _ eq_refl HostSocket).
  vm_compute. reflexivity.
Defined.
