(* ===== verification/Invite.v ===== *)
(** Task invites ([connect/invites.rs]): a guest's bounded way into one task, apart from the
    pairing of owner devices.

    A method that changes the store answers the next store; it changes nothing when it refuses.
    [TaskInviteId::new] is an argument. *)
From S2P Require Import Prelude Canonical Task Resource Permission.

Definition MAX_TASK_INVITES : N := 32.
Definition MAX_INVITE_NICKNAME_BYTES : N := 64.
Definition INVITE_SECRET_BYTES : N := 32.
Definition MAX_INVITE_AUDIT_EVENTS : nat := 256.
Definition MAX_INVITE_LIFETIME_MS : Z := 30 * 24 * 60 * 60 * 1000.

Notation TaskInviteId := N (only parsing).
Notation PinnedHostPublicId := N (only parsing).
Notation RedeemedDevicePublicId := N (only parsing).

Inductive InviteError :=
| InvNicknameRequired
| InvNicknameTooLong
| InvSecretRequired
| InvSecretTooShort
| InvInvalidLifetime
| InvLimitExceeded
| InvUnknownInvite
| InvNotYetValid
| InvExpired
| InvRevoked
| InvAlreadyRedeemed
| InvRedemptionExhausted
| InvTaskClosed
| InvTaskScopeMismatch
| InvOwnerRoleForbidden
| InvPairingCodeReuseForbidden
| InvHostMismatch
| InvDeviceAlreadyBound
| InvDeviceBindingRequired.

Inductive ContentClass :=
| ContentTaskMetadata
| ContentPresence
| ContentOperationProgress
| ContentTranscript
| ContentPersonalPrompts
| ContentConfiguration
| ContentPairedDevices
| ContentSecrets.

#[export] Instance ContentClass_eq_dec : EqDecision ContentClass.
Proof. solve_decision. Defined.

Definition is_guest_forbidden (c : ContentClass) : bool :=
  match c with
  | ContentPersonalPrompts | ContentConfiguration | ContentPairedDevices | ContentSecrets => true
  | _ => false
  end.

Definition is_raw_transcript (c : ContentClass) : bool :=
  match c with ContentTranscript => true | _ => false end.

Inductive InviteUsePolicy := SingleUse | MultiUse (max_redemptions : N).

Inductive InviteRole := InviteWatcher | InviteCollaborator.

Definition as_connect_role (role : InviteRole) (task_id : TaskId) : ConnectRole :=
  match role with InviteWatcher => Watcher task_id | InviteCollaborator => Collaborator task_id end.

Inductive InviteAuditKind := AuditIssued | AuditRedeemed | AuditExpired | AuditRevoked.

Record InviteAuditEvent := {
  ae_invite_id : TaskInviteId;
  ae_task_id : TaskId;
  ae_kind : InviteAuditKind;
  ae_at_ms : Z;
}.

Record IssuedInvite := {
  ii_invite_id : TaskInviteId;
  ii_plaintext_secret : text;
}.

Record InviteRecord := {
  ir_invite_id : TaskInviteId;
  ir_task_id : TaskId;
  ir_nickname : text;
  ir_role : InviteRole;
  ir_allowed_actions : list ActionId;
  ir_allowed_content : list ContentClass;
  ir_use_policy : InviteUsePolicy;
  ir_secret_hash : list N;
  ir_created_at_ms : Z;
  ir_expires_at_ms : Z;
  ir_revoked_at_ms : option Z;
  ir_redemptions : N;
  ir_bound_device : option RedeemedDevicePublicId;
  ir_pinned_host : PinnedHostPublicId;
}.

Record InviteGrantView := {
  gv_invite_id : TaskInviteId;
  gv_task_id : TaskId;
  gv_nickname : text;
  gv_role : InviteRole;
  gv_allowed_actions : list ActionId;
  gv_allowed_content : list ContentClass;
  gv_bound_device : option RedeemedDevicePublicId;
}.

Record TaskInviteStore := {
  is_invites : gmap TaskInviteId InviteRecord;
  is_audit : list InviteAuditEvent;
}.

Definition invite_store_new : TaskInviteStore := {| is_invites := ∅; is_audit := [] |}.

Definition collaboration_visible (s : TaskInviteStore) : bool := negb (bool_decide (is_invites s = ∅)).

(** ** Defaults *)

(** A [BTreeSet] as its elements in order. *)
Definition default_actions (role : InviteRole) : list ActionId :=
  [READ_TASK; READ_PRESENCE; READ_OPERATION]
  ++ match role with
     | InviteCollaborator => [MUTATE_TASK; SEND_PROMPT; ANSWER_REQUEST; TERMINAL_INPUT; BROWSER_COMMAND]
     | InviteWatcher => []
     end.

Definition default_content (role : InviteRole) : list ContentClass :=
  [ContentTaskMetadata; ContentPresence; ContentOperationProgress].

Definition guest_may_perform (role : InviteRole) (action : KnownAction) : bool :=
  if is_owner_only action then false
  else match role with InviteWatcher => negb (is_mutating action) | InviteCollaborator => true end.

(** ** Checks *)

Definition check_live (record : InviteRecord) (lifecycle : TaskLifecycle) (now_ms : Z) : result unit InviteError :=
  ensure is_none (ir_revoked_at_ms record) else InvRevoked ;;
  ensure negb (now_ms <? ir_created_at_ms record)%Z else InvNotYetValid ;;
  ensure negb (ir_expires_at_ms record <=? now_ms)%Z else InvExpired ;;
  guard (match lifecycle with TaskOpen => true | _ => false end) InvTaskClosed.

Definition check_device_binding (record : InviteRecord) (device : RedeemedDevicePublicId) : result unit InviteError :=
  match ir_bound_device record with
  | Some bound => if bound =? device then Ok tt else Err InvDeviceAlreadyBound
  | None => Err InvDeviceBindingRequired
  end.

(** [view] *)
Definition grant_view (record : InviteRecord) : InviteGrantView :=
  {| gv_invite_id := ir_invite_id record; gv_task_id := ir_task_id record; gv_nickname := ir_nickname record;
     gv_role := ir_role record; gv_allowed_actions := ir_allowed_actions record;
     gv_allowed_content := ir_allowed_content record; gv_bound_device := ir_bound_device record |}.

(** The oldest events make room. *)
Definition record_audit (audit : list InviteAuditEvent) (event : InviteAuditEvent) : list InviteAuditEvent :=
  (if (MAX_INVITE_AUDIT_EVENTS <=? length audit)%nat
   then drop (length audit - MAX_INVITE_AUDIT_EVENTS + 1) audit else audit) ++ [event].

(** ** The store *)

Section Store.
Context `{SH : Sha256}.

(** What [issue] is asked for. *)
Record IssueRequest := {
  iq_task_id : TaskId;
  iq_nickname : text;
  iq_role : InviteRole;
  iq_use_policy : InviteUsePolicy;
  iq_created_at_ms : Z;
  iq_expires_at_ms : Z;
  iq_pinned_host : PinnedHostPublicId;
  iq_secret : list N;
  iq_pairing_code : option text;
}.

Definition lifetime_ok (created_at_ms expires_at_ms : Z) : bool :=
  negb ((created_at_ms <=? 0)%Z || (expires_at_ms <=? created_at_ms)%Z
        || (MAX_INVITE_LIFETIME_MS <? i64_saturating_sub expires_at_ms created_at_ms)%Z).

(** The record of a new invite. *)
Definition issued_record (invite_id : TaskInviteId) (q : IssueRequest) (nickname : text) : InviteRecord :=
  {| ir_invite_id := invite_id; ir_task_id := iq_task_id q; ir_nickname := nickname; ir_role := iq_role q;
     ir_allowed_actions := default_actions (iq_role q); ir_allowed_content := default_content (iq_role q);
     ir_use_policy := iq_use_policy q; ir_secret_hash := sha256 (iq_secret q);
     ir_created_at_ms := iq_created_at_ms q; ir_expires_at_ms := iq_expires_at_ms q; ir_revoked_at_ms := None;
     ir_redemptions := 0; ir_bound_device := None; ir_pinned_host := iq_pinned_host q |}.

Definition issue (s : TaskInviteStore) (invite_id : TaskInviteId) (q : IssueRequest)
    : result (TaskInviteStore * IssuedInvite) InviteError :=
  ensure is_none (iq_pairing_code q) else InvPairingCodeReuseForbidden ;;
  ensure negb (MAX_TASK_INVITES <=? msize (is_invites s)) else InvLimitExceeded ;;
  ensure negb (is_empty (iq_secret q)) else InvSecretRequired ;;
  ensure negb (count (iq_secret q) <? INVITE_SECRET_BYTES) else InvSecretTooShort ;;
  ensure lifetime_ok (iq_created_at_ms q) (iq_expires_at_ms q) else InvInvalidLifetime ;;
  ensure negb match iq_use_policy q with MultiUse max_redemptions => max_redemptions =? 0 | SingleUse => false end
    else InvInvalidLifetime ;;
  let? nickname := ok_or (canonicalize (iq_nickname q)) InvNicknameRequired in
  ensure negb (MAX_INVITE_NICKNAME_BYTES <? len nickname) else InvNicknameTooLong ;;
  let record := issued_record invite_id q nickname in
  Ok ({| is_invites := <[invite_id := record]> (is_invites s);
         is_audit := record_audit (is_audit s)
                       {| ae_invite_id := invite_id; ae_task_id := iq_task_id q; ae_kind := AuditIssued;
                          ae_at_ms := iq_created_at_ms q |} |},
      {| ii_invite_id := invite_id; ii_plaintext_secret := hex_string (iq_secret q) |}).

(** A use is counted, and the device that redeems is bound. *)
Definition redeemed_record (record : InviteRecord) (device : RedeemedDevicePublicId) : InviteRecord :=
  {| ir_invite_id := ir_invite_id record; ir_task_id := ir_task_id record; ir_nickname := ir_nickname record;
     ir_role := ir_role record; ir_allowed_actions := ir_allowed_actions record;
     ir_allowed_content := ir_allowed_content record; ir_use_policy := ir_use_policy record;
     ir_secret_hash := ir_secret_hash record; ir_created_at_ms := ir_created_at_ms record;
     ir_expires_at_ms := ir_expires_at_ms record; ir_revoked_at_ms := ir_revoked_at_ms record;
     ir_redemptions := N.min (ir_redemptions record + 1) (2 ^ 32 - 1); ir_bound_device := Some device;
     ir_pinned_host := ir_pinned_host record |}.

Definition revoked_record (record : InviteRecord) (now_ms : Z) : InviteRecord :=
  {| ir_invite_id := ir_invite_id record; ir_task_id := ir_task_id record; ir_nickname := ir_nickname record;
     ir_role := ir_role record; ir_allowed_actions := ir_allowed_actions record;
     ir_allowed_content := ir_allowed_content record; ir_use_policy := ir_use_policy record;
     ir_secret_hash := ir_secret_hash record; ir_created_at_ms := ir_created_at_ms record;
     ir_expires_at_ms := ir_expires_at_ms record; ir_revoked_at_ms := Some now_ms;
     ir_redemptions := ir_redemptions record; ir_bound_device := ir_bound_device record;
     ir_pinned_host := ir_pinned_host record |}.

(** What [redeem] is asked for. *)
Record RedeemRequest := {
  rq_invite_id : TaskInviteId;
  rq_secret : list N;
  rq_task_id : TaskId;
  rq_lifecycle : TaskLifecycle;
  rq_now_ms : Z;
  rq_host : PinnedHostPublicId;
  rq_device : RedeemedDevicePublicId;
}.

Definition uses_left (record : InviteRecord) : result unit InviteError :=
  match ir_use_policy record with
  | SingleUse => guard (negb (0 <? ir_redemptions record)) InvAlreadyRedeemed
  | MultiUse max_redemptions => guard (negb (max_redemptions <=? ir_redemptions record)) InvRedemptionExhausted
  end.

Definition redeem (s : TaskInviteStore) (q : RedeemRequest) : result (TaskInviteStore * InviteGrantView) InviteError :=
  let? record := ok_or (is_invites s !! rq_invite_id q) InvUnknownInvite in
  ensure ir_task_id record =? rq_task_id q else InvTaskScopeMismatch ;;
  ensure ir_pinned_host record =? rq_host q else InvHostMismatch ;;
  ensure (ir_secret_hash record =?= sha256 (rq_secret q)) else InvUnknownInvite ;;
  try? check_live record (rq_lifecycle q) (rq_now_ms q) ;;
  try? uses_left record ;;
  ensure is_none_or (ir_bound_device record) (fun bound => bound =? rq_device q) else InvDeviceAlreadyBound ;;
  let record := redeemed_record record (rq_device q) in
  Ok ({| is_invites := <[rq_invite_id q := record]> (is_invites s);
         is_audit := record_audit (is_audit s)
                       {| ae_invite_id := rq_invite_id q; ae_task_id := rq_task_id q; ae_kind := AuditRedeemed;
                          ae_at_ms := rq_now_ms q |} |},
      grant_view record).

(** [revoke] *)
Definition revoke_invite (s : TaskInviteStore) (invite_id : TaskInviteId) (now_ms : Z)
    : result (TaskInviteStore * InviteAuditEvent) InviteError :=
  let? record := ok_or (is_invites s !! invite_id) InvUnknownInvite in
  let event := {| ae_invite_id := invite_id; ae_task_id := ir_task_id record; ae_kind := AuditRevoked;
                  ae_at_ms := now_ms |} in
  let record := revoked_record record now_ms in
  Ok ({| is_invites := <[invite_id := record]> (is_invites s); is_audit := record_audit (is_audit s) event |}, event).

Definition authorize (s : TaskInviteStore) (invite_id : TaskInviteId) (task_id : TaskId) (lifecycle : TaskLifecycle)
    (now_ms : Z) (action : ActionId) (content : ContentClass) (device : RedeemedDevicePublicId)
    : result InviteGrantView InviteError :=
  let? record := ok_or (is_invites s !! invite_id) InvUnknownInvite in
  ensure ir_task_id record =? task_id else InvTaskScopeMismatch ;;
  try? check_live record lifecycle now_ms ;;
  try? check_device_binding record device ;;
  ensure negb (is_guest_forbidden content || negb (bool_decide (content ∈ ir_allowed_content record)))
    else InvTaskScopeMismatch ;;
  ensure bool_decide (action ∈ ir_allowed_actions record) else InvTaskScopeMismatch ;;
  Ok (grant_view record).

Definition grant (s : TaskInviteStore) (invite_id : TaskInviteId) (lifecycle : TaskLifecycle) (now_ms : Z)
    (device : RedeemedDevicePublicId) : option InviteGrantView :=
  match is_invites s !! invite_id with
  | None => None
  | Some record =>
      match check_live record lifecycle now_ms with
      | Err _ => None
      | Ok _ => match check_device_binding record device with Err _ => None | Ok _ => Some (grant_view record) end
      end
  end.

(** ** Runs *)

(** The calls that changed the store, with what they answered; the last one first.  A call that
    was refused left the store as it was. *)
Inductive InviteCall :=
| Issued (invite_id : TaskInviteId) (q : IssueRequest)
| Redeemed (q : RedeemRequest)
| Revoked (invite_id : TaskInviteId) (now_ms : Z).

(** A count of redemptions is a [u32]. *)
Definition policy_typed (policy : InviteUsePolicy) : Prop :=
  match policy with SingleUse => True | MultiUse max_redemptions => max_redemptions <= 2 ^ 32 - 1 end.

Inductive invites_reached : TaskInviteStore -> list InviteCall -> Prop :=
| invites_start : invites_reached invite_store_new []
| invites_issue s calls invite_id q s' issued :
    invites_reached s calls -> is_invites s !! invite_id = None -> policy_typed (iq_use_policy q) ->
    issue s invite_id q = Ok (s', issued) ->
    invites_reached s' (Issued invite_id q :: calls)
| invites_redeem s calls q s' view :
    invites_reached s calls -> redeem s q = Ok (s', view) -> invites_reached s' (Redeemed q :: calls)
| invites_revoke s calls invite_id now_ms s' event :
    invites_reached s calls -> revoke_invite s invite_id now_ms = Ok (s', event) ->
    invites_reached s' (Revoked invite_id now_ms :: calls).

Definition redeemed_as (invite_id : TaskInviteId) (call : InviteCall) : bool :=
  match call with Redeemed q => rq_invite_id q =? invite_id | _ => false end.

Definition revoked_as (invite_id : TaskInviteId) (call : InviteCall) : bool :=
  match call with Revoked id _ => id =? invite_id | _ => false end.

Definition redemption_limit (policy : InviteUsePolicy) : N :=
  match policy with SingleUse => 1 | MultiUse max_redemptions => max_redemptions end.

Definition redemptions (invite_id : TaskInviteId) (calls : list InviteCall) : N :=
  count (List.filter (redeemed_as invite_id) calls).

(** What a record says of the calls that made it. *)
Record invite_tracks (calls : list InviteCall) (invite_id : TaskInviteId) (q : IssueRequest) (record : InviteRecord)
    : Prop := {
  it_id : ir_invite_id record = invite_id;
  it_task : ir_task_id record = iq_task_id q;
  it_role : ir_role record = iq_role q;
  it_actions : ir_allowed_actions record = default_actions (iq_role q);
  it_content : ir_allowed_content record = default_content (iq_role q);
  it_policy : ir_use_policy record = iq_use_policy q;
  it_hash : ir_secret_hash record = sha256 (iq_secret q);
  it_created : ir_created_at_ms record = iq_created_at_ms q;
  it_expires : ir_expires_at_ms record = iq_expires_at_ms q;
  it_host : ir_pinned_host record = iq_pinned_host q;
  it_revoked : ir_revoked_at_ms record = None -> forall call, call ∈ calls -> revoked_as invite_id call = false;
  it_count : ir_redemptions record = redemptions invite_id calls;
  it_limit : redemptions invite_id calls <= redemption_limit (iq_use_policy q);
  it_bound : forall device, ir_bound_device record = Some device -> exists r, Redeemed r ∈ calls /\
    rq_invite_id r = invite_id /\ rq_device r = device;
  it_redeemed : forall r, Redeemed r ∈ calls -> rq_invite_id r = invite_id ->
    ir_bound_device record = Some (rq_device r) /\ rq_task_id r = iq_task_id q /\ rq_host r = iq_pinned_host q
    /\ sha256 (rq_secret r) = sha256 (iq_secret q) /\ rq_lifecycle r = TaskOpen
    /\ (iq_created_at_ms q <= rq_now_ms r < iq_expires_at_ms q)%Z;
}.

Lemma check_live_Ok record lifecycle now :
  check_live record lifecycle now = Ok tt <->
  ir_revoked_at_ms record = None /\ (ir_created_at_ms record <= now < ir_expires_at_ms record)%Z /\ lifecycle = TaskOpen.
Proof.
  unfold check_live. split.
  - intros H. peel H. apply guard_Ok in H. apply is_none_true in G.
    apply negb_true_iff, Z.ltb_ge in G0. apply negb_true_iff, Z.leb_gt in G1.
    split; [done|]. split; [lia|]. by destruct lifecycle.
  - intros (-> & Hnow & ->). cbn. rewrite (proj2 (Z.ltb_ge _ _)) by lia. cbn. by rewrite (proj2 (Z.leb_gt _ _)) by lia.
Qed.

Lemma redeem_inv s q s' view :
  redeem s q = Ok (s', view) ->
  exists record, is_invites s !! rq_invite_id q = Some record
    /\ ir_task_id record = rq_task_id q /\ ir_pinned_host record = rq_host q
    /\ ir_secret_hash record = sha256 (rq_secret q) /\ check_live record (rq_lifecycle q) (rq_now_ms q) = Ok tt
    /\ ir_redemptions record < redemption_limit (ir_use_policy record)
    /\ (ir_bound_device record = None \/ ir_bound_device record = Some (rq_device q))
    /\ is_invites s' = <[rq_invite_id q := redeemed_record record (rq_device q)]> (is_invites s).
Proof.
  unfold redeem. intros H. peel H. simplify_eq. facts.
  rename select (is_invites s !! _ = Some _) into Hr. eexists. split; [exact Hr|]. do 4 (split; [done|]). split.
  { rename select (uses_left _ = _) into Hu. unfold uses_left in Hu. unfold redemption_limit.
    destruct (ir_use_policy _); apply guard_Ok, negb_true_iff in Hu; [apply N.ltb_ge in Hu|apply N.leb_gt in Hu]; lia. }
  split; [|done]. rename select (is_none_or _ _ = true) into Hb. destruct (ir_bound_device _) as [b|]; [|by left].
  right. cbn in Hb. apply N.eqb_eq in Hb. by subst.
Qed.

Lemma redemptions_cons invite_id call calls :
  redemptions invite_id (call :: calls)
  = (if redeemed_as invite_id call then 1 else 0) + redemptions invite_id calls.
Proof. unfold redemptions, count. cbn [List.filter]. destruct (redeemed_as invite_id call); cbn [length]; lia. Qed.

Lemma redemptions_none invite_id calls :
  (forall call, call ∈ calls -> redeemed_as invite_id call = false) -> redemptions invite_id calls = 0.
Proof.
  induction calls as [|call calls IH]; intros H; [done|]. rewrite redemptions_cons, H by by left.
  rewrite IH; [done|]. intros c Hc. apply H. by right.
Qed.

(** A call about another invite leaves what is said of this one. *)
Lemma tracks_other calls invite_id q record call :
  invite_tracks calls invite_id q record -> redeemed_as invite_id call = false ->
  revoked_as invite_id call = false -> invite_tracks (call :: calls) invite_id q record.
Proof.
  intros [] Hr Hv. constructor; try done; rewrite ?redemptions_cons, ?Hr; try done.
  - intros Hn c [->|Hc]%elem_of_cons; [done|]. by apply it_revoked0.
  - intros device Hd. destruct (it_bound0 device Hd) as (r & Hin & ?). exists r. split; [by right|done].
  - intros r [<-|Hin]%elem_of_cons Hid; [|by apply it_redeemed0]. cbn in Hr. by apply N.eqb_neq in Hr.
Qed.

Lemma tracks_redeem calls invite_id q record r :
  invite_tracks calls invite_id q record -> policy_typed (iq_use_policy q) -> rq_invite_id r = invite_id ->
  ir_task_id record = rq_task_id r -> ir_pinned_host record = rq_host r ->
  ir_secret_hash record = sha256 (rq_secret r) -> check_live record (rq_lifecycle r) (rq_now_ms r) = Ok tt ->
  ir_redemptions record < redemption_limit (ir_use_policy record) ->
  (ir_bound_device record = None \/ ir_bound_device record = Some (rq_device r)) ->
  invite_tracks (Redeemed r :: calls) invite_id q (redeemed_record record (rq_device r)).
Proof.
  intros [] Hp Hid Ht Hh Hs Hl Hlim Hb. apply check_live_Ok in Hl as (Hnr & Hnow & Hlife).
  assert (Hlt : redemption_limit (iq_use_policy q) <= 2 ^ 32 - 1)
    by (destruct (iq_use_policy q); [by apply N.leb_le|exact Hp]).
  rewrite it_policy0, it_count0 in Hlim.
  assert (Hone : redeemed_as invite_id (Redeemed r) = true) by (cbn; by apply N.eqb_eq).
  constructor; cbn [redeemed_record ir_invite_id ir_task_id ir_role ir_allowed_actions ir_allowed_content
    ir_use_policy ir_secret_hash ir_created_at_ms ir_expires_at_ms ir_pinned_host ir_revoked_at_ms ir_redemptions
    ir_bound_device]; try done; rewrite ?redemptions_cons, ?Hone.
  - intros Hn c [->|Hc]%elem_of_cons; [done|]. by apply it_revoked0.
  - rewrite it_count0. lia.
  - lia.
  - intros device [= <-]. exists r. split; [by left|done].
  - intros r' [[= ->]|Hin]%elem_of_cons Hr'.
    + split; [done|]. rewrite <-it_task0, <-it_host0, <-it_hash0, <-it_created0, <-it_expires0. done.
    + destruct (it_redeemed0 r' Hin Hr') as (Hb' & Hrest). split; [|done].
      destruct Hb as [Hb|Hb]; congruence.
Qed.

Lemma tracks_revoke calls invite_id q record now_ms :
  invite_tracks calls invite_id q record ->
  invite_tracks (Revoked invite_id now_ms :: calls) invite_id q (revoked_record record now_ms).
Proof.
  intros []. constructor; try done; rewrite ?redemptions_cons; try done.
  - intros device Hd. destruct (it_bound0 device Hd) as (r & Hin & ?). exists r. split; [by right|done].
  - intros r [[=]|Hin]%elem_of_cons Hid. by apply it_redeemed0.
Qed.

Lemma issue_inv s invite_id q s' issued :
  issue s invite_id q = Ok (s', issued) ->
  exists nickname, is_invites s' = <[invite_id := issued_record invite_id q nickname]> (is_invites s)
    /\ 0 < redemption_limit (iq_use_policy q) /\ msize (is_invites s) < MAX_TASK_INVITES.
Proof.
  unfold issue. intros H. peel H. simplify_eq. apply negb_true_iff, N.leb_gt in G0. apply negb_true_iff in G4.
  eexists. split; [done|]. split; [|done]. unfold redemption_limit. destruct (iq_use_policy q); [done|].
  by apply N.neq_0_lt_0, N.eqb_neq.
Qed.

Lemma tracks_issue calls invite_id q nickname :
  0 < redemption_limit (iq_use_policy q) ->
  (forall call, call ∈ calls -> redeemed_as invite_id call = false /\ revoked_as invite_id call = false) ->
  invite_tracks (Issued invite_id q :: calls) invite_id q (issued_record invite_id q nickname).
Proof.
  intros Hlim Hnone.
  assert (H0 : redemptions invite_id (Issued invite_id q :: calls) = 0).
  { rewrite redemptions_cons, redemptions_none; [done|]. intros c Hc. by apply Hnone. }
  constructor; try done; rewrite ?H0; try lia.
  - intros _ c [->|Hc]%elem_of_cons; [done|]. by apply Hnone.
  - intros r [[=]|Hin]%elem_of_cons Hid. destruct (Hnone _ Hin) as [Hr _]. cbn in Hr. by apply N.eqb_neq in Hr.
Qed.

Lemma invites_tracked s calls :
  invites_reached s calls ->
  forall invite_id, match is_invites s !! invite_id with
                    | Some record => exists q, Issued invite_id q ∈ calls /\ policy_typed (iq_use_policy q)
                                       /\ invite_tracks calls invite_id q record
                    | None => forall call, call ∈ calls ->
                                redeemed_as invite_id call = false /\ revoked_as invite_id call = false
                    end.
Proof.
  intros H. induction H as [|s calls id q s' issued Hr IH Hfresh Hp Hi|s calls r s' view Hr IH Hd|s calls id now_ms s' event Hr IH Hv];
    intros invite_id.
  - cbn. rewrite lookup_empty. set_solver.
  - pose proof (IH invite_id) as IHi. apply issue_inv in Hi as (nickname & -> & Hlim & _). rewrite lookup_insert_dec.
    destruct (decide (invite_id = id)) as [->|Hne].
    + exists q. split; [by left|]. split; [done|]. rewrite Hfresh in IHi. by apply tracks_issue.
    + destruct (is_invites s !! invite_id) as [rec|].
      * destruct IHi as (q' & Hin & Hp' & Ht). exists q'. split; [by right|]. split; [done|]. by apply tracks_other.
      * intros c [->|Hc]%elem_of_cons; [done|]. by apply IHi.
  - pose proof (IH invite_id) as IHi. apply redeem_inv in Hd as (record & Hrec & H1 & H2 & H3 & H4 & H5 & H6 & ->).
    rewrite lookup_insert_dec. destruct (decide (invite_id = rq_invite_id r)) as [Heq|Hne].
    + rewrite Heq, Hrec in IHi. destruct IHi as (q & Hin & Hp & Ht). exists q. rewrite Heq.
      split; [by right|]. split; [done|]. by apply tracks_redeem.
    + assert (Hno : redeemed_as invite_id (Redeemed r) = false) by (cbn; by apply N.eqb_neq, not_eq_sym).
      destruct (is_invites s !! invite_id) as [rec|].
      * destruct IHi as (q' & Hin & Hp' & Ht). exists q'. split; [by right|]. split; [done|]. by apply tracks_other.
      * intros c [->|Hc]%elem_of_cons; [by rewrite Hno|]. by apply IHi.
  - pose proof (IH invite_id) as IHi. unfold revoke_invite in Hv. peel Hv. simplify_eq. cbn [is_invites].
    rewrite lookup_insert_dec. destruct (decide (invite_id = id)) as [->|Hne].
    + rewrite G in IHi. destruct IHi as (q & Hin & Hp & Ht). exists q. split; [by right|]. split; [done|]. by apply tracks_revoke.
    + assert (Hno : revoked_as invite_id (Revoked id now_ms) = false) by (cbn; by apply N.eqb_neq, not_eq_sym).
      destruct (is_invites s !! invite_id) as [rec|].
      * destruct IHi as (q' & Hin & Hp' & Ht). exists q'. split; [by right|]. split; [done|]. by apply tracks_other.
      * intros c [->|Hc]%elem_of_cons; [by rewrite Hno|]. by apply IHi.
Qed.

(** Every default action is one a guest of the role may perform. *)
Lemma default_actions_known role action :
  action ∈ default_actions role -> exists k, known action = Some k /\ guest_may_perform role k = true.
Proof.
  intros H. destruct role; cbn in H; rewrite ?elem_of_cons, elem_of_nil in H;
    repeat (destruct H as [->|H]; [by eexists|]); done.
Qed.

Lemma default_content_allowed role content : content ∈ default_content role -> is_guest_forbidden content = false.
Proof.
  unfold default_content. rewrite !elem_of_cons, elem_of_nil. by intros [->|[->|[->|[]]]].
Qed.

Lemma authorize_inv s invite_id task_id lifecycle now action content device view :
  authorize s invite_id task_id lifecycle now action content device = Ok view ->
  exists record, is_invites s !! invite_id = Some record /\ ir_task_id record = task_id
    /\ check_live record lifecycle now = Ok tt /\ ir_bound_device record = Some device
    /\ is_guest_forbidden content = false /\ content ∈ ir_allowed_content record
    /\ action ∈ ir_allowed_actions record /\ view = grant_view record.
Proof.
  unfold authorize. intros H. peel H. facts. rewrite ?bool_decide_eq_true in *. eexists. split; [done|].
  split; [done|]. split; [done|]. split; [|done].
  rename select (check_device_binding _ _ = _) into Hb. unfold check_device_binding in Hb.
  destruct (ir_bound_device _) as [b|]; [|done]. destruct (N.eqb_spec b device); [by subst|done].
Qed.

(** C30: Whatever invites were issued, redeemed and revoked, a guest is let through only under an
    invite that was issued for this very task, is within its lifetime while the task is open, and
    was never revoked; the device that asks is the one, and the only one, that redeemed it, on the
    pinned host and with the issued secret, no more often than the invite allows; and what it asks
    is among what the role of the invite may do and see. *)
Theorem guests_stay_within_invites s calls invite_id task_id lifecycle now action content device view :
  invites_reached s calls ->
  authorize s invite_id task_id lifecycle now action content device = Ok view ->
  exists q, Issued invite_id q ∈ calls /\ iq_task_id q = task_id /\ lifecycle = TaskOpen
    /\ (iq_created_at_ms q <= now < iq_expires_at_ms q)%Z
    /\ (forall at_ms, Revoked invite_id at_ms ∉ calls)
    /\ 0 < redemptions invite_id calls <= redemption_limit (iq_use_policy q)
    /\ (forall r, Redeemed r ∈ calls -> rq_invite_id r = invite_id ->
         rq_device r = device /\ rq_host r = iq_pinned_host q /\ sha256 (rq_secret r) = sha256 (iq_secret q))
    /\ is_guest_forbidden content = false /\ content ∈ default_content (iq_role q)
    /\ exists k, known action = Some k /\ guest_may_perform (iq_role q) k = true.
Proof.
  intros Hr Ha. apply authorize_inv in Ha as (record & Hrec & Ht & Hl & Hb & Hf & Hc & Hact & ->).
  pose proof (invites_tracked _ _ Hr invite_id) as Hi. rewrite Hrec in Hi. destruct Hi as (q & Hin & Hp & []).
  apply check_live_Ok in Hl as (Hnr & Hnow & ->). exists q. split; [done|]. split; [congruence|]. split; [done|].
  split; [congruence|]. split.
  { intros at_ms Hin'. specialize (it_revoked0 Hnr _ Hin'). cbn in it_revoked0. by rewrite N.eqb_refl in it_revoked0. }
  split.
  { split; [|done]. destruct (it_bound0 device Hb) as (r & Hr' & Hid & _).
    destruct (N.eq_dec (redemptions invite_id calls) 0) as [H0|]; [|lia]. exfalso.
    assert (In (Redeemed r) (List.filter (redeemed_as invite_id) calls)) as Hf'.
    { apply List.filter_In. split; [by apply list_elem_of_In|]. cbn. by apply N.eqb_eq. }
    unfold redemptions, count in H0. destruct (List.filter _ calls); [done|]. cbn in H0. lia. }
  split.
  { intros r Hr' Hid. destruct (it_redeemed0 r Hr' Hid) as (Hb' & _ & Hh & Hs & _). split; [congruence|done]. }
  split; [done|]. split; [by rewrite <-it_content0|]. apply default_actions_known. by rewrite <-it_actions0.
Qed.

(** An invite just issued works: whoever holds its secret redeems it on the pinned host while the
    task is open and the invite within its lifetime, may from then on do and see everything its role
    grants, and no other device may use it any more. *)
Theorem issued_invite_admits_its_redeemer s invite_id q s1 issued r :
  issue s invite_id q = Ok (s1, issued) ->
  rq_invite_id r = invite_id -> rq_secret r = iq_secret q -> rq_task_id r = iq_task_id q ->
  rq_host r = iq_pinned_host q -> rq_lifecycle r = TaskOpen ->
  (iq_created_at_ms q <= rq_now_ms r < iq_expires_at_ms q)%Z ->
  exists s2 view, redeem s1 r = Ok (s2, view)
    /\ forall now action content device, (iq_created_at_ms q <= now < iq_expires_at_ms q)%Z ->
         action ∈ default_actions (iq_role q) -> content ∈ default_content (iq_role q) ->
         authorize s2 invite_id (iq_task_id q) TaskOpen now action content device
         = if device =? rq_device r then Ok view else Err InvDeviceAlreadyBound.
Proof.
  intros Hi <- Hs Ht Hh Hl Hnow. apply issue_inv in Hi as (nickname & Hinv & Hlim & _).
  assert (Hlive : forall now, (iq_created_at_ms q <= now < iq_expires_at_ms q)%Z ->
    forall record, ir_revoked_at_ms record = None -> ir_created_at_ms record = iq_created_at_ms q ->
      ir_expires_at_ms record = iq_expires_at_ms q -> check_live record TaskOpen now = Ok tt).
  { intros now Hn record Hr Hc He. apply check_live_Ok. by rewrite Hr, Hc, He. }
  unfold redeem. rewrite Hinv, lookup_insert_eq. set (record := issued_record _ q nickname). cbn [ok_or rbind].
  assert (Hu : uses_left record = Ok tt).
  { unfold uses_left. cbn [record issued_record ir_use_policy ir_redemptions].
    destruct (iq_use_policy q) as [|m]; [done|]. cbn in Hlim. by rewrite (proj2 (N.leb_gt _ _) Hlim). }
  rewrite Hl, (Hlive _ Hnow record eq_refl eq_refl eq_refl), Hu. cbn [record issued_record ir_task_id ir_pinned_host ir_secret_hash ir_bound_device].
  rewrite Ht, Hh, Hs, !N.eqb_refl. rewrite (proj2 (eqb_true _ _) eq_refl). cbn [guard rbind is_none_or].
  eexists _, _. split; [done|].
  intros now action content device Hn Hact Hcon. unfold authorize. cbn [is_invites]. rewrite lookup_insert_eq.
  change (ir_task_id (redeemed_record record (rq_device r))) with (iq_task_id q).
  cbn [ok_or rbind]. rewrite N.eqb_refl. cbn [guard rbind].
  rewrite (Hlive _ Hn (redeemed_record record (rq_device r)) eq_refl eq_refl eq_refl). cbn [rbind].
  unfold check_device_binding. cbn [redeemed_record ir_bound_device]. rewrite (N.eqb_sym device).
  destruct (rq_device r =? device); [|done]. cbn [rbind ir_allowed_content ir_allowed_actions].
  rewrite (bool_decide_true (content ∈ _)), (bool_decide_true (action ∈ _)) by done.
  by rewrite (default_content_allowed _ _ Hcon).
Qed.

(** The store and its audit keep within their limits. *)
Lemma record_audit_bounded audit event :
  (length audit <= MAX_INVITE_AUDIT_EVENTS)%nat -> (length (record_audit audit event) <= MAX_INVITE_AUDIT_EVENTS)%nat.
Proof.
  intros H. unfold record_audit. rewrite length_app. cbn [length].
  destruct (Nat.leb_spec MAX_INVITE_AUDIT_EVENTS (length audit)); [rewrite length_drop|];
    unfold MAX_INVITE_AUDIT_EVENTS in *; lia.
Qed.

Lemma invites_bounded s calls :
  invites_reached s calls ->
  msize (is_invites s) <= MAX_TASK_INVITES /\ (length (is_audit s) <= MAX_INVITE_AUDIT_EVENTS)%nat.
Proof.
  intros H. induction H as [|s calls id q s' issued Hr [IH1 IH2] Hfresh Hp Hi|s calls r s' view Hr [IH1 IH2] Hd|s calls id now_ms s' event Hr [IH1 IH2] Hv].
  - split; [done|]. cbn. unfold MAX_INVITE_AUDIT_EVENTS. lia.
  - split.
    + apply issue_inv in Hi as (nickname & -> & _ & Hs). rewrite msize_insert_None by done. lia.
    + unfold issue in Hi. peel Hi. simplify_eq. by apply record_audit_bounded.
  - split.
    + apply redeem_inv in Hd as (record & Hrec & _ & _ & _ & _ & _ & _ & ->). by rewrite (msize_insert_Some _ _ _ _ Hrec).
    + unfold redeem in Hd. peel Hd. simplify_eq. by apply record_audit_bounded.
  - unfold revoke_invite in Hv. peel Hv. simplify_eq. cbn [is_invites is_audit]. split.
    + by rewrite (msize_insert_Some _ _ _ _ G).
    + by apply record_audit_bounded.
Qed.
End Store.

(** ** A run *)

#[local] Instance toy_sha256 : Sha256 := fun message => [fold_left N.add message 0].

Definition sample_issue : IssueRequest :=
  {| iq_task_id := 5; iq_nickname := lit " review "; iq_role := InviteWatcher; iq_use_policy := SingleUse;
     iq_created_at_ms := 1; iq_expires_at_ms := 100; iq_pinned_host := 7; iq_secret := repeat 165 32;
     iq_pairing_code := None |}.

Definition sample_redeem (device : N) : RedeemRequest :=
  {| rq_invite_id := 1; rq_secret := repeat 165 32; rq_task_id := 5; rq_lifecycle := TaskOpen; rq_now_ms := 10;
     rq_host := 7; rq_device := device |}.

Definition store_of {T} (r : result (TaskInviteStore * T) InviteError) : TaskInviteStore :=
  match r with Ok (s, _) => s | Err _ => invite_store_new end.

Definition sample_issued := store_of (issue invite_store_new 1 sample_issue).
Definition sample_redeemed := store_of (redeem sample_issued (sample_redeem 3)).

Lemma sample_store_reached : invites_reached sample_redeemed [Redeemed (sample_redeem 3); Issued 1 sample_issue].
Proof.
  eapply (invites_redeem sample_issued); [|reflexivity].
  eapply (invites_issue invite_store_new); [constructor|done|done|reflexivity].
Qed.

Example invites_run :
  redeem sample_issued {| rq_invite_id := 1; rq_secret := [1]; rq_task_id := 5; rq_lifecycle := TaskOpen;
                          rq_now_ms := 10; rq_host := 7; rq_device := 3 |} = Err InvUnknownInvite
  /\ redeem sample_redeemed (sample_redeem 4) = Err InvAlreadyRedeemed
  /\ authorize sample_redeemed 1 5 TaskOpen 20 READ_TASK ContentPresence 4 = Err InvDeviceAlreadyBound
  /\ authorize sample_redeemed 1 5 TaskOpen 20 SEND_PROMPT ContentPresence 3 = Err InvTaskScopeMismatch
  /\ authorize sample_redeemed 1 5 TaskOpen 100 READ_TASK ContentPresence 3 = Err InvExpired
  /\ authorize (store_of (revoke_invite sample_redeemed 1 15)) 1 5 TaskOpen 20 READ_TASK ContentPresence 3
     = Err InvRevoked.
Proof. by vm_compute. Qed.

Lemma guests_stay_within_invites_witness :
  exists q, Issued 1 q ∈ [Redeemed (sample_redeem 3); Issued 1 sample_issue] /\ iq_task_id q = 5.
Proof.
  destruct (guests_stay_within_invites sample_redeemed _ 1 5 TaskOpen 20 READ_TASK ContentPresence 3 _
              sample_store_reached eq_refl) as (q & Hq & Ht & _).
  by exists q.
Defined.

Lemma issued_invite_admits_its_redeemer_witness :
  exists s2 view, redeem sample_issued (sample_redeem 3) = Ok (s2, view)
    /\ authorize s2 1 5 TaskOpen 20 READ_TASK ContentPresence 3 = Ok view.
Proof.
  destruct (issued_invite_admits_its_redeemer invite_store_new 1 sample_issue sample_issued _ (sample_redeem 3)
              eq_refl eq_refl eq_refl eq_refl eq_refl eq_refl ltac:(done)) as (s2 & view & Hr & Ha).
  exists s2, view. split; [exact Hr|].
  refine (Ha 20%Z READ_TASK ContentPresence 3 ltac:(done) _ _); apply list_elem_of_In; cbn; tauto.
Defined.
