(* ===== verification/WriterLease.v ===== *)
(** Who may write from the web ([remote/web/lease.rs]): the lease one browser tab holds at a time,
    fenced by generations, the mutation in flight under it, the claim of a connection that knows no
    leases, and the controller who waits for the mutation to finish.

    Durations and times are numbers of milliseconds.  A [&mut self] method answers the next state
    with its result, whatever an early return had already done. *)
From S2P Require Import Prelude.

Definition ACTIVE_INPUT_GUARD : N := 700.

Record WriterLease := {
  wl_owner_connection_id : N;
  wl_owner_client_id : text;
  wl_owner_client_instance_id : text;
  wl_generation : N;
  wl_expires_at_epoch_ms : N;
  wl_visible : bool;
  wl_last_input_at_epoch_ms : option N;
  wl_active_mutation_id : option text;
  wl_release_after_mutation : bool;
}.

Inductive LeaseError :=
| ActiveOwner
| LeaseNotOwner
| LeaseExpired
| StaleGeneration (current_generation : N).

Inductive MutationBegin := Started (lease : WriterLease) | AlreadyInFlight (lease : WriterLease).

Record WriterLeaseManager := {
  lm_lease_duration_ms : N;
  lm_active_input_guard_ms : N;
  lm_generation : N;
  lm_current : option WriterLease;
}.

Inductive ControllerTarget := ControlLocal | ControlNative (client_id : text).

Record LegacyControlClaim := {
  lc_connection_id : N;
  lc_client_id : text;
}.

Inductive ControllerRequest :=
| RequestApplied (released_lease : option WriterLease) (released_legacy_client_id : option text)
| RequestDeferred.

Record ConnectionRelease := {
  cr_released_lease : option WriterLease;
  cr_lease_release_deferred : bool;
  cr_legacy_released : bool;
}.

Record MutationFinish := {
  mf_released_lease : option WriterLease;
  mf_controller_target : option ControllerTarget;
}.

Record WebControlState := {
  wc_writer_leases : WriterLeaseManager;
  wc_legacy_claimant : option LegacyControlClaim;
  wc_deferred_controller_target : option ControllerTarget;
}.

(** ** The lease *)

Definition lm_with (m : WriterLeaseManager) (generation : N) (current : option WriterLease) : WriterLeaseManager :=
  {| lm_lease_duration_ms := lm_lease_duration_ms m; lm_active_input_guard_ms := lm_active_input_guard_ms m;
     lm_generation := generation; lm_current := current |}.

(** The lease's terms stay; how long it lasts, how it is shown and what runs under it change. *)
Definition wl_with (l : WriterLease) (expires_at_epoch_ms : N) (visible : bool) (last_input : option N)
    (active_mutation_id : option text) (release_after_mutation : bool) : WriterLease :=
  {| wl_owner_connection_id := wl_owner_connection_id l; wl_owner_client_id := wl_owner_client_id l;
     wl_owner_client_instance_id := wl_owner_client_instance_id l; wl_generation := wl_generation l;
     wl_expires_at_epoch_ms := expires_at_epoch_ms; wl_visible := visible; wl_last_input_at_epoch_ms := last_input;
     wl_active_mutation_id := active_mutation_id; wl_release_after_mutation := release_after_mutation |}.

Definition leases_new (lease_duration_ms : N) : WriterLeaseManager :=
  {| lm_lease_duration_ms := N.min lease_duration_ms u64_max;
     lm_active_input_guard_ms := N.min ACTIVE_INPUT_GUARD u64_max; lm_generation := 0; lm_current := None |}.

Definition is_busy (m : WriterLeaseManager) : bool :=
  is_some_and (lm_current m) (fun l => is_some (wl_active_mutation_id l)).

(** A lease with a mutation in flight is only marked. *)
Definition invalidate (m : WriterLeaseManager) : WriterLeaseManager * option WriterLease :=
  match lm_current m with
  | None => (m, None)
  | Some l =>
      match wl_active_mutation_id l with
      | Some _ =>
          (lm_with m (lm_generation m)
             (Some (wl_with l (wl_expires_at_epoch_ms l) false (wl_last_input_at_epoch_ms l) (wl_active_mutation_id l) true)),
           None)
      | None => (lm_with m (saturating_add (lm_generation m) 1) None, Some l)
      end
  end.

Definition lease_expired (m : WriterLeaseManager) (now_epoch_ms : N) : bool :=
  is_some_and (lm_current m)
    (fun l => is_none (wl_active_mutation_id l) && (wl_expires_at_epoch_ms l <=? now_epoch_ms)).

Definition expire_if_needed (m : WriterLeaseManager) (now_epoch_ms : N) : WriterLeaseManager :=
  if lease_expired m now_epoch_ms then fst (invalidate m) else m.

(** [grant] *)
Definition grant_lease (m : WriterLeaseManager) (connection_id : N) (client_id client_instance_id : text) (now_epoch_ms : N)
    : WriterLeaseManager * WriterLease :=
  let generation := saturating_add (lm_generation m) 1 in
  let lease :=
    {| wl_owner_connection_id := connection_id; wl_owner_client_id := client_id;
       wl_owner_client_instance_id := client_instance_id; wl_generation := generation;
       wl_expires_at_epoch_ms := saturating_add now_epoch_ms (lm_lease_duration_ms m); wl_visible := true;
       wl_last_input_at_epoch_ms := Some now_epoch_ms; wl_active_mutation_id := None;
       wl_release_after_mutation := false |} in
  (lm_with m generation (Some lease), lease).

Definition exact_owner (l : WriterLease) (connection_id : N) (client_id client_instance_id : text) : bool :=
  (wl_owner_connection_id l =? connection_id) && (wl_owner_client_id l =?= client_id)
  && (wl_owner_client_instance_id l =?= client_instance_id).

Definition lease_client (l : WriterLease) (connection_id : N) (client_id : text) : bool :=
  (wl_owner_connection_id l =? connection_id) && (wl_owner_client_id l =?= client_id).

(** The owner is on screen and wrote a moment ago. *)
Definition input_is_guarded (m : WriterLeaseManager) (l : WriterLease) (now_epoch_ms : N) : bool :=
  wl_visible l
  && is_some_and (wl_last_input_at_epoch_ms l)
       (fun last_input => now_epoch_ms <? saturating_add last_input (lm_active_input_guard_ms m)).

Definition acquire (m : WriterLeaseManager) (connection_id : N) (client_id client_instance_id : text) (now_epoch_ms : N)
    : WriterLeaseManager * result WriterLease LeaseError :=
  let m := expire_if_needed m now_epoch_ms in
  let granted :=
    let '(m, lease) := grant_lease m connection_id client_id client_instance_id now_epoch_ms in (m, Ok lease) in
  match lm_current m with
  | None => granted
  | Some l =>
      if exact_owner l connection_id client_id client_instance_id then
        let l := wl_with l (saturating_add now_epoch_ms (lm_lease_duration_ms m)) true (wl_last_input_at_epoch_ms l)
                   (wl_active_mutation_id l) (wl_release_after_mutation l) in
        (lm_with m (lm_generation m) (Some l), Ok l)
      else if is_some (wl_active_mutation_id l) then (m, Err ActiveOwner)
      else if input_is_guarded m l now_epoch_ms then (m, Err ActiveOwner)
      else granted
  end.

(** What [authorize] and [renew] look at first: the lease that answers to the generation, or why
    none does.  An expired lease goes. *)
Definition fenced_lease (m : WriterLeaseManager) (expected_generation now_epoch_ms : N)
    : WriterLeaseManager * result WriterLease LeaseError :=
  let generation_matched_before_expiry := expected_generation =? lm_generation m in
  let expired := lease_expired m now_epoch_ms in
  let m := if expired then fst (invalidate m) else m in
  if expired && generation_matched_before_expiry then (m, Err LeaseExpired)
  else if negb (expected_generation =? lm_generation m) then (m, Err (StaleGeneration (lm_generation m)))
  else match lm_current m with
       | None => (m, Err (StaleGeneration (lm_generation m)))
       | Some l => (m, Ok l)
       end.

(** [authorize] *)
Definition authorize_write (m : WriterLeaseManager) (connection_id : N) (client_id : text)
    (expected_generation now_epoch_ms : N) : WriterLeaseManager * result WriterLease LeaseError :=
  let '(m, fenced) := fenced_lease m expected_generation now_epoch_ms in
  match fenced with
  | Err e => (m, Err e)
  | Ok l =>
      if negb (lease_client l connection_id client_id) then (m, Err LeaseNotOwner)
      else
        let l := wl_with l (saturating_add now_epoch_ms (lm_lease_duration_ms m)) true (Some now_epoch_ms)
                   (wl_active_mutation_id l) (wl_release_after_mutation l) in
        (lm_with m (lm_generation m) (Some l), Ok l)
  end.

Definition begin_mutation (m : WriterLeaseManager) (connection_id : N) (client_id : text) (expected_generation : N)
    (mutation_id : text) (now_epoch_ms : N) : WriterLeaseManager * result MutationBegin LeaseError :=
  if negb (expected_generation =? lm_generation m) then (m, Err (StaleGeneration (lm_generation m)))
  else
    let m := expire_if_needed m now_epoch_ms in
    match lm_current m with
    | None => (m, Err LeaseExpired)
    | Some l =>
        if negb (lease_client l connection_id client_id) then (m, Err LeaseNotOwner)
        else
          match wl_active_mutation_id l with
          | Some active => if active =?= mutation_id then (m, Ok (AlreadyInFlight l)) else (m, Err ActiveOwner)
          | None =>
              let l := wl_with l (saturating_add now_epoch_ms (lm_lease_duration_ms m)) true (Some now_epoch_ms)
                         (Some mutation_id) (wl_release_after_mutation l) in
              (lm_with m (lm_generation m) (Some l), Ok (Started l))
          end
    end.

Definition exact_mutation (l : WriterLease) (connection_id : N) (client_id : text) (expected_generation : N)
    (mutation_id : text) : bool :=
  lease_client l connection_id client_id && (wl_generation l =? expected_generation)
  && (wl_active_mutation_id l =?= Some mutation_id).

(** [WriterLeaseManager::finish_mutation] *)
Definition lease_finish_mutation (m : WriterLeaseManager) (connection_id : N) (client_id : text) (expected_generation : N)
    (mutation_id : text) (now_epoch_ms : N) : WriterLeaseManager * option WriterLease :=
  match lm_current m with
  | None => (m, None)
  | Some l =>
      if negb (exact_mutation l connection_id client_id expected_generation mutation_id) then (m, None)
      else
        let l := wl_with l (saturating_add now_epoch_ms (lm_lease_duration_ms m)) (wl_visible l) (Some now_epoch_ms) None
                   (wl_release_after_mutation l) in
        let m := lm_with m (lm_generation m) (Some l) in
        if wl_release_after_mutation l then invalidate m else (m, None)
  end.

Definition renew (m : WriterLeaseManager) (connection_id : N) (client_id client_instance_id : text)
    (expected_generation : N) (visible : bool) (now_epoch_ms : N) : WriterLeaseManager * result WriterLease LeaseError :=
  let '(m, fenced) := fenced_lease m expected_generation now_epoch_ms in
  match fenced with
  | Err e => (m, Err e)
  | Ok l =>
      if negb (exact_owner l connection_id client_id client_instance_id) then (m, Err LeaseNotOwner)
      else
        let l := wl_with l (saturating_add now_epoch_ms (lm_lease_duration_ms m)) visible (wl_last_input_at_epoch_ms l)
                   (wl_active_mutation_id l) (wl_release_after_mutation l) in
        (lm_with m (lm_generation m) (Some l), Ok l)
  end.

Definition set_visibility (m : WriterLeaseManager) (connection_id : N) (client_id client_instance_id : text)
    (visible : bool) (now_epoch_ms : N) : WriterLeaseManager * result WriterLease LeaseError :=
  let m := expire_if_needed m now_epoch_ms in
  match lm_current m with
  | None => (m, Err (StaleGeneration (lm_generation m)))
  | Some l =>
      if negb (exact_owner l connection_id client_id client_instance_id) then (m, Err LeaseNotOwner)
      else
        let l := wl_with l (wl_expires_at_epoch_ms l) visible (wl_last_input_at_epoch_ms l) (wl_active_mutation_id l)
                   (wl_release_after_mutation l) in
        (lm_with m (lm_generation m) (Some l), Ok l)
  end.

(** [disconnect] *)
Definition lease_disconnect (m : WriterLeaseManager) (connection_id : N) (client_id : text) : WriterLeaseManager * bool :=
  if is_some_and (lm_current m) (fun l => lease_client l connection_id client_id)
  then let '(m', _) := invalidate m in (m', negb (is_busy m))
  else (m, false).

(** [current] *)
Definition current_lease (m : WriterLeaseManager) (now_epoch_ms : N) : WriterLeaseManager * option WriterLease :=
  let m := expire_if_needed m now_epoch_ms in (m, lm_current m).

(** ** Control from the web *)

Definition wc_with (s : WebControlState) (leases : WriterLeaseManager) (legacy : option LegacyControlClaim)
    (deferred : option ControllerTarget) : WebControlState :=
  {| wc_writer_leases := leases; wc_legacy_claimant := legacy; wc_deferred_controller_target := deferred |}.

Definition control_new (lease_duration_ms : N) : WebControlState :=
  {| wc_writer_leases := leases_new lease_duration_ms; wc_legacy_claimant := None;
     wc_deferred_controller_target := None |}.

Definition claims (c : LegacyControlClaim) (connection_id : N) (client_id : text) : bool :=
  (lc_connection_id c =? connection_id) && (lc_client_id c =?= client_id).

Definition legacy_authorizes (s : WebControlState) (connection_id : N) (client_id : text) : bool :=
  is_none (lm_current (wc_writer_leases s))
  && is_some_and (wc_legacy_claimant s) (fun c => claims c connection_id client_id).

Definition claim_legacy (s : WebControlState) (connection_id : N) (client_id : text) (force : bool)
    (controller_client_id : option text) : WebControlState * bool :=
  if is_some (lm_current (wc_writer_leases s)) then (s, false)
  else
    let available :=
      is_none controller_client_id
      || ((controller_client_id =?= Some client_id) && legacy_authorizes s connection_id client_id) in
    if negb force && negb available then (s, false)
    else (wc_with s (wc_writer_leases s) (Some {| lc_connection_id := connection_id; lc_client_id := client_id |})
            (wc_deferred_controller_target s), true).

Definition clear_legacy_claim (s : WebControlState) (connection_id : N) (client_id : text) : WebControlState * bool :=
  let exact := legacy_authorizes s connection_id client_id in
  (if exact then wc_with s (wc_writer_leases s) None (wc_deferred_controller_target s) else s, exact).

Definition release_connection (s : WebControlState) (connection_id : N) (client_id : text)
    : WebControlState * ConnectionRelease :=
  let previous_lease := lm_current (wc_writer_leases s) in
  let was_busy_owner :=
    is_some_and previous_lease
      (fun l => lease_client l connection_id client_id && is_some (wl_active_mutation_id l)) in
  let '(leases, released_now) := lease_disconnect (wc_writer_leases s) connection_id client_id in
  let legacy_released := is_some_and (wc_legacy_claimant s) (fun c => claims c connection_id client_id) in
  (wc_with s leases (if legacy_released then None else wc_legacy_claimant s) (wc_deferred_controller_target s),
   {| cr_released_lease := if released_now then previous_lease else None;
      cr_lease_release_deferred := was_busy_owner && negb released_now; cr_legacy_released := legacy_released |}).

Definition request_controller (s : WebControlState) (target : ControllerTarget) : WebControlState * ControllerRequest :=
  let busy := is_busy (wc_writer_leases s) in
  let '(leases, released_lease) := invalidate (wc_writer_leases s) in
  if busy then (wc_with s leases None (Some target), RequestDeferred)
  else (wc_with s leases None None,
        RequestApplied released_lease (option_map lc_client_id (wc_legacy_claimant s))).

(** [WebControlState::finish_mutation] *)
Definition finish_mutation (s : WebControlState) (connection_id : N) (client_id : text) (expected_generation : N)
    (mutation_id : text) (now_epoch_ms : N) : WebControlState * MutationFinish :=
  let '(leases, released_lease) :=
    lease_finish_mutation (wc_writer_leases s) connection_id client_id expected_generation mutation_id now_epoch_ms in
  match released_lease with
  | Some l => (wc_with s leases (wc_legacy_claimant s) None,
               {| mf_released_lease := Some l; mf_controller_target := wc_deferred_controller_target s |})
  | None => (wc_with s leases (wc_legacy_claimant s) (wc_deferred_controller_target s),
             {| mf_released_lease := None; mf_controller_target := None |})
  end.

Definition reset_web (s : WebControlState) (clear_web_controller : bool) : WebControlState * ControllerRequest :=
  if clear_web_controller then
    if is_busy (wc_writer_leases s) then
      let '(leases, _) := invalidate (wc_writer_leases s) in
      (wc_with s leases None (Some (default ControlLocal (wc_deferred_controller_target s))), RequestDeferred)
    else request_controller s ControlLocal
  else
    let busy := is_busy (wc_writer_leases s) in
    let '(leases, released_lease) := invalidate (wc_writer_leases s) in
    (wc_with s leases None (wc_deferred_controller_target s),
     if busy then RequestDeferred
     else RequestApplied released_lease (option_map lc_client_id (wc_legacy_claimant s))).

(** ** Runs *)

Inductive WebCall :=
| WcAcquire (connection_id : N) (client_id client_instance_id : text) (now : N)
| WcAuthorize (connection_id : N) (client_id : text) (generation now : N)
| WcBegin (connection_id : N) (client_id : text) (generation : N) (mutation_id : text) (now : N)
| WcRenew (connection_id : N) (client_id client_instance_id : text) (generation : N) (visible : bool) (now : N)
| WcVisibility (connection_id : N) (client_id client_instance_id : text) (visible : bool) (now : N)
| WcCurrent (now : N)
| WcClaim (connection_id : N) (client_id : text) (force : bool) (controller : option text)
| WcClear (connection_id : N) (client_id : text)
| WcRelease (connection_id : N) (client_id : text)
| WcRequest (target : ControllerTarget)
| WcFinish (connection_id : N) (client_id : text) (generation : N) (mutation_id : text) (now : N)
| WcReset (clear_web_controller : bool).

Inductive WebReply :=
| WrLease (r : result WriterLease LeaseError)
| WrBegin (r : result MutationBegin LeaseError)
| WrCurrent (o : option WriterLease)
| WrBool (b : bool)
| WrRelease (r : ConnectionRelease)
| WrRequest (r : ControllerRequest)
| WrFinish (r : MutationFinish).

Definition wc_leases (s : WebControlState) (leases : WriterLeaseManager) : WebControlState :=
  wc_with s leases (wc_legacy_claimant s) (wc_deferred_controller_target s).

Definition web_call (s : WebControlState) (call : WebCall) : WebControlState * WebReply :=
  let m := wc_writer_leases s in
  match call with
  | WcAcquire c id inst now => let '(m, r) := acquire m c id inst now in (wc_leases s m, WrLease r)
  | WcAuthorize c id g now => let '(m, r) := authorize_write m c id g now in (wc_leases s m, WrLease r)
  | WcBegin c id g mutation now => let '(m, r) := begin_mutation m c id g mutation now in (wc_leases s m, WrBegin r)
  | WcRenew c id inst g visible now => let '(m, r) := renew m c id inst g visible now in (wc_leases s m, WrLease r)
  | WcVisibility c id inst visible now =>
      let '(m, r) := set_visibility m c id inst visible now in (wc_leases s m, WrLease r)
  | WcCurrent now => let '(m, r) := current_lease m now in (wc_leases s m, WrCurrent r)
  | WcClaim c id force controller => let '(s, b) := claim_legacy s c id force controller in (s, WrBool b)
  | WcClear c id => let '(s, b) := clear_legacy_claim s c id in (s, WrBool b)
  | WcRelease c id => let '(s, r) := release_connection s c id in (s, WrRelease r)
  | WcRequest target => let '(s, r) := request_controller s target in (s, WrRequest r)
  | WcFinish c id g mutation now => let '(s, r) := finish_mutation s c id g mutation now in (s, WrFinish r)
  | WcReset clear => let '(s, r) := reset_web s clear in (s, WrRequest r)
  end.

(** The calls made with their replies, the last first. *)
Inductive web_reached (duration : N) : WebControlState -> list (WebCall * WebReply) -> Prop :=
| web_start : web_reached duration (control_new duration) []
| web_step s trace call s' reply :
    web_reached duration s trace -> web_call s call = (s', reply) ->
    web_reached duration s' ((call, reply) :: trace).

(** *** What a call does to the lease *)

Definition lease_owner (l : WriterLease) : N * text * text :=
  (wl_owner_connection_id l, wl_owner_client_id l, wl_owner_client_instance_id l).

(** A call keeps the lease with its owner and generation, drops one under which nothing runs, or
    grants a new one in its place. *)
Inductive lease_move (m m' : WriterLeaseManager) : Prop :=
| move_same l l' : lm_current m = Some l -> lm_current m' = Some l' -> lease_owner l' = lease_owner l ->
    wl_generation l' = wl_generation l -> lm_generation m' = lm_generation m -> lease_move m m'
| move_none : lm_current m = None -> lm_current m' = None -> lm_generation m' = lm_generation m -> lease_move m m'
| move_drop l : lm_current m = Some l -> lm_current m' = None ->
    lm_generation m' = saturating_add (lm_generation m) 1 -> lease_move m m'
| move_grant l' g : (g = lm_generation m \/ g = saturating_add (lm_generation m) 1) -> is_busy m = false ->
    lm_current m' = Some l' -> wl_generation l' = saturating_add g 1 -> lm_generation m' = saturating_add g 1 ->
    lease_move m m'.

Definition mutation_key (m : WriterLeaseManager) : option (N * text * N * text) :=
  match lm_current m with
  | Some l => option_map (fun mutation => (wl_owner_connection_id l, wl_owner_client_id l, wl_generation l, mutation))
                (wl_active_mutation_id l)
  | None => None
  end.

Lemma busy_key m : is_busy m = is_some (mutation_key m).
Proof. unfold is_busy, mutation_key. destruct (lm_current m) as [l|]; [|done]. cbn. by destruct (wl_active_mutation_id l). Qed.

Lemma move_refl m : lease_move m m.
Proof. destruct (lm_current m) as [l|] eqn:Hl; [by eapply move_same|by apply move_none]. Qed.

Lemma busy_false l m : lm_current m = Some l -> wl_active_mutation_id l = None -> is_busy m = false.
Proof. intros Hl Ha. unfold is_busy. rewrite Hl. cbn. by rewrite Ha. Qed.

Lemma invalidate_spec m m' r :
  invalidate m = (m', r) ->
  lease_move m m' /\ mutation_key m' = mutation_key m /\ (forall l, r = Some l -> lm_current m = Some l)
  /\ (is_busy m = false -> lm_current m' = None /\ r = lm_current m)
  /\ (is_busy m = true -> r = None /\ exists l, lm_current m' = Some l /\ wl_release_after_mutation l = true).
Proof.
  unfold invalidate, is_busy. intros H. destruct (lm_current m) as [l|] eqn:Hl.
  - destruct (wl_active_mutation_id l) as [mutation|] eqn:Ha; simplify_eq.
    + split; [by eapply move_same|]. unfold mutation_key. cbn. rewrite Hl. cbn. rewrite Ha.
      split; [done|]. split; [done|]. split; [done|]. intros _. split; [done|]. by eexists.
    + split; [by eapply move_drop|]. unfold mutation_key. cbn. rewrite Hl. cbn. rewrite Ha.
      split; [done|]. split; [by intros ? [= ->]|]. done.
  - simplify_eq. split; [apply move_refl|]. cbn. rewrite Hl. done.
Qed.

Lemma expire_spec m now :
  (expire_if_needed m now = m \/ (lm_current (expire_if_needed m now) = None /\ is_busy m = false
     /\ lm_generation (expire_if_needed m now) = saturating_add (lm_generation m) 1
     /\ exists l, lm_current m = Some l /\ (wl_expires_at_epoch_ms l <=? now) = true))
  /\ lm_lease_duration_ms (expire_if_needed m now) = lm_lease_duration_ms m
  /\ lm_active_input_guard_ms (expire_if_needed m now) = lm_active_input_guard_ms m.
Proof.
  unfold expire_if_needed, lease_expired. destruct (lm_current m) as [l|] eqn:Hl; [|split; [by left|done]].
  cbn. destruct (wl_active_mutation_id l) as [mutation|] eqn:Ha; cbn; [split; [by left|done]|].
  destruct (wl_expires_at_epoch_ms l <=? now) eqn:He; [|split; [by left|done]].
  unfold invalidate. rewrite Hl, Ha. cbn. split; [|done]. right. split; [done|]. split; [by eapply busy_false|].
  split; [done|]. by exists l.
Qed.

Lemma mutation_key_none m : lm_current m = None -> mutation_key m = None.
Proof. intros H. unfold mutation_key. by rewrite H. Qed.

Lemma expire_key m now : mutation_key (expire_if_needed m now) = mutation_key m.
Proof.
  destruct (expire_spec m now) as [[->|(Hn & Hb & _)] _]; [done|]. rewrite (mutation_key_none _ Hn).
  rewrite busy_key in Hb. by destruct (mutation_key m).
Qed.

Lemma expire_move m now : lease_move m (expire_if_needed m now).
Proof.
  destruct (expire_spec m now) as [[->|(Hn & Hb & Hg & l & Hl & _)] _]; [apply move_refl|by eapply move_drop].
Qed.

(** The lease that stays after the expiry is the one before it. *)
Lemma expire_current m now l :
  lm_current (expire_if_needed m now) = Some l -> expire_if_needed m now = m /\ lm_current m = Some l.
Proof. destruct (expire_spec m now) as [[Hm|(Hn & _)] _]; [by rewrite Hm|by rewrite Hn]. Qed.

(** Renewing, showing or writing under the lease. *)
Lemma update_spec m l l' :
  lm_current m = Some l -> lease_owner l' = lease_owner l -> wl_generation l' = wl_generation l ->
  wl_active_mutation_id l' = wl_active_mutation_id l ->
  lease_move m (lm_with m (lm_generation m) (Some l')) /\ mutation_key (lm_with m (lm_generation m) (Some l')) = mutation_key m.
Proof.
  intros Hl Ho Hg Ha. split; [by eapply move_same|]. unfold mutation_key. rewrite Hl. cbn.
  injection Ho as H1 H2 H3. by rewrite Ha, Hg, H1, H2.
Qed.

Lemma grant_spec m0 m c id inst now :
  (m = m0 \/ lm_current m0 <> None /\ lm_generation m = saturating_add (lm_generation m0) 1) -> is_busy m0 = false ->
  lease_move m0 (fst (grant_lease m c id inst now))
  /\ mutation_key (fst (grant_lease m c id inst now)) = mutation_key m0
  /\ lm_current (fst (grant_lease m c id inst now)) = Some (snd (grant_lease m c id inst now)).
Proof.
  intros Hm Hb. split; [|split; [|done]].
  - eapply (move_grant _ _ _ (lm_generation m)); try done. destruct Hm as [->|[_ ->]]; [by left|by right].
  - cbn. rewrite busy_key in Hb. by destruct (mutation_key m0).
Qed.

Lemma acquire_spec m c id inst now m' r :
  acquire m c id inst now = (m', r) ->
  lease_move m m' /\ mutation_key m' = mutation_key m /\ (forall l, r = Ok l -> lm_current m' = Some l).
Proof.
  unfold acquire. set (m1 := expire_if_needed m now).
  assert (Hg : is_busy m = false -> (m1 = m \/ lm_current m <> None /\ lm_generation m1 = saturating_add (lm_generation m) 1)).
  { intros _. unfold m1. destruct (expire_spec m now) as [[->|(_ & _ & Hg & l & Hl & _)] _]; [by left|right]. by rewrite Hl. }
  assert (Hgrant : forall m' r, is_busy m = false ->
    (let '(m, lease) := grant_lease m1 c id inst now in (m, Ok lease)) = (m', r) ->
    lease_move m m' /\ mutation_key m' = mutation_key m /\ (forall l : WriterLease, r = Ok (E:=LeaseError) l -> lm_current m' = Some l)).
  { intros m2 r2 Hb H. destruct (grant_spec m m1 c id inst now (Hg Hb) Hb) as (H1 & H2 & H3).
    destruct (grant_lease m1 c id inst now) as [m3 l3]. simplify_eq. cbn in *. split; [done|]. split; [done|].
    by intros l [= <-]. }
  destruct (lm_current m1) as [l|] eqn:Hl.
  - pose proof (expire_current m now l Hl) as [Hm Hlm]. fold m1 in Hm.
    destruct (exact_owner l c id inst).
    + intros H. simplify_eq. rewrite Hm. destruct (update_spec m l (wl_with l (saturating_add now (lm_lease_duration_ms m)) true
        (wl_last_input_at_epoch_ms l) (wl_active_mutation_id l) (wl_release_after_mutation l)) Hlm) as [H1 H2]; [done..|].
      split; [done|]. split; [done|]. by intros ? [= <-].
    + destruct (wl_active_mutation_id l) as [mutation|] eqn:Ha; cbn.
      * intros H. simplify_eq. split; [apply expire_move|]. split; [apply expire_key|done].
      * destruct (input_is_guarded m1 l now).
        -- intros H. simplify_eq. split; [apply expire_move|]. split; [apply expire_key|done].
        -- apply Hgrant. by eapply busy_false.
  - apply Hgrant. unfold m1 in Hl. destruct (expire_spec m now) as [[Hm|(_ & Hb & _)] _]; [|done].
    rewrite Hm in Hl. unfold is_busy. by rewrite Hl.
Qed.

Lemma fenced_spec m g now m' r :
  fenced_lease m g now = (m', r) ->
  lease_move m m' /\ mutation_key m' = mutation_key m
  /\ (forall l, r = Ok l -> m' = m /\ lm_current m = Some l /\ g = lm_generation m).
Proof.
  unfold fenced_lease. fold (expire_if_needed m now). intros H.
  assert (Hm : m' = expire_if_needed m now) by (repeat case_match; by simplify_eq). subst m'.
  split; [apply expire_move|]. split; [apply expire_key|]. intros l ->.
  destruct (lease_expired m now && _) eqn:He; [by simplify_eq|].
  destruct (negb (g =? lm_generation (expire_if_needed m now))) eqn:Hg; [by simplify_eq|].
  apply negb_false_iff, N.eqb_eq in Hg.
  destruct (lm_current (expire_if_needed m now)) as [l'|] eqn:Hl; simplify_eq.
  apply expire_current in Hl as [Hm Hl]. rewrite Hm. split; [done|]. by rewrite Hl.
Qed.

Lemma lease_client_true l c id : lease_client l c id = true <-> wl_owner_connection_id l = c /\ wl_owner_client_id l = id.
Proof. unfold lease_client. rewrite andb_true_iff, N.eqb_eq, eqb_true. done. Qed.

Lemma authorize_spec m c id g now m' r :
  authorize_write m c id g now = (m', r) ->
  lease_move m m' /\ mutation_key m' = mutation_key m
  /\ (forall l, r = Ok l -> lm_current m' = Some l /\ wl_owner_connection_id l = c /\ wl_owner_client_id l = id
       /\ g = lm_generation m /\ exists l0, lm_current m = Some l0 /\ lease_owner l = lease_owner l0 /\ wl_generation l = wl_generation l0).
Proof.
  unfold authorize_write. destruct (fenced_lease m g now) as [m1 fenced] eqn:Hf. apply fenced_spec in Hf as (H1 & H2 & H3).
  destruct fenced as [l|e]; [|intros; by simplify_eq]. destruct (H3 l eq_refl) as (-> & Hl & Hg).
  destruct (lease_client l c id) eqn:Hc; cbn [negb]; intros H; simplify_eq; [|done]. apply lease_client_true in Hc as [<- <-].
  destruct (update_spec m l (wl_with l (saturating_add now (lm_lease_duration_ms m)) true (Some now)
    (wl_active_mutation_id l) (wl_release_after_mutation l)) Hl) as [H4 H5]; [done..|].
  split; [done|]. split; [done|]. intros l' [= <-]. cbn. do 4 (split; [done|]). by exists l.
Qed.

Lemma renew_spec m c id inst g visible now m' r :
  renew m c id inst g visible now = (m', r) ->
  lease_move m m' /\ mutation_key m' = mutation_key m /\ (forall l, r = Ok l -> lm_current m' = Some l).
Proof.
  unfold renew. destruct (fenced_lease m g now) as [m1 fenced] eqn:Hf. apply fenced_spec in Hf as (H1 & H2 & H3).
  destruct fenced as [l|e]; [|intros; by simplify_eq]. destruct (H3 l eq_refl) as (-> & Hl & Hg).
  destruct (exact_owner l c id inst); cbn [negb]; intros H; simplify_eq; [|done].
  destruct (update_spec m l (wl_with l (saturating_add now (lm_lease_duration_ms m)) visible
    (wl_last_input_at_epoch_ms l) (wl_active_mutation_id l) (wl_release_after_mutation l)) Hl) as [H4 H5]; [done..|].
  split; [done|]. split; [done|]. by intros l' [= <-].
Qed.

Lemma visibility_spec m c id inst visible now m' r :
  set_visibility m c id inst visible now = (m', r) ->
  lease_move m m' /\ mutation_key m' = mutation_key m /\ (forall l, r = Ok l -> lm_current m' = Some l).
Proof.
  unfold set_visibility. destruct (lm_current (expire_if_needed m now)) as [l|] eqn:Hl.
  - apply expire_current in Hl as [-> Hl]. destruct (exact_owner l c id inst); cbn [negb]; intros H; simplify_eq.
    + destruct (update_spec m l (wl_with l (wl_expires_at_epoch_ms l) visible
        (wl_last_input_at_epoch_ms l) (wl_active_mutation_id l) (wl_release_after_mutation l)) Hl) as [H4 H5]; [done..|].
      split; [done|]. split; [done|]. by intros l' [= <-].
    + split; [apply move_refl|done].
  - intros H. simplify_eq. split; [apply expire_move|]. split; [apply expire_key|done].
Qed.

Lemma begin_spec m c id g mutation now m' r :
  begin_mutation m c id g mutation now = (m', r) ->
  lease_move m m'
  /\ match r with
     | Ok (Started l) => mutation_key m = None /\ lm_current m' = Some l
         /\ mutation_key m' = Some (c, id, wl_generation l, mutation) /\ g = lm_generation m
     | Ok (AlreadyInFlight l) => mutation_key m' = mutation_key m /\ lm_current m' = Some l
     | Err _ => mutation_key m' = mutation_key m
     end.
Proof.
  unfold begin_mutation. destruct (N.eqb_spec g (lm_generation m)) as [Hg|Hg]; cbn [negb].
  2:{ intros H. simplify_eq. split; [apply move_refl|done]. }
  destruct (lm_current (expire_if_needed m now)) as [l|] eqn:Hl.
  2:{ intros H. simplify_eq. split; [apply expire_move|apply expire_key]. }
  apply expire_current in Hl as [-> Hl]. destruct (lease_client l c id) eqn:Hc; cbn [negb].
  2:{ intros H. simplify_eq. split; [apply move_refl|done]. }
  apply lease_client_true in Hc as [<- <-]. destruct (wl_active_mutation_id l) as [active|] eqn:Ha.
  - destruct (active =?= mutation); intros H; simplify_eq; (split; [apply move_refl|done]).
  - intros H. simplify_eq. split; [by eapply move_same|]. split; [unfold mutation_key; rewrite Hl; cbn; by rewrite Ha|].
    done.
Qed.

Lemma exact_mutation_key m l c id g mutation :
  lm_current m = Some l -> exact_mutation l c id g mutation = bool_decide (mutation_key m = Some (c, id, g, mutation)).
Proof.
  intros Hl. unfold exact_mutation, mutation_key. rewrite Hl. apply eq_true_iff_eq.
  rewrite !andb_true_iff, lease_client_true, N.eqb_eq, eqb_true, bool_decide_eq_true.
  destruct (wl_active_mutation_id l) as [active|]; cbn; naive_solver.
Qed.

(** Only the call that names the mutation in flight ends it. *)
Lemma finish_spec m c id g mutation now m' r :
  lease_finish_mutation m c id g mutation now = (m', r) ->
  lease_move m m'
  /\ mutation_key m' = (if bool_decide (mutation_key m = Some (c, id, g, mutation)) then None else mutation_key m)
  /\ (forall l, r = Some l -> lm_current m' = None /\ exists l0, lm_current m = Some l0 /\ lease_owner l = lease_owner l0
        /\ wl_generation l = wl_generation l0)
  /\ (forall l, lm_current m = Some l -> mutation_key m = Some (c, id, g, mutation) -> wl_release_after_mutation l = true ->
       r <> None)
  /\ (mutation_key m <> Some (c, id, g, mutation) -> m' = m /\ r = None)
  /\ (r = None -> mutation_key m' = None -> m' = m \/ exists l, lm_current m' = Some l /\ wl_release_after_mutation l = false).
Proof.
  unfold lease_finish_mutation. destruct (lm_current m) as [l|] eqn:Hl.
  2:{ intros H. simplify_eq. rewrite (mutation_key_none _ Hl). split; [apply move_refl|]. cbn. naive_solver. }
  rewrite (exact_mutation_key m l) by done. case_bool_decide as Hk; cbn [negb].
  2:{ intros H. simplify_eq. split; [apply move_refl|]. split; [done|]. naive_solver. }
  destruct (wl_release_after_mutation l) eqn:Hr; cbn [wl_with wl_release_after_mutation].
  - unfold invalidate. cbn. intros H. simplify_eq. split; [by eapply move_drop|]. split; [done|].
    split; [|naive_solver]. intros ? [= <-]. split; [done|]. by exists l.
  - intros H. simplify_eq. split; [by eapply move_same|]. split; [done|]. split; [done|].
    split; [intros ? [= <-]; congruence|]. split; [done|]. intros _ _. right. by eexists.
Qed.

Lemma disconnect_spec m c id m' b :
  lease_disconnect m c id = (m', b) ->
  lease_move m m' /\ mutation_key m' = mutation_key m
  /\ (is_busy m = true -> lm_current m' <> None
       /\ forall l, lm_current m = Some l -> wl_release_after_mutation l = true ->
            exists l', lm_current m' = Some l' /\ wl_release_after_mutation l' = true).
Proof.
  unfold lease_disconnect. destruct (is_some_and (lm_current m) _) eqn:Ho.
  - destruct (invalidate m) as [m1 r] eqn:Hi. intros H. simplify_eq.
    apply invalidate_spec in Hi as (H1 & H2 & H3 & H4 & H5). split; [done|]. split; [done|]. intros Hb.
    destruct (H5 Hb) as (_ & l' & Hl' & Hr). split; [by rewrite Hl'|]. intros l _ _. by exists l'.
  - intros H. simplify_eq. split; [apply move_refl|]. split; [done|]. intros Hb. split; [|intros l Hl Hr; by exists l].
    intros Hn. unfold is_busy in Hb. by rewrite Hn in Hb.
Qed.

(** *** What a call does *)

(** The leases a reply names, as the lease stood when it was named. *)
Definition named (reply : WebReply) : list WriterLease :=
  match reply with
  | WrLease (Ok l) | WrBegin (Ok (Started l)) | WrBegin (Ok (AlreadyInFlight l)) | WrCurrent (Some l) => [l]
  | WrRelease r => match cr_released_lease r with Some l => [l] | None => [] end
  | WrRequest (RequestApplied (Some l) _) => [l]
  | WrFinish f => match mf_released_lease f with Some l => [l] | None => [] end
  | _ => []
  end.

(** The mutation a call began, and the one its arguments name as finished. *)
Definition started (entry : WebCall * WebReply) : option (N * text * N * text) :=
  match entry with
  | (WcBegin c id _ mutation _, WrBegin (Ok (Started l))) => Some (c, id, wl_generation l, mutation)
  | _ => None
  end.

Definition finishes (call : WebCall) : option (N * text * N * text) :=
  match call with WcFinish c id g mutation _ => Some (c, id, g, mutation) | _ => None end.

Definition next_open (open : option (N * text * N * text)) (entry : WebCall * WebReply) : option (N * text * N * text) :=
  match started entry with
  | Some key => Some key
  | None => if bool_decide (open <> None /\ finishes (fst entry) = open) then None else open
  end.

(** A lease is named as it was before or as it is after the call. *)
Definition named_by (m m' : WriterLeaseManager) (l : WriterLease) : Prop :=
  exists m0 l0, (m0 = m \/ m0 = m') /\ lm_current m0 = Some l0 /\ lease_owner l = lease_owner l0
    /\ wl_generation l = wl_generation l0.

Lemma named_after m m' l : lm_current m' = Some l -> named_by m m' l.
Proof. intros H. exists m', l. by split; [right|]. Qed.

Lemma named_before m m' l : lm_current m = Some l -> named_by m m' l.
Proof. intros H. exists m, l. by split; [left|]. Qed.

Lemma call_spec s call s' reply :
  web_call s call = (s', reply) ->
  let m := wc_writer_leases s in let m' := wc_writer_leases s' in
  lease_move m m' /\ mutation_key m' = next_open (mutation_key m) (call, reply)
  /\ (started (call, reply) <> None -> mutation_key m = None)
  /\ (forall l, l ∈ named reply -> named_by m m' l).
Proof.
  assert (Hsame : forall m m' entry, started entry = None -> finishes (fst entry) = None ->
    mutation_key m' = mutation_key m -> mutation_key m' = next_open (mutation_key m) entry).
  { intros m m' entry Hst Hf Hk. unfold next_open. rewrite Hst, Hf. rewrite bool_decide_false by naive_solver. done. }
  assert (Hnone : forall (m m' : WriterLeaseManager) l, l ∈ ([] : list WriterLease) -> named_by m m' l) by set_solver.
  assert (Hone : forall (m m' : WriterLeaseManager) l0 l, lm_current m' = Some l0 -> l ∈ [l0] -> named_by m m' l).
  { intros m m' l0 l H Hin. apply list_elem_of_singleton in Hin as ->. by apply named_after. }
  intros H. destruct call as [c id inst now|c id g now|c id g mutation now|c id inst g visible now|c id inst visible now
    |now|c id force controller|c id|c id|target|c id g mutation now|clear]; unfold web_call in H; cbv zeta.
  - destruct (acquire _ c id inst now) as [m r] eqn:E. simplify_eq. apply acquire_spec in E as (H1 & H2 & H3).
    split; [done|]. split; [by apply Hsame; destruct r|]. split; [by destruct r|]. destruct r as [l0|]; [|apply Hnone].
    intros l. apply Hone. by apply H3.
  - destruct (authorize_write _ c id g now) as [m r] eqn:E. simplify_eq. apply authorize_spec in E as (H1 & H2 & H3).
    split; [done|]. split; [by apply Hsame; destruct r|]. split; [by destruct r|]. destruct r as [l0|]; [|apply Hnone].
    intros l. apply Hone. by apply H3.
  - destruct (begin_mutation _ c id g mutation now) as [m r] eqn:E. simplify_eq. apply begin_spec in E as (H1 & H2).
    split; [done|]. destruct r as [[l0|l0]|e].
    + destruct H2 as (H2 & H3 & H4 & _). split; [done|]. split; [done|]. intros l. by apply Hone.
    + destruct H2 as (H2 & H3). split; [by apply Hsame|]. split; [done|]. intros l. by apply Hone.
    + split; [by apply Hsame|]. split; [done|]. apply Hnone.
  - destruct (renew _ c id inst g visible now) as [m r] eqn:E. simplify_eq. apply renew_spec in E as (H1 & H2 & H3).
    split; [done|]. split; [by apply Hsame; destruct r|]. split; [by destruct r|]. destruct r as [l0|]; [|apply Hnone].
    intros l. apply Hone. by apply H3.
  - destruct (set_visibility _ c id inst visible now) as [m r] eqn:E. simplify_eq. apply visibility_spec in E as (H1 & H2 & H3).
    split; [done|]. split; [by apply Hsame; destruct r|]. split; [by destruct r|]. destruct r as [l0|]; [|apply Hnone].
    intros l. apply Hone. by apply H3.
  - unfold current_lease in H. simplify_eq. cbn [wc_with wc_leases wc_writer_leases named]. split; [apply expire_move|].
    split; [apply Hsame; try done; apply expire_key|]. split; [done|].
    destruct (lm_current (expire_if_needed _ now)) as [l0|] eqn:E; [|apply Hnone]. intros l. by apply Hone.
  - unfold claim_legacy in H. assert (wc_writer_leases s' = wc_writer_leases s) as -> by (repeat case_match; by simplify_eq).
    split; [apply move_refl|]. split; [apply Hsame; try done; by repeat case_match; simplify_eq|].
    repeat case_match; simplify_eq; (split; [done|apply Hnone]).
  - unfold clear_legacy_claim in H. simplify_eq. assert (wc_writer_leases (if legacy_authorizes s c id then
      wc_with s (wc_writer_leases s) None (wc_deferred_controller_target s) else s) = wc_writer_leases s) as -> by by case_match.
    split; [apply move_refl|]. split; [by apply Hsame|]. split; [done|apply Hnone].
  - unfold release_connection in H. destruct (lease_disconnect _ c id) as [m b] eqn:E. simplify_eq.
    apply disconnect_spec in E as (H1 & H2 & _). cbn [wc_with wc_leases wc_writer_leases named]. split; [done|]. split; [by apply Hsame|]. split; [done|].
    destruct b; [|apply Hnone]. destruct (lm_current (wc_writer_leases s)) as [l0|] eqn:Hl; [|apply Hnone].
    intros l ->%list_elem_of_singleton. by apply named_before.
  - unfold request_controller in H. destruct (invalidate _) as [m r] eqn:E. apply invalidate_spec in E as (H1 & H2 & H3 & _).
    destruct (is_busy _); simplify_eq; cbn [wc_with wc_leases wc_writer_leases named]; (split; [done|]); (split; [by apply Hsame|]); (split; [done|]); [apply Hnone|].
    destruct r as [l0|]; [|apply Hnone]. intros l ->%list_elem_of_singleton. by apply named_before, H3.
  - unfold finish_mutation in H. destruct (lease_finish_mutation _ c id g mutation now) as [m r] eqn:E.
    apply finish_spec in E as (H1 & H2 & H3 & _).
    assert (Hs : wc_writer_leases s' = m /\ reply = WrFinish {| mf_released_lease := r;
      mf_controller_target := match r with Some _ => wc_deferred_controller_target s | None => None end |})
      by (destruct r; by simplify_eq). destruct Hs as [-> ->]. split; [done|]. split.
    { rewrite H2. unfold next_open. cbn [started fst finishes].
      repeat case_bool_decide; try done; exfalso; naive_solver. }
    split; [done|]. cbn [named mf_released_lease]. destruct r as [l0|]; [|apply Hnone]. intros l ->%list_elem_of_singleton.
    destruct (H3 l0 eq_refl) as (_ & l1 & Hl1 & Ho & Hg). exists (wc_writer_leases s), l1. by split; [left|].
  - unfold reset_web, request_controller in H. destruct (invalidate _) as [m r] eqn:E.
    apply invalidate_spec in E as (H1 & H2 & H3 & _).
    destruct clear, (is_busy _); simplify_eq; cbn [wc_with wc_leases wc_writer_leases named]; (split; [done|]); (split; [by apply Hsame|]); (split; [done|]);
      try apply Hnone; (destruct r as [l0|]; [|apply Hnone]); intros l ->%list_elem_of_singleton; by apply named_before, H3.
Qed.

Definition open_mutation (trace : list (WebCall * WebReply)) : option (N * text * N * text) :=
  foldr (fun entry open => next_open open entry) None trace.

Fixpoint mutations_exclusive (trace : list (WebCall * WebReply)) : Prop :=
  match trace with
  | [] => True
  | entry :: earlier => (started entry <> None -> open_mutation earlier = None) /\ mutations_exclusive earlier
  end.

Lemma reached_open duration s trace :
  web_reached duration s trace ->
  mutation_key (wc_writer_leases s) = open_mutation trace /\ mutations_exclusive trace.
Proof.
  intros H. induction H as [|s trace call s' reply Hr [IHk IHe] Hc]; [done|].
  apply call_spec in Hc as (_ & Hk & Hst & _). cbn [mutations_exclusive].
  change (open_mutation ((call, reply) :: trace)) with (next_open (open_mutation trace) (call, reply)).
  rewrite <-IHk. done.
Qed.

Lemma busy_expire m now : is_busy m = true -> expire_if_needed m now = m.
Proof.
  intros Hb. destruct (expire_spec m now) as [[H|(_ & Hf & _)] _]; [done|congruence].
Qed.

Lemma key_lease m c id g mutation :
  mutation_key m = Some (c, id, g, mutation) ->
  exists l, lm_current m = Some l /\ wl_active_mutation_id l = Some mutation /\ wl_owner_connection_id l = c
    /\ wl_owner_client_id l = id /\ wl_generation l = g.
Proof.
  unfold mutation_key. destruct (lm_current m) as [l|]; [|done]. destruct (wl_active_mutation_id l) as [a|] eqn:Ha; [|done].
  cbn. intros [= <- <- <- <-]. by exists l.
Qed.

(** C31: While a mutation is in flight no other begins: of two mutations that were started, the first
    was finished, by the call that names its client, generation and id, before the second began.
    Until then the lease stays with its client and generation, every other client that wants it
    is told it is taken, and no other client is authorised to write. *)
Theorem mutations_never_overlap duration s trace :
  web_reached duration s trace ->
  mutations_exclusive trace
  /\ forall c id g mutation, open_mutation trace = Some (c, id, g, mutation) ->
       (exists l, lm_current (wc_writer_leases s) = Some l /\ wl_active_mutation_id l = Some mutation
          /\ wl_owner_connection_id l = c /\ wl_owner_client_id l = id /\ wl_generation l = g)
       /\ (forall c' id' inst' now, (c', id') <> (c, id) ->
            snd (acquire (wc_writer_leases s) c' id' inst' now) = Err ActiveOwner)
       /\ (forall c' id' g' now l, snd (authorize_write (wc_writer_leases s) c' id' g' now) = Ok l -> (c', id') = (c, id)).
Proof.
  intros H. apply reached_open in H as [Hk He]. split; [done|]. intros c id g mutation Ho. rewrite Ho in Hk.
  pose proof (busy_key (wc_writer_leases s)) as Hb. rewrite Hk in Hb.
  destruct (key_lease _ _ _ _ _ Hk) as (l & Hl & Ha & Hc & Hid & Hg). split; [by exists l|]. split.
  - intros c' id' inst' now Hne. unfold acquire. rewrite busy_expire by done. rewrite Hl.
    assert (exact_owner l c' id' inst' = false) as ->.
    { apply not_true_iff_false. unfold exact_owner. rewrite !andb_true_iff, N.eqb_eq, !eqb_true. naive_solver. }
    by rewrite Ha.
  - intros c' id' g' now l' Hok. destruct (authorize_write _ c' id' g' now) as [m' r] eqn:E. cbn in Hok. subst r.
    apply authorize_spec in E as (_ & _ & H3). destruct (H3 l' eq_refl) as (_ & Hc' & Hid' & _ & l0 & Hl0 & Hown & _).
    injection Hown as H1 H2 _. congruence.
Qed.

(** *** Generations *)

Definition all_named (trace : list (WebCall * WebReply)) : list WriterLease :=
  trace ≫= (fun entry => named (snd entry)).

Record generations_ok (m : WriterLeaseManager) (trace : list (WebCall * WebReply)) : Prop := {
  go_bound : lm_generation m <= 2 * count trace;
  go_current : forall l, lm_current m = Some l -> wl_generation l = lm_generation m;
  go_named : forall l, l ∈ all_named trace -> wl_generation l <= lm_generation m;
  go_latest : forall l, l ∈ all_named trace -> wl_generation l = lm_generation m ->
                exists l0, lm_current m = Some l0 /\ lease_owner l = lease_owner l0;
  go_one : forall l1 l2, l1 ∈ all_named trace -> l2 ∈ all_named trace -> wl_generation l1 = wl_generation l2 ->
             lease_owner l1 = lease_owner l2;
}.

Lemma saturating_grows g : g < u64_max -> saturating_add g 1 = g + 1.
Proof. unfold saturating_add. lia. Qed.

Lemma move_generation m m' :
  lease_move m m' -> lm_generation m + 2 < u64_max ->
  lm_generation m <= lm_generation m' <= lm_generation m + 2
  /\ (lm_generation m' = lm_generation m ->
       match lm_current m, lm_current m' with
       | Some l, Some l' => lease_owner l' = lease_owner l
       | None, None => True
       | _, _ => False
       end).
Proof.
  intros Hm Hlen. destruct Hm as [l l' H1 H2 H3 H4 H5|H1 H2 H3|l H1 H2 H3|l' g Hg H1 H2 H3 H4].
  - rewrite H1, H2, H5. split; [lia|done].
  - rewrite H1, H2, H3. split; [lia|done].
  - rewrite saturating_grows in H3 by lia. rewrite H3. split; [lia|]. lia.
  - rewrite H4. destruct Hg as [-> | ->]; rewrite !saturating_grows by (rewrite ?saturating_grows by lia; lia); (split; lia).
Qed.

(** What a reply names is the lease before the call, or the one it granted. *)
Lemma named_generation m m' trace l :
  generations_ok m trace -> lease_move m m' -> lm_generation m + 2 < u64_max -> named_by m m' l ->
  (wl_generation l = lm_generation m /\ exists l0, lm_current m = Some l0 /\ lease_owner l = lease_owner l0)
  \/ (lm_generation m < wl_generation l /\ exists l0, lm_current m' = Some l0 /\ wl_generation l0 = wl_generation l
      /\ lease_owner l = lease_owner l0).
Proof.
  intros [Hb Hc Hn Hl Ho] Hm Hlen (m0 & l0 & [-> | ->] & Hl0 & Hown & Hgen).
  - left. rewrite Hgen, (Hc l0 Hl0). split; [done|]. by exists l0.
  - destruct Hm as [l1 l1' H1 H2 H3 H4 H5|H1 H2 H3|l1 H1 H2 H3|l1' g Hg H1 H2 H3 H4].
    + rewrite H2 in Hl0. injection Hl0 as <-. left. rewrite Hgen, H4, (Hc l1 H1). split; [done|].
      exists l1. split; [done|]. by rewrite Hown.
    + by rewrite H2 in Hl0.
    + by rewrite H2 in Hl0.
    + rewrite H2 in Hl0. injection Hl0 as <-. right. rewrite Hgen, H3. split; [|by exists l1'].
      destruct Hg as [-> | ->]; rewrite !saturating_grows by (rewrite ?saturating_grows by lia; lia); lia.
Qed.

Lemma generations_step m m' trace call reply :
  generations_ok m trace -> lease_move m m' -> lm_generation m + 2 < u64_max ->
  (forall l, l ∈ named reply -> named_by m m' l) -> generations_ok m' ((call, reply) :: trace).
Proof.
  intros Hok Hm Hlen Hnamed. destruct (move_generation _ _ Hm Hlen) as [Hg Hsame].
  pose proof (fun l Hl => named_generation m m' trace l Hok Hm Hlen (Hnamed l Hl)) as Hnew.
  assert (Hcur : forall l, lm_current m' = Some l -> wl_generation l = lm_generation m').
  { destruct Hm as [l1 l1' H1 H2 H3 H4 H5|H1 H2 H3|l1 H1 H2 H3|l1' g Hg' H1 H2 H3 H4]; intros l Hl.
    - assert (l = l1') as -> by congruence. rewrite H4, H5. by apply (go_current _ _ Hok).
    - congruence.
    - congruence.
    - assert (l = l1') as -> by congruence. by rewrite H3, H4. }
  destruct Hok as [Hb Hc Hn Hl Ho].
  assert (Hcons : all_named ((call, reply) :: trace) = named reply ++ all_named trace) by done.
  assert (Hlast : forall l, wl_generation l = lm_generation m' -> wl_generation l = lm_generation m ->
    (exists l0, lm_current m = Some l0 /\ lease_owner l = lease_owner l0) ->
    exists l0, lm_current m' = Some l0 /\ lease_owner l = lease_owner l0).
  { intros l H1 H2 (l0 & Hl0 & Hown). specialize (Hsame ltac:(congruence)). rewrite Hl0 in Hsame.
    destruct (lm_current m') as [l1|]; [|done]. exists l1. split; [done|]. congruence. }
  constructor; [|done|..].
  - rewrite count_cons. lia.
  - intros l. rewrite Hcons, elem_of_app. intros [Hin|Hin]; [|specialize (Hn _ Hin); lia].
    destruct (Hnew _ Hin) as [[-> _]|(_ & l0 & Hl0 & Hgen & _)]; [lia|]. rewrite <-Hgen, (Hcur _ Hl0). done.
  - intros l. rewrite Hcons, elem_of_app. intros [Hin|Hin] Hgen.
    + destruct (Hnew _ Hin) as [[H1 H2]|(_ & l0 & Hl0 & _ & Hown)]; [by apply Hlast|by exists l0].
    + assert (wl_generation l = lm_generation m) as H1 by (specialize (Hn _ Hin); lia). apply Hlast; auto.
  - intros l1 l2. rewrite Hcons, !elem_of_app. intros [H1|H1] [H2|H2] Hgen.
    + destruct (Hnew _ H1) as [[Hg1 (l3 & Hl3 & ->)]|(Hg1 & l3 & Hl3 & _ & ->)],
        (Hnew _ H2) as [[Hg2 (l4 & Hl4 & ->)]|(Hg2 & l4 & Hl4 & _ & ->)]; [congruence|lia|lia|congruence].
    + specialize (Hn _ H2). destruct (Hnew _ H1) as [[Hg1 (l3 & Hl3 & ->)]|(Hg1 & _)]; [|lia].
      destruct (Hl _ H2) as (l4 & Hl4 & ->); [congruence|congruence].
    + specialize (Hn _ H1). destruct (Hnew _ H2) as [[Hg2 (l3 & Hl3 & ->)]|(Hg2 & _)]; [|lia].
      destruct (Hl _ H1) as (l4 & Hl4 & ->); [congruence|congruence].
    + by apply Ho.
Qed.

(** C32: A generation names one owner: all leases that calls answered with the same generation, in
    whatever order clients took, wrote under, renewed, lost and dropped leases, belong to the same
    connection, client and tab, and who was authorised to write under a generation is the client it
    names.  (The counter would have to saturate, after 2^63 calls, for a generation to recur.) *)
Theorem generation_names_one_owner duration s trace :
  web_reached duration s trace -> 2 * count trace < u64_max ->
  (forall l1 l2, l1 ∈ all_named trace -> l2 ∈ all_named trace -> wl_generation l1 = wl_generation l2 ->
     lease_owner l1 = lease_owner l2)
  /\ (forall c id g now l, (WcAuthorize c id g now, WrLease (Ok l)) ∈ trace ->
        wl_generation l = g /\ wl_owner_connection_id l = c /\ wl_owner_client_id l = id).
Proof.
  intros H Hlen.
  cut (generations_ok (wc_writer_leases s) trace
       /\ forall c id g now l, (WcAuthorize c id g now, WrLease (Ok l)) ∈ trace ->
            wl_generation l = g /\ wl_owner_connection_id l = c /\ wl_owner_client_id l = id).
  { intros [Hok Ha]. split; [apply (go_one _ _ Hok)|done]. }
  induction H as [|s trace call s' reply Hr IH Hc].
  - split; [|set_solver]. constructor; cbn; try done; set_solver.
  - rewrite count_cons in Hlen. destruct IH as [IH1 IH2]; [lia|].
    assert (Hg : lm_generation (wc_writer_leases s) + 2 < u64_max) by (pose proof (go_bound _ _ IH1); lia).
    pose proof Hc as Hc'. apply call_spec in Hc' as (Hm & _ & _ & Hn). split; [by apply (generations_step (wc_writer_leases s))|].
    intros c id g now l [[= <- <-]|Hin]%elem_of_cons; [|by eapply IH2]. cbn in Hc.
    destruct (authorize_write _ c id g now) as [m r] eqn:E. simplify_eq.
    apply authorize_spec in E as (_ & _ & H3). destruct (H3 l eq_refl) as (_ & Hc' & Hid & -> & l0 & Hl0 & _ & ->).
    split; [|done]. by apply (go_current _ _ IH1).
Qed.

(** *** The controller who waits *)

(** A busy lease marked for release stays marked until its mutation is finished. *)
Definition marked (m : WriterLeaseManager) : Prop :=
  is_busy m = true /\ exists l, lm_current m = Some l /\ wl_release_after_mutation l = true.

Lemma marked_update m l l' :
  lm_current m = Some l -> wl_active_mutation_id l' = wl_active_mutation_id l ->
  wl_release_after_mutation l' = wl_release_after_mutation l ->
  marked m -> marked (lm_with m (lm_generation m) (Some l')).
Proof.
  intros Hl Ha Hr [Hb (l0 & Hl0 & Hr0)]. unfold marked, is_busy in *. rewrite Hl in *. injection Hl0 as <-. cbn in *.
  rewrite Ha. split; [done|]. exists l'. split; [done|congruence].
Qed.

Lemma marked_invalidate m : is_busy m = true -> marked (fst (invalidate m)).
Proof.
  unfold is_busy, invalidate. destruct (lm_current m) as [l|]; [|done]. cbn.
  destruct (wl_active_mutation_id l) as [a|] eqn:Ha; [|done]. intros _. unfold marked, is_busy. cbn.
  split; [done|]. by eexists.
Qed.

Lemma marked_expired m now : is_busy m = true -> lease_expired m now = false.
Proof.
  unfold is_busy, lease_expired. destruct (lm_current m) as [l|]; [|done]. cbn. by destruct (wl_active_mutation_id l).
Qed.

Lemma marked_fenced m g now : is_busy m = true -> fst (fenced_lease m g now) = m.
Proof. intros Hb. unfold fenced_lease. rewrite marked_expired by done. cbn. repeat case_match; done. Qed.

Lemma marked_acquire m c id inst now : marked m -> marked (fst (acquire m c id inst now)).
Proof.
  intros Hm. unfold acquire. rewrite busy_expire by apply Hm. destruct Hm as [Hb (l & Hl & Hr)]. rewrite Hl.
  destruct (exact_owner l c id inst); [by apply (marked_update m l); try done; split; [done|exists l]|].
  unfold is_busy in Hb. rewrite Hl in Hb. cbn in Hb. rewrite Hb. unfold marked, is_busy. cbn. rewrite Hl. cbn. rewrite Hb.
  split; [done|]. by exists l.
Qed.

Lemma marked_authorize m c id g now : marked m -> marked (fst (authorize_write m c id g now)).
Proof.
  intros Hm. unfold authorize_write. pose proof (marked_fenced m g now (proj1 Hm)) as Hf.
  destruct (fenced_lease m g now) as [m1 fenced] eqn:E. cbn in Hf. subst m1. apply fenced_spec in E as (_ & _ & H3).
  destruct fenced as [l|e]; [|done]. destruct (H3 l eq_refl) as (_ & Hl & _).
  destruct (lease_client l c id); cbn [negb]; [|done]. by apply (marked_update m l).
Qed.

Lemma marked_renew m c id inst g visible now : marked m -> marked (fst (renew m c id inst g visible now)).
Proof.
  intros Hm. unfold renew. pose proof (marked_fenced m g now (proj1 Hm)) as Hf.
  destruct (fenced_lease m g now) as [m1 fenced] eqn:E. cbn in Hf. subst m1. apply fenced_spec in E as (_ & _ & H3).
  destruct fenced as [l|e]; [|done]. destruct (H3 l eq_refl) as (_ & Hl & _).
  destruct (exact_owner l c id inst); cbn [negb]; [|done]. by apply (marked_update m l).
Qed.

Lemma marked_visibility m c id inst visible now : marked m -> marked (fst (set_visibility m c id inst visible now)).
Proof.
  intros Hm. unfold set_visibility. rewrite busy_expire by apply Hm.
  destruct (lm_current m) as [l|] eqn:Hl; [|done]. destruct (exact_owner l c id inst); cbn [negb]; [|done].
  by apply (marked_update m l).
Qed.

Lemma marked_begin m c id g mutation now : marked m -> marked (fst (begin_mutation m c id g mutation now)).
Proof.
  intros Hm. unfold begin_mutation. destruct (negb _); [done|]. rewrite busy_expire by apply Hm.
  destruct (lm_current m) as [l|] eqn:Hl; [|done]. destruct (lease_client l c id); cbn [negb]; [|done].
  destruct (wl_active_mutation_id l) as [a|] eqn:Ha; [by destruct (a =?= mutation)|].
  exfalso. destruct Hm as [Hb _]. unfold is_busy in Hb. rewrite Hl in Hb. cbn in Hb. by rewrite Ha in Hb.
Qed.

Lemma marked_disconnect m c id : marked m -> marked (fst (lease_disconnect m c id)).
Proof.
  intros Hm. unfold lease_disconnect. destruct (is_some_and _ _); [|done].
  pose proof (marked_invalidate m (proj1 Hm)) as H. by destruct (invalidate m).
Qed.

(** A finished mutation under a marked lease ends the lease. *)
Lemma marked_finish m c id g mutation now :
  marked m ->
  marked (fst (lease_finish_mutation m c id g mutation now)) /\ snd (lease_finish_mutation m c id g mutation now) = None
  \/ lm_current (fst (lease_finish_mutation m c id g mutation now)) = None
     /\ snd (lease_finish_mutation m c id g mutation now) <> None.
Proof.
  intros Hm. unfold lease_finish_mutation. destruct (lm_current m) as [l|] eqn:Hl; [|by left].
  destruct (exact_mutation l c id g mutation); cbn [negb]; [|by left]. right.
  destruct Hm as [_ (l0 & Hl0 & Hr)]. assert (l0 = l) as -> by congruence. cbn [wl_with wl_release_after_mutation].
  by rewrite Hr.
Qed.

Lemma call_marked s call :
  (wc_deferred_controller_target s <> None -> marked (wc_writer_leases s)) ->
  wc_deferred_controller_target (fst (web_call s call)) <> None -> marked (wc_writer_leases (fst (web_call s call))).
Proof.
  intros H. destruct call as [c id inst now|c id g now|c id g mutation now|c id inst g visible now|c id inst visible now
    |now|c id force controller|c id|c id|target|c id g mutation now|clear]; unfold web_call.
  - pose proof (marked_acquire (wc_writer_leases s) c id inst now). destruct (acquire _ c id inst now). cbn in *. auto.
  - pose proof (marked_authorize (wc_writer_leases s) c id g now). destruct (authorize_write _ c id g now). cbn in *. auto.
  - pose proof (marked_begin (wc_writer_leases s) c id g mutation now). destruct (begin_mutation _ c id g mutation now). cbn in *. auto.
  - pose proof (marked_renew (wc_writer_leases s) c id inst g visible now). destruct (renew _ c id inst g visible now). cbn in *. auto.
  - pose proof (marked_visibility (wc_writer_leases s) c id inst visible now). destruct (set_visibility _ c id inst visible now). cbn in *. auto.
  - unfold current_lease. cbn. intros Hd. rewrite busy_expire; [auto|]. by apply H.
  - unfold claim_legacy. repeat case_match; simplify_eq; cbn; done.
  - unfold clear_legacy_claim. repeat case_match; simplify_eq; cbn; done.
  - unfold release_connection. pose proof (marked_disconnect (wc_writer_leases s) c id).
    destruct (lease_disconnect _ c id). cbn in *. auto.
  - unfold request_controller. pose proof (marked_invalidate (wc_writer_leases s)).
    destruct (invalidate _). destruct (is_busy _); cbn in *; auto; done.
  - unfold finish_mutation. intros Hd.
    pose proof (fun Hm => marked_finish (wc_writer_leases s) c id g mutation now Hm) as Hf.
    destruct (lease_finish_mutation _ c id g mutation now) as [m [r|]]; cbn in *; [done|].
    destruct (Hf (H Hd)) as [[? _]|[_ ?]]; done.
  - unfold reset_web, request_controller. pose proof (marked_invalidate (wc_writer_leases s)) as Hi.
    destruct (invalidate _). destruct clear, (is_busy _) eqn:Hb; cbn in *; auto; try done.
    intros Hd. destruct (H Hd) as [Hb' _]. congruence.
Qed.

(** The controller that waits, as the calls and their replies tell: the one of the last request
    that was deferred (a reset to the local controller keeps one that waits already), until a
    request is applied or a finished mutation released its lease. *)
Definition waits_after (waited : option ControllerTarget) (x : WebCall * WebReply) : option ControllerTarget :=
  match x with
  | (WcRequest target, WrRequest RequestDeferred) => Some target
  | (WcReset true, WrRequest RequestDeferred) => Some (default ControlLocal waited)
  | (WcRequest _, WrRequest (RequestApplied _ _)) | (WcReset true, WrRequest (RequestApplied _ _)) => None
  | (WcFinish _ _ _ _ _, WrFinish r) => if is_some (mf_released_lease r) then None else waited
  | _ => waited
  end.

Definition waiting (trace : list (WebCall * WebReply)) : option ControllerTarget :=
  fold_right (fun x waited => waits_after waited x) None trace.

Lemma call_waits s call :
  wc_deferred_controller_target (fst (web_call s call))
  = waits_after (wc_deferred_controller_target s) (call, snd (web_call s call)).
Proof.
  destruct call as [| | | | | | | | |target| |clear]; cbn [web_call]; try (by repeat case_match).
  - unfold claim_legacy. by repeat case_match; simplify_eq.
  - unfold clear_legacy_claim. by repeat case_match; simplify_eq.
  - unfold release_connection. by destruct (lease_disconnect _ _ _).
  - unfold request_controller. destruct (invalidate _). by destruct (is_busy _).
  - unfold finish_mutation. by destruct (lease_finish_mutation _ _ _ _ _ _) as [m [l|]].
  - unfold reset_web, request_controller. destruct clear, (is_busy _), (invalidate _); done.
Qed.

Lemma reached_waits duration s trace :
  web_reached duration s trace -> wc_deferred_controller_target s = waiting trace.
Proof.
  induction 1 as [|s trace call s' reply Hr IH Hc]; [done|]. cbn [waiting fold_right].
  fold (waiting trace). rewrite <- IH. pose proof (call_waits s call) as H. by rewrite Hc in H.
Qed.

(** C33: A controller whose request is deferred, because a mutation is in flight, is not forgotten:
    whatever is called, the target kept is that of the last request deferred, a later one taking
    the place of an earlier one and a reset to the local controller keeping it, until a request is
    applied at once or the mutation ends.  As long as a target is kept, the mutation is still in
    flight under a lease marked for release, and the call that finishes it releases the lease,
    hands over that target and keeps none. *)
Theorem deferred_controller_waits duration s trace :
  web_reached duration s trace ->
  wc_deferred_controller_target s = waiting trace
  /\ forall target, waiting trace = Some target ->
  exists c id g mutation, open_mutation trace = Some (c, id, g, mutation)
    /\ forall now, exists l s',
        finish_mutation s c id g mutation now
        = (s', {| mf_released_lease := Some l; mf_controller_target := Some target |})
        /\ lm_current (wc_writer_leases s') = None /\ wc_deferred_controller_target s' = None.
Proof.
  intros H. pose proof (reached_waits _ _ _ H) as Hw. split; [done|]. intros target Hd. rewrite <- Hw in Hd.
  assert (Hm : marked (wc_writer_leases s)).
  { assert (Hi : wc_deferred_controller_target s <> None -> marked (wc_writer_leases s)); [|by apply Hi; rewrite Hd].
    clear Hd Hw. induction H as [|s trace call s' reply Hr IH Hc]; [done|].
    pose proof (call_marked s call IH) as Hm. by rewrite Hc in Hm. }
  apply reached_open in H as [Hk _]. destruct Hm as [Hb (l & Hl & Hr)]. rewrite busy_key in Hb.
  destruct (mutation_key (wc_writer_leases s)) as [[[[c id] g] mutation]|] eqn:Hkey; [|done].
  exists c, id, g, mutation. split; [done|]. intros now. unfold finish_mutation.
  destruct (lease_finish_mutation _ c id g mutation now) as [m r] eqn:E.
  apply finish_spec in E as (_ & _ & H3 & H4 & _). specialize (H4 l Hl Hkey Hr). destruct r as [l'|]; [|done].
  destruct (H3 l' eq_refl) as [Hn _]. rewrite Hd. eexists l', _. split; [done|]. by split.
Qed.

(** *** Handing the lease over *)

Lemma authorize_lease m c id g t m1 l :
  authorize_write m c id g t = (m1, Ok l) ->
  g = lm_generation m /\ m1 = lm_with m (lm_generation m) (Some l)
  /\ wl_expires_at_epoch_ms l = saturating_add t (lm_lease_duration_ms m) /\ wl_visible l = true
  /\ wl_last_input_at_epoch_ms l = Some t /\ is_some (wl_active_mutation_id l) = is_busy m.
Proof.
  unfold authorize_write. destruct (fenced_lease m g t) as [m0 fenced] eqn:Hf.
  apply fenced_spec in Hf as (_ & _ & H3). destruct fenced as [l0|e]; [|done].
  destruct (H3 l0 eq_refl) as (-> & Hl & Hg). destruct (negb _); [done|]. intros [= <- <-].
  unfold is_busy. rewrite Hl. done.
Qed.

(** A generation that is over stays refused. *)
Lemma stale_refused m c id g t :
  g < lm_generation m -> lm_generation m < u64_max ->
  exists current_generation, snd (authorize_write m c id g t) = Err (StaleGeneration current_generation).
Proof.
  intros Hg Hmax. unfold authorize_write, fenced_lease. fold (expire_if_needed m t).
  rewrite (proj2 (N.eqb_neq g (lm_generation m))) by lia. rewrite andb_false_r.
  assert (g =? lm_generation (expire_if_needed m t) = false) as ->; [|by eexists].
  apply N.eqb_neq. destruct (expire_spec m t) as [[->|(_ & _ & -> & _)] _]; [lia|].
  rewrite saturating_grows by lia. lia.
Qed.

(** A client that is writing is not interrupted: for 700 ms after it was authorised, while its
    lease lives, no other tab gets the lease.  Once that time is over and no mutation runs, another
    tab gets it by asking, and from then on nobody writes under the old generation. *)
Theorem handover_fences_former_owner m c id g t m1 l c' id' inst' t' :
  authorize_write m c id g t = (m1, Ok l) -> (c', id', inst') <> lease_owner l ->
  lm_generation m + 2 < u64_max ->
  (t' < saturating_add t (lm_active_input_guard_ms m) -> t' < wl_expires_at_epoch_ms l ->
     acquire m1 c' id' inst' t' = (m1, Err ActiveOwner))
  /\ (saturating_add t (lm_active_input_guard_ms m) <= t' -> is_busy m = false ->
      exists m2 l2, acquire m1 c' id' inst' t' = (m2, Ok l2) /\ lease_owner l2 = (c', id', inst')
        /\ lm_current m2 = Some l2
        /\ forall c'' id'' t'', exists current_generation,
             snd (authorize_write m2 c'' id'' g t'') = Err (StaleGeneration current_generation)).
Proof.
  intros Ha Hne Hmax. apply authorize_lease in Ha as (Hg & -> & He & Hv & Hi & Hb).
  set (m1 := lm_with m (lm_generation m) (Some l)).
  assert (Hex : exact_owner l c' id' inst' = false).
  { apply not_true_iff_false. unfold exact_owner. rewrite !andb_true_iff, N.eqb_eq, !eqb_true.
    intros [[H1 H2] H3]. apply Hne. unfold lease_owner. congruence. }
  split.
  - intros Ht Hlive. unfold acquire.
    assert (expire_if_needed m1 t' = m1) as ->.
    { unfold expire_if_needed, lease_expired. cbn. rewrite (proj2 (N.leb_gt _ _) Hlive), andb_false_r. done. }
    cbn [m1 lm_with lm_current]. rewrite Hex. destruct (is_some (wl_active_mutation_id l)); [done|].
    unfold input_is_guarded. rewrite Hv, Hi. cbn. by rewrite (proj2 (N.ltb_lt _ _) Ht).
  - intros Ht Hidle. rewrite Hidle in Hb.
    assert (Hgrant : forall m0, lm_generation m <= lm_generation m0 <= lm_generation m + 1 ->
      exists m2 l2, (let '(m2, lease) := grant_lease m0 c' id' inst' t' in (m2, Ok (E:=LeaseError) lease)) = (m2, Ok l2)
        /\ lease_owner l2 = (c', id', inst') /\ lm_current m2 = Some l2
        /\ forall c'' id'' t'', exists current_generation,
             snd (authorize_write m2 c'' id'' g t'') = Err (StaleGeneration current_generation)).
    { intros m0 Hm0. eexists _, _. split; [done|]. split; [done|]. split; [done|]. intros c'' id'' t''.
      apply stale_refused; cbn; rewrite saturating_grows by lia; lia. }
    unfold acquire. destruct (expire_spec m1 t') as [[->|(Hn & _ & Hgen & _)] _].
    + cbn [m1 lm_with lm_current]. rewrite Hex, Hb. unfold input_is_guarded. rewrite Hv, Hi. cbn [is_some_and andb].
      rewrite (proj2 (N.ltb_ge _ _)) by exact Ht. apply Hgrant. cbn. lia.
    + rewrite Hn. apply Hgrant. rewrite Hgen. cbn [m1 lm_with lm_generation]. rewrite saturating_grows by lia. lia.
Qed.

(** ** A run *)

Fixpoint web_run (s : WebControlState) (trace : list (WebCall * WebReply)) (calls : list WebCall) :=
  match calls with
  | [] => (s, trace)
  | call :: calls => let '(s', reply) := web_call s call in web_run s' ((call, reply) :: trace) calls
  end.

Lemma web_run_reached duration calls : forall s trace,
  web_reached duration s trace -> web_reached duration (fst (web_run s trace calls)) (snd (web_run s trace calls)).
Proof.
  induction calls as [|call calls IH]; intros s trace H; [done|]. cbn [web_run].
  destruct (web_call s call) as [s' reply] eqn:E. apply IH. by econstructor.
Qed.

Definition tab_run : WebControlState * list (WebCall * WebReply) :=
  web_run (control_new 8000) []
    [WcAcquire 1 (lit "phone") (lit "tab-a") 1000; WcAuthorize 1 (lit "phone") 1 1100;
     WcAcquire 2 (lit "phone") (lit "tab-b") 1500; WcBegin 1 (lit "phone") 1 (lit "paste") 1600;
     WcRequest (ControlNative (lit "desk")); WcAcquire 2 (lit "phone") (lit "tab-b") 9000].

Lemma tab_run_reached : web_reached 8000 (fst tab_run) (snd tab_run).
Proof. apply web_run_reached. constructor. Qed.

(** The second tab waits for the guard and for the mutation, however long it takes; the desktop's
    request is answered when the mutation ends. *)
Example tab_run_replies :
  nth_error (map snd (rev (snd tab_run))) 2 = Some (WrLease (Err ActiveOwner))
  /\ map snd (take 2 (snd tab_run)) = [WrLease (Err ActiveOwner); WrRequest RequestDeferred]
  /\ mf_controller_target (snd (finish_mutation (fst tab_run) 1 (lit "phone") 1 (lit "paste") 9500))
     = Some (ControlNative (lit "desk"))
  /\ legacy_authorizes (fst (finish_mutation (fst tab_run) 1 (lit "phone") 1 (lit "paste") 9500)) 1 (lit "phone") = false.
Proof. by vm_compute. Qed.

Lemma mutations_never_overlap_witness :
  snd (acquire (wc_writer_leases (fst tab_run)) 7 (lit "tablet") (lit "tab-c") 20000) = Err ActiveOwner.
Proof.
  exact (proj1 (proj2 (proj2 (mutations_never_overlap 8000 _ _ tab_run_reached) 1 (lit "phone") 1 (lit "paste") eq_refl))
           7 (lit "tablet") (lit "tab-c") 20000 ltac:(discriminate)).
Defined.

Lemma generation_names_one_owner_witness :
  Forall (fun l1 => Forall (fun l2 => wl_generation l1 = wl_generation l2 -> lease_owner l1 = lease_owner l2)
                      (all_named (snd tab_run))) (all_named (snd tab_run)).
Proof.
  pose proof (proj1 (generation_names_one_owner 8000 _ _ tab_run_reached eq_refl)) as H.
  apply Forall_forall. intros l1 H1. apply Forall_forall. intros l2 H2. exact (H l1 l2 H1 H2).
Defined.

Lemma deferred_controller_waits_witness :
  wc_deferred_controller_target (fst tab_run) = Some (ControlNative (lit "desk"))
  /\ exists c id g mutation, open_mutation (snd tab_run) = Some (c, id, g, mutation).
Proof.
  destruct (deferred_controller_waits 8000 _ _ tab_run_reached) as [Hw H].
  split; [rewrite Hw; by vm_compute|].
  destruct (H (ControlNative (lit "desk")) ltac:(by vm_compute)) as (c & id & g & mutation & Ho & _).
  by exists c, id, g, mutation.
Defined.

Lemma handover_fences_former_owner_witness :
  let m := fst (acquire (leases_new 8000) 1 (lit "phone") (lit "tab-a") 1000) in
  let m1 := fst (authorize_write m 1 (lit "phone") 1 1100) in
  acquire m1 2 (lit "phone") (lit "tab-b") 1500 = (m1, Err ActiveOwner)
  /\ exists m2 l2, acquire m1 2 (lit "phone") (lit "tab-b") 1800 = (m2, Ok l2).
Proof.
  intros m m1. split.
  - refine (proj1 (handover_fences_former_owner m 1 (lit "phone") 1 1100 m1 _ 2 (lit "phone") (lit "tab-b") 1500
                     eq_refl _ eq_refl) eq_refl eq_refl). discriminate.
  - destruct (proj2 (handover_fences_former_owner m 1 (lit "phone") 1 1100 m1 _ 2 (lit "phone") (lit "tab-b") 1800
                     eq_refl ltac:(discriminate) eq_refl) ltac:(discriminate) eq_refl) as (m2 & l2 & H & _).
    by exists m2, l2.
Defined.
