(* ===== verification/Float32.v ===== *)
(** [f32]: the single-precision numbers of the standard library's IEEE 754 model, with the
    operations the user interface computes with.  Rounding is to nearest, ties to even. *)
From Stdlib Require Import ZArith SpecFloat.
From S2P Require Import Prelude.

Definition f32 : Type := spec_float.

Definition f32_add : f32 -> f32 -> f32 := SFadd 24 128.
Definition f32_sub : f32 -> f32 -> f32 := SFsub 24 128.
Definition f32_mul : f32 -> f32 -> f32 := SFmul 24 128.
Definition f32_div : f32 -> f32 -> f32 := SFdiv 24 128.
Definition f32_abs : f32 -> f32 := SFabs.
Definition f32_lt : f32 -> f32 -> bool := SFltb.
Definition f32_le : f32 -> f32 -> bool := SFleb.
Definition f32_eq : f32 -> f32 -> bool := SFeqb.

(** [m * 2^e], rounded. *)
Definition f32_of (m e : Z) : f32 := binary_normalize 24 128 m e false.

(** [n as f32] *)
Definition f32_of_N (n : N) : f32 := f32_of (Z.of_N n) 0.

Definition f32_zero : f32 := S754_zero false.
Definition f32_EPSILON : f32 := f32_of 1 (-23).

Definition is_nan (x : f32) : bool := match x with S754_nan => true | _ => false end.
Definition is_finite (x : f32) : bool :=
  match x with S754_zero _ | S754_finite _ _ _ => true | _ => false end.

(** [f32::max] and [f32::min]: a NaN gives way to the other number. *)
Definition f32_max (x y : f32) : f32 :=
  if is_nan x then y else if is_nan y then x else if f32_lt x y then y else x.
Definition f32_min (x y : f32) : f32 :=
  if is_nan x then y else if is_nan y then x else if f32_lt y x then y else x.

Definition f32_floor (x : f32) : f32 :=
  match x with
  | S754_finite s m e =>
      if (0 <=? e)%Z then x else binary_normalize 24 128 (cond_Zopp s (Zpos m) / 2 ^ (- e)) 0 s
  | _ => x
  end.

(** [x as usize]: truncated, saturating, zero for a NaN. *)
Definition f32_to_usize (x : f32) : N :=
  match x with
  | S754_infinity false => u64_max
  | S754_finite false m e =>
      N.min (if (0 <=? e)%Z then Npos m * 2 ^ Z.to_N e else Npos m / 2 ^ Z.to_N (- e)) u64_max
  | _ => 0
  end.

(** [f32::total_cmp], for a NaN of positive sign. *)
Definition f32_total_cmp (x y : f32) : comparison :=
  match SFcompare x y with
  | Some Eq =>
      match x, y with
      | S754_zero true, S754_zero false => Lt
      | S754_zero false, S754_zero true => Gt
      | _, _ => Eq
      end
  | Some c => c
  | None => if is_nan x then if is_nan y then Eq else Gt else Lt
  end.

(** [iter.sum::<f32>()], which starts from the neutral [-0.0]. *)
Definition f32_sum (l : list f32) : f32 := fold_left f32_add l (S754_zero true).

(** [value.is_finite() && value > 0.0] *)
Definition is_positive (x : f32) : bool := is_finite x && f32_lt f32_zero x.

Example f32_thirds : f32_lt (f32_add (f32_div (f32_of 1 0) (f32_of 3 0)) (f32_of 1 (-25))) (f32_of 1 (-1)) = true
  /\ f32_floor (f32_div (f32_of (-7) 0) (f32_of 2 0)) = f32_of (-4) 0
  /\ f32_to_usize (f32_of 2000 (-3)) = 250 /\ f32_add (f32_of 16777216 0) (f32_of 1 0) = f32_of 16777216 0.
Proof. by vm_compute. Qed.

Lemma f32_lt_irrefl x : f32_lt x x = false.
Proof.
  unfold f32_lt, SFltb, SFcompare. destruct x as [| [] | |[] m e]; try done; rewrite Z.compare_refl; cbn;
    by rewrite ?Pos.compare_cont_refl, ?Pos.compare_refl.
Qed.

Lemma positive_one : is_positive (f32_of 1 0) = true.
Proof. by vm_compute. Qed.
