(* ===== verification/Layout.v ===== *)
(** The pane workspace of the task view ([ui/task_workspace/layout.rs]): a tree of splits whose
    leaves are the panes of tasks, the gestures that change it, and the focus kept beside it.

    Tasks are named by any type [K]; pane and split ids are numbers, and those a gesture draws are
    its arguments.  A [&mut self] method answers the next state with its result. *)
From S2P Require Import Prelude Float32.

(** ** Data *)

Definition GRID_COLUMN_WIDTH : f32 := f32_of 360 0.
Definition GRID_NOMINAL_CANVAS_WIDTH : f32 := f32_of 8192 0.

Record AllocationMetrics := {
  am_full_min_width : f32;
  am_full_min_height : f32;
  am_compact_min_width : f32;
  am_compact_min_height : f32;
  am_divider : f32;
}.

(** [AllocationMetrics::production] *)
Definition production : AllocationMetrics :=
  {| am_full_min_width := f32_of 320 0; am_full_min_height := f32_of 160 0; am_compact_min_width := f32_of 320 0;
     am_compact_min_height := f32_of 28 0; am_divider := f32_of 8 0 |}.

Inductive Axis := Horizontal | Vertical.
Inductive Edge := EdgeLeft | EdgeRight | EdgeTop | EdgeBottom.
Inductive Allocation := Auto (weight : f32) | Pinned (logical_px : f32).

Inductive PaneView :=
| Conversation | TerminalView | Files | Changes | BrowserView | Review | ArtifactsView | Services.

Inductive PanePresentation := Full | Minimised.

Record TaskPane (K : Type) := {
  tp_id : N;
  tp_task_id : K;
  tp_presentation : PanePresentation;
  tp_last_focused_at : N;
  tp_view : PaneView;
}.
Arguments Build_TaskPane {K}.
Arguments tp_id {K}. Arguments tp_task_id {K}. Arguments tp_presentation {K}.
Arguments tp_last_focused_at {K}. Arguments tp_view {K}.

(** [SplitChild], of the nodes of any tree. *)
Record SplitChild (Node : Type) := {
  sc_node : Node;
  sc_allocation : Allocation;
}.
Arguments Build_SplitChild {Node}.
Arguments sc_node {Node}. Arguments sc_allocation {Node}.

Inductive WorkspaceNode (K : Type) :=
| Pane (pane : TaskPane K)
| Split (id : N) (axis : Axis) (children : list (SplitChild (WorkspaceNode K))).
Arguments Pane {K}. Arguments Split {K}.

Inductive DropTarget := DropCenter (pane : N) | DropEdge (pane : N) (edge : Edge).

Inductive WorkspaceError := DuplicateTask | InvalidTree | MissingPane | SelfDrop.

Record Workspace (K : Type) := {
  ws_root : option (WorkspaceNode K);
  ws_focused : option N;
  ws_previous_focus : option N;
  ws_focus_clock : N;
  ws_zoomed : option N;
}.
Arguments Build_Workspace {K}.
Arguments ws_root {K}. Arguments ws_focused {K}. Arguments ws_previous_focus {K}.
Arguments ws_focus_clock {K}. Arguments ws_zoomed {K}.

#[export] Instance Axis_eq : EqDecision Axis.
Proof. solve_decision. Defined.
#[export] Instance Edge_eq : EqDecision Edge.
Proof. solve_decision. Defined.
#[export] Instance PanePresentation_eq : EqDecision PanePresentation.
Proof. solve_decision. Defined.

Definition allocation_auto : Allocation := Auto (f32_of 1 0).

(** [Allocation::is_valid] and [is_pinned] *)
Definition allocation_valid (a : Allocation) : bool :=
  match a with
  | Auto weight => is_positive weight
  | Pinned logical_px => is_positive logical_px
  end.

Definition is_pinned (a : Allocation) : bool := match a with Pinned _ => true | Auto _ => false end.

Definition edge_axis (e : Edge) : Axis :=
  match e with EdgeLeft | EdgeRight => Horizontal | EdgeTop | EdgeBottom => Vertical end.

Definition inserts_after (e : Edge) : bool := match e with EdgeRight | EdgeBottom => true | _ => false end.

(** ** The grid of a canvas *)

Definition grid_columns_for (canvas_width : f32) (metrics : AllocationMetrics) : N :=
  if negb (is_finite canvas_width) || f32_le canvas_width f32_zero then 1
  else
    let gap := if is_positive (am_divider metrics) then am_divider metrics else f32_zero in
    let column := f32_max (f32_max GRID_COLUMN_WIDTH (am_full_min_width metrics)) (f32_of 1 0) in
    let columns := f32_floor (f32_div (f32_add canvas_width gap) (f32_add column gap)) in
    if f32_lt columns (f32_of 1 0) then 1 else f32_to_usize columns.

Definition grid_rows_for (panes columns : N) : N :=
  let columns := N.max columns 1 in
  N.max ((panes + columns - 1) / columns) 1.

Example grid_columns_sample :
  map (fun w => grid_columns_for (f32_of w 0) production) [1100; 2000; 0; 100]%Z = [3; 5; 1; 1].
Proof. by vm_compute. Qed.

(** ** Searching and updating lists *)

(** [Iterator::find_map] *)
Definition find_map {A B} (f : A -> option B) : list A -> option B :=
  fix go l := match l with [] => None | x :: l => match f x with Some y => Some y | None => go l end end.

(** The first element that takes the update; [None] when none does. *)
Definition update_first {A} (f : A -> option A) : list A -> option (list A) :=
  fix go l :=
    match l with
    | [] => None
    | x :: l => match f x with Some y => Some (y :: l) | None => l' ← go l; Some (x :: l') end
    end.

(** [Iterator::position] *)
Fixpoint position {A} (p : A -> bool) (l : list A) : option nat :=
  match l with
  | [] => None
  | x :: l => if p x then Some O else S <$> position p l
  end.

(** [Vec::insert] within the length *)
Fixpoint insert_at {A} (index : nat) (x : A) (l : list A) : list A :=
  match index, l with
  | O, _ => x :: l
  | S index, y :: l => y :: insert_at index x l
  | S _, [] => [x]
  end.

(** [Vec::pop] *)
Fixpoint pop {A} (l : list A) : option (list A * A) :=
  match l with
  | [] => None
  | x :: l => match pop l with None => Some ([], x) | Some (l, last) => Some (x :: l, last) end
  end.

(** ** The tree *)

Definition with_node {A B} (c : SplitChild A) (n : B) : SplitChild B :=
  {| sc_node := n; sc_allocation := sc_allocation c |}.

Definition with_allocation {A} (c : SplitChild A) (a : Allocation) : SplitChild A :=
  {| sc_node := sc_node c; sc_allocation := a |}.

(** [SplitChild::auto] *)
Definition child_auto {A} (n : A) : SplitChild A := {| sc_node := n; sc_allocation := allocation_auto |}.

Section Tree.
Context {K : Type} `{EqDecision K}.
Implicit Types n : WorkspaceNode K.

(** [TaskPane::new] *)
Definition pane_new (id : N) (task_id : K) (last_focused_at : N) : TaskPane K :=
  {| tp_id := id; tp_task_id := task_id; tp_presentation := Full; tp_last_focused_at := last_focused_at;
     tp_view := Conversation |}.

Definition pane_with_id (p : TaskPane K) (id : N) : TaskPane K :=
  {| tp_id := id; tp_task_id := tp_task_id p; tp_presentation := tp_presentation p;
     tp_last_focused_at := tp_last_focused_at p; tp_view := tp_view p |}.
Definition pane_with_task (p : TaskPane K) (task_id : K) (clock : N) : TaskPane K :=
  {| tp_id := tp_id p; tp_task_id := task_id; tp_presentation := tp_presentation p; tp_last_focused_at := clock;
     tp_view := tp_view p |}.
Definition pane_with_presentation (p : TaskPane K) (presentation : PanePresentation) : TaskPane K :=
  {| tp_id := tp_id p; tp_task_id := tp_task_id p; tp_presentation := presentation;
     tp_last_focused_at := tp_last_focused_at p; tp_view := tp_view p |}.
Definition pane_with_view (p : TaskPane K) (view : PaneView) : TaskPane K :=
  {| tp_id := tp_id p; tp_task_id := tp_task_id p; tp_presentation := tp_presentation p;
     tp_last_focused_at := tp_last_focused_at p; tp_view := view |}.

Fixpoint collect_panes n : list (TaskPane K) :=
  match n with
  | Pane p => [p]
  | Split _ _ cs => flat_map (fun c => collect_panes (sc_node c)) cs
  end.

Fixpoint collect_task_ids n : list K :=
  match n with
  | Pane p => [tp_task_id p]
  | Split _ _ cs => flat_map (fun c => collect_task_ids (sc_node c)) cs
  end.

Fixpoint count_panes n : N :=
  match n with
  | Pane _ => 1
  | Split _ _ cs => fold_right N.add 0 (map (fun c => count_panes (sc_node c)) cs)
  end.

(** [children.first()] of a split. *)
Fixpoint first_pane_id n : option N :=
  match n with
  | Pane p => Some (tp_id p)
  | Split _ _ [] => None
  | Split _ _ (c :: _) => first_pane_id (sc_node c)
  end.

Fixpoint find_pane_by (q : TaskPane K -> bool) n : option (TaskPane K) :=
  match n with
  | Pane p => if q p then Some p else None
  | Split _ _ cs => find_map (fun c => find_pane_by q (sc_node c)) cs
  end.

Definition find_pane n (pane_id : N) : option (TaskPane K) := find_pane_by (fun p => tp_id p =? pane_id) n.
Definition find_pane_for_task n (task_id : K) : option (TaskPane K) :=
  find_pane_by (fun p => tp_task_id p =?= task_id) n.

Definition contains_pane n (target : N) : bool := is_some (find_pane n target).
Definition contains_task n (task_id : K) : bool := is_some (find_pane_for_task n task_id).

(** An assignment through [find_pane_mut] or [find_pane_for_task_mut]. *)
Fixpoint update_pane_by (q : TaskPane K -> bool) (f : TaskPane K -> TaskPane K) n : option (WorkspaceNode K) :=
  match n with
  | Pane p => if q p then Some (Pane (f p)) else None
  | Split id axis cs =>
      Split id axis <$> update_first (fun c => with_node c <$> update_pane_by q f (sc_node c)) cs
  end.

Definition find_pane_mut n (pane_id : N) (f : TaskPane K -> TaskPane K) : option (WorkspaceNode K) :=
  update_pane_by (fun p => tp_id p =? pane_id) f n.
Definition find_pane_for_task_mut n (task_id : K) (f : TaskPane K -> TaskPane K) : option (WorkspaceNode K) :=
  update_pane_by (fun p => tp_task_id p =?= task_id) f n.

Fixpoint find_split n (split_id : N) : option (list (SplitChild (WorkspaceNode K))) :=
  match n with
  | Pane _ => None
  | Split id _ cs => if id =? split_id then Some cs else find_map (fun c => find_split (sc_node c) split_id) cs
  end.

(** An assignment through [find_split_mut]. *)
Fixpoint find_split_mut n (split_id : N)
    (f : list (SplitChild (WorkspaceNode K)) -> list (SplitChild (WorkspaceNode K))) : option (WorkspaceNode K) :=
  match n with
  | Pane _ => None
  | Split id axis cs =>
      if id =? split_id then Some (Split id axis (f cs))
      else Split id axis <$> update_first (fun c => with_node c <$> find_split_mut (sc_node c) split_id f) cs
  end.

(** [None] stands for [false]: no split holds the task. *)
Fixpoint set_task_allocation n (task_id : K) (allocation : Allocation) : option (WorkspaceNode K) :=
  match n with
  | Pane _ => None
  | Split id axis cs =>
      Split id axis <$>
        update_first (fun c =>
          if negb (contains_task (sc_node c) task_id) then None
          else match set_task_allocation (sc_node c) task_id allocation with
               | Some m => Some (with_node c m)
               | None => Some (with_allocation c allocation)
               end) cs
  end.

Fixpoint task_path_is_auto n (task_id : K) (path_is_auto : bool) : bool :=
  match n with
  | Pane p => (tp_task_id p =?= task_id) && path_is_auto
  | Split _ _ cs =>
      existsb (fun c => contains_task (sc_node c) task_id
                 && task_path_is_auto (sc_node c) task_id (path_is_auto && negb (is_pinned (sc_allocation c)))) cs
  end.

(** [task_axis_allocation], its inner [visit]. *)
Fixpoint visit n (task : K) : option (Axis * Allocation) :=
  match n with
  | Pane _ => None
  | Split _ axis cs =>
      find_map (fun c =>
        match sc_node c with
        | Pane p => if tp_task_id p =?= task then Some (axis, sc_allocation c) else None
        | Split _ _ _ => visit (sc_node c) task
        end) cs
  end.

(** *** The grid *)

(** The widened row, or the row and the pane that has to start another. *)
Definition append_column (fresh : N) (row new : WorkspaceNode K) (columns : N)
    : result (WorkspaceNode K) (WorkspaceNode K * WorkspaceNode K) :=
  match row with
  | Split id Horizontal cs =>
      if N.max columns 1 <=? count cs then Err (row, new) else Ok (Split id Horizontal (cs ++ [child_auto new]))
  | node => if columns <? 2 then Err (node, new) else Ok (Split fresh Horizontal [child_auto node; child_auto new])
  end.

Definition place_in_grid (fresh : N) (root new : WorkspaceNode K) (columns : N) : WorkspaceNode K :=
  match root with
  | Split id Vertical cs =>
      match pop cs with
      | None => new
      | Some (cs, last) =>
          match append_column fresh (sc_node last) new columns with
          | Ok row => Split id Vertical (cs ++ [with_node last row])
          | Err (row, new) => Split id Vertical (cs ++ [with_node last row; child_auto new])
          end
      end
  | row =>
      match append_column fresh row new columns with
      | Ok row => row
      | Err (row, new) => Split fresh Vertical [child_auto row; child_auto new]
      end
  end.

(** A row of one child is that child. *)
Definition grid_row (fresh : N) (cs : list (SplitChild (WorkspaceNode K))) : WorkspaceNode K :=
  match cs with
  | [c] => sc_node c
  | _ => Split fresh Horizontal cs
  end.

(** The loop of [grid_tree]: the rows and the children of the row under way.  Splits take the ids
    [fresh 0], [fresh 1], ... in the order they are made. *)
Definition grid_loop (fresh : N -> N) (columns : N) (panes : list (TaskPane K))
    : list (WorkspaceNode K) * list (SplitChild (WorkspaceNode K)) :=
  fold_left (fun '(rows, children) p =>
    let children := children ++ [child_auto (Pane p)] in
    if count children =? columns then (rows ++ [grid_row (fresh (count rows)) children], []) else (rows, children))
    panes ([], []).

Definition grid_tree (fresh : N -> N) (panes : list (TaskPane K)) (columns : N) : option (WorkspaceNode K) :=
  match panes with
  | [] => None
  | _ =>
      let '(rows, children) := grid_loop fresh (N.max columns 1) panes in
      let rows := match children with [] => rows | _ => rows ++ [grid_row (fresh (count rows)) children] end in
      match rows with
      | [row] => Some row
      | _ => Some (Split (fresh (count rows)) Vertical (map child_auto rows))
      end
  end.

(** *** Inserting and removing *)

Definition is_pane (target : N) (c : SplitChild (WorkspaceNode K)) : bool :=
  match sc_node c with Pane existing => tp_id existing =? target | Split _ _ _ => false end.

Fixpoint insert_pane_near (fresh : N) n (target : N) (pane : TaskPane K) (axis : Axis) (insert_after : bool)
    : WorkspaceNode K * bool :=
  match n with
  | Pane existing =>
      if tp_id existing =? target then
        let '(first, second) :=
          if insert_after then (Pane existing, Pane pane) else (Pane pane, Pane existing) in
        (Split fresh axis [child_auto first; child_auto second], true)
      else (Pane existing, false)
  | Split id split_axis cs =>
      match (if split_axis =?= axis then position (is_pane target) cs else None) with
      | Some index =>
          (Split id split_axis (insert_at (if insert_after then S index else index) (child_auto (Pane pane)) cs), true)
      | None =>
          let '(cs, inserted) :=
            (fix near cs :=
               match cs with
               | [] => ([], false)
               | c :: cs =>
                   if contains_pane (sc_node c) target then
                     let '(m, inserted) := insert_pane_near fresh (sc_node c) target pane axis insert_after in
                     (with_node c m :: cs, inserted)
                   else let '(cs, inserted) := near cs in (c :: cs, inserted)
               end) cs in
          (Split id split_axis cs, inserted)
      end
  end.

Fixpoint remove_pane_node n (target : N) : option (WorkspaceNode K) * option (TaskPane K) :=
  match n with
  | Pane p => if tp_id p =? target then (None, Some p) else (Some (Pane p), None)
  | Split id axis cs =>
      let '(next_children, removed) :=
        (fix remove cs :=
           match cs with
           | [] => ([], None)
           | c :: cs =>
               let '(next_node, found) := remove_pane_node (sc_node c) target in
               let keep cs := match next_node with Some m => with_node c m :: cs | None => cs end in
               match found with
               | Some p => (keep cs, Some p)
               | None => let '(cs, removed) := remove cs in (keep cs, removed)
               end
           end) cs in
      match removed with
      | None => (Some (Split id axis next_children), None)
      | Some p =>
          (match next_children with
           | [] => None
           | [c] => Some (sc_node c)
           | _ => Some (Split id axis next_children)
           end, Some p)
      end
  end.
End Tree.

(** ** Validation *)

Section Workspaces.
Context {K : Type} `{Countable K}.
Implicit Types w : Workspace K.

(** The three sets [validate_node] fills: pane ids, tasks and split ids. *)
Definition Seen : Type := gset N * gset K * gset N.

Fixpoint validate_node (n : WorkspaceNode K) (seen : Seen) : result Seen WorkspaceError :=
  let '(pane_ids, task_ids, split_ids) := seen in
  match n with
  | Pane p =>
      if (tp_last_focused_at p =? 0) || bool_decide (tp_id p ∈ pane_ids) || bool_decide (tp_task_id p ∈ task_ids)
      then Err InvalidTree
      else Ok ({[tp_id p]} ∪ pane_ids, {[tp_task_id p]} ∪ task_ids, split_ids)
  | Split id _ cs =>
      if (count cs <? 2) || bool_decide (id ∈ split_ids) then Err InvalidTree
      else
        (fix loop cs seen :=
           match cs with
           | [] => Ok seen
           | c :: cs =>
               ensure allocation_valid (sc_allocation c) else InvalidTree ;;
               let? seen := validate_node (sc_node c) seen in
               loop cs seen
           end) cs (pane_ids, task_ids, {[id]} ∪ split_ids)
  end.

Definition validate w : result unit WorkspaceError :=
  match ws_root w with
  | None =>
      if is_none (ws_focused w) && is_none (ws_previous_focus w) && is_none (ws_zoomed w) then Ok tt
      else Err InvalidTree
  | Some root =>
      let? (pane_ids, _, _) := validate_node root (∅, ∅, ∅) in
      let? focused := ok_or (ws_focused w) InvalidTree in
      ensure bool_decide (focused ∈ pane_ids) else InvalidTree ;;
      ensure negb (is_some_and (ws_previous_focus w)
                     (fun previous => (previous =? focused) || negb (bool_decide (previous ∈ pane_ids))))
        else InvalidTree ;;
      ensure negb (is_some_and (ws_zoomed w) (fun zoomed => negb (bool_decide (zoomed ∈ pane_ids))))
        else InvalidTree ;;
      Ok tt
  end.

(** ** The workspace *)

Definition ws_with_root w (root : option (WorkspaceNode K)) : Workspace K :=
  {| ws_root := root; ws_focused := ws_focused w; ws_previous_focus := ws_previous_focus w;
     ws_focus_clock := ws_focus_clock w; ws_zoomed := ws_zoomed w |}.

Definition ws_with_focus w (focused previous_focus : option N) (focus_clock : N) : Workspace K :=
  {| ws_root := ws_root w; ws_focused := focused; ws_previous_focus := previous_focus;
     ws_focus_clock := focus_clock; ws_zoomed := ws_zoomed w |}.

Definition ws_with_zoomed w (zoomed : option N) : Workspace K :=
  {| ws_root := ws_root w; ws_focused := ws_focused w; ws_previous_focus := ws_previous_focus w;
     ws_focus_clock := ws_focus_clock w; ws_zoomed := zoomed |}.

(** [Workspace::default] *)
Definition ws_default : Workspace K :=
  {| ws_root := None; ws_focused := None; ws_previous_focus := None; ws_focus_clock := 0; ws_zoomed := None |}.

Definition single (pane_id : N) (task_id : K) : Workspace K :=
  {| ws_root := Some (Pane (pane_new pane_id task_id 1)); ws_focused := Some pane_id; ws_previous_focus := None;
     ws_focus_clock := 1; ws_zoomed := None |}.

(** [pane], [pane_for_task] and what is read off them *)
Definition ws_pane w (pane_id : N) : option (TaskPane K) := root ← ws_root w; find_pane root pane_id.
Definition pane_for_task w (task_id : K) : option (TaskPane K) := root ← ws_root w; find_pane_for_task root task_id.
Definition ws_contains_task w (task_id : K) : bool := is_some (pane_for_task w task_id).
Definition pane_count w : N := match ws_root w with Some root => count_panes root | None => 0 end.
Definition task_ids w : list K := match ws_root w with Some root => collect_task_ids root | None => [] end.
Definition focused_task w : option K := f ← ws_focused w; tp_task_id <$> ws_pane w f.
Definition presentation w (task_id : K) : option PanePresentation := tp_presentation <$> pane_for_task w task_id.
Definition view_of w (task_id : K) : option PaneView := tp_view <$> pane_for_task w task_id.
Definition task_is_unpinned w (task_id : K) : bool :=
  is_some_and (ws_root w) (fun root => task_path_is_auto root task_id true).
Definition task_axis_allocation w (task_id : K) : option (Axis * Allocation) := root ← ws_root w; visit root task_id.
Definition split_child_allocation w (split_id : N) (child_index : nat) : option Allocation :=
  root ← ws_root w; children ← find_split root split_id; sc_allocation <$> children !! child_index.

(** An assignment through [pane_mut] or [pane_for_task_mut]. *)
Definition pane_mut w (pane_id : N) (f : TaskPane K -> TaskPane K) : option (Workspace K) :=
  root ← ws_root w; root ← find_pane_mut root pane_id f; Some (ws_with_root w (Some root)).
Definition pane_for_task_mut w (task_id : K) (f : TaskPane K -> TaskPane K) : option (Workspace K) :=
  root ← ws_root w; root ← find_pane_for_task_mut root task_id f; Some (ws_with_root w (Some root)).

(** [self.focus_clock.saturating_add(1).max(1)] *)
Definition next_clock w : N := N.max (saturating_add (ws_focus_clock w) 1) 1.

(** [candidate.validate()?; *self = candidate; Ok(answer)] *)
Definition settle {A} w (candidate : Workspace K) (answer : A) : Workspace K * result A WorkspaceError :=
  match validate candidate with
  | Err e => (w, Err e)
  | Ok _ => (candidate, Ok answer)
  end.

Definition set_view w (task_id : K) (view : PaneView) : Workspace K * result unit WorkspaceError :=
  match pane_for_task_mut w task_id (fun p => pane_with_view p view) with
  | None => (w, Err MissingPane)
  | Some w => (w, Ok tt)
  end.

Definition set_presentation w (task_id : K) (presentation : PanePresentation)
    : Workspace K * result unit WorkspaceError :=
  match pane_for_task w task_id with
  | None => (w, Err MissingPane)
  | Some p =>
      match pane_mut w (tp_id p) (fun p => pane_with_presentation p presentation) with
      | None => (w, Err MissingPane)
      | Some w => (w, Ok tt)
      end
  end.

(** *** Opening panes *)

Definition insert_beside w (pane_id split_id : N) (task_id : K) (target : N) (edge : Edge)
    : Workspace K * result N WorkspaceError :=
  if ws_contains_task w task_id then (w, Err DuplicateTask)
  else
    match ws_root w with
    | None => let w := single pane_id task_id in (w, ok_or (ws_focused w) InvalidTree)
    | Some root =>
        let clock := next_clock w in
        let '(next_root, inserted) :=
          insert_pane_near split_id root target (pane_new pane_id task_id clock) (edge_axis edge) (inserts_after edge) in
        if negb inserted then (w, Err MissingPane)
        else settle w (ws_with_focus (ws_with_root w (Some next_root)) (Some pane_id) (ws_focused w) clock) pane_id
    end.

Definition insert_after_focused w (pane_id split_id : N) (task_id : K) (axis : Axis)
    : Workspace K * result N WorkspaceError :=
  match ws_focused w with
  | Some target =>
      insert_beside w pane_id split_id task_id target
        (match axis with Horizontal => EdgeRight | Vertical => EdgeBottom end)
  | None =>
      match ws_root w with
      | None =>
          if ws_contains_task w task_id then (w, Err DuplicateTask)
          else let w := single pane_id task_id in (w, ok_or (ws_focused w) InvalidTree)
      | Some _ => (w, Err InvalidTree)
      end
  end.

Definition insert_into_grid w (pane_id split_id : N) (task_id : K) (canvas_width : f32) (metrics : AllocationMetrics)
    : Workspace K * result N WorkspaceError :=
  if ws_contains_task w task_id then (w, Err DuplicateTask)
  else
    match ws_root w with
    | None => let w := single pane_id task_id in (w, ok_or (ws_focused w) InvalidTree)
    | Some root =>
        let columns := grid_columns_for canvas_width metrics in
        let clock := next_clock w in
        let next_root := place_in_grid split_id root (Pane (pane_new pane_id task_id clock)) columns in
        settle w (ws_with_focus (ws_with_root w (Some next_root)) (Some pane_id) (ws_focused w) clock) pane_id
    end.

(** The order's panes first, then the rest in tree order. *)
Fixpoint order_panes (panes : list (TaskPane K)) (order : list N) : list (TaskPane K) :=
  match order with
  | [] => panes
  | pane_id :: order =>
      match position (fun p => tp_id p =? pane_id) panes with
      | None => order_panes panes order
      | Some index =>
          match panes !! index with
          | None => order_panes panes order
          | Some p => p :: order_panes (delete index panes) order
          end
      end
  end.

(** [changed] compares the new tree with the root that was taken out, [None]. *)
Definition rebuild_as_grid w (fresh : N -> N) (order : list N) (columns : N) : Workspace K * bool :=
  match ws_root w with
  | None => (w, false)
  | Some root =>
      let rebuilt := grid_tree fresh (order_panes (collect_panes root) order) columns in
      let changed := is_some rebuilt in
      let w := ws_with_root w rebuilt in
      let gone pane_id := is_none (ws_pane w pane_id) in
      let focused :=
        if is_none_or (ws_focused w) gone then root ← ws_root w; first_pane_id root else ws_focused w in
      let previous_focus := if is_some_and (ws_previous_focus w) gone then None else ws_previous_focus w in
      let zoomed := if is_some_and (ws_zoomed w) gone then None else ws_zoomed w in
      (ws_with_zoomed (ws_with_focus w focused previous_focus (ws_focus_clock w)) zoomed, changed)
  end.

(** *** Focus and zoom *)

Definition focus_pane w (pane_id : N) : Workspace K * result unit WorkspaceError :=
  if is_none (ws_pane w pane_id) then (w, Err MissingPane)
  else if ws_focused w =?= Some pane_id then (w, Ok tt)
  else
    let clock := next_clock w in
    let w := ws_with_focus w (Some pane_id) (ws_focused w) clock in
    (default w (pane_mut w pane_id (fun p => pane_with_task p (tp_task_id p) clock)), Ok tt).

Definition zoom w (pane_id : N) : Workspace K * result unit WorkspaceError :=
  let '(w, focused) := focus_pane w pane_id in
  match focused with
  | Err e => (w, Err e)
  | Ok _ =>
      match pane_mut w pane_id (fun p => pane_with_presentation p Full) with
      | None => (w, Err MissingPane)
      | Some w => (ws_with_zoomed w (Some pane_id), Ok tt)
      end
  end.

Definition unzoom w : Workspace K := ws_with_zoomed w None.

Definition toggle_zoom_focused w : Workspace K :=
  match ws_zoomed w, ws_focused w with
  | Some _, _ => ws_with_zoomed w None
  | None, Some focused => fst (zoom w focused)
  | None, None => w
  end.

Definition focus_task w (task_id : K) : Workspace K * result unit WorkspaceError :=
  match pane_for_task w task_id with
  | None => (w, Err MissingPane)
  | Some p => focus_pane w (tp_id p)
  end.

Definition replace_focused_task w (task_id : K) : Workspace K * result unit WorkspaceError :=
  if ws_contains_task w task_id then focus_task w task_id
  else
    match ws_focused w with
    | None => (w, Err MissingPane)
    | Some pane_id =>
        let clock := next_clock w in
        let w := ws_with_focus w (ws_focused w) (ws_previous_focus w) clock in
        match pane_mut w pane_id (fun p => pane_with_task p task_id clock) with
        | None => (w, Err MissingPane)
        | Some w => (w, Ok tt)
        end
    end.

(** *** Closing and moving panes *)

Definition repair_focus_after_removal w (removed : N) : Workspace K :=
  match ws_root w with
  | None => ws_with_focus w None None (ws_focus_clock w)
  | Some root =>
      let previous :=
        match ws_previous_focus w with
        | Some pane_id => if negb (pane_id =? removed) && is_some (ws_pane w pane_id) then Some pane_id else None
        | None => None
        end in
      if ws_focused w =?= Some removed then
        ws_with_focus w (match previous with Some p => Some p | None => first_pane_id root end) None (ws_focus_clock w)
      else if ws_previous_focus w =?= Some removed then ws_with_focus w (ws_focused w) None (ws_focus_clock w)
      else w
  end.

Definition remove_pane w (pane_id : N) : Workspace K * result unit WorkspaceError :=
  if is_none (ws_pane w pane_id) then (w, Err MissingPane)
  else
    match ws_root w with
    | None => (w, Err MissingPane)
    | Some root =>
        let '(next_root, removed) := remove_pane_node root pane_id in
        if is_none removed then (w, Err MissingPane)
        else
          let candidate := ws_with_root w next_root in
          let candidate :=
            if ws_zoomed candidate =?= Some pane_id then ws_with_zoomed candidate None else candidate in
          settle w (repair_focus_after_removal candidate pane_id) tt
    end.

(** The other of two ids, and any other id itself. *)
Definition exchanged (first second : N) (o : option N) : option N :=
  if o =?= Some first then Some second else if o =?= Some second then Some first else o.

Definition swap_panes w (first second : N) : Workspace K * result unit WorkspaceError :=
  if first =? second then (w, Err SelfDrop)
  else
    match ws_pane w first, ws_pane w second with
    | Some first_pane, Some second_pane =>
        let swapped :=
          w ← pane_mut w first (fun _ => pane_with_id second_pane first);
          pane_mut w second (fun _ => pane_with_id first_pane second) in
        match swapped with
        | None => (w, Err MissingPane)
        | Some candidate =>
            settle w
              (ws_with_zoomed
                 (ws_with_focus candidate (exchanged first second (ws_focused w))
                    (exchanged first second (ws_previous_focus w)) (ws_focus_clock w))
                 (exchanged first second (ws_zoomed w))) tt
        end
    | _, _ => (w, Err MissingPane)
    end.

Definition move_pane w (split_id : N) (source : N) (target : DropTarget) : Workspace K * result unit WorkspaceError :=
  let target_pane := match target with DropCenter pane => pane | DropEdge pane _ => pane end in
  if source =? target_pane then (w, Err SelfDrop)
  else if is_none (ws_pane w source) || is_none (ws_pane w target_pane) then (w, Err MissingPane)
  else
    match target with
    | DropCenter _ => swap_panes w source target_pane
    | DropEdge _ edge =>
        match ws_root w with
        | None => (w, Err MissingPane)
        | Some root =>
            match remove_pane_node root source with
            | (_, None) => (w, Err MissingPane)
            | (None, Some _) => (w, Err InvalidTree)
            | (Some without_source, Some moved) =>
                let '(next_root, inserted) :=
                  insert_pane_near split_id without_source target_pane moved (edge_axis edge) (inserts_after edge) in
                if negb inserted then (w, Err MissingPane) else settle w (ws_with_root w (Some next_root)) tt
            end
        end
    end.

(** *** Sizes *)

Definition set_size w (task_id : K) (allocation : Allocation) : Workspace K * result unit WorkspaceError :=
  match ws_root w with
  | None => (w, Err MissingPane)
  | Some root =>
      match set_task_allocation root task_id allocation with
      | None => (w, Err MissingPane)
      | Some root => (ws_with_root w (Some root), Ok tt)
      end
  end.

Definition pin_task_axis_size w (task_id : K) (logical_px : f32) : Workspace K * result unit WorkspaceError :=
  if negb (is_positive logical_px) then (w, Err InvalidTree) else set_size w task_id (Pinned logical_px).

Definition reset_task_axis_size w (task_id : K) : Workspace K * result unit WorkspaceError :=
  set_size w task_id allocation_auto.

(** What [resize_split_child] and [reset_split_child] share: the last child has no divider. *)
Definition set_split_child w (split_id : N) (child_index : nat) (allocation : Allocation)
    : Workspace K * result unit WorkspaceError :=
  match ws_root w with
  | None => (w, Err MissingPane)
  | Some root =>
      match find_split root split_id with
      | None => (w, Err MissingPane)
      | Some children =>
          if (length children <=? child_index + 1)%nat then (w, Err MissingPane)
          else
            match find_split_mut root split_id (alter (fun c => with_allocation c allocation) child_index) with
            | None => (w, Err MissingPane)
            | Some root => settle w (ws_with_root w (Some root)) tt
            end
      end
  end.

Definition resize_split_child w (split_id : N) (child_index : nat) (logical_px : f32)
    : Workspace K * result unit WorkspaceError :=
  if negb (is_positive logical_px) then (w, Err InvalidTree) else set_split_child w split_id child_index (Pinned logical_px).

Definition reset_split_child w (split_id : N) (child_index : nat) : Workspace K * result unit WorkspaceError :=
  set_split_child w split_id child_index allocation_auto.
End Workspaces.

(** ** Renaming the tasks *)

Section Mapping.
Context {K U : Type} `{Countable K} `{Countable U}.

Fixpoint map_workspace_node (map_key : K -> U) (n : WorkspaceNode K) (seen : gset U)
    : result (WorkspaceNode U * gset U) WorkspaceError :=
  match n with
  | Pane p =>
      let mapped := map_key (tp_task_id p) in
      if bool_decide (mapped ∈ seen) then Err DuplicateTask
      else Ok (Pane {| tp_id := tp_id p; tp_task_id := mapped; tp_presentation := tp_presentation p;
                       tp_last_focused_at := tp_last_focused_at p; tp_view := tp_view p |}, {[mapped]} ∪ seen)
  | Split id axis cs =>
      let? (cs, seen) :=
        (fix loop cs seen :=
           match cs with
           | [] => Ok ([], seen)
           | c :: cs =>
               let? (m, seen) := map_workspace_node map_key (sc_node c) seen in
               let? (cs, seen) := loop cs seen in
               Ok (with_node c m :: cs, seen)
           end) cs seen in
      Ok (Split id axis cs, seen)
  end.

Definition map_task_keys (map_key : K -> U) (w : Workspace K) : result (Workspace U) WorkspaceError :=
  let? root :=
    match ws_root w with
    | Some n => rmap (fun '(n, _) => Some n) (map_workspace_node map_key n ∅)
    | None => Ok None
    end in
  let mapped :=
    {| ws_root := root; ws_focused := ws_focused w; ws_previous_focus := ws_previous_focus w;
       ws_focus_clock := ws_focus_clock w; ws_zoomed := ws_zoomed w |} in
  try? validate mapped ;;
  Ok mapped.
End Mapping.

(** ** Selecting a task in the list ([apply_workspace_selection] of surfaces.rs) *)

Inductive WorkspaceSelectionGesture := SelectPlain | SelectToggle.

(** The workspace of no panes is [None]. *)
Definition apply_workspace_selection {K} `{Countable K} (workspace : option (Workspace K)) (pane_id split_id : N)
    (task_id : K) (gesture : WorkspaceSelectionGesture) (canvas_width : f32)
    : option (Workspace K) * result unit WorkspaceError :=
  match workspace with
  | None => (Some (single pane_id task_id), Ok tt)
  | Some current =>
      match gesture with
      | SelectPlain =>
          if ws_contains_task current task_id then
            let '(w, r) := focus_task current task_id in (Some w, r)
          else if pane_count current <=? 1 then (Some (single pane_id task_id), Ok tt)
          else let '(w, r) := replace_focused_task current task_id in (Some w, r)
      | SelectToggle =>
          if ws_contains_task current task_id then
            match pane_for_task current task_id with
            | None => (Some current, Err MissingPane)
            | Some p =>
                let '(w, r) := remove_pane current (tp_id p) in
                match r with
                | Err e => (Some w, Err e)
                | Ok _ => (if pane_count w =? 0 then None else Some w, Ok tt)
                end
            end
          else
            let '(w, r) := insert_into_grid current pane_id split_id task_id canvas_width production in
            (Some w, rmap (fun _ => tt) r)
      end
  end.
