(* ===== verification/LayoutTree.v ===== *)
(** What the gestures do to a pane tree: the panes and splits before and after. *)
From S2P Require Import Prelude Float32 Layout.

(** ** Lists *)

Lemma find_map_flat {A B} (f : A -> list B) (q : B -> bool) (l : list A) :
  find_map (fun x => List.find q (f x)) l = List.find q (flat_map f l).
Proof.
  induction l as [|x l IH]; [done|]. cbn. rewrite IH. clear IH. induction (f x) as [|y k IH]; [done|]. cbn.
  by destruct (q y).
Qed.

Lemma find_map_ext {A B} (f g : A -> option B) (l : list A) : Forall (fun x => f x = g x) l -> find_map f l = find_map g l.
Proof. induction 1 as [|x l Hx _ IH]; [done|]. cbn. by rewrite Hx, IH. Qed.

Lemma find_map_Some {A B} (f : A -> option B) (l : list A) y :
  find_map f l = Some y -> exists l1 x l2, l = l1 ++ x :: l2 /\ f x = Some y.
Proof.
  induction l as [|x l IH]; [done|]. cbn. destruct (f x) as [z|] eqn:E.
  - intros [= <-]. by exists [], x, l.
  - intros (l1 & x' & l2 & -> & H)%IH. by exists (x :: l1), x', l2.
Qed.

Lemma find_Some {A} (q : A -> bool) (l : list A) x :
  List.find q l = Some x -> exists l1 l2, l = l1 ++ x :: l2 /\ q x = true /\ Forall (fun y => q y = false) l1.
Proof.
  induction l as [|y l IH]; [done|]. cbn. destruct (q y) eqn:E.
  - intros [= ->]. by exists [], l.
  - intros (l1 & l2 & -> & Hx & H1)%IH. exists (y :: l1), l2. auto.
Qed.

Lemma find_None {A} (q : A -> bool) (l : list A) : List.find q l = None <-> Forall (fun y => q y = false) l.
Proof.
  induction l as [|y l IH]; cbn; [done|]. rewrite Forall_cons, <- IH. destruct (q y); split; naive_solver.
Qed.

Lemma update_first_Some {A} (f : A -> option A) (l l' : list A) :
  update_first f l = Some l' ->
  exists l1 x y l2, l = l1 ++ x :: l2 /\ Forall (fun z => f z = None) l1 /\ f x = Some y /\ l' = l1 ++ y :: l2.
Proof.
  revert l'. induction l as [|x l IH]; intros l'; [done|]. cbn. destruct (f x) as [y|] eqn:E.
  - intros [= <-]. by exists [], x, y, l.
  - destruct (update_first f l) as [k|]; [|done]. intros [= <-].
    destruct (IH _ eq_refl) as (l1 & x' & y & l2 & -> & H1 & Hx & ->). exists (x :: l1), x', y, l2. auto.
Qed.

Lemma update_first_None {A} (f : A -> option A) (l : list A) :
  update_first f l = None <-> Forall (fun z => f z = None) l.
Proof.
  induction l as [|x l IH]; cbn; [done|]. rewrite Forall_cons, <- IH. destruct (f x); [by split; [|intros [? _]]|].
  destruct (update_first f l); naive_solver.
Qed.

Lemma position_Some {A} (p : A -> bool) (l : list A) index :
  position p l = Some index ->
  exists l1 x l2, l = l1 ++ x :: l2 /\ length l1 = index /\ p x = true /\ Forall (fun y => p y = false) l1.
Proof.
  revert index. induction l as [|x l IH]; intros index; [done|]. cbn. destruct (p x) eqn:E.
  - intros [= <-]. by exists [], x, l.
  - destruct (position p l) as [i|]; [|done]. intros [= <-].
    destruct (IH i eq_refl) as (l1 & y & l2 & -> & <- & Hy & H1). exists (x :: l1), y, l2. auto.
Qed.

Lemma insert_at_app {A} (l1 l2 : list A) x : insert_at (length l1) x (l1 ++ l2) = l1 ++ x :: l2.
Proof. induction l1 as [|y l1 IH]; [by destruct l2|]. cbn. by rewrite IH. Qed.

Lemma insert_after_app {A} (l1 l2 : list A) y x : insert_at (S (length l1)) x (l1 ++ y :: l2) = l1 ++ y :: x :: l2.
Proof.
  pose proof (insert_at_app (l1 ++ [y]) l2 x) as E. rewrite length_app in E. cbn [length] in E.
  rewrite Nat.add_1_r, <- !app_assoc in E. exact E.
Qed.

Lemma pop_spec {A} (l : list A) : match pop l with None => l = [] | Some (k, x) => l = k ++ [x] end.
Proof. induction l as [|x l IH]; [done|]. cbn. destruct (pop l) as [[k y]|]; by subst. Qed.

Lemma pop_app {A} (l : list A) x : pop (l ++ [x]) = Some (l, x).
Proof. induction l as [|y l IH]; [done|]. cbn. by rewrite IH. Qed.

(** ** The tree *)

Lemma node_induction {K} (P : WorkspaceNode K -> Prop) :
  (forall p, P (Pane p)) ->
  (forall id axis cs, Forall (fun c => P (sc_node c)) cs -> P (Split id axis cs)) ->
  forall n, P n.
Proof.
  intros Hp Hs. fix go 1. intros [p|id axis cs]; [apply Hp|]. apply Hs.
  induction cs as [|[m a] cs IH]; constructor; [apply go|exact IH].
Qed.

Lemma auto_valid : allocation_valid allocation_auto = true.
Proof. by vm_compute. Qed.

#[global] Arguments allocation_valid : simpl never.
#[global] Arguments allocation_auto : simpl never.

Section Trees.
Context {K : Type} `{EqDecision K}.
Implicit Types n m : WorkspaceNode K.

Definition pane_ids n : list N := map tp_id (collect_panes n).

Fixpoint split_ids n : list N :=
  match n with
  | Pane _ => []
  | Split id _ cs => id :: flat_map (fun c => split_ids (sc_node c)) cs
  end.

(** Every pane was focused once, every split has two children or more, every size is a positive number. *)
Fixpoint sound n : bool :=
  match n with
  | Pane p => negb (tp_last_focused_at p =? 0)
  | Split _ _ cs => (2 <=? count cs) && forallb (fun c => allocation_valid (sc_allocation c) && sound (sc_node c)) cs
  end.

Notation panes_of cs := (flat_map (fun c => collect_panes (sc_node c)) cs).
Notation splits_of cs := (flat_map (fun c => split_ids (sc_node c)) cs).
Notation sound_all cs := (forallb (fun c => allocation_valid (sc_allocation c) && sound (sc_node c)) cs).

Lemma tasks_panes n : collect_task_ids n = map tp_task_id (collect_panes n).
Proof.
  induction n as [p|id axis cs IH] using node_induction; [done|]. cbn.
  induction IH as [|c cs Hc _ IH]; [done|]. cbn. by rewrite Hc, IH, map_app.
Qed.

Lemma count_panes_count n : count_panes n = count (collect_panes n).
Proof.
  induction n as [p|id axis cs IH] using node_induction; [done|]. cbn.
  induction IH as [|c cs Hc _ IH]; [done|]. cbn. by rewrite Hc, IH, count_app.
Qed.

Lemma find_pane_by_find q n : find_pane_by q n = List.find q (collect_panes n).
Proof.
  induction n as [p|id axis cs IH] using node_induction; [cbn; by destruct (q p)|]. cbn.
  rewrite <- find_map_flat. by apply find_map_ext.
Qed.

Lemma contains_pane_ids n target : contains_pane n target = bool_decide (target ∈ pane_ids n).
Proof.
  unfold contains_pane, find_pane, pane_ids. rewrite find_pane_by_find. destruct (List.find _ _) as [p|] eqn:E.
  - apply find_Some in E as (l1 & l2 & -> & <-%N.eqb_eq & _). symmetry. apply bool_decide_eq_true.
    rewrite map_app. set_solver.
  - apply find_None in E. symmetry. apply bool_decide_eq_false. intros (p & -> & Hp)%list_elem_of_fmap.
    rewrite Forall_forall in E. specialize (E p Hp). cbn in E. by rewrite N.eqb_refl in E.
Qed.

Lemma contains_task_tasks n task_id : contains_task n task_id = bool_decide (task_id ∈ collect_task_ids n).
Proof.
  unfold contains_task, find_pane_for_task. rewrite find_pane_by_find, tasks_panes.
  destruct (List.find _ _) as [p|] eqn:E.
  - apply find_Some in E as (l1 & l2 & -> & <-%eqb_true & _). symmetry. apply bool_decide_eq_true.
    rewrite map_app. set_solver.
  - apply find_None in E. symmetry. apply bool_decide_eq_false. intros (p & -> & Hp)%list_elem_of_fmap.
    rewrite Forall_forall in E. specialize (E p Hp). cbn in E. by rewrite eqb_refl in E.
Qed.

Lemma sound_child cs1 c cs2 : sound_all (cs1 ++ c :: cs2) = true -> sound (sc_node c) = true.
Proof. rewrite forallb_app. cbn. rewrite !andb_true_iff. tauto. Qed.

Lemma sound_pane (p : TaskPane K) : tp_last_focused_at p <> 0 -> sound (Pane p) = true.
Proof. cbn. by rewrite negb_true_iff, N.eqb_neq. Qed.

Lemma sound_pair id axis n m : sound n = true -> sound m = true -> sound (Split id axis [child_auto n; child_auto m]) = true.
Proof. cbn. intros -> ->. by rewrite !auto_valid. Qed.

(** A child is replaced by one with the same size. *)
Lemma sound_replace cs1 c cs2 m :
  sound_all (cs1 ++ c :: cs2) = true -> sound m = true -> sound_all (cs1 ++ with_node c m :: cs2) = true.
Proof. rewrite !forallb_app. cbn. rewrite !andb_true_iff. tauto. Qed.

Lemma sound_panes n p : sound n = true -> p ∈ collect_panes n -> tp_last_focused_at p <> 0.
Proof.
  revert p. induction n as [q|id axis cs IH] using node_induction; cbn.
  - intros p Hq%negb_true_iff%N.eqb_neq ->%list_elem_of_singleton. done.
  - intros p [_ Hs]%andb_true_iff (c & Hc & Hp)%list_elem_of_In%in_flat_map. apply list_elem_of_In in Hc, Hp.
    apply list_elem_of_split in Hc as (cs1 & cs2 & ->). apply sound_child in Hs.
    apply Forall_app in IH as [_ [IH _]%Forall_cons]. auto.
Qed.

(** *** Updates in place *)

Lemma update_pane_None q f n : update_pane_by q f n = None <-> find_pane_by q n = None.
Proof.
  rewrite find_pane_by_find. induction n as [p|id axis cs IH] using node_induction; cbn; [by destruct (q p)|].
  rewrite fmap_None, update_first_None, <- find_map_flat.
  induction IH as [|c cs Hc _ IH]; cbn; [done|]. rewrite Forall_cons, fmap_None, Hc, IH.
  destruct (List.find q (collect_panes (sc_node c))); naive_solver.
Qed.

Lemma update_pane_Some q f n m :
  update_pane_by q f n = Some m ->
  exists l1 p l2, collect_panes n = l1 ++ p :: l2 /\ Forall (fun x => q x = false) l1 /\ q p = true
    /\ collect_panes m = l1 ++ f p :: l2 /\ split_ids m = split_ids n
    /\ (sound n = true -> tp_last_focused_at (f p) <> 0 -> sound m = true).
Proof.
  revert m. induction n as [p|id axis cs IH] using node_induction; intros m; cbn.
  - destruct (q p) eqn:E; [|done]. intros [= <-]. exists [], p, []. split_and!; try done. intros _.
    cbn. by rewrite negb_true_iff, N.eqb_neq.
  - intros (cs' & (cs1 & c & c' & cs2 & -> & H1 & (m' & E & ->)%fmap_Some & ->)%update_first_Some & ->)%fmap_Some.
    apply Forall_app in IH as [_ [IH _]%Forall_cons]. destruct (IH m' E) as (l1 & p & l2 & Hl & Hf & Hp & Hm & Hs & Hsound).
    exists (panes_of cs1 ++ l1), p, (l2 ++ panes_of cs2). cbn. rewrite !flat_map_app. cbn. rewrite Hl, Hm, Hs, <- !app_assoc.
    split_and!; try done.
    + apply Forall_app. split; [|done]. apply Forall_forall. intros x (d & Hd & Hx)%list_elem_of_In%in_flat_map.
      rewrite Forall_forall in H1. apply list_elem_of_In in Hd, Hx. specialize (H1 d Hd). cbn in H1.
      apply fmap_None in H1. rewrite update_pane_None, find_pane_by_find, find_None, Forall_forall in H1. auto.
    + rewrite !andb_true_iff, !count_app, !count_cons. intros [? Hc] Hp'. split; [done|].
      apply sound_replace; [done|]. apply Hsound; [by eapply sound_child|done].
Qed.

(** Sizes change, panes and splits stay. *)
Lemma split_mut_spec split_id f n m :
  (forall cs, panes_of (f cs) = panes_of cs /\ splits_of (f cs) = splits_of cs /\ count (f cs) = count cs
     /\ (sound_all cs = true -> sound_all (f cs) = true)) ->
  find_split_mut n split_id f = Some m ->
  collect_panes m = collect_panes n /\ split_ids m = split_ids n /\ (sound n = true -> sound m = true).
Proof.
  intros Hf. revert m. induction n as [p|id axis cs IH] using node_induction; intros m; cbn; [done|].
  destruct (id =? split_id).
  - intros [= <-]. destruct (Hf cs) as (H1 & H2 & H3 & H4). cbn. rewrite H1, H2, H3. split_and!; try done.
    rewrite !andb_true_iff. intros [? ?]. auto.
  - intros (cs' & (cs1 & c & c' & cs2 & -> & H1 & (m' & E & ->)%fmap_Some & ->)%update_first_Some & ->)%fmap_Some.
    apply Forall_app in IH as [_ [IH _]%Forall_cons]. destruct (IH m' E) as (Hp & Hs & Hsound).
    cbn. rewrite !flat_map_app. cbn. rewrite Hp, Hs. split_and!; [done..|].
    rewrite !andb_true_iff, !count_app, !count_cons. intros [? Hc]. split; [done|].
    apply sound_replace; [done|]. apply Hsound. by eapply sound_child.
Qed.

Lemma split_mut_None split_id f n : find_split_mut n split_id f = None <-> find_split n split_id = None.
Proof.
  induction n as [p|id axis cs IH] using node_induction; cbn; [done|]. destruct (id =? split_id); [done|].
  rewrite fmap_None, update_first_None. induction IH as [|c cs Hc _ IH]; cbn; [done|].
  rewrite Forall_cons, fmap_None, Hc, IH. destruct (find_split (sc_node c) split_id); naive_solver.
Qed.

(** One size changes. *)
Lemma set_allocation_spec task_id allocation n m :
  allocation_valid allocation = true -> set_task_allocation n task_id allocation = Some m ->
  collect_panes m = collect_panes n /\ split_ids m = split_ids n /\ (sound n = true -> sound m = true).
Proof.
  intros Ha. revert m. induction n as [p|id axis cs IH] using node_induction; intros m; cbn; [done|].
  intros (cs' & (cs1 & c & c' & cs2 & -> & _ & Hc & ->)%update_first_Some & ->)%fmap_Some.
  apply Forall_app in IH as [_ [IH _]%Forall_cons]. destruct (contains_task _ _); cbn [negb] in Hc; [|done].
  assert (Hm : collect_panes (sc_node c') = collect_panes (sc_node c) /\ split_ids (sc_node c') = split_ids (sc_node c)
    /\ (allocation_valid (sc_allocation c) && sound (sc_node c) = true ->
        allocation_valid (sc_allocation c') && sound (sc_node c') = true)).
  { destruct (set_task_allocation _ _ _) as [m'|] eqn:E; simplify_eq; cbn.
    - destruct (IH m' eq_refl) as (Hp & Hs & Hsound). rewrite !andb_true_iff. naive_solver.
    - rewrite Ha, !andb_true_iff. tauto. }
  destruct Hm as (Hp & Hs & Hsound). cbn. rewrite !flat_map_app. cbn. rewrite Hp, Hs. split_and!; [done..|].
  rewrite !forallb_app, !count_app, !count_cons, !andb_true_iff. cbn. rewrite !andb_true_iff in *. naive_solver.
Qed.

(** *** Inserting beside a pane *)

(** The panes of the tree with one more just after or before the target. *)
Definition inserted_beside (panes panes' : list (TaskPane K)) (target : N) (pane : TaskPane K) (insert_after : bool) : Prop :=
  exists l1 p l2, panes = l1 ++ p :: l2 /\ tp_id p = target
    /\ panes' = l1 ++ (if insert_after then [p; pane] else [pane; p]) ++ l2.

Lemma inserted_within panes panes' target pane insert_after k1 k2 :
  inserted_beside panes panes' target pane insert_after ->
  inserted_beside (k1 ++ panes ++ k2) (k1 ++ panes' ++ k2) target pane insert_after.
Proof.
  intros (l1 & p & l2 & -> & Hp & ->). exists (k1 ++ l1), p, (l2 ++ k2). by rewrite <- !app_assoc.
Qed.

Lemma inserted_perm panes panes' target pane insert_after :
  inserted_beside panes panes' target pane insert_after -> panes' ≡ₚ pane :: panes.
Proof.
  intros (l1 & p & l2 & -> & _ & ->). rewrite (Permutation_middle l1 (p :: l2) pane). f_equiv.
  destruct insert_after; cbn; [apply Permutation_swap|done].
Qed.

Lemma splits_within (fresh id : N) (s s' k1 k2 : list N) :
  s' = s \/ s' ≡ₚ fresh :: s ->
  id :: k1 ++ s' ++ k2 = id :: k1 ++ s ++ k2 \/ id :: k1 ++ s' ++ k2 ≡ₚ fresh :: id :: k1 ++ s ++ k2.
Proof.
  intros [-> | Hs]; [by left|right]. rewrite Hs. cbn. rewrite <- Permutation_middle. apply Permutation_swap.
Qed.

(** The child that holds the target takes the pane. *)
Lemma near_spec fresh target pane axis insert_after cs :
  let near := fix near (cs : list (SplitChild (WorkspaceNode K))) : list (SplitChild (WorkspaceNode K)) * bool :=
    match cs with
    | [] => ([], false)
    | c :: cs =>
        if contains_pane (sc_node c) target then
          let '(m, inserted) := insert_pane_near fresh (sc_node c) target pane axis insert_after in
          (with_node c m :: cs, inserted)
        else let '(cs, inserted) := near cs in (c :: cs, inserted)
    end in
  near cs = (cs, false) /\ Forall (fun c => contains_pane (sc_node c) target = false) cs
  \/ exists cs1 c cs2, cs = cs1 ++ c :: cs2 /\ contains_pane (sc_node c) target = true
     /\ Forall (fun c => contains_pane (sc_node c) target = false) cs1
     /\ near cs = (let '(m, inserted) := insert_pane_near fresh (sc_node c) target pane axis insert_after in
                   (cs1 ++ with_node c m :: cs2, inserted)).
Proof.
  intros near. induction cs as [|c cs IH]; [by left|]. cbn [near]. fold near.
  destruct (contains_pane (sc_node c) target) eqn:E.
  - right. by exists [], c, cs.
  - destruct IH as [[-> IH]|(cs1 & d & cs2 & -> & Hd & H1 & ->)].
    + left. auto.
    + right. exists (c :: cs1), d, cs2. split; [done|]. split; [done|]. split; [auto|].
      by destruct (insert_pane_near _ _ _ _ _ _).
Qed.

Lemma insert_absent fresh n target pane axis insert_after :
  contains_pane n target = false -> insert_pane_near fresh n target pane axis insert_after = (n, false).
Proof.
  intros H. destruct n as [p|id axis' cs].
  - unfold contains_pane, find_pane in H. cbn in *. by destruct (tp_id p =? target).
  - cbn. destruct (if axis' =?= axis then position (is_pane target) cs else None) as [index|] eqn:E.
    + exfalso. destruct (axis' =?= axis); [|done]. apply position_Some in E as (cs1 & c & cs2 & -> & _ & Hc & _).
      rewrite contains_pane_ids, bool_decide_eq_false in H. apply H. unfold is_pane in Hc.
      destruct (sc_node c) as [p|] eqn:Hp; [|done]. apply N.eqb_eq in Hc. unfold pane_ids. cbn.
      rewrite flat_map_app, map_app. cbn. rewrite Hp. cbn. set_solver.
    + destruct (near_spec fresh target pane axis insert_after cs) as [[-> _]|(cs1 & c & cs2 & -> & Hc & _)]; [done|].
      rewrite contains_pane_ids, bool_decide_eq_false in H. rewrite contains_pane_ids, bool_decide_eq_true in Hc.
      exfalso. apply H. unfold pane_ids in *. cbn. rewrite flat_map_app, map_app. cbn. rewrite map_app. set_solver.
Qed.

Lemma insert_spec fresh n target pane axis insert_after :
  contains_pane n target = true ->
  exists m, insert_pane_near fresh n target pane axis insert_after = (m, true)
    /\ inserted_beside (collect_panes n) (collect_panes m) target pane insert_after
    /\ (split_ids m = split_ids n \/ split_ids m ≡ₚ fresh :: split_ids n)
    /\ (sound n = true -> tp_last_focused_at pane <> 0 -> sound m = true).
Proof.
  induction n as [p|id axis' cs IH] using node_induction; intros Hc.
  - unfold contains_pane, find_pane in Hc. cbn in *. destruct (tp_id p =? target) eqn:E; [|done].
    apply N.eqb_eq in E. destruct insert_after; eexists; (split; [done|]); (split; [by exists [], p, []|]);
      (split; [by right|]); intros; apply sound_pair; done || by apply sound_pane.
  - cbn. destruct (if axis' =?= axis then position (is_pane target) cs else None) as [index|] eqn:E.
    + destruct (axis' =?= axis); [|done]. apply position_Some in E as (cs1 & c & cs2 & -> & <- & Hp & _).
      unfold is_pane in Hp. destruct c as [[p|] a]; cbn in Hp; [|done]. apply N.eqb_eq in Hp.
      eexists. split; [done|]. destruct insert_after; rewrite ?insert_after_app, ?insert_at_app; cbn.
      all: rewrite !flat_map_app; cbn; split; [|split; [by left|]].
      1, 3: exists (panes_of cs1), p, (panes_of cs2); done.
      all: rewrite !forallb_app, !count_app, !count_cons; cbn; rewrite auto_valid, !andb_true_iff, !negb_true_iff, !N.leb_le,
        ?N.eqb_neq; intros; destruct_and?; split_and!; done || lia.
    + destruct (near_spec fresh target pane axis insert_after cs) as [[_ Hn]|(cs1 & c & cs2 & -> & Hc' & _ & ->)].
      * exfalso. revert Hc. rewrite contains_pane_ids, bool_decide_eq_true. unfold pane_ids. cbn.
        intros (p & -> & (c & Hc & Hp)%list_elem_of_In%in_flat_map)%list_elem_of_fmap. apply list_elem_of_In in Hc, Hp.
        rewrite Forall_forall in Hn. specialize (Hn c Hc). rewrite contains_pane_ids, bool_decide_eq_false in Hn.
        apply Hn. unfold pane_ids. apply list_elem_of_fmap. by exists p.
      * apply Forall_app in IH as [_ [IH _]%Forall_cons]. destruct (IH Hc') as (m & -> & Hp & Hs & Hsound).
        eexists. split; [done|]. cbn. rewrite !flat_map_app. cbn. split; [by apply inserted_within|]. split.
        -- by apply splits_within.
        -- rewrite !count_app, !count_cons, !andb_true_iff. intros [? Hall] ?. split; [done|].
           apply sound_replace; [done|]. apply Hsound; [by eapply sound_child|done].
Qed.

(** *** Removing a pane *)

(** The children once the target is out of the first one that holds it. *)
Definition without (c : SplitChild (WorkspaceNode K)) (target : N) : list (SplitChild (WorkspaceNode K)) :=
  match fst (remove_pane_node (sc_node c) target) with Some m => [with_node c m] | None => [] end.

(** A split of one child gives way to it. *)
Definition normalized (id : N) (axis : Axis) (cs : list (SplitChild (WorkspaceNode K))) : option (WorkspaceNode K) :=
  match cs with [] => None | [c] => Some (sc_node c) | _ => Some (Split id axis cs) end.

Lemma remove_split id axis cs target :
  Forall (fun c => contains_pane (sc_node c) target = false -> remove_pane_node (sc_node c) target = (Some (sc_node c), None)) cs ->
  Forall (fun c => contains_pane (sc_node c) target = true -> is_some (snd (remove_pane_node (sc_node c) target)) = true) cs ->
  remove_pane_node (Split id axis cs) target = (Some (Split id axis cs), None)
    /\ Forall (fun c => contains_pane (sc_node c) target = false) cs
  \/ exists cs1 c cs2 p, cs = cs1 ++ c :: cs2 /\ contains_pane (sc_node c) target = true
     /\ Forall (fun c => contains_pane (sc_node c) target = false) cs1
     /\ snd (remove_pane_node (sc_node c) target) = Some p
     /\ remove_pane_node (Split id axis cs) target = (normalized id axis (cs1 ++ without c target ++ cs2), Some p).
Proof.
  intros Ha Hb. cbn.
  set (remove := fix remove cs := match cs with [] => ([], None) | c :: cs => _ end).
  assert (Hr : remove cs = (cs, None) /\ Forall (fun c => contains_pane (sc_node c) target = false) cs
    \/ exists cs1 c cs2 p, cs = cs1 ++ c :: cs2 /\ contains_pane (sc_node c) target = true
       /\ Forall (fun c => contains_pane (sc_node c) target = false) cs1
       /\ snd (remove_pane_node (sc_node c) target) = Some p /\ remove cs = (cs1 ++ without c target ++ cs2, Some p)).
  { induction cs as [|c cs IH]; [by left|]. cbn [remove]. apply Forall_cons in Ha as [Hc Ha]. apply Forall_cons in Hb as [Hd Hb].
    destruct (contains_pane (sc_node c) target) eqn:E.
    - right. specialize (Hd eq_refl). destruct (remove_pane_node (sc_node c) target) as [next [p|]] eqn:Er; [|done].
      exists [], c, cs, p. unfold without. rewrite Er. split_and!; try done. by destruct next.
    - rewrite (Hc eq_refl). fold remove. destruct (IH Ha Hb) as [[-> H1]|(cs1 & d & cs2 & p & -> & Hd' & H1 & Hp & ->)].
      + left. destruct c. auto.
      + right. exists (c :: cs1), d, cs2, p. destruct c. split_and!; auto. }
  destruct Hr as [[-> H1]|(cs1 & c & cs2 & p & -> & Hc & H1 & Hp & ->)]; [by left|]. right.
  exists cs1, c, cs2, p. split_and!; done.
Qed.

Lemma normalized_spec id axis cs :
  match normalized id axis cs with
  | None => cs = []
  | Some m => collect_panes m = panes_of cs /\ (split_ids m `sublist_of` id :: splits_of cs)
      /\ (sound_all cs = true -> sound m = true)
  end.
Proof.
  destruct cs as [|c [|d cs]]; [done|..]; cbn.
  - rewrite !app_nil_r. split_and!; [done|by apply sublist_cons|]. rewrite !andb_true_iff. tauto.
  - split_and!; [done|done|]. rewrite !andb_true_iff, !count_cons, N.leb_le. intros ?. split; [lia|tauto].
Qed.

(** Without the target the tree keeps the other panes in their order; nothing is left of one pane. *)
Definition removed_from n (target : N) (next : option (WorkspaceNode K)) (p : TaskPane K) : Prop :=
  exists l1 l2, collect_panes n = l1 ++ p :: l2 /\ tp_id p = target /\ (target ∉ map tp_id l1)
    /\ match next with
       | None => l1 = [] /\ l2 = []
       | Some m => collect_panes m = l1 ++ l2 /\ (split_ids m `sublist_of` split_ids n) /\ (sound n = true -> sound m = true)
       end.

Lemma absent_children target (cs : list (SplitChild (WorkspaceNode K))) :
  Forall (fun c => contains_pane (sc_node c) target = false) cs -> target ∉ map tp_id (panes_of cs).
Proof.
  induction 1 as [|c cs Hc _ IH]; cbn; [apply not_elem_of_nil|]. rewrite map_app, not_elem_of_app. split; [|done].
  by rewrite contains_pane_ids, bool_decide_eq_false in Hc.
Qed.

Lemma remove_spec n target :
  (contains_pane n target = false -> remove_pane_node n target = (Some n, None))
  /\ (contains_pane n target = true ->
      exists p next, remove_pane_node n target = (next, Some p) /\ removed_from n target next p).
Proof.
  induction n as [p|id axis cs IH] using node_induction.
  - unfold contains_pane, find_pane. cbn. destruct (tp_id p =? target) eqn:E; split; try done. intros _.
    apply N.eqb_eq in E. exists p, None. split; [done|]. exists [], []. split_and!; try done. apply not_elem_of_nil.
  - assert (Ha := Forall_impl _ _ _ IH (fun c H => proj1 H)).
    destruct (remove_split id axis cs target) as [[Hr H1]|(cs1 & c & cs2 & p & -> & Hc & H1 & Hp & Hr)].
    + exact Ha.
    + eapply Forall_impl; [exact IH|]. intros c [_ H] Hc. by destruct (H Hc) as (p & next & -> & _).
    + split; [done|]. apply absent_children in H1. rewrite contains_pane_ids, bool_decide_eq_true. done.
    + split.
      { rewrite contains_pane_ids, bool_decide_eq_false. intros Hn. exfalso. apply Hn. unfold pane_ids. cbn.
        rewrite contains_pane_ids, bool_decide_eq_true in Hc. rewrite flat_map_app, map_app. cbn. rewrite map_app.
        unfold pane_ids in Hc. set_solver. }
      intros _. apply Forall_app in IH as [_ [[_ IH] _]%Forall_cons]. destruct (IH Hc) as (p' & next & Er & l1 & l2 & Hl & Hp' & Hn & Hm).
      rewrite Er in Hp. cbn in Hp. injection Hp as ->. exists p, (normalized id axis (cs1 ++ without c target ++ cs2)).
      split; [done|]. exists (panes_of cs1 ++ l1), (l2 ++ panes_of cs2). cbn. rewrite !flat_map_app. cbn.
      rewrite Hl, map_app, not_elem_of_app, <- !app_assoc. split_and!; try done; [by apply absent_children|].
      pose proof (normalized_spec id axis (cs1 ++ without c target ++ cs2)) as Hs. unfold without in *. rewrite Er in *. cbn in *.
      destruct (normalized _ _ _) as [m|].
      * destruct Hs as (Hs1 & Hs2 & Hs3). rewrite !flat_map_app in Hs1, Hs2. destruct next as [m'|]; cbn in *.
        -- destruct Hm as (Hm1 & Hm2 & Hm3). rewrite app_nil_r in *. rewrite Hs1, Hm1, <- app_assoc. split_and!; [done|..].
           { etrans; [exact Hs2|]. apply sublist_skip. by repeat apply sublist_app. }
           rewrite !forallb_app, !andb_true_iff in *. cbn in *. rewrite !andb_true_iff in *. naive_solver.
        -- destruct Hm as [-> ->]. rewrite Hs1. split_and!; [done|..].
           { etrans; [exact Hs2|]. apply sublist_skip. apply sublist_app; [done|]. by apply sublist_inserts_l. }
           rewrite !forallb_app, !andb_true_iff in *. cbn in *. rewrite !andb_true_iff in *. naive_solver.
      * apply app_nil in Hs as [-> [Hw ->]%app_nil]. destruct next; [done|]. cbn. by destruct Hm as [-> ->].
Qed.

Lemma first_unique {A} (q : A -> bool) (k1 k2 l1 l2 : list A) x y :
  Forall (fun z => q z = false) k1 -> Forall (fun z => q z = false) l1 -> q x = true -> q y = true ->
  k1 ++ x :: k2 = l1 ++ y :: l2 -> k1 = l1 /\ x = y /\ k2 = l2.
Proof.
  intros H. revert l1. induction H as [|z k1 Hz _ IH]; intros [|z' l1] Hl Hx Hy E; cbn in E; simplify_eq.
  - done.
  - apply Forall_cons in Hl as [? _]. congruence.
  - congruence.
  - apply Forall_cons in Hl as [_ Hl]. by destruct (IH l1 Hl Hx Hy) as (-> & -> & ->).
Qed.

Lemma remove_at id axis cs1 c cs2 target :
  Forall (fun c => contains_pane (sc_node c) target = false) cs1 -> contains_pane (sc_node c) target = true ->
  remove_pane_node (Split id axis (cs1 ++ c :: cs2)) target
  = (normalized id axis (cs1 ++ without c target ++ cs2), snd (remove_pane_node (sc_node c) target)).
Proof.
  intros H1 Hc. destruct (remove_split id axis (cs1 ++ c :: cs2) target) as [[_ H]|(k1 & d & k2 & p & E & Hd & Hk & Hp & ->)].
  - apply Forall_forall. intros d _. apply remove_spec.
  - apply Forall_forall. intros d _ Hd. by destruct (proj2 (remove_spec (sc_node d) target) Hd) as (p & next & -> & _).
  - apply Forall_app in H as [_ [H _]%Forall_cons]. congruence.
  - apply (first_unique (fun c => contains_pane (sc_node c) target)) in E as (<- & <- & <-); try done. by rewrite Hp.
Qed.

Lemma whole_kept id axis cs : 2 <= count cs -> normalized id axis cs = Some (Split id axis cs).
Proof. destruct cs as [|c [|d cs]]; cbn; done || (rewrite ?count_cons, ?count_nil; lia). Qed.

(** A pane put in and taken out leaves the tree as it was. *)
Lemma remove_inserted fresh n target pane axis insert_after :
  sound n = true -> contains_pane n target = true -> contains_pane n (tp_id pane) = false ->
  remove_pane_node (fst (insert_pane_near fresh n target pane axis insert_after)) (tp_id pane) = (Some n, Some pane).
Proof.
  induction n as [p|id axis' cs IH] using node_induction; intros Hs Hc Hn.
  - unfold contains_pane, find_pane in Hc, Hn. cbn in *. destruct (tp_id p =? target); [|done].
    destruct (tp_id p =? tp_id pane) eqn:E; [done|]. destruct insert_after; cbn; by rewrite E, N.eqb_refl.
  - assert (Hnew : contains_pane (Pane pane) (tp_id pane) = true).
    { unfold contains_pane, find_pane. cbn. by rewrite N.eqb_refl. }
    assert (Hold : Forall (fun c => contains_pane (sc_node c) (tp_id pane) = false) cs).
    { apply Forall_forall. intros c Hc'. rewrite contains_pane_ids, bool_decide_eq_false in *. intros Hp. apply Hn.
      unfold pane_ids in *. apply list_elem_of_split in Hc' as (k1 & k2 & ->). cbn. rewrite flat_map_app, map_app. cbn.
      rewrite map_app. set_solver. }
    cbn [sound] in Hs. apply andb_true_iff in Hs as [Hs%N.leb_le Hall]. cbn [insert_pane_near].
    destruct (if axis' =?= axis then position (is_pane target) cs else None) as [index|] eqn:E.
    + destruct (axis' =?= axis); [|done]. apply position_Some in E as (cs1 & c & cs2 & -> & <- & _ & _).
      pose proof (proj1 (Forall_app _ _ _) Hold) as [H1 [Hc' _]%Forall_cons].
      destruct insert_after; rewrite ?insert_after_app, ?insert_at_app; cbn [fst].
      * rewrite (cons_middle c cs1), (app_assoc cs1 [c]). rewrite remove_at; [|by apply Forall_app; auto|done].
        unfold without. cbn. rewrite N.eqb_refl, <- app_assoc. cbn. by rewrite whole_kept.
      * rewrite remove_at by done. unfold without. cbn. rewrite N.eqb_refl. cbn. by rewrite whole_kept.
    + destruct (near_spec fresh target pane axis insert_after cs) as [[_ Hx]|(cs1 & c & cs2 & -> & Hc' & _ & ->)].
      * exfalso. rewrite contains_pane_ids, bool_decide_eq_true in Hc. by apply absent_children in Hx.
      * apply Forall_app in IH as [_ [IH _]%Forall_cons]. apply Forall_app in Hold as [H1 [Hold _]%Forall_cons].
        specialize (IH (sound_child _ _ _ Hall) Hc' Hold). destruct (insert_pane_near _ _ _ _ _ _) as [m inserted]. cbn [fst] in *.
        rewrite remove_at; [|done|].
        -- unfold without. cbn [with_node sc_node]. rewrite IH. cbn. destruct c. by rewrite whole_kept.
        -- cbn. destruct (contains_pane m (tp_id pane)) eqn:E'; [done|].
           by rewrite (proj1 (remove_spec m (tp_id pane)) E') in IH.
Qed.

(** *** The grid *)

Lemma append_column_spec fresh row new columns :
  match append_column fresh row new columns with
  | Ok m => collect_panes m = collect_panes row ++ collect_panes new
      /\ (split_ids m = split_ids row ++ split_ids new \/ split_ids m = fresh :: split_ids row ++ split_ids new)
      /\ (sound row = true -> sound new = true -> sound m = true)
  | Err (row', new') => row' = row /\ new' = new
  end.
Proof.
  unfold append_column. destruct row as [p|id [] cs].
  2: { destruct (N.max columns 1 <=? count cs); [done|]. cbn. rewrite !flat_map_app. cbn. rewrite !app_nil_r.
       split_and!; [done|by left|]. rewrite forallb_app, count_app, count_cons, count_nil, !andb_true_iff, !N.leb_le.
       cbn. rewrite auto_valid. intros [? ?] ->. split_and!; done || lia. }
  all: destruct (columns <? 2); [done|]; cbn; rewrite !app_nil_r; split_and!; [done|by right|].
  all: intros; cbn in *; by rewrite auto_valid, H, H0.
Qed.

Lemma place_spec fresh root new columns :
  sound root = true -> sound new = true ->
  collect_panes (place_in_grid fresh root new columns) = collect_panes root ++ collect_panes new
  /\ (split_ids (place_in_grid fresh root new columns) ≡ₚ split_ids root ++ split_ids new
      \/ split_ids (place_in_grid fresh root new columns) ≡ₚ fresh :: split_ids root ++ split_ids new)
  /\ sound (place_in_grid fresh root new columns) = true.
Proof.
  intros Hs Hn. pose proof (append_column_spec fresh root new columns) as Ha. destruct root as [p|id [] cs]; cbn [place_in_grid].
  1, 2: destruct (append_column fresh _ new columns) as [m|[row' new']];
    [destruct Ha as (-> & [-> | ->] & H3); split_and!; auto|destruct Ha as [-> ->]].
  1, 2: split; [cbn; by rewrite !app_nil_r|]; split; [right; cbn; by rewrite !app_nil_r|by apply sound_pair].
  clear Ha. pose proof (pop_spec cs) as Hp. destruct (pop cs) as [[k last]|]; subst cs.
  2: { by cbn in Hs. }
  pose proof (append_column_spec fresh (sc_node last) new columns) as Ha. cbn [sound] in Hs.
  apply andb_true_iff in Hs as [Hc Hall]. pose proof (sound_child _ _ _ Hall) as Hl.
  destruct (append_column _ _ _ _) as [m|[row' new']].
  - destruct Ha as (H1 & H2 & H3). cbn. rewrite !flat_map_app. cbn. rewrite H1, !app_nil_r, <- app_assoc. split_and!; [done|..].
    + destruct H2 as [-> | ->]; [left; by rewrite <- app_assoc|right].
      rewrite <- !app_assoc. cbn. rewrite <- Permutation_middle. apply Permutation_swap.
    + rewrite !andb_true_iff, !count_app, !count_cons in *. split; [done|]. apply sound_replace; auto.
  - destruct Ha as [-> ->]. cbn. rewrite !flat_map_app. cbn. rewrite !app_nil_r, <- !app_assoc. split_and!; [done|by left|].
    rewrite !forallb_app, !count_app, !count_cons in *. cbn in *. rewrite Hn, auto_valid.
    rewrite !andb_true_iff, !N.leb_le in *. destruct_and?. split_and!; done || lia.
Qed.

(** What a grid of single panes looks like, row by row ([None] when a cell is split). *)
Definition cells (cs : list (SplitChild (WorkspaceNode K))) : option (list (TaskPane K)) :=
  mapM (fun c => match sc_node c with Pane p => Some p | Split _ _ _ => None end) cs.

Definition row_of n : option (list (TaskPane K)) :=
  match n with
  | Pane p => Some [p]
  | Split _ Horizontal cs => cells cs
  | Split _ Vertical _ => None
  end.

Definition grid_rows n : option (list (list (TaskPane K))) :=
  match n with
  | Split _ Vertical cs => mapM (fun c => row_of (sc_node c)) cs
  | n => row ← row_of n; Some [row]
  end.

(** Rows of [columns] panes, the last one shorter. *)
Fixpoint chunks (columns : nat) (panes : list (TaskPane K)) (row : list (TaskPane K)) : list (list (TaskPane K)) :=
  match panes with
  | [] => match row with [] => [] | _ => [row] end
  | p :: panes =>
      if (length row + 1 =? columns)%nat then (row ++ [p]) :: chunks columns panes [] else chunks columns panes (row ++ [p])
  end.

(** One more pane goes to the last row, or starts a row. *)
Definition widened (columns : N) (rows : list (list (TaskPane K))) (p : TaskPane K) : list (list (TaskPane K)) :=
  match pop rows with
  | None => [[p]]
  | Some (rows, row) => if N.max columns 1 <=? count row then rows ++ [row; [p]] else rows ++ [row ++ [p]]
  end.

Lemma mapM_app_Some {A B} (f : A -> option B) (l k : list A) x y :
  mapM f l = Some x -> mapM f k = Some y -> mapM f (l ++ k) = Some (x ++ y).
Proof. rewrite !mapM_Some. apply Forall2_app. Qed.

Lemma append_column_row fresh row p columns r :
  row_of row = Some r ->
  match append_column fresh row (Pane p) columns with
  | Ok m => row_of m = Some (r ++ [p]) /\ count r < N.max columns 1
  | Err _ => N.max columns 1 <= count r
  end.
Proof.
  unfold append_column. destruct row as [q|id [] cs]; cbn [row_of]; [|unfold cells|done].
  - intros [= <-]. destruct (N.ltb_spec columns 2); rewrite count_cons, count_nil; [lia|]. split; [done|lia].
  - intros Hr. assert (count r = count cs) as ->.
    { apply mapM_Some, Forall2_length in Hr. unfold count. by rewrite Hr. }
    destruct (N.leb_spec (N.max columns 1) (count cs)); [done|]. split; [|done]. by apply mapM_app_Some.
Qed.

Lemma row_grid n r : row_of n = Some r -> grid_rows n = Some [r].
Proof. destruct n as [q|id [] cs]; cbn; [by intros [= <-]|by intros ->|done]. Qed.

Lemma place_row fresh row p columns r :
  row_of row = Some r ->
  grid_rows (match append_column fresh row (Pane p) columns with
             | Ok row => row
             | Err (row, new) => Split fresh Vertical [child_auto row; child_auto new]
             end) = Some (widened columns [r] p).
Proof.
  intros Hr. pose proof (append_column_spec fresh row (Pane p) columns) as Hx.
  pose proof (append_column_row fresh row p columns r Hr) as Ha. unfold widened. cbn [pop].
  destruct (append_column _ _ _ _) as [m|[row' new']].
  - destruct Ha as [Hm%row_grid ?]. by rewrite (proj2 (N.leb_gt _ _)).
  - destruct Hx as [-> ->]. rewrite (proj2 (N.leb_le _ _)) by done. cbn. by rewrite Hr.
Qed.

Lemma place_grid fresh root p columns rows :
  sound root = true -> grid_rows root = Some rows ->
  grid_rows (place_in_grid fresh root (Pane p) columns) = Some (widened columns rows p).
Proof.
  intros Hs. destruct root as [q|id [] cs]; cbn [grid_rows].
  - intros [= <-]. exact (place_row fresh (Pane q) p columns [q] eq_refl).
  - intros (r & Hr & [= <-])%bind_Some. exact (place_row fresh (Split id Horizontal cs) p columns r Hr).
  - cbn [place_in_grid].
    intros Hr. pose proof (pop_spec cs) as Hp. destruct (pop cs) as [[k last]|]; subst cs; [|by cbn in Hs].
  apply mapM_Some, Forall2_app_inv_l in Hr as (rs & r & Hk & Hl & ->). apply Forall2_cons_inv_l in Hl as (r' & ? & Hl & Hnil & ->).
  apply Forall2_nil_inv_l in Hnil as ->. unfold widened. rewrite pop_app.
  pose proof (append_column_spec fresh (sc_node last) (Pane p) columns) as Hx.
  pose proof (append_column_row fresh _ p columns _ Hl) as Ha. apply mapM_Some in Hk.
  destruct (append_column _ _ _ _) as [m|[row' new']]; cbn [grid_rows].
    + destruct Ha as [Hm ?]. rewrite (proj2 (N.leb_gt _ _)) by done. apply mapM_app_Some; [done|]. cbn. by rewrite Hm.
    + destruct Hx as [-> ->]. rewrite (proj2 (N.leb_le _ _)) by done. apply mapM_app_Some; [done|]. cbn. by rewrite Hl.
Qed.

Definition cell (p : TaskPane K) : SplitChild (WorkspaceNode K) := child_auto (Pane p).

(** Row [i] of a rebuilt grid. *)
Definition row_node (fresh : N -> N) (i : nat) (ps : list (TaskPane K)) : WorkspaceNode K :=
  grid_row (fresh (N.of_nat i)) (map cell ps).

Lemma grid_loop_rows fresh columns panes : forall rows row,
  let '(rows', children) :=
    fold_left (fun '(rows, children) p =>
      let children := children ++ [child_auto (Pane p)] in
      if count children =? columns then (rows ++ [grid_row (fresh (count rows)) children], []) else (rows, children))
      panes (rows, map cell row) in
  rows' ++ (match children with [] => [] | _ => [grid_row (fresh (count rows')) children] end)
  = rows ++ imap (fun i ps => row_node fresh (length rows + i) ps) (chunks (N.to_nat columns) panes row).
Proof.
  induction panes as [|p panes IH]; intros rows row; cbn [fold_left chunks].
  - destruct row as [|q row]; [done|]. cbn [map imap]. unfold row_node, count. by rewrite Nat.add_0_r.
  - assert (Hm : map cell row ++ [child_auto (Pane p)] = map cell (row ++ [p])) by (by rewrite map_app).
    rewrite Hm. assert (count (map cell (row ++ [p])) = N.of_nat (length row + 1)) as ->.
    { unfold count. by rewrite length_map, length_app. }
    destruct (Nat.eqb_spec (length row + 1) (N.to_nat columns)) as [E|E].
    + rewrite (proj2 (N.eqb_eq _ _)) by lia. specialize (IH (rows ++ [grid_row (fresh (count rows)) (map cell (row ++ [p]))]) []).
      cbn [map] in IH. destruct (fold_left _ panes _) as [rows' children]. rewrite IH, <- app_assoc. cbn. f_equal.
      f_equal; [unfold row_node, count; by rewrite Nat.add_0_r|]. apply imap_ext. intros i ps _. cbn.
      f_equal. rewrite length_app. cbn. lia.
    + rewrite (proj2 (N.eqb_neq _ _)) by lia. apply IH.
Qed.

Lemma chunks_concat columns panes : forall row, concat (chunks columns panes row) = row ++ panes.
Proof.
  induction panes as [|p panes IH]; intros row; cbn.
  - destruct row; cbn; by rewrite ?app_nil_r.
  - destruct (_ =? _)%nat; cbn; rewrite IH; by rewrite <- app_assoc.
Qed.

(** Full rows, then one that is not longer. *)
Lemma chunks_full columns panes : forall row, (length row < columns)%nat ->
  exists full last, chunks columns panes row = full ++ last
    /\ Forall (fun r => length r = columns) full /\ Forall (fun r => 0 < length r < columns)%nat last
    /\ (length last <= 1)%nat.
Proof.
  induction panes as [|p panes IH]; intros row Hr; cbn.
  - exists [], (match row with [] => [] | _ => [row] end). destruct row as [|q row]; split_and!; try done; cbn in *; try lia.
    constructor; [cbn; lia|done].
  - destruct (Nat.eqb_spec (length row + 1) columns) as [E|E].
    + destruct (IH []) as (full & last & -> & H1 & H2 & H3); [cbn; lia|]. exists ((row ++ [p]) :: full), last.
      split_and!; try done. constructor; [|done]. rewrite length_app. cbn. lia.
    + apply IH. rewrite length_app. cbn. lia.
Qed.

Lemma chunks_nonempty columns panes row : (0 < columns)%nat -> (length row < columns)%nat ->
  Forall (fun r => r <> []) (chunks columns panes row).
Proof.
  intros Hc Hr. destruct (chunks_full columns panes row Hr) as (full & last & -> & H1 & H2 & _).
  apply Forall_app. split; [eapply Forall_impl; [exact H1|]|eapply Forall_impl; [exact H2|]]; intros [|? ?]; cbn; done || lia.
Qed.

Lemma row_node_spec fresh i ps :
  ps <> [] -> Forall (fun p => tp_last_focused_at p <> 0) ps ->
  collect_panes (row_node fresh i ps) = ps /\ (split_ids (row_node fresh i ps) `sublist_of` [fresh (N.of_nat i)])
  /\ sound (row_node fresh i ps) = true /\ row_of (row_node fresh i ps) = Some ps.
Proof.
  intros Hne Hf. assert (Hp : panes_of (map cell ps) = ps) by (clear; induction ps as [|p ps IH]; [done|]; cbn; by rewrite IH).
  assert (Hs : splits_of (map cell ps) = []) by (clear; induction ps as [|p ps IH]; [done|]; cbn; by rewrite IH).
  assert (Ha : sound_all (map cell ps) = true).
  { clear Hne Hp Hs. induction Hf as [|p ps Hp _ IH]; [done|]. cbn. rewrite auto_valid, IH. cbn. by rewrite (proj2 (N.eqb_neq _ _)). }
  assert (Hc : cells (map cell ps) = Some ps) by (clear; unfold cells; induction ps as [|p ps IH]; [done|]; cbn; by rewrite IH).
  unfold row_node. destruct ps as [|p [|q ps]]; [done|..].
  - cbn. split_and!; try done; [by apply sublist_nil_l|]. apply Forall_cons in Hf as [Hf _]. by rewrite (proj2 (N.eqb_neq _ _)).
  - cbn [map grid_row]. cbn [map] in *. split_and!; [done|cbn [split_ids]; by rewrite Hs| |done].
    cbn [sound]. rewrite Ha, andb_true_r. apply N.leb_le. unfold count. cbn. lia.
Qed.

Lemma rows_spec fresh chunks : forall k,
  Forall (fun r => r <> []) chunks -> Forall (fun p => tp_last_focused_at p <> 0) (concat chunks) ->
  let rows := imap (fun i ps => row_node fresh (k + i) ps) chunks in
  panes_of (map child_auto rows) = concat chunks
  /\ (splits_of (map child_auto rows) `sublist_of` map (fun i => fresh (N.of_nat i)) (seq k (length chunks)))
  /\ sound_all (map child_auto rows) = true /\ mapM (fun c => row_of (sc_node c)) (map child_auto rows) = Some chunks.
Proof.
  induction chunks as [|ps chunks IH]; intros k Hne Hf; [cbn; split_and!; try done; by constructor|].
  apply Forall_cons in Hne as [Hps Hne]. cbn in Hf. apply Forall_app in Hf as [Hp Hf].
  destruct (row_node_spec fresh (k + 0) ps Hps Hp) as (H1 & H2 & H3 & H4).
  assert (Hi : imap (fun i ps => row_node fresh (k + S i) ps) chunks = imap (fun i ps => row_node fresh (S k + i) ps) chunks).
  { apply imap_ext. intros i r _. by rewrite Nat.add_succ_r. }
  destruct (IH (S k) Hne Hf) as (G1 & G2 & G3 & G4). rewrite <- Hi in G1, G2, G3, G4. rewrite Nat.add_0_r in *.
  cbn. rewrite !Nat.add_0_r. unfold compose. split_and!.
  - by rewrite H1, G1.
  - by apply (sublist_app _ [_] _ _ H2 G2).
  - by rewrite auto_valid, H3, G3.
  - by rewrite H4, G4.
Qed.

(** The rebuilt tree: the panes in the order given, in rows of [columns]. *)
Lemma grid_tree_spec (fresh : N -> N) panes columns n :
  (forall i j, fresh i = fresh j -> i = j) -> Forall (fun p => tp_last_focused_at p <> 0) panes ->
  grid_tree fresh panes columns = Some n ->
  collect_panes n = panes /\ NoDup (split_ids n) /\ sound n = true
  /\ grid_rows n = Some (chunks (N.to_nat (N.max columns 1)) panes []).
Proof.
  intros Hinj Hf. unfold grid_tree, grid_loop. set (c := N.max columns 1). destruct panes as [|p0 panes0]; [done|].
  pose proof (grid_loop_rows fresh c (p0 :: panes0) [] []) as Hr. cbn [map app length] in Hr.
  remember (p0 :: panes0) as panes eqn:Ep. change (map cell []) with (@nil (SplitChild (WorkspaceNode K))) in Hr.
  destruct (fold_left _ panes _) as [rows children].
  assert (Hrows : (match children with [] => rows | _ => rows ++ [grid_row (fresh (count rows)) children] end)
    = imap (fun i ps => row_node fresh (0 + i) ps) (chunks (N.to_nat c) panes [])).
  { rewrite <- Hr. destruct children; [by rewrite app_nil_r|done]. }
  rewrite Hrows. clear Hr Hrows rows children.
  assert (Hne : Forall (fun r => r <> []) (chunks (N.to_nat c) panes [])) by (apply chunks_nonempty; cbn; lia).
  pose proof (chunks_concat (N.to_nat c) panes []) as Hcat. cbn [app] in Hcat.
  rewrite <- Hcat in Hf. pose proof (rows_spec fresh _ 0 Hne Hf) as (H1 & H2 & H3 & H4).
  rewrite Hcat in *. revert H1 H2 H3 H4 Hne. destruct (chunks (N.to_nat c) panes []) as [|r [|r2 chunks]] eqn:E; intros.
  - rewrite <- Hcat in Ep. discriminate.
  - cbn in H, H1, H2, H3, H4. simplify_eq. rewrite app_nil_r in *.
    apply Forall_cons in Hne as [Hr _]. split_and!; [done|..].
    + eapply sublist_NoDup; [|exact H2]. apply NoDup_singleton.
    + rewrite !andb_true_iff in H3. tauto.
    + apply bind_Some in H4 as (y & Hy & [= ->]). by apply row_grid.
  - revert H. match type of H1 with context [map child_auto ?rows] => set (rs := rows) in * end.
    change (match rs with [row] => Some row | _ => Some (Split (fresh (count rs)) Vertical (map child_auto rs)) end = Some n
      -> collect_panes n = panes /\ NoDup (split_ids n) /\ sound n = true /\ grid_rows n = Some (r :: r2 :: chunks)).
    change (match rs with [row] => Some row | _ => Some (Split (fresh (count rs)) Vertical (map child_auto rs)) end)
      with (Some (Split (fresh (count rs)) Vertical (map child_auto rs))). intros [= <-].
    split_and!; [exact H1| | |exact H4].
    2: { apply andb_true_iff. split; [|exact H3]. apply N.leb_le. unfold count, rs. cbn. lia. }
    cbn [split_ids]. apply NoDup_cons. split.
    + intros Hin. assert (Hs : fresh (count rs) ∈ map (fun i => fresh (N.of_nat i)) (seq 0 (length (r :: r2 :: chunks)))).
      { eapply elem_of_submseteq; [exact Hin|]. apply sublist_submseteq, H2. }
      apply list_elem_of_fmap in Hs as (i & Hi%Hinj & Hs%elem_of_seq). unfold count, rs in Hi. cbn in *.
      rewrite length_imap in Hi. lia.
    + eapply sublist_NoDup; [|exact H2]. apply NoDup_fmap_2; [|apply NoDup_seq]. intros i j ?%Hinj. lia.
Qed.

Lemma grid_tree_none fresh (panes : list (TaskPane K)) columns : grid_tree fresh panes columns = None -> panes = [].
Proof.
  unfold grid_tree. destruct panes; [done|]. destruct (grid_loop _ _ _) as [rows children].
  destruct (match children with [] => rows | _ => _ end) as [|? [|? ?]]; done.
Qed.
End Trees.

(** ** Validation *)

Section Validation.
Context {K : Type} `{Countable K}.
Implicit Types n m : WorkspaceNode K.

(** The elements are all different, and none was seen. *)
Definition new_in {A} `{Countable A} (X : gset A) (l : list A) : Prop := NoDup l /\ forall x, x ∈ l -> x ∉ X.

Lemma new_in_app {A} `{Countable A} (X : gset A) l k : new_in X (l ++ k) <-> new_in X l /\ new_in (list_to_set l ∪ X) k.
Proof. unfold new_in. rewrite NoDup_app. set_solver. Qed.

Lemma new_in_cons {A} `{Countable A} (X : gset A) x l : new_in X (x :: l) <-> (x ∉ X) /\ new_in ({[x]} ∪ X) l.
Proof. unfold new_in. rewrite NoDup_cons. set_solver. Qed.

Lemma new_in_nil {A} `{Countable A} (X : gset A) : new_in X [] <-> True.
Proof. split; [done|]. split; [constructor|set_solver]. Qed.

Lemma new_in_empty {A} `{Countable A} (l : list A) : new_in ∅ l <-> NoDup l.
Proof. unfold new_in. set_solver. Qed.

Definition all_new (P : gset N) (T : gset K) (S : gset N) (panes : list (TaskPane K)) (splits : list N) : Prop :=
  new_in P (map tp_id panes) /\ new_in T (map tp_task_id panes) /\ new_in S splits.

Definition all_seen (P : gset N) (T : gset K) (S : gset N) (panes : list (TaskPane K)) (splits : list N) : Seen :=
  (list_to_set (map tp_id panes) ∪ P, list_to_set (map tp_task_id panes) ∪ T, list_to_set splits ∪ S).

Lemma validate_children P T S r (cs : list (SplitChild (WorkspaceNode K))) :
  Forall (fun c => forall P T S r, validate_node (sc_node c) (P, T, S) = Ok r <->
            sound (sc_node c) = true /\ all_new P T S (collect_panes (sc_node c)) (split_ids (sc_node c))
            /\ r = all_seen P T S (collect_panes (sc_node c)) (split_ids (sc_node c))) cs ->
  (fix loop cs seen :=
     match cs with
     | [] => Ok seen
     | c :: cs =>
         ensure allocation_valid (sc_allocation c) else InvalidTree ;;
         let? seen := validate_node (sc_node c) seen in
         loop cs seen
     end) cs (P, T, S) = Ok r
  <-> forallb (fun c => allocation_valid (sc_allocation c) && sound (sc_node c)) cs = true
    /\ all_new P T S (flat_map (fun c => collect_panes (sc_node c)) cs) (flat_map (fun c => split_ids (sc_node c)) cs)
    /\ r = all_seen P T S (flat_map (fun c => collect_panes (sc_node c)) cs) (flat_map (fun c => split_ids (sc_node c)) cs).
Proof.
  intros Hall. revert P T S. induction Hall as [|c cs Hc _ IH]; intros P T S.
  - unfold all_new, all_seen. cbn. rewrite !new_in_nil, !(left_id_L ∅ (∪)). naive_solver.
  - cbn [forallb flat_map]. rewrite !andb_true_iff. unfold all_new, all_seen. rewrite !map_app, !new_in_app, !list_to_set_app_L.
    destruct (allocation_valid (sc_allocation c)); cbn [guard rbind]; [|naive_solver].
    destruct (validate_node (sc_node c) (P, T, S)) as [seen|e] eqn:E; cbn [rbind].
    + apply Hc in E as (Hs & (H1 & H2 & H3) & ->). unfold all_seen. rewrite IH. unfold all_new, all_seen.
      assert (forall A `{Countable A} (X Y Z : gset A), Y ∪ (X ∪ Z) = X ∪ Y ∪ Z) as -> by set_solver.
      assert (forall A `{Countable A} (X Y Z : gset A), Y ∪ (X ∪ Z) = X ∪ Y ∪ Z) as -> by set_solver.
      assert (forall A `{Countable A} (X Y Z : gset A), Y ∪ (X ∪ Z) = X ∪ Y ∪ Z) as -> by set_solver.
      naive_solver.
    + split; [done|]. intros ([[_ Hs] _] & ([H1 _] & [H2 _] & [H3 _]) & _).
      pose proof (proj2 (Hc P T S _) (conj Hs (conj (conj H1 (conj H2 H3)) eq_refl))). congruence.
Qed.

Lemma validate_node_spec n : forall P T S r,
  validate_node n (P, T, S) = Ok r <->
  sound n = true /\ all_new P T S (collect_panes n) (split_ids n) /\ r = all_seen P T S (collect_panes n) (split_ids n).
Proof.
  induction n as [p|id axis cs IH] using node_induction; intros P T S r.
  - cbn. unfold all_new, all_seen. cbn. rewrite !new_in_cons, !new_in_nil, negb_true_iff, N.eqb_neq.
    rewrite !(right_id_L ∅ (∪)), (left_id_L ∅ (∪)).
    destruct (N.eqb_spec (tp_last_focused_at p) 0); cbn; [naive_solver|].
    do 2 case_bool_decide; cbn; naive_solver.
  - cbn [validate_node sound]. rewrite andb_true_iff, N.leb_le. unfold all_new, all_seen. cbn [split_ids list_to_set].
    rewrite !new_in_cons. destruct (N.ltb_spec (count cs) 2); cbn [orb]; [split; [done|]; intros [[? _] _]; lia|].
    case_bool_decide; [naive_solver|]. rewrite validate_children by done. unfold all_new, all_seen. cbn [collect_panes].
    assert (forall X : gset N, X ∪ ({[id]} ∪ S) = {[id]} ∪ X ∪ S) as -> by set_solver. naive_solver.
Qed.

(** What [validate] accepts. *)
Definition tree_sound n : Prop :=
  sound n = true /\ NoDup (pane_ids n) /\ NoDup (collect_task_ids n) /\ NoDup (split_ids n).

Definition focus_sound (ids : list N) (focused previous_focus zoomed : option N) : Prop :=
  exists f, focused = Some f /\ f ∈ ids
    /\ (forall p, previous_focus = Some p -> p <> f /\ p ∈ ids) /\ (forall z, zoomed = Some z -> z ∈ ids).

Definition well_formed (w : Workspace K) : Prop :=
  match ws_root w with
  | None => ws_focused w = None /\ ws_previous_focus w = None /\ ws_zoomed w = None
  | Some n => tree_sound n /\ focus_sound (pane_ids n) (ws_focused w) (ws_previous_focus w) (ws_zoomed w)
  end.

Lemma validate_iff (w : Workspace K) : validate w = Ok tt <-> well_formed w.
Proof.
  unfold validate, well_formed. destruct (ws_root w) as [n|].
  - rewrite rbind_Ok. setoid_rewrite validate_node_spec. unfold all_new. setoid_rewrite new_in_empty.
    unfold tree_sound, focus_sound. rewrite tasks_panes. fold (pane_ids n). split.
    + intros ([[P T] S] & (Hs & (H1 & H2 & H3) & [= -> -> ->]) & Hf). split; [done|]. revert Hf. cbn.
      rewrite (right_id_L ∅ (∪)). fold (pane_ids n). destruct (ws_focused w) as [f|]; [cbn|done].
      assert (Hin : forall x, bool_decide (x ∈ (list_to_set (pane_ids n) : gset N)) = bool_decide (x ∈ pane_ids n))
        by (intros x; apply bool_decide_ext; set_solver).
      rewrite Hin. case_bool_decide; [cbn|done]. intros Hf. exists f. split_and!; try done.
      * intros p Hp. rewrite Hp in Hf. cbn in Hf. rewrite Hin in Hf. destruct (N.eqb_spec p f); [done|].
        case_bool_decide; done.
      * intros z Hz. apply rbind_Ok in Hf as (_ & _ & Hf). rewrite Hz in Hf. cbn in Hf. rewrite Hin in Hf.
        by case_bool_decide.
    + intros [(Hs & H1 & H2 & H3) (f & -> & Hf & Hp & Hz)]. eexists. split; [split_and!; done|]. cbn.
      rewrite (right_id_L ∅ (∪)). fold (pane_ids n).
      assert (Hin : forall x, bool_decide (x ∈ (list_to_set (pane_ids n) : gset N)) = bool_decide (x ∈ pane_ids n))
        by (intros x; apply bool_decide_ext; set_solver).
      rewrite Hin, (bool_decide_eq_true_2 _ Hf). cbn. destruct (ws_previous_focus w) as [p|]; cbn.
      * destruct (Hp p eq_refl) as [Hne Hin']. rewrite Hin, (bool_decide_eq_true_2 _ Hin'), (proj2 (N.eqb_neq _ _) Hne). cbn.
        destruct (ws_zoomed w) as [z|]; [|done]. cbn. by rewrite Hin, (bool_decide_eq_true_2 _ (Hz z eq_refl)).
      * destruct (ws_zoomed w) as [z|]; [|done]. cbn. by rewrite Hin, (bool_decide_eq_true_2 _ (Hz z eq_refl)).
  - destruct (ws_focused w), (ws_previous_focus w), (ws_zoomed w); cbn; naive_solver.
Qed.
End Validation.

(** ** Presentations *)

Section Presentations.
Context {K : Type} `{EqDecision K}.
Implicit Types n m : WorkspaceNode K.

Lemma update_compose q f g n m :
  (forall p, q p = true -> q (f p) = true) -> update_pane_by q f n = Some m ->
  update_pane_by q g m = update_pane_by q (fun p => g (f p)) n.
Proof.
  intros Hq. revert m. induction n as [p|id axis cs IH] using node_induction; intros m; cbn.
  - destruct (q p) eqn:E; [|done]. intros [= <-]. cbn. by rewrite (Hq p E).
  - intros (cs' & Hcs & ->)%fmap_Some. cbn. f_equal. revert cs' Hcs.
    induction IH as [|c cs Hc _ IH]; intros cs'; cbn; [done|].
    destruct (update_pane_by q f (sc_node c)) as [m|] eqn:E; cbn.
    + intros [= <-]. cbn. rewrite (Hc m eq_refl). destruct (update_pane_by q (fun p => g (f p)) (sc_node c)) eqn:E'; cbn; [done|].
      apply update_pane_None in E'. rewrite (proj2 (update_pane_None q f (sc_node c)) E') in E. done.
    + intros (k & Hk & [= <-])%bind_Some. cbn. rewrite (IH k Hk).
      assert (forall h, update_pane_by q h (sc_node c) = None) as Hn by (intros h; by apply update_pane_None; apply update_pane_None in E).
      by rewrite !Hn.
Qed.

Lemma update_same q f n m :
  (forall p, p ∈ collect_panes n -> q p = true -> f p = p) -> update_pane_by q f n = Some m -> m = n.
Proof.
  revert m. induction n as [p|id axis cs IH] using node_induction; intros m Hf; cbn.
  - destruct (q p) eqn:E; [|done]. intros [= <-]. rewrite Hf; [done| |done]. by apply list_elem_of_singleton.
  - intros (cs' & (cs1 & c & c' & cs2 & -> & H1 & (m' & E & ->)%fmap_Some & ->)%update_first_Some & ->)%fmap_Some.
    apply Forall_app in IH as [_ [IH _]%Forall_cons]. rewrite (IH m'); [by destruct c| |done].
    intros p Hp. apply Hf. cbn. rewrite flat_map_app. cbn. set_solver.
Qed.

Definition full_pane (p : TaskPane K) : TaskPane K := pane_with_presentation p Full.

(** The tree with every pane shown in full: what does not depend on presentations. *)
Fixpoint full_node n : WorkspaceNode K :=
  match n with
  | Pane p => Pane (full_pane p)
  | Split id axis cs => Split id axis (map (fun c => with_node c (full_node (sc_node c))) cs)
  end.

Lemma full_panes n : collect_panes (full_node n) = map full_pane (collect_panes n).
Proof.
  induction n as [p|id axis cs IH] using node_induction; [done|]. cbn.
  induction IH as [|c cs Hc _ IH]; [done|]. cbn. by rewrite Hc, IH, map_app.
Qed.

Lemma full_splits n : split_ids (full_node n) = split_ids n.
Proof.
  induction n as [p|id axis cs IH] using node_induction; [done|]. cbn. f_equal.
  induction IH as [|c cs Hc _ IH]; [done|]. cbn. by rewrite Hc, IH.
Qed.

Lemma full_sound n : sound (full_node n) = sound n.
Proof.
  induction n as [p|id axis cs IH] using node_induction; [done|]. cbn. unfold count. rewrite length_map. f_equal.
  induction IH as [|c cs Hc _ IH]; [done|]. cbn. by rewrite Hc, IH.
Qed.

Lemma full_ids n : pane_ids (full_node n) = pane_ids n.
Proof. unfold pane_ids. by rewrite full_panes, map_map. Qed.

Lemma full_tasks n : collect_task_ids (full_node n) = collect_task_ids n.
Proof. by rewrite !tasks_panes, full_panes, map_map. Qed.

Lemma update_full q f n m :
  (forall p, full_pane (f p) = full_pane p) -> update_pane_by q f n = Some m -> full_node m = full_node n.
Proof.
  intros Hf. revert m. induction n as [p|id axis cs IH] using node_induction; intros m; cbn.
  - destruct (q p); [|done]. intros [= <-]. cbn. by rewrite Hf.
  - intros (cs' & (cs1 & c & c' & cs2 & -> & H1 & (m' & E & ->)%fmap_Some & ->)%update_first_Some & ->)%fmap_Some.
    apply Forall_app in IH as [_ [IH _]%Forall_cons]. cbn. rewrite !map_app. cbn. unfold with_node at 2. cbn. by rewrite (IH m' E).
Qed.
End Presentations.

Lemma full_tree_sound {K} `{Countable K} (n m : WorkspaceNode K) :
  full_node n = full_node m -> tree_sound n -> tree_sound m.
Proof.
  intros E. unfold tree_sound. rewrite <- (full_sound m), <- (full_ids m), <- (full_tasks m), <- (full_splits m), <- E.
  by rewrite full_sound, full_ids, full_tasks, full_splits.
Qed.
