(* ===== verification/Allocation.v ===== *)
(** The sizes of panes ([ui/task_workspace/allocation.rs]): which panes shrink to their title strip
    so that the tree fits a viewport, the rectangle each pane is painted in, and the gestures that
    look at those rectangles. *)
From S2P Require Import Prelude Order OperationQueue Float32 Layout LayoutTree.

Record Viewport := {
  vp_width : f32;
  vp_height : f32;
}.

Record PaneRect := {
  pr_x : f32;
  pr_y : f32;
  pr_width : f32;
  pr_height : f32;
}.

Record MinimumSize := {
  ms_width : f32;
  ms_height : f32;
}.

Definition PHYSICAL_AXIS_FLOOR : f32 := f32_of 64 0.

Definition finite_non_negative (value : f32) : f32 :=
  if is_finite value then f32_max value f32_zero else f32_zero.

(** [Viewport::new] *)
Definition viewport_new (width height : f32) : Viewport :=
  {| vp_width := finite_non_negative width; vp_height := finite_non_negative height |}.

(** [AllocationMetrics::sanitized] *)
Definition sanitized (m : AllocationMetrics) : AllocationMetrics :=
  {| am_full_min_width := finite_non_negative (am_full_min_width m);
     am_full_min_height := finite_non_negative (am_full_min_height m);
     am_compact_min_width := finite_non_negative (am_compact_min_width m);
     am_compact_min_height := finite_non_negative (am_compact_min_height m);
     am_divider := finite_non_negative (am_divider m) |}.

(** [children.len().saturating_sub(1) as f32] *)
Definition dividers_of {A} (children : list A) : f32 := f32_of_N (count children - 1).

Section Sizes.
Context {K : Type}.
Implicit Types n : WorkspaceNode K.
Implicit Types cs : list (SplitChild (WorkspaceNode K)).

Fixpoint minimum_size n (metrics : AllocationMetrics) : MinimumSize :=
  match n with
  | Pane p =>
      match tp_presentation p with
      | Full => {| ms_width := am_full_min_width metrics; ms_height := am_full_min_height metrics |}
      | Minimised => {| ms_width := am_compact_min_width metrics; ms_height := am_compact_min_height metrics |}
      end
  | Split _ axis cs =>
      let children_min := map (fun c => minimum_size (sc_node c) metrics) cs in
      let dividers := f32_mul (am_divider metrics) (dividers_of cs) in
      match axis with
      | Horizontal =>
          {| ms_width := f32_add (f32_sum (map ms_width children_min)) dividers;
             ms_height := fold_left f32_max (map ms_height children_min) f32_zero |}
      | Vertical =>
          {| ms_width := fold_left f32_max (map ms_width children_min) f32_zero;
             ms_height := f32_add (f32_sum (map ms_height children_min)) dividers |}
      end
  end.

Fixpoint contains_full_pane n : bool :=
  match n with
  | Pane p => tp_presentation p =?= Full
  | Split _ _ cs => existsb (fun c => contains_full_pane (sc_node c)) cs
  end.

Fixpoint node_has_pinned_child n : bool :=
  match n with
  | Pane _ => false
  | Split _ _ cs => existsb (fun c => is_pinned (sc_allocation c) || node_has_pinned_child (sc_node c)) cs
  end.

(** [Iterator::max] of the times there are. *)
Fixpoint most_recent_focus n : option N :=
  match n with
  | Pane p => Some (tp_last_focused_at p)
  | Split _ _ cs =>
      fold_right (fun o best =>
        match o, best with
        | Some x, Some y => Some (N.max x y)
        | Some x, None => Some x
        | None, best => best
        end) None (map (fun c => most_recent_focus (sc_node c)) cs)
  end.

(** [min_by_key]: the first of the least. *)
Definition least_recent_focus_child_index cs : option nat :=
  snd <$>
    fold_left (fun best '(index, o) =>
      match o with
      | None => best
      | Some time =>
          match best with
          | Some (least, _) => if time <? least then Some (time, index) else best
          | None => Some (time, index)
          end
      end) (imap (fun index c => (index, most_recent_focus (sc_node c))) cs) None.

Fixpoint nested_physical_floor n (axis : Axis) (metrics : AllocationMetrics) : f32 :=
  match n with
  | Pane _ => PHYSICAL_AXIS_FLOOR
  | Split _ split_axis cs =>
      let child_floors :=
        map (fun c =>
          let descendant_floor := nested_physical_floor (sc_node c) axis metrics in
          if split_axis =?= axis then
            match sc_allocation c with
            | Auto _ => descendant_floor
            | Pinned logical_px => f32_min logical_px descendant_floor
            end
          else descendant_floor) cs in
      if split_axis =?= axis
      then f32_add (f32_sum child_floors) (f32_mul (am_divider metrics) (dividers_of cs))
      else fold_left f32_max child_floors PHYSICAL_AXIS_FLOOR
  end.

(** *** Sharing an extent among the children of a split *)

(** [distribute_auto]: what is left beyond the base goes to the unpinned children by weight, to those with a full
    pane when there are any. *)
Definition distribute_auto cs (sizes auto_base : list f32)
    (remaining_for_auto auto_base_total full_auto_weight auto_weight : f32) : list f32 :=
  let auto_extra := f32_max (f32_sub remaining_for_auto auto_base_total) f32_zero in
  zip_with (fun c '(size, base) =>
    match sc_allocation c with
    | Pinned _ => size
    | Auto weight =>
        let weight :=
          if f32_lt f32_zero full_auto_weight && contains_full_pane (sc_node c) then weight
          else if f32_eq full_auto_weight f32_zero then weight else f32_zero in
        f32_add base (f32_div (f32_mul auto_extra weight) auto_weight)
    end) cs (zip sizes auto_base).

(** What a child keeps while the others need room. *)
Definition compression_floor (c : SplitChild (WorkspaceNode K)) (axis : Axis) (metrics : AllocationMetrics) : f32 :=
  match sc_allocation c with
  | Auto _ => nested_physical_floor (sc_node c) axis metrics
  | Pinned logical_px => f32_min logical_px (nested_physical_floor (sc_node c) axis metrics)
  end.

(** One child gives up what it can of the deficit. *)
Definition compress cs (axis : Axis) (metrics : AllocationMetrics) (index : nat) (state : list f32 * f32)
    : list f32 * f32 :=
  let '(sizes, deficit) := state in
  match cs !! index, sizes !! index with
  | Some c, Some size =>
      let reducible := f32_max (f32_sub size (compression_floor c axis metrics)) f32_zero in
      let take := f32_min deficit reducible in
      (<[index := f32_sub size take]> sizes, f32_sub deficit take)
  | _, _ => (sizes, deficit)
  end.

(** The three ways to take a deficit: the least recently focused child, then every child from the
    least recently focused on, then all in proportion. *)
Definition take_deficit cs (sizes : list f32) (deficit available : f32) (fallback : option nat) (axis : Axis)
    (metrics : AllocationMetrics) : list f32 :=
  let '(sizes, deficit) :=
    match fallback with
    | Some index => if (index <? length sizes)%nat then compress cs axis metrics index (sizes, deficit) else (sizes, deficit)
    | None => (sizes, deficit)
    end in
  let '(sizes, deficit) :=
    if f32_lt f32_zero deficit then
      let key index := default 0 (c ← cs !! index; most_recent_focus (sc_node c)) in
      let order := sort_by (fun i j => key i ?= key j) (seq 0 (length cs)) in
      fold_left (fun state index =>
        if f32_le (snd state) f32_zero then state else compress cs axis metrics index state) order (sizes, deficit)
    else (sizes, deficit) in
  if f32_lt f32_zero deficit then
    let total := f32_sum sizes in
    if f32_lt f32_zero total then map (fun size => f32_mul size (f32_div available total)) sizes else sizes
  else sizes.

(** The surplus goes to the least recently focused child, or to the last. *)
Definition give_surplus (sizes : list f32) (surplus : f32) (fallback : option nat) : list f32 :=
  match fallback with
  | Some index =>
      if (index <? length sizes)%nat then alter (fun size => f32_add size surplus) index sizes
      else alter (fun size => f32_add size surplus) (length sizes - 1)%nat sizes
  | None => alter (fun size => f32_add size surplus) (length sizes - 1)%nat sizes
  end.

Definition allocate_axis_sizes cs (minimums : list f32) (available : f32) (fallback : option nat) (axis : Axis)
    (metrics : AllocationMetrics) : list f32 :=
  match cs with
  | [] => []
  | _ =>
      let sizes :=
        zip_with (fun c minimum => match sc_allocation c with Auto _ => minimum | Pinned logical_px => logical_px end)
          cs minimums in
      let pinned_total :=
        f32_sum (zip_with (fun c size => match sc_allocation c with Pinned _ => size | Auto _ => f32_zero end) cs sizes) in
      let auto_min_total :=
        f32_sum (zip_with (fun c minimum => match sc_allocation c with Auto _ => minimum | Pinned _ => f32_zero end)
                   cs minimums) in
      let auto_floors :=
        map (fun c => match sc_allocation c with
                      | Auto _ => nested_physical_floor (sc_node c) axis metrics
                      | Pinned _ => f32_zero
                      end) cs in
      let auto_floor_total := f32_sum auto_floors in
      let full_auto_weight :=
        f32_sum (map (fun c => match sc_allocation c with
                               | Auto weight => if contains_full_pane (sc_node c) then weight else f32_zero
                               | Pinned _ => f32_zero
                               end) cs) in
      let auto_weight :=
        if f32_lt f32_zero full_auto_weight then full_auto_weight
        else f32_sum (map (fun c => match sc_allocation c with Auto weight => weight | Pinned _ => f32_zero end) cs) in
      let remaining_for_auto := f32_sub available pinned_total in
      if f32_le auto_min_total (f32_add remaining_for_auto f32_EPSILON) && f32_lt f32_zero auto_weight then
        distribute_auto cs sizes minimums remaining_for_auto auto_min_total full_auto_weight auto_weight
      else if f32_le auto_floor_total (f32_add remaining_for_auto f32_EPSILON) && f32_lt f32_zero auto_weight then
        distribute_auto cs sizes auto_floors remaining_for_auto auto_floor_total full_auto_weight auto_weight
      else
        let sizes :=
          zip_with (fun c '(size, floor) => match sc_allocation c with Auto _ => floor | Pinned _ => size end)
            cs (zip sizes auto_floors) in
        let deficit := f32_sub (f32_sum sizes) available in
        if f32_lt f32_zero deficit then take_deficit cs sizes deficit available fallback axis metrics
        else if f32_lt deficit f32_zero then give_surplus sizes (SpecFloat.SFopp deficit) fallback
        else sizes
  end.

Definition extent_of (axis : Axis) (rect : PaneRect) : f32 :=
  match axis with Horizontal => pr_width rect | Vertical => pr_height rect end.

(** The part of a rectangle a child takes from [cursor] on. *)
Definition child_rect (axis : Axis) (rect : PaneRect) (cursor size : f32) : PaneRect :=
  match axis with
  | Horizontal => {| pr_x := cursor; pr_y := pr_y rect; pr_width := size; pr_height := pr_height rect |}
  | Vertical => {| pr_x := pr_x rect; pr_y := cursor; pr_width := pr_width rect; pr_height := size |}
  end.

(** The gap between two children, no wider than the extent allows. *)
Definition divider_of cs (extent : f32) (metrics : AllocationMetrics) : f32 :=
  let divider_count := dividers_of cs in
  if f32_lt f32_zero divider_count then f32_min (am_divider metrics) (f32_div extent divider_count) else f32_zero.

Definition sizes_of cs (axis : Axis) (rect : PaneRect) (metrics : AllocationMetrics) : list f32 :=
  let extent := extent_of axis rect in
  let divider := divider_of cs extent metrics in
  let available := f32_max (f32_sub extent (f32_mul divider (dividers_of cs))) f32_zero in
  let minimums :=
    map (fun c =>
      let preferred := minimum_size (sc_node c) metrics in
      let preferred := match axis with Horizontal => ms_width preferred | Vertical => ms_height preferred end in
      match sc_allocation c with
      | Pinned logical_px => f32_min preferred logical_px
      | Auto _ => preferred
      end) cs in
  allocate_axis_sizes cs minimums available (least_recent_focus_child_index cs) axis metrics.

(** The rectangles, in tree order. *)
Fixpoint allocate_node n (rect : PaneRect) (metrics : AllocationMetrics) : list (K * PaneRect) :=
  match n with
  | Pane p => [(tp_task_id p, rect)]
  | Split _ axis cs =>
      let divider := divider_of cs (extent_of axis rect) metrics in
      (fix place cs sizes cursor :=
         match cs, sizes with
         | c :: cs, size :: sizes =>
             let cursor' := f32_add cursor size in
             let cursor' := match cs with [] => cursor' | _ => f32_add cursor' divider end in
             allocate_node (sc_node c) (child_rect axis rect cursor size) metrics ++ place cs sizes cursor'
         | _, _ => []
         end) cs (sizes_of cs axis rect metrics) (match axis with Horizontal => pr_x rect | Vertical => pr_y rect end)
  end.
End Sizes.

(** ** The workspace *)

Section Allocations.
Context {K : Type} `{Countable K} (cmp : K -> K -> comparison).
Implicit Types w : Workspace K.

(** [AllocatedWorkspace] *)
Definition AllocatedWorkspace : Type := gmap K PaneRect.

(** [tried] holds the candidates that bought nothing since the tree last changed. *)
Definition least_recently_focused_full_unpinned w (focused : option K) (tried : list K) : option K :=
  let candidates :=
    omap (fun task_id =>
      if negb (Some task_id =?= focused) && negb (bool_decide (task_id ∈ tried))
         && (presentation w task_id =?= Some Full) && task_is_unpinned w task_id
      then p ← pane_for_task w task_id; Some (tp_last_focused_at p, task_id)
      else None) (task_ids w) in
  snd <$> head (sort_by (lex_cmp N.compare cmp) candidates).

(** The minimum of the tree, and whether it is more than the viewport on either axis. *)
Definition over_budget (viewport : Viewport) (minimum : MinimumSize) : bool * bool :=
  (f32_lt (vp_width viewport) (ms_width minimum), f32_lt (vp_height viewport) (ms_height minimum)).

Definition recovered (viewport : Viewport) (minimum relieved : MinimumSize) : bool :=
  let '(over_width, over_height) := over_budget viewport minimum in
  (over_width && f32_lt (ms_width relieved) (ms_width minimum))
  || (over_height && f32_lt (ms_height relieved) (ms_height minimum)).

(** The loop of [minimise_to_fit]; [None] when the fuel ends. *)
Fixpoint minimise_loop (fuel : nat) (viewport : Viewport) (metrics : AllocationMetrics) (focused : option K) w
    (tried : list K) : option (Workspace K) :=
  match fuel with
  | O => None
  | S fuel =>
      match ws_root w with
      | None => Some w
      | Some root =>
          let minimum := minimum_size root metrics in
          let '(over_width, over_height) := over_budget viewport minimum in
          if negb over_width && negb over_height then Some w
          else
            match least_recently_focused_full_unpinned w focused tried with
            | None => Some w
            | Some candidate =>
                let '(w', set) := set_presentation w candidate Minimised in
                match set, ws_root w' with
                | Err _, _ => Some w'
                | Ok _, None => Some w'
                | Ok _, Some root' =>
                    if recovered viewport minimum (minimum_size root' metrics)
                    then minimise_loop fuel viewport metrics focused w' []
                    else minimise_loop fuel viewport metrics focused (fst (set_presentation w' candidate Full))
                           (tried ++ [candidate])
                end
            end
      end
  end.

(** Every pane starts Full. *)
Definition restore_all w : Workspace K :=
  fold_left (fun w task_id =>
    if presentation w task_id =?= Some Minimised then fst (set_presentation w task_id Full) else w) (task_ids w) w.

(** A round tries each pane at most once, and each round but the last turns one pane into a strip. *)
Definition minimise_fuel w : nat := (length (task_ids w) + 1) * (length (task_ids w) + 1).

Definition minimise_to_fit w (viewport : Viewport) (metrics : AllocationMetrics) : option (Workspace K) :=
  let w := restore_all w in
  minimise_loop (minimise_fuel w) viewport metrics (focused_task w) w [].

Definition whole (viewport : Viewport) : PaneRect :=
  {| pr_x := f32_zero; pr_y := f32_zero; pr_width := vp_width viewport; pr_height := vp_height viewport |}.

(** [allocate]: the workspace after it, and the rectangles.  [minimise_to_fit] always ends
    ([Minimise.minimise_ends]). *)
Definition allocate w (viewport : Viewport) (metrics : AllocationMetrics) : Workspace K * AllocatedWorkspace :=
  let metrics := sanitized metrics in
  match z ← ws_zoomed w; ws_pane w z with
  | Some p => (w, {[tp_task_id p := whole viewport]})
  | None =>
      let w := default w (minimise_to_fit w viewport metrics) in
      (w, match ws_root w with
          | Some root =>
              fold_left (fun rects '(task_id, rect) => <[task_id := rect]> rects)
                (allocate_node root (whole viewport) metrics) ∅
          | None => ∅
          end)
  end.

(** *** Reading order and the grid *)

Record ReadingEntry := {
  re_unplaced : N;
  re_y : f32;
  re_x : f32;
  re_index : N;
  re_pane : N;
}.

Definition reading_cmp (l r : ReadingEntry) : comparison :=
  then_with (re_unplaced l ?= re_unplaced r)
    (then_with (f32_total_cmp (re_y l) (re_y r))
       (then_with (f32_total_cmp (re_x l) (re_x r)) (re_index l ?= re_index r))).

(** The measurement is made on a copy. *)
Definition panes_in_reading_order w (viewport : Viewport) (metrics : AllocationMetrics) : list N :=
  let '(_, allocated) := allocate w viewport metrics in
  let entry (i : nat) (task_id : K) : option ReadingEntry :=
    p ← pane_for_task w task_id;
    Some (match allocated !! task_id with
          | Some rect =>
              {| re_unplaced := 0; re_y := pr_y rect; re_x := pr_x rect; re_index := N.of_nat i; re_pane := tp_id p |}
          | None =>
              {| re_unplaced := 1; re_y := f32_zero; re_x := f32_zero; re_index := N.of_nat i; re_pane := tp_id p |}
          end) in
  map re_pane (sort_by reading_cmp (omap (fun o => o) (imap entry (task_ids w)))).

Definition grid_fits (panes : N) (viewport : Viewport) (metrics : AllocationMetrics) : bool :=
  let columns := grid_columns_for (vp_width viewport) metrics in
  let rows := grid_rows_for panes columns in
  let width := f32_add (f32_mul (f32_of_N columns) (am_full_min_width metrics))
                 (f32_mul (am_divider metrics) (f32_of_N (columns - 1))) in
  let height := f32_add (f32_mul (f32_of_N rows) (am_full_min_height metrics))
                  (f32_mul (am_divider metrics) (f32_of_N (rows - 1))) in
  let half := f32_of 1 (-1) in
  f32_le width (f32_add (vp_width viewport) half) && f32_le height (f32_add (vp_height viewport) half).

Definition grid_fits_canvas w (viewport : Viewport) (metrics : AllocationMetrics) : bool :=
  let metrics := sanitized metrics in
  (0 <? pane_count w) && grid_fits (pane_count w) viewport metrics.

Definition grid_is_cramped w (viewport : Viewport) (metrics : AllocationMetrics) : bool :=
  let metrics := sanitized metrics in
  match ws_root w with
  | None => false
  | Some root =>
      if pane_count w =? 0 then false
      else if node_has_pinned_child root then false
      else if negb (grid_fits (pane_count w) viewport metrics) then false
      else
        let '(_, allocated) := allocate w viewport metrics in
        existsb (fun task_id =>
          is_some_and (allocated !! task_id)
            (fun rect => f32_lt (f32_add (pr_width rect) (f32_of 1 (-1))) (am_full_min_width metrics))) (task_ids w)
  end.

Definition regrid_to_canvas w (fresh : N -> N) (viewport : Viewport) (metrics : AllocationMetrics) : Workspace K * bool :=
  let metrics := sanitized metrics in
  rebuild_as_grid w fresh (panes_in_reading_order w viewport metrics) (grid_columns_for (vp_width viewport) metrics).

(** [toggle_task_size_pin] *)
Definition toggle_task_size_pin w (task_id : K) (viewport : Viewport) (metrics : AllocationMetrics)
    : Workspace K * result unit WorkspaceError :=
  match task_axis_allocation w task_id with
  | None => (w, Err MissingPane)
  | Some (axis, allocation) =>
      if is_pinned allocation then reset_task_axis_size w task_id
      else
        let '(_, allocated) := allocate (unzoom w) viewport metrics in
        match allocated !! task_id with
        | None => (w, Err MissingPane)
        | Some rect => pin_task_axis_size w task_id (match axis with Horizontal => pr_width rect | Vertical => pr_height rect end)
        end
  end.

(** *** Moving by direction *)

(** How far a centre lies toward an edge, and how far to the side. *)
Definition toward (edge : Edge) (origin_x origin_y centre_x centre_y : f32) : f32 * f32 :=
  match edge with
  | EdgeLeft => (f32_sub origin_x centre_x, f32_abs (f32_sub centre_y origin_y))
  | EdgeRight => (f32_sub centre_x origin_x, f32_abs (f32_sub centre_y origin_y))
  | EdgeTop => (f32_sub origin_y centre_y, f32_abs (f32_sub centre_x origin_x))
  | EdgeBottom => (f32_sub centre_y origin_y, f32_abs (f32_sub centre_x origin_x))
  end.

Definition centre (rect : PaneRect) : f32 * f32 :=
  (f32_add (pr_x rect) (f32_div (pr_width rect) (f32_of 2 0)), f32_add (pr_y rect) (f32_div (pr_height rect) (f32_of 2 0))).

Definition pane_toward w (edge : Edge) (allocated : AllocatedWorkspace) : option N :=
  focused ← ws_focused w;
  focused_pane ← ws_pane w focused;
  origin ← allocated !! tp_task_id focused_pane;
  let '(origin_x, origin_y) := centre origin in
  let best :=
    fold_left (fun best task_id =>
      match pane_for_task w task_id, allocated !! task_id with
      | Some p, Some rect =>
          if tp_id p =? focused then best
          else
            let '(centre_x, centre_y) := centre rect in
            let '(forward, sideways) := toward edge origin_x origin_y centre_x centre_y in
            if f32_le forward f32_zero then best
            else
              let better :=
                match best with
                | None => true
                | Some (best_forward, best_sideways, _) =>
                    f32_lt forward best_forward || (f32_eq forward best_forward && f32_lt sideways best_sideways)
                end in
              if better then Some (forward, sideways, tp_id p) else best
      | _, _ => best
      end) (task_ids w) None in
  snd <$> best.

Definition focus_pane_toward w (edge : Edge) (allocated : AllocatedWorkspace) : Workspace K * bool :=
  match pane_toward w edge allocated with
  | None => (w, false)
  | Some target => let '(w, r) := focus_pane w target in (w, is_ok r)
  end.

Definition move_pane_toward w (split_id : N) (edge : Edge) (allocated : AllocatedWorkspace) : Workspace K * bool :=
  match pane_toward w edge allocated with
  | None => (w, false)
  | Some target =>
      match ws_focused w with
      | None => (w, false)
      | Some source => let '(w, r) := move_pane w split_id source (DropEdge target edge) in (w, is_ok r)
      end
  end.
End Allocations.

Arguments AllocatedWorkspace K {_ _}.
