(* ===== verification/Minimise.v ===== *)
(** Shrinking panes to strips ends, at a tree no further strip would help; and every pane of a
    workspace gets its rectangle. *)
From S2P Require Import Prelude Order OperationQueue Float32 Layout LayoutTree Allocation.

Section Minimising.
Context {K : Type} `{Countable K} (cmp : K -> K -> comparison).
Implicit Types w : Workspace K.

Definition ws_panes w : list (TaskPane K) := match ws_root w with Some n => collect_panes n | None => [] end.

(** The workspace with every pane shown in full. *)
Definition full_ws w : Workspace K := ws_with_root w (full_node <$> ws_root w).

Lemma ws_tasks w : task_ids w = map tp_task_id (ws_panes w).
Proof. unfold task_ids, ws_panes. destruct (ws_root w); [apply tasks_panes|done]. Qed.

Lemma full_ws_tasks w w' : full_ws w = full_ws w' -> task_ids w = task_ids w'.
Proof.
  unfold full_ws, ws_with_root, task_ids. intros [= E _ _ _ _]. destruct (ws_root w), (ws_root w'); simplify_eq/=; [|done].
  rewrite <- (full_tasks w0), <- (full_tasks w1). congruence.
Qed.

Lemma full_well_formed w w' : full_ws w = full_ws w' -> well_formed w -> well_formed w'.
Proof.
  unfold full_ws, ws_with_root, well_formed. intros [= E E1 E2 _ E3]. rewrite E1, E2, E3.
  destruct (ws_root w) as [n|], (ws_root w') as [n'|]; simplify_eq/=; [|done].
  intros [Ht Hf]. split; [by eapply full_tree_sound|]. rewrite <- (full_ids n'), <- E, full_ids. done.
Qed.

(** In a sound tree an id and a task name one pane each. *)
Lemma pane_by_task w p l1 l2 :
  well_formed w -> ws_panes w = l1 ++ p :: l2 -> pane_for_task w (tp_task_id p) = Some p.
Proof.
  unfold well_formed, ws_panes, pane_for_task. destruct (ws_root w) as [n|]; [|by destruct l1].
  intros [(_ & _ & Hnd & _) _] E. cbn. unfold find_pane_for_task. rewrite find_pane_by_find.
  rewrite tasks_panes, E, map_app in Hnd. apply NoDup_app in Hnd as (_ & Hd & _). rewrite E. clear E.
  induction l1 as [|x l1 IH]; cbn; [by rewrite eqb_refl|].
  destruct (tp_task_id x =?= tp_task_id p) eqn:Ex; [|apply IH; intros y Hy; apply Hd; by right].
  apply eqb_true_1 in Ex. exfalso. apply (Hd (tp_task_id x)); [left|rewrite Ex; left].
Qed.

Lemma pane_by_id w p l1 l2 : well_formed w -> ws_panes w = l1 ++ p :: l2 -> ws_pane w (tp_id p) = Some p.
Proof.
  unfold well_formed, ws_panes, ws_pane. destruct (ws_root w) as [n|]; [|by destruct l1].
  intros [(_ & Hnd & _) _] E. cbn. unfold find_pane. rewrite find_pane_by_find.
  unfold pane_ids in Hnd. rewrite E, map_app in Hnd. apply NoDup_app in Hnd as (_ & Hd & _). rewrite E. clear E.
  induction l1 as [|x l1 IH]; cbn; [by rewrite N.eqb_refl|].
  destruct (N.eqb_spec (tp_id x) (tp_id p)) as [Ex|Ex]; [|apply IH; intros y Hy; apply Hd; by right].
  exfalso. apply (Hd (tp_id x)); [left|rewrite Ex; left].
Qed.

Lemma pane_for_task_in w k p : pane_for_task w k = Some p -> p ∈ ws_panes w /\ tp_task_id p = k.
Proof.
  unfold pane_for_task, ws_panes. destruct (ws_root w) as [n|]; [|done]. cbn. unfold find_pane_for_task.
  rewrite find_pane_by_find. intros (l1 & l2 & -> & <-%eqb_true & _)%find_Some. split; [set_solver|done].
Qed.

Lemma ws_pane_in w id p : ws_pane w id = Some p -> p ∈ ws_panes w /\ tp_id p = id.
Proof.
  unfold ws_pane, ws_panes. destruct (ws_root w) as [n|]; [|done]. cbn. unfold find_pane.
  rewrite find_pane_by_find. intros (l1 & l2 & -> & <-%N.eqb_eq & _)%find_Some. split; [set_solver|done].
Qed.

Lemma pane_for_task_some w k : k ∈ task_ids w -> exists p, pane_for_task w k = Some p.
Proof.
  unfold task_ids, pane_for_task. destruct (ws_root w) as [n|]; [|set_solver]. intros Hk. cbn.
  pose proof (contains_task_tasks n k) as Hc. rewrite (bool_decide_eq_true_2 _ Hk) in Hc. unfold contains_task in Hc.
  destruct (find_pane_for_task n k) as [p|]; [by eexists|done].
Qed.

Lemma same_id w p x : well_formed w -> p ∈ ws_panes w -> x ∈ ws_panes w -> tp_id x = tp_id p -> x = p.
Proof.
  intros Hw (l1 & l2 & E)%list_elem_of_split (k1 & k2 & E')%list_elem_of_split Hid.
  pose proof (pane_by_id w p l1 l2 Hw E). pose proof (pane_by_id w x k1 k2 Hw E'). congruence.
Qed.

(** [set_presentation] in a sound workspace. *)
Lemma set_presentation_spec w k pr p :
  well_formed w -> pane_for_task w k = Some p ->
  exists w', set_presentation w k pr = (w', Ok tt) /\ full_ws w' = full_ws w
    /\ (exists l1 l2, ws_panes w = l1 ++ p :: l2 /\ ws_panes w' = l1 ++ pane_with_presentation p pr :: l2)
    /\ (forall pr', fst (set_presentation w' k pr') = fst (set_presentation w k pr'))
    /\ (tp_presentation p = pr -> w' = w).
Proof.
  intros Hw Hp. destruct (pane_for_task_in _ _ _ Hp) as [Hin Hk]. unfold set_presentation at 1. rewrite Hp.
  unfold pane_mut. destruct (ws_root w) as [n|] eqn:Hn; [cbn|by unfold ws_panes in Hin; rewrite Hn in Hin; apply not_elem_of_nil in Hin].
  unfold find_pane_mut. destruct (update_pane_by _ _ n) as [m|] eqn:E.
  2: { exfalso. apply update_pane_None in E. rewrite find_pane_by_find, find_None, Forall_forall in E.
       unfold ws_panes in Hin. rewrite Hn in Hin. specialize (E p Hin). cbn in E. by rewrite N.eqb_refl in E. }
  exists (ws_with_root w (Some m)). split; [done|].
  assert (Hfull : full_ws (ws_with_root w (Some m)) = full_ws w).
  { unfold full_ws. cbn. rewrite Hn. cbn. by rewrite (update_full _ (fun q => pane_with_presentation q pr) n m (fun q => eq_refl) E). }
  split; [done|]. pose proof (update_pane_Some _ _ _ _ E) as (l1 & p' & l2 & H1 & _ & H2%N.eqb_eq & H3 & _).
  assert (p' = p) as ->.
  { apply (same_id w); try done. unfold ws_panes. rewrite Hn, H1. set_solver. }
  split; [exists l1, l2; unfold ws_panes; cbn; by rewrite Hn|]. split.
  - intros pr'. unfold set_presentation. rewrite Hp.
    assert (pane_for_task (ws_with_root w (Some m)) k = Some (pane_with_presentation p pr)) as ->.
    { rewrite <- Hk. apply (pane_by_task _ (pane_with_presentation p pr) l1 l2); [by eapply full_well_formed|done]. }
    unfold pane_mut. cbn. rewrite Hn. cbn. unfold find_pane_mut.
    rewrite (update_compose (fun x => tp_id x =? tp_id p) (fun q => pane_with_presentation q pr) (fun q => pane_with_presentation q pr') n m
      (fun q Hq => Hq) E).
    change (fun q : TaskPane K => pane_with_presentation (pane_with_presentation q pr) pr')
      with (fun q : TaskPane K => pane_with_presentation q pr').
    destruct (update_pane_by _ (fun q => pane_with_presentation q pr') n) eqn:E'; [done|].
    exfalso. apply update_pane_None in E'. by rewrite (proj2 (update_pane_None _ _ _) E') in E.
  - intros Hpr. assert (m = n) as ->; [|by destruct w; cbn in *; subst].
    eapply update_same; [|exact E]. intros q Hq Hqid%N.eqb_eq. assert (q = p) as ->.
    { apply (same_id w); try done. unfold ws_panes. by rewrite Hn. }
    destruct p. cbn in *. by subst.
Qed.

(** *** The loop *)

Definition full_count w : nat := length (List.filter (fun p => tp_presentation p =?= Full) (ws_panes w)).

(** A pane that may become a strip. *)
Definition eligible w (focused : option K) (k : K) : Prop :=
  k ∈ task_ids w /\ Some k <> focused /\ presentation w k = Some Full /\ task_is_unpinned w k = true.

Definition fits w (viewport : Viewport) (metrics : AllocationMetrics) : Prop :=
  forall root, ws_root w = Some root -> over_budget viewport (minimum_size root metrics) = (false, false).

(** Turning the pane into a strip lowers the tree on no axis over budget. *)
Definition no_help w (viewport : Viewport) (metrics : AllocationMetrics) (k : K) : Prop :=
  forall root root', ws_root w = Some root -> ws_root (fst (set_presentation w k Minimised)) = Some root' ->
    recovered viewport (minimum_size root metrics) (minimum_size root' metrics) = false.

Lemma sort_by_perm {A} (c : A -> A -> comparison) (l : list A) : sort_by c l ≡ₚ l.
Proof.
  induction l as [|x l IH]; [done|]. cbn. assert (Hi : forall k, insert_by c x k ≡ₚ x :: k).
  { induction k as [|y k IHk]; [done|]. cbn. destruct (c x y); [done|done|]. rewrite IHk. apply Permutation_swap. }
  rewrite Hi. by f_equiv.
Qed.

Lemma candidate_spec w focused tried :
  match least_recently_focused_full_unpinned cmp w focused tried with
  | Some k => eligible w focused k /\ k ∉ tried
  | None => forall k, eligible w focused k -> k ∈ tried
  end.
Proof.
  unfold least_recently_focused_full_unpinned.
  set (candidates := omap _ (task_ids w)).
  pose proof (sort_by_perm (lex_cmp N.compare cmp) candidates) as Hp.
  destruct (sort_by _ candidates) as [|[t k] l]; cbn.
  - intros k (Hk & Hf & Hfull & Hu). apply Permutation_nil_l in Hp.
    destruct (decide (k ∈ tried)) as [|Ht]; [done|exfalso].
    unfold presentation in Hfull. destruct (pane_for_task w k) as [p|] eqn:Ek; [|done].
    assert (Hin : (tp_last_focused_at p, k) ∈ candidates); [|by rewrite <- Hp in Hin; apply not_elem_of_nil in Hin].
    apply list_elem_of_omap. exists k. split; [done|]. unfold presentation. rewrite Ek. cbn.
    rewrite (proj2 (eqb_false _ _) Hf), (bool_decide_eq_false_2 _ Ht). cbn. cbn in Hfull. rewrite Hfull, eqb_refl, Hu. done.
  - assert (Hin : (t, k) ∈ candidates) by (rewrite <- Hp; left).
    apply list_elem_of_omap in Hin as (k' & Hk' & Hc).
    destruct (negb (Some k' =?= focused) && _ && _ && _) eqn:E; [|done]. apply bind_Some in Hc as (p & Hp' & [= <- <-]).
    rewrite !andb_true_iff, !negb_true_iff, eqb_false, bool_decide_eq_false, eqb_true in E. unfold eligible. tauto.
Qed.

Lemma full_count_le w : (full_count w <= length (task_ids w))%nat.
Proof. unfold full_count. rewrite ws_tasks, length_map. apply List.filter_length_le. Qed.

(** What stays when one pane changes its presentation. *)
Lemma presentation_other w w' p l1 l2 p' k :
  well_formed w -> well_formed w' -> ws_panes w = l1 ++ p :: l2 -> ws_panes w' = l1 ++ p' :: l2 ->
  tp_task_id p <> k -> k ∈ task_ids w -> presentation w' k = presentation w k.
Proof.
  intros Hw Hw' E E' Hk Hin. destruct (pane_for_task_some w k Hin) as [x Hx]. unfold presentation. rewrite Hx.
  apply pane_for_task_in in Hx as [Hx <-]. rewrite E in Hx. assert (Hx' : x ∈ ws_panes w').
  { rewrite E'. apply elem_of_app in Hx as [Hx|Hx]; [set_solver|]. apply elem_of_cons in Hx as [->|Hx]; [done|set_solver]. }
  apply list_elem_of_split in Hx' as (k1 & k2 & E2). by rewrite (pane_by_task w' x k1 k2).
Qed.

Lemma restored w :
  well_formed w -> full_ws (restore_all w) = full_ws w /\ well_formed (restore_all w)
    /\ forall k, k ∈ task_ids w -> presentation (restore_all w) k = Some Full.
Proof.
  unfold restore_all. intros Hw.
  assert (Hg : forall ks v, well_formed v -> (forall k, k ∈ ks -> k ∈ task_ids v) ->
    let v' := fold_left (fun w task_id =>
      if presentation w task_id =?= Some Minimised then fst (set_presentation w task_id Full) else w) ks v in
    full_ws v' = full_ws v /\ well_formed v'
    /\ (forall k, k ∈ task_ids v -> k ∈ ks \/ presentation v k = Some Full -> presentation v' k = Some Full)).
  { induction ks as [|k ks IH]; intros v Hv Hks; cbn [fold_left].
    - split_and!; [done..|]. intros k _ [Hk|]; [by apply not_elem_of_nil in Hk|done].
    - destruct (pane_for_task_some v k (Hks k ltac:(left))) as [p Hp].
      destruct (set_presentation_spec v k Full p Hv Hp) as (v1 & Hs & Hfull & (l1 & l2 & E1 & E2) & _).
      destruct (presentation v k =?= Some Minimised) eqn:E.
      + rewrite Hs. cbn [fst]. assert (Hv1 : well_formed v1) by (by eapply full_well_formed).
        assert (Ht : task_ids v1 = task_ids v) by (by apply full_ws_tasks).
        destruct (IH v1 Hv1) as (H1 & H2 & H3). { intros j Hj. rewrite Ht. apply Hks. by right. }
        split_and!; [congruence|done|]. intros j Hj Hor. apply H3; [by rewrite Ht|].
        destruct (decide (j = k)) as [->|Hne].
        * right. apply pane_for_task_in in Hp as [_ <-]. unfold presentation.
          pose proof (pane_by_task v1 (pane_with_presentation p Full) l1 l2 Hv1 E2) as Hq. cbn in Hq. by rewrite Hq.
        * destruct Hor as [Hor|Hor]; [apply elem_of_cons in Hor as [?|?]; [done|by left]|right].
          rewrite (presentation_other v v1 p l1 l2 (pane_with_presentation p Full) j); try done.
          apply pane_for_task_in in Hp as [_ Hp]. congruence.
      + destruct (IH v Hv) as (H1 & H2 & H3). { intros j Hj. apply Hks. by right. }
        split_and!; [done..|]. intros j Hj Hor. apply H3; [done|]. destruct Hor as [Hor|Hor]; [|by right].
        apply elem_of_cons in Hor as [->|?]; [right|by left]. apply eqb_false in E. unfold presentation in *.
        rewrite Hp in *. cbn in *. by destruct (tp_presentation p). }
  destruct (Hg (task_ids w) w Hw (fun k H => H)) as (H1 & H2 & H3). split_and!; [done..|]. intros k Hk. apply H3; [done|by left].
Qed.

(** One strip more. *)
Lemma full_count_strip w w' p l1 l2 :
  ws_panes w = l1 ++ p :: l2 -> ws_panes w' = l1 ++ pane_with_presentation p Minimised :: l2 ->
  tp_presentation p = Full -> full_count w = S (full_count w').
Proof.
  unfold full_count. intros -> -> Hp. rewrite !List.filter_app, !length_app. cbn. rewrite Hp, eqb_refl.
  change (Minimised =?= Full) with false. cbn. lia.
Qed.

Lemma minimise_loop_ends viewport metrics focused : forall fuel w tried,
  well_formed w -> NoDup tried -> (forall k, k ∈ tried -> k ∈ task_ids w /\ no_help w viewport metrics k) ->
  (full_count w * (length (task_ids w) + 1) + (length (task_ids w) - length tried) < fuel)%nat ->
  exists w', minimise_loop cmp fuel viewport metrics focused w tried = Some w'
    /\ full_ws w' = full_ws w
    /\ (forall k, focused = Some k -> presentation w k = Some Full -> presentation w' k = Some Full)
    /\ (fits w' viewport metrics \/ forall k, eligible w' focused k -> no_help w' viewport metrics k).
Proof.
  induction fuel as [|fuel IH]; intros w tried Hw Hnd Htried Hfuel; [lia|]. cbn [minimise_loop].
  destruct (ws_root w) as [root|] eqn:Hroot.
  2: { exists w. split_and!; [done..|]. left. intros root' Hr. congruence. }
  destruct (over_budget viewport (minimum_size root metrics)) as [ow oh] eqn:Hob.
  destruct (negb ow && negb oh) eqn:Hfit.
  { exists w. split_and!; [done..|]. left. intros root' Hr. rewrite Hroot in Hr. injection Hr as <-. rewrite Hob.
    by destruct ow, oh. }
  pose proof (candidate_spec w focused tried) as Hc.
  destruct (least_recently_focused_full_unpinned cmp w focused tried) as [k|].
  2: { exists w. split_and!; [done..|]. right. intros k Hk. by apply Htried, Hc. }
  destruct Hc as [(Hk & Hkf & Hfull & Hu) Hnt]. destruct (pane_for_task_some w k Hk) as [p Hp].
  assert (Hpf : tp_presentation p = Full) by (unfold presentation in Hfull; rewrite Hp in Hfull; by injection Hfull).
  destruct (set_presentation_spec w k Minimised p Hw Hp) as (w1 & Hs & Hfw & (l1 & l2 & E1 & E2) & Hback & _).
  rewrite Hs. destruct (ws_root w1) as [root1|] eqn:Hroot1.
  2: { exfalso. unfold ws_panes in E2. rewrite Hroot1 in E2. by destruct l1. }
  assert (Hw1 : well_formed w1) by (by eapply full_well_formed). assert (Ht1 : task_ids w1 = task_ids w) by (by apply full_ws_tasks).
  destruct (recovered viewport (minimum_size root metrics) (minimum_size root1 metrics)) eqn:Hrec.
  - pose proof (full_count_strip w w1 p l1 l2 E1 E2 Hpf) as Hcount.
    destruct (IH w1 []) as (w' & -> & H1 & H2 & H3); [done|constructor|by intros j Hj; apply not_elem_of_nil in Hj| |].
    { rewrite Ht1. cbn [length]. lia. }
    exists w'. split_and!; [done|congruence| |done]. intros j Hj Hpj. apply H2; [done|].
    rewrite (presentation_other w w1 p l1 l2 _ j Hw Hw1 E1 E2); try done.
    + apply pane_for_task_in in Hp as [_ ->]. congruence.
    + unfold presentation in Hpj. destruct (pane_for_task w j) as [x|] eqn:Ex; [|done].
      apply pane_for_task_in in Ex as [Hx <-]. rewrite ws_tasks. by apply list_elem_of_fmap_2.
  - assert (fst (set_presentation w1 k Full) = w) as ->.
    { rewrite Hback. destruct (set_presentation_spec w k Full p Hw Hp) as (w2 & -> & _ & _ & _ & Hsame). by rewrite (Hsame Hpf). }
    apply IH; [done|..].
    + apply NoDup_app. split_and!; [done| |apply NoDup_singleton]. intros j Hj ->%list_elem_of_singleton. done.
    + intros j [Hj | ->%list_elem_of_singleton]%elem_of_app; [auto|]. split; [done|]. intros r r' Hr Hr'.
      rewrite Hs in Hr'. cbn in Hr'. rewrite Hroot in Hr. rewrite Hroot1 in Hr'. by simplify_eq.
    + assert (Hlen : (length (tried ++ [k]) <= length (task_ids w))%nat).
      { apply NoDup_incl_length.
        - apply NoDup_ListNoDup, NoDup_app. split_and!; [done| |apply NoDup_singleton].
          intros j Hj ->%list_elem_of_singleton. done.
        - intros j [Hj | [-> | []]]%List.in_app_or; apply list_elem_of_In; [|done]. apply Htried. by apply list_elem_of_In. }
      rewrite length_app in *. cbn in *. lia.
Qed.

Lemma find_mapped {A B} (f : A -> B) (q : B -> bool) (l : list A) :
  List.find q (map f l) = f <$> List.find (fun x => q (f x)) l.
Proof. induction l as [|x l IH]; [done|]. cbn. rewrite IH. by destruct (q (f x)). Qed.

Lemma full_ws_pane w id : ws_pane (full_ws w) id = full_pane <$> ws_pane w id.
Proof.
  unfold full_ws, ws_pane. cbn. destruct (ws_root w) as [n|]; [|done]. cbn. unfold find_pane.
  by rewrite !find_pane_by_find, full_panes, find_mapped.
Qed.

Lemma full_ws_focused_task w w' : full_ws w = full_ws w' -> focused_task w = focused_task w'.
Proof.
  intros E. unfold focused_task. assert (ws_focused w = ws_focused w') as -> by (unfold full_ws, ws_with_root in E; congruence).
  destruct (ws_focused w') as [f|]; [cbn|done]. pose proof (full_ws_pane w f) as E1. pose proof (full_ws_pane w' f) as E2.
  rewrite E, E2 in E1. destruct (ws_pane w f), (ws_pane w' f); simplify_eq/=; [|done]. f_equal.
  unfold full_pane, pane_with_presentation in *. congruence.
Qed.

(** The whole run of the loop, from every pane in full. *)
Lemma minimise_settles w viewport metrics :
  well_formed w ->
  exists w', minimise_to_fit cmp w viewport metrics = Some w' /\ full_ws w' = full_ws w
    /\ (forall k, focused_task w' = Some k -> presentation w' k = Some Full)
    /\ (fits w' viewport metrics \/ forall k, eligible w' (focused_task w') k -> no_help w' viewport metrics k).
Proof.
  intros Hw. destruct (restored w Hw) as (H1 & H2 & H3). unfold minimise_to_fit.
  pose proof (full_count_le (restore_all w)) as Hle.
  destruct (minimise_loop_ends viewport metrics (focused_task (restore_all w)) (minimise_fuel (restore_all w)) (restore_all w) [])
    as (w' & E & G1 & G2 & G3); [done|constructor|by intros k Hk; apply not_elem_of_nil in Hk| |].
  { unfold minimise_fuel. cbn [length]. nia. }
  exists w'. rewrite (full_ws_focused_task w' (restore_all w)) by done. split_and!; [done|congruence| |done].
  intros k Hk. apply G2; [done|]. apply H3. rewrite (full_ws_tasks w (restore_all w)) by done.
  unfold focused_task in Hk. apply bind_Some in Hk as (f & _ & (p & Hp & ->)%fmap_Some).
  apply ws_pane_in in Hp as [Hp _]. rewrite ws_tasks. by apply list_elem_of_fmap_2.
Qed.

Lemma allocate_shown w viewport metrics : well_formed w -> full_ws (fst (allocate cmp w viewport metrics)) = full_ws w.
Proof.
  intros Hw. unfold allocate. destruct (z ← ws_zoomed w; ws_pane w z); [done|].
  by destruct (minimise_settles w viewport (sanitized metrics) Hw) as (w' & -> & Hf & _).
Qed.

(** C39: Shrinking panes to fit the window always ends, within (panes + 1)² turns, whatever the sizes
    are.  It only changes presentations, and the focused pane stays in full.  When the tree still
    does not fit, no further strip would help: every pane that may still shrink would lower the
    minimum on no axis that is over budget. *)
Theorem minimise_ends w viewport metrics :
  validate w = Ok tt ->
  exists w', minimise_to_fit cmp w viewport metrics = Some w'
    /\ full_ws w' = full_ws w
    /\ (forall k, focused_task w' = Some k -> presentation w' k = Some Full)
    /\ (fits w' viewport metrics \/ forall k, eligible w' (focused_task w') k -> no_help w' viewport metrics k).
Proof. intros Hw%validate_iff. by apply minimise_settles. Qed.

(** *** Rectangles *)

Lemma distribute_length (cs : list (SplitChild (WorkspaceNode K))) sizes base a b c d :
  length sizes = length cs -> length base = length cs -> length (distribute_auto cs sizes base a b c d) = length cs.
Proof. intros H1 H2. unfold distribute_auto. rewrite length_zip_with, length_zip_with. lia. Qed.

Lemma compress_length (cs : list (SplitChild (WorkspaceNode K))) axis metrics index state :
  length (fst (compress cs axis metrics index state)) = length (fst state).
Proof.
  unfold compress. destruct state as [sizes deficit]. destruct (cs !! index), (sizes !! index); try done. cbn.
  by rewrite length_insert.
Qed.

Lemma take_deficit_length (cs : list (SplitChild (WorkspaceNode K))) sizes deficit available fallback axis metrics :
  length (take_deficit cs sizes deficit available fallback axis metrics) = length sizes.
Proof.
  unfold take_deficit.
  set (first := match fallback with Some index => _ | None => _ end).
  assert (H1 : length (fst first) = length sizes).
  { unfold first. destruct fallback as [index|]; [|done]. destruct (index <? length sizes)%nat; [|done].
    apply (compress_length _ _ _ _ (sizes, deficit)). }
  destruct first as [s1 d1]. cbn in H1. set (key := fun index : nat => _).
  assert (H2 : forall order state, length (fst (fold_left (fun state index =>
    if f32_le (snd state) f32_zero then state else compress cs axis metrics index state) order state)) = length (fst state)).
  { induction order as [|i order IH]; intros state; [done|]. cbn. rewrite IH. destruct (f32_le _ _); [done|]. apply compress_length. }
  set (second := if f32_lt f32_zero d1 then _ else (s1, d1)).
  assert (H3 : length (fst second) = length s1) by (unfold second; destruct (f32_lt f32_zero d1); [apply H2|done]).
  destruct second as [s2 d2]. cbn in H3. destruct (f32_lt f32_zero d2); [|congruence].
  destruct (f32_lt f32_zero (f32_sum s2)); rewrite ?length_map; congruence.
Qed.

Lemma surplus_length sizes surplus fallback : length (give_surplus sizes surplus fallback) = length sizes.
Proof. unfold give_surplus. repeat case_match; by rewrite length_alter. Qed.

Lemma axis_sizes_length (cs : list (SplitChild (WorkspaceNode K))) minimums available fallback axis metrics :
  length minimums = length cs ->
  length (allocate_axis_sizes cs minimums available fallback axis metrics) = length cs.
Proof.
  intros Hm. unfold allocate_axis_sizes. destruct cs as [|c cs]; [done|]. remember (c :: cs) as all eqn:Eall. cbv zeta.
  repeat match goal with |- length (if ?b then _ else _) = _ => destruct b end.
  1, 2: apply distribute_length; rewrite ?length_zip_with, ?length_map; lia.
  1: rewrite take_deficit_length. 2: rewrite surplus_length.
  all: rewrite !length_zip_with, length_map; lia.
Qed.

Lemma sizes_length (cs : list (SplitChild (WorkspaceNode K))) axis rect metrics :
  length (sizes_of cs axis rect metrics) = length cs.
Proof. apply axis_sizes_length, length_map. Qed.

Lemma allocated_tasks (n : WorkspaceNode K) metrics : forall rect, map fst (allocate_node n rect metrics) = collect_task_ids n.
Proof.
  induction n as [p|id axis cs IH] using node_induction; intros rect; [done|]. cbn.
  set (divider := divider_of _ _ _). clearbody divider. pose proof (sizes_length cs axis rect metrics) as Hlen.
  generalize dependent (match axis with Horizontal => pr_x rect | Vertical => pr_y rect end).
  generalize dependent (sizes_of cs axis rect metrics).
  induction IH as [|c cs Hc _ IH]; intros sizes Hlen cursor; [done|]. destruct sizes as [|size sizes]; [done|].
  cbn. rewrite map_app, Hc. f_equal. apply IH. by injection Hlen.
Qed.

Lemma folded_dom (l : list (K * PaneRect)) : forall m : gmap K PaneRect,
  dom (fold_left (fun rects '(task_id, rect) => <[task_id := rect]> rects) l m) = list_to_set (map fst l) ∪ dom m.
Proof.
  induction l as [|[k r] l IH]; intros m; cbn; [set_solver|]. rewrite IH, dom_insert_L. set_solver.
Qed.

(** C40: Painting gives every open pane one rectangle, and nothing else; while a pane is zoomed it
    alone has one, the whole window.  The workspace itself changes only in which panes are strips,
    and stays valid. *)
Theorem allocation_places_every_pane w viewport metrics :
  validate w = Ok tt ->
  let '(w', rects) := allocate cmp w viewport metrics in
  full_ws w' = full_ws w /\ validate w' = Ok tt
  /\ match ws_zoomed w with
     | None => dom rects = list_to_set (task_ids w)
     | Some z => w' = w /\ exists p, ws_pane w z = Some p /\ rects = {[tp_task_id p := whole viewport]}
     end.
Proof.
  intros Hv. pose proof Hv as Hw. apply validate_iff in Hw. unfold allocate.
  destruct (ws_zoomed w) as [z|] eqn:Hz; cbn.
  - assert (Hp : exists p, ws_pane w z = Some p).
    { unfold well_formed in Hw. destruct (ws_root w) as [n|] eqn:Hn; [|naive_solver].
      destruct Hw as [_ (f & _ & _ & _ & Hzin)]. specialize (Hzin z Hz). unfold ws_pane. rewrite Hn. cbn.
      pose proof (contains_pane_ids n z) as Hc. rewrite bool_decide_eq_true_2 in Hc by done. unfold contains_pane in Hc.
      destruct (find_pane n z) as [p|]; [by exists p|done]. }
    destruct Hp as [p Hp]. rewrite Hp. split_and!; try done. by exists p.
  - destruct (minimise_settles w viewport (sanitized metrics) Hw) as (w' & -> & Hf & _). cbn.
    split_and!; [done|apply validate_iff; by eapply full_well_formed|].
    rewrite (full_ws_tasks w w') by done. unfold task_ids. destruct (ws_root w') as [n|]; [|unfold AllocatedWorkspace; by rewrite dom_empty_L].
    unfold AllocatedWorkspace. etrans; [apply folded_dom|]. rewrite allocated_tasks, dom_empty_L. set_solver.
Qed.
End Minimising.
