(* ===== verification/Workspaces.v ===== *)
(** Any sequence of gestures on a pane workspace: it stays valid, no task is lost or doubled, and
    what is opened and closed again leaves no trace. *)
From S2P Require Import Prelude Order OperationQueue Float32 Layout LayoutTree Allocation Minimise.

Section Gestures.
Context {K : Type} `{Countable K} (cmp : K -> K -> comparison).
Implicit Types w : Workspace K.
Implicit Types n m : WorkspaceNode K.

Definition ws_ids w : list N := map tp_id (ws_panes w).
Definition ws_splits w : list N := match ws_root w with Some n => split_ids n | None => [] end.

Lemma settle_ok {A} w (c : Workspace K) (a : A) : well_formed c -> settle w c a = (c, Ok a).
Proof. intros Hc%validate_iff. unfold settle. by rewrite Hc. Qed.

Lemma next_clock_pos w : next_clock w <> 0.
Proof. unfold next_clock. lia. Qed.

Lemma contains_tasks w k : ws_contains_task w k = bool_decide (k ∈ task_ids w).
Proof.
  unfold ws_contains_task, pane_for_task, task_ids. destruct (ws_root w) as [n|]; [apply contains_task_tasks|].
  symmetry. apply bool_decide_eq_false, not_elem_of_nil.
Qed.

Lemma ws_pane_ids w id : is_some (ws_pane w id) = bool_decide (id ∈ ws_ids w).
Proof.
  unfold ws_pane, ws_ids, ws_panes. destruct (ws_root w) as [n|]; [apply contains_pane_ids|].
  symmetry. apply bool_decide_eq_false, not_elem_of_nil.
Qed.

Lemma ws_pane_some w id : id ∈ ws_ids w -> exists p, ws_pane w id = Some p.
Proof.
  intros Hin. pose proof (ws_pane_ids w id) as E. rewrite bool_decide_eq_true_2 in E by done. by apply is_some_true.
Qed.

(** One pane more. *)
Lemma sound_added n m p split_id :
  tree_sound n -> sound m = true -> collect_panes m ≡ₚ p :: collect_panes n ->
  split_ids m ≡ₚ split_ids n \/ split_ids m ≡ₚ split_id :: split_ids n ->
  (tp_id p ∉ pane_ids n) -> (tp_task_id p ∉ collect_task_ids n) -> (split_id ∉ split_ids n) -> tree_sound m.
Proof.
  unfold tree_sound, pane_ids. rewrite !tasks_panes. intros (_ & H1 & H2 & H3) Hs Hp Hsp Hid Htask Hfresh.
  rewrite Hp. cbn. split_and!; [done|by constructor..|]. destruct Hsp as [-> | ->]; [done|by constructor].
Qed.

Lemma single_well_formed id (k : K) : well_formed (single id k).
Proof.
  unfold well_formed, single, tree_sound, focus_sound, pane_ids. cbn. split.
  - split_and!; [done|apply NoDup_singleton..|constructor].
  - exists id. split_and!; [done|by left|done..].
Qed.

(** The new pane takes the focus; the old focus is remembered. *)
Lemma opened_well_formed w n m p split_id clock :
  well_formed w -> ws_root w = Some n -> sound m = true -> collect_panes m ≡ₚ p :: collect_panes n ->
  split_ids m ≡ₚ split_ids n \/ split_ids m ≡ₚ split_id :: split_ids n ->
  (tp_id p ∉ ws_ids w) -> (tp_task_id p ∉ task_ids w) -> (split_id ∉ ws_splits w) ->
  let w' := ws_with_focus (ws_with_root w (Some m)) (Some (tp_id p)) (ws_focused w) clock in
  well_formed w' /\ task_ids w' ≡ₚ tp_task_id p :: task_ids w.
Proof.
  unfold well_formed, ws_ids, ws_splits, ws_panes, task_ids. intros Hw Hn. rewrite Hn in *. cbn.
  intros Hs Hp Hsp Hid Htask Hfresh. destruct Hw as [Ht (f & Hf & Hfin & _ & Hz)]. split_and!.
  - by eapply sound_added.
  - assert (Hin : forall x, x ∈ pane_ids m <-> x = tp_id p \/ x ∈ pane_ids n).
    { intros x. unfold pane_ids. rewrite Hp. cbn. apply elem_of_cons. }
    unfold focus_sound. setoid_rewrite Hin. exists (tp_id p). split_and!; [done|by left|..].
    + intros q Hq. assert (q = f) as -> by congruence. split; [|by right]. intros ->. done.
    + intros z Hz'. right. by apply Hz.
  - rewrite !tasks_panes, Hp. done.
Qed.

(** What opening a pane does. *)
Definition opens w (pane_id : N) (k : K) (answer : Workspace K * result N WorkspaceError) : Prop :=
  match answer with
  | (w', Ok id) => well_formed w' /\ id = pane_id /\ (k ∉ task_ids w) /\ task_ids w' ≡ₚ k :: task_ids w
  | (w', Err e) => w' = w /\ e <> InvalidTree
  end.

Lemma single_opens w pane_id k :
  ws_root w = None -> (k ∉ task_ids w) -> opens w pane_id k (single pane_id k, ok_or (ws_focused (single pane_id k)) InvalidTree).
Proof.
  intros Hn Hk. change (well_formed (single pane_id k) /\ pane_id = pane_id /\ (k ∉ task_ids w) /\ [k] ≡ₚ k :: task_ids w).
  split_and!; [apply single_well_formed|done..|]. unfold task_ids. by rewrite Hn.
Qed.

Lemma insert_beside_opens w pane_id split_id k target edge :
  well_formed w -> (pane_id ∉ ws_ids w) -> (split_id ∉ ws_splits w) ->
  opens w pane_id k (insert_beside w pane_id split_id k target edge).
Proof.
  intros Hw Hid Hsplit. unfold insert_beside. rewrite contains_tasks. case_bool_decide as Hk; [done|].
  destruct (ws_root w) as [n|] eqn:Hn.
  - destruct (contains_pane n target) eqn:Ht.
    + destruct (insert_spec split_id n target (pane_new pane_id k (next_clock w)) (edge_axis edge) (inserts_after edge) Ht)
        as (m & -> & Hp%inserted_perm & Hs & Hsound). cbn [negb].
      assert (Hns : sound n = true) by (unfold well_formed in Hw; rewrite Hn in Hw; apply Hw).
      destruct (opened_well_formed w n m (pane_new pane_id k (next_clock w)) split_id (next_clock w)) as [Hw' Htasks]; try done.
      { apply Hsound; [done|apply next_clock_pos]. }
      { destruct Hs as [-> | Hs]; [by left|by right]. }
      rewrite settle_ok by done. done.
    + by rewrite insert_absent.
  - by apply single_opens.
Qed.

Lemma insert_after_opens w pane_id split_id k axis :
  well_formed w -> (pane_id ∉ ws_ids w) -> (split_id ∉ ws_splits w) ->
  opens w pane_id k (insert_after_focused w pane_id split_id k axis).
Proof.
  intros Hw Hid Hsplit. unfold insert_after_focused. destruct (ws_focused w) as [f|] eqn:Hf; [by apply insert_beside_opens|].
  destruct (ws_root w) as [n|] eqn:Hn.
  - unfold well_formed in Hw. rewrite Hn in Hw. destruct Hw as [_ (f & E & _)]. congruence.
  - rewrite contains_tasks. case_bool_decide as Hk; [done|]. by apply single_opens.
Qed.

Lemma insert_grid_result w n pane_id split_id k canvas metrics :
  well_formed w -> ws_root w = Some n -> (pane_id ∉ ws_ids w) -> (split_id ∉ ws_splits w) -> (k ∉ task_ids w) ->
  let m := place_in_grid split_id n (Pane (pane_new pane_id k (next_clock w))) (grid_columns_for canvas metrics) in
  let w' := ws_with_focus (ws_with_root w (Some m)) (Some pane_id) (ws_focused w) (next_clock w) in
  insert_into_grid w pane_id split_id k canvas metrics = (w', Ok pane_id)
  /\ well_formed w' /\ task_ids w' ≡ₚ k :: task_ids w.
Proof.
  intros Hw Hn Hid Hsplit Hk m w'.
  assert (Hns : sound n = true) by (unfold well_formed in Hw; rewrite Hn in Hw; apply Hw).
  set (p := pane_new pane_id k (next_clock w)) in *.
  destruct (place_spec split_id n (Pane p) (grid_columns_for canvas metrics)) as (Hp & Hs & Hsound); [done|by apply sound_pane, next_clock_pos|].
  cbn in Hp, Hs. rewrite app_nil_r in Hs. fold m in Hp, Hs, Hsound.
  destruct (opened_well_formed w n m p split_id (next_clock w)) as [Hw' Htasks]; try done.
  { rewrite Hp. symmetry. apply Permutation_cons_append. }
  unfold insert_into_grid. rewrite contains_tasks, bool_decide_eq_false_2, Hn by done. split; [|done]. by apply settle_ok.
Qed.

Lemma insert_grid_opens w pane_id split_id k canvas metrics :
  well_formed w -> (pane_id ∉ ws_ids w) -> (split_id ∉ ws_splits w) ->
  opens w pane_id k (insert_into_grid w pane_id split_id k canvas metrics).
Proof.
  intros Hw Hid Hsplit. destruct (decide (k ∈ task_ids w)) as [Hk|Hk].
  - unfold insert_into_grid. by rewrite contains_tasks, bool_decide_eq_true_2.
  - destruct (ws_root w) as [n|] eqn:Hn.
    + by destruct (insert_grid_result w n pane_id split_id k canvas metrics Hw Hn Hid Hsplit Hk) as (-> & Hw' & Ht).
    + unfold insert_into_grid. rewrite contains_tasks, bool_decide_eq_false_2, Hn by done. by apply single_opens.
Qed.

(** *** Changing a pane in place *)

(** The same panes and splits in the same places. *)
Definition keeps w w' : Prop :=
  well_formed w' /\ ws_ids w' = ws_ids w /\ task_ids w' = task_ids w /\ ws_splits w' = ws_splits w.

Lemma keeps_refl w : well_formed w -> keeps w w.
Proof. intros Hw. unfold keeps. by split_and!. Qed.

Lemma keeps_trans w1 w2 w3 : keeps w1 w2 -> keeps w2 w3 -> keeps w1 w3.
Proof. unfold keeps. intros (H1 & H2 & H3 & H4) (G1 & G2 & G3 & G4). split_and!; congruence. Qed.

Lemma wf_focus w : well_formed w -> ws_root w <> None -> focus_sound (ws_ids w) (ws_focused w) (ws_previous_focus w) (ws_zoomed w).
Proof. unfold well_formed, ws_ids, ws_panes. destruct (ws_root w); [by intros [_ ?]|done]. Qed.

Lemma wf_new_focus w focused previous clock zoomed :
  well_formed w -> ws_root w <> None -> focus_sound (ws_ids w) focused previous zoomed ->
  keeps w (ws_with_zoomed (ws_with_focus w focused previous clock) zoomed).
Proof.
  unfold keeps, well_formed, ws_ids, ws_splits, task_ids, ws_panes. cbn. destruct (ws_root w); [|done].
  intros [Ht _] _ Hf. by split_and!.
Qed.

Lemma pane_mut_some w id f : id ∈ ws_ids w -> is_some (pane_mut w id f) = true.
Proof.
  unfold pane_mut, ws_ids, ws_panes. destruct (ws_root w) as [n|]; [cbn|by intros ?%not_elem_of_nil]. intros Hin.
  unfold find_pane_mut. destruct (update_pane_by _ f n) eqn:E; [done|]. apply update_pane_None in E.
  pose proof (contains_pane_ids n id) as Hc. unfold contains_pane, find_pane in Hc. rewrite E in Hc. cbn in Hc.
  symmetry in Hc. by apply bool_decide_eq_false in Hc.
Qed.

(** The new pane may show another task, if no pane shows it. *)
Lemma pane_mut_spec w id f w' :
  pane_mut w id f = Some w' ->
  exists l1 p l2, ws_panes w = l1 ++ p :: l2 /\ tp_id p = id /\ ws_panes w' = l1 ++ f p :: l2
    /\ ws_splits w' = ws_splits w /\ w' = ws_with_root w (ws_root w') /\ ws_root w <> None
    /\ (well_formed w -> tp_id (f p) = id -> tp_last_focused_at (f p) <> 0 -> NoDup (task_ids w') -> well_formed w').
Proof.
  unfold pane_mut, ws_panes, ws_splits. destruct (ws_root w) as [n|] eqn:Hn; [cbn|done].
  unfold find_pane_mut. destruct (update_pane_by _ f n) as [m|] eqn:E; [|done]. intros [= <-]. cbn.
  destruct (update_pane_Some _ _ _ _ E) as (l1 & p & l2 & H1 & _ & H2%N.eqb_eq & H3 & H4 & H5).
  exists l1, p, l2. split_and!; try done. unfold well_formed, tree_sound, task_ids. cbn. rewrite Hn, H4.
  intros [(Hs & Hid & Ht & Hsp) Hf] Hfid Hlast Hnd.
  assert (pane_ids m = pane_ids n) as -> by (unfold pane_ids; rewrite H1, H3, !map_app; cbn; by rewrite Hfid, H2).
  split_and!; auto.
Qed.

Lemma wf_panes_focused w p : well_formed w -> p ∈ ws_panes w -> tp_last_focused_at p <> 0.
Proof.
  unfold well_formed, ws_panes. destruct (ws_root w) as [n|]; [|by intros _ ?%not_elem_of_nil].
  intros [(Hs & _) _]. by apply sound_panes.
Qed.

Lemma wf_nodup w : well_formed w -> NoDup (ws_ids w) /\ NoDup (task_ids w).
Proof.
  unfold well_formed, ws_ids, ws_panes, task_ids. destruct (ws_root w) as [n|]; [|split; constructor].
  by intros [(_ & H1 & H2 & _) _].
Qed.

Lemma pane_mut_keeps w id f w' :
  well_formed w -> pane_mut w id f = Some w' ->
  (forall p, tp_id (f p) = tp_id p /\ tp_task_id (f p) = tp_task_id p) ->
  (forall p, tp_last_focused_at p <> 0 -> tp_last_focused_at (f p) <> 0) ->
  keeps w w' /\ w' = ws_with_root w (ws_root w').
Proof.
  intros Hw Hm Hf Hlast. destruct (pane_mut_spec _ _ _ _ Hm) as (l1 & p & l2 & H1 & H2 & H3 & H4 & H5 & _ & H6).
  destruct (Hf p) as [Hid Ht]. split; [|done].
  assert (Htasks : task_ids w' = task_ids w) by (rewrite !ws_tasks, H1, H3, !map_app; cbn; by rewrite Ht).
  unfold keeps. split_and!; [|unfold ws_ids; rewrite H1, H3, !map_app; cbn; by rewrite Hid|done|done].
  apply H6; [done|congruence| |rewrite Htasks; by apply wf_nodup].
  apply Hlast. apply (wf_panes_focused w); [done|]. rewrite H1. set_solver.
Qed.

Lemma in_ids_root w id : id ∈ ws_ids w -> ws_root w <> None.
Proof. unfold ws_ids, ws_panes. destruct (ws_root w); [done|by intros ?%not_elem_of_nil]. Qed.

(** A gesture that changes no task. *)
Definition calm w {A} (answer : Workspace K * result A WorkspaceError) : Prop :=
  keeps w (fst answer) /\ snd answer <> Err InvalidTree /\ (is_ok (snd answer) = false -> fst answer = w).

Lemma calm_err w {A} e : well_formed w -> e <> InvalidTree -> calm w (w, @Err A WorkspaceError e).
Proof. intros Hw He. split; [by apply keeps_refl|]. split; [intros [= ->]; done|done]. Qed.

Lemma calm_ok w {A} w' (a : A) : keeps w w' -> calm w (w', Ok a).
Proof. intros Hk. split; [done|]. by split. Qed.

Lemma focus_pane_spec w id :
  well_formed w -> calm w (focus_pane w id)
    /\ (is_ok (snd (focus_pane w id)) = bool_decide (id ∈ ws_ids w))
    /\ (id ∈ ws_ids w -> ws_focused (fst (focus_pane w id)) = Some id).
Proof.
  intros Hw. unfold focus_pane, is_none. rewrite ws_pane_ids. case_bool_decide as Hin; cbn [negb].
  2: { split_and!; [by apply calm_err|done|done]. }
  destruct (ws_focused w =?= Some id) eqn:Hf.
  { apply eqb_true_1 in Hf. split_and!; [by apply calm_ok, keeps_refl|done|done]. }
  pose proof (in_ids_root w id Hin) as Hroot. destruct (wf_focus w Hw Hroot) as (f & Ef & Hfin & _ & Hz).
  set (w1 := ws_with_focus w (Some id) (ws_focused w) (next_clock w)).
  assert (H1 : keeps w w1).
  { apply (wf_new_focus w (Some id) (ws_focused w) (next_clock w) (ws_zoomed w)); [done..|]. exists id. split_and!; try done.
    intros q Hq. assert (q = f) as -> by congruence. split; [|done]. intros ->. rewrite Ef, eqb_refl in Hf. done. }
  assert (Hin1 : id ∈ ws_ids w1) by (destruct H1 as (_ & -> & _); done).
  pose proof (pane_mut_some w1 id (fun p => pane_with_task p (tp_task_id p) (next_clock w)) Hin1) as Hm.
  destruct (pane_mut w1 id _) as [w2|] eqn:E; [|done]. cbn.
  destruct (pane_mut_keeps w1 id _ w2 (proj1 H1) E) as [H2 H3]; [done|intros; apply next_clock_pos|].
  split_and!; [|done|by rewrite H3]. apply calm_ok. eapply keeps_trans; [exact H1|exact H2].
Qed.

Lemma focus_task_spec w k : well_formed w -> calm w (focus_task w k) /\ is_ok (snd (focus_task w k)) = bool_decide (k ∈ task_ids w).
Proof.
  intros Hw. unfold focus_task. rewrite <- contains_tasks. unfold ws_contains_task. destruct (pane_for_task w k) as [p|] eqn:E; cbn.
  - destruct (focus_pane_spec w (tp_id p) Hw) as (H1 & H2 & _). split; [done|]. rewrite H2. apply bool_decide_eq_true.
    apply pane_for_task_in in E as [E _]. by apply list_elem_of_fmap_2.
  - split; [by apply calm_err|done].
Qed.

Lemma zoom_spec w id : well_formed w -> calm w (zoom w id).
Proof.
  intros Hw. unfold zoom. destruct (focus_pane_spec w id Hw) as ((H1 & H2 & H3) & H4 & H5).
  destruct (focus_pane w id) as [w1 [u|e]]; cbn in *; [|split_and!; done]. symmetry in H4. apply bool_decide_eq_true in H4.
  assert (Hin1 : id ∈ ws_ids w1) by (destruct H1 as (_ & -> & _); done).
  pose proof (pane_mut_some w1 id (fun p => pane_with_presentation p Full) Hin1) as Hm.
  destruct (pane_mut w1 id _) as [w2|] eqn:E; [|done].
  destruct (pane_mut_keeps w1 id _ w2 (proj1 H1) E) as [G1 G2]; [done|done|].
  apply calm_ok. eapply keeps_trans; [exact H1|]. eapply keeps_trans; [exact G1|].
  assert (Hin2 : id ∈ ws_ids w2) by (destruct G1 as (_ & -> & _); done).
  pose proof (in_ids_root _ _ Hin2) as Hroot. destruct (wf_focus w2 (proj1 G1) Hroot) as (f & Ef & Hfin & Hp & Hz).
  apply (wf_new_focus w2 (ws_focused w2) (ws_previous_focus w2) (ws_focus_clock w2) (Some id)); [apply G1|done|].
  exists f. split_and!; try done. intros z [= <-]. done.
Qed.

Lemma unzoom_keeps w : well_formed w -> keeps w (unzoom w).
Proof.
  intros Hw. destruct (ws_root w) as [n|] eqn:Hn.
  - assert (Hroot : ws_root w <> None) by congruence. destruct (wf_focus w Hw Hroot) as (f & Ef & Hfin & Hp & Hz).
    apply (wf_new_focus w (ws_focused w) (ws_previous_focus w) (ws_focus_clock w) None); [done..|]. exists f. by split_and!.
  - unfold keeps, well_formed, unzoom, ws_ids, ws_splits, task_ids, ws_panes in *. cbn. rewrite Hn in *. naive_solver.
Qed.

Lemma toggle_zoom_keeps w : well_formed w -> keeps w (toggle_zoom_focused w).
Proof.
  intros Hw. unfold toggle_zoom_focused. destruct (ws_zoomed w); [by apply unzoom_keeps|].
  destruct (ws_focused w) as [f|]; [by apply zoom_spec|by apply keeps_refl].
Qed.

Lemma set_view_spec w k view : well_formed w -> calm w (set_view w k view).
Proof.
  intros Hw. unfold set_view. destruct (pane_for_task_mut w k _) as [w'|] eqn:E; [apply calm_ok|by apply calm_err].
  unfold pane_for_task_mut in E. destruct (ws_root w) as [n|] eqn:Hn; [cbn in E|done].
  unfold find_pane_for_task_mut in E. destruct (update_pane_by _ _ n) as [m|] eqn:Em; [|done]. injection E as <-.
  destruct (update_pane_Some _ _ _ _ Em) as (l1 & p & l2 & H1 & _ & _ & H3 & H4 & H5).
  unfold keeps, well_formed, ws_ids, ws_splits, ws_panes, task_ids, tree_sound in *. cbn. rewrite Hn in *.
  rewrite !tasks_panes in *. unfold pane_ids in *. rewrite H3, H4 in *. rewrite H1 in *. rewrite !map_app in *. cbn in *.
  destruct Hw as [(Hs & Hw) Hf]. split_and!; try done; try apply Hw. apply H5; [done|].
  apply (sound_panes n); [done|]. rewrite H1. set_solver.
Qed.

(** *** Sizes *)

Lemma root_keeps w n m :
  well_formed w -> ws_root w = Some n -> collect_panes m = collect_panes n -> split_ids m = split_ids n ->
  sound m = true -> keeps w (ws_with_root w (Some m)).
Proof.
  unfold keeps, well_formed, ws_ids, ws_splits, ws_panes, task_ids, tree_sound, pane_ids. cbn. intros Hw Hn Hp Hs Hm.
  rewrite Hn in *. rewrite !tasks_panes in *. rewrite Hp, Hs. destruct_and?. by split_and!.
Qed.

Lemma wf_sound w n : well_formed w -> ws_root w = Some n -> sound n = true.
Proof. unfold well_formed. intros Hw Hn. rewrite Hn in Hw. apply Hw. Qed.

Lemma set_size_calm w k a : well_formed w -> allocation_valid a = true -> calm w (set_size w k a).
Proof.
  intros Hw Ha. unfold set_size. destruct (ws_root w) as [n|] eqn:Hn; [|by apply calm_err].
  destruct (set_task_allocation n k a) as [m|] eqn:E; [|by apply calm_err]. apply calm_ok.
  destruct (set_allocation_spec k a n m Ha E) as (H1 & H2 & H3). eapply root_keeps; try done.
  apply H3. by eapply wf_sound.
Qed.

Lemma set_split_calm w split_id index a : well_formed w -> allocation_valid a = true -> calm w (set_split_child w split_id index a).
Proof.
  intros Hw Ha. unfold set_split_child. destruct (ws_root w) as [n|] eqn:Hn; [|by apply calm_err].
  destruct (find_split n split_id) as [cs|]; [|by apply calm_err].
  destruct (length cs <=? index + 1)%nat; [by apply calm_err|].
  destruct (find_split_mut n split_id _) as [m|] eqn:E; [|by apply calm_err].
  apply split_mut_spec in E as (H1 & H2 & H3).
  - assert (Hk : keeps w (ws_with_root w (Some m))). { eapply root_keeps; try done. apply H3. by eapply wf_sound. }
    rewrite settle_ok by apply Hk. by apply calm_ok.
  - clear E. intros ks. revert index. induction ks as [|c ks IH]; intros index; [done|]. destruct index as [|index]; cbn.
    + rewrite !count_cons. split_and!; [done..|]. rewrite !andb_true_iff. tauto.
    + destruct (IH index) as (G1 & G2 & G3 & G4). rewrite !count_cons. change (list_alter ?f ?i ?l) with (alter f i l).
      rewrite G1, G2, G3. split_and!; [done..|]. rewrite !andb_true_iff. naive_solver.
Qed.

(** *** Replacing the focused task *)

Lemma find_along (id : N) (l : list (TaskPane K)) : forall l' p,
  map tp_id l = map tp_id l' -> map tp_task_id l = map tp_task_id l' ->
  List.find (fun p => tp_id p =? id) l = Some p ->
  exists p', List.find (fun p => tp_id p =? id) l' = Some p' /\ tp_task_id p' = tp_task_id p.
Proof.
  induction l as [|x l IH]; intros [|y l'] p Hid Ht; try done. cbn in *. injection Hid as Hx Hid. injection Ht as Hy Ht.
  rewrite Hx. destruct (tp_id y =? id); [|by apply IH]. intros [= <-]. by exists y.
Qed.

(** A pane that stays shows the same task. *)
Lemma keeps_pane w w' id p :
  keeps w w' -> ws_pane w id = Some p -> exists p', ws_pane w' id = Some p' /\ tp_task_id p' = tp_task_id p.
Proof.
  intros (_ & Hid & Ht & _). rewrite !ws_tasks in Ht. unfold ws_ids, ws_panes in *. unfold ws_pane.
  destruct (ws_root w) as [n|]; [cbn|done]. unfold find_pane. rewrite find_pane_by_find. intros Hf.
  destruct (find_along id _ _ p (eq_sym Hid) (eq_sym Ht) Hf) as (p' & Hp' & Htask). exists p'. split; [|done].
  destruct (ws_root w') as [n'|]; [cbn; unfold find_pane; by rewrite find_pane_by_find|done].
Qed.

Lemma focus_task_focuses w k : well_formed w -> k ∈ task_ids w -> focused_task (fst (focus_task w k)) = Some k.
Proof.
  intros Hw Hk. unfold focus_task. destruct (pane_for_task_some w k Hk) as [p Hp]. rewrite Hp.
  destruct (pane_for_task_in _ _ _ Hp) as [Hin <-]. destruct (focus_pane_spec w (tp_id p) Hw) as ((H1 & _) & _ & H2).
  apply list_elem_of_split in Hin as (l1 & l2 & E). pose proof (pane_by_id w p l1 l2 Hw E) as Hpane.
  destruct (keeps_pane _ _ _ _ H1 Hpane) as (p' & Hp' & Ht). unfold focused_task. rewrite H2; [cbn; by rewrite Hp', <- Ht|].
  unfold ws_ids. rewrite E, map_app. set_solver.
Qed.

Lemma replace_focused_spec w k :
  well_formed w ->
  match replace_focused_task w k with
  | (w', Ok _) => well_formed w' /\ focused_task w' = Some k /\
      (if decide (k ∈ task_ids w) then task_ids w' = task_ids w
       else exists old, focused_task w = Some old /\ old :: task_ids w' ≡ₚ k :: task_ids w)
  | (w', Err e) => w' = w /\ e <> InvalidTree
  end.
Proof.
  intros Hw. unfold replace_focused_task. rewrite contains_tasks. destruct (decide (k ∈ task_ids w)) as [Hk|Hk].
  - rewrite bool_decide_eq_true_2 by done. destruct (focus_task_spec w k Hw) as ((H1 & H2 & H3) & H4).
    pose proof (focus_task_focuses w k Hw Hk) as Hfoc.
    destruct (focus_task w k) as [w' [u|e]]; cbn in *; [by destruct H1 as (? & _ & ? & _)|]. split; [by apply H3|congruence].
  - rewrite bool_decide_eq_false_2 by done. destruct (ws_focused w) as [f|] eqn:Hf; [|done].
    assert (Hroot : ws_root w <> None).
    { intros Hn. unfold well_formed in Hw. rewrite Hn in Hw. destruct Hw. congruence. }
    destruct (wf_focus w Hw Hroot) as (f' & Ef & Hfin & Hp & Hz). assert (f' = f) as -> by congruence.
    set (w1 := ws_with_focus w (Some f) (ws_previous_focus w) (next_clock w)).
    assert (H1 : keeps w w1).
    { apply (wf_new_focus w (Some f) (ws_previous_focus w) (next_clock w) (ws_zoomed w)); [done..|]. by exists f. }
    assert (Hin1 : f ∈ ws_ids w1) by (destruct H1 as (_ & -> & _); done).
    pose proof (pane_mut_some w1 f (fun p => pane_with_task p k (next_clock w)) Hin1) as Hm.
    destruct (pane_mut w1 f (fun p => pane_with_task p k (next_clock w))) as [w2|] eqn:E; [|done].
    destruct (pane_mut_spec _ _ _ _ E) as (l1 & p & l2 & G1 & G2 & G3 & G4 & G5 & _ & G6).
    assert (Ht : task_ids w2 ≡ₚ k :: map tp_task_id (l1 ++ l2)).
    { rewrite ws_tasks, G3, !map_app. cbn. symmetry. apply Permutation_middle. }
    assert (Ht1 : task_ids w ≡ₚ tp_task_id p :: map tp_task_id (l1 ++ l2)).
    { change (task_ids w) with (task_ids w1). rewrite ws_tasks, G1, !map_app. cbn. symmetry. apply Permutation_middle. }
    assert (Hw2 : well_formed w2).
    { apply G6; [apply H1|done|apply next_clock_pos|]. rewrite Ht. rewrite Ht1 in Hk.
      pose proof (proj2 (wf_nodup w Hw)) as Hnd. rewrite Ht1 in Hnd. apply NoDup_cons in Hnd as [_ Hnd].
      constructor; [|done]. intros Hin. apply Hk. by right. }
    split_and!; [done| |].
    + unfold focused_task. assert (ws_focused w2 = Some f) as -> by (by rewrite G5). cbn. rewrite <- G2.
      pose proof (pane_by_id w2 (pane_with_task p k (next_clock w)) l1 l2 Hw2 G3) as Hq. cbn in Hq. by rewrite Hq.
    + exists (tp_task_id p). split.
      * unfold focused_task. rewrite Hf. cbn. change (ws_pane w f) with (ws_pane w1 f). rewrite <- G2.
        by rewrite (pane_by_id w1 p l1 l2 (proj1 H1) G1).
      * rewrite Ht, Ht1. apply Permutation_swap.
Qed.

(** *** Closing and moving *)

Lemma first_pane_in n : sound n = true -> exists id, first_pane_id n = Some id /\ id ∈ pane_ids n.
Proof.
  induction n as [p|id axis cs IH] using node_induction; cbn; [exists (tp_id p); split; [done|left]|].
  intros [Hc Hs]%andb_true_iff. destruct cs as [|c cs]; [done|]. apply Forall_cons in IH as [IH _].
  destruct (IH (sound_child [] c cs Hs)) as (x & -> & Hx). exists x. split; [done|]. unfold pane_ids in *. cbn.
  rewrite map_app. set_solver.
Qed.

Lemma sublist_tree n m :
  tree_sound n -> sound m = true -> sublist (collect_panes m) (collect_panes n) -> sublist (split_ids m) (split_ids n) -> tree_sound m.
Proof.
  unfold tree_sound, pane_ids. rewrite !tasks_panes. intros (_ & H1 & H2 & H3) Hs Hp Hsp. split_and!; [done|..].
  - eapply sublist_NoDup; [exact H1|]. by apply fmap_sublist.
  - eapply sublist_NoDup; [exact H2|]. by apply fmap_sublist.
  - by eapply sublist_NoDup.
Qed.

(** The focus falls back to the previous one, or to the first pane. *)
Lemma repair_spec (c : Workspace K) m ids id :
  ws_root c = Some m -> tree_sound m -> (forall x, x ∈ ids -> x <> id -> x ∈ pane_ids m) ->
  focus_sound ids (ws_focused c) (ws_previous_focus c) None -> (forall z, ws_zoomed c = Some z -> z ∈ pane_ids m) ->
  well_formed (repair_focus_after_removal c id) /\ ws_root (repair_focus_after_removal c id) = Some m.
Proof.
  intros Hm Ht Hids (f & Ef & Hfin & Hp & _) Hz. unfold repair_focus_after_removal. rewrite Hm, Ef.
  destruct (Some f =?= Some id) eqn:E1; [|destruct (ws_previous_focus c =?= Some id) eqn:E2]; (split; [|done]).
  - unfold well_formed. cbn. rewrite Hm. split; [done|]. apply eqb_true_1 in E1. injection E1 as ->.
    destruct (ws_previous_focus c) as [q|].
    + destruct (Hp q eq_refl) as [Hq1 Hq2]. rewrite (proj2 (N.eqb_neq q id) Hq1), ws_pane_ids. unfold ws_ids, ws_panes. rewrite Hm.
      rewrite (bool_decide_eq_true_2 _ (Hids q Hq2 Hq1)). cbn. exists q. split_and!; auto. done.
    + destruct (first_pane_in m (proj1 Ht)) as (x & -> & Hx). exists x. split_and!; auto. done.
  - apply eqb_false in E1. unfold well_formed. cbn. rewrite Hm. split; [done|]. exists f. split_and!; auto; [|done].
    apply Hids; congruence.
  - apply eqb_false in E1, E2. unfold well_formed. rewrite Hm. split; [done|]. exists f. split_and!; auto.
    + apply Hids; congruence.
    + intros q Hq. destruct (Hp q Hq) as [Hq1 Hq2]. split; [done|]. apply Hids; congruence.
Qed.

Lemma unzoom_removed (c : Workspace K) id :
  let c' := if ws_zoomed c =?= Some id then ws_with_zoomed c None else c in
  ws_root c' = ws_root c /\ ws_focused c' = ws_focused c /\ ws_previous_focus c' = ws_previous_focus c
  /\ (forall z, ws_zoomed c' = Some z -> ws_zoomed c = Some z /\ z <> id).
Proof.
  cbn. destruct (ws_zoomed c =?= Some id) eqn:E; cbn; split_and!; try done. apply eqb_false in E. intros z Hz. split; [done|congruence].
Qed.

Lemma removed_tree n p l1 l2 m :
  tree_sound n -> collect_panes n = l1 ++ p :: l2 -> collect_panes m = l1 ++ l2 -> sublist (split_ids m) (split_ids n) ->
  sound m = true -> tree_sound m /\ (forall x, x ∈ pane_ids n -> x <> tp_id p -> x ∈ pane_ids m).
Proof.
  intros Ht El Em Hsub Hs. split.
  - apply (sublist_tree n); [done|done| |done]. rewrite Em, El. by apply sublist_app; [|apply sublist_cons].
  - intros x. unfold pane_ids. rewrite El, Em, !map_app. cbn. set_solver.
Qed.

Lemma remove_present w id :
  well_formed w -> id ∈ ws_ids w ->
  exists w' p, remove_pane w id = (w', Ok tt) /\ well_formed w'
    /\ ws_pane w id = Some p /\ task_ids w ≡ₚ tp_task_id p :: task_ids w'.
Proof.
  intros Hw Hin. unfold remove_pane, is_none. rewrite ws_pane_ids, bool_decide_eq_true_2 by done. cbn [negb].
  destruct (ws_root w) as [n|] eqn:Hn; [|by apply in_ids_root in Hin].
  pose proof Hw as Hwn. unfold well_formed in Hwn. rewrite Hn in Hwn.
  destruct Hwn as [Ht (f & Ef & Hfin & Hp & Hz)].
  assert (Hc : contains_pane n id = true).
  { rewrite contains_pane_ids. apply bool_decide_eq_true. unfold ws_ids, ws_panes in Hin. by rewrite Hn in Hin. }
  destruct (proj2 (remove_spec n id) Hc) as (p & next & -> & l1 & l2 & El & <- & _ & Hnext). cbn [is_some negb is_none].
  assert (Hpane : ws_pane w (tp_id p) = Some p) by (apply (pane_by_id w p l1 l2 Hw); unfold ws_panes; by rewrite Hn).
  assert (Htasks : task_ids w ≡ₚ tp_task_id p :: map tp_task_id (l1 ++ l2)).
  { rewrite ws_tasks. unfold ws_panes. rewrite Hn, El, !map_app. cbn. symmetry. apply Permutation_middle. }
  destruct (unzoom_removed (ws_with_root w next) (tp_id p)) as (R1 & R2 & R3 & R4).
  set (c := if _ =?= _ then _ else _) in *. clearbody c. cbn in R1, R2, R3, R4.
  assert (Hgood : well_formed (repair_focus_after_removal c (tp_id p)) /\ ws_root (repair_focus_after_removal c (tp_id p)) = next).
  { destruct next as [m|].
    - destruct Hnext as (Em & Hsub & Hs). destruct (removed_tree n p l1 l2 m Ht El Em Hsub (Hs (proj1 Ht))) as [Htm Hids].
      apply (repair_spec c m (pane_ids n)); [done..| |by intros z [Hz1 Hz2]%R4; auto].
      rewrite R2, R3. by exists f.
    - destruct Hnext as [-> ->]. unfold repair_focus_after_removal. rewrite R1. split; [|done].
      unfold well_formed. cbn. rewrite R1. split_and!; [done..|]. destruct (ws_zoomed c) as [z|]; [|done].
      destruct (R4 z eq_refl) as [Hz1 Hz2]. specialize (Hz z Hz1). unfold pane_ids in Hz. rewrite El in Hz. cbn in Hz.
      by apply list_elem_of_singleton in Hz. }
  destruct Hgood as [Hg1 Hg2]. rewrite settle_ok by done. eexists _, p. split_and!; [done..|].
  unfold task_ids at 2. rewrite Hg2. destruct next as [m|]; [by rewrite tasks_panes, (proj1 Hnext)|].
  by destruct Hnext as [-> ->].
Qed.

Lemma remove_pane_spec w id :
  well_formed w ->
  match remove_pane w id with
  | (w', Ok _) => well_formed w' /\ (exists p, ws_pane w id = Some p /\ task_ids w ≡ₚ tp_task_id p :: task_ids w')
  | (w', Err e) => w' = w /\ e <> InvalidTree
  end.
Proof.
  intros Hw. destruct (decide (id ∈ ws_ids w)) as [Hin|Hin].
  - destruct (remove_present w id Hw Hin) as (w' & p & -> & H1 & H2 & H3). split; [done|]. by exists p.
  - unfold remove_pane, is_none. by rewrite ws_pane_ids, bool_decide_eq_false_2.
Qed.

(** Validity, part by part. *)
Definition root_sound w : Prop := match ws_root w with Some n => sound n = true | None => True end.

Lemma wf_parts w :
  ws_root w <> None -> root_sound w -> NoDup (ws_ids w) -> NoDup (task_ids w) -> NoDup (ws_splits w) ->
  focus_sound (ws_ids w) (ws_focused w) (ws_previous_focus w) (ws_zoomed w) -> well_formed w.
Proof.
  unfold well_formed, root_sound, ws_ids, ws_panes, task_ids, ws_splits, tree_sound. destruct (ws_root w); [|done].
  intros. split_and!; done.
Qed.

Lemma wf_splits w : well_formed w -> NoDup (ws_splits w) /\ root_sound w.
Proof.
  unfold well_formed, ws_splits, root_sound. destruct (ws_root w); [by intros [(? & _ & _ & ?) _]|by split; [constructor|]].
Qed.

Lemma pane_mut_sound w id f w' :
  pane_mut w id f = Some w' -> root_sound w -> (forall p, tp_last_focused_at p <> 0 -> tp_last_focused_at (f p) <> 0) -> root_sound w'.
Proof.
  unfold pane_mut, root_sound. destruct (ws_root w) as [n|]; [cbn|done]. unfold find_pane_mut.
  destruct (update_pane_by _ f n) as [m|] eqn:E; [|done]. intros [= <-] Hs Hf. cbn.
  destruct (update_pane_Some _ _ _ _ E) as (l1 & p & l2 & H1 & _ & _ & _ & _ & H5). apply H5; [done|].
  apply Hf, (sound_panes n); [done|]. rewrite H1. set_solver.
Qed.

Lemma focus_members ids ids' focused previous zoomed :
  (forall x, x ∈ ids -> x ∈ ids') -> focus_sound ids focused previous zoomed -> focus_sound ids' focused previous zoomed.
Proof. intros Hi (f & Hf & Hin & Hp & Hz). exists f. split_and!; naive_solver. Qed.

Lemma exchanged_sound ids first second focused previous zoomed :
  first ∈ ids -> second ∈ ids -> focus_sound ids focused previous zoomed ->
  focus_sound ids (exchanged first second focused) (exchanged first second previous) (exchanged first second zoomed).
Proof.
  intros H1 H2 (f & -> & Hf & Hp & Hz).
  assert (Hx : forall o, exchanged first second o = (fun x => if x =? first then second else if x =? second then first else x) <$> o).
  { intros [x|]; unfold exchanged, eqb; [cbn|done]. repeat case_bool_decide; simplify_eq/=; repeat case_match; bool_inv; congruence. }
  rewrite !Hx. cbn. eexists. split; [done|].
  assert (Hin : forall x, x ∈ ids -> (if x =? first then second else if x =? second then first else x) ∈ ids)
    by (intros x Hx'; by repeat case_match).
  split_and!; [auto| |].
  - intros q (p & -> & ->)%fmap_Some. destruct (Hp p eq_refl) as [Hne Hpin]. split; [|auto].
    destruct (N.eqb_spec p first), (N.eqb_spec f first), (N.eqb_spec p second), (N.eqb_spec f second); congruence.
  - intros q (z & -> & ->)%fmap_Some. auto.
Qed.

Lemma split_panes w id p : well_formed w -> ws_pane w id = Some p -> exists l1 l2, ws_panes w = l1 ++ p :: l2 /\ tp_id p = id.
Proof. intros Hw (Hin & Hid)%ws_pane_in. apply list_elem_of_split in Hin as (l1 & l2 & E). by exists l1, l2. Qed.

(** Two panes change places; their ids stay where they are. *)
Lemma swapped_panes w first second p1 p2 :
  well_formed w -> first <> second -> ws_pane w first = Some p1 -> ws_pane w second = Some p2 ->
  exists w', (w ← pane_mut w first (fun _ => pane_with_id p2 first); pane_mut w second (fun _ => pane_with_id p1 second)) = Some w'
    /\ ws_ids w' = ws_ids w /\ ws_splits w' = ws_splits w /\ root_sound w' /\ ws_root w' <> None
    /\ (exists rest, ws_panes w ≡ₚ p1 :: p2 :: rest /\ ws_panes w' ≡ₚ pane_with_id p1 second :: pane_with_id p2 first :: rest).
Proof.
  intros Hw Hne Hp1 Hp2. destruct (ws_pane_in _ _ _ Hp1) as [Hin1 Hid1]. destruct (ws_pane_in _ _ _ Hp2) as [Hin2 Hid2].
  assert (Hi1 : first ∈ ws_ids w) by (rewrite <- Hid1; by apply list_elem_of_fmap_2).
  pose proof (pane_mut_some w first (fun _ => pane_with_id p2 first) Hi1) as Hm1.
  destruct (pane_mut w first _) as [w1|] eqn:E1; [cbn; clear Hm1|done].
  destruct (pane_mut_spec _ _ _ _ E1) as (l1 & p & l2 & A1 & A2 & A3 & A4 & _ & A6 & _).
  assert (p = p1) as -> by (apply (same_id w); try done; [rewrite A1; set_solver|congruence]).
  assert (Hids1 : ws_ids w1 = ws_ids w) by (unfold ws_ids; rewrite A1, A3, !map_app; cbn; by rewrite A2).
  assert (Hi2 : second ∈ ws_ids w1) by (rewrite Hids1, <- Hid2; by apply list_elem_of_fmap_2).
  pose proof (pane_mut_some w1 second (fun _ => pane_with_id p1 second) Hi2) as Hm2.
  destruct (pane_mut w1 second _) as [w2|] eqn:E2; [clear Hm2|done].
  destruct (pane_mut_spec _ _ _ _ E2) as (k1 & q & k2 & B1 & B2 & B3 & B4 & B5 & B6 & _).
  assert (Hq : q = p2).
  { apply (same_id w); try done; [|congruence]. assert (Hq : q ∈ ws_panes w1) by (rewrite B1; set_solver).
    rewrite A3 in Hq. rewrite A1. apply elem_of_app in Hq as [Hq|Hq]; [set_solver|].
    apply elem_of_cons in Hq as [->|Hq]; [by cbn in B2|set_solver]. }
  subst q. exists w2. split; [done|]. split; [|split; [congruence|split; [|split]]].
  - rewrite <- Hids1. unfold ws_ids. rewrite B1, B3, !map_app. cbn. by rewrite B2.
  - apply (pane_mut_sound w1 _ _ _ E2); [|intros _ _; exact (wf_panes_focused w p1 Hw Hin1)].
    apply (pane_mut_sound w _ _ _ E1); [by apply wf_splits|intros _ _; exact (wf_panes_focused w p2 Hw Hin2)].
  - intros Hn. unfold ws_panes in B3. rewrite Hn in B3. by destruct k1.
  - assert (Hr : p2 ∈ l1 ++ l2).
    { rewrite A1 in Hin2. apply elem_of_app in Hin2 as [?|Hin2]; [set_solver|].
      apply elem_of_cons in Hin2 as [->|?]; [congruence|set_solver]. }
    apply elem_of_Permutation in Hr as [rest Hr]. exists rest. split.
    + rewrite A1, <- Permutation_middle. by rewrite Hr.
    + assert (Hk : k1 ++ k2 ≡ₚ pane_with_id p2 first :: rest).
      { apply (Permutation_cons_inv (a:=p2)). rewrite Permutation_middle, <- B1, A3, <- Permutation_middle, Hr. apply Permutation_swap. }
      rewrite B3, <- Permutation_middle, Hk. done.
Qed.

Lemma swap_panes_spec w first second :
  well_formed w ->
  match swap_panes w first second with
  | (w', Ok _) => well_formed w' /\ task_ids w' ≡ₚ task_ids w
  | (w', Err e) => w' = w /\ e <> InvalidTree
  end.
Proof.
  intros Hw. unfold swap_panes. destruct (N.eqb_spec first second) as [->|Hne]; [done|].
  destruct (ws_pane w first) as [p1|] eqn:H1; [|done]. destruct (ws_pane w second) as [p2|] eqn:H2; [|done].
  destruct (swapped_panes w first second p1 p2 Hw Hne H1 H2) as (w2 & -> & Hids & Hsp & Hs & Hr & rest & Hp & Hp').
  assert (Htasks : task_ids w2 ≡ₚ task_ids w) by (by rewrite !ws_tasks, Hp, Hp').
  assert (Hmem : forall id p, ws_pane w id = Some p -> id ∈ ws_ids w).
  { intros id p [Hin <-]%ws_pane_in. by apply list_elem_of_fmap_2. }
  match goal with |- context [settle w ?c tt] => assert (Hwf : well_formed c); [|by rewrite settle_ok] end.
  apply wf_parts; cbn; [done|done|..].
  - change (NoDup (ws_ids w2)). rewrite Hids. by apply wf_nodup.
  - change (NoDup (task_ids w2)). rewrite Htasks. by apply wf_nodup.
  - change (NoDup (ws_splits w2)). rewrite Hsp. by apply wf_splits.
  - change (focus_sound (ws_ids w2) (exchanged first second (ws_focused w)) (exchanged first second (ws_previous_focus w))
      (exchanged first second (ws_zoomed w))). rewrite Hids. apply exchanged_sound; [by eapply Hmem..|].
    apply wf_focus; [done|]. apply Hmem in H1. by apply in_ids_root in H1.
Qed.

(** The source is taken out and put beside the target. *)
Lemma moved_tree n split_id source target edge :
  tree_sound n -> source <> target -> source ∈ pane_ids n -> target ∈ pane_ids n -> (split_id ∉ split_ids n) ->
  exists m0 p m, remove_pane_node n source = (Some m0, Some p)
    /\ insert_pane_near split_id m0 target p (edge_axis edge) (inserts_after edge) = (m, true)
    /\ tree_sound m /\ collect_panes m ≡ₚ collect_panes n.
Proof.
  intros Ht Hne Hs Htg Hfresh.
  assert (Hc : contains_pane n source = true) by (rewrite contains_pane_ids; by apply bool_decide_eq_true).
  destruct (proj2 (remove_spec n source) Hc) as (p & next & Er & l1 & l2 & El & Hid & _ & Hnext).
  destruct next as [m0|].
  2: { exfalso. destruct Hnext as [-> ->]. unfold pane_ids in *. rewrite El in Htg. cbn in Htg.
       apply list_elem_of_singleton in Htg. congruence. }
  destruct Hnext as (Em & Hsub & Hsound). specialize (Hsound (proj1 Ht)).
  destruct (removed_tree n p l1 l2 m0 Ht El Em Hsub Hsound) as [Ht0 Hids].
  assert (Hc0 : contains_pane m0 target = true).
  { rewrite contains_pane_ids. apply bool_decide_eq_true, Hids; [done|]. congruence. }
  destruct (insert_spec split_id m0 target p (edge_axis edge) (inserts_after edge) Hc0) as (m & Ei & Hp%inserted_perm & Hsp & Hms).
  assert (Hperm : collect_panes m ≡ₚ collect_panes n) by (rewrite Hp, Em, El; apply Permutation_middle).
  exists m0, p, m. split_and!; [done|done| |done].
  assert (Hlast : tp_last_focused_at p <> 0) by (apply (sound_panes n); [apply Ht|rewrite El; set_solver]).
  destruct Ht as (_ & H1 & H2 & H3). unfold tree_sound, pane_ids in *. rewrite !tasks_panes in *. rewrite Hperm.
  split_and!; [by apply Hms|done|done|]. destruct Hsp as [-> | ->]; [by eapply sublist_NoDup|]. constructor.
  - intros Hin. apply Hfresh. eapply elem_of_submseteq; [exact Hin|]. by apply sublist_submseteq.
  - by eapply sublist_NoDup.
Qed.

Lemma move_pane_spec w split_id source target :
  well_formed w -> (split_id ∉ ws_splits w) ->
  match move_pane w split_id source target with
  | (w', Ok _) => well_formed w' /\ task_ids w' ≡ₚ task_ids w
  | (w', Err e) => w' = w /\ e <> InvalidTree
  end.
Proof.
  intros Hw Hfresh. unfold move_pane. set (tp := match target with DropCenter pane => pane | DropEdge pane _ => pane end).
  destruct (N.eqb_spec source tp) as [|Hne]; [done|]. unfold is_none. rewrite !ws_pane_ids.
  case_bool_decide as Hs; [|done]. case_bool_decide as Ht; [cbn|done]. destruct target as [pane|pane edge]; [by apply swap_panes_spec|].
  cbn in tp. subst tp. destruct (ws_root w) as [n|] eqn:Hn; [|done]. pose proof Hw as Hwn. unfold well_formed in Hwn. rewrite Hn in Hwn.
  unfold ws_ids, ws_panes, ws_splits in *. rewrite Hn in *. destruct Hwn as [Htree Hf].
  destruct (moved_tree n split_id source pane edge Htree Hne Hs Ht Hfresh) as (m0 & p & m & -> & -> & Htm & Hperm). cbn [negb].
  assert (Hwf : well_formed (ws_with_root w (Some m))).
  { unfold well_formed. cbn. split; [done|]. eapply focus_members; [|exact Hf]. intros x. unfold pane_ids. by rewrite Hperm. }
  rewrite settle_ok by done. split; [done|]. unfold task_ids. cbn. by rewrite Hn, !tasks_panes, Hperm.
Qed.

(** *** The grid rebuilt *)

Lemma order_panes_perm order : forall panes : list (TaskPane K), order_panes panes order ≡ₚ panes.
Proof.
  induction order as [|id order IH]; intros panes; [done|]. cbn.
  destruct (position _ panes) as [i|] eqn:E; [|done]. apply position_Some in E as (l1 & p & l2 & -> & <- & _ & _).
  rewrite list_lookup_middle by done. rewrite IH, delete_middle. apply Permutation_middle.
Qed.

Lemma rebuild_spec w fresh order columns :
  well_formed w -> (forall i j, fresh i = fresh j -> i = j) ->
  let '(w', changed) := rebuild_as_grid w fresh order columns in
  well_formed w' /\ task_ids w' ≡ₚ task_ids w /\ changed = is_some (ws_root w)
  /\ ws_focused w' = ws_focused w /\ ws_previous_focus w' = ws_previous_focus w /\ ws_zoomed w' = ws_zoomed w
  /\ (forall n, ws_root w = Some n -> exists m, ws_root w' = Some m
        /\ grid_rows m = Some (chunks (N.to_nat (N.max columns 1)) (order_panes (collect_panes n) order) [])).
Proof.
  intros Hw Hinj. unfold rebuild_as_grid. destruct (ws_root w) as [n|] eqn:Hn; [|by split_and!].
  pose proof Hw as Hwn. unfold well_formed in Hwn. rewrite Hn in Hwn. destruct Hwn as [Ht (f & Hf & Hfin & Hp & Hz)].
  set (panes := order_panes (collect_panes n) order). assert (Hperm : panes ≡ₚ collect_panes n) by apply order_panes_perm.
  destruct (grid_tree fresh panes columns) as [m|] eqn:E.
  2: { apply grid_tree_none in E. rewrite E in Hperm. apply Permutation_nil_l in Hperm.
       unfold pane_ids in Hfin. rewrite <- Hperm in Hfin. by apply not_elem_of_nil in Hfin. }
  apply grid_tree_spec in E as (E1 & E2 & E3 & E4); [|done|].
  2: { rewrite Hperm. apply Forall_forall. intros p Hpin. by apply (sound_panes n); [apply Ht|]. }
  assert (Hids : forall x, x ∈ pane_ids n -> is_none (ws_pane (ws_with_root w (Some m)) x) = false).
  { intros x Hx. unfold is_none. rewrite ws_pane_ids, bool_decide_eq_true_2; [done|].
    change (x ∈ map tp_id (collect_panes m)). rewrite E1, Hperm. done. }
  cbv zeta. cbn [is_some]. set (w1 := ws_with_root w (Some m)) in *.
  change (ws_focused w1) with (ws_focused w). change (ws_previous_focus w1) with (ws_previous_focus w).
  change (ws_zoomed w1) with (ws_zoomed w). rewrite Hf. cbn [is_none_or]. rewrite (Hids f Hfin).
  assert (is_some_and (ws_previous_focus w) (fun id => is_none (ws_pane w1 id)) = false) as ->.
  { destruct (ws_previous_focus w) as [p|]; [|done]. by apply Hids, Hp. }
  assert (is_some_and (ws_zoomed w) (fun id => is_none (ws_pane w1 id)) = false) as ->.
  { destruct (ws_zoomed w) as [z|]; [|done]. by apply Hids, Hz. }
  split_and!; try done.
  - unfold well_formed. cbn. split.
    + unfold tree_sound, pane_ids. rewrite tasks_panes, E1, Hperm, <- tasks_panes. split_and!; try done; apply Ht.
    + exists f. assert (Hin : forall x, x ∈ pane_ids n -> x ∈ pane_ids m) by (intros x; unfold pane_ids; by rewrite E1, Hperm).
      split_and!; naive_solver.
  - unfold task_ids. cbn. by rewrite Hn, !tasks_panes, E1, Hperm.
  - intros n' [= <-]. by exists m.
Qed.

(** ** Gestures in any order *)

Inductive Gesture :=
| GInsertAfterFocused (pane_id split_id : N) (k : K) (axis : Axis)
| GInsertBeside (pane_id split_id : N) (k : K) (target : N) (edge : Edge)
| GInsertIntoGrid (pane_id split_id : N) (k : K) (canvas_width : f32) (metrics : AllocationMetrics)
| GFocus (pane_id : N)
| GFocusTask (k : K)
| GFocusToward (edge : Edge) (allocated : AllocatedWorkspace K)
| GZoom (pane_id : N)
| GUnzoom
| GToggleZoom
| GReplaceFocused (k : K)
| GRemove (pane_id : N)
| GSwap (first second : N)
| GMove (split_id source : N) (target : DropTarget)
| GMoveToward (split_id : N) (edge : Edge) (allocated : AllocatedWorkspace K)
| GSetView (k : K) (view : PaneView)
| GPin (k : K) (logical_px : f32)
| GReset (k : K)
| GTogglePin (k : K) (viewport : Viewport) (metrics : AllocationMetrics)
| GResizeChild (split_id : N) (child_index : nat) (logical_px : f32)
| GResetChild (split_id : N) (child_index : nat)
| GAllocate (viewport : Viewport) (metrics : AllocationMetrics)
| GRegrid (fresh : N -> N) (viewport : Viewport) (metrics : AllocationMetrics).

Inductive GestureAnswer := Answered (r : result unit WorkspaceError) | Moved (b : bool) | Silent.

Definition refused (a : GestureAnswer) : bool :=
  match a with Answered (Err _) | Moved false => true | _ => false end.

Definition gesture w (g : Gesture) : Workspace K * GestureAnswer :=
  let answered {A} (a : Workspace K * result A WorkspaceError) := (fst a, Answered (rmap (fun _ => tt) (snd a))) in
  let moved (a : Workspace K * bool) := (fst a, Moved (snd a)) in
  match g with
  | GInsertAfterFocused pane_id split_id k axis => answered (insert_after_focused w pane_id split_id k axis)
  | GInsertBeside pane_id split_id k target edge => answered (insert_beside w pane_id split_id k target edge)
  | GInsertIntoGrid pane_id split_id k canvas metrics => answered (insert_into_grid w pane_id split_id k canvas metrics)
  | GFocus pane_id => answered (focus_pane w pane_id)
  | GFocusTask k => answered (focus_task w k)
  | GFocusToward edge allocated => moved (focus_pane_toward w edge allocated)
  | GZoom pane_id => answered (zoom w pane_id)
  | GUnzoom => (unzoom w, Silent)
  | GToggleZoom => (toggle_zoom_focused w, Silent)
  | GReplaceFocused k => answered (replace_focused_task w k)
  | GRemove pane_id => answered (remove_pane w pane_id)
  | GSwap first second => answered (swap_panes w first second)
  | GMove split_id source target => answered (move_pane w split_id source target)
  | GMoveToward split_id edge allocated => moved (move_pane_toward w split_id edge allocated)
  | GSetView k view => answered (set_view w k view)
  | GPin k px => answered (pin_task_axis_size w k px)
  | GReset k => answered (reset_task_axis_size w k)
  | GTogglePin k viewport metrics => answered (toggle_task_size_pin cmp w k viewport metrics)
  | GResizeChild split_id index px => answered (resize_split_child w split_id index px)
  | GResetChild split_id index => answered (reset_split_child w split_id index)
  | GAllocate viewport metrics => (fst (allocate cmp w viewport metrics), Silent)
  | GRegrid fresh viewport metrics => moved (regrid_to_canvas cmp w fresh viewport metrics)
  end.

(** The ids a gesture draws are new. *)
Definition fresh_for w (g : Gesture) : Prop :=
  match g with
  | GInsertAfterFocused pane_id split_id _ _ | GInsertBeside pane_id split_id _ _ _
  | GInsertIntoGrid pane_id split_id _ _ _ => (pane_id ∉ ws_ids w) /\ (split_id ∉ ws_splits w)
  | GMove split_id _ _ | GMoveToward split_id _ _ => split_id ∉ ws_splits w
  | GRegrid fresh _ _ => forall i j, fresh i = fresh j -> i = j
  | _ => True
  end.

(** What a gesture that was not refused does to the tasks shown. *)
Definition tasks_after w (g : Gesture) w' : Prop :=
  match g with
  | GInsertAfterFocused _ _ k _ | GInsertBeside _ _ k _ _ | GInsertIntoGrid _ _ k _ _ =>
      (k ∉ task_ids w) /\ task_ids w' ≡ₚ k :: task_ids w
  | GReplaceFocused k =>
      if decide (k ∈ task_ids w) then task_ids w' = task_ids w
      else exists old, focused_task w = Some old /\ old :: task_ids w' ≡ₚ k :: task_ids w
  | GRemove pane_id => exists p, ws_pane w pane_id = Some p /\ task_ids w ≡ₚ tp_task_id p :: task_ids w'
  | _ => task_ids w' ≡ₚ task_ids w
  end.

(** A size that is no positive number is the one reason to call a tree invalid: the one given, or,
    of a task pinned as it is painted, the one painted. *)
Definition bad_size w (g : Gesture) : Prop :=
  match g with
  | GPin _ px | GResizeChild _ _ px => is_positive px = false
  | GTogglePin k viewport metrics =>
      exists axis size rect, task_axis_allocation w k = Some (axis, size) /\ is_pinned size = false
        /\ snd (allocate cmp (unzoom w) viewport metrics) !! k = Some rect
        /\ is_positive (extent_of axis rect) = false
  | _ => False
  end.

Definition sound_step w (g : Gesture) (answer : Workspace K * GestureAnswer) : Prop :=
  well_formed (fst answer)
  /\ (if refused (snd answer) then fst answer = w else tasks_after w g (fst answer))
  /\ (snd answer = Answered (Err InvalidTree) -> bad_size w g).

Lemma step_calm w g {A} (a : Workspace K * result A WorkspaceError) :
  calm w a -> (forall w', task_ids w' ≡ₚ task_ids w -> tasks_after w g w') ->
  sound_step w g (fst a, Answered (rmap (fun _ => tt) (snd a))).
Proof.
  intros ((H1 & _ & H2 & _) & H3 & H4) Hg. unfold sound_step. cbn. destruct a as [w' [x|e]]; cbn in *.
  - split_and!; [done| |done]. apply Hg. by rewrite H2.
  - split_and!; [done|auto|]. intros [= ->]. done.
Qed.

Lemma step_opens w g pane_id k (a : Workspace K * result N WorkspaceError) :
  well_formed w -> opens w pane_id k a ->
  (forall w', (k ∉ task_ids w) -> task_ids w' ≡ₚ k :: task_ids w -> tasks_after w g w') ->
  sound_step w g (fst a, Answered (rmap (fun _ => tt) (snd a))).
Proof.
  intros Hw Ha Hg. unfold sound_step. destruct a as [w' [x|e]]; cbn in *.
  - destruct Ha as (H1 & _ & H2 & H3). split_and!; auto. done.
  - destruct Ha as [-> He]. split_and!; [done..|]. intros [= ->]. done.
Qed.

Lemma step_plain w g {A} (a : Workspace K * result A WorkspaceError) (P : Workspace K -> Prop) :
  well_formed w ->
  (match a with (w', Ok _) => well_formed w' /\ P w' | (w', Err e) => w' = w /\ e <> InvalidTree end) ->
  (forall w', P w' -> tasks_after w g w') ->
  sound_step w g (fst a, Answered (rmap (fun _ => tt) (snd a))).
Proof.
  intros Hw Ha Hg. unfold sound_step. destruct a as [w' [x|e]]; cbn in *.
  - destruct Ha as [H1 H2]. split_and!; auto. done.
  - destruct Ha as [-> He]. split_and!; [done..|]. intros [= ->]. done.
Qed.

Lemma pin_step w g k px :
  well_formed w -> (is_positive px = false -> bad_size w g) -> (forall w', task_ids w' ≡ₚ task_ids w -> tasks_after w g w') ->
  sound_step w g (fst (pin_task_axis_size w k px), Answered (rmap (fun _ => tt) (snd (pin_task_axis_size w k px)))).
Proof.
  intros Hw Hb Hg. unfold pin_task_axis_size. destruct (is_positive px) eqn:E; cbn [negb].
  - apply step_calm; [by apply set_size_calm|done].
  - unfold sound_step. cbn. split_and!; auto.
Qed.

Lemma keeps_step w g w' : keeps w w' -> tasks_after w g w' -> sound_step w g (w', Silent).
Proof. intros (H1 & _) H2. unfold sound_step. by split_and!. Qed.

Lemma full_keeps w w' : well_formed w -> full_ws w' = full_ws w -> keeps w w'.
Proof.
  intros Hw E. assert (Hp : map full_pane (ws_panes w') = map full_pane (ws_panes w) /\ ws_splits w' = ws_splits w).
  { unfold full_ws, ws_with_root in E. injection E as E _ _ _ _. unfold ws_panes, ws_splits.
    destruct (ws_root w') as [n'|], (ws_root w) as [n|]; try done. injection E as E.
    by rewrite <- !full_panes, <- (full_splits n'), <- (full_splits n), E. }
  destruct Hp as [Hp Hs]. unfold keeps. split_and!; [by eapply full_well_formed| |by apply full_ws_tasks|done].
  unfold ws_ids. apply (f_equal (map tp_id)) in Hp. by rewrite !map_map in Hp.
Qed.

Lemma toward_step w g (a : Workspace K * result unit WorkspaceError) :
  well_formed w ->
  (match a with (w', Ok _) => well_formed w' /\ task_ids w' ≡ₚ task_ids w | (w', Err e) => w' = w /\ e <> InvalidTree end) ->
  (forall w', task_ids w' ≡ₚ task_ids w -> tasks_after w g w') ->
  sound_step w g (fst (let '(w', r) := a in (w', is_ok r)), Moved (snd (let '(w', r) := a in (w', is_ok r)))).
Proof.
  intros Hw Ha Hg. unfold sound_step. destruct a as [w' [x|e]]; cbn in *.
  - destruct Ha as [H1 H2]. split_and!; auto. done.
  - destruct Ha as [-> He]. by split_and!.
Qed.

Lemma refused_step w g : well_formed w -> sound_step w g (w, Moved false).
Proof. intros Hw. by split. Qed.

Lemma calm_plain w {A} (a : Workspace K * result A WorkspaceError) :
  calm w a -> match a with (w', Ok _) => well_formed w' /\ task_ids w' ≡ₚ task_ids w | (w', Err e) => w' = w /\ e <> InvalidTree end.
Proof.
  intros ((H1 & _ & H2 & _) & H3 & H4). destruct a as [w' [x|e]]; cbn in *; [by rewrite H2|]. split; [auto|congruence].
Qed.

Lemma toggle_pin_step w k viewport metrics :
  well_formed w ->
  sound_step w (GTogglePin k viewport metrics) (gesture w (GTogglePin k viewport metrics)).
Proof.
  intros Hw. cbn [gesture]. unfold toggle_task_size_pin.
  destruct (task_axis_allocation w k) as [[axis a]|] eqn:Ha; [|by apply step_calm; [apply calm_err|]].
  destruct (is_pinned a) eqn:Hp; [apply step_calm; [by apply set_size_calm|done]|].
  destruct (allocate cmp (unzoom w) viewport metrics) as [w1 rects] eqn:Hal.
  destruct (rects !! k) as [rect|] eqn:Hr; [|by apply step_calm; [apply calm_err|]].
  apply pin_step; [done| |done]. intros Hpx. exists axis, a, rect. by rewrite Hal.
Qed.

Lemma regrid_step w fresh viewport metrics :
  well_formed w -> (forall i j, fresh i = fresh j -> i = j) ->
  sound_step w (GRegrid fresh viewport metrics) (gesture w (GRegrid fresh viewport metrics)).
Proof.
  intros Hw Hinj. cbn [gesture]. unfold regrid_to_canvas.
  pose proof (rebuild_spec w fresh (panes_in_reading_order cmp w viewport (sanitized metrics))
                (grid_columns_for (vp_width viewport) (sanitized metrics)) Hw Hinj) as Hr.
  destruct (rebuild_as_grid _ _ _ _) as [w' changed] eqn:E. destruct Hr as (H1 & H2 & -> & _).
  unfold sound_step. cbn. split; [done|]. split; [|done]. destruct (ws_root w) as [n|] eqn:Hn; [done|].
  unfold rebuild_as_grid in E. rewrite Hn in E. by injection E.
Qed.

(** Every gesture, from every valid workspace. *)
Lemma gesture_step w g : well_formed w -> fresh_for w g -> sound_step w g (gesture w g).
Proof.
  intros Hw Hf. destruct g; cbn [gesture fresh_for] in *.
  - destruct Hf. eapply step_opens; [done|by apply insert_after_opens|done].
  - destruct Hf. eapply step_opens; [done|by apply insert_beside_opens|done].
  - destruct Hf. eapply step_opens; [done|by apply insert_grid_opens|done].
  - apply step_calm; [by apply focus_pane_spec|done].
  - apply step_calm; [by apply focus_task_spec|done].
  - unfold focus_pane_toward. destruct (pane_toward w edge allocated); [|by apply refused_step].
    apply toward_step; [done|apply calm_plain; by apply focus_pane_spec|done].
  - apply step_calm; [by apply zoom_spec|done].
  - apply keeps_step; [by apply unzoom_keeps|]. change (task_ids w ≡ₚ task_ids w). done.
  - pose proof (toggle_zoom_keeps w Hw) as Hk. apply keeps_step; [done|]. destruct Hk as (_ & _ & Hk & _). cbn. by rewrite Hk.
  - eapply step_plain; [done|by apply replace_focused_spec|]. by intros w' [_ ?].
  - eapply step_plain; [done|by apply remove_pane_spec|done].
  - eapply step_plain; [done|by apply swap_panes_spec|done].
  - eapply step_plain; [done|by apply move_pane_spec|done].
  - unfold move_pane_toward. destruct (pane_toward w edge allocated); [|by apply refused_step].
    destruct (ws_focused w); [|by apply refused_step]. apply toward_step; [done|by apply move_pane_spec|done].
  - apply step_calm; [by apply set_view_spec|done].
  - by apply pin_step.
  - apply step_calm; [by apply set_size_calm|done].
  - by apply toggle_pin_step.
  - unfold resize_split_child. destruct (is_positive logical_px) eqn:E; cbn [negb].
    + apply step_calm; [by apply set_split_calm|done].
    + unfold sound_step. cbn. by split_and!.
  - apply step_calm; [by apply set_split_calm|done].
  - pose proof (full_keeps w _ Hw (allocate_shown cmp w viewport metrics Hw)) as Hk. apply keeps_step; [done|].
    destruct Hk as (_ & _ & Hk & _). cbn. by rewrite Hk.
  - by apply regrid_step.
Qed.

(** From the empty workspace, or one task, any gestures. *)
Inductive workspace_reached : Workspace K -> Prop :=
| reached_default : workspace_reached ws_default
| reached_single pane_id k : workspace_reached (single pane_id k)
| reached_gesture w g : workspace_reached w -> fresh_for w g -> workspace_reached (fst (gesture w g)).

Lemma reached_well_formed w : workspace_reached w -> well_formed w.
Proof.
  induction 1 as [|pane_id k|w g _ IH Hf]; [done|apply single_well_formed|]. by apply gesture_step.
Qed.

(** C34: Whatever is done to the panes, the workspace stays valid: the ids of panes and splits and the
    tasks are all different, every split has two children or more, focus and zoom name panes that
    are there.  No gesture ever fails with [InvalidTree], but for a size that is no positive
    number: one given to it, or, when a task is pinned at the size it is painted at, that one. *)
Theorem workspaces_stay_valid w :
  workspace_reached w ->
  validate w = Ok tt
  /\ forall g, fresh_for w g -> snd (gesture w g) = Answered (Err InvalidTree) -> bad_size w g.
Proof.
  intros Hw%reached_well_formed. split; [by apply validate_iff|]. intros g Hf. by apply gesture_step.
Qed.

(** C35: No gesture loses a task or doubles one.  A refused gesture changes nothing; opening adds the
    one task, closing takes the one out, replacing exchanges the focused task for the new one, and
    everything else (focus, zoom, drag, swap, resize, painting, a rebuilt grid) keeps the tasks. *)
Theorem gestures_keep_the_tasks w g :
  workspace_reached w -> fresh_for w g ->
  if refused (snd (gesture w g)) then fst (gesture w g) = w else tasks_after w g (fst (gesture w g)).
Proof. intros Hw%reached_well_formed Hf. by apply gesture_step. Qed.

(** ** Opening and closing again *)

Lemma repair_back (c : Workspace K) n f id :
  ws_root c = Some n -> f ∈ pane_ids n -> f <> id -> ws_focused c = Some id -> ws_previous_focus c = Some f ->
  repair_focus_after_removal c id = ws_with_focus c (Some f) None (ws_focus_clock c).
Proof.
  intros Hn Hf Hne Hfoc Hprev. unfold repair_focus_after_removal. rewrite Hn, Hprev, Hfoc, eqb_refl, (proj2 (N.eqb_neq f id) Hne).
  rewrite ws_pane_ids. unfold ws_ids, ws_panes. rewrite Hn. by rewrite bool_decide_eq_true_2.
Qed.

(** C36: Opening a pane beside another and closing it again leaves no trace: the tree is the one
    before, with the same splits, sizes and order, and focus and zoom are where they were (only the
    memory of the pane focused before is gone). *)
Theorem closing_undoes_opening w pane_id split_id k target edge w1 :
  validate w = Ok tt -> ws_root w <> None -> (pane_id ∉ ws_ids w) -> (split_id ∉ ws_splits w) ->
  insert_beside w pane_id split_id k target edge = (w1, Ok pane_id) ->
  exists w2, remove_pane w1 pane_id = (w2, Ok tt)
    /\ ws_root w2 = ws_root w /\ ws_focused w2 = ws_focused w /\ ws_zoomed w2 = ws_zoomed w /\ ws_previous_focus w2 = None.
Proof.
  intros Hw%validate_iff Hr Hid Hsplit E. pose proof (insert_beside_opens w pane_id split_id k target edge Hw Hid Hsplit) as Ho.
  rewrite E in Ho. destruct Ho as (Hw1 & _). revert E. unfold insert_beside.
  destruct (ws_contains_task w k); [done|]. destruct (ws_root w) as [n|] eqn:Hn; [|done].
  destruct (contains_pane n target) eqn:Ht; [|by rewrite insert_absent].
  set (p := pane_new pane_id k (next_clock w)).
  destruct (insert_spec split_id n target p (edge_axis edge) (inserts_after edge) Ht) as (m & Em & Hp & _).
  rewrite Em. cbn [negb]. unfold settle. destruct (validate _); [|done]. intros [= <-].
  pose proof Hw as Hwn. unfold well_formed in Hwn. rewrite Hn in Hwn. destruct Hwn as [Htree (f & Ef & Hfin & _ & Hz)].
  assert (Hnp : contains_pane n pane_id = false).
  { rewrite contains_pane_ids. apply bool_decide_eq_false. unfold ws_ids, ws_panes in Hid. by rewrite Hn in Hid. }
  assert (Hpin : p ∈ collect_panes m) by (apply inserted_perm in Hp; rewrite Hp; left).
  pose proof (remove_inserted split_id n target p (edge_axis edge) (inserts_after edge) (proj1 Htree) Ht Hnp) as Hrem.
  rewrite Em in Hrem. cbn [fst] in Hrem. unfold remove_pane, is_none. rewrite ws_pane_ids, bool_decide_eq_true_2.
  2: { change (tp_id p ∈ map tp_id (collect_panes m)). by apply list_elem_of_fmap_2. }
  cbn [negb ws_root ws_with_focus ws_with_root]. change (tp_id p) with pane_id in Hrem. rewrite Hrem. cbn [is_some negb].
  match goal with |- context [if ?z =?= Some pane_id then _ else _] => assert ((z =?= Some pane_id) = false) as -> end.
  { apply eqb_false. cbn. intros Hzp. apply Hz in Hzp. apply Hid. unfold ws_ids, ws_panes. by rewrite Hn. }
  assert (Hne : f <> pane_id) by (intros ->; apply Hid; unfold ws_ids, ws_panes; by rewrite Hn).
  rewrite (repair_back _ n f) by done. eexists. rewrite settle_ok; [by split_and!|].
  unfold well_formed. cbn. split; [done|]. exists f. by split_and!.
Qed.

(** ** The grid *)

Lemma widened_cons columns (r : list (TaskPane K)) rows p :
  rows <> [] \/ N.max columns 1 <= count r -> widened columns (r :: rows) p = r :: widened columns rows p.
Proof.
  intros Hor. unfold widened. cbn [pop]. pose proof (pop_spec rows) as Hp. destruct (pop rows) as [[k last]|]; subst.
  - by destruct (_ <=? _).
  - destruct Hor as [|Hc%N.leb_le]; [done|]. by rewrite Hc.
Qed.

(** One pane more on the same grid. *)
Lemma chunks_snoc columns (panes : list (TaskPane K)) p : forall row, (length row < N.to_nat (N.max columns 1))%nat ->
  chunks (N.to_nat (N.max columns 1)) (panes ++ [p]) row = widened columns (chunks (N.to_nat (N.max columns 1)) panes row) p.
Proof.
  set (c := N.to_nat (N.max columns 1)). induction panes as [|q panes IH]; intros row Hr; cbn [app chunks].
  - destruct row as [|x row]; cbn.
    + unfold widened. cbn. by repeat case_match.
    + unfold widened. cbn [pop]. assert ((N.max columns 1 <=? count (x :: row)) = false) as ->.
      { apply N.leb_gt. unfold count. cbn in *. lia. }
      cbn. by repeat case_match.
  - destruct (Nat.eqb_spec (length row + 1) c) as [E|E].
    + rewrite IH by (cbn; lia). symmetry. apply widened_cons. right. unfold count. rewrite length_app. cbn. lia.
    + apply IH. rewrite length_app. cbn. lia.
Qed.

(** C37: The grid.  Rebuilding the tree for a window lays the panes out row by row, in the order given,
    in rows of as many columns as the window holds and a last one that may be shorter; and opening a
    task on a canvas that shows such a grid gives the grid a rebuild would give with the new pane
    last, so panes opened one after another tile like panes laid out at once. *)
Theorem grid_opens_like_rebuilt w n canvas metrics :
  validate w = Ok tt -> ws_root w = Some n ->
  let columns := grid_columns_for canvas metrics in
  let grid panes m := grid_rows m = Some (chunks (N.to_nat (N.max columns 1)) panes []) in
  (forall fresh order, (forall i j, fresh i = fresh j -> i = j) ->
    exists m, ws_root (fst (rebuild_as_grid w fresh order columns)) = Some m
      /\ grid (order_panes (collect_panes n) order) m /\ order_panes (collect_panes n) order ≡ₚ collect_panes n)
  /\ (forall panes pane_id split_id k, grid panes n -> (pane_id ∉ ws_ids w) -> (split_id ∉ ws_splits w) -> (k ∉ task_ids w) ->
    exists w' m, insert_into_grid w pane_id split_id k canvas metrics = (w', Ok pane_id)
      /\ ws_root w' = Some m /\ grid (panes ++ [pane_new pane_id k (next_clock w)]) m).
Proof.
  intros Hw%validate_iff Hn columns grid. split.
  - intros fresh order Hinj. pose proof (rebuild_spec w fresh order columns Hw Hinj) as Hr.
    destruct (rebuild_as_grid w fresh order columns) as [w' changed]. destruct Hr as (_ & _ & _ & _ & _ & _ & Hr).
    destruct (Hr n Hn) as (m & Hm & Hg). exists m. split_and!; [done|done|apply order_panes_perm].
  - intros panes pane_id split_id k Hg Hid Hsplit Hk.
    destruct (insert_grid_result w n pane_id split_id k canvas metrics Hw Hn Hid Hsplit Hk) as (-> & _).
    eexists _, _. split; [done|]. split; [done|]. unfold grid. rewrite chunks_snoc by (cbn; lia).
    apply place_grid; [|done]. by eapply wf_sound.
Qed.

(** ** Selecting in the task list *)

(** The tasks shown; no workspace shows none. *)
Definition shown (o : option (Workspace K)) : list K := match o with Some w => task_ids w | None => [] end.

Definition valid_view (o : option (Workspace K)) : Prop :=
  forall w, o = Some w -> validate w = Ok tt /\ task_ids w <> [].

Lemma wf_tasks w : well_formed w -> task_ids w <> [] <-> ws_root w <> None.
Proof.
  unfold well_formed, task_ids. destruct (ws_root w) as [n|]; [|done]. intros [Ht (f & _ & Hf & _)]. split; [done|]. intros _.
  rewrite tasks_panes. unfold pane_ids in Hf. destruct (collect_panes n); [by apply not_elem_of_nil in Hf|done].
Qed.

Lemma pane_count_tasks w : pane_count w = count (task_ids w).
Proof.
  unfold pane_count, task_ids. destruct (ws_root w) as [n|]; [|done]. rewrite count_panes_count, tasks_panes. unfold count.
  by rewrite length_map.
Qed.

Lemma single_view pane_id k : valid_view (Some (single pane_id k)) /\ focused_task (single pane_id k) = Some k.
Proof.
  split.
  - intros w [= <-]. split; [apply validate_iff, single_well_formed|done].
  - unfold focused_task, ws_pane. cbn. unfold find_pane. cbn. by rewrite N.eqb_refl.
Qed.

Lemma grid_focus w pane_id split_id k canvas metrics :
  well_formed w -> (pane_id ∉ ws_ids w) -> (split_id ∉ ws_splits w) -> (k ∉ task_ids w) ->
  exists w', insert_into_grid w pane_id split_id k canvas metrics = (w', Ok pane_id)
    /\ well_formed w' /\ task_ids w' ≡ₚ k :: task_ids w /\ focused_task w' = Some k.
Proof.
  intros Hw Hid Hsplit Hk. destruct (ws_root w) as [n|] eqn:Hn.
  - destruct (insert_grid_result w n pane_id split_id k canvas metrics Hw Hn Hid Hsplit Hk) as (-> & Hw' & Ht).
    eexists. split; [done|]. split; [done|]. split; [done|].
    set (p := pane_new pane_id k (next_clock w)) in *.
    destruct (place_spec split_id n (Pane p) (grid_columns_for canvas metrics)) as (Hp & _);
      [exact (wf_sound w n Hw Hn)|by apply sound_pane, next_clock_pos|].
    unfold focused_task. cbn [ws_focused ws_with_focus mbind option_bind].
    pose proof (pane_by_id _ p (collect_panes n) [] Hw' Hp) as Hq. cbn [tp_id p pane_new] in Hq. by rewrite Hq.
  - exists (single pane_id k). unfold insert_into_grid. rewrite contains_tasks, bool_decide_eq_false_2, Hn by done.
    split_and!; [done|apply single_well_formed|unfold task_ids; by rewrite Hn|apply single_view].
Qed.

Lemma replace_answers w k w' e : well_formed w -> task_ids w <> [] -> replace_focused_task w k <> (w', Err e).
Proof.
  intros Hw Hne. rewrite wf_tasks in Hne by done. unfold replace_focused_task. rewrite contains_tasks. case_bool_decide as Hk.
  - destruct (focus_task_spec w k Hw) as [_ Hok]. rewrite bool_decide_eq_true_2 in Hok by done.
    destruct (focus_task w k) as [w1 [u|e1]]; done.
  - destruct (wf_focus w Hw Hne) as (f & -> & Hf & _).
    pose proof (pane_mut_some (ws_with_focus w (Some f) (ws_previous_focus w) (next_clock w)) f
                  (fun p => pane_with_task p k (next_clock w)) Hf) as Hm. by destruct (pane_mut _ f _).
Qed.

(** The slots of a workspace from first to last, each with its task. *)
Definition slots w : list (N * K) := map (fun p => (tp_id p, tp_task_id p)) (ws_panes w).

(** The slot shows another task; the others stay. *)
Definition in_slot (pane_id : N) (k : K) (s : N * K) : N * K :=
  (fst s, if fst s =? pane_id then k else snd s).

Lemma slots_zip w : slots w = zip (ws_ids w) (task_ids w).
Proof. unfold slots, ws_ids. rewrite ws_tasks. by induction (ws_panes w) as [|p l IH]; [|cbn; f_equal]. Qed.

Lemma keeps_slots w w' : keeps w w' -> slots w' = slots w.
Proof. intros (_ & Hi & Ht & _). by rewrite !slots_zip, Hi, Ht. Qed.

Lemma other_slots f k l :
  (f ∉ map tp_id l) -> map (fun p => in_slot f k (tp_id p, tp_task_id p)) l
                       = map (fun p : TaskPane K => (tp_id p, tp_task_id p)) l.
Proof.
  intros Hf. apply map_ext_in. intros p Hp. unfold in_slot. cbn.
  rewrite (proj2 (N.eqb_neq (tp_id p) f)); [done|]. intros <-. apply Hf, list_elem_of_fmap_2, list_elem_of_In, Hp.
Qed.

(** A task put in the focused slot. *)
Lemma replace_focused_slots w k w' :
  well_formed w -> (k ∉ task_ids w) -> replace_focused_task w k = (w', Ok tt) ->
  exists f, ws_focused w = Some f /\ ws_focused w' = Some f /\ ws_splits w' = ws_splits w
    /\ slots w' = map (in_slot f k) (slots w).
Proof.
  intros Hw Hk. unfold replace_focused_task. rewrite contains_tasks, bool_decide_eq_false_2 by done.
  destruct (ws_focused w) as [f|]; [|done]. destruct (pane_mut _ f _) as [w2|] eqn:E; [|done]. intros [= <-].
  destruct (pane_mut_spec _ _ _ _ E) as (l1 & p & l2 & G1 & G2 & G3 & G4 & G5 & _).
  exists f. split_and!; [done|by rewrite G5|exact G4|].
  change (ws_panes w = l1 ++ p :: l2) in G1. unfold slots. rewrite G1, G3, map_map, !map_app. cbn [map].
  pose proof (proj1 (wf_nodup w Hw)) as Hnd. unfold ws_ids in Hnd. rewrite G1, map_app in Hnd. cbn [map] in Hnd.
  rewrite G2 in Hnd. apply NoDup_app in Hnd as (_ & Hn1 & Hnd). apply NoDup_cons in Hnd as [Hn2 _].
  rewrite !other_slots; [|done|intros Hin; apply (Hn1 _ Hin); by left].
  do 2 f_equal. unfold in_slot. cbn. by rewrite G2, N.eqb_refl.
Qed.

(** Where a plain selection shows the task: where it is; else, of several panes, in the focused
    slot, the other slots as they were; else alone. *)
Definition selected_in (view : option (Workspace K)) (pane_id : N) (k : K) w' : Prop :=
  match view with
  | None => w' = single pane_id k
  | Some w =>
      if decide (k ∈ task_ids w) then slots w' = slots w /\ ws_splits w' = ws_splits w
      else if count (task_ids w) <=? 1 then w' = single pane_id k
      else exists f, ws_focused w = Some f /\ ws_focused w' = Some f /\ ws_splits w' = ws_splits w
             /\ slots w' = map (in_slot f k) (slots w)
  end.

(** C38: Selecting a task in the list always succeeds.  A plain selection ends with that task shown
    and focused: in its own slot, every slot as it was, if it was open; otherwise in place of the
    task of the focused slot, with the same panes and splits and every other slot as it was, or
    alone if there was one pane at most.  A toggle opens the task that is not shown, focused and
    beside the others, and closes the one that is; with the last pane the workspace goes. *)
Theorem selection_shows_the_task view pane_id split_id k canvas_width :
  valid_view view -> (forall w, view = Some w -> (pane_id ∉ ws_ids w) /\ (split_id ∉ ws_splits w)) ->
  (let '(after, answer) := apply_workspace_selection view pane_id split_id k SelectPlain canvas_width in
   answer = Ok tt /\ valid_view after
   /\ exists w, after = Some w /\ focused_task w = Some k /\ selected_in view pane_id k w)
  /\ (let '(after, answer) := apply_workspace_selection view pane_id split_id k SelectToggle canvas_width in
      answer = Ok tt /\ valid_view after
      /\ (if decide (k ∈ shown view) then shown view ≡ₚ k :: shown after
          else shown after ≡ₚ k :: shown view /\ exists w, after = Some w /\ focused_task w = Some k)).
Proof.
  intros Hv Hfresh. pose proof (single_view pane_id k) as [Hs1 Hs2]. destruct view as [w|]; cbn [apply_workspace_selection].
  2: { split; [by split_and!; [done..|eexists]|]. cbn. rewrite decide_False by apply not_elem_of_nil. split_and!; try done. by eexists. }
  destruct (Hv w eq_refl) as [Hw%validate_iff Hne]. destruct (Hfresh w eq_refl) as [Hid Hsplit]. cbn [shown].
  rewrite contains_tasks. split.
  - case_bool_decide as Hk.
    + pose proof (focus_task_spec w k Hw) as [(Hkeep & _ & _) Hok]. pose proof (focus_task_focuses w k Hw Hk) as Hf.
      rewrite bool_decide_eq_true_2 in Hok by done. destruct (focus_task w k) as [w' [[]|]]; [cbn in *|done].
      split_and!; [done| |].
      { intros w0 [= <-]. destruct Hkeep as (H1 & _ & H3 & _). rewrite H3. by rewrite validate_iff. }
      exists w'. split_and!; [done|done|]. unfold selected_in. case_decide; [|done].
      split; [by apply keeps_slots|apply Hkeep].
    + assert (forall w', selected_in (Some w) pane_id k w' <->
        if count (task_ids w) <=? 1 then w' = single pane_id k
        else exists f, ws_focused w = Some f /\ ws_focused w' = Some f /\ ws_splits w' = ws_splits w
               /\ slots w' = map (in_slot f k) (slots w)) as Hsel
        by (intros w'; unfold selected_in; by rewrite decide_False).
      rewrite pane_count_tasks. destruct (count (task_ids w) <=? 1) eqn:Ec.
      { split_and!; [done..|]. eexists. split_and!; [done..|]. by apply Hsel. }
      pose proof (replace_focused_spec w k Hw) as Hr. destruct (replace_focused_task w k) as [w' [[]|e]] eqn:E.
      * destruct Hr as (H1 & H2 & H3). rewrite decide_False in H3 by done. destruct H3 as (old & _ & H3).
        split_and!; [done| |exists w'; split_and!; [done|done|by apply Hsel, replace_focused_slots]].
        intros w0 [= <-]. split; [by apply validate_iff|]. intros Hnil. rewrite Hnil in H3.
        pose proof (Permutation_length H3) as Hl. cbn in Hl. destruct (task_ids w); [done|]. cbn in Hl. lia.
      * exfalso. by apply (replace_answers w k) in E.
  - case_bool_decide as Hk.
    + destruct (pane_for_task_some w k Hk) as [p Hp]. rewrite Hp.
      destruct (pane_for_task_in _ _ _ Hp) as [Hin <-].
      destruct (remove_present w (tp_id p) Hw) as (w' & q & -> & Hw' & Hq & Hperm); [by apply list_elem_of_fmap_2|].
      assert (q = p) as -> by (apply ws_pane_in in Hq as [Hq Hqid]; by apply (same_id w)).
      rewrite pane_count_tasks. destruct (N.eqb_spec (count (task_ids w')) 0) as [E0|E0].
      * rewrite decide_True by done. split_and!; [done|done|]. rewrite Hperm. by destruct (task_ids w').
      * rewrite decide_True by done. split_and!; [done| |done]. intros w0 [= <-]. split; [by apply validate_iff|]. by destruct (task_ids w').
    + destruct (grid_focus w pane_id split_id k canvas_width production Hw Hid Hsplit Hk)
        as (w' & -> & H1 & H2 & H3). rewrite decide_False by done.
      split_and!; [done| |done|by eexists]. intros w0 [= <-]. split; [by apply validate_iff|].
      intros Hnil. rewrite Hnil in H2. by apply Permutation_nil_cons in H2.
Qed.
End Gestures.

(** ** Renaming the tasks *)

Section Renaming.
Context {K U : Type} `{Countable K} `{Countable U} (f : K -> U).
Implicit Types n : WorkspaceNode K.

Definition rename_pane (p : TaskPane K) : TaskPane U :=
  {| tp_id := tp_id p; tp_task_id := f (tp_task_id p); tp_presentation := tp_presentation p;
     tp_last_focused_at := tp_last_focused_at p; tp_view := tp_view p |}.

Fixpoint rename_node n : WorkspaceNode U :=
  match n with
  | Pane p => Pane (rename_pane p)
  | Split id axis cs => Split id axis (map (fun c => with_node c (rename_node (sc_node c))) cs)
  end.

Definition rename_ws (w : Workspace K) : Workspace U :=
  {| ws_root := rename_node <$> ws_root w; ws_focused := ws_focused w; ws_previous_focus := ws_previous_focus w;
     ws_focus_clock := ws_focus_clock w; ws_zoomed := ws_zoomed w |}.

Lemma rename_panes n : collect_panes (rename_node n) = map rename_pane (collect_panes n).
Proof.
  induction n as [p|id axis cs IH] using node_induction; [done|]. cbn.
  induction IH as [|c cs Hc _ IH]; [done|]. cbn. by rewrite Hc, IH, map_app.
Qed.

Lemma rename_splits n : split_ids (rename_node n) = split_ids n.
Proof.
  induction n as [p|id axis cs IH] using node_induction; [done|]. cbn. f_equal.
  induction IH as [|c cs Hc _ IH]; [done|]. cbn. by rewrite Hc, IH.
Qed.

Lemma rename_sound n : sound (rename_node n) = sound n.
Proof.
  induction n as [p|id axis cs IH] using node_induction; [done|]. cbn. unfold count. rewrite length_map. f_equal.
  induction IH as [|c cs Hc _ IH]; [done|]. cbn. by rewrite Hc, IH.
Qed.

Lemma rename_tasks n : collect_task_ids (rename_node n) = map f (collect_task_ids n).
Proof. by rewrite !tasks_panes, rename_panes, !map_map. Qed.

Lemma rename_well_formed w : well_formed w -> NoDup (map f (task_ids w)) -> well_formed (rename_ws w).
Proof.
  unfold well_formed, task_ids, rename_ws. cbn. destruct (ws_root w) as [n|]; [cbn|done].
  intros [(Hs & H1 & _ & H3) Hf] Hnd. assert (Hids : pane_ids (rename_node n) = pane_ids n).
  { unfold pane_ids. by rewrite rename_panes, map_map. }
  unfold tree_sound. rewrite rename_sound, Hids, rename_tasks, rename_splits. by split_and!.
Qed.

(** The keys that come up twice stop the copy. *)
Definition renamed (ks : list U) (seen : gset U) {A} (a : A) (r : result (A * gset U) WorkspaceError) : Prop :=
  (new_in seen ks -> r = Ok (a, list_to_set ks ∪ seen)) /\ (~ new_in seen ks -> r = Err DuplicateTask).

Lemma map_node_spec n : forall seen, renamed (map f (collect_task_ids n)) seen (rename_node n) (map_workspace_node f n seen).
Proof.
  induction n as [p|id axis cs IH] using node_induction; intros seen.
  - unfold renamed. cbn. rewrite new_in_cons, new_in_nil. rewrite (right_id_L ∅ (∪)). case_bool_decide; split; naive_solver.
  - cbn [map_workspace_node rename_node collect_task_ids].
    match goal with |- context [rbind (?loop cs seen) _] => set (go := loop) end.
    assert (Hgo : renamed (map f (flat_map (fun c => collect_task_ids (sc_node c)) cs)) seen
                    (map (fun c => with_node c (rename_node (sc_node c))) cs) (go cs seen)).
    { revert seen. induction IH as [|c cs Hc _ IHcs]; intros seen.
      - split; [|intros Hn; exfalso; apply Hn; by apply new_in_nil]. intros _. cbn. by rewrite (left_id_L ∅ (∪)).
      - cbn [go flat_map map]. fold go. destruct (Hc seen) as [Hc1 Hc2]. unfold renamed. rewrite map_app, new_in_app.
        destruct (decide (NoDup (map f (collect_task_ids (sc_node c))) /\ Forall (fun x => x ∉ seen) (map f (collect_task_ids (sc_node c)))))
          as [[Hd1 Hd2]|Hd].
        + assert (Hn : new_in seen (map f (collect_task_ids (sc_node c)))) by (split; [done|by apply Forall_forall]).
          rewrite (Hc1 Hn). cbn [rbind]. destruct (IHcs (list_to_set (map f (collect_task_ids (sc_node c))) ∪ seen)) as [G1 G2].
          split.
          * intros [_ Hn2]. rewrite (G1 Hn2). cbn. rewrite list_to_set_app_L. do 2 f_equal. set_solver.
          * intros Hnot. rewrite G2; [done|]. tauto.
        + assert (Hn : ~ new_in seen (map f (collect_task_ids (sc_node c)))).
          { intros [? Hx]. apply Hd. split; [done|by apply Forall_forall]. }
          rewrite (Hc2 Hn). split; [|done]. tauto. }
    destruct Hgo as [G1 G2]. split; [intros Hn; by rewrite G1|intros Hn; by rewrite G2].
Qed.

(** Copying a workspace under other task names either keeps everything but the names (ids,
    splits, sizes, order, presentations, focus, clock and zoom), or, exactly when two tasks would get
    the same name, is refused as a duplicate. *)
Theorem renaming_is_exact w :
  validate w = Ok tt ->
  (NoDup (map f (task_ids w)) -> map_task_keys f w = Ok (rename_ws w) /\ validate (rename_ws w) = Ok tt)
  /\ (~ NoDup (map f (task_ids w)) -> map_task_keys f w = Err DuplicateTask).
Proof.
  intros Hw%validate_iff. unfold map_task_keys. pose proof (rename_well_formed w Hw) as Hr. unfold task_ids in *.
  destruct (ws_root w) as [n|] eqn:Hn.
  - destruct (map_node_spec n ∅) as [H1 H2]. rewrite new_in_empty in H1, H2. split.
    + intros Hnd. rewrite (H1 Hnd). cbn. apply Hr, validate_iff in Hnd. unfold rename_ws in *. rewrite Hn in *. cbn in *.
      by rewrite Hnd.
    + intros Hnd. by rewrite (H2 Hnd).
  - split; [|intros Hnd; exfalso; apply Hnd; constructor]. intros Hnd. apply Hr, validate_iff in Hnd.
    unfold rename_ws in *. rewrite Hn in *. cbn in *. by rewrite Hnd.
Qed.
End Renaming.

(** ** Runs *)

Ltac by_decide := refine (bool_decide_unpack _ _); vm_compute; exact I.

Definition nth_split (i : N) : N := 1000 + i.

(** Task [k] opens in pane [k], with split id [100 + k] if it needs one. *)
Definition open_after (w : Workspace N) (k : N) (axis : Axis) : Workspace N :=
  fst (insert_after_focused w k (100 + k) k axis).

Definition open_grid (canvas : Z) (w : Workspace N) (k : N) : Workspace N :=
  fst (insert_into_grid w k (100 + k) k (f32_of canvas 0) production).

Definition grid_tasks (w : Workspace N) : option (list (list N)) :=
  root ← ws_root w; rows ← grid_rows root; Some (map (map tp_task_id) rows).

Example opening_tiles :
  grid_tasks (fold_left (open_grid 1100) [2; 3; 4; 5; 6] (single 1 1)) = Some [[1; 2; 3]; [4; 5; 6]]
  /\ grid_tasks (fold_left (open_grid 2000) [2; 3; 4; 5; 6] (single 1 1)) = Some [[1; 2; 3; 4; 5]; [6]].
Proof. by vm_compute. Qed.

Definition painted (w : Workspace N) (width height : Z) : Workspace N * list (N * (Z * Z)) :=
  let '(w', rects) := allocate N.compare w (viewport_new (f32_of width 0) (f32_of height 0)) production in
  let int (x : f32) := match x with SpecFloat.S754_finite false m e => Z.shiftl (Zpos m) e | _ => 0%Z end in
  (w', map (fun '(k, r) => (k, (int (pr_width r), int (pr_height r)))) (sorted_entries rects)).

Example two_panes_share_800 :
  snd (painted (open_after (single 1 1) 2 Horizontal) 800 700) = [(1, (396%Z, 700%Z)); (2, (396%Z, 700%Z))].
Proof. by vm_compute. Qed.

(** [H[p = 1, p2 = 3], q = 2, q2 = 4, q3 = 5]]: the skipped pane is tried again. *)
Definition two_columns : Workspace N :=
  let w := open_after (single 1 1) 2 Horizontal in
  let w := open_after (fst (focus_task w 1)) 3 Vertical in
  let w := open_after (fst (focus_task w 2)) 4 Vertical in
  fst (focus_task (open_after w 5 Vertical) 5).

Example a_skip_is_provisional :
  let '(w, rects) := painted two_columns 800 300 in
  map (presentation w) [1; 3; 2; 4; 5] = [Some Minimised; Some Full; Some Minimised; Some Minimised; Some Full]
  /\ map (fun x => snd (snd x)) rects = [28; 28; 264; 28; 228]%Z.
Proof. by vm_compute. Qed.

(** [rebuild_as_grid] reports a change whenever there is a pane: here it changes nothing. *)
Example rebuild_always_changed :
  rebuild_as_grid (single 1 1) nth_split [1] 3 = (single 1 1, true).
Proof. by vm_compute. Qed.

Lemma two_columns_valid : validate two_columns = Ok tt.
Proof. by vm_compute. Qed.

Lemma nth_split_inj i j : nth_split i = nth_split j -> i = j.
Proof. unfold nth_split. lia. Qed.

Lemma some_only {A} (P : A -> Prop) x : P x -> forall y, Some x = Some y -> P y.
Proof. by intros Hx y [= <-]. Qed.

Definition window : Viewport := viewport_new (f32_of 800 0) (f32_of 300 0).

Lemma minimise_ends_witness :
  exists w', minimise_to_fit N.compare two_columns window production = Some w' /\ full_ws w' = full_ws two_columns.
Proof.
  destruct (minimise_ends N.compare two_columns window production two_columns_valid) as (w' & H1 & H2 & _).
  exists w'. exact (conj H1 H2).
Defined.

Lemma allocation_places_every_pane_witness :
  dom (snd (allocate N.compare two_columns window production)) = list_to_set (task_ids two_columns).
Proof.
  pose proof (allocation_places_every_pane N.compare two_columns window production two_columns_valid) as H.
  destruct (allocate N.compare two_columns window production) as [w' rects]. destruct H as (_ & _ & H).
  replace (ws_zoomed two_columns) with (@None N) in H by (by vm_compute). exact H.
Defined.

Definition moved : Gesture (K:=N) := GMove 200 1 (DropEdge 5 EdgeTop).

Lemma two_columns_reached : workspace_reached N.compare two_columns.
Proof.
  pose proof (reached_single N.compare 1 1) as H.
  apply (reached_gesture _ _ (GInsertAfterFocused 2 102 2 Horizontal)) in H; [|split; by_decide].
  apply (reached_gesture _ _ (GFocusTask 1)) in H; [|done].
  apply (reached_gesture _ _ (GInsertAfterFocused 3 103 3 Vertical)) in H; [|split; by_decide].
  apply (reached_gesture _ _ (GFocusTask 2)) in H; [|done].
  apply (reached_gesture _ _ (GInsertAfterFocused 4 104 4 Vertical)) in H; [|split; by_decide].
  apply (reached_gesture _ _ (GInsertAfterFocused 5 105 5 Vertical)) in H; [|split; by_decide].
  apply (reached_gesture _ _ (GFocusTask 5)) in H; [exact H|done].
Qed.

Lemma moved_fresh : fresh_for two_columns moved.
Proof. by_decide. Qed.

Lemma workspaces_stay_valid_witness :
  validate two_columns = Ok tt /\ snd (gesture N.compare two_columns moved) <> Answered (Err InvalidTree).
Proof.
  destruct (workspaces_stay_valid N.compare two_columns two_columns_reached) as [H1 H2].
  split; [exact H1|]. intros H. exact (H2 moved moved_fresh H).
Defined.

Lemma gestures_keep_the_tasks_witness :
  task_ids (fst (gesture N.compare two_columns moved)) ≡ₚ task_ids two_columns.
Proof.
  pose proof (gestures_keep_the_tasks N.compare two_columns moved two_columns_reached moved_fresh) as H.
  replace (refused (snd (gesture N.compare two_columns moved))) with false in H by (by vm_compute). exact H.
Defined.

Lemma closing_undoes_opening_witness :
  exists w2, remove_pane (fst (insert_beside two_columns 6 106 6 4 EdgeLeft)) 6 = (w2, Ok tt) /\ ws_root w2 = ws_root two_columns.
Proof.
  assert (H6 : 6 ∉ ws_ids two_columns) by by_decide.
  assert (H106 : 106 ∉ ws_splits two_columns) by by_decide.
  assert (Hr : ws_root two_columns <> None) by (vm_compute; discriminate).
  assert (E : insert_beside two_columns 6 106 6 4 EdgeLeft = (fst (insert_beside two_columns 6 106 6 4 EdgeLeft), Ok 6))
    by (vm_compute; reflexivity).
  destruct (closing_undoes_opening two_columns 6 106 6 4 EdgeLeft _ two_columns_valid Hr H6 H106 E) as (w2 & H1 & H2 & _).
  exists w2. exact (conj H1 H2).
Defined.

Lemma grid_opens_like_rebuilt_witness :
  exists w' m, insert_into_grid (single 1 1) 2 102 2 (f32_of 1100 0) production = (w', Ok 2)
    /\ ws_root w' = Some m /\ grid_rows m = Some [[pane_new 1 1 1; pane_new 2 2 2]].
Proof.
  assert (Hv : validate (single 1 1) = Ok tt) by (by vm_compute).
  exact (proj2 (grid_opens_like_rebuilt (single 1 1) (Pane (pane_new 1 1 1)) (f32_of 1100 0) production Hv eq_refl)
           [pane_new 1 1 1] 2 102 2 ltac:(by vm_compute) ltac:(by_decide) ltac:(by_decide)
           ltac:(by_decide)).
Defined.

Lemma selection_shows_the_task_witness :
  exists w, fst (apply_workspace_selection (Some two_columns) 6 106 3 SelectPlain (f32_of 800 0)) = Some w
    /\ focused_task w = Some 3.
Proof.
  assert (Hne : task_ids two_columns <> []) by (vm_compute; discriminate).
  pose proof (some_only (fun w => validate w = Ok tt /\ task_ids w <> []) _ (conj two_columns_valid Hne)) as Hv.
  assert (H6 : 6 ∉ ws_ids two_columns) by by_decide. assert (H106 : 106 ∉ ws_splits two_columns) by by_decide.
  pose proof (some_only (fun w => (6 ∉ ws_ids w) /\ (106 ∉ ws_splits w)) _ (conj H6 H106)) as Hf.
  pose proof (selection_shows_the_task (Some two_columns) 6 106 3 (f32_of 800 0)) as H.
  specialize (H Hv). specialize (H Hf). destruct H as [H _].
  destruct (apply_workspace_selection (Some two_columns) 6 106 3 SelectPlain (f32_of 800 0)) as [after answer].
  destruct H as (_ & _ & w & H1 & H2 & _). exists w. exact (conj H1 H2).
Defined.

Lemma renaming_is_exact_witness :
  map_task_keys (fun k => k + 7) two_columns = Ok (rename_ws (fun k => k + 7) two_columns).
Proof.
  apply (renaming_is_exact (fun k => k + 7) two_columns two_columns_valid).
  apply NoDup_fmap_2; [intros i j ?; lia|]. by_decide.
Defined.
